(* ===== verification/_CoqProject ===== *)
-Q . S2P
Prelude.v
Bits.v
CommonUtils.v
GetBits.v
PutBits.v
Golomb.v
Parse.v
HevcTypes.v
HevcRps.v
HevcVps.v
HevcSps.v
HevcStreams.v
ParseBits.v
Vp9.v
Vp9Ok.v
Vp9Stream.v
SwdmxCrc32.v
SwdmxList.v
SwdmxTs.v
SwdmxPes.v
SwdmxDemux.v
SwdmxSections.v
SwdmxLinks.v
AesCore.v
AesFips.v
AesOk.v
AesKeys.v
SwdmxCbc.v
SwdmxCbcOk.v
SwdmxDesc.v
SwdmxDescOk.v
T5dStream.v
T5dPipe.v
BufCore.v
BufHolder.v
BufPool.v
BufRefs.v
BufLife.v
PtsServer.v
PtsCheckin.v
PtsCheckout.v
PtsLists.v
PtsOps.v
PtsLife.v
H264Sort.v
H264Types.v
H264Poc.v
H264Pool.v
H264Display.v
H264Slice.v
H264Mark.v
H264Store.v
H264Lists.v
H264Header.v
H264Inv.v
H264MarkOk.v
H264PoolOk.v
H264Fill.v
H264DisplayOk.v
H264Safe.v
H264Keeps.v
H264ListsOk.v
H264ListsB.v
H264Reorder.v
H264Regs.v
H264HeaderOk.v
H264Start.v
H264NewPic.v
H264Life.v
H264Spec.v
