(* ===== verification/Prelude.v ===== *)
(** * Amlogic media modules: a verification library

    The repository holds the Linux kernel drivers of Amlogic's video decoders
    and demultiplexers.  Most of it programs hardware; this library models
    parts that compute: the HEVC and VP9 header parsers of the V4L2 decoder
    ports with the bit readers below them, the buffer core of these ports, the software
    transport stream demultiplexer with its descrambler down to AES, the PTS
    server and the decoded picture buffer of the H.264 decoder.
    Names of files below are those under src/drivers/.

    ** How the parts interact

    A decoder port (amvdec_ports/decoder/) gets extradata or a frame, finds
    NAL units in it and removes the emulation prevention bytes
    (utils/common.c), reads the payload bit by bit (utils/get_bits.h,
    utils/golomb.h) and fills the parameter sets the decoder is configured
    from (aml_hevc_parser.c); a VP9 frame, alone or in a superframe, is read
    in place (aml_vp9_parser.c).  The demultiplexer (stream_input/t5d_demux/
    sw_demux/) cuts a byte stream into transport packets (swdmx_ts_parser.c)
    and hands each to its callback, the descrambler (swdmx_descrambler.c),
    which decrypts the payload in the buffer when a channel is set up for the
    PID (swdmx_aes_cbc.c on cbc128.c and aes_core.c) and hands the packet on
    to its own callback, the demux (swdmx_demux.c).  That routes it by PID to
    TS filters and reassembles sections for section filters, checking their
    CRC (swdmx_crc32.c); the PES parser (swdmx_pes_parser.c) is a callback of
    a TS filter and reassembles PES packets.  The bytes come from
    t5d_process_stream (t5d_demux.c) in pieces of any size.

    The pictures a port decodes live in buffers that the decoder, the post
    processors and the V4L2 queue share; amvdec_ports/aml_buf_core.c counts
    the references of each, keeps the free ones in a queue and, for some
    codecs, the YUV memory in a pool of its own.  The PTS server
    (media_sync/pts_server/) carries time stamps past the decoder: the
    demultiplexer checks in the byte offset at which a time stamp begins, the
    decoder checks out the time stamp of the offset a picture came from.

    The H.264 decoder (frame_provider/decoder/h264_multi/) lets firmware parse
    and decode; for each slice the firmware leaves the syntax elements in
    registers.  h264_dpb.c turns them into a slice header, derives the order
    count of the picture, takes a picture and buffers for it and builds the
    reference lists ([h264_slice_header_process]); when the picture is
    decoded, the driver (vmh264.c) has it marked and stored
    ([store_picture_in_dpb]) or drops it.  Frames go to the display in output
    order ([prepare_display_buf] of vmh264.c), come back from it
    ([vh264_vf_put]) and leave the buffer when they were put out, are no
    reference any more and nobody shows them.

    ** Files

    - Prelude: machine integers, record update, the state monad [M] with
      undefined behaviour ([Undef]) and error returns ([Err]), its weakest
      preconditions, array access ([aget], [aset]) and block copies ([load],
      [store]).  Bits: numbers as lists of bits.
    - CommonUtils: utils/common.c.  [nal_unit_extract_rbsp] against
      [unescape] and the encoder [escape]; [calc_nal_len]; [av_log2].
    - GetBits: utils/get_bits.h.  Every read against the bits of the buffer
      ([stream]).  PutBits: utils/put_bits.h, what a sequence of puts and a
      flush leave in memory.  Golomb: utils/golomb.h and golomb.c, the
      decoders against the codes ue(v) and se(v), and round trips.
    - Parse: parsers as a state monad over a reader and a structure.
      HevcTypes: the structures of aml_hevc_parser.h.  HevcRps:
      [ff_hevc_decode_short_term_rps].  HevcVps: profile/tier/level, HRD and
      [ff_hevc_parse_vps].  HevcSps: scaling lists, VUI and
      [ff_hevc_parse_sps].  HevcStreams: [h265_decode_extradata_ps].
    - Vp9: aml_vp9_parser.c and [parse_stream_cpu] of vdec_vp9_if.c.
      ParseBits: rules to run a parser on known bits.  Vp9Ok: frame headers
      against the syntax, the range of what is accepted.  Vp9Stream:
      superframes and [vp9_decode_extradata_ps].
    - SwdmxCrc32, SwdmxList (swdemux_internal.h, swdmx_cb_list.c), SwdmxTs,
      SwdmxPes: one file per file of sw_demux/.  SwdmxDemux is the model of
      swdmx_demux.c, SwdmxSections its section path, SwdmxLinks its filters.
    - AesCore: the AES of sw_demux/aes_core.c with its tables.  AesFips: the
      cipher of FIPS-197 as the standard defines it (the reference).  AesOk
      and AesKeys: blocks and key schedules of the code against it.  SwdmxCbc
      and SwdmxCbcOk: cbc128.c and aes_cbc.c.  SwdmxDesc: swdmx_descrambler.c
      and swdmx_aes_cbc.c; SwdmxDescOk, what it does to a stream.
    - T5dStream: t5d_process_stream, against a consumer of packets given by
      the class [Consumer]; T5dPipe: its instances, a log and the descrambler.
    - BufCore: aml_buf_core.c and the structures of aml_buf_core.h.
      BufHolder: the counters of the holders.  BufPool: the pool of YUV
      memory.  BufRefs: the invariant of the references and what each
      operation does to it.  BufLife: sequences of operations.
    - PtsServer: the data of pts_server_core.c, its table of instances, their
      creation, settings and release.  PtsCheckin, PtsCheckout: the
      operations on time stamps.  PtsLists: the invariant of the two lists of
      nodes, kept by a check-in and by the search of a check-out.  PtsOps: the
      answers.  PtsLife: the table and sequences of operations.
    - h264_dpb.c, the code: H264Sort ([qsort] and its proof), H264Types (the
      structures of h264_dpb.h, access through pointers, the state and the
      answers of the driver as the class [H264Driver]), H264Poc ([decode_poc]
      and its proofs), H264Pool (pictures, fields and frames, in and out of a
      frame store), H264Display (handing frames to the display and back, from
      vmh264.c), H264Slice (registers to slice header, initialisation),
      H264Mark (reference marking), H264Store (output and storing), H264Lists
      (reference lists), H264Header ([h264_slice_header_process]).
    - h264_dpb.c, the proofs: H264Inv, the invariant [inv]; H264MarkOk,
      H264PoolOk, H264Fill, H264DisplayOk and H264Safe, that marking, pool,
      insertion, display, output and storing keep it; H264Keeps, rules for
      facts that operations keep when they end; H264ListsOk, H264ListsB and H264Reorder, the
      reference lists; H264Regs and H264HeaderOk, what comes from the
      registers; H264Start and H264NewPic, initialisation and new pictures;
      H264Life, sequences of operations; H264Spec, what single operations do.

    ** State and operations

    A C structure is a record with the members' names (a prefix where two
    structures share one); an operation is a definition with the function's
    name in the state monad of the structure it changes.  A read or write
    outside an object, and a shift by the width or more, is [Undef].  Loops
    are folds over their bounds where the code counts, and take fuel where it
    does not; running out of fuel is [Undef], so the theorems that exclude
    [Undef] also say that the fuel is enough.  The fuel: a payload loop gets
    one more than the bytes left and takes a byte per turn; a list loop gets
    the length of the list; [run_loop] gets the bytes left; the bits of a CRC
    entry are 8 and a test.

    The demux is a record of filters by address.  That its lists are those
    the pointers make is shown on a heap in SwdmxList.  Allocation returns an
    address that is not in use.  Callbacks are recorded as events; that they
    do not call back into the demux is an assumption of the model.

    The descrambler's channels, key entries and key data are objects by
    address, released ones are gone, and what malloc leaves in a new one is an
    argument.  Packets stay in the buffer they came in and are offsets into
    it, so what a callback changes is seen by the next.  AES keys are records
    with the array of round keys; the rounds get half the number the structure
    says in turns, at most 8.  CBC gets one turn more than the length.
    [process_loop] gets one turn more than the bytes of the piece: each takes
    a byte or is the last.

    The buffer core's entries are records by address, the YUV memory slots of
    an array; what the buffer manager supplies as function pointers is the
    class [BufCallbacks], with what the core relies on in [BufCallbacksOk].
    Each operation holds the core's mutex and is one step.  The nodes of a
    PTS instance are indices of its array [all_free_ptn], its lists are lists
    of indices; the walks go over the list as it was when they began, which is
    what list_for_each_entry_safe does as long as only the current node moves.
    A freed entry or a node an instance does not have is [Undef], as is a
    division by 0.

    The H.264 buffer is one record, [h264_dpb_stru]; a pointer to a picture or
    a frame store is an index of the array it points into, NULL is [None],
    [dummy_pic] and [dummy_fs] are the elements behind the last ones.  What
    the driver does is recorded as events.  Between two calls, also between
    two within one operation, other threads of the driver may change its state
    (pool of buffers, fences, display queue): [H264Driver] gives, for the
    events so far, the state [prepare_display_buf] finds, and the answers of
    the functions that ask the hardware's buffer pool.

    The fuel: loops "while the callee says so" get [TURNS] = 33 turns, one more
    than there are frame stores; 66 registers bound the modification commands
    and 45 places the marking commands; alternating fields get twice the
    number of frame stores; a sort gets one turn per element, its scans one
    more than the part has.  That no fuel runs out is part of
    [dpb_session_safe], for a driver state as [H264DriverOk] says: its table
    of buffers has 64 entries, frames that wait for a fence belong to one of
    them, and when the buffer is set up for decoding without display
    ([without_display_mode]) fences are off and the display queue is empty.
    Nothing else is assumed of it; that a frame the display accepts is marked,
    so that the output loops end, is proved of [prepare_display_buf].

    ** What the theorems show

    - Bits: the readers return the bits of the stream; the writers leave them
      in memory; Golomb codes are decoded and written correctly in the stated
      ranges; the exceptions ([get_bits_long] at 32 bits, [char]) are stated.
    - HEVC: every successful parse satisfies the constraints of the standard
      ([vps_valid], [sps_valid], [rps_wf]); the parsers stay inside their
      arrays; the VPS parser terminates; inputs on which checks fail to work.
    - VP9: every frame header the syntax can express is read back exactly, a
      superframe is taken apart as it was put together and its first header
      reaches the decoder; whatever is accepted is a frame with a size, depth
      and pixel format; the entry point stays in its buffer and returns; the
      streams on which positions and result go wrong.
    - Demux: the transport parser is safe on any bytes, independent of how
      they are cut, and inverts an encoder; PES packets and sections are
      reassembled exactly, whatever the cuts, sections of any length with
      stuffing between them; the CRC is the remainder and
      detects bursts; the filters stay linked consistently under every
      sequence of calls, packets go to exactly the filters of their PID, and
      freeing the demux frees every filter.
    - AES: key schedules and blocks of the table driven code are those of
      FIPS-197 for the three key sizes, the decryption undoes the encryption;
      CBC is the mode over it, into another buffer and in place.
    - Descrambler: a stream that comes in scrambled under the keys of its
      channels goes out as the clear stream, byte for byte; packets whose
      channel has no key or vector of their parity pass unchanged; the setup
      of key entries; uses of the interface that read outside of objects.
    - Streams: how the bytes of a source are cut does not matter; together
      with the descrambler, the consumers behind it get the clear packets.
    - Buffer core: under every sequence of calls that keeps to the rules of
      [op_valid], the free queue holds exactly the buffers nobody references,
      no pointer dangles, and no reference is lost; the calls outside the
      rules that break this are shown to.
    - PTS server: under every sequence of calls each node is in one list of
      its instance and the counts agree; what a check-in adds and where; that
      the answer of a check-out is a node that leaves the list, the last
      answer, an extrapolation, or what the caller put in; that what was checked in is checked out;
      the calls that go wrong (the tenth instance, truncated time stamps).
    - H.264 buffer: under every sequence of what the driver does, nothing is
      undefined, every loop ends, and every picture in use is in one place;
      the initial reference lists have the order of the standard, also for
      fields, and a modification command does to them what the standard says;
      order counts of type 0 and 1 are those of the standard, for frames and
      fields; the commands
      come back from the registers as they were written; the list of
      references is that of the marked frames; the next frame put out is the
      one with the smallest count, and a flush leaves none behind that has a
      buffer; the sort sorts, and asks the comparison about elements of the
      part it is given only.

    ** Assumptions

    - Kernel code (allocation, krealloc, printing) is a parameter or left
      out; hypotheses on it are named where a theorem uses it.
    - The kernel is built with -fno-strict-overflow: signed arithmetic wraps.
    - A machine word is 4 or 8 bytes, little endian ([WordSize]).
    - Plain [char] is signed or unsigned by a parameter ([char_signed]).

    ** Not modelled

    The hardware decoders and encoders (frame_provider/, frame_sink/: register
    programming and firmware), the hardware demultiplexers and the DVB-CI
    stack, the V4L2 glue, tables of chips and clocks, the AES code for ARM
    instructions (assembly), tools and firmware images.  Not modelled either,
    although they compute: the parsers of the other codecs (H.264, MPEG, MJPEG), the picture
    buffers of the other decoders (av1, vp9, avs2, h265), A/V synchronisation,
    the buffer manager (aml_buf_mgr.c), and of t5d_demux.c the tables of
    devices, filters, keys and channels around the software demux.  The AVBC buffers of the buffer core are
    modelled but are in no sequence of calls of BufLife, and the ioctl layer
    of the PTS server (pts_server_dev.c) is left out.  Within the modelled
    files: the little-endian bit readers and writers, VLC table readers,
    interleaved and Rice codes; of h264_dpb.c the functions that print, those
    that are compiled out ([remove_dpb_pictures]) or not called
    ([fill_frame_num_gap], [is_new_picture]), and members that are only
    carried along. *)

From stdpp Require Import base list numbers strings.
From Stdlib Require Import ZArith Lia Bool.

#[local] Open Scope Z_scope.

(** ** Machine integers

    Values of the C types are [Z] with their range; an assignment or a
    conversion to a narrower type goes through the functions below.  The
    kernel is built with [-fno-strict-overflow], so signed arithmetic wraps. *)

Definition u8 (x : Z) : Z := x mod 2 ^ 8.

Definition u16 (x : Z) : Z := x mod 2 ^ 16.

Definition u32 (x : Z) : Z := x mod 2 ^ 32.

Definition u64 (x : Z) : Z := x mod 2 ^ 64.

Definition s32 (x : Z) : Z := (x + 2 ^ 31) mod 2 ^ 32 - 2 ^ 31.

Definition s64 (x : Z) : Z := (x + 2 ^ 63) mod 2 ^ 64 - 2 ^ 63.

(** A signed [char]. *)
Definition s8 (x : Z) : Z := (x + 2 ^ 7) mod 2 ^ 8 - 2 ^ 7.

(** The C truth value of a comparison. *)
Definition b2z (b : bool) : Z := if b then 1 else 0.

(** The C reading of an integer as a condition. *)
Definition truth (x : Z) : bool := negb (x =? 0).

(** ** Record update

    [set proj f r] replaces field [proj] of [r]; the setter is derived from
    the eta expansion that the [Settable] instance of the record gives. *)

Class Settable (R : Type) := eta_of : R → R.

Class Setter {R T : Type} (proj : R → T) := set_field : (T → T) → R → R.

Arguments set_field {R T} proj {Setter} f r.

Ltac derive_setter :=
  match goal with
  | |- @Setter ?R ?T ?proj =>
      let e := constr:(_ : Settable R) in
      let raw := eval unfold eta_of in e in
      let body := eval hnf in raw in
      let pat := eval pattern proj in body in
      match pat with
      | ?F ?p => let t := eval cbv beta in (fun (f : T → T) (r : R) => F (fun r' => f (p r')) r) in
                 exact t
      end
  end.

#[global] Hint Extern 0 (Setter _) => derive_setter : typeclass_instances.

Declare Scope cstruct_scope.
Delimit Scope cstruct_scope with cstruct.
Notation "r '<|' p ':=' v '|>'" := (set_field p (fun _ => v) r)
  (at level 1, left associativity, p at level 200, v at level 200,
   format "r  '<|'  p  ':='  v  '|>'").


(** ** Effects

    A C function that works on a state [S] is a computation [M S A]: it
    returns a value, returns early with a C error code, or runs into
    behaviour C leaves undefined (an access outside an object, a shift by
    the width of the operand).  The state reached so far is kept on an early
    return, because the C callers go on with it. *)

Inductive res (S A : Type) : Type :=
| Ok (a : A) (s : S)
| Err (e : Z) (s : S)
| Undef.

Arguments Ok {S A} a s.
Arguments Err {S A} e s.
Arguments Undef {S A}.

Definition M (S A : Type) : Type := S → res S A.

#[export] Instance M_ret S : MRet (M S) := fun A a s => Ok a s.

#[export] Instance M_bind S : MBind (M S) := fun A B k m s =>
  match m s with
  | Ok a s' => k a s'
  | Err e s' => Err e s'
  | Undef => Undef
  end.

Section Operations.
Context {S : Type}.

(** [return e;] of a function that reports errors by its result. *)
Definition throw {A} (e : Z) : M S A := fun s => Err e s.

Definition undef {A} : M S A := fun _ => Undef.

Definition get : M S S := fun s => Ok s s.

Definition gets {A} (f : S → A) : M S A := fun s => Ok (f s) s.

Definition modify (f : S → S) : M S unit := fun s => Ok tt (f s).

(** [if (b) m] *)
Definition when (b : bool) (m : M S unit) : M S unit :=
  if b then m else mret tt.

(** [if (b) return e;] *)
Definition fail_if (b : bool) (e : Z) : M S unit := when b (throw e).

(** A function whose body may return early, seen by its caller: the result
    is the C return value, 0 when the body runs to its end. *)
Definition call (m : M S unit) : M S Z := fun s =>
  match m s with
  | Ok _ s' => Ok 0 s'
  | Err e s' => Ok e s'
  | Undef => Undef
  end.

(** Some value that the code computes, or undefined behaviour. *)
Definition of_option {A} (o : option A) : M S A :=
  match o with Some a => mret a | None => undef end.

(** [for (i = lo; i < lo + n; i++) body] *)
Fixpoint for_n (n : nat) (lo : Z) (body : Z → M S unit) : M S unit :=
  match n with
  | O => mret tt
  | Datatypes.S n' => body lo ;; for_n n' (lo + 1) body
  end.

(** [for (i = lo; i < hi; i++) body], [hi] not changed by the body. *)
Definition for_range (lo hi : Z) (body : Z → M S unit) : M S unit :=
  for_n (Z.to_nat (hi - lo)) lo body.

(** The same loop with an accumulator, the local variables it changes. *)
Fixpoint fold_n {A} (n : nat) (lo : Z) (body : Z → A → M S A) (a : A) : M S A :=
  match n with
  | O => mret a
  | Datatypes.S n' => a' ← body lo a ; fold_n n' (lo + 1) body a'
  end.

Definition fold_range {A} (lo hi : Z) (body : Z → A → M S A) (a : A) : M S A :=
  fold_n (Z.to_nat (hi - lo)) lo body a.

(** [for (k = n - 1; k >= 0; k--) body] *)
Fixpoint for_down (n : nat) (body : Z → M S unit) : M S unit :=
  match n with
  | O => mret tt
  | Datatypes.S n' => body (Z.of_nat n') ;; for_down n' body
  end.
End Operations.

(** A computation on a part of the state: the address of a field passed to a
    callee. *)
Definition zoom {S T A : Type} (g : S → T) (p : T → S → S) (m : M T A) : M S A :=
  fun s => match m (g s) with
           | Ok a t => Ok a (p t s)
           | Err e t => Err e (p t s)
           | Undef => Undef
           end.

(** ** C arrays

    An array object is a list; the index is checked, an access outside is
    undefined behaviour. *)

Definition zlen {A} (l : list A) : Z := Z.of_nat (length l).

Definition aget {A} (l : list A) (i : Z) : option A :=
  if 0 <=? i then l !! Z.to_nat i else None.

Definition aset {A} (l : list A) (i : Z) (v : A) : option (list A) :=
  if (0 <=? i) && (i <? zlen l) then Some (<[Z.to_nat i := v]> l) else None.

(** A read of a constant table whose index is in range by construction. *)
Definition tab (l : list Z) (i : Z) : Z := nth (Z.to_nat i) l 0.

(** ** Program logic

    [wp U m Q E s]: run from [s], [m] ends normally in a state and with a
    value satisfying [Q], or returns early in one satisfying [E]; undefined
    behaviour is excluded when [U] is [False] and ignored when it is [True]. *)

Definition wp (U : Prop) {S A} (m : M S A) (Q : A → S → Prop) (E : Z → S → Prop)
    (s : S) : Prop :=
  match m s with
  | Ok a s' => Q a s'
  | Err e s' => E e s'
  | Undef => U
  end.

Section Wp.
Context {U : Prop} {S : Type}.
Implicit Types s : S.

Lemma wp_ret {A} (a : A) (Q : A → S → Prop) E s : Q a s → wp U (mret a) Q E s.
Proof. done. Qed.

Lemma wp_bind {A B} (m : M S A) (k : A → M S B) Q E s :
  wp U m (fun a => wp U (k a) Q E) E s → wp U (m ≫= k) Q E s.
Proof. unfold wp, mbind, M_bind. by destruct (m s). Qed.

Lemma wp_throw {A} e (Q : A → S → Prop) (E : Z → S → Prop) s :
  E e s → wp U (throw e) Q E s.
Proof. done. Qed.

Lemma wp_get (Q : S → S → Prop) E s : Q s s → wp U get Q E s.
Proof. done. Qed.

Lemma wp_gets {A} (f : S → A) (Q : A → S → Prop) E s :
  Q (f s) s → wp U (gets f) Q E s.
Proof. done. Qed.

Lemma wp_modify f (Q : unit → S → Prop) E s : Q tt (f s) → wp U (modify f) Q E s.
Proof. done. Qed.

Lemma wp_mono {A} (m : M S A) (Q Q' : A → S → Prop) (E E' : Z → S → Prop) s :
  wp U m Q E s → (∀ a s', Q a s' → Q' a s') → (∀ e s', E e s' → E' e s') →
  wp U m Q' E' s.
Proof. unfold wp. destruct (m s); auto. Qed.

Lemma wp_when (b : bool) (m : M S unit) (Q : unit → S → Prop) E s :
  (b = true → wp U m Q E s) → (b = false → Q tt s) → wp U (when b m) Q E s.
Proof. intros H1 H2. destruct b; [by apply H1|by apply H2]. Qed.

Lemma wp_if {A} (b : bool) (m1 m2 : M S A) Q E s :
  (b = true → wp U m1 Q E s) → (b = false → wp U m2 Q E s) →
  wp U (if b then m1 else m2) Q E s.
Proof. destruct b; auto. Qed.

Lemma wp_fail_if (b : bool) e (Q : unit → S → Prop) (E : Z → S → Prop) s :
  (b = true → E e s) → (b = false → Q tt s) → wp U (fail_if b e) Q E s.
Proof. intros H1 H2. destruct b; [by apply H1|by apply H2]. Qed.

Lemma wp_call (m : M S unit) (Q : Z → S → Prop) E s :
  wp U m (fun _ => Q 0) Q s → wp U (call m) Q E s.
Proof. unfold wp, call. by destruct (m s). Qed.

Lemma wp_of_option {A} (o : option A) (Q : A → S → Prop) E s :
  (∀ a, o = Some a → Q a s) → (o = None → U) → wp U (of_option o) Q E s.
Proof. intros H1 H2. destruct o; [by apply H1|by apply H2]. Qed.

Lemma wp_for_n n lo (body : Z → M S unit) (I : Z → S → Prop) (E : Z → S → Prop) s :
  I lo s →
  (∀ i s', lo ≤ i < lo + Z.of_nat n → I i s' →
     wp U (body i) (fun _ => I (i + 1)) E s') →
  wp U (for_n n lo body) (fun _ => I (lo + Z.of_nat n)) E s.
Proof.
  revert lo s. induction n as [|n IH]; intros lo s HI Hb; cbn [for_n].
  - replace (lo + Z.of_nat 0) with lo by lia. done.
  - apply wp_bind. eapply wp_mono; [apply Hb; [lia|done] | | auto].
    intros [] s' Hs'. replace (lo + Z.of_nat (Datatypes.S n)) with ((lo + 1) + Z.of_nat n) by lia.
    apply IH; [done|]. intros i s'' Hi. apply Hb; lia.
Qed.

Lemma wp_for_range lo hi (body : Z → M S unit) (I : Z → S → Prop) Q (E : Z → S → Prop) s :
  I lo s →
  (∀ i s', lo ≤ i < hi → I i s' → wp U (body i) (fun _ => I (i + 1)) E s') →
  (∀ s', I (Z.max lo hi) s' → Q tt s') →
  wp U (for_range lo hi body) Q E s.
Proof.
  intros HI Hb HQ. unfold for_range. eapply wp_mono.
  - apply (wp_for_n _ _ _ I); [done|]. intros i s' Hi. apply Hb; lia.
  - intros [] s' Hs'. apply HQ. replace (Z.max lo hi) with (lo + Z.of_nat (Z.to_nat (hi - lo))) by lia.
    done.
  - auto.
Qed.

Lemma wp_fold_n {A} n lo (body : Z → A → M S A) (I : Z → A → S → Prop) (E : Z → S → Prop) a s :
  I lo a s →
  (∀ i a' s', lo ≤ i < lo + Z.of_nat n → I i a' s' → wp U (body i a') (I (i + 1)) E s') →
  wp U (fold_n n lo body a) (I (lo + Z.of_nat n)) E s.
Proof.
  revert lo a s. induction n as [|n IH]; intros lo a s HI Hb; cbn [fold_n].
  - replace (lo + Z.of_nat 0) with lo by lia. done.
  - apply wp_bind. eapply wp_mono; [apply Hb; [lia|done] | | auto].
    intros a' s' Hs'. replace (lo + Z.of_nat (Datatypes.S n)) with ((lo + 1) + Z.of_nat n) by lia.
    apply IH; [done|]. intros i a'' s'' Hi. apply Hb; lia.
Qed.

Lemma wp_fold_range {A} lo hi (body : Z → A → M S A) (I : Z → A → S → Prop) Q
    (E : Z → S → Prop) a s :
  I lo a s →
  (∀ i a' s', lo ≤ i < hi → I i a' s' → wp U (body i a') (I (i + 1)) E s') →
  (∀ a' s', I (Z.max lo hi) a' s' → Q a' s') →
  wp U (fold_range lo hi body a) Q E s.
Proof.
  intros HI Hb HQ. unfold fold_range. eapply wp_mono.
  - apply (wp_fold_n _ _ _ I); [done|]. intros i a' s' Hi. apply Hb; lia.
  - intros a' s' Hs'. apply HQ. replace (Z.max lo hi) with (lo + Z.of_nat (Z.to_nat (hi - lo))) by lia.
    done.
  - auto.
Qed.

Lemma wp_for_down n (body : Z → M S unit) (I : nat → S → Prop) Q (E : Z → S → Prop) s :
  I n s →
  (∀ k s', (k < n)%nat → I (Datatypes.S k) s' → wp U (body (Z.of_nat k)) (fun _ => I k) E s') →
  (∀ s', I O s' → Q tt s') →
  wp U (for_down n body) Q E s.
Proof.
  intros HI Hb HQ. revert s HI. induction n as [|n IH]; intros s HI; cbn [for_down].
  - by apply HQ.
  - apply wp_bind. eapply wp_mono; [apply Hb; [lia|done] | | auto].
    intros [] s' Hs'. apply IH; [|done]. intros k s'' Hk. apply Hb. lia.
Qed.

Lemma wp_zoom {T A} (g : S → T) (p : T → S → S) (m : M T A) Q E s :
  wp U m (fun a t => Q a (p t s)) (fun e t => E e (p t s)) (g s) →
  wp U (zoom g p m) Q E s.
Proof. unfold wp, zoom. by destruct (m (g s)). Qed.
End Wp.

(** From a proved [wp] to the result of a run. *)
Lemma wp_ok {U : Prop} {S A} (m : M S A) (Q : A → S → Prop) E s a s' :
  wp U m Q E s → m s = Ok a s' → Q a s'.
Proof. unfold wp. intros H He. by rewrite He in H. Qed.

Lemma wp_defined {S A} (m : M S A) (Q : A → S → Prop) E s :
  wp False m Q E s → m s ≠ Undef.
Proof. unfold wp. intros H He. by rewrite He in H. Qed.

(** ** Array lemmas *)

Lemma aget_Some {A} (l : list A) i :
  0 ≤ i < zlen l → ∃ a, aget l i = Some a.
Proof.
  unfold aget, zlen. intros Hi. rewrite (proj2 (Z.leb_le 0 i)) by lia.
  apply lookup_lt_is_Some_2. lia.
Qed.

Lemma aget_inv {A} (l : list A) i a :
  aget l i = Some a → 0 ≤ i < zlen l ∧ l !! Z.to_nat i = Some a.
Proof.
  unfold aget, zlen. destruct (Z.leb_spec 0 i); [|done].
  intros Hl. split; [|done]. apply lookup_lt_Some in Hl. lia.
Qed.

Lemma aget_None {A} (l : list A) i : aget l i = None → i < 0 ∨ zlen l ≤ i.
Proof.
  intros H. destruct (decide (0 ≤ i < zlen l)) as [Hi|]; [|lia].
  destruct (aget_Some l i Hi) as [a Ha]. congruence.
Qed.

Lemma aset_Some {A} (l : list A) i v :
  0 ≤ i < zlen l → aset l i v = Some (<[Z.to_nat i := v]> l).
Proof. unfold aset, zlen. intros. by rewrite (proj2 (Z.leb_le 0 i)), (proj2 (Z.ltb_lt i _)) by lia. Qed.

Lemma aset_inv {A} (l l' : list A) i v :
  aset l i v = Some l' → 0 ≤ i < zlen l ∧ l' = <[Z.to_nat i := v]> l.
Proof.
  unfold aset. destruct (Z.leb_spec 0 i); [|done]. destruct (Z.ltb_spec i (zlen l)); [|done].
  cbn. intros [= <-]. done.
Qed.

Lemma aset_None {A} (l : list A) i v : aset l i v = None → i < 0 ∨ zlen l ≤ i.
Proof.
  intros H. destruct (decide (0 ≤ i < zlen l)) as [Hi|]; [|lia].
  rewrite aset_Some in H by done. done.
Qed.

Lemma aget_nat {A} (l : list A) (k : nat) : aget l (Z.of_nat k) = l !! k.
Proof. unfold aget. rewrite (proj2 (Z.leb_le 0 _)) by lia. by rewrite Nat2Z.id. Qed.

Lemma aset_nat {A} (l : list A) (k : nat) v : (k < length l)%nat →
  aset l (Z.of_nat k) v = Some (<[k := v]> l).
Proof. intros. rewrite aset_Some by (unfold zlen; lia). by rewrite Nat2Z.id. Qed.

Lemma zlen_insert {A} (l : list A) i v : zlen (<[i := v]> l) = zlen l.
Proof. unfold zlen. by rewrite length_insert. Qed.

Lemma aget_insert {A} (l : list A) i v : 0 ≤ i < zlen l → aget (<[Z.to_nat i := v]> l) i = Some v.
Proof.
  unfold aget, zlen. intros Hi. rewrite (proj2 (Z.leb_le 0 i)) by lia.
  apply list_lookup_insert_eq. lia.
Qed.

Lemma aget_insert_ne {A} (l : list A) i j v : 0 ≤ i → i ≠ j → aget (<[Z.to_nat i := v]> l) j = aget l j.
Proof.
  unfold aget. intros Hi Hne. destruct (Z.leb_spec 0 j); [|done].
  apply list_lookup_insert_ne. lia.
Qed.

Lemma zlen_nonneg {A} (l : list A) : 0 ≤ zlen l.
Proof. unfold zlen. lia. Qed.

Lemma zlen_app {A} (l k : list A) : zlen (l ++ k) = zlen l + zlen k.
Proof. unfold zlen. rewrite length_app. lia. Qed.

Lemma aset_zlen {A} (l l' : list A) i v : aset l i v = Some l' → zlen l' = zlen l.
Proof. intros [_ ->]%aset_inv. apply zlen_insert. Qed.

(** ** Blocks of memory

    [memcpy] between array objects: a length below zero is a huge [size_t],
    and both blocks must lie inside their objects. *)

Definition load {A} (l : list A) (a n : Z) : option (list A) :=
  if (0 <=? a) && (0 <=? n) && (a + n <=? zlen l)
  then Some (take (Z.to_nat n) (drop (Z.to_nat a) l)) else None.

Definition store {A} (l : list A) (a : Z) (xs : list A) : option (list A) :=
  if (0 <=? a) && (a + zlen xs <=? zlen l)
  then Some (take (Z.to_nat a) l ++ xs ++ drop (Z.to_nat a + length xs) l) else None.

Lemma load_Some {A} (l : list A) a n : 0 ≤ a → 0 ≤ n → a + n ≤ zlen l →
  load l a n = Some (take (Z.to_nat n) (drop (Z.to_nat a) l)).
Proof. intros. unfold load. by rewrite !(proj2 (Z.leb_le _ _)) by lia. Qed.

Lemma load_inv {A} (l xs : list A) a n : load l a n = Some xs →
  0 ≤ a ∧ 0 ≤ n ∧ a + n ≤ zlen l ∧ xs = take (Z.to_nat n) (drop (Z.to_nat a) l) ∧ zlen xs = n.
Proof.
  unfold load. destruct (Z.leb_spec 0 a); [|done]. destruct (Z.leb_spec 0 n); [|done].
  destruct (Z.leb_spec (a + n) (zlen l)); [|done]. intros [= <-]. repeat split; try done.
  unfold zlen in *. rewrite length_take, length_drop. lia.
Qed.

Lemma store_Some {A} (l : list A) a xs : 0 ≤ a → a + zlen xs ≤ zlen l →
  store l a xs = Some (take (Z.to_nat a) l ++ xs ++ drop (Z.to_nat a + length xs) l).
Proof. intros. unfold store. by rewrite !(proj2 (Z.leb_le _ _)) by lia. Qed.

Lemma store_inv {A} (l l' xs : list A) a : store l a xs = Some l' →
  0 ≤ a ∧ a + zlen xs ≤ zlen l ∧ l' = take (Z.to_nat a) l ++ xs ++ drop (Z.to_nat a + length xs) l.
Proof.
  unfold store. destruct (Z.leb_spec 0 a); [|done]. destruct (Z.leb_spec (a + zlen xs) (zlen l)); [|done].
  by intros [= <-].
Qed.

Lemma store_zlen {A} (l l' xs : list A) a : store l a xs = Some l' → zlen l' = zlen l.
Proof.
  intros (? & ? & ->)%store_inv. unfold zlen in *. rewrite !length_app, length_take, length_drop. lia.
Qed.

(** The block written, behind what was there before it. *)
Lemma store_take {A} (l l' xs : list A) a : store l a xs = Some l' →
  take (Z.to_nat (a + zlen xs)) l' = take (Z.to_nat a) l ++ xs.
Proof.
  intros (? & ? & ->)%store_inv. unfold zlen in *. rewrite app_assoc. rewrite take_app_le.
  - rewrite take_ge; [done|]. rewrite length_app, length_take. lia.
  - rewrite length_app, length_take. lia.
Qed.

(** ** Integer lemmas *)

Lemma u8_range x : 0 ≤ u8 x < 256.
Proof. unfold u8. change (2 ^ 8) with 256. apply Z.mod_pos_bound. lia. Qed.

Lemma u16_range x : 0 ≤ u16 x < 65536.
Proof. unfold u16. change (2 ^ 16) with 65536. apply Z.mod_pos_bound. lia. Qed.

Lemma u32_range x : 0 ≤ u32 x < 2 ^ 32.
Proof. unfold u32. apply Z.mod_pos_bound. lia. Qed.

Lemma s32_range x : - 2 ^ 31 ≤ s32 x < 2 ^ 31.
Proof. unfold s32. pose proof (Z.mod_pos_bound (x + 2 ^ 31) (2 ^ 32)). lia. Qed.

Lemma u8_id x : 0 ≤ x < 256 → u8 x = x.
Proof. intros. unfold u8. apply Z.mod_small. lia. Qed.

Lemma u16_id x : 0 ≤ x < 65536 → u16 x = x.
Proof. intros. unfold u16. apply Z.mod_small. lia. Qed.

Lemma u32_id x : 0 ≤ x < 2 ^ 32 → u32 x = x.
Proof. intros. unfold u32. apply Z.mod_small. lia. Qed.

Lemma s32_id x : - 2 ^ 31 ≤ x < 2 ^ 31 → s32 x = x.
Proof. intros. unfold s32. rewrite Z.mod_small; lia. Qed.

Lemma s32_u32 x : s32 (u32 x) = s32 x.
Proof. unfold s32, u32. f_equal. by rewrite Zplus_mod_idemp_l. Qed.

Lemma u32_s32 x : u32 (s32 x) = u32 x.
Proof.
  unfold s32, u32. rewrite Zminus_mod_idemp_l. f_equal. lia.
Qed.

(** Wrapping the operands of a sum or a difference makes no difference. *)
Lemma u32_add_l a b : u32 (u32 a + b) = u32 (a + b).
Proof. unfold u32. by rewrite Zplus_mod_idemp_l. Qed.

Lemma u32_add_r a b : u32 (a + u32 b) = u32 (a + b).
Proof. unfold u32. by rewrite Zplus_mod_idemp_r. Qed.

Lemma u32_sub_l a b : u32 (u32 a - b) = u32 (a - b).
Proof. unfold u32. by rewrite Zminus_mod_idemp_l. Qed.

Lemma u32_sub_r a b : u32 (a - u32 b) = u32 (a - b).
Proof. unfold u32. by rewrite Zminus_mod_idemp_r. Qed.

(** An [int] read as [u32]: small values are those of the [int]. *)
Lemma u32_of_s32 y : - 2 ^ 31 ≤ y < 2 ^ 31 → u32 y = y ∧ 0 ≤ y ∨ u32 y = y + 2 ^ 32 ∧ y < 0.
Proof.
  intros Hy. destruct (Z.leb_spec 0 y).
  - left. split; [apply u32_id; lia|done].
  - right. split; [|done]. unfold u32. symmetry. apply (Z.mod_unique _ _ (-1)); lia.
Qed.

Create HintDb cint.
Create Rewrite HintDb cint.
#[export] Hint Rewrite s32_u32 u32_s32 : cint.
#[export] Hint Rewrite @zlen_insert @zlen_app @length_insert : cint.
#[export] Hint Resolve u8_range u16_range u32_range s32_range zlen_nonneg : cint.

(** ** Tactics *)

(** One step of symbolic execution. *)
Ltac wp_step :=
  lazymatch goal with
  | |- wp _ (mret _) _ _ _ => apply wp_ret
  | |- wp _ (mbind _ _) _ _ _ => apply wp_bind
  | |- wp _ (throw _) _ _ _ => apply wp_throw
  | |- wp _ get _ _ _ => apply wp_get
  | |- wp _ (gets _) _ _ _ => apply wp_gets
  | |- wp _ (modify _) _ _ _ => apply wp_modify
  | |- wp _ (fail_if _ _) _ _ _ => apply wp_fail_if; intros ?
  | |- wp _ (when _ _) _ _ _ => apply wp_when; intros ?
  | |- wp _ (call _) _ _ _ => apply wp_call
  | |- wp _ (zoom _ _ _) _ _ _ => apply wp_zoom
  | |- wp _ (of_option _) _ _ _ => apply wp_of_option; [intros ? ?|intros ?]
  | |- wp _ (if _ then _ else _) _ _ _ => apply wp_if; intros ?
  end.

(** Boolean tests of the code as propositions. *)
Ltac bprop :=
  repeat match goal with
  | H : _ && _ = true |- _ => apply andb_true_iff in H; destruct H
  | H : _ || _ = false |- _ => apply orb_false_iff in H; destruct H
  | H : negb _ = true |- _ => apply negb_true_iff in H
  | H : negb _ = false |- _ => apply negb_false_iff in H
  | H : (_ <? _) = true |- _ => apply Z.ltb_lt in H
  | H : (_ <? _) = false |- _ => apply Z.ltb_ge in H
  | H : (_ <=? _) = true |- _ => apply Z.leb_le in H
  | H : (_ <=? _) = false |- _ => apply Z.leb_gt in H
  | H : (_ =? _) = true |- _ => apply Z.eqb_eq in H
  | H : (_ =? _) = false |- _ => apply Z.eqb_neq in H
  | H : (_ >? _) = true |- _ => rewrite Z.gtb_ltb in H
  | H : (_ >? _) = false |- _ => rewrite Z.gtb_ltb in H
  | H : (_ >=? _) = true |- _ => rewrite Z.geb_leb in H
  | H : (_ >=? _) = false |- _ => rewrite Z.geb_leb in H
  end.

(** ** Bit operations as arithmetic *)

Lemma lor_mul_add a b k : 0 ≤ k → 0 ≤ b < 2 ^ k → Z.lor (a * 2 ^ k) b = a * 2 ^ k + b.
Proof.
  intros Hk Hb. rewrite <- Z.shiftl_mul_pow2 by lia.
  assert (Z.land (Z.shiftl a k) b = 0) as Hz.
  { apply Z.bits_inj'. intros n Hn. rewrite Z.land_spec, Z.bits_0.
    destruct (Z.ltb_spec n k).
    - by rewrite Z.shiftl_spec_low by lia.
    - apply andb_false_intro2. destruct (Z.eq_dec b 0) as [->|]; [by rewrite Z.testbit_0_l|].
      apply Z.bits_above_log2; [lia|]. apply Z.log2_lt_pow2; [lia|].
      eapply Z.lt_le_trans; [apply Hb|]. by apply Z.pow_le_mono_r; lia. }
  rewrite Z.add_nocarry_lxor by done. symmetry. by apply Z.lxor_lor.
Qed.

Lemma shiftl_mod_pow2 w k n : 0 ≤ k ≤ n → Z.shiftl w k mod 2 ^ n = w mod 2 ^ (n - k) * 2 ^ k.
Proof.
  intros Hk. rewrite Z.shiftl_mul_pow2 by lia. replace (2 ^ n) with (2 ^ (n - k) * 2 ^ k).
  - rewrite Z.mul_mod_distr_r; [done|apply Z.pow_nonzero; lia..].
  - rewrite <- Z.pow_add_r by lia. f_equal. lia.
Qed.

Lemma mod_pow2_lxor x y k : 0 ≤ k → Z.lxor x y mod 2 ^ k = Z.lxor (x mod 2 ^ k) (y mod 2 ^ k).
Proof.
  intros Hk. apply Z.bits_inj'. intros n Hn. rewrite Z.lxor_spec. destruct (Z.ltb_spec n k).
  - by rewrite !Z.mod_pow2_bits_low, Z.lxor_spec by lia.
  - by rewrite !Z.mod_pow2_bits_high by lia.
Qed.

Lemma lxor_range x y n : 0 ≤ n → 0 ≤ x < 2 ^ n → 0 ≤ y < 2 ^ n → 0 ≤ Z.lxor x y < 2 ^ n.
Proof.
  intros Hn Hx Hy. rewrite <- (Z.mod_small x (2 ^ n)), <- (Z.mod_small y (2 ^ n)), <- mod_pow2_lxor by lia.
  apply Z.mod_pos_bound. lia.
Qed.


(** Block copies inside a concatenation. *)
Lemma load_middle {A} (a b c : list A) o n : o = zlen a → n = zlen b → load (a ++ b ++ c) o n = Some b.
Proof.
  intros -> ->. rewrite load_Some by (rewrite ?zlen_app; pose proof (zlen_nonneg c); unfold zlen; lia).
  unfold zlen. by rewrite !Nat2Z.id, drop_app_length, take_app_length.
Qed.

Lemma store_middle {A} (a b b' c : list A) o : o = zlen a → zlen b' = zlen b →
  store (a ++ b ++ c) o b' = Some (a ++ b' ++ c).
Proof.
  intros -> Hl. rewrite store_Some by (rewrite ?zlen_app; pose proof (zlen_nonneg c); unfold zlen in *; lia).
  unfold zlen in *. rewrite Nat2Z.id, take_app_length, (app_assoc a b c).
  replace (length a + length b')%nat with (length (a ++ b)) by (rewrite length_app; lia).
  by rewrite drop_app_length.
Qed.

(** ** Runs *)

(** A run whose only outcome satisfies an equation is that outcome. *)
Lemma wp_only {S A} (m : M S A) s a s' :
  wp False m (fun x t => x = a ∧ t = s') (fun _ _ => False) s → m s = Ok a s'.
Proof. unfold wp. destruct (m s) as [x t|e t|]; [intros [-> ->]|intros []..]; done. Qed.

(** A run by its parts. *)
Lemma bind_Ok {S A B} (m : M S A) (k : A → M S B) s a s' : m s = Ok a s' → (m ≫= k) s = k a s'.
Proof. unfold mbind, M_bind. by intros ->. Qed.
