(* ===== verification/Bits.v ===== *)
(** Bit sequences: the abstract view of a bitstream.

    A buffer of bytes is read as the sequence [bytes_bits] of its bits, most
    significant bit of each byte first; [bval] is the number a bit sequence
    denotes and [bits n v] the [n]-bit sequence of a number.  The word-based
    readers and writers of the driver are specified against these. *)

From stdpp Require Import base list numbers.
From Stdlib Require Import ZArith Lia.
From S2P Require Import Prelude.

#[local] Open Scope Z_scope.

Fixpoint bval (l : list bool) : Z :=
  match l with
  | [] => 0
  | b :: l' => Z.b2z b * 2 ^ zlen l' + bval l'
  end.

Fixpoint bits (n : nat) (v : Z) : list bool :=
  match n with
  | O => []
  | S n' => Z.testbit v (Z.of_nat n') :: bits n' v
  end.

Definition bytes_bits (l : list Z) : list bool := concat (map (bits 8) l).

(** ** Lengths *)

Lemma length_bits n v : length (bits n v) = n.
Proof. induction n as [|n IH]; cbn; congruence. Qed.

Lemma length_bytes_bits l : length (bytes_bits l) = (8 * length l)%nat.
Proof.
  induction l as [|b l IH]; [done|]. unfold bytes_bits in *. cbn [map concat].
  rewrite length_app, IH, length_bits. cbn [length]. lia.
Qed.

Lemma bytes_bits_app l k : bytes_bits (l ++ k) = bytes_bits l ++ bytes_bits k.
Proof. unfold bytes_bits. by rewrite map_app, concat_app. Qed.

(** ** Values *)

Lemma pow2_zlen {A} (l : list A) : 2 ^ zlen l ≠ 0.
Proof. apply Z.pow_nonzero; [lia|apply zlen_nonneg]. Qed.

Lemma bval_range l : 0 ≤ bval l < 2 ^ zlen l.
Proof.
  induction l as [|b l IH]; [done|]. cbn [bval].
  replace (zlen (b :: l)) with (1 + zlen l) by (unfold zlen; cbn; lia).
  rewrite Z.pow_add_r by (unfold zlen; lia). destruct b; cbn [Z.b2z]; lia.
Qed.

Lemma bval_app l k : bval (l ++ k) = bval l * 2 ^ zlen k + bval k.
Proof.
  induction l as [|b l IH]; [done|]. cbn [app bval]. rewrite IH, zlen_app.
  rewrite Z.pow_add_r by apply zlen_nonneg. ring.
Qed.

Lemma bval_false n : bval (replicate n false) = 0.
Proof. induction n as [|n IH]; cbn; lia. Qed.

Lemma bits_testbit_mod (n : nat) v :
  v mod 2 ^ Z.of_nat (S n) = Z.b2z (Z.testbit v (Z.of_nat n)) * 2 ^ Z.of_nat n + v mod 2 ^ Z.of_nat n.
Proof.
  rewrite Nat2Z.inj_succ, Z.pow_succ_r by lia. rewrite (Z.mul_comm 2).
  rewrite Z.rem_mul_r by lia. rewrite Z.testbit_spec' by lia. ring.
Qed.

Lemma bval_bits n v : bval (bits n v) = v mod 2 ^ Z.of_nat n.
Proof.
  induction n as [|n IH]; [by rewrite Z.mod_1_r|].
  cbn [bits bval]. rewrite bits_testbit_mod, IH. unfold zlen. by rewrite length_bits.
Qed.

Lemma bval_inj l k : length l = length k → bval l = bval k → l = k.
Proof.
  revert k. induction l as [|a l IH]; intros [|b k] Hlen Hv; try done.
  cbn in Hlen. injection Hlen as Hlen. cbn [bval] in Hv.
  assert (zlen l = zlen k) as Hz by (unfold zlen; lia).
  pose proof (bval_range l) as Hl. pose proof (bval_range k) as Hk.
  rewrite Hz in *. destruct a, b; cbn [Z.b2z] in Hv; try lia; f_equal; apply IH; lia.
Qed.

Lemma bits_bval l : bits (length l) (bval l) = l.
Proof.
  apply bval_inj; [apply length_bits|].
  rewrite bval_bits. apply Z.mod_small, bval_range.
Qed.

Lemma bits_mod (n : nat) v : bits n (v mod 2 ^ Z.of_nat n) = bits n v.
Proof. apply bval_inj; [by rewrite !length_bits|]. by rewrite !bval_bits, Z.mod_mod by lia. Qed.

Lemma bits_plus (n m : nat) v : bits (n + m) v = bits n (v / 2 ^ Z.of_nat m) ++ bits m v.
Proof.
  apply bval_inj; [rewrite length_app, !length_bits; lia|].
  rewrite bval_app. unfold zlen. rewrite length_bits, !bval_bits, Nat2Z.inj_add.
  rewrite Z.pow_add_r by lia. rewrite (Z.mul_comm (2 ^ Z.of_nat n)), Z.rem_mul_r by lia. ring.
Qed.

Lemma bits_0 n : bits n 0 = replicate n false.
Proof. apply bval_inj; [by rewrite length_bits, length_replicate|]. by rewrite bval_bits, bval_false, Zmod_0_l. Qed.

Lemma bval_take (n : nat) l : (n ≤ length l)%nat →
  bval (take n l) = bval l / 2 ^ (zlen l - Z.of_nat n).
Proof.
  intros Hn. rewrite <- (take_drop n l) at 2. rewrite bval_app.
  replace (zlen l - Z.of_nat n) with (zlen (drop n l)) by (unfold zlen; rewrite length_drop; lia).
  rewrite Z.div_add_l by apply pow2_zlen. rewrite Z.div_small by apply bval_range. lia.
Qed.

Lemma bval_drop (n : nat) l : (n ≤ length l)%nat →
  bval (drop n l) = bval l mod 2 ^ (zlen l - Z.of_nat n).
Proof.
  intros Hn. rewrite <- (take_drop n l) at 2. rewrite bval_app.
  replace (zlen l - Z.of_nat n) with (zlen (drop n l)) by (unfold zlen; rewrite length_drop; lia).
  rewrite Z.add_comm, Z_mod_plus_full. symmetry. apply Z.mod_small, bval_range.
Qed.

(** ** Bytes *)

Lemma drop_bytes_bits (o : nat) l : drop (8 * o) (bytes_bits l) = bytes_bits (drop o l).
Proof.
  revert l. induction o as [|o IH]; intros l; [done|].
  destruct l as [|b l]; [by rewrite !drop_nil|].
  replace (8 * S o)%nat with (8 + 8 * o)%nat by lia. rewrite <- drop_drop.
  unfold bytes_bits in *. cbn [map concat].
  rewrite drop_app_length' by (by rewrite length_bits). apply IH.
Qed.

(** The 32-bit big-endian word at the start of a buffer. *)
Lemma bval_4bytes b0 b1 b2 b3 :
  bval (bytes_bits [b0; b1; b2; b3]) =
  ((b0 mod 256 * 256 + b1 mod 256) * 256 + b2 mod 256) * 256 + b3 mod 256.
Proof.
  unfold bytes_bits. cbn [map concat]. rewrite app_nil_r, !bval_app, !zlen_app.
  unfold zlen. rewrite !length_bits, !bval_bits. change (2 ^ Z.of_nat 8) with 256.
  change (Z.of_nat 8) with 8. change (2 ^ (8 + (8 + 8))) with (256 * 256 * 256).
  change (2 ^ (8 + 8)) with (256 * 256). change (2 ^ 8) with 256. ring.
Qed.

Create Rewrite HintDb bitlist.
#[export] Hint Rewrite length_bits length_bytes_bits bytes_bits_app bval_bits : bitlist.
