(* ===== verification/CommonUtils.v ===== *)
(** Helpers shared by the V4L2 ports of the decoders
    (src/drivers/amvdec_ports/utils/common.c and common.h): the names of the
    colour descriptions, the integer logarithm, the start-code and NAL-unit
    scanning, the removal of emulation prevention bytes and the picture-plane
    size computation. *)

From stdpp Require Import base list numbers strings.
From Stdlib Require Import ZArith Lia Bool.
From S2P Require Import Prelude.

#[local] Open Scope Z_scope.

(** ** Constants of common.h *)

Definition AV_INPUT_BUFFER_PADDING_SIZE : Z := 64.

(** The width the readers believe their cache to have; it is an [u32]. *)
Definition MIN_CACHE_BITS : Z := 64.

Definition VDEC_MODE_10BIT_MASK : Z := 65536.

Definition VDEC_MODE_DW_MASK : Z := 65535.

(** ** Names of colour descriptions

    [None] is the [NULL] of an index outside the table or of a hole in it;
    the enumerators are those of pixfmt.h. *)

Definition color_space_names : list (option string) :=
  map Some ["gbr"; "bt709"; "unknown"; "reserved"; "fcc"; "bt470bg"; "smpte170m";
    "smpte240m"; "ycgco"; "bt2020nc"; "bt2020c"; "smpte2085"; "chroma-derived-nc";
    "chroma-derived-c"; "ictcp"]%string.

Definition AVCOL_SPC_NB : Z := 15.

(** [(unsigned) space < AVCOL_SPC_NB ? color_space_names[space] : NULL] *)
Definition av_color_space_name (space : Z) : option string :=
  if u32 space <? AVCOL_SPC_NB then nth (Z.to_nat (u32 space)) color_space_names None else None.

Definition color_primaries_names : list (option string) :=
  map Some ["reserved"; "bt709"; "unknown"; "reserved"; "bt470m"; "bt470bg"; "smpte170m";
    "smpte240m"; "film"; "bt2020"; "smpte428"; "smpte431"; "smpte432"]%string
  ++ replicate 9 None ++ [Some "jedec-p22"%string].

Definition AVCOL_PRI_NB : Z := 23.

Definition av_color_primaries_name (primaries : Z) : option string :=
  if u32 primaries <? AVCOL_PRI_NB
  then nth (Z.to_nat (u32 primaries)) color_primaries_names None else None.

Definition color_transfer_names : list (option string) :=
  map Some ["reserved"; "bt709"; "unknown"; "reserved"; "bt470m"; "bt470bg"; "smpte170m";
    "smpte240m"; "linear"; "log100"; "log316"; "iec61966-2-4"; "bt1361e"; "iec61966-2-1";
    "bt2020-10"; "bt2020-12"; "smpte2084"; "smpte428"; "arib-std-b67"]%string.

Definition AVCOL_TRC_NB : Z := 19.

Definition av_color_transfer_name (transfer : Z) : option string :=
  if u32 transfer <? AVCOL_TRC_NB
  then nth (Z.to_nat (u32 transfer)) color_transfer_names None else None.

(** ** Integer logarithm *)

Definition ff_log2_tab : list Z :=
  [
   0; 0; 1; 1; 2; 2; 2; 2; 3; 3; 3; 3; 3; 3; 3; 3; 4; 4; 4; 4; 4; 4; 4; 4; 4; 4; 4; 4; 4; 4; 4; 4;
   5; 5; 5; 5; 5; 5; 5; 5; 5; 5; 5; 5; 5; 5; 5; 5; 5; 5; 5; 5; 5; 5; 5; 5; 5; 5; 5; 5; 5; 5; 5; 5;
   6; 6; 6; 6; 6; 6; 6; 6; 6; 6; 6; 6; 6; 6; 6; 6; 6; 6; 6; 6; 6; 6; 6; 6; 6; 6; 6; 6; 6; 6; 6; 6;
   6; 6; 6; 6; 6; 6; 6; 6; 6; 6; 6; 6; 6; 6; 6; 6; 6; 6; 6; 6; 6; 6; 6; 6; 6; 6; 6; 6; 6; 6; 6; 6;
   7; 7; 7; 7; 7; 7; 7; 7; 7; 7; 7; 7; 7; 7; 7; 7; 7; 7; 7; 7; 7; 7; 7; 7; 7; 7; 7; 7; 7; 7; 7; 7;
   7; 7; 7; 7; 7; 7; 7; 7; 7; 7; 7; 7; 7; 7; 7; 7; 7; 7; 7; 7; 7; 7; 7; 7; 7; 7; 7; 7; 7; 7; 7; 7;
   7; 7; 7; 7; 7; 7; 7; 7; 7; 7; 7; 7; 7; 7; 7; 7; 7; 7; 7; 7; 7; 7; 7; 7; 7; 7; 7; 7; 7; 7; 7; 7;
   7; 7; 7; 7; 7; 7; 7; 7; 7; 7; 7; 7; 7; 7; 7; 7; 7; 7; 7; 7; 7; 7; 7; 7; 7; 7; 7; 7; 7; 7; 7; 7
  ].

(** [int av_log2(u32 v)] *)
Definition av_log2 (v : Z) : Z :=
  let n := 0 in
  let '(v, n) := if truth (Z.land v 0xffff0000) then (Z.shiftr v 16, n + 16) else (v, n) in
  let '(v, n) := if truth (Z.land v 0xff00) then (Z.shiftr v 8, n + 8) else (v, n) in
  n + tab ff_log2_tab v.

(** ** Byte-stream scanning

    [data] is the object the pointer points into, from the pointer on;
    [None] is an access past its end. *)

Definition byte_at (data : list Z) (i : Z) : option Z := u8 <$> aget data i.

(** A test [data[i] == v] of the condition chains below. *)
Definition byte_is (data : list Z) (i v : Z) : option bool := (fun b => b =? v) <$> byte_at data i.

(** C's [a && b] when the operands read memory. *)
Definition and_then (a : option bool) (b : option bool) : option bool :=
  match a with
  | Some true => b
  | Some false => Some false
  | None => None
  end.

Definition or_else (a : option bool) (b : option bool) : option bool :=
  match a with
  | Some true => Some true
  | Some false => b
  | None => None
  end.

(** [int find_start_code(u8 *data, int data_sz)]: the length of the start
    code [data] begins with, or -1. *)
Definition find_start_code (data : list Z) (data_sz : Z) : option Z :=
  c3 ← and_then (Some (data_sz >? 3))
         (and_then (byte_is data 0 0) (and_then (byte_is data 1 0) (byte_is data 2 1)));
  if (c3 : bool) then Some 3 else
  c4 ← and_then (Some (data_sz >? 4))
         (and_then (byte_is data 0 0) (and_then (byte_is data 1 0)
            (and_then (byte_is data 2 0) (byte_is data 3 1))));
  if (c4 : bool) then Some 4 else Some (-1).

(** The test of the loop of [calc_nal_len] at position [i]. *)
Definition nal_end_at (data : list Z) (i : Z) : option bool :=
  or_else
    (and_then (byte_is data i 0) (and_then (byte_is data (i + 1) 0) (byte_is data (i + 2) 1)))
    (and_then (byte_is data i 0) (and_then (byte_is data (i + 1) 0)
       (and_then (byte_is data (i + 2) 0) (byte_is data (i + 3) 1)))).

Fixpoint calc_nal_len_loop (n : nat) (data : list Z) (len i : Z) : option Z :=
  match n with
  | O => Some len
  | S n' =>
      z ← byte_is data i 0;
      if (z : bool) then
        e ← nal_end_at data i;
        if (e : bool) then Some i else calc_nal_len_loop n' data len (i + 1)
      else calc_nal_len_loop n' data len (i + 1)
  end.

(** [int calc_nal_len(u8 *data, int len)] *)
Definition calc_nal_len (data : list Z) (len : Z) : option Z :=
  calc_nal_len_loop (Z.to_nat (len - 4)) data len 0.

(** The copy loops of [nal_unit_extract_rbsp]; [dst] is the output so far.
    The loop consumes at least one source byte per iteration, [fuel] bounds
    their number. *)
Fixpoint rbsp_header (fuel : nat) (src : list Z) (src_len i : Z) (dst : list Z)
  : option (Z * list Z) :=
  match fuel with
  | O => Some (i, dst)
  | S f =>
      if (i <? 2) && (i <? src_len) then
        b ← byte_at src i; rbsp_header f src src_len (i + 1) (dst ++ [b])
      else Some (i, dst)
  end.

Fixpoint rbsp_body (fuel : nat) (src : list Z) (src_len i : Z) (dst : list Z)
  : option (Z * list Z) :=
  match fuel with
  | O => Some (i, dst)
  | S f =>
      if u32 (i + 2) <? src_len then
        b ← byte_at src i;
        ep ← and_then (byte_is src i 0)
               (and_then (byte_is src (i + 1) 0) (byte_is src (i + 2) 3));
        if (ep : bool) then
          b1 ← byte_at src (i + 1);
          rbsp_body f src src_len (i + 3) (dst ++ [b; b1])
        else rbsp_body f src src_len (i + 1) (dst ++ [b])
      else Some (i, dst)
  end.

Fixpoint rbsp_tail (fuel : nat) (src : list Z) (src_len i : Z) (dst : list Z)
  : option (list Z) :=
  match fuel with
  | O => Some dst
  | S f =>
      if i <? src_len then
        b ← byte_at src i; rbsp_tail f src src_len (i + 1) (dst ++ [b])
      else Some dst
  end.

(** [u8 *nal_unit_extract_rbsp(src, src_len, dst_len)] when [vmalloc]
    succeeds: the bytes of the returned buffer, zero padding included, and
    [*dst_len]; the caller treats a failed allocation as [-ENOMEM]. *)
Definition nal_unit_extract_rbsp (src : list Z) (src_len : Z) : option (list Z * Z) :=
  let fuel := Z.to_nat src_len in
  '(i, dst) ← rbsp_header 2 src src_len 0 [];
  '(i, dst) ← rbsp_body fuel src src_len i dst;
  dst ← rbsp_tail fuel src src_len i dst;
  Some (dst ++ replicate (Z.to_nat AV_INPUT_BUFFER_PADDING_SIZE) 0, zlen dst).

(** ** Picture sizes *)

(** [bool is_over_size(int w, int h, int size)] *)
Definition is_over_size (w h size : Z) : bool :=
  negb (h =? 0) && (w >? Z.quot size h).

(** [bool is_output_p010(u32 dec_mode)] *)
Definition is_output_p010 (dec_mode : Z) : bool := truth (Z.land dec_mode VDEC_MODE_10BIT_MASK).

(** [int vdec_get_size_ratio(int dec_mode)] *)
Definition vdec_get_size_ratio (dec_mode : Z) : Z :=
  let dm := Z.land (u32 dec_mode) VDEC_MODE_DW_MASK in
  if (dm =? 2) || (dm =? 3) then 4
  else if dm =? 4 then 2
  else if dm =? 8 then 8
  else 1.

(** [int vdec_get_dec_mode(u32 w, u32 h, int dec_mode)] *)
Definition vdec_get_dec_mode (w h dec_mode : Z) : Z :=
  let dm := Z.land (u32 dec_mode) VDEC_MODE_DW_MASK in
  let over := is_over_size (s32 w) (s32 h) in
  let dm :=
    if dm =? 0x100 then (if over (1920 * 1088) then 4 else dm)
    else if dm =? 0x200 then (if over (1920 * 1088) then 2 else dm)
    else if dm =? 0x300 then (if over (1280 * 768) then 4 else dm)
    else if dm =? 0x400 then
      (if over (1920 * 1088) then 3 else if over (960 * 576) then 4 else dm)
    else dm in
  s32 (Z.lor (Z.land (u32 dec_mode) VDEC_MODE_10BIT_MASK) dm).

(** [static int vdec_size_scale(int length, int dec_mode)] *)
Definition vdec_size_scale (length dec_mode : Z) : Z :=
  let dm := Z.land (u32 dec_mode) VDEC_MODE_DW_MASK in
  if dm =? 0 then 64
  else if dm =? 1 then length
  else if (dm =? 2) || (dm =? 3) then Z.shiftr length 2
  else if dm =? 4 then Z.shiftr length 1
  else if dm =? 8 then Z.shiftr length 3
  else length.

(** The kernel's [ALIGN(x, a)] on [int]s: [(x + (a - 1)) & ~(a - 1)]. *)
Definition ALIGN (x a : Z) : Z := s32 (Z.land (s32 (x + (a - 1))) (Z.lnot (a - 1))).

(** [u32 vdec_get_plane_size(u32 w, u32 h, int dec_mode, int align_h, int align_w)] *)
Definition vdec_get_plane_size (w h dec_mode align_h align_w : Z) : Z :=
  let dm := u32 (vdec_get_dec_mode w h dec_mode) in
  let len := u32 (ALIGN (vdec_size_scale (s32 w) (s32 dm)) align_w *
                  ALIGN (vdec_size_scale (s32 h) (s32 dm)) align_h) in
  u32 (Z.shiftl len (b2z (is_output_p010 (u32 dec_mode)))).

(** ** Correctness of the logarithm *)

Lemma ff_log2_tab_ok v : 1 ≤ v < 256 → tab ff_log2_tab v = Z.log2 v.
Proof.
  intros Hv.
  assert (forallb (fun n => tab ff_log2_tab (Z.of_nat n) =? Z.log2 (Z.of_nat n)) (seq 1 255) = true)
    as Hall by (vm_compute; reflexivity).
  rewrite forallb_forall in Hall. specialize (Hall (Z.to_nat v)).
  rewrite Z2Nat.id in Hall by lia. apply Z.eqb_eq, Hall, in_seq. lia.
Qed.

Lemma land_high_zero v k n : 0 ≤ k → 0 ≤ n → 0 ≤ v < 2 ^ (k + n) →
  truth (Z.land v (Z.shiftl (Z.ones n) k)) = negb (v <? 2 ^ k).
Proof.
  intros Hk Hn Hv. unfold truth. f_equal.
  assert (Z.land v (Z.shiftl (Z.ones n) k) = Z.shiftl (Z.shiftr v k) k) as ->.
  { apply Z.bits_inj'. intros i Hi. rewrite Z.land_spec.
    destruct (Z.ltb_spec i k).
    - rewrite !Z.shiftl_spec_low by lia. apply andb_false_r.
    - rewrite !Z.shiftl_spec_high by lia. rewrite Z.shiftr_spec by lia.
      replace (i - k + k) with i by lia.
      destruct (Z.ltb_spec (i - k) n).
      + rewrite Z.ones_spec_low by lia. apply andb_true_r.
      + rewrite Z.ones_spec_high by lia. rewrite andb_false_r.
        destruct (Z.eq_dec v 0) as [->|]; [by rewrite Z.testbit_0_l|].
        symmetry. apply Z.bits_above_log2; [lia|].
        apply Z.log2_lt_pow2; [lia|]. eapply Z.lt_le_trans; [apply Hv|].
        apply Z.pow_le_mono_r; lia. }
  rewrite Z.shiftl_mul_pow2, Z.shiftr_div_pow2 by lia.
  pose proof (Z.pow_pos_nonneg 2 k). destruct (Z.ltb_spec v (2 ^ k)).
  - by rewrite Z.div_small by lia.
  - apply Z.eqb_neq. pose proof (Z.div_str_pos v (2 ^ k)). nia.
Qed.

Lemma log2_shiftr v k : 0 ≤ k → 2 ^ k ≤ v → Z.log2 (Z.shiftr v k) + k = Z.log2 v.
Proof.
  intros Hk Hv. pose proof (Z.pow_pos_nonneg 2 k).
  assert (k ≤ Z.log2 v) by (apply Z.log2_le_pow2; lia).
  rewrite Z.log2_shiftr by lia. lia.
Qed.

Lemma shiftr_small v k n : 0 ≤ k → 0 ≤ n → 0 ≤ v < 2 ^ (k + n) → 0 ≤ Z.shiftr v k < 2 ^ n.
Proof.
  intros Hk Hn Hv. rewrite Z.shiftr_div_pow2 by lia. rewrite Z.pow_add_r in Hv by lia.
  pose proof (Z.pow_pos_nonneg 2 k). split; [apply Z.div_pos; lia|].
  apply Z.div_lt_upper_bound; lia.
Qed.

Lemma av_log2_low n v : 0 < v < 2 ^ 16 →
  (let '(v, n) := if truth (Z.land v 0xff00) then (Z.shiftr v 8, n + 8) else (v, n) in
   n + tab ff_log2_tab v) = n + Z.log2 v.
Proof.
  intros Hv. change 0xff00 with (Z.shiftl (Z.ones 8) 8).
  rewrite land_high_zero by (cbn; lia).
  destruct (Z.ltb_spec v (2 ^ 8)); cbn [negb].
  - by rewrite ff_log2_tab_ok by (cbn in *; lia).
  - pose proof (shiftr_small v 8 8 ltac:(lia) ltac:(lia) ltac:(cbn in *; lia)) as Hs.
    pose proof (log2_shiftr v 8 ltac:(lia) ltac:(lia)) as Hl.
    assert (1 ≤ Z.shiftr v 8).
    { rewrite Z.shiftr_div_pow2 by lia. apply Z.div_le_lower_bound; cbn in *; lia. }
    rewrite ff_log2_tab_ok by (cbn in *; lia). lia.
Qed.

(** [av_log2] is the binary logarithm on the whole [u32] range: the index
    of the highest set bit of a non-zero argument. *)
Lemma av_log2_spec v : 0 < v < 2 ^ 32 → av_log2 v = Z.log2 v.
Proof.
  intros Hv. unfold av_log2. change 0xffff0000 with (Z.shiftl (Z.ones 16) 16).
  rewrite land_high_zero by (cbn; lia).
  destruct (Z.ltb_spec v (2 ^ 16)); cbn [negb].
  - rewrite av_log2_low by lia. lia.
  - pose proof (shiftr_small v 16 16 ltac:(lia) ltac:(lia) ltac:(cbn in *; lia)).
    pose proof (log2_shiftr v 16 ltac:(lia) ltac:(lia)).
    assert (1 ≤ Z.shiftr v 16).
    { rewrite Z.shiftr_div_pow2 by lia. apply Z.div_le_lower_bound; cbn in *; lia. }
    rewrite av_log2_low by lia. lia.
Qed.

(** ** Correctness of the emulation-prevention removal *)

(** The specification: every [00 00 03] loses its third byte. *)
Fixpoint unescape (l : list Z) : list Z :=
  match l with
  | [] => []
  | b0 :: l0 =>
      match l0 with
      | b1 :: b2 :: l2 =>
          if (b0 =? 0) && (b1 =? 0) && (b2 =? 3) then b0 :: b1 :: unescape l2
          else b0 :: unescape l0
      | _ => b0 :: unescape l0
      end
  end.

(** The encoder side of the standard (7.4.1.1): a byte up to 3 that follows
    two zeros is preceded by 3; [z] counts the zeros just written. *)
Fixpoint escape (z : nat) (l : list Z) : list Z :=
  match l with
  | [] => []
  | b :: l' =>
      if (2 <=? z)%nat && (b <=? 3)
      then 3 :: b :: escape (if b =? 0 then 1 else 0) l'
      else b :: escape (if b =? 0 then S z else 0) l'
  end.

Definition is_bytes (l : list Z) : Prop := Forall (fun b => 0 ≤ b < 256) l.

Lemma byte_at_app (l k : list Z) : is_bytes (l ++ k) → ∀ b k', k = b :: k' →
  byte_at (l ++ k) (zlen l) = Some b.
Proof.
  intros Hb b k' ->. unfold byte_at, aget. rewrite (proj2 (Z.leb_le 0 _)) by apply zlen_nonneg.
  unfold zlen. rewrite Nat2Z.id, list_lookup_middle by done. cbn.
  apply Forall_app in Hb as [_ Hb]. apply Forall_cons in Hb as [Hb _]. by rewrite u8_id by lia.
Qed.

Lemma byte_at_nth (l k : list Z) (n : nat) : is_bytes (l ++ k) →
  byte_at (l ++ k) (zlen l + Z.of_nat n) = k !! n.
Proof.
  intros Hb. unfold byte_at, aget. rewrite (proj2 (Z.leb_le 0 _)) by (unfold zlen; lia).
  unfold zlen. replace (Z.to_nat _) with (length l + n)%nat by lia.
  rewrite lookup_app_r by lia. replace (length l + n - length l)%nat with n by lia.
  destruct (k !! n) as [b|] eqn:Hk; [|done]. cbn.
  apply Forall_app in Hb as [_ Hb]. rewrite Forall_lookup in Hb.
  by rewrite u8_id by (apply (Hb n); done).
Qed.

Lemma byte_is_nth (l k : list Z) (n : nat) v : is_bytes (l ++ k) →
  byte_is (l ++ k) (zlen l + Z.of_nat n) v = (fun b => b =? v) <$> k !! n.
Proof. intros Hb. unfold byte_is. by rewrite byte_at_nth. Qed.

Lemma rbsp_tail_spec fuel pre k dst :
  is_bytes (pre ++ k) → (length k ≤ fuel)%nat →
  rbsp_tail fuel (pre ++ k) (zlen (pre ++ k)) (zlen pre) dst = Some (dst ++ k).
Proof.
  revert pre k dst. induction fuel as [|f IH]; intros pre k dst Hb Hf; cbn [rbsp_tail].
  - destruct k; [by rewrite app_nil_r|cbn in Hf; lia].
  - destruct k as [|b k].
    + rewrite !app_nil_r. by rewrite Z.ltb_irrefl.
    + rewrite (proj2 (Z.ltb_lt _ _)) by (unfold zlen; rewrite length_app; cbn; lia).
      rewrite (byte_at_app _ _ Hb b k) by done. cbn.
      replace (pre ++ b :: k) with ((pre ++ [b]) ++ k) by (by rewrite <- app_assoc).
      replace (zlen pre + 1) with (zlen (pre ++ [b])) by (rewrite zlen_app; done).
      rewrite IH; [by rewrite <- app_assoc| |cbn in Hf; lia].
      by rewrite <- app_assoc.
Qed.

(** The body loop followed by the tail loop. *)
Definition rbsp_rest (fuel fuel' : nat) (src : list Z) (src_len i : Z) (dst : list Z) : option (list Z) :=
  '(i, dst) ← rbsp_body fuel src src_len i dst; rbsp_tail fuel' src src_len i dst.

Lemma rbsp_rest_short fuel fuel' pre k dst :
  is_bytes (pre ++ k) → zlen (pre ++ k) < 2 ^ 31 → (length k ≤ fuel')%nat → (length k < 3)%nat →
  rbsp_rest fuel fuel' (pre ++ k) (zlen (pre ++ k)) (zlen pre) dst = Some (dst ++ k).
Proof.
  intros Hb Hlen Hf Hk. unfold rbsp_rest. destruct fuel as [|f]; cbn [rbsp_body].
  - cbn. by apply rbsp_tail_spec.
  - rewrite u32_id by (rewrite zlen_app in Hlen; unfold zlen in *; lia).
    rewrite (proj2 (Z.ltb_ge _ _)) by (unfold zlen; rewrite length_app; lia). cbn.
    by apply rbsp_tail_spec.
Qed.

Lemma unescape_short k : (length k < 3)%nat → unescape k = k.
Proof. destruct k as [|a [|b [|c k]]]; cbn; intros; try done. lia. Qed.

Lemma rbsp_rest_spec fuel fuel' pre k dst :
  is_bytes (pre ++ k) → zlen (pre ++ k) < 2 ^ 31 →
  (length k ≤ fuel)%nat → (length k ≤ fuel')%nat →
  rbsp_rest fuel fuel' (pre ++ k) (zlen (pre ++ k)) (zlen pre) dst = Some (dst ++ unescape k).
Proof.
  revert pre k dst. induction fuel as [|f IH]; intros pre k dst Hb Hlen Hf Hf'.
  - rewrite unescape_short by lia. apply rbsp_rest_short; auto; lia.
  - destruct (decide (length k < 3)%nat) as [Hs|Hs].
    { rewrite unescape_short by done. by apply rbsp_rest_short. }
    destruct k as [|b0 [|b1 [|b2 k]]]; cbn in Hs; try lia.
    unfold rbsp_rest. cbn [rbsp_body].
    rewrite u32_id by (rewrite zlen_app in Hlen; unfold zlen in *; cbn [length] in *; lia).
    rewrite (proj2 (Z.ltb_lt _ _)) by (unfold zlen; rewrite length_app; cbn [length]; lia).
    rewrite (byte_at_app _ _ Hb b0 (b1 :: b2 :: k)) by done.
    pose proof (byte_is_nth _ _ 0 0 Hb) as H0. pose proof (byte_is_nth _ _ 1 0 Hb) as H1.
    pose proof (byte_is_nth _ _ 2 3 Hb) as H2. pose proof (byte_at_nth _ _ 1 Hb) as H1'.
    rewrite Z.add_0_r in H0. change (Z.of_nat 1) with 1 in *. change (Z.of_nat 2) with 2 in *.
    rewrite H0, H1, H2, H1'. cbn -[u32 unescape]. fold (rbsp_body f).
    assert (∀ mid k', b0 :: b1 :: b2 :: k = mid ++ k' →
      rbsp_rest f fuel' (pre ++ b0 :: b1 :: b2 :: k) (zlen (pre ++ b0 :: b1 :: b2 :: k))
        (zlen pre + zlen mid) = (fun d => rbsp_rest f fuel' ((pre ++ mid) ++ k') (zlen ((pre ++ mid) ++ k')) (zlen (pre ++ mid)) d)) as Hmv.
    { intros mid k' ->. by rewrite <- app_assoc, (zlen_app pre mid). }
    destruct (b0 =? 0) eqn:E0; [destruct (b1 =? 0) eqn:E1; [destruct (b2 =? 3) eqn:E2|]|]; cbn.
    1: { change (zlen pre + 3) with (zlen pre + zlen [b0; b1; b2]).
         fold (rbsp_rest f fuel' (pre ++ b0 :: b1 :: b2 :: k) (zlen (pre ++ b0 :: b1 :: b2 :: k)) (zlen pre + zlen [b0; b1; b2]) (dst ++ [b0; b1])).
         rewrite (Hmv [b0; b1; b2] k) by done. rewrite IH; [|by rewrite <- app_assoc..|cbn in Hf; lia|cbn in Hf'; lia].
         rewrite <- app_assoc. cbn [unescape app]. by rewrite E0, E1, E2. }
    all: change (zlen pre + 1) with (zlen pre + zlen [b0]);
         fold (rbsp_rest f fuel' (pre ++ b0 :: b1 :: b2 :: k) (zlen (pre ++ b0 :: b1 :: b2 :: k)) (zlen pre + zlen [b0]) (dst ++ [b0]));
         rewrite (Hmv [b0] (b1 :: b2 :: k)) by done;
         (rewrite IH; [|by rewrite <- app_assoc..|cbn in Hf |- *; lia|cbn in Hf' |- *; lia]);
         rewrite <- app_assoc; cbn [unescape app]; rewrite ?E0, ?E1, ?E2; done.
Qed.

Lemma rbsp_header_spec src : is_bytes src →
  rbsp_header 2 src (zlen src) 0 [] = Some (zlen (take 2 src), take 2 src).
Proof.
  intros Hb. assert (byte_at src 0 = src !! 0%nat) as H0.
  { change src with ([] ++ src) at 1. by apply (byte_at_nth [] src 0). }
  assert (byte_at src 1 = src !! 1%nat) as H1.
  { change src with ([] ++ src) at 1. by apply (byte_at_nth [] src 1). }
  destruct src as [|b0 [|b1 src]]; cbn -[byte_at zlen] in *; [done| |].
  - rewrite H0. done.
  - rewrite (proj2 (Z.ltb_lt _ _)) by (unfold zlen; cbn; lia). rewrite H0. cbn -[byte_at zlen].
    change (0 + 1) with 1.
    rewrite (proj2 (Z.ltb_lt 1 (zlen _))) by (unfold zlen; cbn; lia). rewrite H1. done.
Qed.

Lemma extract_rbsp_unescape src :
  is_bytes src → zlen src < 2 ^ 31 →
  nal_unit_extract_rbsp src (zlen src) =
    Some ((take 2 src ++ unescape (drop 2 src)) ++ replicate 64 0,
          zlen (take 2 src ++ unescape (drop 2 src))).
Proof.
  intros Hb Hlen. unfold nal_unit_extract_rbsp.
  rewrite rbsp_header_spec by done. cbn -[rbsp_body zlen take drop replicate].
  assert (rbsp_rest (Z.to_nat (zlen src)) (Z.to_nat (zlen src)) src (zlen src) (zlen (take 2 src)) (take 2 src)
          = Some (take 2 src ++ unescape (drop 2 src))) as Hr.
  { rewrite <- (take_drop 2 src) at 3 4. apply rbsp_rest_spec; rewrite ?take_drop; auto.
    all: rewrite length_drop; unfold zlen; lia. }
  unfold rbsp_rest in Hr. destruct (rbsp_body _ _ _ _ _) as [[i dst]|]; [|done].
  cbn -[zlen take drop replicate] in *. by rewrite Hr.
Qed.

Lemma length_unescape n l : (length l ≤ n)%nat → (length (unescape l) ≤ length l)%nat.
Proof.
  revert l. induction n as [|n IH]; intros l Hn.
  { destruct l; cbn [length] in *; [done|lia]. }
  destruct l as [|b0 [|b1 [|b2 k]]]; [cbn; lia..|].
  cbn [length] in Hn. pose proof (IH k ltac:(lia)).
  pose proof (IH (b1 :: b2 :: k) ltac:(cbn [length]; lia)) as H1.
  change (unescape (b0 :: b1 :: b2 :: k)) with
    (if (b0 =? 0) && (b1 =? 0) && (b2 =? 3) then b0 :: b1 :: unescape k else b0 :: unescape (b1 :: b2 :: k)).
  destruct (_ && _ && _); cbn [length] in *; lia.
Qed.

(** C29: [nal_unit_extract_rbsp] is total on a NAL unit of any length below
    2^31: it never reads outside the unit, copies the two header bytes, and
    returns the payload with exactly the emulation prevention bytes removed,
    followed by the 64 bytes of zero padding the bit readers rely on; the
    result fits the buffer of [src_len + 64] bytes that was allocated. *)
Theorem nal_unit_extract_rbsp_spec src :
  is_bytes src → zlen src < 2 ^ 31 →
  ∃ out, nal_unit_extract_rbsp src (zlen src) = Some (out ++ replicate 64 0, zlen out) ∧
    out = take 2 src ++ unescape (drop 2 src) ∧
    zlen (out ++ replicate 64 0) ≤ zlen src + 64.
Proof.
  intros Hb Hlen. eexists. split; [by apply extract_rbsp_unescape|]. split; [done|].
  pose proof (length_unescape _ (drop 2 src) (Nat.le_refl _)) as Hl.
  rewrite !zlen_app. unfold zlen. rewrite length_replicate.
  rewrite length_take. rewrite length_drop in Hl. lia.
Qed.

(** A NAL unit with two emulation prevention bytes, one of them in front of
    the last byte. *)
Definition sample_nal : list Z := [64; 1; 0; 0; 3; 1; 7; 0; 0; 3; 0].

Lemma nal_unit_extract_rbsp_spec_witness :
  ∃ out, nal_unit_extract_rbsp sample_nal (zlen sample_nal) = Some (out ++ replicate 64 0, zlen out) ∧
    out = take 2 sample_nal ++ unescape (drop 2 sample_nal) ∧
    zlen (out ++ replicate 64 0) ≤ zlen sample_nal + 64.
Proof. apply (nal_unit_extract_rbsp_spec sample_nal); [repeat constructor; lia|vm_compute; done]. Defined.

Lemma unescape_escape l :
  unescape (escape 0 l) = l ∧ unescape (0 :: escape 1 l) = 0 :: l ∧
  unescape (0 :: 0 :: escape 2 l) = 0 :: 0 :: l.
Proof.
  assert (∀ b k, b ≠ 0 → unescape (b :: k) = b :: unescape k) as Hnz.
  { intros b k Hb. apply Z.eqb_neq in Hb. destruct k as [|b1 [|b2 k]]; cbn; rewrite ?Hb; done. }
  assert (∀ b k, b ≠ 0 → unescape (0 :: b :: k) = 0 :: unescape (b :: k)) as Hnz1.
  { intros b k Hb. apply Z.eqb_neq in Hb. destruct k as [|b2 k]; cbn; rewrite ?Hb; done. }
  induction l as [|b l (IH0 & IH1 & IH2)]; [done|]. cbn [escape Nat.leb andb].
  destruct (Z.eqb_spec b 0) as [->|Hb].
  - split; [exact IH1|]. split; [exact IH2|]. 
    change (0 :: 0 :: unescape (0 :: escape 1 l) = 0 :: 0 :: 0 :: l). by rewrite IH1.
  - split; [by rewrite Hnz, IH0|]. split; [by rewrite Hnz1, Hnz, IH0|].
    destruct (Z.leb_spec b 3).
    + change (unescape (0 :: 0 :: 3 :: b :: escape 0 l))
        with (0 :: 0 :: unescape (b :: escape 0 l)). by rewrite Hnz, IH0.
    + assert (unescape (0 :: 0 :: b :: escape 0 l) = 0 :: unescape (0 :: b :: escape 0 l)) as ->.
      { cbn. rewrite (proj2 (Z.eqb_neq b 3)) by lia. done. }
      by rewrite Hnz1, Hnz, IH0.
Qed.

Lemma escape_bytes z l : is_bytes l → is_bytes (escape z l).
Proof.
  revert z. induction l as [|b l IH]; intros z Hl; [done|].
  apply Forall_cons in Hl as [Hb Hl]. cbn. destruct (_ && _); repeat constructor; try lia; by apply IH.
Qed.

(** encode/decode round trip of the NAL framing: a payload escaped as the
    standard prescribes comes back unchanged from [nal_unit_extract_rbsp],
    for every byte content, start-code patterns included. *)
Theorem nal_unit_extract_rbsp_roundtrip h0 h1 payload :
  is_bytes (h0 :: h1 :: payload) → zlen (h0 :: h1 :: escape 0 payload) < 2 ^ 31 →
  nal_unit_extract_rbsp (h0 :: h1 :: escape 0 payload) (zlen (h0 :: h1 :: escape 0 payload)) =
    Some ((h0 :: h1 :: payload) ++ replicate 64 0, zlen (h0 :: h1 :: payload)).
Proof.
  intros Hb Hlen. rewrite extract_rbsp_unescape; [|..|done].
  - change (drop 2 (h0 :: h1 :: escape 0 payload)) with (escape 0 payload).
    change (take 2 (h0 :: h1 :: escape 0 payload)) with [h0; h1].
    by rewrite (proj1 (unescape_escape payload)).
  - apply Forall_cons in Hb as [H0 Hb]. apply Forall_cons in Hb as [H1 Hb].
    do 2 (constructor; [done|]). by apply escape_bytes.
Qed.

Lemma nal_unit_extract_rbsp_roundtrip_witness :
  nal_unit_extract_rbsp (64 :: 1 :: escape 0 [0; 0; 1; 0; 0; 0; 3]) (zlen (64 :: 1 :: escape 0 [0; 0; 1; 0; 0; 0; 3])) =
    Some ((64 :: 1 :: [0; 0; 1; 0; 0; 0; 3]) ++ replicate 64 0, zlen (64 :: 1 :: [0; 0; 1; 0; 0; 0; 3])).
Proof.
  apply (nal_unit_extract_rbsp_roundtrip 64 1 [0; 0; 1; 0; 0; 0; 3]); [repeat constructor; lia|vm_compute; done].
Defined.

(** ** Correctness of the NAL-unit scanning *)

(** A three- or four-byte start code at offset [i] of [data]. *)
Definition start_code_at (data : list Z) (i : nat) : Prop :=
  take 3 (drop i data) = [0; 0; 1] ∨ take 4 (drop i data) = [0; 0; 0; 1].

Lemma take_prefix_lookup (l k : list Z) :
  (take (length k) l = k) ↔ ∀ n, (n < length k)%nat → l !! n = k !! n.
Proof.
  split.
  - intros <- n Hn. symmetry. apply lookup_take_lt.
    rewrite length_take in Hn. lia.
  - intros Hl. apply list_eq. intros n. destruct (decide (n < length k)%nat) as [Hn|Hn].
    + rewrite lookup_take_lt by done. by apply Hl.
    + rewrite lookup_take_ge by lia. symmetry. apply lookup_ge_None. lia.
Qed.

Lemma byte_is_drop data (i n : nat) v : is_bytes data →
  byte_is data (Z.of_nat i + Z.of_nat n) v = (fun b => b =? v) <$> drop i data !! n.
Proof.
  intros Hb. unfold byte_is, byte_at, aget. rewrite (proj2 (Z.leb_le 0 _)) by lia.
  rewrite lookup_drop. replace (Z.to_nat _) with (i + n)%nat by lia.
  destruct (data !! (i + n)%nat) as [b|] eqn:Hl; [|done]. cbn.
  rewrite u8_id; [done|]. unfold is_bytes in Hb. rewrite Forall_lookup in Hb. by eapply Hb.
Qed.

Lemma nal_end_at_spec data (i : nat) :
  is_bytes data → (i + 4 ≤ length data)%nat →
  ∃ b : bool, nal_end_at data (Z.of_nat i) = Some b ∧ (b = true ↔ start_code_at data i) ∧
    (byte_is data (Z.of_nat i) 0 = Some false → b = false).
Proof.
  intros Hb Hlen.
  pose proof (byte_is_drop data i 0) as E0. pose proof (byte_is_drop data i 1) as E1.
  pose proof (byte_is_drop data i 2) as E2. pose proof (byte_is_drop data i 3) as E3.
  rewrite Z.add_0_r in E0. change (Z.of_nat 1) with 1 in *. change (Z.of_nat 2) with 2 in *.
  change (Z.of_nat 3) with 3 in *. unfold nal_end_at, start_code_at.
  rewrite !E0, !E1, !E2, !E3 by done. clear E0 E1 E2 E3.
  assert (length (drop i data) ≥ 4)%nat as Hd by (rewrite length_drop; lia).
  destruct (drop i data) as [|b0 [|b1 [|b2 [|b3 k]]]]; cbn in Hd; try lia. cbn.
  destruct (Z.eqb_spec b0 0), (Z.eqb_spec b1 0), (Z.eqb_spec b2 1), (Z.eqb_spec b2 0),
    (Z.eqb_spec b3 1); subst; cbn; eexists; (split; [reflexivity|]);
    (split; [|congruence]); split; intros; try congruence; auto;
    match goal with H : _ ∨ _ |- _ => destruct H; congruence end.
Qed.

Lemma calc_nal_len_loop_spec n data len (i : nat) :
  is_bytes data → (i + n + 4 ≤ length data)%nat →
  ∃ r, calc_nal_len_loop n data len (Z.of_nat i) = Some r ∧
    ((r = len ∧ ∀ j, (i ≤ j < i + n)%nat → ¬ start_code_at data j) ∨
     (∃ j, r = Z.of_nat j ∧ (i ≤ j < i + n)%nat ∧ start_code_at data j ∧
        ∀ k, (i ≤ k < j)%nat → ¬ start_code_at data k)).
Proof.
  intros Hb. revert i. induction n as [|n IH]; intros i Hlen; cbn [calc_nal_len_loop].
  - exists len. split; [done|]. left. split; [done|]. lia.
  - destruct (nal_end_at_spec data i Hb ltac:(lia)) as (b & He & Hiff & Hz).
    destruct (IH (S i) ltac:(lia)) as (r & Hr & Hcase).
    replace (Z.of_nat i + 1) with (Z.of_nat (S i)) by lia.
    assert (∃ z, byte_is data (Z.of_nat i) 0 = Some z) as [z Ez].
    { pose proof (byte_is_drop data i 0 0 Hb) as E. rewrite Z.add_0_r in E. rewrite E.
      rewrite lookup_drop. destruct (lookup_lt_is_Some_2 data (i + 0)%nat) as [x ->]; [lia|].
      eexists; reflexivity. }
    rewrite Ez. cbn. rewrite He, Hr.
    assert (∀ b', b' = b → b' = false → ∃ r', Some r = Some r' ∧
      ((r' = len ∧ ∀ j, (i ≤ j < i + S n)%nat → ¬ start_code_at data j) ∨
       (∃ j, r' = Z.of_nat j ∧ (i ≤ j < i + S n)%nat ∧ start_code_at data j ∧
          ∀ k, (i ≤ k < j)%nat → ¬ start_code_at data k))) as Hskip.
    { intros b' -> ->. assert (¬ start_code_at data i) as Hno by (intros Hs%Hiff; done).
      exists r. split; [done|]. destruct Hcase as [[-> Hn]|(j & -> & Hj & Hs & Hn)].
      - left. split; [done|]. intros j Hj. destruct (decide (j = i)) as [->|]; [done|]. apply Hn. lia.
      - right. exists j. split; [done|]. split; [lia|]. split; [done|].
        intros k Hk. destruct (decide (k = i)) as [->|]; [done|]. apply Hn. lia. }
    destruct z; cbn.
    + destruct b; [|by apply (Hskip false)].
      eexists. split; [reflexivity|]. right. exists i. split; [done|]. split; [lia|].
      split; [by apply Hiff|]. lia.
    + apply (Hskip b); [done|]. by apply Hz.
Qed.

(** [calc_nal_len] returns the offset of the first start code that begins
    before the last four bytes, and the whole length when there is none; it
    reads only inside the buffer. *)
Theorem calc_nal_len_spec data :
  is_bytes data →
  ∃ r, calc_nal_len data (zlen data) = Some r ∧
    ((r = zlen data ∧ ∀ j, (j + 4 < length data)%nat → ¬ start_code_at data j) ∨
     (∃ j, r = Z.of_nat j ∧ (j + 4 < length data)%nat ∧ start_code_at data j ∧
        ∀ k, (k < j)%nat → ¬ start_code_at data k)).
Proof.
  intros Hb. unfold calc_nal_len.
  destruct (decide (length data < 4)%nat) as [Hs|Hs].
  - replace (Z.to_nat (zlen data - 4)) with 0%nat by (unfold zlen; lia).
    exists (zlen data). split; [done|]. left. split; [done|]. lia.
  - destruct (calc_nal_len_loop_spec (Z.to_nat (zlen data - 4)) data (zlen data) 0 Hb)
      as (r & Hr & Hc); [unfold zlen; lia|].
    exists r. split; [done|]. unfold zlen in *.
    destruct Hc as [[-> Hn]|(j & -> & Hj & Hsc & Hn)].
    + left. split; [done|]. intros j Hj. apply Hn. lia.
    + right. exists j. repeat split; [lia|done|]. intros k Hk. apply Hn. lia.
Qed.

Lemma calc_nal_len_spec_witness :
  let data := [9; 0; 0; 1; 5; 0; 0; 0; 1; 2] in
  ∃ r, calc_nal_len data (zlen data) = Some r ∧
    ((r = zlen data ∧ ∀ j, (j + 4 < length data)%nat → ¬ start_code_at data j) ∨
     (∃ j, r = Z.of_nat j ∧ (j + 4 < length data)%nat ∧ start_code_at data j ∧
        ∀ k, (k < j)%nat → ¬ start_code_at data k)).
Proof. apply (calc_nal_len_spec [9; 0; 0; 1; 5; 0; 0; 0; 1; 2]). repeat constructor; lia. Defined.
