(* ===== verification/GetBits.v ===== *)
(** The bitstream reader (src/drivers/amvdec_ports/utils/get_bits.h, big-endian
    build: BITSTREAM_READER_LE is not defined), with the loads of common.h.

    A reader works on the state [get_bits_context].  [buffer] is the memory
    object the [u8 *buffer] of the C structure points to, from the pointer to
    the end of the allocation (the padding after the payload included); a
    NULL buffer is the empty object.  A read outside the object and a shift
    by 32 are [Undef].  The theorems relate every reader to the bit sequence
    [gbits] of the buffer. *)

From stdpp Require Import base list numbers.
From Stdlib Require Import ZArith Lia Bool.
From S2P Require Import Prelude.
From S2P Require Import Bits.
From S2P Require Import CommonUtils.

#[local] Open Scope Z_scope.

Record get_bits_context := mk_gb {
  buffer : list Z;
  buffer_end : Z;            (** offset of the end from [buffer] *)
  index : Z;
  size_in_bits : Z;
  size_in_bits_plus8 : Z
}.

#[export] Instance eta_get_bits_context : Settable get_bits_context := fun r =>
  mk_gb (buffer r) (buffer_end r) (index r) (size_in_bits r) (size_in_bits_plus8 r).

Definition G A := M get_bits_context A.

#[global] Instance G_ret : MRet G := M_ret get_bits_context.
#[global] Instance G_bind : MBind G := M_bind get_bits_context.

(** ** Loads *)

(** AV_RB32 *)
Definition AV_RB32 (buf : list Z) (o : Z) : option Z :=
  b0 ← byte_at buf o; b1 ← byte_at buf (o + 1);
  b2 ← byte_at buf (o + 2); b3 ← byte_at buf (o + 3);
  Some (Z.lor (Z.lor (Z.lor (u32 (Z.shiftl b0 24)) (Z.shiftl b1 16)) (Z.shiftl b2 8)) b3).

(** AV_RL32 *)
Definition AV_RL32 (buf : list Z) (o : Z) : option Z :=
  b0 ← byte_at buf o; b1 ← byte_at buf (o + 1);
  b2 ← byte_at buf (o + 2); b3 ← byte_at buf (o + 3);
  Some (Z.lor (Z.lor (Z.lor (u32 (Z.shiftl b3 24)) (Z.shiftl b2 16)) (Z.shiftl b1 8)) b0).

(** NEG_USR32(a, s): the top [s] bits of a 32-bit word. *)
Definition NEG_USR32 (a s : Z) : option Z :=
  let sh := if s <? 32 then 32 - s else 0 in
  if (0 <=? sh) && (sh <? 32) then Some (Z.shiftr (u32 a) sh) else None.

(** NEG_SSR32(a, s) *)
Definition NEG_SSR32 (a s : Z) : option Z :=
  let sh := if s <? 32 then 32 - s else 0 in
  if (0 <=? sh) && (sh <? 32) then Some (Z.shiftr (s32 a) sh) else None.

(** UPDATE_CACHE_BE: the 32-bit word at the byte that holds bit [re_index],
    shifted so that this bit comes first. *)
Definition UPDATE_CACHE_BE (buf : list Z) (re_index : Z) : option Z :=
  w ← AV_RB32 buf (Z.shiftr re_index 3);
  Some (u32 (Z.shiftl w (Z.land re_index 7))).

Definition UPDATE_CACHE_LE (buf : list Z) (re_index : Z) : option Z :=
  w ← AV_RL32 buf (Z.shiftr re_index 3);
  Some (Z.shiftr w (Z.land re_index 7)).

(** OPEN_READER; UPDATE_CACHE; GET_CACHE *)
Definition open_cache : G Z :=
  s ← get; of_option (UPDATE_CACHE_BE (buffer s) (u32 (index s))).

(** LAST_SKIP_BITS; CLOSE_READER: [re_index] is an [u32], [index] an [int]. *)
Definition close_skip (n : Z) : G unit :=
  modify (fun s => s <| index := s32 (u32 (u32 (index s) + n)) |>).

(** [sign_extend(int val, u32 bits)] *)
Definition sign_extend (val bits : Z) : option Z :=
  let shift := u32 (32 - bits) in
  if shift <? 32 then Some (Z.shiftr (s32 (u32 (Z.shiftl (u32 val) shift))) shift) else None.

(** [zero_extend(u32 val, u32 bits)] *)
Definition zero_extend (val bits : Z) : option Z :=
  let shift := u32 (32 - bits) in
  if shift <? 32 then Some (Z.shiftr (u32 (Z.shiftl val shift)) shift) else None.

(** ** The reader *)

Definition get_bits_count : G Z := gets index.

(** [skip_bits_long(s, n)] *)
Definition skip_bits_long (n : Z) : G unit :=
  modify (fun s => s <| index := s32 (index s + n) |>).

(** [int get_xbits(s, n)]: sign bit and mantissa. *)
Definition get_xbits (n : Z) : G Z :=
  c ← open_cache;
  let cache := s32 c in
  let sign := Z.shiftr (Z.lnot cache) 31 in
  close_skip n;;
  v ← of_option (NEG_USR32 (u32 (Z.lxor sign cache)) n);
  mret (s32 (u32 (u32 (Z.lxor v (u32 sign)) - u32 sign))).

(** [int get_sbits(s, n)] *)
Definition get_sbits (n : Z) : G Z :=
  c ← open_cache; tmp ← of_option (NEG_SSR32 c n); close_skip n;; mret tmp.

(** [u32 get_bits(s, n)] *)
Definition get_bits (n : Z) : G Z :=
  c ← open_cache; tmp ← of_option (NEG_USR32 c n); close_skip n;; mret tmp.

(** [int get_bitsz(s, n)] *)
Definition get_bitsz (n : Z) : G Z :=
  if truth n then (v ← get_bits n; mret (s32 v)) else mret 0.

(** [u32 get_bits_le(s, n)] *)
Definition get_bits_le (n : Z) : G Z :=
  s ← get; c ← of_option (UPDATE_CACHE_LE (buffer s) (u32 (index s)));
  tmp ← of_option (zero_extend c n); close_skip n;; mret tmp.

(** [u32 show_bits(s, n)] *)
Definition show_bits (n : Z) : G Z :=
  c ← open_cache; of_option (NEG_USR32 c n).

Definition skip_bits (n : Z) : G unit := close_skip n.

(** [u32 get_bits1(s)] *)
Definition get_bits1 : G Z :=
  s ← get;
  let i := u32 (index s) in
  r ← of_option (byte_at (buffer s) (Z.shiftr i 3));
  let r := u8 (Z.shiftl r (Z.land i 7)) in
  let r := Z.shiftr r 7 in
  modify (fun s => s <| index := s32 (u32 (i + 1)) |>);;
  mret r.

Definition show_bits1 : G Z := show_bits 1.

Definition skip_bits1 : G unit := skip_bits 1.

(** [u32 get_bits_long(s, n)] *)
Definition get_bits_long (n : Z) : G Z :=
  if n =? 0 then mret 0
  else if n <=? MIN_CACHE_BITS then get_bits n
  else
    hi ← get_bits 16;
    sh ← of_option (if (0 <=? n - 16) && (n - 16 <? 32) then Some (n - 16) else None);
    lo ← get_bits (n - 16);
    mret (Z.lor (u32 (Z.shiftl hi sh)) lo).

(** [u64 get_bits64(s, n)] *)
Definition get_bits64 (n : Z) : G Z :=
  if n <=? 32 then get_bits_long n
  else
    hi ← get_bits_long (n - 32);
    lo ← get_bits_long 32;
    mret (Z.lor (u64 (Z.shiftl hi 32)) lo).

(** [int get_sbits_long(s, n)] *)
Definition get_sbits_long (n : Z) : G Z :=
  if n =? 0 then mret 0 else v ← get_bits_long n; of_option (sign_extend v n).

(** [u32 show_bits_long(s, n)]: the long case reads from a copy of [*s]. *)
Definition show_bits_long (n : Z) : G Z :=
  if n <=? MIN_CACHE_BITS then show_bits n
  else
    s ← get;
    match get_bits_long n s with
    | Ok v _ => mret v
    | Err e _ => throw e
    | Undef => undef
    end.

(** [int check_marker(s, msg)]; the message is only printed. *)
Definition check_marker : G Z := get_bits1.

Definition INT_MAX : Z := 2 ^ 31 - 1.

(** [int init_get_bits_xe(s, buffer, bit_size, is_le)]; [None] is NULL.  The
    old contents of [*s] are overwritten entirely. *)
Definition init_get_bits_xe (buf : option (list Z)) (bit_size : Z) : Z * get_bits_context :=
  let bad := (bit_size >=? INT_MAX - Z.max 7 (AV_INPUT_BUFFER_PADDING_SIZE * 8))
             || (bit_size <? 0) || (match buf with None => true | Some _ => false end) in
  let ret := if bad then -1 else 0 in
  let bit_size := if bad then 0 else bit_size in
  let buf := if bad then [] else (match buf with None => [] | Some b => b end) in
  let buffer_size := Z.shiftr (bit_size + 7) 3 in
  (ret, mk_gb buf buffer_size 0 bit_size (bit_size + 8)).

Definition init_get_bits (buf : option (list Z)) (bit_size : Z) : Z * get_bits_context :=
  init_get_bits_xe buf bit_size.

(** [int init_get_bits8(s, buffer, byte_size)] *)
Definition init_get_bits8 (buf : option (list Z)) (byte_size : Z) : Z * get_bits_context :=
  let byte_size := if (byte_size >? Z.quot INT_MAX 8) || (byte_size <? 0) then -1 else byte_size in
  init_get_bits buf (byte_size * 8).

(** [align_get_bits(s)]: the byte offset of the returned pointer. *)
Definition align_get_bits : G Z :=
  i ← get_bits_count;
  let n := Z.land (- i) 7 in
  when (truth n) (skip_bits n);;
  i ← gets index; mret (Z.shiftr i 3).

Definition decode012 : G Z :=
  n ← get_bits1; if n =? 0 then mret 0 else b ← get_bits1; mret (b + 1).

Definition decode210 : G Z :=
  n ← get_bits1; if truth n then mret 0 else b ← get_bits1; mret (2 - b).

(** [int get_bits_left(gb)] *)
Definition get_bits_left : G Z :=
  s ← get; mret (s32 (size_in_bits s - index s)).

(** [int skip_1stop_8data_bits(gb)]: every iteration of the loop advances the
    reader by nine bits, [fuel] bounds their number. *)
Fixpoint skip_1stop_loop (fuel : nat) : G Z :=
  match fuel with
  | O => undef
  | S f =>
      b ← get_bits1;
      if truth b then
        skip_bits 8;;
        l ← get_bits_left;
        if l <=? 0 then mret (-1) else skip_1stop_loop f
      else mret 0
  end.

Definition skip_1stop_8data_bits : G Z :=
  l ← get_bits_left;
  if l <=? 0 then mret (-1)
  else s ← get; skip_1stop_loop (S (length (buffer s))).

(** ** Readers against bit sequences *)

(** The bits of the buffer, and those not yet consumed. *)
Definition gbits (s : get_bits_context) : list bool := bytes_bits (buffer s).

Definition stream (s : get_bits_context) : list bool := drop (Z.to_nat (index s)) (gbits s).

Definition advance (s : get_bits_context) (n : Z) : get_bits_context :=
  s <| index := index s + n |>.

(** Memory for a word-sized load [n] bits further on; the bit positions of
    the buffer are [int]s. *)
Definition room (s : get_bits_context) (n : Z) : Prop :=
  0 ≤ index s ∧ index s + n + 32 ≤ 8 * zlen (buffer s) ∧ 8 * zlen (buffer s) < 2 ^ 31.

Lemma room_le s n m : m ≤ n → room s n → room s m.
Proof. unfold room. lia. Qed.

Lemma room_advance s n m : 0 ≤ n → room s (n + m) → room (advance s n) m.
Proof. unfold room, advance. cbn. lia. Qed.

Lemma stream_advance s n : 0 ≤ index s → 0 ≤ n →
  stream (advance s n) = drop (Z.to_nat n) (stream s).
Proof.
  intros Hi Hn. unfold stream, gbits, advance. cbn. rewrite drop_drop. f_equal. lia.
Qed.

Lemma advance_0 s : advance s 0 = s.
Proof. unfold advance. cbn. rewrite Z.add_0_r. by destruct s. Qed.

Lemma advance_advance s n m : advance (advance s n) m = advance s (n + m).
Proof. unfold advance. cbn. by rewrite Z.add_assoc. Qed.

Lemma length_stream s n : 0 ≤ n → room s n → (Z.to_nat n + 32 ≤ length (stream s))%nat.
Proof.
  intros Hn (H0 & H1 & H2). unfold stream, gbits. rewrite length_drop, length_bytes_bits.
  unfold zlen in *. lia.
Qed.

Lemma AV_RB32_spec buf (o : nat) :
  (o + 4 ≤ length buf)%nat →
  AV_RB32 buf (Z.of_nat o) = Some (bval (take 32 (drop (8 * o) (bytes_bits buf)))).
Proof.
  intros Ho. rewrite drop_bytes_bits.
  assert (∀ n : nat, (n < 4)%nat → byte_at buf (Z.of_nat o + Z.of_nat n) = u8 <$> drop o buf !! n) as Hb.
  { intros n Hn. unfold byte_at, aget. rewrite (proj2 (Z.leb_le 0 _)) by lia.
    rewrite lookup_drop. do 2 f_equal. lia. }
  pose proof (Hb 0%nat ltac:(lia)) as H0. rewrite Z.add_0_r in H0.
  pose proof (Hb 1%nat ltac:(lia)) as H1. pose proof (Hb 2%nat ltac:(lia)) as H2.
  pose proof (Hb 3%nat ltac:(lia)) as H3.
  change (Z.of_nat 1) with 1 in *. change (Z.of_nat 2) with 2 in *. change (Z.of_nat 3) with 3 in *.
  unfold AV_RB32. rewrite H0, H1, H2, H3. clear H0 H1 H2 H3 Hb.
  assert (length (drop o buf) ≥ 4)%nat as Hd by (rewrite length_drop; lia).
  destruct (drop o buf) as [|b0 [|b1 [|b2 [|b3 k]]]]; cbn in Hd; try lia.
  cbn -[u8 u32 take bytes_bits bval]. f_equal.
  change (b0 :: b1 :: b2 :: b3 :: k) with ([b0; b1; b2; b3] ++ k).
  rewrite bytes_bits_app, take_app_length' by (by rewrite length_bytes_bits).
  rewrite bval_4bytes. change (_ mod 256) with (u8 b0) at 1.
  change (b1 mod 256) with (u8 b1). change (b2 mod 256) with (u8 b2). change (b3 mod 256) with (u8 b3).
  pose proof (u8_range b0). pose proof (u8_range b1). pose proof (u8_range b2). pose proof (u8_range b3).
  rewrite !Z.shiftl_mul_pow2 by lia. rewrite u32_id by lia.
  rewrite (lor_mul_add (u8 b0)) by lia.
  replace (u8 b0 * 2 ^ 24 + u8 b1 * 2 ^ 16) with ((u8 b0 * 2 ^ 8 + u8 b1) * 2 ^ 16) by lia.
  rewrite lor_mul_add by lia.
  replace ((u8 b0 * 2 ^ 8 + u8 b1) * 2 ^ 16 + u8 b2 * 2 ^ 8)
    with (((u8 b0 * 2 ^ 8 + u8 b1) * 2 ^ 8 + u8 b2) * 2 ^ 8) by lia.
  rewrite lor_mul_add by lia. lia.
Qed.

(** The bits of the cache: those up to the end of the 32-bit word that was
    loaded, then zeros for the bits the shift moved in. *)
Definition cache_bits (s : get_bits_context) : list bool :=
  let k := Z.to_nat (index s mod 8) in
  take (32 - k) (stream s) ++ replicate k false.

Lemma length_cache_bits s : room s 0 → length (cache_bits s) = 32%nat.
Proof.
  intros Hr. pose proof (length_stream s 0 ltac:(lia) Hr) as Hl. unfold cache_bits.
  pose proof (Z.mod_pos_bound (index s) 8).
  rewrite length_app, length_take, length_replicate. lia.
Qed.

Lemma open_cache_spec s : room s 0 → open_cache s = Ok (bval (cache_bits s)) s.
Proof.
  intros Hr. pose proof Hr as (H0 & H1 & H2).
  pose proof (Z.div_mod (index s) 8) as Hdm. pose proof (Z.mod_pos_bound (index s) 8) as Hm.
  unfold open_cache, of_option, mbind, G_bind, M_bind, get, UPDATE_CACHE_BE.
  rewrite u32_id by lia. rewrite Z.shiftr_div_pow2 by lia. change (2 ^ 3) with 8.
  change 7 with (Z.ones 3). rewrite Z.land_ones by lia. change (2 ^ 3) with 8.
  set (o := Z.to_nat (index s / 8)). set (k := Z.to_nat (index s mod 8)).
  replace (index s / 8) with (Z.of_nat o) by (unfold o; rewrite Z2Nat.id; lia).
  rewrite AV_RB32_spec by (unfold o, zlen in *; lia). cbn -[u32 take drop bval Nat.mul bytes_bits Z.shiftl].
  replace (index s mod 8) with (Z.of_nat k) by (unfold k; lia).
  unfold u32. rewrite shiftl_mod_pow2 by lia.
  set (L := take 32 (drop (8 * o) (bytes_bits (buffer s)))).
  assert (length L = 32%nat) as HL.
  { unfold L. rewrite length_take, length_drop, length_bytes_bits. unfold o, zlen in *. lia. }
  assert (bval L mod 2 ^ (32 - Z.of_nat k) = bval (drop k L)) as ->.
  { rewrite bval_drop by lia. do 2 f_equal. unfold zlen. lia. }
  unfold cache_bits. fold k. rewrite bval_app, bval_false. unfold zlen.
  rewrite length_replicate, Z.add_0_r. do 3 f_equal. unfold L, stream, gbits.
  rewrite skipn_firstn_comm, drop_drop. do 2 f_equal. unfold o, k. lia.
Qed.

Lemma NEG_USR32_spec l n : length l = 32%nat → 1 ≤ n ≤ 32 →
  NEG_USR32 (bval l) n = Some (bval (take (Z.to_nat n) l)).
Proof.
  intros Hl Hn. unfold NEG_USR32. rewrite bval_take by lia.
  pose proof (bval_range l) as Hr. unfold zlen in *. rewrite Hl in *.
  change (Z.of_nat 32) with 32 in *. rewrite u32_id by done.
  replace (if n <? 32 then 32 - n else 0) with (32 - n) by (destruct (Z.ltb_spec n 32); lia).
  rewrite (proj2 (Z.leb_le 0 _)), (proj2 (Z.ltb_lt _ 32)) by lia. cbn -[Z.shiftr].
  rewrite Z.shiftr_div_pow2 by lia. do 3 f_equal. lia.
Qed.

Lemma close_skip_spec s n : 0 ≤ index s → 0 ≤ n → index s + n < 2 ^ 31 →
  close_skip n s = Ok tt (advance s n).
Proof.
  intros Hi Hn Hs. unfold close_skip, modify, advance. cbn -[u32 s32].
  rewrite (u32_id (index s)) by lia. by rewrite s32_u32, s32_id by lia.
Qed.

Lemma room_close s n m : 0 ≤ m ≤ 32 → 0 ≤ n → room s n → index s + n + m < 2 ^ 31.
Proof. unfold room. lia. Qed.

(** [get_bits] on any width: the bits of the cache, not of the stream. *)
Lemma get_bits_cache s n : room s 0 → 1 ≤ n ≤ 32 →
  get_bits n s = Ok (bval (take (Z.to_nat n) (cache_bits s))) (advance s n).
Proof.
  intros Hr Hn. unfold get_bits, mbind, G_bind, M_bind. rewrite open_cache_spec by done.
  rewrite NEG_USR32_spec by (try apply length_cache_bits; done). cbn -[close_skip].
  rewrite close_skip_spec; [done|unfold room in Hr; lia..].
Qed.

Lemma cache_bits_take s (n : nat) : room s 0 → index s mod 8 + Z.of_nat n ≤ 32 →
  take n (cache_bits s) = take n (stream s).
Proof.
  intros Hr Hn. pose proof (length_stream s 0 ltac:(lia) Hr).
  pose proof (Z.mod_pos_bound (index s) 8). unfold cache_bits.
  rewrite take_app_le by (rewrite length_take; lia). rewrite take_take. f_equal. lia.
Qed.

Lemma get_bits_stream s n :
  room s 0 → 1 ≤ n → index s mod 8 + n ≤ 32 →
  get_bits n s = Ok (bval (take (Z.to_nat n) (stream s))) (advance s n).
Proof.
  intros Hr Hn Ha. pose proof (Z.mod_pos_bound (index s) 8).
  rewrite get_bits_cache by (auto; lia). by rewrite cache_bits_take by (auto; lia).
Qed.

Lemma show_bits_spec s n : room s 0 → 1 ≤ n ≤ 32 →
  show_bits n s = Ok (bval (take (Z.to_nat n) (cache_bits s))) s.
Proof.
  intros Hr Hn. unfold show_bits, mbind, G_bind, M_bind. rewrite open_cache_spec by done.
  by rewrite NEG_USR32_spec by (try apply length_cache_bits; done).
Qed.

Lemma skip_bits_spec s n : 0 ≤ index s → 0 ≤ n → index s + n < 2 ^ 31 →
  skip_bits n s = Ok tt (advance s n).
Proof. apply close_skip_spec. Qed.

(** A reader on [n] zero bytes. *)
Definition zero_reader (n : nat) : get_bits_context := mk_gb (replicate n 0) (Z.of_nat n) 0 (8 * Z.of_nat n) (8 * Z.of_nat n + 8).

Lemma zero_reader_room n k : k + 32 ≤ 8 * Z.of_nat n < 2 ^ 31 → room (zero_reader n) k.
Proof. unfold room, zero_reader, zlen. cbn [buffer index]. rewrite length_replicate. lia. Qed.

(** [get_bits] returns the next [n] bits of the bitstream as a number and
    advances by [n], whenever they lie in the 32-bit word the cache loads: for
    every [n] up to 25 ("Read 1-25 bits"), and up to 32 at a byte boundary;
    [show_bits] followed by [skip_bits] is the same. *)
Theorem get_bits_spec s n :
  room s 0 → 1 ≤ n → index s mod 8 + n ≤ 32 →
  let v := bval (take (Z.to_nat n) (stream s)) in
  get_bits n s = Ok v (advance s n) ∧ show_bits n s = Ok v s ∧
  skip_bits n s = Ok tt (advance s n) ∧ 0 ≤ v < 2 ^ n.
Proof.
  intros Hr Hn Ha. pose proof (Z.mod_pos_bound (index s) 8). cbn zeta.
  pose proof (length_stream s 0 ltac:(lia) Hr).
  split; [by apply get_bits_stream|]. split; [|split].
  - rewrite show_bits_spec by (auto; lia). by rewrite cache_bits_take by (auto; lia).
  - unfold room in Hr. apply skip_bits_spec; lia.
  - pose proof (bval_range (take (Z.to_nat n) (stream s))) as Hv. unfold zlen in Hv.
    rewrite length_take in Hv. replace (Z.of_nat (Nat.min (Z.to_nat n) (length (stream s)))) with n in Hv by lia. done.
Qed.

(** A reader in the middle of a byte. *)
Definition sample_reader : get_bits_context :=
  mk_gb [165; 60; 129; 255; 7; 0; 0; 0; 0; 0; 0; 0; 0; 0; 0; 0; 0; 0; 0; 0] 5 3 40 48.

Lemma sample_reader_room n : n ≤ 96 → room sample_reader n.
Proof. unfold room, zlen. cbn. lia. Qed.

Lemma get_bits_spec_witness :
  let v := bval (take 10 (stream sample_reader)) in
  get_bits 10 sample_reader = Ok v (advance sample_reader 10) ∧
  show_bits 10 sample_reader = Ok v sample_reader ∧
  skip_bits 10 sample_reader = Ok tt (advance sample_reader 10) ∧ 0 ≤ v < 2 ^ 10.
Proof. apply (get_bits_spec sample_reader 10); [apply sample_reader_room; lia|lia|done]. Defined.

(** what [get_bits_long(gb, 32)] really returns.  MIN_CACHE_BITS is 64
    although the cache has 32 bits, so the function never splits the read:
    the low [index mod 8] bits of the result are zeros instead of bits of the
    stream, and equal to the 32 bits of the stream exactly at a byte boundary
    or when the lost bits are zero. *)
Theorem get_bits_long_32 s :
  room s 0 →
  let k := index s mod 8 in
  let v := bval (take 32 (stream s)) in
  get_bits_long 32 s = Ok (v - v mod 2 ^ k) (advance s 32).
Proof.
  intros Hr k v. pose proof (length_stream s 0 ltac:(lia) Hr) as Hl.
  pose proof (Z.mod_pos_bound (index s) 8) as Hk. fold k in Hk.
  change (get_bits_long 32 s) with (get_bits 32 s).
  rewrite get_bits_cache by (auto; lia). f_equal.
  rewrite take_ge by (by rewrite length_cache_bits).
  unfold cache_bits. fold k. rewrite bval_app, bval_false. unfold v.
  assert (take (32 - Z.to_nat k) (stream s) = take (32 - Z.to_nat k) (take 32 (stream s))) as ->.
  { rewrite take_take. f_equal. lia. }
  rewrite bval_take by (rewrite length_take; lia). unfold zlen.
  rewrite length_take, length_replicate.
  replace (Z.of_nat (Nat.min 32 (length (stream s))) - Z.of_nat (32 - Z.to_nat k)) with k by lia.
  replace (Z.of_nat (Z.to_nat k)) with k by lia.
  pose proof (Z.div_mod (bval (take 32 (stream s))) (2 ^ k)). pose proof (Z.pow_nonzero 2 k). lia.
Qed.

Lemma get_bits_long_32_witness :
  let k := index sample_reader mod 8 in
  let v := bval (take 32 (stream sample_reader)) in
  get_bits_long 32 sample_reader = Ok (v - v mod 2 ^ k) (advance sample_reader 32).
Proof. apply (get_bits_long_32 sample_reader). apply sample_reader_room. lia. Defined.

Lemma get_bits_long_spec s n : room s 0 → 0 ≤ n → index s mod 8 + n ≤ 32 →
  get_bits_long n s = Ok (bval (take (Z.to_nat n) (stream s))) (advance s n).
Proof.
  intros Hr Hn Ha. unfold get_bits_long. destruct (Z.eqb_spec n 0) as [->|].
  - cbn. by rewrite advance_0.
  - pose proof (Z.mod_pos_bound (index s) 8). rewrite (proj2 (Z.leb_le n _)) by (unfold MIN_CACHE_BITS; lia).
    apply get_bits_stream; auto; lia.
Qed.

Lemma byte_testbit (b : Z) (k : Z) : 0 ≤ b < 256 → 0 ≤ k < 8 →
  Z.shiftr (u8 (Z.shiftl b k)) 7 = Z.b2z (Z.testbit b (7 - k)).
Proof.
  intros Hb Hk. rewrite Z.shiftr_div_pow2 by lia. unfold u8. rewrite shiftl_mod_pow2 by lia.
  rewrite Z.testbit_spec' by lia.
  replace (8 - k) with (7 - k + 1) by lia. rewrite Z.pow_add_r by lia. change (2 ^ 1) with 2.
  pose proof (Z.pow_pos_nonneg 2 (7 - k)). pose proof (Z.pow_pos_nonneg 2 k).
  replace (2 ^ 7) with (2 ^ (7 - k) * 2 ^ k) by (rewrite <- Z.pow_add_r by lia; f_equal; lia).
  rewrite Z.div_mul_cancel_r by lia. rewrite Z.rem_mul_r by lia.
  rewrite (Z.mul_comm (2 ^ (7 - k))), Z.div_add by lia. rewrite Z.div_small by (apply Z.mod_pos_bound; lia).
  lia.
Qed.

Lemma bits8_lookup b (k : nat) : (k < 8)%nat → bits 8 b !! k = Some (Z.testbit b (Z.of_nat (7 - k))).
Proof. intros Hk. do 8 (destruct k as [|k]; [done|]). lia. Qed.

Lemma bytes_bits_lookup buf (o k : nat) b : buf !! o = Some b → (k < 8)%nat →
  bytes_bits buf !! (8 * o + k)%nat = Some (Z.testbit b (Z.of_nat (7 - k))).
Proof.
  intros Hb Hk. rewrite <- lookup_drop, drop_bytes_bits, (drop_S _ b) by done.
  change (b :: drop (S o) buf) with ([b] ++ drop (S o) buf). rewrite bytes_bits_app.
  rewrite lookup_app_l by (rewrite length_bytes_bits; cbn; lia).
  unfold bytes_bits. cbn [map concat]. rewrite app_nil_r. by apply bits8_lookup.
Qed.

Lemma testbit_u8 b n : 0 ≤ n < 8 → Z.testbit (u8 b) n = Z.testbit b n.
Proof. intros. unfold u8. by rewrite Z.mod_pow2_bits_low by lia. Qed.

Lemma get_bits1_bit s :
  0 ≤ index s → index s < 8 * zlen (buffer s) → 8 * zlen (buffer s) < 2 ^ 31 →
  ∃ b : bool, gbits s !! Z.to_nat (index s) = Some b ∧
    get_bits1 s = Ok (Z.b2z b) (advance s 1).
Proof.
  intros H0 H1 H2. pose proof (Z.div_mod (index s) 8) as Hdm.
  pose proof (Z.mod_pos_bound (index s) 8) as Hm.
  destruct (lookup_lt_is_Some_2 (buffer s) (Z.to_nat (index s / 8))) as [b Hb]; [unfold zlen in *; lia|].
  exists (Z.testbit b (7 - index s mod 8)). split.
  - unfold gbits. replace (Z.to_nat (index s)) with (8 * Z.to_nat (index s / 8) + Z.to_nat (index s mod 8))%nat by lia.
    rewrite (bytes_bits_lookup _ _ _ b) by (auto; lia). do 2 f_equal. lia.
  - unfold get_bits1, mbind, G_bind, M_bind, get, of_option, byte_at, aget.
    rewrite u32_id by lia. rewrite Z.shiftr_div_pow2 by lia. change (2 ^ 3) with 8.
    rewrite (proj2 (Z.leb_le 0 _)) by (apply Z.div_pos; lia). rewrite Hb.
    cbn -[u8 u32 s32 Z.land Z.shiftl Z.shiftr Z.b2z]. change 7 with (Z.ones 3) at 1.
    rewrite Z.land_ones by lia. change (2 ^ 3) with 8.
    pose proof (u8_range b). rewrite byte_testbit by lia. rewrite testbit_u8 by lia.
    unfold advance. cbn -[u32 s32 Z.b2z]. by rewrite s32_u32, s32_id by lia.
Qed.

(** [get_bits1] returns the next bit of the stream and agrees with
    [get_bits(gb, 1)] wherever both may read; it needs one byte only. *)
Theorem get_bits1_spec s :
  0 ≤ index s → index s < 8 * zlen (buffer s) → 8 * zlen (buffer s) < 2 ^ 31 →
  get_bits1 s = Ok (bval (take 1 (stream s))) (advance s 1) ∧
  (room s 0 → get_bits1 s = get_bits 1 s).
Proof.
  intros H0 H1 H2. destruct (get_bits1_bit s H0 H1 H2) as (b & Hb & Hg).
  assert (take 1 (stream s) = [b]) as Ht.
  { unfold stream. by rewrite (drop_S _ b). }
  split.
  - rewrite Hg, Ht. by destruct b.
  - intros Hr. pose proof (Z.mod_pos_bound (index s) 8).
    rewrite get_bits_stream by (auto; lia). change (Z.to_nat 1) with 1%nat. rewrite Hg, Ht.
    destruct b; reflexivity.
Qed.

Lemma get_bits1_spec_witness :
  get_bits1 sample_reader = Ok (bval (take 1 (stream sample_reader))) (advance sample_reader 1) ∧
  (room sample_reader 0 → get_bits1 sample_reader = get_bits 1 sample_reader).
Proof. apply (get_bits1_spec sample_reader); unfold zlen; cbn; lia. Defined.

Lemma init_get_bits8_ok buf n : 0 ≤ n < 2 ^ 27 →
  init_get_bits8 (Some buf) n = (0, mk_gb buf n 0 (n * 8) (n * 8 + 8)).
Proof.
  intros Hn. unfold init_get_bits8, INT_MAX. change (Z.quot (2 ^ 31 - 1) 8) with 268435455.
  rewrite Z.gtb_ltb, (proj2 (Z.ltb_ge 268435455 n)), (proj2 (Z.ltb_ge n 0)) by lia. cbn [orb].
  unfold init_get_bits, init_get_bits_xe, INT_MAX, AV_INPUT_BUFFER_PADDING_SIZE.
  change (2 ^ 31 - 1 - Z.max 7 (64 * 8)) with 2147483135.
  rewrite Z.geb_leb, (proj2 (Z.leb_gt 2147483135 (n * 8))), (proj2 (Z.ltb_ge (n * 8) 0)) by lia.
  cbn [orb]. do 2 f_equal. rewrite Z.shiftr_div_pow2 by lia. change (2 ^ 3) with 8.
  rewrite Z.div_add_l by lia. change (7 / 8) with 0. lia.
Qed.

(** ** Total readers

    [consumes m N lo hi]: where [N] bits and a word may be read, [m] returns
    a value in [lo, hi) and advances by at most [N]. *)

Definition consumes (m : G Z) (N lo hi : Z) : Prop :=
  ∀ s, room s N → ∃ v n, m s = Ok v (advance s n) ∧ 0 ≤ n ≤ N ∧ lo ≤ v < hi.

Lemma room_adv s n N R : 0 ≤ n ≤ N → room s (N + R) → room (advance s n) R.
Proof. unfold room, advance. cbn. lia. Qed.

Lemma bval_take_range l n : 0 ≤ n → 0 ≤ bval (take (Z.to_nat n) l) < 2 ^ n.
Proof.
  intros Hn. pose proof (bval_range (take (Z.to_nat n) l)) as Hr. split; [lia|].
  eapply Z.lt_le_trans; [apply Hr|]. apply Z.pow_le_mono_r; [lia|].
  unfold zlen. rewrite length_take. lia.
Qed.

Lemma get_bits_total n : 1 ≤ n ≤ 32 → consumes (get_bits n) n 0 (2 ^ n).
Proof.
  intros Hn s Hr. eexists _, n. split; [apply get_bits_cache; [unfold room in *; lia|done]|].
  split; [lia|]. apply bval_take_range. lia.
Qed.

Lemma get_bits_long_total n : 0 ≤ n ≤ 32 → consumes (get_bits_long n) n 0 (2 ^ n).
Proof.
  intros Hn. unfold get_bits_long. destruct (Z.eqb_spec n 0) as [->|].
  - intros s Hr. exists 0, 0. rewrite advance_0. split; [done|]. cbn. lia.
  - rewrite (proj2 (Z.leb_le n _)) by (unfold MIN_CACHE_BITS; lia). apply get_bits_total. lia.
Qed.

Lemma get_bits1_total : consumes get_bits1 1 0 2.
Proof.
  intros s Hr. unfold room in Hr. destruct (get_bits1_bit s) as (b & _ & ->); [lia..|].
  exists (Z.b2z b), 1. split; [done|]. split; [lia|]. destruct b; cbn; lia.
Qed.

Lemma skip_bits_total n s R : 0 ≤ n → room s (n + R) → 0 ≤ R → ∃ s', skip_bits n s = Ok tt s' ∧ room s' R.
Proof.
  intros Hn Hr HR. exists (advance s n). split.
  - unfold room in Hr. apply skip_bits_spec; lia.
  - by apply (room_adv s n n).
Qed.
