(* ===== verification/PutBits.v ===== *)
(** The bitstream writer (src/drivers/amvdec_ports/utils/put_bits.h, the
    build without BITSTREAM_WRITER_LE).

    [pbuf] is the memory object [buf] points to; [buf_ptr] and [buf_end] are
    offsets into it.  The abstract state of a writer is [written], the bits
    put so far: those stored in the buffer followed by those still in
    [bit_buf]. *)

From stdpp Require Import base list numbers.
From Stdlib Require Import ZArith Lia Bool.
From S2P Require Import Prelude.
From S2P Require Import Bits.
From S2P Require Import CommonUtils.

#[local] Open Scope Z_scope.

Record put_bits_context := mk_pb {
  bit_buf : Z;
  bit_left : Z;
  pbuf : list Z;
  buf_ptr : Z;
  buf_end : Z;
  pb_size_in_bits : Z
}.

#[export] Instance eta_put_bits_context : Settable put_bits_context := fun r =>
  mk_pb (bit_buf r) (bit_left r) (pbuf r) (buf_ptr r) (buf_end r) (pb_size_in_bits r).

Definition PB A := M put_bits_context A.

#[global] Instance PB_ret : MRet PB := M_ret put_bits_context.
#[global] Instance PB_bind : MBind PB := M_bind put_bits_context.

(** AV_WB32(p, val) *)
Definition AV_WB32 (buf : list Z) (o val : Z) : option (list Z) :=
  let d := u32 val in
  buf ← aset buf (o + 3) (u8 d);
  buf ← aset buf (o + 2) (u8 (Z.shiftr d 8));
  buf ← aset buf (o + 1) (u8 (Z.shiftr d 16));
  aset buf o (u8 (Z.shiftr d 24)).

(** A shift of a 32-bit operand; shifting by its width or more is undefined. *)
Definition shl32 (a n : Z) : option Z :=
  if (0 <=? n) && (n <? 32) then Some (u32 (Z.shiftl a n)) else None.

Definition shr32 (a n : Z) : option Z :=
  if (0 <=? n) && (n <? 32) then Some (Z.shiftr a n) else None.

(** [init_put_bits(s, buffer, buffer_size)]; NULL is the empty object. *)
Definition init_put_bits (buffer : list Z) (buffer_size : Z) : put_bits_context :=
  let buffer := if buffer_size <? 0 then [] else buffer in
  let buffer_size := if buffer_size <? 0 then 0 else buffer_size in
  mk_pb 0 32 buffer 0 buffer_size (s32 (8 * buffer_size)).

(** [rebase_put_bits(s, buffer, buffer_size)] *)
Definition rebase_put_bits (buffer : list Z) (buffer_size : Z) : PB unit :=
  modify (fun s => s <| buf_end := buffer_size |> <| pbuf := buffer |>
                     <| pb_size_in_bits := s32 (8 * buffer_size) |>).

Definition put_bits_count : PB Z := gets (fun s => buf_ptr s * 8 + 32 - bit_left s).

Definition put_bits_left : PB Z := gets (fun s => (buf_end s - buf_ptr s) * 8 - 32 + bit_left s).

(** The byte loop of [flush_put_bits]; [bit_left] grows by 8 per iteration. *)
Fixpoint flush_loop (fuel : nat) : PB unit :=
  match fuel with
  | O => mret tt
  | S f =>
      s ← get;
      if bit_left s <? 32 then
        b ← of_option (aset (pbuf s) (buf_ptr s) (u8 (Z.shiftr (bit_buf s) 24)));
        modify (fun s => s <| pbuf := b |> <| buf_ptr := buf_ptr s + 1 |>
                           <| bit_buf := u32 (Z.shiftl (bit_buf s) 8) |>
                           <| bit_left := bit_left s + 8 |>);;
        flush_loop f
      else mret tt
  end.

(** [flush_put_bits(s)]: [bit_left] is at least 0, four bytes suffice. *)
Definition flush_put_bits : PB unit :=
  s ← get;
  when (bit_left s <? 32)
    (b ← of_option (shl32 (bit_buf s) (bit_left s)); modify (fun s => s <| bit_buf := b |>));;
  flush_loop 4;;
  modify (fun s => s <| bit_left := 32 |> <| bit_buf := 0 |>).

(** The store of a full word, dropped (with a message) when the buffer has no
    room for it. *)
Definition store_word (w : Z) : PB unit :=
  s ← get;
  when (3 <? buf_end s - buf_ptr s)
    (b ← of_option (AV_WB32 (pbuf s) (buf_ptr s) w);
     modify (fun s => s <| pbuf := b |> <| buf_ptr := buf_ptr s + 4 |>)).

(** [put_bits(s, n, value)] *)
Definition put_bits (n value : Z) : PB unit :=
  s ← get;
  let bit_buf0 := bit_buf s in
  let bit_left0 := bit_left s in
  if n <? bit_left0 then
    b ← of_option (shl32 bit_buf0 n);
    modify (fun s => s <| bit_buf := Z.lor b value |> <| bit_left := bit_left0 - n |>)
  else
    b ← of_option (shl32 bit_buf0 bit_left0);
    v ← of_option (shr32 value (n - bit_left0));
    store_word (Z.lor b v);;
    modify (fun s => s <| bit_buf := value |> <| bit_left := bit_left0 + (32 - n) |>).

(** [av_mod_uintp2(u32 a, u32 p)] *)
Definition av_mod_uintp2 (a p : Z) : Z := Z.land a (u32 (Z.shiftl 1 p - 1)).

(** [put_sbits(pb, n, value)] *)
Definition put_sbits (n value : Z) : PB unit := put_bits n (av_mod_uintp2 (u32 value) n).

(** [put_bits32(s, value)]: the old contents are shifted in 64 bits. *)
Definition put_bits32 (value : Z) : PB unit :=
  s ← get;
  let bit_left0 := bit_left s in
  let b := u32 (Z.shiftl (bit_buf s) bit_left0) in
  v ← of_option (shr32 value (32 - bit_left0));
  store_word (Z.lor b v);;
  modify (fun s => s <| bit_buf := value |> <| bit_left := bit_left0 |>).

(** [put_bits64(s, n, value)] *)
Definition put_bits64 (n value : Z) : PB unit :=
  if n <? 32 then put_bits n (u32 value)
  else if n =? 32 then put_bits32 (u32 value)
  else
    let lo := Z.land value 0xffffffff in
    let hi := u32 (Z.shiftr value 32) in
    if n <? 64 then put_bits (n - 32) hi;; put_bits32 lo
    else put_bits32 hi;; put_bits32 lo.

Definition skip_put_bytes (n : Z) : PB unit := modify (fun s => s <| buf_ptr := buf_ptr s + n |>).

(** [skip_put_bits(s, n)] *)
Definition skip_put_bits (n : Z) : PB unit :=
  modify (fun s =>
    let l := s32 (bit_left s - n) in
    s <| buf_ptr := buf_ptr s - 4 * Z.shiftr l 5 |> <| bit_left := Z.land l 31 |>).

Definition set_put_bits_buffer_size (size : Z) : PB unit :=
  modify (fun s => s <| buf_end := size |> <| pb_size_in_bits := s32 (8 * size) |>).

(** ** Writers against bit sequences *)

Definition written (s : put_bits_context) : list bool :=
  bytes_bits (take (Z.to_nat (buf_ptr s)) (pbuf s)) ++ bits (Z.to_nat (32 - bit_left s)) (bit_buf s).

Record pb_ok (s : put_bits_context) : Prop := {
  ok_left : 1 ≤ bit_left s ≤ 32;
  ok_ptr : 0 ≤ buf_ptr s ≤ buf_end s;
  ok_end : buf_end s ≤ zlen (pbuf s)
}.

(** Bits that may still be put: whole words only. *)
Definition pb_space (s : put_bits_context) : Z := 8 * (buf_end s - buf_ptr s) - 32 + bit_left s.

Lemma bits_mod_ge (n : nat) (m : Z) v : Z.of_nat n ≤ m → bits n (v mod 2 ^ m) = bits n v.
Proof.
  intros Hn. rewrite <- bits_mod, <- (bits_mod n v). f_equal.
  replace (2 ^ m) with (2 ^ Z.of_nat n * 2 ^ (m - Z.of_nat n))
    by (rewrite <- Z.pow_add_r by lia; f_equal; lia).
  pose proof (Z.pow_pos_nonneg 2 (Z.of_nat n)). pose proof (Z.pow_pos_nonneg 2 (m - Z.of_nat n)).
  rewrite Z.rem_mul_r by lia. by rewrite Z.mul_comm, Z_mod_plus_full, Z.mod_mod by lia.
Qed.

(** A word made of [hi] shifted left by [n] and an [n]-bit [lo]. *)
Lemma bits_join (m n : nat) hi lo : (m + n ≤ 32)%nat → 0 ≤ lo < 2 ^ Z.of_nat n →
  bits (m + n) (Z.lor (u32 (Z.shiftl hi (Z.of_nat n))) lo) = bits m hi ++ bits n lo.
Proof.
  intros Hmn Hlo. unfold u32. rewrite shiftl_mod_pow2, lor_mul_add by lia.
  rewrite bits_plus. pose proof (Z.pow_pos_nonneg 2 (Z.of_nat n)). f_equal.
  - rewrite Z.div_add_l, Z.div_small, Z.add_0_r by lia. apply bits_mod_ge. lia.
  - rewrite <- bits_mod, Z.add_comm, Z_mod_plus_full. apply bits_mod.
Qed.

Lemma bits_32_bytes w :
  bits 8 (u8 (Z.shiftr (u32 w) 24)) ++ bits 8 (u8 (Z.shiftr (u32 w) 16)) ++
  bits 8 (u8 (Z.shiftr (u32 w) 8)) ++ bits 8 (u8 (u32 w)) = bits 32 w.
Proof.
  rewrite <- (Z.shiftr_0_r (u32 w)) at 4.
  assert (∀ i k, 0 ≤ i < 8 → 0 ≤ k ≤ 24 → Z.testbit (u8 (Z.shiftr (u32 w) k)) i = Z.testbit w (i + k)) as Hb.
  { intros i k Hi Hk. unfold u8, u32. rewrite Z.mod_pow2_bits_low, Z.shiftr_spec by lia.
    by rewrite Z.mod_pow2_bits_low by lia. }
  cbn [bits app]. rewrite !Hb by lia. done.
Qed.

Lemma AV_WB32_spec buf (o : nat) w : (o + 4 ≤ length buf)%nat →
  ∃ buf', AV_WB32 buf (Z.of_nat o) w = Some buf' ∧ length buf' = length buf ∧
    bytes_bits (take (o + 4) buf') = bytes_bits (take o buf) ++ bits 32 w.
Proof.
  intros Ho. unfold AV_WB32.
  rewrite aset_Some by (unfold zlen; lia). cbn -[u32 u8 Z.shiftr].
  rewrite aset_Some by (rewrite zlen_insert; unfold zlen; lia). cbn -[u32 u8 Z.shiftr].
  rewrite aset_Some by (rewrite !zlen_insert; unfold zlen; lia). cbn -[u32 u8 Z.shiftr].
  rewrite aset_Some by (rewrite !zlen_insert; unfold zlen; lia).
  eexists. split; [reflexivity|]. split; [by rewrite !length_insert|].
  replace (Z.to_nat (Z.of_nat o + 3)) with (o + 3)%nat by lia.
  replace (Z.to_nat (Z.of_nat o + 2)) with (o + 2)%nat by lia.
  replace (Z.to_nat (Z.of_nat o + 1)) with (o + 1)%nat by lia. rewrite Nat2Z.id.
  assert (length (drop o buf) ≥ 4)%nat as Hd by (rewrite length_drop; lia).
  rewrite <- (take_drop o buf) at 1.
  destruct (drop o buf) as [|b0 [|b1 [|b2 [|b3 k]]]]; cbn in Hd; try lia.
  assert (length (take o buf) = o) as Hl by (rewrite length_take; lia).
  rewrite !insert_app_r_alt by lia. rewrite Hl.
  replace (o + 3 - o)%nat with 3%nat by lia. replace (o + 2 - o)%nat with 2%nat by lia.
  replace (o + 1 - o)%nat with 1%nat by lia. rewrite Nat.sub_diag. cbn -[u32 u8 Z.shiftr take bytes_bits bits].
  rewrite take_app_ge by lia. rewrite Hl. replace (o + 4 - o)%nat with 4%nat by lia.
  rewrite bytes_bits_app. f_equal. cbn [take]. unfold bytes_bits. cbn [map concat]. rewrite app_nil_r.
  apply bits_32_bytes.
Qed.

Lemma store_word_spec s w :
  pb_ok s → buf_ptr s + 4 ≤ buf_end s →
  ∃ b, store_word w s = Ok tt (s <| pbuf := b |> <| buf_ptr := buf_ptr s + 4 |>) ∧
    length b = length (pbuf s) ∧
    bytes_bits (take (Z.to_nat (buf_ptr s + 4)) b) =
      bytes_bits (take (Z.to_nat (buf_ptr s)) (pbuf s)) ++ bits 32 w.
Proof.
  intros [Hl Hp He] Hsp. unfold zlen in He.
  destruct (AV_WB32_spec (pbuf s) (Z.to_nat (buf_ptr s)) w) as (b & Hw & Hlen & Hb); [lia|].
  exists b. split; [|split; [done|]].
  - unfold store_word, mbind, PB_bind, M_bind, get, when.
    rewrite (proj2 (Z.ltb_lt 3 _)) by lia. rewrite Z2Nat.id in Hw by lia. by rewrite Hw.
  - rewrite <- Hb. do 2 f_equal. lia.
Qed.

Lemma shl32_some a n : 0 ≤ n < 32 → shl32 a n = Some (u32 (Z.shiftl a n)).
Proof. intros. unfold shl32. by rewrite (proj2 (Z.leb_le 0 n)), (proj2 (Z.ltb_lt n 32)) by lia. Qed.

Lemma shr32_some a n : 0 ≤ n < 32 → shr32 a n = Some (Z.shiftr a n).
Proof. intros. unfold shr32. by rewrite (proj2 (Z.leb_le 0 n)), (proj2 (Z.ltb_lt n 32)) by lia. Qed.

Lemma shl_zero_bits (m : nat) b l : (m = 0)%nat → bits m b ++ l = l.
Proof. by intros ->. Qed.

Record put_result (s s' : put_bits_context) (l : list bool) : Prop := {
  pr_ok : pb_ok s';
  pr_written : written s' = written s ++ l;
  pr_len : length (pbuf s') = length (pbuf s);
  pr_end : buf_end s' = buf_end s;
  pr_space : pb_space s' = pb_space s - zlen l
}.

Lemma put_bits_ok s (n : nat) value :
  pb_ok s → (n ≤ 31)%nat → 0 ≤ value < 2 ^ Z.of_nat n → buf_ptr s + 4 ≤ buf_end s →
  ∃ s', put_bits (Z.of_nat n) value s = Ok tt s' ∧ put_result s s' (bits n value).
Proof.
  intros Hok Hn Hv Hsp. destruct (Hok) as [Hl Hp He].
  unfold put_bits, mbind, PB_bind, M_bind, get.
  destruct (Z.ltb_spec (Z.of_nat n) (bit_left s)).
  - rewrite shl32_some by lia. eexists. split; [reflexivity|]. split; cbn -[bits u32 Z.of_nat].
    + split; cbn; [lia|lia|done].
    + unfold written. cbn -[bits u32 Z.of_nat]. rewrite <- app_assoc. f_equal.
      replace (Z.to_nat (32 - (bit_left s - Z.of_nat n))) with (Z.to_nat (32 - bit_left s) + n)%nat by lia.
      apply bits_join; lia.
    + done.
    + done.
    + unfold pb_space, zlen. cbn -[bits]. rewrite length_bits. lia.
  - rewrite shl32_some, shr32_some by lia. cbn -[store_word u32].
    destruct (store_word_spec s (Z.lor (u32 (Z.shiftl (bit_buf s) (bit_left s)))
      (Z.shiftr value (Z.of_nat n - bit_left s))) Hok Hsp) as (b & -> & Hlen & Hb).
    eexists. split; [reflexivity|]. split; cbn -[bits u32 Z.of_nat].
    + split; cbn -[Z.of_nat]; [lia|lia|]. unfold zlen in *. by rewrite Hlen.
    + unfold written. cbn -[bits u32 Z.of_nat]. rewrite Hb, <- !app_assoc. f_equal.
      set (m := Z.to_nat (32 - bit_left s)). set (l := Z.to_nat (bit_left s)).
      replace (Z.to_nat (32 - (bit_left s + (32 - Z.of_nat n)))) with (n - l)%nat by (unfold l; lia).
      change 32%nat with (0 + 32)%nat. replace (0 + 32)%nat with (m + l)%nat by (unfold m, l; lia).
      replace (bit_left s) with (Z.of_nat l) at 1 by (unfold l; lia).
      replace (Z.of_nat n - bit_left s) with (Z.of_nat (n - l)) by (unfold l; lia).
      rewrite bits_join; [|unfold m, l; lia|].
      * rewrite <- app_assoc. f_equal.
        replace n with (l + (n - l))%nat at 3 by (unfold l; lia).
        rewrite bits_plus, Z.shiftr_div_pow2 by lia. done.
      * rewrite Z.shiftr_div_pow2 by lia. pose proof (Z.pow_pos_nonneg 2 (Z.of_nat (n - l))).
        split; [apply Z.div_pos; lia|]. apply Z.div_lt_upper_bound; [lia|].
        rewrite <- Z.pow_add_r by lia. replace (Z.of_nat (n - l) + Z.of_nat l) with (Z.of_nat n) by (unfold l; lia). lia.
    + done.
    + done.
    + unfold pb_space, zlen. cbn -[bits Z.of_nat Z.mul]. rewrite length_bits. lia.
Qed.

Lemma flush_loop_spec fuel s R :
  0 ≤ bit_left s → 0 ≤ buf_ptr s → buf_ptr s + Z.of_nat fuel ≤ zlen (pbuf s) →
  32 - bit_left s ≤ 8 * Z.of_nat fuel → length R = Z.to_nat (32 - bit_left s) →
  bits 32 (bit_buf s) = R ++ replicate (32 - length R) false →
  ∃ s' pad, flush_loop fuel s = Ok tt s' ∧
    bytes_bits (take (Z.to_nat (buf_ptr s')) (pbuf s')) =
      bytes_bits (take (Z.to_nat (buf_ptr s)) (pbuf s)) ++ R ++ replicate pad false ∧
    length (pbuf s') = length (pbuf s) ∧ buf_ptr s ≤ buf_ptr s' ≤ buf_ptr s + Z.of_nat fuel.
Proof.
  revert s R. induction fuel as [|f IH]; intros s R Hl Hp Hf Hbl HR Hb; cbn [flush_loop].
  - exists s, 0%nat. assert (R = []) as -> by (destruct R; [done|cbn in HR; lia]).
    cbn. rewrite app_nil_r. repeat split; lia.
  - unfold mbind, PB_bind, M_bind, get. destruct (Z.ltb_spec (bit_left s) 32).
    + rewrite aset_Some by lia. cbn -[flush_loop u8 u32 Z.shiftl Z.shiftr].
      match goal with |- context [flush_loop f ?s'] => set (s1 := s') end.
      assert (bits 8 (Z.shiftr (bit_buf s) 24) = take 8 (bits 32 (bit_buf s))) as Htop.
      { change 32%nat with (8 + 24)%nat at 1. rewrite bits_plus, take_app_length' by (by rewrite length_bits).
        by rewrite Z.shiftr_div_pow2 by lia. }
      assert (bits 32 (u32 (Z.shiftl (bit_buf s) 8)) = drop 8 (bits 32 (bit_buf s)) ++ replicate 8 false) as Hrest.
      { rewrite <- (Z.lor_0_r (u32 _)). change 32%nat with (24 + 8)%nat. change 8 with (Z.of_nat 8) at 1.
        rewrite bits_join by (cbn; lia). by rewrite bits_0. }
      destruct (IH s1 (drop 8 R)) as (s' & pad & Hs' & Hw & Hlen & Hptr).
      * cbn. lia.
      * cbn. lia.
      * unfold s1. cbn -[Z.of_nat zlen]. rewrite zlen_insert. lia.
      * cbn -[Z.of_nat]. lia.
      * rewrite length_drop. cbn. lia.
      * cbn -[bits u32 Z.shiftl]. rewrite Hrest, Hb, length_drop.
        destruct (decide (length R ≤ 8)%nat).
        -- rewrite (drop_ge R) by lia. rewrite drop_app_ge, drop_replicate by lia. cbn [app].
           rewrite <- replicate_add. f_equal. lia.
        -- rewrite drop_app_le by lia. rewrite <- app_assoc, <- replicate_add. do 2 f_equal. lia.
      * rewrite Hs'. exists s', ((8 - length R) + pad)%nat. split; [done|].
        split; [|split; [rewrite Hlen; unfold s1; cbn; by rewrite length_insert
                        |unfold s1 in Hptr; cbn -[Z.of_nat] in Hptr; lia]].
        assert (bytes_bits (take (Z.to_nat (buf_ptr s1)) (pbuf s1)) =
                bytes_bits (take (Z.to_nat (buf_ptr s)) (pbuf s)) ++ take 8 (bits 32 (bit_buf s))) as Hb1.
        { unfold s1. cbn -[bits u8 take]. replace (Z.to_nat (buf_ptr s + 1)) with (S (Z.to_nat (buf_ptr s))) by lia.
          rewrite (take_S_r _ _ (u8 (Z.shiftr (bit_buf s) 24))) by (apply list_lookup_insert_eq; unfold zlen in *; lia).
          rewrite bytes_bits_app, take_insert_ge by lia. f_equal. rewrite <- Htop.
          unfold bytes_bits. cbn [map concat]. rewrite app_nil_r. unfold u8. change 8 with (Z.of_nat 8) at 1.
          apply bits_mod. }
        rewrite Hw, Hb1, Hb, <- app_assoc. clear Hw Hb1 Hrest Htop.
        destruct (decide (length R ≤ 8)%nat).
        -- rewrite (drop_ge R), take_app_ge, take_replicate by lia. f_equal.
           rewrite <- app_assoc. f_equal. cbn [app]. rewrite <- replicate_add. f_equal. lia.
        -- replace (8 - length R)%nat with 0%nat by lia. f_equal.
           by rewrite take_app_le, app_assoc, take_drop by lia.
    + exists s, 0%nat. assert (R = []) as -> by (destruct R; [done|cbn in HR; lia]).
      cbn. rewrite app_nil_r. repeat split; lia.
Qed.

Lemma flush_put_bits_spec s :
  pb_ok s → buf_ptr s + 4 ≤ buf_end s →
  ∃ s' pad, flush_put_bits s = Ok tt s' ∧
    bytes_bits (take (Z.to_nat (buf_ptr s')) (pbuf s')) = written s ++ replicate pad false ∧
    length (pbuf s') = length (pbuf s) ∧ 0 ≤ buf_ptr s' ≤ zlen (pbuf s).
Proof.
  intros [Hl Hp He] Hsp. unfold flush_put_bits, mbind, PB_bind, M_bind, get, when.
  set (m := Z.to_nat (32 - bit_left s)). destruct (Z.ltb_spec (bit_left s) 32).
  - rewrite shl32_some by lia. cbn -[flush_loop bits u32 Z.shiftl].
    match goal with |- context [flush_loop 4 ?s'] => set (s1 := s') end.
    assert (bits 32 (bit_buf s1) = bits m (bit_buf s) ++ replicate (32 - m) false) as Hb1.
    { unfold s1. cbn -[bits u32 Z.shiftl]. rewrite <- (Z.lor_0_r (u32 _)).
      replace 32%nat with (m + Z.to_nat (bit_left s))%nat at 1 by (unfold m; lia).
      replace (bit_left s) with (Z.of_nat (Z.to_nat (bit_left s))) at 2 by lia.
      pose proof (Z.pow_pos_nonneg 2 (Z.of_nat (Z.to_nat (bit_left s)))).
      rewrite bits_join by (unfold m; lia).
      rewrite bits_0. do 2 f_equal. unfold m. lia. }
    destruct (flush_loop_spec 4 s1 (bits m (bit_buf s))) as (s' & pad & Hf & Hw & Hlen & Hptr);
      rewrite ?length_bits; try done; try (unfold s1, m; cbn; lia).
    rewrite Hf. eexists _, pad. split; [reflexivity|]. cbn.
    rewrite Hw. unfold written. fold m. rewrite <- app_assoc.
    unfold s1 in Hptr. cbn in Hptr. repeat split; [done|lia|lia].
  - assert (bit_left s = 32) as Hbl by lia. cbn [flush_loop]. unfold mret, M_ret, PB_ret, mbind, PB_bind, M_bind, get.
    rewrite Hbl. eexists _, 0%nat. split; [reflexivity|]. cbn.
    rewrite app_nil_r. unfold written. fold m. replace m with 0%nat by (unfold m; lia). cbn.
    rewrite app_nil_r. repeat split; lia.
Qed.

Lemma written_init buffer size : written (init_put_bits buffer size) = [].
Proof. done. Qed.

Lemma pb_ok_init buffer : pb_ok (init_put_bits buffer (zlen buffer)).
Proof.
  unfold init_put_bits. rewrite (proj2 (Z.ltb_ge _ _)) by apply zlen_nonneg.
  pose proof (zlen_nonneg buffer). split; cbn; lia.
Qed.

Lemma pb_space_ptr s n : pb_ok s → 0 ≤ n → n + 32 ≤ pb_space s → buf_ptr s + 4 ≤ buf_end s.
Proof. intros [Hl Hp He] Hn Hs. unfold pb_space in Hs. lia. Qed.

(** A sequence of fields, each a width and a value. *)
Fixpoint put_fields (l : list (nat * Z)) : PB unit :=
  match l with
  | [] => mret tt
  | (n, v) :: l' => put_bits (Z.of_nat n) v;; put_fields l'
  end.

Definition field_ok (f : nat * Z) : Prop := (f.1 ≤ 31)%nat ∧ 0 ≤ f.2 < 2 ^ Z.of_nat f.1.

Definition fields_bits (l : list (nat * Z)) : list bool := concat (map (λ f, bits f.1 f.2) l).

Lemma put_fields_ok l s :
  pb_ok s → Forall field_ok l → zlen (fields_bits l) + 32 ≤ pb_space s →
  ∃ s', put_fields l s = Ok tt s' ∧ put_result s s' (fields_bits l).
Proof.
  revert s. induction l as [|[n v] l IH]; intros s Hok Hf Hsp; cbn [put_fields].
  - exists s. split; [done|]. split; try done; cbn; [by rewrite app_nil_r|]. unfold zlen. cbn. lia.
  - apply Forall_cons_1 in Hf as [[Hn Hv] Hf]. unfold fields_bits in Hsp. cbn [map concat fst snd] in Hsp. cbn [fst snd] in Hn, Hv.
    fold (fields_bits l) in Hsp. rewrite zlen_app in Hsp. pose proof (zlen_nonneg (bits n v)).
    pose proof (zlen_nonneg (fields_bits l)).
    destruct (put_bits_ok s n v Hok Hn Hv) as (s1 & H1 & R1).
    { eapply (pb_space_ptr _ (zlen (bits n v) + zlen (fields_bits l))); auto; lia. }
    destruct R1 as [Ok1 W1 L1 E1 S1].
    destruct (IH s1 Ok1 Hf ltac:(lia)) as (s2 & H2 & [Ok2 W2 L2 E2 S2]).
    unfold mbind, PB_bind, M_bind. rewrite H1. exists s2. split; [done|].
    split; [done| |congruence|congruence|].
    + rewrite W2, W1. unfold fields_bits. cbn [map concat fst snd]. by rewrite <- app_assoc.
    + unfold fields_bits. cbn [map concat fst snd]. rewrite zlen_app. fold (fields_bits l). lia.
Qed.

(** a fresh writer given a sequence of fields of up to 31 bits and
    flushed leaves in memory exactly their bits, in order, padded with zeros
    to a byte boundary; it never writes outside the buffer. *)
Theorem put_bits_flush_spec l buffer :
  Forall field_ok l → zlen (fields_bits l) + 32 ≤ 8 * zlen buffer →
  ∃ s pad, (put_fields l;; flush_put_bits) (init_put_bits buffer (zlen buffer)) = Ok tt s ∧
    bytes_bits (take (Z.to_nat (buf_ptr s)) (pbuf s)) = fields_bits l ++ replicate pad false ∧
    buf_ptr s ≤ zlen (pbuf s) ∧ zlen (pbuf s) = zlen buffer.
Proof.
  intros Hf Hsp. set (s0 := init_put_bits buffer (zlen buffer)).
  assert (pb_space s0 = 8 * zlen buffer ∧ pbuf s0 = buffer) as [Hs0 Hb0].
  { unfold s0, init_put_bits, pb_space. rewrite (proj2 (Z.ltb_ge _ _)) by apply zlen_nonneg. cbn. split; [lia|done]. }
  pose proof (zlen_nonneg (fields_bits l)).
  destruct (put_fields_ok l s0) as (s1 & H1 & [Ok1 W1 L1 E1 S1]); [apply pb_ok_init|done|lia|].
  destruct (flush_put_bits_spec s1 Ok1) as (s2 & pad & H2 & W2 & L2 & P2).
  { eapply (pb_space_ptr _ 0); [done|lia|lia]. }
  exists s2, pad. unfold mbind, PB_bind, M_bind. rewrite H1. split; [done|].
  rewrite W2, W1. split; [done|]. unfold zlen in *. rewrite L2, L1, Hb0 in *. split; [lia|done].
Qed.

Lemma put_bits_flush_spec_witness :
  let l := [(3%nat, 5); (31%nat, 123456789); (1%nat, 1); (20%nat, 77)] in
  let buffer := replicate 16 255 in
  ∃ s pad, (put_fields l;; flush_put_bits) (init_put_bits buffer (zlen buffer)) = Ok tt s ∧
    bytes_bits (take (Z.to_nat (buf_ptr s)) (pbuf s)) = fields_bits l ++ replicate pad false ∧
    buf_ptr s ≤ zlen (pbuf s) ∧ zlen (pbuf s) = zlen buffer.
Proof.
  apply (put_bits_flush_spec [(3%nat, 5); (31%nat, 123456789); (1%nat, 1); (20%nat, 77)] (replicate 16 255)).
  - repeat constructor; cbn; lia.
  - vm_compute. discriminate.
Defined.
