(* ===== verification/Golomb.v ===== *)
(** Exp-Golomb codes (src/drivers/amvdec_ports/utils/golomb.h, golomb.c): the
    lookup tables, the ue(v), se(v) and te(v) readers and writers, and their
    correctness against the codes of the video standards. *)

From stdpp Require Import base list numbers.
From Stdlib Require Import ZArith Lia Bool.
From S2P Require Import Prelude.
From S2P Require Import Bits.
From S2P Require Import CommonUtils.
From S2P Require Import GetBits.
From S2P Require Import PutBits.

#[local] Open Scope Z_scope.

(** ** Tables *)

(** Length of the code that starts with these nine bits. *)
Definition ff_golomb_vlc_len : list Z := [
  19; 17; 15; 15; 13; 13; 13; 13; 11; 11; 11; 11; 11; 11; 11; 11; 9; 9; 9; 9; 9; 9; 9; 9; 9; 9; 9; 9; 9; 9; 9; 9;
  7; 7; 7; 7; 7; 7; 7; 7; 7; 7; 7; 7; 7; 7; 7; 7; 7; 7; 7; 7; 7; 7; 7; 7; 7; 7; 7; 7; 7; 7; 7; 7;
  5; 5; 5; 5; 5; 5; 5; 5; 5; 5; 5; 5; 5; 5; 5; 5; 5; 5; 5; 5; 5; 5; 5; 5; 5; 5; 5; 5; 5; 5; 5; 5;
  5; 5; 5; 5; 5; 5; 5; 5; 5; 5; 5; 5; 5; 5; 5; 5; 5; 5; 5; 5; 5; 5; 5; 5; 5; 5; 5; 5; 5; 5; 5; 5;
  3; 3; 3; 3; 3; 3; 3; 3; 3; 3; 3; 3; 3; 3; 3; 3; 3; 3; 3; 3; 3; 3; 3; 3; 3; 3; 3; 3; 3; 3; 3; 3;
  3; 3; 3; 3; 3; 3; 3; 3; 3; 3; 3; 3; 3; 3; 3; 3; 3; 3; 3; 3; 3; 3; 3; 3; 3; 3; 3; 3; 3; 3; 3; 3;
  3; 3; 3; 3; 3; 3; 3; 3; 3; 3; 3; 3; 3; 3; 3; 3; 3; 3; 3; 3; 3; 3; 3; 3; 3; 3; 3; 3; 3; 3; 3; 3;
  3; 3; 3; 3; 3; 3; 3; 3; 3; 3; 3; 3; 3; 3; 3; 3; 3; 3; 3; 3; 3; 3; 3; 3; 3; 3; 3; 3; 3; 3; 3; 3;
  1; 1; 1; 1; 1; 1; 1; 1; 1; 1; 1; 1; 1; 1; 1; 1; 1; 1; 1; 1; 1; 1; 1; 1; 1; 1; 1; 1; 1; 1; 1; 1;
  1; 1; 1; 1; 1; 1; 1; 1; 1; 1; 1; 1; 1; 1; 1; 1; 1; 1; 1; 1; 1; 1; 1; 1; 1; 1; 1; 1; 1; 1; 1; 1;
  1; 1; 1; 1; 1; 1; 1; 1; 1; 1; 1; 1; 1; 1; 1; 1; 1; 1; 1; 1; 1; 1; 1; 1; 1; 1; 1; 1; 1; 1; 1; 1;
  1; 1; 1; 1; 1; 1; 1; 1; 1; 1; 1; 1; 1; 1; 1; 1; 1; 1; 1; 1; 1; 1; 1; 1; 1; 1; 1; 1; 1; 1; 1; 1;
  1; 1; 1; 1; 1; 1; 1; 1; 1; 1; 1; 1; 1; 1; 1; 1; 1; 1; 1; 1; 1; 1; 1; 1; 1; 1; 1; 1; 1; 1; 1; 1;
  1; 1; 1; 1; 1; 1; 1; 1; 1; 1; 1; 1; 1; 1; 1; 1; 1; 1; 1; 1; 1; 1; 1; 1; 1; 1; 1; 1; 1; 1; 1; 1;
  1; 1; 1; 1; 1; 1; 1; 1; 1; 1; 1; 1; 1; 1; 1; 1; 1; 1; 1; 1; 1; 1; 1; 1; 1; 1; 1; 1; 1; 1; 1; 1;
  1; 1; 1; 1; 1; 1; 1; 1; 1; 1; 1; 1; 1; 1; 1; 1; 1; 1; 1; 1; 1; 1; 1; 1; 1; 1; 1; 1; 1; 1; 1; 1
].

(** Its unsigned value. *)
Definition ff_ue_golomb_vlc_code : list Z := [
  32; 32; 32; 32; 32; 32; 32; 32; 31; 32; 32; 32; 32; 32; 32; 32; 15; 16; 17; 18; 19; 20; 21; 22; 23; 24; 25; 26; 27; 28; 29; 30;
  7; 7; 7; 7; 8; 8; 8; 8; 9; 9; 9; 9; 10; 10; 10; 10; 11; 11; 11; 11; 12; 12; 12; 12; 13; 13; 13; 13; 14; 14; 14; 14;
  3; 3; 3; 3; 3; 3; 3; 3; 3; 3; 3; 3; 3; 3; 3; 3; 4; 4; 4; 4; 4; 4; 4; 4; 4; 4; 4; 4; 4; 4; 4; 4;
  5; 5; 5; 5; 5; 5; 5; 5; 5; 5; 5; 5; 5; 5; 5; 5; 6; 6; 6; 6; 6; 6; 6; 6; 6; 6; 6; 6; 6; 6; 6; 6;
  1; 1; 1; 1; 1; 1; 1; 1; 1; 1; 1; 1; 1; 1; 1; 1; 1; 1; 1; 1; 1; 1; 1; 1; 1; 1; 1; 1; 1; 1; 1; 1;
  1; 1; 1; 1; 1; 1; 1; 1; 1; 1; 1; 1; 1; 1; 1; 1; 1; 1; 1; 1; 1; 1; 1; 1; 1; 1; 1; 1; 1; 1; 1; 1;
  2; 2; 2; 2; 2; 2; 2; 2; 2; 2; 2; 2; 2; 2; 2; 2; 2; 2; 2; 2; 2; 2; 2; 2; 2; 2; 2; 2; 2; 2; 2; 2;
  2; 2; 2; 2; 2; 2; 2; 2; 2; 2; 2; 2; 2; 2; 2; 2; 2; 2; 2; 2; 2; 2; 2; 2; 2; 2; 2; 2; 2; 2; 2; 2;
  0; 0; 0; 0; 0; 0; 0; 0; 0; 0; 0; 0; 0; 0; 0; 0; 0; 0; 0; 0; 0; 0; 0; 0; 0; 0; 0; 0; 0; 0; 0; 0;
  0; 0; 0; 0; 0; 0; 0; 0; 0; 0; 0; 0; 0; 0; 0; 0; 0; 0; 0; 0; 0; 0; 0; 0; 0; 0; 0; 0; 0; 0; 0; 0;
  0; 0; 0; 0; 0; 0; 0; 0; 0; 0; 0; 0; 0; 0; 0; 0; 0; 0; 0; 0; 0; 0; 0; 0; 0; 0; 0; 0; 0; 0; 0; 0;
  0; 0; 0; 0; 0; 0; 0; 0; 0; 0; 0; 0; 0; 0; 0; 0; 0; 0; 0; 0; 0; 0; 0; 0; 0; 0; 0; 0; 0; 0; 0; 0;
  0; 0; 0; 0; 0; 0; 0; 0; 0; 0; 0; 0; 0; 0; 0; 0; 0; 0; 0; 0; 0; 0; 0; 0; 0; 0; 0; 0; 0; 0; 0; 0;
  0; 0; 0; 0; 0; 0; 0; 0; 0; 0; 0; 0; 0; 0; 0; 0; 0; 0; 0; 0; 0; 0; 0; 0; 0; 0; 0; 0; 0; 0; 0; 0;
  0; 0; 0; 0; 0; 0; 0; 0; 0; 0; 0; 0; 0; 0; 0; 0; 0; 0; 0; 0; 0; 0; 0; 0; 0; 0; 0; 0; 0; 0; 0; 0;
  0; 0; 0; 0; 0; 0; 0; 0; 0; 0; 0; 0; 0; 0; 0; 0; 0; 0; 0; 0; 0; 0; 0; 0; 0; 0; 0; 0; 0; 0; 0; 0
].

(** Its signed value, as written in the initialiser; the element type is
    plain [char]. *)
Definition ff_se_golomb_vlc_code : list Z := [
  17; 17; 17; 17; 17; 17; 17; 17; 16; 17; 17; 17; 17; 17; 17; 17; 8; -8; 9; -9; 10; -10; 11; -11; 12; -12; 13; -13; 14; -14; 15; -15;
  4; 4; 4; 4; -4; -4; -4; -4; 5; 5; 5; 5; -5; -5; -5; -5; 6; 6; 6; 6; -6; -6; -6; -6; 7; 7; 7; 7; -7; -7; -7; -7;
  2; 2; 2; 2; 2; 2; 2; 2; 2; 2; 2; 2; 2; 2; 2; 2; -2; -2; -2; -2; -2; -2; -2; -2; -2; -2; -2; -2; -2; -2; -2; -2;
  3; 3; 3; 3; 3; 3; 3; 3; 3; 3; 3; 3; 3; 3; 3; 3; -3; -3; -3; -3; -3; -3; -3; -3; -3; -3; -3; -3; -3; -3; -3; -3;
  1; 1; 1; 1; 1; 1; 1; 1; 1; 1; 1; 1; 1; 1; 1; 1; 1; 1; 1; 1; 1; 1; 1; 1; 1; 1; 1; 1; 1; 1; 1; 1;
  1; 1; 1; 1; 1; 1; 1; 1; 1; 1; 1; 1; 1; 1; 1; 1; 1; 1; 1; 1; 1; 1; 1; 1; 1; 1; 1; 1; 1; 1; 1; 1;
  -1; -1; -1; -1; -1; -1; -1; -1; -1; -1; -1; -1; -1; -1; -1; -1; -1; -1; -1; -1; -1; -1; -1; -1; -1; -1; -1; -1; -1; -1; -1; -1;
  -1; -1; -1; -1; -1; -1; -1; -1; -1; -1; -1; -1; -1; -1; -1; -1; -1; -1; -1; -1; -1; -1; -1; -1; -1; -1; -1; -1; -1; -1; -1; -1;
  0; 0; 0; 0; 0; 0; 0; 0; 0; 0; 0; 0; 0; 0; 0; 0; 0; 0; 0; 0; 0; 0; 0; 0; 0; 0; 0; 0; 0; 0; 0; 0;
  0; 0; 0; 0; 0; 0; 0; 0; 0; 0; 0; 0; 0; 0; 0; 0; 0; 0; 0; 0; 0; 0; 0; 0; 0; 0; 0; 0; 0; 0; 0; 0;
  0; 0; 0; 0; 0; 0; 0; 0; 0; 0; 0; 0; 0; 0; 0; 0; 0; 0; 0; 0; 0; 0; 0; 0; 0; 0; 0; 0; 0; 0; 0; 0;
  0; 0; 0; 0; 0; 0; 0; 0; 0; 0; 0; 0; 0; 0; 0; 0; 0; 0; 0; 0; 0; 0; 0; 0; 0; 0; 0; 0; 0; 0; 0; 0;
  0; 0; 0; 0; 0; 0; 0; 0; 0; 0; 0; 0; 0; 0; 0; 0; 0; 0; 0; 0; 0; 0; 0; 0; 0; 0; 0; 0; 0; 0; 0; 0;
  0; 0; 0; 0; 0; 0; 0; 0; 0; 0; 0; 0; 0; 0; 0; 0; 0; 0; 0; 0; 0; 0; 0; 0; 0; 0; 0; 0; 0; 0; 0; 0;
  0; 0; 0; 0; 0; 0; 0; 0; 0; 0; 0; 0; 0; 0; 0; 0; 0; 0; 0; 0; 0; 0; 0; 0; 0; 0; 0; 0; 0; 0; 0; 0;
  0; 0; 0; 0; 0; 0; 0; 0; 0; 0; 0; 0; 0; 0; 0; 0; 0; 0; 0; 0; 0; 0; 0; 0; 0; 0; 0; 0; 0; 0; 0; 0
].

(** Length of the code of a value. *)
Definition ff_ue_golomb_len : list Z := [
  1; 3; 3; 5; 5; 5; 5; 7; 7; 7; 7; 7; 7; 7; 7; 9; 9; 9; 9; 9; 9; 9; 9; 9; 9; 9; 9; 9; 9; 9; 9; 11;
  11; 11; 11; 11; 11; 11; 11; 11; 11; 11; 11; 11; 11; 11; 11; 11; 11; 11; 11; 11; 11; 11; 11; 11; 11; 11; 11; 11; 11; 11; 11; 13;
  13; 13; 13; 13; 13; 13; 13; 13; 13; 13; 13; 13; 13; 13; 13; 13; 13; 13; 13; 13; 13; 13; 13; 13; 13; 13; 13; 13; 13; 13; 13; 13;
  13; 13; 13; 13; 13; 13; 13; 13; 13; 13; 13; 13; 13; 13; 13; 13; 13; 13; 13; 13; 13; 13; 13; 13; 13; 13; 13; 13; 13; 13; 13; 15;
  15; 15; 15; 15; 15; 15; 15; 15; 15; 15; 15; 15; 15; 15; 15; 15; 15; 15; 15; 15; 15; 15; 15; 15; 15; 15; 15; 15; 15; 15; 15; 15;
  15; 15; 15; 15; 15; 15; 15; 15; 15; 15; 15; 15; 15; 15; 15; 15; 15; 15; 15; 15; 15; 15; 15; 15; 15; 15; 15; 15; 15; 15; 15; 15;
  15; 15; 15; 15; 15; 15; 15; 15; 15; 15; 15; 15; 15; 15; 15; 15; 15; 15; 15; 15; 15; 15; 15; 15; 15; 15; 15; 15; 15; 15; 15; 15;
  15; 15; 15; 15; 15; 15; 15; 15; 15; 15; 15; 15; 15; 15; 15; 15; 15; 15; 15; 15; 15; 15; 15; 15; 15; 15; 15; 15; 15; 15; 15; 17
].


(** Plain [char] is signed on some targets and unsigned on others (ARM). *)
Definition as_char (char_signed : bool) (v : Z) : Z := if char_signed then s8 v else u8 v.

(** ** Readers *)

(** [int get_ue_golomb(gb)] *)
Definition get_ue_golomb : G Z :=
  buf ← open_cache;
  if buf >=? Z.shiftl 1 27 then
    let buf := Z.shiftr buf (32 - 9) in
    close_skip (tab ff_golomb_vlc_len buf);;
    mret (tab ff_ue_golomb_vlc_code buf)
  else
    let log := 2 * av_log2 buf - 31 in
    close_skip (32 - log);;
    if log <? 7 then mret (-1)
    else mret (s32 (u32 (Z.shiftr buf log - 1))).

(** [u32 get_ue_golomb_long(gb)] *)
Definition get_ue_golomb_long : G Z :=
  buf ← show_bits_long 32;
  let log := u32 (31 - av_log2 buf) in
  skip_bits_long log;;
  v ← get_bits_long (log + 1);
  mret (u32 (v - 1)).

(** [int get_ue_golomb_31(gb)] *)
Definition get_ue_golomb_31 : G Z :=
  buf ← open_cache;
  let buf := Z.shiftr buf (32 - 9) in
  close_skip (tab ff_golomb_vlc_len buf);;
  mret (tab ff_ue_golomb_vlc_code buf).

(** [int get_te0_golomb(gb, range)] *)
Definition get_te0_golomb (range : Z) : G Z :=
  if range =? 1 then mret 0
  else if range =? 2 then (b ← get_bits1; mret (Z.lxor b 1))
  else get_ue_golomb.

(** [int get_te_golomb(gb, range)] *)
Definition get_te_golomb (range : Z) : G Z :=
  if range =? 2 then (b ← get_bits1; mret (Z.lxor b 1)) else get_ue_golomb.

(** [int get_se_golomb(gb)] *)
Definition get_se_golomb (char_signed : bool) : G Z :=
  buf ← open_cache;
  if buf >=? Z.shiftl 1 27 then
    let buf := Z.shiftr buf (32 - 9) in
    close_skip (tab ff_golomb_vlc_len buf);;
    mret (as_char char_signed (tab ff_se_golomb_vlc_code buf))
  else
    let log := av_log2 buf in
    close_skip (31 - log);;
    buf ← open_cache;
    let buf := Z.shiftr buf log in
    close_skip (32 - log);;
    let sign := - Z.land buf 1 in
    mret (s32 (u32 (Z.lxor (Z.shiftr buf 1) (u32 sign) - u32 sign))).

(** [int get_se_golomb_long(gb)] *)
Definition get_se_golomb_long : G Z :=
  buf ← get_ue_golomb_long;
  let sign := Z.land buf 1 - 1 in
  mret (s32 (u32 (Z.lxor (Z.shiftr buf 1) (u32 sign) + 1))).

(** ** Writers *)

(** [set_ue_golomb(pb, int i)] *)
Definition set_ue_golomb (i : Z) : PB unit :=
  if i <? 256 then n ← of_option (aget ff_ue_golomb_len i); put_bits n (u32 (i + 1))
  else let e := av_log2 (u32 (i + 1)) in put_bits (2 * e + 1) (u32 (i + 1)).

(** [set_ue_golomb_long(pb, u32 i)] *)
Definition set_ue_golomb_long (i : Z) : PB unit :=
  if i <? 256 then n ← of_option (aget ff_ue_golomb_len i); put_bits n (u32 (i + 1))
  else let e := av_log2 (u32 (i + 1)) in put_bits64 (2 * e + 1) (u32 (i + 1)).

(** [set_te_golomb(pb, i, range)] *)
Definition set_te_golomb (i range : Z) : PB unit :=
  if range =? 2 then put_bits 1 (u32 (Z.lxor i 1)) else set_ue_golomb i.

(** [set_se_golomb(pb, int i)] *)
Definition set_se_golomb (i : Z) : PB unit :=
  let i := s32 (2 * i - 1) in
  let i := if i <? 0 then Z.lxor i (-1) else i in
  set_ue_golomb i.

(** ** The codes of the standards *)

(** ue(v): [log2 (v+1)] zeros, then [v+1] in binary. *)
Definition ue_len (v : Z) : Z := 2 * Z.log2 (v + 1) + 1.

Definition ue_code (v : Z) : list bool := bits (Z.to_nat (ue_len v)) (v + 1).

(** se(v): the values 0, 1, -1, 2, -2, ... in this order. *)
Definition se_of_ue (v : Z) : Z := if Z.odd v then (v + 1) / 2 else - (v / 2).

Definition ue_of_se (i : Z) : Z := if 0 <? i then 2 * i - 1 else - 2 * i.

Lemma log2_bounds v : 0 ≤ v → 0 ≤ Z.log2 (v + 1) ∧ 2 ^ Z.log2 (v + 1) ≤ v + 1 < 2 * 2 ^ Z.log2 (v + 1).
Proof.
  intros Hv. pose proof (Z.log2_nonneg (v + 1)). pose proof (Z.log2_spec (v + 1) ltac:(lia)) as Hs.
  rewrite Z.pow_succ_r in Hs by lia. lia.
Qed.

Lemma length_ue_code v : 0 ≤ v → length (ue_code v) = Z.to_nat (ue_len v).
Proof. intros. apply length_bits. Qed.

Lemma zlen_ue_code v : 0 ≤ v → zlen (ue_code v) = ue_len v.
Proof.
  intros Hv. unfold zlen. rewrite length_ue_code by done.
  pose proof (log2_bounds v Hv). unfold ue_len. lia.
Qed.

Lemma bval_ue_code v : 0 ≤ v → bval (ue_code v) = v + 1.
Proof.
  intros Hv. pose proof (log2_bounds v Hv) as (He & _ & Hlt). unfold ue_code. rewrite bval_bits.
  apply Z.mod_small. unfold ue_len. split; [lia|]. eapply Z.lt_le_trans; [apply Hlt|].
  rewrite <- Z.pow_succ_r by lia. apply Z.pow_le_mono_r; lia.
Qed.

(** A word that starts with the code of [v]. *)
Lemma bval_code_word v L : 0 ≤ v → length L = 32%nat → ue_len v ≤ 32 →
  take (length (ue_code v)) L = ue_code v →
  ∃ r, bval L = (v + 1) * 2 ^ (31 - 2 * Z.log2 (v + 1)) + r ∧ 0 ≤ r < 2 ^ (31 - 2 * Z.log2 (v + 1)).
Proof.
  intros Hv HL Hlen Ht. rewrite <- (take_drop (length (ue_code v)) L), Ht, bval_app, bval_ue_code by done.
  set (k := drop _ L). assert (zlen k = 31 - 2 * Z.log2 (v + 1)) as Hk.
  { unfold k, zlen. rewrite length_drop, HL, length_ue_code by done.
    pose proof (log2_bounds v Hv). unfold ue_len in *. lia. }
  exists (bval k). rewrite <- Hk. split; [done|]. apply bval_range.
Qed.

Section CodeWord.
Context (v r buf : Z) (Hv : 0 ≤ v).
Let e := Z.log2 (v + 1).
Context (He : 2 * e ≤ 31) (Hr : 0 ≤ r < 2 ^ (31 - 2 * e)).
Context (Hbuf : buf = (v + 1) * 2 ^ (31 - 2 * e) + r).

Lemma code_word_bounds : 2 ^ (31 - e) ≤ buf < 2 ^ (32 - e).
Proof using All.
  pose proof (log2_bounds v Hv) as (He0 & Hlo & Hhi). fold e in He0, Hlo, Hhi.
  assert (2 ^ (31 - e) = 2 ^ e * 2 ^ (31 - 2 * e)) as ->
    by (rewrite <- Z.pow_add_r by lia; f_equal; lia).
  replace (32 - e) with (Z.succ (e + (31 - 2 * e))) by lia.
  rewrite Z.pow_succ_r, Z.pow_add_r by lia. nia.
Qed.

Lemma code_word_log2 : Z.log2 buf = 31 - e.
Proof using All.
  pose proof (log2_bounds v Hv). apply Z.log2_unique; [unfold e; lia|].
  replace (Z.succ (31 - e)) with (32 - e) by lia. apply code_word_bounds.
Qed.

Lemma code_word_shift k : 0 ≤ k → k ≤ 31 - 2 * e →
  Z.shiftr buf k = (v + 1) * 2 ^ (31 - 2 * e - k) + r / 2 ^ k ∧
  0 ≤ r / 2 ^ k < 2 ^ (31 - 2 * e - k).
Proof using All.
  intros Hk Hke. pose proof (Z.pow_pos_nonneg 2 k ltac:(lia) Hk).
  assert (2 ^ (31 - 2 * e) = 2 ^ (31 - 2 * e - k) * 2 ^ k) as Hp
    by (rewrite <- Z.pow_add_r by lia; f_equal; lia).
  rewrite Z.shiftr_div_pow2 by lia. rewrite Hbuf, Hp, Z.mul_assoc, Z.div_add_l by lia.
  split; [done|]. split; [apply Z.div_pos; lia|]. apply Z.div_lt_upper_bound; lia.
Qed.
End CodeWord.

(** What the three 512-entry tables say, checked entry by entry. *)
Definition tables_ok : bool :=
  forallb (fun n =>
    let i := Z.of_nat n in
    let e := 8 - Z.log2 i in
    let v := Z.shiftr i (8 - 2 * e) - 1 in
    (tab ff_golomb_vlc_len i =? 2 * e + 1) && (tab ff_ue_golomb_vlc_code i =? v)
      && (tab ff_se_golomb_vlc_code i =? se_of_ue v)) (seq 16 496).

Lemma tables_ok_true : tables_ok = true.
Proof. vm_compute. reflexivity. Qed.

Lemma tables_spec v r : 0 ≤ v → Z.log2 (v + 1) ≤ 4 → 0 ≤ r < 2 ^ (8 - 2 * Z.log2 (v + 1)) →
  let i := (v + 1) * 2 ^ (8 - 2 * Z.log2 (v + 1)) + r in
  tab ff_golomb_vlc_len i = ue_len v ∧ tab ff_ue_golomb_vlc_code i = v ∧
  tab ff_se_golomb_vlc_code i = se_of_ue v.
Proof.
  intros Hv He Hr i. set (e := Z.log2 (v + 1)) in *.
  pose proof (log2_bounds v Hv) as (He0 & Hlo & Hhi). fold e in He0, Hlo, Hhi.
  assert (2 ^ (8 - e) = 2 ^ e * 2 ^ (8 - 2 * e)) as Hp by (rewrite <- Z.pow_add_r by lia; f_equal; lia).
  assert (2 ^ (8 - e) ≤ i < 2 * 2 ^ (8 - e)) as Hi by (unfold i; rewrite Hp; nia).
  assert (2 ^ 4 ≤ 2 ^ (8 - e) ≤ 2 ^ 8) as Hpe by (split; apply Z.pow_le_mono_r; lia).
  pose proof tables_ok_true as Hok. unfold tables_ok in Hok. rewrite forallb_forall in Hok.
  specialize (Hok (Z.to_nat i)). rewrite Z2Nat.id in Hok by lia.
  assert (Z.log2 i = 8 - e) as Hl.
  { apply Z.log2_unique; [lia|]. rewrite Z.pow_succ_r by lia. lia. }
  rewrite Hl in Hok. replace (8 - (8 - e)) with e in Hok by lia.
  assert (Z.shiftr i (8 - 2 * e) = v + 1) as Hs.
  { rewrite Z.shiftr_div_pow2 by lia. unfold i. rewrite Z.div_add_l by lia. rewrite Z.div_small; lia. }
  rewrite Hs, Z.add_simpl_r in Hok. unfold ue_len. fold e.
  assert (In (Z.to_nat i) (seq 16 496)) as Hin by (apply in_seq; cbn in Hpe; lia).
  specialize (Hok Hin). bprop. auto.
Qed.

(** ** Reading a code *)

(** The unread part of the stream begins with [l]. *)
Definition starts (s : get_bits_context) (l : list bool) : Prop := take (length l) (stream s) = l.

Lemma starts_app s l k : 0 ≤ index s → starts s (l ++ k) → starts s l ∧ starts (advance s (zlen l)) k.
Proof.
  unfold starts. intros Hi H. rewrite length_app in H. split.
  - transitivity (take (length l) (take (length l + length k) (stream s))).
    + rewrite take_take. f_equal. lia.
    + by rewrite H, take_app_length.
  - rewrite stream_advance by (try apply zlen_nonneg; done). unfold zlen. rewrite Nat2Z.id.
    rewrite take_drop_commute, H. by rewrite drop_app_length.
Qed.

Lemma cache_starts s l : room s 0 → zlen l ≤ 25 → starts s l → take (length l) (cache_bits s) = l.
Proof.
  unfold zlen. intros Hr Hl Hs. pose proof (Z.mod_pos_bound (index s) 8).
  rewrite cache_bits_take by (auto; lia). done.
Qed.

Lemma cache_code s v : room s 0 → 0 ≤ v → ue_len v ≤ 25 → starts s (ue_code v) →
  ∃ r, bval (cache_bits s) = (v + 1) * 2 ^ (31 - 2 * Z.log2 (v + 1)) + r ∧
    0 ≤ r < 2 ^ (31 - 2 * Z.log2 (v + 1)).
Proof.
  intros Hr Hv Hl Hs. apply bval_code_word; [done|by apply length_cache_bits|lia|].
  apply cache_starts; [done|by rewrite zlen_ue_code|done].
Qed.

Lemma ue_len_range v : 0 ≤ v → 1 ≤ ue_len v.
Proof. intros. pose proof (log2_bounds v). unfold ue_len. lia. Qed.

(** The table branch, shared by the three readers. *)
Lemma short_code v buf r : 0 ≤ v → Z.log2 (v + 1) ≤ 4 →
  buf = (v + 1) * 2 ^ (31 - 2 * Z.log2 (v + 1)) + r → 0 ≤ r < 2 ^ (31 - 2 * Z.log2 (v + 1)) →
  (buf >=? Z.shiftl 1 27) = true ∧
  tab ff_golomb_vlc_len (Z.shiftr buf 23) = ue_len v ∧
  tab ff_ue_golomb_vlc_code (Z.shiftr buf 23) = v ∧
  tab ff_se_golomb_vlc_code (Z.shiftr buf 23) = se_of_ue v.
Proof.
  intros Hv He -> Hr. split.
  - pose proof (code_word_bounds v r _ Hv ltac:(lia) Hr eq_refl) as Hb. rewrite Z.geb_leb. apply Z.leb_le.
    change (Z.shiftl 1 27) with (2 ^ 27). etransitivity; [|apply Hb]. apply Z.pow_le_mono_r; lia.
  - destruct (code_word_shift v r _ Hv ltac:(lia) Hr eq_refl 23) as [-> Hr']; [lia..|].
    replace (31 - 2 * Z.log2 (v + 1) - 23) with (8 - 2 * Z.log2 (v + 1)) in * by lia.
    by apply tables_spec.
Qed.

Lemma long_code v buf r : 0 ≤ v → 5 ≤ Z.log2 (v + 1) → ue_len v ≤ 32 →
  buf = (v + 1) * 2 ^ (31 - 2 * Z.log2 (v + 1)) + r → 0 ≤ r < 2 ^ (31 - 2 * Z.log2 (v + 1)) →
  (buf >=? Z.shiftl 1 27) = false ∧ av_log2 buf = 31 - Z.log2 (v + 1).
Proof.
  unfold ue_len. intros Hv He Hl -> Hr.
  pose proof (code_word_bounds v r _ Hv ltac:(lia) Hr eq_refl) as Hb. split.
  - rewrite Z.geb_leb. apply Z.leb_gt. change (Z.shiftl 1 27) with (2 ^ 27).
    eapply Z.lt_le_trans; [apply Hb|]. apply Z.pow_le_mono_r; lia.
  - rewrite av_log2_spec; [by apply (code_word_log2 v r _ Hv ltac:(lia) Hr eq_refl)|]. split.
    + eapply Z.lt_le_trans; [|apply Hb]. apply Z.pow_pos_nonneg; lia.
    + eapply Z.lt_le_trans; [apply Hb|]. apply Z.pow_le_mono_r; lia.
Qed.

Lemma close_room s n : room s 0 → 0 ≤ n ≤ 32 → close_skip n s = Ok tt (advance s n).
Proof. unfold room. intros. apply close_skip_spec; lia. Qed.

Lemma get_ue_golomb_ok s v : room s 0 → 0 ≤ v ≤ 8190 → starts s (ue_code v) →
  get_ue_golomb s = Ok v (advance s (ue_len v)).
Proof.
  intros Hr Hv Hs. pose proof (log2_bounds v ltac:(lia)) as (He0 & _).
  assert (Z.log2 (v + 1) ≤ 12) as He12 by (apply (Z.log2_le_mono (v + 1) 8191); lia).
  destruct (cache_code s v) as (r & Hb & Hrr); [done|lia|unfold ue_len; lia|done|].
  unfold get_ue_golomb, mbind, G_bind, M_bind. rewrite open_cache_spec by done.
  destruct (Z.leb_spec (Z.log2 (v + 1)) 4).
  - destruct (short_code v _ r ltac:(lia) ltac:(lia) Hb Hrr) as (-> & H1 & H2 & _).
    change (32 - 9) with 23. rewrite H1, H2. rewrite close_room; [done|done|unfold ue_len; lia].
  - destruct (long_code v _ r ltac:(lia) ltac:(lia) ltac:(unfold ue_len; lia) Hb Hrr) as (-> & ->).
    replace (32 - (2 * (31 - Z.log2 (v + 1)) - 31)) with (ue_len v) by (unfold ue_len; lia).
    rewrite close_room by (unfold ue_len; auto; lia).
    rewrite (proj2 (Z.ltb_ge _ 7)) by lia.
    destruct (code_word_shift v r _ ltac:(lia) ltac:(lia) Hrr Hb (2 * (31 - Z.log2 (v + 1)) - 31)) as [-> Hr']; [lia..|].
    replace (31 - 2 * Z.log2 (v + 1) - (2 * (31 - Z.log2 (v + 1)) - 31)) with 0 in * by lia.
    replace (r / _) with 0 by lia. rewrite Z.mul_1_r, Z.add_0_r, Z.add_simpl_r.
    rewrite s32_u32, s32_id by lia. done.
Qed.


Lemma get_ue_golomb_zeros s : room s 32 → starts s (replicate 13 false) →
  ∃ n, get_ue_golomb s = Ok (-1) (advance s n) ∧ 27 ≤ n ≤ 63.
Proof.
  intros Hr Hs. assert (room s 0) as Hr0 by (unfold room in *; lia).
  pose proof (length_cache_bits s Hr0) as Hlc.
  assert (bval (cache_bits s) < 2 ^ 19) as Hb.
  { rewrite <- (take_drop 13 (cache_bits s)).
    pose proof (cache_starts s (replicate 13 false) Hr0 ltac:(unfold zlen; cbn; lia) Hs) as Hc.
    rewrite length_replicate in Hc. rewrite Hc.
    rewrite bval_app, bval_false. pose proof (bval_range (drop 13 (cache_bits s))) as Hd.
    unfold zlen in *. rewrite length_drop, Hlc in *. cbn in *. lia. }
  pose proof (bval_range (cache_bits s)). unfold get_ue_golomb, mbind, G_bind, M_bind.
  rewrite open_cache_spec by done. set (buf := bval (cache_bits s)) in *.
  rewrite Z.geb_leb. change (Z.shiftl 1 27) with (2 ^ 27).
  rewrite (proj2 (Z.leb_gt _ _)) by lia.
  assert (0 ≤ av_log2 buf ≤ 18) as Hl.
  { destruct (Z.eq_dec buf 0) as [->|]; [vm_compute; split; congruence|]. rewrite av_log2_spec by lia.
    split; [apply Z.log2_nonneg|]. apply (Z.log2_le_mono buf (2 ^ 19 - 1)). lia. }
  exists (32 - (2 * av_log2 buf - 31)). split; [|lia].
  rewrite close_skip_spec by (unfold room in Hr; lia). by rewrite (proj2 (Z.ltb_lt _ 7)) by lia.
Qed.

Lemma starts_zeros s v : 0 ≤ v → room s 0 → starts s (ue_code v) →
  starts s (replicate (Z.to_nat (Z.log2 (v + 1))) false) ∧
  starts (advance s (Z.log2 (v + 1))) (bits (Z.to_nat (Z.log2 (v + 1) + 1)) (v + 1)).
Proof.
  intros Hv Hr Hs. pose proof (log2_bounds v Hv) as (He0 & Hlo & Hhi).
  unfold ue_code, ue_len in Hs.
  replace (Z.to_nat (2 * Z.log2 (v + 1) + 1)) with
    (Z.to_nat (Z.log2 (v + 1)) + Z.to_nat (Z.log2 (v + 1) + 1))%nat in Hs by lia.
  rewrite bits_plus in Hs. rewrite Z.div_small, bits_0 in Hs.
  - apply starts_app in Hs as [H1 H2]; [|unfold room in Hr; lia]. unfold zlen in H2.
    rewrite length_replicate, Z2Nat.id in H2 by lia. done.
  - split; [lia|]. rewrite Z2Nat.id, Z.pow_add_r by lia. lia.
Qed.

Lemma get_ue_golomb_long_ok s v : room s 25 → 0 ≤ v → v + 1 < 2 ^ 25 → starts s (ue_code v) →
  get_ue_golomb_long s = Ok v (advance s (ue_len v)).
Proof.
  intros Hr Hv Hv' Hs. pose proof (log2_bounds v Hv) as (He0 & Hlo & Hhi).
  assert (room s 0) as Hr0 by (unfold room in *; lia). pose proof (length_cache_bits s Hr0) as Hlc.
  set (e := Z.log2 (v + 1)) in *.
  assert (e ≤ 24) as He by (apply (Z.log2_le_mono (v + 1) (2 ^ 25 - 1)); lia).
  destruct (starts_zeros s v Hv Hr0 Hs) as [Hz Hone]. fold e in Hz, Hone.
  (* the leading zeros and the one are in the cache *)
  assert (starts s (replicate (Z.to_nat e) false ++ [true])) as Hpre.
  { unfold starts, ue_code in Hs |- *. rewrite length_bits in Hs. rewrite length_app, length_replicate.
    transitivity (take (Z.to_nat e + 1) (take (Z.to_nat (ue_len v)) (stream s))).
    { rewrite take_take. f_equal. unfold ue_len. fold e. cbn. lia. }
    rewrite Hs. unfold ue_len. fold e.
    replace (Z.to_nat (2 * e + 1)) with (Z.to_nat e + (1 + Z.to_nat e))%nat by lia.
    rewrite !bits_plus. rewrite Z.div_small, bits_0.
    - rewrite app_assoc, take_app_length' by (rewrite length_app, length_replicate, length_bits; lia).
      f_equal. apply bval_inj; [by rewrite length_bits|]. rewrite bval_bits, Z2Nat.id by lia.
      replace ((v + 1) / 2 ^ e) with 1; [done|]. apply (Z.div_unique _ _ _ (v + 1 - 2 ^ e)); lia.
    - split; [lia|]. rewrite Nat2Z.inj_add, Z2Nat.id, Z.pow_add_r by lia. change (2 ^ Z.of_nat 1) with 2. lia. }
  pose proof (cache_starts s (replicate (Z.to_nat e) false ++ [true]) Hr0 ltac:(unfold zlen; rewrite length_app, length_replicate; cbn [length]; lia) Hpre) as Hc.
  assert (Z.log2 (bval (cache_bits s)) = 31 - e ∧ 0 < bval (cache_bits s) < 2 ^ 32) as [Hlog Hpos].
  { rewrite <- (take_drop (length (replicate (Z.to_nat e) false ++ [true])) (cache_bits s)), Hc.
    set (k := drop _ _). assert (zlen k = 31 - e) as Hk.
    { unfold k, zlen. rewrite length_drop, Hlc, length_app, length_replicate. cbn. lia. }
    rewrite <- app_assoc, !bval_app, bval_false. pose proof (bval_range k) as Hkr.
    change (bval [true]) with 1. rewrite Hk in *. pose proof (Z.pow_pos_nonneg 2 (31 - e)).
    assert (2 ^ (31 - e) ≤ 2 ^ 31) by (apply Z.pow_le_mono_r; lia).
    split; [|change (2 ^ 32) with (2 * 2 ^ 31); lia].
    apply Z.log2_unique; [lia|]. rewrite Z.pow_succ_r by lia. lia. }
  unfold get_ue_golomb_long, mbind, G_bind, M_bind.
  change (show_bits_long 32) with (show_bits 32). rewrite show_bits_spec by (auto; lia).
  rewrite take_ge by (by rewrite Hlc). rewrite av_log2_spec, Hlog by done.
  replace (31 - (31 - e)) with e by lia. rewrite u32_id by lia.
  unfold skip_bits_long, modify. rewrite s32_id by (unfold room in Hr; lia). fold (advance s e).
  assert (room (advance s e) 0) as Hre by (unfold room, advance in *; cbn; lia).
  pose proof (Z.mod_pos_bound (index (advance s e)) 8).
  rewrite get_bits_long_spec by (auto; lia). unfold starts in Hone. rewrite length_bits in Hone.
  rewrite Hone, bval_bits, Z.mod_small.
  - rewrite Z.add_simpl_r, u32_id by lia. rewrite advance_advance. unfold ue_len. fold e.
    by replace (e + (e + 1)) with (2 * e + 1) by lia.
  - rewrite Z2Nat.id, Z.pow_add_r by lia. lia.
Qed.


Lemma u32_lxor a b : u32 (Z.lxor a (u32 b)) = u32 (Z.lxor a b).
Proof.
  unfold u32. apply Z.bits_inj'. intros n Hn. destruct (Z.ltb_spec n 32).
  - rewrite !Z.mod_pow2_bits_low, !Z.lxor_spec by lia. by rewrite Z.mod_pow2_bits_low by lia.
  - by rewrite !Z.mod_pow2_bits_high by lia.
Qed.

(** Conditional negation by the sign mask. *)
Lemma sign_mask w sign c : sign = 0 ∨ sign = -1 →
  u32 (Z.lxor w (u32 sign) - c) = u32 ((if sign =? 0 then w else - w - 1) - c).
Proof.
  intros Hs. rewrite <- u32_sub_l, u32_lxor, u32_sub_l. f_equal. f_equal.
  destruct Hs as [-> | ->]; cbn; [by rewrite Z.lxor_0_r|]. rewrite Z.lxor_m1_r. unfold Z.lnot. lia.
Qed.

Lemma land_1_odd w : Z.land w 1 = Z.b2z (Z.odd w).
Proof. change 1 with (Z.ones 1). rewrite Z.land_ones by lia. change (2 ^ 1) with 2. by rewrite Zmod_odd; destruct (Z.odd w). Qed.

Lemma se_decode w : 1 ≤ w < 2 ^ 31 →
  let sign := - Z.land w 1 in
  s32 (u32 (Z.lxor (Z.shiftr w 1) (u32 sign) - u32 sign)) = se_of_ue (w - 1).
Proof.
  intros Hw sign. rewrite u32_sub_r, sign_mask, s32_u32; unfold sign; rewrite land_1_odd;
    [|destruct (Z.odd w); auto].
  pose proof (Zmod_odd w) as Hm. pose proof (Z.div_mod w 2 ltac:(lia)).
  rewrite Z.shiftr_div_pow2 by lia. change (2 ^ 1) with 2.
  unfold se_of_ue. rewrite Z.odd_sub. change (Z.odd 1) with true. rewrite xorb_true_r.
  revert Hm. destruct (Z.odd w); intros Hm; cbn [negb Z.b2z Z.opp Z.eqb].
  - assert ((w - 1) / 2 = w / 2) as -> by (symmetry; apply (Z.div_unique _ _ _ 0); lia).
    change (- (1) =? 0) with false. cbn match. rewrite s32_id; lia.
  - change (- 0 =? 0) with true. cbn match. rewrite Z.sub_add, s32_id; lia.
Qed.

Lemma get_se_golomb_ok cs s v : room s 25 → 0 ≤ v → v + 1 < 2 ^ 13 → starts s (ue_code v) →
  get_se_golomb cs s =
    Ok (if v <? 31 then as_char cs (se_of_ue v) else se_of_ue v) (advance s (ue_len v)).
Proof.
  intros Hr Hv Hv' Hs. pose proof (log2_bounds v Hv) as (He0 & Hlo & Hhi).
  assert (room s 0) as Hr0 by (unfold room in *; lia).
  assert (Z.log2 (v + 1) ≤ 12) as He by (apply (Z.log2_le_mono (v + 1) (2 ^ 13 - 1)); lia).
  destruct (cache_code s v) as (r & Hb & Hrr); [done|lia|unfold ue_len; lia|done|].
  unfold get_se_golomb, mbind, G_bind, M_bind. rewrite open_cache_spec by done.
  destruct (Z.leb_spec (Z.log2 (v + 1)) 4).
  - destruct (short_code v _ r ltac:(lia) ltac:(lia) Hb Hrr) as (-> & H1 & _ & H2).
    change (32 - 9) with 23. rewrite H1, H2. rewrite close_room by (unfold ue_len; auto; lia).
    rewrite (proj2 (Z.ltb_lt v 31)); [done|]. assert (v + 1 < 2 ^ 5); [|lia].
    apply Z.log2_lt_pow2; lia.
  - destruct (long_code v _ r ltac:(lia) ltac:(lia) ltac:(unfold ue_len; lia) Hb Hrr) as (-> & ->).
    replace (31 - (31 - Z.log2 (v + 1))) with (Z.log2 (v + 1)) by lia.
    rewrite close_room by (auto; lia).
    assert (room (advance s (Z.log2 (v + 1))) 12) as Hre by (unfold room, advance in *; cbn; lia).
    assert (room (advance s (Z.log2 (v + 1))) 0) as Hre0 by (unfold room in *; lia).
    destruct (starts_zeros s v Hv Hr0 Hs) as [_ Hone].
    pose proof (length_cache_bits _ Hre0) as Hlc.
    rewrite open_cache_spec by done.
    apply cache_starts in Hone; [|done|unfold zlen; rewrite length_bits; lia].
    rewrite length_bits in Hone.
    assert (Z.shiftr (bval (cache_bits (advance s (Z.log2 (v + 1))))) (31 - Z.log2 (v + 1)) = v + 1) as ->.
    { rewrite Z.shiftr_div_pow2 by lia.
      pose proof (bval_take (Z.to_nat (Z.log2 (v + 1) + 1)) (cache_bits (advance s (Z.log2 (v + 1))))) as Ht.
      rewrite Hone in Ht. unfold zlen in Ht. rewrite Hlc in Ht. rewrite bval_bits, Z.mod_small in Ht.
      - replace (Z.of_nat 32 - Z.of_nat (Z.to_nat (Z.log2 (v + 1) + 1))) with (31 - Z.log2 (v + 1)) in Ht by lia.
        symmetry. apply Ht. lia.
      - rewrite Z2Nat.id, Z.pow_add_r by lia. lia. }
    rewrite close_room by (auto; lia). rewrite advance_advance.
    rewrite se_decode by lia. rewrite Z.add_simpl_r.
    rewrite (proj2 (Z.ltb_ge v 31)).
    + unfold ue_len. unfold mret, G_ret, M_ret. do 2 f_equal. lia.
    + assert (2 ^ 5 ≤ 2 ^ Z.log2 (v + 1)) by (apply Z.pow_le_mono_r; lia). lia.
Qed.

(** [get_ue_golomb] decodes every ue(v) code of a value 0..8190 (the
    documented range) at every alignment and consumes exactly the code; on a
    longer prefix of zeros it returns -1. *)
Theorem get_ue_golomb_spec s :
  room s 32 →
  (∀ v, 0 ≤ v ≤ 8190 → starts s (ue_code v) → get_ue_golomb s = Ok v (advance s (ue_len v))) ∧
  (starts s (replicate 13 false) → ∃ n, get_ue_golomb s = Ok (-1) (advance s n) ∧ 27 ≤ n ≤ 63).
Proof.
  intros Hr. split; [|by apply get_ue_golomb_zeros].
  intros v Hv Hs. apply get_ue_golomb_ok; [unfold room in *; lia|done|done].
Qed.

(** A reader at bit 3 of "000 00101 00000000 00001 ...": the code of 4. *)
Definition golomb_reader : get_bits_context :=
  mk_gb ([5; 0; 8; 255] ++ replicate 20 0) 4 3 32 40.

Lemma get_ue_golomb_spec_witness :
  (∀ v, 0 ≤ v ≤ 8190 → starts golomb_reader (ue_code v) →
     get_ue_golomb golomb_reader = Ok v (advance golomb_reader (ue_len v))) ∧
  (starts golomb_reader (replicate 13 false) →
     ∃ n, get_ue_golomb golomb_reader = Ok (-1) (advance golomb_reader n) ∧ 27 ≤ n ≤ 63).
Proof. apply (get_ue_golomb_spec golomb_reader). unfold room, zlen. cbn. lia. Defined.

(** [get_ue_golomb_long] decodes every ue(v) code of a value up to
    2^25 - 2 at every alignment.  (Its documented range is up to UINT_MAX-1;
    beyond 2^25 - 2 it depends on the alignment, see [get_bits_long_32].) *)
Theorem get_ue_golomb_long_spec s v :
  room s 25 → 0 ≤ v ≤ 2 ^ 25 - 2 → starts s (ue_code v) →
  get_ue_golomb_long s = Ok v (advance s (ue_len v)).
Proof. intros. apply get_ue_golomb_long_ok; auto; lia. Qed.

Lemma get_ue_golomb_long_spec_witness :
  get_ue_golomb_long golomb_reader = Ok 4 (advance golomb_reader (ue_len 4)).
Proof.
  apply (get_ue_golomb_long_spec golomb_reader 4); [unfold room, zlen; cbn; lia|lia|vm_compute; done].
Defined.

Lemma se_ue_inverse i : se_of_ue (ue_of_se i) = i ∧ 0 ≤ ue_of_se i.
Proof.
  unfold se_of_ue, ue_of_se. destruct (Z.ltb_spec 0 i).
  - rewrite Z.odd_sub, Z.odd_mul. cbn. split; [|lia].
    replace (2 * i - 1 + 1) with (i * 2) by lia. by rewrite Z.div_mul by lia.
  - rewrite Z.odd_mul. cbn. split; [|lia]. replace (-2 * i) with ((- i) * 2) by lia.
    rewrite Z.div_mul by lia. lia.
Qed.

Lemma get_se_value cs s i :
  room s 25 → -4095 ≤ i ≤ 4095 → starts s (ue_code (ue_of_se i)) →
  get_se_golomb cs s =
    Ok (if cs then i else if (-15 <=? i) && (i <? 0) then i + 256 else i)
       (advance s (ue_len (ue_of_se i))).
Proof.
  intros Hr Hi Hs. destruct (se_ue_inverse i) as [Hse Hu].
  assert (ue_of_se i < 8191) by (unfold ue_of_se; destruct (Z.ltb_spec 0 i); lia).
  rewrite (get_se_golomb_ok cs s (ue_of_se i)) by (auto; lia). rewrite Hse. f_equal.
  assert ((ue_of_se i <? 31) = (-15 <=? i) && (i <? 16)) as ->.
  { unfold ue_of_se. destruct (Z.ltb_spec 0 i), (Z.leb_spec (-15) i), (Z.ltb_spec i 16); cbn [andb];
      first [apply Z.ltb_lt; lia|apply Z.ltb_ge; lia]. }
  unfold as_char, s8, u8.
  destruct cs, (Z.leb_spec (-15) i), (Z.ltb_spec i 16), (Z.ltb_spec i 0); cbn [andb]; try lia.
  - rewrite Z.mod_small; lia.
  - rewrite Z.mod_small; lia.
  - symmetry. apply (Z.mod_unique _ _ (-1)); lia.
  - rewrite Z.mod_small; lia.
Qed.

(** [get_se_golomb] decodes every se(v) code of a magnitude up to 4095
    when plain [char] is signed; with an unsigned [char] the values -1..-15,
    which come from the table, are returned as 255..241 and all others are
    unaffected.  The result is right on every code exactly when [char] is
    signed. *)
Theorem get_se_golomb_spec cs s i :
  room s 25 → -4095 ≤ i ≤ 4095 → starts s (ue_code (ue_of_se i)) →
  ∃ r, get_se_golomb cs s = Ok r (advance s (ue_len (ue_of_se i))) ∧
    r = (if cs then i else if (-15 <=? i) && (i <? 0) then i + 256 else i) ∧
    (r = i ↔ cs = true ∨ i < -15 ∨ 0 ≤ i).
Proof.
  intros Hr Hi Hs. rewrite (get_se_value cs s i) by done. eexists. split; [done|]. split; [done|].
  destruct cs, (Z.leb_spec (-15) i), (Z.ltb_spec i 0); cbn [andb]; split; intros Hc; auto; try lia;
    destruct Hc as [|Hc]; try done; lia.
Qed.

Lemma get_se_golomb_spec_witness :
  ∃ r, get_se_golomb false golomb_reader = Ok r (advance golomb_reader (ue_len 4)) ∧
    r = (if (-15 <=? -2) && (-2 <? 0) then -2 + 256 else -2) ∧
    (r = -2 ↔ false = true ∨ -2 < -15 ∨ 0 ≤ -2).
Proof.
  apply (get_se_golomb_spec false golomb_reader (-2));
    [unfold room, zlen; cbn; lia|lia|vm_compute; done].
Defined.

(** ** Writing codes *)

Lemma ff_ue_golomb_len_ok i : 0 ≤ i < 256 → aget ff_ue_golomb_len i = Some (ue_len i).
Proof.
  intros Hi.
  assert (forallb (fun n => match aget ff_ue_golomb_len (Z.of_nat n) with
    | Some l => l =? ue_len (Z.of_nat n) | None => false end) (seq 0 256) = true) as Hok
    by (vm_compute; reflexivity).
  rewrite forallb_forall in Hok. specialize (Hok (Z.to_nat i)). rewrite Z2Nat.id in Hok by lia.
  assert (In (Z.to_nat i) (seq 0 256)) as Hin by (apply in_seq; lia).
  specialize (Hok Hin). destruct (aget _ _); [|done]. bprop. congruence.
Qed.

Lemma set_ue_golomb_ok s i : 0 ≤ i ≤ 2 ^ 16 - 2 → pb_ok s → buf_ptr s + 4 ≤ buf_end s →
  ∃ s', set_ue_golomb i s = Ok tt s' ∧ put_result s s' (ue_code i).
Proof.
  intros Hi Hok Hsp. pose proof (log2_bounds i ltac:(lia)) as (He0 & Hlo & Hhi).
  assert (Z.log2 (i + 1) ≤ 15) as He by (apply (Z.log2_le_mono (i + 1) (2 ^ 16 - 1)); lia).
  assert (∃ s', put_bits (ue_len i) (i + 1) s = Ok tt s' ∧ put_result s s' (ue_code i)) as (s' & Hs' & Hr).
  { destruct (put_bits_ok s (Z.to_nat (ue_len i)) (i + 1)) as (s' & Hs' & Hr); [done|unfold ue_len; lia| |done|].
    - unfold ue_len. rewrite Z2Nat.id by lia. split; [lia|]. eapply Z.lt_le_trans; [apply Hhi|].
      rewrite <- Z.pow_succ_r by lia. apply Z.pow_le_mono_r; lia.
    - exists s'. rewrite Z2Nat.id in Hs' by (unfold ue_len; lia). done. }
  exists s'. split; [|done]. unfold set_ue_golomb. rewrite u32_id by lia.
  destruct (Z.ltb_spec i 256).
  - rewrite ff_ue_golomb_len_ok by lia. exact Hs'.
  - rewrite av_log2_spec by lia. exact Hs'.
Qed.

(** ** Round trips

    A codec is a writer and a reader of the same codes. *)

Class Codec (w : Z → PB unit) (r : G Z) := {
  codec_dom : Z → Prop;
  codec_code : Z → list bool;
  codec_put : ∀ i s, codec_dom i → pb_ok s → buf_ptr s + 4 ≤ buf_end s →
    ∃ s', w i s = Ok tt s' ∧ put_result s s' (codec_code i);
  codec_get : ∀ i s, codec_dom i → room s 32 → starts s (codec_code i) →
    r s = Ok i (advance s (zlen (codec_code i)))
}.

Fixpoint put_seq (w : Z → PB unit) (l : list Z) : PB unit :=
  match l with [] => mret tt | i :: l' => w i;; put_seq w l' end.

Fixpoint get_seq (r : G Z) (n : nat) : G (list Z) :=
  match n with O => mret [] | S n' => i ← r; l ← get_seq r n'; mret (i :: l) end.

(** A reader on the memory a writer has flushed, padded as the NAL buffers
    are. *)
Definition reader_of (s : put_bits_context) : get_bits_context :=
  (init_get_bits8 (Some (take (Z.to_nat (buf_ptr s)) (pbuf s) ++ replicate 64 0)) (buf_ptr s)).2.

Section Roundtrip.
Context {w : Z → PB unit} {r : G Z} `{!Codec w r}.

Definition seq_bits (l : list Z) : list bool := concat (map codec_code l).

Lemma put_seq_ok l s : Forall codec_dom l → pb_ok s → zlen (seq_bits l) + 32 ≤ pb_space s →
  ∃ s', put_seq w l s = Ok tt s' ∧ put_result s s' (seq_bits l).
Proof.
  revert s. induction l as [|i l IH]; intros s Hd Hok Hsp; cbn [put_seq].
  - exists s. split; [done|]. split; try done; cbn; [by rewrite app_nil_r|]. unfold zlen. cbn. lia.
  - apply Forall_cons_1 in Hd as [Hi Hd]. unfold seq_bits in Hsp |- *. cbn [map concat] in Hsp |- *.
    fold (seq_bits l) in *. rewrite zlen_app in Hsp.
    pose proof (zlen_nonneg (codec_code i)). pose proof (zlen_nonneg (seq_bits l)).
    destruct (codec_put i s Hi Hok) as (s1 & H1 & [Ok1 W1 L1 E1 S1]).
    { eapply (pb_space_ptr _ (zlen (codec_code i) + zlen (seq_bits l))); auto; lia. }
    destruct (IH s1 Hd Ok1 ltac:(lia)) as (s2 & H2 & [Ok2 W2 L2 E2 S2]).
    unfold mbind, PB_bind, M_bind. rewrite H1. exists s2. split; [done|].
    split; [done| |congruence|congruence|rewrite zlen_app; lia].
    rewrite W2, W1. by rewrite <- app_assoc.
Qed.

Lemma get_seq_ok l s : Forall codec_dom l → room s (zlen (seq_bits l) + 32) →
  starts s (seq_bits l) → get_seq r (length l) s = Ok l (advance s (zlen (seq_bits l))).
Proof.
  revert s. induction l as [|i l IH]; intros s Hd Hr Hs; cbn [get_seq length].
  - cbn. by rewrite advance_0.
  - apply Forall_cons_1 in Hd as [Hi Hd]. unfold seq_bits in Hr, Hs |- *. cbn [map concat] in *.
    fold (seq_bits l) in *. rewrite zlen_app in Hr.
    pose proof (zlen_nonneg (codec_code i)). pose proof (zlen_nonneg (seq_bits l)).
    apply starts_app in Hs as [H1 H2]; [|unfold room in Hr; lia].
    unfold mbind, G_bind, M_bind. rewrite (codec_get i) by (auto; unfold room in *; lia).
    rewrite IH; [|done| |done].
    + rewrite advance_advance, <- zlen_app. done.
    + apply room_advance; [done|]. by rewrite Z.add_assoc.
Qed.

Lemma codec_roundtrip l mem : Forall codec_dom l → zlen (seq_bits l) + 32 ≤ 8 * zlen mem →
  zlen mem < 2 ^ 27 →
  ∃ s g, (put_seq w l;; flush_put_bits) (init_put_bits mem (zlen mem)) = Ok tt s ∧
    get_seq r (length l) (reader_of s) = Ok l g.
Proof.
  intros Hd Hsp Hlen. set (s0 := init_put_bits mem (zlen mem)).
  assert (pb_space s0 = 8 * zlen mem ∧ pbuf s0 = mem) as [Hs0 Hb0].
  { unfold s0, init_put_bits, pb_space. rewrite (proj2 (Z.ltb_ge _ _)) by apply zlen_nonneg. cbn. split; [lia|done]. }
  pose proof (zlen_nonneg (seq_bits l)).
  destruct (put_seq_ok l s0 Hd (pb_ok_init _) ltac:(lia)) as (s1 & H1 & [Ok1 W1 L1 E1 S1]).
  destruct (flush_put_bits_spec s1 Ok1) as (s2 & pad & H2 & W2 & L2 & P2).
  { eapply (pb_space_ptr _ 0); [done|lia|lia]. }
  exists s2. eexists. unfold mbind, PB_bind, M_bind. rewrite H1. split; [exact H2|].
  rewrite W1 in W2. change (written s0) with (@nil bool) in W2. cbn [app] in W2.
  assert (zlen (pbuf s2) = zlen mem) as Hl2 by (unfold zlen; congruence).
  assert (buf_ptr s2 ≤ zlen mem) as Hp2 by (unfold zlen in *; congruence || (rewrite L1, Hb0 in P2; lia)).
  assert (8 * buf_ptr s2 = zlen (seq_bits l) + Z.of_nat pad) as Hbits.
  { apply (f_equal length) in W2. rewrite length_bytes_bits, length_app, length_replicate, length_take in W2.
    unfold zlen in *. lia. }
  unfold reader_of. rewrite init_get_bits8_ok by lia. cbn [snd]. apply get_seq_ok; [done| |].
  - unfold room. cbn [index buffer]. rewrite zlen_app. unfold zlen in *.
    rewrite length_take, length_replicate. lia.
  - unfold starts, stream, gbits. cbn [index buffer]. change (Z.to_nat 0) with 0%nat. rewrite drop_0.
    rewrite bytes_bits_app, W2, <- app_assoc. by apply take_app_length.
Qed.
End Roundtrip.

#[export] Instance ue_codec : Codec set_ue_golomb get_ue_golomb.
Proof.
  refine {| codec_dom i := 0 ≤ i ≤ 8190;
            codec_code := ue_code;
            codec_put := _; codec_get := _ |}.
  - intros i s Hi. apply set_ue_golomb_ok. lia.
  - intros i s Hi Hr Hs. rewrite zlen_ue_code by lia. apply get_ue_golomb_ok; [unfold room in *; lia|done|done].
Defined.

#[export] Instance ue_long_codec : Codec set_ue_golomb get_ue_golomb_long.
Proof.
  refine {| codec_dom i := 0 ≤ i ≤ 2 ^ 16 - 2;
            codec_code := ue_code;
            codec_put := _; codec_get := _ |}.
  - intros i s Hi. by apply set_ue_golomb_ok.
  - intros i s Hi Hr Hs. rewrite zlen_ue_code by lia.
    apply get_ue_golomb_long_ok; [unfold room in *; lia|lia|lia|done].
Defined.

#[export] Instance se_codec : Codec set_se_golomb (get_se_golomb true).
Proof.
  refine {| codec_dom i := -4095 ≤ i ≤ 4095;
            codec_code i := ue_code (ue_of_se i);
            codec_put := _; codec_get := _ |}.
  - intros i s Hi Hok Hsp. unfold set_se_golomb. rewrite s32_id by lia.
    assert ((if 2 * i - 1 <? 0 then Z.lxor (2 * i - 1) (-1) else 2 * i - 1) = ue_of_se i) as ->.
    { unfold ue_of_se. rewrite Z.lxor_m1_r. unfold Z.lnot.
      destruct (Z.ltb_spec (2 * i - 1) 0), (Z.ltb_spec 0 i); lia. }
    apply set_ue_golomb_ok; [|done|done]. unfold ue_of_se. destruct (Z.ltb_spec 0 i); lia.
  - intros i s Hi Hr Hs. rewrite zlen_ue_code by apply se_ue_inverse.
    apply (get_se_value true); [unfold room in *; lia|done|done].
Defined.

(** C33: write/read round trip of the unsigned codes: a list of values up to
    the documented limit 2^16 - 2 of [set_ue_golomb], put one after the other,
    flushed, and padded as NAL buffers are, is read back by
    [get_ue_golomb_long]. *)
Theorem ue_golomb_roundtrip l buffer :
  Forall (fun i => 0 ≤ i ≤ 2 ^ 16 - 2) l →
  zlen (concat (map ue_code l)) + 32 ≤ 8 * zlen buffer → zlen buffer < 2 ^ 27 →
  ∃ s g, (put_seq set_ue_golomb l;; flush_put_bits) (init_put_bits buffer (zlen buffer)) = Ok tt s ∧
    get_seq get_ue_golomb_long (length l) (reader_of s) = Ok l g.
Proof. exact (@codec_roundtrip _ _ ue_long_codec l buffer). Qed.

Lemma ue_golomb_roundtrip_witness :
  let l := [0; 7; 255; 256; 65534; 3] in
  ∃ s g, (put_seq set_ue_golomb l;; flush_put_bits) (init_put_bits (replicate 32 170) 32) = Ok tt s ∧
    get_seq get_ue_golomb_long 6 (reader_of s) = Ok l g.
Proof.
  apply (ue_golomb_roundtrip [0; 7; 255; 256; 65534; 3] (replicate 32 170));
    [repeat constructor; lia|vm_compute; discriminate|vm_compute; done].
Defined.

(** the same for the signed codes, [set_se_golomb] and [get_se_golomb]
    with a signed [char]. *)
Theorem se_golomb_roundtrip l buffer :
  Forall (fun i => -4095 ≤ i ≤ 4095) l →
  zlen (concat (map (fun i => ue_code (ue_of_se i)) l)) + 32 ≤ 8 * zlen buffer →
  zlen buffer < 2 ^ 27 →
  ∃ s g, (put_seq set_se_golomb l;; flush_put_bits) (init_put_bits buffer (zlen buffer)) = Ok tt s ∧
    get_seq (get_se_golomb true) (length l) (reader_of s) = Ok l g.
Proof. exact (@codec_roundtrip _ _ se_codec l buffer). Qed.

Lemma se_golomb_roundtrip_witness :
  let l := [0; -1; 1; -4095; 4095; -16] in
  ∃ s g, (put_seq set_se_golomb l;; flush_put_bits) (init_put_bits (replicate 32 170) 32) = Ok tt s ∧
    get_seq (get_se_golomb true) 6 (reader_of s) = Ok l g.
Proof.
  apply (se_golomb_roundtrip [0; -1; 1; -4095; 4095; -16] (replicate 32 170));
    [repeat constructor; lia|vm_compute; discriminate|vm_compute; done].
Defined.

(** ** Totality of the readers *)

Lemma av_log2_u32 v : 0 ≤ v < 2 ^ 32 → 0 ≤ av_log2 v ≤ 31.
Proof.
  intros Hv. destruct (Z.eq_dec v 0) as [->|]; [vm_compute; split; congruence|].
  rewrite av_log2_spec by lia. split; [apply Z.log2_nonneg|].
  apply (Z.log2_le_mono v (2 ^ 32 - 1)). lia.
Qed.

Lemma get_ue_golomb_long_total : consumes get_ue_golomb_long 63 0 (2 ^ 32).
Proof.
  intros s Hr. unfold get_ue_golomb_long, mbind, G_bind, M_bind.
  change (show_bits_long 32) with (show_bits 32).
  rewrite show_bits_spec by (try (unfold room in *; lia); lia).
  pose proof (bval_take_range (cache_bits s) 32 ltac:(lia)) as Hc.
  set (buf := bval (take (Z.to_nat 32) (cache_bits s))) in *.
  pose proof (av_log2_u32 buf Hc). rewrite u32_id by lia.
  unfold skip_bits_long, modify. rewrite s32_id by (unfold room in Hr; lia).
  fold (advance s (31 - av_log2 buf)).
  destruct (get_bits_long_total (31 - av_log2 buf + 1) ltac:(lia) (advance s (31 - av_log2 buf)))
    as (v & n & -> & Hn & Hv).
  { unfold room, advance in *. cbn. lia. }
  rewrite advance_advance. eexists _, _. split; [reflexivity|]. split; [lia|apply u32_range].
Qed.

Lemma as_char_range cs v : -128 ≤ as_char cs v < 256.
Proof.
  unfold as_char, s8, u8. pose proof (Z.mod_pos_bound (v + 2 ^ 7) (2 ^ 8)).
  pose proof (Z.mod_pos_bound v (2 ^ 8)). destruct cs; cbn in *; lia.
Qed.

Lemma golomb_vlc_len_range i : 0 ≤ tab ff_golomb_vlc_len i ≤ 19.
Proof.
  unfold tab. assert (Forall (fun x => 0 ≤ x ≤ 19) ff_golomb_vlc_len) as Hf.
  { apply (bool_decide_unpack _). vm_compute. done. }
  destruct (nth_in_or_default (Z.to_nat i) ff_golomb_vlc_len 0) as [Hin| ->]; [|lia].
  rewrite Forall_forall in Hf. by apply Hf.
Qed.

Lemma get_se_golomb_total cs : consumes (get_se_golomb cs) 63 (- 2 ^ 31) (2 ^ 31).
Proof.
  intros s Hr. assert (room s 0) as Hr0 by (unfold room in *; lia).
  unfold get_se_golomb, mbind, G_bind, M_bind. rewrite open_cache_spec by done.
  pose proof (bval_range (cache_bits s)) as Hc. unfold zlen in Hc.
  rewrite length_cache_bits in Hc by done. change (2 ^ Z.of_nat 32) with (2 ^ 32) in Hc.
  set (buf := bval (cache_bits s)) in *. destruct (buf >=? Z.shiftl 1 27).
  - pose proof (golomb_vlc_len_range (Z.shiftr buf (32 - 9))).
    rewrite close_room by (auto; lia). eexists _, _. split; [reflexivity|]. split; [lia|].
    pose proof (as_char_range cs (tab ff_se_golomb_vlc_code (Z.shiftr buf (32 - 9)))). lia.
  - pose proof (av_log2_u32 buf Hc). rewrite close_room by (auto; lia).
    assert (room (advance s (31 - av_log2 buf)) 32) as Hr1 by (unfold room, advance in *; cbn; lia).
    rewrite open_cache_spec by (unfold room in *; lia).
    rewrite close_room by (try (unfold room in *; lia); lia). rewrite advance_advance.
    eexists _, _. split; [reflexivity|]. split; [lia|]. apply s32_range.
Qed.
