(* ===== verification/Parse.v ===== *)
(** Parsing functions: computations on a bit reader and the structure they
    fill in, and the proof rules for them.

    [Reads m N lo hi] is what the parsers rely on of a bit reader: it needs
    [N] bits (and a word) of memory, never fails there, and its value lies in
    [lo, hi).  The rules are generic in [U] (see [wp]): with [U := True] they
    prove what holds whenever a parser returns, with [U := False] and enough
    memory ([Avail]) that it never reaches undefined behaviour. *)

From stdpp Require Import base list numbers.
From Stdlib Require Import ZArith Lia Bool.
From S2P Require Import Prelude.
From S2P Require Import Bits.
From S2P Require Import CommonUtils.
From S2P Require Import GetBits.
From S2P Require Import PutBits.
From S2P Require Import Golomb.

#[local] Open Scope Z_scope.

(** ** Parsing state

    A parsing function works on the bit reader and on the structure its
    second argument points to. *)

Definition P (T A : Type) : Type := M (get_bits_context * T) A.

#[export] Instance P_ret T : MRet (P T) := M_ret (get_bits_context * T).
#[export] Instance P_bind T : MBind (P T) := M_bind (get_bits_context * T).

Section Parsing.
Context {T : Type}.

(** A call of a bit reader. *)
Definition gbm {A} (m : G A) : P T A := zoom fst (fun g s => (g, s.2)) m.

(** The structure. *)
Definition look {A} (f : T → A) : P T A := gets (fun s => f s.2).

Definition upd (f : T → T) : P T unit := modify (fun s => (s.1, f s.2)).

(** [t->p = v;] *)
Definition setf {A} (p : T → A) `{!Setter p} (v : A) : P T unit :=
  upd (fun r => r <| p := v |>).

(** [t->p = reader(gb);] for a member of type [u8], [int] and [u32]. *)
Definition read8 (p : T → Z) `{!Setter p} (m : G Z) : P T unit :=
  v ← gbm m; setf p (u8 v).

Definition readi (p : T → Z) `{!Setter p} (m : G Z) : P T unit :=
  v ← gbm m; setf p (s32 v).

Definition readu (p : T → Z) `{!Setter p} (m : G Z) : P T unit :=
  v ← gbm m; setf p (u32 v).

(** [t->p[i]] and [t->p[i] = v;] *)
Definition at_ {A} (p : T → list A) (i : Z) : P T A :=
  l ← look p; of_option (aget l i).

Definition set_at {A} (p : T → list A) `{!Setter p} (i : Z) (v : A) : P T unit :=
  l ← look p; l' ← of_option (aset l i v); setf p l'.

(** A call with [&t->p] and with [&t->p[i]]. *)
Definition sub {B A} (p : T → B) `{!Setter p} (m : P B A) : P T A :=
  zoom (fun s => (s.1, p s.2)) (fun t s => (t.1, s.2 <| p := t.2 |>)) m.

Definition sub_at {B A} (p : T → list B) `{!Setter p} (i : Z) (m : P B A) : P T A :=
  fun s =>
    match aget (p s.2) i with
    | None => Undef
    | Some e =>
        let put (t : get_bits_context * B) := (t.1, s.2 <| p := <[Z.to_nat i := t.2]> (p s.2) |>) in
        match m (s.1, e) with
        | Ok a t => Ok a (put t)
        | Err c t => Err c (put t)
        | Undef => Undef
        end
    end.
End Parsing.

(** ** Bit readers, as the parsers see them *)

Class Reads (m : G Z) (N lo hi : Z) : Prop := {
  reads_room : 0 ≤ N;
  reads_total : consumes m N lo hi;
  reads_range : ∀ s, match m s with Ok v _ => lo ≤ v < hi | Err _ _ => False | Undef => True end
}.

Lemma shiftr_lt a n k : 0 ≤ a < 2 ^ n → 0 ≤ k ≤ n → 0 ≤ Z.shiftr a k < 2 ^ (n - k).
Proof.
  intros Ha Hk. rewrite Z.shiftr_div_pow2 by lia. pose proof (Z.pow_pos_nonneg 2 k).
  split; [apply Z.div_pos; lia|]. apply Z.div_lt_upper_bound; [lia|].
  rewrite <- Z.pow_add_r by lia. replace (k + (n - k)) with n by lia. lia.
Qed.

Lemma open_cache_cases s :
  (∃ c, open_cache s = Ok c s ∧ 0 ≤ c < 2 ^ 32) ∨ open_cache s = Undef.
Proof.
  unfold open_cache, mbind, G_bind, M_bind, get, UPDATE_CACHE_BE.
  destruct (AV_RB32 _ _) as [w|]; [left|by right].
  eexists. split; [reflexivity|]. apply u32_range.
Qed.

Lemma NEG_USR32_lt c n : 1 ≤ n ≤ 32 → ∃ v, NEG_USR32 c n = Some v ∧ 0 ≤ v < 2 ^ n.
Proof.
  intros Hn. unfold NEG_USR32.
  replace (if n <? 32 then 32 - n else 0) with (32 - n) by (destruct (Z.ltb_spec n 32); lia).
  rewrite (proj2 (Z.leb_le 0 _)), (proj2 (Z.ltb_lt _ 32)) by lia. eexists. split; [reflexivity|].
  pose proof (shiftr_lt (u32 c) 32 (32 - n) (u32_range c) ltac:(lia)) as Hs.
  replace (32 - (32 - n)) with n in Hs by lia. done.
Qed.

Lemma reads_get_bits n : 1 ≤ n ≤ 32 → Reads (get_bits n) n 0 (2 ^ n).
Proof.
  intros Hn. split; [lia|by apply get_bits_total|]. intros s.
  unfold get_bits, mbind, G_bind, M_bind.
  destruct (open_cache_cases s) as [(c & -> & Hc)| ->]; [|done].
  by destruct (NEG_USR32_lt c n Hn) as (v & -> & Hv).
Qed.

#[export] Instance reads_get_bits1 : Reads get_bits1 1 0 2.
Proof.
  split; [lia|apply get_bits1_total|]. intros s.
  unfold get_bits1, mbind, G_bind, M_bind, get.
  destruct (byte_at (buffer s) (Z.shiftr (u32 (index s)) 3)) as [r|]; [|done].
  cbn -[u8 u32 s32 Z.shiftr Z.land Z.shiftl].
  pose proof (shiftr_lt (u8 (Z.shiftl r (Z.land (u32 (index s)) 7))) 8 7) as Hs.
  change (2 ^ 8) with 256 in Hs. specialize (Hs (u8_range _) ltac:(lia)). exact Hs.
Qed.

Lemma reads_get_bits_long n : 0 ≤ n ≤ 32 → Reads (get_bits_long n) n 0 (2 ^ n).
Proof.
  intros Hn. split; [lia|by apply get_bits_long_total|]. intros s. unfold get_bits_long.
  destruct (Z.eqb_spec n 0) as [->|]; [cbn; lia|].
  rewrite (proj2 (Z.leb_le n _)) by (unfold MIN_CACHE_BITS; lia).
  apply (reads_range (Reads := reads_get_bits n ltac:(lia))).
Qed.

#[export] Instance reads_ue_long : Reads get_ue_golomb_long 63 0 (2 ^ 32).
Proof.
  split; [lia|apply get_ue_golomb_long_total|]. intros s.
  unfold get_ue_golomb_long, mbind, G_bind, M_bind.
  change (show_bits_long 32) with (show_bits 32). unfold show_bits, mbind, G_bind, M_bind.
  destruct (open_cache_cases s) as [(c & -> & Hc)| ->]; [|done].
  destruct (NEG_USR32_lt c 32 ltac:(lia)) as (v & -> & Hv). cbn -[u32 s32 av_log2 get_bits_long].
  pose proof (av_log2_u32 v Hv). rewrite (u32_id (31 - _)) by lia.
  set (s' := _ <| index := _ |>).
  pose proof (reads_range (Reads := reads_get_bits_long (31 - av_log2 v + 1) ltac:(lia)) s') as Hr.
  destruct (get_bits_long _ s'); [|done..]. apply u32_range.
Qed.

#[export] Instance reads_se cs : Reads (get_se_golomb cs) 63 (- 2 ^ 31) (2 ^ 31).
Proof.
  split; [lia|apply get_se_golomb_total|]. intros s.
  unfold get_se_golomb, mbind, G_bind, M_bind.
  destruct (open_cache_cases s) as [(c & -> & Hc)| ->]; [|done].
  destruct (c >=? Z.shiftl 1 27).
  - cbn -[tab Z.shiftr as_char s32 u32].
    pose proof (as_char_range cs (tab ff_se_golomb_vlc_code (Z.shiftr c (32 - 9)))). cbn in *. lia.
  - cbn -[open_cache av_log2 s32 u32 Z.shiftr Z.land Z.lxor].
    set (s' := _ <| index := _ |>).
    destruct (open_cache_cases s') as [(c' & -> & Hc')| ->]; [|done].
    cbn -[av_log2 s32 u32 Z.shiftr Z.land Z.lxor]. apply s32_range.
Qed.

#[export] Hint Extern 1 (Reads (get_bits _) _ _ _) =>
  apply reads_get_bits; lia : typeclass_instances.
#[export] Hint Extern 1 (Reads (get_bits_long _) _ _ _) =>
  apply reads_get_bits_long; lia : typeclass_instances.

(** [Avail U g n]: [n] bits (and a word) may be read from [g], unless
    undefined behaviour is not at issue. *)
Definition Avail (U : Prop) (g : get_bits_context) (n : Z) : Prop := U ∨ room g n.

Lemma avail_le U g n m : m ≤ n → Avail U g n → Avail U g m.
Proof. intros H [?|?]; [by left|right]. by eapply room_le. Qed.

Lemma avail_true g n : Avail True g n.
Proof. by left. Qed.

Section Rules.
Context {U : Prop} {T : Type}.
Implicit Types (g : get_bits_context).

Lemma wp_gbm (m : G Z) N lo hi `{!Reads m N lo hi} R (Q : Z → get_bits_context * T → Prop) E s :
  0 ≤ R → Avail U s.1 (N + R) →
  (∀ v g', Avail U g' R → lo ≤ v < hi → Q v (g', s.2)) →
  wp U (gbm m) Q E s.
Proof.
  intros HR [HU|Hr] HQ; unfold wp, gbm, zoom.
  - pose proof (reads_range (m := m) s.1) as Hv. destruct (m s.1); [|done..].
    apply HQ; [by left|done].
  - destruct (reads_total (m := m) s.1) as (v & n & -> & Hn & Hv).
    { eapply room_le; [|done]. lia. }
    apply HQ; [|done]. right. by eapply room_adv.
Qed.

Lemma wp_skip n R (Q : unit → get_bits_context * T → Prop) E s :
  0 ≤ R → 0 ≤ n → Avail U s.1 (n + R) →
  (∀ g', Avail U g' R → Q tt (g', s.2)) → wp U (gbm (skip_bits n)) Q E s.
Proof.
  intros HR Hn Hav HQ. unfold wp, gbm, zoom. destruct (skip_bits n s.1) eqn:Hs; [|done..].
  destruct a. apply HQ. destruct Hav as [|Hr]; [by left|right].
  destruct (skip_bits_total n s.1 R Hn Hr HR) as (s' & Hs' & Hr'). congruence.
Qed.

Lemma wp_left (Q : Z → get_bits_context * T → Prop) E s :
  (∀ l, Q l s) → wp U (gbm get_bits_left) Q E s.
Proof. intros HQ. destruct s. apply HQ. Qed.

Lemma wp_look {A} (f : T → A) (Q : A → get_bits_context * T → Prop) E s :
  Q (f s.2) s → wp U (look f) Q E s.
Proof. done. Qed.

Lemma wp_setf {A} (p : T → A) `{!Setter p} v (Q : unit → get_bits_context * T → Prop) E s :
  Q tt (s.1, s.2 <| p := v |>) → wp U (setf p v) Q E s.
Proof. done. Qed.

Lemma wp_at {A} (p : T → list A) i (Q : A → get_bits_context * T → Prop) E s :
  U ∨ 0 ≤ i < zlen (p s.2) → (∀ a, aget (p s.2) i = Some a → Q a s) → wp U (at_ p i) Q E s.
Proof.
  intros Hi HQ. apply wp_bind, wp_look, wp_of_option; [done|].
  intros Hn%aget_None. destruct Hi; [done|lia].
Qed.

Lemma wp_set_at {A} (p : T → list A) `{!Setter p} i v (Q : unit → get_bits_context * T → Prop) E s :
  U ∨ 0 ≤ i < zlen (p s.2) →
  (0 ≤ i < zlen (p s.2) → Q tt (s.1, s.2 <| p := <[Z.to_nat i := v]> (p s.2) |>)) →
  wp U (set_at p i v) Q E s.
Proof.
  intros Hi HQ. apply wp_bind, wp_look, wp_bind, wp_of_option.
  - intros l' [Hr ->]%aset_inv. apply wp_setf. by apply HQ.
  - intros Hn%aset_None. destruct Hi; [done|lia].
Qed.

Lemma wp_sub {B A} (p : T → B) `{!Setter p} (m : P B A) (Q : A → get_bits_context * T → Prop) E s :
  wp U m (fun a t => Q a (t.1, s.2 <| p := t.2 |>)) (fun e t => E e (t.1, s.2 <| p := t.2 |>))
    (s.1, p s.2) →
  wp U (sub p m) Q E s.
Proof. unfold wp, sub, zoom. by destruct (m (s.1, p s.2)). Qed.

Lemma wp_sub_at {B A} (p : T → list B) `{!Setter p} i (m : P B A)
    (Q : A → get_bits_context * T → Prop) E s :
  U ∨ 0 ≤ i < zlen (p s.2) →
  (∀ b, aget (p s.2) i = Some b →
    wp U m (fun a t => Q a (t.1, s.2 <| p := <[Z.to_nat i := t.2]> (p s.2) |>))
           (fun e t => E e (t.1, s.2 <| p := <[Z.to_nat i := t.2]> (p s.2) |>)) (s.1, b)) →
  wp U (sub_at p i m) Q E s.
Proof.
  intros Hi HQ. unfold sub_at, wp. destruct (aget (p s.2) i) as [b|] eqn:Hb.
  - specialize (HQ b eq_refl). unfold wp in HQ. by destruct (m (s.1, b)).
  - apply aget_None in Hb. destruct Hi; [done|lia].
Qed.

Lemma wp_read8 p `{!Setter p} (m : G Z) N lo hi `{!Reads m N lo hi} R
    (Q : unit → get_bits_context * T → Prop) E s :
  0 ≤ R → Avail U s.1 (N + R) →
  (∀ v g', Avail U g' R → lo ≤ v < hi → Q tt (g', s.2 <| p := u8 v |>)) →
  wp U (read8 p m) Q E s.
Proof. intros HR Ha HQ. apply wp_bind. eapply wp_gbm; [done..|]. intros. apply wp_setf. by apply HQ. Qed.

Lemma wp_readi p `{!Setter p} (m : G Z) N lo hi `{!Reads m N lo hi} R
    (Q : unit → get_bits_context * T → Prop) E s :
  0 ≤ R → Avail U s.1 (N + R) →
  (∀ v g', Avail U g' R → lo ≤ v < hi → Q tt (g', s.2 <| p := s32 v |>)) →
  wp U (readi p m) Q E s.
Proof. intros HR Ha HQ. apply wp_bind. eapply wp_gbm; [done..|]. intros. apply wp_setf. by apply HQ. Qed.

Lemma wp_readu p `{!Setter p} (m : G Z) N lo hi `{!Reads m N lo hi} R
    (Q : unit → get_bits_context * T → Prop) E s :
  0 ≤ R → Avail U s.1 (N + R) →
  (∀ v g', Avail U g' R → lo ≤ v < hi → Q tt (g', s.2 <| p := u32 v |>)) →
  wp U (readu p m) Q E s.
Proof. intros HR Ha HQ. apply wp_bind. eapply wp_gbm; [done..|]. intros. apply wp_setf. by apply HQ. Qed.
End Rules.

(** One step of a parser whose remaining budget after a read is [R]. *)
Ltac parse_step R :=
  lazymatch goal with
  | |- wp _ (mbind _ _) _ _ _ => apply wp_bind
  | |- wp _ (gbm (skip_bits _)) _ _ _ => apply (wp_skip _ R); [try lia|try lia| |intros ? ?]
  | |- wp _ (gbm skip_bits1) _ _ _ => apply (wp_skip 1 R); [try lia|try lia| |intros ? ?]
  | |- wp _ (gbm get_bits_left) _ _ _ => apply wp_left; intros ?
  | |- wp _ (gbm _) _ _ _ => eapply (wp_gbm _ _ _ _ R); [try lia| |intros ? ? ? ?]
  | |- wp _ (read8 _ _) _ _ _ => eapply (wp_read8 _ _ _ _ _ R); [try lia| |intros ? ? ? ?]
  | |- wp _ (readi _ _) _ _ _ => eapply (wp_readi _ _ _ _ _ R); [try lia| |intros ? ? ? ?]
  | |- wp _ (readu _ _) _ _ _ => eapply (wp_readu _ _ _ _ _ R); [try lia| |intros ? ? ? ?]
  | |- wp _ (look _) _ _ _ => apply wp_look
  | |- wp _ (setf _ _) _ _ _ => apply wp_setf
  | |- wp _ (at_ _ _) _ _ _ => apply wp_at; [|intros ? ?]
  | |- wp _ (set_at _ _ _) _ _ _ => apply wp_set_at; [|intros ?]
  | |- wp _ (sub _ _) _ _ _ => apply wp_sub
  | |- wp _ (sub_at _ _ _) _ _ _ => apply wp_sub_at; [|intros ? ?]
  | |- wp _ _ _ _ _ => wp_step
  end; cbn [fst snd] in *.
