(* ===== verification/HevcTypes.v ===== *)
(** The parameter-set structures of the HEVC header parser
    (src/drivers/amvdec_ports/decoder/aml_hevc_parser.h): one record per C
    structure, a field per member in the order of the source, the names kept
    (a prefix distinguishes members of the same name).  Integers are [Z] in
    the range of their C type, arrays are lists; [init_*] is the zeroed
    structure. *)

From stdpp Require Import base list numbers.
From Stdlib Require Import ZArith Lia Bool.
From S2P Require Import Prelude.

#[local] Open Scope Z_scope.

(** ** Limits *)

Definition HEVC_MAX_VPS_COUNT : Z := 16.
Definition HEVC_MAX_SPS_COUNT : Z := 16.
Definition HEVC_MAX_SUB_LAYERS : Z := 7.
Definition HEVC_MAX_DPB_SIZE : Z := 16.
Definition HEVC_MAX_REFS : Z := HEVC_MAX_DPB_SIZE.
Definition HEVC_MAX_SHORT_TERM_REF_PIC_SETS : Z := 64.
Definition HEVC_MAX_LONG_TERM_REF_PICS : Z := 32.
Definition HEVC_MAX_LOG2_CTB_SIZE : Z := 6.

(** ** Structures *)

(** [struct ShortTermRPS]; [used] is a byte per entry. *)
Record ShortTermRPS := mk_strps {
  num_negative_pics : Z;
  num_delta_pocs : Z;
  rps_idx_num_delta_pocs : Z;
  delta_poc : list Z;
  used : list Z
}.

#[export] Instance eta_ShortTermRPS : Settable ShortTermRPS := fun r =>
  mk_strps
    (num_negative_pics r) (num_delta_pocs r) (rps_idx_num_delta_pocs r) (delta_poc r)
    (used r).

Definition init_ShortTermRPS : ShortTermRPS :=
  mk_strps
    0 0 0 (replicate 32 0) (replicate 32 0).

(** [struct HEVCWindow] *)
Record HEVCWindow := mk_window {
  left_offset : Z;
  right_offset : Z;
  top_offset : Z;
  bottom_offset : Z
}.

#[export] Instance eta_HEVCWindow : Settable HEVCWindow := fun r =>
  mk_window
    (left_offset r) (right_offset r) (top_offset r) (bottom_offset r).

Definition init_HEVCWindow : HEVCWindow :=
  mk_window
    0 0 0 0.

(** [struct AVRational] *)
Record AVRational := mk_rational {
  num : Z;
  den : Z
}.

#[export] Instance eta_AVRational : Settable AVRational := fun r =>
  mk_rational
    (num r) (den r).

Definition init_AVRational : AVRational :=
  mk_rational
    0 0.

(** [struct VUI] *)
Record VUI := mk_vui {
  sar : AVRational;
  overscan_info_present_flag : Z;
  overscan_appropriate_flag : Z;
  video_signal_type_present_flag : Z;
  video_format : Z;
  video_full_range_flag : Z;
  colour_description_present_flag : Z;
  colour_primaries : Z;
  transfer_characteristic : Z;
  matrix_coeffs : Z;
  chroma_loc_info_present_flag : Z;
  chroma_sample_loc_type_top_field : Z;
  chroma_sample_loc_type_bottom_field : Z;
  neutra_chroma_indication_flag : Z;
  field_seq_flag : Z;
  frame_field_info_present_flag : Z;
  default_display_window_flag : Z;
  def_disp_win : HEVCWindow;
  vui_timing_info_present_flag : Z;
  vui_num_units_in_tick : Z;
  vui_time_scale : Z;
  vui_poc_proportional_to_timing_flag : Z;
  vui_num_ticks_poc_diff_one_minus1 : Z;
  vui_hrd_parameters_present_flag : Z;
  bitstream_restriction_flag : Z;
  tiles_fixed_structure_flag : Z;
  motion_vectors_over_pic_boundaries_flag : Z;
  restricted_ref_pic_lists_flag : Z;
  min_spatial_segmentation_idc : Z;
  max_bytes_per_pic_denom : Z;
  max_bits_per_min_cu_denom : Z;
  log2_max_mv_length_horizontal : Z;
  log2_max_mv_length_vertical : Z
}.

#[export] Instance eta_VUI : Settable VUI := fun r =>
  mk_vui
    (sar r) (overscan_info_present_flag r) (overscan_appropriate_flag r)
    (video_signal_type_present_flag r) (video_format r) (video_full_range_flag r)
    (colour_description_present_flag r) (colour_primaries r)
    (transfer_characteristic r) (matrix_coeffs r) (chroma_loc_info_present_flag r)
    (chroma_sample_loc_type_top_field r) (chroma_sample_loc_type_bottom_field r)
    (neutra_chroma_indication_flag r) (field_seq_flag r)
    (frame_field_info_present_flag r) (default_display_window_flag r) (def_disp_win r)
    (vui_timing_info_present_flag r) (vui_num_units_in_tick r) (vui_time_scale r)
    (vui_poc_proportional_to_timing_flag r) (vui_num_ticks_poc_diff_one_minus1 r)
    (vui_hrd_parameters_present_flag r) (bitstream_restriction_flag r)
    (tiles_fixed_structure_flag r) (motion_vectors_over_pic_boundaries_flag r)
    (restricted_ref_pic_lists_flag r) (min_spatial_segmentation_idc r)
    (max_bytes_per_pic_denom r) (max_bits_per_min_cu_denom r)
    (log2_max_mv_length_horizontal r) (log2_max_mv_length_vertical r).

Definition init_VUI : VUI :=
  mk_vui
    init_AVRational 0 0 0 0 0 0 0 0 0 0 0 0 0 0 0 0 init_HEVCWindow 0 0 0 0 0 0 0 0 0 0
    0 0 0 0 0.

(** [struct PTLCommon] *)
Record PTLCommon := mk_ptlc {
  profile_space : Z;
  tier_flag : Z;
  profile_idc : Z;
  profile_compatibility_flag : list Z;
  level_idc : Z;
  progressive_source_flag : Z;
  interlaced_source_flag : Z;
  non_packed_constraint_flag : Z;
  frame_only_constraint_flag : Z
}.

#[export] Instance eta_PTLCommon : Settable PTLCommon := fun r =>
  mk_ptlc
    (profile_space r) (tier_flag r) (profile_idc r) (profile_compatibility_flag r)
    (level_idc r) (progressive_source_flag r) (interlaced_source_flag r)
    (non_packed_constraint_flag r) (frame_only_constraint_flag r).

Definition init_PTLCommon : PTLCommon :=
  mk_ptlc
    0 0 0 (replicate 32 0) 0 0 0 0 0.

(** [struct PTL] *)
Record PTL := mk_ptl {
  general_ptl : PTLCommon;
  sub_layer_ptl : list PTLCommon;
  sub_layer_profile_present_flag : list Z;
  sub_layer_level_present_flag : list Z
}.

#[export] Instance eta_PTL : Settable PTL := fun r =>
  mk_ptl
    (general_ptl r) (sub_layer_ptl r) (sub_layer_profile_present_flag r)
    (sub_layer_level_present_flag r).

Definition init_PTL : PTL :=
  mk_ptl
    init_PTLCommon (replicate 7 init_PTLCommon) (replicate 7 0) (replicate 7 0).

(** [struct h265_VPS_t] *)
Record h265_VPS_t := mk_vps {
  vps_temporal_id_nesting_flag : Z;
  vps_max_layers : Z;
  vps_max_sub_layers : Z;
  vps_ptl : PTL;
  vps_sub_layer_ordering_info_present_flag : Z;
  vps_max_dec_pic_buffering : list Z;
  vps_num_reorder_pics : list Z;
  vps_max_latency_increase : list Z;
  vps_max_layer_id : Z;
  vps_num_layer_sets : Z;
  vps_timing_info_present_flag : Z;
  vps_num_units_in_tick : Z;
  vps_time_scale : Z;
  vps_poc_proportional_to_timing_flag : Z;
  vps_num_ticks_poc_diff_one : Z;
  vps_num_hrd_parameters : Z
}.

#[export] Instance eta_h265_VPS_t : Settable h265_VPS_t := fun r =>
  mk_vps
    (vps_temporal_id_nesting_flag r) (vps_max_layers r) (vps_max_sub_layers r)
    (vps_ptl r) (vps_sub_layer_ordering_info_present_flag r)
    (vps_max_dec_pic_buffering r) (vps_num_reorder_pics r) (vps_max_latency_increase r)
    (vps_max_layer_id r) (vps_num_layer_sets r) (vps_timing_info_present_flag r)
    (vps_num_units_in_tick r) (vps_time_scale r)
    (vps_poc_proportional_to_timing_flag r) (vps_num_ticks_poc_diff_one r)
    (vps_num_hrd_parameters r).

Definition init_h265_VPS_t : h265_VPS_t :=
  mk_vps
    0 0 0 init_PTL 0 (replicate 7 0) (replicate 7 0) (replicate 7 0) 0 0 0 0 0 0 0 0.

(** [struct ScalingList] *)
Record ScalingList := mk_sl {
  sl : list (list (list Z));
  sl_dc : list (list Z)
}.

#[export] Instance eta_ScalingList : Settable ScalingList := fun r =>
  mk_sl
    (sl r) (sl_dc r).

Definition init_ScalingList : ScalingList :=
  mk_sl
    (replicate 4 (replicate 6 (replicate 64 0))) (replicate 2 (replicate 6 0)).

(** The anonymous structure of [temporal_layer]. *)
Record TemporalLayer := mk_tl {
  max_dec_pic_buffering : Z;
  num_reorder_pics : Z;
  max_latency_increase : Z
}.

#[export] Instance eta_TemporalLayer : Settable TemporalLayer := fun r =>
  mk_tl
    (max_dec_pic_buffering r) (num_reorder_pics r) (max_latency_increase r).

Definition init_TemporalLayer : TemporalLayer :=
  mk_tl
    0 0 0.

(** The anonymous structure [pcm]. *)
Record PCM := mk_pcm {
  pcm_bit_depth : Z;
  pcm_bit_depth_chroma : Z;
  log2_min_pcm_cb_size : Z;
  log2_max_pcm_cb_size : Z;
  loop_filter_disable_flag : Z
}.

#[export] Instance eta_PCM : Settable PCM := fun r =>
  mk_pcm
    (pcm_bit_depth r) (pcm_bit_depth_chroma r) (log2_min_pcm_cb_size r)
    (log2_max_pcm_cb_size r) (loop_filter_disable_flag r).

Definition init_PCM : PCM :=
  mk_pcm
    0 0 0 0 0.

(** [struct h265_SPS_t]; the members [data] and [data_size] are not used by the
    parser. *)
Record h265_SPS_t := mk_sps {
  vps_id : Z;
  sps_id : Z;
  chroma_format_idc : Z;
  separate_colour_plane_flag : Z;
  output_window : HEVCWindow;
  pic_conf_win : HEVCWindow;
  bit_depth : Z;
  bit_depth_chroma : Z;
  pixel_shift : Z;
  pix_fmt : Z;
  log2_max_poc_lsb : Z;
  pcm_enabled_flag : Z;
  max_sub_layers : Z;
  temporal_layer : list TemporalLayer;
  temporal_id_nesting_flag : Z;
  vui : VUI;
  ptl : PTL;
  scaling_list_enable_flag : Z;
  scaling_list : ScalingList;
  nb_st_rps : Z;
  st_rps : list ShortTermRPS;
  amp_enabled_flag : Z;
  sao_enabled : Z;
  long_term_ref_pics_present_flag : Z;
  lt_ref_pic_poc_lsb_sps : list Z;
  used_by_curr_pic_lt_sps_flag : list Z;
  num_long_term_ref_pics_sps : Z;
  pcm : PCM;
  sps_temporal_mvp_enabled_flag : Z;
  sps_strong_intra_smoothing_enable_flag : Z;
  log2_min_cb_size : Z;
  log2_diff_max_min_coding_block_size : Z;
  log2_min_tb_size : Z;
  log2_max_trafo_size : Z;
  log2_ctb_size : Z;
  log2_min_pu_size : Z;
  max_transform_hierarchy_depth_inter : Z;
  max_transform_hierarchy_depth_intra : Z;
  sps_range_extension_flag : Z;
  transform_skip_rotation_enabled_flag : Z;
  transform_skip_context_enabled_flag : Z;
  implicit_rdpcm_enabled_flag : Z;
  explicit_rdpcm_enabled_flag : Z;
  extended_precision_processing_flag : Z;
  intra_smoothing_disabled_flag : Z;
  high_precision_offsets_enabled_flag : Z;
  persistent_rice_adaptation_enabled_flag : Z;
  cabac_bypass_alignment_enabled_flag : Z;
  width : Z;
  height : Z;
  ctb_width : Z;
  ctb_height : Z;
  ctb_size : Z;
  min_cb_width : Z;
  min_cb_height : Z;
  min_tb_width : Z;
  min_tb_height : Z;
  min_pu_width : Z;
  min_pu_height : Z;
  tb_mask : Z;
  hshift : list Z;
  vshift : list Z;
  qp_bd_offset : Z
}.

#[export] Instance eta_h265_SPS_t : Settable h265_SPS_t := fun r =>
  mk_sps
    (vps_id r) (sps_id r) (chroma_format_idc r) (separate_colour_plane_flag r)
    (output_window r) (pic_conf_win r) (bit_depth r) (bit_depth_chroma r)
    (pixel_shift r) (pix_fmt r) (log2_max_poc_lsb r) (pcm_enabled_flag r)
    (max_sub_layers r) (temporal_layer r) (temporal_id_nesting_flag r) (vui r) (ptl r)
    (scaling_list_enable_flag r) (scaling_list r) (nb_st_rps r) (st_rps r)
    (amp_enabled_flag r) (sao_enabled r) (long_term_ref_pics_present_flag r)
    (lt_ref_pic_poc_lsb_sps r) (used_by_curr_pic_lt_sps_flag r)
    (num_long_term_ref_pics_sps r) (pcm r) (sps_temporal_mvp_enabled_flag r)
    (sps_strong_intra_smoothing_enable_flag r) (log2_min_cb_size r)
    (log2_diff_max_min_coding_block_size r) (log2_min_tb_size r)
    (log2_max_trafo_size r) (log2_ctb_size r) (log2_min_pu_size r)
    (max_transform_hierarchy_depth_inter r) (max_transform_hierarchy_depth_intra r)
    (sps_range_extension_flag r) (transform_skip_rotation_enabled_flag r)
    (transform_skip_context_enabled_flag r) (implicit_rdpcm_enabled_flag r)
    (explicit_rdpcm_enabled_flag r) (extended_precision_processing_flag r)
    (intra_smoothing_disabled_flag r) (high_precision_offsets_enabled_flag r)
    (persistent_rice_adaptation_enabled_flag r) (cabac_bypass_alignment_enabled_flag r)
    (width r) (height r) (ctb_width r) (ctb_height r) (ctb_size r) (min_cb_width r)
    (min_cb_height r) (min_tb_width r) (min_tb_height r) (min_pu_width r)
    (min_pu_height r) (tb_mask r) (hshift r) (vshift r) (qp_bd_offset r).

Definition init_h265_SPS_t : h265_SPS_t :=
  mk_sps
    0 0 0 0 init_HEVCWindow init_HEVCWindow 0 0 0 0 0 0 0
    (replicate 7 init_TemporalLayer) 0 init_VUI init_PTL 0 init_ScalingList 0
    (replicate 64 init_ShortTermRPS) 0 0 0 (replicate 32 0) (replicate 32 0) 0 init_PCM
    0 0 0 0 0 0 0 0 0 0 0 0 0 0 0 0 0 0 0 0 0 0 0 0 0 0 0 0 0 0 0 0 (replicate 3 0)
    (replicate 3 0) 0.

(** [struct h265_param_sets] (the members the parser sets). *)
Record h265_param_sets := mk_ps {
  vps_parsed : bool;
  sps_parsed : bool;
  ps_vps : h265_VPS_t;
  ps_sps : h265_SPS_t
}.

#[export] Instance eta_h265_param_sets : Settable h265_param_sets := fun r =>
  mk_ps
    (vps_parsed r) (sps_parsed r) (ps_vps r) (ps_sps r).

Definition init_h265_param_sets : h265_param_sets :=
  mk_ps
    false false init_h265_VPS_t init_h265_SPS_t.

