(* ===== verification/HevcRps.v ===== *)
(** Short-term reference picture sets of HEVC
    ([ff_hevc_decode_short_term_rps] of
    src/drivers/amvdec_ports/decoder/aml_hevc_parser.c).

    The [rps] argument of the C function is either an entry of
    [sps->st_rps] or the set of a slice header.  The state is the reader and
    the set being filled in; [st_rps] and [nb_st_rps] are the members of
    [sps], [idx] is the position of [rps] in [sps->st_rps] ([None] for a
    slice header).  The entry that is written is never one that is read
    ([rps_ridx] is an earlier entry), so the two may be kept apart. *)

From stdpp Require Import base list numbers sorting.
From Stdlib Require Import ZArith Lia Bool.
From S2P Require Import Prelude.
From S2P Require Import GetBits.
From S2P Require Import Golomb.
From S2P Require Import Parse.
From S2P Require Import HevcTypes.

#[local] Open Scope Z_scope.

Definition RPS A := P ShortTermRPS A.

#[export] Instance RPS_ret : MRet RPS := M_ret (get_bits_context * ShortTermRPS).
#[export] Instance RPS_bind : MBind RPS := M_bind (get_bits_context * ShortTermRPS).

(** ARRAY_SIZE(rps->used) *)
Definition RPS_ARRAY_SIZE : Z := 32.

(** The locals of the prediction loop. *)
Record pred_locals := mk_pl { pl_k : Z; pl_k0 : Z; pl_k1 : Z; pl_use_delta_flag : Z }.

(** The body of [for (i = 0; i <= rps_ridx->num_delta_pocs; i++)]. *)
Definition rps_predict_entry (ridx : ShortTermRPS) (delta_rps i : Z) (l : pred_locals)
    : RPS pred_locals :=
  let k := pl_k l in
  b ← gbm get_bits1;
  let u := u8 b in
  set_at used k u;;
  use_delta_flag ←
    (if negb (truth u) then f ← gbm get_bits1; mret (u8 f) else mret (pl_use_delta_flag l));
  if truth u || truth use_delta_flag then
    dp ← (if i <? num_delta_pocs ridx
          then d ← of_option (aget (delta_poc ridx) i); mret (s32 (delta_rps + d))
          else mret delta_rps);
    set_at delta_poc k dp;;
    mret (if dp <? 0 then mk_pl (k + 1) (pl_k0 l + 1) (pl_k1 l) use_delta_flag
          else mk_pl (k + 1) (pl_k0 l) (pl_k1 l + 1) use_delta_flag)
  else mret (mk_pl k (pl_k0 l) (pl_k1 l) use_delta_flag).

(** "sort in increasing order (smallest first)" *)
Definition rps_sort_insert (i : Z) : RPS unit :=
  d ← at_ delta_poc i;
  u ← at_ used i;
  for_down (Z.to_nat i) (fun k =>
    tmp ← at_ delta_poc k;
    when (d <? tmp)
      (set_at delta_poc (k + 1) tmp;;
       uk ← at_ used k; set_at used (k + 1) uk;;
       set_at delta_poc k d;;
       set_at used k u)).

Definition rps_sort : RPS unit :=
  n ← look num_delta_pocs; for_range 1 n rps_sort_insert.

(** "flip the negative values to largest first" *)
Definition rps_flip_step (i k : Z) : RPS Z :=
  d ← at_ delta_poc i;
  u ← at_ used i;
  dk ← at_ delta_poc k; set_at delta_poc i dk;;
  uk ← at_ used k; set_at used i uk;;
  set_at delta_poc k d;;
  set_at used k u;;
  mret (k - 1).

Definition rps_flip : RPS unit :=
  n ← look num_negative_pics;
  fold_range 0 (Z.shiftr n 1) rps_flip_step (n - 1);;
  mret tt.

(** Both, guarded as in the code. *)
Definition rps_order : RPS unit :=
  n ← look num_delta_pocs;
  when (truth n) rps_sort;;
  neg ← look num_negative_pics;
  when (truth (Z.shiftr neg 1)) rps_flip.

(** The reference set the prediction starts from. *)
Definition rps_select_ref (st_rps : list ShortTermRPS) (nb_st_rps : Z) (idx : option Z)
    (is_slice_header : bool) : RPS ShortTermRPS :=
  if is_slice_header then
    v ← gbm get_ue_golomb_long;
    let delta_idx := u32 (v + 1) in
    fail_if (delta_idx >? nb_st_rps) (-1);;
    ridx ← of_option (aget st_rps (nb_st_rps - delta_idx));
    setf rps_idx_num_delta_pocs (num_delta_pocs ridx);;
    mret ridx
  else
    i ← of_option idx;
    of_option (aget st_rps (i - 1)).

(** The [if (rps_predict)] branch. *)
Definition rps_predicted (st_rps : list ShortTermRPS) (nb_st_rps : Z) (idx : option Z)
    (is_slice_header : bool) : RPS unit :=
  ridx ← rps_select_ref st_rps nb_st_rps idx is_slice_header;
  delta_rps_sign ← gbm get_bits1;
  v ← gbm get_ue_golomb_long;
  let abs_delta_rps := u32 (v + 1) in
  fail_if ((abs_delta_rps <? 1) || (abs_delta_rps >? 32768)) (-1);;
  let delta_rps := s32 ((1 - Z.shiftl (u8 delta_rps_sign) 1) * abs_delta_rps) in
  l ← fold_range 0 (num_delta_pocs ridx + 1) (rps_predict_entry ridx delta_rps) (mk_pl 0 0 0 0);
  fail_if (pl_k l >=? RPS_ARRAY_SIZE) (-1);;
  setf num_delta_pocs (pl_k l);;
  setf num_negative_pics (pl_k0 l);;
  rps_order.

(** [delta_poc = get_ue_golomb_long(gb) + 1] and its check. *)
Definition rps_read_delta : RPS Z :=
  v ← gbm get_ue_golomb_long;
  let d := s32 (u32 (v + 1)) in
  fail_if ((d <? 1) || (d >? 32768)) (-1);;
  mret d.

(** The body of the two loops of the explicit branch, entry [at_i]. *)
Definition rps_explicit_entry (sign at_i prev : Z) : RPS Z :=
  d ← rps_read_delta;
  let prev := u32 (prev + sign * d) in
  set_at delta_poc at_i (s32 prev);;
  b ← gbm get_bits1; set_at used at_i (u8 b);;
  mret prev.

Definition rps_explicit : RPS unit :=
  readu num_negative_pics get_ue_golomb_long;;
  nb_positive_pics ← gbm get_ue_golomb_long;
  neg ← look num_negative_pics;
  fail_if ((neg >=? HEVC_MAX_REFS) || (nb_positive_pics >=? HEVC_MAX_REFS)) (-1);;
  setf num_delta_pocs (s32 (u32 (neg + nb_positive_pics)));;
  n ← look num_delta_pocs;
  when (truth n)
    (fold_range 0 neg (fun i => rps_explicit_entry (-1) i) 0;;
     fold_range 0 nb_positive_pics (fun i => rps_explicit_entry 1 (neg + i)) 0;;
     mret tt).

(** [int ff_hevc_decode_short_term_rps(gb, rps, sps, is_slice_header)] *)
Definition ff_hevc_decode_short_term_rps (st_rps : list ShortTermRPS) (nb_st_rps : Z)
    (idx : option Z) (is_slice_header : bool) : RPS Z :=
  call (
    let first := match idx with Some i => i =? 0 | None => false end in
    rps_predict ← (if negb first && truth nb_st_rps
                   then b ← gbm get_bits1; mret (u8 b) else mret 0);
    if truth rps_predict
    then rps_predicted st_rps nb_st_rps idx is_slice_header
    else rps_explicit).

(** ** The order of the entries *)

Definition rps_arrays_ok (r : ShortTermRPS) : Prop :=
  length (delta_poc r) = 32%nat ∧ length (used r) = 32%nat.

Definition rps_negatives (r : ShortTermRPS) : list Z :=
  take (Z.to_nat (num_negative_pics r)) (delta_poc r).

Definition rps_others (r : ShortTermRPS) : list Z :=
  drop (Z.to_nat (num_negative_pics r)) (take (Z.to_nat (num_delta_pocs r)) (delta_poc r)).

(** What the decoder relies on: at most 31 entries; first the negative POC
    differences, closest picture first, then the others in increasing
    order. *)
Record rps_wf (r : ShortTermRPS) : Prop := {
  wf_arrays : rps_arrays_ok r;
  wf_num : 0 ≤ num_negative_pics r ≤ num_delta_pocs r;
  wf_max : num_delta_pocs r ≤ 31;
  wf_negatives : Forall (fun d => d < 0) (rps_negatives r);
  wf_descending : StronglySorted Z.ge (rps_negatives r);
  wf_others : Forall (fun d => 0 ≤ d) (rps_others r);
  wf_ascending : StronglySorted Z.le (rps_others r)
}.

(** The two arrays as one list of pairs. *)
Definition with_pairs (r : ShortTermRPS) (l : list (Z * Z)) : ShortTermRPS :=
  r <| delta_poc := l.*1 |> <| used := l.*2 |>.

Lemma with_pairs_id r : rps_arrays_ok r → with_pairs r (zip (delta_poc r) (used r)) = r.
Proof.
  intros [Hd Hu]. destruct r. unfold with_pairs. cbn in *.
  by rewrite fst_zip, snd_zip by lia.
Qed.

Lemma with_pairs_with_pairs r l l' : with_pairs (with_pairs r l) l' = with_pairs r l'.
Proof. by destruct r. Qed.

Definition pair_le (a b : Z * Z) : Prop := a.1 ≤ b.1.

#[export] Instance pair_le_trans : Transitive pair_le.
Proof. unfold pair_le. intros a b c. lia. Qed.

Section Sort.
Context (g : get_bits_context) (r : ShortTermRPS).

Lemma sort_body (k : nat) x u p up l :
  l !! k = Some (p, up) → (S k < length l)%nat →
  (tmp ← at_ delta_poc (Z.of_nat k);
   when (x <? tmp)
     (set_at delta_poc (Z.of_nat k + 1) tmp;;
      uk ← at_ used (Z.of_nat k); set_at used (Z.of_nat k + 1) uk;;
      set_at delta_poc (Z.of_nat k) x;;
      set_at used (Z.of_nat k) u)) (g, with_pairs r l) =
  Ok tt (g, with_pairs r (if x <? p then <[k := (x, u)]> (<[S k := (p, up)]> l) else l)).
Proof.
  intros Hk Hlen. replace (Z.of_nat k + 1) with (Z.of_nat (S k)) by lia.
  unfold mbind, RPS_bind, M_bind, at_, mbind, M_bind, look, gets, of_option. cbn -[Z.of_nat].
  rewrite aget_nat, list_lookup_fmap, Hk. cbn -[Z.of_nat].
  destruct (x <? p); cbn -[Z.of_nat]; [|done].
  unfold set_at, mbind, M_bind, look, gets, of_option, setf, upd, modify. cbn -[Z.of_nat].
  rewrite aset_nat by (by rewrite length_fmap). cbn -[Z.of_nat].
  rewrite aget_nat, list_lookup_fmap, Hk. cbn -[Z.of_nat].
  rewrite aset_nat by (by rewrite length_fmap). cbn -[Z.of_nat].
  rewrite aset_nat by (rewrite length_insert, length_fmap; lia). cbn -[Z.of_nat].
  rewrite aset_nat by (rewrite length_insert, length_fmap; lia). cbn -[Z.of_nat].
  unfold with_pairs. destruct r. cbn. by rewrite !list_fmap_insert.
Qed.

Lemma swap_up A (p e : Z * Z) B :
  <[length A := e]> (<[S (length A) := p]> (A ++ p :: e :: B)) = A ++ e :: p :: B.
Proof.
  rewrite (insert_app_r_alt A _ (S (length A))) by lia.
  replace (S (length A) - length A)%nat with 1%nat by lia. cbn [insert list_insert].
  rewrite (insert_app_r_alt A _ (length A)) by lia. by rewrite Nat.sub_diag.
Qed.

(** The pairs while element [e] travels down through the sorted prefix
    [S]: it has passed [B] and the positions below [m] are still to be
    compared. *)
Definition ins_inv (S R : list (Z * Z)) (e : Z * Z) (m : nat) (l : list (Z * Z)) : Prop :=
  ∃ A B, S = A ++ B ∧ l = A ++ e :: B ++ R ∧ Forall (fun b => e.1 < b.1) B ∧
    (m ≤ length A)%nat ∧ ((m < length A)%nat → Forall (fun a => a.1 ≤ e.1) A).

Lemma sorted_snoc_le A (p : Z * Z) b : StronglySorted pair_le (A ++ [p]) → p.1 ≤ b →
  Forall (fun a => a.1 ≤ b) (A ++ [p]).
Proof.
  intros Hs Hb. apply Forall_app. split; [|by repeat constructor].
  apply Forall_forall. intros a Ha.
  assert (pair_le a p); [|unfold pair_le in *; lia].
  eapply StronglySorted_app_1_elem_of; [exact Hs|done|by constructor].
Qed.

Lemma ins_step S R e m l :
  StronglySorted pair_le S → (m < length S)%nat → ins_inv S R e (Datatypes.S m) l →
  ∃ p up, l !! m = Some (p, up) ∧ (Datatypes.S m < length l)%nat ∧
    ins_inv S R e m (if e.1 <? p then <[m := e]> (<[Datatypes.S m := (p, up)]> l) else l).
Proof.
  intros HS Hm (A & B & -> & -> & HB & HmA & HA).
  destruct (decide (length A = Datatypes.S m)) as [HlA|HlA].
  - destruct (exists_last (l := A)) as (A' & [p up] & ->); [by intros ->|].
    rewrite length_app in HlA. cbn in HlA. assert (length A' = m) as <- by lia.
    exists p, up. rewrite <- !app_assoc. cbn [app]. split; [|split].
    + by rewrite list_lookup_middle.
    + rewrite length_app. cbn. lia.
    + destruct (Z.ltb_spec e.1 p).
      * rewrite swap_up. exists A', ((p, up) :: B).
        split; [done|]. split; [done|]. split; [by constructor|]. split; [lia|]. lia.
      * exists (A' ++ [(p, up)]), B. rewrite <- !app_assoc. cbn [app]. split; [done|]. split; [done|].
        split; [done|]. split; [rewrite length_app; lia|]. intros _.
        apply sorted_snoc_le; [|done]. by apply StronglySorted_app_1_l in HS.
  - assert (Datatypes.S m < length A)%nat as Hlt by lia. specialize (HA Hlt).
    destruct (lookup_lt_is_Some_2 A m ltac:(lia)) as [[p up] Hp].
    exists p, up. split; [by apply lookup_app_l_Some|]. split; [rewrite length_app; cbn; lia|].
    assert (p ≤ e.1) by (rewrite Forall_lookup in HA; by apply (HA m (p, up))).
    rewrite (proj2 (Z.ltb_ge _ _)) by done. exists A, B. repeat split; try done; lia.
Qed.

Lemma rps_sort_insert_ok S R x u :
  StronglySorted pair_le S →
  ∃ l', rps_sort_insert (Z.of_nat (length S)) (g, with_pairs r (S ++ (x, u) :: R)) =
      Ok tt (g, with_pairs r (l' ++ R)) ∧
    StronglySorted pair_le l' ∧ l' ≡ₚ S ++ [(x, u)].
Proof.
  intros HS.
  assert (wp False (rps_sort_insert (Z.of_nat (length S)))
    (fun _ s => ∃ l, s = (g, with_pairs r l) ∧ ins_inv S R (x, u) 0 l) (fun _ _ => False)
    (g, with_pairs r (S ++ (x, u) :: R))) as Hwp.
  { unfold rps_sort_insert. apply wp_bind, wp_bind, wp_look, wp_of_option.
    2: { cbn. rewrite aget_nat, list_lookup_fmap, list_lookup_middle by done. done. }
    intros x'. cbn. rewrite aget_nat, list_lookup_fmap, list_lookup_middle by done. cbn. intros [= <-].
    apply wp_bind, wp_bind, wp_look, wp_of_option.
    2: { cbn. rewrite aget_nat, list_lookup_fmap, list_lookup_middle by done. done. }
    intros u'. cbn. rewrite aget_nat, list_lookup_fmap, list_lookup_middle by done. cbn. intros [= <-].
    rewrite Nat2Z.id.
    apply (wp_for_down _ _ (fun m s => ∃ l, s = (g, with_pairs r l) ∧ ins_inv S R (x, u) m l)).
    - eexists. split; [done|]. exists S, []. rewrite app_nil_r. repeat split; [constructor|lia|lia].
    - intros k s Hk (l & -> & Hi). destruct (ins_step S R (x, u) k l HS Hk Hi) as (p & up & Hp & Hl & Hi').
      unfold wp. rewrite (sort_body k x u p up l Hp Hl). eexists. split; [done|]. exact Hi'.
    - done. }
  unfold wp in Hwp. destruct (rps_sort_insert _ _) as [[] s|? s|]; [|done..].
  destruct Hwp as (l & -> & A & B & -> & -> & HB & _ & HA).
  exists (A ++ (x, u) :: B). split; [by rewrite <- app_assoc|].
  apply StronglySorted_app in HS as (HAB & HsA & HsB). split.
  - apply StronglySorted_app. repeat split; [|done|].
    + intros a b Ha Hb. assert (a.1 ≤ x) as Hax.
      { destruct (decide (0 < length A)%nat) as [Hpos|Hz].
        - specialize (HA Hpos). rewrite Forall_forall in HA. by apply HA.
        - destruct A; [by apply elem_of_nil in Ha|cbn in Hz; lia]. }
      apply elem_of_cons in Hb as [->|Hb]; [done|]. by apply HAB.
    + apply StronglySorted_cons. split; [|done]. eapply Forall_impl; [exact HB|].
      unfold pair_le. cbn. lia.
  - rewrite <- !app_assoc. f_equiv. by rewrite (Permutation_app_comm B).
Qed.

Lemma rps_sort_ok l n :
  num_delta_pocs r = Z.of_nat n → (n ≤ length l)%nat →
  ∃ l', rps_sort (g, with_pairs r l) = Ok tt (g, with_pairs r (l' ++ drop n l)) ∧
    StronglySorted pair_le l' ∧ l' ≡ₚ take n l.
Proof.
  intros Hn Hl.
  assert (wp False rps_sort
    (fun _ s => ∃ l', s = (g, with_pairs r (l' ++ drop n l)) ∧ StronglySorted pair_le l' ∧ l' ≡ₚ take n l)
    (fun _ _ => False) (g, with_pairs r l)) as Hwp.
  { unfold rps_sort. apply wp_bind, wp_look. cbn. rewrite Hn.
    destruct n as [|n].
    { cbn. exists []. rewrite drop_0. split; [done|]. split; [constructor|done]. }
    apply (wp_for_range _ _ _ (fun i s => ∃ l', s = (g, with_pairs r (l' ++ drop (Z.to_nat i) l)) ∧
      StronglySorted pair_le l' ∧ l' ≡ₚ take (Z.to_nat i) l)).
    - exists (take 1 l). rewrite take_drop. repeat split; [|done].
      destruct l; repeat constructor.
    - intros i s Hi (l' & -> & Hs & Hp).
      assert (length l' = Z.to_nat i) as Hlen by (rewrite Hp, length_take; lia).
      destruct (lookup_lt_is_Some_2 l (Z.to_nat i) ltac:(lia)) as [[x u] Hx].
      rewrite (drop_S l (x, u) (Z.to_nat i)) by done.
      replace i with (Z.of_nat (length l')) at 1 by lia.
      destruct (rps_sort_insert_ok l' (drop (S (Z.to_nat i)) l) x u Hs) as (l2 & He & Hs2 & Hp2).
      unfold wp. rewrite He. exists l2. replace (Z.to_nat (i + 1)) with (S (Z.to_nat i)) by lia.
      split; [done|]. split; [done|]. rewrite Hp2, Hp. by rewrite (take_S_r l _ (x, u)).
    - intros s (l' & -> & Hs & Hp). exists l'. replace (Z.to_nat (Z.max 1 (Z.of_nat (S n)))) with (S n) in * by lia.
      done. }
  unfold wp in Hwp. destruct (rps_sort _) as [[] s|? s|]; [|done..].
  destruct Hwp as (l' & -> & ? & ?). by exists l'.
Qed.
End Sort.

Section Flip.
Context (g : get_bits_context) (r : ShortTermRPS).

Lemma flip_step A (a : Z * Z) M (b : Z * Z) B :
  rps_flip_step (Z.of_nat (length A)) (Z.of_nat (length A + S (length M)))
    (g, with_pairs r (A ++ a :: M ++ b :: B)) =
  Ok (Z.of_nat (length A + S (length M)) - 1) (g, with_pairs r (A ++ b :: M ++ a :: B)).
Proof.
  destruct a as [x u], b as [y v]. set (l := A ++ (x, u) :: M ++ (y, v) :: B).
  set (i := length A). set (k := (i + S (length M))%nat).
  assert (l !! i = Some (x, u)) as Hi by (unfold l; by rewrite list_lookup_middle).
  assert (l !! k = Some (y, v)) as Hk.
  { unfold l, k, i. rewrite lookup_app_r by lia. replace (_ - _)%nat with (S (length M)) by lia.
    change ((M ++ (y, v) :: B) !! length M = Some (y, v)). by apply list_lookup_middle. }
  assert (A ++ (y, v) :: M ++ (x, u) :: B = <[k := (x, u)]> (<[i := (y, v)]> l)) as Hfin.
  { unfold l, k, i. rewrite (insert_app_r_alt A _ (length A)) by lia. rewrite Nat.sub_diag.
    cbn [insert list_insert]. rewrite insert_app_r_alt by lia.
    replace (length A + S (length M) - length A)%nat with (S (length M)) by lia.
    cbn [insert list_insert]. rewrite (insert_app_r_alt M) by lia. by rewrite Nat.sub_diag. }
  assert (k < length l)%nat by (by apply lookup_lt_Some in Hk).
  assert (i < length l)%nat by (by apply lookup_lt_Some in Hi).
  clearbody l i k.
  unfold rps_flip_step, mbind, RPS_bind, M_bind, at_, set_at, mbind, M_bind, look, gets, of_option, setf,
    upd, modify. cbn -[Z.of_nat].
  rewrite aget_nat, list_lookup_fmap, Hi. cbn -[Z.of_nat].
  rewrite aget_nat, list_lookup_fmap, Hi. cbn -[Z.of_nat].
  rewrite aget_nat, list_lookup_fmap, Hk. cbn -[Z.of_nat].
  rewrite aset_nat by (by rewrite length_fmap). cbn -[Z.of_nat].
  rewrite aget_nat, list_lookup_fmap, Hk. cbn -[Z.of_nat].
  rewrite aset_nat by (by rewrite length_fmap). cbn -[Z.of_nat].
  rewrite aset_nat by (by rewrite length_insert, length_fmap). cbn -[Z.of_nat].
  rewrite aset_nat by (by rewrite length_insert, length_fmap). cbn -[Z.of_nat].
  unfold mret, RPS_ret, M_ret. do 2 f_equal.
  rewrite Hfin.
  unfold with_pairs. destruct r. cbn. by rewrite !list_fmap_insert.
Qed.

Lemma split_ends (M : list (Z * Z)) : (2 ≤ length M)%nat → ∃ a M' b, M = a :: M' ++ [b].
Proof.
  destruct M as [|a M]; [cbn; lia|]. intros Hl.
  destruct (exists_last (l := M)) as (M' & b & ->); [intros ->; cbn in Hl; lia|]. by exists a, M', b.
Qed.

Lemma rps_flip_ok N R :
  num_negative_pics r = Z.of_nat (length N) →
  rps_flip (g, with_pairs r (N ++ R)) = Ok tt (g, with_pairs r (reverse N ++ R)).
Proof.
  intros Hn.
  assert (wp False rps_flip (fun _ s => s = (g, with_pairs r (reverse N ++ R))) (fun _ _ => False)
    (g, with_pairs r (N ++ R))) as Hwp.
  { unfold rps_flip. apply wp_bind, wp_look. cbn -[Z.of_nat Z.shiftr]. rewrite Hn. apply wp_bind.
    apply (wp_fold_range _ _ _ (fun i k s => ∃ A M B, N = A ++ M ++ B ∧ length A = Z.to_nat i ∧
      length B = length A ∧ k = Z.of_nat (length A + length M) - 1 ∧
      s = (g, with_pairs r (reverse B ++ M ++ reverse A ++ R)))).
    - exists [], N, []. rewrite app_nil_r. repeat split; done.
    - intros i k s Hi (A & M & B & HN & HA & HB & -> & ->).
      assert (length N = (length A + (length M + length B))%nat) as HlN by (rewrite HN, !length_app; done).
      rewrite Z.shiftr_div_pow2 in Hi by lia. change (2 ^ 1) with 2 in Hi.
      destruct (split_ends M) as (a & M' & b & ->); [pose proof (Z.mul_div_le (Z.of_nat (length N)) 2); lia|].
      assert (length (a :: M' ++ [b]) = S (S (length M'))) as Hlm by (cbn; rewrite length_app; cbn; lia).
      rewrite Hlm in *.
      pose proof (flip_step (reverse B) a M' b (reverse A ++ R)) as Hf. rewrite length_reverse in Hf.
      cbn [app] in Hf |- *. rewrite <- app_assoc. cbn [app]. unfold wp.
      assert (i = Z.of_nat (length B)) as -> by lia.
      replace (Z.of_nat (length A + S (S (length M'))) - 1) with (Z.of_nat (length B + S (length M'))) by lia.
      rewrite Hf. exists (A ++ [a]), M', (b :: B). rewrite reverse_cons, reverse_app, !length_app. cbn [length].
      rewrite <- !app_assoc. cbn [app]. rewrite HN. cbn [app]. rewrite <- !app_assoc. cbn [app].
      repeat split; lia || done.
    - intros k s (A & M & B & HN & HA & HB & _ & ->). apply wp_ret.
      assert (length M ≤ 1)%nat as HM.
      { apply (f_equal length) in HN. rewrite !length_app in HN.
        rewrite Z.shiftr_div_pow2 in HA by lia. change (2 ^ 1) with 2 in HA.
        pose proof (Z.div_mod (Z.of_nat (length N)) 2). pose proof (Z.mod_pos_bound (Z.of_nat (length N)) 2). lia. }
      rewrite HN, !reverse_app, <- !app_assoc. destruct M as [|? [|? ?]]; cbn in HM; [done|done|lia]. }
  unfold wp in Hwp. destruct (rps_flip _) as [[] s|? s|]; [|done..]. by rewrite Hwp.
Qed.
End Flip.

(** A sorted list whose [n] negative entries have been counted. *)
Lemma sorted_split (l : list (Z * Z)) n :
  StronglySorted pair_le l → length (filter (fun p => p.1 < 0) l) = n →
  Forall (fun p => p.1 < 0) (take n l) ∧ Forall (fun p => 0 ≤ p.1) (drop n l).
Proof.
  revert n. induction l as [|[d u] l IH]; intros n Hs Hn.
  - by rewrite take_nil, drop_nil.
  - apply StronglySorted_cons in Hs as [Hle Hs]. rewrite filter_cons in Hn. cbn [fst] in Hn.
    destruct (decide (d < 0)) as [Hd|Hd].
    + cbn [length] in Hn. subst n. cbn [take drop]. destruct (IH _ Hs eq_refl). split; [|done].
      by constructor.
    + assert (Forall (fun p => 0 ≤ p.1) l) as Hpos.
      { eapply Forall_impl; [exact Hle|]. unfold pair_le. cbn. lia. }
      assert (filter (fun p : Z * Z => p.1 < 0) l = []) as Hf.
      { clear -Hpos. induction Hpos as [|x l Hx _ IH]; [done|]. rewrite filter_cons_False by (cbn; lia). done. }
      rewrite Hf in Hn. cbn in Hn. subst n. cbn. split; [constructor|]. constructor; [cbn; lia|done].
Qed.

(** ** Correctness of the parser *)

(** A set that may be referred to: initialised or parsed before. *)
Definition rps_ref_ok (r : ShortTermRPS) : Prop :=
  0 ≤ num_delta_pocs r ≤ 31 ∧ rps_arrays_ok r.

Lemma rps_wf_ref r : rps_wf r → rps_ref_ok r.
Proof. intros [? ? ? ? ? ? ?]. split; [lia|done]. Qed.

Definition count_neg (l : list Z) : Z := Z.of_nat (length (filter (fun d => d < 0) l)).

Lemma count_neg_snoc l d : count_neg (l ++ [d]) = if d <? 0 then count_neg l + 1 else count_neg l.
Proof.
  unfold count_neg. rewrite filter_app, length_app. destruct (Z.ltb_spec d 0).
  - rewrite filter_cons_True by done. cbn. lia.
  - rewrite filter_cons_False by lia. cbn. lia.
Qed.

Lemma count_neg_le l : 0 ≤ count_neg l ≤ zlen l.
Proof. unfold count_neg, zlen. pose proof (length_filter (fun d => d < 0) l). lia. Qed.

Lemma take_insert_snoc {A} (l : list A) (k : nat) v : (k < length l)%nat →
  take (S k) (<[k := v]> l) = take k l ++ [v].
Proof.
  intros Hk. rewrite (take_S_r _ _ v) by (by apply list_lookup_insert_eq).
  by rewrite take_insert_ge by lia.
Qed.

(** The entries of a set as pairs. *)
Definition rps_entries (r : ShortTermRPS) : list (Z * Z) :=
  take (Z.to_nat (num_delta_pocs r)) (zip (delta_poc r) (used r)).

Lemma count_neg_fmap (l : list (Z * Z)) :
  count_neg l.*1 = Z.of_nat (length (filter (fun p => p.1 < 0) l)).
Proof.
  unfold count_neg. f_equal. induction l as [|[d u] l IH]; [done|].
  rewrite fmap_cons. destruct (decide (d < 0)).
  - rewrite !filter_cons_True by done. cbn [length]. by rewrite IH.
  - by rewrite !filter_cons_False by done.
Qed.

Lemma sorted_reverse_ge (l : list (Z * Z)) : StronglySorted pair_le l → StronglySorted Z.ge (reverse l).*1.
Proof.
  induction 1 as [|a l Hs IH Hf]; [constructor|]. rewrite reverse_cons, fmap_app.
  apply StronglySorted_app. split; [|split; [done|repeat constructor]].
  intros x y Hx Hy. apply list_elem_of_singleton in Hy as ->.
  rewrite fmap_reverse, elem_of_reverse in Hx. apply list_elem_of_fmap in Hx as (b & -> & Hb).
  rewrite Forall_forall in Hf. specialize (Hf b Hb). unfold pair_le in Hf. lia.
Qed.

(** What [rps_order] does to the pairs. *)
Lemma rps_order_ok g r :
  rps_arrays_ok r → 0 ≤ num_delta_pocs r ≤ 31 →
  num_negative_pics r = count_neg (take (Z.to_nat (num_delta_pocs r)) (delta_poc r)) →
  ∃ r', rps_order (g, r) = Ok tt (g, r') ∧ rps_wf r' ∧
    num_delta_pocs r' = num_delta_pocs r ∧ num_negative_pics r' = num_negative_pics r ∧
    rps_entries r' ≡ₚ rps_entries r.
Proof.
  intros Hok Hn Hneg. destruct (Hok) as [Hd Hu]. set (n := Z.to_nat (num_delta_pocs r)) in *.
  set (l := zip (delta_poc r) (used r)).
  assert (length l = 32%nat) as Hl by (unfold l; rewrite length_zip_with; lia).
  assert (take n (delta_poc r) = (take n l).*1) as Htk.
  { rewrite fmap_take. unfold l. by rewrite fst_zip by lia. }
  destruct (rps_sort_ok g r l n) as (l' & Hsort & Hs & Hp); [lia|lia|].
  assert (length l' = n) as Hl' by (rewrite Hp, length_take; lia).
  set (n0 := Z.to_nat (num_negative_pics r)).
  assert (length (filter (fun p => p.1 < 0) l') = n0) as Hc.
  { unfold n0. rewrite Hneg, Htk, count_neg_fmap, Nat2Z.id. by rewrite Hp. }
  destruct (sorted_split l' n0 Hs Hc) as [Hlo Hhi].
  assert (n0 ≤ n)%nat as Hn0 by (rewrite <- Hc, <- Hl'; apply length_filter).
  assert (0 ≤ num_negative_pics r) by (rewrite Hneg; unfold count_neg; lia).
  set (l'' := reverse (take n0 l') ++ drop n0 l').
  assert (l'' ≡ₚ take n l) as Hp''.
  { unfold l''. rewrite reverse_Permutation, take_drop. done. }
  set (r' := with_pairs r (l'' ++ drop n l)).
  assert (length l'' = n) as Hl'' by (rewrite Hp'', length_take; lia).
  exists r'. split; [|split].
  - unfold rps_order, mbind, RPS_bind, M_bind, look, gets. cbn [snd].
    assert (when (truth (num_delta_pocs r)) rps_sort (g, r) = Ok tt (g, with_pairs r (l' ++ drop n l))) as ->.
    { rewrite <- (with_pairs_id r Hok) at 2. fold l. destruct (truth (num_delta_pocs r)) eqn:Ht; [done|].
      unfold truth in Ht. bprop. assert (n = 0%nat) as Hz by lia. destruct l'; [|cbn in Hl'; lia].
      by rewrite Hz. }
    cbn [snd]. change (num_negative_pics (with_pairs r _)) with (num_negative_pics r).
    rewrite <- (take_drop n0 l') at 1. rewrite <- app_assoc.
    assert (length (take n0 l') = n0) as Hln by (rewrite length_take; lia).
    destruct (truth _) eqn:Ht; cbn [when].
    + rewrite rps_flip_ok by lia. unfold r', l''. by rewrite <- app_assoc.
    + unfold truth in Ht. bprop. rewrite Z.shiftr_div_pow2 in Ht by lia.
      assert (n0 ≤ 1)%nat as Hle.
      { apply Z.div_small_iff in Ht; [|done]. change (2 ^ 1) with 2 in Ht. lia. }
      assert (reverse (take n0 l') = take n0 l') as Hrev.
      { destruct (take n0 l') as [|? [|? ?]]; cbn in Hln; [done|done|lia]. }
      unfold r', l''. rewrite Hrev, <- app_assoc. done.
  - assert (rps_negatives r' = (reverse (take n0 l')).*1) as Hnegs.
    { unfold rps_negatives, r', with_pairs. cbn [delta_poc num_negative_pics set_field]. fold n0.
      rewrite <- fmap_take. unfold l''. rewrite <- app_assoc, take_app_length'; [done|].
      rewrite length_reverse, length_take. lia. }
    assert (rps_others r' = (drop n0 l').*1) as Hoth.
    { unfold rps_others, r', with_pairs. cbn [delta_poc num_negative_pics num_delta_pocs set_field]. fold n0 n.
      rewrite <- fmap_take, <- fmap_drop, take_app_length' by done. unfold l''.
      rewrite drop_app_length'; [done|]. rewrite length_reverse, length_take. lia. }
    split.
    + unfold rps_arrays_ok, r', with_pairs. cbn [delta_poc used set_field].
      rewrite !length_fmap, length_app, length_drop. lia.
    + unfold r', with_pairs. cbn. lia.
    + unfold r', with_pairs. cbn. lia.
    + rewrite Hnegs. apply Forall_fmap. apply Forall_reverse. exact Hlo.
    + rewrite Hnegs. apply sorted_reverse_ge. rewrite <- (take_drop n0 l') in Hs.
      by apply StronglySorted_app_1_l in Hs.
    + rewrite Hoth. apply Forall_fmap. exact Hhi.
    + rewrite Hoth. rewrite <- (take_drop n0 l') in Hs. apply StronglySorted_app_1_r in Hs.
      by apply (StronglySorted_fmap _ pair_le).
  - split; [done|]. split; [done|]. unfold rps_entries, r', with_pairs.
    cbn [delta_poc used num_delta_pocs set_field]. fold n l. rewrite zip_fst_snd.
    by rewrite take_app_length' by done.
Qed.

Section Correct.
Context {U : Prop} (st : list ShortTermRPS) (nb : Z).

Definition pred_inv (nd R num : Z) (i : Z) (l : pred_locals) (s : get_bits_context * ShortTermRPS) : Prop :=
  Avail U s.1 (2 * (nd + 1 - i) + R) ∧ 0 ≤ pl_k l ≤ i ∧ rps_arrays_ok s.2 ∧
  num_delta_pocs s.2 = num ∧
  pl_k0 l = count_neg (take (Z.to_nat (pl_k l)) (delta_poc s.2)).

Lemma rps_predict_entry_wp ridx delta_rps nd R num i l s E :
  0 ≤ R → 0 ≤ i ≤ nd → nd ≤ 31 → nd = num_delta_pocs ridx → rps_arrays_ok ridx →
  pred_inv nd R num i l s →
  wp U (rps_predict_entry ridx delta_rps i l) (pred_inv nd R num (i + 1)) E s.
Proof.
  intros HR Hi Hnd Hndr [Hrd Hru] (Hav & Hk & [Hd Hu] & Hnum & Hk0). unfold rps_predict_entry.
  parse_step 0. parse_step (2 * (nd + 1 - (i + 1)) + R + 1); [eapply avail_le; [|done]; lia|].
  parse_step 0. parse_step 0; [right; unfold zlen; lia|].
  parse_step 0.
  assert (∀ g' f r', Avail U g' (2 * (nd + 1 - (i + 1)) + R) → rps_arrays_ok r' →
    delta_poc r' = delta_poc s.2 → num_delta_pocs r' = num →
    wp U (if truth (u8 v) || truth f then
            dp ← (if i <? num_delta_pocs ridx
                  then d ← of_option (aget (delta_poc ridx) i); mret (s32 (delta_rps + d))
                  else mret delta_rps);
            set_at delta_poc (pl_k l) dp;;
            mret (if dp <? 0 then mk_pl (pl_k l + 1) (pl_k0 l + 1) (pl_k1 l) f
                  else mk_pl (pl_k l + 1) (pl_k0 l) (pl_k1 l + 1) f)
          else mret (mk_pl (pl_k l) (pl_k0 l) (pl_k1 l) f))
      (pred_inv nd R num (i + 1)) E (g', r')) as Hrest.
  { intros g2 f r' Hav' [Hd' Hu'] Heq Hn'. wp_step.
    - apply wp_bind.
      assert (∀ dp, wp U (set_at delta_poc (pl_k l) dp;;
         mret (if dp <? 0 then mk_pl (pl_k l + 1) (pl_k0 l + 1) (pl_k1 l) f
               else mk_pl (pl_k l + 1) (pl_k0 l) (pl_k1 l + 1) f))
         (pred_inv nd R num (i + 1)) E (g2, r')) as Hdp.
      { intros dp. parse_step 0. parse_step 0; [right; unfold zlen; lia|]. parse_step 0.
        assert (count_neg (take (Z.to_nat (pl_k l + 1)) (<[Z.to_nat (pl_k l) := dp]> (delta_poc r'))) =
                if dp <? 0 then pl_k0 l + 1 else pl_k0 l) as Hc.
        { replace (Z.to_nat (pl_k l + 1)) with (S (Z.to_nat (pl_k l))) by lia.
          rewrite take_insert_snoc by lia. rewrite count_neg_snoc, Heq. by rewrite <- Hk0. }
        unfold pred_inv. cbn [fst snd].
        destruct (dp <? 0); cbn [pl_k pl_k0]; cbn [delta_poc used num_delta_pocs set_field] in *;
          (split; [done|split; [lia|split; [split; cbn; [by rewrite length_insert|done]|split; [done|]]]]);
          destruct r'; cbn in *; congruence. }
      wp_step.
      + wp_step. wp_step; [wp_step; apply Hdp|].
        match goal with Hn : aget _ _ = None |- _ => apply aget_None in Hn; unfold zlen in Hn; lia end.
      + wp_step. apply Hdp.
    - wp_step. split; [done|]. cbn [pl_k pl_k0 fst snd]. rewrite Heq. repeat split; try done; lia. }
  wp_step.
  - parse_step 0. parse_step (2 * (nd + 1 - (i + 1)) + R); [eapply avail_le; [|done]; lia|]. parse_step 0.
    apply Hrest; [done| |done|done]. split; cbn; [done|by rewrite length_insert].
  - wp_step. apply Hrest; [eapply avail_le; [|done]; lia| |done|done]. split; cbn; [done|by rewrite length_insert].
Qed.

Lemma rps_read_delta_wp R (Q : Z → get_bits_context * ShortTermRPS → Prop) E s :
  0 ≤ R → Avail U s.1 (63 + R) →
  (∀ d g', Avail U g' R → 1 ≤ d ≤ 32768 → Q d (g', s.2)) →
  (∀ g', Avail U g' R → E (-1) (g', s.2)) →
  wp U rps_read_delta Q E s.
Proof.
  intros HR Hav HQ HE. unfold rps_read_delta.
  parse_step 0. parse_step R; [done|]. parse_step 0. parse_step 0.
  - by apply HE.
  - parse_step 0. bprop. apply HQ; [done|]. lia.
Qed.

(** One entry of the explicit branch: the running POC difference [p] moves
    by 1 to 32768 and is stored. *)
Lemma rps_explicit_entry_wp sign at_i p R (Q : Z → get_bits_context * ShortTermRPS → Prop) E s :
  sign = 1 ∨ sign = -1 → - 2 ^ 30 ≤ p ≤ 2 ^ 30 → 0 ≤ at_i < 32 → rps_arrays_ok s.2 →
  0 ≤ R → Avail U s.1 (64 + R) →
  (∀ d x g', Avail U g' R → 1 ≤ d ≤ 32768 →
     Q (u32 (p + sign * d))
       (g', s.2 <| delta_poc := <[Z.to_nat at_i := p + sign * d]> (delta_poc s.2) |>
                <| used := <[Z.to_nat at_i := x]> (used s.2) |>)) →
  (∀ g', Avail U g' R → E (-1) (g', s.2)) →
  wp U (rps_explicit_entry sign at_i (u32 p)) Q E s.
Proof.
  intros Hs Hp Hi [Hd Hu] HR Hav HQ HE. unfold rps_explicit_entry. parse_step 0.
  apply (rps_read_delta_wp (1 + R)); [lia|eapply avail_le; [|done]; lia| |].
  2: { intros g' Hg. apply HE. eapply avail_le; [|done]. lia. }
  intros d g' Hg Hdr. cbn zeta. parse_step 0. parse_step 0; [right; unfold zlen; lia|].
  parse_step 0. parse_step R; [done|]. parse_step 0. parse_step 0; [right; unfold zlen; cbn; lia|].
  parse_step 0.
  assert (u32 (u32 p + sign * d) = u32 (p + sign * d)) as ->.
  { unfold u32. by rewrite Zplus_mod_idemp_l. }
  rewrite s32_u32, s32_id by (destruct Hs as [-> | ->]; lia). by apply HQ.
Qed.

Definition neg_inv (neg num R : Z) (i prev : Z) (s : get_bits_context * ShortTermRPS) : Prop :=
  Avail U s.1 (64 * (neg - i) + R) ∧ rps_arrays_ok s.2 ∧
  num_negative_pics s.2 = neg ∧ num_delta_pocs s.2 = num ∧
  ∃ p, prev = u32 p ∧ - (32768 * i) ≤ p ≤ 0 ∧
    let l := take (Z.to_nat i) (delta_poc s.2) in
    StronglySorted Z.ge l ∧ Forall (fun d => p ≤ d < 0) l.

Lemma sorted_snoc (Rl : Z → Z → Prop) (l : list Z) x :
  StronglySorted Rl l → Forall (fun d => Rl d x) l → StronglySorted Rl (l ++ [x]).
Proof.
  intros Hs Hf. apply StronglySorted_app. split; [|split; [done|repeat constructor]].
  intros a b Ha Hb. apply list_elem_of_singleton in Hb as ->. rewrite Forall_forall in Hf. by apply Hf.
Qed.

Lemma neg_step neg num R i prev s (E : Z → get_bits_context * ShortTermRPS → Prop) :
  0 ≤ R → 0 ≤ i < neg → neg < 16 → neg_inv neg num R i prev s →
  (∀ s', rps_arrays_ok s'.2 → num_delta_pocs s'.2 = num → Avail U s'.1 R → E (-1) s') →
  wp U (rps_explicit_entry (-1) i prev) (neg_inv neg num R (i + 1)) E s.
Proof.
  intros HR Hi Hneg (Hav & Hok & Hn1 & Hn2 & p & -> & Hp & Hs & Hf) HE.
  destruct (Hok) as [Hd Hu].
  apply (rps_explicit_entry_wp _ _ _ (64 * (neg - (i + 1)) + R)); auto; try lia.
  - eapply avail_le; [|done]. lia.
  - intros d x g' Hg Hdr. unfold neg_inv. cbn [fst snd].
    split; [done|]. split; [split; cbn; by rewrite length_insert|]. split; [done|]. split; [done|].
    exists (p + -1 * d). split; [done|]. split; [lia|].
    cbn [delta_poc set_field]. replace (Z.to_nat (i + 1)) with (S (Z.to_nat i)) by lia.
    rewrite take_insert_snoc by lia. split.
    + apply sorted_snoc; [done|]. eapply Forall_impl; [exact Hf|]. cbn. lia.
    + apply Forall_app. split; [|repeat constructor; lia].
      eapply Forall_impl; [exact Hf|]. cbn. lia.
  - intros g' Hg. apply HE; [done|done|]. cbn. eapply avail_le; [|done]. lia.
Qed.

Definition pos_inv (neg pos R : Z) (i prev : Z) (s : get_bits_context * ShortTermRPS) : Prop :=
  Avail U s.1 (64 * (pos - i) + R) ∧ rps_arrays_ok s.2 ∧
  num_negative_pics s.2 = neg ∧ num_delta_pocs s.2 = neg + pos ∧
  StronglySorted Z.ge (rps_negatives s.2) ∧ Forall (fun d => d < 0) (rps_negatives s.2) ∧
  ∃ p, prev = u32 p ∧ 0 ≤ p ≤ 32768 * i ∧
    let l := drop (Z.to_nat neg) (take (Z.to_nat (neg + i)) (delta_poc s.2)) in
    StronglySorted Z.le l ∧ Forall (fun d => 0 ≤ d ≤ p) l.

Lemma pos_step neg pos R i prev s (E : Z → get_bits_context * ShortTermRPS → Prop) :
  0 ≤ R → 0 ≤ neg < 16 → 0 ≤ i < pos → pos < 16 → pos_inv neg pos R i prev s →
  (∀ s', rps_arrays_ok s'.2 → num_delta_pocs s'.2 = neg + pos → Avail U s'.1 R → E (-1) s') →
  wp U (rps_explicit_entry 1 (neg + i) prev) (pos_inv neg pos R (i + 1)) E s.
Proof.
  intros HR Hneg Hi Hpos (Hav & Hok & Hn1 & Hn2 & Hsn & Hfn & p & -> & Hp & Hs & Hf) HE.
  destruct (Hok) as [Hd Hu].
  apply (rps_explicit_entry_wp _ _ _ (64 * (pos - (i + 1)) + R)); auto; try lia.
  - eapply avail_le; [|done]. lia.
  - intros d x g' Hg Hdr. unfold pos_inv. cbn [fst snd].
    split; [done|]. split; [split; cbn; by rewrite length_insert|]. split; [done|]. split; [done|].
    assert (∀ r', rps_negatives (s.2 <| delta_poc := <[Z.to_nat (neg + i) := p + 1 * d]> (delta_poc s.2) |>
                <| used := r' |>) = rps_negatives s.2) as Hsame.
    { intros r'. unfold rps_negatives. cbn [delta_poc num_negative_pics set_field].
      apply take_insert_ge. lia. }
    rewrite Hsame. split; [done|]. split; [done|].
    exists (p + 1 * d). split; [done|]. split; [lia|].
    cbn [delta_poc set_field]. replace (Z.to_nat (neg + (i + 1))) with (S (Z.to_nat (neg + i))) by lia.
    rewrite take_insert_snoc by lia. rewrite drop_app_le by (rewrite length_take; lia). split.
    + apply sorted_snoc; [done|]. eapply Forall_impl; [exact Hf|]. cbn. lia.
    + apply Forall_app. split; [|repeat constructor; lia].
      eapply Forall_impl; [exact Hf|]. cbn. lia.
  - intros g' Hg. apply HE; [done|done|]. cbn. eapply avail_le; [|done]. lia.
Qed.

(** The results of a call, and the memory left. *)
Definition rps_post (R : Z) (ret : Z) (s : get_bits_context * ShortTermRPS) : Prop :=
  Avail U s.1 R ∧ rps_ref_ok s.2 ∧ (ret = 0 ∧ rps_wf s.2 ∨ ret = -1).

Lemma rps_explicit_wp R s :
  0 ≤ R → rps_ref_ok s.2 → Avail U s.1 (2046 + R) →
  wp U rps_explicit (fun _ => rps_post R 0) (rps_post R) s.
Proof.
  intros HR [Hnum [Hd Hu]] Hav. unfold rps_explicit.
  parse_step 0. parse_step (1983 + R); [eapply avail_le; [|done]; lia|].
  parse_step 0. parse_step (1920 + R); [eapply avail_le; [|done]; lia|].
  rename v into neg0, v0 into pos. set (neg := u32 neg0).
  pose proof (u32_range neg0) as Hnr. fold neg in Hnr.
  parse_step 0. parse_step 0. change (num_negative_pics (set_field num_negative_pics _ _)) with neg.
  parse_step 0. parse_step 0.
  { split; [eapply avail_le; [|done]; cbn; lia|]. split; [|by right]. split; [done|]. split; done. }
  unfold HEVC_MAX_REFS, HEVC_MAX_DPB_SIZE in *. bprop.
  rewrite (u32_id (neg + pos)), s32_id by lia.
  parse_step 0. parse_step 0. parse_step 0. parse_step 0.
  change (num_delta_pocs (set_field num_delta_pocs _ _)) with (neg + pos). wp_step.
  2: { unfold truth in *. bprop. split; [eapply avail_le; [|done]; cbn; lia|].
       assert (rps_wf (s.2 <| num_negative_pics := neg |> <| num_delta_pocs := neg + pos |>)) as Hwf.
       { split; [split; done|cbn; lia|cbn; lia|..];
           unfold rps_negatives, rps_others; cbn [num_negative_pics num_delta_pocs set_field delta_poc];
           replace (Z.to_nat neg) with 0%nat by lia; replace (Z.to_nat (neg + pos)) with 0%nat by lia;
           constructor. }
       split; [by apply rps_wf_ref|]. by left. }
  apply wp_bind.
  apply (wp_fold_range _ _ _ (neg_inv neg (neg + pos) (64 * pos + R))).
  - split; [cbn; eapply avail_le; [|done]; lia|]. split; [split; done|]. split; [done|]. split; [done|].
    exists 0. split; [done|]. split; [lia|]. cbn. split; constructor.
  - intros i prev s' Hi Hinv. eapply neg_step; [lia|lia|lia|done|].
    intros s2 Hok2 Hn2 Hav2. split; [eapply avail_le; [|done]; lia|]. split; [|by right].
    split; [lia|done].
  - intros prev s' (Hav' & Hok' & Hn1 & Hn2 & p & _ & _ & Hs & Hf).
    replace (Z.max 0 neg) with neg in * by lia.
    assert (rps_negatives s'.2 = take (Z.to_nat neg) (delta_poc s'.2)) as Hng
      by (unfold rps_negatives; by rewrite Hn1).
    apply wp_bind. apply (wp_fold_range _ _ _ (pos_inv neg pos R)).
    + split; [eapply avail_le; [|done]; lia|]. rewrite Hng. repeat (split; [done|]). split.
      { eapply Forall_impl; [exact Hf|]. cbn. lia. }
      exists 0. split; [done|]. split; [lia|]. rewrite Z.add_0_r.
      rewrite drop_ge by (rewrite length_take; lia). split; constructor.
    + intros i prev' s2 Hi Hinv. eapply pos_step; [lia|lia|lia|lia|done|].
      intros s3 Hok3 Hn3 Hav3. split; [done|]. split; [|by right]. split; [lia|done].
    + intros prev' s2 (Hav2 & Hok2 & Hm1 & Hm2 & Hsn & Hfn & p' & _ & _ & Hs2 & Hf2). apply wp_ret.
      replace (Z.max 0 pos) with pos in * by lia.
      split; [eapply avail_le; [|done]; lia|].
      assert (rps_wf s2.2) as Hwf.
      { split; [done|lia|lia|done|done|..]; unfold rps_others; rewrite Hm1, Hm2; [|done].
        eapply Forall_impl; [exact Hf2|]. cbn. lia. }
      split; [by apply rps_wf_ref|]. by left.
Qed.

(** Where [rps] points: into [sps->st_rps], or a slice header. *)
Definition idx_ok (idx : option Z) (is_slice_header : bool) : Prop :=
  if is_slice_header then nb < zlen st
  else match idx with Some i => 0 ≤ i ≤ zlen st | None => False end.

Lemma rps_select_ref_wp idx slice R s (Q : ShortTermRPS → get_bits_context * ShortTermRPS → Prop) E :
  0 ≤ R → Avail U s.1 (63 + R) → Forall rps_ref_ok st → idx_ok idx slice → idx ≠ Some 0 → 0 ≤ nb →
  (∀ ridx g' v, Avail U g' R → rps_ref_ok ridx →
     Q ridx (g', s.2) ∧ Q ridx (g', s.2 <| rps_idx_num_delta_pocs := v |>)) →
  (∀ g', Avail U g' R → E (-1) (g', s.2)) →
  wp U (rps_select_ref st nb idx slice) Q E s.
Proof.
  intros HR Hav Hst Hidx Hne Hnb HQ HE. unfold rps_select_ref. destruct slice.
  - parse_step 0. parse_step R; [done|]. parse_step 0. parse_step 0; [by apply HE|].
    parse_step 0. parse_step 0.
    + match goal with Ha : aget st _ = Some ?a |- _ => apply aget_inv in Ha as [_ Hl]; rename a into ridx end.
      apply (Forall_lookup_1 _ _ _ _ Hst) in Hl.
      parse_step 0. parse_step 0. parse_step 0. by apply HQ.
    + bprop. pose proof (u32_range (v + 1)). unfold idx_ok in Hidx.
      match goal with Hn : aget _ _ = None |- _ => apply aget_None in Hn; lia end.
  - destruct idx as [i|]; [|done]. unfold idx_ok in Hidx. assert (i ≠ 0) by congruence.
    parse_step 0. apply wp_ret. parse_step 0.
    + match goal with Ha : aget st _ = Some ?a |- _ => apply aget_inv in Ha as [_ Hl]; rename a into ridx end.
      apply (Forall_lookup_1 _ _ _ _ Hst) in Hl. destruct s as [g0 r0].
      assert (Avail U g0 R) as Hg0 by (eapply avail_le; [|exact Hav]; lia).
      exact (proj1 (HQ ridx g0 0 Hg0 Hl)).
    + match goal with Hn : aget _ _ = None |- _ => apply aget_None in Hn; lia end.
Qed.

Lemma rps_predicted_wp idx slice R s :
  0 ≤ R → Avail U s.1 (191 + R) → rps_ref_ok s.2 → Forall rps_ref_ok st → idx_ok idx slice →
  idx ≠ Some 0 → 0 ≤ nb →
  wp U (rps_predicted st nb idx slice) (fun _ => rps_post R 0) (rps_post R) s.
Proof.
  intros HR Hav Href Hst Hidx Hne Hnb. unfold rps_predicted. parse_step 0.
  apply (rps_select_ref_wp _ _ (128 + R)); [lia|eapply avail_le; [|done]; lia|done..| |].
  2: { intros g' Hg. split; [eapply avail_le; [|done]; cbn; lia|]. split; [done|by right]. }
  intros ridx g' w Hg [Hnd Hrok].
  assert (∀ r', rps_ref_ok r' → wp U (
    delta_rps_sign ← gbm get_bits1;
    v ← gbm get_ue_golomb_long;
    let abs_delta_rps := u32 (v + 1) in
    fail_if ((abs_delta_rps <? 1) || (abs_delta_rps >? 32768)) (-1);;
    let delta_rps := s32 ((1 - Z.shiftl (u8 delta_rps_sign) 1) * abs_delta_rps) in
    l ← fold_range 0 (num_delta_pocs ridx + 1) (rps_predict_entry ridx delta_rps) (mk_pl 0 0 0 0);
    fail_if (pl_k l >=? RPS_ARRAY_SIZE) (-1);;
    setf num_delta_pocs (pl_k l);;
    setf num_negative_pics (pl_k0 l);;
    rps_order) (fun _ => rps_post R 0) (rps_post R) (g', r')) as Hrest.
  { intros r' [Hn' [Hd' Hu']]. parse_step 0. parse_step (127 + R); [eapply avail_le; [|done]; lia|].
    parse_step 0. parse_step (64 + R); [eapply avail_le; [|done]; lia|]. parse_step 0. parse_step 0.
    { split; [eapply avail_le; [|done]; cbn; lia|]. split; [split; [done|split; done]|by right]. }
    parse_step 0.
    apply (wp_fold_range _ _ _ (pred_inv (num_delta_pocs ridx) R (num_delta_pocs r'))).
    - split; [eapply avail_le; [|done]; cbn; lia|]. repeat split; cbn; done || lia.
    - intros i l s' Hi Hinv. eapply rps_predict_entry_wp; [done|lia|lia|done|done|done].
    - intros l s' (Hav' & Hk & [Hd2 Hu2] & Hnum & Hk0).
      parse_step 0. unfold RPS_ARRAY_SIZE in *. parse_step 0.
      { split; [eapply avail_le; [|done]; lia|]. split; [split; [lia|split; done]|by right]. }
      bprop. parse_step 0. parse_step 0. parse_step 0. parse_step 0.
      match goal with |- wp _ rps_order _ _ (?g, ?r) => destruct (rps_order_ok g r) as (r2 & Hrun & Hwf & _) end.
      + split; done.
      + cbn. lia.
      + exact Hk0.
      + unfold wp. rewrite Hrun. split; [eapply avail_le; [|done]; cbn; lia|].
        split; [by apply rps_wf_ref|]. by left. }
  split; apply Hrest; [done|]. destruct Href as [? [? ?]]. by split.
Qed.

Lemma decode_short_term_rps_wp idx slice R s (E : Z → get_bits_context * ShortTermRPS → Prop) :
  0 ≤ R → Avail U s.1 (2047 + R) → rps_ref_ok s.2 → Forall rps_ref_ok st → idx_ok idx slice → 0 ≤ nb →
  wp U (ff_hevc_decode_short_term_rps st nb idx slice) (rps_post R) E s.
Proof.
  intros HR Hav Href Hst Hidx Hnb. unfold ff_hevc_decode_short_term_rps. apply wp_call. cbn zeta.
  parse_step 0.
  assert (∀ g' p, Avail U g' (2046 + R) → (p ≠ 0 → idx ≠ Some 0) →
    wp U (if truth p then rps_predicted st nb idx slice else rps_explicit)
      (fun _ => rps_post R 0) (rps_post R) (g', s.2)) as Hrest.
  { intros g' p Hg Hp. wp_step; unfold truth in *; bprop.
    - apply rps_predicted_wp; auto. eapply avail_le; [|done]. lia.
    - by apply rps_explicit_wp. }
  wp_step; bprop.
  - parse_step 0. parse_step (2046 + R); [eapply avail_le; [|done]; lia|]. parse_step 0.
    apply Hrest; [done|]. intros _ ->. done.
  - parse_step 0. destruct s. apply Hrest; [|done]. eapply avail_le; [|done]. cbn. lia.
Qed.
End Correct.

(** C15: [ff_hevc_decode_short_term_rps] is memory safe and correct.  Given
    2047 readable bits, a target set and reference sets that were initialised
    or parsed before, it never accesses an array out of bounds and returns 0
    or -1; on 0 the set is well formed: at most 31 entries, the negative POC
    differences first, from the nearest to the farthest, then the others in
    increasing order. *)
Theorem decode_short_term_rps_correct st nb idx is_slice_header g r :
  room g 2047 → rps_ref_ok r → Forall rps_ref_ok st → idx_ok st nb idx is_slice_header → 0 ≤ nb →
  ∃ ret g' r', ff_hevc_decode_short_term_rps st nb idx is_slice_header (g, r) = Ok ret (g', r') ∧
    rps_ref_ok r' ∧ (ret = 0 ∧ rps_wf r' ∨ ret = -1).
Proof.
  intros Hg Hr Hst Hidx Hnb.
  pose proof (decode_short_term_rps_wp (U := False) st nb idx is_slice_header 0 (g, r) (fun _ _ => False)
    ltac:(lia) (or_intror Hg) Hr Hst Hidx Hnb) as Hwp.
  unfold wp in Hwp. destruct (ff_hevc_decode_short_term_rps _ _ _ _ _) as [ret [g' r']| |]; [|done..].
  destruct Hwp as (_ & Href & Hres). by exists ret, g', r'.
Qed.

Lemma decode_short_term_rps_correct_witness :
  ∃ ret g' r', ff_hevc_decode_short_term_rps [init_ShortTermRPS] 1 (Some 0) false
      (zero_reader 300, init_ShortTermRPS) = Ok ret (g', r') ∧
    rps_ref_ok r' ∧ (ret = 0 ∧ rps_wf r' ∨ ret = -1).
Proof.
  assert (rps_ref_ok init_ShortTermRPS) by (split; [done|split; done]).
  apply (decode_short_term_rps_correct [init_ShortTermRPS] 1 (Some 0) false (zero_reader 300) init_ShortTermRPS).
  - apply zero_reader_room. lia.
  - done.
  - by repeat constructor.
  - done.
  - done.
Defined.

(** the insertion sort and the flip of the negative part are correct:
    the entries with their [used] flags are only permuted, and end up in the
    order the decoder relies on. *)
Theorem rps_order_correct g r :
  rps_arrays_ok r → 0 ≤ num_delta_pocs r ≤ 31 →
  num_negative_pics r = count_neg (take (Z.to_nat (num_delta_pocs r)) (delta_poc r)) →
  ∃ r', rps_order (g, r) = Ok tt (g, r') ∧ rps_wf r' ∧ rps_entries r' ≡ₚ rps_entries r ∧
    num_delta_pocs r' = num_delta_pocs r ∧ num_negative_pics r' = num_negative_pics r.
Proof. intros H1 H2 H3. destruct (rps_order_ok g r H1 H2 H3) as (r' & ? & ? & ? & ? & ?). by exists r'. Qed.

(** An unsorted set of four entries. *)
Definition sample_rps : ShortTermRPS :=
  mk_strps 2 4 0 ([5; -1; 3; -7] ++ replicate 28 0) ([1; 0; 1; 1] ++ replicate 28 0).

Lemma rps_order_correct_witness :
  ∃ r', rps_order (zero_reader 8, sample_rps) = Ok tt (zero_reader 8, r') ∧ rps_wf r' ∧
    rps_entries r' ≡ₚ rps_entries sample_rps ∧
    num_delta_pocs r' = num_delta_pocs sample_rps ∧ num_negative_pics r' = num_negative_pics sample_rps.
Proof. apply (rps_order_correct (zero_reader 8) sample_rps); done. Defined.
