(* ===== verification/HevcVps.v ===== *)
(** Profile/tier/level, hypothetical-reference-decoder and video parameter
    set syntax of HEVC
    (src/drivers/amvdec_ports/decoder/aml_hevc_parser.c: [parse_ptl],
    [decode_hrd], [ff_hevc_parse_vps]).

    The debug prints are left out.  The long functions are cut into the
    consecutive blocks of the source; an early [return -1] or [goto err] is
    [throw (-1)]. *)

From stdpp Require Import base list numbers.
From Stdlib Require Import ZArith Lia Bool.
From S2P Require Import Prelude.
From S2P Require Import GetBits.
From S2P Require Import Golomb.
From S2P Require Import Parse.
From S2P Require Import HevcTypes.

#[local] Open Scope Z_scope.

(** ** Profile, tier and level *)

(** [static int decode_profile_tier_level(gb, ptl)] *)
Definition decode_profile_tier_level : P PTLCommon Z :=
  call (
    l ← gbm get_bits_left;
    fail_if (l <? 2 + 1 + 5 + 32 + 4 + 16 + 16 + 12) (-1);;
    read8 profile_space (get_bits 2);;
    read8 tier_flag get_bits1;;
    read8 profile_idc (get_bits 5);;
    for_range 0 32 (fun i =>
      v ← gbm get_bits1; set_at profile_compatibility_flag i (u8 v);;
      idc ← look profile_idc;
      f ← at_ profile_compatibility_flag i;
      when ((idc =? 0) && (i >? 0) && truth f) (setf profile_idc (u8 i)));;
    read8 progressive_source_flag get_bits1;;
    read8 interlaced_source_flag get_bits1;;
    read8 non_packed_constraint_flag get_bits1;;
    read8 frame_only_constraint_flag get_bits1;;
    gbm (skip_bits 16);;
    gbm (skip_bits 16);;
    gbm (skip_bits 12)).

(** The per-sub-layer part of [parse_ptl]. *)
Definition parse_ptl_sub_layer (i : Z) : P PTL unit :=
  pf ← at_ sub_layer_profile_present_flag i;
  when (truth pf)
    (r ← sub_at sub_layer_ptl i decode_profile_tier_level; fail_if (r <? 0) (-1));;
  lf ← at_ sub_layer_level_present_flag i;
  when (truth lf)
    (l ← gbm get_bits_left;
     fail_if (l <? 8) (-1);;
     sub_at sub_layer_ptl i (read8 level_idc (get_bits 8))).

(** [static int parse_ptl(gb, ptl, max_num_sub_layers)] *)
Definition parse_ptl (max_num_sub_layers : Z) : P PTL Z :=
  call (
    r ← sub general_ptl decode_profile_tier_level;
    l ← gbm get_bits_left;
    fail_if ((r <? 0) || (l <? 8 + 8 * 2 * b2z (max_num_sub_layers - 1 >? 0))) (-1);;
    sub general_ptl (read8 level_idc (get_bits 8));;
    for_range 0 (max_num_sub_layers - 1) (fun i =>
      p ← gbm get_bits1; set_at sub_layer_profile_present_flag i (u8 p);;
      v ← gbm get_bits1; set_at sub_layer_level_present_flag i (u8 v));;
    when (max_num_sub_layers - 1 >? 0)
      (for_range (max_num_sub_layers - 1) 8 (fun _ => gbm (skip_bits 2)));;
    for_range 0 (max_num_sub_layers - 1) parse_ptl_sub_layer).

(** ** Hypothetical reference decoder parameters *)

(** [static void decode_sublayer_hrd(gb, nb_cpb, subpic_params_present)] *)
Definition decode_sublayer_hrd {T} (nb_cpb : Z) (subpic_params_present : bool) : P T unit :=
  for_range 0 nb_cpb (fun _ =>
    gbm get_ue_golomb_long;;
    gbm get_ue_golomb_long;;
    when subpic_params_present
      (gbm get_ue_golomb_long;; gbm get_ue_golomb_long;; mret tt);;
    gbm skip_bits1).

(** The [common_inf_present] block of [decode_hrd]: the NAL, VCL and
    sub-picture flags. *)
Definition decode_hrd_common {T} : P T (bool * bool * bool) :=
  n ← gbm get_bits1;
  v ← gbm get_bits1;
  let nal_params_present := truth n in
  let vcl_params_present := truth v in
  if nal_params_present || vcl_params_present then
    b ← gbm get_bits1;
    let subpic_params_present := truth b in
    when subpic_params_present
      (gbm (skip_bits 8);; gbm (skip_bits 5);; gbm (skip_bits 1);; gbm (skip_bits 5));;
    gbm (skip_bits 4);;
    gbm (skip_bits 4);;
    when subpic_params_present (gbm (skip_bits 4));;
    gbm (skip_bits 5);;
    gbm (skip_bits 5);;
    gbm (skip_bits 5);;
    mret (nal_params_present, vcl_params_present, subpic_params_present)
  else mret (nal_params_present, vcl_params_present, false).

(** The body of the sub-layer loop of [decode_hrd]. *)
Definition decode_hrd_sub_layer {T} (nal vcl subpic : bool) : P T unit :=
  f ← gbm get_bits1;
  fixed_rate ← (if negb (truth f) then gbm get_bits1 else mret f);
  low_delay ← (if truth fixed_rate then gbm get_ue_golomb_long;; mret 0 else gbm get_bits1);
  nb_cpb ← (if negb (truth low_delay) then
              v ← gbm get_ue_golomb_long;
              let nb_cpb := u32 (v + 1) in
              fail_if ((nb_cpb <? 1) || (nb_cpb >? 32)) (-1);;
              mret nb_cpb
            else mret 1);
  when nal (decode_sublayer_hrd nb_cpb subpic);;
  when vcl (decode_sublayer_hrd nb_cpb subpic).

(** [static int decode_hrd(gb, common_inf_present, max_sublayers)] *)
Definition decode_hrd {T} (common_inf_present : bool) (max_sublayers : Z) : P T Z :=
  call (
    '(nal, vcl, subpic) ←
      (if common_inf_present then decode_hrd_common else mret (false, false, false));
    for_range 0 max_sublayers (fun _ => decode_hrd_sub_layer nal vcl subpic)).

(** ** Video parameter set *)

(** From the start to the profile/tier/level. *)
Definition vps_header : P h265_VPS_t unit :=
  vps_id ← gbm (get_bits 4);
  fail_if (vps_id >=? HEVC_MAX_VPS_COUNT) (-1);;
  three ← gbm (get_bits 2);
  fail_if (negb (three =? 3)) (-1);;
  v ← gbm (get_bits 6); setf vps_max_layers (v + 1);;
  v ← gbm (get_bits 3); setf vps_max_sub_layers (v + 1);;
  read8 vps_temporal_id_nesting_flag get_bits1;;
  ffff ← gbm (get_bits 16);
  fail_if (negb (ffff =? 0xffff)) (-1);;
  n ← look vps_max_sub_layers;
  fail_if (n >? HEVC_MAX_SUB_LAYERS) (-1);;
  r ← sub vps_ptl (parse_ptl n);
  fail_if (r <? 0) (-1).

(** The sub-layer ordering information of layer [i]. *)
Definition vps_sub_layer_ordering (i : Z) : P h265_VPS_t unit :=
  v ← gbm get_ue_golomb_long; set_at vps_max_dec_pic_buffering i (u32 (v + 1));;
  v ← gbm get_ue_golomb_long; set_at vps_num_reorder_pics i v;;
  v ← gbm get_ue_golomb_long; set_at vps_max_latency_increase i (u32 (v - 1));;
  d ← at_ vps_max_dec_pic_buffering i;
  fail_if ((d >? HEVC_MAX_DPB_SIZE) || negb (truth d)) (-1);;
  r ← at_ vps_num_reorder_pics i;
  fail_if (r >? u32 (d - 1)) (-1).

Definition vps_ordering : P h265_VPS_t unit :=
  readi vps_sub_layer_ordering_info_present_flag get_bits1;;
  f ← look vps_sub_layer_ordering_info_present_flag;
  n ← look vps_max_sub_layers;
  for_range (if truth f then 0 else n - 1) n vps_sub_layer_ordering.

(** The layer sets; the flags are skipped. *)
Definition vps_layer_sets : P h265_VPS_t unit :=
  readi vps_max_layer_id (get_bits 6);;
  v ← gbm get_ue_golomb_long; setf vps_num_layer_sets (s32 (u32 (v + 1)));;
  n ← look vps_num_layer_sets;
  m ← look vps_max_layer_id;
  l ← gbm get_bits_left;
  fail_if ((n <? 1) || (n >? 1024) || ((n - 1) * (m + 1) >? l)) (-1);;
  for_range 1 n (fun _ => for_range 0 (m + 1) (fun _ => gbm (skip_bits 1))).

Definition vps_hrd (i : Z) : P h265_VPS_t unit :=
  gbm get_ue_golomb_long;;
  c ← (if truth i then gbm get_bits1 else mret 1);
  n ← look vps_max_sub_layers;
  decode_hrd (truth c) n;;
  mret tt.

Definition vps_timing : P h265_VPS_t unit :=
  read8 vps_timing_info_present_flag get_bits1;;
  t ← look vps_timing_info_present_flag;
  when (truth t)
    (readu vps_num_units_in_tick (get_bits_long 32);;
     readu vps_time_scale (get_bits_long 32);;
     read8 vps_poc_proportional_to_timing_flag get_bits1;;
     p ← look vps_poc_proportional_to_timing_flag;
     when (truth p)
       (v ← gbm get_ue_golomb_long; setf vps_num_ticks_poc_diff_one (s32 (u32 (v + 1))));;
     readi vps_num_hrd_parameters get_ue_golomb_long;;
     h ← look vps_num_hrd_parameters;
     n ← look vps_num_layer_sets;
     fail_if (u32 h >? u32 n) (-1);;
     for_range 0 h vps_hrd).

(** [int ff_hevc_parse_vps(gb, vps)] *)
Definition ff_hevc_parse_vps : P h265_VPS_t Z :=
  call (
    vps_header;;
    vps_ordering;;
    vps_layer_sets;;
    vps_timing;;
    gbm get_bits1;;
    l ← gbm get_bits_left;
    fail_if (l <? 0) (-1)).

(** ** Array sizes *)

Definition ptlc_ok (p : PTLCommon) : Prop := zlen (profile_compatibility_flag p) = 32.

Record ptl_ok (p : PTL) : Prop := {
  ptl_general : ptlc_ok (general_ptl p);
  ptl_subs : zlen (sub_layer_ptl p) = 7 ∧ Forall ptlc_ok (sub_layer_ptl p);
  ptl_flags : zlen (sub_layer_profile_present_flag p) = 7 ∧
              zlen (sub_layer_level_present_flag p) = 7
}.

Record vps_ok (v : h265_VPS_t) : Prop := {
  vok_ptl : ptl_ok (vps_ptl v);
  vok_dec : zlen (vps_max_dec_pic_buffering v) = 7;
  vok_reorder : zlen (vps_num_reorder_pics v) = 7;
  vok_latency : zlen (vps_max_latency_increase v) = 7
}.

Lemma init_vps_ok : vps_ok init_h265_VPS_t.
Proof. repeat (split || constructor). Qed.

(** Closing the memory obligations of a parser. *)
Ltac avail := first [done | eapply avail_le; [|eassumption]; cbn [fst snd]; lia].

Section Hrd.
Context {U : Prop} {T : Type}.

Lemma wp_loop (lo hi c R : Z) (body : Z → P T unit) (I : T → Prop)
    (Q : unit → get_bits_context * T → Prop) E s :
  0 ≤ c → 0 ≤ R → Avail U s.1 (c * Z.max 0 (hi - lo) + R) → I s.2 →
  (∀ i s' R', lo ≤ i < hi → 0 ≤ R' → R ≤ R' → Avail U s'.1 (c + R') → I s'.2 →
     wp U (body i) (fun _ s'' => Avail U s''.1 R' ∧ I s''.2) E s') →
  (∀ s', Avail U s'.1 R → I s'.2 → Q tt s') →
  wp U (for_range lo hi body) Q E s.
Proof.
  intros Hc HR Hav HI Hb HQ.
  apply (wp_for_range _ _ _ (fun i s' => Avail U s'.1 (c * Z.max 0 (hi - i) + R) ∧ I s'.2)).
  - by split.
  - intros i s' Hi [Hav' HI'].
    apply (Hb i s' (c * Z.max 0 (hi - (i + 1)) + R)); [done|nia|nia| |done].
    eapply avail_le; [|exact Hav']. nia.
  - intros s' [Hav' HI']. apply HQ; [|done]. eapply avail_le; [|exact Hav']. nia.
Qed.

Lemma decode_sublayer_hrd_wp nb_cpb subpic R t0 (Q : unit → get_bits_context * T → Prop) E s :
  0 ≤ R → nb_cpb ≤ 32 → Avail U s.1 (253 * 32 + R) → s.2 = t0 →
  (∀ g', Avail U g' R → Q tt (g', t0)) →
  wp U (decode_sublayer_hrd nb_cpb subpic) Q E s.
Proof.
  intros HR Hn Hav Ht HQ. unfold decode_sublayer_hrd.
  apply (wp_loop _ _ 253 R _ (fun t => t = t0)); [lia|done|avail|done| |].
  - intros i s' R' Hi HR' HRR Hav' <-.
    parse_step 0. parse_step (190 + R'); [avail|]. parse_step 0. parse_step (127 + R'); [avail|].
    parse_step 0. wp_step.
    + parse_step 0. parse_step (64 + R'); [avail|]. parse_step 0. parse_step (1 + R'); [avail|].
      parse_step 0. parse_step R'; [avail|]. done.
    + parse_step R'; [avail|]. done.
  - intros [g' t] Hg Ht'. cbn in *. subst t. by apply HQ.
Qed.

Lemma decode_hrd_common_wp R (Q : bool * bool * bool → get_bits_context * T → Prop) E s :
  0 ≤ R → Avail U s.1 (49 + R) → (∀ f g', Avail U g' R → Q f (g', s.2)) →
  wp U decode_hrd_common Q E s.
Proof.
  intros HR Hav HQ. unfold decode_hrd_common.
  parse_step 0. parse_step (48 + R); [avail|]. parse_step 0. parse_step (47 + R); [avail|].
  wp_step.
  - parse_step 0. parse_step (46 + R); [avail|]. parse_step 0.
    assert (∀ f g', Avail U g' (27 + R) → wp U (
      gbm (skip_bits 4);; gbm (skip_bits 4);; when (truth v1) (gbm (skip_bits 4));;
      gbm (skip_bits 5);; gbm (skip_bits 5);; gbm (skip_bits 5);;
      mret f) Q E (g', s.2)) as Hrest.
    { intros f g2 Hg2. parse_step 0. parse_step (23 + R); [avail|]. parse_step 0. parse_step (19 + R); [avail|].
      parse_step 0.
      assert (∀ g', Avail U g' (15 + R) → wp U (
        gbm (skip_bits 5);; gbm (skip_bits 5);; gbm (skip_bits 5);; mret f) Q E (g', s.2)) as HT3.
      { intros g3 Hg3. parse_step 0. parse_step (10 + R); [avail|]. parse_step 0. parse_step (5 + R); [avail|].
        parse_step 0. parse_step R; [avail|]. parse_step 0. by apply HQ. }
      wp_step.
      - parse_step (15 + R); [avail|]. by apply HT3.
      - apply HT3. avail. }
    wp_step.
    + parse_step 0. parse_step (38 + R); [avail|]. parse_step 0. parse_step (33 + R); [avail|].
      parse_step 0. parse_step (32 + R); [avail|]. parse_step (27 + R); [avail|]. by apply Hrest.
    + apply Hrest. avail.
  - parse_step 0. apply HQ. avail.
Qed.

Lemma decode_hrd_sub_layer_wp nal vcl subpic R (Q : unit → get_bits_context * T → Prop) E s :
  0 ≤ R → Avail U s.1 (128 + 2 * (253 * 32) + R) →
  (∀ g', Avail U g' R → Q tt (g', s.2)) →
  (∀ g', Avail U g' R → E (-1) (g', s.2)) →
  wp U (decode_hrd_sub_layer nal vcl subpic) Q E s.
Proof.
  intros HR Hav HQ HE. unfold decode_hrd_sub_layer.
  assert (∀ nb g', nb ≤ 32 → Avail U g' (2 * (253 * 32) + R) →
    wp U (when nal (decode_sublayer_hrd nb subpic);; when vcl (decode_sublayer_hrd nb subpic)) Q E (g', s.2)) as HT4.
  { intros nb g' Hnb Hg. parse_step 0. destruct nal; cbn [when].
    - apply (decode_sublayer_hrd_wp _ _ (253 * 32 + R) s.2); [lia|done|avail|done|].
      intros g2 Hg2. destruct vcl; cbn [when].
      + by apply (decode_sublayer_hrd_wp _ _ R s.2).
      + apply HQ. avail.
    - apply wp_ret. destruct vcl; cbn [when].
      + apply (decode_sublayer_hrd_wp _ _ R s.2); [done|done|avail|done|done].
      + apply HQ. avail. }
  assert (∀ low g', Avail U g' (63 + 2 * (253 * 32) + R) →
    wp U (nb_cpb ← (if negb (truth low) then
            v ← gbm get_ue_golomb_long;
            let nb_cpb := u32 (v + 1) in
            fail_if ((nb_cpb <? 1) || (nb_cpb >? 32)) (-1);;
            mret nb_cpb
          else mret 1);
      when nal (decode_sublayer_hrd nb_cpb subpic);;
      when vcl (decode_sublayer_hrd nb_cpb subpic)) Q E (g', s.2)) as HT3.
  { intros low g' Hg. parse_step 0. wp_step.
    - parse_step 0. parse_step (2 * (253 * 32) + R); [avail|]. parse_step 0. parse_step 0.
      + apply HE. avail.
      + bprop. parse_step 0. by apply HT4.
    - parse_step 0. apply HT4; [lia|avail]. }
  assert (∀ f g', Avail U g' (126 + 2 * (253 * 32) + R) →
    wp U (low_delay ← (if truth f then gbm get_ue_golomb_long;; mret 0 else gbm get_bits1);
      nb_cpb ← (if negb (truth low_delay) then
            v ← gbm get_ue_golomb_long;
            let nb_cpb := u32 (v + 1) in
            fail_if ((nb_cpb <? 1) || (nb_cpb >? 32)) (-1);;
            mret nb_cpb
          else mret 1);
      when nal (decode_sublayer_hrd nb_cpb subpic);;
      when vcl (decode_sublayer_hrd nb_cpb subpic)) Q E (g', s.2)) as HT2.
  { intros f g' Hg. parse_step 0. wp_step.
    - parse_step 0. parse_step (63 + 2 * (253 * 32) + R); [avail|]. parse_step 0. by apply HT3.
    - parse_step (63 + 2 * (253 * 32) + R); [avail|]. by apply HT3. }
  parse_step 0. parse_step (127 + 2 * (253 * 32) + R); [avail|]. parse_step 0. wp_step.
  - parse_step (126 + 2 * (253 * 32) + R); [avail|]. by apply HT2.
  - parse_step 0. apply HT2. avail.
Qed.

Lemma decode_hrd_wp common n R (Q : Z → get_bits_context * T → Prop) E s :
  0 ≤ R → U ∨ n ≤ 7 → Avail U s.1 (114289 + R) → (∀ r g', Avail U g' R → Q r (g', s.2)) →
  wp U (decode_hrd common n) Q E s.
Proof.
  intros HR Hn Hav HQ. unfold decode_hrd. apply wp_call. parse_step 0.
  assert (∀ f g', Avail U g' (7 * 16320 + R) → wp U (
    let '(nal, vcl, subpic) := f in for_range 0 n (fun _ => decode_hrd_sub_layer nal vcl subpic))
    (fun _ => Q 0) Q (g', s.2)) as Hl.
  { intros [[nal vcl] subpic] g' Hg.
    apply (wp_loop _ _ 16320 R _ (fun t => t = s.2)); [lia|done| |done| |].
    { destruct Hn as [HU|Hn]; [by left|avail]. }
    - intros i s' R' Hi HR' HRR Hav' Hs'.
      apply (decode_hrd_sub_layer_wp _ _ _ R'); [done|avail| |].
      + intros g2 Hg2. by split.
      + intros g2 Hg2. rewrite Hs'. apply HQ. avail.
    - intros [g2 t] Hg2 Ht. cbn in *. subst. by apply HQ. }
  wp_step.
  - apply (decode_hrd_common_wp (7 * 16320 + R)); [lia|avail|]. intros f g' Hg. by apply Hl.
  - parse_step 0. destruct s. apply (Hl (false, false, false)). avail.
Qed.
End Hrd.

Section Vps.
Context {U : Prop}.

Lemma decode_ptl_wp R (E : Z → get_bits_context * PTLCommon → Prop) s :
  0 ≤ R → Avail U s.1 (88 + R) → ptlc_ok s.2 →
  wp U decode_profile_tier_level
    (fun r s' => Avail U s'.1 R ∧ ptlc_ok s'.2 ∧ (r = 0 ∨ r = -1)) E s.
Proof.
  intros HR Hav Hok. unfold decode_profile_tier_level. apply wp_call.
  parse_step 0. parse_step 0. parse_step 0. parse_step 0.
  { split; [avail|]. split; [done|by right]. }
  parse_step 0. parse_step (86 + R); [avail|]. parse_step 0. parse_step (85 + R); [avail|].
  parse_step 0. parse_step (80 + R); [avail|]. parse_step 0.
  eapply (wp_loop _ _ 1 (48 + R) _ ptlc_ok); [lia|lia|avail|done| |].
  - intros i s' R' Hi HR' HRR Hav' Hok'. unfold ptlc_ok in *.
    parse_step 0. parse_step R'; [avail|]. parse_step 0. parse_step 0; [right; cbn; lia|].
    parse_step 0. parse_step 0. parse_step 0. parse_step 0; [right; cbn; rewrite zlen_insert; lia|].
    wp_step; [parse_step 0|]; (split; [done|]); cbn; by rewrite zlen_insert.
  - intros s' Hav' Hok'.
    parse_step 0. parse_step (47 + R); [avail|]. parse_step 0. parse_step (46 + R); [avail|].
    parse_step 0. parse_step (45 + R); [avail|]. parse_step 0. parse_step (44 + R); [avail|].
    parse_step 0. parse_step (28 + R); [avail|]. parse_step 0. parse_step (12 + R); [avail|].
    parse_step R; [avail|]. split; [done|]. split; [exact Hok'|by left].
Qed.

Lemma ptl_sub_update p i e : ptl_ok p → 0 ≤ i < 7 → ptlc_ok e →
  ptl_ok (p <| sub_layer_ptl := <[Z.to_nat i := e]> (sub_layer_ptl p) |>).
Proof.
  intros [Hg [Hn Hf] Hfl] Hi He. split; [done| |done]. cbn.
  split; [by rewrite zlen_insert|]. by apply Forall_insert.
Qed.

Lemma ptl_sub_lookup p i b : ptl_ok p → aget (sub_layer_ptl p) i = Some b → ptlc_ok b.
Proof. intros [_ [_ Hf] _] [_ Hb]%aget_inv. by eapply Forall_lookup_1. Qed.

Lemma parse_ptl_sub_layer_wp i R s :
  0 ≤ R → 0 ≤ i < 6 → Avail U s.1 (96 + R) → ptl_ok s.2 →
  wp U (parse_ptl_sub_layer i) (fun _ s' => Avail U s'.1 R ∧ ptl_ok s'.2)
    (fun e s' => e = -1 ∧ Avail U s'.1 R ∧ ptl_ok s'.2) s.
Proof.
  intros HR Hi Hav Hok. destruct (Hok) as [_ [Hn _] [Hf1 Hf2]]. unfold parse_ptl_sub_layer.
  assert (∀ s', Avail U s'.1 (8 + R) → ptl_ok s'.2 → wp U (
    lf ← at_ sub_layer_level_present_flag i;
    when (truth lf)
      (l ← gbm get_bits_left; fail_if (l <? 8) (-1);;
       sub_at sub_layer_ptl i (read8 level_idc (get_bits 8))))
    (fun _ s' => Avail U s'.1 R ∧ ptl_ok s'.2) (fun e s' => e = -1 ∧ Avail U s'.1 R ∧ ptl_ok s'.2) s') as Hrest.
  { intros s' Hav' Hok'. destruct (Hok') as [_ [Hn' _] [Hf1' Hf2']].
    parse_step 0. parse_step 0; [right; lia|]. wp_step; [|split; [avail|done]].
    parse_step 0. parse_step 0. parse_step 0. parse_step 0; [split; [done|]; split; [avail|done]|].
    parse_step 0; [right; lia|]. parse_step R; [avail|]. split; [done|].
    apply ptl_sub_update; [done|lia|]. by apply (ptl_sub_lookup s'.2 i b Hok'). }
  parse_step 0. parse_step 0; [right; lia|]. parse_step 0. wp_step.
  - parse_step 0. parse_step 0; [right; lia|]. eapply wp_mono; [apply (decode_ptl_wp (8 + R)); [lia|avail|]|..].
    + by apply (ptl_sub_lookup s.2 i b Hok).
    + intros r s' (Hav' & Hc & Hr). cbn [fst snd]. parse_step 0.
      * split; [done|]. split; [avail|]. apply ptl_sub_update; [done|lia|done].
      * apply Hrest; [done|]. apply ptl_sub_update; [done|lia|done].
    + intros e s' He. exact He.
  - apply Hrest; [avail|done].
Qed.

Lemma parse_ptl_wp n R (E : Z → get_bits_context * PTL → Prop) s :
  0 ≤ R → n ≤ 7 → Avail U s.1 (716 + R) → ptl_ok s.2 →
  wp U (parse_ptl n) (fun r s' => Avail U s'.1 R ∧ ptl_ok s'.2 ∧ (r = 0 ∨ r = -1)) E s.
Proof.
  intros HR Hn Hav Hok. unfold parse_ptl. apply wp_call.
  parse_step 0. parse_step 0. eapply wp_mono; [apply (decode_ptl_wp (628 + R)); [lia|avail|apply Hok]|..].
  2: { intros e s' He; exact He. }
  intros r s1 (Hav1 & Hc1 & Hr1). cbn [fst snd].
  assert (∀ x, ptlc_ok x → ptl_ok (s.2 <| general_ptl := x |>)) as Hg by (intros x Hx; destruct Hok; split; done).
  parse_step 0. parse_step 0. parse_step 0. parse_step 0.
  { split; [avail|]. split; [by apply Hg|by right]. }
  parse_step 0. parse_step 0. parse_step (620 + R); [avail|].
  assert (ptl_ok (s.2 <| general_ptl := s1.2 |> <| general_ptl := s1.2 <| level_idc := u8 v |> |>)) as Hok2.
  { destruct Hok. split; done. }
  parse_step 0. apply (wp_loop _ _ 2 (592 + R) _ ptl_ok); [lia|lia|avail|done| |].
  { intros i s' R' Hi HR' HRR Hav' Hok'. destruct (Hok') as [Hg' Hs' [Hf1 Hf2]].
    parse_step 0. parse_step (1 + R'); [avail|]. parse_step 0. parse_step 0; [right; cbn; lia|].
    parse_step 0. parse_step R'; [avail|]. parse_step 0; [right; cbn; lia|].
    split; [done|]. split; [exact Hg'|exact Hs'|]. cbn. by rewrite !zlen_insert. }
  intros s2 Hav2 Hok3. parse_step 0.
  assert (∀ s', Avail U s'.1 (576 + R) → ptl_ok s'.2 →
    wp U (for_range 0 (n - 1) parse_ptl_sub_layer)
      (fun _ s' => Avail U s'.1 R ∧ ptl_ok s'.2 ∧ (0 = 0 ∨ 0 = -1))
      (fun r s' => Avail U s'.1 R ∧ ptl_ok s'.2 ∧ (r = 0 ∨ r = -1)) s') as Hlast.
  { intros s' Hav' Hok'. apply (wp_loop _ _ 96 R _ ptl_ok); [lia|done|avail|done| |].
    - intros i s3 R' Hi HR' HRR Hav3 Hok4. eapply wp_mono; [apply (parse_ptl_sub_layer_wp i R'); [done|lia|avail|done]|..].
      + done.
      + intros e s4 (-> & Hav4 & Hok5). split; [avail|]. split; [done|by right].
    - intros s3 Hav3 Hok4. split; [done|]. split; [done|by left]. }
  wp_step; bprop; [|apply Hlast; [avail|done]].
  apply (wp_loop _ _ 2 (576 + R) _ ptl_ok); [lia|lia|avail|done| |done].
  intros i s' R' Hi HR' HRR Hav' Hok'. parse_step R'; [avail|]. done.
Qed.

(** *** The blocks of [ff_hevc_parse_vps] *)

Definition err_post : Z → get_bits_context * h265_VPS_t → Prop := fun e _ => e = -1.

Record hdr_inv (v : h265_VPS_t) : Prop := {
  hi_ok : vps_ok v;
  hi_layers : 1 ≤ vps_max_layers v ≤ 64;
  hi_sub : 1 ≤ vps_max_sub_layers v ≤ 7
}.

(** A layer whose ordering information was checked. *)
Definition layer_ok (v : h265_VPS_t) (i : Z) : Prop :=
  ∃ d r, aget (vps_max_dec_pic_buffering v) i = Some d ∧ aget (vps_num_reorder_pics v) i = Some r ∧
    1 ≤ d ≤ 16 ∧ 0 ≤ r ≤ d - 1.

Definition first_layer (v : h265_VPS_t) : Z :=
  if truth (vps_sub_layer_ordering_info_present_flag v) then 0 else vps_max_sub_layers v - 1.

Definition ord_inv (v : h265_VPS_t) : Prop :=
  hdr_inv v ∧ ∀ i, first_layer v ≤ i < vps_max_sub_layers v → layer_ok v i.

Definition sets_inv (v : h265_VPS_t) : Prop :=
  ord_inv v ∧ 0 ≤ vps_max_layer_id v < 64 ∧ 1 ≤ vps_num_layer_sets v ≤ 1024.

Lemma vps_header_wp R s :
  0 ≤ R → Avail U s.1 (748 + R) → vps_ok s.2 →
  wp U vps_header (fun _ s' => Avail U s'.1 R ∧ hdr_inv s'.2) err_post s.
Proof.
  intros HR Hav [Hp Hd Hr Hl]. unfold vps_header, HEVC_MAX_SUB_LAYERS, HEVC_MAX_VPS_COUNT.
  parse_step 0. parse_step (744 + R); [avail|]. parse_step 0. parse_step 0; [done|].
  parse_step 0. parse_step (742 + R); [avail|]. parse_step 0. parse_step 0; [done|].
  parse_step 0. parse_step (736 + R); [avail|]. parse_step 0. parse_step 0.
  parse_step 0. parse_step (733 + R); [avail|]. parse_step 0. parse_step 0.
  parse_step 0. parse_step (732 + R); [avail|].
  parse_step 0. parse_step (716 + R); [avail|]. parse_step 0. parse_step 0; [done|].
  parse_step 0. parse_step 0. parse_step 0. parse_step 0; [done|].
  bprop. cbn in *. parse_step 0. parse_step 0.
  eapply wp_mono; [apply (parse_ptl_wp _ R); [done|lia|avail|exact Hp]|..].
  - intros r' s' (Hav' & Hp' & _). cbn [fst snd] in *. parse_step 0; [done|].
    split; [done|]. split; [split; assumption|cbn; lia|cbn; lia].
  - intros e s' He. exact He.
Qed.

Lemma vps_ordering_layer_wp i R s :
  0 ≤ R → first_layer s.2 ≤ i < vps_max_sub_layers s.2 → Avail U s.1 (189 + R) → hdr_inv s.2 →
  (∀ j, first_layer s.2 ≤ j < i → layer_ok s.2 j) →
  wp U (vps_sub_layer_ordering i) (fun _ s' => Avail U s'.1 R ∧ hdr_inv s'.2 ∧
    first_layer s'.2 = first_layer s.2 ∧ vps_max_sub_layers s'.2 = vps_max_sub_layers s.2 ∧
    ∀ j, first_layer s.2 ≤ j < i + 1 → layer_ok s'.2 j) err_post s.
Proof.
  intros HR Hi Hav Hinv Hlay. destruct (Hinv) as [[Hp Hd Hr Hl] Hml Hsl].
  assert (0 ≤ i < 7) as Hi7.
  { unfold first_layer in Hi. destruct (truth _); lia. }
  unfold vps_sub_layer_ordering, HEVC_MAX_DPB_SIZE.
  parse_step 0. parse_step (126 + R); [avail|]. parse_step 0. parse_step 0; [right; cbn; lia|].
  parse_step 0. parse_step (63 + R); [avail|]. parse_step 0. parse_step 0; [right; cbn; lia|].
  parse_step 0. parse_step R; [avail|]. parse_step 0. parse_step 0; [right; cbn; lia|].
  parse_step 0. parse_step 0; [right; cbn; rewrite zlen_insert; lia|]. rename a into d.
  parse_step 0. parse_step 0; [done|].
  parse_step 0. parse_step 0; [right; cbn; rewrite zlen_insert; lia|]. rename a into r.
  parse_step 0; [done|]. unfold truth in *. bprop.
  match goal with Ha : aget _ i = Some d |- _ => rename Ha into Had; cbn in Had end.
  match goal with Ha : aget _ i = Some r |- _ => rename Ha into Har; cbn in Har end.
  pose proof (aget_insert (vps_max_dec_pic_buffering s.2) i (u32 (v + 1)) ltac:(lia)) as E1.
  pose proof (aget_insert (vps_num_reorder_pics s.2) i v0 ltac:(lia)) as E2.
  assert (d = u32 (v + 1)) as -> by congruence. assert (r = v0) as -> by congruence.
  pose proof (u32_range (v + 1)).
  assert (u32 (u32 (v + 1) - 1) = u32 (v + 1) - 1) as Hsub by (apply u32_id; lia).
  split; [done|]. split; [|split; [done|split; [done|]]].
  - split; [split; [done|..]|done|done]; cbn; by rewrite zlen_insert.
  - intros j Hj. destruct (decide (j = i)) as [->|Hne].
    + exists (u32 (v + 1)), v0. cbn. split; [done|]. split; [done|]. lia.
    + destruct (Hlay j) as (d' & r' & Hd' & Hr' & Hb); [lia|]. exists d', r'. cbn.
      rewrite !aget_insert_ne by lia. done.
Qed.

Lemma vps_ordering_wp R s :
  0 ≤ R → Avail U s.1 (1324 + R) → hdr_inv s.2 →
  wp U vps_ordering (fun _ s' => Avail U s'.1 R ∧ ord_inv s'.2) err_post s.
Proof.
  intros HR Hav Hinv. unfold vps_ordering. parse_step 0. parse_step (1323 + R); [avail|].
  set (s1 := s.2 <| vps_sub_layer_ordering_info_present_flag := s32 v |>).
  assert (hdr_inv s1) as Hinv1 by (destruct Hinv as [[? ? ? ?] ? ?]; split; [split|..]; done).
  parse_step 0. parse_step 0. parse_step 0. parse_step 0.
  fold (first_layer s1). destruct (Hinv1) as [_ _ Hsl].
  assert (0 ≤ first_layer s1 ≤ vps_max_sub_layers s1) as Hfl by (unfold first_layer; destruct (truth _); lia).
  apply (wp_for_range _ _ _ (fun i s' => Avail U s'.1 (189 * (7 - i) + R) ∧ hdr_inv s'.2 ∧
    first_layer s'.2 = first_layer s1 ∧ vps_max_sub_layers s'.2 = vps_max_sub_layers s1 ∧
    ∀ j, first_layer s1 ≤ j < i → layer_ok s'.2 j)).
  - cbn [fst snd]. split; [avail|]. split; [done|]. split; [done|]. split; [done|]. lia.
  - intros i s' Hi (Hav' & Hinv' & Hf & Hm & Hlay). rewrite <- Hf, <- Hm in Hi.
    eapply wp_mono; [apply (vps_ordering_layer_wp i (189 * (7 - (i + 1)) + R)); [lia|done|avail|done|by rewrite Hf]|..].
    + intros u s2 (Hav2 & Hinv2 & Hf2 & Hm2 & Hlay2). split; [done|]. split; [done|]. split; [congruence|]. split; [congruence|].
      intros j Hj. apply Hlay2. by rewrite Hf.
    + done.
  - intros s' (Hav' & Hinv' & Hf & Hm & Hlay). split; [avail|]. split; [done|].
    intros i Hi. apply Hlay. rewrite Hf, Hm in Hi. lia.
Qed.

Lemma vps_layer_sets_wp R s :
  0 ≤ R → Avail U s.1 (65541 + R) → ord_inv s.2 →
  wp U vps_layer_sets (fun _ s' => Avail U s'.1 R ∧ sets_inv s'.2) err_post s.
Proof.
  intros HR Hav [[[? ? ? ?] ? ?] Hlay]. unfold vps_layer_sets.
  parse_step 0. parse_step (65535 + R); [avail|]. rename v into mid.
  parse_step 0. parse_step (65472 + R); [avail|]. parse_step 0. parse_step 0. parse_step 0. parse_step 0.
  parse_step 0. parse_step 0. parse_step 0. parse_step 0. parse_step 0. parse_step 0; [done|].
  bprop. cbn in *. rewrite (s32_id mid) in * by lia.
  apply (wp_loop _ _ 64 R _ sets_inv); [lia|done|cbn; avail| | |].
  - split; [split; [split; [split|..]|]|split]; cbn; try done; lia.
  - intros i s' R' Hi HR' HRR Hav' Hs'.
    apply (wp_loop _ _ 1 R' _ sets_inv); [lia|done|avail|done| |by split].
    intros j s2 R2 Hj HR2 HRR2 Hav2 Hs2. parse_step R2; [avail|]. by split.
  - intros s' Hav' Hs'. by split.
Qed.

(** The result of a successful parse. *)
Record vps_valid (v : h265_VPS_t) : Prop := {
  vv_ok : vps_ok v;
vv_layers : 1 ≤ vps_max_layers v ≤ 64;
  vv_sub : 1 ≤ vps_max_sub_layers v ≤ 7;
  vv_ordering : ∀ i, first_layer v ≤ i < vps_max_sub_layers v → layer_ok v i;
  vv_layer_id : 0 ≤ vps_max_layer_id v < 64;
  vv_sets : 1 ≤ vps_num_layer_sets v ≤ 1024;
  vv_hrd : truth (vps_timing_info_present_flag v) = true →
    0 ≤ vps_num_hrd_parameters v ≤ vps_num_layer_sets v
}.

Lemma sets_valid v : sets_inv v →
  (truth (vps_timing_info_present_flag v) = true →
    0 ≤ vps_num_hrd_parameters v ≤ vps_num_layer_sets v) → vps_valid v.
Proof. intros [[[? ? ?] ?] [? ?]] ?. by split. Qed.

Lemma vps_hrd_wp i R s : 0 ≤ R → Avail U s.1 (114353 + R) → sets_inv s.2 →
  wp U (vps_hrd i) (fun _ s' => Avail U s'.1 R ∧ s'.2 = s.2) err_post s.
Proof.
  intros HR Hav Hs. assert (vps_max_sub_layers s.2 ≤ 7) by (destruct Hs as [[[? ? ?] ?] ?]; lia).
  unfold vps_hrd. parse_step 0. parse_step (114290 + R); [avail|].
  parse_step 0.
  assert (∀ c g', Avail U g' (114289 + R) → wp U (
    n ← look vps_max_sub_layers; decode_hrd (truth c) n;; mret tt)
    (fun _ s' => Avail U s'.1 R ∧ s'.2 = s.2) err_post (g', s.2)) as Hrest.
  { intros c g1 Hg. parse_step 0. parse_step 0. parse_step 0.
    apply (decode_hrd_wp _ _ R); [done|by right|done|]. intros r g2 Hg2. by parse_step 0. }
  wp_step.
  - parse_step (114289 + R); [avail|]. by apply Hrest.
  - parse_step 0. apply Hrest. avail.
Qed.

Lemma vps_timing_wp R s :
  0 ≤ R → Avail U s.1 (117097664 + R) → sets_inv s.2 →
  wp U vps_timing (fun _ s' => Avail U s'.1 R ∧ vps_valid s'.2) err_post s.
Proof.
  intros HR Hav Hs. unfold vps_timing. parse_step 0. parse_step (117097663 + R); [avail|].
  set (s1 := s.2 <| vps_timing_info_present_flag := u8 v |>).
  assert (sets_inv s1) as Hs1 by (destruct Hs as [[[[? ? ? ?] ? ?] ?] ?]; repeat (split; try done)).
  parse_step 0. parse_step 0. change (vps_timing_info_present_flag s1) with (u8 v). wp_step.
  2: { split; [avail|]. apply sets_valid; [done|]. cbn. congruence. }
  parse_step 0. parse_step (117097631 + R); [avail|]. parse_step 0. parse_step (117097599 + R); [avail|].
  parse_step 0. parse_step (117097598 + R); [avail|]. parse_step 0. parse_step 0. parse_step 0.
  assert (∀ g' t, Avail U g' (117097535 + R) → sets_inv t → wp U (
    readi vps_num_hrd_parameters get_ue_golomb_long;;
    h ← look vps_num_hrd_parameters;
    n ← look vps_num_layer_sets;
    fail_if (u32 h >? u32 n) (-1);;
    for_range 0 h vps_hrd) (fun _ s' => Avail U s'.1 R ∧ vps_valid s'.2) err_post (g', t)) as Hrest.
  { intros g9 t Hg Ht. parse_step 0. parse_step (117097472 + R); [avail|]. rename v3 into h.
    parse_step 0. parse_step 0. parse_step 0. parse_step 0. parse_step 0. parse_step 0; [done|]. bprop.
    set (t1 := t <| vps_num_hrd_parameters := s32 h |>) in *.
    assert (sets_inv t1) as Ht1 by (destruct Ht as [[[[? ? ? ?] ? ?] ?] ?]; repeat (split; try done)).
    assert (1 ≤ vps_num_layer_sets t1 ≤ 1024) as Hn by apply Ht1.
    change (vps_num_hrd_parameters t1) with (s32 h) in *.
    rewrite u32_s32, (u32_id (vps_num_layer_sets t1)), (u32_id h) in * by lia.
    rewrite (s32_id h) in * by lia.
    apply (wp_loop _ _ 114353 R _ (fun t' => t' = t1)); [lia|done|avail|done| |].
    - intros i s' R' Hi HR' HRR Hav' Hs'. eapply wp_mono; [apply (vps_hrd_wp i R'); [done|done|by rewrite Hs']|..].
      + intros u s2 [? Hs2]. split; [done|congruence].
      + done.
    - intros s' Hav' Hs'. split; [done|]. rewrite Hs'. apply sets_valid; [done|]. intros _. change (vps_num_hrd_parameters t1) with (s32 h). rewrite s32_id by lia. lia. }
  wp_step.
  - parse_step 0. parse_step (117097535 + R); [avail|]. parse_step 0.
    apply Hrest; [done|]. destruct Hs1 as [[[[? ? ? ?] ? ?] ?] ?]; repeat (split; try done).
  - apply Hrest; [avail|]. destruct Hs1 as [[[[? ? ? ?] ? ?] ?] ?]; repeat (split; try done).
Qed.

Lemma parse_vps_wp R (E : Z → get_bits_context * h265_VPS_t → Prop) s :
  0 ≤ R → Avail U s.1 (117165278 + R) → vps_ok s.2 →
  wp U ff_hevc_parse_vps (fun r s' => r = 0 ∧ vps_valid s'.2 ∨ r = -1) E s.
Proof.
  intros HR Hav Hok. unfold ff_hevc_parse_vps. apply wp_call.
  assert (∀ e s', err_post e s' → e = 0 ∧ vps_valid s'.2 ∨ e = -1) as Herr by (intros e s' He; by right).
  parse_step 0. eapply wp_mono; [apply (vps_header_wp (117164530 + R)); [lia|avail|done]| |exact Herr].
  intros [] s1 [Hav1 H1]. parse_step 0.
  eapply wp_mono; [apply (vps_ordering_wp (117163206 + R)); [lia|avail|done]| |exact Herr].
  intros [] s2 [Hav2 H2]. parse_step 0.
  eapply wp_mono; [apply (vps_layer_sets_wp (117097665 + R)); [lia|avail|done]| |exact Herr].
  intros [] s3 [Hav3 H3]. parse_step 0.
  eapply wp_mono; [apply (vps_timing_wp (1 + R)); [lia|avail|done]| |exact Herr].
  intros [] s4 [Hav4 H4]. parse_step 0. parse_step R; [avail|]. parse_step 0. parse_step 0.
  parse_step 0; [by right|]. by left.
Qed.
End Vps.

(** C28: whatever the input, when [ff_hevc_parse_vps] returns, it returns 0
    or -1, and on 0 every field the decoder uses is in the range of the
    standard: 1..7 sub-layers, a DPB of 1..16 pictures with fewer reordered
    ones in every signalled layer, 1..1024 layer sets, no more HRD parameters
    than layer sets. *)
Theorem parse_vps_valid g v ret g' v' :
  vps_ok v → ff_hevc_parse_vps (g, v) = Ok ret (g', v') →
  (ret = 0 ∧ vps_valid v') ∨ ret = -1.
Proof.
  intros Hv He. refine (wp_ok _ (fun r s' => r = 0 ∧ vps_valid s'.2 ∨ r = -1) (fun _ _ => True) _ _ _ _ He).
  apply (parse_vps_wp (U := True) 0); [done|by left|done].
Qed.

(** The RBSP of a VPS of one layer and one sub-layer, without HRD. *)
Definition sample_vps : get_bits_context :=
  (init_get_bits8 (Some ([12; 1; 255; 255; 1; 96; 0; 0; 0; 144; 0; 0; 0; 0; 0; 93; 149; 152; 9] ++
    replicate 64 0)) 19).2.

Lemma parse_vps_valid_witness :
  ∃ g' v', ff_hevc_parse_vps (sample_vps, init_h265_VPS_t) = Ok 0 (g', v') ∧
    ((0 = 0 ∧ vps_valid v') ∨ 0 = -1).
Proof.
  eexists _, _. split; [vm_compute; reflexivity|].
  eapply (parse_vps_valid sample_vps init_h265_VPS_t); [apply init_vps_ok|vm_compute; reflexivity].
Defined.

(** [ff_hevc_parse_vps] always terminates and never reaches undefined
    behaviour when enough memory may be read: no array of the structure is
    accessed out of bounds, whatever the input.  The bound is that of the
    longest VPS the syntax and the checks of the code admit (1024 HRD
    structures of 7 sub-layers with 32 CPBs). *)
Theorem parse_vps_total g v :
  vps_ok v → room g 117165278 →
  ∃ ret s', ff_hevc_parse_vps (g, v) = Ok ret s' ∧ (ret = 0 ∨ ret = -1).
Proof.
  intros Hv Hg.
  pose proof (parse_vps_wp (U := False) 0 (fun _ _ => False) (g, v) ltac:(lia) (or_intror Hg) Hv) as Hwp.
  unfold wp in Hwp. destruct (ff_hevc_parse_vps (g, v)) as [ret s'| |]; [|done..].
  exists ret, s'. split; [done|]. tauto.
Qed.

Lemma parse_vps_total_witness :
  ∃ ret s', ff_hevc_parse_vps (zero_reader (Z.to_nat 15000000), init_h265_VPS_t) = Ok ret s' ∧
    (ret = 0 ∨ ret = -1).
Proof.
  apply (parse_vps_total (zero_reader (Z.to_nat 15000000)) init_h265_VPS_t); [apply init_vps_ok|].
  apply zero_reader_room. lia.
Defined.
