(* ===== verification/HevcSps.v ===== *)
(** The HEVC sequence parameter set
    (src/drivers/amvdec_ports/decoder/aml_hevc_parser.c: [scaling_list_data],
    [decode_vui], [ff_hevc_parse_sps]).

    The debug prints are left out; [char_signed] is the signedness of plain
    [char] (see Golomb.v).  [ff_hevc_parse_sps] is cut into the consecutive
    blocks of the source; the members a block does not assign keep what an
    earlier parse left in them, as in C. *)

From stdpp Require Import base list numbers strings.
From Stdlib Require Import ZArith Lia Bool.
From S2P Require Import Prelude.
From S2P Require Import CommonUtils.
From S2P Require Import GetBits.
From S2P Require Import PutBits.
From S2P Require Import Golomb.
From S2P Require Import Parse.
From S2P Require Import HevcTypes.
From S2P Require Import HevcRps.
From S2P Require Import HevcVps.

#[local] Open Scope Z_scope.

(** ** Tables *)

(** Diagonal scans. *)
Definition ff_hevc_diag_scan4x4_x : list Z := [
  0; 0; 1; 0; 1; 2; 0; 1; 2; 3; 1; 2; 3; 2; 3; 3
].

Definition ff_hevc_diag_scan4x4_y : list Z := [
  0; 1; 0; 2; 1; 0; 3; 2; 1; 0; 3; 2; 1; 3; 2; 3
].

Definition ff_hevc_diag_scan8x8_x : list Z := [
  0; 0; 1; 0; 1; 2; 0; 1; 2; 3; 0; 1; 2; 3; 4; 0;
  1; 2; 3; 4; 5; 0; 1; 2; 3; 4; 5; 6; 0; 1; 2; 3;
  4; 5; 6; 7; 1; 2; 3; 4; 5; 6; 7; 2; 3; 4; 5; 6;
  7; 3; 4; 5; 6; 7; 4; 5; 6; 7; 5; 6; 7; 6; 7; 7
].

Definition ff_hevc_diag_scan8x8_y : list Z := [
  0; 1; 0; 2; 1; 0; 3; 2; 1; 0; 4; 3; 2; 1; 0; 5;
  4; 3; 2; 1; 0; 6; 5; 4; 3; 2; 1; 0; 7; 6; 5; 4;
  3; 2; 1; 0; 7; 6; 5; 4; 3; 2; 1; 7; 6; 5; 4; 3;
  2; 7; 6; 5; 4; 3; 7; 6; 5; 4; 7; 6; 5; 7; 6; 7
].

(** Default scaling lists. *)
Definition default_scaling_list_intra : list Z := [
  16; 16; 16; 16; 17; 18; 21; 24; 16; 16; 16; 16; 17; 19; 22; 25;
  16; 16; 17; 18; 20; 22; 25; 29; 16; 16; 18; 21; 24; 27; 31; 36;
  17; 17; 20; 24; 30; 35; 41; 47; 18; 19; 22; 27; 35; 44; 54; 65;
  21; 22; 25; 31; 41; 54; 70; 88; 24; 25; 29; 36; 47; 65; 88; 115
].

Definition default_scaling_list_inter : list Z := [
  16; 16; 16; 16; 17; 18; 20; 24; 16; 16; 16; 17; 18; 20; 24; 25;
  16; 16; 17; 18; 20; 24; 25; 28; 16; 17; 18; 20; 24; 25; 28; 33;
  17; 18; 20; 24; 25; 28; 33; 41; 18; 20; 24; 25; 28; 33; 41; 54;
  20; 24; 25; 28; 33; 41; 54; 71; 24; 25; 28; 33; 41; 54; 71; 91
].

(** Sample aspect ratios. *)
Definition vui_sar : list AVRational := [
  mk_rational 0 1; mk_rational 1 1; mk_rational 12 11; mk_rational 10 11; mk_rational 16 11;
  mk_rational 40 33; mk_rational 24 11; mk_rational 20 11; mk_rational 32 11; mk_rational 80 33;
  mk_rational 18 11; mk_rational 15 11; mk_rational 64 33; mk_rational 160 99; mk_rational 4 3;
  mk_rational 3 2; mk_rational 2 1
].

(** Chroma subsampling. *)
Definition hevc_sub_width_c : list Z := [1; 2; 2; 1].

Definition hevc_sub_height_c : list Z := [1; 2; 1; 1].

(** Names of the NAL unit types, for the log. *)
Definition hevc_nal_type_name : list string := [
  "TRAIL_N"; "TRAIL_R"; "TSA_N"; "TSA_R"; "STSA_N"; "STSA_R";
  "RADL_N"; "RADL_R"; "RASL_N"; "RASL_R"; "RSV_VCL_N10"; "RSV_VCL_R11";
  "RSV_VCL_N12"; "RSV_VLC_R13"; "RSV_VCL_N14"; "RSV_VCL_R15"; "BLA_W_LP"; "BLA_W_RADL";
  "BLA_N_LP"; "IDR_W_RADL"; "IDR_N_LP"; "CRA_NUT"; "IRAP_IRAP_VCL22"; "IRAP_IRAP_VCL23";
  "RSV_VCL24"; "RSV_VCL25"; "RSV_VCL26"; "RSV_VCL27"; "RSV_VCL28"; "RSV_VCL29";
  "RSV_VCL30"; "RSV_VCL31"; "VPS"; "SPS"; "PPS"; "AUD";
  "EOS_NUT"; "EOB_NUT"; "FD_NUT"; "SEI_PREFIX"; "SEI_SUFFIX"; "RSV_NVCL41";
  "RSV_NVCL42"; "RSV_NVCL43"; "RSV_NVCL44"; "RSV_NVCL45"; "RSV_NVCL46"; "RSV_NVCL47";
  "UNSPEC48"; "UNSPEC49"; "UNSPEC50"; "UNSPEC51"; "UNSPEC52"; "UNSPEC53";
  "UNSPEC54"; "UNSPEC55"; "UNSPEC56"; "UNSPEC57"; "UNSPEC58"; "UNSPEC59";
  "UNSPEC60"; "UNSPEC61"; "UNSPEC62"; "UNSPEC63"
]%string.

Definition hevc_nal_unit_name (nal_type : Z) : option string := aget hevc_nal_type_name nal_type.

(** Pixel formats and colour descriptions (enumerators of pixfmt.h). *)
Definition AV_PIX_FMT_YUV420P : Z := 0.
Definition AV_PIX_FMT_YUV422P : Z := 4.
Definition AV_PIX_FMT_YUV444P : Z := 5.
Definition AV_PIX_FMT_GRAY8 : Z := 8.
Definition AV_PIX_FMT_YUVJ420P : Z := 12.
Definition AV_PIX_FMT_YUV420P9 : Z := 60.
Definition AV_PIX_FMT_YUV420P10 : Z := 62.
Definition AV_PIX_FMT_YUV422P10 : Z := 64.
Definition AV_PIX_FMT_YUV444P9 : Z := 66.
Definition AV_PIX_FMT_YUV444P10 : Z := 68.
Definition AV_PIX_FMT_YUV422P9 : Z := 70.
Definition AV_PIX_FMT_GBRP : Z := 71.
Definition AV_PIX_FMT_GBRP10 : Z := 75.
Definition AV_PIX_FMT_YUV420P12 : Z := 123.
Definition AV_PIX_FMT_YUV422P12 : Z := 127.
Definition AV_PIX_FMT_YUV444P12 : Z := 131.
Definition AV_PIX_FMT_GBRP12 : Z := 135.
Definition AV_PIX_FMT_GRAY12 : Z := 167.
Definition AV_PIX_FMT_GRAY10 : Z := 169.
Definition AV_PIX_FMT_GRAY9 : Z := 174.
Definition AVCOL_SPC_RGB : Z := 0.
Definition AVCOL_UNSPECIFIED : Z := 2.

(** ** Pixel format *)

(** [static int map_pixel_format(sps)] *)
Definition map_pixel_format : P h265_SPS_t Z :=
  call (
    bd ← look bit_depth;
    idc ← look chroma_format_idc;
    let set_by_idc f0 f1 f2 f3 : P h265_SPS_t unit :=
      when (idc =? 0) (setf pix_fmt f0);;
      when (idc =? 1) (setf pix_fmt f1);;
      when (idc =? 2) (setf pix_fmt f2);;
      when (idc =? 3) (setf pix_fmt f3) in
    (if bd =? 8 then
       set_by_idc AV_PIX_FMT_GRAY8 AV_PIX_FMT_YUV420P AV_PIX_FMT_YUV422P AV_PIX_FMT_YUV444P
     else if bd =? 9 then
       set_by_idc AV_PIX_FMT_GRAY9 AV_PIX_FMT_YUV420P9 AV_PIX_FMT_YUV422P9 AV_PIX_FMT_YUV444P9
     else if bd =? 10 then
       set_by_idc AV_PIX_FMT_GRAY10 AV_PIX_FMT_YUV420P10 AV_PIX_FMT_YUV422P10 AV_PIX_FMT_YUV444P10
     else if bd =? 12 then
       set_by_idc AV_PIX_FMT_GRAY12 AV_PIX_FMT_YUV420P12 AV_PIX_FMT_YUV422P12 AV_PIX_FMT_YUV444P12
     else throw (-1));;
    setf pixel_shift (b2z (bd >? 8))).

(** ** Scaling lists *)

Definition sl_row (size m : Z) : P ScalingList (list Z) :=
  a ← at_ sl size; of_option (aget a m).

Definition sl_set_row (size m : Z) (row : list Z) : P ScalingList unit :=
  a ← at_ sl size; a' ← of_option (aset a m row); set_at sl size a'.

Definition sl_set (size m pos v : Z) : P ScalingList unit :=
  row ← sl_row size m; row' ← of_option (aset row pos v); sl_set_row size m row'.

Definition sl_get_dc (size m : Z) : P ScalingList Z :=
  a ← at_ sl_dc size; of_option (aget a m).

Definition sl_set_dc (size m v : Z) : P ScalingList unit :=
  a ← at_ sl_dc size; a' ← of_option (aset a m v); set_at sl_dc size a'.

(** [memcpy(sl->sl[size][m], src, n)] *)
Definition sl_memcpy (size m : Z) (src : list Z) (n : nat) : P ScalingList unit :=
  row ← sl_row size m; sl_set_row size m (take n src ++ drop n row).

(** [static void set_default_scaling_list_data(sl)] *)
Definition set_default_scaling_list_data : P ScalingList unit :=
  for_range 0 6 (fun matrixId =>
    sl_memcpy 0 matrixId (replicate 16 16) 16;;
    sl_set_dc 0 matrixId 16;;
    sl_set_dc 1 matrixId 16);;
  for_range 1 4 (fun size =>
    for_range 0 3 (fun m => sl_memcpy size m default_scaling_list_intra 64);;
    for_range 3 6 (fun m => sl_memcpy size m default_scaling_list_inter 64)).

Section Sps.
Context (char_signed : bool).

(** The [!scaling_list_pred_mode_flag] branch: copy from an earlier list. *)
Definition scaling_list_copy (size_id matrix_id : Z) : P ScalingList unit :=
  delta ← gbm get_ue_golomb_long;
  when (truth delta)
    (let delta := u32 (delta * (if size_id =? 3 then 3 else 1)) in
     fail_if (matrix_id <? delta) (-1);;
     src ← sl_row size_id (matrix_id - delta);
     sl_memcpy size_id matrix_id src (if size_id >? 0 then 64 else 16);;
     when (size_id >? 1)
       (d ← sl_get_dc (size_id - 2) (matrix_id - delta);
        sl_set_dc (size_id - 2) matrix_id d)).

(** One coefficient of the coded branch; the accumulator is [next_coef]. *)
Definition scaling_list_coef (size_id matrix_id i next_coef : Z) : P ScalingList Z :=
  pos ← of_option (
    if size_id =? 0
    then y ← aget ff_hevc_diag_scan4x4_y i; x ← aget ff_hevc_diag_scan4x4_x i; Some (4 * y + x)
    else y ← aget ff_hevc_diag_scan8x8_y i; x ← aget ff_hevc_diag_scan8x8_x i; Some (8 * y + x));
  d ← gbm (get_se_golomb char_signed);
  let next_coef := u32 (next_coef + 256 + d) mod 256 in
  sl_set size_id matrix_id pos next_coef;;
  mret next_coef.

(** The coded branch. *)
Definition scaling_list_coded (size_id matrix_id : Z) : P ScalingList unit :=
  let coef_num := Z.min 64 (Z.shiftl 1 (4 + Z.shiftl size_id 1)) in
  next_coef ←
    (if size_id >? 1 then
       v ← gbm (get_se_golomb char_signed);
       let next_coef := s32 (v + 8) in
       sl_set_dc (size_id - 2) matrix_id (u8 next_coef);;
       mret next_coef
     else mret 8);
  fold_range 0 coef_num (scaling_list_coef size_id matrix_id) next_coef;;
  mret tt.

(** [static int scaling_list_data(gb, sl, sps)]; [matrix_id] takes every
    third value for the 32x32 lists. *)
Definition scaling_list_data (idc : Z) : P ScalingList Z :=
  call (
    for_range 0 4 (fun size_id =>
      for_range 0 (if size_id =? 3 then 2 else 6) (fun k =>
        let matrix_id := k * (if size_id =? 3 then 3 else 1) in
        pred_mode_flag ← gbm get_bits1;
        if negb (truth (u8 pred_mode_flag))
        then scaling_list_copy size_id matrix_id
        else scaling_list_coded size_id matrix_id));;
    when (idc =? 3)
      (for_range 0 64 (fun i =>
         let copy m := (row ← sl_row 2 m; v ← of_option (aget row i); sl_set 3 m i v) in
         copy 1;; copy 2;; copy 4;; copy 5);;
       let copy_dc m := (v ← sl_get_dc 0 m; sl_set_dc 1 m v) in
       copy_dc 1;; copy_dc 2;; copy_dc 4;; copy_dc 5)).

(** ** Video usability information *)

(** A member of [sps->vui]. *)
Definition vui_readi (p : VUI → Z) `{!Setter p} (m : G Z) : P h265_SPS_t unit := sub vui (readi p m).

Definition vui_flag (p : VUI → Z) `{!Setter p} : P h265_SPS_t bool :=
  vui_readi p get_bits1;; v ← look vui; mret (truth (p v)).

(** The sample aspect ratio. *)
Definition vui_aspect_ratio : P h265_SPS_t unit :=
  sar_present ← gbm get_bits1;
  when (truth sar_present)
    (v ← gbm (get_bits 8);
     let sar_idx := u8 v in
     if sar_idx <? zlen vui_sar then
       r ← of_option (aget vui_sar sar_idx); sub vui (setf sar r)
     else when (sar_idx =? 255)
       (n ← gbm (get_bits 16); d ← gbm (get_bits 16);
        sub vui (setf sar (mk_rational n d)))).

Definition vui_colour_description : P h265_SPS_t unit :=
  cp ← gbm (get_bits 8); tc ← gbm (get_bits 8); mc ← gbm (get_bits 8);
  let cp := match av_color_primaries_name cp with None => AVCOL_UNSPECIFIED | Some _ => cp end in
  let tc := match av_color_transfer_name tc with None => AVCOL_UNSPECIFIED | Some _ => tc end in
  let mc := match av_color_space_name mc with None => AVCOL_UNSPECIFIED | Some _ => mc end in
  sub vui (setf colour_primaries cp;; setf transfer_characteristic tc;; setf matrix_coeffs mc);;
  fmt ← look pix_fmt;
  when (mc =? AVCOL_SPC_RGB)
    (if fmt =? AV_PIX_FMT_YUV444P then setf pix_fmt AV_PIX_FMT_GBRP
     else if fmt =? AV_PIX_FMT_YUV444P10 then setf pix_fmt AV_PIX_FMT_GBRP10
     else when (fmt =? AV_PIX_FMT_YUV444P12) (setf pix_fmt AV_PIX_FMT_GBRP12)).

Definition vui_video_signal : P h265_SPS_t unit :=
  o ← vui_flag overscan_info_present_flag;
  when o (vui_readi overscan_appropriate_flag get_bits1);;
  present ← vui_flag video_signal_type_present_flag;
  when present
    (vui_readi video_format (get_bits 3);;
     full ← vui_flag video_full_range_flag;
     colour ← vui_flag colour_description_present_flag;
     fmt ← look pix_fmt;
     when (full && (fmt =? AV_PIX_FMT_YUV420P)) (setf pix_fmt AV_PIX_FMT_YUVJ420P);;
     when colour vui_colour_description).

Definition vui_chroma_loc : P h265_SPS_t unit :=
  c ← vui_flag chroma_loc_info_present_flag;
  when c
    (vui_readi chroma_sample_loc_type_top_field get_ue_golomb_long;;
     vui_readi chroma_sample_loc_type_bottom_field get_ue_golomb_long);;
  vui_readi neutra_chroma_indication_flag get_bits1;;
  vui_readi field_seq_flag get_bits1;;
  vui_readi frame_field_info_present_flag get_bits1.

(** A cropping window in units of the chroma subsampling. *)
Definition read_window (horiz_mult vert_mult : Z) : P HEVCWindow unit :=
  v ← gbm get_ue_golomb_long; setf left_offset (u32 (v * horiz_mult));;
  v ← gbm get_ue_golomb_long; setf right_offset (u32 (v * horiz_mult));;
  v ← gbm get_ue_golomb_long; setf top_offset (u32 (v * vert_mult));;
  v ← gbm get_ue_golomb_long; setf bottom_offset (u32 (v * vert_mult)).

Definition vui_display_window : P h265_SPS_t unit :=
  l ← gbm get_bits_left;
  hidden ← (if l >=? 68 then v ← gbm (show_bits_long 21); mret (v =? 0x100000) else mret false);
  (if (hidden : bool) then sub vui (setf default_display_window_flag 0)
   else vui_readi default_display_window_flag get_bits1);;
  v ← look vui;
  when (truth (default_display_window_flag v))
    (idc ← look chroma_format_idc;
     vert_mult ← of_option (aget hevc_sub_height_c idc);
     horiz_mult ← of_option (aget hevc_sub_width_c idc);
     sub vui (sub def_disp_win (read_window horiz_mult vert_mult))).

(** The saved reader and VUI, and going back to them. *)
Definition vui_restore (backup : get_bits_context * VUI) : P h265_SPS_t unit :=
  modify (fun s => (backup.1, s.2 <| vui := backup.2 |>)).

(** From the label [timing_info] to the end; [again] is the [goto], taken
    at most once because of [alt]. *)
Definition vui_timing_info (backup : get_bits_context * VUI) (alt : bool)
    (again : P h265_SPS_t unit) : P h265_SPS_t unit :=
  let tail : P h265_SPS_t unit :=
    l ← gbm get_bits_left;
    when ((l <? 1) && negb alt) (vui_restore backup;; again) in
  let restriction : P h265_SPS_t unit :=
    r ← vui_flag bitstream_restriction_flag;
    l ← gbm get_bits_left;
    if r && ((l <? 8) && negb alt) then vui_restore backup;; again
    else
      when r
        (vui_readi tiles_fixed_structure_flag get_bits1;;
         vui_readi motion_vectors_over_pic_boundaries_flag get_bits1;;
         vui_readi restricted_ref_pic_lists_flag get_bits1;;
         vui_readi min_spatial_segmentation_idc get_ue_golomb_long;;
         vui_readi max_bytes_per_pic_denom get_ue_golomb_long;;
         vui_readi max_bits_per_min_cu_denom get_ue_golomb_long;;
         vui_readi log2_max_mv_length_horizontal get_ue_golomb_long;;
         vui_readi log2_max_mv_length_vertical get_ue_golomb_long);;
      tail in
  t ← vui_flag vui_timing_info_present_flag;
  l ← gbm get_bits_left;
  if t && ((l <? 66) && negb alt) then vui_restore backup;; again
  else
    when t
      (sub vui (readu vui_num_units_in_tick (get_bits_long 32));;
       sub vui (readu vui_time_scale (get_bits_long 32));;
       p ← vui_flag vui_poc_proportional_to_timing_flag;
       when p (vui_readi vui_num_ticks_poc_diff_one_minus1 get_ue_golomb_long);;
       h ← vui_flag vui_hrd_parameters_present_flag;
       when h (n ← look max_sub_layers; decode_hrd true n;; mret tt));;
    restriction.

(** [static void decode_vui(gb, sps)] *)
Definition decode_vui : P h265_SPS_t unit :=
  vui_aspect_ratio;;
  vui_video_signal;;
  vui_chroma_loc;;
  s ← get;
  let backup := (s.1, vui s.2) in
  vui_display_window;;
  vui_timing_info backup false (vui_timing_info backup true (mret tt)).

(** ** Sequence parameter set *)

(** Identifiers, profile, chroma format. *)
Definition sps_header : P h265_SPS_t unit :=
  read8 vps_id (get_bits 4);;
  i ← look vps_id;
  fail_if (i >=? HEVC_MAX_VPS_COUNT) (-1);;
  v ← gbm (get_bits 3); setf max_sub_layers (v + 1);;
  n ← look max_sub_layers;
  fail_if (n >? HEVC_MAX_SUB_LAYERS) (-1);;
  read8 temporal_id_nesting_flag (get_bits 1);;
  r ← sub ptl (parse_ptl n);
  when (r <? 0) (throw r);;
  read8 sps_id get_ue_golomb_long;;
  i ← look sps_id;
  fail_if (i >=? HEVC_MAX_SPS_COUNT) (-1);;
  readi chroma_format_idc get_ue_golomb_long;;
  c ← look chroma_format_idc;
  fail_if (u32 c >? 3) (-1);;
  when (c =? 3) (read8 separate_colour_plane_flag get_bits1);;
  f ← look separate_colour_plane_flag;
  when (truth f) (setf chroma_format_idc 0).

(** Picture size and conformance window. *)
Definition sps_picture_size : P h265_SPS_t unit :=
  readi width get_ue_golomb_long;;
  readi height get_ue_golomb_long;;
  w ← look width;
  h ← look height;
  fail_if ((w >? 8192) || (h >? 8192)) (-1);;
  b ← gbm get_bits1;
  when (truth b)
    (idc ← look chroma_format_idc;
     vert_mult ← of_option (aget hevc_sub_height_c idc);
     horiz_mult ← of_option (aget hevc_sub_width_c idc);
     sub pic_conf_win (read_window horiz_mult vert_mult);;
     win ← look pic_conf_win;
     setf output_window win).

(** Bit depths, pixel format, POC width. *)
Definition sps_formats : P h265_SPS_t unit :=
  v ← gbm get_ue_golomb_long; setf bit_depth (s32 (u32 (v + 8)));;
  v ← gbm get_ue_golomb_long;
  let chroma := s32 (u32 (v + 8)) in
  idc ← look chroma_format_idc;
  bd ← look bit_depth;
  fail_if (truth idc && negb (chroma =? bd)) (-1);;
  setf bit_depth_chroma chroma;;
  r ← map_pixel_format;
  when (r <? 0) (throw r);;
  v ← gbm get_ue_golomb_long; setf log2_max_poc_lsb (u32 (v + 4));;
  l ← look log2_max_poc_lsb;
  fail_if (l >? 16) (-1).

(** The body of the sub-layer ordering loop, on [sps->temporal_layer[i]]. *)
Definition sps_sub_layer : P TemporalLayer unit :=
  v ← gbm get_ue_golomb_long; setf max_dec_pic_buffering (s32 (u32 (v + 1)));;
  readi num_reorder_pics get_ue_golomb_long;;
  v ← gbm get_ue_golomb_long; setf max_latency_increase (s32 (u32 (v - 1)));;
  d ← look max_dec_pic_buffering;
  fail_if (u32 d >? HEVC_MAX_DPB_SIZE) (-1);;
  r ← look num_reorder_pics;
  when (r >? s32 (d - 1))
    (fail_if (r >? HEVC_MAX_DPB_SIZE - 1) (-1);;
     setf max_dec_pic_buffering (s32 (r + 1))).

Definition sps_sub_layers : P h265_SPS_t unit :=
  b ← gbm get_bits1;
  let sublayer_ordering_info := truth b in
  n ← look max_sub_layers;
  let start := if sublayer_ordering_info then 0 else n - 1 in
  for_range start n (fun i => sub_at temporal_layer i sps_sub_layer);;
  when (negb sublayer_ordering_info)
    (for_range 0 start (fun i =>
       t ← at_ temporal_layer start; set_at temporal_layer i t)).

(** Coding-block and transform-block sizes. *)
Definition sps_block_sizes : P h265_SPS_t unit :=
  v ← gbm get_ue_golomb_long; setf log2_min_cb_size (u32 (v + 3));;
  readu log2_diff_max_min_coding_block_size get_ue_golomb_long;;
  v ← gbm get_ue_golomb_long; setf log2_min_tb_size (u32 (v + 2));;
  v ← gbm get_ue_golomb_long;
  let log2_diff := s32 v in
  mtb ← look log2_min_tb_size;
  setf log2_max_trafo_size (u32 (log2_diff + mtb));;
  mcb ← look log2_min_cb_size;
  fail_if ((mcb <? 3) || (mcb >? 30)) (-1);;
  dcb ← look log2_diff_max_min_coding_block_size;
  fail_if (dcb >? 30) (-1);;
  fail_if ((mtb >=? mcb) || (mtb <? 2)) (-1);;
  fail_if ((log2_diff <? 0) || (log2_diff >? 30)) (-1);;
  readi max_transform_hierarchy_depth_inter get_ue_golomb_long;;
  readi max_transform_hierarchy_depth_intra get_ue_golomb_long.

Definition sps_scaling : P h265_SPS_t unit :=
  read8 scaling_list_enable_flag get_bits1;;
  f ← look scaling_list_enable_flag;
  when (truth f)
    (sub scaling_list set_default_scaling_list_data;;
     b ← gbm get_bits1;
     when (truth b)
       (idc ← look chroma_format_idc;
        r ← sub scaling_list (scaling_list_data idc);
        when (r <? 0) (throw r))).

Definition sps_pcm : P h265_SPS_t unit :=
  read8 amp_enabled_flag get_bits1;;
  read8 sao_enabled get_bits1;;
  readi pcm_enabled_flag get_bits1;;
  f ← look pcm_enabled_flag;
  when (truth f)
    (v ← gbm (get_bits 4); sub pcm (setf pcm_bit_depth (u8 (v + 1)));;
     v ← gbm (get_bits 4); sub pcm (setf pcm_bit_depth_chroma (u8 (v + 1)));;
     v ← gbm get_ue_golomb_long; sub pcm (setf log2_min_pcm_cb_size (u32 (v + 3)));;
     p ← look pcm;
     v ← gbm get_ue_golomb_long;
     sub pcm (setf log2_max_pcm_cb_size (u32 (log2_min_pcm_cb_size p + v)));;
     p ← look pcm;
     bd ← look bit_depth;
     fail_if (Z.max (pcm_bit_depth p) (pcm_bit_depth_chroma p) >? bd) (-1);;
     sub pcm (read8 loop_filter_disable_flag get_bits1)).

(** The call for [&sps->st_rps[i]]; the set is updated in place. *)
Definition sps_st_rps (i : Z) : P h265_SPS_t unit :=
  st ← look st_rps;
  nb ← look nb_st_rps;
  r ← sub_at st_rps i (ff_hevc_decode_short_term_rps st nb (Some i) false);
  when (r <? 0) (throw r).

Definition sps_reference_sets : P h265_SPS_t unit :=
  readu nb_st_rps get_ue_golomb_long;;
  n ← look nb_st_rps;
  fail_if (n >? HEVC_MAX_SHORT_TERM_REF_PIC_SETS) (-1);;
  for_range 0 n sps_st_rps;;
  read8 long_term_ref_pics_present_flag get_bits1;;
  f ← look long_term_ref_pics_present_flag;
  when (truth f)
    (read8 num_long_term_ref_pics_sps get_ue_golomb_long;;
     m ← look num_long_term_ref_pics_sps;
     fail_if (m >? HEVC_MAX_LONG_TERM_REF_PICS) (-1);;
     for_range 0 m (fun i =>
       w ← look log2_max_poc_lsb;
       v ← gbm (get_bits w); set_at lt_ref_pic_poc_lsb_sps i (u16 v);;
       b ← gbm get_bits1; set_at used_by_curr_pic_lt_sps_flag i (u8 b))).

(** The SPS extension. *)
Definition sps_extension : P h265_SPS_t unit :=
  e ← gbm get_bits1;
  when (truth e)
    (readi sps_range_extension_flag get_bits1;;
     gbm (skip_bits 7);;
     f ← look sps_range_extension_flag;
     when (truth f)
       (readi transform_skip_rotation_enabled_flag get_bits1;;
        readi transform_skip_context_enabled_flag get_bits1;;
        readi implicit_rdpcm_enabled_flag get_bits1;;
        readi explicit_rdpcm_enabled_flag get_bits1;;
        readi extended_precision_processing_flag get_bits1;;
        readi intra_smoothing_disabled_flag get_bits1;;
        readi high_precision_offsets_enabled_flag get_bits1;;
        readi persistent_rice_adaptation_enabled_flag get_bits1;;
        readi cabac_bypass_alignment_enabled_flag get_bits1)).

(** From the temporal MVP flag to the extension. *)
Definition sps_vui_and_extension : P h265_SPS_t unit :=
  read8 sps_temporal_mvp_enabled_flag get_bits1;;
  read8 sps_strong_intra_smoothing_enable_flag get_bits1;;
  sub vui (setf sar (mk_rational 0 1));;
  b ← gbm get_bits1;
  when (truth b) decode_vui;;
  sps_extension.

(** The cropping window and the CTB size. *)
Definition sps_check_window : P h265_SPS_t unit :=
  s ← look (fun s => s);
  let ow := output_window s in
  fail_if ((left_offset ow >=? u32 (INT_MAX - right_offset ow))
           || (top_offset ow >=? u32 (INT_MAX - bottom_offset ow))
           || (u32 (left_offset ow + right_offset ow) >=? u32 (width s))
           || (u32 (top_offset ow + bottom_offset ow) >=? u32 (height s))) (-1);;
  setf log2_ctb_size (u32 (log2_min_cb_size s + log2_diff_max_min_coding_block_size s));;
  setf log2_min_pu_size (u32 (log2_min_cb_size s - 1));;
  l ← look log2_ctb_size;
  fail_if (l >? HEVC_MAX_LOG2_CTB_SIZE) (-1);;
  fail_if (l <? 4) (-1).

(** The inferred parameters. *)
Definition sps_inferred : P h265_SPS_t unit :=
  s ← look (fun s => s);
  let ctb := s32 (Z.shiftl 1 (log2_ctb_size s)) in
  let to_ctbs x := Z.shiftr (s32 (s32 (x + ctb) - 1)) (log2_ctb_size s) in
  setf ctb_width (to_ctbs (width s));;
  setf ctb_height (to_ctbs (height s));;
  setf ctb_size (s32 (to_ctbs (width s) * to_ctbs (height s)));;
  setf min_cb_width (Z.shiftr (width s) (log2_min_cb_size s));;
  setf min_cb_height (Z.shiftr (height s) (log2_min_cb_size s));;
  setf min_tb_width (Z.shiftr (width s) (log2_min_tb_size s));;
  setf min_tb_height (Z.shiftr (height s) (log2_min_tb_size s));;
  setf min_pu_width (Z.shiftr (width s) (log2_min_pu_size s));;
  setf min_pu_height (Z.shiftr (height s) (log2_min_pu_size s));;
  setf tb_mask (s32 (s32 (Z.shiftl 1 (u32 (log2_ctb_size s - log2_min_tb_size s))) - 1));;
  setf qp_bd_offset (s32 (6 * (bit_depth s - 8))).

(** The last checks. *)
Definition sps_final_checks : P h265_SPS_t unit :=
  s ← look (fun s => s);
  let range := u32 (log2_ctb_size s - log2_min_tb_size s) in
  fail_if (truth (av_mod_uintp2 (u32 (width s)) (log2_min_cb_size s))
           || truth (av_mod_uintp2 (u32 (height s)) (log2_min_cb_size s))) (-1);;
  fail_if (u32 (max_transform_hierarchy_depth_inter s) >? range) (-1);;
  fail_if (u32 (max_transform_hierarchy_depth_intra s) >? range) (-1);;
  fail_if (log2_max_trafo_size s >? Z.min (log2_ctb_size s) 5) (-1);;
  l ← gbm get_bits_left;
  fail_if (l <? 0) (-1).

(** [int ff_hevc_parse_sps(gb, sps)] *)
Definition ff_hevc_parse_sps : P h265_SPS_t Z :=
  call (
    sps_header;;
    sps_picture_size;;
    sps_formats;;
    sps_sub_layers;;
    sps_block_sizes;;
    sps_scaling;;
    sps_pcm;;
    sps_reference_sets;;
    sps_vui_and_extension;;
    sps_check_window;;
    sps_inferred;;
    sps_final_checks).

End Sps.

(** ** Scaling lists stay well formed *)

Definition is_u8 (b : Z) : Prop := 0 ≤ b < 256.

Definition row_ok (r : list Z) : Prop := zlen r = 64 ∧ Forall is_u8 r.

Definition dc_ok (r : list Z) : Prop := zlen r = 6 ∧ Forall is_u8 r.

Definition matrices_ok (a : list (list Z)) : Prop := zlen a = 6 ∧ Forall row_ok a.

Record sl_ok (s : ScalingList) : Prop := {
  slo_len : zlen (sl s) = 4;
  slo_rows : Forall matrices_ok (sl s);
  slo_dc_len : zlen (sl_dc s) = 2;
  slo_dc : Forall dc_ok (sl_dc s)
}.

Lemma Forall_aget {A} (Pr : A → Prop) l i a : Forall Pr l → aget l i = Some a → Pr a.
Proof. intros Hf [_ Hl]%aget_inv. by eapply Forall_lookup_1. Qed.

Section ScalingLists.
Context {U : Prop} (cs : bool).
Implicit Types Q : unit → get_bits_context * ScalingList → Prop.

Lemma wp_sl_row size m (Q : list Z → get_bits_context * ScalingList → Prop) E s :
  sl_ok s.2 → 0 ≤ size < 4 → 0 ≤ m < 6 → (∀ r, row_ok r → Q r s) → wp U (sl_row size m) Q E s.
Proof.
  intros [Hl Hr _ _] Hs Hm HQ. unfold sl_row. parse_step 0. parse_step 0; [right; lia|].
  match goal with Ha : aget _ _ = Some a |- _ => apply (Forall_aget _ _ _ _ Hr) in Ha as [Ha1 Ha2] end.
  parse_step 0.
  - apply HQ. by eapply Forall_aget.
  - match goal with Hn : aget _ _ = None |- _ => apply aget_None in Hn; lia end.
Qed.

Lemma wp_sl_set_row size m row Q E s :
  sl_ok s.2 → 0 ≤ size < 4 → 0 ≤ m < 6 → row_ok row → (∀ t, sl_ok t → Q tt (s.1, t)) →
  wp U (sl_set_row size m row) Q E s.
Proof.
  intros [Hl Hr Hdl Hd] Hs Hm Hrow HQ. unfold sl_set_row. parse_step 0. parse_step 0; [right; lia|].
  match goal with Ha : aget _ _ = Some a |- _ => apply (Forall_aget _ _ _ _ Hr) in Ha as [Ha1 Ha2] end.
  parse_step 0. parse_step 0.
  - match goal with Ha : aset _ _ _ = Some _ |- _ => apply aset_inv in Ha as [_ ->] end.
    parse_step 0; [right; lia|]. apply HQ. split; cbn; [by rewrite zlen_insert| |done|done].
    apply Forall_insert; [done|]. split; [by rewrite zlen_insert|]. by apply Forall_insert.
  - match goal with Hn : aset _ _ _ = None |- _ => apply aset_None in Hn; lia end.
Qed.

Lemma wp_sl_set size m pos v Q E s :
  sl_ok s.2 → 0 ≤ size < 4 → 0 ≤ m < 6 → 0 ≤ pos < 64 → is_u8 v → (∀ t, sl_ok t → Q tt (s.1, t)) →
  wp U (sl_set size m pos v) Q E s.
Proof.
  intros Hok Hs Hm Hp Hv HQ. unfold sl_set. parse_step 0. apply wp_sl_row; [done..|].
  intros r [Hr1 Hr2]. parse_step 0. parse_step 0.
  - match goal with Ha : aset _ _ _ = Some _ |- _ => apply aset_inv in Ha as [_ ->] end.
    apply wp_sl_set_row; [done..| |done]. split; [by rewrite zlen_insert|]. by apply Forall_insert.
  - match goal with Hn : aset _ _ _ = None |- _ => apply aset_None in Hn; lia end.
Qed.

Lemma wp_sl_get_dc size m (Q : Z → get_bits_context * ScalingList → Prop) E s :
  sl_ok s.2 → 0 ≤ size < 2 → 0 ≤ m < 6 → (∀ v, is_u8 v → Q v s) → wp U (sl_get_dc size m) Q E s.
Proof.
  intros [_ _ Hl Hr] Hs Hm HQ. unfold sl_get_dc. parse_step 0. parse_step 0; [right; lia|].
  match goal with Ha : aget _ _ = Some a |- _ => apply (Forall_aget _ _ _ _ Hr) in Ha as [Ha1 Ha2] end.
  parse_step 0.
  - apply HQ. by eapply Forall_aget.
  - match goal with Hn : aget _ _ = None |- _ => apply aget_None in Hn; lia end.
Qed.

Lemma wp_sl_set_dc size m v Q E s :
  sl_ok s.2 → 0 ≤ size < 2 → 0 ≤ m < 6 → is_u8 v → (∀ t, sl_ok t → Q tt (s.1, t)) →
  wp U (sl_set_dc size m v) Q E s.
Proof.
  intros [Hl Hr Hdl Hd] Hs Hm Hrow HQ. unfold sl_set_dc. parse_step 0. parse_step 0; [right; lia|].
  match goal with Ha : aget _ _ = Some a |- _ => apply (Forall_aget _ _ _ _ Hd) in Ha as [Ha1 Ha2] end.
  parse_step 0. parse_step 0.
  - match goal with Ha : aset _ _ _ = Some _ |- _ => apply aset_inv in Ha as [_ ->] end.
    parse_step 0; [right; lia|]. apply HQ. split; cbn; [done|done|by rewrite zlen_insert|].
    apply Forall_insert; [done|]. split; [by rewrite zlen_insert|]. by apply Forall_insert.
  - match goal with Hn : aset _ _ _ = None |- _ => apply aset_None in Hn; lia end.
Qed.

Lemma wp_sl_memcpy size m src (n : nat) Q E s :
  sl_ok s.2 → 0 ≤ size < 4 → 0 ≤ m < 6 → (n ≤ 64)%nat → (n ≤ length src)%nat → Forall is_u8 src →
  (∀ t, sl_ok t → Q tt (s.1, t)) → wp U (sl_memcpy size m src n) Q E s.
Proof.
  intros Hok Hs Hm Hn Hls Hsrc HQ. unfold sl_memcpy. parse_step 0. apply wp_sl_row; [done..|].
  intros r [Hr1 Hr2]. apply wp_sl_set_row; [done..| |done]. split.
  - unfold zlen in *. rewrite length_app, length_take, length_drop. lia.
  - apply Forall_app. split; [by apply Forall_take|by apply Forall_drop].
Qed.

Lemma scaling_list_copy_wp size m R E s :
  0 ≤ R → Avail U s.1 (63 + R) → sl_ok s.2 → 0 ≤ size < 4 → 0 ≤ m < 6 →
  (∀ s', sl_ok s'.2 → E (-1) s') →
  wp U (scaling_list_copy size m) (fun _ s' => Avail U s'.1 R ∧ sl_ok s'.2) E s.
Proof.
  intros HR Hav Hok Hs Hm HE. unfold scaling_list_copy.
  parse_step 0. parse_step R; [avail|]. wp_step; [|by split]. cbn zeta.
  set (d := u32 (v * (if size =? 3 then 3 else 1))). pose proof (u32_range (v * (if size =? 3 then 3 else 1))) as Hd.
  fold d in Hd. parse_step 0. parse_step 0; [by apply HE|]. bprop.
  parse_step 0. apply wp_sl_row; [done|done|lia|]. intros r [Hr1 Hr2]. parse_step 0.
  apply wp_sl_memcpy; [done|done|done|destruct (size >? 0); lia| |done|].
  { unfold zlen in Hr1. destruct (size >? 0); lia. }
  intros t Ht. cbn [fst]. wp_step; [|by split]. bprop. parse_step 0.
  apply wp_sl_get_dc; [done|lia|lia|]. intros x Hx. apply wp_sl_set_dc; [done|lia|lia|done|].
  intros t' Ht'. by split.
Qed.

Lemma scan_pos size i : 0 ≤ i < 64 → ((size =? 0) = true → i < 16) →
  ∃ pos, (if size =? 0
    then y ← aget ff_hevc_diag_scan4x4_y i; x ← aget ff_hevc_diag_scan4x4_x i; Some (4 * y + x)
    else y ← aget ff_hevc_diag_scan8x8_y i; x ← aget ff_hevc_diag_scan8x8_x i; Some (8 * y + x)) = Some pos ∧
    0 ≤ pos < 64.
Proof.
  intros Hi H0. set (ok := fun o : option Z => match o with Some p => (0 <=? p) && (p <? 64) | None => false end).
  assert (∀ o, ok o = true → ∃ pos, o = Some pos ∧ 0 ≤ pos < 64) as Hok.
  { intros [p|]; [|done]. cbn. intros H. bprop. by exists p. }
  apply Hok. destruct (size =? 0).
  - specialize (H0 eq_refl).
    assert (forallb (fun n => ok (let i := Z.of_nat n in (y ← aget ff_hevc_diag_scan4x4_y i;
      x ← aget ff_hevc_diag_scan4x4_x i; Some (4 * y + x)))) (seq 0 16) = true) as Ha by (vm_compute; reflexivity).
    rewrite forallb_forall in Ha. specialize (Ha (Z.to_nat i)). rewrite Z2Nat.id in Ha by lia.
    apply Ha, in_seq. lia.
  - assert (forallb (fun n => ok (let i := Z.of_nat n in y ← aget ff_hevc_diag_scan8x8_y i;
      x ← aget ff_hevc_diag_scan8x8_x i; Some (8 * y + x))) (seq 0 64) = true) as Ha by (vm_compute; reflexivity).
    rewrite forallb_forall in Ha. specialize (Ha (Z.to_nat i)). rewrite Z2Nat.id in Ha by lia.
    apply Ha, in_seq. lia.
Qed.

Lemma scaling_list_coded_wp size m R E s :
  0 ≤ R → Avail U s.1 (4095 + R) → sl_ok s.2 → 0 ≤ size < 4 → 0 ≤ m < 6 →
  wp U (scaling_list_coded cs size m) (fun _ s' => Avail U s'.1 R ∧ sl_ok s'.2) E s.
Proof.
  intros HR Hav Hok Hs Hm. unfold scaling_list_coded. cbn zeta.
  set (n := Z.min 64 (Z.shiftl 1 (4 + Z.shiftl size 1))).
  assert (0 ≤ n ≤ 64 ∧ ((size =? 0) = true → n = 16)) as [Hn Hn0].
  { unfold n. split; [|intros ?; bprop; by subst].
    assert (0 ≤ Z.shiftl 1 (4 + Z.shiftl size 1)); [|lia]. apply Z.shiftl_nonneg. lia. }
  assert (∀ g' t next, Avail U g' (63 * 64 + R) → sl_ok t → wp U (
    fold_range 0 n (scaling_list_coef cs size m) next;; mret tt)
    (fun _ s' => Avail U s'.1 R ∧ sl_ok s'.2) E (g', t)) as Hloop.
  { intros g' t next Hg Ht. parse_step 0.
    apply (wp_fold_range _ _ _ (fun i (_ : Z) s' => Avail U s'.1 (63 * (64 - i) + R) ∧ sl_ok s'.2)).
    - by split.
    - intros i a s' Hi [Hav' Ht']. unfold scaling_list_coef. parse_step 0.
      destruct (scan_pos size i) as (pos & Hpos & Hr); [lia|intros ?; rewrite Hn0 in Hi by done; lia|].
      parse_step 0; [|congruence].
      match goal with Ha : _ = Some ?p |- _ => assert (p = pos) as -> by congruence end.
      parse_step 0. parse_step (63 * (64 - (i + 1)) + R); [avail|]. parse_step 0.
      apply wp_sl_set; [done|done|done|done| |].
      + unfold is_u8. apply Z.mod_pos_bound. lia.
      + intros t2 Ht2. parse_step 0. by split.
    - intros a s' [Hav' Ht']. parse_step 0. split; [avail|done]. }
  parse_step 0. wp_step; bprop.
  - parse_step 0. parse_step (63 * 64 + R); [avail|]. parse_step 0.
    apply wp_sl_set_dc; [done|lia|done|apply u8_range|]. intros t Ht. parse_step 0. by apply Hloop.
  - parse_step 0. destruct s. apply Hloop; [avail|done].
Qed.

Lemma scaling_list_chroma_wp R E s : Avail U s.1 R → sl_ok s.2 →
  wp U (for_range 0 64 (fun i =>
         let copy m := (row ← sl_row 2 m; v ← of_option (aget row i); sl_set 3 m i v) in
         copy 1;; copy 2;; copy 4;; copy 5);;
       let copy_dc m := (v ← sl_get_dc 0 m; sl_set_dc 1 m v) in
       copy_dc 1;; copy_dc 2;; copy_dc 4;; copy_dc 5)
    (fun _ s' => sl_ok s'.2) E s.
Proof.
  intros Hav Hok. parse_step 0.
  assert (∀ i m s', 0 ≤ i < 64 → 0 ≤ m < 6 → sl_ok s'.2 →
    wp U (row ← sl_row 2 m; v ← of_option (aget row i); sl_set 3 m i v) (fun _ s' => sl_ok s'.2) E s') as Hc.
  { intros i m s' Hi Hm Hs'. parse_step 0. apply wp_sl_row; [done|lia|done|]. intros r [Hr1 Hr2].
    parse_step 0. parse_step 0.
    - apply wp_sl_set; [done|lia|done|done| |done]. by eapply Forall_aget.
    - match goal with Hn : aget _ _ = None |- _ => apply aget_None in Hn; lia end. }
  assert (∀ m s', 0 ≤ m < 6 → sl_ok s'.2 →
    wp U (v ← sl_get_dc 0 m; sl_set_dc 1 m v) (fun _ s' => sl_ok s'.2) E s') as Hdc.
  { intros m s' Hm Hs'. parse_step 0. apply wp_sl_get_dc; [done|lia|done|]. intros x Hx.
    by apply wp_sl_set_dc; [done|lia|done|done|]. }
  apply (wp_for_range _ _ _ (fun _ s' => sl_ok s'.2)); [done| |].
  - intros i s' Hi Hs'. cbn zeta.
    parse_step 0. eapply wp_mono; [apply Hc; [done|lia|done]| |done]. intros [] s1 Hs1.
    parse_step 0. eapply wp_mono; [apply Hc; [done|lia|done]| |done]. intros [] s2 Hs2.
    parse_step 0. eapply wp_mono; [apply Hc; [done|lia|done]| |done]. intros [] s3 Hs3.
    apply Hc; [done|lia|done].
  - intros s' Hs'. cbn zeta.
    parse_step 0. eapply wp_mono; [apply Hdc; [lia|done]| |done]. intros [] s1 Hs1.
    parse_step 0. eapply wp_mono; [apply Hdc; [lia|done]| |done]. intros [] s2 Hs2.
    parse_step 0. eapply wp_mono; [apply Hdc; [lia|done]| |done]. intros [] s3 Hs3.
    apply Hdc; [lia|done].
Qed.

Lemma scaling_list_data_wp idc R E s :
  0 ≤ R → Avail U s.1 (98304 + R) → sl_ok s.2 →
  wp U (scaling_list_data cs idc) (fun r s' => sl_ok s'.2 ∧ (r = 0 ∨ r = -1)) E s.
Proof.
  intros HR Hav Hok. unfold scaling_list_data. apply wp_call. parse_step 0.
  set (E' := fun (r : Z) (s' : get_bits_context * ScalingList) => sl_ok s'.2 ∧ (r = 0 ∨ r = -1)).
  apply (wp_loop _ _ (4096 * 6) R _ sl_ok); [lia|done|avail|done| |].
  - intros size s' R' Hi HR' HRR Hav' Hok'.
    apply (wp_loop _ _ 4096 R' _ sl_ok); [lia|done| |done| |by split].
    { destruct (size =? 3); avail. }
    intros k s2 R2 Hk HR2 HRR2 Hav2 Hok2. cbn zeta.
    assert (0 ≤ k * (if size =? 3 then 3 else 1) < 6) by (destruct (size =? 3); lia).
    parse_step 0. parse_step (4095 + R2); [avail|]. wp_step.
    + apply (scaling_list_copy_wp size _ R2); [done|avail|done|lia|done|].
      intros s3 Hs3. split; [done|by right].
    + apply (scaling_list_coded_wp size _ R2); [done|avail|done|lia|done].
  - intros s' Hav' Hok'. wp_step; [|split; [done|by left]].
    eapply wp_mono; [apply (scaling_list_chroma_wp R); done| |].
    + intros [] s2 Hs2. split; [done|by left].
    + intros e s2 He. exact He.
Qed.
End ScalingLists.

(** [scaling_list_data] is memory safe on any input (98304 readable
    bits): it never indexes the lists out of bounds, keeps every coefficient
    a byte, and returns 0 or -1. *)
Theorem scaling_list_data_safe cs idc g t :
  sl_ok t → room g 98304 →
  ∃ r g' t', scaling_list_data cs idc (g, t) = Ok r (g', t') ∧ sl_ok t' ∧ (r = 0 ∨ r = -1).
Proof.
  intros Ht Hg. pose proof (scaling_list_data_wp (U := False) cs idc 0 (fun _ _ => False) (g, t)
    ltac:(lia) (or_intror Hg) Ht) as Hwp.
  unfold wp in Hwp. destruct (scaling_list_data _ _ _) as [r [g' t']| |]; [|done..]. by exists r, g', t'.
Qed.

Lemma scaling_list_data_safe_witness :
  ∃ r g' t', scaling_list_data true 1 (zero_reader (Z.to_nat 13000), init_ScalingList) = Ok r (g', t') ∧
    sl_ok t' ∧ (r = 0 ∨ r = -1).
Proof.
  apply (scaling_list_data_safe true 1 (zero_reader (Z.to_nat 13000)) init_ScalingList).
  - split; try done; repeat constructor; try done.
  - apply zero_reader_room. lia.
Defined.

Lemma set_default_scaling_list_data_wp {U : Prop} E s : sl_ok s.2 →
  wp U set_default_scaling_list_data (fun _ s' => sl_ok s'.2) E s.
Proof.
  intros Hok. unfold set_default_scaling_list_data. parse_step 0.
  assert (Forall is_u8 default_scaling_list_intra ∧ Forall is_u8 default_scaling_list_inter ∧
    Forall is_u8 (replicate 16 16)) as (Hi & Hj & Hk).
  { unfold is_u8. split; [|split]; apply (bool_decide_unpack _); vm_compute; done. }
  apply (wp_for_range _ _ _ (fun _ s' => sl_ok s'.2)); [done| |].
  - intros i s' Hi' Hs'. parse_step 0. apply wp_sl_memcpy; [done|lia|lia|lia|cbn; lia|done|].
    intros t Ht. parse_step 0. apply wp_sl_set_dc; [done|lia|lia|done|]. intros t2 Ht2.
    by apply wp_sl_set_dc; [done|lia|lia|done|].
  - intros s' Hs'. apply (wp_for_range _ _ _ (fun _ s' => sl_ok s'.2)); [done| |done].
    intros size s2 Hsz Hs2. parse_step 0.
    apply (wp_for_range _ _ _ (fun _ s' => sl_ok s'.2)); [done| |].
    + intros m s3 Hm Hs3. apply wp_sl_memcpy; [done|lia|lia|lia|cbn; lia|done|done].
    + intros s3 Hs3. apply (wp_for_range _ _ _ (fun _ s' => sl_ok s'.2)); [done| |done].
      intros m s4 Hm Hs4. apply wp_sl_memcpy; [done|lia|lia|lia|cbn; lia|done|done].
Qed.

(** ** What a successful parse guarantees *)

Definition sps_err : Z → get_bits_context * h265_SPS_t → Prop := fun e _ => e = -1.

(** Reading when only the outcome of successful runs is at issue. *)
Ltac anystep := parse_step 0; try apply avail_true; try (left; exact I).

(** A conformance window read or kept: its members are [u32]. *)
Lemma wp_read_window hm vm (Q : unit → get_bits_context * HEVCWindow → Prop) E s :
  (∀ g w, Q tt (g, w)) → wp True (read_window hm vm) Q E s.
Proof. intros HQ. unfold read_window. repeat anystep. apply HQ. Qed.

(** The VUI parser only touches [vui] and [pix_fmt]. *)
Section Vui.
Context (I : h265_SPS_t → Prop).
Context (Hvui : ∀ s v, I s → I (s <| vui := v |>)) (Hfmt : ∀ s f, I s → I (s <| pix_fmt := f |>)).
Context (E : Z → get_bits_context * h265_SPS_t → Prop).

Definition keeps {A} (m : P h265_SPS_t A) : Prop :=
  ∀ s, I s.2 → wp True m (fun _ s' => I s'.2) E s.

Lemma keeps_bind {A B} (m : P h265_SPS_t A) (k : A → P h265_SPS_t B) :
  keeps m → (∀ a, keeps (k a)) → keeps (m ≫= k).
Proof. intros Hm Hk s Hs. apply wp_bind. eapply wp_mono; [by apply Hm| |done]. intros a s' Hs'. by apply Hk. Qed.

Lemma keeps_ret {A} (a : A) : keeps (mret a).
Proof. by intros s Hs. Qed.

Lemma keeps_when b (m : P h265_SPS_t unit) : keeps m → keeps (when b m).
Proof. intros Hm. destruct b; [done|apply keeps_ret]. Qed.

Lemma keeps_if {A} (b : bool) (m1 m2 : P h265_SPS_t A) : keeps m1 → keeps m2 → keeps (if b then m1 else m2).
Proof. by destruct b. Qed.

Lemma keeps_look {A} (f : h265_SPS_t → A) : keeps (look f).
Proof. by intros s Hs. Qed.

Lemma keeps_option {A} (o : option A) : keeps (of_option o).
Proof. intros s Hs. by apply wp_of_option. Qed.

Lemma keeps_read (m : G Z) N lo hi `{!Reads m N lo hi} : keeps (gbm m).
Proof. intros s Hs. anystep. done. Qed.

Lemma keeps_left : keeps (gbm get_bits_left).
Proof. intros s Hs. by apply wp_left. Qed.

Lemma keeps_show n : 1 ≤ n ≤ MIN_CACHE_BITS → keeps (gbm (show_bits_long n)).
Proof.
  intros Hn s Hs. unfold show_bits_long. rewrite (proj2 (Z.leb_le _ _)) by lia.
  unfold wp, gbm, zoom, show_bits, mbind, G_bind, M_bind.
  destruct (open_cache_cases s.1) as [(c & -> & Hc)| ->]; [|done]. by destruct (NEG_USR32 c n).
Qed.

Lemma keeps_fmt f : keeps (setf pix_fmt f).
Proof. intros s Hs. apply wp_setf. by apply Hfmt. Qed.

Lemma keeps_sub {A} (m : P VUI A) : (∀ s, wp True m (fun _ _ => True) (fun _ _ => False) s) → keeps (sub vui m).
Proof.
  intros Hm s Hs. apply wp_sub. eapply wp_mono; [apply Hm| |done]. intros a s' _. by apply Hvui.
Qed.

Lemma keeps_readi p `{!Setter p} (m : G Z) N lo hi `{!Reads m N lo hi} : keeps (vui_readi p m).
Proof. apply keeps_sub. intros s. anystep. done. Qed.

Lemma keeps_readu p `{!Setter p} (m : G Z) N lo hi `{!Reads m N lo hi} : keeps (sub vui (readu p m)).
Proof. apply keeps_sub. intros s. anystep. done. Qed.

Lemma keeps_flag p `{!Setter p} : keeps (vui_flag p).
Proof.
  apply keeps_bind; [by eapply keeps_readi, _|]. intros _.
  apply keeps_bind; [apply keeps_look|]. intros v. apply keeps_ret.
Qed.

Lemma keeps_restore b : keeps (vui_restore b).
Proof. intros s Hs. by apply Hvui. Qed.

Lemma keeps_hrd c n : keeps (decode_hrd c n).
Proof.
  intros s Hs. apply (decode_hrd_wp _ _ 0); [lia|by left|apply avail_true|]. intros r g _. done.
Qed.

Ltac keep :=
  repeat lazymatch goal with
  | |- keeps (_ ≫= _) => apply keeps_bind; [|intros ?]
  | |- keeps (mret _) => apply keeps_ret
  | |- keeps (when _ _) => apply keeps_when
  | |- keeps (if _ then _ else _) => apply keeps_if
  | |- keeps (look _) => apply keeps_look
  | |- keeps (of_option _) => apply keeps_option
  | |- keeps (gbm get_bits_left) => apply keeps_left
  | |- keeps (gbm (show_bits_long _)) => apply keeps_show; unfold MIN_CACHE_BITS; lia
  | |- keeps (gbm _) => eapply keeps_read, _
  | |- keeps (setf pix_fmt _) => apply keeps_fmt
  | |- keeps (vui_flag _) => apply keeps_flag
  | |- keeps (vui_readi _ _) => eapply keeps_readi, _
  | |- keeps (sub vui (readu _ _)) => eapply keeps_readu, _
  | |- keeps (vui_restore _) => apply keeps_restore
  | |- keeps (match ?o with _ => _ end) => destruct o
  end.

Lemma keeps_aspect_ratio : keeps vui_aspect_ratio.
Proof.
  unfold vui_aspect_ratio. keep; apply keeps_sub; intros s; by apply wp_setf.
Qed.

Lemma keeps_colour : keeps vui_colour_description.
Proof. unfold vui_colour_description. keep. apply keeps_sub. intros s. by repeat anystep. Qed.

Lemma keeps_video_signal : keeps vui_video_signal.
Proof. unfold vui_video_signal. keep. apply keeps_colour. Qed.

Lemma keeps_chroma_loc : keeps vui_chroma_loc.
Proof. unfold vui_chroma_loc. keep. Qed.

Lemma keeps_display_window : keeps vui_display_window.
Proof.
  unfold vui_display_window. keep; apply keeps_sub; intros s.
  - by apply wp_setf.
  - apply wp_sub. by apply wp_read_window.
Qed.

Lemma keeps_timing backup alt again : keeps again → keeps (vui_timing_info backup alt again).
Proof.
  intros Ha. unfold vui_timing_info. cbv zeta. keep; first [done|apply keeps_hrd].
Qed.

Lemma keeps_decode_vui : keeps decode_vui.
Proof.
  unfold decode_vui. apply keeps_bind; [apply keeps_aspect_ratio|intros _].
  apply keeps_bind; [apply keeps_video_signal|intros _]. apply keeps_bind; [apply keeps_chroma_loc|intros _].
  intros s Hs. apply wp_bind, wp_get. revert s Hs.
  assert (∀ b, keeps (vui_display_window;; vui_timing_info b false (vui_timing_info b true (mret tt)))) as Hk.
  { intros b. apply keeps_bind; [apply keeps_display_window|intros _].
    apply keeps_timing, keeps_timing, keeps_ret. }
  intros s Hs. by apply Hk.
Qed.
End Vui.

(** *** Block by block *)

(** What an earlier parse, or the zeroed structure, leaves behind. *)
Record sps_ok (s : h265_SPS_t) : Prop := {
  sok_ptl : ptl_ok (ptl s);
  sok_rps : Forall rps_ref_ok (st_rps s);
  sok_sl : sl_ok (scaling_list s)
}.

Lemma init_sps_ok : sps_ok init_h265_SPS_t.
Proof.
  split; [exact (vok_ptl _ init_vps_ok)| |].
  - apply Forall_replicate. repeat split; cbn; lia.
  - split; try done; repeat constructor; try done.
Qed.

Record sps_ids (s : h265_SPS_t) : Prop := {
  si_ok : sps_ok s;
  si_vps : 0 ≤ vps_id s < 16;
  si_sps : 0 ≤ sps_id s < 16;
  si_sub : 1 ≤ max_sub_layers s ≤ 7;
  si_idc : 0 ≤ chroma_format_idc s ≤ 3
}.

Record sps_size (s : h265_SPS_t) : Prop := {
  ss_ids : sps_ids s;
  ss_width : - 2 ^ 31 ≤ width s ≤ 8192;
  ss_height : - 2 ^ 31 ≤ height s ≤ 8192
}.

Record sps_depths (s : h265_SPS_t) : Prop := {
  sd_size : sps_size s;
  sd_depth : bit_depth s = 8 ∨ bit_depth s = 9 ∨ bit_depth s = 10 ∨ bit_depth s = 12;
  sd_chroma : chroma_format_idc s ≠ 0 → bit_depth_chroma s = bit_depth s;
  sd_poc : 0 ≤ log2_max_poc_lsb s ≤ 16
}.

Definition tl_ok (t : TemporalLayer) : Prop :=
  0 ≤ max_dec_pic_buffering t ≤ 16 ∧ num_reorder_pics t ≤ max_dec_pic_buffering t - 1.

Definition layers_ok (lo hi : Z) (s : h265_SPS_t) : Prop :=
  ∀ i, lo ≤ i < hi → ∃ t, aget (temporal_layer s) i = Some t ∧ tl_ok t.

Record sps_layers (s : h265_SPS_t) : Prop := {
  sl_depths : sps_depths s;
  sl_layers : layers_ok 0 (max_sub_layers s) s
}.

Record sps_blocks (s : h265_SPS_t) : Prop := {
  sb_layers : sps_layers s;
  sb_min_cb : 3 ≤ log2_min_cb_size s ≤ 30;
  sb_diff : 0 ≤ log2_diff_max_min_coding_block_size s ≤ 30;
  sb_min_tb : 2 ≤ log2_min_tb_size s < log2_min_cb_size s;
  sb_trafo : log2_min_tb_size s ≤ log2_max_trafo_size s ≤ log2_min_tb_size s + 30;
  sb_inter : - 2 ^ 31 ≤ max_transform_hierarchy_depth_inter s < 2 ^ 31;
  sb_intra : - 2 ^ 31 ≤ max_transform_hierarchy_depth_intra s < 2 ^ 31
}.

Record sps_refs (s : h265_SPS_t) : Prop := {
  sr_blocks : sps_blocks s;
  sr_nb : 0 ≤ nb_st_rps s ≤ 64;
  sr_rps : ∀ i, 0 ≤ i < nb_st_rps s → ∃ r, aget (st_rps s) i = Some r ∧ rps_wf r;
  sr_lt : truth (long_term_ref_pics_present_flag s) = true → 0 ≤ num_long_term_ref_pics_sps s ≤ 32
}.

Record sps_ctb (s : h265_SPS_t) : Prop := {
  sc_refs : sps_refs s;
  sc_ctb : log2_ctb_size s = log2_min_cb_size s + log2_diff_max_min_coding_block_size s;
  sc_ctb_range : 4 ≤ log2_ctb_size s ≤ 6;
  sc_pu : log2_min_pu_size s = log2_min_cb_size s - 1;
  sc_window_x : u32 (left_offset (output_window s) + right_offset (output_window s)) < u32 (width s);
  sc_window_y : u32 (top_offset (output_window s) + bottom_offset (output_window s)) < u32 (height s)
}.

(** [x] rounded up to multiples of [2 ^ k]. *)
Definition ceil_shift (x k : Z) : Z := (x + 2 ^ k - 1) / 2 ^ k.

Record sps_dims (s : h265_SPS_t) : Prop := {
  sm_ctb : sps_ctb s;
  sm_ctb_width : ctb_width s = ceil_shift (width s) (log2_ctb_size s);
  sm_ctb_height : ctb_height s = ceil_shift (height s) (log2_ctb_size s);
  sm_cb_width : min_cb_width s = width s / 2 ^ log2_min_cb_size s;
  sm_cb_height : min_cb_height s = height s / 2 ^ log2_min_cb_size s;
  sm_tb_mask : tb_mask s = 2 ^ (log2_ctb_size s - log2_min_tb_size s) - 1;
  sm_qp : qp_bd_offset s = 6 * (bit_depth s - 8)
}.

(** What a successful parse guarantees. *)
Record sps_valid (s : h265_SPS_t) : Prop := {
  sv_dims : sps_dims s;
  sv_align_width : width s mod 2 ^ log2_min_cb_size s = 0;
  sv_align_height : height s mod 2 ^ log2_min_cb_size s = 0;
  sv_depth_inter : 0 ≤ max_transform_hierarchy_depth_inter s ≤ log2_ctb_size s - log2_min_tb_size s;
  sv_depth_intra : 0 ≤ max_transform_hierarchy_depth_intra s ≤ log2_ctb_size s - log2_min_tb_size s;
  sv_trafo : log2_max_trafo_size s ≤ Z.min (log2_ctb_size s) 5
}.

(** The members of the records above that an assignment elsewhere keeps. *)
Ltac keep_all :=
  repeat match goal with
  | H : sps_dims _ |- _ => destruct H
  | H : sps_ctb _ |- _ => destruct H
  | H : sps_refs _ |- _ => destruct H
  | H : sps_blocks _ |- _ => destruct H
  | H : sps_layers _ |- _ => destruct H
  | H : sps_depths _ |- _ => destruct H
  | H : sps_size _ |- _ => destruct H
  | H : sps_ids _ |- _ => destruct H
  | H : sps_ok _ |- _ => destruct H
  end;
  repeat first [assumption | progress cbn in * | split].

(** Run to the next call of a function with a lemma of its own. *)
Ltac anysteps :=
  repeat lazymatch goal with
  | |- wp _ (sub ptl _) _ _ _ => fail
  | |- wp _ (sub scaling_list _) _ _ _ => fail
  | |- wp _ (sub_at _ _ _) _ _ _ => fail
  | |- wp _ (sub pic_conf_win _) _ _ _ => fail
  | |- wp _ map_pixel_format _ _ _ => fail
  | |- wp _ decode_vui _ _ _ => fail
  | |- wp _ sps_extension _ _ _ => fail
  | |- wp _ (for_range _ _ _) _ _ _ => fail
  | |- wp _ _ _ _ _ => anystep
  end.

(** The ranges of the conversions in sight. *)
Ltac ranges :=
  repeat match goal with
  | H : context [u32 (s32 ?v)] |- _ =>
      lazymatch goal with
      | _ : u32 (s32 v) = s32 v ∧ _ ∨ _ |- _ => fail
      | _ => pose proof (u32_of_s32 (s32 v) (s32_range v))
      end
  | H : context [u8 ?v] |- _ =>
      lazymatch goal with _ : 0 ≤ u8 v < 256 |- _ => fail | _ => pose proof (u8_range v) end
  | H : context [u32 ?v] |- _ =>
      lazymatch goal with _ : 0 ≤ u32 v < 2 ^ 32 |- _ => fail | _ => pose proof (u32_range v) end
  | H : context [s32 ?v] |- _ =>
      lazymatch goal with _ : - 2 ^ 31 ≤ s32 v < 2 ^ 31 |- _ => fail | _ => pose proof (s32_range v) end
  | |- context [u8 ?v] =>
      lazymatch goal with _ : 0 ≤ u8 v < 256 |- _ => fail | _ => pose proof (u8_range v) end
  | |- context [u32 ?v] =>
      lazymatch goal with _ : 0 ≤ u32 v < 2 ^ 32 |- _ => fail | _ => pose proof (u32_range v) end
  | |- context [s32 ?v] =>
      lazymatch goal with _ : - 2 ^ 31 ≤ s32 v < 2 ^ 31 |- _ => fail | _ => pose proof (s32_range v) end
  end.

Section Blocks.
Context (cs : bool).

Definition run_inv (m : P h265_SPS_t unit) (inv : h265_SPS_t → Prop) (s : get_bits_context * h265_SPS_t) : Prop :=
  wp True m (fun _ s' => inv s'.2) sps_err s.

Lemma sps_header_wp s : sps_ok s.2 → run_inv sps_header sps_ids s.
Proof.
  intros [Hp Hr Hl]. unfold run_inv, sps_header, HEVC_MAX_VPS_COUNT, HEVC_MAX_SUB_LAYERS, HEVC_MAX_SPS_COUNT.
  anysteps; try done. bprop. cbn in *.
  apply wp_sub. eapply wp_mono; [apply (parse_ptl_wp _ 0 (fun _ _ => False)); [lia|lia|apply avail_true|exact Hp]| |done].
  intros r s' (_ & Hp' & Hr'). cbn [fst snd] in *. anysteps; bprop; cbn in *; try done.
  all: try (unfold sps_err; lia).
  all: ranges; split; [split; cbn; assumption|cbn in *; lia..].
Qed.
Lemma sps_picture_size_wp s : sps_ids s.2 → run_inv sps_picture_size sps_size s.
Proof.
  intros Hids. unfold run_inv, sps_picture_size. anysteps; try done.
  - apply wp_sub, wp_read_window. intros g w. anysteps. bprop. cbn in *. ranges.
    split; [keep_all|cbn; lia..].
  - bprop. cbn in *. ranges. split; [keep_all|cbn; lia..].
Qed.

Lemma map_pixel_format_wp (Q : Z → get_bits_context * h265_SPS_t → Prop) E s :
  (∀ f p, bit_depth s.2 = 8 ∨ bit_depth s.2 = 9 ∨ bit_depth s.2 = 10 ∨ bit_depth s.2 = 12 →
     Q 0 (s.1, s.2 <| pix_fmt := f |> <| pixel_shift := p |>)) →
  Q (-1) s →
  wp True map_pixel_format Q E s.
Proof.
  intros HQ HE. unfold map_pixel_format. apply wp_call. anystep. anystep. anystep. anystep. cbv zeta.
  anystep. destruct s as [g t].
  assert (∀ t' p, (∃ f, t' = t <| pix_fmt := f |>) → bit_depth t = 8 ∨ bit_depth t = 9 ∨ bit_depth t = 10 ∨ bit_depth t = 12 →
    Q 0 (g, t' <| pixel_shift := p |>)) as HQ' by (intros t' p [f ->] Hb; by apply HQ).
  assert (∃ f, t = t <| pix_fmt := f |>) as Hid by (exists (pix_fmt t); by destruct t).
  anysteps; bprop; cbn [fst snd] in *; try done;
    apply HQ'; try done; try tauto; eexists; reflexivity.
Qed.

Lemma sps_formats_wp s : sps_size s.2 → run_inv sps_formats sps_depths s.
Proof.
  intros Hsize. unfold run_inv, sps_formats. anysteps; try done.
  apply map_pixel_format_wp; [|by anysteps]. intros f p Hb. cbn [fst snd].
  anysteps; try done. bprop. cbn in *. ranges. split; [keep_all|exact Hb| |cbn; lia].
  cbn. intros Hc. match goal with H : _ && _ = false |- _ => apply andb_false_iff in H as [Hx|Hx] end;
    unfold truth in *; bprop; congruence.
Qed.

Lemma sps_sub_layer_wp (Q : unit → get_bits_context * TemporalLayer → Prop) E s :
  (∀ g t, tl_ok t → Q tt (g, t)) → (∀ s', E (-1) s') → wp True sps_sub_layer Q E s.
Proof.
  intros HQ HE. unfold sps_sub_layer, HEVC_MAX_DPB_SIZE. anysteps; try apply HE.
  all: bprop; cbn in *; ranges; apply HQ; unfold tl_ok; cbn.
  - rewrite !s32_id in * by lia. lia.
  - match goal with H : s32 _ ≤ s32 (?x - 1) |- _ => rewrite (s32_id (x - 1)) in H by lia end. lia.
Qed.

Lemma sps_sub_layers_wp s : sps_depths s.2 → run_inv sps_sub_layers sps_layers s.
Proof.
  intros Hd. unfold run_inv, sps_sub_layers. anysteps.
  assert (1 ≤ max_sub_layers s.2 ≤ 7) as Hn by apply Hd.
  set (n := max_sub_layers s.2) in *. set (start := if truth v then 0 else n - 1).
  apply (wp_for_range _ _ _ (fun i s' => sps_depths s'.2 ∧ max_sub_layers s'.2 = n ∧ layers_ok start i s'.2)).
  - split; [done|]. split; [done|]. intros i Hi. lia.
  - intros i s' Hi (Hd' & Hn' & Hl). apply wp_sub_at; [by left|]. intros b Hb.
    apply sps_sub_layer_wp; [|done]. intros g t Ht. cbn [fst snd].
    apply aget_inv in Hb as [Hb _].
    split; [keep_all|]. split; [done|]. intros j Hj. cbn. destruct (decide (j = i)) as [->|Hne].
    + exists t. by rewrite aget_insert.
    + rewrite aget_insert_ne by (unfold start in *; destruct (truth v); lia). apply Hl. lia.
  - intros s' (Hd' & Hn' & Hl). replace (Z.max start n) with n in Hl by (unfold start; destruct (truth v); lia).
    anysteps; bprop.
    2: { split; [done|]. rewrite Hn'. unfold start in Hl.
         match goal with H : truth v = _ |- _ => rewrite H in Hl end. exact Hl. }
    match goal with H : truth v = _ |- _ => unfold start in *; rewrite H in * end.
    apply (wp_for_range _ _ _ (fun i s2 => sps_depths s2.2 ∧ max_sub_layers s2.2 = n ∧
      layers_ok (n - 1) n s2.2 ∧ layers_ok 0 i s2.2)).
    + split; [done|]. split; [done|]. split; [done|]. intros i Hi. lia.
    + intros i s2 Hi (Hd2 & Hn2 & Hl2 & Hk2). anystep. anystep. anystep.
      destruct (Hl2 (n - 1)) as (t & Ht & Hok); [lia|]. assert (a = t) as -> by congruence.
      split; [keep_all|]. split; [done|].
      assert (∀ j lo hi, lo ≤ j < hi → layers_ok lo hi s2.2 → j ≠ i →
        ∃ t0, aget (<[Z.to_nat i:=t]> (temporal_layer s2.2)) j = Some t0 ∧ tl_ok t0) as Hne.
      { intros j lo hi Hj Hlo Hji. rewrite aget_insert_ne by lia. by apply Hlo. }
      split; intros j Hj; cbn.
      * apply (Hne j (n - 1) n); [done|done|lia].
      * destruct (decide (j = i)) as [->|Hji]; [exists t; by rewrite aget_insert|].
        apply (Hne j 0 i); [lia|done|done].
    + intros s2 (Hd2 & Hn2 & Hl2 & Hk2). split; [done|]. rewrite Hn2.
      replace (Z.max 0 (n - 1)) with (n - 1) in Hk2 by lia. intros i Hi.
      destruct (decide (i < n - 1)); [apply Hk2|apply Hl2]; lia.
Qed.

Lemma sps_block_sizes_wp s : sps_layers s.2 → run_inv sps_block_sizes sps_blocks s.
Proof.
  intros Hl. unfold run_inv, sps_block_sizes. anysteps; try done.
  bprop. cbn in *. ranges. split; [keep_all|cbn; try lia..].
  all: try apply s32_range.
  match goal with |- context [u32 (?d + ?m)] => rewrite (u32_id (d + m)) by lia end. lia.
Qed.

Lemma sps_scaling_wp s : sps_blocks s.2 → run_inv (sps_scaling cs) sps_blocks s.
Proof.
  intros Hb. unfold run_inv, sps_scaling. anysteps; try done; [|keep_all].
  assert (sl_ok (scaling_list s.2)) as Hsl by apply Hb.
  apply wp_sub. eapply wp_mono; [by apply (set_default_scaling_list_data_wp (fun _ _ => False))| |done].
  intros [] s' Hsl'. cbn [fst snd]. anysteps; [|keep_all].
  apply wp_sub. eapply wp_mono; [apply (scaling_list_data_wp cs _ 0 (fun _ _ => False)); [done|by left|done]| |done].
  intros r s2 [Hsl2 Hr]. cbn [fst snd]. anysteps; bprop; [|keep_all]. unfold sps_err. lia.
Qed.

Lemma sps_pcm_wp s : sps_blocks s.2 → run_inv sps_pcm sps_blocks s.
Proof.
  intros Hb. unfold run_inv, sps_pcm.
  anysteps; try done; keep_all.
Qed.

Lemma sps_st_rps_wp n i s :
  sps_blocks s.2 → nb_st_rps s.2 = n → 0 ≤ i < n →
  (∀ j, 0 ≤ j < i → ∃ r, aget (st_rps s.2) j = Some r ∧ rps_wf r) →
  wp True (sps_st_rps i) (fun _ s' => sps_blocks s'.2 ∧ nb_st_rps s'.2 = n ∧
    ∀ j, 0 ≤ j < i + 1 → ∃ r, aget (st_rps s'.2) j = Some r ∧ rps_wf r) sps_err s.
Proof.
  intros Hb Hn Hi Hl. unfold sps_st_rps. anystep. anystep. anystep. anystep. anystep.
  assert (Forall rps_ref_ok (st_rps s.2)) as Hst by apply Hb.
  apply wp_sub_at; [by left|]. intros r Hr. pose proof (Forall_aget _ _ _ _ Hst Hr) as Href.
  apply aget_inv in Hr as [Hir _].
  eapply wp_mono; [apply (decode_short_term_rps_wp _ _ _ _ 0 _ (fun _ _ => False));
    [done|apply avail_true|done|done|unfold idx_ok; lia|lia]| |done].
  intros ret s' (_ & Href' & Hret). cbn [fst snd] in *.
  assert (Forall rps_ref_ok (<[Z.to_nat i := s'.2]> (st_rps s.2))) as Hst' by (by apply Forall_insert).
  anysteps; bprop; cbn [fst snd] in *; [unfold sps_err; lia|].
  destruct Hret as [[-> Hwf]|]; [|lia].
  split; [keep_all|]. split; [done|]. intros j Hj. cbn. destruct (decide (j = i)) as [->|Hne].
  - exists s'.2. by rewrite aget_insert.
  - rewrite aget_insert_ne by lia. apply Hl. lia.
Qed.

Lemma wp_get_bits_any {T} n (Q : Z → get_bits_context * T → Prop) E s :
  (∀ v g, Q v (g, s.2)) → wp True (gbm (get_bits n)) Q E s.
Proof.
  intros HQ. unfold wp, gbm, zoom, get_bits, mbind, G_bind, M_bind.
  destruct (open_cache_cases s.1) as [(c & -> & _)| ->]; [|done].
  destruct (NEG_USR32 c n) as [v|]; [|done]. apply HQ.
Qed.

Lemma sps_reference_sets_wp s : sps_blocks s.2 → run_inv sps_reference_sets sps_refs s.
Proof.
  intros Hb. unfold run_inv, sps_reference_sets, HEVC_MAX_SHORT_TERM_REF_PIC_SETS, HEVC_MAX_LONG_TERM_REF_PICS.
  anysteps; [done|]. cbn [nb_st_rps set_field] in *. set (n := u32 v) in *.
  apply (wp_for_range _ _ _ (fun i s' => sps_blocks s'.2 ∧ nb_st_rps s'.2 = n ∧
    ∀ j, 0 ≤ j < i → ∃ r, aget (st_rps s'.2) j = Some r ∧ rps_wf r)).
  - split; [keep_all|]. split; [done|]. lia.
  - intros i s' Hi (Hb' & Hn' & Hl). by apply sps_st_rps_wp.
  - intros s' (Hb' & Hn' & Hl). bprop. pose proof (u32_range v) as Hnr. fold n in Hnr.
    replace (Z.max 0 n) with n in Hl by lia.
    anysteps; try done.
    2: { split; [keep_all|cbn; lia| |]; cbn in *; [by rewrite Hn'|congruence]. }
    bprop. cbn in *.
    apply (wp_for_range _ _ _ (fun _ s2 => sps_refs s2.2)); [| |done].
    + split; [keep_all|cbn; lia| |]; cbn; [by rewrite Hn'|]. intros _. pose proof (u8_range v1). lia.
    + intros i s2 Hi Hs2. anystep. anystep. apply wp_bind, wp_get_bits_any. intros x g3.
      anysteps; keep_all.
Qed.

Lemma sps_extension_wp s : sps_refs s.2 → run_inv sps_extension sps_refs s.
Proof. intros Hr. unfold run_inv, sps_extension. anysteps; keep_all. Qed.

Lemma sps_vui_and_extension_wp s : sps_refs s.2 → run_inv sps_vui_and_extension sps_refs s.
Proof.
  intros Hr. unfold run_inv, sps_vui_and_extension.
  anysteps.
  - eapply wp_mono; [apply (keeps_decode_vui sps_refs)| |done].
    + intros t x Ht. keep_all.
    + intros t x Ht. keep_all.
    + keep_all.
    + intros [] s' Ht. by apply sps_extension_wp.
  - apply sps_extension_wp. keep_all.
Qed.

Lemma sps_check_window_wp s : sps_refs s.2 → run_inv sps_check_window sps_ctb s.
Proof.
  intros Hr. unfold run_inv, sps_check_window, HEVC_MAX_LOG2_CTB_SIZE. anysteps; try done.
  bprop. cbn in *. ranges.
  assert (3 ≤ log2_min_cb_size s.2 ≤ 30) as Hcb by apply Hr.
  assert (0 ≤ log2_diff_max_min_coding_block_size s.2 ≤ 30) as Hd by apply Hr.
  rewrite (u32_id (log2_min_cb_size s.2 + _)) in * by lia.
  rewrite (u32_id (log2_min_cb_size s.2 - 1)) in * by lia.
  split; cbn; [keep_all|lia..].
Qed.

Lemma sps_inferred_wp s : sps_ctb s.2 → run_inv sps_inferred sps_dims s.
Proof.
  intros Hc. destruct (Hc) as [Hr Hl Hlr Hp _ _]. unfold run_inv, sps_inferred. anysteps. cbn.
  set (t := s.2) in *.
  assert (- 2 ^ 31 ≤ width t ≤ 8192 ∧ - 2 ^ 31 ≤ height t ≤ 8192) as [Hw Hh] by (split; apply Hr).
  assert (2 ≤ log2_min_tb_size t < log2_min_cb_size t) as Htb by apply Hr.
  assert (0 ≤ log2_diff_max_min_coding_block_size t) as Hdf by apply Hr.
  assert (bit_depth t = 8 ∨ bit_depth t = 9 ∨ bit_depth t = 10 ∨ bit_depth t = 12) as Hbd by apply Hr.
  assert (2 ^ 4 ≤ 2 ^ log2_ctb_size t ≤ 2 ^ 6) as Hp2 by (split; apply Z.pow_le_mono_r; lia).
  assert (s32 (Z.shiftl 1 (log2_ctb_size t)) = 2 ^ log2_ctb_size t) as Hs.
  { rewrite Z.shiftl_mul_pow2, Z.mul_1_l by lia. apply s32_id. lia. }
  assert (∀ x, - 2 ^ 31 ≤ x ≤ 8192 →
    Z.shiftr (s32 (s32 (x + s32 (Z.shiftl 1 (log2_ctb_size t))) - 1)) (log2_ctb_size t) =
    ceil_shift x (log2_ctb_size t)) as Hceil.
  { intros x Hx. rewrite Hs, (s32_id (x + _)), s32_id by lia. rewrite Z.shiftr_div_pow2 by lia. done. }
  split; cbn -[ceil_shift Z.shiftr Z.shiftl]; fold t.
  - clear Hceil Hs. keep_all.
  - apply Hceil. lia.
  - apply Hceil. lia.
  - apply Z.shiftr_div_pow2. lia.
  - apply Z.shiftr_div_pow2. lia.
  - rewrite (u32_id (log2_ctb_size t - _)) by lia. rewrite Z.shiftl_mul_pow2, Z.mul_1_l by lia.
    assert (2 ^ 0 ≤ 2 ^ (log2_ctb_size t - log2_min_tb_size t) ≤ 2 ^ 6) by (split; apply Z.pow_le_mono_r; lia).
    rewrite (s32_id (2 ^ _)), s32_id by (cbn in *; lia). done.
  - apply s32_id. lia.
Qed.

Lemma mod_uintp2 x k : 0 ≤ k ≤ 30 → av_mod_uintp2 (u32 x) k = x mod 2 ^ k.
Proof.
  intros Hk. unfold av_mod_uintp2. rewrite Z.shiftl_mul_pow2, Z.mul_1_l by lia.
  assert (2 ^ 0 ≤ 2 ^ k ≤ 2 ^ 30) by (split; apply Z.pow_le_mono_r; lia).
  rewrite (u32_id (2 ^ k - 1)) by (cbn in *; lia). change (2 ^ k - 1) with (Z.pred (2 ^ k)).
  rewrite <- Z.ones_equiv, Z.land_ones by lia. unfold u32.
  replace (2 ^ 32) with (2 ^ k * 2 ^ (32 - k)) by (rewrite <- Z.pow_add_r by lia; f_equal; lia).
  pose proof (Z.pow_pos_nonneg 2 (32 - k)). rewrite Z.rem_mul_r by lia.
  by rewrite Z.mul_comm, Z_mod_plus_full, Z.mod_mod by lia.
Qed.

Lemma sps_final_checks_wp s : sps_dims s.2 → run_inv sps_final_checks sps_valid s.
Proof.
  intros Hd. unfold run_inv, sps_final_checks. anysteps; try done. unfold truth in *. bprop.
  assert (3 ≤ log2_min_cb_size s.2 ≤ 30) as Hcb by apply Hd.
  assert (4 ≤ log2_ctb_size s.2 ≤ 6) as Hctb by apply Hd.
  assert (2 ≤ log2_min_tb_size s.2 < log2_min_cb_size s.2) as Htb by apply Hd.
  assert (0 ≤ log2_diff_max_min_coding_block_size s.2) as Hdf by apply Hd.
  assert (log2_ctb_size s.2 = log2_min_cb_size s.2 + log2_diff_max_min_coding_block_size s.2) as Hc by apply Hd.
  rewrite !mod_uintp2 in * by lia. cbn [fst snd] in *.
  rewrite (u32_id (log2_ctb_size s.2 - _)) in * by lia.
  assert (∀ x, - 2 ^ 31 ≤ x < 2 ^ 31 → u32 x ≤ log2_ctb_size s.2 - log2_min_tb_size s.2 →
    0 ≤ x ≤ log2_ctb_size s.2 - log2_min_tb_size s.2) as Hx.
  { intros x Hx Hle. destruct (u32_of_s32 x Hx); lia. }
  split; [done|done|done|apply Hx|apply Hx|done]; try done; apply Hd.
Qed.

Lemma parse_sps_wp (E : Z → get_bits_context * h265_SPS_t → Prop) s : sps_ok s.2 →
  wp True (ff_hevc_parse_sps cs) (fun r s' => r = 0 ∧ sps_valid s'.2 ∨ r = -1) E s.
Proof.
  intros Hok. unfold ff_hevc_parse_sps. apply wp_call.
  assert (∀ e s', sps_err e s' → e = 0 ∧ sps_valid s'.2 ∨ e = -1) as Herr by (intros e s' He; by right).
  parse_step 0. eapply wp_mono; [by apply sps_header_wp| |exact Herr]. intros [] s1 H1.
  parse_step 0. eapply wp_mono; [by apply sps_picture_size_wp| |exact Herr]. intros [] s2 H2.
  parse_step 0. eapply wp_mono; [by apply sps_formats_wp| |exact Herr]. intros [] s3 H3.
  parse_step 0. eapply wp_mono; [by apply sps_sub_layers_wp| |exact Herr]. intros [] s4 H4.
  parse_step 0. eapply wp_mono; [by apply sps_block_sizes_wp| |exact Herr]. intros [] s5 H5.
  parse_step 0. eapply wp_mono; [by apply sps_scaling_wp| |exact Herr]. intros [] s6 H6.
  parse_step 0. eapply wp_mono; [by apply sps_pcm_wp| |exact Herr]. intros [] s7 H7.
  parse_step 0. eapply wp_mono; [by apply sps_reference_sets_wp| |exact Herr]. intros [] s8 H8.
  parse_step 0. eapply wp_mono; [by apply sps_vui_and_extension_wp| |exact Herr]. intros [] s9 H9.
  parse_step 0. eapply wp_mono; [by apply sps_check_window_wp| |exact Herr]. intros [] s10 H10.
  parse_step 0. eapply wp_mono; [by apply sps_inferred_wp| |exact Herr]. intros [] s11 H11.
  eapply wp_mono; [by apply sps_final_checks_wp| |exact Herr]. intros [] s12 H12. by left.
Qed.
End Blocks.

(** C1: whatever the input, when [ff_hevc_parse_sps] returns, it returns 0
    or -1, and on 0 the SPS satisfies every constraint the driver relies on:
    identifiers, sub-layers and DPB sizes, chroma format and bit depths, the
    chain 2 <= min TB < min CB <= CTB in 16..64, transform depths, up to 64
    well-formed short-term reference picture sets, dimensions at most 8192
    and multiples of the minimum coding block, and the derived sizes in CTBs.
    (Two bounds one would expect are missing because the code does not
    enforce them: width and height may be negative, and log2_max_poc_lsb may
    be below 4.) *)
Theorem parse_sps_valid cs g t ret g' t' :
  sps_ok t → ff_hevc_parse_sps cs (g, t) = Ok ret (g', t') →
  (ret = 0 ∧ sps_valid t') ∨ ret = -1.
Proof.
  intros Ht He. refine (wp_ok _ (fun r s' => r = 0 ∧ sps_valid s'.2 ∨ r = -1) (fun _ _ => True) _ _ _ _ He).
  by apply parse_sps_wp.
Qed.

(** The RBSP of an SPS for 1280x720 4:2:0 8 bit. *)
Definition sample_sps : get_bits_context :=
  (init_get_bits8 (Some ([1; 1; 96; 0; 0; 0; 144; 0; 0; 0; 0; 0; 93; 160; 2; 128; 128; 45; 22; 89;
    89; 164; 147; 43; 192; 64; 64; 0; 0; 250; 64; 0; 23; 112; 2] ++ replicate 64 0)) 35).2.

Lemma parse_sps_valid_witness :
  ∃ g' t', ff_hevc_parse_sps true (sample_sps, init_h265_SPS_t) = Ok 0 (g', t') ∧
    ((0 = 0 ∧ sps_valid t') ∨ 0 = -1).
Proof.
  eexists _, _. split; [vm_compute; reflexivity|].
  eapply (parse_sps_valid true sample_sps init_h265_SPS_t); [apply init_sps_ok|vm_compute; reflexivity].
Defined.
