(* ===== verification/HevcStreams.v ===== *)
(** The HEVC entry points on extradata
    (src/drivers/amvdec_ports/decoder/aml_hevc_parser.c:
    [decode_extradata_ps], [h265_decode_extradata_ps]), the flags they hand to
    the decoders, and concrete streams on which the parsers accept too much or
    read too far. *)

From stdpp Require Import base list numbers strings.
From Stdlib Require Import ZArith Lia Bool.
From S2P Require Import Prelude.
From S2P Require Import CommonUtils.
From S2P Require Import GetBits.
From S2P Require Import Golomb.
From S2P Require Import Parse.
From S2P Require Import HevcTypes.
From S2P Require Import HevcRps.
From S2P Require Import HevcVps.
From S2P Require Import HevcSps.

#[local] Open Scope Z_scope.

(** ** Extradata *)

Section Extradata.
Context (char_signed : bool).

Definition HEVC_NAL_VPS : Z := 32.
Definition HEVC_NAL_SPS : Z := 33.
Definition ENOMEM : Z := 12.

(** A parser on a member of the parameter sets and the local reader. *)
Definition run_parser {T} (gb : get_bits_context) (m : P T Z) (t : T) : option (Z * T) :=
  match m (gb, t) with
  | Ok r s => Some (r, s.2)
  | Err r s => Some (r, s.2)
  | Undef => None
  end.

(** [static int decode_extradata_ps(data, size, ps)]; [data] is the memory
    from the pointer on, [alloc_ok] whether [vmalloc] succeeds. *)
Definition decode_extradata_ps (alloc_ok : bool) (data : list Z) (size : Z)
    : M h265_param_sets Z :=
  nalu_pos ← of_option (find_start_code data size);
  if nalu_pos <? 0 then mret (-1)
  else
    let nal := drop (Z.to_nat nalu_pos) data in
    src_len ← of_option (calc_nal_len nal (size - nalu_pos));
    if negb alloc_ok then mret (- ENOMEM)
    else
      '(rbsp_buf, rbsp_size) ← of_option (nal_unit_extract_rbsp nal (u32 src_len));
      let '(ret, gb) := init_get_bits8 (Some rbsp_buf) rbsp_size in
      if ret <? 0 then mret ret
      else
        match get_bits1 gb with
        | Ok b gb =>
            if negb (b =? 0) then mret (-1)
            else
              match (t ← get_bits 6; l ← get_bits 6; i ← get_bits 3; mret (t, s32 (u32 (i - 1)))) gb with
              | Ok (nal_type, temporal_id) gb =>
                  if temporal_id <? 0 then mret (-1)
                  else if nal_type =? HEVC_NAL_VPS then
                    ps ← get;
                    '(ret, v) ← of_option (run_parser gb ff_hevc_parse_vps (ps_vps ps));
                    modify (fun ps => ps <| ps_vps := v |>);;
                    if ret <? 0 then mret ret
                    else modify (fun ps => ps <| vps_parsed := true |>);; mret ret
                  else if nal_type =? HEVC_NAL_SPS then
                    ps ← get;
                    '(ret, v) ← of_option (run_parser gb (ff_hevc_parse_sps char_signed) (ps_sps ps));
                    modify (fun ps => ps <| ps_sps := v |>);;
                    if ret <? 0 then mret ret
                    else modify (fun ps => ps <| sps_parsed := true |>);; mret ret
                  else mret ret
              | _ => undef
              end
        | _ => undef
        end.

(** The loop of [h265_decode_extradata_ps]; [p] is the offset of the
    pointer from [buf], [n] the iterations left. *)
Fixpoint extradata_loop (alloc_ok : bool) (buf : list Z) (size : Z) (n : nat) (p len ret : Z)
    : M h265_param_sets Z :=
  match n with
  | O => mret ret
  | S n' =>
      let data := drop (Z.to_nat p) buf in
      j ← of_option (find_start_code data len);
      if j >? 0 then
        let len := size - p in
        ret ← decode_extradata_ps alloc_ok data len;
        if truth ret then mret ret
        else
          parsed ← gets sps_parsed;
          if (parsed : bool) then mret ret
          else extradata_loop alloc_ok buf size n' (p + j + 1) len ret
      else extradata_loop alloc_ok buf size n' (p + 1) len ret
  end.

(** [int h265_decode_extradata_ps(buf, size, ps)] *)
Definition h265_decode_extradata_ps (alloc_ok : bool) (buf : list Z) (size : Z)
    : M h265_param_sets Z :=
  extradata_loop alloc_ok buf size (Z.to_nat (size - 4)) 0 size 0.

End Extradata.

(** ** The parsed flags *)

Record ps_inv (ps : h265_param_sets) : Prop := {
  pi_vps_ok : vps_ok (ps_vps ps);
  pi_sps_ok : sps_ok (ps_sps ps);
  pi_vps : vps_parsed ps = true → vps_valid (ps_vps ps)
}.

(** The parameter sets after a call that returned [ret]. *)
Definition ps_result (ret : Z) (ps : h265_param_sets) : Prop :=
  (sps_parsed ps = true → sps_valid (ps_sps ps)) ∧ (ret = 0 → ps_inv ps).

Lemma run_parser_spec {T} gb (m : P T Z) (t : T) (Q : Z → T → Prop) E :
  wp True m (fun r s => Q r s.2) E (gb, t) → (∀ e s, ¬ E e s) →
  ∀ r t', run_parser gb m t = Some (r, t') → Q r t'.
Proof.
  unfold wp, run_parser. intros Hwp HE r t'. destruct (m (gb, t)) as [a s|e s|]; [|by apply HE in Hwp|done].
  by intros [= <- <-].
Qed.

Lemma decode_extradata_ps_wp cs alloc data size ps :
  ps_inv ps → sps_parsed ps = false →
  wp True (decode_extradata_ps cs alloc data size) ps_result (fun _ _ => False) ps.
Proof.
  intros Hinv Hs. assert (∀ r, ps_result r ps) as Hsame by (intros r; split; [congruence|done]).
  unfold decode_extradata_ps. wp_step. wp_step; [|done]. wp_step; [by wp_step|].
  wp_step. wp_step; [|done]. wp_step; [by wp_step|]. wp_step. wp_step; [|done].
  destruct a1 as [rbsp size1]. destruct (init_get_bits8 _ _) as [ret gb]. wp_step; [by wp_step|].
  destruct (get_bits1 gb) as [b gb1| |]; [|done..]. wp_step; [by wp_step|].
  match goal with |- wp _ (match ?e with _ => _ end) _ _ _ =>
    destruct e as [[ty tid] gb2| |]; [|done..] end. wp_step; [by wp_step|]. wp_step.
  - wp_step. wp_step. wp_step. wp_step; [|done]. destruct a1 as [r v].
    match goal with H : run_parser _ _ _ = Some _ |- _ => rename H into Hrun end.
    pose proof (run_parser_spec gb2 ff_hevc_parse_vps (ps_vps ps) (fun r v => r = 0 ∧ vps_valid v ∨ r = -1)
      (fun _ _ => False)
      (parse_vps_wp (U := True) 0 (fun _ _ => False) (gb2, ps_vps ps) ltac:(lia) (or_introl I) (pi_vps_ok _ Hinv))
      ltac:(auto) r v Hrun) as Hr.
    wp_step. wp_step. wp_step; bprop.
    + wp_step. split; [cbn; congruence|]. intros ->. lia.
    + destruct Hr as [[-> Hv]| ->]; [|lia]. wp_step. wp_step. wp_step. split; [cbn; congruence|].
      intros _. split; cbn; [apply Hv|apply Hinv|done].
  - wp_step; [|by wp_step]. wp_step. wp_step. wp_step. wp_step; [|done]. destruct a1 as [r v].
    match goal with H : run_parser _ _ _ = Some _ |- _ => rename H into Hrun end.
    pose proof (run_parser_spec gb2 (ff_hevc_parse_sps cs) (ps_sps ps) (fun r v => r = 0 ∧ sps_valid v ∨ r = -1)
      (fun _ _ => False) (parse_sps_wp cs (fun _ _ => False) (gb2, ps_sps ps) (pi_sps_ok _ Hinv))
      ltac:(auto) r v Hrun) as Hr.
    wp_step. wp_step. wp_step; bprop.
    + wp_step. split; [cbn; congruence|]. intros ->. lia.
    + destruct Hr as [[-> Hv]| ->]; [|lia]. wp_step. wp_step. wp_step. split; [done|].
      intros _. split; cbn; [apply Hinv|apply Hv|apply Hinv].
Qed.

Lemma extradata_loop_wp cs alloc buf size n p len ret ps :
  ps_inv ps → sps_parsed ps = false →
  wp True (extradata_loop cs alloc buf size n p len ret) ps_result (fun _ _ => False) ps.
Proof.
  revert p len ret ps. induction n as [|n IH]; intros p len ret ps Hinv Hs; cbn [extradata_loop].
  - wp_step. split; [congruence|done].
  - wp_step. wp_step; [|done]. wp_step; [|by apply IH].
    wp_step. eapply wp_mono; [by apply decode_extradata_ps_wp| |done]. intros r ps' [H1 H2].
    wp_step; unfold truth in *; bprop; [wp_step; split; [done|congruence]|].
    subst r. wp_step. wp_step. wp_step; [wp_step; split; auto|]. apply IH; auto.
Qed.

(** whatever the extradata, when [h265_decode_extradata_ps] returns with
    [sps_parsed] set the stored SPS passed every check of the parser, and when
    it returns 0 with [vps_parsed] set so did the stored VPS. *)
Theorem extradata_flags_valid cs alloc buf size ps ret ps' :
  vps_ok (ps_vps ps) → sps_ok (ps_sps ps) → vps_parsed ps = false → sps_parsed ps = false →
  h265_decode_extradata_ps cs alloc buf size ps = Ok ret ps' →
  (sps_parsed ps' = true → sps_valid (ps_sps ps')) ∧
  (ret = 0 → vps_parsed ps' = true → vps_valid (ps_vps ps')).
Proof.
  intros Hv Hs Hpv Hps He.
  assert (ps_inv ps) as Hinv by (split; [done|done|congruence]).
  pose proof (extradata_loop_wp cs alloc buf size (Z.to_nat (size - 4)) 0 size 0 ps Hinv Hps) as Hwp.
  unfold h265_decode_extradata_ps in He. unfold wp in Hwp. rewrite He in Hwp. destruct Hwp as [H1 H2].
  split; [done|]. intros Hret. by apply H2.
Qed.

(** A VPS and an SPS in start code format, with the bytes of emulation
    prevention, followed by a filler. *)
Definition sample_extradata : list Z := [
  0; 0; 0; 1; 64; 1; 12; 1; 255; 255; 1; 96; 0; 0; 3; 0; 144; 0; 0; 3; 0; 0; 3; 0; 93; 149; 152; 9;
  0; 0; 0; 1; 66; 1; 1; 1; 96; 0; 0; 3; 0; 144; 0; 0; 3; 0; 0; 3; 0; 93; 160; 2; 128; 128; 45; 22; 89;
  89; 164; 147; 43; 192; 64; 64; 0; 0; 250; 64; 0; 23; 112; 2;
  0; 0; 0; 1; 76; 1
].

Lemma extradata_flags_valid_witness :
  ∃ ret ps, h265_decode_extradata_ps true true sample_extradata (zlen sample_extradata) init_h265_param_sets
      = Ok ret ps ∧ vps_parsed ps = true ∧ sps_parsed ps = true ∧
    (sps_parsed ps = true → sps_valid (ps_sps ps)) ∧
    (ret = 0 → vps_parsed ps = true → vps_valid (ps_vps ps)).
Proof.
  eexists _, _. split; [vm_compute; reflexivity|]. split; [done|]. split; [done|].
  eapply (extradata_flags_valid true true sample_extradata (zlen sample_extradata) init_h265_param_sets);
    [apply init_vps_ok|apply init_sps_ok|done|done|vm_compute; reflexivity].
Defined.

(** ** Streams *)

(** An SPS with pic_width_in_luma_samples = 2^32 - 8 (a 63-bit ue(v) code whose
    suffix starts at a byte boundary), 8 lines, 4:4:4. *)
Definition sps_negative_width : list Z := [
  1; 1; 255; 255; 255; 255; 255; 255; 255; 255; 255; 255; 93; 68; 0; 0; 0; 0; 255; 255;
  255; 249; 18; 255; 94; 16; 0
].

(** An SPS whose log2_max_pic_order_cnt_lsb_minus4 is coded as 63 zero bits. *)
Definition sps_short_poc : list Z := [
  1; 1; 255; 255; 255; 255; 255; 255; 255; 255; 255; 255; 93; 68; 9; 18; 192; 0; 0; 0; 0;
  0; 0; 0; 125; 120; 64
].

(** A VPS with 64 layer sets that announces 64 HRD structures and ends
    there; start code and NAL header included. *)
Definition vps_many_hrds : list Z := [
  0; 0; 0; 1; 64; 1; 12; 1; 255; 255; 1; 255; 255; 255; 255; 255; 255; 255; 255; 255;
  255; 93; 240; 0; 129; 255; 255; 255; 255; 255; 255; 255; 255; 255; 255; 255; 255; 255;
  255; 255; 254; 2; 8
].

(** An access unit delimiter followed by a zero byte. *)
Definition trailing_zero : list Z := [
  0; 0; 0; 1; 70; 1; 0
].

(** A reader on a payload followed by [pad] bytes of zero padding. *)
Definition reader_on (buf : list Z) (pad : nat) : get_bits_context :=
  (init_get_bits8 (Some (buf ++ replicate pad 0)) (zlen buf)).2.

(** two checks of [ff_hevc_parse_sps] are ineffective.  A width of
    2^32 - 8 passes "width > 8192" because the member is an [int]: the SPS is
    accepted with width -8.  A log2_max_poc_lsb of 3, below the minimum 4,
    passes because the addition of 4 wraps around. *)
Theorem sps_checks_bypassed cs :
  (∃ s, ff_hevc_parse_sps cs (reader_on sps_negative_width 64, init_h265_SPS_t) = Ok 0 s ∧
        width s.2 = -8 ∧ height s.2 = 8) ∧
  (∃ s, ff_hevc_parse_sps cs (reader_on sps_short_poc 64, init_h265_SPS_t) = Ok 0 s ∧
        log2_max_poc_lsb s.2 = 3).
Proof.
  split; destruct cs; eexists; (split; [vm_compute; reflexivity|by vm_compute]).
Qed.

(** the loops of [ff_hevc_parse_vps] do not look at the number of bits
    left: on a short VPS that announces 64 HRD structures, the parser runs
    over the payload and the 64 bytes of padding behind it, out of the
    buffer; with 1200 bytes of memory it notices the overread only at the
    end. *)
Theorem vps_overread :
  ff_hevc_parse_vps (reader_on (drop 6 vps_many_hrds) 64, init_h265_VPS_t) = Undef ∧
  ∃ s, ff_hevc_parse_vps (reader_on (drop 6 vps_many_hrds) 1200, init_h265_VPS_t) = Ok (-1) s.
Proof. split; [by vm_compute|]. eexists. vm_compute. reflexivity. Qed.

(** [h265_decode_extradata_ps] does not shorten [len] when it advances
    byte by byte, so [find_start_code] looks past the end: a delimiter and
    one zero byte are enough to read beyond the extradata. *)
Theorem extradata_overread :
  zlen trailing_zero = 7 ∧
  h265_decode_extradata_ps true true trailing_zero (zlen trailing_zero) init_h265_param_sets = Undef ∧
  ∃ ps, h265_decode_extradata_ps true true (trailing_zero ++ [0; 0; 0]) (zlen trailing_zero)
          init_h265_param_sets = Ok 0 ps.
Proof. split; [done|]. split; [by vm_compute|]. eexists. vm_compute. reflexivity. Qed.
