(* ===== verification/ParseBits.v ===== *)
(** Parsers on a bitstream of known content.

    [carries g l]: the reader stands before the bits [l] and may load a word
    wherever it stands among them.  The rules below run a parser on such a
    reader; with the ones of Parse.v for everything else a parser is followed
    on exactly the bits an encoder wrote. *)

From stdpp Require Import base list numbers.
From Stdlib Require Import ZArith Lia Bool.
From S2P Require Import Prelude.
From S2P Require Import Bits.
From S2P Require Import CommonUtils.
From S2P Require Import GetBits.
From S2P Require Import Parse.

#[local] Open Scope Z_scope.

Definition carries (g : get_bits_context) (l : list bool) : Prop :=
  room g (zlen l) ∧ l `prefix_of` stream g.

Lemma carries_room g l : carries g l → room g 0.
Proof. intros [Hr _]. eapply room_le; [|done]. apply zlen_nonneg. Qed.

Lemma carries_advance g c l : carries g (c ++ l) → carries (advance g (zlen c)) l.
Proof.
  intros [Hr [k Hk]]. rewrite zlen_app in Hr. pose proof (zlen_nonneg c).
  split; [by apply room_advance|]. exists k.
  rewrite stream_advance, Hk by (try apply Hr; lia). unfold zlen. rewrite Nat2Z.id.
  rewrite <- app_assoc. apply drop_app_length.
Qed.

Lemma carries_take g c l : carries g (c ++ l) → take (length c) (stream g) = c.
Proof. intros [_ [k ->]]. rewrite <- app_assoc. apply take_app_length. Qed.

(** A buffer whose bits start with [l]. *)
Lemma carries_start buf n l : l `prefix_of` bytes_bits buf → zlen l + 32 ≤ 8 * zlen buf →
  8 * zlen buf < 2 ^ 31 → carries (mk_gb buf n 0 (n * 8) (n * 8 + 8)) l.
Proof. intros Hp Hl Hb. split; [unfold room; cbn; lia|]. exact Hp. Qed.

Section Carried.
Context {U : Prop} {T : Type}.
Implicit Types (s : get_bits_context * T).

Lemma wp_carried (m : G Z) g t v g' (Q : Z → get_bits_context * T → Prop) E :
  m g = Ok v g' → Q v (g', t) → wp U (gbm m) Q E (g, t).
Proof. intros Hm HQ. unfold wp, gbm, zoom. cbn. by rewrite Hm. Qed.

Lemma wp_carry_bits n (k : nat) v l g t (Q : Z → get_bits_context * T → Prop) E :
  carries g (bits k v ++ l) → n = Z.of_nat k → 1 ≤ n ≤ 25 → 0 ≤ v < 2 ^ n →
  (∀ g', carries g' l → Q v (g', t)) → wp U (gbm (get_bits n)) Q E (g, t).
Proof.
  intros Hc -> Hn Hv HQ. pose proof (Z.mod_pos_bound (index g) 8).
  pose proof (carries_take _ _ _ Hc) as Ht. rewrite length_bits in Ht.
  pose proof (carries_advance _ _ _ Hc) as Ha. unfold zlen in Ha. rewrite length_bits in Ha.
  eapply wp_carried; [|by apply HQ, Ha].
  rewrite get_bits_stream by (try lia; by eapply carries_room).
  by rewrite Nat2Z.id, Ht, bval_bits, Z.mod_small by lia.
Qed.

Lemma wp_carry_long n (k : nat) v l g t (Q : Z → get_bits_context * T → Prop) E :
  carries g (bits k v ++ l) → n = Z.of_nat k → 1 ≤ n ≤ 25 → 0 ≤ v < 2 ^ n →
  (∀ g', carries g' l → Q v (g', t)) → wp U (gbm (get_bits_long n)) Q E (g, t).
Proof.
  intros Hc Hk Hn Hv HQ. unfold get_bits_long, MIN_CACHE_BITS.
  rewrite (proj2 (Z.eqb_neq n 0)), (proj2 (Z.leb_le n 64)) by lia. by eapply wp_carry_bits.
Qed.

Lemma wp_carry1 (b : bool) l g t (Q : Z → get_bits_context * T → Prop) E :
  carries g (b :: l) → (∀ g', carries g' l → Q (Z.b2z b) (g', t)) → wp U (gbm get_bits1) Q E (g, t).
Proof.
  intros Hc HQ. pose proof (carries_room _ _ Hc) as Hr.
  pose proof (carries_take _ [b] l Hc) as Ht. pose proof (carries_advance _ [b] l Hc) as Ha.
  eapply wp_carried; [|by apply HQ, Ha]. unfold room in Hr.
  destruct (get_bits1_spec g) as [-> _]; [lia..|]. change (take 1 (stream g)) with (take (length [b]) (stream g)).
  rewrite Ht. by destruct b.
Qed.

(** A syntax element that is inferred to be 0 when it is absent. *)
Lemma wp_cond (b : bool) (m : G Z) N lo hi `{!Reads m N lo hi} R g t (Q : Z → get_bits_context * T → Prop) E :
  0 ≤ R → lo ≤ 0 < hi → Avail U g (N + R) →
  (∀ v g', Avail U g' R → lo ≤ v < hi → (b = false → v = 0) → Q v (g', t)) →
  wp U (if b then gbm m else mret 0) Q E (g, t).
Proof.
  intros HR Hz Ha HQ. apply wp_if; intros ->.
  - eapply (wp_gbm m N lo hi R); [done|done|]. intros. by apply HQ.
  - wp_step. apply HQ; [|lia|done]. eapply avail_le; [|done]. pose proof (reads_room (m := m)). lia.
Qed.
End Carried.

(** One step of a parser that stands before known bits. *)
Ltac carry_step :=
  lazymatch goal with
  | H : carries ?g _ |- wp _ (gbm _) _ _ (?g, _) =>
      first [ eapply (wp_carry_bits _ _ _ _ _ _ _ _ H); [reflexivity|lia|try lia|]
            | eapply (wp_carry_long _ _ _ _ _ _ _ _ H); [reflexivity|lia|try lia|]
            | eapply (wp_carry1 _ _ _ _ _ _ H) ];
      clear H; intros ? H
  | |- wp _ (read8 _ _) _ _ _ => apply wp_bind
  | |- wp _ _ _ _ _ => parse_step 0
  end; cbn [fst snd app] in *.

(** All steps up to a test or a partial operation. *)
Ltac carry_steps :=
  repeat (lazymatch goal with
          | |- wp _ (of_option _) _ _ _ => fail
          | |- wp _ (if _ then _ else _) _ _ _ => fail
          | |- wp _ (fail_if _ _) _ _ _ => fail
          | |- wp _ (set_at _ _ _) _ _ _ => fail
          | _ => carry_step
          end).

(** All steps up to a read, a test or a partial operation. *)
Ltac parse_calm :=
  repeat (lazymatch goal with
          | |- wp _ (gbm _) _ _ _ => fail
          | |- wp _ (read8 _ _) _ _ _ => fail
          | |- wp _ (readi _ _) _ _ _ => fail
          | |- wp _ (readu _ _) _ _ _ => fail
          | |- wp _ (of_option _) _ _ _ => fail
          | |- wp _ (if _ then _ else _) _ _ _ => fail
          | |- wp _ (fail_if _ _) _ _ _ => fail
          | |- wp _ (set_at _ _ _) _ _ _ => fail
          | _ => parse_step 0
          end).

(** The next read, after which [R] bits are left. *)
Ltac read_left R := parse_calm; parse_step R; [first [assumption | eapply avail_le; [|eassumption]; lia]|].
