(* ===== verification/Vp9.v ===== *)
(** The VP9 header parser of the V4L2 ports
    (src/drivers/amvdec_ports/decoder/aml_vp9_parser.c,
    src/drivers/amvdec_ports/decoder/vdec_vp9_if.c: [parse_stream_cpu]).

    A parsing function works on the reader [s->gb] and on the rest of
    [struct VP9Context]; the debug prints are left out.  A memory object is
    the list of bytes from a pointer to the end of the allocation. *)

From stdpp Require Import base list numbers.
From Stdlib Require Import ZArith Lia Bool.
From S2P Require Import Prelude.
From S2P Require Import CommonUtils.
From S2P Require Import GetBits.
From S2P Require Import Parse.
From S2P Require Import HevcSps.

#[local] Open Scope Z_scope.

(** ** Data *)

(** The members of [struct VP9BitstreamHeader] that the parser touches. *)
Record VP9BitstreamHeader := mk_vp9_h {
  profile : Z;
  bpp : Z;
  keyframe : Z;
  invisible : Z;
  errorres : Z;
  intraonly : Z;
  resetctx : Z;
  refreshrefmask : Z;
  use_last_frame_mvs : Z;
  refidx : list Z;      (** [u8 [3]] *)
  signbias : list Z     (** [u8 [3]] *)
}.

#[export] Instance eta_VP9BitstreamHeader : Settable VP9BitstreamHeader := fun r =>
  mk_vp9_h (profile r) (bpp r) (keyframe r) (invisible r) (errorres r) (intraonly r)
    (resetctx r) (refreshrefmask r) (use_last_frame_mvs r) (refidx r) (signbias r).

(** [struct VP9Context] without the reader; [h] is the member [s.h]. *)
Record VP9Context := mk_vp9 {
  h : VP9BitstreamHeader;
  ss_h : Z;
  ss_v : Z;
  bpp_index : Z;
  bytesperpixel : Z;
  last_keyframe : Z;
  width : Z;
  height : Z;
  render_width : Z;
  render_height : Z;
  pix_fmt : Z
}.

#[export] Instance eta_VP9Context : Settable VP9Context := fun r =>
  mk_vp9 (h r) (ss_h r) (ss_v r) (bpp_index r) (bytesperpixel r) (last_keyframe r)
    (width r) (height r) (render_width r) (render_height r) (pix_fmt r).

(** What [vzalloc] gives. *)
Definition zero_vp9 : VP9Context :=
  mk_vp9 (mk_vp9_h 0 0 0 0 0 0 0 0 0 [0; 0; 0] [0; 0; 0]) 0 0 0 0 0 0 0 0 0 0.

(** [struct vp9_superframe_split] *)
Record vp9_superframe_split := mk_split {
  data : option (list Z);
  data_size : Z;             (** u32 *)
  nb_frames : Z;
  size : Z;
  next_frame : Z;
  next_frame_offset : Z;     (** u32 *)
  prefix_size : Z;
  sizes : list Z             (** [int [8]] *)
}.

#[export] Instance eta_vp9_superframe_split : Settable vp9_superframe_split := fun r =>
  mk_split (data r) (data_size r) (nb_frames r) (size r) (next_frame r) (next_frame_offset r)
    (prefix_size r) (sizes r).

(** [struct vp9_param_sets] *)
Record vp9_param_sets := mk_vp9_ps { head_parsed : bool; ctx : VP9Context }.

#[export] Instance eta_vp9_param_sets : Settable vp9_param_sets := fun r =>
  mk_vp9_ps (head_parsed r) (ctx r).

(** ** Colour configuration *)

Definition VP9_SYNCCODE : Z := 0x498342.

Definition AVCOL_SPC_BT709 : Z := 1.
Definition AVCOL_SPC_UNSPECIFIED : Z := 2.
Definition AVCOL_SPC_RESERVED : Z := 3.
Definition AVCOL_SPC_BT470BG : Z := 5.
Definition AVCOL_SPC_SMPTE170M : Z := 6.
Definition AVCOL_SPC_SMPTE240M : Z := 7.
Definition AVCOL_SPC_BT2020_NCL : Z := 9.
Definition AV_PIX_FMT_YUV440P : Z := 31.
Definition AV_PIX_FMT_YUV440P10 : Z := 152.
Definition AV_PIX_FMT_YUV440P12 : Z := 154.

Definition colorspaces : list Z := [
  AVCOL_SPC_UNSPECIFIED; AVCOL_SPC_BT470BG; AVCOL_SPC_BT709; AVCOL_SPC_SMPTE170M;
  AVCOL_SPC_SMPTE240M; AVCOL_SPC_BT2020_NCL; AVCOL_SPC_RESERVED; AVCOL_SPC_RGB
].

(** [pix_fmt_for_ss[bits][ss_v][ss_h]] *)
Definition pix_fmt_for_ss : list (list (list Z)) := [
  [[AV_PIX_FMT_YUV444P; AV_PIX_FMT_YUV422P]; [AV_PIX_FMT_YUV440P; AV_PIX_FMT_YUV420P]];
  [[AV_PIX_FMT_YUV444P10; AV_PIX_FMT_YUV422P10]; [AV_PIX_FMT_YUV440P10; AV_PIX_FMT_YUV420P10]];
  [[AV_PIX_FMT_YUV444P12; AV_PIX_FMT_YUV422P12]; [AV_PIX_FMT_YUV440P12; AV_PIX_FMT_YUV420P12]]
].

Definition pix_fmt_at (bits v hz : Z) : option Z :=
  m ← aget pix_fmt_for_ss bits; r ← aget m v; aget r hz.

(** [int bits = profile <= 1 ? 0 : 1 + get_bits1(&s->gb);] *)
Definition read_bit_depth (profile : Z) : P VP9Context Z :=
  if profile <=? 1 then mret 0 else b ← gbm get_bits1; mret (s32 (1 + b)).

(** [static int read_colorspace_details(s, profile)] *)
Definition read_colorspace_details (profile : Z) : P VP9Context Z :=
  call (
    bits ← read_bit_depth profile;
    setf bpp_index (u8 bits);;
    sub h (setf bpp (u8 (8 + bits * 2)));;
    d ← look (fun c => bpp (h c));
    setf bytesperpixel (u8 (Z.shiftr (7 + d) 3));;
    i ← gbm (get_bits 3);
    colorspace ← of_option (aget colorspaces i);
    if colorspace =? AVCOL_SPC_RGB then
      if truth (Z.land profile 1) then
        b ← gbm get_bits1; fail_if (truth b) (-1)
      else throw (-1)
    else
      _ ← gbm get_bits1;
      if truth (Z.land profile 1) then
        read8 ss_h get_bits1;;
        read8 ss_v get_bits1;;
        v ← look ss_v;
        hz ← look ss_h;
        f ← of_option (pix_fmt_at bits v hz);
        setf pix_fmt f;;
        fail_if (f =? AV_PIX_FMT_YUV420P) (-1);;
        b ← gbm get_bits1;
        fail_if (truth b) (-1)
      else
        setf ss_v 1;;
        setf ss_h 1;;
        f ← of_option (pix_fmt_at bits 1 1);
        setf pix_fmt f).

(** ** Frame header *)

(** The frame size of a key frame and of an intra-only frame. *)
Definition read_frame_size : P VP9Context unit :=
  w ← gbm (get_bits 16);
  setf width (s32 (w + 1));;
  v ← gbm (get_bits 16);
  setf height (s32 (v + 1));;
  scaling ← gbm get_bits1;
  if truth scaling then
    w ← gbm (get_bits 16);
    setf render_width (s32 (w + 1));;
    v ← gbm (get_bits 16);
    setf render_height (s32 (v + 1))
  else
    w ← look width;
    setf render_width w;;
    v ← look height;
    setf render_height v.

(** [get_bits_long(&s->gb, 24) != VP9_SYNCCODE] *)
Definition check_synccode : P VP9Context unit :=
  v ← gbm (get_bits_long 24);
  fail_if (negb (v =? VP9_SYNCCODE)) (-1).

Definition read_key_frame (profile : Z) : P VP9Context unit :=
  check_synccode;;
  ret ← read_colorspace_details profile;
  fail_if (ret <? 0) ret;;
  sub h (setf refreshrefmask 0xff);;
  read_frame_size.

Definition read_intra_only (profile : Z) : P VP9Context unit :=
  check_synccode;;
  (if profile >=? 1 then
     ret ← read_colorspace_details profile;
     fail_if (ret <? 0) ret
   else
     setf ss_v 1;;
     setf ss_h 1;;
     sub h (setf bpp 8);;
     setf bpp_index 0;;
     setf bytesperpixel 1;;
     setf pix_fmt AV_PIX_FMT_YUV420P);;
  sub h (read8 refreshrefmask (get_bits 8));;
  read_frame_size.

(** The [i]-th reference of an inter frame:
    [refidx[i] = get_bits(3); signbias[i] = get_bits1() && !errorres;] *)
Definition read_ref (i : Z) : P VP9BitstreamHeader unit :=
  r ← gbm (get_bits 3);
  set_at refidx i (u8 r);;
  b ← gbm get_bits1;
  e ← look errorres;
  set_at signbias i (b2z (truth b && negb (truth e))).

Definition read_inter : P VP9Context unit :=
  sub h (read8 refreshrefmask (get_bits 8);; read_ref 0;; read_ref 1;; read_ref 2);;
  throw (-1).

(** The frame marker and the profile. *)
Definition read_profile : P VP9Context Z :=
  m ← gbm (get_bits 2);
  fail_if (negb (m =? 2)) (-1);;
  p ← gbm get_bits1;
  q ← gbm get_bits1;
  let profile := s32 (Z.lor p (Z.shiftl q 1)) in
  profile ← (if profile =? 3 then b ← gbm get_bits1; mret (s32 (profile + b)) else mret profile);
  fail_if (profile >? 3) (-1);;
  mret profile.

(** The header after [show_existing_frame]. *)
Definition read_shown_frame (profile : Z) : P VP9Context unit :=
  k ← look (fun c => keyframe (h c));
  setf last_keyframe k;;
  b ← gbm get_bits1;
  sub h (setf keyframe (b2z (negb (truth b))));;
  last_invisible ← look (fun c => invisible (h c));
  b ← gbm get_bits1;
  sub h (setf invisible (b2z (negb (truth b))));;
  sub h (read8 errorres get_bits1);;
  e ← look (fun c => errorres (h c));
  sub h (setf use_last_frame_mvs (b2z (negb (truth e) && negb (truth last_invisible))));;
  k ← look (fun c => keyframe (h c));
  if truth k then read_key_frame profile
  else
    inv ← look (fun c => invisible (h c));
    io ← (if truth inv then gbm get_bits1 else mret 0);
    sub h (setf intraonly (u8 io));;
    e ← look (fun c => errorres (h c));
    rc ← (if truth e then mret 0 else gbm (get_bits 2));
    sub h (setf resetctx (u8 rc));;
    io ← look (fun c => intraonly (h c));
    if truth io then read_intra_only profile else read_inter.

(** What follows [init_get_bits8]; the value is the one stored to [*ref]. *)
Definition uncompressed_header : P VP9Context (option Z) :=
  profile ← read_profile;
  sub h (setf Vp9.profile (u8 profile));;
  b ← gbm get_bits1;
  if truth b then r ← gbm (get_bits 3); mret (Some (s32 r))
  else read_shown_frame profile;; mret None.

(** [int decode_frame_header(data, size, s, ref)]: the return value and what
    is stored to [*ref], if anything. *)
Definition decode_frame_header (buf : list Z) (size : Z) : M VP9Context (Z * option Z) := fun c =>
  let '(ret, gb) := init_get_bits8 (Some buf) size in
  if ret <? 0 then Ok (ret, None) c
  else
    match uncompressed_header (gb, c) with
    | Ok r s => Ok (0, r) s.2
    | Err e s => Ok (e, None) s.2
    | Undef => Undef
    end.

(** ** Superframes *)

(** ['V' << 24 | 'L' << 16 | 'M' << 8 | 'A'] *)
Definition AML_PREFIX : Z := 0x564C4D41.

Definition EINVAL : Z := 22.

(** The bytes of a frame size, least significant first; [idx] is the index of
    the next byte. *)
Fixpoint read_size (d : list Z) (n : nat) (j idx frame_size : Z) : option Z :=
  match n with
  | O => Some frame_size
  | S n' =>
      b ← byte_at d idx;
      read_size d n' (j + 1) (idx + 1) (Z.lor frame_size (s32 (Z.shiftl b (j * 8))))
  end.

(** The loop over the sizes; the state is the structure, the accumulator
    [total_size]. *)
Definition read_sizes (d : list Z) (length_size nb idx_size idx : Z) : M vp9_superframe_split Z :=
  fold_range 0 nb (fun i total =>
    frame_size ← of_option (read_size d (Z.to_nat length_size) 0 (idx + i * length_size) 0);
    s ← get;
    let total := total + frame_size in
    fail_if ((frame_size <? 0) || (total >? u32 (data_size s - idx_size))) (- EINVAL);;
    l ← of_option (aset (sizes s) i frame_size);
    modify (fun s => s <| sizes := l |>);;
    mret total) 0.

(** The frames of the index that ends in [marker], if there is one. *)
Definition split_index (d : list Z) (marker : Z) : M vp9_superframe_split unit :=
  let length_size := 1 + Z.land (Z.shiftr marker 3) 3 in
  let nb := 1 + Z.land marker 7 in
  let idx_size := 2 + nb * length_size in
  s ← get;
  found ← (if idx_size <=? data_size s then
             b ← of_option (byte_at d (u32 (data_size s - idx_size))); mret (b =? marker)
           else mret false);
  when found (
    total ← read_sizes d length_size nb idx_size (s32 (u32 (data_size s + 1 - idx_size)));
    modify (fun s => s <| nb_frames := nb |> <| size := s32 total |>
      <| next_frame := 0 |> <| next_frame_offset := 0 |>)).

(** One frame, the whole of the data. *)
Definition split_single : M vp9_superframe_split unit :=
  modify (fun s => s <| nb_frames := 1 |>);;
  s ← get;
  l ← of_option (aset (sizes s) 0 (s32 (data_size s)));
  modify (fun s => s <| sizes := l |> <| size := s32 (data_size s) |>).

(** [int vp9_superframe_split_filter(s)] *)
Definition vp9_superframe_split_filter : M vp9_superframe_split Z := call (
  s ← get;
  match data s with
  | None => throw (-1)
  | Some d =>
      p ← of_option (AV_RL32 d 12);
      when (s32 p =? AML_PREFIX) (modify (fun s => s <| prefix_size := 16 |>));;
      marker ← of_option (byte_at d (u32 (data_size s - 1)));
      if Z.land marker 0xe0 =? 0xc0 then split_index d marker else split_single
  end).

(** ** Extradata *)

Definition zero_split : vp9_superframe_split := mk_split None 0 0 0 0 0 0 (replicate 8 0).

(** The loop of [vp9_decode_extradata_ps] from frame [i] on, [n] frames left. *)
Fixpoint frames_loop (d : list Z) (s : vp9_superframe_split) (n : nat) (i ref ret : Z)
    : M vp9_param_sets Z :=
  match n with
  | O => mret ret
  | S n' =>
      sz ← of_option (aget (sizes s) i);
      let len := u32 (sz - prefix_size s) in
      let buf := drop (Z.to_nat (next_frame_offset s + prefix_size s)) d in
      r ← zoom ctx (fun c ps => ps <| ctx := c |>) (decode_frame_header buf (s32 len));
      let ref := default ref r.2 in
      if r.1 =? 0 then
        modify (fun ps => ps <| head_parsed := ref <? 0 |>);; mret 0
      else
        frames_loop d (s <| next_frame_offset := u32 (len + prefix_size s) |>) n' (i + 1) ref r.1
  end.

(** [int vp9_decode_extradata_ps(data, size, ps)] *)
Definition vp9_decode_extradata_ps (d : list Z) (sz : Z) : M vp9_param_sets Z :=
  match vp9_superframe_split_filter (zero_split <| data := Some d |> <| data_size := u32 sz |>) with
  | Ok ret s =>
      if truth ret then mret ret
      else frames_loop d s (Z.to_nat (nb_frames s)) 0 (-1) 0
  | _ => undef
  end.

Definition ENOMEM : Z := 12.

(** [static int parse_stream_cpu(inst, buf, size)]; the call of
    [fill_vdec_params] is commented out, so that the statement [if
    (ps->head_parsed)] governs is the assignment after it. *)
Definition parse_stream_cpu (alloc_ok : bool) (buf : list Z) (sz : Z) : option Z :=
  if negb alloc_ok then Some (- ENOMEM)
  else
    match vp9_decode_extradata_ps buf (s32 sz) (mk_vp9_ps false zero_vp9) with
    | Ok ret ps =>
        if truth ret then Some ret
        else Some (if head_parsed ps then (if head_parsed ps then 0 else -1) else ret)
    | _ => None
    end.
