(* ===== verification/Vp9Ok.v ===== *)
(** Correctness of the VP9 header parser (Vp9.v): what it reads from a frame
    header written by the bitstream syntax, the range of everything it
    accepts, and that it stays inside its buffer. *)

From stdpp Require Import base list numbers.
From Stdlib Require Import ZArith Lia Bool.
From S2P Require Import Prelude.
From S2P Require Import Bits.
From S2P Require Import CommonUtils.
From S2P Require Import GetBits.
From S2P Require Import Parse.
From S2P Require Import ParseBits.
From S2P Require Import HevcSps.
From S2P Require Import Vp9.

#[local] Open Scope Z_scope.

(** ** Frame headers as the bitstream syntax has them (VP9, 6.2) *)

Record color_config := mk_cc {
  cc_depth : Z;          (** 0, 1, 2 for 8, 10, 12 bits *)
  cc_space : Z;
  cc_range : bool;
  cc_ss_h : bool;
  cc_ss_v : bool
}.

Record frame_size := mk_fs { fs_w : Z; fs_h : Z; fs_render : option (Z * Z) }.

Inductive frame :=
| ShowExisting (idx : Z)
| KeyFrame (shown errorres : bool) (cc : color_config) (sz : frame_size)
| IntraOnly (errorres : bool) (reset : Z) (cc : color_config) (refresh : Z) (sz : frame_size)
| InterFrame (shown errorres : bool) (reset refresh : Z) (r0 r1 r2 : Z * bool).

Definition color_bits (p : Z) (cc : color_config) : list bool :=
  (if p <=? 1 then [] else [cc_depth cc =? 2]) ++ bits 3 (cc_space cc) ++
  if cc_space cc =? 7 then (if Z.odd p then [false] else [])
  else cc_range cc :: if Z.odd p then [cc_ss_h cc; cc_ss_v cc; false] else [].

Definition size_bits (sz : frame_size) : list bool :=
  bits 16 (fs_w sz - 1) ++ bits 16 (fs_h sz - 1) ++
  match fs_render sz with
  | None => [false]
  | Some (rw, rh) => true :: bits 16 (rw - 1) ++ bits 16 (rh - 1)
  end.

Definition ref_bits (r : Z * bool) : list bool := bits 3 r.1 ++ [r.2].

Definition sync_bits : list bool := bits 24 VP9_SYNCCODE.

Definition frame_bits (p : Z) (f : frame) : list bool :=
  bits 2 2 ++ [Z.testbit p 0; Z.testbit p 1] ++ (if p =? 3 then [false] else []) ++
  match f with
  | ShowExisting idx => true :: bits 3 idx
  | KeyFrame shown er cc sz =>
      [false; false; shown; er] ++ sync_bits ++ color_bits p cc ++ size_bits sz
  | IntraOnly er reset cc refresh sz =>
      [false; true; false; er; true] ++ (if er then [] else bits 2 reset) ++ sync_bits ++
      (if p =? 0 then [] else color_bits p cc) ++ bits 8 refresh ++ size_bits sz
  | InterFrame shown er reset refresh r0 r1 r2 =>
      [false; true; shown; er] ++ (if shown then [] else [false]) ++
      (if er then [] else bits 2 reset) ++ bits 8 refresh ++ ref_bits r0 ++ ref_bits r1 ++ ref_bits r2
  end.

(** The syntax elements in their ranges.  Elements the syntax does not carry
    have the values the specification infers. *)
Definition color_ok (p : Z) (cc : color_config) : Prop :=
  (if p <=? 1 then cc_depth cc = 0 else 1 ≤ cc_depth cc ≤ 2) ∧ 0 ≤ cc_space cc < 8 ∧
  (if Z.odd p then cc_space cc ≠ 7 → ¬ (cc_depth cc = 0 ∧ cc_ss_h cc = true ∧ cc_ss_v cc = true)
   else cc_space cc ≠ 7 ∧ cc_ss_h cc = true ∧ cc_ss_v cc = true).

Definition size_ok (sz : frame_size) : Prop :=
  1 ≤ fs_w sz ≤ 65536 ∧ 1 ≤ fs_h sz ≤ 65536 ∧
  match fs_render sz with None => True | Some (rw, rh) => 1 ≤ rw ≤ 65536 ∧ 1 ≤ rh ≤ 65536 end.

Definition frame_ok (p : Z) (f : frame) : Prop :=
  0 ≤ p ≤ 3 ∧
  match f with
  | ShowExisting idx => 0 ≤ idx < 8
  | KeyFrame _ _ cc sz => color_ok p cc ∧ size_ok sz
  | IntraOnly er reset cc refresh sz =>
      0 ≤ reset < 4 ∧ (er = true → reset = 0) ∧ 0 ≤ refresh < 256 ∧ size_ok sz ∧
      color_ok p cc
  | InterFrame _ er reset refresh r0 r1 r2 =>
      0 ≤ reset < 4 ∧ (er = true → reset = 0) ∧ 0 ≤ refresh < 256 ∧
      0 ≤ r0.1 < 8 ∧ 0 ≤ r1.1 < 8 ∧ 0 ≤ r2.1 < 8
  end.

(** ** What the decoder makes of them *)

Definition with_color (cc : color_config) (c : VP9Context) : VP9Context :=
  let c := c <| bpp_index := cc_depth cc |> <| bytesperpixel := if cc_depth cc =? 0 then 1 else 2 |>
             <| h := (h c) <| bpp := 8 + 2 * cc_depth cc |> |> in
  if cc_space cc =? 7 then c
  else c <| ss_h := b2z (cc_ss_h cc) |> <| ss_v := b2z (cc_ss_v cc) |>
         <| pix_fmt := default 0 (pix_fmt_at (cc_depth cc) (b2z (cc_ss_v cc)) (b2z (cc_ss_h cc))) |>.

Definition with_size (sz : frame_size) (c : VP9Context) : VP9Context :=
  let '(rw, rh) := default (fs_w sz, fs_h sz) (fs_render sz) in
  c <| width := fs_w sz |> <| height := fs_h sz |> <| render_width := rw |> <| render_height := rh |>.

(** The members every shown frame sets. *)
Definition with_flags (p : Z) (key shown er : bool) (c : VP9Context) : VP9Context :=
  c <| last_keyframe := keyframe (h c) |>
    <| h := (h c) <| profile := p |> <| keyframe := b2z key |> <| invisible := b2z (negb shown) |>
          <| errorres := b2z er |>
          <| use_last_frame_mvs := b2z (negb er && negb (truth (invisible (h c)))) |> |>.

Definition with_intra (io reset refresh : Z) (c : VP9Context) : VP9Context :=
  c <| h := (h c) <| intraonly := io |> <| resetctx := reset |> <| refreshrefmask := refresh |> |>.

Definition ref_sign (er : bool) (r : Z * bool) : Z := b2z (r.2 && negb er).

(** The return value, what is stored to [*ref], and the context. *)
Definition frame_result (p : Z) (f : frame) (c : VP9Context) : (Z * option Z) * VP9Context :=
  match f with
  | ShowExisting idx => (0, Some idx, c <| h := (h c) <| profile := p |> |>)
  | KeyFrame shown er cc sz =>
      let c := with_flags p true shown er c in
      (0, None, with_size sz (with_color cc (c <| h := (h c) <| refreshrefmask := 255 |> |>)))
  | IntraOnly er reset cc refresh sz =>
      (0, None, with_size sz (with_color cc (with_intra 1 reset refresh (with_flags p false false er c))))
  | InterFrame shown er reset refresh r0 r1 r2 =>
      let c := with_intra 0 reset refresh (with_flags p false shown er c) in
      (-1, None, c <| h := (h c) <| refidx := [r0.1; r1.1; r2.1] |>
                             <| signbias := [ref_sign er r0; ref_sign er r1; ref_sign er r2] |> |>)
  end.

(** ** The parser on such a header *)

Section Spec.
Implicit Types (c : VP9Context) (l : list bool).

Lemma b2z_truth (b : bool) : truth (Z.b2z b) = b.
Proof. by destruct b. Qed.

Lemma u8_b2z (b : bool) : u8 (Z.b2z b) = Z.b2z b.
Proof. by destruct b. Qed.

Lemma wp_ok_eq {S A} (m : M S A) s s' (Q : A → S → Prop) E a :
  m s = Ok a s' → Q a s' → wp False m Q E s.
Proof. unfold wp. by intros ->. Qed.

Lemma read_bit_depth_carried p d l g c (Q : Z → get_bits_context * VP9Context → Prop) E :
  (if p <=? 1 then d = 0 else 1 ≤ d ≤ 2) →
  carries g ((if p <=? 1 then [] else [d =? 2]) ++ l) →
  (∀ g', carries g' l → Q d (g', c)) → wp False (read_bit_depth p) Q E (g, c).
Proof.
  intros Hd Hc HQ. unfold read_bit_depth. destruct (p <=? 1).
  - subst d. apply HQ, Hc.
  - carry_step. carry_step. carry_step.
    assert (s32 (1 + Z.b2z (d =? 2)) = d) as ->; [|by apply HQ].
    assert (d = 1 ∨ d = 2) as [-> | ->] by lia; done.
Qed.

Lemma colorspaces_at i : 0 ≤ i < 8 →
  ∃ v, aget colorspaces i = Some v ∧ (v =? AVCOL_SPC_RGB) = (i =? 7).
Proof.
  intros Hi. assert (i = 0 ∨ i = 1 ∨ i = 2 ∨ i = 3 ∨ i = 4 ∨ i = 5 ∨ i = 6 ∨ i = 7) as Hs by lia.
  repeat destruct Hs as [->|Hs]; [..|subst i]; eexists; split; reflexivity.
Qed.

Lemma pix_fmt_at_ok d (v hz : bool) : 0 ≤ d ≤ 2 →
  ∃ f, pix_fmt_at d (Z.b2z v) (Z.b2z hz) = Some f ∧
    (f =? AV_PIX_FMT_YUV420P) = (d =? 0) && v && hz.
Proof.
  intros Hd. assert (d = 0 ∨ d = 1 ∨ d = 2) as [-> |[-> | ->]] by lia;
    destruct v, hz; eexists; split; reflexivity.
Qed.

Lemma truth_land_1 p : truth (Z.land p 1) = Z.odd p.
Proof. change 1 with (Z.ones 1). rewrite Z.land_ones by lia. change (2 ^ 1) with 2. rewrite Zmod_odd. by destruct (Z.odd p). Qed.

(** The members the colour configuration sets, as the parser sets them. *)
Lemma color_depth_record d c : 0 ≤ d ≤ 2 →
  c <| bpp_index := u8 d |> <| h := (h c) <| bpp := u8 (8 + d * 2) |> |>
    <| bytesperpixel := u8 (Z.shiftr (7 + u8 (8 + d * 2)) 3) |> =
  c <| bpp_index := d |> <| bytesperpixel := if d =? 0 then 1 else 2 |> <| h := (h c) <| bpp := 8 + 2 * d |> |>.
Proof. intros Hd. assert (d = 0 ∨ d = 1 ∨ d = 2) as [-> |[-> | ->]] by lia; reflexivity. Qed.

Lemma color_record d sp rg (sv sh : bool) f c : 0 ≤ d ≤ 2 → sp ≠ 7 → pix_fmt_at d (Z.b2z sv) (Z.b2z sh) = Some f →
  c <| bpp_index := u8 d |> <| h := (h c) <| bpp := u8 (8 + d * 2) |> |>
    <| bytesperpixel := u8 (Z.shiftr (7 + u8 (8 + d * 2)) 3) |>
    <| ss_h := Z.b2z sh |> <| ss_v := Z.b2z sv |> <| pix_fmt := f |> = with_color (mk_cc d sp rg sh sv) c.
Proof.
  intros Hd Hsp Hf. rewrite color_depth_record by done. unfold with_color. cbn [cc_depth cc_space cc_ss_h cc_ss_v].
  rewrite (proj2 (Z.eqb_neq sp 7) Hsp). destruct sv, sh; cbn [b2z Z.b2z] in *; by rewrite Hf.
Qed.

Lemma read_color_carried p cc l g c :
  0 ≤ p ≤ 3 → color_ok p cc → carries g (color_bits p cc ++ l) →
  wp False (read_colorspace_details p) (fun r s => r = 0 ∧ s.2 = with_color cc c ∧ carries s.1 l)
    (fun _ _ => False) (g, c).
Proof.
  intros Hp (Hd & Hs & Ho) Hc. destruct cc as [d sp rg sh sv]. unfold color_bits in Hc. cbn [cc_depth cc_space cc_range cc_ss_h cc_ss_v] in *.
  unfold read_colorspace_details. rewrite <- !app_assoc in Hc. wp_step. wp_step.
  eapply read_bit_depth_carried; [done|done|]. clear g Hc. intros g Hc.
  assert (0 ≤ d ≤ 2) as Hd2 by (destruct (p <=? 1); lia). rewrite truth_land_1.
  carry_steps. destruct (colorspaces_at sp Hs) as (v & -> & Hv). apply wp_ret. rewrite Hv.
  destruct (Z.eqb_spec sp 7) as [->|Hn].
  - destruct (Z.odd p); [|by destruct Ho]. carry_steps. wp_step; [done|].
    split; [done|]. split; [|done]. apply (color_depth_record d c Hd2).
  - carry_steps. destruct (pix_fmt_at_ok d sv sh Hd2) as (f & Hf & Hf420).
    destruct (Z.odd p).
    + carry_steps. change (pix_fmt_at _ _ _) with (pix_fmt_at d (u8 (Z.b2z sv)) (u8 (Z.b2z sh))).
      rewrite !u8_b2z, Hf. apply wp_ret. carry_steps. wp_step.
      { exfalso. destruct (Z.eqb_spec d 0); subst; destruct sv, sh; cbn in *; try congruence. by apply Ho. }
      carry_steps. wp_step; [done|]. split; [done|]. split; [|done]. by apply (color_record d sp rg sv sh f c).
    + destruct Ho as (_ & -> & ->). carry_steps. change (pix_fmt_at _ 1 1) with (pix_fmt_at d (Z.b2z true) (Z.b2z true)). rewrite Hf. apply wp_ret. carry_steps.
      split; [done|]. split; [|done]. by apply (color_record d sp rg true true f c).
Qed.
Lemma read_size_carried sz l g c : size_ok sz → carries g (size_bits sz ++ l) →
  wp False read_frame_size (fun _ s => s.2 = with_size sz c ∧ carries s.1 l) (fun _ _ => False) (g, c).
Proof.
  intros (Hw & Hh & Hr) Hc. destruct sz as [w v r]. unfold size_bits in Hc. cbn [fs_w fs_h fs_render] in *.
  rewrite <- !app_assoc in Hc. unfold read_frame_size, with_size. cbn [fs_w fs_h fs_render]. carry_steps.
  destruct r as [[rw rh]|]; cbn [app] in Hc; rewrite <- ?app_assoc in Hc.
  - carry_steps. wp_step; [|done]. carry_steps. rewrite !Z.sub_add, !s32_id by lia. done.
  - carry_steps. wp_step; [done|]. carry_steps. rewrite !Z.sub_add, !s32_id by lia. done.
Qed.

Lemma check_sync_carried l g c : carries g (sync_bits ++ l) →
  wp False check_synccode (fun _ s => s.2 = c ∧ carries s.1 l) (fun _ _ => False) (g, c).
Proof. intros Hc. unfold check_synccode, sync_bits, VP9_SYNCCODE in *. carry_steps. by wp_step. Qed.
Lemma read_profile_carried p l g c : 0 ≤ p ≤ 3 →
  carries g (bits 2 2 ++ [Z.testbit p 0; Z.testbit p 1] ++ (if p =? 3 then [false] else []) ++ l) →
  wp False read_profile (fun q s => q = p ∧ s.2 = c ∧ carries s.1 l) (fun _ _ => False) (g, c).
Proof.
  intros Hp Hc. assert (p = 0 ∨ p = 1 ∨ p = 2 ∨ p = 3) as [-> |[-> |[-> | ->]]] by lia;
    cbn [Z.testbit Pos.testbit Z.eqb Pos.eqb] in Hc; unfold read_profile;
    carry_steps; (wp_step; [done|]); carry_steps; wp_step; try discriminate; carry_steps; (wp_step; [done|]);
    by carry_steps.
Qed.

Lemma wp_post {S A} (m : M S A) (R Q : A → S → Prop) E s :
  wp False m R (fun _ _ => False) s → (∀ a s, R a s → Q a s) → wp False m Q E s.
Proof. intros Hm HQ. eapply wp_mono; [exact Hm|exact HQ|done]. Qed.

Lemma read_ref_carried i r l g hd : 0 ≤ i < 3 → 0 ≤ r.1 < 8 → zlen (refidx hd) = 3 → zlen (signbias hd) = 3 →
  carries g (ref_bits r ++ l) →
  wp False (read_ref i) (fun _ s => carries s.1 l ∧
      s.2 = hd <| refidx := <[Z.to_nat i := r.1]> (refidx hd) |>
               <| signbias := <[Z.to_nat i := ref_sign (truth (errorres hd)) r]> (signbias hd) |>)
    (fun _ _ => False) (g, hd).
Proof.
  intros Hi Hr Hz1 Hz2 Hc. unfold ref_bits in Hc. rewrite <- app_assoc in Hc. unfold read_ref. carry_steps.
  apply wp_set_at; [right; cbn [snd]; lia|intros _]. carry_steps. apply wp_set_at; [right; cbn; lia|intros _].
  split; [done|]. cbn [snd]. rewrite u8_id by lia. unfold ref_sign. by rewrite b2z_truth.
Qed.

Lemma insert_three (k : list Z) (a b c : Z) : zlen k = 3 → <[2%nat := c]> (<[1%nat := b]> (<[0%nat := a]> k)) = [a; b; c].
Proof. unfold zlen. destruct k as [|? [|? [|? [|]]]]; cbn; intros; try lia. done. Qed.

Lemma read_inter_carried er refresh r0 r1 r2 l g c :
  0 ≤ refresh < 256 → 0 ≤ r0.1 < 8 → 0 ≤ r1.1 < 8 → 0 ≤ r2.1 < 8 →
  zlen (refidx (h c)) = 3 → zlen (signbias (h c)) = 3 → errorres (h c) = b2z er →
  carries g (bits 8 refresh ++ ref_bits r0 ++ ref_bits r1 ++ ref_bits r2 ++ l) →
  wp False read_inter (fun _ _ => False)
    (fun e s => e = -1 ∧ s.2 = c <| h := (h c) <| refreshrefmask := refresh |> <| refidx := [r0.1; r1.1; r2.1] |>
                             <| signbias := [ref_sign er r0; ref_sign er r1; ref_sign er r2] |> |>) (g, c).
Proof.
  intros Hrf H0 H1 H2 Hz1 Hz2 Her Hc.
  unfold read_inter. do 7 carry_step. rewrite u8_id by lia.
  eapply wp_post.
  { apply (read_ref_carried 0 r0 (ref_bits r1 ++ ref_bits r2 ++ l)); [lia|done..]. }
  intros _ [g1 hd1] [Hc1 E1]; cbn [fst snd] in E1; subst hd1. cbn [fst snd] in *.
  do 1 carry_step. eapply wp_post.
  { apply (read_ref_carried 1 r1 (ref_bits r2 ++ l)); [lia|done| | |done]; (etrans; [apply (zlen_insert (A := Z))|done]). }
  intros _ [g2 hd2] [Hc2 E2]; cbn [fst snd] in E2; subst hd2. cbn [fst snd] in *. eapply wp_post.
  { apply (read_ref_carried 2 r2 l); [lia|done| | |done]; (etrans; [apply (zlen_insert (A := Z))|etrans; [apply (zlen_insert (A := Z))|done]]). }
  intros _ [g3 hd3] [Hc3 E3]; cbn [fst snd] in E3; subst hd3. apply wp_throw. split; [done|]. cbn [fst snd].
  rewrite <- (insert_three (refidx (h c)) r0.1 r1.1 r2.1 Hz1), <- (insert_three (signbias (h c)) (ref_sign er r0) (ref_sign er r1) (ref_sign er r2) Hz2).
  assert (truth (errorres (h c)) = er) as He by (rewrite Her; by destruct er). rewrite <- He. reflexivity.
Qed.

(** [resetctx = errorres ? 0 : get_bits(2)] *)
Lemma reset_carried er reset l g c (x : Z) (Q : Z → get_bits_context * VP9Context → Prop) E :
  x = b2z er → 0 ≤ reset < 4 → (er = true → reset = 0) → carries g ((if er then [] else bits 2 reset) ++ l) →
  (∀ g', carries g' l → Q reset (g', c)) →
  wp False (if truth x then mret 0 else gbm (get_bits 2)) Q E (g, c).
Proof.
  intros -> Hr He Hc HQ. destruct er; cbn [b2z app] in *.
  - wp_step; [|done]. wp_step. rewrite <- He by done. by apply HQ.
  - wp_step; [done|]. carry_step. by apply HQ.
Qed.

(** The state after the flags is the one [with_flags] describes. *)
Ltac to_flags c' :=
  lazymatch goal with
  | |- wp _ _ _ _ (_, ?c) => replace c with c' by (repeat match goal with b : bool |- _ => destruct b end; reflexivity)
  end.

Lemma with_color_refresh cc c m :
  (with_color cc c) <| h := (h (with_color cc c)) <| refreshrefmask := m |> |> =
  with_color cc (c <| h := (h c) <| refreshrefmask := m |> |>).
Proof. unfold with_color. by destruct (cc_space cc =? 7). Qed.

Lemma read_key_carried p cc sz l g c : 0 ≤ p ≤ 3 → color_ok p cc → size_ok sz →
  carries g (sync_bits ++ color_bits p cc ++ size_bits sz ++ l) →
  wp False (read_key_frame p) (fun _ s => s.2 = with_size sz (with_color cc (c <| h := (h c) <| refreshrefmask := 255 |> |>)))
    (fun _ _ => False) (g, c).
Proof.
  intros Hp Hcc Hsz Hc. unfold read_key_frame. wp_step.
  eapply wp_post; [by apply check_sync_carried|]. intros _ [g1 c1] [E Hc1]; cbn [fst snd] in *; subst c1. wp_step.
  eapply wp_post; [by apply (read_color_carried p cc)|]. intros ? [g2 c2] (-> & E & Hc2); cbn [fst snd] in *; subst c2.
  carry_step. wp_step; [done|]. carry_steps. rewrite with_color_refresh.
  eapply wp_post; [by apply (read_size_carried sz l)|]. by intros _ s [? _].
Qed.

Lemma read_intra_carried p cc refresh sz l g c : 0 ≤ p ≤ 3 → color_ok p cc → size_ok sz → 0 ≤ refresh < 256 →
  carries g (sync_bits ++ (if p =? 0 then [] else color_bits p cc) ++ bits 8 refresh ++ size_bits sz ++ l) →
  wp False (read_intra_only p) (fun _ s => s.2 = with_size sz (with_color cc (c <| h := (h c) <| refreshrefmask := refresh |> |>)))
    (fun _ _ => False) (g, c).
Proof.
  intros Hp Hcc Hsz Hr Hc. unfold read_intra_only. wp_step.
  eapply wp_post; [by apply check_sync_carried|]. intros _ [g1 c1] [E Hc1]; cbn [fst snd] in *; subst c1. wp_step.
  eapply (wp_post _ (fun _ s => s.2 = with_color cc c ∧ carries s.1 (bits 8 refresh ++ size_bits sz ++ l))).
  - wp_step.
    + wp_step. assert (p ≠ 0) as Hp0 by (bprop; lia). rewrite (proj2 (Z.eqb_neq p 0) Hp0) in Hc1.
      eapply wp_post; [by apply (read_color_carried p cc)|]. intros ? s (-> & E & Hc2). by wp_step.
    + assert (p = 0) as -> by (bprop; lia). cbn [Z.eqb app] in Hc1. carry_steps. split; [|done].
      destruct Hcc as (Hd & _ & Hn & Hh & Hv). cbn in Hd. unfold with_color. rewrite Hd, Hh, Hv.
      by rewrite (proj2 (Z.eqb_neq _ _) Hn).
  - intros _ [g2 c2] [E Hc2]; cbn [fst snd] in *; subst c2. carry_steps. rewrite u8_id by lia.
    rewrite with_color_refresh. eapply wp_post; [by apply (read_size_carried sz l)|]. by intros _ s [? _].
Qed.

Lemma uncompressed_header_carried p f l g c :
  frame_ok p f → zlen (refidx (h c)) = 3 → zlen (signbias (h c)) = 3 → carries g (frame_bits p f ++ l) →
  wp False uncompressed_header (fun r s => frame_result p f c = (0, r, s.2))
    (fun e s => frame_result p f c = (e, None, s.2)) (g, c).
Proof.
  intros [Hp Hf] Hz1 Hz2 Hc. unfold frame_bits in Hc. rewrite <- !app_assoc in Hc. unfold uncompressed_header. wp_step.
  eapply wp_post; [by apply (read_profile_carried p _ g c Hp Hc)|]. intros ? [g1 c'] (-> & E & Hc1); cbn [fst snd] in E; subst c'. cbn [fst snd] in *.
  carry_step. carry_step. carry_step. rewrite u8_id by lia.
  destruct f as [idx|shown er cc sz|er reset cc refresh sz|shown er reset refresh r0 r1 r2]; cbn [app] in Hc1; rewrite <- ?app_assoc in Hc1.
  - carry_steps. wp_step; [|done]. carry_steps. rewrite s32_id by lia. done.
  - carry_steps. wp_step; [done|]. destruct Hf as [Hcc Hsz]. unfold read_shown_frame. carry_steps.
    wp_step; [|done]. to_flags (with_flags p true shown er c).
    eapply wp_post; [by apply (read_key_carried p cc sz l)|]. intros ? s Es. wp_step. cbn beta in Es. by rewrite Es.
  - carry_steps. wp_step; [done|]. destruct Hf as (Hrs & Hre & Hrf & Hsz & Hcc). unfold read_shown_frame. carry_steps.
    wp_step; [done|]. to_flags (with_flags p false false er c). carry_steps. wp_step; [|done]. carry_steps.
    apply (reset_carried er reset (sync_bits ++ (if p =? 0 then [] else color_bits p cc) ++ bits 8 refresh ++ size_bits sz ++ l));
      [by destruct er|done..|]. intros g2 Hc2. carry_steps. wp_step; [|done].
    eapply wp_post; [by apply (read_intra_carried p cc refresh sz l)|]. intros ? s Es. wp_step. cbn beta in Es. rewrite Es.
    by rewrite u8_id by lia.
  - carry_steps. wp_step; [done|]. destruct Hf as (Hrs & Hre & Hrf & H0 & H1 & H2). unfold read_shown_frame. carry_steps.
    wp_step; [done|]. to_flags (with_flags p false shown er c). carry_steps.
    assert (∀ Q E g' c', carries g' ((if shown then [] else [false]) ++ (if er then [] else bits 2 reset) ++ bits 8 refresh ++ ref_bits r0 ++ ref_bits r1 ++ ref_bits r2 ++ l) →
      (∀ g2, carries g2 ((if er then [] else bits 2 reset) ++ bits 8 refresh ++ ref_bits r0 ++ ref_bits r1 ++ ref_bits r2 ++ l) → Q 0 (g2, c')) →
      wp False (if truth (invisible (h (with_flags p false shown er c))) then gbm get_bits1 else mret 0) Q E (g', c' : VP9Context)) as Hio.
    { intros Q E g2 c' Hg HQ. destruct shown; cbn [app] in Hg.
      - wp_step; [done|]. wp_step. by apply HQ.
      - wp_step; [|done]. carry_step. by apply HQ. }
    eapply Hio; [done|]. clear Hio Hc1. intros g2 Hc2. carry_steps.
    apply (reset_carried er reset (bits 8 refresh ++ ref_bits r0 ++ ref_bits r1 ++ ref_bits r2 ++ l)); [by destruct er|done..|].
    intros g3 Hc3. carry_steps. wp_step; [done|].
    eapply wp_mono; [by apply (read_inter_carried er refresh r0 r1 r2 l)|done|].
    intros e s [-> Es]. rewrite Es. by rewrite u8_id by lia.
Qed.
End Spec.

Lemma decode_frame_header_run p f buf size c r c' :
  frame_ok p f → zlen (refidx (h c)) = 3 → zlen (signbias (h c)) = 3 →
  frame_bits p f `prefix_of` bytes_bits buf →
  zlen (frame_bits p f) + 32 ≤ 8 * zlen buf → 8 * zlen buf < 2 ^ 31 → 0 ≤ size < 2 ^ 27 →
  frame_result p f c = (r, c') → decode_frame_header buf size c = Ok r c'.
Proof.
  intros Hf Hz1 Hz2 Hp Hl Hb Hs Hr. unfold decode_frame_header. rewrite init_get_bits8_ok by done.
  cbn [Z.ltb Z.compare].
  pose proof (uncompressed_header_carried p f [] (mk_gb buf size 0 (size * 8) (size * 8 + 8)) c Hf Hz1 Hz2) as Hw.
  rewrite app_nil_r in Hw. specialize (Hw (carries_start buf size _ Hp Hl Hb)). unfold wp in Hw.
  destruct (uncompressed_header _) as [o s|e s|]; [rewrite Hr in Hw; by injection Hw as -> ->..|done].
Qed.

(** C26: [decode_frame_header] reads back every frame header the VP9 bitstream
    syntax can express, in every profile: on a buffer that starts with the
    header of frame [f] it returns 0, and -1 for inter frames, whose size it
    cannot tell, and it leaves in the context and in [*ref] exactly the syntax
    elements of [f]; nothing else changes. *)
Theorem decode_frame_header_spec p f buf size c :
  frame_ok p f → zlen (refidx (h c)) = 3 → zlen (signbias (h c)) = 3 →
  frame_bits p f `prefix_of` bytes_bits buf →
  zlen (frame_bits p f) + 32 ≤ 8 * zlen buf → 8 * zlen buf < 2 ^ 31 → 0 ≤ size < 2 ^ 27 →
  decode_frame_header buf size c = Ok (frame_result p f c).1 (frame_result p f c).2.
Proof. intros. apply (decode_frame_header_run p f); [done..|apply surjective_pairing]. Qed.

(** A shown key frame of 1920x1080 in profile 2, 10 bits, BT.2020, scaled for
    display. *)
Definition sample_key_frame : frame :=
  KeyFrame true false (mk_cc 1 5 false true true) (mk_fs 1920 1080 (Some (1280, 720))).

Definition sample_key_bytes : list Z :=
  [146; 73; 131; 66; 80; 59; 248; 33; 188; 19; 252; 11; 60] ++ replicate 20 0.

Lemma sample_key_ok : frame_ok 2 sample_key_frame.
Proof. split; [lia|]. cbn. split; split; cbn; (repeat split); lia. Qed.

Lemma sample_key_prefix : frame_bits 2 sample_key_frame `prefix_of` bytes_bits sample_key_bytes.
Proof. exists (drop 102 (bytes_bits sample_key_bytes)). vm_compute. reflexivity. Qed.

Lemma decode_frame_header_spec_witness :
  decode_frame_header sample_key_bytes 13 zero_vp9
  = Ok (0, None) (frame_result 2 sample_key_frame zero_vp9).2 ∧
  width (frame_result 2 sample_key_frame zero_vp9).2 = 1920.
Proof.
  split; [|reflexivity].
  apply (decode_frame_header_spec 2 sample_key_frame sample_key_bytes 13 zero_vp9);
    [apply sample_key_ok|reflexivity|reflexivity|apply sample_key_prefix|vm_compute; discriminate|vm_compute; reflexivity|lia].
Defined.

(** ** The range of what is accepted *)

Definition bit (x : Z) : Prop := 0 ≤ x < 2.

(** The members have the ranges of their syntax elements. *)
Record ctx_ok (c : VP9Context) : Prop := {
  co_profile : 0 ≤ profile (h c) ≤ 3;
  co_bpp : 0 ≤ bpp (h c) ≤ 12;
  co_key : bit (keyframe (h c));
  co_inv : bit (invisible (h c));
  co_er : bit (errorres (h c));
  co_io : bit (intraonly (h c));
  co_reset : 0 ≤ resetctx (h c) < 4;
  co_refresh : 0 ≤ refreshrefmask (h c) < 256;
  co_refidx : zlen (refidx (h c)) = 3 ∧ Forall (fun r => 0 ≤ r < 8) (refidx (h c));
  co_sign : zlen (signbias (h c)) = 3 ∧ Forall bit (signbias (h c));
  co_ss : bit (ss_h c) ∧ bit (ss_v c);
  co_index : 0 ≤ bpp_index c ≤ 2;
  co_bytes : 0 ≤ bytesperpixel c ≤ 2;
  co_width : 0 ≤ width c ≤ 65536 ∧ 0 ≤ render_width c ≤ 65536;
  co_height : 0 ≤ height c ≤ 65536 ∧ 0 ≤ render_height c ≤ 65536
}.

(** What the colour configuration of a frame of profile [p] leaves in the
    context; an RGB stream leaves the subsampling and the pixel format of the
    frame before. *)
Definition color_set (p : Z) (c0 c : VP9Context) : Prop :=
  (p ≤ 1 ↔ bpp_index c = 0) ∧ bpp (h c) = 8 + 2 * bpp_index c ∧
  bytesperpixel c = (if bpp_index c =? 0 then 1 else 2) ∧
  ((pix_fmt_at (bpp_index c) (ss_v c) (ss_h c) = Some (pix_fmt c) ∧
    if Z.odd p then pix_fmt c ≠ AV_PIX_FMT_YUV420P else ss_h c = 1 ∧ ss_v c = 1) ∨
   (Z.odd p = true ∧ ss_h c = ss_h c0 ∧ ss_v c = ss_v c0 ∧ pix_fmt c = pix_fmt c0)).

Definition size_set (c : VP9Context) : Prop :=
  1 ≤ width c ∧ 1 ≤ height c ∧ 1 ≤ render_width c ∧ 1 ≤ render_height c.

(** The members the later parts of the header leave alone. *)
Definition same_flags (c c' : VP9Context) : Prop :=
  profile (h c) = profile (h c') ∧ keyframe (h c) = keyframe (h c') ∧
  invisible (h c) = invisible (h c') ∧ intraonly (h c) = intraonly (h c').

Section Ranges.
Context {U : Prop}.

Lemma read_bit_depth_wp p R (Q : Z → get_bits_context * VP9Context → Prop) E g c : 0 ≤ R → Avail U g (1 + R) →
  (∀ d g', 0 ≤ d ≤ 2 → (p ≤ 1 ↔ d = 0) → Avail U g' R → Q d (g', c)) → wp U (read_bit_depth p) Q E (g, c).
Proof.
  intros HR Ha HQ. unfold read_bit_depth. wp_step; bprop.
  - wp_step. apply HQ; [lia|lia|]. eapply avail_le; [|done]. lia.
  - parse_step R. parse_step R; [done|]. wp_step. rewrite s32_id by lia. apply HQ; [lia|lia|done].
Qed.

Lemma bit_b2z v : bit v → ∃ b, v = Z.b2z b.
Proof. unfold bit. intros. assert (v = 0 ∨ v = 1) as [-> | ->] by lia; [by exists false|by exists true]. Qed.

Lemma pix_fmt_at_bit d v hz : 0 ≤ d ≤ 2 → bit v → bit hz → ∃ f, pix_fmt_at d v hz = Some f.
Proof.
  intros Hd [b ->]%bit_b2z [b' ->]%bit_b2z. destruct (pix_fmt_at_ok d b b' Hd) as (f & ? & _). by exists f.
Qed.

(** A member update keeps [ctx_ok]. *)
Ltac keep_ok := let H := fresh in intros H; destruct H; split; cbn; auto; try (unfold bit in *; lia).

Lemma read_color_wp p R g c : 0 ≤ p ≤ 3 → 0 ≤ R → ctx_ok c → Avail U g (8 + R) →
  wp U (read_colorspace_details p)
    (fun r s => ctx_ok s.2 ∧ same_flags c s.2 ∧ (r = -1 ∨ r = 0 ∧ color_set p c s.2 ∧ Avail U s.1 R))
    (fun _ _ => False) (g, c).
Proof.
  intros Hp HR Hok Ha. unfold read_colorspace_details. wp_step. wp_step.
  apply (read_bit_depth_wp p (7 + R)); [lia|by eapply avail_le; [|done]; lia|]. clear g Ha. intros d g Hd Hpd Ha.
  rewrite truth_land_1. do 9 parse_step (4 + R).
  lazymatch goal with |- wp _ _ _ _ (_, ?x) => set (c1 := x) end.
  assert (c1 = c <| bpp_index := d |> <| bytesperpixel := if d =? 0 then 1 else 2 |> <| h := (h c) <| bpp := 8 + 2 * d |> |>) as E1
    by apply (color_depth_record d c Hd). clearbody c1.
  assert (ctx_ok c1 ∧ same_flags c c1) as [Hok1 Hsame].
  { subst c1. split; [|done]. revert Hok. keep_ok. destruct (d =? 0); lia. }
  do 2 parse_step (4 + R); [eapply avail_le; [|done]; lia|]. parse_step R.
  destruct (colorspaces_at v) as (w & -> & Hw); [lia|]. apply wp_ret. rewrite Hw. wp_step.
  - wp_step; [|wp_step; auto]. parse_step R. parse_step R; [eapply avail_le; [|done]; lia|].
    wp_step; [auto|]. split; [done|]. split; [done|]. right. subst c1. repeat split; try done; try (cbn; lia). right. done.
  - parse_step (3 + R). parse_step (3 + R); [eapply avail_le; [|done]; lia|].
    wp_step.
    + do 2 parse_step (2 + R); [eapply avail_le; [|done]; lia|]. do 2 parse_step (1 + R); [eapply avail_le; [|done]; lia|].
      do 5 parse_step R. rewrite !u8_id by lia.
      destruct (pix_fmt_at_bit d v2 v1 Hd) as [f Hf]; [done..|].
      change (pix_fmt_at _ _ _) with (pix_fmt_at d v2 v1). rewrite Hf. apply wp_ret.
      assert (ctx_ok (c1 <| ss_h := v1 |> <| ss_v := v2 |> <| pix_fmt := f |>)) as Hok2.
      { revert Hok1. keep_ok. }
      do 4 parse_step R; [auto|]. do 2 parse_step R; [eapply avail_le; [|done]; lia|]. wp_step; [auto|].
      split; [done|]. split; [done|]. right. subst c1. repeat split; try done; try (cbn; lia). left. cbn. split; [done|].
      replace (Z.odd p) with true by done. bprop. done.
    + do 5 parse_step R. destruct (pix_fmt_at_bit d 1 1 Hd) as [f Hf]; [unfold bit; lia..|]. rewrite Hf. apply wp_ret. parse_step R.
      assert (ctx_ok (c1 <| ss_v := 1 |> <| ss_h := 1 |> <| pix_fmt := f |>)) as Hok2.
      { revert Hok1. keep_ok. }
      split; [done|]. split; [done|]. right. subst c1. repeat split; try done; try (cbn; lia).
      * left. cbn. split; [done|]. by replace (Z.odd p) with false by done.
      * eapply avail_le; [|done]; lia.
Qed.
Lemma read_size_wp R g c : 0 ≤ R → ctx_ok c → Avail U g (65 + R) →
  wp U read_frame_size (fun _ s => ctx_ok s.2 ∧ same_flags c s.2 ∧ size_set s.2 ∧ (∀ p c0, color_set p c0 c → color_set p c0 s.2))
    (fun _ _ => False) (g, c).
Proof.
  intros HR Hok Ha. unfold read_frame_size. do 2 parse_step (49 + R); [eapply avail_le; [|done]; lia|].
  do 4 parse_step (33 + R); [eapply avail_le; [|done]; lia|]. do 4 parse_step (32 + R); [eapply avail_le; [|done]; lia|]. wp_step.
  - do 2 parse_step (16 + R); [eapply avail_le; [|done]; lia|]. do 4 parse_step R; [eapply avail_le; [|done]; lia|]. parse_step R.
    rewrite !s32_id by lia. split; [revert Hok; keep_ok|]. split; [done|]. split; [unfold size_set; cbn; lia|by intros ? ? ?].
  - do 7 parse_step R. rewrite !s32_id by lia. split; [revert Hok; keep_ok|]. split; [done|]. split; [unfold size_set; cbn; lia|by intros ? ? ?].
Qed.

Lemma check_sync_wp R g c : 0 ≤ R → Avail U g (24 + R) →
  wp U check_synccode (fun _ s => s.2 = c ∧ Avail U s.1 R) (fun e s => e = -1 ∧ s.2 = c) (g, c).
Proof. intros HR Ha. unfold check_synccode. do 2 parse_step R; [done|]. by wp_step. Qed.

(** What holds of a context after a header that was accepted. *)
Definition accepted (c0 c : VP9Context) : Prop :=
  size_set c ∧ color_set (profile (h c)) c0 c ∧ (keyframe (h c) = 1 ∨ intraonly (h c) = 1 ∧ invisible (h c) = 1).

Lemma read_key_wp p g c : 0 ≤ p ≤ 3 → ctx_ok c → Avail U g 97 →
  wp U (read_key_frame p) (fun _ s => ctx_ok s.2 ∧ same_flags c s.2 ∧ size_set s.2 ∧ color_set p c s.2)
    (fun e s => e = -1 ∧ ctx_ok s.2) (g, c).
Proof.
  intros Hp Hok Ha. unfold read_key_frame. wp_step.
  eapply wp_mono; [by apply (check_sync_wp 73)| |by intros e s [-> ->]]. intros _ [g1 c1] [E Ha1]; cbn [fst snd] in *; subst c1.
  wp_step. eapply wp_mono; [by apply (read_color_wp p 65)| |done]. intros r [g2 c2] (Hok2 & Hf2 & Hr); cbn [fst snd] in *.
  wp_step. wp_step; bprop; [destruct Hr as [-> | [-> _]]; [done|lia]|]. destruct Hr as [-> | (-> & Hcs & Ha2)]; [lia|].
  do 3 parse_step 0. eapply wp_mono; [apply (read_size_wp 0); [lia| |done]| |done].
  - revert Hok2. keep_ok.
  - intros _ s (Hok3 & Hf3 & Hs & Hc). split; [done|]. split; [|split; [done|by apply Hc]].
    unfold same_flags in *. cbn in Hf3. intuition congruence.
Qed.
Lemma read_intra_wp p g c : 0 ≤ p ≤ 3 → ctx_ok c → Avail U g 105 →
  wp U (read_intra_only p) (fun _ s => ctx_ok s.2 ∧ same_flags c s.2 ∧ size_set s.2 ∧ color_set p c s.2)
    (fun e s => e = -1 ∧ ctx_ok s.2) (g, c).
Proof.
  intros Hp Hok Ha. unfold read_intra_only. wp_step.
  eapply wp_mono; [by apply (check_sync_wp 81)| |by intros e s [-> ->]]. intros _ [g1 c1] [E Ha1]; cbn [fst snd] in *; subst c1.
  wp_step. eapply (wp_mono _ (fun _ s => ctx_ok s.2 ∧ same_flags c s.2 ∧ color_set p c s.2 ∧ Avail U s.1 73) _ (fun e s => e = -1 ∧ ctx_ok s.2)).
  - wp_step; bprop.
    + wp_step. eapply wp_mono; [by apply (read_color_wp p 73)| |done]. intros r [g2 c2] (Hok2 & Hf2 & Hr); cbn [fst snd] in *.
      wp_step; bprop; [destruct Hr as [-> | [-> _]]; [done|lia]|]. by destruct Hr as [-> | (-> & Hcs & Ha2)].
    + assert (p = 0) as -> by lia. do 11 parse_step 0. split; [revert Hok; keep_ok|]. split; [done|]. split; [|eapply avail_le; [|done]; lia].
      unfold color_set. cbn. split; [lia|]. split; [done|]. split; [done|]. by left.
  - intros _ [g2 c2] (Hok2 & Hf2 & Hcs & Ha2); cbn [fst snd] in *.
    do 3 parse_step 65; [done|]. rewrite u8_id by lia.
    eapply wp_mono; [apply (read_size_wp 0); [lia| |done]| |done].
    + revert Hok2. keep_ok.
    + intros _ s (Hok3 & Hf3 & Hs & Hc). split; [done|]. split; [|split; [done|by apply Hc]].
      unfold same_flags in *. cbn in Hf3. intuition congruence.
  - done.
Qed.

Lemma read_ref_wp i R g hd (Q : unit → get_bits_context * VP9BitstreamHeader → Prop) E :
  0 ≤ i < 3 → 0 ≤ R → zlen (refidx hd) = 3 ∧ Forall (fun r => 0 ≤ r < 8) (refidx hd) →
  zlen (signbias hd) = 3 ∧ Forall bit (signbias hd) → Avail U g (4 + R) →
  (∀ g' l1 l2, zlen l1 = 3 ∧ Forall (fun r => 0 ≤ r < 8) l1 → zlen l2 = 3 ∧ Forall bit l2 → Avail U g' R →
    Q tt (g', hd <| refidx := l1 |> <| signbias := l2 |>)) →
  wp U (read_ref i) Q E (g, hd).
Proof.
  intros Hi HR [Hz1 H1] [Hz2 H2] Ha HQ. unfold read_ref. do 2 parse_step (1 + R); [eapply avail_le; [|done]; lia|].
  do 2 parse_step R; [right; cbn; lia|]. do 2 parse_step R; [done|]. do 3 parse_step R; [right; cbn; lia|].
  rewrite u8_id by lia. apply HQ; [split; [by rewrite (zlen_insert (A := Z))|by apply Forall_insert]| |done].
  split; [etrans; [apply (zlen_insert (A := Z))|done]|]. apply Forall_insert; [done|]. unfold bit. by destruct (_ && _).
Qed.

Lemma read_inter_wp g c : ctx_ok c → Avail U g 20 →
  wp U read_inter (fun _ _ => False) (fun e s => e = -1 ∧ ctx_ok s.2) (g, c).
Proof.
  intros Hok Ha. unfold read_inter. do 4 parse_step 12; [done|]. rewrite u8_id by lia. destruct Hok. wp_step.
  apply (read_ref_wp 0 8); [lia|lia|done..|]. intros g1 l1 k1 ? ? ?. wp_step.
  apply (read_ref_wp 1 4); [lia|lia|done..|]. intros g2 l2 k2 ? ? ?.
  apply (read_ref_wp 2 0); [lia|lia|done..|]. intros g3 l3 k3 ? ? ?. wp_step. split; [done|]. split; cbn; auto; lia.
Qed.
Lemma read_profile_wp R g c (Q : Z → get_bits_context * VP9Context → Prop) (E : Z → get_bits_context * VP9Context → Prop) :
  0 ≤ R → Avail U g (5 + R) → (∀ s, s.2 = c → E (-1) s) →
  (∀ p g', 0 ≤ p ≤ 3 → Avail U g' R → Q p (g', c)) → wp U read_profile Q E (g, c).
Proof.
  intros HR Ha HE HQ. unfold read_profile. do 2 parse_step (3 + R); [eapply avail_le; [|done]; lia|].
  do 2 parse_step R; [by apply HE|]. do 2 parse_step (2 + R); [eapply avail_le; [|done]; lia|].
  do 2 parse_step (1 + R); [eapply avail_le; [|done]; lia|].
  set (p := s32 (Z.lor v0 (Z.shiftl v1 1))).
  assert (0 ≤ p ≤ 3) as Hp.
  { subst p. assert (v0 = 0 ∨ v0 = 1) as [-> | ->] by lia; assert (v1 = 0 ∨ v1 = 1) as [-> | ->] by lia; vm_compute; split; discriminate. }
  clearbody p. parse_step R. wp_step; bprop.
  - do 2 parse_step R; [done|]. parse_step R. do 2 parse_step R; [by apply HE|]. wp_step. bprop. apply HQ; [|done].
    rewrite s32_id in * by lia. lia.
  - parse_step R. do 2 parse_step R; [by apply HE|]. wp_step. apply HQ; [done|]. eapply avail_le; [|done]. lia.
Qed.

Lemma if_negb_read {A} (b : bool) (x y : A) : (if b then x else y) = (if negb b then y else x).
Proof. by destruct b. Qed.

Lemma b2z_bit b : bit (b2z b).
Proof. unfold bit. destruct b; cbn; lia. Qed.

Lemma truth_bit x : bit x → truth x = true → x = 1.
Proof. unfold bit, truth. intros. bprop. lia. Qed.

Lemma read_shown_wp p g c : 0 ≤ p ≤ 3 → profile (h c) = p → ctx_ok c → Avail U g 111 →
  wp U (read_shown_frame p) (fun _ s => ctx_ok s.2 ∧ accepted c s.2) (fun e s => e = -1 ∧ ctx_ok s.2) (g, c).
Proof.
  intros Hp Hpc Hok Ha. unfold read_shown_frame. read_left 110. read_left 109. read_left 108. parse_calm.
  lazymatch goal with |- wp _ _ _ _ (_, ?x) => set (c1 := x) end.
  assert (ctx_ok c1) as Hok1.
  { revert Hok. keep_ok; try apply b2z_bit; unfold bit in *. rewrite u8_id; lia. }
  assert (profile (h c1) = p) as Hp1 by done. assert (∀ q c', color_set q c1 c' → color_set q c c') as Hcol by (by intros ? ?).
  clearbody c1. clear Hok Hpc g Ha g' H g'0 H1 v v0 v1 H0 H2 H4. rename g'1 into g, H3 into Ha.
  wp_step; [|parse_calm].
  - eapply wp_mono; [apply read_key_wp; [done|done|eapply avail_le; [|done]; lia]| |done].
    intros _ s (Hok2 & (Hf1 & Hf2 & Hf3 & Hf4) & Hs & Hc). split; [done|]. split; [done|]. split; [rewrite <- Hf1, Hp1; by apply Hcol|].
    left. rewrite <- Hf2. apply truth_bit; [apply Hok1|done].
  - apply (wp_cond _ get_bits1 1 0 2 107); [lia|lia|done|]. intros io g1 Ha1 Hio Hz1. parse_calm. rewrite u8_id by lia.
    rewrite if_negb_read. apply (wp_cond _ (get_bits 2) 2 0 (2 ^ 2) 105); [lia|lia|done|]. intros rs g2 Ha2 Hrs _. parse_calm. rewrite u8_id by lia.
    lazymatch goal with |- wp _ _ _ _ (_, ?x) => set (c2 := x) end.
    assert (ctx_ok c2) as Hok2 by (revert Hok1; keep_ok).
    assert (profile (h c2) = p ∧ invisible (h c2) = invisible (h c1)) as [Hp2 Hi2] by done.
    assert (∀ q c', color_set q c2 c' → color_set q c c') as Hcol2 by (intros ? ? ?; by apply Hcol).
    assert (truth (intraonly (h c2)) = true → invisible (h c2) = 1) as Hinv.
    { intros Ht. rewrite Hi2. apply truth_bit; [apply Hok1|]. destruct (truth (invisible _)); [done|]. subst c2. cbn in Ht. by rewrite Hz1 in Ht. }
    clearbody c2. wp_step.
    + eapply wp_mono; [by apply read_intra_wp| |done].
      intros _ s (Hok3 & (Hf1 & Hf2 & Hf3 & Hf4) & Hs & Hc). split; [done|]. split; [done|]. split; [rewrite <- Hf1, Hp2; by apply Hcol2|].
      right. rewrite <- Hf3, <- Hf4. split; [|by apply Hinv]. apply truth_bit; [apply Hok2|done].
    + eapply wp_mono; [apply read_inter_wp; [done|eapply avail_le; [|done]; lia]| |done]. done.
Qed.

Lemma uncompressed_header_wp g c : ctx_ok c → Avail U g 120 →
  wp U uncompressed_header
    (fun r s => ctx_ok s.2 ∧ match r with Some i => 0 ≤ i < 8 ∧ s.2 = c <| h := (h c) <| profile := profile (h s.2) |> |>
                                        | None => accepted c s.2 end)
    (fun e s => e = -1 ∧ ctx_ok s.2) (g, c).
Proof.
  intros Hok Ha. unfold uncompressed_header. wp_step. apply (read_profile_wp 115); [lia|done|by intros s ->|].
  intros p g1 Hp Ha1. read_left 114. parse_calm. rewrite u8_id by lia.
  set (c1 := c <| h := _ |>). assert (ctx_ok c1) as Hok1 by (revert Hok; keep_ok). wp_step.
  - read_left 111. parse_calm. rewrite s32_id by lia. done.
  - parse_calm. eapply wp_mono; [apply (read_shown_wp p g' c1 Hp eq_refl Hok1); eapply avail_le; [|done]; lia| |done].
    intros _ s [Hok2 Hacc]. wp_step. split; [done|]. exact Hacc.
Qed.
End Ranges.

Lemma decode_frame_header_wp (U : Prop) buf size c : ctx_ok c → U ∨ 19 ≤ zlen buf ∧ 8 * zlen buf < 2 ^ 31 →
  wp U (decode_frame_header buf size)
    (fun r c' => ctx_ok c' ∧ (r.1 = 0 ∨ r.1 = -1 ∧ r.2 = None) ∧
      (r.1 = 0 → match r.2 with Some i => 0 ≤ i < 8 ∧ c' = c <| h := (h c) <| profile := profile (h c') |> |>
                             | None => accepted c c' end))
    (fun _ _ => False) c.
Proof.
  intros Hok Hb. unfold wp, decode_frame_header.
  assert (init_get_bits8 (Some buf) size = (-1, (init_get_bits8 (Some buf) size).2) ∨
          ∃ n k k', init_get_bits8 (Some buf) size = (0, mk_gb buf n 0 k k')) as [-> | (n & k & k' & ->)].
  { unfold init_get_bits8, init_get_bits, init_get_bits_xe. destruct (_ || _ || _); [by left|right; by eexists _, _, _]. }
  - cbn. split; [done|]. split; [by right|]. done.
  - cbn [Z.ltb Z.compare]. pose proof (uncompressed_header_wp (U := U) (mk_gb buf n 0 k k') c Hok) as Hw.
    assert (Avail U (mk_gb buf n 0 k k') 120) as Ha by (destruct Hb; [by left|right; unfold room; cbn; lia]).
    specialize (Hw Ha). unfold wp in Hw. destruct (uncompressed_header _) as [r s|e s|]; [| |done].
    + destruct Hw. split; [done|]. split; [by left|]. done.
    + destruct Hw as [-> ?]. split; [done|]. split; [by right|]. done.
Qed.

(** C25: Whatever the bytes, when [decode_frame_header] returns 0 the context is
    well-formed and, for a frame that is not a repetition, usable: it is a key
    frame or an invisible intra-only frame, both sizes are in 1..65536, the
    bit depth fits the profile and fixes the bytes per sample, and the pixel
    format is the one of depth and subsampling (of the frame before for RGB).
    On an error the members keep their types, and with 19 bytes of memory the
    call always returns, 0 or -1. *)
Theorem decode_frame_header_typed buf size c :
  ctx_ok c →
  (∀ ret r c', decode_frame_header buf size c = Ok (ret, r) c' →
    ctx_ok c' ∧ (ret = 0 → r = None → accepted c c') ∧ (∀ i, r = Some i → ret = 0 ∧ 0 ≤ i < 8)) ∧
  (19 ≤ zlen buf → 8 * zlen buf < 2 ^ 31 →
    ∃ ret r c', decode_frame_header buf size c = Ok (ret, r) c' ∧ (ret = 0 ∨ ret = -1)).
Proof.
  intros Hok. split.
  - intros ret r c' He. pose proof (decode_frame_header_wp True buf size c Hok (or_introl I)) as Hw.
    unfold wp in Hw. rewrite He in Hw. cbn [fst snd] in Hw. destruct Hw as (H1 & H2 & H3).
    split; [done|]. split; [intros H0 ->; by apply H3|]. intros i ->. destruct H2 as [-> | [_ ?]]; [|done]. split; [done|]. by apply H3.
  - intros H1 H2. pose proof (decode_frame_header_wp False buf size c Hok (or_intror (conj H1 H2))) as Hw.
    unfold wp in Hw. destruct (decode_frame_header buf size c) as [[ret r] c'| |]; [|done..].
    exists ret, r, c'. split; [done|]. cbn in Hw. lia.
Qed.

Lemma zero_vp9_ok : ctx_ok zero_vp9.
Proof. split; cbn; unfold bit; try lia; repeat constructor; lia. Qed.

Lemma decode_frame_header_typed_witness :
  (∀ ret r c', decode_frame_header sample_key_bytes 13 zero_vp9 = Ok (ret, r) c' →
    ctx_ok c' ∧ (ret = 0 → r = None → accepted zero_vp9 c') ∧ (∀ i, r = Some i → ret = 0 ∧ 0 ≤ i < 8)) ∧
  (19 ≤ zlen sample_key_bytes → 8 * zlen sample_key_bytes < 2 ^ 31 →
    ∃ ret r c', decode_frame_header sample_key_bytes 13 zero_vp9 = Ok (ret, r) c' ∧ (ret = 0 ∨ ret = -1)).
Proof. apply (decode_frame_header_typed sample_key_bytes 13 zero_vp9). apply zero_vp9_ok. Defined.
