(* ===== verification/Vp9Stream.v ===== *)
(** VP9 superframes and extradata (Vp9.v): the index written at the end of a
    superframe is the one read, the first frame's header reaches the decoder,
    and the entry point stays inside its buffer; with the streams on which the
    frame positions and the result go wrong. *)

From stdpp Require Import base list numbers.
From Stdlib Require Import ZArith Lia Bool.
From S2P Require Import Prelude.
From S2P Require Import Bits.
From S2P Require Import CommonUtils.
From S2P Require Import GetBits.
From S2P Require Import Parse.
From S2P Require Import ParseBits.
From S2P Require Import Vp9.
From S2P Require Import Vp9Ok.

#[local] Open Scope Z_scope.

(** ** The superframe index (VP9, annex B) *)

(** The [n] bytes of [v], least significant first. *)
Fixpoint size_bytes (n : nat) (v : Z) : list Z :=
  match n with
  | O => []
  | S n' => v mod 256 :: size_bytes n' (v / 256)
  end.

Definition sf_marker (ls : nat) (n : Z) : Z := 0xc0 + (Z.of_nat ls - 1) * 8 + (n - 1).

Definition sf_sizes (ls : nat) (lens : list Z) : list Z := concat (map (size_bytes ls) lens).

Definition sf_index (ls : nat) (lens : list Z) : list Z :=
  [sf_marker ls (zlen lens)] ++ sf_sizes ls lens ++ [sf_marker ls (zlen lens)].

Definition superframe (ls : nat) (frames : list (list Z)) : list Z :=
  concat frames ++ sf_index ls (map zlen frames).

Lemma length_size_bytes n v : length (size_bytes n v) = n.
Proof. revert v. induction n as [|n IH]; intros v; cbn; congruence. Qed.

Lemma zlen_sf_sizes ls lens : zlen (sf_sizes ls lens) = zlen lens * Z.of_nat ls.
Proof.
  unfold sf_sizes. induction lens as [|v lens IH]; [done|]. cbn [map concat]. rewrite zlen_app, IH.
  unfold zlen. rewrite length_size_bytes. cbn [length]. lia.
Qed.

Lemma zlen_sf_index ls lens : zlen (sf_index ls lens) = 2 + zlen lens * Z.of_nat ls.
Proof. unfold sf_index. rewrite !zlen_app, zlen_sf_sizes. unfold zlen. cbn. lia. Qed.

Lemma byte_at_middle (l k : list Z) b i : i = zlen l → 0 ≤ b < 256 → byte_at (l ++ b :: k) i = Some b.
Proof.
  intros -> Hb. unfold byte_at. unfold zlen. rewrite aget_nat, lookup_app_r, Nat.sub_diag by lia. cbn. by rewrite u8_id.
Qed.

Lemma read_size_bytes n : ∀ l v k j acc, 0 ≤ j → 0 ≤ acc < 2 ^ (j * 8) → 0 ≤ v < 2 ^ (8 * Z.of_nat n) →
  v * 2 ^ (j * 8) < 2 ^ 31 →
  read_size (l ++ size_bytes n v ++ k) n j (zlen l) acc = Some (acc + v * 2 ^ (j * 8)).
Proof.
  induction n as [|n IH]; intros l v k j acc Hj Hacc Hv Hm; cbn [read_size size_bytes].
  - replace v with 0 by (cbn in Hv; lia). f_equal. lia.
  - pose proof (Z.mod_pos_bound v 256) as Hmod. pose proof (Z.div_mod v 256) as Hdm. pose proof (Z.pow_pos_nonneg 2 (j * 8)) as Hp.
    pose proof (Z.div_pos v 256) as Hd0.
    cbn [app]. rewrite byte_at_middle by lia. cbn [mbind option_bind]. rewrite Z.shiftl_mul_pow2 by lia.
    rewrite s32_id by nia. rewrite Z.lor_comm, lor_mul_add by lia.
    assert (2 ^ ((j + 1) * 8) = 256 * 2 ^ (j * 8)) as E1 by (replace ((j + 1) * 8) with (8 + j * 8) by lia; by rewrite Z.pow_add_r by lia).
    assert (2 ^ (8 * Z.of_nat (S n)) = 256 * 2 ^ (8 * Z.of_nat n)) as E2
      by (replace (8 * Z.of_nat (S n)) with (8 + 8 * Z.of_nat n) by lia; by rewrite Z.pow_add_r by lia).
    specialize (IH (l ++ [v mod 256]) (v / 256) k (j + 1) (v mod 256 * 2 ^ (j * 8) + acc)).
    rewrite <- app_assoc in IH. cbn [app] in IH. rewrite zlen_app in IH. change (zlen [v mod 256]) with 1 in IH. rewrite IH; [f_equal; nia|lia|nia|lia|nia].
Qed.

Definition zsum (l : list Z) : Z := foldr Z.add 0 l.

Lemma zsum_app l k : zsum (l ++ k) = zsum l + zsum k.
Proof. induction l as [|a l IH]; cbn; [done|]. unfold zsum in *. lia. Qed.

Lemma zsum_nonneg l : Forall (fun v => 0 ≤ v) l → 0 ≤ zsum l.
Proof. induction 1; cbn; [lia|]. unfold zsum in *. lia. Qed.

Lemma zlen_concat {A} (ls : list (list A)) : zlen (concat ls) = zsum (map zlen ls).
Proof. induction ls as [|x ls IH]; [done|]. cbn [concat map]. rewrite zlen_app, IH. done. Qed.

(** The array of sizes after [i] frames. *)
Definition sizes_upto (i : nat) (lens : list Z) : list Z := take i lens ++ replicate (8 - i) 0.

Lemma sizes_upto_next i lens v : (i < 8)%nat → lens !! i = Some v →
  aset (sizes_upto i lens) (Z.of_nat i) v = Some (sizes_upto (S i) lens).
Proof.
  intros Hi Hv. pose proof (lookup_lt_Some _ _ _ Hv) as Hl. unfold sizes_upto.
  assert (length (take i lens) = i) as Ht by (rewrite length_take; lia).
  rewrite aset_nat by (rewrite length_app, Ht, length_replicate; lia). f_equal.
  rewrite (take_S_r _ _ v) by done. replace (8 - i)%nat with (S (8 - S i)) by lia. cbn [replicate].
  rewrite insert_app_r_alt by lia. rewrite Ht, Nat.sub_diag, <- app_assoc. done.
Qed.

Definition lens_ok (ls : nat) (lens : list Z) : Prop :=
  (1 ≤ ls ≤ 4)%nat ∧ (1 ≤ length lens ≤ 8)%nat ∧ Forall (fun v => 0 ≤ v < 2 ^ (8 * Z.of_nat ls) ∧ v < 2 ^ 31) lens.

Lemma lens_take ls lens i : lens_ok ls lens → 0 ≤ zsum (take i lens) ≤ zsum lens.
Proof.
  intros (_ & _ & Hf). assert (Forall (fun v => 0 ≤ v) lens) as Hn by (eapply list.Forall_impl; [exact Hf|]; cbn; lia).
  rewrite <- (take_drop i lens) in Hn at 1. apply Forall_app in Hn as [H1 H2].
  assert (zsum lens = zsum (take i lens) + zsum (drop i lens)) as -> by (by rewrite <- zsum_app, take_drop). pose proof (zsum_nonneg _ H1). pose proof (zsum_nonneg _ H2). lia.
Qed.

Lemma sf_sizes_split ls lens i v : lens !! i = Some v →
  sf_sizes ls lens = sf_sizes ls (take i lens) ++ size_bytes ls v ++ sf_sizes ls (drop (S i) lens).
Proof.
  intros Hv. rewrite <- (take_drop_middle lens i v Hv) at 1. unfold sf_sizes. rewrite map_app, concat_app. done.
Qed.

Lemma read_sizes_spec ls lens l k s dsz :
  lens_ok ls lens → data_size s = dsz → zsum lens ≤ u32 (dsz - (2 + zlen lens * Z.of_nat ls)) → sizes s = replicate 8 0 →
  read_sizes (l ++ sf_sizes ls lens ++ k) (Z.of_nat ls) (zlen lens) (2 + zlen lens * Z.of_nat ls) (zlen l) s =
  Ok (zsum lens) (s <| sizes := sizes_upto (length lens) lens |>).
Proof.
  intros Hok Hd Hs Hz. pose proof Hok as (Hls & Hn & Hf). apply wp_only. unfold read_sizes.
  apply (wp_fold_range 0 (zlen lens) _ (fun i total s' =>
    s' = s <| sizes := sizes_upto (Z.to_nat i) lens |> ∧ total = zsum (take (Z.to_nat i) lens))).
  - split; [|done]. destruct s. cbn in Hz. by rewrite Hz.
  - intros i total s' Hi [-> ->]. destruct (lookup_lt_is_Some_2 lens (Z.to_nat i)) as [v Hv]; [unfold zlen in *; lia|].
    rewrite Forall_lookup in Hf. pose proof (Hf _ _ Hv) as [Hv1 Hv2].
    wp_step. rewrite (sf_sizes_split ls lens _ v Hv). rewrite Nat2Z.id, <- !app_assoc.
    pose proof (zlen_sf_sizes ls (take (Z.to_nat i) lens)) as Hzl.
    assert (zlen (take (Z.to_nat i) lens) = i) as Ht by (unfold zlen in *; rewrite length_take; lia). rewrite Ht in Hzl.
    replace (zlen l + i * Z.of_nat ls) with (zlen (l ++ sf_sizes ls (take (Z.to_nat i) lens))) by (rewrite zlen_app; lia).
    rewrite (app_assoc l). rewrite read_size_bytes by (cbn; lia). apply wp_ret. rewrite Z.mul_1_r, Z.add_0_l.
    assert (zsum (take (Z.to_nat i) lens) + v = zsum (take (S (Z.to_nat i)) lens)) as Hnext.
    { rewrite (take_S_r _ _ v) by done. rewrite zsum_app. cbn. lia. }
    pose proof (lens_take ls lens (S (Z.to_nat i)) Hok) as Hle. do 4 wp_step.
    + exfalso. cbn in H. rewrite Hd in H. apply orb_true_iff in H as [H|H]; bprop; lia.
    + assert (aset (sizes_upto (Z.to_nat i) lens) i v = Some (sizes_upto (S (Z.to_nat i)) lens)) as Hnx.
      { rewrite <- (sizes_upto_next _ _ v) by (done || (unfold zlen in *; lia)). f_equal. lia. }
      wp_step. change (aset _ i v) with (aset (sizes_upto (Z.to_nat i) lens) i v). rewrite Hnx. apply wp_ret. wp_step. wp_step. wp_step.
      replace (Z.to_nat (i + 1)) with (S (Z.to_nat i)) by lia. done.
  - intros total s' [-> ->]. rewrite Z.max_r by apply zlen_nonneg. unfold zlen. rewrite Nat2Z.id, firstn_all. done.
Qed.

Lemma sf_marker_fields ls n : (1 ≤ ls ≤ 4)%nat → 1 ≤ n ≤ 8 →
  0 ≤ sf_marker ls n < 256 ∧ Z.land (sf_marker ls n) 0xe0 = 0xc0 ∧
  1 + Z.land (Z.shiftr (sf_marker ls n) 3) 3 = Z.of_nat ls ∧ 1 + Z.land (sf_marker ls n) 7 = n.
Proof.
  intros Hls Hn. assert (ls = 1 ∨ ls = 2 ∨ ls = 3 ∨ ls = 4)%nat as Hl by lia.
  assert (n = 1 ∨ n = 2 ∨ n = 3 ∨ n = 4 ∨ n = 5 ∨ n = 6 ∨ n = 7 ∨ n = 8) as Hn' by lia.
  repeat destruct Hl as [->|Hl]; [..|subst ls]; (repeat destruct Hn' as [->|Hn']; [..|subst n]); vm_compute; repeat split; discriminate.
Qed.

Lemma byte_at_lt d i : 0 ≤ i < zlen d → ∃ b, byte_at d i = Some b ∧ 0 ≤ b < 256.
Proof.
  intros Hi. destruct (aget_Some d i Hi) as [b Hb]. exists (u8 b). unfold byte_at. rewrite Hb. split; [done|apply u8_range].
Qed.

Lemma AV_RL32_lt d i : 0 ≤ i → i + 4 ≤ zlen d → ∃ w, AV_RL32 d i = Some w.
Proof.
  intros H0 H1. unfold AV_RL32.
  destruct (byte_at_lt d i) as (b0 & -> & _); [lia|]. destruct (byte_at_lt d (i + 1)) as (b1 & -> & _); [lia|].
  destruct (byte_at_lt d (i + 2)) as (b2 & -> & _); [lia|]. destruct (byte_at_lt d (i + 3)) as (b3 & -> & _); [lia|].
  by eexists.
Qed.

(** The size of the header in front of a frame. *)
Definition prefix_of (d : list Z) : Z :=
  match AV_RL32 d 12 with Some w => if s32 w =? AML_PREFIX then 16 else 0 | None => 0 end.

(** The structure after [vp9_decode_extradata_ps] filled in the input. *)
Definition split_in (d : list Z) (dsz : Z) : vp9_superframe_split := zero_split <| data := Some d |> <| data_size := dsz |>.

(** The test for the prefix. *)
Lemma wp_prefix (U : Prop) d dsz (k : unit → M vp9_superframe_split unit) Q E : 16 ≤ zlen d →
  wp U (k tt) Q E ((split_in d dsz) <| prefix_size := prefix_of d |>) →
  wp U (p ← of_option (AV_RL32 d 12);
        when (s32 p =? AML_PREFIX) (modify (fun s => s <| prefix_size := 16 |>)) ≫= k) Q E (split_in d dsz).
Proof.
  intros Hz Hk. destruct (AV_RL32_lt d 12) as [w Hw]; [lia..|]. unfold prefix_of in Hk. rewrite Hw in *. wp_step. apply wp_ret.
  wp_step. wp_step; rewrite H in Hk; [wp_step|]; exact Hk.
Qed.

(** The superframe filter reads back the index of a superframe: for up to
    eight frames and any size of the size fields that fits, it finds the sizes
    that were written, in order, and their sum. *)
Theorem superframe_index_roundtrip ls frames pad :
  lens_ok ls (map zlen frames) → zlen (superframe ls frames) < 2 ^ 31 → 16 ≤ zlen (superframe ls frames ++ pad) →
  let d := superframe ls frames ++ pad in
  vp9_superframe_split_filter (split_in d (zlen (superframe ls frames))) =
  Ok 0 (mk_split (Some d) (zlen (superframe ls frames)) (zlen frames) (zsum (map zlen frames)) 0 0 (prefix_of d)
          (sizes_upto (length frames) (map zlen frames))).
Proof.
  intros Hok Hlt Hz d. pose proof Hok as (Hls & Hn & Hf). rewrite length_map in Hn.
  set (dsz := zlen (superframe ls frames)) in *. set (lens := map zlen frames) in *.
  assert (zlen lens = zlen frames) as Hll by (unfold zlen, lens; by rewrite length_map).
  assert (dsz = zsum lens + (2 + zlen frames * Z.of_nat ls)) as Hdsz.
  { unfold dsz, superframe. rewrite zlen_app, zlen_sf_index, zlen_concat. fold lens. lia. }
  assert (0 ≤ zsum lens) as Hs0 by (pose proof (lens_take ls lens 0 Hok); cbn in *; lia).
  destruct (sf_marker_fields ls (zlen frames)) as (Hm & Hm1 & Hm2 & Hm3); [done|unfold zlen; lia|].
  set (m := sf_marker ls (zlen frames)) in *.
  assert (1 ≤ zlen frames ≤ 8) as Hfr by (unfold zlen; lia).
  assert (∀ i, i = dsz - 1 ∨ i = zsum lens → byte_at d i = Some m) as Hby.
  { intros i Hi. unfold d, superframe, sf_index. fold lens. rewrite Hll. fold m. destruct Hi as [-> | ->].
    - rewrite <- !app_assoc, (app_assoc [m]), (app_assoc (concat frames)). apply byte_at_middle; [|done].
      rewrite !zlen_app, zlen_sf_sizes, zlen_concat. fold lens. change (zlen [m]) with 1. rewrite Hll. lia.
    - rewrite <- !app_assoc. apply byte_at_middle; [|done]. by rewrite zlen_concat. }
  apply wp_only. unfold vp9_superframe_split_filter. wp_step. wp_step. wp_step. cbn [data split_in].
  apply (wp_prefix False d dsz); [done|].
  change (data_size (split_in d dsz)) with dsz. wp_step. rewrite u32_id by lia. rewrite Hby by auto. apply wp_ret. rewrite Hm1. cbn [Z.eqb Pos.eqb].
  unfold split_index. rewrite Hm2, Hm3.
  set (s1 := (split_in d dsz) <| prefix_size := prefix_of d |>). wp_step. wp_step.
  change (data_size s1) with dsz. set (n := 2 + zlen frames * Z.of_nat ls) in *. assert (2 ≤ n) by (unfold n; nia).
  wp_step. rewrite (proj2 (Z.leb_le n dsz)) by lia. wp_step. rewrite u32_id by lia. rewrite Hby by (right; lia). apply wp_ret. wp_step.
  rewrite Z.eqb_refl. wp_step; [|done]. wp_step. rewrite u32_id, s32_id by lia.
  replace (dsz + 1 - n) with (zlen (concat frames ++ [m])) by (rewrite zlen_app, zlen_concat; fold lens; change (zlen [m]) with 1; lia).
  assert (d = (concat frames ++ [m]) ++ sf_sizes ls lens ++ [m] ++ pad) as Ed.
  { unfold d, superframe, sf_index. fold lens. rewrite Hll. fold m. by rewrite <- !app_assoc. }
  eapply wp_ok_eq.
  { rewrite Ed at 1. unfold n. rewrite <- Hll. apply (read_sizes_spec ls lens _ _ s1 dsz); [done|done| |done].
    rewrite Hll. fold n. rewrite u32_id by lia. lia. }
  wp_step. split; [done|]. rewrite s32_id by lia. unfold s1, split_in, zero_split. cbn.
  unfold lens. rewrite length_map. done.
Qed.

Lemma split_single_spec d dsz b : 16 ≤ zlen d → 1 ≤ dsz < 2 ^ 31 → byte_at d (dsz - 1) = Some b → Z.land b 0xe0 ≠ 0xc0 →
  vp9_superframe_split_filter (split_in d dsz) =
  Ok 0 (mk_split (Some d) dsz 1 dsz 0 0 (prefix_of d) (dsz :: replicate 7 0)).
Proof.
  intros Hz Hd Hb Hm. apply wp_only. unfold vp9_superframe_split_filter. wp_step. wp_step. wp_step. cbn [data split_in].
  apply (wp_prefix False d dsz); [done|]. change (data_size (split_in d dsz)) with dsz. wp_step. rewrite u32_id by lia.
  rewrite Hb. apply wp_ret. rewrite (proj2 (Z.eqb_neq _ _) Hm). unfold split_single. do 4 wp_step. wp_step. change (aset _ 0 _) with (aset (replicate 8 0) 0 (s32 dsz)).
  rewrite s32_id by lia. apply wp_ret. wp_step. split; [done|]. cbn -[s32]. by rewrite s32_id by lia.
Qed.

(** ** The header of the first frame *)

Definition no_ref (r : option Z) : bool := match r with None => true | Some _ => false end.

Lemma prefix_of_cases d : prefix_of d = 0 ∨ prefix_of d = 16.
Proof. unfold prefix_of. destruct (AV_RL32 d 12); [|by left]. destruct (_ =? _); auto. Qed.

(** Once the filter has found the frames, the header of the first one decides. *)
Lemma first_frame_spec p f d dsz ps nb total sz k :
  vp9_superframe_split_filter (split_in d dsz) = Ok 0 (mk_split (Some d) dsz nb total 0 0 (prefix_of d) (sz :: k)) →
  0 ≤ dsz < 2 ^ 32 → 1 ≤ nb → prefix_of d ≤ sz < 2 ^ 27 → frame_ok p f → (frame_result p f (ctx ps)).1.1 = 0 → ctx_ok (ctx ps) →
  frame_bits p f `prefix_of` bytes_bits (drop (Z.to_nat (prefix_of d)) d) →
  zlen (frame_bits p f) + 32 ≤ 8 * zlen (drop (Z.to_nat (prefix_of d)) d) → 8 * zlen d < 2 ^ 31 →
  vp9_decode_extradata_ps d dsz ps =
  Ok 0 (ps <| ctx := (frame_result p f (ctx ps)).2 |> <| head_parsed := no_ref (frame_result p f (ctx ps)).1.2 |>).
Proof.
  intros Hs Hd Hnb Hsz Hf Hr Hok Hp Hl Hb. unfold vp9_decode_extradata_ps. rewrite u32_id by lia.
  unfold split_in in Hs. rewrite Hs. cbn [truth Z.eqb negb nb_frames]. pose proof (prefix_of_cases d) as Hpc.
  destruct (Z.to_nat nb) as [|n] eqn:En; [lia|]. cbn [frames_loop sizes next_frame_offset prefix_size].
  change (aget (sz :: k) 0) with (Some sz).
  rewrite (bind_Ok (of_option (Some sz)) _ ps sz ps) by done. cbv beta zeta. rewrite Z.add_0_l. assert (s32 (u32 (sz - prefix_of d)) = sz - prefix_of d) as -> by (rewrite u32_id by lia; apply s32_id; lia).
  set (buf := drop _ d) in *. assert (8 * zlen buf < 2 ^ 31) as Hb2 by (unfold buf, zlen in *; rewrite length_drop; lia).
  pose proof (decode_frame_header_run p f buf (sz - prefix_of d) (ctx ps) _ _ Hf (proj1 (co_refidx _ Hok)) (proj1 (co_sign _ Hok)) Hp Hl Hb2 ltac:(lia) (surjective_pairing _)) as Hdec.
  unfold zoom. erewrite bind_Ok; [|by rewrite Hdec]. cbn [fst snd]. rewrite Hr. cbn [Z.eqb].
  destruct f; cbn in *; try done. destruct Hf as [_ Hf]. cbn in Hf.
  by rewrite (proj2 (Z.ltb_ge idx 0)) by lia.
Qed.

(** C24: A superframe reaches the decoder: on any superframe of up to eight frames
    whose first frame, behind the optional 16-byte header, begins with the
    VP9 header of a frame that is not an inter frame, the entry point returns
    0, stores exactly the elements of that header and reports a parsed header
    unless the frame only repeats another. *)
Theorem extradata_superframe ls fr frames pad p f ps :
  let d := superframe ls (fr :: frames) ++ pad in
  lens_ok ls (map zlen (fr :: frames)) → 8 * zlen d < 2 ^ 31 → prefix_of d ≤ zlen fr < 2 ^ 27 →
  frame_ok p f → (frame_result p f (ctx ps)).1.1 = 0 → ctx_ok (ctx ps) →
  frame_bits p f `prefix_of` bytes_bits (drop (Z.to_nat (prefix_of d)) fr) →
  zlen (frame_bits p f) + 32 ≤ 8 * (zlen d - prefix_of d) → 16 ≤ zlen d →
  vp9_decode_extradata_ps d (zlen (superframe ls (fr :: frames))) ps =
  Ok 0 (ps <| ctx := (frame_result p f (ctx ps)).2 |> <| head_parsed := no_ref (frame_result p f (ctx ps)).1.2 |>).
Proof.
  intros d Hok Hb Hz Hf Hr Hc Hp Hl H16. pose proof (prefix_of_cases d) as Hpc.
  assert (zlen (superframe ls (fr :: frames)) ≤ zlen d) as Hle by (unfold d; rewrite zlen_app; pose proof (zlen_nonneg pad); lia).
  assert (∃ r, d = fr ++ r) as [r Er] by (eexists; unfold d, superframe; cbn [concat]; by rewrite <- !app_assoc).
  assert (drop (Z.to_nat (prefix_of d)) d = drop (Z.to_nat (prefix_of d)) fr ++ r) as Ed.
  { rewrite Er at 2. rewrite drop_app_le; [done|unfold zlen in Hz; lia]. }
  eapply (first_frame_spec p f d _ ps (zlen (fr :: frames)) (zsum (map zlen (fr :: frames))) (zlen fr)
            (take (length frames) (map zlen frames) ++ replicate (8 - S (length frames)) 0)).
  - apply (superframe_index_roundtrip ls (fr :: frames) pad); [done|lia|done].
  - pose proof (zlen_nonneg (superframe ls (fr :: frames))). lia.
  - unfold zlen. cbn. lia.
  - done.
  - done.
  - done.
  - done.
  - rewrite Ed, bytes_bits_app. by apply prefix_app_r.
  - unfold zlen in *. rewrite length_drop. lia.
  - done.
Qed.

(** The same for a frame that is not a superframe: the last byte decides. *)
Theorem extradata_frame d dsz b p f ps :
  byte_at d (dsz - 1) = Some b → Z.land b 0xe0 ≠ 0xc0 → 8 * zlen d < 2 ^ 31 → prefix_of d ≤ dsz < 2 ^ 27 → 1 ≤ dsz →
  frame_ok p f → (frame_result p f (ctx ps)).1.1 = 0 → ctx_ok (ctx ps) →
  frame_bits p f `prefix_of` bytes_bits (drop (Z.to_nat (prefix_of d)) d) →
  zlen (frame_bits p f) + 32 ≤ 8 * (zlen d - prefix_of d) → 16 ≤ zlen d →
  vp9_decode_extradata_ps d dsz ps =
  Ok 0 (ps <| ctx := (frame_result p f (ctx ps)).2 |> <| head_parsed := no_ref (frame_result p f (ctx ps)).1.2 |>).
Proof.
  intros Hb Hm H8 Hz H1 Hf Hr Hc Hp Hl H16. pose proof (prefix_of_cases d) as Hpc.
  apply (first_frame_spec p f d dsz ps 1 dsz dsz (replicate 7 0)); [|lia|lia|done..| |done].
  - apply (split_single_spec d dsz b); [done|lia|done|done].
  - unfold zlen in *. rewrite length_drop. lia.
Qed.

(** ** Memory safety *)

Lemma read_size_defined d n : ∀ j idx acc, 0 ≤ idx → idx + Z.of_nat n ≤ zlen d → ∃ v, read_size d n j idx acc = Some v.
Proof.
  induction n as [|n IH]; intros j idx acc Hi Hn; cbn [read_size]; [by eexists|].
  destruct (byte_at_lt d idx) as (b & -> & _); [lia|]. apply IH; lia.
Qed.

(** What the filter leaves: at most eight frames, no size beyond the data. *)
Record split_ok (dsz : Z) (s : vp9_superframe_split) : Prop := {
  sp_size : data_size s = dsz;
  sp_len : zlen (sizes s) = 8;
  sp_sizes : Forall (fun v => 0 ≤ v ≤ dsz) (sizes s);
  sp_nb : 0 ≤ nb_frames s ≤ 8;
  sp_prefix : prefix_size s = 0 ∨ prefix_size s = 16;
  sp_off : 0 ≤ next_frame_offset s ≤ dsz
}.

Lemma read_sizes_wp d ls nb n dsz idx s : split_ok dsz s → 0 ≤ nb ≤ 8 → 0 ≤ ls → n = 2 + nb * ls → n ≤ dsz < 2 ^ 31 → dsz ≤ zlen d →
  idx = dsz + 1 - n →
  wp False (read_sizes d ls nb n idx) (fun _ s' => split_ok dsz s') (fun e _ => e = - EINVAL) s.
Proof.
  intros Hs Hnb Hls Hn Hd Hz ->. unfold read_sizes.
  apply (wp_fold_range 0 nb _ (fun i total s' => split_ok dsz s' ∧ 0 ≤ total)); [done| |by intros ? ? [? _]].
  intros i total s' Hi [Hs' Ht]. assert (i * ls ≤ nb * ls - ls) by nia. assert (0 ≤ i * ls) by nia.
  destruct (read_size_defined d (Z.to_nat ls) 0 (dsz + 1 - n + i * ls) 0) as [v Hv]; [lia|lia|].
  wp_step. rewrite Hv. apply wp_ret. do 4 wp_step; [done|]. apply orb_false_iff in H1 as [Hv0 Htot]. bprop.
  destruct Hs'. rewrite sp_size0 in Htot. rewrite u32_id in Htot by lia. destruct (aset (sizes s') i v) as [l|] eqn:El.
  - wp_step. apply wp_ret. apply aset_inv in El as [_ ->]. wp_step. wp_step. wp_step. split; [|lia].
    split; cbn; auto; [etrans; [apply (zlen_insert (A := Z))|done]|]. apply Forall_insert; [done|lia].
  - apply aset_None in El. lia.
Qed.

Lemma split_filter_wp d dsz : 16 ≤ zlen d → 1 ≤ dsz < 2 ^ 31 → dsz ≤ zlen d →
  wp False vp9_superframe_split_filter (fun r s => r = 0 ∧ split_ok dsz s ∨ r = - EINVAL) (fun _ _ => False) (split_in d dsz).
Proof.
  intros H16 Hd Hz. unfold vp9_superframe_split_filter. wp_step. wp_step. wp_step. cbn [data split_in].
  apply (wp_prefix False d dsz); [done|]. change (data_size (split_in d dsz)) with dsz.
  set (s1 := (split_in d dsz) <| prefix_size := prefix_of d |>).
  assert (split_ok dsz s1) as Hs1.
  { split; cbn; [done|done|repeat constructor; lia|lia|apply prefix_of_cases|lia]. }
  wp_step. rewrite u32_id by lia. destruct (byte_at_lt d (dsz - 1)) as (m & -> & Hm); [lia|]. apply wp_ret. wp_step.
  - unfold split_index. set (ls := 1 + Z.land (Z.shiftr m 3) 3). set (nb := 1 + Z.land m 7).
    assert (1 ≤ ls ≤ 4) as Hls.
    { unfold ls. generalize (Z.shiftr m 3). intros x. change 3 with (Z.ones 2). rewrite Z.land_ones by lia. pose proof (Z.mod_pos_bound x (2 ^ 2)). lia. }
    assert (1 ≤ nb ≤ 8) as Hnb.
    { unfold nb. change 7 with (Z.ones 3). rewrite Z.land_ones by lia. pose proof (Z.mod_pos_bound m (2 ^ 3)). lia. }
    wp_step. wp_step. change (data_size s1) with dsz. wp_step.
    eapply (wp_mono _ (fun (b : bool) s => s = s1 ∧ (b = true → 2 + nb * ls ≤ dsz)) _ (fun _ _ => False)).
    + wp_step; [|by wp_step]. assert (2 + nb * ls ≤ dsz) by (bprop; lia). assert (0 ≤ nb * ls) by nia. wp_step. rewrite u32_id by lia.
      destruct (byte_at_lt d (dsz - (2 + nb * ls))) as (b & -> & _); [lia|]. apply wp_ret. by wp_step.
    + intros b s [-> Hb]. wp_step; [|left; done]. specialize (Hb H0). assert (0 ≤ nb * ls) by nia. wp_step. rewrite u32_id, s32_id by lia.
      eapply wp_mono; [apply (read_sizes_wp d ls nb _ dsz); [done|lia|lia|done|lia|done|done]| |].
      * intros total s Hs. wp_step. left. split; [done|]. destruct Hs. split; cbn; auto; lia.
      * intros e s ->. by right.
    + done.
  - unfold split_single. do 4 wp_step. wp_step. change (aset _ 0 _) with (aset (replicate 8 0) 0 (s32 dsz)). rewrite s32_id by lia. apply wp_ret.
    wp_step. left. split; [done|]. split; cbn -[s32]; auto; [repeat constructor; lia|lia|apply prefix_of_cases|lia].
Qed.

(** A header that was reported as parsed describes a frame. *)
Definition ps_ok (ps : vp9_param_sets) : Prop :=
  ctx_ok (ctx ps) ∧ (head_parsed ps = true → ∃ c0, ctx_ok c0 ∧ accepted c0 (ctx ps)).

Lemma zoom_ctx_wp (U : Prop) (m : M VP9Context (Z * option Z)) Q E ps :
  wp U m (fun r c => Q r (ps <| ctx := c |>)) (fun e c => E e (ps <| ctx := c |>)) (ctx ps) →
  wp U (zoom ctx (fun c ps => ps <| ctx := c |>) m) Q E ps.
Proof. unfold wp, zoom. by destruct (m (ctx ps)). Qed.

Lemma frames_loop_wp d dsz n : ∀ s i ref ret ps, split_ok dsz s → dsz + 35 ≤ zlen d → 8 * zlen d < 2 ^ 31 →
  0 ≤ i → i + Z.of_nat n ≤ 8 → ctx_ok (ctx ps) → head_parsed ps = false → ret = 0 ∨ ret = -1 → ref < 0 →
  wp False (frames_loop d s n i ref ret) (fun r ps' => (r = 0 ∨ r = -1) ∧ ps_ok ps') (fun _ _ => False) ps.
Proof.
  induction n as [|n IH]; intros s i ref ret ps Hs Hd Hb Hi Hn Hok Hh Hret Href; cbn [frames_loop].
  - wp_step. split; [done|]. split; [done|congruence].
  - wp_step. destruct (aget_Some (sizes s) i) as [sz Hsz]; [destruct Hs; lia|]. rewrite Hsz. apply wp_ret. cbv zeta. wp_step.
    assert (0 ≤ sz ≤ dsz) as Hszr.
    { destruct Hs. apply aget_inv in Hsz as (_ & Hl). rewrite Forall_lookup in sp_sizes0. by eapply sp_sizes0. }
    apply zoom_ctx_wp. eapply wp_mono; [apply (decode_frame_header_wp False); [done|right]| |done].
    { destruct Hs. unfold zlen in *. rewrite length_drop. destruct sp_prefix0; lia. }
    intros [r o] c (Hc & Hr & Hacc); cbn [fst snd] in *. wp_step; bprop.
    + wp_step. wp_step. wp_step. split; [by left|]. split; [done|]. cbn. intros Hp. destruct o as [j|]; [destruct (Hacc H); cbn in Hp; bprop; lia|].
      exists (ctx ps). split; [done|]. by apply Hacc.
    + apply IH; [|done|done|lia|lia|done|done|by destruct Hr as [?|[? _]]; auto|].
      * destruct Hs. split; cbn; auto. rewrite u32_add_l. replace (sz - prefix_size s + prefix_size s) with sz by lia.
        unfold zlen in *. rewrite u32_id; lia.
      * destruct Hr as [?|[_ ->]]; [done|exact Href].
Qed.

(** C27: The entry point stays inside its buffer and always returns: with at least
    one byte of data, 35 bytes of memory behind it and a well-formed context it
    returns 0, -1 or -EINVAL, the context stays well-formed, and when it
    reports a parsed header the context describes a key frame or an
    intra-only frame with a size, a depth and a pixel format. *)
Theorem vp9_extradata_safe d dsz ps :
  1 ≤ dsz < 2 ^ 31 → dsz + 35 ≤ zlen d → 8 * zlen d < 2 ^ 31 → ctx_ok (ctx ps) → head_parsed ps = false →
  ∃ ret ps', vp9_decode_extradata_ps d dsz ps = Ok ret ps' ∧ (ret = 0 ∨ ret = -1 ∨ ret = - EINVAL) ∧ ps_ok ps'.
Proof.
  intros Hd Hz Hb Hok Hh. unfold vp9_decode_extradata_ps. rewrite u32_id by lia.
  change (zero_split <| data := Some d |> <| data_size := dsz |>) with (split_in d dsz).
  pose proof (split_filter_wp d dsz ltac:(lia) Hd ltac:(lia)) as Hf. unfold wp in Hf.
  destruct (vp9_superframe_split_filter (split_in d dsz)) as [r s| |]; [|done..].
  destruct Hf as [[-> Hs]| ->].
  - cbn [truth Z.eqb negb].
    assert (wp False (frames_loop d s (Z.to_nat (nb_frames s)) 0 (-1) 0) (fun r ps' => (r = 0 ∨ r = -1) ∧ ps_ok ps') (fun _ _ => False) ps) as Hl.
    { apply (frames_loop_wp d dsz); [done..|lia| |done|done|by left|lia]. destruct Hs. lia. }
    unfold wp in Hl. destruct (frames_loop _ _ _ _ _ _ ps) as [r ps'| |]; [|done..]. exists r, ps'. split; [done|].
    destruct Hl as [[-> | ->] ?]; auto.
  - cbn. exists (- EINVAL), ps. split; [done|]. split; [by right; right|]. split; [done|congruence].
Qed.

(** ** Concrete streams *)

Definition ps0 : vp9_param_sets := mk_vp9_ps false zero_vp9.

(** A superframe of the sample key frame and a second one of three bytes. *)
Definition sample_second : list Z := [134; 0; 64].

Definition sample_key_data : list Z := take 13 sample_key_bytes.

Definition sample_superframe : list Z := superframe 1 [sample_key_data; sample_second].

Lemma sample_lens : lens_ok 1 (map zlen [sample_key_data; sample_second]).
Proof. split; [lia|]. split; [cbn; lia|]. do 2 (constructor; [split; [split; [vm_compute; discriminate|vm_compute; reflexivity]|vm_compute; reflexivity]|]). constructor. Qed.

Lemma superframe_index_roundtrip_witness :
  vp9_superframe_split_filter (split_in (superframe 1 [sample_key_data; sample_second] ++ []) 20) =
  Ok 0 (mk_split (Some (superframe 1 [sample_key_data; sample_second] ++ [])) 20 2 16 0 0 0 [13; 3; 0; 0; 0; 0; 0; 0]).
Proof. apply (superframe_index_roundtrip 1 [sample_key_data; sample_second] []); [apply sample_lens|vm_compute; done..]. Defined.

Lemma extradata_superframe_witness :
  vp9_decode_extradata_ps (superframe 1 (sample_key_data :: [sample_second]) ++ replicate 35 0) 20 ps0 =
  Ok 0 (mk_vp9_ps true (frame_result 2 sample_key_frame zero_vp9).2).
Proof.
  apply (extradata_superframe 1 sample_key_data [sample_second] (replicate 35 0) 2 sample_key_frame ps0);
    [apply sample_lens|vm_compute; reflexivity|vm_compute; split; [discriminate|reflexivity]|apply sample_key_ok|reflexivity|apply zero_vp9_ok|
     exists (drop 102 (bytes_bits sample_key_data)); vm_compute; reflexivity|vm_compute; discriminate..].
Defined.

Lemma extradata_frame_witness :
  vp9_decode_extradata_ps sample_key_bytes 13 ps0 = Ok 0 (mk_vp9_ps true (frame_result 2 sample_key_frame zero_vp9).2).
Proof.
  apply (extradata_frame sample_key_bytes 13 60 2 sample_key_frame ps0);
    [reflexivity|discriminate|vm_compute; reflexivity|vm_compute; split; [discriminate|reflexivity]|lia|apply sample_key_ok|reflexivity|apply zero_vp9_ok|
     apply sample_key_prefix|vm_compute; discriminate..].
Defined.

Lemma vp9_extradata_safe_witness :
  ∃ ret ps', vp9_decode_extradata_ps (sample_key_bytes ++ replicate 20 0) 13 ps0 = Ok ret ps' ∧
    (ret = 0 ∨ ret = -1 ∨ ret = - EINVAL) ∧ ps_ok ps'.
Proof. apply (vp9_extradata_safe (sample_key_bytes ++ replicate 20 0) 13 ps0); [lia|vm_compute; discriminate|vm_compute; reflexivity|apply zero_vp9_ok|reflexivity]. Defined.

(** An inter frame, whose header alone tells no size. *)
Definition sample_inter : list Z := [134; 0; 64; 32; 0; 0].

(** The position of a frame is the size of the one before it, not the sum of
    the sizes of all before it: behind one inter frame a key frame is found,
    behind two it is not. *)
Lemma third_frame_misplaced :
  (∃ ps, vp9_decode_extradata_ps (superframe 1 [sample_inter; sample_key_data] ++ replicate 35 0) 23 ps0 = Ok 0 ps ∧ head_parsed ps = true) ∧
  (∃ ps, vp9_decode_extradata_ps (superframe 1 [sample_inter; sample_inter; sample_key_data] ++ replicate 35 0) 30 ps0 = Ok (-1) ps ∧ head_parsed ps = false).
Proof. split; eexists; split; vm_compute; reflexivity. Qed.

(** A last byte that looks like a marker without an index in front of it: no
    frame is looked at and the result is success. *)
Lemma marker_without_index :
  vp9_decode_extradata_ps (take 12 sample_key_bytes ++ [0xc0] ++ replicate 35 0) 13 ps0 = Ok 0 ps0.
Proof. vm_compute. reflexivity. Qed.

(** A buffer shorter than the prefix test: the word at offset 12 is read
    before the size is looked at. *)
Lemma short_buffer_overread : vp9_decode_extradata_ps [146; 73; 131; 66] 4 ps0 = Undef.
Proof. vm_compute. reflexivity. Qed.

(** [parse_stream_cpu] hands the result of the parser on; whether a header was
    parsed makes no difference, because the statement that would turn a
    missing header into -1 has become the body of [if (ps->head_parsed)]. *)
Theorem parse_stream_cpu_ignores_head buf sz ret ps :
  vp9_decode_extradata_ps buf (s32 sz) ps0 = Ok ret ps → parse_stream_cpu true buf sz = Some ret.
Proof.
  intros He. unfold parse_stream_cpu. cbn [negb]. unfold ps0 in He. rewrite He. destruct (truth ret) eqn:Ht; [done|].
  unfold truth in Ht. bprop. subst ret. by destruct (head_parsed ps).
Qed.

(** A frame that repeats another passes for a key frame. *)
Lemma parse_stream_cpu_ignores_head_witness :
  head_parsed (mk_vp9_ps false (zero_vp9 <| h := (h zero_vp9) <| profile := 0 |> |>)) = false ∧
  parse_stream_cpu true ([136] ++ replicate 40 0) 4 = Some 0.
Proof.
  split; [reflexivity|].
  apply (parse_stream_cpu_ignores_head ([136] ++ replicate 40 0) 4 0 (mk_vp9_ps false (zero_vp9 <| h := (h zero_vp9) <| profile := 0 |> |>))).
  vm_compute. reflexivity.
Defined.
