(* ===== verification/SwdmxCrc32.v ===== *)
(** CRC-32 of MPEG-2 sections
    (src/drivers/stream_input/t5d_demux/sw_demux/swdmx_crc32.c).

    The state is the static table of the C file, filled on first use. *)

From stdpp Require Import base list numbers.
From Stdlib Require Import ZArith Lia Bool.
From S2P Require Import Prelude.

#[local] Open Scope Z_scope.

Definition POLY : Z := 79764919. (* 0x04c11db7 *)

(** The static [crc32_table]. *)
Definition Crc A := M (list Z) A.

#[export] Instance Crc_ret : MRet Crc := M_ret (list Z).
#[export] Instance Crc_bind : MBind Crc := M_bind (list Z).

(** [static u32 crc32_table[256];] before the first use. *)
Definition crc32_table : list Z := replicate 256 0.

(** [for (j = ...; j != 0x80000000; j <<= 1) k = ...]; 9 tests are enough:
    the marker bit 0x800000 reaches the top after 8 shifts. *)
Fixpoint crc32_bits (fuel : nat) (j k : Z) : option Z :=
  match fuel with
  | O => None
  | S n =>
      if j =? 2 ^ 31 then Some k
      else crc32_bits n (u32 (Z.shiftl j 1))
             (Z.lxor (u32 (Z.shiftl k 1)) (if truth (Z.land (Z.lxor k j) (2 ^ 31)) then POLY else 0))
  end.

Definition crc32_entry (i : Z) : option Z :=
  crc32_bits 9 (Z.lor (u32 (Z.shiftl i 24)) 8388608) 0.

Definition crc32_table_init : Crc unit :=
  for_range 0 256 (fun i =>
    k ← of_option (crc32_entry i);
    t ← get;
    t' ← of_option (aset t i k);
    modify (fun _ => t')).

(** [u32 swdmx_crc32(const u8 *p, int len)] *)
Definition swdmx_crc32 (p : list Z) (len : Z) : Crc Z :=
  t1 ← gets (fun t => aget t 1);
  t1 ← of_option t1;
  when (t1 =? 0) crc32_table_init;;
  when (len <? 0) undef;;
  fold_range 0 len (fun i i_crc =>
    b ← of_option (aget p i);
    t ← get;
    e ← of_option (aget t (Z.lxor (Z.shiftr i_crc 24) b));
    mret (Z.lxor (u32 (Z.shiftl i_crc 8)) e)) (u32 4294967295).

(** ** The reference: the remainder, bit by bit *)

Definition crc_bit (c : Z) : Z :=
  Z.lxor (u32 (Z.shiftl c 1)) (if Z.testbit c 31 then POLY else 0).

Definition crc_bits (n : nat) (c : Z) : Z := Nat.iter n crc_bit c.

(** One more byte of the message. *)
Definition crc_byte (c b : Z) : Z := crc_bits 8 (Z.lxor c (Z.shiftl b 24)).

Definition crc32_of (c : Z) (l : list Z) : Z := foldl crc_byte c l.

(** The CRC as a section transmits it, high byte first. *)
Definition be32 (c : Z) : list Z :=
  [Z.shiftr c 24; u8 (Z.shiftr c 16); u8 (Z.shiftr c 8); u8 c].

(** ** Linearity *)

Definition is_u32 (c : Z) : Prop := 0 ≤ c < 2 ^ 32.

Lemma u32_bit x n : 0 ≤ n → Z.testbit (u32 x) n = (n <? 32) && Z.testbit x n.
Proof.
  intros Hn. unfold u32. destruct (Z.ltb_spec n 32).
  - by rewrite Z.mod_pow2_bits_low by lia.
  - by rewrite Z.mod_pow2_bits_high by lia.
Qed.

Lemma u32_lxor_distr x y : u32 (Z.lxor x y) = Z.lxor (u32 x) (u32 y).
Proof.
  apply Z.bits_inj'. intros n Hn. rewrite Z.lxor_spec, !u32_bit, Z.lxor_spec by done.
  by destruct (n <? 32).
Qed.

Lemma is_u32_lxor x y : is_u32 x → is_u32 y → is_u32 (Z.lxor x y).
Proof.
  unfold is_u32. intros Hx Hy. rewrite <- (u32_id x), <- (u32_id y), <- u32_lxor_distr by done.
  apply u32_range.
Qed.

Lemma crc_bit_range c : is_u32 (crc_bit c).
Proof.
  apply is_u32_lxor; [apply u32_range|]. destruct (Z.testbit c 31); unfold is_u32, POLY; lia.
Qed.

Lemma crc_bit_lxor x y : crc_bit (Z.lxor x y) = Z.lxor (crc_bit x) (crc_bit y).
Proof.
  unfold crc_bit. rewrite Z.shiftl_lxor, u32_lxor_distr, Z.lxor_spec.
  set (a := u32 (Z.shiftl x 1)). set (b := u32 (Z.shiftl y 1)).
  apply Z.bits_inj'. intros n Hn. rewrite !Z.lxor_spec.
  destruct (Z.testbit x 31), (Z.testbit y 31); cbn [xorb]; rewrite ?Z.bits_0;
    destruct (Z.testbit a n), (Z.testbit b n), (Z.testbit POLY n); done.
Qed.

Lemma crc_bit_inj x y : is_u32 x → is_u32 y → crc_bit x = crc_bit y → x = y.
Proof.
  intros Hx Hy He.
  assert (crc_bit (Z.lxor x y) = 0) as Hz by (rewrite crc_bit_lxor, He; apply Z.lxor_nilpotent).
  pose proof (is_u32_lxor x y Hx Hy) as Hr. apply Z.lxor_eq. revert Hz Hr.
  generalize (Z.lxor x y). intros z Hz Hr. unfold crc_bit in Hz. apply Z.lxor_eq in Hz.
  destruct (Z.testbit z 31) eqn:Hb.
  - exfalso. assert (Z.testbit (u32 (Z.shiftl z 1)) 0 = Z.testbit POLY 0) as H by (by rewrite Hz).
    rewrite u32_bit, Z.shiftl_spec_low in H by lia. done.
  - apply Z.bits_inj'. intros n Hn. rewrite Z.bits_0. destruct (Z.ltb_spec n 31).
    + assert (Z.testbit (u32 (Z.shiftl z 1)) (n + 1) = Z.testbit 0 (n + 1)) as H' by (by rewrite Hz).
      rewrite u32_bit, Z.bits_0, Z.shiftl_spec in H' by lia.
      rewrite (proj2 (Z.ltb_lt _ _)) in H' by lia. cbn in H'. by replace (n + 1 - 1) with n in H' by lia.
    + destruct (Z.eq_dec n 31) as [->|]; [done|]. unfold is_u32 in Hr.
      destruct (Z.eq_dec z 0) as [->|]; [apply Z.bits_0|]. apply Z.bits_above_log2; [lia|].
      assert (Z.log2 z < 32) by (apply Z.log2_lt_pow2; lia). lia.
Qed.

Lemma crc_bits_S n c : crc_bits (S n) c = crc_bit (crc_bits n c).
Proof. done. Qed.

Lemma crc_bits_range n c : is_u32 c → is_u32 (crc_bits n c).
Proof. destruct n; [done|]. intros _. rewrite crc_bits_S. apply crc_bit_range. Qed.

Lemma crc_bits_lxor n x y : crc_bits n (Z.lxor x y) = Z.lxor (crc_bits n x) (crc_bits n y).
Proof. induction n as [|n IH]; [done|]. by rewrite !crc_bits_S, IH, crc_bit_lxor. Qed.

Lemma crc_bits_inj n x y : is_u32 x → is_u32 y → crc_bits n x = crc_bits n y → x = y.
Proof.
  intros Hx Hy. induction n as [|n IH]; [done|]. rewrite !crc_bits_S. intros He.
  apply IH. apply crc_bit_inj in He; auto using crc_bits_range.
Qed.

Lemma crc_bits_add n m c : crc_bits n (crc_bits m c) = crc_bits (n + m) c.
Proof. unfold crc_bits. by rewrite Nat.iter_add. Qed.

(** A value without high bits is only shifted. *)
Lemma crc_bits_low n c : 0 ≤ c < 2 ^ (32 - Z.of_nat n) → (n ≤ 32)%nat →
  crc_bits n c = Z.shiftl c (Z.of_nat n).
Proof.
  intros Hc Hn. induction n as [|n IH].
  - by rewrite Z.shiftl_0_r.
  - rewrite crc_bits_S, IH; [|split; [lia|]|lia].
    2: { eapply Z.lt_le_trans; [apply Hc|]. apply Z.pow_le_mono_r; lia. }
    assert (c * 2 ^ Z.of_nat (S n) < 2 ^ 32).
    { replace (2 ^ 32) with (2 ^ (32 - Z.of_nat (S n)) * 2 ^ Z.of_nat (S n)).
      - apply Z.mul_lt_mono_pos_r; [apply Z.pow_pos_nonneg|]; lia.
      - rewrite <- Z.pow_add_r by lia. f_equal. lia. }
    unfold crc_bit. rewrite Z.shiftl_shiftl by lia.
    replace (Z.of_nat n + 1) with (Z.of_nat (S n)) by lia. rewrite u32_id.
    2: { rewrite Z.shiftl_mul_pow2 by lia. lia. }
    assert (Z.testbit (Z.shiftl c (Z.of_nat n)) 31 = false) as ->; [|apply Z.lxor_0_r].
    rewrite Z.shiftl_spec by lia. destruct (Z.eq_dec c 0) as [->|]; [apply Z.bits_0|].
    apply Z.bits_above_log2; [lia|]. apply Z.log2_lt_pow2; [lia|].
    eapply Z.lt_le_trans; [apply Hc|]. apply Z.pow_le_mono_r; lia.
Qed.

(** ** The table *)

(** The table after its initialisation: the remainders of the bytes. *)
Definition crc_table : list Z := Eval vm_compute in (λ i, crc_bits 8 (Z.shiftl i 24)) <$> seqZ 0 256.

(** The values of the static table: zeros, then the table for good. *)
Definition table_ok (t : list Z) : Prop := t = crc32_table ∨ t = crc_table.

Lemma crc32_table_init_ok : crc32_table_init crc32_table = Ok tt crc_table.
Proof. by vm_compute. Qed.

Lemma crc_table_lookup x : 0 ≤ x < 256 → aget crc_table x = Some (crc_bits 8 (Z.shiftl x 24)).
Proof.
  intros Hx. assert (crc_table = (λ i, crc_bits 8 (Z.shiftl i 24)) <$> seqZ 0 256) as -> by (by vm_compute).
  unfold aget. rewrite (proj2 (Z.leb_le _ _)) by lia. rewrite list_lookup_fmap.
  rewrite lookup_seqZ_lt by lia. cbn. repeat f_equal. lia.
Qed.

Lemma split_high c : c = Z.lxor (Z.shiftl (Z.shiftr c 24) 24) (c mod 2 ^ 24).
Proof.
  apply Z.bits_inj'. intros n Hn. rewrite Z.lxor_spec. destruct (Z.ltb_spec n 24).
  - rewrite Z.shiftl_spec_low, Z.mod_pow2_bits_low by lia. done.
  - rewrite Z.shiftl_spec, Z.shiftr_spec, Z.mod_pow2_bits_high by lia.
    rewrite xorb_false_r. f_equal. lia.
Qed.

(** The step of the table-driven loop is eight steps of the division. *)
Lemma crc_byte_table c b : is_u32 c → 0 ≤ b < 256 →
  crc_byte c b =
    Z.lxor (u32 (Z.shiftl c 8)) (crc_bits 8 (Z.shiftl (Z.lxor (Z.shiftr c 24) b) 24)).
Proof.
  intros Hc Hb. unfold crc_byte. rewrite (split_high c) at 1.
  rewrite Z.lxor_assoc, (Z.lxor_comm (c mod _)), <- Z.lxor_assoc, <- Z.shiftl_lxor, crc_bits_lxor.
  rewrite (crc_bits_low 8 (c mod 2 ^ 24)).
  - rewrite Z.lxor_comm. f_equal. unfold u32. by rewrite shiftl_mod_pow2 by lia;
      rewrite Z.shiftl_mul_pow2 by lia.
  - apply Z.mod_pos_bound. lia.
  - lia.
Qed.

Lemma index_range c b : is_u32 c → 0 ≤ b < 256 → 0 ≤ Z.lxor (Z.shiftr c 24) b < 256.
Proof.
  unfold is_u32. intros Hc Hb.
  assert (0 ≤ Z.shiftr c 24 < 256) by (rewrite Z.shiftr_div_pow2 by lia; split;
    [apply Z.div_pos; lia|apply Z.div_lt_upper_bound; lia]).
  rewrite <- (u8_id (Z.shiftr c 24)), <- (u8_id b) by lia. unfold u8.
  rewrite <- mod_pow2_lxor by lia. apply Z.mod_pos_bound. lia.
Qed.

Lemma crc_byte_range c b : is_u32 c → 0 ≤ b < 256 → is_u32 (crc_byte c b).
Proof.
  intros Hc Hb. unfold crc_byte. apply crc_bits_range, is_u32_lxor; [done|].
  unfold is_u32. rewrite Z.shiftl_mul_pow2 by lia. lia.
Qed.

Definition byte_ok (b : Z) : Prop := 0 ≤ b < 256.

Lemma crc32_of_range l c : is_u32 c → Forall byte_ok l → is_u32 (crc32_of c l).
Proof.
  intros Hc Hl. revert c Hc. induction Hl as [|b l Hb Hl IH]; intros c Hc; [done|].
  apply IH. by apply crc_byte_range.
Qed.

Lemma crc32_of_app c l k : crc32_of c (l ++ k) = crc32_of (crc32_of c l) k.
Proof. apply foldl_app. Qed.

(** What [swdmx_crc32] computes, for the clients. *)
Lemma swdmx_crc32_ok p len t : table_ok t → Forall byte_ok p → 0 ≤ len ≤ zlen p →
  swdmx_crc32 p len t = Ok (crc32_of (2 ^ 32 - 1) (take (Z.to_nat len) p)) crc_table.
Proof.
  intros Ht Hp Hlen.
  assert (wp False (swdmx_crc32 p len)
    (fun c t' => t' = crc_table ∧ c = crc32_of (2 ^ 32 - 1) (take (Z.to_nat len) p))
    (fun _ _ => False) t) as Hwp.
  { unfold swdmx_crc32. wp_step. wp_step. wp_step. wp_step. 2: { destruct Ht as [-> | ->]; done. }
    wp_step.
    assert (wp False (when (a =? 0) crc32_table_init) (fun _ t' => t' = crc_table) (fun _ _ => False) t) as Hi.
    { destruct Ht as [-> | ->].
      - replace a with 0 by (vm_compute in H; congruence). cbn [when Z.eqb]. unfold wp. by rewrite crc32_table_init_ok.
      - replace a with POLY by (vm_compute in H; unfold POLY; congruence). done. }
    eapply wp_mono; [exact Hi| |done]. intros [] t' ->. wp_step. wp_step; bprop; [lia|].
    apply (wp_fold_range _ _ _ (fun i c t' => t' = crc_table ∧ is_u32 c ∧
      c = crc32_of (2 ^ 32 - 1) (take (Z.to_nat i) p))).
    - split; [done|]. split; [apply u32_range|]. done.
    - intros i c t' Hi' (-> & Hc & Hv). wp_step. wp_step. 2: { apply aget_None in H1. lia. }
      apply aget_inv in H1 as [Hi2 Hb]. pose proof (proj1 (Forall_lookup _ _) Hp _ _ Hb) as Hbr.
      wp_step. wp_step. wp_step. pose proof (index_range c a0 Hc Hbr) as Hix.
      rewrite (crc_table_lookup _ Hix). cbn [of_option]. wp_step. wp_step.
      rewrite <- crc_byte_table by done. split; [done|]. split; [by apply crc_byte_range|].
      replace (Z.to_nat (i + 1)) with (S (Z.to_nat i)) by lia.
      rewrite (take_S_r _ _ _ Hb), crc32_of_app, <- Hv. unfold crc32_of at 1. cbn [foldl]. reflexivity.
    - intros c t' (-> & _ & ->). split; [done|]. by replace (Z.max 0 len) with len by lia. }
  unfold wp in Hwp. destruct (swdmx_crc32 p len t) as [c t'| |]; [|done..]. by destruct Hwp as [-> ->].
Qed.

(** ** Residue and error detection *)

Lemma crc32_of_be32 c : is_u32 c → crc32_of c (be32 c) = 0.
Proof.
  intros Hc. unfold crc32_of, be32. cbn [foldl].
  assert (∀ k x, is_u32 x → u8 (Z.shiftr c (24 - 8 * k)) = Z.shiftr x 24 → 0 ≤ k →
    crc_byte x (u8 (Z.shiftr c (24 - 8 * k))) = u32 (Z.shiftl x 8)) as Hstep.
  { intros k x Hx He Hk. rewrite crc_byte_table by (auto; apply u8_range). rewrite He, Z.lxor_nilpotent.
    apply Z.lxor_0_r. }
  assert (∀ n, 0 ≤ n → u8 (Z.shiftr c (24 - n)) = Z.shiftr (u32 (Z.shiftl c n)) 24 ∨ 24 < n) as Hb.
  { intros n Hn. destruct (Z.ltb_spec 24 n); [by right|left]. apply Z.bits_inj'. intros i Hi.
    unfold u8. rewrite Z.shiftr_spec, u32_bit by lia. destruct (Z.ltb_spec i 8).
    - rewrite Z.mod_pow2_bits_low, Z.shiftr_spec, Z.shiftl_spec by lia.
      rewrite (proj2 (Z.ltb_lt _ _)) by lia. cbn. f_equal. lia.
    - rewrite Z.mod_pow2_bits_high by lia. rewrite (proj2 (Z.ltb_ge _ _)) by lia. done. }
  assert (∀ n, 0 ≤ n → u32 (Z.shiftl (u32 (Z.shiftl c n)) 8) = u32 (Z.shiftl c (n + 8))) as Hsh.
  { intros n Hn. apply Z.bits_inj'. intros i Hi. rewrite !u32_bit by lia. destruct (Z.ltb_spec i 32); [|done].
    cbn. destruct (Z.ltb_spec i 8); [by rewrite !Z.shiftl_spec_low by lia|].
    rewrite Z.shiftl_spec, u32_bit, !Z.shiftl_spec by lia. rewrite (proj2 (Z.ltb_lt _ _)) by lia. cbn. f_equal. lia. }
  assert (Z.shiftr c 24 = u8 (Z.shiftr c (24 - 8 * 0))) as ->.
  { change (24 - 8 * 0) with 24. unfold is_u32 in Hc. symmetry. apply u8_id.
    rewrite Z.shiftr_div_pow2 by lia. split; [apply Z.div_pos; lia|apply Z.div_lt_upper_bound; lia]. }
  assert (c = u32 (Z.shiftl c 0)) as Hc0 by (rewrite Z.shiftl_0_r; symmetry; by apply u32_id).
  change (Z.shiftr c 16) with (Z.shiftr c (24 - 8 * 1)). change (Z.shiftr c 8) with (Z.shiftr c (24 - 8 * 2)).
  replace (u8 c) with (u8 (Z.shiftr c (24 - 8 * 3))) by (change (24 - 8 * 3) with 0; by rewrite Z.shiftr_0_r).
  rewrite (Hstep 0 c) by first [done|lia|destruct (Hb 0 ltac:(lia)) as [H0|]; [rewrite <- Hc0 in H0; exact H0|lia]].
  rewrite (Hstep 1) by first [apply u32_range|lia|destruct (Hb 8 ltac:(lia)); [done|lia]].
  rewrite Hsh by lia.
  rewrite (Hstep 2) by first [apply u32_range|lia|destruct (Hb 16 ltac:(lia)); [done|lia]].
  rewrite Hsh by lia.
  rewrite (Hstep 3) by first [apply u32_range|lia|destruct (Hb 24 ltac:(lia)); [done|lia]].
  rewrite Hsh by lia. unfold u32. rewrite shiftl_mod_pow2 by lia. by rewrite Z.mod_1_r.
Qed.

(** C34: [swdmx_crc32] computes the CRC-32/MPEG-2 remainder bit by bit
    defined above, whether or not the static table has been initialised
    before, and a message followed by its CRC, high byte first, has CRC 0:
    the test of [sec_data]. *)
Theorem swdmx_crc32_spec p t :
  table_ok t → Forall byte_ok p →
  let c := crc32_of (2 ^ 32 - 1) p in
  swdmx_crc32 p (zlen p) t = Ok c crc_table ∧
  swdmx_crc32 (p ++ be32 c) (zlen p + 4) t = Ok 0 crc_table.
Proof.
  intros Ht Hp c. assert (is_u32 c) as Hc by (apply crc32_of_range; [done|done]).
  assert (∀ q, Forall byte_ok q → swdmx_crc32 q (zlen q) t = Ok (crc32_of (2 ^ 32 - 1) q) crc_table) as H.
  { intros q Hq. rewrite swdmx_crc32_ok; [|done|done|unfold zlen; lia].
    rewrite take_ge by (unfold zlen; lia). done. }
  split; [by apply H|].
  replace (zlen p + 4) with (zlen (p ++ be32 c)) by (rewrite zlen_app; reflexivity). rewrite H.
  - rewrite crc32_of_app. fold c. by rewrite crc32_of_be32.
  - apply Forall_app. split; [done|]. unfold be32, byte_ok, is_u32 in *.
    repeat constructor; try apply u8_range.
    + rewrite Z.shiftr_div_pow2 by lia. apply Z.div_pos; lia.
    + rewrite Z.shiftr_div_pow2 by lia. apply Z.div_lt_upper_bound; lia.
Qed.

Lemma swdmx_crc32_spec_witness :
  let c := crc32_of (2 ^ 32 - 1) [0; 176; 13; 0; 1; 193; 0; 0; 0; 1; 224; 33] in
  swdmx_crc32 [0; 176; 13; 0; 1; 193; 0; 0; 0; 1; 224; 33] 12 crc32_table = Ok c crc_table ∧
  swdmx_crc32 ([0; 176; 13; 0; 1; 193; 0; 0; 0; 1; 224; 33] ++ be32 c) 16 crc32_table = Ok 0 crc_table.
Proof.
  apply (swdmx_crc32_spec [0; 176; 13; 0; 1; 193; 0; 0; 0; 1; 224; 33] crc32_table);
    [by left|repeat constructor; by cbv].
Defined.

(** Big-endian value of up to four bytes at the top of the register. *)
Fixpoint be_top (l : list Z) (k : Z) : Z :=
  match l with
  | [] => 0
  | b :: l => Z.lxor (Z.shiftl b (24 - 8 * k)) (be_top l (k + 1))
  end.

Lemma shl_range b k : 0 ≤ b < 256 → 0 ≤ k → 8 * k ≤ 24 → 0 ≤ Z.shiftl b (24 - 8 * k) < 2 ^ (32 - 8 * k).
Proof.
  intros Hb Hk Hk2. rewrite Z.shiftl_mul_pow2 by lia.
  replace (32 - 8 * k) with (8 + (24 - 8 * k)) by lia. rewrite Z.pow_add_r by lia.
  pose proof (Z.pow_pos_nonneg 2 (24 - 8 * k)). nia.
Qed.

Lemma be_top_range l k : Forall byte_ok l → 0 ≤ k → k + zlen l ≤ 4 → 0 ≤ be_top l k < 2 ^ (32 - 8 * k).
Proof.
  revert k. induction l as [|b l IH]; intros k Hl Hk Hn; cbn [be_top].
  - pose proof (Z.pow_pos_nonneg 2 (32 - 8 * k)). unfold zlen in Hn. cbn in Hn. lia.
  - apply Forall_cons_1 in Hl as [Hb Hl]. unfold zlen in Hn. cbn [length] in Hn.
    specialize (IH (k + 1) Hl). unfold zlen in IH. apply lxor_range; [lia|apply shl_range; [done|lia..]|].
    split; [lia|]. eapply Z.lt_le_trans; [apply IH; lia|]. apply Z.pow_le_mono_r; lia.
Qed.

(** Processing up to four bytes is one linear, injective map. *)
Lemma crc32_of_block l c k : is_u32 c → Forall byte_ok l → 0 ≤ k → k + zlen l ≤ 4 →
  crc32_of (crc_bits (Z.to_nat (8 * k)) c) l =
    crc_bits (Z.to_nat (8 * (k + zlen l))) (Z.lxor c (be_top l k)).
Proof.
  revert c k. induction l as [|b l IH]; intros c k Hc Hl Hk Hn.
  - cbn. unfold zlen. cbn. rewrite Z.lxor_0_r. do 2 f_equal. lia.
  - apply Forall_cons_1 in Hl as [Hb Hl]. unfold zlen in Hn. cbn [length] in Hn.
    assert (zlen (b :: l) = zlen l + 1) as Hz by (unfold zlen; cbn; lia).
    pose proof (shl_range b k Hb Hk ltac:(lia)) as Hs.
    assert (crc_byte (crc_bits (Z.to_nat (8 * k)) c) b =
      crc_bits (Z.to_nat (8 * (k + 1))) (Z.lxor c (Z.shiftl b (24 - 8 * k)))) as Hstep.
    { unfold crc_byte. replace (Z.to_nat (8 * (k + 1))) with (8 + Z.to_nat (8 * k))%nat by lia.
      rewrite <- crc_bits_add. f_equal. rewrite crc_bits_lxor. f_equal. rewrite crc_bits_low.
      - rewrite Z.shiftl_shiftl by lia. f_equal. lia.
      - split; [apply Hs|]. eapply Z.lt_le_trans; [apply Hs|]. apply Z.pow_le_mono_r; lia.
      - lia. }
    unfold crc32_of in *. cbn [foldl]. rewrite Hstep, IH; [|apply is_u32_lxor; [done|]|done|lia|unfold zlen; lia].
    + cbn [be_top]. rewrite Z.lxor_assoc, Hz. do 2 f_equal. lia.
    + unfold is_u32. split; [lia|]. eapply Z.lt_le_trans; [apply Hs|]. apply Z.pow_le_mono_r; lia.
Qed.

Lemma be_top_inj l l' k : Forall byte_ok l → Forall byte_ok l' → length l = length l' →
  0 ≤ k → k + zlen l ≤ 4 → be_top l k = be_top l' k → l = l'.
Proof.
  revert l' k. induction l as [|b l IH]; intros [|b' l'] k Hl Hl' Hlen Hk Hn He; try done.
  apply Forall_cons_1 in Hl as [Hb Hl]. apply Forall_cons_1 in Hl' as [Hb' Hl'].
  cbn [length] in Hlen. injection Hlen as Hlen. unfold zlen in Hn. cbn [length] in Hn. cbn [be_top] in He.
  pose proof (be_top_range l (k + 1) Hl ltac:(lia) ltac:(unfold zlen; lia)) as Hr.
  pose proof (be_top_range l' (k + 1) Hl' ltac:(lia) ltac:(unfold zlen; lia)) as Hr'.
  replace (32 - 8 * (k + 1)) with (24 - 8 * k) in * by lia.
  assert (∀ x r, Z.shiftr (Z.lxor (Z.shiftl x (24 - 8 * k)) r) (24 - 8 * k) = Z.lxor x (Z.shiftr r (24 - 8 * k)))
    as Hsh.
  { intros x r. rewrite Z.shiftr_lxor, Z.shiftr_shiftl_l by lia. by rewrite Z.sub_diag, Z.shiftl_0_r. }
  assert (∀ r, 0 ≤ r < 2 ^ (24 - 8 * k) → Z.shiftr r (24 - 8 * k) = 0) as Hz.
  { intros r Hrr. rewrite Z.shiftr_div_pow2 by lia. by apply Z.div_small. }
  assert (b = b') as ->.
  { apply (f_equal (fun x => Z.shiftr x (24 - 8 * k))) in He. rewrite !Hsh, !Hz in He by done.
    by rewrite !Z.lxor_0_r in He. }
  f_equal. apply (IH l' (k + 1)); try done; [lia|unfold zlen; lia|].
  apply (f_equal (Z.lxor (Z.shiftl b' (24 - 8 * k)))) in He.
  by rewrite <- !Z.lxor_assoc, !Z.lxor_nilpotent, !Z.lxor_0_l in He.
Qed.

Lemma crc_byte_inj b c c' : is_u32 c → is_u32 c' → byte_ok b → crc_byte c b = crc_byte c' b → c = c'.
Proof.
  unfold crc_byte. intros Hc Hc' Hb He.
  assert (is_u32 (Z.shiftl b 24)).
  { destruct (shl_range b 0 Hb) as [H1 H2]; [lia|lia|]. by split. }
  apply crc_bits_inj in He; [|by apply is_u32_lxor..].
  apply (f_equal (fun x => Z.lxor x (Z.shiftl b 24))) in He. cbn beta in He.
  by rewrite !Z.lxor_assoc, !Z.lxor_nilpotent, !Z.lxor_0_r in He.
Qed.

Lemma crc32_of_cons c b l : crc32_of c (b :: l) = crc32_of (crc_byte c b) l.
Proof. reflexivity. Qed.

Lemma crc32_of_inj l c c' : is_u32 c → is_u32 c' → Forall byte_ok l → crc32_of c l = crc32_of c' l → c = c'.
Proof.
  intros Hc Hc' Hl. revert c c' Hc Hc'. induction Hl as [|b l Hb Hl IH]; intros c c' Hc Hc' He; [exact He|].
  rewrite !crc32_of_cons in He. apply IH in He; [|by apply crc_byte_range..].
  by apply crc_byte_inj in He.
Qed.

Lemma crc32_of_burst c l l' post : is_u32 c → Forall byte_ok l → Forall byte_ok l' → Forall byte_ok post →
  length l' = length l → (length l ≤ 4)%nat →
  crc32_of c (l' ++ post) = crc32_of c (l ++ post) → l' = l.
Proof.
  intros Hc Hl Hl' Hpost Hlen H4 He. rewrite !crc32_of_app in He.
  apply crc32_of_inj in He; [|by apply crc32_of_range..|done].
  pose proof (crc32_of_block l c 0 Hc Hl ltac:(done) ltac:(unfold zlen; lia)) as B.
  pose proof (crc32_of_block l' c 0 Hc Hl' ltac:(done) ltac:(unfold zlen; lia)) as B'.
  assert (crc_bits (Z.to_nat (8 * 0)) c = c) as E0 by reflexivity. rewrite E0 in B, B'.
  assert (zlen l' = zlen l) as Hz by (unfold zlen; congruence). rewrite Hz in B'. rewrite B, B' in He.
  assert (∀ m, Forall byte_ok m → length m = length l → is_u32 (be_top m 0)) as Hr.
  { intros m Hm Hlm. apply (be_top_range m 0 Hm); unfold zlen; lia. }
  apply crc_bits_inj in He; [|by apply is_u32_lxor; auto..].
  apply (f_equal (Z.lxor c)) in He. rewrite <- !Z.lxor_assoc, !Z.lxor_nilpotent, !Z.lxor_0_l in He.
  apply (be_top_inj l' l 0); try done; rewrite ?Hz; unfold zlen; lia.
Qed.

(** error detection: a section of which up to four consecutive bytes
    have been replaced by others never keeps its CRC; in particular a section
    that passed the test of [sec_data] no longer does. *)
Theorem swdmx_crc32_detects_burst pre l l' post t c :
  table_ok t → Forall byte_ok pre → Forall byte_ok l → Forall byte_ok l' → Forall byte_ok post →
  length l' = length l → (length l ≤ 4)%nat → l' ≠ l →
  swdmx_crc32 (pre ++ l ++ post) (zlen (pre ++ l ++ post)) t = Ok c crc_table →
  ∃ c', swdmx_crc32 (pre ++ l' ++ post) (zlen (pre ++ l ++ post)) t = Ok c' crc_table ∧ c' ≠ c.
Proof.
  intros Ht Hpre Hl Hl' Hpost Hlen H4 Hne Hc.
  assert (∀ m, Forall byte_ok m → length m = length l →
    swdmx_crc32 (pre ++ m ++ post) (zlen (pre ++ l ++ post)) t =
      Ok (crc32_of (2 ^ 32 - 1) (pre ++ m ++ post)) crc_table) as H.
  { intros m Hm Hlm. rewrite swdmx_crc32_ok; [|done|by rewrite !Forall_app|].
    - rewrite take_ge; [done|]. unfold zlen. rewrite !length_app, Hlm. lia.
    - unfold zlen. rewrite !length_app, Hlm. lia. }
  exists (crc32_of (2 ^ 32 - 1) (pre ++ l' ++ post)). split; [by apply H|].
  rewrite (H l Hl eq_refl) in Hc.
  assert (c = crc32_of (2 ^ 32 - 1) (pre ++ l ++ post)) as -> by congruence.
  rewrite !(crc32_of_app _ pre). intros He. apply Hne.
  apply (crc32_of_burst (crc32_of (2 ^ 32 - 1) pre) l l' post); try done.
  by apply crc32_of_range.
Qed.

Lemma swdmx_crc32_detects_burst_witness :
  swdmx_crc32 ([1; 2] ++ [3; 4; 5] ++ [6]) 6 crc_table = Ok (crc32_of (2 ^ 32 - 1) [1; 2; 3; 4; 5; 6]) crc_table ∧
  ∃ c', swdmx_crc32 ([1; 2] ++ [3; 4; 7] ++ [6]) 6 crc_table = Ok c' crc_table ∧
    c' ≠ crc32_of (2 ^ 32 - 1) [1; 2; 3; 4; 5; 6].
Proof.
  split; [by vm_compute|].
  apply (swdmx_crc32_detects_burst [1; 2] [3; 4; 5] [3; 4; 7] [6] crc_table);
    [by right|repeat constructor; by cbv..|done|cbn; lia|done|by vm_compute].
Defined.
