(* ===== verification/SwdmxList.v ===== *)
(** Intrusive doubly linked lists and callback lists of the software demux
    (src/drivers/stream_input/t5d_demux/sw_demux/swdemux_internal.h and
    swdmx_cb_list.c).

    The memory holds the list nodes by address, and the callback entries by
    the address of the node they start with ([ln] is the first member of
    [struct swdmx_cb_entry], so SWDMX_CONTAINEROF is the identity on
    addresses).  [lrep] is the abstraction: the nodes a list head stands
    for; the theorems show that the pointer operations are the operations on
    that list, which is how the other files of the demux model their lists. *)

From stdpp Require Import base list numbers gmap.
From Stdlib Require Import ZArith Lia Bool.
From S2P Require Import Prelude.

#[local] Open Scope Z_scope.

Record swdmx_list := mk_node { prev : Z; next : Z }.

#[export] Instance eta_swdmx_list : Settable swdmx_list := fun r => mk_node (prev r) (next r).

(** A callback function and its user data, by address. *)
Record swdmx_cb_entry := mk_cb { cb : Z; cb_data : Z }.

#[export] Instance swdmx_cb_entry_eq_dec : EqDecision swdmx_cb_entry.
Proof. solve_decision. Defined.

Record mem := mk_mem { nodes : gmap Z swdmx_list; entries : gmap Z swdmx_cb_entry }.

#[export] Instance eta_mem : Settable mem := fun r => mk_mem (nodes r) (entries r).

Definition H A := M mem A.

#[export] Instance H_ret : MRet H := M_ret mem.
#[export] Instance H_bind : MBind H := M_bind mem.

(** [n->prev], [n->next] and their assignments. *)
Definition node_at (n : Z) : H swdmx_list := m ← get; of_option (nodes m !! n).

Definition put_node (n : Z) (v : swdmx_list) : H unit :=
  modify (fun m => m <| nodes := <[n := v]> (nodes m) |>).

Definition set_prev (n v : Z) : H unit := x ← node_at n; put_node n (x <| prev := v |>).

Definition set_next (n v : Z) : H unit := x ← node_at n; put_node n (x <| next := v |>).

Definition swdmx_list_is_empty (l : Z) : H bool := x ← node_at l; mret (next x =? l).

Definition swdmx_list_init (n : Z) : H unit := set_prev n n;; set_next n n.

Definition swdmx_list_append (l n : Z) : H unit :=
  x ← node_at l; set_prev n (prev x);;
  set_next n l;;
  x ← node_at l; set_next (prev x) n;;
  set_prev l n.

Definition swdmx_list_remove (n : Z) : H unit :=
  x ← node_at n; set_next (prev x) (next x);;
  x ← node_at n; set_prev (next x) (prev x).

(** SWDMX_LIST_FOR_EACH_SAFE: the next node is read before the body, which
    tells whether to [break]. *)
Fixpoint for_each_safe (fuel : nat) (l i : Z) (body : Z → H bool) : H unit :=
  match fuel with
  | O => undef
  | S f =>
      x ← node_at i;
      if i =? l then mret tt
      else stop ← body i; if (stop : bool) then mret tt else for_each_safe f l (next x) body
  end.

Definition list_for_each_safe (fuel : nat) (l : Z) (body : Z → H bool) : H unit :=
  x ← node_at l; for_each_safe fuel l (next x) body.

(** [swdmx_malloc] of an entry at a new address; its memory holds [junk]. *)
Definition malloc_entry (ent : Z) (junk : swdmx_list) : H unit :=
  modify (fun m => m <| nodes := <[ent := junk]> (nodes m) |>
                     <| entries := <[ent := mk_cb 0 0]> (entries m) |>).

Definition free_entry (ent : Z) : H unit :=
  modify (fun m => m <| nodes := delete ent (nodes m) |> <| entries := delete ent (entries m) |>).

Definition entry_at (ent : Z) : H swdmx_cb_entry := m ← get; of_option (entries m !! ent).

(** [void swdmx_cb_list_add(l, cb, data)]; [ent] is the address of the new
    entry.  Outside the model are calls with a NULL list or function and a
    failed allocation: there [SWDMX_ASSERT] loops for ever. *)
Definition swdmx_cb_list_add (ent : Z) (junk : swdmx_list) (l c d : Z) : H unit :=
  malloc_entry ent junk;;
  modify (fun m => m <| entries := <[ent := mk_cb c d]> (entries m) |>);;
  swdmx_list_append l ent.

(** [void swdmx_cb_list_remove(l, cb, data)] *)
Definition swdmx_cb_list_remove (fuel : nat) (l c d : Z) : H unit :=
  list_for_each_safe fuel l (fun ent =>
    e ← entry_at ent;
    if (cb e =? c) && (cb_data e =? d)
    then swdmx_list_remove ent;; free_entry ent;; mret true
    else mret false).

(** [void swdmx_cb_list_clear(l)] *)
Definition swdmx_cb_list_clear (fuel : nat) (l : Z) : H unit :=
  list_for_each_safe fuel l (fun ent => swdmx_list_remove ent;; free_entry ent;; mret false);;
  swdmx_list_init l.

(** ** The list a head stands for *)

Definition nxt (m : mem) (a : Z) : option Z := next <$> nodes m !! a.
Definition prv (m : mem) (a : Z) : option Z := prev <$> nodes m !! a.

(** From [a] through [xs] to [b]. *)
Fixpoint seg (m : mem) (a : Z) (xs : list Z) (b : Z) : Prop :=
  match xs with
  | [] => nxt m a = Some b ∧ prv m b = Some a
  | x :: xs => nxt m a = Some x ∧ prv m x = Some a ∧ seg m x xs b
  end.

Definition lrep (m : mem) (l : Z) (xs : list Z) : Prop := seg m l xs l ∧ NoDup (l :: xs).

(** The callbacks of a callback list, in calling order. *)
Definition cbs (m : mem) (xs : list Z) : option (list swdmx_cb_entry) := mapM (fun x => entries m !! x) xs.

Definition cb_list (m : mem) (l : Z) (xs : list Z) (es : list swdmx_cb_entry) : Prop :=
  lrep m l xs ∧ cbs m xs = Some es.

(** [swdmx_cb_list_remove] on the list of callbacks: the first match. *)
Fixpoint remove_first (e : swdmx_cb_entry) (es : list swdmx_cb_entry) : list swdmx_cb_entry :=
  match es with
  | [] => []
  | x :: es => if decide (x = e) then es else x :: remove_first e es
  end.

Lemma seg_app m a xs x ys b : seg m a (xs ++ x :: ys) b ↔ seg m a xs x ∧ seg m x ys b.
Proof. revert a. induction xs as [|y xs IH]; intros a; cbn; [tauto|]. rewrite IH. tauto. Qed.

(** A segment depends only on the links it uses. *)
Lemma seg_frame m m' a xs b :
  (∀ c, c ∈ a :: xs → nxt m' c = nxt m c) → (∀ c, c ∈ b :: xs → prv m' c = prv m c) →
  seg m a xs b → seg m' a xs b.
Proof.
  revert a. induction xs as [|x xs IH]; intros a Hn Hp; cbn.
  - rewrite Hn, Hp by set_solver. done.
  - rewrite Hn, Hp by set_solver. intros (? & ? & ?). split; [done|]. split; [done|].
    apply IH; [set_solver..|done].
Qed.

(** The end of a segment is redirected from [b] to [y]. *)
Lemma seg_relink m m' a xs b y p :
  NoDup (a :: xs) → y ∉ xs → prv m b = Some p → seg m a xs b →
  nxt m' p = Some y → prv m' y = Some p →
  (∀ c, c ∈ a :: xs → c ≠ p → nxt m' c = nxt m c) → (∀ c, c ∈ xs → prv m' c = prv m c) →
  seg m' a xs y.
Proof.
  revert a. induction xs as [|x xs IH]; intros a Hnd Hy Hb Hs Hn Hp Hfn Hfp; cbn in *.
  - destruct Hs as [Hs1 Hs2]. assert (p = a) as -> by congruence. done.
  - destruct Hs as (Hs1 & Hs2 & Hs3).
    assert (a ≠ p).
    { intros ->. assert (p ∉ x :: xs) as Hni by (by apply NoDup_cons in Hnd as []).
      apply Hni. clear -Hs3 Hb. revert x Hs3. induction xs as [|z xs IH]; intros x; cbn.
      - intros [_ ?]. assert (x = p) as -> by congruence. set_solver.
      - intros (_ & _ & Hs). specialize (IH z Hs). set_solver. }
    rewrite Hfn, Hfp by set_solver. split; [done|]. split; [done|].
    apply IH; [by apply NoDup_cons in Hnd as []|set_solver|done..|set_solver|set_solver].
Qed.

Lemma seg_prev_in m a xs b p : seg m a xs b → prv m b = Some p → p ∈ a :: xs.
Proof.
  revert a. induction xs as [|x xs IH]; intros a; cbn.
  - intros [_ ?] ?. assert (p = a) as -> by congruence. set_solver.
  - intros (_ & _ & Hs) Hp. specialize (IH x Hs Hp). set_solver.
Qed.

Lemma seg_nodes m a xs b c : seg m a xs b → c ∈ a :: xs → is_Some (nodes m !! c).
Proof.
  revert a. induction xs as [|x xs IH]; intros a; cbn.
  - intros [Hn _] Hc. assert (c = a) as -> by set_solver. unfold nxt in Hn.
    destruct (nodes m !! a); [by eexists|done].
  - intros (Hn & _ & Hs) Hc. apply elem_of_cons in Hc as [->|Hc]; [|by eapply IH].
    unfold nxt in Hn. destruct (nodes m !! a); [by eexists|done].
Qed.

(** ** The effect of the assignments *)

Definition upd_next (m : mem) (n v : Z) : mem := m <| nodes := alter (fun x => x <| next := v |>) n (nodes m) |>.
Definition upd_prev (m : mem) (n v : Z) : mem := m <| nodes := alter (fun x => x <| prev := v |>) n (nodes m) |>.

Definition has (m : mem) (n : Z) : Prop := is_Some (nodes m !! n).

Lemma set_next_ok m n v : has m n → set_next n v m = Ok tt (upd_next m n v).
Proof.
  intros [x Hx]. unfold set_next, node_at, put_node, mbind, H_bind, M_bind, get, modify. cbn. rewrite Hx. cbn.
  unfold upd_next. do 2 f_equal. destruct m as [nd en]. cbn in *. f_equal. by rewrite (alter_alt_Some _ nd n x Hx).
Qed.

Lemma set_prev_ok m n v : has m n → set_prev n v m = Ok tt (upd_prev m n v).
Proof.
  intros [x Hx]. unfold set_prev, node_at, put_node, mbind, H_bind, M_bind, get, modify. cbn. rewrite Hx. cbn.
  unfold upd_prev. do 2 f_equal. destruct m as [nd en]. cbn in *. f_equal. by rewrite (alter_alt_Some _ nd n x Hx).
Qed.

Lemma bind_ok {A B} (c : H A) (k : A → H B) m a m' : c m = Ok a m' → (c ≫= k) m = k a m'.
Proof. unfold mbind, H_bind, M_bind. by intros ->. Qed.

Lemma node_at_ok m n x : nodes m !! n = Some x → node_at n m = Ok x m.
Proof. unfold node_at, mbind, H_bind, M_bind, get. cbn. by intros ->. Qed.

Section Lookups.
Context (m : mem).

Lemma nxt_upd_next n v c : has m n → nxt (upd_next m n v) c = if decide (c = n) then Some v else nxt m c.
Proof.
  intros [x Hx]. unfold nxt, upd_next. cbn. destruct (decide (c = n)) as [->|].
  - by rewrite lookup_alter_eq, Hx.
  - by rewrite lookup_alter_ne.
Qed.

Lemma prv_upd_prev n v c : has m n → prv (upd_prev m n v) c = if decide (c = n) then Some v else prv m c.
Proof.
  intros [x Hx]. unfold prv, upd_prev. cbn. destruct (decide (c = n)) as [->|].
  - by rewrite lookup_alter_eq, Hx.
  - by rewrite lookup_alter_ne.
Qed.

Lemma prv_upd_next n v c : prv (upd_next m n v) c = prv m c.
Proof.
  unfold prv, upd_next. cbn. destruct (decide (c = n)) as [->|].
  - rewrite lookup_alter_eq. by destruct (nodes m !! n).
  - by rewrite lookup_alter_ne.
Qed.

Lemma nxt_upd_prev n v c : nxt (upd_prev m n v) c = nxt m c.
Proof.
  unfold nxt, upd_prev. cbn. destruct (decide (c = n)) as [->|].
  - rewrite lookup_alter_eq. by destruct (nodes m !! n).
  - by rewrite lookup_alter_ne.
Qed.

Lemma has_upd_next n v c : has (upd_next m n v) c ↔ has m c.
Proof. unfold has, upd_next. cbn. by rewrite lookup_alter_is_Some. Qed.

Lemma has_upd_prev n v c : has (upd_prev m n v) c ↔ has m c.
Proof. unfold has, upd_prev. cbn. by rewrite lookup_alter_is_Some. Qed.

Lemma nxt_has n v : nxt m n = Some v → has m n.
Proof. unfold nxt, has. destruct (nodes m !! n); [by eexists|done]. Qed.

Lemma prv_has n v : prv m n = Some v → has m n.
Proof. unfold prv, has. destruct (nodes m !! n); [by eexists|done]. Qed.

Lemma node_split n p q : prv m n = Some p → nxt m n = Some q → nodes m !! n = Some (mk_node p q).
Proof. unfold prv, nxt. destruct (nodes m !! n) as [[]|]; cbn; congruence. Qed.

Lemma has_node n : has m n → ∃ p q, prv m n = Some p ∧ nxt m n = Some q.
Proof. intros [[p q] Hx]. exists p, q. unfold prv, nxt. by rewrite Hx. Qed.
End Lookups.

Create Rewrite HintDb swdmx_list.
#[export] Hint Rewrite prv_upd_next nxt_upd_prev has_upd_next has_upd_prev : swdmx_list.

Lemma swdmx_list_init_ok m n : has m n →
  swdmx_list_init n m = Ok tt (upd_next (upd_prev m n n) n n).
Proof.
  intros Hn. unfold swdmx_list_init. rewrite (bind_ok _ _ _ _ _ (set_prev_ok _ _ _ Hn)).
  by apply set_next_ok, has_upd_prev.
Qed.

Lemma swdmx_list_append_ok m l n z : prv m l = Some z → has m n → has m z → l ≠ n →
  swdmx_list_append l n m =
    Ok tt (upd_prev (upd_next (upd_next (upd_prev m n z) n l) z n) l n).
Proof.
  intros Hz Hn Hhz Hne. destruct (has_node m l (prv_has _ _ _ Hz)) as (p & q & Hp & Hq).
  assert (p = z) as -> by congruence. unfold swdmx_list_append.
  rewrite (bind_ok _ _ _ _ _ (node_at_ok _ _ _ (node_split _ _ _ _ Hp Hq))). cbn [prev].
  rewrite (bind_ok _ _ _ _ _ (set_prev_ok _ _ _ Hn)).
  rewrite (bind_ok _ _ _ _ _ (set_next_ok _ _ _ (proj2 (has_upd_prev _ _ _ _) Hn))).
  set (m2 := upd_next (upd_prev m n z) n l).
  assert (has m2 n) by (unfold m2; by autorewrite with swdmx_list).
  assert (nodes m2 !! l = Some (mk_node z q)) as Hl2.
  { apply node_split; unfold m2.
    - rewrite prv_upd_next, prv_upd_prev by done. by rewrite decide_False.
    - rewrite nxt_upd_next by (by autorewrite with swdmx_list). by rewrite decide_False, nxt_upd_prev. }
  rewrite (bind_ok _ _ _ _ _ (node_at_ok _ _ _ Hl2)). cbn [prev].
  assert (has m2 z) as Hz2 by (unfold m2; by autorewrite with swdmx_list).
  rewrite (bind_ok _ _ _ _ _ (set_next_ok _ _ _ Hz2)). apply set_prev_ok.
  apply has_upd_next. by eexists.
Qed.

Lemma swdmx_list_remove_ok m n p q : prv m n = Some p → nxt m n = Some q → p ≠ n → has m p → has m q →
  swdmx_list_remove n m = Ok tt (upd_prev (upd_next m p q) q p).
Proof.
  intros Hp Hq Hne Hhp Hhq. unfold swdmx_list_remove.
  rewrite (bind_ok _ _ _ _ _ (node_at_ok _ _ _ (node_split _ _ _ _ Hp Hq))). cbn [prev next].
  rewrite (bind_ok _ _ _ _ _ (set_next_ok _ _ _ Hhp)).
  assert (nodes (upd_next m p q) !! n = Some (mk_node p q)) as Hn.
  { apply node_split; [by rewrite prv_upd_next|]. rewrite nxt_upd_next by done. by rewrite decide_False. }
  rewrite (bind_ok _ _ _ _ _ (node_at_ok _ _ _ Hn)). cbn [prev next].
  by apply set_prev_ok, has_upd_next.
Qed.

(** ** The operations on the list *)

Lemma lrep_prev m l xs : lrep m l xs → ∃ z, prv m l = Some z ∧ z ∈ l :: xs.
Proof.
  intros [Hs _].
  assert (∃ z, prv m l = Some z) as [z Hz].
  { revert Hs. generalize l at 1. induction xs as [|x xs IH]; intros a; cbn.
    - intros [_ ?]. by eexists.
    - intros (_ & _ & Hs). by eapply IH. }
  exists z. split; [done|]. by eapply seg_prev_in.
Qed.

Lemma lrep_has m l xs c : lrep m l xs → c ∈ l :: xs → has m c.
Proof. intros [Hs _]. by eapply seg_nodes. Qed.

(** Only the nodes of the list and the new node are written. *)
Definition same_outside (S : list Z) (m m' : mem) : Prop :=
  (∀ c, c ∉ S → nodes m' !! c = nodes m !! c).

Lemma same_outside_upd_next m n v S : n ∈ S → same_outside S m (upd_next m n v).
Proof. intros Hn c Hc. unfold upd_next. cbn. apply lookup_alter_ne. congruence. Qed.

Lemma same_outside_upd_prev m n v S : n ∈ S → same_outside S m (upd_prev m n v).
Proof. intros Hn c Hc. unfold upd_prev. cbn. apply lookup_alter_ne. congruence. Qed.

Lemma same_outside_trans S m1 m2 m3 : same_outside S m1 m2 → same_outside S m2 m3 → same_outside S m1 m3.
Proof. intros H1 H2 c Hc. by rewrite H2, H1. Qed.

(** Another list keeps its meaning. *)
Lemma lrep_frame S m m' l xs : same_outside S m m' → (∀ c, c ∈ S → c ∉ l :: xs) → lrep m l xs → lrep m' l xs.
Proof.
  intros Hs Hd [Hseg Hnd]. split; [|done].
  eapply seg_frame; [| |exact Hseg]; intros c Hc; unfold nxt, prv; rewrite Hs; set_solver.
Qed.

Lemma init_lrep m l : has m l →
  ∃ m', swdmx_list_init l m = Ok tt m' ∧ lrep m' l [] ∧ same_outside [l] m m' ∧ entries m' = entries m.
Proof.
  intros Hl. eexists. split; [by apply swdmx_list_init_ok|]. split; [|split; [|done]].
  - split; [|apply NoDup_singleton]. cbn. rewrite nxt_upd_next by (by autorewrite with swdmx_list).
    rewrite prv_upd_next, prv_upd_prev by done. by rewrite !decide_True.
  - eapply same_outside_trans; [apply same_outside_upd_prev|apply same_outside_upd_next]; set_solver.
Qed.

Lemma append_lrep m l xs n : lrep m l xs → has m n → n ∉ l :: xs →
  ∃ m', swdmx_list_append l n m = Ok tt m' ∧ lrep m' l (xs ++ [n]) ∧ same_outside (n :: l :: xs) m m' ∧
    entries m' = entries m.
Proof.
  intros Hrep Hn Hni. destruct (lrep_prev _ _ _ Hrep) as (z & Hz & Hzin).
  pose proof (lrep_has _ _ _ z Hrep Hzin) as Hhz. destruct Hrep as [Hs Hnd].
  assert (l ≠ n) as Hne by set_solver. assert (has m l) as Hl by (by eapply prv_has).
  eexists. split; [by apply swdmx_list_append_ok|]. split; [|split; [|done]].
  2: { repeat (eapply same_outside_trans; [|first [apply same_outside_upd_prev|apply same_outside_upd_next]; set_solver]).
       by intros c. }
  set (m' := upd_prev _ _ _).
  assert (∀ c, nxt m' c = if decide (c = z) then Some n else if decide (c = n) then Some l else nxt m c) as Hn'.
  { intros c. unfold m'. rewrite nxt_upd_prev, nxt_upd_next by (by autorewrite with swdmx_list).
    rewrite nxt_upd_next by (by autorewrite with swdmx_list). by rewrite nxt_upd_prev. }
  assert (∀ c, prv m' c = if decide (c = l) then Some n else if decide (c = n) then Some z else prv m c) as Hp'.
  { intros c. unfold m'. rewrite prv_upd_prev by (by autorewrite with swdmx_list).
    rewrite !prv_upd_next. by rewrite prv_upd_prev. }
  assert (z ≠ n) by set_solver. split.
  - apply seg_app. split.
    + eapply (seg_relink m m' l xs l n z); [done|set_solver|done|done| | | |].
      * by rewrite Hn', decide_True.
      * by rewrite Hp', decide_False, decide_True by done.
      * intros c Hc Hcz. rewrite Hn', !decide_False by set_solver. done.
      * intros c Hc. apply NoDup_cons in Hnd as [Hnl _]. rewrite Hp', !decide_False by set_solver. done.
    + cbn. rewrite Hn', Hp', decide_False, !decide_True by done. done.
  - rewrite app_comm_cons. apply NoDup_app. split; [done|]. split; [set_solver|apply NoDup_singleton].
Qed.

Lemma remove_lrep m l xs x ys : lrep m l (xs ++ x :: ys) →
  ∃ m', swdmx_list_remove x m = Ok tt m' ∧ lrep m' l (xs ++ ys) ∧ same_outside (l :: xs ++ ys) m m' ∧
    entries m' = entries m ∧ nodes m' !! x = nodes m !! x.
Proof.
  intros Hrep. pose proof (λ c, lrep_has _ _ _ c Hrep) as Hhas. destruct Hrep as [Hs Hnd].
  apply seg_app in Hs as [H1 H2].
  assert (x ≠ l ∧ x ∉ xs ∧ x ∉ ys ∧ NoDup (l :: xs ++ ys)) as (Hxl & Hxx & Hxy & Hnd').
  { apply NoDup_cons in Hnd as [Hl Hnd]. rewrite NoDup_app in Hnd. destruct Hnd as (Ha & Hb & Hc).
    apply NoDup_cons in Hc as [Hc Hd]. repeat split; try set_solver.
    apply NoDup_cons. split; [set_solver|]. apply NoDup_app. repeat split; set_solver. }
  destruct (has_node m x) as (p & q & Hp & Hq); [apply Hhas; set_solver|].
  pose proof (seg_prev_in _ _ _ _ _ H1 Hp) as Hpin.
  assert (q = match ys with [] => l | y :: _ => y end) as Hqe.
  { destruct ys; cbn in H2; [destruct H2 as [H2 _]|destruct H2 as (H2 & _)]; congruence. }
  assert (q ∈ l :: ys) as Hqin by (destruct ys; set_solver).
  assert (p ≠ x) by set_solver.
  assert (has m p) as Hhp by (apply Hhas; set_solver). assert (has m q) as Hhq by (apply Hhas; set_solver).
  eexists. split; [by eapply swdmx_list_remove_ok|].
  set (m' := upd_prev _ _ _).
  assert (∀ c, nxt m' c = if decide (c = p) then Some q else nxt m c) as Hn'.
  { intros c. unfold m'. by rewrite nxt_upd_prev, nxt_upd_next. }
  assert (∀ c, prv m' c = if decide (c = q) then Some p else prv m c) as Hp'.
  { intros c. unfold m'. rewrite prv_upd_prev by (by autorewrite with swdmx_list). by rewrite prv_upd_next. }
  assert (same_outside (l :: xs ++ ys) m m') as Hso.
  { eapply same_outside_trans; [apply same_outside_upd_next|apply same_outside_upd_prev]; set_solver. }
  split; [split; [|done]|split; [done|split; [done|apply Hso; set_solver]]].
  apply NoDup_cons in Hnd' as [Hnl Hnd2]. apply NoDup_app in Hnd2 as (Hndx & Hdis & Hndy).
  destruct ys as [|y ys].
  - subst q. rewrite app_nil_r. eapply (seg_relink m m' l xs x l p); try done.
    + apply NoDup_cons. split; [set_solver|done].
    + set_solver.
    + by rewrite Hn', decide_True.
    + by rewrite Hp', decide_True.
    + intros c Hc Hcp. by rewrite Hn', decide_False.
    + intros c Hc. rewrite Hp', decide_False by set_solver. done.
  - subst q. cbn in H2. destruct H2 as (_ & _ & H2). apply seg_app. split.
    + eapply (seg_relink m m' l xs x y p); try done.
      * apply NoDup_cons. split; [set_solver|done].
      * set_solver.
      * by rewrite Hn', decide_True.
      * by rewrite Hp', decide_True.
      * intros c Hc Hcp. by rewrite Hn', decide_False.
      * intros c Hc. rewrite Hp', decide_False by set_solver. done.
    + eapply seg_frame; [| |exact H2].
      * intros c Hc. rewrite Hn', decide_False by set_solver. done.
      * intros c Hc. apply NoDup_cons in Hndy as [? ?]. rewrite Hp', decide_False by set_solver. done.
Qed.

Lemma lrep_first m l xs : lrep m l xs → nxt m l = Some (match xs with [] => l | x :: _ => x end).
Proof. intros [Hs _]. destruct xs; cbn in Hs; [by destruct Hs|by destruct Hs]. Qed.

Lemma lrep_next m l xs x ys : lrep m l (xs ++ x :: ys) → nxt m x = Some (match ys with [] => l | y :: _ => y end).
Proof. intros [Hs _]. apply seg_app in Hs as [_ Hs]. destruct ys; cbn in Hs; by destruct Hs. Qed.

Lemma free_lrep m l xs x : lrep m l xs → x ∉ l :: xs →
  lrep (m <| nodes := delete x (nodes m) |> <| entries := delete x (entries m) |>) l xs.
Proof.
  intros Hrep Hx. eapply (lrep_frame [x]); [|set_solver|done]. intros c Hc. cbn. apply lookup_delete_ne. set_solver.
Qed.

Lemma cbs_frame m m' xs : (∀ x, x ∈ xs → entries m' !! x = entries m !! x) → cbs m' xs = cbs m xs.
Proof.
  unfold cbs. induction xs as [|x xs IH]; intros Hf; [done|]. cbn. rewrite Hf by set_solver.
  by rewrite IH by set_solver.
Qed.

Lemma cbs_app m xs ys : cbs m (xs ++ ys) = a ← cbs m xs; b ← cbs m ys; Some (a ++ b).
Proof.
  unfold cbs. induction xs as [|x xs IH]; cbn.
  - by destruct (mapM _ ys).
  - destruct (entries m !! x); cbn; [|done]. rewrite IH. destruct (mapM _ xs); cbn; [|done].
    by destruct (mapM _ ys).
Qed.

Lemma lrep_NoDup m l xs x ys : lrep m l (xs ++ x :: ys) → x ∉ l :: xs ++ ys.
Proof.
  intros [_ Hnd]. apply NoDup_cons in Hnd as [Hl Hnd]. apply NoDup_app in Hnd as (_ & Hb & Hc).
  apply NoDup_cons in Hc as [Hc _]. set_solver.
Qed.

Lemma remove_free m l xs x ys : lrep m l (xs ++ x :: ys) →
  ∃ m', (swdmx_list_remove x;; free_entry x) m = Ok tt m' ∧ lrep m' l (xs ++ ys) ∧
    same_outside (l :: xs ++ x :: ys) m m' ∧ entries m' = delete x (entries m).
Proof.
  intros Hrep. destruct (remove_lrep m l xs x ys Hrep) as (m1 & Hr & Hrep1 & Hso & He & _).
  rewrite (bind_ok _ _ _ _ _ Hr). unfold free_entry, modify. eexists. split; [done|].
  pose proof (lrep_NoDup _ _ _ _ _ Hrep). split; [by apply free_lrep|]. split.
  - intros c Hc. cbn. rewrite lookup_delete_ne by set_solver. apply Hso. set_solver.
  - cbn. by rewrite He.
Qed.

Lemma remove_loop fuel m l xs ys es c d : lrep m l (xs ++ ys) → cbs m ys = Some es → (length ys < fuel)%nat →
  ∃ m' ys', for_each_safe fuel l (match ys with [] => l | y :: _ => y end) (fun ent =>
      e ← entry_at ent;
      if (cb e =? c) && (cb_data e =? d)
      then swdmx_list_remove ent;; free_entry ent;; mret true
      else mret false) m = Ok tt m' ∧
    lrep m' l (xs ++ ys') ∧ ys' ⊆ ys ∧ cbs m' ys' = Some (remove_first (mk_cb c d) es) ∧
    same_outside (l :: xs ++ ys) m m' ∧ (∀ x, x ∉ ys → entries m' !! x = entries m !! x).
Proof.
  revert fuel xs es. induction ys as [|y ys IH]; intros fuel xs es Hrep Hes Hf;
    (destruct fuel as [|fuel]; [cbn in Hf; lia|]).
  - cbn in Hes. injection Hes as <-. exists m, []. split; [|repeat split; try done; by apply Hrep].
    cbn [for_each_safe]. unfold mbind, H_bind, M_bind.
    destruct (has_node m l) as (p & q & Hp & Hq); [eapply lrep_has; [exact Hrep|set_solver]|].
    rewrite (node_at_ok _ _ _ (node_split _ _ _ _ Hp Hq)). by rewrite Z.eqb_refl.
  - unfold cbs in Hes. cbn in Hes. destruct (entries m !! y) as [e|] eqn:Hy; [|done].
    cbn in Hes. destruct (mapM (λ x, entries m !! x) ys) as [es'|] eqn:Hes'; [|done].
    cbn in Hes. injection Hes as <-.
    pose proof (lrep_next _ _ _ _ _ Hrep) as Hnx. pose proof (lrep_NoDup _ _ _ _ _ Hrep) as Hni.
    cbn [for_each_safe]. unfold mbind, H_bind, M_bind. unfold nxt in Hnx.
    destruct (nodes m !! y) as [[yp yn]|] eqn:Hny; [|done]. cbn in Hnx. injection Hnx as ->.
    rewrite (node_at_ok _ _ _ Hny). rewrite (proj2 (Z.eqb_neq y l)) by set_solver.
    assert (entry_at y m = Ok e m) as -> by (unfold entry_at, mbind, H_bind, M_bind, get; cbn; by rewrite Hy).
    cbn [next]. cbn [remove_first].
    destruct (decide (e = mk_cb c d)) as [->|Hne].
    + cbn [cb cb_data]. rewrite !Z.eqb_refl. cbn [andb].
      destruct (remove_free m l xs y ys Hrep) as (m1 & Hr & Hrep1 & Hso & He).
      unfold mbind, H_bind, M_bind in Hr. destruct (swdmx_list_remove y m) as [[] m2| |]; [|done..]. rewrite Hr.
      exists m1, ys. split; [done|]. split; [done|]. split; [set_solver|]. split; [|split; [done|]].
      * rewrite (cbs_frame m m1); [done|]. intros x Hx. rewrite He. apply lookup_delete_ne. set_solver.
      * intros x Hx. rewrite He. apply lookup_delete_ne. set_solver.
    + assert ((cb e =? c) && (cb_data e =? d) = false) as ->.
      { destruct (Z.eqb_spec (cb e) c), (Z.eqb_spec (cb_data e) d); try done. destruct e; cbn in *; congruence. }
      cbn. replace (xs ++ y :: ys) with ((xs ++ [y]) ++ ys) in Hrep by (by rewrite <- app_assoc).
      destruct (IH fuel (xs ++ [y]) es' Hrep Hes' ltac:(cbn in Hf; lia)) as (m' & ys' & Hr & Hrep' & Hsub & Hc & Hso & He).
      exists m', (y :: ys'). rewrite <- app_assoc in *. cbn [app] in *.
      split; [exact Hr|]. split; [done|]. split; [set_solver|]. split; [|split; [done|set_solver]].
      unfold cbs in *. cbn. rewrite He by set_solver. rewrite Hy. cbn. by rewrite Hc.
Qed.

Lemma clear_loop fuel m l ys : lrep m l ys → (length ys < fuel)%nat →
  ∃ m', for_each_safe fuel l (match ys with [] => l | y :: _ => y end)
      (fun ent => swdmx_list_remove ent;; free_entry ent;; mret false) m = Ok tt m' ∧
    lrep m' l [] ∧ same_outside (l :: ys) m m' ∧ (∀ x, x ∉ ys → entries m' !! x = entries m !! x).
Proof.
  revert fuel m. induction ys as [|y ys IH]; intros fuel m Hrep Hf;
    (destruct fuel as [|fuel]; [cbn in Hf; lia|]).
  - exists m. split; [|repeat split; try done; by apply Hrep]. cbn [for_each_safe]. unfold mbind, H_bind, M_bind.
    destruct (has_node m l) as (p & q & Hp & Hq); [eapply lrep_has; [exact Hrep|set_solver]|].
    rewrite (node_at_ok _ _ _ (node_split _ _ _ _ Hp Hq)). by rewrite Z.eqb_refl.
  - pose proof (lrep_next m l [] y ys Hrep) as Hnx. pose proof (lrep_NoDup m l [] y ys Hrep) as Hni. cbn in Hni.
    cbn [for_each_safe]. unfold mbind, H_bind, M_bind. unfold nxt in Hnx.
    destruct (nodes m !! y) as [[yp yn]|] eqn:Hny; [|done]. cbn in Hnx. injection Hnx as ->.
    rewrite (node_at_ok _ _ _ Hny). rewrite (proj2 (Z.eqb_neq y l)) by set_solver. cbn [next].
    destruct (remove_free m l [] y ys Hrep) as (m1 & Hr & Hrep1 & Hso & He).
    unfold mbind, H_bind, M_bind in Hr. destruct (swdmx_list_remove y m) as [[] m2| |]; [|done..]. rewrite Hr. cbn.
    destruct (IH fuel m1 Hrep1 ltac:(cbn in Hf; lia)) as (m' & Hr' & Hrep' & Hso' & He').
    exists m'. split; [exact Hr'|]. split; [done|]. split.
    + intros c Hc. rewrite Hso' by set_solver. apply Hso. set_solver.
    + intros x Hx. rewrite He' by set_solver. rewrite He. apply lookup_delete_ne. set_solver.
Qed.

(** ** Callback lists *)

(** Another callback list [l'] of the same memory. *)
Definition cb_list_apart (l : Z) (xs : list Z) (l' : Z) (xs' : list Z) : Prop :=
  ∀ x, x ∈ l :: xs → x ∉ l' :: xs'.

Lemma cb_list_frame S m m' l xs es : same_outside S m m' →
  (∀ x, x ∈ xs → entries m' !! x = entries m !! x) → (∀ c, c ∈ S → c ∉ l :: xs) →
  cb_list m l xs es → cb_list m' l xs es.
Proof.
  intros Hs He Hd [Hrep Hc]. split; [by eapply lrep_frame|]. by rewrite (cbs_frame m).
Qed.

(** C35: the pointer operations of the callback lists are the operations on
    the list of callbacks: [swdmx_cb_list_add] appends one,
    [swdmx_cb_list_remove] drops the first entry with the same function and
    data (and nothing when there is none), [swdmx_cb_list_clear] empties the
    list, each terminating within one visit per entry and leaving every other
    callback list as it was. *)
Theorem cb_list_refinement m l xs es ent junk c d l' xs' es' fuel :
  cb_list m l xs es → cb_list m l' xs' es' → cb_list_apart l xs l' xs' →
  ¬ has m ent → (length xs < fuel)%nat →
  (∃ m1, swdmx_cb_list_add ent junk l c d m = Ok tt m1 ∧ cb_list m1 l (xs ++ [ent]) (es ++ [mk_cb c d]) ∧
     cb_list m1 l' xs' es') ∧
  (∃ m2 xs2, swdmx_cb_list_remove fuel l c d m = Ok tt m2 ∧ cb_list m2 l xs2 (remove_first (mk_cb c d) es) ∧
     xs2 ⊆ xs ∧ cb_list m2 l' xs' es') ∧
  (∃ m3, swdmx_cb_list_clear fuel l m = Ok tt m3 ∧ cb_list m3 l [] [] ∧ cb_list m3 l' xs' es').
Proof.
  intros [Hrep Hes] Hother Hap Hent Hf.
  assert (ent ∉ l :: xs) as Hni by (intros Hin; by apply Hent, (lrep_has _ _ _ _ Hrep)).
  assert (ent ∉ l' :: xs') as Hni' by (intros Hin; apply Hent; by apply (lrep_has _ _ _ _ (proj1 Hother))).
  assert (∀ x, x ∈ xs → x ≠ ent) as Hxe by (intros x Hx ->; apply Hni; by right).
  assert (∀ x, x ∈ xs' → x ≠ ent) as Hxe' by (intros x Hx ->; apply Hni'; by right).
  assert (∀ x, x ∈ xs' → x ∉ xs) as Hxx by (intros x Hx Hx2; apply (Hap x); by right).
  assert (∀ z, z ∈ ent :: l :: xs → z ∉ l' :: xs') as Hxl.
  { intros z [->|Hz]%elem_of_cons; [done|by apply Hap]. }
  pose proof (lrep_first _ _ _ Hrep) as Hfirst.
  assert (has m l) as [[lp ln] Hl] by (eapply lrep_has; [exact Hrep|by left]).
  unfold nxt in Hfirst. rewrite Hl in Hfirst. cbn in Hfirst. injection Hfirst as Hln.
  split; [|split].
  - unfold swdmx_cb_list_add, malloc_entry, mbind, H_bind, M_bind, modify.
    set (m0 := set_field _ _ _).
    assert (same_outside (ent :: l :: xs) m m0) as Hso0.
    { intros z Hz. cbn. apply lookup_insert_ne. intros ->. apply Hz. by left. }
    assert (∀ x, x ≠ ent → entries m0 !! x = entries m !! x) as He0
      by (intros x Hx; cbn; by rewrite !lookup_insert_ne).
    destruct (append_lrep m0 l xs ent) as (m1 & Hr & Hrep1 & Hso & He).
    + eapply (lrep_frame [ent]); [|by intros c0 ->%list_elem_of_singleton|done].
      intros z Hz. cbn. apply lookup_insert_ne. intros ->. apply Hz. by left.
    + unfold has. cbn. rewrite lookup_insert_eq. by eexists.
    + done.
    + exists m1. split; [exact Hr|]. split.
      * split; [done|]. rewrite (cbs_frame m0) by (intros; by rewrite He). rewrite cbs_app.
        rewrite (cbs_frame m m0 xs) by (intros x Hx; apply He0; by apply Hxe). rewrite Hes. cbn.
        by rewrite lookup_insert_eq.
      * eapply cb_list_frame; [eapply same_outside_trans; [exact Hso0|exact Hso]| |exact Hxl|exact Hother].
        intros x Hx. rewrite He. apply He0. by apply Hxe'.
  - unfold swdmx_cb_list_remove, list_for_each_safe. unfold mbind at 1, H_bind at 1, M_bind at 1.
    rewrite (node_at_ok _ _ _ Hl). cbn [next]. rewrite Hln.
    destruct (remove_loop fuel m l [] xs es c d Hrep Hes Hf) as (m2 & xs2 & Hr & Hrep2 & Hsub & Hc & Hso & He).
    exists m2, xs2. split; [exact Hr|]. split; [by split|]. split; [done|].
    eapply cb_list_frame; [exact Hso| |exact Hap|exact Hother]. intros x Hx. apply He. by apply Hxx.
  - unfold swdmx_cb_list_clear, list_for_each_safe. unfold mbind, H_bind, M_bind.
    rewrite (node_at_ok _ _ _ Hl). cbn [next]. rewrite Hln.
    destruct (clear_loop fuel m l xs Hrep Hf) as (m2 & Hr & Hrep2 & Hso & He).
    unfold mbind, H_bind, M_bind in Hr. rewrite Hr.
    destruct (init_lrep m2 l) as (m3 & Hr3 & Hrep3 & Hso3 & He3); [eapply lrep_has; [exact Hrep2|by left]|].
    exists m3. split; [exact Hr3|]. split; [by split|].
    eapply cb_list_frame; [exact Hso3| | |].
    + intros x _. by rewrite He3.
    + intros z ->%list_elem_of_singleton. apply Hap. by left.
    + eapply cb_list_frame; [exact Hso| |exact Hap|exact Hother]. intros x Hx. apply He. by apply Hxx.
Qed.

(** Two list heads 1 and 2, with callbacks in nodes 10 and 11, and 20. *)
Definition sample_mem : mem :=
  mk_mem (list_to_map [(1, mk_node 11 10); (10, mk_node 1 11); (11, mk_node 10 1);
                       (2, mk_node 20 20); (20, mk_node 2 2)])
         (list_to_map [(10, mk_cb 7 8); (11, mk_cb 7 9); (20, mk_cb 7 8)]).

Lemma cb_list_refinement_witness :
  (∃ m1, swdmx_cb_list_add 12 (mk_node 0 0) 1 7 9 sample_mem = Ok tt m1 ∧
     cb_list m1 1 [10; 11; 12] [mk_cb 7 8; mk_cb 7 9; mk_cb 7 9] ∧ cb_list m1 2 [20] [mk_cb 7 8]) ∧
  (∃ m2 xs2, swdmx_cb_list_remove 5 1 7 9 sample_mem = Ok tt m2 ∧
     cb_list m2 1 xs2 [mk_cb 7 8] ∧ xs2 ⊆ [10; 11] ∧ cb_list m2 2 [20] [mk_cb 7 8]) ∧
  (∃ m3, swdmx_cb_list_clear 5 1 sample_mem = Ok tt m3 ∧ cb_list m3 1 [] [] ∧ cb_list m3 2 [20] [mk_cb 7 8]).
Proof.
  apply (cb_list_refinement sample_mem 1 [10; 11] [mk_cb 7 8; mk_cb 7 9] 12 (mk_node 0 0) 7 9
    2 [20] [mk_cb 7 8] 5).
  - split; [split; [by vm_compute|]|by vm_compute]. apply (bool_decide_unpack _). by vm_compute.
  - split; [split; [by vm_compute|]|by vm_compute]. apply (bool_decide_unpack _). by vm_compute.
  - intros x Hx. apply (Forall_forall (fun x => x ∉ [2; 20]) [1; 10; 11]); [|done].
    apply (bool_decide_unpack _). by vm_compute.
  - intros [x Hx]. by vm_compute in Hx.
  - cbn. lia.
Defined.
