(* ===== verification/SwdmxTs.v ===== *)
(** The transport stream parser
    (src/drivers/stream_input/t5d_demux/sw_demux/swdmx_ts_parser.c).

    The packets handed to the callbacks point into the buffer of the caller:
    a pointer is an offset from the start of that buffer.  What the callbacks
    do is a parameter [deliver]; they do not change the callback list while
    it is walked. *)

From stdpp Require Import base list numbers.
From Stdlib Require Import ZArith Lia Bool.
From S2P Require Import Prelude.
From S2P Require Import SwdmxList.

#[local] Open Scope Z_scope.

Definition SWDMX_OK : Z := 1.
Definition SWDMX_ERR : Z := -1.

Record swdmx_tspacket := mk_tspkt {
  pid : Z;
  payload_start : Z;
  priority : Z;
  error : Z;
  scramble : Z;
  cc : Z;
  packet : Z;
  packet_len : Z;
  adp_field : option Z;
  adp_field_len : Z;
  payload : option Z;
  payload_len : Z
}.

#[export] Instance eta_swdmx_tspacket : Settable swdmx_tspacket := fun r =>
  mk_tspkt (pid r) (payload_start r) (priority r) (error r) (scramble r) (cc r) (packet r)
    (packet_len r) (adp_field r) (adp_field_len r) (payload r) (payload_len r).

Record swdmx_ts_parser := mk_tsp { packet_size : Z; tsp_cb_list : list swdmx_cb_entry }.

#[export] Instance eta_swdmx_ts_parser : Settable swdmx_ts_parser := fun r =>
  mk_tsp (packet_size r) (tsp_cb_list r).

Definition swdmx_ts_parser_new : swdmx_ts_parser := mk_tsp 188 [].

Definition TSP A := M swdmx_ts_parser A.

#[export] Instance TSP_ret : MRet TSP := M_ret swdmx_ts_parser.
#[export] Instance TSP_bind : MBind TSP := M_bind swdmx_ts_parser.

Definition swdmx_ts_parser_set_packet_size (size : Z) : TSP Z :=
  if size <? 188 then mret SWDMX_ERR
  else modify (fun t => t <| packet_size := size |>);; mret SWDMX_OK.

Definition swdmx_ts_parser_add_ts_packet_cb (c : swdmx_cb_entry) : TSP Z :=
  modify (fun t => t <| tsp_cb_list := tsp_cb_list t ++ [c] |>);; mret SWDMX_OK.

Definition swdmx_ts_parser_remove_ts_packet_cb (c : swdmx_cb_entry) : TSP Z :=
  modify (fun t => t <| tsp_cb_list := remove_first c (tsp_cb_list t) |>);; mret SWDMX_OK.

(** The part of [ts_packet] before the callbacks: the packet for them, or
    none when the function returns early.  An outer [None] is a read outside
    the buffer. *)
Definition ts_packet_header (size : Z) (buf : list Z) (p : Z) : option (option swdmx_tspacket) :=
  p1 ← aget buf (p + 1);
  p2 ← aget buf (p + 2);
  let pid := Z.lor (Z.shiftl (Z.land p1 31) 8) p2 in
  if pid =? 8191 then Some None
  else
    p3 ← aget buf (p + 3);
    let afc := Z.land (Z.shiftr p3 4) 3 in
    let pkt := mk_tspkt pid (Z.shiftr (Z.land p1 64) 6) (Z.shiftr (Z.land p1 32) 5)
                 (Z.shiftr (Z.land p1 128) 7) (Z.shiftr p3 6) (Z.land p3 15) p size None 0 None 0 in
    let p := p + 4 in
    let len := 184 in
    let finish p len pkt :=
      if truth (Z.land afc 1)
      then Some (Some (pkt <| payload := Some p |> <| payload_len := len |>))
      else Some (Some pkt) in
    if truth (Z.land afc 2) then
      alen ← aget buf p;
      let p := p + 1 in
      let len := len - 1 in
      let pkt := pkt <| adp_field_len := alen |> <| adp_field := Some p |> in
      if len - alen <? 0 then Some None
      else finish (p + alen) (len - alen) pkt
    else finish p len pkt.

Section Run.
Context {S : Type} (buf : S → list Z) (deliver : swdmx_cb_entry → swdmx_tspacket → M S unit).

(** SWDMX_LIST_FOR_EACH_SAFE over callbacks. *)
Fixpoint call_all (cbs : list swdmx_cb_entry) (pkt : swdmx_tspacket) : M S unit :=
  match cbs with
  | [] => mret tt
  | e :: cbs => deliver e pkt;; call_all cbs pkt
  end.

Definition ts_packet (tsp : swdmx_ts_parser) (p : Z) : M S unit :=
  h ← gets (fun s => ts_packet_header (packet_size tsp) (buf s) p);
  h ← of_option h;
  match h with
  | Some pkt => call_all (tsp_cb_list tsp) pkt
  | None => mret tt
  end.

Fixpoint run_loop (fuel : nat) (tsp : swdmx_ts_parser) (p left : Z) : M S Z :=
  match fuel with
  | O => undef
  | Datatypes.S f =>
      if left >=? packet_size tsp then
        b ← gets (fun s => aget (buf s) p);
        b ← of_option b;
        if b =? 71 then
          ts_packet tsp p;;
          run_loop f tsp (p + packet_size tsp) (left - packet_size tsp)
        else run_loop f tsp (p + 1) (left - 1)
      else mret left
  end.

(** [int swdmx_ts_parser_run(tsp, data, len)], [data] at offset [p]; every
    turn takes a byte or more, so [len + 1] tests are enough. *)
Definition swdmx_ts_parser_run (tsp : swdmx_ts_parser) (p len : Z) : M S Z :=
  left ← run_loop (Datatypes.S (Z.to_nat len)) tsp p len;
  mret (len - left).
End Run.

(** [void swdmx_ts_parser_free(tsp)] *)
Definition swdmx_ts_parser_free : TSP unit := modify (fun t => t <| tsp_cb_list := [] |>).

(** ** The parser alone

    The state is the buffer and the calls made so far. *)

Definition ts_log : Type := list Z * list (swdmx_cb_entry * swdmx_tspacket).

Definition log_deliver (e : swdmx_cb_entry) (pkt : swdmx_tspacket) : M ts_log unit :=
  modify (fun s => (s.1, s.2 ++ [(e, pkt)])).

Definition run_log (tsp : swdmx_ts_parser) (buf : list Z) (p len : Z) : res ts_log Z :=
  swdmx_ts_parser_run fst log_deliver tsp p len (buf, []).

(** What [set_packet_size] guarantees. *)
Definition tsp_ok (t : swdmx_ts_parser) : Prop := 188 ≤ packet_size t.

Definition is_bytes (l : list Z) : Prop := Forall (fun b => 0 ≤ b < 256) l.

(** ** The packets of a buffer *)

(** The reference: the packets found from offset [p] on with [n] bytes left,
    and the number of bytes left over. *)
Fixpoint ts_scan (fuel : nat) (size : Z) (buf : list Z) (p left : Z) : option (list swdmx_tspacket * Z) :=
  match fuel with
  | O => None
  | Datatypes.S f =>
      if left <? size then Some ([], left)
      else if decide (aget buf p = Some 71) then
        h ← ts_packet_header size buf p;
        r ← ts_scan f size buf (p + size) (left - size);
        Some (match h with Some k => k :: r.1 | None => r.1 end, r.2)
      else ts_scan f size buf (p + 1) (left - 1)
  end.

(** The fields of a packet and the pieces of the buffer it points to. *)
Record ts_packet_ok (size : Z) (buf : list Z) (k : swdmx_tspacket) : Prop := {
  tk_pid : 0 ≤ pid k < 8191;
  tk_start : 0 ≤ payload_start k ≤ 1;
  tk_priority : 0 ≤ priority k ≤ 1;
  tk_error : 0 ≤ error k ≤ 1;
  tk_scramble : 0 ≤ scramble k ≤ 3;
  tk_cc : 0 ≤ cc k ≤ 15;
  tk_packet : 0 ≤ packet k ∧ packet k + packet_len k ≤ zlen buf ∧ packet_len k = size;
  tk_adp : ∀ a, adp_field k = Some a →
    a = packet k + 5 ∧ 0 ≤ adp_field_len k ≤ 183;
  tk_payload : ∀ a, payload k = Some a → packet k + 4 ≤ a ∧ 0 ≤ payload_len k ∧
    a + payload_len k = packet k + 188;
  tk_no_payload : payload k = None → payload_len k = 0
}.

Lemma land_ones_range x k : 0 ≤ k → 0 ≤ Z.land x (Z.ones k) < 2 ^ k.
Proof. intros. rewrite Z.land_ones by done. apply Z.mod_pos_bound. lia. Qed.

Lemma flag_range x k : 0 ≤ x → 0 ≤ k → 0 ≤ Z.shiftr (Z.land x (2 ^ k)) k ≤ 1.
Proof.
  intros Hx Hk. rewrite Z.shiftr_land, (Z.shiftr_div_pow2 (2 ^ k)), Z.div_same by (try apply Z.pow_nonzero; lia).
  pose proof (land_ones_range (Z.shiftr x k) 1 ltac:(lia)) as Hr.
  change (Z.ones 1) with 1 in Hr. change (2 ^ 1) with 2 in Hr. lia.
Qed.

Lemma byte_shiftr x k : 0 ≤ x < 256 → 0 ≤ k ≤ 8 → 0 ≤ Z.shiftr x k < 2 ^ (8 - k).
Proof.
  intros Hx Hk. rewrite Z.shiftr_div_pow2 by lia. split; [apply Z.div_pos; lia|].
  apply Z.div_lt_upper_bound; [lia|]. rewrite <- Z.pow_add_r by lia. replace (k + (8 - k)) with 8 by lia. lia.
Qed.

Lemma pid_range p1 p2 : 0 ≤ p2 < 256 →
  Z.lor (Z.shiftl (Z.land p1 31) 8) p2 = Z.land p1 31 * 256 + p2 ∧
  0 ≤ Z.land p1 31 * 256 + p2 < 8192.
Proof.
  intros H2. pose proof (land_ones_range p1 5 ltac:(lia)) as Hr. change (Z.ones 5) with 31 in Hr.
  change (2 ^ 5) with 32 in Hr.
  rewrite Z.shiftl_mul_pow2 by lia. split; [apply (lor_mul_add _ _ 8); lia|lia].
Qed.

(** A packet inside the buffer is decoded without a read outside it. *)
Lemma ts_packet_header_ok size buf p : is_bytes buf → 188 ≤ size → 0 ≤ p → p + size ≤ zlen buf →
  ∃ h, ts_packet_header size buf p = Some h ∧ ∀ k, h = Some k → ts_packet_ok size buf k.
Proof.
  intros Hb Hsize Hp Hlen. unfold ts_packet_header.
  assert (∀ i, 0 ≤ i < zlen buf → ∃ v, aget buf i = Some v ∧ 0 ≤ v < 256) as Hget.
  { intros i Hi. destruct (aget_Some buf i Hi) as [v Hv]. exists v. split; [done|].
    apply aget_inv in Hv as [_ Hv]. by eapply (proj1 (Forall_lookup _ _) Hb). }
  destruct (Hget (p + 1) ltac:(lia)) as (p1 & -> & H1). destruct (Hget (p + 2) ltac:(lia)) as (p2 & -> & H2).
  cbn [mbind option_bind]. destruct (pid_range p1 p2 H2) as [-> Hpid].
  destruct (Z.eqb_spec (Z.land p1 31 * 256 + p2) 8191) as [|Hne]; [by exists None|].
  destruct (Hget (p + 3) ltac:(lia)) as (p3 & -> & H3). cbn [mbind option_bind].
  pose proof (flag_range p1 6 ltac:(lia) ltac:(lia)). pose proof (flag_range p1 5 ltac:(lia) ltac:(lia)).
  pose proof (flag_range p1 7 ltac:(lia) ltac:(lia)). pose proof (byte_shiftr p3 6 H3 ltac:(lia)).
  pose proof (land_ones_range p3 4 ltac:(lia)) as Hcc. change (Z.ones 4) with 15 in Hcc.
  change (2 ^ 6) with 64 in *. change (2 ^ 5) with 32 in *. change (2 ^ 7) with 128 in *. change (2 ^ (8 - 6)) with 4 in *.
  change (2 ^ 4) with 16 in *.
  destruct (truth (Z.land (Z.land (Z.shiftr p3 4) 3) 2)).
  - destruct (Hget (p + 4) ltac:(lia)) as (al & -> & Hal). cbn [mbind option_bind].
    destruct (Z.ltb_spec (184 - 1 - al) 0) as [|Hle]; [by exists None|].
    destruct (truth _); eexists; (split; [reflexivity|]); intros k [= <-]; split; cbn; try lia;
      intros; simplify_eq; cbn in *; try done; lia.
  - destruct (truth _); eexists; (split; [reflexivity|]); intros k [= <-]; split; cbn; try lia;
      intros; simplify_eq; cbn in *; try done; lia.
Qed.

(** ** The run of the parser *)

Definition calls (cbs : list swdmx_cb_entry) (ks : list swdmx_tspacket) : list (swdmx_cb_entry * swdmx_tspacket) :=
  k ← ks; (fun e => (e, k)) <$> cbs.

Lemma calls_app cbs ks ks' : calls cbs (ks ++ ks') = calls cbs ks ++ calls cbs ks'.
Proof. unfold calls. by rewrite bind_app. Qed.

Lemma call_all_log cbs k buf log :
  call_all log_deliver cbs k (buf, log) = Ok tt (buf, log ++ ((fun e => (e, k)) <$> cbs)).
Proof.
  revert log. induction cbs as [|e cbs IH]; intros log; cbn.
  - by rewrite app_nil_r.
  - unfold mbind, M_bind, log_deliver, modify. cbn. rewrite IH. by rewrite <- app_assoc.
Qed.

Lemma run_loop_scan tsp buf fuel p left log ks r :
  ts_scan fuel (packet_size tsp) buf p left = Some (ks, r) → 0 < packet_size tsp →
  (∀ i, p ≤ i < p + left → is_Some (aget buf i)) →
  run_loop fst log_deliver fuel tsp p left (buf, log) = Ok r (buf, log ++ calls (tsp_cb_list tsp) ks).
Proof.
  revert p left log ks r. induction fuel as [|fuel IH]; intros p left log ks r Hs Hsz Hin; [done|].
  cbn [ts_scan run_loop] in *. rewrite Z.geb_leb. destruct (Z.ltb_spec left (packet_size tsp)) as [Hl|Hl].
  - injection Hs as <- <-. rewrite (proj2 (Z.leb_gt _ _)) by done. unfold calls. cbn. by rewrite app_nil_r.
  - rewrite (proj2 (Z.leb_le _ _)) by done. destruct (Hin p ltac:(lia)) as [b Hb].
    unfold mbind, M_bind, gets. cbn [fst]. rewrite Hb in *. cbn [of_option mret M_ret].
    case_decide as Hd.
    + injection Hd as ->. rewrite Z.eqb_refl. unfold ts_packet, mbind, M_bind, gets. cbn [fst].
      destruct (ts_packet_header _ buf p) as [h|]; [|done]. cbn [of_option mret M_ret].
      cbn [mbind option_bind] in Hs.
      destruct (ts_scan fuel _ buf (p + _) _) as [[ks' r']|] eqn:Hs'; [|done]. cbn in Hs. injection Hs as <- <-.
      destruct h as [k|].
      * rewrite call_all_log. rewrite (IH _ _ _ _ _ Hs') by (auto; intros; apply Hin; lia).
        unfold calls at 2. cbn. by rewrite <- app_assoc.
      * cbn [mret M_ret]. by rewrite (IH _ _ _ _ _ Hs') by (auto; intros; apply Hin; lia).
    + rewrite (proj2 (Z.eqb_neq _ _)) by congruence. apply IH; auto. intros; apply Hin; lia.
Qed.

Lemma ts_scan_total size buf fuel p left : is_bytes buf → 188 ≤ size → 0 ≤ p → p + left ≤ zlen buf →
  left ≤ Z.of_nat fuel → ∃ ks r, ts_scan (S fuel) size buf p left = Some (ks, r) ∧
    r < size ∧ r ≤ left ∧ (0 ≤ left → 0 ≤ r) ∧ Forall (ts_packet_ok size buf) ks.
Proof.
  intros Hb Hsz. revert p left. induction fuel as [|fuel IH]; intros p left Hp Hl Hf.
  - exists [], left. cbn [ts_scan]. rewrite (proj2 (Z.ltb_lt _ _)) by lia.
    split; [done|]. split; [lia|]. split; [lia|]. split; [lia|constructor].
  - cbn [ts_scan]. destruct (Z.ltb_spec left size) as [|Hge].
    { exists [], left. split; [done|]. split; [lia|]. split; [lia|]. split; [lia|constructor]. }
    case_decide as Hd.
    + destruct (ts_packet_header_ok size buf p Hb Hsz Hp ltac:(lia)) as (h & -> & Hh). cbn [mbind option_bind].
      destruct (IH (p + size) (left - size) ltac:(lia) ltac:(lia) ltac:(lia)) as (ks & r & Hs & H1 & H2 & H3 & H4).
      cbn [ts_scan] in Hs. rewrite Hs. cbn. eexists _, r. split; [reflexivity|].
      split; [done|]. split; [lia|]. split; [lia|]. destruct h as [k|]; [|done]. constructor; [by apply Hh|done].
    + destruct (IH (p + 1) (left - 1) ltac:(lia) ltac:(lia) ltac:(lia)) as (ks & r & Hs & H1 & H2 & H3 & H4).
      cbn [ts_scan] in Hs. rewrite Hs. exists ks, r. split; [done|]. split; [done|]. split; [lia|]. split; [lia|done].
Qed.

Lemma run_log_scan tsp buf p len : is_bytes buf → tsp_ok tsp → 0 ≤ p → p + len ≤ zlen buf →
  ∃ ks r, ts_scan (S (Z.to_nat len)) (packet_size tsp) buf p len = Some (ks, r) ∧
    run_log tsp buf p len = Ok (len - r) (buf, calls (tsp_cb_list tsp) ks) ∧
    r < packet_size tsp ∧ r ≤ len ∧ (0 ≤ len → 0 ≤ r) ∧ Forall (ts_packet_ok (packet_size tsp) buf) ks.
Proof.
  intros Hb Ht Hp Hl. unfold tsp_ok in Ht.
  destruct (ts_scan_total (packet_size tsp) buf (Z.to_nat len) p len Hb Ht Hp Hl ltac:(lia))
    as (ks & r & Hs & Hr).
  exists ks, r. split; [done|]. split; [|done]. unfold run_log, swdmx_ts_parser_run, mbind, M_bind.
  rewrite (run_loop_scan _ _ _ _ _ [] _ _ Hs); [done|lia|]. intros i Hi.
  destruct (aget_Some buf i) as [v ->]; [lia|by eexists].
Qed.

(** More fuel does not change the result. *)
Lemma ts_scan_mono size buf f f' p left x :
  ts_scan f size buf p left = Some x → (f ≤ f')%nat → ts_scan f' size buf p left = Some x.
Proof.
  revert f' p left x. induction f as [|f IH]; intros [|f'] p left x Hs Hf; try (done || lia).
  cbn [ts_scan] in *. destruct (left <? size); [done|]. case_decide.
  - destruct (ts_packet_header _ _ _); [|done]. cbn [mbind option_bind] in *.
    destruct (ts_scan f _ _ _ _) as [y|] eqn:Hy; [|done]. by rewrite (IH f' _ _ _ Hy) by lia.
  - apply IH; [done|lia].
Qed.

Lemma ts_scan_fuel size buf f f' p left x y :
  ts_scan f size buf p left = Some x → ts_scan f' size buf p left = Some y → x = y.
Proof.
  intros H1 H2. apply (ts_scan_mono _ _ _ (f + f')) in H1; [|lia].
  apply (ts_scan_mono _ _ _ (f + f')) in H2; [|lia]. congruence.
Qed.

Lemma ts_scan_split size buf f f2 p left d ks1 r1 ks2 r2 :
  0 ≤ d → ts_scan f size buf p left = Some (ks1, r1) →
  ts_scan f2 size buf (p + left - r1) (r1 + d) = Some (ks2, r2) →
  ts_scan (f + f2) size buf p (left + d) = Some (ks1 ++ ks2, r2).
Proof.
  intros Hd. revert p left ks1 r1. induction f as [|f IH]; intros p left ks1 r1 H1 H2; [done|].
  cbn [ts_scan] in H1. destruct (Z.ltb_spec left size).
  - injection H1 as <- <-. replace (p + left - left) with p in H2 by lia.
    eapply ts_scan_mono; [exact H2|lia].
  - cbn [Nat.add ts_scan]. rewrite (proj2 (Z.ltb_ge _ _)) by lia. case_decide.
    + destruct (ts_packet_header size buf p) as [h|]; [|done]. cbn [mbind option_bind] in *.
      destruct (ts_scan f size buf (p + size) (left - size)) as [[ks r]|] eqn:Hs; [|done].
      cbn in H1. injection H1 as <- <-.
      replace (left + d - size) with (left - size + d) by lia.
      rewrite (IH _ _ _ _ Hs) by (by replace (p + size + (left - size) - r) with (p + left - r) by lia).
      cbn. by destruct h.
    + replace (left + d - 1) with (left - 1 + d) by lia.
      apply (IH _ _ _ r1 H1). by replace (p + 1 + (left - 1) - r1) with (p + left - r1) by lia.
Qed.

(** [swdmx_ts_parser_run] terminates and is memory safe on any bytes: it
    leaves less than a packet unconsumed, calls the callbacks in their order
    for each packet, and the packets it hands to them have their fields in
    range and a payload that lies inside the first 188 bytes of the packet. *)
Theorem ts_parser_run_safe tsp buf p len :
  tsp_ok tsp → is_bytes buf → 0 ≤ p → 0 ≤ len → p + len ≤ zlen buf →
  ∃ n ks, run_log tsp buf p len = Ok n (buf, calls (tsp_cb_list tsp) ks) ∧
    0 ≤ n ≤ len ∧ len - n < packet_size tsp ∧ Forall (ts_packet_ok (packet_size tsp) buf) ks.
Proof.
  intros Ht Hb Hp Hlen Hl. destruct (run_log_scan tsp buf p len Hb Ht Hp Hl) as (ks & r & _ & Hr & H1 & H2 & H3 & H4).
  exists (len - r), ks. split; [done|]. split; [lia|]. split; [lia|done].
Qed.

Lemma ts_parser_run_safe_witness :
  let buf := [71; 64; 17; 48; 255] ++ replicate 200 9 in
  ∃ n ks, run_log (mk_tsp 188 [mk_cb 1 2]) buf 0 205 = Ok n (buf, calls [mk_cb 1 2] ks) ∧
    0 ≤ n ≤ 205 ∧ 205 - n < 188 ∧ Forall (ts_packet_ok 188 buf) ks.
Proof.
  apply (ts_parser_run_safe (mk_tsp 188 [mk_cb 1 2]) ([71; 64; 17; 48; 255] ++ replicate 200 9) 0 205).
  - unfold tsp_ok. cbn. lia.
  - apply Forall_app. split; [repeat constructor; lia|by apply Forall_replicate].
  - lia.
  - lia.
  - unfold zlen. rewrite length_app, length_replicate. cbn. lia.
Defined.

(** the calls do not depend on how the data is cut into pieces, as long
    as the caller offers the unconsumed rest again: parsing the first [len1]
    bytes and then the rest from the returned position is parsing all. *)
Theorem ts_parser_run_incremental tsp buf p len1 len n1 l1 n2 l2 :
  tsp_ok tsp → is_bytes buf → 0 ≤ p → 0 ≤ len1 ≤ len → p + len ≤ zlen buf →
  run_log tsp buf p len1 = Ok n1 (buf, l1) →
  run_log tsp buf (p + n1) (len - n1) = Ok n2 (buf, l2) →
  run_log tsp buf p len = Ok (n1 + n2) (buf, l1 ++ l2).
Proof.
  intros Ht Hb Hp Hlen Hl H1 H2.
  destruct (run_log_scan tsp buf p len1 Hb Ht Hp ltac:(lia)) as (ks1 & r1 & Hs1 & Hr1 & _ & ? & ? & _).
  rewrite Hr1 in H1. injection H1 as <- <-.
  destruct (run_log_scan tsp buf (p + (len1 - r1)) (len - (len1 - r1)) Hb Ht ltac:(lia) ltac:(lia))
    as (ks2 & r2 & Hs2 & Hr2 & _).
  rewrite Hr2 in H2. injection H2 as <- <-.
  destruct (run_log_scan tsp buf p len Hb Ht Hp Hl) as (ks & r & Hs & Hr & _). rewrite Hr.
  replace (p + (len1 - r1)) with (p + len1 - r1) in Hs2 by lia.
  replace (len - (len1 - r1)) with (r1 + (len - len1)) in Hs2 by lia.
  pose proof (ts_scan_split _ _ _ _ _ _ (len - len1) _ _ _ _ ltac:(lia) Hs1 Hs2) as Hs3.
  replace (len1 + (len - len1)) with len in Hs3 by lia.
  pose proof (ts_scan_fuel _ _ _ _ _ _ _ _ Hs Hs3) as [= -> ->].
  rewrite calls_app. f_equal. lia.
Qed.

Lemma ts_parser_run_incremental_witness :
  let buf := [1; 71; 64; 17; 16] ++ replicate 184 5 ++ [71; 0; 17; 17] ++ replicate 184 6 in
  run_log (mk_tsp 188 [mk_cb 1 2]) buf 0 300 = Ok 189 (buf, calls [mk_cb 1 2]
    [mk_tspkt 17 1 0 0 0 0 1 188 None 0 (Some 5) 184]) ∧
  run_log (mk_tsp 188 [mk_cb 1 2]) buf 0 377 = Ok (189 + 188) (buf, calls [mk_cb 1 2]
    [mk_tspkt 17 1 0 0 0 0 1 188 None 0 (Some 5) 184] ++ calls [mk_cb 1 2]
    [mk_tspkt 17 0 0 0 0 1 189 188 None 0 (Some 193) 184]).
Proof.
  split; [by vm_compute|].
  apply (ts_parser_run_incremental (mk_tsp 188 [mk_cb 1 2])
    ([1; 71; 64; 17; 16] ++ replicate 184 5 ++ [71; 0; 17; 17] ++ replicate 184 6) 0 300 377 189
    (calls [mk_cb 1 2] [mk_tspkt 17 1 0 0 0 0 1 188 None 0 (Some 5) 184]) 188
    (calls [mk_cb 1 2] [mk_tspkt 17 0 0 0 0 1 189 188 None 0 (Some 193) 184])).
  - unfold tsp_ok. cbn. lia.
  - repeat (apply Forall_app; split); try (by apply Forall_replicate); repeat constructor; lia.
  - lia.
  - lia.
  - by vm_compute.
  - by vm_compute.
  - by vm_compute.
Defined.

(** ** Encoding *)

(** The fields of a packet as ISO/IEC 13818-1 lays them out. *)
Record ts_fields := mk_tsf {
  tf_error : bool;
  tf_start : bool;
  tf_priority : bool;
  tf_pid : Z;
  tf_scramble : Z;
  tf_cc : Z;
  tf_adp : option (list Z);   (** adaptation field without its length byte *)
  tf_has_payload : bool;
  tf_rest : list Z            (** the payload, or stuffing when there is none *)
}.

Definition ts_encode (f : ts_fields) : list Z :=
  [71;
   b2z (tf_error f) * 128 + b2z (tf_start f) * 64 + b2z (tf_priority f) * 32 + tf_pid f / 256;
   tf_pid f mod 256;
   tf_scramble f * 64 + (if tf_adp f then 32 else 0) + b2z (tf_has_payload f) * 16 + tf_cc f] ++
  match tf_adp f with Some a => zlen a :: a | None => [] end ++ tf_rest f.

Record ts_fields_ok (f : ts_fields) : Prop := {
  tfo_pid : 0 ≤ tf_pid f < 8192;
  tfo_scramble : 0 ≤ tf_scramble f < 4;
  tfo_cc : 0 ≤ tf_cc f < 16;
  tfo_adp : ∀ a, tf_adp f = Some a → zlen a ≤ 183;
  tfo_len : zlen (ts_encode f) = 188
}.

(** The packet the callbacks get for [f] at offset [p]. *)
Definition ts_expect (size p : Z) (f : ts_fields) : swdmx_tspacket :=
  let a := match tf_adp f with Some a => 1 + zlen a | None => 0 end in
  mk_tspkt (tf_pid f) (b2z (tf_start f)) (b2z (tf_priority f)) (b2z (tf_error f)) (tf_scramble f)
    (tf_cc f) p size
    (match tf_adp f with Some _ => Some (p + 5) | None => None end)
    (match tf_adp f with Some a => zlen a | None => 0 end)
    (if tf_has_payload f then Some (p + 4 + a) else None)
    (if tf_has_payload f then zlen (tf_rest f) else 0).

(** Null packets are dropped. *)
Fixpoint ts_expect_all (size p : Z) (fs : list ts_fields) : list swdmx_tspacket :=
  match fs with
  | [] => []
  | f :: fs => (if tf_pid f =? 8191 then [] else [ts_expect size p f]) ++ ts_expect_all size (p + size) fs
  end.

Lemma aget_app_r {A} (l k : list A) i : 0 ≤ i → aget (l ++ k) (zlen l + i) = aget k i.
Proof.
  intros Hi. unfold aget, zlen. rewrite !(proj2 (Z.leb_le _ _)) by lia.
  rewrite lookup_app_r by lia. f_equal. lia.
Qed.

Lemma flag_div x k : 0 ≤ k → Z.shiftr (Z.land x (2 ^ k)) k = (x / 2 ^ k) mod 2.
Proof.
  intros Hk. rewrite Z.shiftr_land, (Z.shiftr_div_pow2 (2 ^ k)), Z.div_same by (try apply Z.pow_nonzero; lia).
  change (Z.land (Z.shiftr x k) 1) with (Z.land (Z.shiftr x k) (Z.ones 1)).
  rewrite Z.land_ones, Z.shiftr_div_pow2 by lia. done.
Qed.

Lemma land_31 x : Z.land x 31 = x mod 32.
Proof. change 31 with (Z.ones 5). by rewrite Z.land_ones by lia. Qed.

Lemma land_15 x : Z.land x 15 = x mod 16.
Proof. change 15 with (Z.ones 4). by rewrite Z.land_ones by lia. Qed.

Lemma b2z_cases b : b2z b = 0 ∨ b2z b = 1.
Proof. destruct b; auto. Qed.

(** The two bits of adaptation_field_control. *)
Lemma afc_bits scr cc (a b : bool) : 0 ≤ scr < 4 → 0 ≤ cc < 16 →
  let p3 := scr * 64 + (if a then 32 else 0) + b2z b * 16 + cc in
  Z.shiftr p3 6 = scr ∧ Z.land p3 15 = cc ∧
  truth (Z.land (Z.land (Z.shiftr p3 4) 3) 2) = a ∧ truth (Z.land (Z.land (Z.shiftr p3 4) 3) 1) = b.
Proof.
  intros Hs Hc p3.
  assert (Z.shiftr p3 4 = scr * 4 + (if a then 2 else 0) + b2z b) as H4.
  { rewrite Z.shiftr_div_pow2 by lia. unfold p3, b2z. change (2 ^ 4) with 16. symmetry.
    apply (Z.div_unique _ _ _ cc); destruct a, b; lia. }
  assert (Z.land (Z.shiftr p3 4) 3 = (if a then 2 else 0) + b2z b) as ->.
  { change 3 with (Z.ones 2). rewrite Z.land_ones, H4 by lia. change (2 ^ 2) with 4.
    rewrite <- Z.add_assoc, Z.add_comm, Z.mod_add by lia. apply Z.mod_small. unfold b2z. destruct a, b; lia. }
  split; [|split; [|by destruct a, b]].
  - rewrite Z.shiftr_div_pow2 by lia. change (2 ^ 6) with 64. symmetry.
    apply (Z.div_unique _ _ _ (p3 - scr * 64)); unfold p3, b2z; destruct a, b; lia.
  - rewrite land_15. symmetry. apply (Z.mod_unique _ _ (scr * 4 + (if a then 2 else 0) + b2z b));
      unfold p3, b2z; destruct a, b; lia.
Qed.

Lemma ts_header_encode size pre f post : ts_fields_ok f →
  ts_packet_header size (pre ++ ts_encode f ++ post) (zlen pre) =
    Some (if tf_pid f =? 8191 then None else Some (ts_expect size (zlen pre) f)).
Proof.
  intros [Hpid Hscr Hcc Hadp Hlen]. unfold ts_packet_header.
  assert (∀ i x, 0 ≤ i → aget (ts_encode f) i = Some x → aget (pre ++ ts_encode f ++ post) (zlen pre + i) = Some x) as Hget.
  { intros i x Hi Hx. rewrite aget_app_r by done. unfold aget in *. rewrite (proj2 (Z.leb_le _ _)) in * by lia.
    by apply lookup_app_l_Some. }
  set (buf := pre ++ _ ++ _) in *. clearbody buf.
  set (p1 := b2z (tf_error f) * 128 + b2z (tf_start f) * 64 + b2z (tf_priority f) * 32 + tf_pid f / 256).
  assert (0 ≤ tf_pid f / 256 < 32) by (split; [apply Z.div_pos|apply Z.div_lt_upper_bound]; lia).
  pose proof (b2z_cases (tf_error f)). pose proof (b2z_cases (tf_start f)). pose proof (b2z_cases (tf_priority f)).
  rewrite (Hget 1 p1), (Hget 2 (tf_pid f mod 256)) by (try lia; reflexivity). cbn [mbind option_bind].
  destruct (pid_range p1 (tf_pid f mod 256)) as [-> _]; [apply Z.mod_pos_bound; lia|].
  rewrite land_31. assert (p1 mod 32 = tf_pid f / 256) as ->.
  { symmetry. apply (Z.mod_unique _ _ (b2z (tf_error f) * 4 + b2z (tf_start f) * 2 + b2z (tf_priority f))); unfold p1; lia. }
  replace (tf_pid f / 256 * 256 + tf_pid f mod 256) with (tf_pid f)
    by (pose proof (Z.div_mod (tf_pid f) 256); lia).
  destruct (tf_pid f =? 8191); [done|].
  change 64 with (2 ^ 6). change 32 with (2 ^ 5). change 128 with (2 ^ 7). rewrite !flag_div by lia.
  assert ((p1 / 2 ^ 6) mod 2 = b2z (tf_start f)) as ->.
  { replace (p1 / 2 ^ 6) with (b2z (tf_error f) * 2 + b2z (tf_start f)).
    - symmetry. apply (Z.mod_unique _ _ (b2z (tf_error f))); lia.
    - apply (Z.div_unique _ _ _ (b2z (tf_priority f) * 32 + tf_pid f / 256)); unfold p1; lia. }
  assert ((p1 / 2 ^ 5) mod 2 = b2z (tf_priority f)) as ->.
  { replace (p1 / 2 ^ 5) with (b2z (tf_error f) * 4 + b2z (tf_start f) * 2 + b2z (tf_priority f)).
    - symmetry. apply (Z.mod_unique _ _ (b2z (tf_error f) * 2 + b2z (tf_start f))); lia.
    - apply (Z.div_unique _ _ _ (tf_pid f / 256)); unfold p1; lia. }
  assert ((p1 / 2 ^ 7) mod 2 = b2z (tf_error f)) as ->.
  { replace (p1 / 2 ^ 7) with (b2z (tf_error f)); [by destruct (tf_error f)|].
    apply (Z.div_unique _ _ _ (b2z (tf_start f) * 64 + b2z (tf_priority f) * 32 + tf_pid f / 256)); unfold p1; lia. }
  clear p1. rewrite (Hget 3 _ ltac:(lia) eq_refl). cbn [mbind option_bind].
  destruct (afc_bits (tf_scramble f) (tf_cc f) (if tf_adp f then true else false) (tf_has_payload f) Hscr Hcc)
    as (E1 & E2 & E3 & E4).
  destruct (tf_adp f) as [a|] eqn:Ha; cbn [tf_adp] in *; rewrite E1, E2, E3, E4.
  - assert (aget (ts_encode f) 4 = Some (zlen a)) as H4 by (unfold ts_encode; by rewrite Ha).
    rewrite (Hget 4 _ ltac:(lia) H4). cbn [mbind option_bind].
    pose proof (Hadp a eq_refl). rewrite (proj2 (Z.ltb_ge _ _)) by lia.
    unfold ts_encode in Hlen. rewrite Ha in Hlen.
    assert (zlen (tf_rest f) = 184 - 1 - zlen a) as Hr.
    { unfold zlen in *. cbn [length app] in Hlen. rewrite length_app in Hlen. lia. }
    unfold ts_expect. rewrite Ha, Hr. destruct (tf_has_payload f); cbn [truth Z.eqb negb]; unfold set_field; cbn -[Z.add Z.sub]; do 3 f_equal; first [lia|f_equal; lia].
  - assert (zlen (tf_rest f) = 184) as Hr.
    { unfold ts_encode in Hlen. rewrite Ha in Hlen. unfold zlen in *. cbn [length app] in Hlen. lia. }
    unfold ts_expect. rewrite Ha, Hr. destruct (tf_has_payload f); cbn [truth Z.eqb negb]; unfold set_field; cbn -[Z.add Z.sub]; do 3 f_equal; first [lia|f_equal; lia].
Qed.

Definition ts_stream (fs : list ts_fields) : list Z := concat (ts_encode <$> fs).

(** The bytes a packet gives to its consumers. *)
Definition ts_payload (buf : list Z) (k : swdmx_tspacket) : option (list Z) :=
  (fun a => take (Z.to_nat (payload_len k)) (drop (Z.to_nat a) buf)) <$> payload k.

Lemma zlen_ts_stream fs : Forall ts_fields_ok fs → zlen (ts_stream fs) = 188 * zlen fs.
Proof.
  unfold ts_stream. induction 1 as [|f fs Hf Hfs IH]; [done|]. cbn [fmap list_fmap concat].
  rewrite zlen_app, IH, (tfo_len _ Hf). unfold zlen. cbn [length]. lia.
Qed.

Lemma ts_scan_stream fs pre fuel : Forall ts_fields_ok fs → (length fs < fuel)%nat →
  ts_scan fuel 188 (pre ++ ts_stream fs) (zlen pre) (188 * zlen fs) =
    Some (ts_expect_all 188 (zlen pre) fs, 0).
Proof.
  intros Hfs. revert pre fuel. induction Hfs as [|f fs Hf Hfs IH]; intros pre [|fuel] Hfuel; cbn [length] in Hfuel; try lia.
  - done.
  - cbn [ts_scan]. assert (zlen (f :: fs) = 1 + zlen fs) as -> by (unfold zlen; cbn [length]; lia).
    pose proof (zlen_nonneg fs). rewrite (proj2 (Z.ltb_ge _ _)) by lia.
    unfold ts_stream. cbn [fmap list_fmap concat]. fold (ts_stream fs).
    rewrite decide_True by (by rewrite <- (Z.add_0_r (zlen pre)), aget_app_r by lia).
    rewrite ts_header_encode by done. cbn [mbind option_bind].
    pose proof (IH (pre ++ ts_encode f) fuel ltac:(lia)) as IH'.
    rewrite zlen_app, (tfo_len _ Hf), <- app_assoc in IH'.
    replace (188 * (1 + zlen fs) - 188) with (188 * zlen fs) by lia. rewrite IH'.
    cbn [mbind option_bind ts_expect_all fst snd]. by destruct (tf_pid f =? 8191).
Qed.

Lemma ts_scan_garbage size g pre post fuel left : Forall (fun b => b ≠ 71) g → size ≤ left - zlen g →
  ts_scan (length g + fuel) size (pre ++ g ++ post) (zlen pre) left =
    ts_scan fuel size (pre ++ g ++ post) (zlen pre + zlen g) (left - zlen g).
Proof.
  intros Hg. revert pre left. induction Hg as [|b g Hb Hg IH]; intros pre left Hl.
  - cbn [length Nat.add]. change (zlen []) with 0 in *. by rewrite Z.add_0_r, Z.sub_0_r.
  - assert (zlen (b :: g) = 1 + zlen g) as E by (unfold zlen; cbn [length]; lia). rewrite E in *.
    pose proof (zlen_nonneg g). cbn [length Nat.add ts_scan].
    rewrite (proj2 (Z.ltb_ge _ _)) by lia.
    assert (aget (pre ++ (b :: g) ++ post) (zlen pre) = Some b) as Hget
      by (by rewrite <- (Z.add_0_r (zlen pre)), aget_app_r by lia).
    rewrite Hget, decide_False by congruence.
    pose proof (IH (pre ++ [b]) (left - 1) ltac:(lia)) as IH'. rewrite zlen_app in IH'. change (zlen [b]) with 1 in IH'.
    rewrite <- app_assoc in IH'. change ([b] ++ g ++ post) with ((b :: g) ++ post) in IH'.
    rewrite IH'. f_equal; lia.
Qed.

Lemma ts_payload_encode pre f post : ts_fields_ok f →
  ts_payload (pre ++ ts_encode f ++ post) (ts_expect 188 (zlen pre) f) =
    if tf_has_payload f then Some (tf_rest f) else None.
Proof.
  intros [_ _ _ _ _]. unfold ts_payload, ts_expect. cbn [payload payload_len].
  destruct (tf_has_payload f); [|done]. cbn [fmap option_fmap option_map]. f_equal.
  assert (∃ hd, zlen hd = 4 + match tf_adp f with Some a => 1 + zlen a | None => 0 end ∧
    ts_encode f = hd ++ tf_rest f) as (hd & Hhd & ->).
  { unfold ts_encode. rewrite app_assoc. eexists. split; [|reflexivity].
    destruct (tf_adp f); rewrite zlen_app; unfold zlen; cbn [length]; lia. }
  assert (zlen pre + 4 + match tf_adp f with Some a => 1 + zlen a | None => 0 end = zlen (pre ++ hd)) as ->.
  { rewrite zlen_app, Hhd. lia. }
  rewrite <- app_assoc, app_assoc. unfold zlen. rewrite !Nat2Z.id, drop_app_length. apply take_app_length.
Qed.

Lemma ts_payload_all fs pre : Forall ts_fields_ok fs →
  ts_payload (pre ++ ts_stream fs) <$> ts_expect_all 188 (zlen pre) fs =
    (fun f => if tf_has_payload f then Some (tf_rest f) else None) <$> filter (fun f => tf_pid f ≠ 8191) fs.
Proof.
  intros Hfs. revert pre. induction Hfs as [|f fs Hf Hfs IH]; intros pre; [done|].
  unfold ts_stream. cbn [ts_expect_all fmap list_fmap concat]. fold (ts_stream fs).
  pose proof (IH (pre ++ ts_encode f)) as IH'. rewrite zlen_app, (tfo_len _ Hf), <- app_assoc in IH'.
  destruct (Z.eqb_spec (tf_pid f) 8191).
  - rewrite filter_cons_False by tauto. exact IH'.
  - rewrite filter_cons_True by done. cbn [app fmap list_fmap]. by rewrite ts_payload_encode, IH'.
Qed.

(** C12: encode/parse round trip and resynchronisation: a stream of encoded
    packets behind bytes without a sync byte is consumed completely; every
    packet except the null ones is delivered, in order, with exactly the
    encoded fields, and its payload pointer and length select exactly the
    encoded payload. *)
Theorem ts_parser_roundtrip tsp g fs :
  packet_size tsp = 188 → Forall (fun b => b ≠ 71) g → Forall ts_fields_ok fs → fs ≠ [] →
  let buf := g ++ ts_stream fs in
  let ks := ts_expect_all 188 (zlen g) fs in
  run_log tsp buf 0 (zlen buf) = Ok (zlen buf) (buf, calls (tsp_cb_list tsp) ks) ∧
  ts_payload buf <$> ks =
    (fun f => if tf_has_payload f then Some (tf_rest f) else None) <$> filter (fun f => tf_pid f ≠ 8191) fs.
Proof.
  intros Hsize Hg Hfs Hne buf ks. split; [|by apply ts_payload_all].
  assert (1 ≤ zlen fs) by (destruct fs; [done|unfold zlen; cbn [length]; lia]).
  pose proof (ts_scan_garbage 188 g [] (ts_stream fs) (S (Z.to_nat (188 * zlen fs))) (zlen buf) Hg) as Hs.
  unfold buf in Hs at 1 3. rewrite zlen_app, (zlen_ts_stream fs Hfs) in Hs. specialize (Hs ltac:(lia)).
  cbn [app] in Hs. change (zlen []) with 0 in Hs. rewrite Z.add_0_l in Hs.
  replace (zlen g + 188 * zlen fs - zlen g) with (188 * zlen fs) in Hs by lia.
  rewrite ts_scan_stream in Hs; [|done|unfold zlen in *; lia].
  unfold run_log, swdmx_ts_parser_run, mbind, M_bind.
  replace (S (Z.to_nat (zlen buf))) with (length g + S (Z.to_nat (188 * zlen fs)))%nat.
  2: { unfold buf. rewrite zlen_app, (zlen_ts_stream fs Hfs). unfold zlen. lia. }
  fold buf in Hs. rewrite (run_loop_scan _ _ _ _ _ [] ks 0) by (rewrite ?Hsize; first [exact Hs|lia|
    intros i Hi; destruct (aget_Some buf i) as [v ->]; [lia|by eexists]]).
  cbn. by rewrite Z.sub_0_r.
Qed.

(** A packet with adaptation field and payload, a null packet, a packet
    without payload. *)
Definition sample_packets : list ts_fields :=
  [mk_tsf false true false 256 0 3 (Some [0; 255; 255]) true (replicate 180 7);
   mk_tsf false false false 8191 0 0 None true (replicate 184 255);
   mk_tsf true false true 17 2 4 (Some (replicate 183 0)) false []].

Lemma ts_parser_roundtrip_witness :
  let buf := [0; 1; 2] ++ ts_stream sample_packets in
  let ks := ts_expect_all 188 3 sample_packets in
  run_log (mk_tsp 188 [mk_cb 1 0]) buf 0 (zlen buf) = Ok (zlen buf) (buf, calls [mk_cb 1 0] ks) ∧
  ts_payload buf <$> ks =
    (fun f => if tf_has_payload f then Some (tf_rest f) else None) <$>
      filter (fun f => tf_pid f ≠ 8191) sample_packets.
Proof.
  apply (ts_parser_roundtrip (mk_tsp 188 [mk_cb 1 0]) [0; 1; 2] sample_packets); [done| | |done].
  - repeat constructor; lia.
  - repeat constructor; cbn; try lia; try done; intros ? [= <-]; vm_compute; done.
Defined.
