(* ===== verification/SwdmxPes.v ===== *)
(** The PES parser
    (src/drivers/stream_input/t5d_demux/sw_demux/swdmx_pes_parser.c).

    The state is the parser and the calls of its callbacks, each with the
    packet as the callback sees it.  [swdmx_realloc] (krealloc) is a parameter:
    it may fail, and otherwise gives a block of the new size that starts with
    the old contents. *)

From stdpp Require Import base list numbers.
From Stdlib Require Import ZArith Lia Bool List.
From S2P Require Import Prelude.
From S2P Require Import SwdmxList.
From S2P Require Import SwdmxTs.

#[local] Open Scope Z_scope.

Definition PES_PRIVATE_STREAM_ID : Z := 252. (* 0xfc *)

(** [data] is the allocated block, [] for NULL; [payload] is an offset. *)
Record swdmx_pespacket := mk_pkt {
  valid : Z;
  has_pts : Z;
  stream_id : Z;
  pes_scramble : Z;
  pts : Z;
  data : list Z;
  pes_payload : Z;
  data_len : Z;
  data_cap : Z;
  pes_payload_len : Z
}.

#[export] Instance eta_swdmx_pespacket : Settable swdmx_pespacket := fun r =>
  mk_pkt (valid r) (has_pts r) (stream_id r) (pes_scramble r) (pts r) (data r) (pes_payload r)
    (data_len r) (data_cap r) (pes_payload_len r).

Record swdmx_pesparser := mk_pp {
  start : Z;
  ts_scramble : Z;
  pkt : swdmx_pespacket;
  pes_cb_list : list swdmx_cb_entry
}.

#[export] Instance eta_swdmx_pesparser : Settable swdmx_pesparser := fun r =>
  mk_pp (start r) (ts_scramble r) (pkt r) (pes_cb_list r).

(** [return r;] in the middle of a function that returns a value: what the
    caller sees. *)
Definition returns {S A} (inj : Z → A) (m : M S A) : M S A := fun s =>
  match m s with
  | Ok a s' => Ok a s'
  | Err e s' => Ok (inj e) s'
  | Undef => Undef
  end.

Definition K A := M swdmx_pespacket A.

#[export] Instance K_ret : MRet K := M_ret swdmx_pespacket.
#[export] Instance K_bind : MBind K := M_bind swdmx_pespacket.

(** [data[i]] *)
Definition byte_at (i : Z) : K Z := d ← gets data; of_option (aget d i).

(** stream_ids without the optional PES header. *)
Definition plain_stream_id (id : Z) : bool :=
  existsb (Z.eqb id) [188; 191; 240; 241; 255; 242; 248; 190; PES_PRIVATE_STREAM_ID].

(** The five bytes of a PTS at [h]. *)
Definition read_pts (h : Z) : K Z :=
  h0 ← byte_at h; h1 ← byte_at (h + 1); h2 ← byte_at (h + 2); h3 ← byte_at (h + 3); h4 ← byte_at (h + 4);
  mret (Z.lor (Z.lor (Z.lor (Z.lor (Z.shiftl (Z.land h0 14) 29) (Z.shiftl h1 22))
                            (Z.shiftl (Z.land h2 254) 14)) (Z.shiftl h3 7)) (Z.shiftr (Z.land h4 254) 1)).

(** [static int pes_pkt_parse(struct swdmx_pespacket *pkt)] *)
Definition pes_pkt_parse : K Z := returns id (
  left ← gets data_len;
  fail_if (left <? 6) SWDMX_ERR;;
  p0 ← byte_at 0; p1 ← byte_at 1; p2 ← byte_at 2;
  fail_if (negb (p0 =? 0) || negb (p1 =? 0) || negb (p2 =? 1)) SWDMX_ERR;;
  p3 ← byte_at 3;
  modify (fun k => k <| stream_id := p3 |>);;
  let p := 6 in
  let left := left - 6 in
  if negb (plain_stream_id p3) then
    fail_if (left <? 3) SWDMX_ERR;;
    p0 ← byte_at p;
    modify (fun k => k <| pes_scramble := Z.land (Z.shiftr p0 4) 3 |>);;
    flags ← byte_at (p + 1);
    hlen ← byte_at (p + 2);
    let p := p + 3 in
    let left := left - 3 in
    when (truth (Z.land flags 128))
      (fail_if (hlen <? 5) SWDMX_ERR;;
       modify (fun k => k <| has_pts := 1 |>);;
       v ← read_pts p;
       modify (fun k => k <| pts := v |>));;
    modify (fun k => k <| pes_payload := p + hlen |> <| pes_payload_len := left - hlen |>);;
    mret SWDMX_OK
  else if p3 =? PES_PRIVATE_STREAM_ID then
    let hlen := u8 left in
    fail_if (left <? 3) SWDMX_ERR;;
    modify (fun k => k <| has_pts := 1 |>);;
    h0 ← byte_at p; h1 ← byte_at (p + 1); h2 ← byte_at (p + 2); h3 ← byte_at (p + 3);
    modify (fun k => k <| pts := Z.lor (Z.lor (Z.lor (Z.shiftl h0 24) (Z.shiftl h1 16)) (Z.shiftl h2 8))
                                        (Z.shiftl h3 7) |>);;
    modify (fun k => k <| pes_payload := p + hlen |> <| pes_payload_len := left - hlen |>);;
    mret SWDMX_OK
  else mret SWDMX_ERR).

(** ** The parser *)

Definition pes_state : Type := swdmx_pesparser * list (swdmx_cb_entry * swdmx_pespacket).

Definition PP A := M pes_state A.

#[export] Instance PP_ret : MRet PP := M_ret pes_state.
#[export] Instance PP_bind : MBind PP := M_bind pes_state.

Definition pp (f : swdmx_pesparser → swdmx_pesparser) : PP unit := modify (fun s => (f s.1, s.2)).

Definition on_pkt (f : swdmx_pespacket → swdmx_pespacket) : PP unit := pp (fun r => r <| pkt := f (pkt r) |>).

(** [&pp->pkt] passed to a callee. *)
Definition with_pkt {A} (m : K A) : PP A :=
  zoom (fun s => pkt s.1) (fun k s => (s.1 <| pkt := k |>, s.2)) m.

Fixpoint pes_call_all (cbs : list swdmx_cb_entry) : PP unit :=
  match cbs with
  | [] => mret tt
  | e :: cbs => modify (fun s => (s.1, s.2 ++ [(e, pkt s.1)]));; pes_call_all cbs
  end.

Definition pes_pkt_output : PP unit :=
  on_pkt (fun k => k <| valid := 0 |> <| has_pts := 0 |>);;
  r ← with_pkt pes_pkt_parse;
  (if r =? SWDMX_OK then on_pkt (fun k => k <| valid := 1 |>)
   else scr ← gets (fun s => ts_scramble s.1); on_pkt (fun k => k <| pes_scramble := scr |>));;
  cbs ← gets (fun s => pes_cb_list s.1);
  pes_call_all cbs;;
  pp (fun r => r <| start := 0 |>).

(** [swdmx_pes_parser_new()]: the other members of [pkt] are whatever the
    allocation holds. *)
Definition swdmx_pes_parser_new (junk : swdmx_pespacket) : swdmx_pesparser :=
  mk_pp 0 0 (junk <| data := [] |> <| data_cap := 0 |> <| data_len := 0 |>) [].

Definition swdmx_pes_parser_add_pes_packet_cb (c : swdmx_cb_entry) : PP unit :=
  pp (fun r => r <| pes_cb_list := pes_cb_list r ++ [c] |>).

Definition swdmx_pes_parser_remove_pes_packet_cb (c : swdmx_cb_entry) : PP unit :=
  pp (fun r => r <| pes_cb_list := remove_first c (pes_cb_list r) |>).

Section Realloc.
Context (swdmx_realloc : list Z → Z → option (list Z)).

(** [static int swdmx_pes_packet_resize(pkt, len)] *)
Definition swdmx_pes_packet_resize (len : Z) : K Z :=
  k ← get;
  let len := Z.max len (32 * 1024) in
  let len := Z.max len (s32 (data_cap k * 2)) in
  match swdmx_realloc (data k) len with
  | None => mret SWDMX_ERR
  | Some nptr => modify (fun k => k <| data := nptr |> <| data_cap := len |>);; mret SWDMX_OK
  end.

(** The block [memcpy] reads: the payload of [ts], which points into
    [buf]. *)
Definition ts_chunk (buf : list Z) (ts : swdmx_tspacket) : option (list Z) :=
  match payload ts with
  | Some a => load buf a (payload_len ts)
  | None => if payload_len ts =? 0 then Some [] else None
  end.

(** The part behind "if (!pp->start) return;". *)
Definition pes_append (buf : list Z) (ts : swdmx_tspacket) : PP unit :=
  k ← gets (fun s => pkt s.1);
  let len := s32 (data_len k + payload_len ts) in
  r ← (if data_cap k <? len then with_pkt (swdmx_pes_packet_resize len) else mret SWDMX_OK);
  when (negb (r =? SWDMX_ERR))
    (src ← of_option (ts_chunk buf ts);
     k ← gets (fun s => pkt s.1);
     d ← of_option (store (data k) (data_len k) src);
     on_pkt (fun k => k <| data := d |> <| data_len := len |>)).

(** [void swdmx_pes_parser_ts_packet_cb(ts, pp)] *)
Definition swdmx_pes_parser_ts_packet_cb (buf : list Z) (ts : swdmx_tspacket) : PP unit :=
  when (truth (payload_start ts))
    (st ← gets (fun s => start s.1);
     when (truth st) pes_pkt_output;;
     pp (fun r => r <| start := 1 |> <| ts_scramble := scramble ts |>);;
     on_pkt (fun k => k <| data_len := 0 |>));;
  st ← gets (fun s => start s.1);
  when (truth st) (pes_append buf ts).

(** The packets of a stream, each with the buffer it points into. *)
Fixpoint pes_feed (l : list (list Z * swdmx_tspacket)) : PP unit :=
  match l with
  | [] => mret tt
  | (buf, ts) :: l => swdmx_pes_parser_ts_packet_cb buf ts;; pes_feed l
  end.
End Realloc.

(** ** Encoding *)

(** A PES packet with the optional header (ISO/IEC 13818-1, 2.4.3.6);
    [pf_more] is what the header holds behind the PTS. *)
Record pes_fields := mk_pesf {
  pf_id : Z;
  pf_length : Z * Z;        (** PES_packet_length, two bytes *)
  pf_scramble : Z;
  pf_low : Z;               (** priority, alignment, copyright, original *)
  pf_pts : option Z;
  pf_flags : Z;             (** the seven other flags *)
  pf_more : list Z;
  pf_payload : list Z
}.

Definition pts_encode (p : Z) : list Z :=
  [33 + p / 2 ^ 30 * 2; p / 2 ^ 22 mod 256; p / 2 ^ 15 mod 128 * 2 + 1; p / 2 ^ 7 mod 256; p mod 128 * 2 + 1].

Definition pes_header (f : pes_fields) : list Z :=
  match pf_pts f with Some p => pts_encode p | None => [] end ++ pf_more f.

Definition pes_encode (f : pes_fields) : list Z :=
  [0; 0; 1; pf_id f; (pf_length f).1; (pf_length f).2; 128 + pf_scramble f * 16 + pf_low f;
   (if pf_pts f then 128 else 0) + pf_flags f; zlen (pes_header f)] ++ pes_header f ++ pf_payload f.

Record pes_fields_ok (f : pes_fields) : Prop := {
  pfo_id : plain_stream_id (pf_id f) = false;
  pfo_scramble : 0 ≤ pf_scramble f < 4;
  pfo_low : 0 ≤ pf_low f < 16;
  pfo_pts : ∀ p, pf_pts f = Some p → 0 ≤ p < 2 ^ 33;
  pfo_flags : 0 ≤ pf_flags f < 128
}.

(** A callback's view of the packet encoded from [f]. *)
Record pes_delivered (f : pes_fields) (k : swdmx_pespacket) : Prop := {
  pd_valid : valid k = 1;
  pd_id : stream_id k = pf_id f;
  pd_scramble : pes_scramble k = pf_scramble f;
  pd_pts : match pf_pts f with Some p => has_pts k = 1 ∧ pts k = p | None => has_pts k = 0 end;
  pd_payload : load (data k) (pes_payload k) (pes_payload_len k) = Some (pf_payload f)
}.

Lemma land_14 x : Z.land (33 + x * 2) 14 = x mod 8 * 2.
Proof.
  apply Z.bits_inj'. intros n Hn. rewrite Z.land_spec. change 14 with (Z.shiftl (Z.ones 3) 1).
  rewrite Z.shiftl_spec by done. replace (x mod 8 * 2) with (Z.shiftl (x mod 2 ^ 3) 1) by (rewrite Z.shiftl_mul_pow2 by lia; done).
  rewrite Z.shiftl_spec by done. rewrite <- Z.land_ones, Z.land_spec by lia.
  destruct (Z.eq_dec n 0) as [->|]; [rewrite !(Z.testbit_neg_r _ (0 - 1)) by lia; by rewrite andb_false_r|].
  destruct (Z.ltb_spec n 4).
  - rewrite Z.ones_spec_low by lia. rewrite !andb_true_r.
    replace (33 + x * 2) with (1 + (x + 16) * 2 ^ 1) by lia.
    replace n with (n - 1 + 1) at 1 by lia. rewrite <- (Z.div_pow2_bits _ 1) by lia.
    rewrite Z.div_add by lia. cbn [Z.add]. change (1 / 2 ^ 1) with 0. rewrite Z.add_0_l.
    rewrite <- (Z.mod_pow2_bits_low (x + 16) 3) by lia. rewrite <- (Z.mod_pow2_bits_low x 3) by lia.
    f_equal. change 16 with (2 * 2 ^ 3). by rewrite Z.mod_add by lia.
  - rewrite !Z.ones_spec_high by lia. by rewrite !andb_false_r.
Qed.

Lemma land_254 x : 0 ≤ x < 128 → Z.land (x * 2 + 1) 254 = x * 2.
Proof.
  intros Hx.
  assert (Forall (fun n : nat => Z.land (Z.of_nat n * 2 + 1) 254 = Z.of_nat n * 2) (seq 0 128)) as H.
  { apply (bool_decide_unpack _). by vm_compute. }
  rewrite Forall_forall in H. specialize (H (Z.to_nat x)). rewrite Z2Nat.id in H by lia.
  apply H. apply in_seq. lia.
Qed.

Lemma truth_land_128 (b : bool) x : 0 ≤ x < 128 → truth (Z.land ((if b then 128 else 0) + x) 128) = b.
Proof.
  intros Hx.
  assert (Forall (fun n : nat => truth (Z.land (128 + Z.of_nat n) 128) = true ∧
    truth (Z.land (0 + Z.of_nat n) 128) = false) (seq 0 128)) as H.
  { apply (bool_decide_unpack _). by vm_compute. }
  rewrite Forall_forall in H. specialize (H (Z.to_nat x)). rewrite Z2Nat.id in H by lia.
  destruct b; apply H; apply in_seq; lia.
Qed.

(** The 33 bits of the PTS. *)
Lemma pts_value p : 0 ≤ p < 2 ^ 33 →
  Z.lor (Z.lor (Z.lor (Z.lor (Z.shiftl (Z.land (33 + p / 2 ^ 30 * 2) 14) 29) (Z.shiftl (p / 2 ^ 22 mod 256) 22))
    (Z.shiftl (Z.land (p / 2 ^ 15 mod 128 * 2 + 1) 254) 14)) (Z.shiftl (p / 2 ^ 7 mod 256) 7))
    (Z.shiftr (Z.land (p mod 128 * 2 + 1) 254) 1) = p.
Proof.
  intros Hp. assert (0 ≤ p / 2 ^ 30 < 8) by (split; [apply Z.div_pos|apply Z.div_lt_upper_bound]; lia).
  rewrite land_14, (Z.mod_small (p / 2 ^ 30)) by done.
  pose proof (Z.mod_pos_bound (p / 2 ^ 15) 128). pose proof (Z.mod_pos_bound p 128).
  pose proof (Z.mod_pos_bound (p / 2 ^ 22) 256). pose proof (Z.mod_pos_bound (p / 2 ^ 7) 256).
  rewrite !land_254 by lia. rewrite !Z.shiftl_mul_pow2, Z.shiftr_div_pow2 by lia.
  change (2 ^ 1) with 2. rewrite Z.div_mul by lia.
  change (2 ^ 29) with (536870912). change (2 ^ 14) with 16384.
  replace (p / 2 ^ 30 * 2 * 536870912) with (p / 2 ^ 30 * 2 ^ 30) by lia.
  set (q1 := p / 2 ^ 30 * 2 ^ 8 + p / 2 ^ 22 mod 256).
  rewrite (lor_mul_add (p / 2 ^ 30) _ 30) by lia.
  replace (p / 2 ^ 30 * 2 ^ 30 + p / 2 ^ 22 mod 256 * 2 ^ 22) with (q1 * 2 ^ 22) by (unfold q1; lia).
  replace (p / 2 ^ 15 mod 128 * 2 * 16384) with (p / 2 ^ 15 mod 128 * 2 ^ 15) by lia.
  rewrite (lor_mul_add q1 _ 22) by lia.
  set (q2 := q1 * 2 ^ 7 + p / 2 ^ 15 mod 128).
  replace (q1 * 2 ^ 22 + p / 2 ^ 15 mod 128 * 2 ^ 15) with (q2 * 2 ^ 15) by (unfold q2; lia).
  rewrite (lor_mul_add q2 _ 15) by lia.
  replace (q2 * 2 ^ 15 + p / 2 ^ 7 mod 256 * 2 ^ 7) with ((q2 * 2 ^ 8 + p / 2 ^ 7 mod 256) * 2 ^ 7) by lia.
  rewrite (lor_mul_add _ _ 7) by (change (2 ^ 7) with 128; lia). unfold q2, q1.
  pose proof (Z.div_mod p 128). pose proof (Z.div_mod (p / 2 ^ 7) 256). pose proof (Z.div_mod (p / 2 ^ 15) 128).
  pose proof (Z.div_mod (p / 2 ^ 22) 256).
  assert (p / 2 ^ 7 / 256 = p / 2 ^ 15) by (rewrite Z.div_div by lia; done).
  assert (p / 2 ^ 15 / 128 = p / 2 ^ 22) by (rewrite Z.div_div by lia; done).
  assert (p / 2 ^ 22 / 256 = p / 2 ^ 30) by (rewrite Z.div_div by lia; done).
  change (p / 128) with (p / 2 ^ 7) in *. lia.
Qed.

(** ** The parse of an encoded packet *)

(** [B] has been collected. *)
Definition holds (k : swdmx_pespacket) (B : list Z) : Prop :=
  data_len k = zlen B ∧ take (length B) (data k) = B.

Lemma holds_aget k B i : holds k B → 0 ≤ i < zlen B → aget (data k) i = aget B i.
Proof.
  intros [_ Ht] Hi. unfold aget, zlen in *. rewrite (proj2 (Z.leb_le _ _)) by lia.
  rewrite <- Ht at 1. by rewrite lookup_take_lt by lia.
Qed.

Lemma holds_load k A C : holds k (A ++ C) → load (data k) (zlen A) (zlen C) = Some C.
Proof.
  intros [_ Ht]. assert (length (A ++ C) ≤ length (data k))%nat as Hl by (rewrite <- Ht at 1; rewrite length_take; lia).
  rewrite length_app in Hl. rewrite load_Some by (unfold zlen; lia). f_equal. unfold zlen. rewrite !Nat2Z.id.
  rewrite take_drop_commute. replace (length A + length C)%nat with (length (A ++ C)) by (by rewrite length_app).
  by rewrite Ht, drop_app_length.
Qed.

Lemma wp_byte_at {U : Prop} i b (Q : Z → swdmx_pespacket → Prop) E s :
  aget (data s) i = Some b → Q b s → wp U (byte_at i) Q E s.
Proof. intros Hb HQ. unfold byte_at, wp, mbind, K_bind, M_bind, gets. by rewrite Hb. Qed.

Lemma holds_set k B g : data (g k) = data k → data_len (g k) = data_len k → holds k B → holds (g k) B.
Proof. unfold holds. by intros -> ->. Qed.

Lemma read_pts_wp k A p C Q E : holds k (A ++ pts_encode p ++ C) → 0 ≤ p < 2 ^ 33 → Q p k →
  wp False (read_pts (zlen A)) Q E k.
Proof.
  intros Hk Hp HQ.
  assert (∀ i x, 0 ≤ i < 5 → aget (pts_encode p) i = Some x → aget (data k) (zlen A + i) = Some x) as Hget.
  { intros i x Hi Hx. rewrite (holds_aget _ _ _ Hk).
    - rewrite aget_app_r by lia. unfold aget in *. rewrite (proj2 (Z.leb_le _ _)) in * by lia.
      by apply lookup_app_l_Some.
    - unfold zlen. rewrite !length_app. cbn [pts_encode length]. lia. }
  unfold read_pts. apply wp_bind. eapply wp_byte_at.
  { rewrite <- (Z.add_0_r (zlen A)). by apply (Hget 0). }
  apply wp_bind. eapply wp_byte_at; [by apply (Hget 1)|].
  apply wp_bind. eapply wp_byte_at; [by apply (Hget 2)|].
  apply wp_bind. eapply wp_byte_at; [by apply (Hget 3)|].
  apply wp_bind. eapply wp_byte_at; [by apply (Hget 4)|].
  apply wp_ret. by rewrite pts_value.
Qed.

Lemma parse_encoded f k : pes_fields_ok f → holds k (pes_encode f) → has_pts k = 0 →
  ∃ k', pes_pkt_parse k = Ok SWDMX_OK k' ∧ pes_delivered f (k' <| valid := 1 |>) ∧
    data k' = data k ∧ data_cap k' = data_cap k ∧ data_len k' = data_len k.
Proof.
  intros [Hid Hscr Hlow Hpts Hfl] Hk H0.
  set (H := pes_header f) in *.
  assert (∀ s, data s = data k → ∀ i x, 0 ≤ i < 9 → aget (pes_encode f) i = Some x → aget (data s) i = Some x) as Hget.
  { intros s -> i x Hi Hx. rewrite (holds_aget _ _ _ Hk); [done|]. apply aget_inv in Hx as [Hx _]. lia. }
  assert (zlen (pes_encode f) = 9 + zlen H + zlen (pf_payload f)) as Hlen.
  { unfold pes_encode, zlen. rewrite !length_app. cbn [length]. fold H. lia. }
  pose proof (zlen_nonneg H). pose proof (zlen_nonneg (pf_payload f)).
  pose proof (proj1 Hk) as Hdl.
  assert (wp False pes_pkt_parse (fun r k' => r = SWDMX_OK ∧ pes_delivered f (k' <| valid := 1 |>) ∧
    data k' = data k ∧ data_cap k' = data_cap k ∧ data_len k' = data_len k) (fun _ _ => False) k) as Hwp.
  { unfold pes_pkt_parse. unfold wp, returns. fold (@wp False).
    match goal with |- context [match ?m k with _ => _ end] =>
      enough (wp False m (fun r k' => r = SWDMX_OK ∧ pes_delivered f (k' <| valid := 1 |>) ∧
        data k' = data k ∧ data_cap k' = data_cap k ∧ data_len k' = data_len k) (fun _ _ => False) k) as Hm
        by (unfold wp in Hm; destruct (m k); try done; by destruct Hm) end.
    wp_step. wp_step. rewrite Hdl, Hlen. wp_step. wp_step; bprop; [lia|].
    wp_step. eapply wp_byte_at; [by apply (Hget k eq_refl 0 0)|].
    wp_step. eapply wp_byte_at; [by apply (Hget k eq_refl 1 0)|].
    wp_step. eapply wp_byte_at; [by apply (Hget k eq_refl 2 1)|].
    wp_step. wp_step; [done|].
    wp_step. eapply wp_byte_at; [by apply (Hget k eq_refl 3 (pf_id f))|].
    wp_step. wp_step. rewrite Hid. cbn [negb].
    wp_step. wp_step; bprop; [lia|].
    wp_step. eapply wp_byte_at; [by eapply (Hget _ eq_refl 6); [lia|reflexivity]|].
    wp_step. wp_step.
    wp_step. eapply wp_byte_at; [by eapply (Hget _ eq_refl 7); [lia|reflexivity]|].
    wp_step. eapply wp_byte_at; [by eapply (Hget _ eq_refl 8); [lia|reflexivity]|].
    assert (Z.land (Z.shiftr (128 + pf_scramble f * 16 + pf_low f) 4) 3 = pf_scramble f) as ->.
    { rewrite Z.shiftr_div_pow2 by lia. change (2 ^ 4) with 16.
      assert ((128 + pf_scramble f * 16 + pf_low f) / 16 = 8 + pf_scramble f) as ->
        by (symmetry; apply (Z.div_unique _ _ _ (pf_low f)); lia).
      change 3 with (Z.ones 2). rewrite Z.land_ones by lia. change (2 ^ 2) with 4.
      symmetry. apply (Z.mod_unique _ _ 2); lia. }
    assert (truth (Z.land ((if pf_pts f then 128 else 0) + pf_flags f) 128) = if pf_pts f then true else false) as ->.
    { destruct (pf_pts f); [apply (truth_land_128 true)|apply (truth_land_128 false)]; lia. }
    assert (∀ s, holds s (pes_encode f) → load (data s) (9 + zlen H) (zlen (pf_payload f)) = Some (pf_payload f)) as Hload.
    { intros s Hs. replace (9 + zlen H) with (zlen (take 9 (pes_encode f) ++ H)) by (rewrite zlen_app; done).
      apply holds_load. rewrite <- app_assoc. exact Hs. }
    assert (zlen (pes_encode f) - 6 - 3 - zlen H = zlen (pf_payload f)) as Hpl by lia.
    destruct (pf_pts f) as [p|] eqn:Hp.
    - wp_step. wp_step; [|done]. wp_step. wp_step; bprop.
      { exfalso. assert (zlen H = 5 + zlen (pf_more f)) as HH
          by (unfold H, pes_header; rewrite Hp, zlen_app; done).
        pose proof (zlen_nonneg (pf_more f)). change (zlen (pes_header f)) with (zlen H) in *. lia. }
      wp_step. wp_step. wp_step.
      change (6 + 3) with (zlen (take 9 (pes_encode f))).
      apply (read_pts_wp _ _ p (pf_more f ++ pf_payload f)); [|by apply Hpts|].
      { assert (take 9 (pes_encode f) ++ pts_encode p ++ pf_more f ++ pf_payload f = pes_encode f) as ->; [|exact Hk].
        unfold pes_encode, pes_header. rewrite Hp. cbn [take app]. by rewrite <- app_assoc. }
      wp_step. wp_step. wp_step. wp_step.
      split; [done|]. split; [|split; [done|split; [done|cbn; by rewrite Hdl, Hlen]]].
      split; [done|done|done|by rewrite Hp|].
      cbn [data pes_payload pes_payload_len set_field]. change (zlen (pes_header f)) with (zlen H).
      change (zlen (take 9 (pes_encode f))) with 9. rewrite <- Hlen, Hpl. by apply Hload.
    - wp_step. wp_step; [done|]. wp_step. wp_step. wp_step.
      split; [done|]. split; [|split; [done|split; [done|cbn; by rewrite Hdl, Hlen]]].
      split; [done|done|done|by rewrite Hp|].
      cbn [data pes_payload pes_payload_len set_field]. change (zlen (pes_header f)) with (zlen H).
      rewrite <- Hlen, Hpl. by apply Hload. }
  unfold wp in Hwp. destruct (pes_pkt_parse k) as [r k'| |]; [|done..]. destruct Hwp as (-> & ? & ?).
  by exists k'.
Qed.

(** ** Reassembly *)

(** The packets [l] carry the PES packet [f]: the first has
    payload_unit_start_indicator set, and their payloads are its bytes. *)
Definition carries (l : list (list Z * swdmx_tspacket)) (f : pes_fields) : Prop :=
  ∃ h t cs, l = h :: t ∧ payload_start h.2 = 1 ∧ Forall (fun x => payload_start x.2 = 0) t ∧
    mapM (fun x => ts_chunk x.1 x.2) l = Some cs ∧ concat cs = pes_encode f.

(** The callbacks made for the packets [ks]. *)
Definition pes_calls (cbs : list swdmx_cb_entry) (ks : list swdmx_pespacket) : list (swdmx_cb_entry * swdmx_pespacket) :=
  k ← ks; (fun e => (e, k)) <$> cbs.

Definition cap_ok (k : swdmx_pespacket) : Prop := zlen (data k) = data_cap k ∧ data_cap k < 2 ^ 31.

Record collecting (s : pes_state) (B : list Z) (cbs : list swdmx_cb_entry)
    (log : list (swdmx_cb_entry * swdmx_pespacket)) : Prop := {
  co_start : start s.1 = 1;
  co_holds : holds (pkt s.1) B;
  co_cap : cap_ok (pkt s.1);
  co_cbs : pes_cb_list s.1 = cbs;
  co_log : s.2 = log
}.

Lemma ts_chunk_len buf ts c : ts_chunk buf ts = Some c → zlen c = payload_len ts.
Proof.
  unfold ts_chunk. destruct (payload ts).
  - intros Hl. by apply load_inv in Hl as (_ & _ & _ & _ & ?).
  - destruct (Z.eqb_spec (payload_len ts) 0); [|done]. by intros [= <-].
Qed.

Lemma pes_call_all_ok cbs s : pes_call_all cbs s = Ok tt (s.1, s.2 ++ ((fun e => (e, pkt s.1)) <$> cbs)).
Proof.
  revert s. induction cbs as [|e cbs IH]; intros [p log]; cbn.
  - by rewrite app_nil_r.
  - unfold mbind, PP_bind, M_bind, modify. cbn. rewrite IH. cbn. by rewrite <- app_assoc.
Qed.

(** Between two packets. *)
Definition idle (s : pes_state) (cbs : list swdmx_cb_entry) (log : list (swdmx_cb_entry * swdmx_pespacket)) : Prop :=
  cap_ok (pkt s.1) ∧ pes_cb_list s.1 = cbs ∧ s.2 = log.

Lemma pes_output_wp s f cbs log : pes_fields_ok f → collecting s (pes_encode f) cbs log →
  wp False pes_pkt_output (fun _ s' => ∃ k, pes_delivered f k ∧ idle s' cbs (log ++ pes_calls cbs [k]))
    (fun _ _ => False) s.
Proof.
  intros Hf [Hst Hh Hcap Hcbs Hlog]. unfold pes_pkt_output, on_pkt, pp, with_pkt.
  wp_step. wp_step. wp_step. wp_step. cbn [fst snd pkt].
  set (k0 := (pkt s.1) <| valid := 0 |> <| has_pts := 0 |>).
  destruct (parse_encoded f k0 Hf) as (k' & Hp & Hd & Hd1 & Hd2 & Hd3); [by eapply (holds_set _ _ (fun _ => k0))|done|].
  unfold wp at 1. change (pkt (set_field _ _ s.1)) with k0. rewrite Hp. cbn [fst snd]. rewrite Z.eqb_refl.
  wp_step. wp_step. wp_step. wp_step. wp_step. unfold wp at 1. rewrite pes_call_all_ok. cbn [fst snd].
  wp_step. exists (k' <| valid := 1 |>). split; [done|]. split; [|split; [done|]].
  - split; cbn; [rewrite Hd1, Hd2; apply Hcap|rewrite Hd2; apply Hcap].
  - cbn. unfold pes_calls. cbn. rewrite app_nil_r, Hlog. by rewrite Hcbs.
Qed.

Section Feed.
Context (swdmx_realloc : list Z → Z → option (list Z)).
Hypothesis realloc_ok : ∀ d n, zlen d ≤ n < 2 ^ 31 →
  ∃ d', swdmx_realloc d n = Some d' ∧ zlen d' = n ∧ take (length d) d' = d.

Lemma pes_append_wp s B cbs log buf ts c : collecting s B cbs log → ts_chunk buf ts = Some c →
  zlen (B ++ c) < 2 ^ 30 →
  wp False (pes_append swdmx_realloc buf ts) (fun _ s' => collecting s' (B ++ c) cbs log) (fun _ _ => False) s.
Proof.
  intros [Hst Hh Hcap Hcbs Hlog] Hc Hlen. pose proof (ts_chunk_len _ _ _ Hc) as Hcl.
  rewrite zlen_app in Hlen. pose proof (zlen_nonneg B). pose proof (zlen_nonneg c).
  destruct Hh as [Hdl Htk]. destruct Hcap as [Hcap Hmax].
  unfold pes_append. wp_step. wp_step. rewrite Hdl, <- Hcl, s32_id by lia. wp_step.
  apply wp_mono with (Q := fun r s' => r = SWDMX_OK ∧ collecting s' B cbs log ∧
    zlen B + zlen c ≤ data_cap (pkt s'.1)) (E := fun _ _ => False); [|intros r s' (-> & [] & Hge)|done].
  - wp_step; bprop; [|wp_step; split; [done|]; split; [by split|lia]].
    unfold with_pkt. wp_step. unfold swdmx_pes_packet_resize. wp_step. wp_step.
    rewrite (s32_id (data_cap _ * 2)) by (unfold zlen in *; lia).
    set (n := Z.max (Z.max _ _) _).
    destruct (realloc_ok (data (pkt s.1)) n) as (d' & -> & Hd1 & Hd2); [lia|].
    wp_step. wp_step. wp_step. split; [done|]. split; [|cbn; lia].
    split; [done| |split; cbn; [done|lia]|done|done]. split; cbn; [done|].
    assert (length B ≤ length (data (pkt s.1)))%nat by (rewrite <- Htk at 1; rewrite length_take; lia).
    rewrite <- Htk at 2. rewrite <- Hd2, take_take. f_equal. lia.
  - destruct co_holds0 as [Hdl' Htk']. destruct co_cap0 as [Hcap' Hmax'].
    wp_step; [|done]. wp_step. wp_step; [|by rewrite Hc in *]. rewrite Hc in *. simplify_eq.
    wp_step. wp_step. rewrite Hdl'. wp_step. wp_step.
    2: { match goal with H : store _ _ _ = None |- _ => rewrite store_Some in H; [done|lia|lia] end. }
    match goal with H : store _ _ _ = Some _ |- _ => rename H into Hs end.
    unfold on_pkt, pp. wp_step. pose proof (store_zlen _ _ _ _ Hs). pose proof (store_take _ _ _ _ Hs) as Ht.
    split; cbn; try done; [split; cbn|split; cbn; lia].
    + by rewrite zlen_app.
    + rewrite length_app. unfold zlen in Ht. replace (Z.to_nat _) with (length B + length a)%nat in Ht by lia.
      rewrite Ht. rewrite Nat2Z.id. by rewrite Htk'.
Qed.

Notation cb := (swdmx_pes_parser_ts_packet_cb swdmx_realloc).

(** A packet that starts a PES packet, with none being collected. *)
Lemma start_wp s cbs log buf ts c : idle s cbs log → start s.1 = 0 → payload_start ts = 1 →
  ts_chunk buf ts = Some c → zlen c < 2 ^ 30 →
  wp False (cb buf ts) (fun _ s' => collecting s' c cbs log) (fun _ _ => False) s.
Proof.
  intros (Hcap & Hcbs & Hlog) Hst Hps Hc Hlen. unfold swdmx_pes_parser_ts_packet_cb, on_pkt, pp.
  rewrite Hps. cbn [truth Z.eqb negb when]. 
  wp_step. wp_step. wp_step. rewrite Hst. cbn [truth Z.eqb negb when].
  wp_step. wp_step. wp_step. wp_step. wp_step. wp_step. wp_step. cbn [truth Z.eqb negb when start fst].
  apply (pes_append_wp _ [] cbs log buf ts c); [|done|done]. split; cbn; try done; apply Hcap.
Qed.

(** The same with a complete PES packet to hand out. *)
Lemma restart_wp s f cbs log buf ts c : pes_fields_ok f → collecting s (pes_encode f) cbs log →
  payload_start ts = 1 → ts_chunk buf ts = Some c → zlen c < 2 ^ 30 →
  wp False (cb buf ts) (fun _ s' => ∃ k, pes_delivered f k ∧ collecting s' c cbs (log ++ pes_calls cbs [k]))
    (fun _ _ => False) s.
Proof.
  intros Hf Hco Hps Hc Hlen. unfold swdmx_pes_parser_ts_packet_cb. rewrite Hps. cbn [truth Z.eqb negb when].
  wp_step. wp_step. wp_step. rewrite (co_start _ _ _ _ Hco). cbn [truth Z.eqb negb when]. wp_step.
  eapply wp_mono; [by eapply pes_output_wp| |done]. intros [] s' (k & Hk & Hcap & Hcbs & Hlog).
  unfold on_pkt, pp. wp_step. wp_step. wp_step. wp_step. wp_step. cbn [truth Z.eqb negb when start fst].
  eapply wp_mono; [apply (pes_append_wp _ [] cbs (log ++ pes_calls cbs [k]) buf ts c); [|done|done]| |done].
  - split; cbn; try done; apply Hcap.
  - intros [] s2 Hs2. by exists k.
Qed.

(** A packet that continues one. *)
Lemma continue_wp s B cbs log buf ts c : collecting s B cbs log → payload_start ts = 0 →
  ts_chunk buf ts = Some c → zlen (B ++ c) < 2 ^ 30 →
  wp False (cb buf ts) (fun _ s' => collecting s' (B ++ c) cbs log) (fun _ _ => False) s.
Proof.
  intros Hco Hps Hc Hlen. unfold swdmx_pes_parser_ts_packet_cb. rewrite Hps. cbn [truth Z.eqb negb when].
  wp_step. wp_step. wp_step. wp_step. rewrite (co_start _ _ _ _ Hco). cbn [truth Z.eqb negb when].
  by eapply pes_append_wp.
Qed.

Lemma feed_tail_wp t cs s B cbs log : collecting s B cbs log → Forall (fun x => payload_start x.2 = 0) t →
  mapM (fun x => ts_chunk x.1 x.2) t = Some cs → zlen (B ++ concat cs) < 2 ^ 30 →
  wp False (pes_feed swdmx_realloc t) (fun _ s' => collecting s' (B ++ concat cs) cbs log) (fun _ _ => False) s.
Proof.
  intros Hco Ht. revert cs s B Hco. induction Ht as [|[buf ts] t Hps Ht IH]; intros cs s B Hco Hcs Hlen.
  - injection Hcs as <-. cbn. rewrite app_nil_r. exact Hco.
  - cbn in Hcs. destruct (ts_chunk buf ts) as [c|] eqn:Hc; [|done]. cbn in Hcs.
    destruct (mapM _ t) as [cs'|] eqn:Hcs'; [|done]. cbn in Hcs. injection Hcs as <-.
    cbn [concat] in *. rewrite app_assoc in *. cbn [pes_feed]. wp_step.
    pose proof (zlen_nonneg (concat cs')).
    eapply wp_mono; [eapply (continue_wp s B); [done|done|done|rewrite zlen_app in Hlen; lia]| |done].
    intros [] s' Hs'. by eapply IH.
Qed.

Lemma feed_app l l' s : pes_feed swdmx_realloc (l ++ l') s =
  (pes_feed swdmx_realloc l;; pes_feed swdmx_realloc l') s.
Proof.
  revert s. induction l as [|[buf ts] l IH]; intros s; [done|]. cbn [app pes_feed].
  unfold mbind, PP_bind, M_bind in *. destruct (swdmx_pes_parser_ts_packet_cb swdmx_realloc buf ts s); [|done..].
  apply IH.
Qed.

(** What is known after the packets of [fs], the last of which is still
    being collected. *)
Definition fed (s : pes_state) (fs : list pes_fields) (cbs : list swdmx_cb_entry)
    (log : list (swdmx_cb_entry * swdmx_pespacket)) : Prop :=
  match rev fs with
  | [] => idle s cbs log ∧ start s.1 = 0
  | f :: done => ∃ ks, Forall2 pes_delivered (rev done) ks ∧
      collecting s (pes_encode f) cbs (log ++ pes_calls cbs ks)
  end.

Lemma pes_calls_app cbs ks ks' : pes_calls cbs (ks ++ ks') = pes_calls cbs ks ++ pes_calls cbs ks'.
Proof. unfold pes_calls. by rewrite bind_app. Qed.

(** A start packet with bytes [c], after whatever came before. *)
Lemma fed_start_wp s fs cbs log buf ts c : Forall pes_fields_ok fs → fed s fs cbs log →
  payload_start ts = 1 → ts_chunk buf ts = Some c → zlen c < 2 ^ 30 →
  wp False (cb buf ts) (fun _ s' => ∃ ks, Forall2 pes_delivered fs ks ∧ collecting s' c cbs (log ++ pes_calls cbs ks))
    (fun _ _ => False) s.
Proof.
  intros Hf Hfed Hps Hc Hlen. unfold fed in Hfed. destruct (rev fs) as [|f d] eqn:Hr.
  - assert (fs = []) as -> by (apply (f_equal (@rev _)) in Hr; by rewrite rev_involutive in Hr).
    destruct Hfed as [Hi Hst].
    eapply wp_mono; [by eapply start_wp| |done]. intros [] s' Hs'. exists []. split; [constructor|].
    cbn. by rewrite app_nil_r.
  - assert (fs = rev d ++ [f]) as -> by (apply (f_equal (@rev _)) in Hr; by rewrite rev_involutive in Hr).
    destruct Hfed as (ks & Hks & Hco). apply Forall_app in Hf as [_ Hf]. apply Forall_cons_1 in Hf as [Hf _].
    eapply wp_mono; [by eapply restart_wp| |done]. intros [] s' (k & Hk & Hs').
    exists (ks ++ [k]). split; [by apply Forall2_app; [|constructor]|]. by rewrite pes_calls_app, app_assoc.
Qed.

Lemma feed_stream_wp ls fs s pre cbs log : Forall2 carries ls fs → Forall pes_fields_ok (pre ++ fs) →
  Forall (fun f => zlen (pes_encode f) < 2 ^ 30) fs → fed s pre cbs log →
  wp False (pes_feed swdmx_realloc (concat ls)) (fun _ s' => fed s' (pre ++ fs) cbs log) (fun _ _ => False) s.
Proof.
  intros Hls. revert s pre. induction Hls as [|l f ls fs Hl Hls IH]; intros s pre Hok Hsz Hfed.
  - rewrite app_nil_r. by apply wp_ret.
  - cbn [concat]. destruct Hl as (h & t & cs & -> & Hh & Ht & Hcs & Hcat).
    apply Forall_cons_1 in Hsz as [Hsz Hsz'].
    unfold wp. rewrite feed_app. fold (wp False (A := unit) (S := pes_state)).
    change (wp False (pes_feed swdmx_realloc (h :: t);; pes_feed swdmx_realloc (concat ls))
      (fun _ s' => fed s' (pre ++ f :: fs) cbs log) (fun _ _ => False) s).
    apply wp_bind. destruct h as [buf ts]. cbn [pes_feed]. wp_step.
    cbn in Hcs. destruct (ts_chunk buf ts) as [c|] eqn:Hc; [|done]. cbn in Hcs.
    destruct (mapM _ t) as [cs'|] eqn:Hcs'; [|done]. cbn in Hcs. injection Hcs as <-.
    cbn [concat] in Hcat. rewrite <- Hcat in Hsz.
    pose proof (zlen_app c (concat cs')). pose proof (zlen_nonneg (concat cs')).
    eapply wp_mono; [eapply (fed_start_wp s pre); [by apply Forall_app in Hok as []|done|done|done|lia]| |done].
    intros [] s' (ks & Hks & Hco).
    eapply wp_mono; [by eapply feed_tail_wp| |done]. intros [] s2 Hco2. rewrite Hcat in Hco2.
    replace (pre ++ f :: fs) with ((pre ++ [f]) ++ fs) in * by (by rewrite <- app_assoc).
    apply IH; [done|done|]. unfold fed. rewrite rev_app_distr. cbn. exists ks. by rewrite rev_involutive.
Qed.
End Feed.

(** A state between packets: what [swdmx_pes_parser_new] gives, after any
    number of [add] and [remove]. *)
Definition pes_idle (s : pes_state) : Prop := cap_ok (pkt s.1) ∧ start s.1 = 0.

(** C11: PES reassembly round trip.  Take any sequence of encoded PES packets
    (below 2^30 bytes each, allocations succeeding), each cut in any way over
    transport packets of which the first has payload_unit_start_indicator
    set, followed by one more such start packet.  Every callback is called
    for every PES packet, in order, with a packet that is valid, has the
    encoded stream_id, scrambling control and 33-bit PTS, and whose payload
    pointer and length select exactly the encoded payload. *)
Theorem pes_roundtrip swdmx_realloc ls fs buf ts c s :
  (∀ d n, zlen d ≤ n < 2 ^ 31 → ∃ d', swdmx_realloc d n = Some d' ∧ zlen d' = n ∧ take (length d) d' = d) →
  Forall2 carries ls fs → Forall pes_fields_ok fs → Forall (fun f => zlen (pes_encode f) < 2 ^ 30) fs →
  payload_start ts = 1 → ts_chunk buf ts = Some c → zlen c < 2 ^ 30 → pes_idle s →
  ∃ ks s', pes_feed swdmx_realloc (concat ls ++ [(buf, ts)]) s = Ok tt s' ∧ Forall2 pes_delivered fs ks ∧
    s'.2 = s.2 ++ pes_calls (pes_cb_list s.1) ks.
Proof.
  intros Hre Hls Hfs Hsz Hps Hc Hlen [Hcap Hst]. rewrite feed_app.
  assert (fed s [] (pes_cb_list s.1) s.2) as Hfed by (split; [split; [done|by split]|done]).
  pose proof (feed_stream_wp swdmx_realloc Hre ls fs s [] _ _ Hls Hfs Hsz Hfed) as Hwp.
  unfold wp in Hwp. unfold mbind, PP_bind, M_bind. destruct (pes_feed swdmx_realloc (concat ls) s) as [[] s1| |]; [|done..].
  pose proof (fed_start_wp swdmx_realloc Hre s1 fs _ _ buf ts c Hfs Hwp Hps Hc Hlen) as Hwp2.
  cbn [pes_feed]. unfold wp in Hwp2. unfold mbind, PP_bind, M_bind.
  destruct (swdmx_pes_parser_ts_packet_cb swdmx_realloc buf ts s1) as [[] s2| |]; [|done..].
  destruct Hwp2 as (ks & Hks & Hco). exists ks, s2. split; [done|]. split; [done|]. apply (co_log _ _ _ _ Hco).
Qed.

(** A krealloc that always succeeds. *)
Definition sample_realloc (d : list Z) (n : Z) : option (list Z) :=
  Some (d ++ replicate (Z.to_nat (n - zlen d)) 0).

Definition sample_pes : pes_fields := mk_pesf 224 (0, 13) 0 4 (Some 8589934591) 1 [255] [10; 20; 30].

(** Its 18 bytes in two packets, 10 and 8. *)
Definition sample_carrier : list (list Z * swdmx_tspacket) :=
  [(take 10 (pes_encode sample_pes), mk_tspkt 256 1 0 0 0 0 0 188 None 0 (Some 0) 10);
   (drop 10 (pes_encode sample_pes), mk_tspkt 256 0 0 0 0 1 0 188 None 0 (Some 0) 8)].

Definition sample_pkt : swdmx_pespacket := mk_pkt 0 0 0 0 0 [] 0 0 0 0.

(** A new parser with one callback. *)
Definition sample_parser : pes_state := ((swdmx_pes_parser_new sample_pkt) <| pes_cb_list := [mk_cb 1 2] |>, []).

Lemma pes_roundtrip_witness :
  ∃ ks s', pes_feed sample_realloc
      (concat [sample_carrier] ++ [(take 10 (pes_encode sample_pes), mk_tspkt 256 1 0 0 0 0 0 188 None 0 (Some 0) 10)])
      sample_parser = Ok tt s' ∧
    Forall2 pes_delivered [sample_pes] ks ∧ s'.2 = sample_parser.2 ++ pes_calls (pes_cb_list sample_parser.1) ks.
Proof.
  apply (pes_roundtrip sample_realloc [sample_carrier] [sample_pes] (take 10 (pes_encode sample_pes))
    (mk_tspkt 256 1 0 0 0 0 0 188 None 0 (Some 0) 10) (take 10 (pes_encode sample_pes))
    sample_parser).
  - intros d n [H1 H2]. eexists. split; [reflexivity|]. split.
    + rewrite zlen_app. unfold zlen in *. rewrite length_replicate. lia.
    + apply take_app_length.
  - repeat constructor. eexists _, _, _. repeat split; repeat constructor.
  - constructor; [|constructor]. split; cbn; try done. intros ? [= <-]. done.
  - by repeat constructor.
  - done.
  - done.
  - done.
  - done.
Defined.

(** the length of the optional header is not compared with the bytes
    left: a 9-byte packet whose PES_header_data_length is 255 is reported to
    the callbacks as valid with payload_len -255 and a payload pointer behind
    the data. *)
Theorem pes_negative_payload :
  let d := [0; 0; 1; 224; 0; 0; 128; 0; 255] in
  let k := sample_pkt <| data := d |> <| data_len := 9 |> <| data_cap := 9 |> in
  ∃ s', pes_pkt_output (mk_pp 1 0 k [mk_cb 1 2], []) = Ok tt s' ∧
    (fun e => (e.1, (valid e.2, pes_payload_len e.2, pes_payload e.2))) <$> s'.2 = [(mk_cb 1 2, (1, -255, 264))].
Proof. eexists. split; by vm_compute. Qed.
