(* ===== verification/SwdmxDemux.v ===== *)
(** The demultiplexer: PID filters, TS filters and section filters
    (src/drivers/stream_input/t5d_demux/sw_demux/swdmx_demux.c).

    The state is the demux with all filters it owns, by address, because a
    filter is linked in two lists and points to its PID filter, which points
    back; the lists themselves are lists of addresses (SwdmxList.v shows that
    the pointer operations are these list operations).  Added to it are the
    table of the CRC and the calls of the callbacks made so far.  The address
    and the contents of new memory are arguments of the operations that
    allocate.  Callbacks do not change the demux they are called from. *)

From stdpp Require Import base list numbers gmap.
From Stdlib Require Import ZArith Lia Bool.
From S2P Require Import Prelude.
From S2P Require Import SwdmxCrc32.
From S2P Require Import SwdmxList.
From S2P Require Import SwdmxTs.

#[local] Open Scope Z_scope.

Definition SWDMX_SEC_FILTER_LEN : Z := 16.

Inductive swdmx_filter_state :=
| SWDMX_FILTER_STATE_INIT
| SWDMX_FILTER_STATE_SET
| SWDMX_FILTER_STATE_RUN.

#[export] Instance swdmx_filter_state_eq_dec : EqDecision swdmx_filter_state.
Proof. solve_decision. Defined.

Record swdmx_secfilter_params := mk_secp {
  sp_pid : Z;
  sp_crc32 : Z;
  sp_value : list Z;
  sp_mask : list Z;
  sp_mode : list Z
}.

Record swdmx_pid_filter := mk_pidf {
  pf_pid : Z;
  pf_ts : list Z;                 (** ts_filter_list *)
  pf_sec : list Z;                (** sec_filter_list *)
  sec_buf : option (list Z);      (** sec_data *)
  sec_recv : Z
}.

#[export] Instance eta_swdmx_pid_filter : Settable swdmx_pid_filter := fun r =>
  mk_pidf (pf_pid r) (pf_ts r) (pf_sec r) (sec_buf r) (sec_recv r).

Record swdmx_tsfilter := mk_tsfilter {
  tf_state : swdmx_filter_state;
  tf_pid_filter : option Z;
  tf_pid : Z;                     (** params.pid *)
  tf_cbs : list swdmx_cb_entry
}.

#[export] Instance eta_swdmx_tsfilter : Settable swdmx_tsfilter := fun r =>
  mk_tsfilter (tf_state r) (tf_pid_filter r) (tf_pid r) (tf_cbs r).

Record swdmx_secfilter := mk_secfilter {
  sf_state : swdmx_filter_state;
  sf_pid_filter : option Z;
  sf_params : swdmx_secfilter_params;
  sf_value : list Z;
  sf_mam : list Z;
  sf_manm : list Z;
  sf_cbs : list swdmx_cb_entry
}.

#[export] Instance eta_swdmx_secfilter : Settable swdmx_secfilter := fun r =>
  mk_secfilter (sf_state r) (sf_pid_filter r) (sf_params r) (sf_value r) (sf_mam r) (sf_manm r) (sf_cbs r).

(** A call of a callback: of a TS filter or of a section filter. *)
Inductive event :=
| Ev_ts (c : swdmx_cb_entry) (k : swdmx_tspacket)
| Ev_sec (c : swdmx_cb_entry) (sec : list Z).

Record swdmx_demux := mk_dmx {
  pid_filter_list : list Z;
  ts_filter_list : list Z;
  sec_filter_list : list Z;
  pidfs : gmap Z swdmx_pid_filter;
  tsfs : gmap Z swdmx_tsfilter;
  secfs : gmap Z swdmx_secfilter;
  crc_tab : list Z;
  events : list event
}.

#[export] Instance eta_swdmx_demux : Settable swdmx_demux := fun r =>
  mk_dmx (pid_filter_list r) (ts_filter_list r) (sec_filter_list r) (pidfs r) (tsfs r) (secfs r)
    (crc_tab r) (events r).

Definition D A := M swdmx_demux A.

#[export] Instance D_ret : MRet D := M_ret swdmx_demux.
#[export] Instance D_bind : MBind D := M_bind swdmx_demux.

(** [swdmx_demux_new()] *)
Definition swdmx_demux_new (tab : list Z) : swdmx_demux := mk_dmx [] [] [] ∅ ∅ ∅ tab [].

(** Access through a pointer. *)
Definition pidf (a : Z) : D swdmx_pid_filter := m ← gets pidfs; of_option (m !! a).
Definition tsf (a : Z) : D swdmx_tsfilter := m ← gets tsfs; of_option (m !! a).
Definition secf (a : Z) : D swdmx_secfilter := m ← gets secfs; of_option (m !! a).

Definition upd_pidf (a : Z) (g : swdmx_pid_filter → swdmx_pid_filter) : D unit :=
  f ← pidf a; modify (fun s => s <| pidfs := <[a := g f]> (pidfs s) |>).
Definition upd_tsf (a : Z) (g : swdmx_tsfilter → swdmx_tsfilter) : D unit :=
  f ← tsf a; modify (fun s => s <| tsfs := <[a := g f]> (tsfs s) |>).
Definition upd_secf (a : Z) (g : swdmx_secfilter → swdmx_secfilter) : D unit :=
  f ← secf a; modify (fun s => s <| secfs := <[a := g f]> (secfs s) |>).

(** [swdmx_list_remove] of a node of a list. *)
Definition unlink (a : Z) (l : list Z) : list Z := filter (fun x => x ≠ a) l.

(** ** PID filters *)

(** The PID filter with this PID, in list order. *)
Fixpoint find_pid (m : gmap Z swdmx_pid_filter) (l : list Z) (pid : Z) : option Z :=
  match l with
  | [] => None
  | a :: l => match m !! a with
              | Some f => if pf_pid f =? pid then Some a else find_pid m l pid
              | None => None
              end
  end.

(** [static struct swdmx_pid_filter *pid_filter_get(dmx, pid)]; [addr] is
    what an allocation gives. *)
Definition pid_filter_get (addr pid : Z) : D Z :=
  s ← get;
  match find_pid (pidfs s) (pid_filter_list s) pid with
  | Some a => mret a
  | None =>
      modify (fun s => s <| pidfs := <[addr := mk_pidf pid [] [] None 0]> (pidfs s) |>);;
      modify (fun s => s <| pid_filter_list := pid_filter_list s ++ [addr] |>);;
      mret addr
  end.

(** [static void pid_filter_remove(f)] *)
Definition pid_filter_remove (a : Z) : D unit :=
  f ← pidf a;
  if negb (bool_decide (pf_ts f = [])) || negb (bool_decide (pf_sec f = [])) then mret tt
  else
    modify (fun s => s <| pid_filter_list := unlink a (pid_filter_list s) |>);;
    modify (fun s => s <| pidfs := delete a (pidfs s) |>).

(** ** Section data *)

(** [static u8 sec_filter_match(data, len, f)]; [len] is not used. *)
Definition match_byte (data : list Z) (f : swdmx_secfilter) (i : Z) (acc : Z * Z * Z) : option (Z * Z * Z) :=
  let '(m, n, has_n) := acc in
  x ← aget data i; mam ← aget (sf_mam f) i; v ← aget (sf_value f) i; manm ← aget (sf_manm f) i;
  Some (Z.lor m (Z.lxor (Z.land x mam) (Z.land v mam)),
        Z.lor n (Z.lxor (Z.land x manm) (Z.land v manm)),
        Z.lor has_n manm).

Fixpoint match_bytes (k : nat) (i : Z) (data : list Z) (f : swdmx_secfilter) (acc : Z * Z * Z) : option (Z * Z * Z) :=
  match k with
  | O => Some acc
  | S k => acc ← match_byte data f i acc; match_bytes k (i + 1) data f acc
  end.

Definition sec_filter_match (data : list Z) (f : swdmx_secfilter) : option bool :=
  '(m, n, has_n) ← match_bytes (Z.to_nat SWDMX_SEC_FILTER_LEN) 0 data f (0, 0, 0);
  Some (if truth m then false else if truth has_n && negb (truth n) then false else true).

(** What a call of [sec_data] does before the filters: the new buffer and
    [sec_recv], the return value, and whether the section is complete. *)
Record received := mk_recv { rc_buf : list Z; rc_recv : Z; rc_ret : Z; rc_complete : bool }.

Definition sec_len (sec : list Z) : option Z :=
  s1 ← aget sec 1; s2 ← aget sec 2; Some (Z.lor (Z.shiftl (Z.land s1 15) 8) s2 + 3).

(** [memcpy(sec + recv, p, n)] guarded by [if (n)]. *)
Definition copy (sec : list Z) (recv : Z) (p : list Z) (n : Z) : option (list Z) :=
  if n =? 0 then Some sec else src ← load p 0 n; store sec recv src.

Definition sec_receive (sec : list Z) (recv : Z) (p : list Z) : option received :=
  let len := zlen p in
  let n1 := if recv <? 3 then Z.min len (3 - recv) else 0 in
  sec ← copy sec recv p n1;
  let p := drop (Z.to_nat n1) p in
  let left := len - n1 in
  let recv := recv + n1 in
  if recv <? 3 then Some (mk_recv sec recv len false)
  else
    s0 ← aget sec 0;
    if s0 =? 255 then Some (mk_recv sec recv len false)
    else
      sl ← sec_len sec;
      let n := Z.min (sl - recv) left in
      sec ← copy sec recv p n;
      let left := left - n in
      let recv := recv + n in
      Some (mk_recv sec recv (len - left) (recv =? sl)).

(** The callbacks of a filter that matched. *)
Definition call_sec_cbs (cbs : list swdmx_cb_entry) (sec : list Z) : D unit :=
  modify (fun s => s <| events := events s ++ ((fun c => Ev_sec c sec) <$> cbs) |>).

(** The loop over the section filters; [crc] tells that the CRC has been
    checked already. *)
Fixpoint sec_dispatch (fs : list Z) (sec : list Z) (recv : Z) (crc : bool) : D unit :=
  match fs with
  | [] => mret tt
  | a :: fs =>
      f ← secf a;
      go ← (if truth (sp_crc32 (sf_params f)) && negb crc then
              r ← zoom crc_tab (fun t s => s <| crc_tab := t |>) (swdmx_crc32 sec recv);
              mret (negb (truth r))
            else mret true);
      if (go : bool) then
        let crc := crc || truth (sp_crc32 (sf_params f)) in
        m ← of_option (sec_filter_match sec f);
        when m (call_sec_cbs (sf_cbs f) (take (Z.to_nat recv) sec));;
        sec_dispatch fs sec recv crc
      else mret tt
  end.

(** [static int sec_data(pid_filter, p, len)]; [p] is the block of [len]
    bytes. *)
Definition sec_data (a : Z) (p : list Z) : D Z :=
  pf ← pidf a;
  sec ← of_option (sec_buf pf);
  r ← of_option (sec_receive sec (sec_recv pf) p);
  upd_pidf a (fun f => f <| sec_buf := Some (rc_buf r) |> <| sec_recv := rc_recv r |>);;
  when (rc_complete r)
    (sec_dispatch (pf_sec pf) (rc_buf r) (rc_recv r) false;;
     upd_pidf a (fun f => f <| sec_recv := 0 |>));;
  mret (rc_ret r).

(** [while (left > 0) { n = sec_data(...); p += n; left -= n; }]; every turn
    takes at least a byte. *)
Fixpoint sec_loop (fuel : nat) (a : Z) (p : list Z) : D unit :=
  match fuel with
  | O => undef
  | S fuel =>
      if bool_decide (p = []) then mret tt
      else n ← sec_data a p; sec_loop fuel a (drop (Z.to_nat n) p)
  end.

(** The callbacks of the TS filters. *)
Fixpoint call_ts_filters (fs : list Z) (k : swdmx_tspacket) : D unit :=
  match fs with
  | [] => mret tt
  | a :: fs =>
      f ← tsf a;
      modify (fun s => s <| events := events s ++ ((fun c => Ev_ts c k) <$> tf_cbs f) |>);;
      call_ts_filters fs k
  end.

(** "Solve section data": the payload [p] of a packet. *)
Definition section_payload (a : Z) (start : bool) (p : list Z) : D unit :=
  go ← (if start then
          r ← (match p with
               | [] => mret (Some [])
               | ptr :: p =>
                   if truth ptr then
                     if ptr >? zlen p then mret None
                     else
                       pf ← pidf a;
                       when (truth (sec_recv pf)) (sec_data a (take (Z.to_nat ptr) p);; mret tt);;
                       mret (Some (drop (Z.to_nat ptr) p))
                   else mret (Some p)
               end);
          match r with
          | Some p => upd_pidf a (fun f => f <| sec_recv := 0 |>);; mret (Some p)
          | None => mret None
          end
        else mret (Some p));
  match go with
  | Some p => sec_loop (S (length p)) a p
  | None => mret tt
  end.

(** [static void pid_filter_data(pid_filter, pkt)]; [buf] is the buffer the
    packet points into, [fresh] the memory of a new section buffer. *)
Definition pid_filter_data (fresh : list Z) (a : Z) (buf : list Z) (k : swdmx_tspacket) : D unit :=
  pf ← pidf a;
  call_ts_filters (pf_ts pf) k;;
  if bool_decide (pf_sec pf = []) then mret tt
  else match payload k with
  | None => mret tt
  | Some off =>
      if truth (scramble k) then mret tt
      else
        when (bool_decide (sec_buf pf = None)) (upd_pidf a (fun f => f <| sec_buf := Some fresh |>));;
        p ← of_option (load buf off (payload_len k));
        section_payload a (truth (payload_start k)) p
  end.

(** [void swdmx_demux_ts_packet_cb(pkt, dmx)] *)
Fixpoint route (fresh : list Z) (l : list Z) (buf : list Z) (k : swdmx_tspacket) : D unit :=
  match l with
  | [] => mret tt
  | a :: l =>
      f ← pidf a;
      if (pid k =? pf_pid f) || (pf_pid f =? 8192) then pid_filter_data fresh a buf k
      else route fresh l buf k
  end.

Definition swdmx_demux_ts_packet_cb (fresh : list Z) (buf : list Z) (k : swdmx_tspacket) : D unit :=
  l ← gets pid_filter_list; route fresh l buf k.

(** ** TS filters *)

(** [swdmx_demux_alloc_ts_filter(dmx)], at address [addr]; the PID is what
    the memory holds. *)
Definition swdmx_demux_alloc_ts_filter (addr junk : Z) : D Z :=
  modify (fun s => s <| tsfs := <[addr := mk_tsfilter SWDMX_FILTER_STATE_INIT None junk []]> (tsfs s) |>);;
  modify (fun s => s <| ts_filter_list := ts_filter_list s ++ [addr] |>);;
  mret addr.

(** [pid_filter_get], then [swdmx_list_append] to its list of TS filters. *)
Definition ts_link (addr a pid : Z) : D unit :=
  pf ← pid_filter_get addr pid;
  upd_tsf a (fun f => f <| tf_pid_filter := Some pf |>);;
  upd_pidf pf (fun f => f <| pf_ts := pf_ts f ++ [a] |>).

(** [swdmx_list_remove(&filter->pid_ln)], then [pid_filter_remove]. *)
Definition ts_unlink (a : Z) : D unit :=
  f ← tsf a;
  pf ← of_option (tf_pid_filter f);
  upd_pidf pf (fun f => f <| pf_ts := unlink a (pf_ts f) |>);;
  pid_filter_remove pf;;
  upd_tsf a (fun f => f <| tf_pid_filter := None |>).

Definition is_state (x y : swdmx_filter_state) : bool := bool_decide (x = y).

Definition swdmx_ts_filter_set_params (addr a pid : Z) : D Z :=
  if pid >? 8192 then mret SWDMX_ERR
  else
    f ← tsf a;
    when (is_state (tf_state f) SWDMX_FILTER_STATE_RUN && negb (tf_pid f =? pid)) (ts_unlink a);;
    upd_tsf a (fun f => f <| tf_pid := pid |>);;
    f ← tsf a;
    when (is_state (tf_state f) SWDMX_FILTER_STATE_INIT)
      (upd_tsf a (fun f => f <| tf_state := SWDMX_FILTER_STATE_SET |>));;
    f ← tsf a;
    when (is_state (tf_state f) SWDMX_FILTER_STATE_RUN && bool_decide (tf_pid_filter f = None))
      (ts_link addr a pid);;
    mret SWDMX_OK.

Definition swdmx_ts_filter_add_ts_packet_cb (a : Z) (c : swdmx_cb_entry) : D Z :=
  upd_tsf a (fun f => f <| tf_cbs := tf_cbs f ++ [c] |>);; mret SWDMX_OK.

Definition swdmx_ts_filter_remove_ts_packet_cb (a : Z) (c : swdmx_cb_entry) : D Z :=
  upd_tsf a (fun f => f <| tf_cbs := remove_first c (tf_cbs f) |>);; mret SWDMX_OK.

Definition swdmx_ts_filter_enable (addr a : Z) : D Z :=
  f ← tsf a;
  if is_state (tf_state f) SWDMX_FILTER_STATE_INIT then mret SWDMX_ERR
  else
    when (is_state (tf_state f) SWDMX_FILTER_STATE_SET)
      (ts_link addr a (tf_pid f);;
       upd_tsf a (fun f => f <| tf_state := SWDMX_FILTER_STATE_RUN |>));;
    mret SWDMX_OK.

Definition swdmx_ts_filter_disable (a : Z) : D Z :=
  f ← tsf a;
  when (is_state (tf_state f) SWDMX_FILTER_STATE_RUN)
    (ts_unlink a;; upd_tsf a (fun f => f <| tf_state := SWDMX_FILTER_STATE_SET |>));;
  mret SWDMX_OK.

Definition swdmx_ts_filter_free (a : Z) : D unit :=
  swdmx_ts_filter_disable a;;
  modify (fun s => s <| ts_filter_list := unlink a (ts_filter_list s) |>);;
  upd_tsf a (fun f => f <| tf_cbs := [] |>);;
  modify (fun s => s <| tsfs := delete a (tsfs s) |>).

(** ** Section filters *)

(** [swdmx_demux_alloc_sec_filter(dmx)]; [junk] is the filter as the memory
    holds it. *)
Definition swdmx_demux_alloc_sec_filter (addr : Z) (junk : swdmx_secfilter) : D Z :=
  modify (fun s => s <| secfs := <[addr := junk <| sf_state := SWDMX_FILTER_STATE_INIT |>
    <| sf_pid_filter := None |> <| sf_cbs := [] |>]> (secfs s) |>);;
  modify (fun s => s <| sec_filter_list := sec_filter_list s ++ [addr] |>);;
  mret addr.

Definition sec_link (addr a pid : Z) : D unit :=
  pf ← pid_filter_get addr pid;
  upd_secf a (fun f => f <| sf_pid_filter := Some pf |>);;
  upd_pidf pf (fun f => f <| pf_sec := pf_sec f ++ [a] |>).

Definition sec_unlink (a : Z) : D unit :=
  f ← secf a;
  pf ← of_option (sf_pid_filter f);
  upd_pidf pf (fun f => f <| pf_sec := unlink a (pf_sec f) |>);;
  pid_filter_remove pf;;
  upd_secf a (fun f => f <| sf_pid_filter := None |>).

Definition swdmx_is_valid_pid (pid : Z) : bool := pid <=? 8191.

(** Byte [i] of the parameters goes to byte [j] of the arrays that are
    compared with the section: the two bytes of the length are skipped. *)
Definition filter_pos (i : Z) : Z := if truth i then i + 2 else i.

Definition set_filter_byte (p : swdmx_secfilter_params) (i : Z) (f : swdmx_secfilter) : option swdmx_secfilter :=
  v ← aget (sp_value p) i; mask ← aget (sp_mask p) i; pm ← aget (sp_mode p) i;
  let mode := u8 (Z.lnot pm) in
  value ← aset (sf_value f) (filter_pos i) v;
  mam ← aset (sf_mam f) (filter_pos i) (u8 (Z.land mask mode));
  manm ← aset (sf_manm f) (filter_pos i) (u8 (Z.land mask (Z.lnot mode)));
  Some (f <| sf_value := value |> <| sf_mam := mam |> <| sf_manm := manm |>).

Fixpoint set_filter_bytes (k : nat) (i : Z) (p : swdmx_secfilter_params) (f : swdmx_secfilter) : option swdmx_secfilter :=
  match k with
  | O => Some f
  | S k => f ← set_filter_byte p i f; set_filter_bytes k (i + 1) p f
  end.

Definition clear_length_byte (j : Z) (f : swdmx_secfilter) : option swdmx_secfilter :=
  value ← aset (sf_value f) j 0; mam ← aset (sf_mam f) j 0; manm ← aset (sf_manm f) j 0;
  Some (f <| sf_value := value |> <| sf_mam := mam |> <| sf_manm := manm |>).

Definition set_filter_arrays (p : swdmx_secfilter_params) (f : swdmx_secfilter) : option swdmx_secfilter :=
  f ← set_filter_bytes (Z.to_nat SWDMX_SEC_FILTER_LEN) 0 p f;
  f ← clear_length_byte 1 f;
  clear_length_byte 2 f.

Definition swdmx_sec_filter_set_params (addr a : Z) (p : swdmx_secfilter_params) : D Z :=
  if negb (swdmx_is_valid_pid (sp_pid p)) || (sp_pid p =? 8191) then mret SWDMX_ERR
  else
    f ← secf a;
    when (is_state (sf_state f) SWDMX_FILTER_STATE_RUN && negb (sp_pid (sf_params f) =? sp_pid p)) (sec_unlink a);;
    upd_secf a (fun f => f <| sf_params := p |>);;
    f ← secf a;
    f' ← of_option (set_filter_arrays p f);
    upd_secf a (fun _ => f');;
    f ← secf a;
    when (is_state (sf_state f) SWDMX_FILTER_STATE_INIT)
      (upd_secf a (fun f => f <| sf_state := SWDMX_FILTER_STATE_SET |>));;
    f ← secf a;
    when (is_state (sf_state f) SWDMX_FILTER_STATE_RUN && bool_decide (sf_pid_filter f = None))
      (sec_link addr a (sp_pid p));;
    mret SWDMX_OK.

Definition swdmx_sec_filter_add_section_cb (a : Z) (c : swdmx_cb_entry) : D Z :=
  upd_secf a (fun f => f <| sf_cbs := sf_cbs f ++ [c] |>);; mret SWDMX_OK.

Definition swdmx_sec_filter_remove_section_cb (a : Z) (c : swdmx_cb_entry) : D Z :=
  upd_secf a (fun f => f <| sf_cbs := remove_first c (sf_cbs f) |>);; mret SWDMX_OK.

Definition swdmx_sec_filter_enable (addr a : Z) : D Z :=
  f ← secf a;
  if is_state (sf_state f) SWDMX_FILTER_STATE_INIT then mret SWDMX_ERR
  else
    when (is_state (sf_state f) SWDMX_FILTER_STATE_SET)
      (sec_link addr a (sp_pid (sf_params f));;
       upd_secf a (fun f => f <| sf_state := SWDMX_FILTER_STATE_RUN |>));;
    mret SWDMX_OK.

Definition swdmx_sec_filter_disable (a : Z) : D Z :=
  f ← secf a;
  when (is_state (sf_state f) SWDMX_FILTER_STATE_RUN)
    (sec_unlink a;; upd_secf a (fun f => f <| sf_state := SWDMX_FILTER_STATE_SET |>));;
  mret SWDMX_OK.

Definition swdmx_sec_filter_free (a : Z) : D unit :=
  swdmx_sec_filter_disable a;;
  modify (fun s => s <| sec_filter_list := unlink a (sec_filter_list s) |>);;
  upd_secf a (fun f => f <| sf_cbs := [] |>);;
  modify (fun s => s <| secfs := delete a (secfs s) |>).

(** ** The end of the demux *)

(** [while (!swdmx_list_is_empty(l)) free(first);] *)
Fixpoint free_all (fuel : nat) (l : swdmx_demux → list Z) (free : Z → D unit) : D unit :=
  xs ← gets l;
  match xs with
  | [] => mret tt
  | a :: _ => match fuel with
              | O => undef
              | S fuel => free a;; free_all fuel l free
              end
  end.

(** [void swdmx_demux_free(dmx)]; each loop runs at most once per element. *)
Definition swdmx_demux_free : D unit :=
  s ← get; free_all (length (ts_filter_list s)) ts_filter_list swdmx_ts_filter_free;;
  s ← get; free_all (length (sec_filter_list s)) sec_filter_list swdmx_sec_filter_free;;
  s ← get; free_all (length (pid_filter_list s)) pid_filter_list pid_filter_remove.
