(* ===== verification/SwdmxSections.v ===== *)
(** Section reassembly and section filters of swdmx_demux.c: [sec_data] in
    its loop is equivalent to a machine that takes one byte at a time, and
    the filters compare what their parameters say. *)

From stdpp Require Import base list numbers gmap.
From Stdlib Require Import ZArith Lia Bool.
From S2P Require Import Prelude.
From S2P Require Import SwdmxCrc32.
From S2P Require Import SwdmxList.
From S2P Require Import SwdmxTs.
From S2P Require Import SwdmxDemux.

#[local] Open Scope Z_scope.

(** ** One byte at a time *)

(** The section buffer and the number of bytes received. *)
Record asm := mk_asm { as_buf : list Z; as_recv : Z }.

(** After a first byte 0xff (stuffing) everything is dropped until the next
    section starts. *)
Definition stuffing (x : asm) : bool := (as_recv x =? 3) && bool_decide (aget (as_buf x) 0 = Some 255).

Definition full (x : asm) : bool :=
  (3 <=? as_recv x) && bool_decide (aget (as_buf x) 0 ≠ Some 255 ∧ sec_len (as_buf x) = Some (as_recv x)).

(** The reference: store the byte; a full buffer is a section. *)
Definition asm_byte (x : asm) (b : Z) : asm * list asm :=
  if stuffing x then (x, [])
  else
    let y := mk_asm (<[Z.to_nat (as_recv x) := b]> (as_buf x)) (as_recv x + 1) in
    if full y then (mk_asm (as_buf y) 0, [y]) else (y, []).

Fixpoint asm_bytes (x : asm) (l : list Z) : asm * list asm :=
  match l with
  | [] => (x, [])
  | b :: l => let r := asm_byte x b in
              let q := asm_bytes r.1 l in (q.1, r.2 ++ q.2)
  end.

Lemma asm_bytes_app x l k :
  asm_bytes x (l ++ k) = ((asm_bytes (asm_bytes x l).1 k).1, (asm_bytes x l).2 ++ (asm_bytes (asm_bytes x l).1 k).2).
Proof.
  revert x. induction l as [|b l IH]; intros x; cbn.
  - by destruct (asm_bytes x k).
  - rewrite IH. cbn. by rewrite app_assoc.
Qed.

(** Between two calls of [sec_data]. *)
Definition SEC_SIZE : Z := 4099.

Definition asm_ok (x : asm) : Prop :=
  zlen (as_buf x) = SEC_SIZE ∧ is_bytes (as_buf x) ∧ 0 ≤ as_recv x ∧
  (as_recv x < 3 ∨ stuffing x = true ∨
   aget (as_buf x) 0 ≠ Some 255 ∧ ∃ sl, sec_len (as_buf x) = Some sl ∧ 3 ≤ as_recv x < sl).

Lemma sec_len_bound sec sl : is_bytes sec → sec_len sec = Some sl → 3 ≤ sl ≤ 4098.
Proof.
  unfold sec_len. intros Hb Hs. destruct (aget sec 1) as [s1|]; [|discriminate].
  destruct (aget sec 2) as [s2|] eqn:H2; [|discriminate]. cbn in Hs. injection Hs as <-.
  apply aget_inv in H2 as [_ H2]. pose proof (proj1 (Forall_lookup _ _) Hb _ _ H2) as Hs2. cbn in Hs2.
  pose proof (land_ones_range s1 4 ltac:(lia)) as Hr. change (Z.ones 4) with 15 in Hr. change (2 ^ 4) with 16 in Hr.
  rewrite Z.shiftl_mul_pow2, (lor_mul_add _ _ 8) by lia. lia.
Qed.

Lemma sec_len_total sec : 3 ≤ zlen sec → ∃ sl, sec_len sec = Some sl.
Proof.
  intros Hl. unfold sec_len. destruct (aget_Some sec 1) as [? ->]; [lia|].
  destruct (aget_Some sec 2) as [? ->]; [lia|]. cbn. by eexists.
Qed.

(** A stored block is the bytes stored one by one. *)
Lemma store_snoc (sec : list Z) a (q : list Z) b sec' : 0 ≤ a → store sec a q = Some sec' → a + zlen q < zlen sec →
  store sec a (q ++ [b]) = Some (<[Z.to_nat (a + zlen q) := b]> sec').
Proof.
  intros Ha (_ & _ & ->)%store_inv Hl. unfold zlen in *. rewrite store_Some.
  2: done. 2: { unfold zlen. rewrite length_app. cbn. lia. }
  f_equal. rewrite length_app. cbn [length].
  assert (length (take (Z.to_nat a) sec) = Z.to_nat a) as Ht by (rewrite length_take; lia).
  rewrite insert_app_r_alt by lia. rewrite Ht. rewrite insert_app_r_alt by lia.
  replace (Z.to_nat (a + Z.of_nat (length q)) - Z.to_nat a - length q)%nat with 0%nat by lia.
  destruct (drop (Z.to_nat a + length q) sec) as [|z d] eqn:Hd.
  { apply (f_equal length) in Hd. rewrite length_drop in Hd. cbn in Hd. lia. }
  cbn [insert list_insert]. rewrite <- app_assoc. cbn [app]. do 3 f_equal.
  replace (Z.to_nat a + (length q + 1))%nat with (1 + (Z.to_nat a + length q))%nat by lia.
  rewrite Nat.add_comm, <- drop_drop, Hd. done.
Qed.

(** The first bytes of the buffer are not changed by a block behind them. *)
Lemma store_aget (sec : list Z) a (q : list Z) sec' i : store sec a q = Some sec' → 0 ≤ i < a → aget sec' i = aget sec i.
Proof.
  intros (Ha & Hl & ->)%store_inv Hi. unfold aget, zlen in *. rewrite (proj2 (Z.leb_le _ _)) by lia.
  rewrite lookup_app_l by (rewrite length_take; lia). apply lookup_take_lt. lia.
Qed.

Lemma store_bytes sec a q sec' : store sec a q = Some sec' → is_bytes sec → is_bytes q → is_bytes sec'.
Proof.
  intros (_ & _ & ->)%store_inv Hs Hq. apply Forall_app. split; [by apply Forall_take|].
  apply Forall_app. split; [done|by apply Forall_drop].
Qed.

Lemma store_nil {A} (sec : list A) a : 0 ≤ a ≤ zlen sec → store sec a [] = Some sec.
Proof.
  intros Ha. rewrite store_Some by (unfold zlen in *; cbn; lia). cbn. by rewrite Nat.add_0_r, take_drop.
Qed.

Lemma store_app (sec : list Z) a (q1 q2 : list Z) sec1 sec2 : store sec a q1 = Some sec1 →
  store sec1 (a + zlen q1) q2 = Some sec2 → store sec a (q1 ++ q2) = Some sec2.
Proof.
  intros H1. revert sec2. induction q2 as [|b q2 IH] using rev_ind; intros sec2 H2.
  - rewrite app_nil_r. pose proof (store_zlen _ _ _ _ H1). pose proof (store_inv _ _ _ _ H1) as (? & ? & _).
    rewrite store_nil in H2 by (pose proof (zlen_nonneg q1); lia). congruence.
  - pose proof (store_inv _ _ _ _ H2) as (Ha & Hl & _). rewrite zlen_app in Hl. change (zlen [b]) with 1 in Hl.
    destruct (store sec1 (a + zlen q1) q2) as [sec3|] eqn:H3; [|rewrite store_Some in H3; [done|done|lia]].
    rewrite (store_snoc _ _ _ b _ Ha H3 ltac:(lia)) in H2. injection H2 as <-.
    pose proof (store_inv _ _ _ _ H1) as (Ha1 & _ & _). pose proof (store_zlen _ _ _ _ H1).
    rewrite app_assoc, (store_snoc _ _ _ b sec3); [|done|by apply IH|rewrite zlen_app; lia].
    rewrite zlen_app. do 2 f_equal. lia.
Qed.

(** A prefix of the block has been stored. *)
Lemma store_prefix (sec : list Z) a q sec' k : store sec a q = Some sec' → (k ≤ length q)%nat →
  ∃ sec1, store sec a (take k q) = Some sec1 ∧ store sec1 (a + Z.of_nat k) (drop k q) = Some sec'.
Proof.
  intros Hs Hk. pose proof (store_inv _ _ _ _ Hs) as (Ha & Hl & _). unfold zlen in Hl.
  assert (zlen (take k q) = Z.of_nat k) as Hz by (unfold zlen; rewrite length_take; lia).
  destruct (store sec a (take k q)) as [sec1|] eqn:H1.
  2: { rewrite store_Some in H1; [done|done|rewrite Hz; unfold zlen; lia]. }
  exists sec1. split; [done|]. pose proof (store_zlen _ _ _ _ H1) as Hz1.
  destruct (store sec1 (a + Z.of_nat k) (drop k q)) as [sec2|] eqn:H2.
  - rewrite <- Hz in H2. pose proof (store_app _ _ _ _ _ _ H1 H2) as H3. rewrite take_drop in H3. congruence.
  - rewrite store_Some in H2; [done|lia|]. unfold zlen in *. rewrite length_drop. lia.
Qed.

(** Bytes that do not complete a section. *)
Lemma asm_block x q sec' : store (as_buf x) (as_recv x) q = Some sec' → 0 ≤ as_recv x →
  (∀ k sec, (k < length q)%nat → store (as_buf x) (as_recv x) (take k q) = Some sec →
     stuffing (mk_asm sec (as_recv x + Z.of_nat k)) = false) →
  (∀ k sec, (0 < k ≤ length q)%nat → store (as_buf x) (as_recv x) (take k q) = Some sec →
     full (mk_asm sec (as_recv x + Z.of_nat k)) = false) →
  asm_bytes x q = (mk_asm sec' (as_recv x + zlen q), []).
Proof.
  revert sec'. induction q as [|b q IH] using rev_ind; intros sec' Hst Hr Hns Hnf.
  - apply store_inv in Hst as (? & ? & ->). cbn. rewrite Nat.add_0_r, take_drop.
    unfold zlen. cbn. rewrite Z.add_0_r. by destruct x.
  - assert (as_recv x + zlen q < zlen (as_buf x)) as Hlt.
    { apply store_inv in Hst as (_ & H & _). rewrite zlen_app in H. change (zlen [b]) with 1 in H. lia. }
    destruct (store (as_buf x) (as_recv x) q) as [sec1|] eqn:Hs1.
    2: { rewrite store_Some in Hs1; [done|done|lia]. }
    rewrite (store_snoc _ _ _ b _ Hr Hs1 Hlt) in Hst. injection Hst as <-.
    rewrite asm_bytes_app, (IH sec1); [|done|done| |].
    + cbn [fst snd asm_bytes app]. unfold asm_byte.
      pose proof (Hns (length q) sec1 ltac:(rewrite length_app; cbn; lia)) as Hns'.
      rewrite take_app_length in Hns'. change (Z.of_nat (length q)) with (zlen q) in Hns'. rewrite (Hns' Hs1).
      cbn [as_recv as_buf].
      pose proof (Hnf (length (q ++ [b]))) as Hf. rewrite take_ge in Hf by lia.
      specialize (Hf _ ltac:(rewrite length_app; cbn; lia) (store_snoc _ _ _ b _ Hr Hs1 Hlt)).
      rewrite length_app in Hf. cbn [length] in Hf.
      replace (as_recv x + zlen q + 1) with (as_recv x + Z.of_nat (length q + 1)) by (unfold zlen; lia).
      rewrite Hf. cbn. f_equal. f_equal. rewrite zlen_app. unfold zlen. cbn. lia.
    + intros k sec Hk. rewrite <- (take_app_le q [b]) by lia. apply Hns. rewrite length_app. lia.
    + intros k sec Hk. rewrite <- (take_app_le q [b]) by lia. apply Hnf. rewrite length_app. lia.
Qed.

Lemma asm_stuffing x q : stuffing x = true → asm_bytes x q = (x, []).
Proof. intros Hx. induction q as [|b q IH]; [done|]. cbn. unfold asm_byte. rewrite Hx. cbn. by rewrite IH. Qed.

Lemma sec_len_agree sec sec' : (∀ i, 0 ≤ i < 3 → aget sec' i = aget sec i) → sec_len sec' = sec_len sec.
Proof. intros H. unfold sec_len. by rewrite !H by lia. Qed.

(** Bytes of a section, up to its end or before. *)
Lemma asm_run x q sec' sl : store (as_buf x) (as_recv x) q = Some sec' → 0 ≤ as_recv x → q ≠ [] →
  aget sec' 0 ≠ Some 255 → sec_len sec' = Some sl → 3 ≤ as_recv x + zlen q ≤ sl →
  asm_bytes x q = if as_recv x + zlen q =? sl
                  then (mk_asm sec' 0, [mk_asm sec' (as_recv x + zlen q)])
                  else (mk_asm sec' (as_recv x + zlen q), []).
Proof.
  intros Hst Hr Hq H0 Hsl Hlen.
  assert (∀ k sec, (k ≤ length q)%nat → store (as_buf x) (as_recv x) (take k q) = Some sec → 3 ≤ as_recv x + Z.of_nat k →
    aget sec 0 ≠ Some 255 ∧ sec_len sec = Some sl) as Hag.
  { intros k sec Hk Hs H3. destruct (store_prefix _ _ _ _ k Hst Hk) as (sec1 & Hs1 & Hs2).
    assert (sec1 = sec) as -> by congruence.
    assert (∀ i, 0 ≤ i < 3 → aget sec' i = aget sec i) as Ha by (intros i Hi; eapply store_aget; [exact Hs2|lia]).
    rewrite <- (sec_len_agree _ _ Ha), <- Ha by lia. done. }
  assert (∀ k sec, (k < length q)%nat → store (as_buf x) (as_recv x) (take k q) = Some sec →
     stuffing (mk_asm sec (as_recv x + Z.of_nat k)) = false ∧ full (mk_asm sec (as_recv x + Z.of_nat k)) = false) as Hk.
  { intros k sec Hk Hs. unfold stuffing, full. cbn [as_recv as_buf]. unfold zlen in Hlen.
    destruct (Z.leb_spec 3 (as_recv x + Z.of_nat k)).
    - destruct (Hag k sec ltac:(lia) Hs ltac:(lia)) as [E1 E2]. rewrite (bool_decide_false _ E1), andb_false_r. split; [done|].
      cbn [andb]. apply bool_decide_false. intros [_ E3]. rewrite E2 in E3. injection E3. lia.
    - rewrite (proj2 (Z.eqb_neq _ _)) by lia. done. }
  destruct (exists_last Hq) as (q' & b & ->). rewrite zlen_app in *. change (zlen [b]) with 1 in *.
  assert (as_recv x + zlen q' < zlen (as_buf x)) as Hlt.
  { apply store_inv in Hst as (_ & H & _). rewrite zlen_app in H. change (zlen [b]) with 1 in H. lia. }
  destruct (store (as_buf x) (as_recv x) q') as [sec1|] eqn:Hs1.
  2: { rewrite store_Some in Hs1; [done|done|lia]. }
  rewrite (store_snoc _ _ _ b _ Hr Hs1 Hlt) in Hst. injection Hst as <-.
  rewrite asm_bytes_app, (asm_block x q' sec1 Hs1 Hr).
  - cbn [fst snd asm_bytes app]. unfold asm_byte.
    destruct (Hk (length q') sec1) as [E _]; [rewrite length_app; cbn; lia|by rewrite take_app_length|].
    change (Z.of_nat (length q')) with (zlen q') in E. rewrite E. cbn [as_recv as_buf].
    rewrite <- Z.add_assoc in *. unfold full. cbn [as_recv as_buf]. rewrite (proj2 (Z.leb_le _ _)) by lia. cbn [andb].
    rewrite Hsl. destruct (Z.eqb_spec (as_recv x + (zlen q' + 1)) sl) as [->|Hne].
    + rewrite bool_decide_true by done. done.
    + rewrite bool_decide_false; [done|]. intros [_ E2]. congruence.
  - intros k sec Hk'. rewrite <- (take_app_le q' [b]) by lia. intros Hs. apply Hk; [rewrite length_app; lia|done].
  - intros k sec Hk'. rewrite <- (take_app_le q' [b]) by lia. intros Hs. apply Hk; [rewrite length_app; cbn; lia|done].
Qed.

Lemma copy_ok sec recv p n : 0 ≤ n ≤ zlen p → 0 ≤ recv → recv + n ≤ zlen sec →
  ∃ sec', copy sec recv p n = Some sec' ∧ store sec recv (take (Z.to_nat n) p) = Some sec'.
Proof.
  intros Hn Hr Hl. unfold copy. destruct (Z.eqb_spec n 0) as [->|].
  - exists sec. split; [done|]. apply store_nil. lia.
  - rewrite load_Some by lia. cbn [mbind option_bind]. rewrite drop_0.
    assert (zlen (take (Z.to_nat n) p) = n) as Hz by (unfold zlen in *; rewrite length_take; lia).
    rewrite store_Some by lia. by eexists.
Qed.

(** What one call of [sec_data] has done when the filters are called. *)
Definition received_asm (r : received) : asm * list asm :=
  if rc_complete r then (mk_asm (rc_buf r) 0, [mk_asm (rc_buf r) (rc_recv r)])
  else (mk_asm (rc_buf r) (rc_recv r), []).

Record receive_post (x : asm) (p : list Z) (r : received) : Prop := {
  rp_ret : 1 ≤ rc_ret r ≤ zlen p;
  rp_asm : asm_bytes x (take (Z.to_nat (rc_ret r)) p) = received_asm r;
  rp_len : zlen (rc_buf r) = SEC_SIZE;
  rp_bytes : is_bytes (rc_buf r);
  rp_complete : rc_complete r = true → 3 ≤ rc_recv r ≤ 4098;
  rp_ok : asm_ok (received_asm r).1
}.

(** The end of [sec_receive]: the header is there and not stuffing. *)
Lemma receive_tail x q1 sec1 p sl : asm_ok x → is_bytes (q1 ++ p) → q1 ++ p ≠ [] →
  store (as_buf x) (as_recv x) q1 = Some sec1 → 3 ≤ as_recv x + zlen q1 →
  aget sec1 0 ≠ Some 255 → sec_len sec1 = Some sl → as_recv x + zlen q1 ≤ sl → (q1 = [] → as_recv x < sl) →
  let n := Z.min (sl - (as_recv x + zlen q1)) (zlen p) in
  ∃ sec2, copy sec1 (as_recv x + zlen q1) p n = Some sec2 ∧
    receive_post x (q1 ++ p) (mk_recv sec2 (as_recv x + zlen q1 + n) (zlen q1 + n) (as_recv x + zlen q1 + n =? sl)).
Proof.
  intros (Hlen & Hby & Hr & _) Hp Hne Hs1 H3 H0 Hsl Hle Hq1 n.
  pose proof (store_zlen _ _ _ _ Hs1) as Hz1. apply Forall_app in Hp as [Hpq Hpp].
  pose proof (store_bytes _ _ _ _ Hs1 Hby Hpq) as Hby1.
  pose proof (sec_len_bound _ _ Hby1 Hsl) as Hb. pose proof (zlen_nonneg q1). pose proof (zlen_nonneg p).
  unfold SEC_SIZE in *.
  destruct (copy_ok sec1 (as_recv x + zlen q1) p n) as (sec2 & Hc & Hs2); [lia|lia|lia|].
  exists sec2. split; [done|].
  pose proof (store_app _ _ _ _ _ _ Hs1 Hs2) as Hs.
  assert (zlen (take (Z.to_nat n) p) = n) as Hzt by (unfold zlen in *; rewrite length_take; lia).
  assert (∀ i, 0 ≤ i < 3 → aget sec2 i = aget sec1 i) as Hag by (intros i Hi; eapply store_aget; [exact Hs2|lia]).
  assert (take (Z.to_nat (zlen q1 + n)) (q1 ++ p) = q1 ++ take (Z.to_nat n) p) as Htk.
  { unfold zlen in *. rewrite take_app_ge by lia. do 2 f_equal. lia. }
  assert (q1 ++ take (Z.to_nat n) p ≠ []) as Hne2.
  { destruct q1; [|done]. cbn [app] in *. destruct p; [done|]. specialize (Hq1 eq_refl).
    change (zlen []) with 0 in *. unfold zlen in *. cbn [length] in *. intros Ht. apply (f_equal length) in Ht.
    rewrite length_take in Ht. cbn [length] in Ht. lia. }
  assert (1 ≤ zlen q1 + n) as Hge1.
  { destruct (decide (zlen q1 + n = 0)); [|lia]. exfalso. apply Hne2. apply length_zero_iff_nil. unfold zlen in *. rewrite length_app. lia. }
  pose proof (asm_run x _ sec2 sl Hs Hr Hne2) as Hrun. rewrite zlen_app, Hzt, Z.add_assoc in Hrun.
  pose proof (store_zlen _ _ _ _ Hs2) as Hz2.
  assert (is_bytes sec2) as Hby2 by (eapply store_bytes; [exact Hs2|done|by apply Forall_take]).
  rewrite (Hag 0 ltac:(lia)), (sec_len_agree _ _ Hag) in Hrun. specialize (Hrun H0 Hsl ltac:(lia)).
  split; unfold received_asm; cbn [rc_ret rc_buf rc_recv rc_complete]; unfold SEC_SIZE.
  - rewrite zlen_app. lia.
  - by rewrite Htk, Hrun.
  - lia.
  - done.
  - intros ->%Z.eqb_eq. lia.
  - destruct (Z.eqb_spec (as_recv x + zlen q1 + n) sl); cbn [fst]; unfold asm_ok; cbn [as_buf as_recv]; unfold SEC_SIZE;
      (split; [lia|split; [done|split; [lia|]]]); [left; lia|].
    right. right. rewrite Hag by lia. split; [done|]. exists sl. rewrite (sec_len_agree _ _ Hag). split; [done|lia].
Qed.

Lemma sec_receive_ok x p : asm_ok x → is_bytes p → p ≠ [] →
  ∃ r, sec_receive (as_buf x) (as_recv x) p = Some r ∧ receive_post x p r.
Proof.
  intros Hx Hp Hne. pose proof Hx as (Hlen & Hby & Hr & Hc). unfold sec_receive.
  assert (1 ≤ zlen p) as Hpl by (destruct p; [done|unfold zlen; cbn [length]; lia]). unfold SEC_SIZE in Hlen.
  destruct (Z.ltb_spec (as_recv x) 3) as [Hlt|Hge].
  - set (n1 := Z.min (zlen p) (3 - as_recv x)).
    destruct (copy_ok (as_buf x) (as_recv x) p n1) as (sec1 & -> & Hs1); [lia|lia|lia|]. cbn [mbind option_bind].
    assert (zlen (take (Z.to_nat n1) p) = n1) as Hz1 by (unfold zlen in *; rewrite length_take; lia).
    pose proof (store_zlen _ _ _ _ Hs1) as Hzs. pose proof (Forall_take _ (Z.to_nat n1) _ Hp) as Hpt.
    pose proof (store_bytes _ _ _ _ Hs1 Hby Hpt) as Hby1.
    assert (∀ k sec, (k < length (take (Z.to_nat n1) p))%nat →
      store (as_buf x) (as_recv x) (take k (take (Z.to_nat n1) p)) = Some sec →
      stuffing (mk_asm sec (as_recv x + Z.of_nat k)) = false) as Hns.
    { intros k sec Hk _. unfold stuffing. cbn. rewrite (proj2 (Z.eqb_neq _ _)); [done|]. unfold zlen in Hz1. lia. }
    destruct (Z.ltb_spec (as_recv x + n1) 3) as [H3|H3].
    + assert (n1 = zlen p) as En by lia. rewrite En in *. rewrite take_ge in Hs1, Hns by (unfold zlen; lia).
      eexists. split; [reflexivity|].
      split; unfold received_asm, SEC_SIZE; cbn [rc_ret rc_buf rc_recv rc_complete]; try (lia || done).
      * rewrite take_ge by (unfold zlen; lia). apply asm_block; [done|done|exact Hns|].
        intros k sec Hk _. unfold full. cbn [as_recv]. rewrite (proj2 (Z.leb_gt _ _)); [done|]. unfold zlen in H3. lia.
      * unfold asm_ok. cbn. unfold SEC_SIZE. split; [lia|]. split; [done|]. split; [lia|]. left. lia.
    + assert (as_recv x + n1 = 3) as E3 by lia.
      destruct (aget_Some sec1 0) as [s0 Hs0]; [lia|]. rewrite Hs0. cbn [mbind option_bind].
      destruct (Z.eqb_spec s0 255) as [->|Hn0].
      * eexists. split; [reflexivity|].
        assert (stuffing (mk_asm sec1 3) = true) as Hst by (unfold stuffing; cbn; by rewrite bool_decide_true).
        split; unfold received_asm, SEC_SIZE; cbn [rc_ret rc_buf rc_recv rc_complete]; try (lia || done).
        -- rewrite take_ge by (unfold zlen; lia). rewrite <- (take_drop (Z.to_nat n1) p) at 1.
           rewrite asm_bytes_app, (asm_block x _ sec1 Hs1 Hr Hns).
           ++ rewrite Hz1, E3, asm_stuffing by done. done.
           ++ intros k sec Hk Hks. unfold full. cbn [as_recv as_buf]. unfold zlen in Hz1.
              destruct (Z.leb_spec 3 (as_recv x + Z.of_nat k)); [|done]. cbn [andb].
              rewrite take_ge in Hks by lia. assert (sec = sec1) as -> by congruence.
              apply bool_decide_false. intros [E _]. congruence.
        -- unfold asm_ok. cbn [fst]. rewrite E3. cbn [as_buf as_recv]. unfold SEC_SIZE.
           split; [lia|]. split; [done|]. split; [lia|]. by right; left.
      * destruct (sec_len_total sec1) as [sl Hsl]; [lia|]. rewrite Hsl. cbn [mbind option_bind].
        pose proof (sec_len_bound _ _ Hby1 Hsl).
        destruct (receive_tail x (take (Z.to_nat n1) p) sec1 (drop (Z.to_nat n1) p) sl Hx) as (sec2 & Hc2 & Hpost);
          try (rewrite take_drop; done); try (rewrite ?Hz1; congruence || lia).
        rewrite take_drop, Hz1 in *.
        assert (zlen (drop (Z.to_nat n1) p) = zlen p - n1) as Hzd by (unfold zlen in *; rewrite length_drop; lia).
        rewrite Hzd in *. rewrite Hc2. cbn [mbind option_bind]. eexists. split; [reflexivity|].
        replace (zlen p - (zlen p - n1 - Z.min (sl - (as_recv x + n1)) (zlen p - n1))) with
          (n1 + Z.min (sl - (as_recv x + n1)) (zlen p - n1)) by lia. exact Hpost.
  - change (copy (as_buf x) (as_recv x) p 0) with (Some (as_buf x)). cbn [mbind option_bind].
    rewrite (Z.add_0_r (as_recv x)), (Z.sub_0_r (zlen p)), drop_0. rewrite (proj2 (Z.ltb_ge _ _)) by lia.
    destruct Hc as [?|[Hst|[H0 (sl & Hsl & Hlt)]]]; [lia| |].
    + pose proof Hst as Hst'. unfold stuffing in Hst'. apply andb_prop in Hst' as [E3%Z.eqb_eq E0%bool_decide_eq_true].
      rewrite E0. cbn [mbind option_bind]. rewrite Z.eqb_refl. eexists. split; [reflexivity|].
      split; unfold received_asm, SEC_SIZE; cbn [rc_ret rc_buf rc_recv rc_complete]; try (lia || done).
      rewrite asm_stuffing by done. by destruct x.
    + destruct (aget_Some (as_buf x) 0) as [s0 Hs0]; [lia|]. rewrite Hs0. cbn [mbind option_bind].
      rewrite (proj2 (Z.eqb_neq _ _)) by congruence. rewrite Hsl. cbn [mbind option_bind].
      pose proof (sec_len_bound _ _ Hby Hsl).
      destruct (receive_tail x [] (as_buf x) p sl Hx) as (sec2 & Hc2 & Hpost);
        change (zlen []) with 0 in *; rewrite ?Z.add_0_r in *; try done; try lia.
      { apply store_nil. lia. }
      rewrite Hc2. cbn [mbind option_bind]. eexists. split; [reflexivity|].
      replace (zlen p - (zlen p - Z.min (sl - as_recv x) (zlen p))) with (0 + Z.min (sl - as_recv x) (zlen p)) by lia.
      exact Hpost.
Qed.

(** ** The filters of a complete section *)

Definition arrays_ok (f : swdmx_secfilter) : Prop :=
  length (sf_value f) = 18%nat ∧ length (sf_mam f) = 18%nat ∧ length (sf_manm f) = 18%nat.

Definition matches (sec : list Z) (f : swdmx_secfilter) : bool := default false (sec_filter_match sec f).

(** The callbacks for a section of [recv] bytes in the buffer [sec]: the
    filters in their order, up to the first that asks for a CRC check when
    the CRC is wrong. *)
Fixpoint dispatch_events (m : gmap Z swdmx_secfilter) (fs : list Z) (sec : list Z) (recv : Z) : list event :=
  match fs with
  | [] => []
  | a :: fs =>
      match m !! a with
      | None => []
      | Some f =>
          if truth (sp_crc32 (sf_params f)) && truth (crc32_of (2 ^ 32 - 1) (take (Z.to_nat recv) sec)) then []
          else (if matches sec f then (fun c => Ev_sec c (take (Z.to_nat recv) sec)) <$> sf_cbs f else []) ++
               dispatch_events m fs sec recv
      end
  end.

Lemma match_bytes_total k i data f acc : 0 ≤ i → (i + Z.of_nat k ≤ 16) → 16 ≤ zlen data → arrays_ok f →
  ∃ acc', match_bytes k i data f acc = Some acc'.
Proof.
  intros Hi Hk Hd (H1 & H2 & H3). revert i acc Hi Hk. induction k as [|k IH]; intros i [[m n] h] Hi Hk; [by eexists|].
  cbn [match_bytes]. unfold match_byte.
  destruct (aget_Some data i) as [? ->]; [lia|]. destruct (aget_Some (sf_mam f) i) as [? ->]; [unfold zlen; lia|].
  destruct (aget_Some (sf_value f) i) as [? ->]; [unfold zlen; lia|].
  destruct (aget_Some (sf_manm f) i) as [? ->]; [unfold zlen; lia|]. cbn [mbind option_bind]. apply IH; lia.
Qed.

Lemma sec_filter_match_total data f : 16 ≤ zlen data → arrays_ok f → sec_filter_match data f = Some (matches data f).
Proof.
  intros Hd Hf. unfold matches. unfold sec_filter_match.
  destruct (match_bytes_total (Z.to_nat SWDMX_SEC_FILTER_LEN) 0 data f (0, 0, 0)) as [[[m n] h] ->]; done.
Qed.

Definition filters_ok (m : gmap Z swdmx_secfilter) (fs : list Z) : Prop :=
  Forall (fun a => ∃ f, m !! a = Some f ∧ arrays_ok f) fs.

Lemma sec_dispatch_ok fs sec recv crc s : filters_ok (secfs s) fs → table_ok (crc_tab s) → is_bytes sec →
  16 ≤ zlen sec → 0 ≤ recv ≤ zlen sec →
  (crc = true → crc32_of (2 ^ 32 - 1) (take (Z.to_nat recv) sec) = 0) →
  ∃ t, table_ok t ∧ sec_dispatch fs sec recv crc s =
    Ok tt (s <| crc_tab := t |> <| events := events s ++ dispatch_events (secfs s) fs sec recv |>).
Proof.
  intros Hfs Ht Hb Hl Hr Hcrc. revert s crc Hfs Ht Hcrc. induction fs as [|a fs IH]; intros s crc Hfs Ht Hcrc.
  - exists (crc_tab s). split; [done|]. cbn [sec_dispatch dispatch_events]. rewrite app_nil_r. by destruct s.
  - apply Forall_cons_1 in Hfs as [(f & Hf & Hfa) Hfs]. cbn [sec_dispatch dispatch_events].
    unfold mbind, D_bind, M_bind, secf, mbind, D_bind, M_bind, gets. rewrite Hf. cbn [of_option mret M_ret].
    set (C := crc32_of (2 ^ 32 - 1) (take (Z.to_nat recv) sec)) in *.
    assert (∀ s1 crc', secfs s1 = secfs s → table_ok (crc_tab s1) → (crc' = true → C = 0) →
      ∃ t, table_ok t ∧
       match of_option (sec_filter_match sec f) s1 with
       | Ok m0 s' => match when m0 (call_sec_cbs (sf_cbs f) (take (Z.to_nat recv) sec)) s' with
          | Ok _ s'0 => sec_dispatch fs sec recv crc' s'0 | Err e s'0 => Err e s'0 | Undef => Undef end
       | Err e s' => Err e s' | Undef => Undef end =
       Ok tt (s1 <| crc_tab := t |> <| events := events s1 ++ (if matches sec f
         then (fun c => Ev_sec c (take (Z.to_nat recv) sec)) <$> sf_cbs f else []) ++ dispatch_events (secfs s) fs sec recv |>)) as Hgo.
    { intros s1 crc' Hs1 Ht1 Hc1. rewrite sec_filter_match_total by done. cbn [of_option mret M_ret].
      destruct (matches sec f); cbn [when].
      - unfold call_sec_cbs, modify.
        destruct (IH (s1 <| events := events s1 ++ ((fun c => Ev_sec c (take (Z.to_nat recv) sec)) <$> sf_cbs f) |>) crc')
          as (t & Ht' & Hd); [by rewrite <- Hs1 in Hfs|done|done|].
        exists t. split; [done|]. rewrite Hd. cbn. rewrite Hs1, <- app_assoc. by destruct s1.
      - destruct (IH s1 crc') as (t & Ht' & Hd); [by rewrite <- Hs1 in Hfs|done|done|].
        exists t. split; [done|]. cbn. rewrite Hd, Hs1. done. }
    destruct (truth (sp_crc32 (sf_params f))) eqn:Hflag; cbn [andb negb].
    + destruct crc; cbn [andb negb orb].
      * cbn [mret M_ret]. rewrite (Hcrc eq_refl). cbn [truth Z.eqb negb].
        apply (Hgo s true); done.
      * unfold zoom. rewrite (swdmx_crc32_ok _ _ _ Ht Hb Hr). fold C. cbn [mret M_ret].
        destruct (truth C) eqn:HC; cbn [negb].
        -- exists crc_table. split; [by right|]. rewrite app_nil_r. by destruct s.
        -- destruct (Hgo (s <| crc_tab := crc_table |>) true) as (t & Ht' & Hd); [done|by right| |].
           { intros _. unfold truth in HC. apply negb_false_iff, Z.eqb_eq in HC. done. }
           exists t. split; [done|]. etrans; [exact Hd|]. by destruct s.
    + cbn [mret M_ret]. rewrite orb_false_r. apply (Hgo s crc); done.
Qed.

(** ** The loop over the data *)

(** The state after the bytes [p] of a PID filter [a]. *)
Definition fed_state (s : swdmx_demux) (a : Z) (pf : swdmx_pid_filter) (x : asm) (t : list Z) (ev : list event) : swdmx_demux :=
  s <| pidfs := <[a := pf <| sec_buf := Some (as_buf x) |> <| sec_recv := as_recv x |>]> (pidfs s) |>
    <| crc_tab := t |> <| events := events s ++ ev |>.

Definition emitted (m : gmap Z swdmx_secfilter) (fs : list Z) (ys : list asm) : list event :=
  y ← ys; dispatch_events m fs (as_buf y) (as_recv y).

(** A PID filter with its section buffer. *)
Definition buffer_at (s : swdmx_demux) (a : Z) (pf : swdmx_pid_filter) (x : asm) : Prop :=
  pidfs s !! a = Some pf ∧ sec_buf pf = Some (as_buf x) ∧ sec_recv pf = as_recv x ∧ asm_ok x.

Lemma upd_pidf_ok s a pf g : pidfs s !! a = Some pf →
  upd_pidf a g s = Ok tt (s <| pidfs := <[a := g pf]> (pidfs s) |>).
Proof. intros H. unfold upd_pidf, pidf, mbind, D_bind, M_bind, gets, modify. by rewrite H. Qed.

Lemma sec_data_ok s a pf x p : buffer_at s a pf x → filters_ok (secfs s) (pf_sec pf) → table_ok (crc_tab s) →
  is_bytes p → p ≠ [] →
  ∃ n t, 1 ≤ n ≤ zlen p ∧ table_ok t ∧ asm_ok (asm_bytes x (take (Z.to_nat n) p)).1 ∧
    sec_data a p s = Ok n (fed_state s a pf (asm_bytes x (take (Z.to_nat n) p)).1 t
      (emitted (secfs s) (pf_sec pf) (asm_bytes x (take (Z.to_nat n) p)).2)).
Proof.
  intros (Hpf & Hbuf & Hrecv & Hx) Hfs Ht Hp Hne.
  destruct (sec_receive_ok x p Hx Hp Hne) as (r & Hr & [H1 H2 H3 H4 H5 H6]).
  assert (sec_data a p s = (upd_pidf a (fun f => f <| sec_buf := Some (rc_buf r) |> <| sec_recv := rc_recv r |>);;
    when (rc_complete r) (sec_dispatch (pf_sec pf) (rc_buf r) (rc_recv r) false;;
      upd_pidf a (fun f => f <| sec_recv := 0 |>));; mret (rc_ret r)) s) as ->.
  { unfold sec_data, pidf, mbind, D_bind, M_bind, gets. rewrite Hpf. cbn [of_option mret M_ret]. rewrite Hbuf.
    cbn [of_option mret M_ret]. rewrite Hrecv, Hr. done. }
  unfold mbind, D_bind, M_bind. rewrite (upd_pidf_ok _ _ _ _ Hpf).
  unfold received_asm in *. destruct (rc_complete r); cbn [when fst snd].
  - set (s1 := set_field _ _ s).
    destruct (sec_dispatch_ok (pf_sec pf) (rc_buf r) (rc_recv r) false s1) as (t & Ht' & Hd);
      [done|done|done|unfold SEC_SIZE in H3; lia|specialize (H5 eq_refl); unfold SEC_SIZE in H3; lia|done|].
    exists (rc_ret r), t. rewrite H2. split; [done|]. split; [done|]. split; [done|]. rewrite Hd.
    erewrite upd_pidf_ok by (cbn; by rewrite lookup_insert_eq). cbn. f_equal. unfold fed_state, emitted. cbn.
    rewrite insert_insert_eq, app_nil_r. by destruct s.
  - exists (rc_ret r), (crc_tab s). rewrite H2. split; [done|]. split; [done|]. split; [done|]. cbn. f_equal. unfold fed_state, emitted. cbn.
    rewrite app_nil_r. by destruct s.
Qed.

Lemma sec_loop_ok fuel s a pf x p : buffer_at s a pf x → filters_ok (secfs s) (pf_sec pf) → table_ok (crc_tab s) →
  is_bytes p → (length p < fuel)%nat →
  ∃ t, table_ok t ∧ asm_ok (asm_bytes x p).1 ∧
    sec_loop fuel a p s = Ok tt (fed_state s a pf (asm_bytes x p).1 t (emitted (secfs s) (pf_sec pf) (asm_bytes x p).2)).
Proof.
  revert s pf x p. induction fuel as [|fuel IH]; intros s pf x p Hat Hfs Ht Hp Hf; [lia|].
  cbn [sec_loop]. case_bool_decide as Hnil.
  - subst p. exists (crc_tab s). split; [done|]. destruct Hat as (Hpf & Hbuf & Hrecv & Hx). split; [done|].
    cbn. f_equal. unfold fed_state. cbn. rewrite app_nil_r. rewrite insert_id; [by destruct s|].
    rewrite Hpf. f_equal. destruct pf. cbn in *. by subst.
  - destruct (sec_data_ok s a pf x p Hat Hfs Ht Hp Hnil) as (n & t1 & Hn & Ht1 & Hok1 & Hd).
    unfold mbind, D_bind, M_bind. rewrite Hd. set (x1 := (asm_bytes x _).1) in *. set (ys := (asm_bytes x _).2) in *.
    set (s1 := fed_state _ _ _ _ _ _).
    set (pf1 := pf <| sec_buf := Some (as_buf x1) |> <| sec_recv := as_recv x1 |>).
    destruct (IH s1 pf1 x1 (drop (Z.to_nat n) p)) as (t & Ht' & Hok & Hl).
    + split; [|done]. unfold s1, fed_state. cbn. by rewrite lookup_insert_eq.
    + done.
    + done.
    + by apply Forall_drop.
    + rewrite length_drop. unfold zlen in Hn. lia.
    + pose proof (asm_bytes_app x (take (Z.to_nat n) p) (drop (Z.to_nat n) p)) as Happ. rewrite take_drop in Happ.
      rewrite Happ. cbn [fst snd]. fold x1. fold ys. exists t. split; [done|]. split; [done|]. rewrite Hl. f_equal.
      unfold s1, fed_state, emitted. cbn. rewrite insert_insert_eq, bind_app, <- app_assoc. by destruct s, pf.
Qed.

(** ** Sections *)

(** A section as sec_data accepts it: as long as its length field says, at
    least the 3 bytes up to that field; table_id 255 is stuffing. *)
Record section_ok (sec : list Z) : Prop := {
  so_bytes : is_bytes sec;
  so_len : sec_len sec = Some (zlen sec);
  so_start : aget sec 0 ≠ Some 255
}.

(** The buffer when a section is complete: its bytes, and behind them what was
    there.  The filters look at the first 16 bytes of this. *)
Definition overlay (sec buf : list Z) : list Z := sec ++ drop (length sec) buf.

Lemma take_aget (l k : list Z) i : take (length k) l = k → 0 ≤ i < zlen k → aget l i = aget k i.
Proof.
  intros Ht Hi. unfold aget, zlen in *. rewrite (proj2 (Z.leb_le _ _)) by lia.
  rewrite <- Ht at 1. by rewrite lookup_take_lt by lia.
Qed.

Lemma match_bytes_agree k i data data' f acc : 0 ≤ i → i + Z.of_nat k ≤ 16 →
  (∀ j, 0 ≤ j < 16 → aget data' j = aget data j) → match_bytes k i data' f acc = match_bytes k i data f acc.
Proof.
  intros Hi Hk Ha. revert i acc Hi Hk. induction k as [|k IH]; intros i [[m n] h] Hi Hk; [done|].
  cbn [match_bytes]. unfold match_byte. rewrite Ha by lia.
  destruct (aget data i); [|done]. destruct (aget (sf_mam f) i); [|done].
  destruct (aget (sf_value f) i); [|done]. destruct (aget (sf_manm f) i); [|done]. cbn [mbind option_bind]. apply IH; lia.
Qed.

Lemma matches_agree data data' f : (∀ j, 0 ≤ j < 16 → aget data' j = aget data j) → matches data' f = matches data f.
Proof.
  intros Ha. unfold matches, sec_filter_match. by rewrite (match_bytes_agree _ 0 data data') by (done || lia).
Qed.

Lemma dispatch_events_agree m fs sec buf : 16 ≤ zlen sec → take (length sec) buf = sec →
  dispatch_events m fs buf (zlen sec) = dispatch_events m fs sec (zlen sec).
Proof.
  intros Hl Ht. induction fs as [|a fs IH]; [done|]. cbn [dispatch_events]. destruct (m !! a) as [f|]; [|done].
  rewrite IH. unfold zlen. rewrite Nat2Z.id, Ht, (take_ge sec) by lia.
  rewrite (matches_agree sec buf); [done|]. intros j Hj. apply (take_aget _ _ _ Ht). lia.
Qed.

(** A whole section from an empty buffer. *)
Lemma asm_section x sec : asm_ok x → as_recv x = 0 → section_ok sec →
  asm_bytes x sec = (mk_asm (overlay sec (as_buf x)) 0, [mk_asm (overlay sec (as_buf x)) (zlen sec)]) ∧
  asm_ok (mk_asm (overlay sec (as_buf x)) 0).
Proof.
  intros (Hlen & Hby & Hr & _) H0 [Hb Hsl Hst]. unfold SEC_SIZE in *.
  pose proof (sec_len_bound _ _ Hb Hsl).
  destruct (store (as_buf x) (as_recv x) sec) as [buf|] eqn:Hs; [|rewrite store_Some in Hs; [done|lia|lia]].
  assert (buf = overlay sec (as_buf x)) as Eb by (apply store_inv in Hs as (_ & _ & ->); by rewrite H0). rewrite <- Eb.
  assert (take (length sec) buf = sec) as Ht by (rewrite Eb; apply take_app_length).
  assert (∀ i, 0 ≤ i < 3 → aget buf i = aget sec i) as Ha by (intros i Hi; apply (take_aget _ _ _ Ht); lia).
  split.
  - rewrite (asm_run x sec buf (zlen sec) Hs); rewrite ?H0; try lia.
    + by rewrite Z.add_0_l, Z.eqb_refl.
    + intros ->. change (zlen []) with 0 in *. lia.
    + rewrite Ha by lia. done.
    + by rewrite (sec_len_agree _ _ Ha).
  - unfold asm_ok, SEC_SIZE. cbn [as_buf as_recv]. pose proof (store_zlen _ _ _ _ Hs).
    split; [lia|]. split; [by eapply store_bytes|]. split; [done|left; lia].
Qed.

(** The calls a sequence of sections leads to, from what the buffer holds. *)
Fixpoint delivered (m : gmap Z swdmx_secfilter) (fs : list Z) (buf : list Z) (secs : list (list Z)) : list event :=
  match secs with
  | [] => []
  | sec :: secs => dispatch_events m fs (overlay sec buf) (zlen sec) ++ delivered m fs (overlay sec buf) secs
  end.

(** Of sections the filters see all 16 bytes of, the calls depend on nothing
    else. *)
Definition section_events (m : gmap Z swdmx_secfilter) (fs : list Z) (sec : list Z) : list event :=
  dispatch_events m fs sec (zlen sec).

Lemma delivered_long m fs buf secs : Forall (fun sec => 16 ≤ zlen sec) secs → delivered m fs buf secs = secs ≫= section_events m fs.
Proof.
  intros Hl. revert buf. induction Hl as [|sec secs Hsec _ IH]; intros buf; [done|]. cbn [delivered]. rewrite IH. cbn. f_equal.
  apply dispatch_events_agree; [done|apply take_app_length].
Qed.

Lemma asm_sections secs x m fs : asm_ok x → as_recv x = 0 → Forall section_ok secs →
  as_recv (asm_bytes x (concat secs)).1 = 0 ∧ asm_ok (asm_bytes x (concat secs)).1 ∧
  emitted m fs (asm_bytes x (concat secs)).2 = delivered m fs (as_buf x) secs.
Proof.
  intros Hx H0 Hs. revert x Hx H0. induction Hs as [|sec secs Hsec Hs IH]; intros x Hx H0; [done|].
  cbn [concat]. rewrite asm_bytes_app. destruct (asm_section x sec Hx H0 Hsec) as (He & Hok).
  rewrite He. cbn [fst snd]. destruct (IH _ Hok eq_refl) as (I1 & I2 & I3). split; [done|]. split; [done|].
  unfold emitted in *. rewrite bind_app, I3. cbn. by rewrite app_nil_r.
Qed.

(** Stuffing: a byte 255 where a section should start, and what follows. *)
Definition stuff (l : list Z) : Prop := l = [] ∨ ∃ k, l = 255 :: k.

Lemma asm_stuffed l x : 1 ≤ as_recv x ≤ 3 → aget (as_buf x) 0 = Some 255 → (asm_bytes x l).2 = [].
Proof.
  revert x. induction l as [|b l IH]; intros x Hr Hb; [done|]. cbn [asm_bytes snd]. unfold asm_byte.
  destruct (stuffing x) eqn:Hst; [by apply IH|]. cbn [as_recv as_buf].
  assert (as_recv x < 3) as H3.
  { unfold stuffing in Hst. rewrite (bool_decide_true _ Hb), andb_true_r in Hst. apply Z.eqb_neq in Hst. lia. }
  set (y := mk_asm _ _). assert (aget (as_buf y) 0 = Some 255) as Hy.
  { unfold y. cbn [as_buf]. unfold aget in *. cbn [Z.leb Z.compare] in *. rewrite list_lookup_insert_ne; [done|]. cbn. lia. }
  assert (full y = false) as -> by (unfold full; rewrite bool_decide_false, andb_false_r by (intros [? _]; done); done).
  cbn [fst snd app]. apply IH; [unfold y; cbn; lia|done].
Qed.

Lemma asm_stuff x l : asm_ok x → as_recv x = 0 → stuff l → (asm_bytes x l).2 = [].
Proof.
  intros (Hlen & _) H0 [->|[k ->]]; [done|]. cbn [asm_bytes snd]. unfold asm_byte, stuffing. rewrite H0. cbn [Z.eqb andb].
  set (y := mk_asm _ _). assert (full y = false) as -> by done. cbn [fst snd app].
  apply asm_stuffed; [unfold y; cbn; lia|]. unfold y. cbn [as_buf]. unfold SEC_SIZE in Hlen. apply aget_insert. lia.
Qed.

(** The data of consecutive packets. *)
Fixpoint feed_chunks (a : Z) (ps : list (list Z)) : D unit :=
  match ps with
  | [] => mret tt
  | p :: ps => sec_loop (S (length p)) a p;; feed_chunks a ps
  end.

Lemma feed_chunks_ok ps s a pf x : buffer_at s a pf x → filters_ok (secfs s) (pf_sec pf) → table_ok (crc_tab s) →
  Forall is_bytes ps →
  ∃ t, table_ok t ∧
    feed_chunks a ps s = Ok tt (fed_state s a pf (asm_bytes x (concat ps)).1 t
      (emitted (secfs s) (pf_sec pf) (asm_bytes x (concat ps)).2)).
Proof.
  intros Hat Hfs Ht Hps. revert s pf x Hat Hfs Ht. induction Hps as [|p ps Hp Hps IH]; intros s pf x Hat Hfs Ht.
  - exists (crc_tab s). split; [done|]. destruct Hat as (Hpf & Hbuf & Hrecv & Hx).
    cbn. f_equal. unfold fed_state. cbn. rewrite app_nil_r, insert_id; [by destruct s|].
    rewrite Hpf. f_equal. destruct pf. cbn in *. by subst.
  - cbn [feed_chunks concat]. unfold mbind, D_bind, M_bind.
    destruct (sec_loop_ok (S (length p)) s a pf x p Hat Hfs Ht Hp ltac:(lia)) as (t1 & Ht1 & Hok1 & Hl). rewrite Hl.
    rewrite asm_bytes_app. cbn [fst snd]. set (x1 := (asm_bytes x p).1) in *. set (ys := (asm_bytes x p).2) in *.
    destruct (IH (fed_state s a pf x1 t1 (emitted (secfs s) (pf_sec pf) ys))
      (pf <| sec_buf := Some (as_buf x1) |> <| sec_recv := as_recv x1 |>) x1) as (t & Ht' & Hf).
    + split; [|done]. unfold fed_state. cbn. by rewrite lookup_insert_eq.
    + done.
    + done.
    + exists t. split; [done|]. rewrite Hf. f_equal. unfold fed_state, emitted. cbn.
      rewrite insert_insert_eq, bind_app, <- app_assoc. by destruct s, pf.
Qed.

(** C10: the loop of [pid_filter_data] over [sec_data] refines the machine
    that takes one byte at a time: on any bytes it terminates without leaving
    the 4099-byte buffer, leaves the buffer and [sec_recv] as the machine
    does, and calls the filters for exactly the sections the machine emits,
    in order. *)
Theorem sec_loop_refines s a pf x p :
  buffer_at s a pf x → filters_ok (secfs s) (pf_sec pf) → table_ok (crc_tab s) → is_bytes p →
  ∃ t, sec_loop (S (length p)) a p s = Ok tt (s <|
      pidfs := <[a := pf <| sec_buf := Some (as_buf (asm_bytes x p).1) |> <| sec_recv := as_recv (asm_bytes x p).1 |>]> (pidfs s) |>
      <| crc_tab := t |> <| events := events s ++ emitted (secfs s) (pf_sec pf) (asm_bytes x p).2 |>) ∧
    table_ok t ∧ asm_ok (asm_bytes x p).1.
Proof.
  intros Hat Hfs Ht Hp. destruct (sec_loop_ok (S (length p)) s a pf x p Hat Hfs Ht Hp ltac:(lia)) as (t & Ht' & Hok & Hl).
  by exists t.
Qed.

(** A filter on table_id 66 of PID 17, in PID filter 10. *)
Definition sample_filter : swdmx_secfilter :=
  mk_secfilter SWDMX_FILTER_STATE_RUN (Some 10) (mk_secp 17 0 (66 :: replicate 15 0) (255 :: replicate 15 0) (replicate 16 0))
    (66 :: replicate 17 0) (255 :: replicate 17 0) (replicate 18 0) [mk_cb 1 2].

Definition sample_pidf : swdmx_pid_filter := mk_pidf 17 [] [20] (Some (replicate 4099 0)) 0.

Definition sample_dmx : swdmx_demux :=
  mk_dmx [10] [] [20] {[10 := sample_pidf]} ∅ {[20 := sample_filter]} crc32_table [].

Definition sample_section : list Z := [66; 240; 13; 0; 1; 193; 0; 0; 1; 2; 3; 4; 5; 6; 7; 8].

Lemma sample_buffer : buffer_at sample_dmx 10 sample_pidf (mk_asm (replicate 4099 0) 0).
Proof.
  split; [done|]. split; [done|]. split; [done|]. split; [done|].
  split; [apply Forall_replicate; lia|]. split; [done|by left].
Qed.

Lemma sample_filters : filters_ok (secfs sample_dmx) (pf_sec sample_pidf).
Proof. constructor; [|constructor]. by exists sample_filter. Qed.

Lemma sample_section_ok : section_ok sample_section.
Proof. split; [repeat constructor; lia|done|done]. Qed.

Lemma sec_loop_refines_witness :
  let x := mk_asm (replicate 4099 0) 0 in
  let p := sample_section ++ [66] in
  ∃ t, sec_loop (S (length p)) 10 p sample_dmx = Ok tt (sample_dmx <|
      pidfs := <[10 := sample_pidf <| sec_buf := Some (as_buf (asm_bytes x p).1) |> <| sec_recv := as_recv (asm_bytes x p).1 |>]> (pidfs sample_dmx) |>
      <| crc_tab := t |> <| events := events sample_dmx ++ emitted (secfs sample_dmx) (pf_sec sample_pidf) (asm_bytes x p).2 |>) ∧
    table_ok t ∧ asm_ok (asm_bytes x p).1.
Proof.
  apply (sec_loop_refines sample_dmx 10 sample_pidf (mk_asm (replicate 4099 0) 0) (sample_section ++ [66])).
  - apply sample_buffer.
  - apply sample_filters.
  - by left.
  - repeat constructor; lia.
Defined.

(** C9: sections are reassembled whatever the cuts: starting with an empty
    buffer, the data of any number of packets that together are a sequence of
    sections -- of any length from 3 to 4098 bytes, with a table_id other than
    255 -- and then nothing or stuffing leads to the calls for exactly those
    sections, in order, each with exactly its bytes; between and behind them
    nothing is called.  Which filters match a section of 16 bytes or more
    depends on that section alone; of a shorter one the filters see, behind
    its end, what the buffer held. *)
Theorem sections_delivered s a pf x ps secs rest :
  buffer_at s a pf x → as_recv x = 0 → filters_ok (secfs s) (pf_sec pf) → table_ok (crc_tab s) →
  Forall is_bytes ps → Forall section_ok secs → stuff rest → concat ps = concat secs ++ rest →
  ∃ s' pf', feed_chunks a ps s = Ok tt s' ∧ pidfs s' !! a = Some pf' ∧ (rest = [] → sec_recv pf' = 0) ∧
    events s' = events s ++ delivered (secfs s) (pf_sec pf) (as_buf x) secs ∧
    (Forall (fun sec => 16 ≤ zlen sec) secs → events s' = events s ++ (secs ≫= section_events (secfs s) (pf_sec pf))).
Proof.
  intros Hat H0 Hfs Ht Hps Hsecs Hrest Hcat.
  destruct (feed_chunks_ok ps s a pf x Hat Hfs Ht Hps) as (t & Ht' & Hf). rewrite Hcat, asm_bytes_app in Hf. cbn [fst snd] in Hf.
  destruct (asm_sections secs x (secfs s) (pf_sec pf)) as (E1 & E2 & E3); [apply Hat|done|done|].
  rewrite (asm_stuff _ _ E2 E1 Hrest), app_nil_r in Hf.
  eexists _, _. split; [exact Hf|]. split; [cbn; by rewrite lookup_insert_eq|]. split; [intros ->; exact E1|].
  cbn. rewrite E3. split; [done|]. intros Hl. by rewrite delivered_long.
Qed.

(** A section of 8 bytes, as short as those that carry the time. *)
Definition short_section : list Z := [66; 112; 5; 224; 71; 18; 69; 0].

Lemma short_section_ok : section_ok short_section.
Proof. split; [repeat constructor; lia|done|done]. Qed.

Lemma sections_delivered_witness :
  let ps := [take 2 sample_section; drop 2 sample_section ++ take 5 short_section; drop 5 short_section ++ sample_section ++ [255; 255; 255; 255; 1]] in
  let secs := [sample_section; short_section; sample_section] in
  delivered (secfs sample_dmx) (pf_sec sample_pidf) (replicate 4099 0) secs = (fun sec => Ev_sec (mk_cb 1 2) sec) <$> secs ∧
  ∃ s' pf', feed_chunks 10 ps sample_dmx = Ok tt s' ∧ pidfs s' !! 10 = Some pf' ∧ ([255; 255; 255; 255; 1] = [] → sec_recv pf' = 0) ∧
    events s' = events sample_dmx ++ delivered (secfs sample_dmx) (pf_sec sample_pidf) (replicate 4099 0) secs ∧
    (Forall (fun sec => 16 ≤ zlen sec) secs → events s' = events sample_dmx ++ (secs ≫= section_events (secfs sample_dmx) (pf_sec sample_pidf))).
Proof.
  split; [by vm_compute|].
  apply (sections_delivered sample_dmx 10 sample_pidf (mk_asm (replicate 4099 0) 0)
    [take 2 sample_section; drop 2 sample_section ++ take 5 short_section; drop 5 short_section ++ sample_section ++ [255; 255; 255; 255; 1]]
    [sample_section; short_section; sample_section] [255; 255; 255; 255; 1]).
  - apply sample_buffer.
  - done.
  - apply sample_filters.
  - by left.
  - repeat constructor; lia.
  - apply Forall_cons. split; [apply sample_section_ok|]. apply Forall_cons. split; [apply short_section_ok|]. apply Forall_singleton, sample_section_ok.
  - right. by eexists.
  - done.
Defined.

(** ** What a filter compares *)

Lemma match_bytes_spec k i data f m n h m' n' h' : 0 ≤ i →
  match_bytes k i data f (m, n, h) = Some (m', n', h') →
  (m' = 0 ↔ m = 0 ∧ ∀ j, i ≤ j < i + Z.of_nat k →
     Z.land (tab data j) (tab (sf_mam f) j) = Z.land (tab (sf_value f) j) (tab (sf_mam f) j)) ∧
  (n' = 0 ↔ n = 0 ∧ ∀ j, i ≤ j < i + Z.of_nat k →
     Z.land (tab data j) (tab (sf_manm f) j) = Z.land (tab (sf_value f) j) (tab (sf_manm f) j)) ∧
  (h' = 0 ↔ h = 0 ∧ ∀ j, i ≤ j < i + Z.of_nat k → tab (sf_manm f) j = 0).
Proof.
  assert (∀ l j x, aget l j = Some x → tab l j = x) as Htab.
  { intros l j x [_ Hx]%aget_inv. unfold tab. by apply nth_lookup_Some. }
  revert i m n h. induction k as [|k IH]; intros i m n h Hi Hm.
  - injection Hm as <- <- <-. repeat split; try tauto; try (intros; lia); intros [? _]; done.
  - cbn [match_bytes] in Hm. unfold match_byte in Hm.
    destruct (aget data i) as [x|] eqn:Hx; [|done]. destruct (aget (sf_mam f) i) as [ma|] eqn:Hma; [|done].
    destruct (aget (sf_value f) i) as [v|] eqn:Hv; [|done]. destruct (aget (sf_manm f) i) as [mn|] eqn:Hmn; [|done].
    cbn [mbind option_bind] in Hm. apply IH in Hm as (H1 & H2 & H3); [|lia].
    apply Htab in Hx, Hma, Hv, Hmn.
    assert (∀ (Q : Z → Prop), (∀ j, i ≤ j < i + Z.of_nat (S k) → Q j) ↔
      Q i ∧ ∀ j, i + 1 ≤ j < i + 1 + Z.of_nat k → Q j) as Hsplit.
    { intros Q. split.
      - intros H. split; [apply H; lia|intros j Hj; apply H; lia].
      - intros [H0 H] j Hj. destruct (decide (j = i)) as [->|]; [done|apply H; lia]. }
    split; [|split].
    + rewrite H1, Z.lor_eq_0_iff, Z.lxor_eq_0_iff, (Hsplit (fun j => Z.land (tab data j) _ = _)), Hx, Hma, Hv. tauto.
    + rewrite H2, Z.lor_eq_0_iff, Z.lxor_eq_0_iff, (Hsplit (fun j => Z.land (tab data j) _ = _)), Hx, Hmn, Hv. tauto.
    + rewrite H3, Z.lor_eq_0_iff, (Hsplit (fun j => tab (sf_manm f) j = 0)), Hmn. tauto.
Qed.

Lemma tab_insert l i j v : 0 ≤ i < zlen l → 0 ≤ j → tab (<[Z.to_nat i := v]> l) j = if decide (i = j) then v else tab l j.
Proof.
  intros Hi Hj. unfold tab, zlen in *. destruct (decide (i = j)) as [<-|Hne].
  - apply nth_lookup_Some. apply list_lookup_insert_eq. lia.
  - rewrite !nth_lookup, list_lookup_insert_ne by lia. done.
Qed.

Lemma aset_tab l l' i j v : aset l i v = Some l' → 0 ≤ j → tab l' j = if decide (i = j) then v else tab l j.
Proof. intros [Hi ->]%aset_inv Hj. by apply tab_insert. Qed.

(** The three arrays hold [V], [A] and [N] at [j]. *)
Definition arrays_at (f : swdmx_secfilter) (j V A N : Z) : Prop :=
  tab (sf_value f) j = V ∧ tab (sf_mam f) j = A ∧ tab (sf_manm f) j = N.

Definition arrays_same (f f' : swdmx_secfilter) (j : Z) : Prop :=
  arrays_at f' j (tab (sf_value f) j) (tab (sf_mam f) j) (tab (sf_manm f) j).

Definition params_ok (p : swdmx_secfilter_params) : Prop :=
  length (sp_value p) = 16%nat ∧ length (sp_mask p) = 16%nat ∧ length (sp_mode p) = 16%nat ∧
  is_bytes (sp_mask p) ∧ is_bytes (sp_mode p).

(** Everything but the arrays. *)
Definition filter_frame (f f' : swdmx_secfilter) : Prop :=
  sf_state f' = sf_state f ∧ sf_pid_filter f' = sf_pid_filter f ∧ sf_params f' = sf_params f ∧ sf_cbs f' = sf_cbs f.

Lemma mask_modes mask mode : 0 ≤ mask < 256 → 0 ≤ mode < 256 →
  u8 (Z.land mask (u8 (Z.lnot mode))) = Z.ldiff mask mode ∧
  u8 (Z.land mask (Z.lnot (u8 (Z.lnot mode)))) = Z.land mask mode.
Proof.
  intros Hm Hd.
  assert (∀ n, 8 ≤ n → Z.testbit mask n = false ∧ Z.testbit mode n = false) as Hhi.
  { intros n Hn. rewrite <- (u8_id mask), <- (u8_id mode) by done. unfold u8. by rewrite !Z.mod_pow2_bits_high by lia. }
  split; apply Z.bits_inj'; intros n Hn; unfold u8; (destruct (Z.ltb_spec n 8);
    [rewrite Z.mod_pow2_bits_low by lia|rewrite Z.mod_pow2_bits_high by lia]).
  - rewrite Z.land_spec, Z.ldiff_spec, Z.mod_pow2_bits_low, Z.lnot_spec by lia. done.
  - rewrite Z.ldiff_spec. by rewrite (proj1 (Hhi n ltac:(lia))).
  - rewrite !Z.land_spec, Z.lnot_spec, Z.mod_pow2_bits_low, Z.lnot_spec, negb_involutive by lia. done.
  - rewrite Z.land_spec. by rewrite (proj1 (Hhi n ltac:(lia))).
Qed.

Lemma filter_pos_cases i : 0 ≤ i → filter_pos i = 0 ∧ i = 0 ∨ filter_pos i = i + 2 ∧ 0 < i.
Proof. intros Hi. unfold filter_pos, truth. destruct (Z.eqb_spec i 0); cbn; lia. Qed.

Lemma set_filter_byte_ok p i f : params_ok p → arrays_ok f → 0 ≤ i < 16 →
  ∃ f', set_filter_byte p i f = Some f' ∧ arrays_ok f' ∧ filter_frame f f' ∧
    arrays_at f' (filter_pos i) (tab (sp_value p) i) (Z.ldiff (tab (sp_mask p) i) (tab (sp_mode p) i))
      (Z.land (tab (sp_mask p) i) (tab (sp_mode p) i)) ∧
    ∀ j, 0 ≤ j → j ≠ filter_pos i → arrays_same f f' j.
Proof.
  intros (Hv & Hm & Hd & Hbm & Hbd) (A1 & A2 & A3) Hi. unfold set_filter_byte.
  destruct (aget_Some (sp_value p) i) as [v Ev]; [unfold zlen; lia|].
  destruct (aget_Some (sp_mask p) i) as [mask Em]; [unfold zlen; lia|].
  destruct (aget_Some (sp_mode p) i) as [mode Ed]; [unfold zlen; lia|]. rewrite Ev, Em, Ed. cbn [mbind option_bind].
  apply aget_inv in Ev as [_ Ev]. apply aget_inv in Em as [_ Em]. apply aget_inv in Ed as [_ Ed].
  destruct (mask_modes mask mode (proj1 (Forall_lookup _ _) Hbm _ _ Em) (proj1 (Forall_lookup _ _) Hbd _ _ Ed)) as [E1 E2].
  rewrite E1, E2. destruct (filter_pos_cases i); [lia| |];
  (rewrite !aset_Some by (unfold zlen; lia); cbn [mbind option_bind]; eexists; split; [reflexivity|];
   split; [by repeat split; cbn; rewrite length_insert|]; split; [done|];
   split; [unfold arrays_at; cbn -[tab]; rewrite !tab_insert, !decide_True by (unfold zlen; lia || done);
     unfold tab; by rewrite (nth_lookup_Some _ _ _ _ Ev), (nth_lookup_Some _ _ _ _ Em), (nth_lookup_Some _ _ _ _ Ed)|];
   intros j Hj Hne; unfold arrays_same, arrays_at; cbn -[tab]; by rewrite !tab_insert, !decide_False by (unfold zlen; lia || done)).
Qed.

Lemma set_filter_bytes_ok k i p f : params_ok p → arrays_ok f → 0 ≤ i → i + Z.of_nat k ≤ 16 →
  ∃ f', set_filter_bytes k i p f = Some f' ∧ arrays_ok f' ∧ filter_frame f f' ∧
    (∀ t, i ≤ t < i + Z.of_nat k → arrays_at f' (filter_pos t) (tab (sp_value p) t)
      (Z.ldiff (tab (sp_mask p) t) (tab (sp_mode p) t)) (Z.land (tab (sp_mask p) t) (tab (sp_mode p) t))) ∧
    ∀ j, 0 ≤ j → (∀ t, i ≤ t < i + Z.of_nat k → j ≠ filter_pos t) → arrays_same f f' j.
Proof.
  intros Hp Hf Hi Hk. revert i f Hf Hi Hk. induction k as [|k IH]; intros i f Hf Hi Hk.
  - exists f. split; [done|]. split; [done|]. split; [done|]. split; [intros; lia|done].
  - cbn [set_filter_bytes]. destruct (set_filter_byte_ok p i f Hp Hf ltac:(lia)) as (f1 & -> & Hf1 & Hfr & Hat & Hsame).
    cbn [mbind option_bind]. destruct (IH (i + 1) f1 Hf1 ltac:(lia) ltac:(lia)) as (f2 & -> & Hf2 & Hfr2 & Hat2 & Hsame2).
    exists f2. split; [done|]. split; [done|]. split.
    { destruct Hfr as (F1 & F2 & F3 & F4), Hfr2 as (G1 & G2 & G3 & G4). repeat split; congruence. }
    split.
    + intros t Ht. destruct (decide (t = i)) as [->|]; [|apply Hat2; lia].
      destruct (Hsame2 (filter_pos i)) as (S1 & S2 & S3).
      * destruct (filter_pos_cases i); lia.
      * intros t Ht2. destruct (filter_pos_cases i), (filter_pos_cases t); lia.
      * destruct Hat as (H1 & H2 & H3). repeat split; congruence.
    + intros j Hj Hne. destruct (Hsame2 j Hj) as (S1 & S2 & S3); [intros t Ht; apply Hne; lia|].
      destruct (Hsame j Hj) as (T1 & T2 & T3); [apply Hne; lia|]. repeat split; congruence.
Qed.

Lemma clear_length_byte_ok j f : arrays_ok f → 0 ≤ j < 18 →
  ∃ f', clear_length_byte j f = Some f' ∧ arrays_ok f' ∧ filter_frame f f' ∧ arrays_at f' j 0 0 0 ∧
    ∀ i, 0 ≤ i → i ≠ j → arrays_same f f' i.
Proof.
  intros (A1 & A2 & A3) Hj. unfold clear_length_byte. rewrite !aset_Some by (unfold zlen; lia).
  cbn [mbind option_bind]. eexists. split; [reflexivity|].
  split; [by repeat split; cbn; rewrite length_insert|]. split; [done|]. split.
  - unfold arrays_at. cbn -[tab]. rewrite !tab_insert, !decide_True by (unfold zlen; lia || done). done.
  - intros i Hi Hne. unfold arrays_same, arrays_at. cbn -[tab]. by rewrite !tab_insert, !decide_False by (unfold zlen; lia || done).
Qed.

(** The arrays after [swdmx_sec_filter_set_params]. *)
Lemma set_filter_arrays_ok p f : params_ok p → arrays_ok f →
  ∃ f', set_filter_arrays p f = Some f' ∧ arrays_ok f' ∧ filter_frame f f' ∧
    arrays_at f' 1 0 0 0 ∧ arrays_at f' 2 0 0 0 ∧
    ∀ t, 0 ≤ t < 16 → arrays_at f' (filter_pos t) (tab (sp_value p) t)
      (Z.ldiff (tab (sp_mask p) t) (tab (sp_mode p) t)) (Z.land (tab (sp_mask p) t) (tab (sp_mode p) t)).
Proof.
  intros Hp Hf. unfold set_filter_arrays.
  destruct (set_filter_bytes_ok (Z.to_nat SWDMX_SEC_FILTER_LEN) 0 p f Hp Hf) as (f1 & -> & Hf1 & Fr1 & At1 & _); [done..|].
  cbn [mbind option_bind]. destruct (clear_length_byte_ok 1 f1 Hf1 ltac:(lia)) as (f2 & -> & Hf2 & Fr2 & At2 & Sm2).
  cbn [mbind option_bind]. destruct (clear_length_byte_ok 2 f2 Hf2 ltac:(lia)) as (f3 & -> & Hf3 & Fr3 & At3 & Sm3).
  exists f3. split; [done|]. split; [done|]. split.
  { destruct Fr1 as (? & ? & ? & ?), Fr2 as (? & ? & ? & ?), Fr3 as (? & ? & ? & ?). repeat split; congruence. }
  split; [|split; [done|]].
  - destruct (Sm3 1) as (? & ? & ?); [done|done|]. destruct At2 as (? & ? & ?). repeat split; congruence.
  - intros t Ht. destruct (At1 t ltac:(done)) as (H1 & H2 & H3).
    destruct (Sm2 (filter_pos t)) as (? & ? & ?); [destruct (filter_pos_cases t); lia..|].
    destruct (Sm3 (filter_pos t)) as (? & ? & ?); [destruct (filter_pos_cases t); lia..|]. repeat split; congruence.
Qed.

(** a section filter compares what its parameters say, as far as it
    goes: with the parameters set, a section of 16 bytes or more is accepted
    exactly if the bits with mask 1 and mode 0 are equal to the value in every
    byte, and, when there is a bit with mask 1 and mode 1, one of those
    differs.  Parameter byte 0 is compared with the table_id, byte i with
    section byte i + 2; of the 16 parameter bytes the last two are ignored. *)
Theorem sec_filter_match_spec p f sec :
  params_ok p → arrays_ok f → 16 ≤ zlen sec →
  let d i := tab sec (filter_pos i) in
  let eq_bits i := Z.ldiff (tab (sp_mask p) i) (tab (sp_mode p) i) in
  let ne_bits i := Z.land (tab (sp_mask p) i) (tab (sp_mode p) i) in
  ∃ f' b, set_filter_arrays p f = Some f' ∧ sec_filter_match sec f' = Some b ∧
    (b = true ↔
      (∀ i, 0 ≤ i < 14 → Z.land (d i) (eq_bits i) = Z.land (tab (sp_value p) i) (eq_bits i)) ∧
      ((∃ i, 0 ≤ i < 14 ∧ ne_bits i ≠ 0) →
        ∃ i, 0 ≤ i < 14 ∧ Z.land (d i) (ne_bits i) ≠ Z.land (tab (sp_value p) i) (ne_bits i))).
Proof.
  intros Hp Hf Hsec d eq_bits ne_bits.
  destruct (set_filter_arrays_ok p f Hp Hf) as (f' & Hset & Hf' & _ & At1 & At2 & At).
  destruct (match_bytes_total (Z.to_nat SWDMX_SEC_FILTER_LEN) 0 sec f' (0, 0, 0)) as [[[m n] h] Hm]; [done..|].
  eexists f', _. split; [done|]. split; [unfold sec_filter_match; rewrite Hm; reflexivity|].
  destruct (match_bytes_spec _ _ _ _ _ _ _ _ _ _ ltac:(done) Hm) as (H1 & H2 & H3).
  change (0 + Z.of_nat (Z.to_nat SWDMX_SEC_FILTER_LEN)) with 16 in *.
  assert (∀ (Q : Z → Prop), Q 1 → Q 2 → (∀ j, 0 ≤ j < 16 → Q j) ↔ ∀ i, 0 ≤ i < 14 → Q (filter_pos i)) as Hpos.
  { intros Q Q1 Q2. split.
    - intros HQ i Hi. apply HQ. destruct (filter_pos_cases i); lia.
    - intros HQ j Hj. destruct (decide (j = 1)) as [->|]; [done|]. destruct (decide (j = 2)) as [->|]; [done|].
      destruct (decide (j = 0)) as [->|]; [by apply (HQ 0)|].
      replace j with (filter_pos (j - 2)); [apply HQ; lia|]. destruct (filter_pos_cases (j - 2)); lia. }
  destruct At1 as (V1 & M1 & N1), At2 as (V2 & M2 & N2).
  assert (m = 0 ↔ ∀ i, 0 ≤ i < 14 → Z.land (d i) (eq_bits i) = Z.land (tab (sp_value p) i) (eq_bits i)) as K1.
  { rewrite H1, Hpos by (rewrite ?M1, ?M2, ?Z.land_0_r; done).
    split; [intros [_ H] i Hi|intros H; split; [done|]; intros i Hi]; specialize (H i Hi);
      destruct (At i ltac:(lia)) as (E1 & E2 & E3); rewrite ?E1, ?E2 in *; done. }
  assert (n = 0 ↔ ∀ i, 0 ≤ i < 14 → Z.land (d i) (ne_bits i) = Z.land (tab (sp_value p) i) (ne_bits i)) as K2.
  { rewrite H2, Hpos by (rewrite ?N1, ?N2, ?Z.land_0_r; done).
    split; [intros [_ H] i Hi|intros H; split; [done|]; intros i Hi]; specialize (H i Hi);
      destruct (At i ltac:(lia)) as (E1 & E2 & E3); rewrite ?E1, ?E3 in *; done. }
  assert (h = 0 ↔ ∀ i, 0 ≤ i < 14 → ne_bits i = 0) as K3.
  { rewrite H3, Hpos by done.
    split; [intros [_ H] i Hi|intros H; split; [done|]; intros i Hi]; specialize (H i Hi);
      destruct (At i ltac:(lia)) as (E1 & E2 & E3); rewrite ?E3 in *; done. }
  assert (∀ Q : Z → Z, (∃ i, 0 ≤ i < 14 ∧ Q i ≠ 0) ↔ ¬ ∀ i, 0 ≤ i < 14 → Q i = 0) as Hex.
  { intros Q. split; [intros (i & Hi & Hq) H; by apply Hq, H|]. intros H.
    destruct (decide (Exists (fun i => Q i ≠ 0) (seqZ 0 14))) as [He|He].
    - apply Exists_exists in He as (i & Hi & Hq). exists i. split; [|done]. apply elem_of_seqZ in Hi. lia.
    - exfalso. apply H. intros i Hi. apply Forall_Exists_neg in He. rewrite Forall_forall in He.
      apply dec_stable. apply He. apply elem_of_seqZ. lia. }
  unfold truth. destruct (Z.eqb_spec m 0) as [->|Hm0]; cbn [negb andb].
  2: { split; [done|]. intros [H _]. by apply K1 in H. }
  destruct (Z.eqb_spec h 0) as [->|Hh0]; cbn [negb andb].
  - split; [|done]. intros _. split; [by apply K1|]. intros (i & Hi & Hq). exfalso. by apply Hq, K3.
  - assert (∃ i, 0 ≤ i < 14 ∧ ne_bits i ≠ 0) as Hne by (apply Hex; by rewrite <- K3).
    destruct (Z.eqb_spec n 0) as [->|Hn0]; cbn [negb andb].
    + split; [done|]. intros [_ H]. destruct (H Hne) as (i & Hi & Hq). exfalso. by apply Hq, K2.
    + split; [|done]. intros _. split; [by apply K1|]. intros _.
      destruct (proj2 (Hex (fun i => Z.lxor (Z.land (d i) (ne_bits i)) (Z.land (tab (sp_value p) i) (ne_bits i))))) as (i & Hi & Hq).
      * intros H. apply Hn0, K2. intros i Hi. apply Z.lxor_eq. by apply H.
      * exists i. split; [done|]. intros E. apply Hq. rewrite E. apply Z.lxor_nilpotent.
Qed.

(** Table 66 with an extension other than 1. *)
Definition sample_params : swdmx_secfilter_params :=
  mk_secp 17 1 ([66; 0; 1] ++ replicate 13 0) ([255; 255; 255] ++ replicate 13 0) ([0; 255; 255] ++ replicate 13 0).

Lemma sec_filter_match_spec_witness :
  let d i := tab sample_section (filter_pos i) in
  let eq_bits i := Z.ldiff (tab (sp_mask sample_params) i) (tab (sp_mode sample_params) i) in
  let ne_bits i := Z.land (tab (sp_mask sample_params) i) (tab (sp_mode sample_params) i) in
  ∃ f' b, set_filter_arrays sample_params sample_filter = Some f' ∧ sec_filter_match sample_section f' = Some b ∧
    (b = true ↔
      (∀ i, 0 ≤ i < 14 → Z.land (d i) (eq_bits i) = Z.land (tab (sp_value sample_params) i) (eq_bits i)) ∧
      ((∃ i, 0 ≤ i < 14 ∧ ne_bits i ≠ 0) →
        ∃ i, 0 ≤ i < 14 ∧ Z.land (d i) (ne_bits i) ≠ Z.land (tab (sp_value sample_params) i) (ne_bits i))).
Proof.
  apply (sec_filter_match_spec sample_params sample_filter sample_section).
  - repeat split; repeat constructor; lia.
  - done.
  - by vm_compute.
Defined.

(** a filter may match on bytes that do not belong to the section: the
    length is not looked at, so behind the end of a short section the bytes
    of an earlier one are compared.  Here the filter wants byte 9 to be 77;
    a section of 8 bytes is delivered because of what was in the buffer. *)
Theorem short_section_stale_match :
  let f := sample_filter <| sf_value := replicate 9 0 ++ 77 :: replicate 8 0 |>
                         <| sf_mam := replicate 9 0 ++ 255 :: replicate 8 0 |> in
  let s := sample_dmx <| secfs := {[20 := f]} |> in
  let first := [66; 240; 13; 0; 1; 193; 0; 0; 1; 77; 3; 4; 5; 6; 7; 8] in
  let short := [66; 240; 5; 9; 9; 9; 9; 9] in
  (∃ s', sec_loop 40 10 short s = Ok tt s' ∧ events s' = []) ∧
  (∃ s', (sec_loop 40 10 first;; sec_loop 40 10 short) s = Ok tt s' ∧
     events s' = [Ev_sec (mk_cb 1 2) first; Ev_sec (mk_cb 1 2) short]).
Proof. split; eexists; (split; [vm_compute; reflexivity|by vm_compute]). Qed.
