(* ===== verification/SwdmxLinks.v ===== *)
(** The links between filters and PID filters: the invariant of the demux and
    its preservation by every operation of swdmx_demux.c. *)

From stdpp Require Import base list numbers gmap.
From Stdlib Require Import ZArith Lia Bool.
From S2P Require Import Prelude.
From S2P Require Import SwdmxCrc32.
From S2P Require Import SwdmxList.
From S2P Require Import SwdmxTs.
From S2P Require Import SwdmxDemux.
From S2P Require Import SwdmxSections.

#[local] Open Scope Z_scope.

(** ** Links

    Both kinds of filters are linked with PID filters in the same way; the
    view of the links keeps of a PID filter its PID and the two lists, and of
    a filter its state, pointer and PID. *)

Record pview := mk_pv { v_pid : Z; ts_of : list Z; sec_of : list Z }.
Record fview := mk_fv { v_state : swdmx_filter_state; v_filter : option Z; v_params : Z }.

Definition pv (f : swdmx_pid_filter) : pview := mk_pv (pf_pid f) (pf_ts f) (pf_sec f).
Definition tv (f : swdmx_tsfilter) : fview := mk_fv (tf_state f) (tf_pid_filter f) (tf_pid f).
Definition sv (f : swdmx_secfilter) : fview := mk_fv (sf_state f) (sf_pid_filter f) (sp_pid (sf_params f)).

(** A filter points to the PID filter of its PID that has it in its list,
    and only while it runs. *)
Record side (P : gmap Z pview) (mem : pview → list Z) (V : gmap Z fview) : Prop := {
  side_to : ∀ a st p i, V !! a = Some (mk_fv st (Some p) i) →
    st = SWDMX_FILTER_STATE_RUN ∧ ∃ x, P !! p = Some x ∧ v_pid x = i ∧ a ∈ mem x;
  side_nodup : ∀ p x, P !! p = Some x → NoDup (mem x);
  side_from : ∀ p x a, P !! p = Some x → a ∈ mem x → ∃ st i, V !! a = Some (mk_fv st (Some p) i)
}.

Definition swap (x : pview) : pview := mk_pv (v_pid x) (sec_of x) (ts_of x).

(** The PID filters: listed once, one per PID, none without a filter. *)
Record core (L : list Z) (P : gmap Z pview) (V W : gmap Z fview) : Prop := {
  core_nodup : NoDup L;
  core_dom : ∀ a, a ∈ L ↔ is_Some (P !! a);
  core_pid : ∀ p q x y, P !! p = Some x → P !! q = Some y → v_pid x = v_pid y → p = q;
  core_used : ∀ p x, P !! p = Some x → ts_of x ≠ [] ∨ sec_of x ≠ [];
  core_ts : side P ts_of V;
  core_sec : side P sec_of W
}.

Lemma side_swap P mem mem' V : (∀ x, mem (swap x) = mem' x) → side P mem' V → side (swap <$> P) mem V.
Proof.
  intros Hm [H1 H2 H3]. split.
  - intros a st p i Ha. destruct (H1 a st p i Ha) as (-> & x & Hx & Hi & Hin). split; [done|].
    exists (swap x). rewrite lookup_fmap, Hx, Hm. done.
  - intros p x. rewrite lookup_fmap. destruct (P !! p) as [y|] eqn:Hy; [|done]. intros [= <-]. rewrite Hm. by eapply H2.
  - intros p x a. rewrite lookup_fmap. destruct (P !! p) as [y|] eqn:Hy; [|done]. intros [= <-]. rewrite Hm. by eapply H3.
Qed.

Lemma core_swap L P V W : core L P V W → core L (swap <$> P) W V.
Proof.
  intros [H1 H2 H3 H4 H5 H6]. split.
  - done.
  - intros a. rewrite H2, lookup_fmap. by rewrite fmap_is_Some.
  - intros p q x y. rewrite !lookup_fmap. destruct (P !! p) as [x'|] eqn:Hx; [|done].
    destruct (P !! q) as [y'|] eqn:Hy; [|done]. intros [= <-] [= <-]. cbn. by apply H3.
  - intros p x. rewrite lookup_fmap. destruct (P !! p) as [x'|] eqn:Hx; [|done]. intros [= <-].
    cbn. destruct (H4 p x' Hx); auto.
  - by eapply side_swap.
  - by eapply side_swap.
Qed.

(** The other side does not see a change of this side's lists. *)
Lemma side_other P V p x x' : P !! p = Some x → v_pid x = v_pid x' → sec_of x = sec_of x' →
  side P sec_of V → side (<[p := x']> P) sec_of V.
Proof.
  intros Hx Hi Hm [H1 H2 H3]. split.
  - intros a st q i Ha. destruct (H1 a st q i Ha) as (-> & y & Hy & Hyi & Hin). split; [done|].
    destruct (decide (p = q)) as [->|].
    + exists x'. rewrite lookup_insert_eq. assert (y = x) as -> by congruence. rewrite <- Hm, <- Hi. done.
    + exists y. by rewrite lookup_insert_ne.
  - intros q y. destruct (decide (p = q)) as [->|].
    + rewrite lookup_insert_eq. intros [= <-]. rewrite <- Hm. by eapply H2.
    + rewrite lookup_insert_ne by done. apply H2.
  - intros q y a. destruct (decide (p = q)) as [->|].
    + rewrite lookup_insert_eq. intros [= <-]. rewrite <- Hm. by eapply H3.
    + rewrite lookup_insert_ne by done. apply H3.
Qed.

Lemma ts_member_unique P V p q x y a : side P ts_of V → P !! p = Some x → P !! q = Some y →
  a ∈ ts_of x → a ∈ ts_of y → p = q.
Proof.
  intros [_ _ H3] Hx Hy Hax Hay. destruct (H3 _ _ _ Hx Hax) as (? & ? & H1).
  destruct (H3 _ _ _ Hy Hay) as (? & ? & H2). congruence.
Qed.

(** [ts_link]; only the PID filter may be without a filter before. *)
Lemma link_any L P V W a p i xs ys st j :
  NoDup L → (∀ a, a ∈ L ↔ is_Some (P !! a)) →
  (∀ p q x y, P !! p = Some x → P !! q = Some y → v_pid x = v_pid y → p = q) →
  (∀ q x, q ≠ p → P !! q = Some x → ts_of x ≠ [] ∨ sec_of x ≠ []) →
  side P ts_of V → side P sec_of W →
  P !! p = Some (mk_pv i xs ys) → V !! a = Some (mk_fv st None j) →
  core L (<[p := mk_pv i (xs ++ [a]) ys]> P) (<[a := mk_fv SWDMX_FILTER_STATE_RUN (Some p) i]> V) W.
Proof.
  intros H1 H2 H3 H4 H5 H6 Hp Ha.
  assert (∀ q x, P !! q = Some x → a ∉ ts_of x) as Hna.
  { intros q x Hx Hin. destruct (side_from _ _ _ H5 _ _ _ Hx Hin) as (? & ? & ?). congruence. }
  split.
  - done.
  - intros b. rewrite H2. destruct (decide (p = b)) as [->|]; [by rewrite lookup_insert_eq, Hp|by rewrite lookup_insert_ne].
  - intros q r x y. rewrite !lookup_insert. intros Hx Hy He.
    destruct (decide (p = q)) as [<-|E1], (decide (p = r)) as [<-|E2]; [done| | |by eapply H3].
    + injection Hx as <-. by apply (H3 _ _ _ _ Hp Hy).
    + injection Hy as <-. by apply (H3 _ _ _ _ Hx Hp).
  - intros q x. destruct (decide (p = q)) as [->|]; [|rewrite lookup_insert_ne by done; by apply H4].
    rewrite lookup_insert_eq. intros [= <-]. left. cbn. by destruct xs.
  - split.
    + intros b st' q i'. destruct (decide (a = b)) as [->|].
      * rewrite lookup_insert_eq. intros [= <- <- <-]. split; [done|]. exists (mk_pv i (xs ++ [b]) ys).
        rewrite lookup_insert_eq. cbn. set_solver.
      * rewrite lookup_insert_ne by done. intros Hb. destruct (side_to _ _ _ H5 _ _ _ _ Hb) as (-> & x & Hx & Hi & Hin).
        split; [done|]. destruct (decide (p = q)) as [->|].
        -- exists (mk_pv i (xs ++ [a]) ys). rewrite lookup_insert_eq. simplify_eq. cbn in *. set_solver.
        -- exists x. by rewrite lookup_insert_ne.
    + intros q x. destruct (decide (p = q)) as [->|]; [|rewrite lookup_insert_ne by done; apply (side_nodup _ _ _ H5)].
      rewrite lookup_insert_eq. intros [= <-]. cbn. apply NoDup_app.
      split; [exact (side_nodup _ _ _ H5 _ _ Hp)|]. split; [|apply NoDup_singleton].
      intros b Hb ->%list_elem_of_singleton. by apply (Hna q (mk_pv i xs ys) Hp).
    + intros q x b. destruct (decide (p = q)) as [->|].
      * rewrite lookup_insert_eq. intros [= <-]. cbn. intros [Hb| ->%list_elem_of_singleton]%elem_of_app.
        -- destruct (side_from _ _ _ H5 _ _ _ Hp Hb) as (st' & i' & Hs). exists st', i'. rewrite lookup_insert_ne; [done|].
           intros ->. by apply (Hna q (mk_pv i xs ys) Hp).
        -- eexists _, _. by rewrite lookup_insert_eq.
      * rewrite lookup_insert_ne by done. intros Hx Hb. destruct (side_from _ _ _ H5 _ _ _ Hx Hb) as (st' & i' & Hs).
        exists st', i'. rewrite lookup_insert_ne; [done|]. intros ->. by apply (Hna q x Hx).
  - by eapply (side_other _ _ _ (mk_pv i xs ys)).
Qed.

(** A new PID filter. *)
Lemma add_pidf L P V W p i : NoDup L → (∀ a, a ∈ L ↔ is_Some (P !! a)) →
  (∀ p q x y, P !! p = Some x → P !! q = Some y → v_pid x = v_pid y → p = q) →
  side P ts_of V → side P sec_of W → P !! p = None → (∀ q x, P !! q = Some x → v_pid x ≠ i) →
  let P' := <[p := (mk_pv i [] [])]> P in
  NoDup (L ++ [p]) ∧ (∀ a, a ∈ L ++ [p] ↔ is_Some (P' !! a)) ∧
  (∀ p q x y, P' !! p = Some x → P' !! q = Some y → v_pid x = v_pid y → p = q) ∧
  side P' ts_of V ∧ side P' sec_of W.
Proof.
  intros H1 H2 H3 H5 H6 Hp Hi P'.
  assert (∀ mem V, mem (mk_pv i [] []) = [] → side P mem V → side P' mem V) as Hside.
  { intros mem V' Hm [S1 S2 S3]. split.
    - intros b st q j Hb. destruct (S1 b st q j Hb) as (-> & x & Hx & Hxi & Hin). split; [done|]. exists x.
      unfold P'. rewrite lookup_insert_ne by congruence. done.
    - intros q x. unfold P'. destruct (decide (p = q)) as [->|]; [|rewrite lookup_insert_ne by done; apply S2].
      rewrite lookup_insert_eq. intros [= <-]. rewrite Hm. constructor.
    - intros q x b. unfold P'. destruct (decide (p = q)) as [->|]; [|rewrite lookup_insert_ne by done; apply S3].
      rewrite lookup_insert_eq. intros [= <-]. rewrite Hm. set_solver. }
  split; [|split; [|split; [|split; by apply Hside]]].
  - apply NoDup_app. split; [done|]. split; [|apply NoDup_singleton]. intros b Hb ->%list_elem_of_singleton.
    apply H2 in Hb. rewrite Hp in Hb. by destruct Hb.
  - intros b. rewrite elem_of_app, list_elem_of_singleton, H2. unfold P'. destruct (decide (p = b)) as [->|].
    + rewrite lookup_insert_eq. split; [by eexists|by right].
    + rewrite lookup_insert_ne by done. split; [intros [?| ->]; done|by left].
  - intros q r x y. unfold P'. rewrite !lookup_insert. intros Hx Hy He.
    destruct (decide (p = q)) as [<-|E1], (decide (p = r)) as [<-|E2]; [done| | |by eapply H3].
    + injection Hx as <-. exfalso. by apply (Hi _ _ Hy).
    + injection Hy as <-. exfalso. by apply (Hi _ _ Hx).
Qed.

Lemma link_old L P V W a p i xs ys st j : core L P V W → P !! p = Some (mk_pv i xs ys) → V !! a = Some (mk_fv st None j) →
  core L (<[p := mk_pv i (xs ++ [a]) ys]> P) (<[a := mk_fv SWDMX_FILTER_STATE_RUN (Some p) i]> V) W.
Proof. intros [H1 H2 H3 H4 H5 H6]. apply link_any; auto. intros q x _. apply H4. Qed.

Lemma link_new L P V W a p i st j : core L P V W → P !! p = None → (∀ q x, P !! q = Some x → v_pid x ≠ i) →
  V !! a = Some (mk_fv st None j) →
  core (L ++ [p]) (<[p := mk_pv i [a] []]> P) (<[a := mk_fv SWDMX_FILTER_STATE_RUN (Some p) i]> V) W.
Proof.
  intros [H1 H2 H3 H4 H5 H6] Hp Hi Ha.
  destruct (add_pidf L P V W p i H1 H2 H3 H5 H6 Hp Hi) as (K1 & K2 & K3 & K5 & K6).
  rewrite <- (insert_insert_eq P p (mk_pv i [a] []) (mk_pv i [] [])).
  apply (link_any _ _ V W a p i [] [] st j K1 K2 K3); auto.
  - intros q x Hq. rewrite lookup_insert_ne by done. apply H4.
  - by rewrite lookup_insert_eq.
Qed.

(** [ts_unlink] *)
Lemma unlink_spec a l b : b ∈ unlink a l ↔ b ∈ l ∧ b ≠ a.
Proof. unfold unlink. rewrite list_elem_of_filter. tauto. Qed.

Lemma unlink_NoDup a l : NoDup l → NoDup (unlink a l).
Proof. apply NoDup_filter. Qed.

Lemma side_unlink P V a p i xs ys st st' i' : side P ts_of V → P !! p = Some (mk_pv i xs ys) →
  V !! a = Some (mk_fv st (Some p) i) →
  side (<[p := mk_pv i (unlink a xs) ys]> P) ts_of (<[a := mk_fv st' None i']> V).
Proof.
  intros [H1 H2 H3] Hp Ha. split.
  - intros b st2 q i2. destruct (decide (a = b)) as [<-|Hne]; [by rewrite lookup_insert_eq|].
    rewrite lookup_insert_ne by done. intros Hb. destruct (H1 _ _ _ _ Hb) as (-> & x & Hx & Hi & Hin). split; [done|].
    destruct (decide (p = q)) as [<-|].
    + exists (mk_pv i (unlink a xs) ys). rewrite lookup_insert_eq. assert (x = mk_pv i xs ys) as -> by congruence.
      cbn in *. split; [done|]. split; [done|]. by apply unlink_spec.
    + exists x. by rewrite lookup_insert_ne.
  - intros q x. destruct (decide (p = q)) as [<-|].
    + rewrite lookup_insert_eq. intros [= <-]. cbn. apply unlink_NoDup. apply (H2 _ _ Hp).
    + rewrite lookup_insert_ne by done. apply H2.
  - intros q x b. destruct (decide (p = q)) as [<-|].
    + rewrite lookup_insert_eq. intros [= <-]. cbn. intros [Hb Hba]%unlink_spec.
      rewrite lookup_insert_ne by done. by apply (H3 _ _ _ Hp).
    + rewrite lookup_insert_ne by done. intros Hx Hb. destruct (H3 _ _ _ Hx Hb) as (s2 & i2 & Hs).
      exists s2, i2. rewrite lookup_insert_ne; [done|]. intros <-. congruence.
Qed.

Lemma side_delete P mem V p x : side P mem V → P !! p = Some x → mem x = [] → side (delete p P) mem V.
Proof.
  intros [H1 H2 H3] Hp Hm. split.
  - intros b st q i Hb. destruct (H1 _ _ _ _ Hb) as (-> & y & Hy & Hi & Hin). split; [done|]. exists y.
    rewrite lookup_delete_ne; [done|]. intros <-. assert (y = x) as -> by congruence. rewrite Hm in Hin. by apply elem_of_nil in Hin.
  - intros q y [_ Hy]%lookup_delete_Some. by eapply H2.
  - intros q y b [_ Hy]%lookup_delete_Some. by eapply H3.
Qed.

Lemma unlink_keep L P V W a p i xs ys st st' i' : core L P V W → P !! p = Some (mk_pv i xs ys) →
  V !! a = Some (mk_fv st (Some p) i) → unlink a xs ≠ [] ∨ ys ≠ [] →
  core L (<[p := mk_pv i (unlink a xs) ys]> P) (<[a := mk_fv st' None i']> V) W.
Proof.
  intros [H1 H2 H3 H4 H5 H6] Hp Ha Hu. split.
  - done.
  - intros b. rewrite H2. destruct (decide (p = b)) as [->|]; [by rewrite lookup_insert_eq, Hp|by rewrite lookup_insert_ne].
  - intros q r x y. rewrite !lookup_insert. intros Hx Hy He.
    destruct (decide (p = q)) as [<-|E1], (decide (p = r)) as [<-|E2]; [done| | |by eapply H3].
    + injection Hx as <-. by apply (H3 _ _ _ _ Hp Hy).
    + injection Hy as <-. by apply (H3 _ _ _ _ Hx Hp).
  - intros q x. destruct (decide (p = q)) as [<-|]; [|rewrite lookup_insert_ne by done; by apply H4].
    rewrite lookup_insert_eq. by intros [= <-].
  - by eapply side_unlink.
  - by eapply (side_other _ _ _ (mk_pv i xs ys)).
Qed.

Lemma unlink_last L P V W a p i xs st st' i' : core L P V W → P !! p = Some (mk_pv i xs []) →
  V !! a = Some (mk_fv st (Some p) i) → unlink a xs = [] →
  core (unlink p L) (delete p P) (<[a := mk_fv st' None i']> V) W.
Proof.
  intros [H1 H2 H3 H4 H5 H6] Hp Ha Hu.
  pose proof (side_unlink _ _ _ _ _ _ _ _ st' i' H5 Hp Ha) as H5'. rewrite Hu in H5'. split.
  - by apply unlink_NoDup.
  - intros b. rewrite unlink_spec, H2. destruct (decide (p = b)) as [->|].
    + rewrite lookup_delete_eq. split; [tauto|]. by intros [].
    + rewrite lookup_delete_ne by done. split; [tauto|]. split; [done|congruence].
  - intros q r x y [_ Hx]%lookup_delete_Some [_ Hy]%lookup_delete_Some. by eapply H3.
  - intros q x [_ Hx]%lookup_delete_Some. by eapply H4.
  - rewrite <- (delete_insert_eq P p (mk_pv i [] [])). eapply side_delete; [exact H5'|by rewrite lookup_insert_eq|done].
  - by eapply side_delete.
Qed.

(** A filter changes without its link: parameters, state before it runs. *)
Lemma side_same P mem V a st i st' i' : side P mem V → V !! a = Some (mk_fv st None i) →
  side P mem (<[a := mk_fv st' None i']> V).
Proof.
  intros [H1 H2 H3] Ha. split; [|done|].
  - intros b st2 q i2. destruct (decide (a = b)) as [<-|]; [by rewrite lookup_insert_eq|].
    rewrite lookup_insert_ne by done. apply H1.
  - intros q x b Hx Hb. destruct (H3 _ _ _ Hx Hb) as (s2 & i2 & Hs). exists s2, i2.
    rewrite lookup_insert_ne; [done|]. intros <-. congruence.
Qed.

Lemma side_fresh P mem V a st i : side P mem V → V !! a = None → side P mem (<[a := mk_fv st None i]> V).
Proof.
  intros [H1 H2 H3] Ha. split; [|done|].
  - intros b st2 q i2. destruct (decide (a = b)) as [<-|]; [by rewrite lookup_insert_eq|].
    rewrite lookup_insert_ne by done. apply H1.
  - intros q x b Hx Hb. destruct (H3 _ _ _ Hx Hb) as (s2 & i2 & Hs). exists s2, i2.
    rewrite lookup_insert_ne; [done|]. intros <-. congruence.
Qed.

Lemma side_gone P mem V a st i : side P mem V → V !! a = Some (mk_fv st None i) → side P mem (delete a V).
Proof.
  intros [H1 H2 H3] Ha. split; [|done|].
  - intros b st2 q i2 [_ Hb]%lookup_delete_Some. by eapply H1.
  - intros q x b Hx Hb. destruct (H3 _ _ _ Hx Hb) as (s2 & i2 & Hs). exists s2, i2.
    rewrite lookup_delete_ne; [done|]. intros <-. congruence.
Qed.

(** The same for section filters, by exchanging the sides. *)
Lemma swap_swap (P : gmap Z pview) : swap <$> (swap <$> P) = P.
Proof. rewrite <- map_fmap_compose. rewrite <- (map_fmap_id P) at 2. apply map_fmap_ext. by intros i [] _. Qed.

Lemma swap_insert (P : gmap Z pview) p i xs ys :
  swap <$> <[p := mk_pv i xs ys]> (swap <$> P) = <[p := mk_pv i ys xs]> P.
Proof. by rewrite fmap_insert, swap_swap. Qed.

Lemma swap_lookup (P : gmap Z pview) p i xs ys : P !! p = Some (mk_pv i xs ys) → (swap <$> P) !! p = Some (mk_pv i ys xs).
Proof. intros H. by rewrite lookup_fmap, H. Qed.

Lemma sec_link_old L P V W a p i xs ys st j : core L P V W → P !! p = Some (mk_pv i xs ys) → W !! a = Some (mk_fv st None j) →
  core L (<[p := mk_pv i xs (ys ++ [a])]> P) V (<[a := mk_fv SWDMX_FILTER_STATE_RUN (Some p) i]> W).
Proof.
  intros Hc Hp Ha. rewrite <- (swap_insert P p i (ys ++ [a]) xs). apply core_swap.
  eapply link_old; [by apply core_swap|by apply swap_lookup|done].
Qed.

Lemma sec_link_new L P V W a p i st j : core L P V W → P !! p = None → (∀ q x, P !! q = Some x → v_pid x ≠ i) →
  W !! a = Some (mk_fv st None j) →
  core (L ++ [p]) (<[p := mk_pv i [] [a]]> P) V (<[a := mk_fv SWDMX_FILTER_STATE_RUN (Some p) i]> W).
Proof.
  intros Hc Hp Hi Ha. rewrite <- (swap_insert P p i [a] []). apply core_swap.
  eapply link_new; [by apply core_swap|by rewrite lookup_fmap, Hp| |done].
  intros q x. rewrite lookup_fmap. destruct (P !! q) as [y|] eqn:Hq; [|done]. intros [= <-]. cbn. by eapply Hi.
Qed.

Lemma sec_unlink_keep L P V W a p i xs ys st st' i' : core L P V W → P !! p = Some (mk_pv i xs ys) →
  W !! a = Some (mk_fv st (Some p) i) → unlink a ys ≠ [] ∨ xs ≠ [] →
  core L (<[p := mk_pv i xs (unlink a ys)]> P) V (<[a := mk_fv st' None i']> W).
Proof.
  intros Hc Hp Ha Hu. rewrite <- (swap_insert P p i (unlink a ys) xs). apply core_swap.
  eapply unlink_keep; [by apply core_swap|by apply swap_lookup|done|done].
Qed.

Lemma sec_unlink_last L P V W a p i ys st st' i' : core L P V W → P !! p = Some (mk_pv i [] ys) →
  W !! a = Some (mk_fv st (Some p) i) → unlink a ys = [] →
  core (unlink p L) (delete p P) V (<[a := mk_fv st' None i']> W).
Proof.
  intros Hc Hp Ha Hu. rewrite <- (swap_swap (delete p P)). apply core_swap. rewrite fmap_delete.
  eapply unlink_last; [by apply core_swap|by apply swap_lookup|done|done].
Qed.

(** ** The invariant *)

Definition buf_ok (f : swdmx_pid_filter) : Prop :=
  match sec_buf f with
  | Some b => asm_ok (mk_asm b (sec_recv f))
  | None => sec_recv f = 0
  end.

(** Filters are linked consistently; a running filter is linked, except those
    of [X] and [Y]. *)
Record dmx_inv (X Y : Z → Prop) (s : swdmx_demux) : Prop := {
  dk_core : core (pid_filter_list s) (pv <$> pidfs s) (tv <$> tsfs s) (sv <$> secfs s);
  dk_run_ts : ∀ a f, tsfs s !! a = Some f → tf_state f = SWDMX_FILTER_STATE_RUN → tf_pid_filter f ≠ None ∨ X a;
  dk_run_sec : ∀ a f, secfs s !! a = Some f → sf_state f = SWDMX_FILTER_STATE_RUN → sf_pid_filter f ≠ None ∨ Y a;
  dk_ts_list : NoDup (ts_filter_list s) ∧ ∀ a, a ∈ ts_filter_list s ↔ is_Some (tsfs s !! a);
  dk_sec_list : NoDup (sec_filter_list s) ∧ ∀ a, a ∈ sec_filter_list s ↔ is_Some (secfs s !! a);
  dk_buf : ∀ a f, pidfs s !! a = Some f → buf_ok f;
  dk_arrays : ∀ a f, secfs s !! a = Some f → arrays_ok f;
  dk_crc : table_ok (crc_tab s)
}.

Definition dmx_ok (s : swdmx_demux) : Prop := dmx_inv (fun _ => False) (fun _ => False) s.

(** The parts of the state the links do not touch. *)
Definition same_rest (s s' : swdmx_demux) : Prop :=
  ts_filter_list s' = ts_filter_list s ∧ sec_filter_list s' = sec_filter_list s ∧ crc_tab s' = crc_tab s ∧ events s' = events s.

Lemma find_pid_Some m l pid p : find_pid m l pid = Some p → ∃ f, m !! p = Some f ∧ pf_pid f = pid ∧ p ∈ l.
Proof.
  induction l as [|a l IH]; [done|]. cbn. destruct (m !! a) as [f|] eqn:Ha; [|done].
  destruct (Z.eqb_spec (pf_pid f) pid).
  - intros [= <-]. exists f. split; [done|]. split; [done|left].
  - intros H. destruct (IH H) as (g & ? & ? & ?). exists g. split; [done|]. split; [done|by right].
Qed.

Lemma find_pid_None m l pid : (∀ a, a ∈ l → is_Some (m !! a)) → find_pid m l pid = None →
  ∀ a f, a ∈ l → m !! a = Some f → pf_pid f ≠ pid.
Proof.
  induction l as [|b l IH]; intros Hl Hf a f Ha Hm; [by apply elem_of_nil in Ha|].
  cbn in Hf. destruct (Hl b) as [g Hg]; [left|]. rewrite Hg in Hf. destruct (Z.eqb_spec (pf_pid g) pid); [done|].
  apply elem_of_cons in Ha as [->|Ha]; [congruence|]. eapply IH; [|done|done|done]. intros c Hc. apply Hl. by right.
Qed.

Lemma upd_tsf_ok s a f g : tsfs s !! a = Some f → upd_tsf a g s = Ok tt (s <| tsfs := <[a := g f]> (tsfs s) |>).
Proof. intros H. unfold upd_tsf, tsf, mbind, D_bind, M_bind, gets, modify. by rewrite H. Qed.

Lemma upd_secf_ok s a f g : secfs s !! a = Some f → upd_secf a g s = Ok tt (s <| secfs := <[a := g f]> (secfs s) |>).
Proof. intros H. unfold upd_secf, secf, mbind, D_bind, M_bind, gets, modify. by rewrite H. Qed.

(** [pid_filter_get] gives the only PID filter of the PID, new or old. *)
Lemma pid_filter_get_ok X Y s addr i : dmx_inv X Y s → pidfs s !! addr = None →
  ∃ p f s', pid_filter_get addr i s = Ok p s' ∧ pidfs s' = <[p := f]> (pidfs s) ∧ pf_pid f = i ∧ buf_ok f ∧
    tsfs s' = tsfs s ∧ secfs s' = secfs s ∧ same_rest s s' ∧
    ((pidfs s !! p = Some f ∧ pid_filter_list s' = pid_filter_list s) ∨
     (p = addr ∧ pf_ts f = [] ∧ pf_sec f = [] ∧ pid_filter_list s' = pid_filter_list s ++ [addr] ∧
      ∀ q x, (pv <$> pidfs s) !! q = Some x → v_pid x ≠ i)).
Proof.
  intros Hinv Haddr. pose proof (core_dom _ _ _ _ (dk_core _ _ _ Hinv)) as Hdom.
  assert (∀ a, a ∈ pid_filter_list s ↔ is_Some (pidfs s !! a)) as Hdom'.
  { intros a. rewrite Hdom, lookup_fmap. by rewrite fmap_is_Some. }
  unfold pid_filter_get, mbind, D_bind, M_bind, get. destruct (find_pid _ _ _) as [p|] eqn:Hf.
  - apply find_pid_Some in Hf as (f & Hp & Hi & _). exists p, f, s. split; [done|]. split; [by rewrite insert_id|].
    split; [done|]. split; [by eapply dk_buf|]. split; [done|]. split; [done|]. split; [done|]. by left.
  - exists addr, (mk_pidf i [] [] None 0). eexists. split; [reflexivity|]. split; [done|]. split; [done|]. split; [done|].
    split; [done|]. split; [done|]. split; [done|]. right. split; [done|]. split; [done|]. split; [done|]. split; [done|].
    intros q x. rewrite lookup_fmap. destruct (pidfs s !! q) as [g|] eqn:Hq; [|done]. intros [= <-]. cbn.
    eapply (find_pid_None _ _ _ (λ a H, proj1 (Hdom' a) H) Hf); [|exact Hq]. apply Hdom'. by eexists.
Qed.

Lemma buf_ok_lists f g : sec_buf g = sec_buf f → sec_recv g = sec_recv f → buf_ok f → buf_ok g.
Proof. unfold buf_ok. by intros -> ->. Qed.

Lemma pid_filter_remove_ok s p g : pidfs s !! p = Some g →
  pid_filter_remove p s = Ok tt (if decide (pf_ts g = [] ∧ pf_sec g = [])
    then s <| pid_filter_list := unlink p (pid_filter_list s) |> <| pidfs := delete p (pidfs s) |> else s).
Proof.
  intros Hp. unfold pid_filter_remove, pidf, mbind, D_bind, M_bind, gets. rewrite Hp. cbn [of_option mret M_ret].
  case_decide as Hd.
  - destruct Hd as [-> ->]. rewrite !bool_decide_true by done. done.
  - destruct (bool_decide (pf_ts g = [])) eqn:E1; [|done]. destruct (bool_decide (pf_sec g = [])) eqn:E2; [|done].
    apply bool_decide_eq_true in E1, E2. tauto.
Qed.

Section TsLinks.
Context (X Y : Z → Prop) (s : swdmx_demux) (Hinv : dmx_inv X Y s) (a : Z) (f : swdmx_tsfilter) (Ha : tsfs s !! a = Some f).

Lemma ts_link_ok addr i : tf_pid_filter f = None → pidfs s !! addr = None →
  ∃ p s', ts_link addr a i s = Ok tt s' ∧ tsfs s' = <[a := f <| tf_pid_filter := Some p |>]> (tsfs s) ∧
    secfs s' = secfs s ∧ same_rest s s' ∧ (∀ b g, pidfs s' !! b = Some g → buf_ok g) ∧
    core (pid_filter_list s') (pv <$> pidfs s') (<[a := mk_fv SWDMX_FILTER_STATE_RUN (Some p) i]> (tv <$> tsfs s)) (sv <$> secfs s).
Proof.
  intros Hnone Haddr. destruct (pid_filter_get_ok X Y s addr i Hinv Haddr)
    as (p & g & s1 & Hget & Hp1 & Hi & Hbuf & Ht1 & Hs1 & Hrest & Hcase).
  assert ((tv <$> tsfs s) !! a = Some (mk_fv (tf_state f) None (tf_pid f))) as Hv.
  { rewrite lookup_fmap, Ha. cbn. unfold tv. by rewrite Hnone. }
  unfold ts_link, mbind, D_bind, M_bind. rewrite Hget. rewrite (upd_tsf_ok _ a f) by (by rewrite Ht1).
  erewrite upd_pidf_ok by (cbn; by rewrite Hp1, lookup_insert_eq).
  eexists p, _. split; [reflexivity|]. cbn. rewrite Ht1, Hs1, Hp1. split; [done|]. split; [done|]. split; [done|].
  rewrite insert_insert_eq. split.
  - intros b h. destruct (decide (p = b)) as [<-|].
    + rewrite lookup_insert_eq. intros [= <-]. by eapply buf_ok_lists; [| |exact Hbuf].
    + rewrite lookup_insert_ne by done. by eapply dk_buf.
  - rewrite fmap_insert. destruct Hcase as [[Hold Hl]|(-> & Hts & Hsec & Hl & Hne)]; rewrite Hl.
    + unfold pv at 1. cbn. rewrite Hi. eapply link_old; [by eapply dk_core| |exact Hv].
      rewrite lookup_fmap, Hold. unfold pv. cbn. by rewrite Hi.
    + unfold pv at 1. cbn. rewrite Hi, Hts, Hsec. cbn. eapply link_new; [by eapply dk_core| |exact Hne|exact Hv].
      by rewrite lookup_fmap, Haddr.
Qed.

Lemma ts_unlink_ok p : tf_pid_filter f = Some p →
  ∃ s', ts_unlink a s = Ok tt s' ∧ tsfs s' = <[a := f <| tf_pid_filter := None |>]> (tsfs s) ∧
    secfs s' = secfs s ∧ same_rest s s' ∧ (∀ b g, pidfs s' !! b = Some g → buf_ok g) ∧
    (∀ q, pidfs s !! q = None → pidfs s' !! q = None) ∧
    ∀ st i, core (pid_filter_list s') (pv <$> pidfs s') (<[a := mk_fv st None i]> (tv <$> tsfs s)) (sv <$> secfs s).
Proof.
  intros Hsome. pose proof (dk_core _ _ _ Hinv) as Hcore.
  assert ((tv <$> tsfs s) !! a = Some (mk_fv (tf_state f) (Some p) (tf_pid f))) as Hv.
  { rewrite lookup_fmap, Ha. cbn. unfold tv. by rewrite Hsome. }
  destruct (side_to _ _ _ (core_ts _ _ _ _ Hcore) _ _ _ _ Hv) as (_ & x & Hx & Hi & Hin).
  rewrite lookup_fmap in Hx. destruct (pidfs s !! p) as [g|] eqn:Hp; [|done]. injection Hx as <-. cbn in Hi, Hin.
  assert ((pv <$> pidfs s) !! p = Some (mk_pv (tf_pid f) (pf_ts g) (pf_sec g))) as Hpv.
  { rewrite lookup_fmap, Hp. cbn. unfold pv. by rewrite Hi. }
  unfold ts_unlink, mbind, D_bind, M_bind. unfold tsf at 1, mbind, D_bind, M_bind, gets. rewrite Ha. cbn [of_option mret M_ret].
  rewrite Hsome. cbn [of_option mret M_ret]. rewrite (upd_pidf_ok _ _ _ _ Hp).
  erewrite pid_filter_remove_ok by (cbn; apply lookup_insert_eq). cbn [pf_ts pf_sec].
  case_decide as Hempty; (erewrite upd_tsf_ok by exact Ha); eexists; (split; [reflexivity|]); cbn;
    (split; [done|]); (split; [done|]); (split; [done|]).
  - destruct Hempty as [H1 H2]. cbn in H1, H2. rewrite delete_insert_eq. split; [|split].
    + intros b h [_ Hb]%lookup_delete_Some. by eapply dk_buf.
    + intros q Hq. apply lookup_delete_None. by right.
    + intros st i. rewrite fmap_delete. rewrite H2 in Hpv. eapply unlink_last; [done|exact Hpv|exact Hv|done].
  - cbn in Hempty. split; [|split].
    + intros b h. destruct (decide (p = b)) as [<-|].
      * rewrite lookup_insert_eq. intros [= <-]. eapply buf_ok_lists; [| |by eapply dk_buf]; done.
      * rewrite lookup_insert_ne by done. by eapply dk_buf.
    + intros q Hq. rewrite lookup_insert_ne; [done|congruence].
    + intros st i. rewrite fmap_insert. unfold pv at 1. cbn. rewrite Hi. eapply unlink_keep; [done|exact Hpv|exact Hv|].
      destruct (unlink a (pf_ts g)); [|by left]. destruct (pf_sec g); [|by right]. tauto.
Qed.
End TsLinks.

Section SecLinks.
Context (X Y : Z → Prop) (s : swdmx_demux) (Hinv : dmx_inv X Y s) (a : Z) (f : swdmx_secfilter) (Ha : secfs s !! a = Some f).

Lemma sec_link_ok addr i : sf_pid_filter f = None → pidfs s !! addr = None →
  ∃ p s', sec_link addr a i s = Ok tt s' ∧ secfs s' = <[a := f <| sf_pid_filter := Some p |>]> (secfs s) ∧
    tsfs s' = tsfs s ∧ same_rest s s' ∧ (∀ b g, pidfs s' !! b = Some g → buf_ok g) ∧
    core (pid_filter_list s') (pv <$> pidfs s') (tv <$> tsfs s) (<[a := mk_fv SWDMX_FILTER_STATE_RUN (Some p) i]> (sv <$> secfs s)).
Proof.
  intros Hnone Haddr. destruct (pid_filter_get_ok X Y s addr i Hinv Haddr)
    as (p & g & s1 & Hget & Hp1 & Hi & Hbuf & Ht1 & Hs1 & Hrest & Hcase).
  assert ((sv <$> secfs s) !! a = Some (mk_fv (sf_state f) None (sp_pid (sf_params f)))) as Hv.
  { rewrite lookup_fmap, Ha. cbn. unfold sv. by rewrite Hnone. }
  unfold sec_link, mbind, D_bind, M_bind. rewrite Hget. rewrite (upd_secf_ok _ a f) by (by rewrite Hs1).
  erewrite upd_pidf_ok by (cbn; by rewrite Hp1, lookup_insert_eq).
  eexists p, _. split; [reflexivity|]. cbn. rewrite Ht1, Hs1, Hp1. split; [done|]. split; [done|]. split; [done|].
  rewrite insert_insert_eq. split.
  - intros b h. destruct (decide (p = b)) as [<-|].
    + rewrite lookup_insert_eq. intros [= <-]. by eapply buf_ok_lists; [| |exact Hbuf].
    + rewrite lookup_insert_ne by done. by eapply dk_buf.
  - rewrite fmap_insert. destruct Hcase as [[Hold Hl]|(-> & Hts & Hsec & Hl & Hne)]; rewrite Hl.
    + unfold pv at 1. cbn. rewrite Hi. eapply sec_link_old; [by eapply dk_core| |exact Hv].
      rewrite lookup_fmap, Hold. unfold pv. cbn. by rewrite Hi.
    + unfold pv at 1. cbn. rewrite Hi, Hts, Hsec. cbn. eapply sec_link_new; [by eapply dk_core| |exact Hne|exact Hv].
      by rewrite lookup_fmap, Haddr.
Qed.

Lemma sec_unlink_ok p : sf_pid_filter f = Some p →
  ∃ s', sec_unlink a s = Ok tt s' ∧ secfs s' = <[a := f <| sf_pid_filter := None |>]> (secfs s) ∧
    tsfs s' = tsfs s ∧ same_rest s s' ∧ (∀ b g, pidfs s' !! b = Some g → buf_ok g) ∧
    (∀ q, pidfs s !! q = None → pidfs s' !! q = None) ∧
    ∀ st i, core (pid_filter_list s') (pv <$> pidfs s') (tv <$> tsfs s) (<[a := mk_fv st None i]> (sv <$> secfs s)).
Proof.
  intros Hsome. pose proof (dk_core _ _ _ Hinv) as Hcore.
  assert ((sv <$> secfs s) !! a = Some (mk_fv (sf_state f) (Some p) (sp_pid (sf_params f)))) as Hv.
  { rewrite lookup_fmap, Ha. cbn. unfold sv. by rewrite Hsome. }
  destruct (side_to _ _ _ (core_sec _ _ _ _ Hcore) _ _ _ _ Hv) as (_ & x & Hx & Hi & Hin).
  rewrite lookup_fmap in Hx. destruct (pidfs s !! p) as [g|] eqn:Hp; [|done]. injection Hx as <-. cbn in Hi, Hin.
  assert ((pv <$> pidfs s) !! p = Some (mk_pv (sp_pid (sf_params f)) (pf_ts g) (pf_sec g))) as Hpv.
  { rewrite lookup_fmap, Hp. cbn. unfold pv. by rewrite Hi. }
  unfold sec_unlink, mbind, D_bind, M_bind. unfold secf at 1, mbind, D_bind, M_bind, gets. rewrite Ha. cbn [of_option mret M_ret].
  rewrite Hsome. cbn [of_option mret M_ret]. rewrite (upd_pidf_ok _ _ _ _ Hp).
  erewrite pid_filter_remove_ok by (cbn; apply lookup_insert_eq). cbn [pf_ts pf_sec].
  case_decide as Hempty; (erewrite upd_secf_ok by exact Ha); eexists; (split; [reflexivity|]); cbn;
    (split; [done|]); (split; [done|]); (split; [done|]).
  - destruct Hempty as [H1 H2]. cbn in H1, H2. rewrite delete_insert_eq. split; [|split].
    + intros b h [_ Hb]%lookup_delete_Some. by eapply dk_buf.
    + intros q Hq. apply lookup_delete_None. by right.
    + intros st i. rewrite fmap_delete. rewrite H1 in Hpv. eapply sec_unlink_last; [done|exact Hpv|exact Hv|done].
  - cbn in Hempty. split; [|split].
    + intros b h. destruct (decide (p = b)) as [<-|].
      * rewrite lookup_insert_eq. intros [= <-]. eapply buf_ok_lists; [| |by eapply dk_buf]; done.
      * rewrite lookup_insert_ne by done. by eapply dk_buf.
    + intros q Hq. rewrite lookup_insert_ne; [done|congruence].
    + intros st i. rewrite fmap_insert. unfold pv at 1. cbn. rewrite Hi. eapply sec_unlink_keep; [done|exact Hpv|exact Hv|].
      destruct (unlink a (pf_sec g)); [|by left]. destruct (pf_ts g); [|by right]. tauto.
Qed.
End SecLinks.

(** ** The operations on TS filters *)

Definition none : Z → Prop := fun _ => False.

Lemma ts_done X Y s s' a f f' : dmx_inv X Y s → tsfs s !! a = Some f → tsfs s' = <[a := f']> (tsfs s) →
  secfs s' = secfs s → same_rest s s' → (∀ b g, pidfs s' !! b = Some g → buf_ok g) →
  core (pid_filter_list s') (pv <$> pidfs s') (<[a := tv f']> (tv <$> tsfs s)) (sv <$> secfs s) →
  ∀ X', (tf_state f' = SWDMX_FILTER_STATE_RUN → tf_pid_filter f' ≠ None ∨ X' a) →
  (∀ b, b ≠ a → X b → X' b) → dmx_inv X' Y s'.
Proof.
  intros [I1 I2 I3 I4 I5 I6 I7 I8] Ha Ht Hs (R1 & R2 & R3 & R4) Hbuf Hcore X' Hrun HX. split.
  - by rewrite Ht, Hs, fmap_insert.
  - intros b g. rewrite Ht. destruct (decide (a = b)) as [<-|].
    + rewrite lookup_insert_eq. by intros [= <-].
    + rewrite lookup_insert_ne by done. intros Hb Hr. destruct (I2 b g Hb Hr); [by left|right; auto].
  - by rewrite Hs.
  - rewrite R1, Ht. destruct I4 as [N D]. split; [done|]. intros b. rewrite D.
    destruct (decide (a = b)) as [<-|]; [by rewrite lookup_insert_eq, Ha|by rewrite lookup_insert_ne].
  - by rewrite R2, Hs.
  - done.
  - by rewrite Hs.
  - by rewrite R3.
Qed.

(** A change of an unlinked filter, or one that keeps its view. *)
Lemma core_ts_set L P V W a st i st' i' : core L P V W → V !! a = Some (mk_fv st None i) →
  core L P (<[a := mk_fv st' None i']> V) W.
Proof. intros [H1 H2 H3 H4 H5 H6] Ha. split; try done. by eapply side_same. Qed.

Lemma upd_ts_inv X Y s a f g : dmx_inv X Y s → tsfs s !! a = Some f →
  (tv (g f) = tv f ∨ tf_pid_filter f = None ∧ tf_pid_filter (g f) = None) →
  ∀ X', (tf_state (g f) = SWDMX_FILTER_STATE_RUN → tf_pid_filter (g f) ≠ None ∨ X' a) →
  (∀ b, b ≠ a → X b → X' b) →
  upd_tsf a g s = Ok tt (s <| tsfs := <[a := g f]> (tsfs s) |>) ∧ dmx_inv X' Y (s <| tsfs := <[a := g f]> (tsfs s) |>).
Proof.
  intros Hinv Ha Hv X' Hrun HX. split; [by apply upd_tsf_ok|].
  eapply (ts_done X Y s _ a f (g f)); try done; [by apply (dk_buf _ _ _ Hinv)|]. cbn.
  pose proof (dk_core _ _ _ Hinv) as Hcore.
  assert ((tv <$> tsfs s) !! a = Some (tv f)) as Hl by (by rewrite lookup_fmap, Ha).
  destruct Hv as [-> |[Hn Hn']].
  - by rewrite insert_id.
  - unfold tv in Hl |- *. rewrite Hn in Hl. rewrite Hn'. by eapply core_ts_set.
Qed.

Lemma is_state_eq x y : is_state x y = true ↔ x = y.
Proof. unfold is_state. by rewrite bool_decide_eq_true. Qed.

Lemma is_state_neq x y : x ≠ y → is_state x y = false.
Proof. apply bool_decide_eq_false. Qed.

Lemma is_state_refl x : is_state x x = true.
Proof. by apply is_state_eq. Qed.

(** [m] runs to its end and keeps the invariant. *)
Definition ok_step {A} (m : D A) (s : swdmx_demux) : Prop := wp False m (fun _ => dmx_ok) (fun _ _ => False) s.

Lemma wp_tsf a f (Q : swdmx_tsfilter → swdmx_demux → Prop) E s : tsfs s !! a = Some f → Q f s → wp False (tsf a) Q E s.
Proof. intros Ha HQ. unfold wp, tsf, mbind, D_bind, M_bind, gets. by rewrite Ha. Qed.

Lemma wp_run {A} (m : D A) r s' (Q : A → swdmx_demux → Prop) E s : m s = Ok r s' → Q r s' → wp False m Q E s.
Proof. unfold wp. by intros ->. Qed.

Lemma wp_upd_tsf a f g (Q : unit → swdmx_demux → Prop) E s : tsfs s !! a = Some f →
  Q tt (s <| tsfs := <[a := g f]> (tsfs s) |>) → wp False (upd_tsf a g) Q E s.
Proof. intros Ha. by apply wp_run, upd_tsf_ok. Qed.

Lemma alloc_ts_ok s addr junk : dmx_ok s → tsfs s !! addr = None → ok_step (swdmx_demux_alloc_ts_filter addr junk) s.
Proof.
  intros [[H1 H2 H3 H4 H5 H6] I2 I3 I4 I5 I6 I7 I8] Ha. unfold ok_step, swdmx_demux_alloc_ts_filter.
  wp_step. wp_step. wp_step. wp_step. wp_step. split; cbn; try done.
  - rewrite fmap_insert. split; try done. apply side_fresh; [done|]. by rewrite lookup_fmap, Ha.
  - intros b g. destruct (decide (addr = b)) as [<-|].
    + rewrite lookup_insert_eq. by intros [= <-].
    + rewrite lookup_insert_ne by done. apply I2.
  - destruct I4 as [N Dm]. split.
    + apply NoDup_app. split; [done|]. split; [|apply NoDup_singleton]. intros b Hb ->%list_elem_of_singleton.
      apply Dm in Hb. rewrite Ha in Hb. by destruct Hb.
    + intros b. rewrite elem_of_app, list_elem_of_singleton, Dm. destruct (decide (addr = b)) as [<-|].
      * rewrite lookup_insert_eq. split; [by eexists|by right].
      * rewrite lookup_insert_ne by done. split; [intros [?| ->]; done|by left].
Qed.

(** A change of fields that keeps the link. *)
Lemma upd_ts_ok X Y s a f g : dmx_inv X Y s → tsfs s !! a = Some f → tv (g f) = tv f →
  dmx_inv X Y (s <| tsfs := <[a := g f]> (tsfs s) |>).
Proof.
  intros Hinv Ha Hv. destruct (upd_ts_inv X Y s a f g Hinv Ha (or_introl Hv) X) as [_ H]; [|done|done].
  injection Hv as -> -> _. by apply (dk_run_ts _ _ _ Hinv).
Qed.

(** A change of an unlinked filter. *)
Lemma upd_ts_unlinked X Y s a f g : dmx_inv X Y s → tsfs s !! a = Some f → tf_pid_filter f = None →
  tf_pid_filter (g f) = None → (tf_state (g f) = SWDMX_FILTER_STATE_RUN → X a) →
  dmx_inv X Y (s <| tsfs := <[a := g f]> (tsfs s) |>).
Proof.
  intros Hinv Ha H1 H2 Hr.
  destruct (upd_ts_inv X Y s a f g Hinv Ha (or_intror (conj H1 H2)) X) as [_ H]; [|done|done]. right. auto.
Qed.

Lemma not_running_unlinked X Y s a f : dmx_inv X Y s → tsfs s !! a = Some f → tf_state f ≠ SWDMX_FILTER_STATE_RUN →
  tf_pid_filter f = None.
Proof.
  intros Hinv Ha Hnr. destruct (tf_pid_filter f) as [p|] eqn:Hpf; [|done]. exfalso. apply Hnr.
  eapply (side_to _ _ _ (core_ts _ _ _ _ (dk_core _ _ _ Hinv)) a _ p). rewrite lookup_fmap, Ha. cbn. unfold tv.
  by rewrite Hpf.
Qed.

Lemma running_linked s a f : dmx_ok s → tsfs s !! a = Some f → tf_state f = SWDMX_FILTER_STATE_RUN →
  ∃ p, tf_pid_filter f = Some p.
Proof.
  intros Hinv Ha Hr. destruct (tf_pid_filter f) as [p|] eqn:Hpf; [by eexists|].
  by destruct (dk_run_ts _ _ _ Hinv a f Ha Hr).
Qed.

(** The link of a filter that is to run. *)
Lemma ts_link_wp X s a f addr i (Q : unit → swdmx_demux → Prop) E : dmx_inv X none s → tsfs s !! a = Some f →
  tf_pid_filter f = None → pidfs s !! addr = None → tf_pid f = i → (∀ b, X b → b = a) →
  (∀ p s', tsfs s' !! a = Some (f <| tf_pid_filter := Some p |>) →
     (∀ f', tv f' = mk_fv SWDMX_FILTER_STATE_RUN (Some p) i → dmx_ok (s' <| tsfs := <[a := f']> (tsfs s') |>)) → Q tt s') →
  wp False (ts_link addr a i) Q E s.
Proof.
  intros Hinv Ha Hnone Haddr Hi HX HQ.
  destruct (ts_link_ok X none s Hinv a f Ha addr i Hnone Haddr) as (p & s' & Hl & Ht & Hs & Hrest & Hbuf & Hcore).
  eapply wp_run; [exact Hl|]. apply (HQ p); [by rewrite Ht, lookup_insert_eq|]. intros f' Hf'.
  eapply (ts_done X none s _ a f f' Hinv Ha); try done; cbn.
  - by rewrite Ht, insert_insert_eq.
  - by rewrite Hf'.
  - intros _. left. unfold tv in Hf'. congruence.
  - intros b Hb Hx. by apply Hb, HX.
Qed.

(** The unlinking of a filter: it may still be in state RUN. *)
Lemma ts_unlink_wp s a f (Q : unit → swdmx_demux → Prop) E : dmx_ok s → tsfs s !! a = Some f →
  tf_state f = SWDMX_FILTER_STATE_RUN →
  (∀ s', tsfs s' !! a = Some (f <| tf_pid_filter := None |>) → dmx_inv (fun b => b = a) none s' →
     (∀ q, pidfs s !! q = None → pidfs s' !! q = None) → same_rest s s' → Q tt s') →
  wp False (ts_unlink a) Q E s.
Proof.
  intros Hinv Ha Hr HQ. destruct (running_linked s a f Hinv Ha Hr) as [p Hp].
  destruct (ts_unlink_ok none none s Hinv a f Ha p Hp) as (s' & Hu & Ht & Hs & Hrest & Hbuf & Hq & Hcore).
  eapply wp_run; [exact Hu|]. apply HQ; [by rewrite Ht, lookup_insert_eq| |done|done].
  eapply (ts_done none none s s' a f); try done; [exact (Hcore _ _)|by right].
Qed.

(** A filter that is excepted no longer needs to be. *)
Lemma inv_settle X s a f : dmx_inv X none s → (∀ b, X b → b = a) → tsfs s !! a = Some f →
  (tf_state f = SWDMX_FILTER_STATE_RUN → tf_pid_filter f ≠ None) → dmx_ok s.
Proof.
  intros [I1 I2 I3 I4 I5 I6 I7 I8] HX Ha Hr. split; try done. intros b g Hb Hg.
  destruct (I2 b g Hb Hg) as [|Hx]; [by left|]. apply HX in Hx as ->. left. assert (g = f) as -> by congruence. auto.
Qed.

Lemma ts_set_params_ok s addr a pid : dmx_ok s → is_Some (tsfs s !! a) → pidfs s !! addr = None →
  ok_step (swdmx_ts_filter_set_params addr a pid) s.
Proof.
  intros Hinv [f Ha] Haddr. unfold ok_step, swdmx_ts_filter_set_params. wp_step; [by wp_step|].
  wp_step. apply (wp_tsf a f); [done|]. wp_step. wp_step.
  - (* running, another PID *)
    bprop. match goal with H : is_state _ _ = true |- _ => apply is_state_eq in H as Hr end.
    apply (ts_unlink_wp s a f); [done..|]. intros s1 Ha1 Hinv1 Hq _. set (f1 := f <| tf_pid_filter := None |>) in *.
    wp_step. apply (wp_upd_tsf a f1); [done|]. set (f2 := f1 <| tf_pid := pid |>) in *.
    assert (dmx_inv (fun b => b = a) none (s1 <| tsfs := <[a := f2]> (tsfs s1) |>)) as Hinv2
      by (by apply (upd_ts_unlinked _ _ _ _ f1 (fun g => g <| tf_pid := pid |>))).
    set (s2 := set_field _ _ s1) in *. assert (tsfs s2 !! a = Some f2) as Ha2 by (cbn; by rewrite lookup_insert_eq).
    wp_step. apply (wp_tsf a f2); [done|]. wp_step. rewrite (is_state_neq (tf_state f2)) by (cbn; congruence).
    cbn [when]. wp_step. wp_step. apply (wp_tsf a f2); [done|]. wp_step.
    assert (tf_state f2 = SWDMX_FILTER_STATE_RUN) as Hr2 by done. rewrite Hr2, is_state_refl, bool_decide_true by done. cbn [andb when].
    apply (ts_link_wp (fun b => b = a) s2 a f2); try done; [by apply Hq|]. intros p s3 Ha3 Hinv3. wp_step.
    specialize (Hinv3 (f2 <| tf_pid_filter := Some p |>)). rewrite insert_id in Hinv3 by done.
    replace s3 with (s3 <| tsfs := tsfs s3 |>) by (by destruct s3). apply Hinv3. unfold tv. cbn. by rewrite Hr.
  - (* everything else keeps the link *)
    match goal with H : _ && _ = false |- _ => apply andb_false_iff in H as Hc end.
    wp_step. apply (wp_upd_tsf a f); [done|]. set (f1 := f <| tf_pid := pid |>) in *.
    destruct (decide (tf_state f = SWDMX_FILTER_STATE_RUN)) as [Hr|Hnr].
    + assert (tf_pid f = pid) as Hpid.
      { destruct Hc as [Hc|Hc]; [unfold is_state in Hc; by apply bool_decide_eq_false in Hc|]. by apply negb_false_iff, Z.eqb_eq in Hc. }
      assert (f1 = f) as Hf1 by (unfold f1; rewrite <- Hpid; by destruct f). rewrite Hf1, insert_id by done.
      replace (s <| tsfs := tsfs s |>) with s by (by destruct s).
      wp_step. apply (wp_tsf a f); [done|]. wp_step. rewrite (is_state_neq (tf_state f)) by congruence.
      cbn [when]. wp_step. wp_step. apply (wp_tsf a f); [done|]. wp_step. destruct (running_linked s a f Hinv Ha Hr) as [p ->].
      rewrite andb_false_r. cbn [when]. wp_step. by wp_step.
    + pose proof (not_running_unlinked _ _ _ _ _ Hinv Ha Hnr) as Hn.
      assert (dmx_ok (s <| tsfs := <[a := f1]> (tsfs s) |>)) as Hinv1
        by (by apply (upd_ts_unlinked _ _ _ _ f (fun g => g <| tf_pid := pid |>))).
      set (s1 := set_field _ _ s) in *. assert (tsfs s1 !! a = Some f1) as Ha1 by (cbn; by rewrite lookup_insert_eq).
      wp_step. apply (wp_tsf a f1); [done|]. wp_step. wp_step.
      * apply (wp_upd_tsf a f1); [done|]. set (f2 := f1 <| tf_state := SWDMX_FILTER_STATE_SET |>) in *.
        assert (dmx_ok (s1 <| tsfs := <[a := f2]> (tsfs s1) |>)) as Hinv2
          by (by apply (upd_ts_unlinked _ _ _ _ f1 (fun g => g <| tf_state := SWDMX_FILTER_STATE_SET |>))).
        wp_step. apply (wp_tsf a f2); [cbn; by rewrite lookup_insert_eq|]. wp_step. rewrite (is_state_neq (tf_state f2)) by done. cbn [andb when]. wp_step. by wp_step.
      * wp_step. apply (wp_tsf a f1); [done|]. wp_step. rewrite (is_state_neq (tf_state f1)) by done.
        cbn [andb when]. wp_step. by wp_step.
Qed.

Lemma ts_add_cb_ok s a c : dmx_ok s → is_Some (tsfs s !! a) → ok_step (swdmx_ts_filter_add_ts_packet_cb a c) s.
Proof.
  intros Hinv [f Ha]. unfold ok_step, swdmx_ts_filter_add_ts_packet_cb. wp_step. apply (wp_upd_tsf a f); [done|]. wp_step.
  by apply (upd_ts_ok _ _ _ _ f (fun f => f <| tf_cbs := tf_cbs f ++ [c] |>)).
Qed.

Lemma ts_remove_cb_ok s a c : dmx_ok s → is_Some (tsfs s !! a) → ok_step (swdmx_ts_filter_remove_ts_packet_cb a c) s.
Proof.
  intros Hinv [f Ha]. unfold ok_step, swdmx_ts_filter_remove_ts_packet_cb. wp_step. apply (wp_upd_tsf a f); [done|].
  wp_step. by apply (upd_ts_ok _ _ _ _ f (fun f => f <| tf_cbs := remove_first c (tf_cbs f) |>)).
Qed.

Lemma ts_enable_ok s addr a : dmx_ok s → is_Some (tsfs s !! a) → pidfs s !! addr = None →
  ok_step (swdmx_ts_filter_enable addr a) s.
Proof.
  intros Hinv [f Ha] Haddr. unfold ok_step, swdmx_ts_filter_enable. wp_step. apply (wp_tsf a f); [done|].
  wp_step; [by wp_step|]. wp_step. wp_step; [|by wp_step].
  match goal with H : is_state _ SWDMX_FILTER_STATE_SET = true |- _ => apply is_state_eq in H as Hst end.
  wp_step. assert (tf_pid_filter f = None) as Hn by (eapply not_running_unlinked; [done..|by rewrite Hst]).
  apply (ts_link_wp none s a f); try done. intros p s' Ha' Hinv'. apply (wp_upd_tsf a (f <| tf_pid_filter := Some p |>)); [done|].
  wp_step. by apply Hinv'.
Qed.

(** After [swdmx_ts_filter_disable] the filter is not linked. *)
Lemma ts_disable_wp s a f (Q : Z → swdmx_demux → Prop) E : dmx_ok s → tsfs s !! a = Some f →
  (∀ s' f', tsfs s' !! a = Some f' → tf_pid_filter f' = None → dmx_ok s' → same_rest s s' → Q SWDMX_OK s') →
  wp False (swdmx_ts_filter_disable a) Q E s.
Proof.
  intros Hinv Ha HQ. unfold swdmx_ts_filter_disable. wp_step. apply (wp_tsf a f); [done|]. wp_step. wp_step.
  - match goal with H : is_state _ _ = true |- _ => apply is_state_eq in H as Hr end.
    wp_step. apply (ts_unlink_wp s a f); [done..|]. intros s1 Ha1 Hinv1 _ Hrest. set (f1 := f <| tf_pid_filter := None |>) in *.
    apply (wp_upd_tsf a f1); [done|]. set (f2 := f1 <| tf_state := SWDMX_FILTER_STATE_SET |>).
    wp_step. apply (HQ _ f2); [cbn; by rewrite lookup_insert_eq|done| |exact Hrest].
    apply (inv_settle (fun b => b = a) _ a f2); [|done|cbn; by rewrite lookup_insert_eq|done].
    by apply (upd_ts_unlinked _ _ _ _ f1 (fun g => g <| tf_state := SWDMX_FILTER_STATE_SET |>)).
  - match goal with H : is_state _ _ = false |- _ => rename H into Hr end.
    wp_step. apply (HQ _ f); [done| |done|done]. eapply not_running_unlinked; [done..|]. intros E1. by rewrite E1 in Hr.
Qed.

Lemma ts_disable_ok s a : dmx_ok s → is_Some (tsfs s !! a) → ok_step (swdmx_ts_filter_disable a) s.
Proof. intros Hinv [f Ha]. by apply (ts_disable_wp s a f). Qed.

Lemma ts_free_wp s a f (Q : unit → swdmx_demux → Prop) E : dmx_ok s → tsfs s !! a = Some f →
  (∀ s', dmx_ok s' → ts_filter_list s' = unlink a (ts_filter_list s) → sec_filter_list s' = sec_filter_list s →
     Q tt s') → wp False (swdmx_ts_filter_free a) Q E s.
Proof.
  intros Hinv Ha HQ. unfold swdmx_ts_filter_free. wp_step. apply (ts_disable_wp s a f); [done..|].
  intros s1 f1 Ha1 Hn1 Hinv1 (R1 & R2 & _). wp_step. wp_step. wp_step. apply (wp_upd_tsf a f1); [done|]. wp_step. cbn.
  apply HQ; [|cbn; by rewrite ?R1, ?R2|cbn; by rewrite ?R1, ?R2].
  destruct Hinv1 as [[H1 H2 H3 H4 H5 H6] I2 I3 I4 I5 I6 I7 I8]. split; cbn; rewrite ?delete_insert_eq; try done.
  - rewrite fmap_delete. split; try done. eapply (side_gone _ _ _ a (tf_state f1) (tf_pid f1)); [done|].
    rewrite lookup_fmap, Ha1. cbn. unfold tv. by rewrite Hn1.
  - intros b g [_ Hb]%lookup_delete_Some Hr. exact (I2 b g Hb Hr).
  - destruct I4 as [N Dm]. split; [by apply unlink_NoDup|]. intros b. rewrite unlink_spec, Dm.
    destruct (decide (a = b)) as [<-|].
    + rewrite lookup_delete_eq. split; [tauto|by intros []].
    + rewrite lookup_delete_ne by done. split; [tauto|by split].
Qed.

(** ** The operations on section filters *)

Lemma sec_done X Y s s' a f f' : dmx_inv Y X s → secfs s !! a = Some f → secfs s' = <[a := f']> (secfs s) →
  tsfs s' = tsfs s → same_rest s s' → (∀ b g, pidfs s' !! b = Some g → buf_ok g) → arrays_ok f' →
  core (pid_filter_list s') (pv <$> pidfs s') (tv <$> tsfs s) (<[a := sv f']> (sv <$> secfs s)) →
  ∀ X', (sf_state f' = SWDMX_FILTER_STATE_RUN → sf_pid_filter f' ≠ None ∨ X' a) →
  (∀ b, b ≠ a → X b → X' b) → dmx_inv Y X' s'.
Proof.
  intros [I1 I2 I3 I4 I5 I6 I7 I8] Ha Hs Ht (R1 & R2 & R3 & R4) Hbuf Harr Hcore X' Hrun HX. split.
  - by rewrite Ht, Hs, fmap_insert.
  - by rewrite Ht.
  - intros b g. rewrite Hs. destruct (decide (a = b)) as [<-|].
    + rewrite lookup_insert_eq. by intros [= <-].
    + rewrite lookup_insert_ne by done. intros Hb Hr. destruct (I3 b g Hb Hr); [by left|right; auto].
  - by rewrite R1, Ht.
  - rewrite R2, Hs. destruct I5 as [N D]. split; [done|]. intros b. rewrite D.
    destruct (decide (a = b)) as [<-|]; [by rewrite lookup_insert_eq, Ha|by rewrite lookup_insert_ne].
  - done.
  - intros b g. rewrite Hs. destruct (decide (a = b)) as [<-|].
    + rewrite lookup_insert_eq. by intros [= <-].
    + rewrite lookup_insert_ne by done. apply I7.
  - by rewrite R3.
Qed.

(** A change of an unlinked filter, or one that keeps its view. *)
Lemma core_sec_set L P V W a st i st' i' : core L P W V → V !! a = Some (mk_fv st None i) →
  core L P W (<[a := mk_fv st' None i']> V).
Proof. intros [H1 H2 H3 H4 H5 H6] Ha. split; try done. by eapply side_same. Qed.

Lemma upd_sec_inv X Y s a f g : dmx_inv Y X s → secfs s !! a = Some f →
  (sv (g f) = sv f ∨ sf_pid_filter f = None ∧ sf_pid_filter (g f) = None) →
  ∀ X', (sf_state (g f) = SWDMX_FILTER_STATE_RUN → sf_pid_filter (g f) ≠ None ∨ X' a) →
  (∀ b, b ≠ a → X b → X' b) → arrays_ok (g f) →
  upd_secf a g s = Ok tt (s <| secfs := <[a := g f]> (secfs s) |>) ∧ dmx_inv Y X' (s <| secfs := <[a := g f]> (secfs s) |>).
Proof.
  intros Hinv Ha Hv X' Hrun HX Harr. split; [by apply upd_secf_ok|].
  eapply (sec_done X Y s _ a f (g f)); try done; [by apply (dk_buf _ _ _ Hinv)|]. cbn.
  pose proof (dk_core _ _ _ Hinv) as Hcore.
  assert ((sv <$> secfs s) !! a = Some (sv f)) as Hl by (by rewrite lookup_fmap, Ha).
  destruct Hv as [-> |[Hn Hn']].
  - by rewrite insert_id.
  - unfold sv in Hl |- *. rewrite Hn in Hl. rewrite Hn'. by eapply core_sec_set.
Qed.

Lemma wp_secf a f (Q : swdmx_secfilter → swdmx_demux → Prop) E s : secfs s !! a = Some f → Q f s → wp False (secf a) Q E s.
Proof. intros Ha HQ. unfold wp, secf, mbind, D_bind, M_bind, gets. by rewrite Ha. Qed.

Lemma wp_upd_secf a f g (Q : unit → swdmx_demux → Prop) E s : secfs s !! a = Some f →
  Q tt (s <| secfs := <[a := g f]> (secfs s) |>) → wp False (upd_secf a g) Q E s.
Proof. intros Ha. by apply wp_run, upd_secf_ok. Qed.

(** A change of fields that keeps the link. *)
Lemma upd_sec_ok X Y s a f g : dmx_inv Y X s → secfs s !! a = Some f → sv (g f) = sv f → arrays_ok (g f) →
  dmx_inv Y X (s <| secfs := <[a := g f]> (secfs s) |>).
Proof.
  intros Hinv Ha Hv Harr. destruct (upd_sec_inv X Y s a f g Hinv Ha (or_introl Hv) X) as [_ H]; [|done|done|done].
  injection Hv as -> -> _. by apply (dk_run_sec _ _ _ Hinv).
Qed.

(** A change of an unlinked filter. *)
Lemma upd_sec_unlinked X Y s a f g : dmx_inv Y X s → secfs s !! a = Some f → sf_pid_filter f = None →
  sf_pid_filter (g f) = None → (sf_state (g f) = SWDMX_FILTER_STATE_RUN → X a) → arrays_ok (g f) →
  dmx_inv Y X (s <| secfs := <[a := g f]> (secfs s) |>).
Proof.
  intros Hinv Ha H1 H2 Hr Harr.
  destruct (upd_sec_inv X Y s a f g Hinv Ha (or_intror (conj H1 H2)) X) as [_ H]; [|done|done|done]. right. auto.
Qed.

Lemma not_running_unlinked_sec X Y s a f : dmx_inv Y X s → secfs s !! a = Some f → sf_state f ≠ SWDMX_FILTER_STATE_RUN →
  sf_pid_filter f = None.
Proof.
  intros Hinv Ha Hnr. destruct (sf_pid_filter f) as [p|] eqn:Hpf; [|done]. exfalso. apply Hnr.
  eapply (side_to _ _ _ (core_sec _ _ _ _ (dk_core _ _ _ Hinv)) a _ p). rewrite lookup_fmap, Ha. cbn. unfold sv.
  by rewrite Hpf.
Qed.

Lemma running_linked_sec s a f : dmx_ok s → secfs s !! a = Some f → sf_state f = SWDMX_FILTER_STATE_RUN →
  ∃ p, sf_pid_filter f = Some p.
Proof.
  intros Hinv Ha Hr. destruct (sf_pid_filter f) as [p|] eqn:Hpf; [by eexists|].
  by destruct (dk_run_sec _ _ _ Hinv a f Ha Hr).
Qed.

(** The link of a filter that is to run. *)
Lemma sec_link_wp X s a f addr i (Q : unit → swdmx_demux → Prop) E : dmx_inv none X s → secfs s !! a = Some f →
  sf_pid_filter f = None → pidfs s !! addr = None → sp_pid (sf_params f) = i → (∀ b, X b → b = a) →
  (∀ p s', secfs s' !! a = Some (f <| sf_pid_filter := Some p |>) →
     (∀ f', sv f' = mk_fv SWDMX_FILTER_STATE_RUN (Some p) i → arrays_ok f' → dmx_ok (s' <| secfs := <[a := f']> (secfs s') |>)) → Q tt s') →
  wp False (sec_link addr a i) Q E s.
Proof.
  intros Hinv Ha Hnone Haddr Hi HX HQ.
  destruct (sec_link_ok none X s Hinv a f Ha addr i Hnone Haddr) as (p & s' & Hl & Ht & Hs & Hrest & Hbuf & Hcore).
  eapply wp_run; [exact Hl|]. apply (HQ p); [by rewrite Ht, lookup_insert_eq|]. intros f' Hf' Harr.
  eapply (sec_done X none s _ a f f' Hinv Ha); try done; cbn.
  - by rewrite Ht, insert_insert_eq.
  - by rewrite Hf'.
  - intros _. left. unfold sv in Hf'. congruence.
  - intros b Hb Hx. by apply Hb, HX.
Qed.

(** The unlinking of a filter: it may still be in state RUN. *)
Lemma sec_unlink_wp s a f (Q : unit → swdmx_demux → Prop) E : dmx_ok s → secfs s !! a = Some f →
  sf_state f = SWDMX_FILTER_STATE_RUN →
  (∀ s', secfs s' !! a = Some (f <| sf_pid_filter := None |>) → dmx_inv none (fun b => b = a) s' →
     (∀ q, pidfs s !! q = None → pidfs s' !! q = None) → same_rest s s' → Q tt s') →
  wp False (sec_unlink a) Q E s.
Proof.
  intros Hinv Ha Hr HQ. destruct (running_linked_sec s a f Hinv Ha Hr) as [p Hp].
  destruct (sec_unlink_ok none none s Hinv a f Ha p Hp) as (s' & Hu & Ht & Hs & Hrest & Hbuf & Hq & Hcore).
  eapply wp_run; [exact Hu|]. apply HQ; [by rewrite Ht, lookup_insert_eq| |done|done].
  eapply (sec_done none none s s' a f); try done; [exact (dk_arrays _ _ _ Hinv a f Ha)|exact (Hcore _ _)|by right].
Qed.

(** A filter that is excepted no longer needs to be. *)
Lemma inv_settle_sec X s a f : dmx_inv none X s → (∀ b, X b → b = a) → secfs s !! a = Some f →
  (sf_state f = SWDMX_FILTER_STATE_RUN → sf_pid_filter f ≠ None) → dmx_ok s.
Proof.
  intros [I1 I2 I3 I4 I5 I6 I7 I8] HX Ha Hr. split; try done. intros b g Hb Hg.
  destruct (I3 b g Hb Hg) as [|Hx]; [by left|]. apply HX in Hx as ->. left. assert (g = f) as -> by congruence. auto.
Qed.

Lemma alloc_sec_ok s addr junk : dmx_ok s → secfs s !! addr = None → arrays_ok junk →
  ok_step (swdmx_demux_alloc_sec_filter addr junk) s.
Proof.
  intros [[H1 H2 H3 H4 H5 H6] I2 I3 I4 I5 I6 I7 I8] Ha Hj. unfold ok_step, swdmx_demux_alloc_sec_filter.
  wp_step. wp_step. wp_step. wp_step. wp_step. split; cbn; try done.
  - rewrite fmap_insert. split; try done. apply side_fresh; [done|]. by rewrite lookup_fmap, Ha.
  - intros b g. destruct (decide (addr = b)) as [<-|].
    + rewrite lookup_insert_eq. by intros [= <-].
    + rewrite lookup_insert_ne by done. apply I3.
  - destruct I5 as [N Dm]. split.
    + apply NoDup_app. split; [done|]. split; [|apply NoDup_singleton]. intros b Hb ->%list_elem_of_singleton.
      apply Dm in Hb. rewrite Ha in Hb. by destruct Hb.
    + intros b. rewrite elem_of_app, list_elem_of_singleton, Dm. destruct (decide (addr = b)) as [<-|].
      * rewrite lookup_insert_eq. split; [by eexists|by right].
      * rewrite lookup_insert_ne by done. split; [intros [?| ->]; done|by left].
  - intros b g. destruct (decide (addr = b)) as [<-|].
    + rewrite lookup_insert_eq. by intros [= <-].
    + rewrite lookup_insert_ne by done. apply I7.
Qed.

(** The part of set_params that is the same for every state: parameters and
    arrays. *)
Lemma sec_assign_wp Y X s a f p (k : swdmx_secfilter → D Z) (Q : Z → swdmx_demux → Prop) E :
  dmx_inv Y X s → secfs s !! a = Some f → params_ok p →
  (sf_pid_filter f = None ∨ sp_pid (sf_params f) = sp_pid p) → (sf_pid_filter f = None → sf_state f = SWDMX_FILTER_STATE_RUN → X a) →
  (∀ s' f', secfs s' !! a = Some f' → dmx_inv Y X s' → sf_state f' = sf_state f → sf_pid_filter f' = sf_pid_filter f →
     sf_params f' = p → arrays_ok f' → pidfs s' = pidfs s → wp False (k f') Q E s') →
  wp False (upd_secf a (fun f => f <| sf_params := p |>);;
    f ← secf a; f' ← of_option (set_filter_arrays p f); upd_secf a (fun _ => f');; f ← secf a; k f) Q E s.
Proof.
  intros Hinv Ha Hp Hpid Hrun HQ. pose proof (dk_arrays _ _ _ Hinv a f Ha) as Harr.
  wp_step. apply (wp_upd_secf a f); [done|]. set (f1 := f <| sf_params := p |>).
  wp_step. apply (wp_secf a f1); [cbn; by rewrite lookup_insert_eq|].
  destruct (set_filter_arrays_ok p f1 Hp Harr) as (f2 & Hset & Harr2 & (F1 & F2 & F3 & F4) & _).
  wp_step. rewrite Hset. cbn [of_option]. wp_step. wp_step. apply (wp_upd_secf a f1); [cbn; by rewrite lookup_insert_eq|].
  cbn. set (s' := set_field _ _ _). wp_step. apply (wp_secf a f2); [cbn; by rewrite lookup_insert_eq|].
  apply HQ; try done; [cbn; by rewrite lookup_insert_eq|].
  assert (s' = s <| secfs := <[a := f2]> (secfs s) |>) as -> by (unfold s'; cbn; by rewrite insert_insert_eq).
  assert (dmx_inv Y X (s <| secfs := <[a := (fun _ => f2) f]> (secfs s) |>)) as Hi; [|exact Hi].
  destruct Hpid as [Hn|Hpid].
  - apply (upd_sec_unlinked X Y s a f (fun _ => f2)); try done; [by rewrite F2|]. rewrite F1. by apply Hrun.
  - apply (upd_sec_ok X Y s a f (fun _ => f2)); try done. unfold sv. rewrite F1, F2, F3. cbn. by rewrite Hpid.
Qed.

Lemma sec_set_params_ok s addr a p : dmx_ok s → is_Some (secfs s !! a) → pidfs s !! addr = None → params_ok p →
  ok_step (swdmx_sec_filter_set_params addr a p) s.
Proof.
  intros Hinv [f Ha] Haddr Hp. unfold ok_step, swdmx_sec_filter_set_params. wp_step; [by wp_step|].
  wp_step. apply (wp_secf a f); [done|]. wp_step. wp_step.
  - (* running, another PID *)
    bprop. match goal with H : is_state _ _ = true |- _ => apply is_state_eq in H as Hr end.
    apply (sec_unlink_wp s a f); [done..|]. intros s1 Ha1 Hinv1 Hq _.
    apply (sec_assign_wp none (fun b => b = a) s1 a (f <| sf_pid_filter := None |>)); try done; [by left|].
    intros s2 f2 Ha2 Hinv2 Hst2 Hpf2 Hp2 Harr2 Hpidfs. cbn in Hst2, Hpf2.
    wp_step. rewrite (is_state_neq (sf_state f2)) by congruence. cbn [when]. wp_step.
    wp_step. apply (wp_secf a f2); [done|]. wp_step.
    rewrite Hst2, Hr, is_state_refl, bool_decide_true by done. cbn [andb when].
    apply (sec_link_wp (fun b => b = a) s2 a f2); try done; [rewrite Hpidfs; by apply Hq|by rewrite Hp2|].
    intros q s3 Ha3 Hinv3. wp_step. specialize (Hinv3 (f2 <| sf_pid_filter := Some q |>)).
    rewrite insert_id in Hinv3 by done. replace s3 with (s3 <| secfs := secfs s3 |>) by (by destruct s3).
    apply Hinv3; [|done]. unfold sv. cbn. by rewrite Hst2, Hr, Hp2.
  - (* everything else keeps the link *)
    match goal with H : _ && _ = false |- _ => apply andb_false_iff in H as Hc end.
    assert (sf_pid_filter f = None ∨ sp_pid (sf_params f) = sp_pid p) as Hpid.
    { destruct Hc as [Hc|Hc]; [left|right].
      - eapply not_running_unlinked_sec; [done..|]. intros E1. by rewrite E1 in Hc.
      - by apply negb_false_iff, Z.eqb_eq in Hc. }
    apply (sec_assign_wp none none s a f); try done.
    { intros Hn Hr. by destruct (dk_run_sec _ _ _ Hinv a f Ha Hr). }
    intros s2 f2 Ha2 Hinv2 Hst2 Hpf2 Hp2 Harr2 Hpidfs. wp_step. wp_step.
    + match goal with H : is_state _ SWDMX_FILTER_STATE_INIT = true |- _ => apply is_state_eq in H as Hini end.
      assert (sf_pid_filter f2 = None) as Hn2 by (eapply not_running_unlinked_sec; [done..|by rewrite Hini]).
      apply (wp_upd_secf a f2); [done|]. set (f3 := f2 <| sf_state := SWDMX_FILTER_STATE_SET |>) in *.
      wp_step. apply (wp_secf a f3); [cbn; by rewrite lookup_insert_eq|]. wp_step.
      rewrite (is_state_neq (sf_state f3)) by done. cbn [andb when]. wp_step. wp_step.
      by apply (upd_sec_unlinked _ _ _ _ f2 (fun g => g <| sf_state := SWDMX_FILTER_STATE_SET |>)).
    + wp_step. apply (wp_secf a f2); [done|]. wp_step.
      destruct (decide (sf_state f2 = SWDMX_FILTER_STATE_RUN)) as [Hr|Hnr].
      * destruct (running_linked_sec s2 a f2 Hinv2 Ha2 Hr) as [q ->]. rewrite andb_false_r. cbn [when]. wp_step. by wp_step.
      * rewrite (is_state_neq (sf_state f2)) by done. cbn [andb when]. wp_step. by wp_step.
Qed.

Lemma sec_add_cb_ok s a c : dmx_ok s → is_Some (secfs s !! a) → ok_step (swdmx_sec_filter_add_section_cb a c) s.
Proof.
  intros Hinv [f Ha]. unfold ok_step, swdmx_sec_filter_add_section_cb. wp_step. apply (wp_upd_secf a f); [done|]. wp_step.
  apply (upd_sec_ok _ _ _ _ f (fun f => f <| sf_cbs := sf_cbs f ++ [c] |>)); try done. exact (dk_arrays _ _ _ Hinv a f Ha).
Qed.

Lemma sec_remove_cb_ok s a c : dmx_ok s → is_Some (secfs s !! a) → ok_step (swdmx_sec_filter_remove_section_cb a c) s.
Proof.
  intros Hinv [f Ha]. unfold ok_step, swdmx_sec_filter_remove_section_cb. wp_step. apply (wp_upd_secf a f); [done|].
  wp_step. apply (upd_sec_ok _ _ _ _ f (fun f => f <| sf_cbs := remove_first c (sf_cbs f) |>)); try done. exact (dk_arrays _ _ _ Hinv a f Ha).
Qed.

Lemma sec_enable_ok s addr a : dmx_ok s → is_Some (secfs s !! a) → pidfs s !! addr = None →
  ok_step (swdmx_sec_filter_enable addr a) s.
Proof.
  intros Hinv [f Ha] Haddr. unfold ok_step, swdmx_sec_filter_enable. wp_step. apply (wp_secf a f); [done|].
  wp_step; [by wp_step|]. wp_step. wp_step; [|by wp_step].
  match goal with H : is_state _ SWDMX_FILTER_STATE_SET = true |- _ => apply is_state_eq in H as Hst end.
  wp_step. assert (sf_pid_filter f = None) as Hn by (eapply not_running_unlinked_sec; [done..|by rewrite Hst]).
  apply (sec_link_wp none s a f); try done. intros p s' Ha' Hinv'. apply (wp_upd_secf a (f <| sf_pid_filter := Some p |>)); [done|].
  wp_step. apply Hinv'; [done|]. exact (dk_arrays _ _ _ Hinv a f Ha).
Qed.

(** After [swdmx_sec_filter_disable] the filter is not linked. *)
Lemma sec_disable_wp s a f (Q : Z → swdmx_demux → Prop) E : dmx_ok s → secfs s !! a = Some f →
  (∀ s' f', secfs s' !! a = Some f' → sf_pid_filter f' = None → dmx_ok s' → same_rest s s' → Q SWDMX_OK s') →
  wp False (swdmx_sec_filter_disable a) Q E s.
Proof.
  intros Hinv Ha HQ. unfold swdmx_sec_filter_disable. wp_step. apply (wp_secf a f); [done|]. wp_step. wp_step.
  - match goal with H : is_state _ _ = true |- _ => apply is_state_eq in H as Hr end.
    wp_step. apply (sec_unlink_wp s a f); [done..|]. intros s1 Ha1 Hinv1 _ Hrest. set (f1 := f <| sf_pid_filter := None |>) in *.
    apply (wp_upd_secf a f1); [done|]. set (f2 := f1 <| sf_state := SWDMX_FILTER_STATE_SET |>).
    wp_step. apply (HQ _ f2); [cbn; by rewrite lookup_insert_eq|done| |exact Hrest].
    apply (inv_settle_sec (fun b => b = a) _ a f2); [|done|cbn; by rewrite lookup_insert_eq|done].
    apply (upd_sec_unlinked _ _ _ _ f1 (fun g => g <| sf_state := SWDMX_FILTER_STATE_SET |>)); try done.
    exact (dk_arrays _ _ _ Hinv a f Ha).
  - match goal with H : is_state _ _ = false |- _ => rename H into Hr end.
    wp_step. apply (HQ _ f); [done| |done|done]. eapply not_running_unlinked_sec; [done..|]. intros E1. by rewrite E1 in Hr.
Qed.

Lemma sec_disable_ok s a : dmx_ok s → is_Some (secfs s !! a) → ok_step (swdmx_sec_filter_disable a) s.
Proof. intros Hinv [f Ha]. by apply (sec_disable_wp s a f). Qed.

Lemma sec_free_wp s a f (Q : unit → swdmx_demux → Prop) E : dmx_ok s → secfs s !! a = Some f →
  (∀ s', dmx_ok s' → sec_filter_list s' = unlink a (sec_filter_list s) → ts_filter_list s' = ts_filter_list s →
     Q tt s') → wp False (swdmx_sec_filter_free a) Q E s.
Proof.
  intros Hinv Ha HQ. unfold swdmx_sec_filter_free. wp_step. apply (sec_disable_wp s a f); [done..|].
  intros s1 f1 Ha1 Hn1 Hinv1 (R1 & R2 & _). wp_step. wp_step. wp_step. apply (wp_upd_secf a f1); [done|]. wp_step. cbn.
  apply HQ; [|cbn; by rewrite ?R1, ?R2|cbn; by rewrite ?R1, ?R2].
  destruct Hinv1 as [[H1 H2 H3 H4 H5 H6] I2 I3 I4 I5 I6 I7 I8]. split; cbn; rewrite ?delete_insert_eq; try done.
  - rewrite fmap_delete. split; try done. eapply (side_gone _ _ _ a (sf_state f1) (sp_pid (sf_params f1))); [done|].
    rewrite lookup_fmap, Ha1. cbn. unfold sv. by rewrite Hn1.
  - intros b g [_ Hb]%lookup_delete_Some Hr. exact (I3 b g Hb Hr).
  - destruct I5 as [N Dm]. split; [by apply unlink_NoDup|]. intros b. rewrite unlink_spec, Dm.
    destruct (decide (a = b)) as [<-|].
    + rewrite lookup_delete_eq. split; [tauto|by intros []].
    + rewrite lookup_delete_ne by done. split; [tauto|by split].
  - intros b g [_ Hb]%lookup_delete_Some. exact (I7 b g Hb).
Qed.

(** ** Packets *)

(** Section buffers, the CRC table and the calls may change. *)
Lemma dmx_ok_buf s a pf pf' t ev : dmx_ok s → pidfs s !! a = Some pf → pv pf' = pv pf → buf_ok pf' → table_ok t →
  dmx_ok (s <| pidfs := <[a := pf']> (pidfs s) |> <| crc_tab := t |> <| events := ev |>).
Proof.
  intros [I1 I2 I3 I4 I5 I6 I7 I8] Ha Hv Hb Ht. split; cbn; try done.
  - rewrite fmap_insert, Hv, insert_id; [done|]. by rewrite lookup_fmap, Ha.
  - intros b g. destruct (decide (a = b)) as [<-|].
    + rewrite lookup_insert_eq. by intros [= <-].
    + rewrite lookup_insert_ne by done. apply I6.
Qed.

(** Members of the lists exist. *)
Lemma ok_ts_members s a pf : dmx_ok s → pidfs s !! a = Some pf → Forall (fun b => is_Some (tsfs s !! b)) (pf_ts pf).
Proof.
  intros Hinv Ha. apply Forall_forall. intros b Hb.
  destruct (side_from _ _ _ (core_ts _ _ _ _ (dk_core _ _ _ Hinv)) a (pv pf) b) as (st & i & H);
    [by rewrite lookup_fmap, Ha|done|].
  rewrite lookup_fmap in H. destruct (tsfs s !! b); [by eexists|done].
Qed.

Lemma ok_sec_members s a pf : dmx_ok s → pidfs s !! a = Some pf → filters_ok (secfs s) (pf_sec pf).
Proof.
  intros Hinv Ha. apply Forall_forall. intros b Hb.
  destruct (side_from _ _ _ (core_sec _ _ _ _ (dk_core _ _ _ Hinv)) a (pv pf) b) as (st & i & H);
    [by rewrite lookup_fmap, Ha|done|].
  rewrite lookup_fmap in H. destruct (secfs s !! b) as [g|] eqn:Hg; [|done]. exists g. split; [done|].
  by eapply dk_arrays.
Qed.

(** The calls for a TS packet. *)
Definition ts_events (m : gmap Z swdmx_tsfilter) (fs : list Z) (k : swdmx_tspacket) : list event :=
  a ← fs; match m !! a with Some f => (fun c => Ev_ts c k) <$> tf_cbs f | None => [] end.

Lemma call_ts_filters_ok fs k s : Forall (fun b => is_Some (tsfs s !! b)) fs →
  call_ts_filters fs k s = Ok tt (s <| events := events s ++ ts_events (tsfs s) fs k |>).
Proof.
  intros Hfs. revert s Hfs. induction fs as [|a fs IH]; intros s Hfs.
  - cbn. rewrite app_nil_r. by destruct s.
  - apply Forall_cons_1 in Hfs as [[f Hf] Hfs]. cbn [call_ts_filters].
    unfold mbind, D_bind, M_bind, tsf, mbind, D_bind, M_bind, gets. rewrite Hf. cbn [of_option mret M_ret modify].
    unfold modify. rewrite IH by done. unfold ts_events. cbn. rewrite Hf, <- app_assoc. by destruct s.
Qed.

(** What the rest of [pid_filter_data] needs of the PID filter. *)
Definition has_buffer (s : swdmx_demux) (a : Z) : Prop :=
  ∃ pf b, pidfs s !! a = Some pf ∧ sec_buf pf = Some b.

Lemma has_buffer_at s a : dmx_ok s → has_buffer s a →
  ∃ pf x, buffer_at s a pf x ∧ filters_ok (secfs s) (pf_sec pf).
Proof.
  intros Hinv (pf & b & Ha & Hb). exists pf, (mk_asm b (sec_recv pf)). split; [|by eapply ok_sec_members].
  split; [done|]. split; [done|]. split; [done|]. pose proof (dk_buf _ _ _ Hinv a pf Ha) as H. unfold buf_ok in H. by rewrite Hb in H.
Qed.

Lemma fed_state_ok s a pf x x' t ev : dmx_ok s → buffer_at s a pf x → asm_ok x' → table_ok t →
  dmx_ok (fed_state s a pf x' t ev) ∧ has_buffer (fed_state s a pf x' t ev) a.
Proof.
  intros Hinv (Ha & _ & _ & _) Hx Ht. split.
  - by eapply dmx_ok_buf.
  - eexists _, (as_buf x'). split; [cbn; by rewrite lookup_insert_eq|done].
Qed.

(** Only section filters have been called since. *)
Definition is_sec_event (e : event) : Prop := match e with Ev_sec _ _ => True | Ev_ts _ _ => False end.

Definition sec_only (s s' : swdmx_demux) : Prop := ∃ evs, events s' = events s ++ evs ∧ Forall is_sec_event evs.

Lemma sec_only_refl s s' : events s' = events s → sec_only s s'.
Proof. intros H. exists []. by rewrite app_nil_r. Qed.

Lemma sec_only_trans s1 s2 s3 : sec_only s1 s2 → sec_only s2 s3 → sec_only s1 s3.
Proof.
  intros (e1 & H1 & F1) (e2 & H2 & F2). exists (e1 ++ e2). rewrite H2, H1, <- app_assoc. split; [done|].
  by apply Forall_app.
Qed.

Lemma dispatch_is_sec m fs sec recv : Forall is_sec_event (dispatch_events m fs sec recv).
Proof.
  induction fs as [|a fs IH]; cbn; [constructor|]. destruct (m !! a) as [f|]; [|constructor].
  destruct (_ && _); [constructor|]. apply Forall_app. split; [|done]. destruct (matches sec f); [|constructor].
  apply Forall_fmap. by apply Forall_forall.
Qed.

Lemma emitted_is_sec m fs ys : Forall is_sec_event (emitted m fs ys).
Proof.
  unfold emitted. induction ys as [|y ys IH]; cbn; [constructor|]. apply Forall_app. split; [apply dispatch_is_sec|done].
Qed.

Lemma fed_state_sec_only s a pf x t m fs ys : sec_only s (fed_state s a pf x t (emitted m fs ys)).
Proof. eexists. split; [reflexivity|apply emitted_is_sec]. Qed.

Lemma sec_loop_wp s a p : dmx_ok s → has_buffer s a → is_bytes p →
  wp False (sec_loop (S (length p)) a p) (fun _ s' => dmx_ok s' ∧ sec_only s s') (fun _ _ => False) s.
Proof.
  intros Hinv Hb Hp. destruct (has_buffer_at s a Hinv Hb) as (pf & x & Hat & Hf).
  destruct (sec_loop_ok (S (length p)) s a pf x p Hat Hf (dk_crc _ _ _ Hinv) Hp) as (t & Ht & Hok & Hl); [lia|].
  eapply wp_run; [exact Hl|]. split; [by eapply fed_state_ok|apply fed_state_sec_only].
Qed.

Lemma sec_data_wp s a p : dmx_ok s → has_buffer s a → is_bytes p → p ≠ [] →
  wp False (sec_data a p) (fun _ s' => dmx_ok s' ∧ has_buffer s' a ∧ sec_only s s') (fun _ _ => False) s.
Proof.
  intros Hinv Hb Hp Hne. destruct (has_buffer_at s a Hinv Hb) as (pf & x & Hat & Hf).
  destruct (sec_data_ok s a pf x p Hat Hf (dk_crc _ _ _ Hinv) Hp Hne) as (n & t & Hn & Ht & Hok & Hl).
  eapply wp_run; [exact Hl|]. destruct (fed_state_ok s a pf x (asm_bytes x (take (Z.to_nat n) p)).1 t
    (emitted (secfs s) (pf_sec pf) (asm_bytes x (take (Z.to_nat n) p)).2) Hinv Hat Hok Ht).
  split; [done|]. split; [done|apply fed_state_sec_only].
Qed.

Lemma reset_recv_wp s a (Q : unit → swdmx_demux → Prop) E : dmx_ok s → has_buffer s a →
  (∀ s', dmx_ok s' → has_buffer s' a → events s' = events s → Q tt s') → wp False (upd_pidf a (fun f => f <| sec_recv := 0 |>)) Q E s.
Proof.
  intros Hinv Hb HQ. destruct (has_buffer_at s a Hinv Hb) as (pf & x & (Ha & Hbuf & Hr & Hlen & Hby & _) & _).
  eapply wp_run; [by apply upd_pidf_ok|]. apply HQ.
  - replace (s <| pidfs := <[a := pf <| sec_recv := 0 |>]> (pidfs s) |>) with
      (s <| pidfs := <[a := pf <| sec_recv := 0 |>]> (pidfs s) |> <| crc_tab := crc_tab s |> <| events := events s |>)
      by (by destruct s).
    apply (dmx_ok_buf s a pf); try done; [|by apply (dk_crc _ _ _ Hinv)]. unfold buf_ok. cbn. rewrite Hbuf.
    split; [done|]. split; [done|]. split; [done|left; cbn; lia].
  - eexists _, (as_buf x). split; [cbn; by rewrite lookup_insert_eq|done].
  - done.
Qed.

Lemma section_payload_wp s a start p : dmx_ok s → has_buffer s a → is_bytes p →
  wp False (section_payload a start p) (fun _ s' => dmx_ok s' ∧ sec_only s s') (fun _ _ => False) s.
Proof.
  intros Hinv Hb Hp. unfold section_payload. wp_step.
  set (post := fun (r : option (list Z)) s' => dmx_ok s' ∧ has_buffer s' a ∧ sec_only s s' ∧
    match r with Some q => is_bytes q | None => True end).
  pose proof (sec_only_refl s s eq_refl) as Hrefl.
  apply wp_mono with (Q := post) (E := fun _ _ => False); [|intros [q|] s' (Hinv' & Hb' & Ho & Hq)|done].
  2: { eapply wp_mono; [by apply sec_loop_wp| |done]. intros [] s2 [H2 Ho2]. split; [done|]. by eapply sec_only_trans. }
  2: { wp_step. done. }
  wp_step; [|by wp_step]. wp_step.
  apply wp_mono with (Q := post) (E := fun _ _ => False); [|intros [q|] s' (Hinv' & Hb' & Ho & Hq)|done].
  - destruct p as [|ptr p]; [by wp_step|]. apply Forall_cons_1 in Hp as [Hptr Hp]. wp_step; [|by wp_step].
    wp_step; [by wp_step|].
    bprop. wp_step. destruct Hb as (pf & b & Ha & Hbuf).
    unfold pidf. wp_step. wp_step. rewrite Ha. cbn [of_option]. wp_step. wp_step.
    apply wp_mono with (Q := fun _ s' => dmx_ok s' ∧ has_buffer s' a ∧ sec_only s s') (E := fun _ _ => False); [| |done].
    + wp_step; [|split; [done|split; [by exists pf, b|done]]]. wp_step.
      eapply wp_mono; [apply sec_data_wp; [done|by exists pf, b|by apply Forall_take|]| |done].
      * intros Ht. apply (f_equal length) in Ht. rewrite length_take in Ht. cbn in Ht.
        match goal with H : truth ptr = true |- _ => unfold truth in H; apply negb_true_iff, Z.eqb_neq in H end.
        unfold zlen in *. lia.
      * intros r s' Hs'. by wp_step.
    + intros [] s' (Hinv' & Hb' & Ho). wp_step. split; [done|]. split; [done|]. split; [done|]. by apply Forall_drop.
  - wp_step. apply reset_recv_wp; [done..|]. intros s2 Hinv2 Hb2 He2. wp_step. split; [done|]. split; [done|]. split; [|done].
    eapply sec_only_trans; [exact Ho|by apply sec_only_refl].
  - by wp_step.
Qed.

(** The packets the parser hands out (see [ts_packet_ok]). *)
Definition in_buffer (buf : list Z) (k : swdmx_tspacket) : Prop :=
  ∀ off, payload k = Some off → 0 ≤ off ∧ 0 ≤ payload_len k ∧ off + payload_len k ≤ zlen buf.

Definition fresh_ok (fresh : list Z) : Prop := zlen fresh = SEC_SIZE ∧ is_bytes fresh.

(** The calls of the TS filters of the PID filter, then of section filters. *)
Definition packet_post (s : swdmx_demux) (fs : list Z) (k : swdmx_tspacket) (s' : swdmx_demux) : Prop :=
  dmx_ok s' ∧ ∃ evs, events s' = events s ++ ts_events (tsfs s) fs k ++ evs ∧ Forall is_sec_event evs.

Lemma pid_filter_data_wp s fresh a pf buf k : dmx_ok s → pidfs s !! a = Some pf → is_bytes buf → in_buffer buf k →
  fresh_ok fresh → wp False (pid_filter_data fresh a buf k) (fun _ => packet_post s (pf_ts pf) k) (fun _ _ => False) s.
Proof.
  intros Hinv Ha Hbuf Hk [Hf1 Hf2]. unfold pid_filter_data. wp_step. unfold pidf at 1. wp_step. wp_step. rewrite Ha.
  cbn [of_option]. wp_step. wp_step. eapply wp_run; [apply call_ts_filters_ok; by eapply ok_ts_members|].
  assert (dmx_ok (s <| events := events s ++ ts_events (tsfs s) (pf_ts pf) k |>)) as Hinv1.
  { destruct Hinv as [I1 I2 I3 I4 I5 I6 I7 I8]. by split. }
  set (s1 := set_field _ _ s) in *. assert (pidfs s1 !! a = Some pf) as Ha1 by done.
  assert (∀ s', dmx_ok s' → sec_only s1 s' → packet_post s (pf_ts pf) k s') as Hpost.
  { intros s' H1 (evs & He & Hs). split; [done|]. exists evs. split; [|done]. rewrite He. cbn. by rewrite app_assoc. }
  pose proof (Hpost s1 Hinv1 (sec_only_refl _ _ eq_refl)) as Hsame. clearbody s1.
  wp_step; [by wp_step|]. destruct (payload k) as [off|] eqn:Hoff; [|by wp_step].
  wp_step; [by wp_step|]. wp_step.
  apply wp_mono with (Q := fun _ s' => dmx_ok s' ∧ has_buffer s' a ∧ events s' = events s1) (E := fun _ _ => False); [| |done].
  - wp_step.
    + match goal with H : bool_decide _ = true |- _ => apply bool_decide_eq_true in H as Hnone end.
      eapply wp_run; [by apply upd_pidf_ok|]. split; [|split; [|done]].
      * replace (s1 <| pidfs := <[a := pf <| sec_buf := Some fresh |>]> (pidfs s1) |>) with
          (s1 <| pidfs := <[a := pf <| sec_buf := Some fresh |>]> (pidfs s1) |> <| crc_tab := crc_tab s1 |> <| events := events s1 |>)
          by (by destruct s1).
        apply (dmx_ok_buf s1 a pf); try done; [|by apply (dk_crc _ _ _ Hinv1)].
        pose proof (dk_buf _ _ _ Hinv1 a pf Ha1) as Hb. unfold buf_ok in *. cbn. rewrite Hnone in Hb.
        split; [done|]. split; [done|]. cbn. rewrite Hb. split; [done|left; lia].
      * eexists _, fresh. split; [cbn; by rewrite lookup_insert_eq|done].
    + match goal with H : bool_decide _ = false |- _ => apply bool_decide_eq_false in H as Hsome end.
      split; [done|]. split; [|done]. destruct (sec_buf pf) as [b|] eqn:Hb; [|done]. by exists pf, b.
  - intros [] s2 (Hinv2 & Hb2 & He2). wp_step. destruct (Hk off Hoff) as (K1 & K2 & K3). rewrite load_Some by done. cbn [of_option].
    wp_step. eapply wp_mono; [apply section_payload_wp; [done|done|by apply Forall_take, Forall_drop]| |done].
    intros [] s3 [H3 H4]. apply Hpost; [done|]. eapply sec_only_trans; [by apply sec_only_refl|done].
Qed.

(** The PID filter a packet goes to: the first of its PID or of PID 0x2000. *)
Fixpoint pick (m : gmap Z swdmx_pid_filter) (l : list Z) (i : Z) : option swdmx_pid_filter :=
  match l with
  | [] => None
  | a :: l => match m !! a with
              | Some f => if (i =? pf_pid f) || (pf_pid f =? 8192) then Some f else pick m l i
              | None => None
              end
  end.

Lemma packet_wp s fresh buf k : dmx_ok s → is_bytes buf → in_buffer buf k → fresh_ok fresh →
  wp False (swdmx_demux_ts_packet_cb fresh buf k)
    (fun _ => packet_post s (match pick (pidfs s) (pid_filter_list s) (pid k) with Some f => pf_ts f | None => [] end) k)
    (fun _ _ => False) s.
Proof.
  intros Hinv Hbuf Hk Hf. unfold swdmx_demux_ts_packet_cb. wp_step. wp_step.
  assert (Forall (fun a => is_Some (pidfs s !! a)) (pid_filter_list s)) as Hl.
  { apply Forall_forall. intros a Ha. apply (core_dom _ _ _ _ (dk_core _ _ _ Hinv)) in Ha.
    by rewrite lookup_fmap, fmap_is_Some in Ha. }
  induction Hl as [|a l [pf Ha] Hl IH]; cbn [route pick].
  - wp_step. split; [done|]. exists []. by rewrite app_nil_r.
  - wp_step. unfold pidf at 1. wp_step. wp_step. rewrite Ha. cbn [of_option]. wp_step.
    destruct ((pid k =? pf_pid pf) || (pf_pid pf =? 8192)); [|exact IH]. by apply pid_filter_data_wp.
Qed.

Lemma packet_ok s fresh buf k : dmx_ok s → is_bytes buf → in_buffer buf k → fresh_ok fresh →
  ok_step (swdmx_demux_ts_packet_cb fresh buf k) s.
Proof.
  intros Hinv Hbuf Hk Hf. eapply wp_mono; [by apply packet_wp| |done]. intros [] s' Hs. exact (proj1 Hs).
Qed.

(** ** Histories *)

(** A call of the interface, with what the allocations give. *)
Inductive demux_op :=
| Op_alloc_ts (addr junk : Z)
| Op_ts_set_params (addr a pid : Z)
| Op_ts_add_cb (a : Z) (c : swdmx_cb_entry)
| Op_ts_remove_cb (a : Z) (c : swdmx_cb_entry)
| Op_ts_enable (addr a : Z)
| Op_ts_disable (a : Z)
| Op_ts_free (a : Z)
| Op_alloc_sec (addr : Z) (junk : swdmx_secfilter)
| Op_sec_set_params (addr a : Z) (p : swdmx_secfilter_params)
| Op_sec_add_cb (a : Z) (c : swdmx_cb_entry)
| Op_sec_remove_cb (a : Z) (c : swdmx_cb_entry)
| Op_sec_enable (addr a : Z)
| Op_sec_disable (a : Z)
| Op_sec_free (a : Z)
| Op_packet (fresh buf : list Z) (k : swdmx_tspacket).

Definition unit_of {A} (m : D A) : D unit := m;; mret tt.

Definition run_op (o : demux_op) : D unit :=
  match o with
  | Op_alloc_ts addr junk => unit_of (swdmx_demux_alloc_ts_filter addr junk)
  | Op_ts_set_params addr a pid => unit_of (swdmx_ts_filter_set_params addr a pid)
  | Op_ts_add_cb a c => unit_of (swdmx_ts_filter_add_ts_packet_cb a c)
  | Op_ts_remove_cb a c => unit_of (swdmx_ts_filter_remove_ts_packet_cb a c)
  | Op_ts_enable addr a => unit_of (swdmx_ts_filter_enable addr a)
  | Op_ts_disable a => unit_of (swdmx_ts_filter_disable a)
  | Op_ts_free a => swdmx_ts_filter_free a
  | Op_alloc_sec addr junk => unit_of (swdmx_demux_alloc_sec_filter addr junk)
  | Op_sec_set_params addr a p => unit_of (swdmx_sec_filter_set_params addr a p)
  | Op_sec_add_cb a c => unit_of (swdmx_sec_filter_add_section_cb a c)
  | Op_sec_remove_cb a c => unit_of (swdmx_sec_filter_remove_section_cb a c)
  | Op_sec_enable addr a => unit_of (swdmx_sec_filter_enable addr a)
  | Op_sec_disable a => unit_of (swdmx_sec_filter_disable a)
  | Op_sec_free a => swdmx_sec_filter_free a
  | Op_packet fresh buf k => swdmx_demux_ts_packet_cb fresh buf k
  end.

(** Pointers are to filters that exist, new memory is not in use, arrays have
    their C size, packets lie in their buffer. *)
Definition op_valid (s : swdmx_demux) (o : demux_op) : Prop :=
  match o with
  | Op_alloc_ts addr _ => tsfs s !! addr = None
  | Op_ts_set_params addr a _ | Op_ts_enable addr a => is_Some (tsfs s !! a) ∧ pidfs s !! addr = None
  | Op_ts_add_cb a _ | Op_ts_remove_cb a _ | Op_ts_disable a | Op_ts_free a => is_Some (tsfs s !! a)
  | Op_alloc_sec addr junk => secfs s !! addr = None ∧ arrays_ok junk
  | Op_sec_set_params addr a p => is_Some (secfs s !! a) ∧ pidfs s !! addr = None ∧ params_ok p
  | Op_sec_enable addr a => is_Some (secfs s !! a) ∧ pidfs s !! addr = None
  | Op_sec_add_cb a _ | Op_sec_remove_cb a _ | Op_sec_disable a | Op_sec_free a => is_Some (secfs s !! a)
  | Op_packet fresh buf k => fresh_ok fresh ∧ is_bytes buf ∧ in_buffer buf k
  end.

(** The states a demux can be in. *)
Inductive reachable : swdmx_demux → Prop :=
| reach_new tab : table_ok tab → reachable (swdmx_demux_new tab)
| reach_op s o s' : reachable s → op_valid s o → run_op o s = Ok tt s' → reachable s'.

Lemma new_ok tab : table_ok tab → dmx_ok (swdmx_demux_new tab).
Proof.
  intros Ht. split; cbn; try done.
  - rewrite !fmap_empty. split.
    + constructor.
    + intros a. rewrite elem_of_nil. split; [done|]. by intros [].
    + done.
    + done.
    + by split.
    + by split.
  - split; [constructor|]. intros a. rewrite elem_of_nil. split; [done|by intros []].
  - split; [constructor|]. intros a. rewrite elem_of_nil. split; [done|by intros []].
Qed.

Lemma unit_of_wp {A} (m : D A) s : ok_step m s → wp False (unit_of m) (fun _ => dmx_ok) (fun _ _ => False) s.
Proof. intros H. unfold unit_of. wp_step. eapply wp_mono; [exact H| |done]. intros x s' Hs. by wp_step. Qed.

Lemma run_op_ok s o : dmx_ok s → op_valid s o → wp False (run_op o) (fun _ => dmx_ok) (fun _ _ => False) s.
Proof.
  intros Hinv Hv. destruct o; cbn [run_op op_valid] in *.
  - apply unit_of_wp. by apply alloc_ts_ok.
  - apply unit_of_wp. destruct Hv. by apply ts_set_params_ok.
  - apply unit_of_wp. by apply ts_add_cb_ok.
  - apply unit_of_wp. by apply ts_remove_cb_ok.
  - apply unit_of_wp. destruct Hv. by apply ts_enable_ok.
  - apply unit_of_wp. by apply ts_disable_ok.
  - destruct Hv as [f Hf]. apply (ts_free_wp s a f); [done..|]. by intros s' H _ _.
  - apply unit_of_wp. destruct Hv. by apply alloc_sec_ok.
  - apply unit_of_wp. destruct Hv as (? & ? & ?). by apply sec_set_params_ok.
  - apply unit_of_wp. by apply sec_add_cb_ok.
  - apply unit_of_wp. by apply sec_remove_cb_ok.
  - apply unit_of_wp. destruct Hv. by apply sec_enable_ok.
  - apply unit_of_wp. by apply sec_disable_ok.
  - destruct Hv as [f Hf]. apply (sec_free_wp s a f); [done..|]. by intros s' H _ _.
  - destruct Hv as (? & ? & ?). by apply packet_ok.
Qed.

Lemma reachable_ok s : reachable s → dmx_ok s.
Proof.
  induction 1 as [tab Ht|s o s' _ IH Hv Hr]; [by apply new_ok|].
  pose proof (run_op_ok s o IH Hv) as H. unfold wp in H. by rewrite Hr in H.
Qed.

(** C2: a demux is memory safe and keeps its structure under every sequence
    of calls of its interface: in a reachable state the filters and the PID
    filters are linked consistently ([dmx_ok]: a filter is in the list of
    exactly the PID filter it points to, exactly while it runs; PID filters
    exist only as long as they have a filter, one per PID; section buffers
    hold no more than 4098 bytes), and every further call with valid pointers
    runs to its end without reaching undefined behaviour. *)
Theorem demux_reachable_safe s :
  reachable s → dmx_ok s ∧ ∀ o, op_valid s o → ∃ s', run_op o s = Ok tt s' ∧ reachable s'.
Proof.
  intros Hs. pose proof (reachable_ok s Hs) as Hok. split; [done|]. intros o Hv.
  pose proof (run_op_ok s o Hok Hv) as H. unfold wp in H. destruct (run_op o s) as [[] s'| |] eqn:Hr; [|done..].
  exists s'. split; [done|]. by eapply reach_op.
Qed.

(** The freeing of all filters. *)
Lemma unlink_head a l : NoDup (a :: l) → unlink a (a :: l) = l.
Proof.
  intros [Ha Hnd]%NoDup_cons. unfold unlink. rewrite filter_cons_False by tauto.
  induction l as [|b l IH]; [done|]. rewrite filter_cons_True by set_solver. f_equal.
  apply NoDup_cons in Hnd as [_ Hnd]. apply IH; [set_solver|done].
Qed.

Lemma free_ts_all n s (Q : unit → swdmx_demux → Prop) E : dmx_ok s → length (ts_filter_list s) = n →
  (∀ s', dmx_ok s' → ts_filter_list s' = [] → Q tt s') →
  wp False (free_all n ts_filter_list swdmx_ts_filter_free) Q E s.
Proof.
  revert s. induction n as [|n IH]; intros s Hinv Hn HQ; cbn [free_all]; wp_step; wp_step;
    destruct (ts_filter_list s) as [|a l] eqn:Hl; try done.
  - wp_step. by apply HQ.
  - wp_step. destruct (dk_ts_list _ _ _ Hinv) as [Hnd Hdom]. rewrite Hl in Hnd, Hdom.
    destruct (proj1 (Hdom a)) as [f Hf]; [left|].
    apply (ts_free_wp s a f); [done..|]. intros s' Hinv' Hl' _. rewrite Hl, (unlink_head _ _ Hnd) in Hl'.
    apply IH; [done| |done]. rewrite Hl'. cbn in Hn. lia.
Qed.

Lemma free_sec_all n s (Q : unit → swdmx_demux → Prop) E : dmx_ok s → length (sec_filter_list s) = n →
  ts_filter_list s = [] → (∀ s', dmx_ok s' → ts_filter_list s' = [] → sec_filter_list s' = [] → Q tt s') →
  wp False (free_all n sec_filter_list swdmx_sec_filter_free) Q E s.
Proof.
  revert s. induction n as [|n IH]; intros s Hinv Hn Hts HQ; cbn [free_all]; wp_step; wp_step;
    destruct (sec_filter_list s) as [|a l] eqn:Hl; try done.
  - wp_step. by apply HQ.
  - wp_step. destruct (dk_sec_list _ _ _ Hinv) as [Hnd Hdom]. rewrite Hl in Hnd, Hdom.
    destruct (proj1 (Hdom a)) as [f Hf]; [left|].
    apply (sec_free_wp s a f); [done..|]. intros s' Hinv' Hl' Ht'. rewrite Hl, (unlink_head _ _ Hnd) in Hl'.
    apply IH; [done| |congruence|done]. rewrite Hl'. cbn in Hn. lia.
Qed.

(** Without filters there is no PID filter. *)
Lemma no_filters_no_pid s : dmx_ok s → ts_filter_list s = [] → sec_filter_list s = [] →
  pid_filter_list s = [] ∧ pidfs s = ∅ ∧ tsfs s = ∅ ∧ secfs s = ∅.
Proof.
  intros Hinv Ht Hs. destruct (dk_ts_list _ _ _ Hinv) as [_ Hdt]. destruct (dk_sec_list _ _ _ Hinv) as [_ Hds].
  rewrite Ht in Hdt. rewrite Hs in Hds.
  assert (tsfs s = ∅) as Et.
  { apply map_eq. intros a. rewrite lookup_empty. destruct (tsfs s !! a) eqn:Ha; [|done].
    exfalso. eapply (elem_of_nil (A := Z)), Hdt. by eexists. }
  assert (secfs s = ∅) as Es.
  { apply map_eq. intros a. rewrite lookup_empty. destruct (secfs s !! a) eqn:Ha; [|done].
    exfalso. eapply (elem_of_nil (A := Z)), Hds. by eexists. }
  pose proof (dk_core _ _ _ Hinv) as Hc.
  assert (pidfs s = ∅) as Ep.
  { apply map_eq. intros a. rewrite lookup_empty. destruct (pidfs s !! a) as [pf|] eqn:Ha; [|done]. exfalso.
    assert ((pv <$> pidfs s) !! a = Some (pv pf)) as Hp by (by rewrite lookup_fmap, Ha).
    destruct (core_used _ _ _ _ Hc _ _ Hp) as [Hu|Hu]; cbn in Hu.
    - destruct (pf_ts pf) as [|b l] eqn:Hb; [done|].
      destruct (side_from _ _ _ (core_ts _ _ _ _ Hc) _ _ b Hp) as (? & ? & H); [cbn; rewrite Hb; left|].
      by rewrite Et, fmap_empty, lookup_empty in H.
    - destruct (pf_sec pf) as [|b l] eqn:Hb; [done|].
      destruct (side_from _ _ _ (core_sec _ _ _ _ Hc) _ _ b Hp) as (? & ? & H); [cbn; rewrite Hb; left|].
      by rewrite Es, fmap_empty, lookup_empty in H. }
  split; [|done]. destruct (pid_filter_list s) as [|a l] eqn:Hl; [done|]. exfalso.
  pose proof (core_dom _ _ _ _ Hc a) as Hd. rewrite Ep, fmap_empty, lookup_empty in Hd.
  destruct (proj1 Hd) as [? ?]; [left|done].
Qed.

(** C36: [swdmx_demux_free] terminates in every reachable state, whatever is
    running, and frees every filter and every PID filter. *)
Theorem demux_free_all s :
  reachable s →
  ∃ s', swdmx_demux_free s = Ok tt s' ∧ ts_filter_list s' = [] ∧ sec_filter_list s' = [] ∧ pid_filter_list s' = [] ∧
    tsfs s' = ∅ ∧ secfs s' = ∅ ∧ pidfs s' = ∅.
Proof.
  intros Hs%reachable_ok.
  assert (wp False swdmx_demux_free (fun _ s' => ts_filter_list s' = [] ∧ sec_filter_list s' = [] ∧ pid_filter_list s' = [] ∧
    tsfs s' = ∅ ∧ secfs s' = ∅ ∧ pidfs s' = ∅) (fun _ _ => False) s) as Hwp.
  { unfold swdmx_demux_free. wp_step. wp_step. wp_step. apply free_ts_all; [done..|]. intros s1 H1 Ht1.
    wp_step. wp_step. wp_step. apply free_sec_all; [done..|]. intros s2 H2 Ht2 Hs2. wp_step. wp_step.
    destruct (no_filters_no_pid s2 H2 Ht2 Hs2) as (Hl & Hp & Ht & Hsc). rewrite Hl. cbn [length free_all]. wp_step. wp_step.
    rewrite Hl. by wp_step. }
  unfold wp in Hwp. destruct (swdmx_demux_free s) as [[] s'| |]; [|done..]. by exists s'.
Qed.

(** ** Routing *)

(** Without a filter on the whole stream there is no PID filter for it. *)
Lemma no_whole_stream s : dmx_ok s →
  (∀ a f, tsfs s !! a = Some f → tf_pid f ≠ 8192) → (∀ a f, secfs s !! a = Some f → sp_pid (sf_params f) ≠ 8192) →
  ∀ a f, pidfs s !! a = Some f → pf_pid f ≠ 8192.
Proof.
  intros Hs Hts Hsec a f Ha E. pose proof (dk_core _ _ _ Hs) as Hc.
  assert ((pv <$> pidfs s) !! a = Some (pv f)) as Hp by (by rewrite lookup_fmap, Ha).
  destruct (core_used _ _ _ _ Hc _ _ Hp) as [Hu|Hu]; cbn in Hu.
  - destruct (pf_ts f) as [|b l] eqn:Hl; [done|].
    destruct (side_from _ _ _ (core_ts _ _ _ _ Hc) _ _ b Hp) as (st & i & H); [cbn; rewrite Hl; left|].
    destruct (side_to _ _ _ (core_ts _ _ _ _ Hc) _ _ _ _ H) as (_ & x & Hx & Hi & _).
    rewrite lookup_fmap in H. destruct (tsfs s !! b) as [g|] eqn:Hg; [|done]. injection H as _ _ Hgi.
    apply (Hts b g Hg). rewrite Hgi, <- Hi. replace x with (pv f) by congruence. done.
  - destruct (pf_sec f) as [|b l] eqn:Hl; [done|].
    destruct (side_from _ _ _ (core_sec _ _ _ _ Hc) _ _ b Hp) as (st & i & H); [cbn; rewrite Hl; left|].
    destruct (side_to _ _ _ (core_sec _ _ _ _ Hc) _ _ _ _ H) as (_ & x & Hx & Hi & _).
    rewrite lookup_fmap in H. destruct (secfs s !! b) as [g|] eqn:Hg; [|done]. injection H as _ _ Hgi.
    apply (Hsec b g Hg). rewrite Hgi, <- Hi. replace x with (pv f) by congruence. done.
Qed.

Lemma pick_spec m l p :
  (∀ a, a ∈ l → is_Some (m !! a)) → (∀ a f, m !! a = Some f → pf_pid f ≠ 8192) →
  match pick m l p with
  | Some f => ∃ a, m !! a = Some f ∧ pf_pid f = p
  | None => ∀ a f, a ∈ l → m !! a = Some f → pf_pid f ≠ p
  end.
Proof.
  intros Hl Hno. induction l as [|a l IH]; cbn [pick]; [intros a f Ha; by apply elem_of_nil in Ha|].
  destruct (Hl a) as [g Hg]; [left|]. rewrite Hg, (proj2 (Z.eqb_neq (pf_pid g) 8192)) by (by eapply Hno).
  rewrite orb_false_r. destruct (Z.eqb_spec p (pf_pid g)); [by exists a|].
  specialize (IH (λ b Hin, Hl b (list_elem_of_further _ _ _ Hin))). destruct (pick m l p); [done|].
  intros b h [->|Hin]%elem_of_cons Hh; [congruence|by eapply IH].
Qed.

(** A running filter and the PID filter it is in. *)
Lemma running_in s b g : dmx_ok s → tsfs s !! b = Some g → tf_state g = SWDMX_FILTER_STATE_RUN →
  ∃ p h, pidfs s !! p = Some h ∧ pf_pid h = tf_pid g ∧ b ∈ pf_ts h.
Proof.
  intros Hs Hg Hr. destruct (running_linked s b g Hs Hg Hr) as [p Hgp].
  assert ((tv <$> tsfs s) !! b = Some (mk_fv (tf_state g) (Some p) (tf_pid g))) as Hv
    by (rewrite lookup_fmap, Hg; cbn; unfold tv; by rewrite Hgp).
  destruct (side_to _ _ _ (core_ts _ _ _ _ (dk_core _ _ _ Hs)) _ _ _ _ Hv) as (_ & x & Hx & Hxi & Hin).
  rewrite lookup_fmap in Hx. destruct (pidfs s !! p) as [h|] eqn:Hp; [|done]. injection Hx as <-.
  by exists p, h.
Qed.

(** The filters of a PID filter are the running filters of its PID. *)
Lemma pf_ts_spec s a f : dmx_ok s → pidfs s !! a = Some f →
  NoDup (pf_ts f) ∧
  ∀ b, b ∈ pf_ts f ↔ ∃ g, tsfs s !! b = Some g ∧ tf_state g = SWDMX_FILTER_STATE_RUN ∧ tf_pid g = pf_pid f.
Proof.
  intros Hs Ha. pose proof (dk_core _ _ _ Hs) as Hc.
  assert ((pv <$> pidfs s) !! a = Some (pv f)) as Hp by (by rewrite lookup_fmap, Ha).
  split; [exact (side_nodup _ _ _ (core_ts _ _ _ _ Hc) _ _ Hp)|]. intros b. split.
  - intros Hin. destruct (side_from _ _ _ (core_ts _ _ _ _ Hc) _ _ b Hp) as (st & i & H); [done|].
    destruct (side_to _ _ _ (core_ts _ _ _ _ Hc) _ _ _ _ H) as (-> & x & Hx & Hxi & _).
    rewrite lookup_fmap in H. destruct (tsfs s !! b) as [g|] eqn:Hg; [|done]. injection H as H1 _ H2. exists g.
    split; [done|]. split; [done|]. rewrite H2, <- Hxi. replace x with (pv f) by congruence. done.
  - intros (g & Hg & Hr & Hgi). destruct (running_in s b g Hs Hg Hr) as (p & h & Hh & Hhi & Hin).
    assert ((pv <$> pidfs s) !! p = Some (pv h)) as Hph by (by rewrite lookup_fmap, Hh).
    assert (p = a) as -> by (eapply (core_pid _ _ _ _ Hc); [exact Hph|exact Hp|]; cbn; congruence).
    by replace f with h by congruence.
Qed.

(** routing: in a reachable state without a filter on the whole stream
    (PID 0x2000), a packet is handed to the callbacks of exactly the running
    TS filters of its PID, once each, and then only section callbacks are
    called. *)
Theorem demux_routes_packet s fresh buf k :
  reachable s → fresh_ok fresh → is_bytes buf → in_buffer buf k →
  (∀ a f, tsfs s !! a = Some f → tf_pid f ≠ 8192) → (∀ a f, secfs s !! a = Some f → sp_pid (sf_params f) ≠ 8192) →
  ∃ s' fs evs, swdmx_demux_ts_packet_cb fresh buf k s = Ok tt s' ∧
    events s' = events s ++ ts_events (tsfs s) fs k ++ evs ∧ Forall is_sec_event evs ∧
    NoDup fs ∧
    ∀ a, a ∈ fs ↔ ∃ f, tsfs s !! a = Some f ∧ tf_state f = SWDMX_FILTER_STATE_RUN ∧ tf_pid f = pid k.
Proof.
  intros Hs%reachable_ok Hf Hb Hk Hts Hsec. pose proof (packet_wp s fresh buf k Hs Hb Hk Hf) as Hwp.
  unfold wp in Hwp. destruct (swdmx_demux_ts_packet_cb fresh buf k s) as [[] s'| |]; [|done..].
  destruct Hwp as (_ & evs & He & Hev). pose proof (dk_core _ _ _ Hs) as Hc.
  eexists s', _, evs. split; [done|]. split; [exact He|]. split; [done|].
  assert (∀ a, a ∈ pid_filter_list s ↔ is_Some (pidfs s !! a)) as Hdom.
  { intros a. rewrite (core_dom _ _ _ _ Hc). by rewrite lookup_fmap, fmap_is_Some. }
  pose proof (pick_spec (pidfs s) (pid_filter_list s) (pid k) (λ a, proj1 (Hdom a)) (no_whole_stream s Hs Hts Hsec)) as Hpick.
  destruct (pick (pidfs s) (pid_filter_list s) (pid k)) as [f|].
  - destruct Hpick as (a & Ha & <-). by apply (pf_ts_spec s a).
  - split; [constructor|]. intros b. rewrite elem_of_nil. split; [done|]. intros (g & Hg & Hr & Hgi).
    destruct (running_in s b g Hs Hg Hr) as (p & h & Hh & Hhi & _).
    apply (Hpick p h); [apply Hdom; by eexists|done|congruence].
Qed.

(** A demux in use: a TS filter and a section filter of PID 17 run. *)
Definition init_filter : swdmx_secfilter :=
  mk_secfilter SWDMX_FILTER_STATE_INIT None sample_params (replicate 18 0) (replicate 18 0) (replicate 18 0) [].

Definition setup : list demux_op :=
  [Op_alloc_ts 1 0; Op_ts_set_params 100 1 17; Op_ts_add_cb 1 (mk_cb 5 6); Op_ts_enable 100 1;
   Op_alloc_sec 2 init_filter; Op_sec_set_params 101 2 sample_params; Op_sec_enable 101 2].

Definition next (s : swdmx_demux) (o : demux_op) : swdmx_demux :=
  match run_op o s with Ok _ s' => s' | _ => s end.

Definition in_use : swdmx_demux := fold_left next setup (swdmx_demux_new crc32_table).

Lemma next_reachable s o : reachable s → op_valid s o → reachable (next s o).
Proof.
  intros Hs Hv. unfold next. destruct (run_op o s) as [[] s'| |] eqn:E; [|done..]. by eapply reach_op.
Qed.

Lemma sample_params_ok : params_ok sample_params.
Proof. repeat split; repeat constructor; lia. Qed.

Lemma init_filter_ok : arrays_ok init_filter.
Proof. repeat split; repeat constructor; lia. Qed.

Ltac is_some_vm := vm_compute; eexists; reflexivity.

Lemma in_use_reachable : reachable in_use.
Proof.
  unfold in_use, setup. cbn [fold_left].
  apply next_reachable; [apply next_reachable; [apply next_reachable; [apply next_reachable; [apply next_reachable;
    [apply next_reachable; [apply next_reachable; [apply reach_new; by left|]|]|]|]|]|]|]; cbn [op_valid].
  - by vm_compute.
  - split; [is_some_vm|by vm_compute].
  - is_some_vm.
  - split; [is_some_vm|by vm_compute].
  - split; [by vm_compute|apply init_filter_ok].
  - split; [is_some_vm|]. split; [by vm_compute|apply sample_params_ok].
  - split; [is_some_vm|by vm_compute].
Qed.

Lemma demux_reachable_safe_witness :
  dmx_ok in_use ∧ ∀ o, op_valid in_use o → ∃ s', run_op o in_use = Ok tt s' ∧ reachable s'.
Proof. apply (demux_reachable_safe in_use). apply in_use_reachable. Defined.

Lemma demux_free_all_witness :
  ∃ s', swdmx_demux_free in_use = Ok tt s' ∧ ts_filter_list s' = [] ∧ sec_filter_list s' = [] ∧ pid_filter_list s' = [] ∧
    tsfs s' = ∅ ∧ secfs s' = ∅ ∧ pidfs s' = ∅.
Proof. apply (demux_free_all in_use). apply in_use_reachable. Defined.

(** A packet of PID 17 with a section, and memory for the section buffer. *)
Definition sample_buf : list Z := [71; 64; 17; 16; 0] ++ sample_section.

Definition sample_packet : swdmx_tspacket := mk_tspkt 17 1 0 0 0 0 0 188 None 0 (Some 4) 17.

Lemma in_use_pids :
  (∀ a f, tsfs in_use !! a = Some f → tf_pid f ≠ 8192) ∧ (∀ a f, secfs in_use !! a = Some f → sp_pid (sf_params f) ≠ 8192).
Proof.
  assert (map_Forall (λ _ f, tf_pid f ≠ 8192) (tsfs in_use) ∧
    map_Forall (λ _ f, sp_pid (sf_params f) ≠ 8192) (secfs in_use)) as [H1 H2].
  { split; apply (bool_decide_unpack _); vm_compute; exact I. }
  split; [exact H1|exact H2].
Qed.

Lemma sample_buf_ok : is_bytes sample_buf ∧ in_buffer sample_buf sample_packet ∧ fresh_ok (replicate 4099 0).
Proof.
  split; [repeat constructor; lia|]. split; [|split; [done|apply Forall_replicate; lia]].
  intros off [= <-]. split; [done|]. split; [done|]. by vm_compute.
Qed.

Lemma demux_routes_packet_witness :
  ∃ s' fs evs, swdmx_demux_ts_packet_cb (replicate 4099 0) sample_buf sample_packet in_use = Ok tt s' ∧
    events s' = events in_use ++ ts_events (tsfs in_use) fs sample_packet ++ evs ∧ Forall is_sec_event evs ∧
    NoDup fs ∧
    ∀ a, a ∈ fs ↔ ∃ f, tsfs in_use !! a = Some f ∧ tf_state f = SWDMX_FILTER_STATE_RUN ∧ tf_pid f = pid sample_packet.
Proof.
  apply (demux_routes_packet in_use (replicate 4099 0) sample_buf sample_packet in_use_reachable).
  - apply sample_buf_ok.
  - apply sample_buf_ok.
  - apply sample_buf_ok.
  - apply in_use_pids.
  - apply in_use_pids.
Defined.
