(* ===== verification/AesFips.v ===== *)
(** AES as FIPS-197 defines it: the field GF(2^8), the S-box, the steps of a
    round, the key expansion, the cipher and the inverse cipher, on blocks of
    16 bytes (byte r of column c at 4 c + r), and that the inverse cipher
    inverts the cipher.  This is the reference for
    src/drivers/stream_input/t5d_demux/sw_demux/aes_core.c (AesOk.v); nothing
    here is code of the repository. *)

From Stdlib Require Import ZArith Lia Bool Btauto.
From stdpp Require Import base list numbers.
From S2P Require Import Prelude.

#[local] Open Scope Z_scope.

(** ** The field *)

(** Multiplication by x modulo x^8 + x^4 + x^3 + x + 1. *)
Definition xtime (b : Z) : Z :=
  Z.lxor (Z.land (Z.shiftl b 1) 0xff) (if Z.testbit b 7 then 0x1b else 0).

Fixpoint gmul_bits (n : nat) (a b : Z) : Z :=
  match n with
  | O => 0
  | S n => Z.lxor (if Z.odd a then b else 0) (gmul_bits n (Z.div2 a) (xtime b))
  end.

Definition gmul (a b : Z) : Z := gmul_bits 8 a b.

(** b^254, the inverse of b (and 0 for 0). *)
Definition ginv (b : Z) : Z :=
  let b2 := gmul b b in let b4 := gmul b2 b2 in let b8 := gmul b4 b4 in let b16 := gmul b8 b8 in
  let b32 := gmul b16 b16 in let b64 := gmul b32 b32 in let b128 := gmul b64 b64 in
  gmul b128 (gmul b64 (gmul b32 (gmul b16 (gmul b8 (gmul b4 b2))))).

Definition rotl8 (b n : Z) : Z := Z.lor (Z.land (Z.shiftl b n) 0xff) (Z.shiftr b (8 - n)).

Definition sbox (b : Z) : Z :=
  let i := ginv b in
  Z.lxor i (Z.lxor (rotl8 i 1) (Z.lxor (rotl8 i 2) (Z.lxor (rotl8 i 3) (Z.lxor (rotl8 i 4) 0x63)))).

Definition inv_sbox (b : Z) : Z :=
  ginv (Z.lxor (rotl8 b 1) (Z.lxor (rotl8 b 3) (Z.lxor (rotl8 b 6) 0x05))).

(** ** Rounds *)

Definition sub_bytes (s : list Z) : list Z := sbox <$> s.

Definition inv_sub_bytes (s : list Z) : list Z := inv_sbox <$> s.

(** Row r moves by r columns. *)
Definition shift_rows (s : list Z) : list Z :=
  (fun i => tab s (4 * ((i / 4 + i mod 4) mod 4) + i mod 4)) <$> seqZ 0 16.

Definition inv_shift_rows (s : list Z) : list Z :=
  (fun i => tab s (4 * ((i / 4 - i mod 4) mod 4) + i mod 4)) <$> seqZ 0 16.

(** A column times the circulant matrix of (m0, m1, m2, m3). *)
Definition mul_column (m0 m1 m2 m3 a b c d : Z) : list Z :=
  let row x y z w := Z.lxor (Z.lxor (Z.lxor (gmul x a) (gmul y b)) (gmul z c)) (gmul w d) in
  [row m0 m1 m2 m3; row m3 m0 m1 m2; row m2 m3 m0 m1; row m1 m2 m3 m0].

Fixpoint mul_columns (m0 m1 m2 m3 : Z) (s : list Z) : list Z :=
  match s with
  | a :: b :: c :: d :: s => mul_column m0 m1 m2 m3 a b c d ++ mul_columns m0 m1 m2 m3 s
  | _ => []
  end.

Definition mix_columns : list Z → list Z := mul_columns 0x02 0x03 0x01 0x01.

Definition inv_mix_columns : list Z → list Z := mul_columns 0x0e 0x0b 0x0d 0x09.

Definition add_round_key (s k : list Z) : list Z := zip_with Z.lxor s k.

(** Rounds [k] to [k + n - 1] of a round function. *)
Fixpoint rounds_from (F : Z → list Z → list Z) (k : Z) (n : nat) (s : list Z) : list Z :=
  match n with
  | O => s
  | S n => rounds_from F (k + 1) n (F k s)
  end.

(** [w i] is round key [i]. *)
Definition cipher (Nr : Z) (w : Z → list Z) (x : list Z) : list Z :=
  let s := add_round_key x (w 0) in
  let s := rounds_from (fun i s => add_round_key (mix_columns (shift_rows (sub_bytes s))) (w i))
             1 (Z.to_nat (Nr - 1)) s in
  add_round_key (shift_rows (sub_bytes s)) (w Nr).

Definition inv_cipher (Nr : Z) (w : Z → list Z) (x : list Z) : list Z :=
  let s := add_round_key x (w Nr) in
  let s := rounds_from
             (fun i s => inv_mix_columns (add_round_key (inv_sub_bytes (inv_shift_rows s)) (w (Nr - i))))
             1 (Z.to_nat (Nr - 1)) s in
  add_round_key (inv_sub_bytes (inv_shift_rows s)) (w 0).

(** ** Key expansion

    Words are lists of four bytes; the key has [Nk] words. *)

Definition sub_word (w : list Z) : list Z := sbox <$> w.

Definition rot_word (w : list Z) : list Z := drop 1 w ++ take 1 w.

(** Rcon[i] = (x^(i-1), 0, 0, 0) *)
Definition rcon_word (i : Z) : list Z := [Nat.iter (Z.to_nat (i - 1)) xtime 1; 0; 0; 0].

Definition word_at (ws : list (list Z)) (i : Z) : list Z := nth (Z.to_nat i) ws [].

(** Word [i], from words [i - Nk] and [i - 1]. *)
Definition next_word (Nk i : Z) (back temp : list Z) : list Z :=
  zip_with Z.lxor back
    (if i mod Nk =? 0 then zip_with Z.lxor (sub_word (rot_word temp)) (rcon_word (i / Nk))
     else if (6 <? Nk) && (i mod Nk =? 4) then sub_word temp else temp).

Fixpoint expand (Nk : Z) (n : nat) (ws : list (list Z)) : list (list Z) :=
  match n with
  | O => ws
  | S n => let i := zlen ws in
           expand Nk n (ws ++ [next_word Nk i (word_at ws (i - Nk)) (word_at ws (i - 1))])
  end.

Fixpoint words_of (l : list Z) : list (list Z) :=
  match l with
  | a :: b :: c :: d :: l => [a; b; c; d] :: words_of l
  | _ => []
  end.

(** KeyExpansion: Nk words of the key become 4 (Nr + 1) words. *)
Definition key_expansion (Nk Nr : Z) (key : list Z) : list (list Z) :=
  expand Nk (Z.to_nat (4 * (Nr + 1) - Nk)) (words_of key).

(** Round key [i]: words 4 i to 4 i + 3. *)
Definition round_key (ws : list (list Z)) (i : Z) : list Z :=
  word_at ws (4 * i) ++ word_at ws (4 * i + 1) ++ word_at ws (4 * i + 2) ++ word_at ws (4 * i + 3).

(** AES on a key of [bits] bits: Nk = bits / 32, Nr = Nk + 6. *)
Definition aes_round_keys (bits : Z) (key : list Z) : Z → list Z :=
  round_key (key_expansion (bits / 32) (bits / 32 + 6) key).

Definition aes_cipher (bits : Z) (key : list Z) : list Z → list Z :=
  cipher (bits / 32 + 6) (aes_round_keys bits key).

Definition aes_inv_cipher (bits : Z) (key : list Z) : list Z → list Z :=
  inv_cipher (bits / 32 + 6) (aes_round_keys bits key).

(** ** Bytes *)

Definition is_byte (b : Z) : Prop := 0 ≤ b < 256.

Definition block_ok (n : nat) (s : list Z) : Prop := length s = n ∧ Forall is_byte s.

Lemma byte_cases (P : Z → bool) : forallb P (seqZ 0 256) = true → ∀ x, is_byte x → P x = true.
Proof.
  intros Hall x Hx. rewrite forallb_forall in Hall. apply Hall, list_elem_of_In, elem_of_seqZ. done.
Qed.

Ltac by_bytes x :=
  match goal with
  | Hx : is_byte x |- ?G =>
      let G' := eval pattern x in G in
      match G' with ?P x => apply (bool_decide_eq_true_1 (P x)); revert x Hx; apply byte_cases; vm_compute; reflexivity end
  end.

Lemma lxor_byte a b : is_byte a → is_byte b → is_byte (Z.lxor a b).
Proof. intros Ha Hb. by apply (lxor_range a b 8). Qed.

(** Sums are compared bit by bit. *)
Ltac xor_ring :=
  apply Z.bits_inj'; intros ?n ?Hn; rewrite ?Z.lxor_spec, ?Z.bits_0; btauto.

Lemma xtime_lxor a b : xtime (Z.lxor a b) = Z.lxor (xtime a) (xtime b).
Proof.
  unfold xtime. rewrite Z.shiftl_lxor, Z.lxor_spec. apply Z.bits_inj'. intros n Hn.
  destruct (Z.testbit a 7), (Z.testbit b 7); cbn [xorb];
    rewrite !Z.lxor_spec, !Z.land_spec, !Z.lxor_spec, ?Z.bits_0; btauto.
Qed.

Lemma gmul_bits_lxor n c a b : gmul_bits n c (Z.lxor a b) = Z.lxor (gmul_bits n c a) (gmul_bits n c b).
Proof.
  revert c a b. induction n as [|n IH]; intros c a b; cbn [gmul_bits]; [done|].
  rewrite xtime_lxor, IH. destruct (Z.odd c); xor_ring.
Qed.

Lemma gmul_lxor c a b : gmul c (Z.lxor a b) = Z.lxor (gmul c a) (gmul c b).
Proof. apply gmul_bits_lxor. Qed.

Lemma xtime_byte b : is_byte b → is_byte (xtime b).
Proof.
  intros _. apply lxor_byte; [|destruct (Z.testbit b 7); done].
  change 0xff with (Z.ones 8). rewrite Z.land_ones by lia. apply Z.mod_pos_bound. done.
Qed.

Lemma gmul_byte a b : is_byte b → is_byte (gmul a b).
Proof.
  unfold gmul. generalize 8%nat. intros n. revert a b. induction n as [|n IH]; intros a b Hb; [done|].
  cbn [gmul_bits]. apply lxor_byte; [by destruct (Z.odd a)|]. by apply IH, xtime_byte.
Qed.

Lemma inv_sbox_sbox b : is_byte b → inv_sbox (sbox b) = b.
Proof. intros Hb. by_bytes b. Qed.

Lemma sbox_byte b : is_byte b → is_byte (sbox b).
Proof. intros Hb. unfold is_byte. by_bytes b. Qed.

Lemma inv_sbox_byte b : is_byte b → is_byte (inv_sbox b).
Proof. intros Hb. unfold is_byte. by_bytes b. Qed.

(** ** MixColumns *)

(** What one byte of a mixed column contributes to a row of the inverse. *)
Definition contribution (x y z w p q r s v : Z) : Z :=
  Z.lxor (Z.lxor (Z.lxor (gmul x (gmul p v)) (gmul y (gmul q v))) (gmul z (gmul r v))) (gmul w (gmul s v)).

Lemma row_of_mixed x y z w a b c d :
  let row p q r s := Z.lxor (Z.lxor (Z.lxor (gmul p a) (gmul q b)) (gmul r c)) (gmul s d) in
  Z.lxor (Z.lxor (Z.lxor (gmul x (row 2 3 1 1)) (gmul y (row 1 2 3 1))) (gmul z (row 1 1 2 3))) (gmul w (row 3 1 1 2)) =
  Z.lxor (Z.lxor (Z.lxor (contribution x y z w 2 1 1 3 a) (contribution x y z w 3 2 1 1 b))
    (contribution x y z w 1 3 2 1 c)) (contribution x y z w 1 1 3 2 d).
Proof. cbn zeta. unfold contribution. rewrite !gmul_lxor. xor_ring. Qed.

Lemma inv_mix_column a b c d : is_byte a → is_byte b → is_byte c → is_byte d →
  inv_mix_columns (mul_column 2 3 1 1 a b c d) = [a; b; c; d].
Proof.
  intros Ha Hb Hc Hd.
  assert (∀ v, is_byte v →
    contribution 14 11 13 9 2 1 1 3 v = v ∧ contribution 14 11 13 9 3 2 1 1 v = 0 ∧
    contribution 14 11 13 9 1 3 2 1 v = 0 ∧ contribution 14 11 13 9 1 1 3 2 v = 0 ∧
    contribution 9 14 11 13 2 1 1 3 v = 0 ∧ contribution 9 14 11 13 3 2 1 1 v = v ∧
    contribution 9 14 11 13 1 3 2 1 v = 0 ∧ contribution 9 14 11 13 1 1 3 2 v = 0 ∧
    contribution 13 9 14 11 2 1 1 3 v = 0 ∧ contribution 13 9 14 11 3 2 1 1 v = 0 ∧
    contribution 13 9 14 11 1 3 2 1 v = v ∧ contribution 13 9 14 11 1 1 3 2 v = 0 ∧
    contribution 11 13 9 14 2 1 1 3 v = 0 ∧ contribution 11 13 9 14 3 2 1 1 v = 0 ∧
    contribution 11 13 9 14 1 3 2 1 v = 0 ∧ contribution 11 13 9 14 1 1 3 2 v = v) as Hall
    by (intros v Hv; by_bytes v).
  pose proof (Hall a Ha) as Ea. pose proof (Hall b Hb) as Eb.
  pose proof (Hall c Hc) as Ec. pose proof (Hall d Hd) as Ed. destruct_and!.
  unfold inv_mix_columns, mul_column. cbn [mul_columns app]. unfold mul_column.
  rewrite !row_of_mixed.
  repeat match goal with H : contribution _ _ _ _ _ _ _ _ ?v = _ |- _ => rewrite H; clear H end.
  by rewrite ?Z.lxor_0_l, ?Z.lxor_0_r.
Qed.

Lemma mul_columns_cons m0 m1 m2 m3 a b c d s :
  mul_columns m0 m1 m2 m3 (a :: b :: c :: d :: s) =
    mul_column m0 m1 m2 m3 a b c d ++ mul_columns m0 m1 m2 m3 s.
Proof. done. Qed.

Lemma mul_columns_app m0 m1 m2 m3 a b c d s :
  mul_columns m0 m1 m2 m3 ([a; b; c; d] ++ s) =
    mul_columns m0 m1 m2 m3 [a; b; c; d] ++ mul_columns m0 m1 m2 m3 s.
Proof. cbn [app]. rewrite !mul_columns_cons. cbn [mul_columns]. by rewrite app_nil_r. Qed.

Lemma mul_column_eq m0 m1 m2 m3 a b c d :
  ∃ x y z w, mul_column m0 m1 m2 m3 a b c d = [x; y; z; w].
Proof. unfold mul_column. by repeat eexists. Qed.

(** Induction over the columns of a state. *)
Lemma columns_ind (P : list Z → Prop) :
  P [] → (∀ a b c d s, is_byte a → is_byte b → is_byte c → is_byte d → P s → P (a :: b :: c :: d :: s)) →
  ∀ n s, block_ok (4 * n) s → P s.
Proof.
  intros H0 Hs n. induction n as [|n IH]; intros s [Hl Hb].
  - by apply nil_length_inv in Hl as ->.
  - destruct s as [|a [|b [|c [|d s]]]]; cbn in Hl; try lia.
    rewrite !list.Forall_cons in Hb. destruct Hb as (Ha & Hb1 & Hc & Hd & Hb). apply Hs; [done..|].
    apply IH. split; [lia|done].
Qed.

Lemma inv_mix_mix n s : block_ok (4 * n) s → inv_mix_columns (mix_columns s) = s.
Proof.
  revert n s. apply columns_ind; [done|]. intros a b c d s Ha Hb Hc Hd IH. unfold mix_columns in *.
  rewrite mul_columns_cons. pose proof (inv_mix_column a b c d Ha Hb Hc Hd) as Hi.
  destruct (mul_column_eq 2 3 1 1 a b c d) as (x & y & z & w & He). unfold inv_mix_columns in *.
  rewrite He in *. by rewrite mul_columns_app, Hi, IH.
Qed.

Lemma mul_columns_lxor m0 m1 m2 m3 n s k : block_ok (4 * n) s → length k = (4 * n)%nat →
  mul_columns m0 m1 m2 m3 (zip_with Z.lxor s k) =
    zip_with Z.lxor (mul_columns m0 m1 m2 m3 s) (mul_columns m0 m1 m2 m3 k).
Proof.
  revert n k s. induction n as [|n IH]; intros k s [Hl Hb] Hk.
  - by apply nil_length_inv in Hl as ->.
  - destruct s as [|a [|b [|c [|d s]]]]; cbn in Hl; try lia.
    destruct k as [|a' [|b' [|c' [|d' k]]]]; cbn in Hk; try lia. rewrite !list.Forall_cons in Hb.
    cbn [zip_with]. rewrite !mul_columns_cons. rewrite zip_with_app by (unfold mul_column; done).
    f_equal; [|apply IH; [split; [lia|apply Hb]|lia]].
    unfold mul_column. cbn [zip_with]. rewrite !gmul_lxor. by repeat (apply f_equal2; [xor_ring|]).
Qed.

Lemma mul_columns_ok m0 m1 m2 m3 n s : block_ok (4 * n) s → block_ok (4 * n) (mul_columns m0 m1 m2 m3 s).
Proof.
  revert n s. induction n as [|n IH]; intros s [Hl Hb].
  - by apply nil_length_inv in Hl as ->.
  - destruct s as [|a [|b [|c [|d s]]]]; cbn in Hl; try lia. rewrite !list.Forall_cons in Hb.
    destruct Hb as (Ha & Hb1 & Hc & Hd & Hb).
    destruct (IH s) as [Hl' Hb']; [split; [lia|done]|]. rewrite mul_columns_cons. unfold mul_column. split.
    + rewrite length_app. cbn [length]. lia.
    + rewrite Forall_app. split; [|done]. rewrite !list.Forall_cons.
      split_and!; [..|done]; 
      repeat match goal with |- is_byte (Z.lxor _ _) => apply lxor_byte end; by apply gmul_byte.
Qed.

(** ** The other steps *)

Lemma sub_bytes_ok n s : block_ok n s → block_ok n (sub_bytes s).
Proof.
  intros [Hl Hb]. unfold sub_bytes. split; [by rewrite length_fmap|]. apply Forall_fmap.
  eapply list.Forall_impl; [exact Hb|]. intros x. apply sbox_byte.
Qed.

Lemma inv_sub_bytes_ok n s : block_ok n s → block_ok n (inv_sub_bytes s).
Proof.
  intros [Hl Hb]. unfold inv_sub_bytes. split; [by rewrite length_fmap|]. apply Forall_fmap.
  eapply list.Forall_impl; [exact Hb|]. intros x. apply inv_sbox_byte.
Qed.

Lemma inv_sub_sub s : Forall is_byte s → inv_sub_bytes (sub_bytes s) = s.
Proof.
  intros Hb. induction Hb as [|x s Hx _ IH]; [done|].
  change (inv_sbox (sbox x) :: inv_sub_bytes (sub_bytes s) = x :: s).
  by rewrite IH, (inv_sbox_sbox x Hx).
Qed.

(** A block has 16 bytes. *)
Ltac block_bytes s :=
  do 16 (destruct s as [|? s]; [done|]); destruct s; [|done].

Lemma inv_shift_shift s : length s = 16%nat → inv_shift_rows (shift_rows s) = s.
Proof. intros Hl. by block_bytes s. Qed.

Lemma tab_byte s i : Forall is_byte s → is_byte (tab s i).
Proof.
  intros Hb. unfold tab. destruct (nth_in_or_default (Z.to_nat i) s 0) as [Hin| ->]; [|done].
  exact (proj1 (Forall_forall _ _) Hb _ Hin).
Qed.

Lemma gather_ok s (f : Z → Z) : Forall is_byte s → block_ok 16 ((fun i => tab s (f i)) <$> seqZ 0 16).
Proof.
  intros Hb. split; [done|]. apply Forall_fmap, Forall_forall. intros i _. by apply tab_byte.
Qed.

Lemma shift_rows_ok s : block_ok 16 s → block_ok 16 (shift_rows s).
Proof. intros [_ Hb]. by apply gather_ok. Qed.

Lemma inv_shift_rows_ok s : block_ok 16 s → block_ok 16 (inv_shift_rows s).
Proof. intros [_ Hb]. by apply gather_ok. Qed.

Lemma add_round_key_ok n s k : block_ok n s → block_ok n k → block_ok n (add_round_key s k).
Proof.
  intros [Hl Hs] [Hk Hb]. unfold add_round_key. split; [rewrite length_zip_with; lia|].
  clear Hl Hk n. revert k Hb. induction Hs as [|x s Hx _ IH]; intros [|y k] Hb; try constructor.
  - apply lxor_byte; [done|]. by inversion Hb.
  - apply IH. by inversion Hb.
Qed.

Lemma add_round_key_twice n s k : length s = n → length k = n → add_round_key (add_round_key s k) k = s.
Proof.
  revert s k. induction n as [|n IH]; intros [|x s] [|y k] Hs Hk; try done. cbn in *.
  rewrite Z.lxor_assoc, Z.lxor_nilpotent, Z.lxor_0_r. f_equal. apply IH; lia.
Qed.

(** ** The inverse cipher *)

Section Inverse.
Context (Nr : Z) (w : Z → list Z) (Hw : ∀ i, 0 ≤ i ≤ Nr → block_ok 16 (w i)).

Definition round_fwd (i : Z) (s : list Z) : list Z :=
  add_round_key (mix_columns (shift_rows (sub_bytes s))) (w i).

Definition round_inv (i : Z) (s : list Z) : list Z :=
  inv_mix_columns (add_round_key (inv_sub_bytes (inv_shift_rows s)) (w (Nr - i))).

Lemma round_fwd_ok i s : 0 ≤ i ≤ Nr → block_ok 16 s → block_ok 16 (round_fwd i s).
Proof.
  intros Hi Hs. apply add_round_key_ok; [|by apply Hw].
  by apply (mul_columns_ok _ _ _ _ 4), shift_rows_ok, sub_bytes_ok.
Qed.

Lemma round_inv_fwd i s : 0 ≤ i ≤ Nr → block_ok 16 s →
  round_inv (Nr - i) (shift_rows (sub_bytes (round_fwd i s))) = shift_rows (sub_bytes s).
Proof.
  intros Hi Hs. pose proof (round_fwd_ok i s Hi Hs) as Hok.
  unfold round_inv. rewrite inv_shift_shift by apply (sub_bytes_ok _ _ Hok). rewrite inv_sub_sub by apply Hok.
  replace (Nr - (Nr - i)) with i by lia. unfold round_fwd.
  assert (block_ok 16 (shift_rows (sub_bytes s))) as Hss by (by apply shift_rows_ok, sub_bytes_ok).
  rewrite (add_round_key_twice 16); [|by apply (mul_columns_ok _ _ _ _ 4)|by apply Hw].
  by apply (inv_mix_mix 4).
Qed.

Lemma rounds_from_ok n k s : 0 ≤ k → k + Z.of_nat n ≤ Nr + 1 → block_ok 16 s →
  block_ok 16 (rounds_from round_fwd k n s).
Proof.
  revert k s. induction n as [|n IH]; intros k s Hk Hn Hs; cbn [rounds_from]; [done|].
  apply IH; [lia|lia|]. apply round_fwd_ok; [lia|done].
Qed.

Lemma rounds_from_snoc F k n s : rounds_from F k (S n) s = F (k + Z.of_nat n) (rounds_from F k n s).
Proof.
  revert k s. induction n as [|n IH]; intros k s.
  - cbn. f_equal. lia.
  - change (rounds_from F k (S (S n)) s) with (rounds_from F (k + 1) (S n) (F k s)). rewrite IH.
    cbn [rounds_from]. f_equal. lia.
Qed.

(** The inverse rounds undo the rounds, the last one first. *)
Lemma rounds_inverse n s : Z.of_nat n < Nr → block_ok 16 s →
  rounds_from round_inv (Nr - Z.of_nat n) n (shift_rows (sub_bytes (rounds_from round_fwd 1 n s))) =
    shift_rows (sub_bytes s).
Proof.
  intros Hn Hs. induction n as [|n IH]; [done|].
  rewrite (rounds_from_snoc round_fwd). cbn [rounds_from].
  replace (Nr - Z.of_nat (S n)) with (Nr - (1 + Z.of_nat n)) by lia.
  rewrite round_inv_fwd; [|lia|apply rounds_from_ok; [lia..|done]].
  replace (Nr - (1 + Z.of_nat n) + 1) with (Nr - Z.of_nat n) by lia. apply IH. lia.
Qed.

Lemma inv_cipher_cipher x : 1 ≤ Nr → block_ok 16 x → inv_cipher Nr w (cipher Nr w x) = x.
Proof.
  intros HNr Hx. unfold inv_cipher, cipher. change (fun i s => add_round_key _ (w i)) with round_fwd.
  change (fun i s => inv_mix_columns _) with round_inv.
  set (u := add_round_key x (w 0)). assert (block_ok 16 u) as Hu by (apply add_round_key_ok; [done|apply Hw; lia]).
  set (v := rounds_from round_fwd 1 _ u).
  assert (block_ok 16 v) as Hv by (apply rounds_from_ok; [lia|lia|done]).
  rewrite (add_round_key_twice 16); [|by apply shift_rows_ok, sub_bytes_ok|apply Hw; lia].
  pose proof (rounds_inverse (Z.to_nat (Nr - 1)) u ltac:(lia) Hu) as Hr.
  replace (Nr - Z.of_nat (Z.to_nat (Nr - 1))) with 1 in Hr by lia. fold v in Hr. rewrite Hr.
  rewrite inv_shift_shift by apply (sub_bytes_ok _ _ Hu). rewrite inv_sub_sub by apply Hu.
  apply (add_round_key_twice 16); [apply Hx|apply Hw; lia].
Qed.

Lemma round_inv_ok i s : 0 ≤ i ≤ Nr → block_ok 16 s → block_ok 16 (round_inv i s).
Proof.
  intros Hi Hs. unfold round_inv. apply (mul_columns_ok _ _ _ _ 4), add_round_key_ok; [|apply Hw; lia].
  by apply inv_sub_bytes_ok, inv_shift_rows_ok.
Qed.

Lemma rounds_inv_ok n k s : 0 ≤ k → k + Z.of_nat n ≤ Nr + 1 → block_ok 16 s →
  block_ok 16 (rounds_from round_inv k n s).
Proof.
  revert k s. induction n as [|n IH]; intros k s Hk Hn Hs; cbn [rounds_from]; [done|].
  apply IH; [lia|lia|]. apply round_inv_ok; [lia|done].
Qed.

Lemma inv_cipher_ok x : 1 ≤ Nr → block_ok 16 x → block_ok 16 (inv_cipher Nr w x).
Proof.
  intros HNr Hx. unfold inv_cipher. apply add_round_key_ok; [|apply Hw; lia].
  apply inv_sub_bytes_ok, inv_shift_rows_ok. change (fun i s => inv_mix_columns _) with round_inv.
  apply rounds_inv_ok; [lia|lia|]. apply add_round_key_ok; [done|apply Hw; lia].
Qed.

Lemma cipher_ok x : 1 ≤ Nr → block_ok 16 x → block_ok 16 (cipher Nr w x).
Proof.
  intros HNr Hx. unfold cipher. apply add_round_key_ok; [|apply Hw; lia].
  apply shift_rows_ok, sub_bytes_ok. apply rounds_from_ok; [lia|lia|].
  apply add_round_key_ok; [done|apply Hw; lia].
Qed.
End Inverse.
