(* ===== verification/AesOk.v ===== *)
(** The block functions and key schedules of
    src/drivers/stream_input/t5d_demux/sw_demux/aes_core.c compute AES: what
    the tables hold, the rounds, the two key schedules, and the theorems
    against AesFips.v. *)

From Stdlib Require Import ZArith Lia Bool.
From stdpp Require Import base list numbers.
From S2P Require Import Prelude.
From S2P Require Import AesCore.
From S2P Require Import AesFips.

#[local] Open Scope Z_scope.

(** ** Words and their bytes *)

Definition is_word (w : Z) : Prop := 0 ≤ w < 2 ^ 32.

Lemma is_word_lxor a b : is_word a → is_word b → is_word (Z.lxor a b).
Proof. intros Ha Hb. by apply (lxor_range a b 32). Qed.

Lemma u8_lxor a b : u8 (Z.lxor a b) = Z.lxor (u8 a) (u8 b).
Proof. by apply mod_pow2_lxor. Qed.

Lemma PUTU32_lxor a b : PUTU32 (Z.lxor a b) = zip_with Z.lxor (PUTU32 a) (PUTU32 b).
Proof. unfold PUTU32. cbn [zip_with]. by rewrite !Z.shiftr_lxor, !u8_lxor. Qed.

Lemma land_ff w : Z.land w 0xff = u8 w.
Proof. change 0xff with (Z.ones 8). by rewrite Z.land_ones by lia. Qed.

Lemma byte3_range w : is_word w → is_byte (byte3 w).
Proof.
  intros Hw. unfold byte3. rewrite Z.shiftr_div_pow2 by lia. unfold is_word, is_byte in *.
  split; [apply Z.div_pos; lia|apply Z.div_lt_upper_bound; lia].
Qed.

Lemma byte_ranges w : is_byte (byte2 w) ∧ is_byte (byte1 w) ∧ is_byte (byte0 w).
Proof. unfold byte2, byte1, byte0. rewrite !land_ff. split_and!; apply u8_range. Qed.

Lemma PUTU32_bytes w : is_word w → PUTU32 w = [byte3 w; byte2 w; byte1 w; byte0 w].
Proof.
  intros Hw. pose proof (byte3_range w Hw). unfold PUTU32, byte2, byte1, byte0. rewrite !land_ff.
  by rewrite (u8_id (Z.shiftr w 24)).
Qed.

Lemma PUTU32_ok w : block_ok 4 (PUTU32 w).
Proof. split; [done|]. unfold PUTU32. rewrite !list.Forall_cons. split_and!; [apply u8_range..|done]. Qed.

Lemma lxor_mul_add a b k : 0 ≤ k → 0 ≤ b < 2 ^ k → Z.lxor (a * 2 ^ k) b = a * 2 ^ k + b.
Proof.
  intros Hk Hb. pose proof (lor_mul_add a b k Hk Hb) as Hlor.
  pose proof (Z.add_lor_land (a * 2 ^ k) b). rewrite Z.lxor_lor; [done|lia].
Qed.

(** A word put together from four bytes. *)
Lemma word_bytes b0 b1 b2 b3 : is_byte b0 → is_byte b1 → is_byte b2 → is_byte b3 →
  let w := Z.lxor (Z.lxor (Z.lxor (u32 (Z.shiftl b0 24)) (Z.shiftl b1 16)) (Z.shiftl b2 8)) b3 in
  is_word w ∧ PUTU32 w = [b0; b1; b2; b3].
Proof.
  intros H0 H1 H2 H3 w. unfold is_byte in *.
  assert (w = b0 * 2 ^ 24 + b1 * 2 ^ 16 + b2 * 2 ^ 8 + b3) as ->.
  { unfold w. rewrite !Z.shiftl_mul_pow2 by lia. rewrite u32_id by lia.
    rewrite (lxor_mul_add b0 _ 24) by lia.
    replace (b0 * 2 ^ 24 + b1 * 2 ^ 16) with ((b0 * 2 ^ 8 + b1) * 2 ^ 16) by lia.
    rewrite (lxor_mul_add _ _ 16) by lia.
    replace ((b0 * 2 ^ 8 + b1) * 2 ^ 16 + b2 * 2 ^ 8) with (((b0 * 2 ^ 8 + b1) * 2 ^ 8 + b2) * 2 ^ 8) by lia.
    rewrite (lxor_mul_add _ _ 8) by lia. lia. }
  split; [unfold is_word; lia|].
  unfold PUTU32, u8. rewrite !Z.shiftr_div_pow2 by lia. 
  change (2 ^ 24) with 16777216. change (2 ^ 16) with 65536. change (2 ^ 8) with 256.
  repeat (apply f_equal2; [Z.to_euclidean_division_equations; lia|]). done.
Qed.

Lemma GETU32_bytes pt o : Forall is_byte pt → 0 ≤ o → o + 4 ≤ zlen pt →
  ∃ w, GETU32 pt o = Some w ∧ is_word w ∧ PUTU32 w = take 4 (drop (Z.to_nat o) pt).
Proof.
  intros Hb Ho Hl.
  assert (∀ i, 0 ≤ i < zlen pt → ∃ v, aget pt i = Some v ∧ is_byte v ∧ pt !! Z.to_nat i = Some v) as Hget.
  { intros i Hi. destruct (aget_Some pt i Hi) as [v Hv]. exists v. split; [done|].
    apply aget_inv in Hv as [_ Hv]. split; [|done]. by eapply (proj1 (list.Forall_lookup _ _) Hb). }
  destruct (Hget o ltac:(lia)) as (b0 & G0 & H0 & L0). destruct (Hget (o + 1) ltac:(lia)) as (b1 & G1 & H1 & L1).
  destruct (Hget (o + 2) ltac:(lia)) as (b2 & G2 & H2 & L2). destruct (Hget (o + 3) ltac:(lia)) as (b3 & G3 & H3 & L3).
  unfold GETU32. rewrite G0, G1, G2, G3. cbn [mbind option_bind].
  destruct (word_bytes b0 b1 b2 b3 H0 H1 H2 H3) as [Hw Hp]. eexists. split; [reflexivity|]. split; [done|].
  rewrite Hp. replace (Z.to_nat (o + 1)) with (S (Z.to_nat o)) in L1 by lia.
  replace (Z.to_nat (o + 2)) with (S (S (Z.to_nat o))) in L2 by lia.
  replace (Z.to_nat (o + 3)) with (S (S (S (Z.to_nat o)))) in L3 by lia.
  by rewrite (drop_S _ _ _ L0), (drop_S _ _ _ L1), (drop_S _ _ _ L2), (drop_S _ _ _ L3).
Qed.

(** ** The tables *)

(** The entries of a table are words. *)
Lemma table_words T : forallb (fun w => (0 <=? w) && (w <? 2 ^ 32)) T = true → ∀ x, is_word (tab T x).
Proof.
  intros Hall x. unfold tab. destruct (nth_in_or_default (Z.to_nat x) T 0) as [Hin| ->]; [|done].
  rewrite forallb_forall in Hall. specialize (Hall _ Hin).
  unfold is_word. lia.
Qed.

Lemma Te_words x : is_word (tab Te0 x) ∧ is_word (tab Te1 x) ∧ is_word (tab Te2 x) ∧ is_word (tab Te3 x).
Proof. split_and!; apply table_words; vm_compute; reflexivity. Qed.

Lemma Td_words x : is_word (tab Td0 x) ∧ is_word (tab Td1 x) ∧ is_word (tab Td2 x) ∧ is_word (tab Td3 x).
Proof. split_and!; apply table_words; vm_compute; reflexivity. Qed.

(** Te: the S-box times a column of MixColumns. *)
Lemma Te_bytes x : is_byte x →
  PUTU32 (tab Te0 x) = [gmul 2 (sbox x); gmul 1 (sbox x); gmul 1 (sbox x); gmul 3 (sbox x)] ∧
  PUTU32 (tab Te1 x) = [gmul 3 (sbox x); gmul 2 (sbox x); gmul 1 (sbox x); gmul 1 (sbox x)] ∧
  PUTU32 (tab Te2 x) = [gmul 1 (sbox x); gmul 3 (sbox x); gmul 2 (sbox x); gmul 1 (sbox x)] ∧
  PUTU32 (tab Te3 x) = [gmul 1 (sbox x); gmul 1 (sbox x); gmul 3 (sbox x); gmul 2 (sbox x)].
Proof. intros Hx. by_bytes x. Qed.

(** Td: the inverse S-box times a column of InvMixColumns. *)
Lemma Td_bytes x : is_byte x →
  PUTU32 (tab Td0 x) = [gmul 14 (inv_sbox x); gmul 9 (inv_sbox x); gmul 13 (inv_sbox x); gmul 11 (inv_sbox x)] ∧
  PUTU32 (tab Td1 x) = [gmul 11 (inv_sbox x); gmul 14 (inv_sbox x); gmul 9 (inv_sbox x); gmul 13 (inv_sbox x)] ∧
  PUTU32 (tab Td2 x) = [gmul 13 (inv_sbox x); gmul 11 (inv_sbox x); gmul 14 (inv_sbox x); gmul 9 (inv_sbox x)] ∧
  PUTU32 (tab Td3 x) = [gmul 9 (inv_sbox x); gmul 13 (inv_sbox x); gmul 11 (inv_sbox x); gmul 14 (inv_sbox x)].
Proof. intros Hx. by_bytes x. Qed.

(** Masked entries of Te and those of Td4: one byte of the word. *)
Lemma Te_masked x : is_byte x →
  PUTU32 (Z.land (tab Te2 x) 0xff000000) = [sbox x; 0; 0; 0] ∧
  PUTU32 (Z.land (tab Te3 x) 0x00ff0000) = [0; sbox x; 0; 0] ∧
  PUTU32 (Z.land (tab Te0 x) 0x0000ff00) = [0; 0; sbox x; 0] ∧
  PUTU32 (Z.land (tab Te1 x) 0x000000ff) = [0; 0; 0; sbox x].
Proof. intros Hx. by_bytes x. Qed.

Lemma Td4_bytes x : is_byte x →
  PUTU32 (u32 (Z.shiftl (tab Td4 x) 24)) = [inv_sbox x; 0; 0; 0] ∧
  PUTU32 (u32 (Z.shiftl (tab Td4 x) 16)) = [0; inv_sbox x; 0; 0] ∧
  PUTU32 (u32 (Z.shiftl (tab Td4 x) 8)) = [0; 0; inv_sbox x; 0] ∧
  PUTU32 (tab Td4 x) = [0; 0; 0; inv_sbox x].
Proof. intros Hx. by_bytes x. Qed.

Lemma Te1_low x : is_byte x → Z.land (tab Te1 x) 0xff = sbox x.
Proof. intros Hx. by_bytes x. Qed.

(** ** Rounds *)

Section Words.
Context (a b c d k : Z) (Ha : is_word a).

Lemma enc_word_bytes : PUTU32 (enc_word a b c d k) =
  add_round_key (mul_column 2 3 1 1 (sbox (byte3 a)) (sbox (byte2 b)) (sbox (byte1 c)) (sbox (byte0 d))) (PUTU32 k).
Proof.
  unfold enc_word. rewrite !PUTU32_lxor.
  destruct (byte_ranges b) as (Hb & _ & _), (byte_ranges c) as (_ & Hc & _), (byte_ranges d) as (_ & _ & Hd).
  destruct (Te_bytes _ (byte3_range a Ha)) as (-> & _), (Te_bytes _ Hb) as (_ & -> & _),
    (Te_bytes _ Hc) as (_ & _ & -> & _), (Te_bytes _ Hd) as (_ & _ & _ & ->). reflexivity.
Qed.

Lemma dec_word_bytes : PUTU32 (dec_word a b c d k) =
  add_round_key (mul_column 14 11 13 9 (inv_sbox (byte3 a)) (inv_sbox (byte2 b)) (inv_sbox (byte1 c))
    (inv_sbox (byte0 d))) (PUTU32 k).
Proof.
  unfold dec_word. rewrite !PUTU32_lxor.
  destruct (byte_ranges b) as (Hb & _ & _), (byte_ranges c) as (_ & Hc & _), (byte_ranges d) as (_ & _ & Hd).
  destruct (Td_bytes _ (byte3_range a Ha)) as (-> & _), (Td_bytes _ Hb) as (_ & -> & _),
    (Td_bytes _ Hc) as (_ & _ & -> & _), (Td_bytes _ Hd) as (_ & _ & _ & ->). reflexivity.
Qed.

Lemma enc_last_bytes : PUTU32 (enc_last a b c d k) =
  add_round_key [sbox (byte3 a); sbox (byte2 b); sbox (byte1 c); sbox (byte0 d)] (PUTU32 k).
Proof.
  unfold enc_last. rewrite !PUTU32_lxor.
  destruct (byte_ranges b) as (Hb & _ & _), (byte_ranges c) as (_ & Hc & _), (byte_ranges d) as (_ & _ & Hd).
  destruct (Te_masked _ (byte3_range a Ha)) as (-> & _), (Te_masked _ Hb) as (_ & -> & _),
    (Te_masked _ Hc) as (_ & _ & -> & _), (Te_masked _ Hd) as (_ & _ & _ & ->).
  unfold add_round_key. cbn [zip_with]. by rewrite ?Z.lxor_0_r, ?Z.lxor_0_l.
Qed.

Lemma dec_last_bytes : PUTU32 (dec_last a b c d k) =
  add_round_key [inv_sbox (byte3 a); inv_sbox (byte2 b); inv_sbox (byte1 c); inv_sbox (byte0 d)] (PUTU32 k).
Proof.
  unfold dec_last. rewrite !PUTU32_lxor.
  destruct (byte_ranges b) as (Hb & _ & _), (byte_ranges c) as (_ & Hc & _), (byte_ranges d) as (_ & _ & Hd).
  destruct (Td4_bytes _ (byte3_range a Ha)) as (-> & _), (Td4_bytes _ Hb) as (_ & -> & _),
    (Td4_bytes _ Hc) as (_ & _ & -> & _), (Td4_bytes _ Hd) as (_ & _ & _ & ->).
  unfold add_round_key. cbn [zip_with]. by rewrite ?Z.lxor_0_r, ?Z.lxor_0_l.
Qed.
End Words.

Lemma enc_word_is a b c d k : is_word k → is_word (enc_word a b c d k).
Proof. intros Hk. unfold enc_word. repeat apply is_word_lxor; [apply Te_words..|done]. Qed.

Lemma dec_word_is a b c d k : is_word k → is_word (dec_word a b c d k).
Proof. intros Hk. unfold dec_word. repeat apply is_word_lxor; [apply Td_words..|done]. Qed.

Definition st_ok (s : st4) : Prop := let '(s0, s1, s2, s3) := s in is_word s0 ∧ is_word s1 ∧ is_word s2 ∧ is_word s3.

(** The bytes of round key [i] in a schedule of words. *)
Definition rd_round_key (rd : list Z) (i : Z) : list Z := round_key (PUTU32 <$> rd) i.

Lemma word_at_PUTU32 rd i k : aget rd i = Some k → word_at (PUTU32 <$> rd) i = PUTU32 k.
Proof. intros [_ Hk]%aget_inv. unfold word_at. apply nth_lookup_Some. by rewrite list_lookup_fmap, Hk. Qed.

Lemma rd_words rd i : Forall is_word rd → 0 ≤ i < zlen rd → ∃ k, aget rd i = Some k ∧ is_word k.
Proof.
  intros Hw Hi. destruct (aget_Some rd i Hi) as [k Hk]. exists k. split; [done|].
  apply aget_inv in Hk as [_ Hk]. by eapply (proj1 (list.Forall_lookup _ _) Hw).
Qed.

(** Four keys at once. *)
Lemma rd_round_key_eq rd i : Forall is_word rd → 0 ≤ i → 4 * i + 4 ≤ zlen rd →
  ∃ k0 k1 k2 k3, aget rd (4 * i) = Some k0 ∧ aget rd (4 * i + 1) = Some k1 ∧ aget rd (4 * i + 2) = Some k2 ∧
    aget rd (4 * i + 3) = Some k3 ∧ is_word k0 ∧ is_word k1 ∧ is_word k2 ∧ is_word k3 ∧
    rd_round_key rd i = PUTU32 k0 ++ PUTU32 k1 ++ PUTU32 k2 ++ PUTU32 k3.
Proof.
  intros Hw Hi Hl.
  destruct (rd_words rd (4 * i) Hw ltac:(lia)) as (k0 & H0 & W0).
  destruct (rd_words rd (4 * i + 1) Hw ltac:(lia)) as (k1 & H1 & W1).
  destruct (rd_words rd (4 * i + 2) Hw ltac:(lia)) as (k2 & H2 & W2).
  destruct (rd_words rd (4 * i + 3) Hw ltac:(lia)) as (k3 & H3 & W3).
  exists k0, k1, k2, k3. split_and!; try done. unfold rd_round_key, round_key.
  by rewrite (word_at_PUTU32 _ _ _ H0), (word_at_PUTU32 _ _ _ H1), (word_at_PUTU32 _ _ _ H2), (word_at_PUTU32 _ _ _ H3).
Qed.

Lemma rd_round_key_ok rd i : Forall is_word rd → 0 ≤ i → 4 * i + 4 ≤ zlen rd → block_ok 16 (rd_round_key rd i).
Proof.
  intros Hw Hi Hl. destruct (rd_round_key_eq rd i Hw Hi Hl) as (k0 & k1 & k2 & k3 & _ & _ & _ & _ & _ & _ & _ & _ & ->).
  split; [done|]. rewrite !Forall_app. split_and!; apply PUTU32_ok.
Qed.

Lemma shift_rows_eq x0 x1 x2 x3 x4 x5 x6 x7 x8 x9 xa xb xc xd xe xf :
  shift_rows [x0; x1; x2; x3; x4; x5; x6; x7; x8; x9; xa; xb; xc; xd; xe; xf] =
    [x0; x5; xa; xf; x4; x9; xe; x3; x8; xd; x2; x7; xc; x1; x6; xb].
Proof. done. Qed.

Lemma inv_shift_rows_eq x0 x1 x2 x3 x4 x5 x6 x7 x8 x9 xa xb xc xd xe xf :
  inv_shift_rows [x0; x1; x2; x3; x4; x5; x6; x7; x8; x9; xa; xb; xc; xd; xe; xf] =
    [x0; xd; xa; x7; x4; x1; xe; xb; x8; x5; x2; xf; xc; x9; x6; x3].
Proof. done. Qed.

Lemma put_state_bytes s0 s1 s2 s3 : st_ok (s0, s1, s2, s3) → put_state (s0, s1, s2, s3) =
  [byte3 s0; byte2 s0; byte1 s0; byte0 s0; byte3 s1; byte2 s1; byte1 s1; byte0 s1;
   byte3 s2; byte2 s2; byte1 s2; byte0 s2; byte3 s3; byte2 s3; byte1 s3; byte0 s3].
Proof. intros (H0 & H1 & H2 & H3). unfold put_state. by rewrite !PUTU32_bytes. Qed.

Lemma put_state_ok s : block_ok 16 (put_state s).
Proof. destruct s as [[[s0 s1] s2] s3]. split; [done|]. unfold put_state. rewrite !Forall_app. split_and!; apply PUTU32_ok. Qed.

Lemma add_key_app s s' k k' : length s = length k →
  add_round_key (s ++ s') (k ++ k') = add_round_key s k ++ add_round_key s' k'.
Proof. intros. by apply zip_with_app. Qed.

Lemma put_columns w0 w1 w2 w3 c0 c1 c2 c3 k0 k1 k2 k3 :
  PUTU32 w0 = add_round_key c0 (PUTU32 k0) → PUTU32 w1 = add_round_key c1 (PUTU32 k1) →
  PUTU32 w2 = add_round_key c2 (PUTU32 k2) → PUTU32 w3 = add_round_key c3 (PUTU32 k3) →
  length c0 = 4%nat → length c1 = 4%nat → length c2 = 4%nat → length c3 = 4%nat →
  put_state (w0, w1, w2, w3) =
    add_round_key (c0 ++ c1 ++ c2 ++ c3) (PUTU32 k0 ++ PUTU32 k1 ++ PUTU32 k2 ++ PUTU32 k3).
Proof.
  intros H0 H1 H2 H3 L0 L1 L2 L3. unfold put_state. rewrite H0, H1, H2, H3.
  by rewrite (add_key_app c0), (add_key_app c1), (add_key_app c2) by done.
Qed.

Lemma length_mul_column m0 m1 m2 m3 a b c d : length (mul_column m0 m1 m2 m3 a b c d) = 4%nat.
Proof. done. Qed.

(** A state of four columns through the steps of a round. *)
Lemma mul_four_columns m0 m1 m2 m3 x0 x1 x2 x3 x4 x5 x6 x7 x8 x9 xa xb xc xd xe xf :
  mul_columns m0 m1 m2 m3 [x0; x1; x2; x3; x4; x5; x6; x7; x8; x9; xa; xb; xc; xd; xe; xf] =
    mul_column m0 m1 m2 m3 x0 x1 x2 x3 ++ mul_column m0 m1 m2 m3 x4 x5 x6 x7 ++
    mul_column m0 m1 m2 m3 x8 x9 xa xb ++ mul_column m0 m1 m2 m3 xc xd xe xf.
Proof. rewrite !mul_columns_cons. cbn [mul_columns]. by rewrite app_nil_r. Qed.

Section Rounds.
Context (key : AES_KEY) (Hrd : Forall is_word (rd_key key)).

(** One round of the code against one of the standard; [F] is the round
    without the addition of the key. *)
Definition round_spec (round : Z → st4 → option st4) (F : list Z → list Z) : Prop :=
  ∀ i s, 0 ≤ i → 4 * i + 4 ≤ zlen (rd_key key) → st_ok s →
    ∃ t, round (4 * i) s = Some t ∧ st_ok t ∧
      put_state t = add_round_key (F (put_state s)) (rd_round_key (rd_key key) i).

Lemma enc_round_ok :
  round_spec (enc_round key enc_word) (fun s => mix_columns (shift_rows (sub_bytes s))).
Proof.
  intros i [[[s0 s1] s2] s3] Hi Hl Hs. pose proof Hs as (H0 & H1 & H2 & H3).
  destruct (rd_round_key_eq _ i Hrd Hi Hl) as (k0 & k1 & k2 & k3 & E0 & E1 & E2 & E3 & W0 & W1 & W2 & W3 & ->).
  unfold enc_round, key_at. rewrite E0, E1, E2, E3. cbn [mbind option_bind]. eexists. split; [reflexivity|].
  split; [split_and!; by apply enc_word_is|]. rewrite (put_state_bytes _ _ _ _ Hs).
  unfold sub_bytes. cbn [fmap list_fmap]. rewrite shift_rows_eq. unfold mix_columns. rewrite mul_four_columns.
  apply put_columns; first [by apply enc_word_bytes|apply length_mul_column].
Qed.

Lemma dec_round_ok :
  round_spec (dec_round key dec_word) (fun s => inv_mix_columns (inv_sub_bytes (inv_shift_rows s))).
Proof.
  intros i [[[s0 s1] s2] s3] Hi Hl Hs. pose proof Hs as (H0 & H1 & H2 & H3).
  destruct (rd_round_key_eq _ i Hrd Hi Hl) as (k0 & k1 & k2 & k3 & E0 & E1 & E2 & E3 & W0 & W1 & W2 & W3 & ->).
  unfold dec_round, key_at. rewrite E0, E1, E2, E3. cbn [mbind option_bind]. eexists. split; [reflexivity|].
  split; [split_and!; by apply dec_word_is|]. rewrite (put_state_bytes _ _ _ _ Hs).
  rewrite inv_shift_rows_eq. unfold inv_sub_bytes. cbn [fmap list_fmap]. unfold inv_mix_columns. rewrite mul_four_columns.
  apply put_columns; first [by apply dec_word_bytes|apply length_mul_column].
Qed.

(** The last rounds; only the bytes matter. *)
Lemma enc_last_round_ok i s : 0 ≤ i → 4 * i + 4 ≤ zlen (rd_key key) → st_ok s →
  ∃ t, enc_round key enc_last (4 * i) s = Some t ∧
    put_state t = add_round_key (shift_rows (sub_bytes (put_state s))) (rd_round_key (rd_key key) i).
Proof.
  destruct s as [[[s0 s1] s2] s3]. intros Hi Hl Hs. pose proof Hs as (H0 & H1 & H2 & H3).
  destruct (rd_round_key_eq _ i Hrd Hi Hl) as (k0 & k1 & k2 & k3 & E0 & E1 & E2 & E3 & _ & _ & _ & _ & ->).
  unfold enc_round, key_at. rewrite E0, E1, E2, E3. cbn [mbind option_bind]. eexists. split; [reflexivity|].
  rewrite (put_state_bytes _ _ _ _ Hs).
  unfold sub_bytes. cbn [fmap list_fmap]. rewrite shift_rows_eq.
  apply (put_columns _ _ _ _ [_; _; _; _] [_; _; _; _] [_; _; _; _] [_; _; _; _]); first [by apply enc_last_bytes|done].
Qed.

Lemma dec_last_round_ok i s : 0 ≤ i → 4 * i + 4 ≤ zlen (rd_key key) → st_ok s →
  ∃ t, dec_round key dec_last (4 * i) s = Some t ∧
    put_state t = add_round_key (inv_sub_bytes (inv_shift_rows (put_state s))) (rd_round_key (rd_key key) i).
Proof.
  destruct s as [[[s0 s1] s2] s3]. intros Hi Hl Hs. pose proof Hs as (H0 & H1 & H2 & H3).
  destruct (rd_round_key_eq _ i Hrd Hi Hl) as (k0 & k1 & k2 & k3 & E0 & E1 & E2 & E3 & _ & _ & _ & _ & ->).
  unfold dec_round, key_at. rewrite E0, E1, E2, E3. cbn [mbind option_bind]. eexists. split; [reflexivity|].
  rewrite (put_state_bytes _ _ _ _ Hs).
  rewrite inv_shift_rows_eq. unfold inv_sub_bytes. cbn [fmap list_fmap].
  apply (put_columns _ _ _ _ [_; _; _; _] [_; _; _; _] [_; _; _; _] [_; _; _; _]); first [by apply dec_last_bytes|done].
Qed.

(** The loop of full rounds: r turns are 2 r - 1 rounds. *)
Lemma full_rounds_ok round F fuel r i s : round_spec round F → (r ≤ fuel)%nat → (0 < r)%nat → 0 ≤ i →
  4 * (i + 2 * Z.of_nat r) ≤ zlen (rd_key key) → st_ok s →
  ∃ t, full_rounds round fuel (Z.of_nat r) (4 * i) s = Some (t, 4 * (i + 2 * Z.of_nat r)) ∧ st_ok t ∧
    put_state t = rounds_from (fun j s => add_round_key (F s) (rd_round_key (rd_key key) j))
                    (i + 1) (2 * r - 1) (put_state s).
Proof.
  intros HF. revert fuel i s. induction r as [|r IH]; intros fuel i s Hf Hr Hi Hl Hs; [lia|].
  destruct fuel as [|fuel]; [lia|]. cbn [full_rounds].
  destruct (HF (i + 1) s ltac:(lia) ltac:(lia) Hs) as (t & Ht & Hok & Hput).
  replace (4 * i + 4) with (4 * (i + 1)) by lia. rewrite Ht. cbn [mbind option_bind].
  destruct r as [|r].
  - cbn -[Z.mul Z.add]. exists t. split; [by replace (4 * i + 8) with (4 * (i + 2 * 1)) by lia|]. done.
  - replace (Z.of_nat (S (S r)) - 1 =? 0) with false by (symmetry; apply Z.eqb_neq; lia).
    destruct (HF (i + 2) t ltac:(lia) ltac:(lia) Hok) as (u & Hu & Huok & Huput).
    replace (4 * i + 8) with (4 * (i + 2)) by lia. rewrite Hu. cbn [mbind option_bind].
    destruct (IH fuel (i + 2) u ltac:(lia) ltac:(lia) ltac:(lia) ltac:(lia) Huok) as (v & Hv & Hvok & Hvput).
    exists v. replace (Z.of_nat (S (S r)) - 1) with (Z.of_nat (S r)) by lia. rewrite Hv.
    split; [do 2 f_equal; lia|]. split; [done|]. rewrite Hvput, Huput, Hput.
    replace (2 * S (S r) - 1)%nat with (S (S (2 * S r - 1))) by lia. cbn [rounds_from].
    by replace (i + 1 + 1) with (i + 2) by lia.
Qed.

(** The input block plus the first round key. *)
Lemma first_state_ok x : block_ok 16 x → 4 ≤ zlen (rd_key key) →
  ∃ s, first_state key x = Some s ∧ st_ok s ∧ put_state s = add_round_key x (rd_round_key (rd_key key) 0).
Proof.
  intros [Hx Hb] Hl. assert (zlen x = 16) as Hz by (unfold zlen; lia).
  destruct (rd_round_key_eq _ 0 Hrd ltac:(lia) ltac:(lia)) as (k0 & k1 & k2 & k3 & E0 & E1 & E2 & E3 & W0 & W1 & W2 & W3 & ->).
  destruct (GETU32_bytes x 0 Hb ltac:(lia) ltac:(lia)) as (w0 & G0 & V0 & P0).
  destruct (GETU32_bytes x 4 Hb ltac:(lia) ltac:(lia)) as (w1 & G1 & V1 & P1).
  destruct (GETU32_bytes x 8 Hb ltac:(lia) ltac:(lia)) as (w2 & G2 & V2 & P2).
  destruct (GETU32_bytes x 12 Hb ltac:(lia) ltac:(lia)) as (w3 & G3 & V3 & P3).
  change (4 * 0) with 0 in *. change (0 + 1) with 1 in *. change (0 + 2) with 2 in *. change (0 + 3) with 3 in *.
  unfold first_state, key_at. rewrite G0, E0. cbn [mbind option_bind].
  rewrite G1, E1. cbn [mbind option_bind]. rewrite G2, E2. cbn [mbind option_bind]. rewrite G3, E3.
  cbn [mbind option_bind]. eexists. split; [reflexivity|]. split; [split_and!; by apply is_word_lxor|].
  unfold put_state. rewrite !PUTU32_lxor, P0, P1, P2, P3.
  by do 16 (destruct x as [|? x]; [done|]); destruct x; [|done].
Qed.

Lemma half_rounds r : Z.shiftr (2 * r) 1 = r.
Proof. rewrite Z.shiftr_div_pow2 by lia. change (2 ^ 1) with 2. rewrite Z.mul_comm. by apply Z.div_mul. Qed.

Lemma AES_encrypt_ok r x : rounds key = 2 * Z.of_nat r → (0 < r ≤ 7)%nat → zlen (rd_key key) = 60 → block_ok 16 x →
  AES_encrypt key x = Some (cipher (rounds key) (rd_round_key (rd_key key)) x).
Proof.
  intros Hr Hr7 Hl Hx. unfold AES_encrypt.
  destruct (first_state_ok x Hx ltac:(lia)) as (s & -> & Hs & Hput). cbn [mbind option_bind].
  replace (Z.shiftr (rounds key) 1) with (Z.of_nat r) by (by rewrite Hr, half_rounds).
  destruct (full_rounds_ok _ _ 8 r 0 s enc_round_ok ltac:(lia) ltac:(lia) ltac:(lia) ltac:(lia) Hs)
    as (t & Ht & Htok & Htput).
  replace (4 * 0) with 0 in Ht by lia. rewrite Ht. cbn [mbind option_bind].
  replace (4 * (0 + 2 * Z.of_nat r)) with (4 * rounds key) by lia.
  destruct (enc_last_round_ok (rounds key) t ltac:(lia) ltac:(lia) Htok) as (u & -> & Hu). cbn [mbind option_bind].
  rewrite Hu, Htput, Hput. unfold cipher. by replace (Z.to_nat (rounds key - 1)) with (2 * r - 1)%nat by lia.
Qed.

(** The decryption is the equivalent inverse cipher of FIPS-197, 5.3.5. *)
Definition eq_inv_cipher (Nr : Z) (dw : Z → list Z) (x : list Z) : list Z :=
  let s := add_round_key x (dw 0) in
  let s := rounds_from (fun i s => add_round_key (inv_mix_columns (inv_sub_bytes (inv_shift_rows s))) (dw i))
             1 (Z.to_nat (Nr - 1)) s in
  add_round_key (inv_sub_bytes (inv_shift_rows s)) (dw Nr).

Lemma AES_decrypt_ok r x : rounds key = 2 * Z.of_nat r → (0 < r ≤ 7)%nat → zlen (rd_key key) = 60 → block_ok 16 x →
  AES_decrypt key x = Some (eq_inv_cipher (rounds key) (rd_round_key (rd_key key)) x).
Proof.
  intros Hr Hr7 Hl Hx. unfold AES_decrypt.
  destruct (first_state_ok x Hx ltac:(lia)) as (s & -> & Hs & Hput). cbn [mbind option_bind].
  replace (Z.shiftr (rounds key) 1) with (Z.of_nat r) by (by rewrite Hr, half_rounds).
  destruct (full_rounds_ok _ _ 8 r 0 s dec_round_ok ltac:(lia) ltac:(lia) ltac:(lia) ltac:(lia) Hs)
    as (t & Ht & Htok & Htput).
  replace (4 * 0) with 0 in Ht by lia. rewrite Ht. cbn [mbind option_bind].
  replace (4 * (0 + 2 * Z.of_nat r)) with (4 * rounds key) by lia.
  destruct (dec_last_round_ok (rounds key) t ltac:(lia) ltac:(lia) Htok) as (u & -> & Hu). cbn [mbind option_bind].
  rewrite Hu, Htput, Hput. unfold eq_inv_cipher. by replace (Z.to_nat (rounds key - 1)) with (2 * r - 1)%nat by lia.
Qed.
End Rounds.
