(* ===== verification/AesKeys.v ===== *)
(** The key schedules of
    src/drivers/stream_input/t5d_demux/sw_demux/aes_core.c: the words
    [AES_set_encrypt_key] stores are those of the key expansion, the words of
    [AES_set_decrypt_key] those of the equivalent inverse cipher; with
    AesOk.v, that the code is AES. *)

From Stdlib Require Import ZArith Lia Bool.
From stdpp Require Import base list numbers.
From S2P Require Import Prelude.
From S2P Require Import AesCore.
From S2P Require Import AesFips.
From S2P Require Import AesOk.

#[local] Open Scope Z_scope.

(** ** The expansion *)

Lemma zlen_expand Nk n ws : zlen (expand Nk n ws) = zlen ws + Z.of_nat n.
Proof.
  revert ws. induction n as [|n IH]; intros ws; cbn [expand]; [lia|].
  rewrite IH, zlen_app. unfold zlen. cbn [length]. lia.
Qed.

Definition extend (Nk : Z) (e : list (list Z)) : list (list Z) :=
  e ++ [next_word Nk (zlen e) (word_at e (zlen e - Nk)) (word_at e (zlen e - 1))].

Lemma expand_snoc Nk n ws : expand Nk (S n) ws = extend Nk (expand Nk n ws).
Proof.
  revert ws. induction n as [|n IH]; intros ws; [done|].
  change (expand Nk (S (S n)) ws) with (expand Nk (S n) (extend Nk ws)). by rewrite IH.
Qed.

Lemma words_of_lookup n l i : length l = (4 * n)%nat → (i < n)%nat →
  words_of l !! i = Some (take 4 (drop (4 * i) l)).
Proof.
  revert l i. induction n as [|n IH]; intros l i Hl Hi; [lia|].
  destruct l as [|a [|b [|c [|d l]]]]; cbn in Hl; try lia. destruct i as [|i]; [done|].
  cbn [words_of]. rewrite lookup_cons_ne_0 by done. cbn [pred]. rewrite IH by lia.
  by replace (4 * S i)%nat with (S (S (S (S (4 * i))))) by lia.
Qed.

Lemma length_words_of n l : length l = (4 * n)%nat → length (words_of l) = n.
Proof.
  revert l. induction n as [|n IH]; intros l Hl.
  - by apply nil_length_inv in Hl as ->.
  - destruct l as [|a [|b [|c [|d l]]]]; cbn in Hl; try lia. cbn. f_equal. apply IH. lia.
Qed.

(** Byte by byte, S-box and rotation through the masked tables. *)
Lemma sub_rot_bytes x temp : is_word temp →
  PUTU32 (sub_rot x temp) = zip_with Z.lxor (PUTU32 x) (sub_word (rot_word (PUTU32 temp))).
Proof.
  intros Ht. unfold sub_rot. rewrite !PUTU32_lxor, (PUTU32_bytes temp Ht).
  destruct (byte_ranges temp) as (H2 & H1 & H0).
  destruct (Te_masked _ H2) as (-> & _), (Te_masked _ H1) as (_ & -> & _), (Te_masked _ H0) as (_ & _ & -> & _),
    (Te_masked _ (byte3_range _ Ht)) as (_ & _ & _ & ->).
  unfold PUTU32, sub_word, rot_word. cbn [zip_with fmap list_fmap drop take app].
  by rewrite ?Z.lxor_0_r, ?Z.lxor_0_l.
Qed.

Lemma sub_plain_bytes x temp : is_word temp →
  PUTU32 (sub_plain x temp) = zip_with Z.lxor (PUTU32 x) (sub_word (PUTU32 temp)).
Proof.
  intros Ht. unfold sub_plain. rewrite !PUTU32_lxor, (PUTU32_bytes temp Ht).
  destruct (byte_ranges temp) as (H2 & H1 & H0).
  destruct (Te_masked _ (byte3_range _ Ht)) as (-> & _), (Te_masked _ H2) as (_ & -> & _),
    (Te_masked _ H1) as (_ & _ & -> & _), (Te_masked _ H0) as (_ & _ & _ & ->).
  unfold PUTU32, sub_word. cbn [zip_with fmap list_fmap].
  by rewrite ?Z.lxor_0_r, ?Z.lxor_0_l.
Qed.

(** A masked word is a word. *)
Lemma is_word_land a b : is_word b → is_word (Z.land a b).
Proof.
  intros Hb. unfold is_word in *.
  assert (0 ≤ Z.land a b) by (apply Z.land_nonneg; lia). split; [done|].
  rewrite <- (Z.mod_small b (2 ^ 32)) by done. rewrite <- Z.land_ones, Z.land_assoc, Z.land_ones by lia.
  by apply Z.mod_pos_bound.
Qed.

Lemma sub_is_word x temp : is_word x → is_word (sub_rot x temp) ∧ is_word (sub_plain x temp).
Proof.
  intros Hx. unfold sub_rot, sub_plain.
  split; repeat apply is_word_lxor; try done; apply is_word_land; unfold is_word; lia.
Qed.

Lemma rcon_bytes i : 0 ≤ i < 10 → ∃ c, aget rcon i = Some c ∧ is_word c ∧ PUTU32 c = rcon_word (i + 1).
Proof.
  intros Hi. assert (i ∈ [0; 1; 2; 3; 4; 5; 6; 7; 8; 9]) as Hin by (rewrite !elem_of_cons; lia).
  clear Hi. revert i Hin. apply list.Forall_forall.
  repeat (constructor; [eexists; split; [reflexivity|by vm_compute]|]). constructor.
Qed.

Section Schedule.
Context (N : nat) (key : list Z) (R : Z) (HN : (0 < N)%nat) (Hkey : block_ok (4 * N) key).

#[local] Notation Nk := (Z.of_nat N).
#[local] Notation W n := (expand Nk n (words_of key)).

(** The first [N + n] words of the schedule are there. *)
Record sched (n : nat) (k : AES_KEY) : Prop := {
  sc_len : zlen (rd_key k) = 60;
  sc_words : Forall is_word (rd_key k);
  sc_take : take (N + n) (PUTU32 <$> rd_key k) = W n;
  sc_rounds : rounds k = R
}.

Lemma zlen_W n : zlen (W n) = Nk + Z.of_nat n.
Proof. rewrite zlen_expand. unfold zlen. rewrite (length_words_of N) by apply Hkey. lia. Qed.

Lemma sched_rk {U} n k i (Q : Z → AES_KEY → Prop) E : sched n k → 0 ≤ i < Nk + Z.of_nat n → Nk + Z.of_nat n ≤ 60 →
  (∀ v, is_word v → word_at (W n) i = PUTU32 v → Q v k) → wp U (rk i) Q E k.
Proof.
  intros [Hl Hw Ht Hr] Hi Hn HQ. destruct (rd_words (rd_key k) i Hw ltac:(lia)) as (v & Hv & Hvw).
  unfold rk. apply wp_bind, wp_gets, wp_of_option; [|congruence]. intros ? Ha. assert (a = v) as -> by congruence.
  apply HQ; [done|]. rewrite <- Ht. unfold word_at. apply nth_lookup_Some.
  rewrite lookup_take_lt by lia. apply aget_inv in Hv as [_ Hv]. by rewrite list_lookup_fmap, Hv.
Qed.

Lemma sched_set_rk {U} n k v (Q : unit → AES_KEY → Prop) E : sched n k → is_word v → Nk + Z.of_nat n < 60 →
  PUTU32 v = next_word Nk (Nk + Z.of_nat n) (word_at (W n) (Z.of_nat n)) (word_at (W n) (Nk + Z.of_nat n - 1)) →
  (∀ k', sched (S n) k' → Q tt k') → wp U (set_rk (Nk + Z.of_nat n) v) Q E k.
Proof.
  intros [Hl Hw Ht Hr] Hv Hn He HQ. unfold set_rk. apply wp_bind, wp_gets, wp_bind, wp_of_option.
  - intros l' [Hrange ->]%aset_inv. apply wp_modify, HQ.
    assert (Z.to_nat (Nk + Z.of_nat n) < length (rd_key k))%nat as Hlt by (unfold zlen in Hl; lia).
    split; cbn -[expand]; [by rewrite zlen_insert|by apply Forall_insert| |done].
    replace (Z.to_nat (Nk + Z.of_nat n)) with (N + n)%nat in * by lia.
    rewrite list_fmap_insert. replace (N + S n)%nat with (S (N + n)) by lia.
    rewrite (take_S_r _ _ (PUTU32 v)) by (apply list_lookup_insert_eq; by rewrite length_fmap).
    rewrite take_insert_ge by lia. rewrite expand_snoc, Ht. unfold extend. rewrite zlen_W, He.
    by replace (Nk + Z.of_nat n - Nk) with (Z.of_nat n) by lia.
  - intros Hnone%aset_None. lia.
Qed.

(** [rk[d] = rk[d - Nk] ^ rk[d - 1]] where nothing is substituted. *)
Lemma xor_rk_ok {U} n k d a b (Q : unit → AES_KEY → Prop) E :
  sched n k → d = Nk + Z.of_nat n → a = Z.of_nat n → b = Nk + Z.of_nat n - 1 → d < 60 →
  d mod Nk ≠ 0 → (d mod Nk ≠ 4 ∨ Nk ≤ 6) → (∀ k', sched (S n) k' → Q tt k') → wp U (xor_rk d a b) Q E k.
Proof.
  intros Hs -> -> -> Hd Hm H4 HQ. unfold xor_rk. apply wp_bind.
  apply (sched_rk n k); [done|lia|lia|]. intros x Hx Hxe. apply wp_bind.
  apply (sched_rk n k); [done|lia|lia|]. intros y Hy Hye.
  apply (sched_set_rk n); [done|by apply is_word_lxor|done| |done].
  rewrite PUTU32_lxor, <- Hxe, <- Hye. unfold next_word. rewrite (proj2 (Z.eqb_neq _ _) Hm).
  destruct H4 as [H4|H4].
  - by rewrite (proj2 (Z.eqb_neq _ _) H4), andb_false_r.
  - by rewrite (proj2 (Z.ltb_ge _ _) H4).
Qed.

(** The first word of a turn. *)
Lemma rot_rk_ok {U} n k d a t i (Q : unit → AES_KEY → Prop) E :
  sched n k → d = Nk + Z.of_nat n → a = Z.of_nat n → t = Nk + Z.of_nat n - 1 → d < 60 →
  Z.of_nat n = Nk * i → 0 ≤ i < 10 → (∀ k', sched (S n) k' → Q tt k') → wp U (rot_rk d a t i) Q E k.
Proof.
  intros Hs -> -> -> Hd Hn Hi HQ. unfold rot_rk. apply wp_bind.
  apply (sched_rk n k); [done|lia|lia|]. intros temp Ht Hte. apply wp_bind.
  apply (sched_rk n k); [done|lia|lia|]. intros x Hx Hxe. apply wp_bind.
  destruct (rcon_bytes i Hi) as (c & Hc & Hcw & Hcb). apply wp_of_option; [|congruence].
  intros c' Hc'. assert (c' = c) as -> by congruence.
  apply (sched_set_rk n); [done|apply is_word_lxor; [exact (proj1 (sub_is_word x temp Hx))|exact Hcw]|done| |done].
  rewrite PUTU32_lxor, sub_rot_bytes, Hcb, <- Hxe, <- Hte by done. unfold next_word.
  assert (Nk + Z.of_nat n = (i + 1) * Nk) as -> by lia. rewrite Z.mod_mul, Z.div_mul by lia. cbn [Z.eqb].
  rewrite Hxe. replace ((i + 1) * Nk - 1) with (Nk + Z.of_nat n - 1) by lia. rewrite Hte.
  rewrite (PUTU32_bytes temp Ht). unfold PUTU32, sub_word, rot_word, rcon_word.
  cbn [zip_with fmap list_fmap drop take app]. by rewrite !Z.lxor_assoc.
Qed.
End Schedule.

(** One step of a turn: word [d] is the next one. *)
Ltac next_word_step N key R Hkey :=
  apply wp_bind;
  first [ eapply (rot_rk_ok N key R ltac:(lia) Hkey) | eapply (xor_rk_ok N key R ltac:(lia) Hkey) ];
  [ eassumption | .. ]; try (intros ? ?); try lia; try (Z.to_euclidean_division_equations; lia).

Section Loops.
Context (key : list Z) (R : Z).

Lemma expand_128_ok {U} f i k : block_ok 16 key → Z.of_nat f = 10 - i → 0 ≤ i < 10 →
  sched 4 key R (4 * Z.to_nat i) k →
  wp U (expand_128 f i (4 * i)) (fun _ => sched 4 key R 40) (fun _ _ => False) k.
Proof.
  intros Hkey. change (block_ok (4 * 4) key) in Hkey. revert i k. induction f as [|f IH]; intros i k Hf Hi Hs; [lia|].
  cbn [expand_128].
  do 4 next_word_step 4%nat key R Hkey.
  destruct (Z.eqb_spec (i + 1) 10) as [He|He].
  - apply wp_ret. by replace 40%nat with (S (S (S (S (4 * Z.to_nat i))))) by lia.
  - replace (4 * i + 4) with (4 * (i + 1)) by lia. apply IH; [lia|lia|].
    by replace (4 * Z.to_nat (i + 1))%nat with (S (S (S (S (4 * Z.to_nat i))))) by lia.
Qed.

Lemma expand_192_ok {U} f i k : block_ok 24 key → Z.of_nat f = 8 - i → 0 ≤ i < 8 →
  sched 6 key R (6 * Z.to_nat i) k →
  wp U (expand_192 f i (6 * i)) (fun _ => sched 6 key R 46) (fun _ _ => False) k.
Proof.
  intros Hkey. change (block_ok (4 * 6) key) in Hkey. revert i k. induction f as [|f IH]; intros i k Hf Hi Hs; [lia|].
  cbn [expand_192].
  do 4 next_word_step 6%nat key R Hkey.
  destruct (Z.eqb_spec (i + 1) 8) as [He|He].
  - apply wp_ret. by replace 46%nat with (S (S (S (S (6 * Z.to_nat i))))) by lia.
  - do 2 next_word_step 6%nat key R Hkey. replace (6 * i + 6) with (6 * (i + 1)) by lia. apply IH; [lia|lia|].
    by replace (6 * Z.to_nat (i + 1))%nat with (S (S (S (S (S (S (6 * Z.to_nat i))))))) by lia.
Qed.

(** In a turn of the 256 bit loop, the fifth word is substituted too. *)
Lemma plain_rk_ok {U} n k d a t (rest : K unit) (Q : unit → AES_KEY → Prop) E :
  block_ok (4 * 8) key → sched 8 key R n k → d = 8 + Z.of_nat n → a = Z.of_nat n → t = 8 + Z.of_nat n - 1 → d < 60 →
  d mod 8 = 4 → (∀ k', sched 8 key R (S n) k' → wp U rest Q E k') →
  wp U (temp ← rk t; x ← rk a; set_rk d (sub_plain x temp);; rest) Q E k.
Proof.
  intros Hkey Hs -> -> -> Hd Hm HQ. apply wp_bind.
  apply (sched_rk 8 key R ltac:(lia) n k); [done|lia|lia|]. intros temp Ht Hte. apply wp_bind.
  apply (sched_rk 8 key R ltac:(lia) n k); [done|lia|lia|]. intros x Hx Hxe. apply wp_bind.
  apply (sched_set_rk 8 key R ltac:(lia) Hkey n); [done|exact (proj2 (sub_is_word x temp Hx))|lia| |done].
  rewrite sub_plain_bytes by done. change (Z.of_nat 8) with 8 in *. rewrite <- Hxe, <- Hte. unfold next_word.
  rewrite Hm. reflexivity.
Qed.

Lemma expand_256_ok {U} f i k : block_ok 32 key → Z.of_nat f = 7 - i → 0 ≤ i < 7 →
  sched 8 key R (8 * Z.to_nat i) k →
  wp U (expand_256 f i (8 * i)) (fun _ => sched 8 key R 52) (fun _ _ => False) k.
Proof.
  intros Hkey. change (block_ok (4 * 8) key) in Hkey.
  revert i k. induction f as [|f IH]; intros i k Hf Hi Hs; [lia|].
  cbn [expand_256].
  do 4 next_word_step 8%nat key R Hkey.
  destruct (Z.eqb_spec (i + 1) 7) as [He|He].
  - apply wp_ret. by replace 52%nat with (S (S (S (S (8 * Z.to_nat i))))) by lia.
  - eapply plain_rk_ok; [done|eassumption|lia|lia|lia|lia|Z.to_euclidean_division_equations; lia|].
    intros ? ?. do 3 next_word_step 8%nat key R Hkey.
    replace (8 * i + 8) with (8 * (i + 1)) by lia. apply IH; [lia|lia|].
    by replace (8 * Z.to_nat (i + 1))%nat with (S (S (S (S (S (S (S (S (8 * Z.to_nat i))))))))) by lia.
Qed.
End Loops.

(** ** The words of the key *)

(** The first [m] words of the key are there. *)
Record loaded (N : nat) (key : list Z) (R : Z) (m : nat) (k : AES_KEY) : Prop := {
  ld_len : zlen (rd_key k) = 60;
  ld_words : Forall is_word (rd_key k);
  ld_take : take m (PUTU32 <$> rd_key k) = take m (words_of key);
  ld_rounds : rounds k = R
}.

Section Load.
Context (N : nat) (key : list Z) (R : Z) (HN : (N ≤ 8)%nat) (Hkey : block_ok (4 * N) key).

Lemma key_word_ok {U} m k i (Q : unit → AES_KEY → Prop) E :
  loaded N key R m k → i = Z.of_nat m → (m < N)%nat → (∀ k', loaded N key R (S m) k' → Q tt k') →
  wp U (key_word key i) Q E k.
Proof.
  intros [Hl Hw Ht Hr] -> Hm HQ. destruct Hkey as [Hlen Hbytes]. unfold key_word. apply wp_bind.
  destruct (GETU32_bytes key (4 * Z.of_nat m) Hbytes ltac:(lia) ltac:(unfold zlen; lia)) as (w & Hg & Hwd & Hb).
  apply wp_of_option; [|congruence]. intros w' Hw'. assert (w' = w) as -> by congruence.
  unfold set_rk. apply wp_bind, wp_gets, wp_bind, wp_of_option.
  - intros l' [Hrange ->]%aset_inv. apply wp_modify, HQ.
    assert (m < length (rd_key k))%nat as Hlt by (unfold zlen in Hl; lia). rewrite Nat2Z.id.
    split; cbn; [by rewrite zlen_insert|by apply Forall_insert| |done].
    rewrite list_fmap_insert. rewrite (take_S_r _ _ (PUTU32 w)) by (apply list_lookup_insert_eq; by rewrite length_fmap).
    rewrite take_insert_ge, Ht by lia. symmetry. apply take_S_r.
    rewrite (words_of_lookup N) by done. f_equal. rewrite Hb. do 2 f_equal. lia.
  - intros Hnone%aset_None. lia.
Qed.

Lemma loaded_sched k : loaded N key R N k → sched N key R 0 k.
Proof.
  intros [Hl Hw Ht Hr]. split; [done..| |done]. rewrite Nat.add_0_r, Ht. cbn [expand].
  apply take_ge. by rewrite (length_words_of N) by apply Hkey.
Qed.
End Load.

(** ** AES_set_encrypt_key *)

Definition key_size (bits : Z) : Prop := bits = 128 ∨ bits = 192 ∨ bits = 256.

(** The type of a key: an array of 60 words. *)
Definition key_ok (k : AES_KEY) : Prop := zlen (rd_key k) = 60 ∧ Forall is_word (rd_key k).

(** [k] holds the round keys [w 0 .. w R]. *)
Record holds (R : Z) (w : Z → list Z) (k : AES_KEY) : Prop := {
  ho_ok : key_ok k;
  ho_rounds : rounds k = R;
  ho_keys : ∀ i, 0 ≤ i ≤ R → rd_round_key (rd_key k) i = w i
}.

Lemma sched_holds N key R n k : sched N key R n k → Z.of_nat (N + n) = 4 * (R + 1) →
  holds R (round_key (expand (Z.of_nat N) n (words_of key))) k.
Proof.
  intros [Hl Hw Ht Hr] Hn. split; [done|done|]. intros i Hi. unfold rd_round_key, round_key.
  assert (∀ j, 0 ≤ j < 4 * (R + 1) →
    word_at (PUTU32 <$> rd_key k) j = word_at (expand (Z.of_nat N) n (words_of key)) j) as Hj.
  { intros j Hj. rewrite <- Ht. unfold word_at. rewrite !nth_lookup, lookup_take_lt; [done|lia]. }
  by rewrite !Hj by lia.
Qed.

Lemma AES_set_encrypt_key_ok {U} bits key k : key_size bits → block_ok (Z.to_nat (bits / 8)) key → key_ok k →
  wp U (AES_set_encrypt_key (Some key) bits)
    (fun r k' => r = 0 ∧ holds (bits / 32 + 6) (aes_round_keys bits key) k') (fun _ _ => False) k.
Proof.
  intros Hbits Hkey [Hl Hw]. unfold AES_set_encrypt_key.
  destruct Hbits as [-> | [-> | ->]]; cbn [Z.eqb negb andb Pos.eqb]; apply wp_bind, wp_modify.
  - change (block_ok (4 * 4) key) in Hkey.
    assert (loaded 4 key 10 0 (k <| rounds := 10 |>)) as H0 by (split; done).
    do 4 (apply wp_bind; eapply (key_word_ok 4 key 10 ltac:(lia) Hkey); [eassumption|done|lia|intros ? ?]).
    apply wp_bind. eapply wp_mono; [apply (expand_128_ok key 10 10 0); [done|lia|lia|by apply loaded_sched]| |done].
    intros ? kf Hs. apply wp_ret. split; [done|]. by apply (sched_holds 4 key 10 40).
  - change (block_ok (4 * 6) key) in Hkey.
    assert (loaded 6 key 12 0 (k <| rounds := 12 |>)) as H0 by (split; done).
    do 6 (apply wp_bind; eapply (key_word_ok 6 key 12 ltac:(lia) Hkey); [eassumption|done|lia|intros ? ?]).
    apply wp_bind. eapply wp_mono; [apply (expand_192_ok key 12 8 0); [done|lia|lia|by apply loaded_sched]| |done].
    intros ? kf Hs. apply wp_ret. split; [done|]. by apply (sched_holds 6 key 12 46).
  - change (block_ok (4 * 8) key) in Hkey.
    assert (loaded 8 key 14 0 (k <| rounds := 14 |>)) as H0 by (split; done).
    do 8 (apply wp_bind; eapply (key_word_ok 8 key 14 ltac:(lia) Hkey); [eassumption|done|lia|intros ? ?]).
    apply wp_bind. eapply wp_mono; [apply (expand_256_ok key 14 7 0); [done|lia|lia|by apply loaded_sched]| |done].
    intros ? kf Hs. apply wp_ret. split; [done|]. by apply (sched_holds 8 key 14 52).
Qed.

(** ** AES_set_decrypt_key *)

(** The words after the order of the round keys is inverted and the inner
    ones are transformed. *)
Definition inverted (R : Z) (rd : list Z) : list Z :=
  ((fun j => let v := tab rd (4 * (R - j / 4) + j mod 4) in
             if (j / 4 =? 0) || (j / 4 =? R) then v else inv_mix_word v) <$> seqZ 0 (4 * (R + 1)))
  ++ drop (Z.to_nat (4 * (R + 1))) rd.

Definition decrypt_schedule : K unit :=
  n ← gets rounds;
  invert_order 8 0 (4 * n);;
  for_range 1 n (fun i =>
    inv_mix_rk (4 * i);; inv_mix_rk (4 * i + 1);; inv_mix_rk (4 * i + 2);; inv_mix_rk (4 * i + 3)).

Lemma decrypt_schedule_eq rd R : zlen rd = 60 → R = 10 ∨ R = 12 ∨ R = 14 →
  decrypt_schedule (mk_aes_key rd R) = Ok tt (mk_aes_key (inverted R rd) R).
Proof.
  intros Hl HR. assert (length rd = 60)%nat as Hl' by (unfold zlen in Hl; lia). clear Hl.
  do 60 (destruct rd as [|? rd]; [done|]). destruct rd; [|done]. clear Hl'.
  destruct HR as [-> | [-> | ->]]; lazy -[inv_mix_word]; reflexivity.
Qed.

Lemma inv_mix_word_bytes v : is_word v →
  PUTU32 (inv_mix_word v) = inv_mix_columns (PUTU32 v) ∧ is_word (inv_mix_word v).
Proof.
  intros Hv. destruct (byte_ranges v) as (H2 & H1 & H0). pose proof (byte3_range v Hv) as H3.
  unfold inv_mix_word. rewrite !Te1_low by done. split.
  - rewrite !PUTU32_lxor.
    destruct (Td_bytes _ (sbox_byte _ H3)) as (-> & _), (Td_bytes _ (sbox_byte _ H2)) as (_ & -> & _),
      (Td_bytes _ (sbox_byte _ H1)) as (_ & _ & -> & _), (Td_bytes _ (sbox_byte _ H0)) as (_ & _ & _ & ->).
    rewrite !inv_sbox_sbox, (PUTU32_bytes v Hv) by done. unfold inv_mix_columns. rewrite mul_columns_cons.
    cbn [mul_columns]. by rewrite app_nil_r.
  - repeat apply is_word_lxor; apply Td_words.
Qed.

(** The round keys of the equivalent inverse cipher. *)
Definition inv_round_keys (R : Z) (w : Z → list Z) (i : Z) : list Z :=
  if (i =? 0) || (i =? R) then w (R - i) else inv_mix_columns (w (R - i)).

Lemma inverted_lookup R rd j : 0 ≤ R → 4 * (R + 1) ≤ zlen rd → 0 ≤ j < 4 * (R + 1) →
  aget (inverted R rd) j =
    Some (let v := tab rd (4 * (R - j / 4) + j mod 4) in
          if (j / 4 =? 0) || (j / 4 =? R) then v else inv_mix_word v).
Proof.
  intros HR Hl Hj. unfold aget, inverted. rewrite (proj2 (Z.leb_le 0 j)) by lia.
  rewrite lookup_app_l by (rewrite length_fmap, length_seqZ; lia).
  rewrite list_lookup_fmap, lookup_seqZ_lt by lia. cbn [fmap option_fmap option_map].
  by replace (0 + Z.of_nat (Z.to_nat j)) with j by lia.
Qed.

Lemma tab_aget rd i v : aget rd i = Some v → tab rd i = v.
Proof. intros [_ Hv]%aget_inv. unfold tab. by apply nth_lookup_Some. Qed.

Lemma inverted_words R rd : zlen rd = 60 → Forall is_word rd → Forall is_word (inverted R rd).
Proof.
  intros Hl Hw. apply Forall_app. split; [|by apply Forall_drop]. apply Forall_fmap, Forall_forall.
  intros j _. cbn zeta. assert (∀ i, is_word (tab rd i)) as Ht.
  { intros i. unfold tab. destruct (nth_in_or_default (Z.to_nat i) rd 0) as [Hin| ->]; [|done].
    exact (proj1 (Forall_forall _ _) Hw _ Hin). }
  unfold compose. destruct (_ || _); [apply Ht|]. by apply inv_mix_word_bytes.
Qed.

Lemma decrypt_schedule_ok {U} w R k : holds R w k → R = 10 ∨ R = 12 ∨ R = 14 →
  wp U decrypt_schedule (fun _ => holds R (inv_round_keys R w)) (fun _ _ => False) k.
Proof.
  intros [[Hl Hw] Hr Hk] HR. destruct k as [rd r]. cbn [rd_key rounds] in *. subst r. unfold wp.
  rewrite decrypt_schedule_eq by done.
  assert (zlen (inverted R rd) = 60) as Hl'.
  { unfold inverted, zlen in *. rewrite length_app, length_fmap, length_seqZ, length_drop. lia. }
  pose proof (inverted_words R rd Hl Hw) as Hw'. split; [done|done|]. cbn [rd_key]. intros i Hi.
  destruct (rd_round_key_eq _ i Hw' ltac:(lia) ltac:(lia)) as (k0 & k1 & k2 & k3 & E0 & E1 & E2 & E3 & _ & _ & _ & _ & ->).
  destruct (rd_round_key_eq rd (R - i) Hw ltac:(lia) ltac:(lia))
    as (v0 & v1 & v2 & v3 & F0 & F1 & F2 & F3 & V0 & V1 & V2 & V3 & Hv).
  unfold inv_round_keys. rewrite <- Hk by lia. rewrite Hv.
  rewrite inverted_lookup in E0, E1, E2, E3 by lia.
  replace (4 * i / 4) with i in E0 by (Z.to_euclidean_division_equations; lia).
  replace ((4 * i + 1) / 4) with i in E1 by (Z.to_euclidean_division_equations; lia).
  replace ((4 * i + 2) / 4) with i in E2 by (Z.to_euclidean_division_equations; lia).
  replace ((4 * i + 3) / 4) with i in E3 by (Z.to_euclidean_division_equations; lia).
  replace ((4 * i) mod 4) with 0 in E0 by (Z.to_euclidean_division_equations; lia). rewrite Z.add_0_r in E0.
  replace ((4 * i + 1) mod 4) with 1 in E1 by (Z.to_euclidean_division_equations; lia).
  replace ((4 * i + 2) mod 4) with 2 in E2 by (Z.to_euclidean_division_equations; lia).
  replace ((4 * i + 3) mod 4) with 3 in E3 by (Z.to_euclidean_division_equations; lia).
  rewrite (tab_aget _ _ _ F0) in E0. rewrite (tab_aget _ _ _ F1) in E1.
  rewrite (tab_aget _ _ _ F2) in E2. rewrite (tab_aget _ _ _ F3) in E3. cbn zeta in *.
  destruct ((i =? 0) || (i =? R)); simplify_eq; [done|].
  rewrite (proj1 (inv_mix_word_bytes v0 V0)), (proj1 (inv_mix_word_bytes v1 V1)),
    (proj1 (inv_mix_word_bytes v2 V2)), (proj1 (inv_mix_word_bytes v3 V3)).
  unfold PUTU32, inv_mix_columns. cbn [app]. rewrite mul_four_columns, !mul_columns_cons.
  cbn [mul_columns]. by rewrite !app_nil_r.
Qed.

Lemma AES_set_decrypt_key_eq userKey bits k :
  AES_set_decrypt_key userKey bits k =
    (status ← AES_set_encrypt_key userKey bits;
     if status <? 0 then mret status else decrypt_schedule;; mret 0) k.
Proof.
  unfold AES_set_decrypt_key, decrypt_schedule. unfold mbind, K_bind, M_bind.
  destruct (AES_set_encrypt_key userKey bits k) as [st k'| |]; [|done..]. destruct (st <? 0); [done|].
  cbn [gets]. by destruct (invert_order 8 0 (4 * rounds k') k').
Qed.

Lemma AES_set_decrypt_key_ok {U} bits key k : key_size bits → block_ok (Z.to_nat (bits / 8)) key → key_ok k →
  wp U (AES_set_decrypt_key (Some key) bits)
    (fun r k' => r = 0 ∧ holds (bits / 32 + 6) (inv_round_keys (bits / 32 + 6) (aes_round_keys bits key)) k')
    (fun _ _ => False) k.
Proof.
  intros Hb Hkey Hk. unfold wp. rewrite AES_set_decrypt_key_eq.
  change (wp U (status ← AES_set_encrypt_key (Some key) bits;
    if status <? 0 then mret status else decrypt_schedule;; mret 0)
    (fun r k' => r = 0 ∧ holds (bits / 32 + 6) (inv_round_keys (bits / 32 + 6) (aes_round_keys bits key)) k')
    (fun _ _ => False) k).
  apply wp_bind. eapply wp_mono; [by apply AES_set_encrypt_key_ok| |done]. intros r k' [-> Hh]. cbn [Z.ltb Z.compare].
  apply wp_bind. eapply wp_mono; [apply (decrypt_schedule_ok _ _ _ Hh)| |done].
  - destruct Hb as [-> | [-> | ->]]; vm_compute; tauto.
  - intros ? k'' Hh'. by apply wp_ret.
Qed.

(** ** The theorems *)

Lemma holds_word_block R w k i : holds R w k → 0 ≤ R → R ≤ 14 → 0 ≤ i ≤ R → block_ok 16 (w i).
Proof. intros [[Hl Hw] _ Hk] HR HR' Hi. rewrite <- Hk by done. apply rd_round_key_ok; [done|lia|lia]. Qed.

Lemma rounds_from_ext (P : list Z → Prop) F G k n s :
  (∀ i s, k ≤ i < k + Z.of_nat n → P s → F i s = G i s ∧ P (F i s)) → P s →
  rounds_from F k n s = rounds_from G k n s.
Proof.
  revert k s. induction n as [|n IH]; intros k s HFG Hs; cbn [rounds_from]; [done|].
  destruct (HFG k s ltac:(lia) Hs) as [He HP]. rewrite <- He. apply IH; [|done].
  intros i t Hi. apply HFG. lia.
Qed.

(** The round keys of the inverse cipher make the two forms of it equal. *)
Lemma eq_inv_cipher_ok R w x : 1 ≤ R → (∀ i, 0 ≤ i ≤ R → block_ok 16 (w i)) → block_ok 16 x →
  eq_inv_cipher R (inv_round_keys R w) x = inv_cipher R w x.
Proof.
  intros HR Hw Hx. unfold eq_inv_cipher, inv_cipher.
  assert (inv_round_keys R w 0 = w R) as ->.
  { unfold inv_round_keys. cbn [Z.eqb orb]. by replace (R - 0) with R by lia. }
  assert (inv_round_keys R w R = w 0) as ->.
  { unfold inv_round_keys. rewrite Z.eqb_refl, orb_true_r. by rewrite Z.sub_diag. }
  do 3 f_equal. apply (rounds_from_ext (block_ok 16)); [|apply add_round_key_ok; [done|apply Hw; lia]].
  intros i s Hi Hs. unfold inv_round_keys.
  rewrite (proj2 (Z.eqb_neq i 0)), (proj2 (Z.eqb_neq i R)) by lia. cbn [orb].
  assert (block_ok 16 (inv_sub_bytes (inv_shift_rows s))) as Hss by (by apply inv_sub_bytes_ok, inv_shift_rows_ok).
  assert (block_ok 16 (w (R - i))) as Hk by (apply Hw; lia). split.
  - symmetry. apply (mul_columns_lxor _ _ _ _ 4); [done|apply Hk].
  - apply add_round_key_ok; by apply (mul_columns_ok _ _ _ _ 4).
Qed.

Lemma aes_round_keys_ok bits key : key_size bits → block_ok (Z.to_nat (bits / 8)) key →
  ∀ i, 0 ≤ i ≤ bits / 32 + 6 → block_ok 16 (aes_round_keys bits key i).
Proof.
  intros Hb Hkey i Hi.
  assert (key_ok blank_key) as Hk by (split; [done|by repeat constructor]).
  pose proof (AES_set_encrypt_key_ok (U := False) bits key blank_key Hb Hkey Hk) as Hwp. unfold wp in Hwp.
  destruct (AES_set_encrypt_key _ _ _) as [r k'| |]; [|done..]. destruct Hwp as [_ Hh].
  apply (holds_word_block _ _ _ _ Hh); [|destruct Hb as [-> | [-> | ->]]; by vm_compute|done].
  destruct Hb as [-> | [-> | ->]]; by vm_compute.
Qed.

Lemma half_of_rounds bits : key_size bits → ∃ r, bits / 32 + 6 = 2 * Z.of_nat r ∧ (0 < r ≤ 7)%nat.
Proof. intros [-> | [-> | ->]]; [exists 5%nat|exists 6%nat|exists 7%nat]; (split; [done|lia]). Qed.

Lemma cipher_ext Nr w w' x : 1 ≤ Nr → (∀ i, 0 ≤ i ≤ Nr → w i = w' i) → cipher Nr w x = cipher Nr w' x.
Proof.
  intros HN Hw. unfold cipher. rewrite (Hw 0), (Hw Nr) by lia. do 3 f_equal.
  apply (rounds_from_ext (fun _ => True)); [|done]. intros i s Hi _. split; [|done]. by rewrite Hw by lia.
Qed.

Lemma eq_inv_cipher_ext Nr w w' x : 1 ≤ Nr → (∀ i, 0 ≤ i ≤ Nr → w i = w' i) →
  eq_inv_cipher Nr w x = eq_inv_cipher Nr w' x.
Proof.
  intros HN Hw. unfold eq_inv_cipher. rewrite (Hw 0), (Hw Nr) by lia. do 3 f_equal.
  apply (rounds_from_ext (fun _ => True)); [|done]. intros i s Hi _. split; [|done]. by rewrite Hw by lia.
Qed.

Lemma encrypt_key_ready bits key k : key_size bits → block_ok (Z.to_nat (bits / 8)) key → key_ok k →
  ∃ k', AES_set_encrypt_key (Some key) bits k = Ok 0 k' ∧
    ∀ x, block_ok 16 x → AES_encrypt k' x = Some (aes_cipher bits key x).
Proof.
  intros Hb Hkey Hk. pose proof (AES_set_encrypt_key_ok (U := False) bits key k Hb Hkey Hk) as Hwp. unfold wp in Hwp.
  destruct (AES_set_encrypt_key _ _ _) as [st k'| |]; [|done..]. destruct Hwp as [-> [[Hl Hw] Hr Hh]].
  exists k'. split; [done|]. intros x Hx. destruct (half_of_rounds bits Hb) as (r & Her & Hr7).
  rewrite (AES_encrypt_ok k' Hw r) by (congruence || done). unfold aes_cipher. f_equal. rewrite Hr.
  apply cipher_ext; [lia|done].
Qed.

Lemma decrypt_key_ready bits key k : key_size bits → block_ok (Z.to_nat (bits / 8)) key → key_ok k →
  ∃ k', AES_set_decrypt_key (Some key) bits k = Ok 0 k' ∧
    ∀ x, block_ok 16 x → AES_decrypt k' x = Some (aes_inv_cipher bits key x).
Proof.
  intros Hb Hkey Hk. pose proof (AES_set_decrypt_key_ok (U := False) bits key k Hb Hkey Hk) as Hwp. unfold wp in Hwp.
  destruct (AES_set_decrypt_key _ _ _) as [st k'| |]; [|done..]. destruct Hwp as [-> [[Hl Hw] Hr Hh]].
  exists k'. split; [done|]. intros y Hy. destruct (half_of_rounds bits Hb) as (r & Her & Hr7).
  pose proof (aes_round_keys_ok bits key Hb Hkey) as Hwk.
  rewrite (AES_decrypt_ok k' Hw r) by (congruence || done). f_equal. rewrite Hr.
  rewrite (eq_inv_cipher_ext _ _ (inv_round_keys (bits / 32 + 6) (aes_round_keys bits key))) by (lia || done).
  apply eq_inv_cipher_ok; [lia|done..].
Qed.

(** The cipher and its inverse on blocks. *)
Lemma aes_cipher_ok bits key x : key_size bits → block_ok (Z.to_nat (bits / 8)) key → block_ok 16 x →
  block_ok 16 (aes_cipher bits key x) ∧ aes_inv_cipher bits key (aes_cipher bits key x) = x.
Proof.
  intros Hb Hkey Hx. pose proof (aes_round_keys_ok bits key Hb Hkey) as Hwk.
  assert (1 ≤ bits / 32 + 6) by (destruct Hb as [-> | [-> | ->]]; by vm_compute).
  split; [by apply cipher_ok|by apply inv_cipher_cipher].
Qed.

Lemma aes_inv_cipher_ok bits key x : key_size bits → block_ok (Z.to_nat (bits / 8)) key → block_ok 16 x →
  block_ok 16 (aes_inv_cipher bits key x).
Proof.
  intros Hb Hkey Hx. pose proof (aes_round_keys_ok bits key Hb Hkey) as Hwk.
  assert (1 ≤ bits / 32 + 6) by (destruct Hb as [-> | [-> | ->]]; by vm_compute). by apply inv_cipher_ok.
Qed.

(** AES encryption: with the schedule of [AES_set_encrypt_key],
    [AES_encrypt] is the cipher of FIPS-197, for keys of 128, 192 and 256
    bits. *)
Theorem AES_encrypt_spec bits key k x :
  key_size bits → block_ok (Z.to_nat (bits / 8)) key → key_ok k → block_ok 16 x →
  ∃ k', AES_set_encrypt_key (Some key) bits k = Ok 0 k' ∧ AES_encrypt k' x = Some (aes_cipher bits key x).
Proof. intros Hb Hkey Hk Hx. destruct (encrypt_key_ready bits key k Hb Hkey Hk) as (k' & Hs & He). eauto. Qed.

Definition key_24 : list Z := fips_key ++ seqZ 16 8.

Lemma AES_encrypt_spec_witness :
  key_size 192 ∧ ∃ k', AES_set_encrypt_key (Some key_24) 192 blank_key = Ok 0 k' ∧
    AES_encrypt k' fips_plain = Some (aes_cipher 192 key_24 fips_plain).
Proof.
  split; [by right; left|]. apply (AES_encrypt_spec 192 key_24 blank_key fips_plain).
  - by right; left.
  - split; [done|]. by repeat (constructor; [by vm_compute|]).
  - split; [done|]. by repeat constructor.
  - split; [done|]. by repeat (constructor; [by vm_compute|]).
Defined.

(** C7: AES decryption: with the schedule of [AES_set_decrypt_key], [AES_decrypt]
    is the inverse cipher of FIPS-197, for keys of 128, 192 and 256 bits
    (although the code takes the other form of it: tables, the inverted key
    schedule, MixColumns applied to the keys); it undoes the cipher.  The
    schedules and the loops end and stay inside [rd_key], whatever it held
    before. *)
Theorem AES_decrypt_spec bits key k x :
  key_size bits → block_ok (Z.to_nat (bits / 8)) key → key_ok k → block_ok 16 x →
  ∃ k', AES_set_decrypt_key (Some key) bits k = Ok 0 k' ∧
    AES_decrypt k' x = Some (aes_inv_cipher bits key x) ∧
    AES_decrypt k' (aes_cipher bits key x) = Some x.
Proof.
  intros Hb Hkey Hk Hx. destruct (decrypt_key_ready bits key k Hb Hkey Hk) as (k' & Hs & Hd).
  destruct (aes_cipher_ok bits key x Hb Hkey Hx) as [Hc Hi]. exists k'. rewrite !Hd, Hi by done. done.
Qed.

Lemma AES_decrypt_spec_witness :
  key_size 128 ∧ ∃ k', AES_set_decrypt_key (Some fips_key) 128 blank_key = Ok 0 k' ∧
    AES_decrypt k' fips_cipher = Some (aes_inv_cipher 128 fips_key fips_cipher) ∧
    AES_decrypt k' (aes_cipher 128 fips_key fips_cipher) = Some fips_cipher.
Proof.
  split; [by left|]. apply (AES_decrypt_spec 128 fips_key blank_key fips_cipher).
  - by left.
  - split; [done|]. by repeat (constructor; [by vm_compute|]).
  - split; [done|]. by repeat constructor.
  - split; [done|]. by repeat (constructor; [by vm_compute|]).
Defined.

(** The errors of the key setup: no key, and a size that is none of the
    three; the schedule stays as it was. *)
Lemma AES_set_key_errors bits key k : ¬ key_size bits →
  AES_set_decrypt_key None bits k = Ok (-1) k ∧ AES_set_decrypt_key (Some key) bits k = Ok (-2) k.
Proof.
  intros Hb. split; [done|]. unfold key_size in Hb. rewrite AES_set_decrypt_key_eq. unfold AES_set_encrypt_key.
  rewrite (proj2 (Z.eqb_neq bits 128)), (proj2 (Z.eqb_neq bits 192)), (proj2 (Z.eqb_neq bits 256)) by lia. done.
Qed.
