(* ===== verification/SwdmxCbc.v ===== *)
(** Cipher block chaining
    (src/drivers/stream_input/t5d_demux/sw_demux/cbc128.c and aes_cbc.c).

    The buffers are byte arrays.  [out] is another object than [in] or the
    same pointer: buffers that overlap in part are not modelled.  [block] is
    the block function applied to the key; it reads 16 bytes.  The loops over
    [size_t] words are taken for any size [W] of a word that divides 16 on a
    little endian machine; STRICT_ALIGNMENT is 0 and OPENSSL_SMALL_FOOTPRINT
    is not defined. *)

From Stdlib Require Import ZArith Lia Bool.
From stdpp Require Import base list numbers.
From S2P Require Import Prelude.
From S2P Require Import AesCore.

#[local] Open Scope Z_scope.

(** ** Words of the machine *)

(** The word a pointer to [size_t] reads, and the bytes of a word. *)
Fixpoint le_join (bs : list Z) : Z :=
  match bs with
  | [] => 0
  | b :: bs => Z.lor b (Z.shiftl (le_join bs) 8)
  end.

Fixpoint le_split (n : nat) (v : Z) : list Z :=
  match n with
  | O => []
  | S n => u8 v :: le_split n (Z.shiftr v 8)
  end.

(** [for (n = 0; n < 16 / sizeof(size_t); n++) x_t[n] ^ y_t[n]] *)
Fixpoint xor_words (W k : nat) (x y : list Z) : list Z :=
  match k with
  | O => []
  | S k => le_split W (Z.lxor (le_join (take W x)) (le_join (take W y)))
           ++ xor_words W k (drop W x) (drop W y)
  end.

Section Cbc.
Context (W : nat) (block : list Z → option (list Z)).

Definition xor_block (x y : list Z) : list Z := xor_words W (16 / W) x y.

(** [in], [out] ([None]: the same pointer) and [ivec]. *)
Record cbc := mk_cbc { c_in : list Z; c_out : option (list Z); c_ivec : list Z }.

#[export] Instance eta_cbc : Settable cbc := fun r => mk_cbc (c_in r) (c_out r) (c_ivec r).

Definition C A := M cbc A.

#[export] Instance C_ret : MRet C := M_ret cbc.
#[export] Instance C_bind : MBind C := M_bind cbc.

(** Where the pointer [iv] points. *)
Inductive iv_ptr := Iv_ivec | Iv_in (o : Z) | Iv_out (o : Z).

Definition rd_in (o n : Z) : C (list Z) := l ← gets c_in; of_option (load l o n).

Definition rd_out (o n : Z) : C (list Z) :=
  c ← get; of_option (load (match c_out c with Some l => l | None => c_in c end) o n).

Definition wr_out (o : Z) (xs : list Z) : C unit :=
  c ← get;
  match c_out c with
  | Some l => l' ← of_option (store l o xs); modify (fun c => c <| c_out := Some l' |>)
  | None => l' ← of_option (store (c_in c) o xs); modify (fun c => c <| c_in := l' |>)
  end.

Definition rd_iv (p : iv_ptr) (n : Z) : C (list Z) :=
  match p with
  | Iv_ivec => l ← gets c_ivec; of_option (load l 0 n)
  | Iv_in o => rd_in o n
  | Iv_out o => rd_out o n
  end.

Definition wr_ivec (o : Z) (xs : list Z) : C unit :=
  l ← gets c_ivec; l' ← of_option (store l o xs); modify (fun c => c <| c_ivec := l' |>).

(** [if (ivec != iv) memcpy(ivec, iv, 16)] *)
Definition save_iv (p : iv_ptr) : C unit :=
  match p with
  | Iv_ivec => mret tt
  | _ => v ← rd_iv p 16; wr_ivec 0 v
  end.

(** ** Encryption *)

(** [while (len >= 16)]: the offset, the rest of [len] and [iv] after it. *)
Fixpoint enc_blocks (fuel : nat) (o len : Z) (iv : iv_ptr) : C (Z * Z * iv_ptr) :=
  match fuel with
  | O => undef
  | S f =>
      if len >=? 16 then
        x ← rd_in o 16; v ← rd_iv iv 16; wr_out o (xor_block x v);;
        y ← rd_out o 16; z ← of_option (block y); wr_out o z;;
        enc_blocks f (o + 16) (len - 16) (Iv_out o)
      else mret (o, len, iv)
  end.

(** [while (len)] for the rest, byte by byte. *)
Fixpoint enc_rest (fuel : nat) (o len : Z) (iv : iv_ptr) : C iv_ptr :=
  match fuel with
  | O => undef
  | S f =>
      if truth len then
        let n := Z.min len 16 in
        x ← rd_in o n; v ← rd_iv iv 16;
        wr_out o (zip_with Z.lxor x (take (Z.to_nat n) v));;
        wr_out (o + n) (drop (Z.to_nat n) v);;
        y ← rd_out o 16; z ← of_option (block y); wr_out o z;;
        if len <=? 16 then mret (Iv_out o) else enc_rest f (o + 16) (len - 16) (Iv_out o)
      else mret iv
  end.

(** [void CRYPTO_cbc128_encrypt(in, out, len, key, ivec, block)] *)
Definition CRYPTO_cbc128_encrypt (len : Z) : C unit :=
  if len =? 0 then mret tt
  else
    '(o, len, iv) ← enc_blocks (S (Z.to_nat len)) 0 len Iv_ivec;
    iv ← enc_rest (S (Z.to_nat len)) o len iv;
    save_iv iv.

(** ** Decryption *)

(** [in != out] *)
Fixpoint dec_blocks (fuel : nat) (o len : Z) (iv : iv_ptr) : C (Z * Z * iv_ptr) :=
  match fuel with
  | O => undef
  | S f =>
      if len >=? 16 then
        x ← rd_in o 16; y ← of_option (block x); wr_out o y;;
        z ← rd_out o 16; v ← rd_iv iv 16; wr_out o (xor_block z v);;
        dec_blocks f (o + 16) (len - 16) (Iv_in o)
      else mret (o, len, iv)
  end.

(** [in == out]: word [n] of the block goes to [ivec] after it is used. *)
Fixpoint dec_in_place (fuel : nat) (o len : Z) : C (Z * Z) :=
  match fuel with
  | O => undef
  | S f =>
      if len >=? 16 then
        x ← rd_in o 16; tmp ← of_option (block x); v ← rd_iv Iv_ivec 16;
        wr_out o (xor_block tmp v);; wr_ivec 0 x;;
        dec_in_place f (o + 16) (len - 16)
      else mret (o, len)
  end.

(** [while (len)] for the rest; the block function reads 16 bytes of [in]
    however few are left. *)
Fixpoint dec_rest (fuel : nat) (o len : Z) : C unit :=
  match fuel with
  | O => undef
  | S f =>
      if truth len then
        let n := Z.min len 16 in
        x ← rd_in o 16; tmp ← of_option (block x); v ← rd_iv Iv_ivec 16;
        wr_out o (zip_with Z.lxor (take (Z.to_nat n) tmp) (take (Z.to_nat n) v));;
        wr_ivec 0 (take (Z.to_nat n) x);;
        if len <=? 16 then
          y ← rd_in (o + n) (16 - n); wr_ivec n y
        else dec_rest f (o + 16) (len - 16)
      else mret tt
  end.

(** [void CRYPTO_cbc128_decrypt(in, out, len, key, ivec, block)] *)
Definition CRYPTO_cbc128_decrypt (len : Z) : C unit :=
  if len =? 0 then mret tt
  else
    c ← get;
    '(o, len) ←
      (if c_out c then
         '(o, len, iv) ← dec_blocks (S (Z.to_nat len)) 0 len Iv_ivec;
         save_iv iv;; mret (o, len)
       else dec_in_place (S (Z.to_nat len)) 0 len);
    dec_rest (S (Z.to_nat len)) o len.
End Cbc.

(** [void AES_cbc_encrypt(in, out, len, key, ivec, enc)] *)
Definition AES_cbc_encrypt (W : nat) (key : AES_KEY) (len enc : Z) : C unit :=
  if truth enc then CRYPTO_cbc128_encrypt W (AES_encrypt key) len
  else CRYPTO_cbc128_decrypt W (AES_decrypt key) len.

(** ** The reference *)

Definition bytes16 (l : list Z) : Prop := length l = 16%nat ∧ Forall (fun b => 0 ≤ b < 256) l.

Fixpoint cbc_encrypt (enc : list Z → list Z) (n : nat) (iv p : list Z) : list Z :=
  match n with
  | O => []
  | S n => let c := enc (zip_with Z.lxor (take 16 p) iv) in c ++ cbc_encrypt enc n c (drop 16 p)
  end.

Fixpoint cbc_decrypt (dec : list Z → list Z) (n : nat) (iv c : list Z) : list Z :=
  match n with
  | O => []
  | S n => zip_with Z.lxor (dec (take 16 c)) iv ++ cbc_decrypt dec n (take 16 c) (drop 16 c)
  end.

(** The block that chains to the next call. *)
Definition next_iv (iv c : list Z) : list Z := drop (length c) (iv ++ c).

(** ** Words and bytes *)

Lemma lor_byte_low b x : 0 ≤ b < 256 → u8 (Z.lor b (Z.shiftl x 8)) = b ∧ Z.shiftr (Z.lor b (Z.shiftl x 8)) 8 = x.
Proof.
  intros Hb. rewrite Z.lor_comm, Z.shiftl_mul_pow2 by lia. rewrite lor_mul_add by lia. split.
  - unfold u8. rewrite Z.add_comm, Z.mod_add by lia. by apply Z.mod_small.
  - rewrite Z.shiftr_div_pow2 by lia. rewrite Z.div_add_l by lia. rewrite Z.div_small by lia. lia.
Qed.

Lemma le_split_xor x y : length x = length y → Forall (fun b => 0 ≤ b < 256) x → Forall (fun b => 0 ≤ b < 256) y →
  le_split (length x) (Z.lxor (le_join x) (le_join y)) = zip_with Z.lxor x y.
Proof.
  intros Hl Hx. revert y Hl. induction Hx as [|a x Ha Hx IH]; intros [|b y] Hl Hy; try done.
  apply Forall_cons_1 in Hy as [Hb Hy]. cbn [length le_split le_join zip_with].
  destruct (lor_byte_low a (le_join x) Ha) as [Ha8 Has], (lor_byte_low b (le_join y) Hb) as [Hb8 Hbs].
  rewrite Z.shiftr_lxor, Has, Hbs, IH by (done || (cbn in Hl; lia)). f_equal.
  unfold u8 in *. by rewrite mod_pow2_lxor, Ha8, Hb8 by lia.
Qed.

Lemma xor_words_ok W k x y : length x = (W * k)%nat → length y = (W * k)%nat →
  Forall (fun b => 0 ≤ b < 256) x → Forall (fun b => 0 ≤ b < 256) y → xor_words W k x y = zip_with Z.lxor x y.
Proof.
  revert x y. induction k as [|k IH]; intros x y Hx Hy Bx By.
  - replace (W * 0)%nat with 0%nat in * by lia. by apply nil_length_inv in Hx as ->.
  - cbn [xor_words].
    assert (length (take W x) = W) as Lx by (rewrite length_take; lia).
    assert (length (take W y) = W) as Ly by (rewrite length_take; lia).
    rewrite <- Lx at 1. rewrite le_split_xor by (congruence || by apply Forall_take).
    rewrite IH by (try (rewrite length_drop; lia); by apply Forall_drop).
    rewrite <- zip_with_app by congruence. by rewrite !take_drop.
Qed.

(** A word of the machine divides a block. *)
Class WordSize (W : nat) : Prop := word_size : (16 = W * (16 / W))%nat.

#[export] Instance word_size_4 : WordSize 4 := eq_refl.
#[export] Instance word_size_8 : WordSize 8 := eq_refl.

Lemma xor_block_ok W `{!WordSize W} x y : bytes16 x → bytes16 y → xor_block W x y = zip_with Z.lxor x y.
Proof.
  intros [Hx Bx] [Hy By]. pose proof (word_size (W := W)) as HW.
  apply xor_words_ok; [lia|lia|done..].
Qed.

Lemma bytes16_xor x y : bytes16 x → bytes16 y → bytes16 (zip_with Z.lxor x y).
Proof.
  intros [Hx Bx] [Hy By]. split; [rewrite length_zip_with; lia|].
  clear Hx Hy. revert y By. induction Bx as [|a x Ha Bx IH]; intros [|b y] By; constructor.
  - apply Forall_cons_1 in By as [Hb _]. exact (lxor_range a b 8 ltac:(lia) Ha Hb).
  - apply IH. by apply Forall_cons_1 in By as [_ By].
Qed.

Lemma xor_cancel x y : length x = length y → zip_with Z.lxor (zip_with Z.lxor x y) y = x.
Proof.
  revert y. induction x as [|a x IH]; intros [|b y] Hl; try done. cbn in *.
  rewrite Z.lxor_assoc, Z.lxor_nilpotent, Z.lxor_0_r, IH; [done|lia].
Qed.

(** A round trip of the reference. *)
Lemma cbc_decrypt_encrypt enc dec n iv p :
  (∀ x, bytes16 x → bytes16 (enc x) ∧ dec (enc x) = x) → bytes16 iv →
  length p = (16 * n)%nat → Forall (fun b => 0 ≤ b < 256) p →
  cbc_decrypt dec n iv (cbc_encrypt enc n iv p) = p.
Proof.
  intros Hed. revert iv p. induction n as [|n IH]; intros iv p Hiv Hl Hp.
  - by apply nil_length_inv in Hl as ->.
  - assert (bytes16 (take 16 p)) as Ht by (split; [rewrite length_take; lia|by apply Forall_take]).
    destruct (Hed _ (bytes16_xor _ _ Ht Hiv)) as [Hc Hd]. cbn [cbc_encrypt cbc_decrypt].
    set (c := enc _) in *. assert (length c = 16%nat) as Hc16 by apply Hc.
    rewrite <- Hc16 at 1 3 5. rewrite take_app_length, drop_app_length, Hd.
    rewrite IH by (done || (rewrite length_drop; lia) || by apply Forall_drop).
    rewrite xor_cancel by (destruct Hiv, Ht; lia). apply take_drop.
Qed.

Lemma cbc_encrypt_ok enc n iv p :
  (∀ x, bytes16 x → bytes16 (enc x)) → bytes16 iv → length p = (16 * n)%nat → Forall (fun b => 0 ≤ b < 256) p →
  length (cbc_encrypt enc n iv p) = (16 * n)%nat ∧ Forall (fun b => 0 ≤ b < 256) (cbc_encrypt enc n iv p).
Proof.
  intros He. revert iv p. induction n as [|n IH]; intros iv p Hiv Hl Hp; [by split|].
  assert (bytes16 (take 16 p)) as Ht by (split; [rewrite length_take; lia|by apply Forall_take]).
  pose proof (He _ (bytes16_xor _ _ Ht Hiv)) as Hc. cbn [cbc_encrypt]. set (c := enc _) in *.
  destruct (IH c (drop 16 p) Hc ltac:(rewrite length_drop; lia) ltac:(by apply Forall_drop)) as [Hl' Hf'].
  split; [|apply Forall_app; split; [apply Hc|done]].
  rewrite length_app, Hl'. destruct Hc as [-> _]. lia.
Qed.

(** ** The code *)

Section Code.
Context (W : nat) `{!WordSize W} (block : list Z → option (list Z)) (dec : list Z → list Z).
Context (Hblock : ∀ x, bytes16 x → block x = Some (dec x) ∧ bytes16 (dec x)).

Lemma zlen16 x : bytes16 x → zlen x = 16.
Proof. intros [Hx _]. unfold zlen. lia. Qed.

(** The first block of what is left. *)
Lemma first_block {n} {c : list Z} : length c = (16 * S n)%nat → Forall (fun b => 0 ≤ b < 256) c →
  ∃ c1 c2, c = c1 ++ c2 ∧ bytes16 c1 ∧ length c2 = (16 * n)%nat ∧ Forall (fun b => 0 ≤ b < 256) c2.
Proof.
  intros Hl Hb. exists (take 16 c), (drop 16 c). rewrite take_drop, length_drop.
  split; [done|]. split; [split; [rewrite length_take; lia|by apply Forall_take]|].
  split; [lia|by apply Forall_drop].
Qed.

Lemma first_old {n} {c : list Z} : length c = (16 * S n)%nat →
  ∃ c1 c2, c = c1 ++ c2 ∧ length c1 = 16%nat ∧ length c2 = (16 * n)%nat.
Proof. intros Hl. exists (take 16 c), (drop 16 c). rewrite take_drop, length_take, length_drop. split; [done|lia]. Qed.

Lemma next_iv_step v c1 c2 : length v = 16%nat → length c1 = 16%nat → next_iv v (c1 ++ c2) = next_iv c1 c2.
Proof.
  intros Hv Hc. unfold next_iv. rewrite length_app, Hc, <- Hv, <- drop_drop. by rewrite drop_app_length.
Qed.

Lemma cbc_decrypt_step n v c1 c2 : length c1 = 16%nat →
  cbc_decrypt dec (S n) v (c1 ++ c2) = zip_with Z.lxor (dec c1) v ++ cbc_decrypt dec n c1 c2.
Proof. intros Hc. cbn [cbc_decrypt]. rewrite <- Hc. by rewrite take_app_length, drop_app_length. Qed.

(** *** Accesses *)

Section Accesses.
Context {U : Prop} (c : cbc).

Lemma wp_rd_in o n xs (Q : list Z → cbc → Prop) E : load (c_in c) o n = Some xs → Q xs c → wp U (rd_in o n) Q E c.
Proof. intros Hl HQ. unfold rd_in. apply wp_bind, wp_gets, wp_of_option; [|congruence]. intros a Ha. by simplify_eq. Qed.

Lemma wp_rd_out l o n xs (Q : list Z → cbc → Prop) E : c_out c = Some l → load l o n = Some xs → Q xs c →
  wp U (rd_out o n) Q E c.
Proof.
  intros Ho Hl HQ. unfold rd_out. apply wp_bind, wp_get. rewrite Ho. apply wp_of_option; [|congruence].
  intros a Ha. by simplify_eq.
Qed.

Lemma wp_wr_out l l' o xs (Q : unit → cbc → Prop) E : c_out c = Some l → store l o xs = Some l' →
  Q tt (mk_cbc (c_in c) (Some l') (c_ivec c)) → wp U (wr_out o xs) Q E c.
Proof.
  intros Ho Hl HQ. unfold wr_out. apply wp_bind, wp_get. rewrite Ho. apply wp_bind, wp_of_option; [|congruence].
  intros a Ha. simplify_eq. by apply wp_modify.
Qed.

Lemma wp_wr_out_same l' o xs (Q : unit → cbc → Prop) E : c_out c = None → store (c_in c) o xs = Some l' →
  Q tt (mk_cbc l' None (c_ivec c)) → wp U (wr_out o xs) Q E c.
Proof.
  intros Ho Hl HQ. unfold wr_out. apply wp_bind, wp_get. rewrite Ho. apply wp_bind, wp_of_option; [|congruence].
  intros a Ha. simplify_eq. apply wp_modify. destruct c. cbn in *. by subst.
Qed.

Lemma wp_wr_ivec l' o xs (Q : unit → cbc → Prop) E : store (c_ivec c) o xs = Some l' →
  Q tt (mk_cbc (c_in c) (c_out c) l') → wp U (wr_ivec o xs) Q E c.
Proof.
  intros Hl HQ. unfold wr_ivec. apply wp_bind, wp_gets, wp_bind, wp_of_option; [|congruence].
  intros a Ha. simplify_eq. by apply wp_modify.
Qed.
End Accesses.

Lemma store_all {A} (l xs : list A) : zlen xs = zlen l → store l 0 xs = Some xs.
Proof.
  intros Hl. pose proof (store_middle [] l xs [] 0 eq_refl Hl) as Hs. cbn [app] in Hs. by rewrite !app_nil_r in Hs.
Qed.

Lemma load_all {A} (l : list A) n : n = zlen l → load l 0 n = Some l.
Proof. intros Hl. pose proof (load_middle [] l [] 0 n eq_refl Hl) as Hs. cbn [app] in Hs. by rewrite !app_nil_r in Hs. Qed.

(** *** Decryption into another buffer *)

(** The pointer [iv] reads [v], whatever is in the output. *)
Definition points (inp ivec : list Z) (iv : iv_ptr) (v : list Z) : Prop :=
  ∀ U (Q : list Z → cbc → Prop) E out, Q v (mk_cbc inp (Some out) ivec) →
    wp U (rd_iv iv 16) Q E (mk_cbc inp (Some out) ivec).

Lemma dec_blocks_ok {U} n fuel pin c sin pout old suf iv v ivec (Q : Z * Z * iv_ptr → cbc → Prop) E :
  (n < fuel)%nat → length c = (16 * n)%nat → length old = (16 * n)%nat → zlen pin = zlen pout →
  Forall (fun b => 0 ≤ b < 256) c → bytes16 v → points (pin ++ c ++ sin) ivec iv v →
  (∀ iv', points (pin ++ c ++ sin) ivec iv' (next_iv v c) → (iv' = Iv_ivec → iv = Iv_ivec ∧ n = 0%nat) →
    Q (zlen pin + 16 * Z.of_nat n, 0, iv')
      (mk_cbc (pin ++ c ++ sin) (Some (pout ++ cbc_decrypt dec n v c ++ suf)) ivec)) →
  wp U (dec_blocks W block fuel (zlen pin) (16 * Z.of_nat n) iv) Q E
    (mk_cbc (pin ++ c ++ sin) (Some (pout ++ old ++ suf)) ivec).
Proof.
  revert fuel pin c pout old iv v. induction n as [|n IH]; intros fuel pin c pout old iv v Hf Hc Ho Hp Hb Hv Hpt HQ;
    (destruct fuel as [|fuel]; [lia|]); cbn [dec_blocks].
  - apply nil_length_inv in Hc as ->, Ho as ->. apply wp_ret.
    replace (zlen pin) with (zlen pin + 16 * Z.of_nat 0) at 1 by lia. apply HQ; [|by intros ->].
    unfold next_iv. cbn [length drop]. by rewrite app_nil_r.
  - rewrite Z.geb_leb, (proj2 (Z.leb_le 16 _)) by lia.
    destruct (first_block Hc Hb) as (c1 & c2 & -> & H16 & Hcr & Hbr), (first_old Ho) as (o1 & o2 & -> & Ho1 & Ho2).
    destruct (Hblock _ H16) as [Hbl Hd16]. pose proof (bytes16_xor _ _ Hd16 Hv) as Hx16.
    rewrite cbc_decrypt_step, next_iv_step in HQ by (apply H16 || apply Hv).
    rewrite <- !app_assoc in Hpt, HQ. rewrite <- (app_assoc c1), <- (app_assoc o1).
    apply wp_bind. eapply wp_rd_in; [apply load_middle; [done|by rewrite zlen16]|].
    apply wp_bind, wp_of_option; [|congruence]. intros y Hy. assert (y = dec c1) as -> by congruence.
    apply wp_bind. eapply wp_wr_out; [done|apply (store_middle pout o1); [done|rewrite zlen16 by done; unfold zlen; lia]|].
    apply wp_bind. eapply wp_rd_out; [done|apply (load_middle pout (dec c1)); [done|by rewrite zlen16]|].
    apply wp_bind. cbn [c_in c_ivec]. apply Hpt. rewrite xor_block_ok by done.
    apply wp_bind. eapply wp_wr_out; [done|apply (store_middle pout (dec c1)); [done|by rewrite !zlen16]|].
    cbn [c_in c_ivec]. replace (16 * Z.of_nat (S n) - 16) with (16 * Z.of_nat n) by lia.
    assert (zlen pin + 16 = zlen (pin ++ c1)) as -> by (by rewrite zlen_app, (zlen16 c1)).
    rewrite (app_assoc pin c1), (app_assoc pout).
    apply (IH fuel (pin ++ c1) c2 (pout ++ zip_with Z.lxor (dec c1) v) o2 (Iv_in (zlen pin)) c1); [lia|done|done|rewrite !zlen_app, (zlen16 c1 H16), (zlen16 _ Hx16); congruence|done|done| |].
    + intros U' Q' E' out HQ'. cbn [rd_iv]. rewrite <- app_assoc in *. eapply wp_rd_in; [|exact HQ'].
      apply load_middle; [done|by rewrite zlen16].
    + intros iv' Hpt' Hiv'. rewrite <- !app_assoc in *. rewrite zlen_app, (zlen16 c1) by done.
      replace (zlen pin + 16 + 16 * Z.of_nat n) with (zlen pin + 16 * Z.of_nat (S n)) by lia.
      apply HQ; [done|]. intros ->. by destruct (Hiv' eq_refl).
Qed.

(** The buffers after the decryption of [n] blocks into another buffer. *)
Lemma cbc_decrypt_out_ok {U} n c sin old suf v (Q : unit → cbc → Prop) E :
  length c = (16 * n)%nat → length old = (16 * n)%nat → Forall (fun b => 0 ≤ b < 256) c → bytes16 v →
  Q tt (mk_cbc (c ++ sin) (Some (cbc_decrypt dec n v c ++ suf)) (next_iv v c)) →
  wp U (CRYPTO_cbc128_decrypt W block (16 * Z.of_nat n)) Q E (mk_cbc (c ++ sin) (Some (old ++ suf)) v).
Proof.
  intros Hc Ho Hb Hv HQ. unfold CRYPTO_cbc128_decrypt. destruct (Z.eqb_spec (16 * Z.of_nat n) 0) as [Hn|Hn].
  - assert (n = 0%nat) as -> by lia. apply nil_length_inv in Hc as ->, Ho as ->. apply wp_ret.
    unfold next_iv in HQ. cbn [length drop] in HQ. by rewrite app_nil_r in HQ.
  - apply wp_bind, wp_get. cbn [c_out]. apply wp_bind, wp_bind.
    apply (dec_blocks_ok n _ [] c sin [] old suf Iv_ivec v v); [lia|done..| |].
    { intros U' Q' E' out HQ'. cbn [rd_iv]. apply wp_bind, wp_gets, wp_of_option; cbn [c_ivec];
        rewrite load_all by (by rewrite zlen16); [|done]. intros a Ha. by simplify_eq. }
    intros iv' Hpt Hiv. cbn [app] in *. apply wp_bind.
    assert (length (next_iv v c) = 16%nat) as Hnl.
    { unfold next_iv. rewrite length_drop, length_app. destruct Hv. lia. }
    assert (wp U (v ← rd_iv iv' 16; wr_ivec 0 v) (fun _ => Q tt) E
              (mk_cbc (c ++ sin) (Some (cbc_decrypt dec n v c ++ suf)) v)) as Hs.
    { apply wp_bind, Hpt. eapply wp_wr_ivec; [apply store_all; destruct Hv; unfold zlen; cbn [c_ivec]; lia|]. done. }
    destruct iv' as [|o|o]; [destruct (Hiv eq_refl); lia|..]; cbn [save_iv].
    all: eapply wp_mono; [exact Hs| |by intros]; intros [] s' HQ'; by apply wp_ret.
Qed.

(** *** Decryption in place *)

Lemma wp_rd_ivec {U} c n (Q : list Z → cbc → Prop) E : n = zlen (c_ivec c) → Q (c_ivec c) c → wp U (rd_iv Iv_ivec n) Q E c.
Proof.
  intros Hn HQ. cbn [rd_iv]. apply wp_bind, wp_gets, wp_of_option; rewrite load_all by done; [|done].
  intros a Ha. by simplify_eq.
Qed.

Lemma dec_in_place_ok {U} n fuel pin c sin v (Q : Z * Z → cbc → Prop) E :
  (n < fuel)%nat → length c = (16 * n)%nat → Forall (fun b => 0 ≤ b < 256) c → bytes16 v →
  Q (zlen pin + 16 * Z.of_nat n, 0) (mk_cbc (pin ++ cbc_decrypt dec n v c ++ sin) None (next_iv v c)) →
  wp U (dec_in_place W block fuel (zlen pin) (16 * Z.of_nat n)) Q E (mk_cbc (pin ++ c ++ sin) None v).
Proof.
  revert fuel pin c v. induction n as [|n IH]; intros fuel pin c v Hf Hc Hb Hv HQ;
    (destruct fuel as [|fuel]; [lia|]); cbn [dec_in_place].
  - apply nil_length_inv in Hc as ->. apply wp_ret. unfold next_iv in HQ. cbn [length drop] in HQ.
    rewrite app_nil_r in HQ. by replace (zlen pin) with (zlen pin + 16 * Z.of_nat 0) at 1 by lia.
  - rewrite Z.geb_leb, (proj2 (Z.leb_le 16 _)) by lia.
    destruct (first_block Hc Hb) as (c1 & c2 & -> & H16 & Hcr & Hbr).
    destruct (Hblock _ H16) as [Hbl Hd16]. pose proof (bytes16_xor _ _ Hd16 Hv) as Hx16.
    rewrite cbc_decrypt_step, next_iv_step in HQ by (apply H16 || apply Hv).
    rewrite <- !app_assoc in HQ. rewrite <- (app_assoc c1).
    apply wp_bind. eapply wp_rd_in; [apply load_middle; [done|by rewrite zlen16]|].
    apply wp_bind, wp_of_option; [|congruence]. intros y Hy. assert (y = dec c1) as -> by congruence.
    apply wp_bind, wp_rd_ivec; [cbn [c_ivec]; by rewrite zlen16|]. cbn [c_ivec]. rewrite xor_block_ok by done.
    apply wp_bind. eapply wp_wr_out_same; [done|apply (store_middle pin c1); [done|by rewrite !zlen16]|].
    apply wp_bind. eapply wp_wr_ivec; [apply store_all; cbn [c_ivec]; by rewrite !zlen16|].
    cbn [c_in c_ivec c_out]. replace (16 * Z.of_nat (S n) - 16) with (16 * Z.of_nat n) by lia.
    assert (zlen pin + 16 = zlen (pin ++ zip_with Z.lxor (dec c1) v)) as -> by (by rewrite zlen_app, (zlen16 _ Hx16)).
    rewrite (app_assoc pin). apply (IH fuel (pin ++ zip_with Z.lxor (dec c1) v) c2 c1); [lia|done..|].
    rewrite <- !app_assoc, zlen_app, (zlen16 _ Hx16).
    by replace (zlen pin + 16 + 16 * Z.of_nat n) with (zlen pin + 16 * Z.of_nat (S n)) by lia.
Qed.

Lemma cbc_decrypt_in_place_ok {U} n c sin v (Q : unit → cbc → Prop) E :
  length c = (16 * n)%nat → Forall (fun b => 0 ≤ b < 256) c → bytes16 v →
  Q tt (mk_cbc (cbc_decrypt dec n v c ++ sin) None (next_iv v c)) →
  wp U (CRYPTO_cbc128_decrypt W block (16 * Z.of_nat n)) Q E (mk_cbc (c ++ sin) None v).
Proof.
  intros Hc Hb Hv HQ. unfold CRYPTO_cbc128_decrypt. destruct (Z.eqb_spec (16 * Z.of_nat n) 0) as [Hn|Hn].
  - assert (n = 0%nat) as -> by lia. apply nil_length_inv in Hc as ->. apply wp_ret.
    unfold next_iv in HQ. cbn [length drop] in HQ. by rewrite app_nil_r in HQ.
  - apply wp_bind, wp_get. cbn [c_out]. apply wp_bind.
    apply (dec_in_place_ok n _ [] c sin v); [lia|done..|]. by apply wp_ret.
Qed.
End Code.

(** *** Encryption into another buffer *)

Section Encrypt.
Context (W : nat) `{!WordSize W} (block : list Z → option (list Z)) (enc : list Z → list Z).
Context (Hblock : ∀ x, bytes16 x → block x = Some (enc x) ∧ bytes16 (enc x)).

Lemma cbc_encrypt_step n v p1 p2 : length p1 = 16%nat →
  cbc_encrypt enc (S n) v (p1 ++ p2) =
  enc (zip_with Z.lxor p1 v) ++ cbc_encrypt enc n (enc (zip_with Z.lxor p1 v)) p2.
Proof. intros Hc. cbn [cbc_encrypt]. rewrite <- Hc. by rewrite take_app_length, drop_app_length. Qed.

(** The pointer [iv] reads [v], whatever follows [pout] in the output. *)
Definition points_out (inp ivec pout : list Z) (iv : iv_ptr) (v : list Z) : Prop :=
  ∀ U (Q : list Z → cbc → Prop) E out, Q v (mk_cbc inp (Some (pout ++ out)) ivec) →
    wp U (rd_iv iv 16) Q E (mk_cbc inp (Some (pout ++ out)) ivec).

Lemma enc_blocks_ok {U} n fuel pin p sin pout old suf iv v ivec (Q : Z * Z * iv_ptr → cbc → Prop) E :
  (n < fuel)%nat → length p = (16 * n)%nat → length old = (16 * n)%nat → zlen pin = zlen pout →
  Forall (fun b => 0 ≤ b < 256) p → bytes16 v → points_out (pin ++ p ++ sin) ivec pout iv v →
  (∀ iv', points_out (pin ++ p ++ sin) ivec (pout ++ cbc_encrypt enc n v p) iv' (next_iv v (cbc_encrypt enc n v p)) →
    (iv' = Iv_ivec → iv = Iv_ivec ∧ n = 0%nat) →
    Q (zlen pin + 16 * Z.of_nat n, 0, iv')
      (mk_cbc (pin ++ p ++ sin) (Some (pout ++ cbc_encrypt enc n v p ++ suf)) ivec)) →
  wp U (enc_blocks W block fuel (zlen pin) (16 * Z.of_nat n) iv) Q E
    (mk_cbc (pin ++ p ++ sin) (Some (pout ++ old ++ suf)) ivec).
Proof.
  revert fuel pin p pout old iv v. induction n as [|n IH]; intros fuel pin p pout old iv v Hf Hc Ho Hp Hb Hv Hpt HQ;
    (destruct fuel as [|fuel]; [lia|]); cbn [enc_blocks].
  - apply nil_length_inv in Hc as ->, Ho as ->. apply wp_ret.
    replace (zlen pin) with (zlen pin + 16 * Z.of_nat 0) at 1 by lia. apply HQ; [|by intros ->].
    unfold next_iv. cbn [length drop cbc_encrypt]. by rewrite !app_nil_r.
  - rewrite Z.geb_leb, (proj2 (Z.leb_le 16 _)) by lia.
    destruct (first_block Hc Hb) as (p1 & p2 & -> & H16 & Hcr & Hbr), (first_old Ho) as (o1 & o2 & -> & Ho1 & Ho2).
    pose proof (bytes16_xor _ _ H16 Hv) as Hx16. destruct (Hblock _ Hx16) as [Hbl Hc16].
    rewrite cbc_encrypt_step in HQ by apply H16. set (x := zip_with Z.lxor p1 v) in *. set (e := enc x) in *.
    assert (∀ r, next_iv v (e ++ r) = next_iv e r) as Hnx by (intros r; apply next_iv_step; [apply Hv|apply Hc16]).
    rewrite Hnx in HQ. rewrite <- !app_assoc in Hpt, HQ. rewrite <- (app_assoc p1), <- (app_assoc o1).
    apply wp_bind. eapply wp_rd_in; [apply load_middle; [done|by rewrite zlen16]|].
    apply wp_bind, Hpt. rewrite xor_block_ok by done. fold x.
    apply wp_bind. eapply wp_wr_out; [done|apply (store_middle pout o1); [done|rewrite zlen16 by done; unfold zlen; lia]|].
    apply wp_bind. eapply wp_rd_out; [done|apply (load_middle pout x); [done|by rewrite zlen16]|].
    apply wp_bind, wp_of_option; [|congruence]. intros y Hy. assert (y = e) as -> by congruence.
    apply wp_bind. eapply wp_wr_out; [done|apply (store_middle pout x); [done|by rewrite !zlen16]|].
    cbn [c_in c_ivec]. replace (16 * Z.of_nat (S n) - 16) with (16 * Z.of_nat n) by lia.
    assert (zlen pin + 16 = zlen (pin ++ p1)) as -> by (by rewrite zlen_app, (zlen16 p1)).
    rewrite (app_assoc pin p1), (app_assoc pout).
    apply (IH fuel (pin ++ p1) p2 (pout ++ e) o2 (Iv_out (zlen pin)) e);
      [lia|done|done|rewrite !zlen_app, (zlen16 p1 H16), (zlen16 _ Hc16); congruence|done|done| |].
    + intros U' Q' E' out HQ'. cbn [rd_iv]. rewrite <- !app_assoc in *. eapply wp_rd_out; [done| |exact HQ'].
      apply load_middle; [done|by rewrite zlen16].
    + intros iv' Hpt' Hiv'. rewrite <- !app_assoc in *. rewrite zlen_app, (zlen16 p1) by done.
      replace (zlen pin + 16 + 16 * Z.of_nat n) with (zlen pin + 16 * Z.of_nat (S n)) by lia.
      apply HQ; [done|]. intros ->. by destruct (Hiv' eq_refl).
Qed.

Lemma cbc_encrypt_out_ok {U} n p sin old suf v (Q : unit → cbc → Prop) E :
  length p = (16 * n)%nat → length old = (16 * n)%nat → Forall (fun b => 0 ≤ b < 256) p → bytes16 v →
  Q tt (mk_cbc (p ++ sin) (Some (cbc_encrypt enc n v p ++ suf)) (next_iv v (cbc_encrypt enc n v p))) →
  wp U (CRYPTO_cbc128_encrypt W block (16 * Z.of_nat n)) Q E (mk_cbc (p ++ sin) (Some (old ++ suf)) v).
Proof.
  intros Hc Ho Hb Hv HQ. unfold CRYPTO_cbc128_encrypt. destruct (Z.eqb_spec (16 * Z.of_nat n) 0) as [Hn|Hn].
  - assert (n = 0%nat) as -> by lia. apply nil_length_inv in Hc as ->, Ho as ->. apply wp_ret.
    unfold next_iv in HQ. cbn [length drop cbc_encrypt] in HQ. by rewrite app_nil_r in HQ.
  - apply wp_bind.
    apply (enc_blocks_ok n _ [] p sin [] old suf Iv_ivec v v); [lia|done..| |].
    { intros U' Q' E' out HQ'. apply wp_rd_ivec; [cbn [c_ivec]; by rewrite zlen16|done]. }
    intros iv' Hpt Hiv. cbn [app] in *. apply wp_bind, wp_ret.
    set (c := cbc_encrypt enc n v p) in *.
    assert (length (next_iv v c) = 16%nat) as Hnl.
    { unfold next_iv. rewrite length_drop, length_app. destruct Hv. lia. }
    assert (wp U (v ← rd_iv iv' 16; wr_ivec 0 v) Q E (mk_cbc (p ++ sin) (Some (c ++ suf)) v)) as Hs.
    { apply wp_bind, Hpt. eapply wp_wr_ivec; [apply store_all; destruct Hv; unfold zlen; cbn [c_ivec]; lia|]. done. }
    destruct iv' as [|o|o]; [destruct (Hiv eq_refl); lia|exact Hs..].
Qed.
End Encrypt.
