(* ===== verification/SwdmxCbcOk.v ===== *)
(** AES in CBC mode (SwdmxCbc on AesCore): with the key schedules of the code
    the two directions are CBC over the cipher of FIPS-197, and undo each
    other. *)

From Stdlib Require Import ZArith Lia Bool.
From stdpp Require Import base list numbers.
From S2P Require Import Prelude.
From S2P Require Import AesCore.
From S2P Require Import AesFips.
From S2P Require Import AesKeys.
From S2P Require Import SwdmxCbc.

#[local] Open Scope Z_scope.

Section Aes.
Context (W : nat) `{!WordSize W} (bits : Z) (key : list Z).
Context (Hbits : key_size bits) (Hkey : block_ok (Z.to_nat (bits / 8)) key).

Lemma cbc_key_decrypt k : key_ok k →
  ∃ k', AES_set_decrypt_key (Some key) bits k = Ok 0 k' ∧
    (∀ n c sin old suf v, block_ok (16 * n) c → length old = (16 * n)%nat → block_ok 16 v →
      AES_cbc_encrypt W k' (16 * Z.of_nat n) 0 (mk_cbc (c ++ sin) (Some (old ++ suf)) v) =
        Ok tt (mk_cbc (c ++ sin) (Some (cbc_decrypt (aes_inv_cipher bits key) n v c ++ suf)) (next_iv v c))) ∧
    (∀ n c sin v, block_ok (16 * n) c → block_ok 16 v →
      AES_cbc_encrypt W k' (16 * Z.of_nat n) 0 (mk_cbc (c ++ sin) None v) =
        Ok tt (mk_cbc (cbc_decrypt (aes_inv_cipher bits key) n v c ++ sin) None (next_iv v c))).
Proof.
  intros Hk. destruct (decrypt_key_ready bits key k Hbits Hkey Hk) as (k' & Hs & Hd). exists k'. split; [done|].
  assert (∀ x, bytes16 x → AES_decrypt k' x = Some (aes_inv_cipher bits key x) ∧ bytes16 (aes_inv_cipher bits key x))
    as Hblock by (intros x Hx; split; [by apply Hd|by apply aes_inv_cipher_ok]).
  split.
  - intros n c sin old suf v [Hc Hb] Ho Hv. apply wp_only. by apply (cbc_decrypt_out_ok W _ _ Hblock).
  - intros n c sin v [Hc Hb] Hv. apply wp_only. by apply (cbc_decrypt_in_place_ok W _ _ Hblock).
Qed.

Lemma cbc_key_encrypt k : key_ok k →
  ∃ k', AES_set_encrypt_key (Some key) bits k = Ok 0 k' ∧
    (∀ n p sin old suf v, block_ok (16 * n) p → length old = (16 * n)%nat → block_ok 16 v →
      let c := cbc_encrypt (aes_cipher bits key) n v p in
      AES_cbc_encrypt W k' (16 * Z.of_nat n) 1 (mk_cbc (p ++ sin) (Some (old ++ suf)) v) =
        Ok tt (mk_cbc (p ++ sin) (Some (c ++ suf)) (next_iv v c))).
Proof.
  intros Hk. destruct (encrypt_key_ready bits key k Hbits Hkey Hk) as (k' & Hs & Hd). exists k'. split; [done|].
  assert (∀ x, bytes16 x → AES_encrypt k' x = Some (aes_cipher bits key x) ∧ bytes16 (aes_cipher bits key x))
    as Hblock by (intros x Hx; split; [by apply Hd|by apply aes_cipher_ok]).
  intros n p sin old suf v [Hc Hb] Ho Hv. apply wp_only. by apply (cbc_encrypt_out_ok W _ _ Hblock).
Qed.

(** The reference undoes itself. *)
Lemma aes_cbc_inverse n v p : block_ok 16 v → block_ok (16 * n) p →
  let c := cbc_encrypt (aes_cipher bits key) n v p in
  block_ok (16 * n) c ∧ cbc_decrypt (aes_inv_cipher bits key) n v c = p.
Proof.
  intros Hv [Hl Hb] c. split.
  - apply cbc_encrypt_ok; [|done..]. intros x Hx. by apply aes_cipher_ok.
  - apply cbc_decrypt_encrypt; [|done..]. intros x Hx. by apply aes_cipher_ok.
Qed.
End Aes.

(** C31: CBC decryption of whole blocks, into another buffer and in place: the
    output is the reference over the inverse cipher of FIPS-197, the bytes
    after the blocks stay, and the vector becomes the last block of the
    input, for 4 and 8 byte words. *)
Theorem AES_cbc_decrypt_spec W `{!WordSize W} bits key k n c sin old suf iv :
  key_size bits → block_ok (Z.to_nat (bits / 8)) key → key_ok k →
  block_ok (16 * n) c → length old = (16 * n)%nat → block_ok 16 iv →
  ∃ k', AES_set_decrypt_key (Some key) bits k = Ok 0 k' ∧
    let p := cbc_decrypt (aes_inv_cipher bits key) n iv c in
    AES_cbc_encrypt W k' (16 * Z.of_nat n) 0 (mk_cbc (c ++ sin) (Some (old ++ suf)) iv) =
      Ok tt (mk_cbc (c ++ sin) (Some (p ++ suf)) (next_iv iv c)) ∧
    AES_cbc_encrypt W k' (16 * Z.of_nat n) 0 (mk_cbc (c ++ sin) None iv) =
      Ok tt (mk_cbc (p ++ sin) None (next_iv iv c)).
Proof.
  intros Hb Hkey Hk Hc Ho Hv. destruct (cbc_key_decrypt W bits key Hb Hkey k Hk) as (k' & Hs & Ho' & Hi).
  exists k'. cbn zeta. by rewrite Ho', Hi.
Qed.

Lemma AES_cbc_decrypt_spec_witness :
  key_size 128 ∧ ∃ k', AES_set_decrypt_key (Some fips_key) 128 blank_key = Ok 0 k' ∧
    let p := cbc_decrypt (aes_inv_cipher 128 fips_key) 1 fips_plain fips_cipher in
    AES_cbc_encrypt 8 k' (16 * Z.of_nat 1) 0 (mk_cbc (fips_cipher ++ [7]) (Some (fips_key ++ [9])) fips_plain) =
      Ok tt (mk_cbc (fips_cipher ++ [7]) (Some (p ++ [9])) (next_iv fips_plain fips_cipher)) ∧
    AES_cbc_encrypt 8 k' (16 * Z.of_nat 1) 0 (mk_cbc (fips_cipher ++ [7]) None fips_plain) =
      Ok tt (mk_cbc (p ++ [7]) None (next_iv fips_plain fips_cipher)).
Proof.
  split; [by left|]. apply (AES_cbc_decrypt_spec 8 128 fips_key blank_key 1 fips_cipher [7] fips_key [9] fips_plain).
  - by left.
  - split; [done|]. by repeat (constructor; [by vm_compute|]).
  - split; [done|]. by repeat constructor.
  - split; [done|]. by repeat (constructor; [by vm_compute|]).
  - done.
  - split; [done|]. by repeat (constructor; [by vm_compute|]).
Defined.

(** C32: A CBC round trip of the code: what [AES_cbc_encrypt] encrypts with one
    schedule it decrypts with the other, whatever the buffers held. *)
Theorem AES_cbc_roundtrip W `{!WordSize W} bits key ke kd n p sin old old' suf suf' iv :
  key_size bits → block_ok (Z.to_nat (bits / 8)) key → key_ok ke → key_ok kd →
  block_ok (16 * n) p → length old = (16 * n)%nat → length old' = (16 * n)%nat → block_ok 16 iv →
  ∃ ke' kd' c iv', AES_set_encrypt_key (Some key) bits ke = Ok 0 ke' ∧ AES_set_decrypt_key (Some key) bits kd = Ok 0 kd' ∧
    AES_cbc_encrypt W ke' (16 * Z.of_nat n) 1 (mk_cbc (p ++ sin) (Some (old ++ suf)) iv) =
      Ok tt (mk_cbc (p ++ sin) (Some (c ++ suf)) iv') ∧ length c = (16 * n)%nat ∧
    AES_cbc_encrypt W kd' (16 * Z.of_nat n) 0 (mk_cbc (c ++ suf) (Some (old' ++ suf')) iv) =
      Ok tt (mk_cbc (c ++ suf) (Some (p ++ suf')) iv').
Proof.
  intros Hb Hkey Hke Hkd Hp Ho Ho' Hv.
  destruct (cbc_key_encrypt W bits key Hb Hkey ke Hke) as (ke' & Hse & He).
  destruct (cbc_key_decrypt W bits key Hb Hkey kd Hkd) as (kd' & Hsd & Hd & _).
  destruct (aes_cbc_inverse bits key Hb Hkey n iv p Hv Hp) as [Hc Hi].
  exists ke', kd', (cbc_encrypt (aes_cipher bits key) n iv p), (next_iv iv (cbc_encrypt (aes_cipher bits key) n iv p)).
  do 2 (split; [done|]). split; [by apply He|]. split; [apply Hc|]. rewrite Hd by done. by rewrite Hi.
Qed.

Lemma AES_cbc_roundtrip_witness :
  key_size 128 ∧ ∃ ke' kd' c iv', AES_set_encrypt_key (Some fips_key) 128 blank_key = Ok 0 ke' ∧
    AES_set_decrypt_key (Some fips_key) 128 blank_key = Ok 0 kd' ∧
    AES_cbc_encrypt 4 ke' (16 * Z.of_nat 1) 1 (mk_cbc (fips_plain ++ []) (Some (fips_key ++ [1])) fips_key) =
      Ok tt (mk_cbc (fips_plain ++ []) (Some (c ++ [1])) iv') ∧ length c = (16 * 1)%nat ∧
    AES_cbc_encrypt 4 kd' (16 * Z.of_nat 1) 0 (mk_cbc (c ++ [1]) (Some (fips_key ++ [2])) fips_key) =
      Ok tt (mk_cbc (c ++ [1]) (Some (fips_plain ++ [2])) iv').
Proof.
  split; [by left|].
  apply (AES_cbc_roundtrip 4 128 fips_key blank_key blank_key 1 fips_plain [] fips_key fips_key [1] [2] fips_key).
  - by left.
  - split; [done|]. by repeat (constructor; [by vm_compute|]).
  - split; [done|]. by repeat constructor.
  - split; [done|]. by repeat constructor.
  - split; [done|]. by repeat (constructor; [by vm_compute|]).
  - done.
  - done.
  - split; [done|]. by repeat (constructor; [by vm_compute|]).
Defined.
