(* ===== verification/SwdmxDesc.v ===== *)
(** The descrambler of the software demux
    (src/drivers/stream_input/t5d_demux/sw_demux/swdmx_descrambler.c and
    swdmx_aes_cbc.c).

    Channels, key entries and the data [swdmx_malloc] gives to key entries
    are objects by address; the node lists are the lists their heads stand
    for (SwdmxList).  An object just allocated holds what the caller of the
    model says.  The packets are in one buffer and pointers into it are
    offsets, as in SwdmxTs.  [W] is the size of a word of the machine. *)

From stdpp Require Import base list numbers gmap.
From Stdlib Require Import ZArith Lia Bool.
From S2P Require Import Prelude.
From S2P Require Import SwdmxList.
From S2P Require Import SwdmxTs.
From S2P Require Import SwdmxDemux.
From S2P Require Import AesCore.
From S2P Require Import SwdmxCbc.

#[local] Open Scope Z_scope.

Inductive swdmx_keyparity :=
  | SWDMX_DESC_ODD_KEY | SWDMX_DESC_EVEN_KEY | SWDMX_DESC_00_KEY
  | SWDMX_DESC_ODD_IV | SWDMX_DESC_EVEN_IV | SWDMX_DESC_00_IV.

Inductive swdmx_keyalgo := SWDMX_DESC_ALGO_NONE | SWDMX_DESC_ALGO_AES_DEC | SWDMX_DESC_ALGO_AES_ENC.

#[export] Instance swdmx_keyalgo_eq_dec : EqDecision swdmx_keyalgo.
Proof. solve_decision. Defined.

(** What [data] of a key entry points to. *)
Inductive key_obj :=
  | Swdmx_aes_key (key : AES_KEY)
  | Swdmx_aes_iv (iv : list Z).

(** The functions [set] and [free] of a key entry can be. *)
Inductive key_fn := Fn_null | Fn_aes_iv | Fn_aes_dec_key.

Record swdmx_key := mk_key {
  k_used : Z; k_is_iv : Z; k_algo : swdmx_keyalgo; k_data : Z; k_set : key_fn; k_free : key_fn
}.

#[export] Instance eta_swdmx_key : Settable swdmx_key := fun r =>
  mk_key (k_used r) (k_is_iv r) (k_algo r) (k_data r) (k_set r) (k_free r).

(** The only descrambling callback there is. *)
Inductive swdmx_desc_cb := Swdmx_aes_cbc_dec_desc_cb.

Record swdmx_descchannel := mk_chan {
  ch_enable : Z; ch_pid : Z; scb_as_is : Z; scb : Z;
  odd_key : option Z; even_key : option Z; zero_key : option Z;
  odd_iv : option Z; even_iv : option Z; zero_iv : option Z;
  desc_cb : option swdmx_desc_cb
}.

#[export] Instance eta_swdmx_descchannel : Settable swdmx_descchannel := fun r =>
  mk_chan (ch_enable r) (ch_pid r) (scb_as_is r) (scb r) (odd_key r) (even_key r) (zero_key r)
    (odd_iv r) (even_iv r) (zero_iv r) (desc_cb r).

(** The descrambler with the objects it reaches and the packet buffer. *)
Record descrambler := mk_desc {
  chan_list : list Z;
  d_cb_list : list swdmx_cb_entry;
  chans : gmap Z swdmx_descchannel;
  keys : gmap Z swdmx_key;
  objs : gmap Z key_obj;
  d_buf : list Z
}.

#[export] Instance eta_desc : Settable descrambler := fun r =>
  mk_desc (chan_list r) (d_cb_list r) (chans r) (keys r) (objs r) (d_buf r).

Definition X A := M descrambler A.

#[export] Instance X_ret : MRet X := M_ret descrambler.
#[export] Instance X_bind : MBind X := M_bind descrambler.

Definition chan_at (a : Z) : X swdmx_descchannel := m ← gets chans; of_option (m !! a).
Definition key_ent (a : Z) : X swdmx_key := m ← gets keys; of_option (m !! a).
Definition obj_at (a : Z) : X key_obj := m ← gets objs; of_option (m !! a).

Definition upd_chan (a : Z) (g : swdmx_descchannel → swdmx_descchannel) : X unit :=
  c ← chan_at a; modify (fun s => s <| chans := <[a := g c]> (chans s) |>).
Definition upd_key (a : Z) (g : swdmx_key → swdmx_key) : X unit :=
  k ← key_ent a; modify (fun s => s <| keys := <[a := g k]> (keys s) |>).
Definition put_obj (a : Z) (o : key_obj) : X unit :=
  _ ← obj_at a; modify (fun s => s <| objs := <[a := o]> (objs s) |>).

(** ** Key entries *)

(** [swdmx_malloc] for a key entry. *)
Definition malloc_obj (a : Z) (o : key_obj) : X unit :=
  modify (fun s => s <| objs := <[a := o]> (objs s) |>).

Definition free_obj (a : Z) : X unit :=
  _ ← obj_at a; modify (fun s => s <| objs := delete a (objs s) |>).

(** [static void aes_iv_set(key, v, len)]: 16 bytes, whatever [len] says. *)
Definition aes_iv_set (a : Z) (v : list Z) : X unit :=
  k ← key_ent a;
  xs ← of_option (load v 0 16);
  o ← obj_at (k_data k);
  match o with
  | Swdmx_aes_iv iv => iv ← of_option (store iv 0 xs); put_obj (k_data k) (Swdmx_aes_iv iv)
  | Swdmx_aes_key _ => undef
  end.

(** [static void aes_dec_key_set(key, v, len)]: 128 bits, whatever [len]
    says. *)
Definition aes_dec_key_set (a : Z) (v : list Z) : X unit :=
  k ← key_ent a;
  o ← obj_at (k_data k);
  match o with
  | Swdmx_aes_key key =>
      match AES_set_decrypt_key (Some v) 128 key with
      | Ok _ key => put_obj (k_data k) (Swdmx_aes_key key)
      | _ => undef
      end
  | Swdmx_aes_iv _ => undef
  end.

(** [static void aes_iv_free(key)], [static void aes_key_free(key)] *)
Definition aes_iv_free (a : Z) : X unit := k ← key_ent a; free_obj (k_data k).
Definition aes_key_free (a : Z) : X unit := k ← key_ent a; free_obj (k_data k).

(** [int swdmx_key_clear(key)] *)
Definition swdmx_key_clear (a : Z) : X Z :=
  k ← key_ent a;
  when (truth (k_used k)) (
    match k_free k with
    | Fn_aes_iv => aes_iv_free a
    | Fn_aes_dec_key => aes_key_free a
    | Fn_null => mret tt
    end;;
    upd_key a (fun k => k <| k_used := 0 |>);;
    upd_key a (fun k => k <| k_algo := SWDMX_DESC_ALGO_NONE |>));;
  mret SWDMX_OK.

(** [int swdmx_key_set(key, v, len)] *)
Definition swdmx_key_set (a : Z) (v : list Z) : X Z :=
  k ← key_ent a;
  if negb (truth (k_used k)) then mret SWDMX_ERR
  else
    match k_set k with
    | Fn_aes_iv => aes_iv_set a v
    | Fn_aes_dec_key => aes_dec_key_set a v
    | Fn_null => undef
    end;;
    mret SWDMX_OK.

(** [int swdmx_aes_dec_key_init(key)]; [addr] is the address [swdmx_malloc]
    gives, [junk] and [junk_iv] what is there. *)
Definition swdmx_aes_dec_key_init (addr : Z) (junk : AES_KEY) (junk_iv : list Z) (a : Z) : X Z :=
  swdmx_key_clear a;;
  upd_key a (fun k => k <| k_used := 1 |>);;
  upd_key a (fun k => k <| k_algo := SWDMX_DESC_ALGO_AES_DEC |>);;
  k ← key_ent a;
  (if truth (k_is_iv k) then
     malloc_obj addr (Swdmx_aes_iv junk_iv);;
     upd_key a (fun k => k <| k_data := addr |> <| k_set := Fn_aes_iv |> <| k_free := Fn_aes_iv |>)
   else
     malloc_obj addr (Swdmx_aes_key junk);;
     upd_key a (fun k => k <| k_data := addr |> <| k_set := Fn_aes_dec_key |> <| k_free := Fn_aes_dec_key |>));;
  mret SWDMX_OK.

(** ** Channels *)

(** [swdmx_descrambler_new()]; the key entries and the buffer are others'. *)
Definition swdmx_descrambler_new (ks : gmap Z swdmx_key) (os : gmap Z key_obj) (buf : list Z) : descrambler :=
  mk_desc [] [] ∅ ks os buf.

(** [swdmx_descrambler_alloc_channel(desc)], [a] the new address. *)
Definition swdmx_descrambler_alloc_channel (a : Z) : X Z :=
  modify (fun s => s <| chans := <[a := mk_chan 0 0xffff 0 0 None None None None None None None]> (chans s) |>);;
  modify (fun s => s <| chan_list := chan_list s ++ [a] |>);;
  mret a.

Definition swdmx_desc_channel_set_cb (a : Z) (cb : option swdmx_desc_cb) : X Z :=
  upd_chan a (fun c => c <| desc_cb := cb |>);; mret SWDMX_OK.

Definition swdmx_desc_channel_set_pid (a pid : Z) : X Z :=
  if negb (swdmx_is_valid_pid pid) || (pid =? 0x1fff) then mret SWDMX_ERR
  else upd_chan a (fun c => c <| ch_pid := pid |>);; mret SWDMX_OK.

Definition swdmx_desc_channel_set_key (a : Z) (parity : swdmx_keyparity) (key : Z) : X Z :=
  upd_chan a (fun c =>
    match parity with
    | SWDMX_DESC_ODD_KEY => c <| odd_key := Some key |>
    | SWDMX_DESC_EVEN_KEY => c <| even_key := Some key |>
    | SWDMX_DESC_00_KEY => c <| zero_key := Some key |>
    | SWDMX_DESC_ODD_IV => c <| odd_iv := Some key |>
    | SWDMX_DESC_EVEN_IV => c <| even_iv := Some key |>
    | SWDMX_DESC_00_IV => c <| zero_iv := Some key |>
    end);;
  mret SWDMX_OK.

Definition swdmx_desc_channel_set_scb (a as_is v : Z) : X Z :=
  upd_chan a (fun c => c <| scb_as_is := as_is |> <| scb := v |>);; mret SWDMX_OK.

Definition swdmx_desc_channel_enable (a : Z) : X Z :=
  c ← chan_at a;
  if negb (swdmx_is_valid_pid (ch_pid c)) then mret SWDMX_ERR
  else upd_chan a (fun c => c <| ch_enable := 1 |>);; mret SWDMX_OK.

Definition swdmx_desc_channel_disable (a : Z) : X Z :=
  upd_chan a (fun c => c <| ch_enable := 0 |>);; mret SWDMX_OK.

Definition swdmx_desc_channel_free (a : Z) : X unit :=
  _ ← chan_at a;
  modify (fun s => s <| chan_list := unlink a (chan_list s) |>);;
  modify (fun s => s <| chans := delete a (chans s) |>).

(** [while (!swdmx_list_is_empty(&desc->chan_list))] *)
Fixpoint free_channels (fuel : nat) : X unit :=
  match fuel with
  | O => undef
  | S f =>
      l ← gets chan_list;
      match l with
      | [] => mret tt
      | a :: _ => swdmx_desc_channel_free a;; free_channels f
      end
  end.

(** [void swdmx_descrambler_free(desc)] *)
Definition swdmx_descrambler_free : X unit :=
  l ← gets chan_list;
  free_channels (S (length l));;
  modify (fun s => s <| d_cb_list := [] |>).

Definition swdmx_descrambler_add_ts_packet_cb (c : swdmx_cb_entry) : X Z :=
  modify (fun s => s <| d_cb_list := d_cb_list s ++ [c] |>);; mret SWDMX_OK.

Definition swdmx_descrambler_remove_ts_packet_cb (c : swdmx_cb_entry) : X Z :=
  modify (fun s => s <| d_cb_list := remove_first c (d_cb_list s) |>);; mret SWDMX_OK.

(** ** Packets *)

Section Packets.
Context (W : nat) (obuf : list Z).   (** what the 184 bytes of [obuf] hold *)

(** [static void aes_cbc_dec_desc_pkt(key, iv, pkt)], [p] the payload. *)
Definition aes_cbc_dec_desc_pkt (key : AES_KEY) (ivbuf : list Z) (p left : Z) : X unit :=
  let tail := Z.land left 15 in
  let len := left - tail in
  buf ← gets d_buf;
  match AES_cbc_encrypt W key len 0 (mk_cbc (drop (Z.to_nat p) buf) (Some obuf) ivbuf) with
  | Ok _ (mk_cbc _ (Some out) _) =>
      xs ← of_option (load out 0 len);
      buf ← of_option (store buf p xs);
      modify (fun s => s <| d_buf := buf |>)
  | _ => undef
  end.

(** The key and the vector of a parity; none for SCB 1. *)
Definition parity_keys (c : swdmx_descchannel) (scramble : Z) : option (option Z * option Z) :=
  if scramble =? 2 then Some (even_key c, even_iv c)
  else if scramble =? 3 then Some (odd_key c, odd_iv c)
  else if scramble =? 0 then Some (zero_key c, zero_iv c)
  else None.

(** [memcpy(ivbuf, iv, 16)] from what [iv->data] points to. *)
Definition iv_bytes (o : key_obj) : option (list Z) :=
  match o with
  | Swdmx_aes_iv iv => load iv 0 16
  | Swdmx_aes_key k => Some (concat (le_split 4 <$> take 4 (rd_key k)))
  end.

(** [int swdmx_aes_cbc_dec_desc_cb(desc_chan, pkt)] *)
Definition swdmx_aes_cbc_dec_desc_cb (c : swdmx_descchannel) (pkt : swdmx_tspacket) : X Z :=
  match parity_keys c (scramble pkt) with
  | None => mret (-1)
  | Some (Some ka, Some va) =>
      key ← key_ent ka;
      iv ← key_ent va;
      if negb (truth (k_used key)) || negb (truth (k_used iv))
         || negb (bool_decide (k_algo key = SWDMX_DESC_ALGO_AES_DEC)) || negb (truth (k_is_iv iv))
      then mret (-1)
      else
        akey ← obj_at (k_data key);
        aiv ← obj_at (k_data iv);
        ivbuf ← of_option (iv_bytes aiv);
        match akey, payload pkt with
        | Swdmx_aes_key k, Some p => aes_cbc_dec_desc_pkt k ivbuf p (payload_len pkt);; mret 0
        | _, _ => undef
        end
  | Some _ => mret (-1)
  end.

(** [pkt->scramble = ch->scb; packet[3] &= 0x3f; packet[3] |= (ch->scb << 6)] *)
Definition set_packet_scb (v : Z) (pkt : swdmx_tspacket) : X swdmx_tspacket :=
  buf ← gets d_buf;
  b ← of_option (aget buf (packet pkt + 3));
  buf ← of_option (aset buf (packet pkt + 3) (u8 (Z.lor (Z.land b 0x3f) (Z.shiftl v 6))));
  modify (fun s => s <| d_buf := buf |>);;
  mret (pkt <| scramble := v |>).

(** The loop over the channels: the first one that is enabled, has the PID
    and a callback. *)
Fixpoint descramble (l : list Z) (pkt : swdmx_tspacket) : X swdmx_tspacket :=
  match l with
  | [] => mret pkt
  | a :: l =>
      c ← chan_at a;
      match desc_cb c with
      | Some Swdmx_aes_cbc_dec_desc_cb =>
          if truth (ch_enable c) && (ch_pid c =? pid pkt) then
            r ← swdmx_aes_cbc_dec_desc_cb c pkt;
            if (r =? 0) && negb (truth (scb_as_is c)) then set_packet_scb (scb c) pkt else mret pkt
          else descramble l pkt
      | None => descramble l pkt
      end
  end.

Context {St : Type} (view : St → descrambler) (put : descrambler → St → St)
  (deliver : swdmx_cb_entry → swdmx_tspacket → M St unit).

(** [void swdmx_descrambler_ts_packet_cb(pkt, data)] *)
Definition swdmx_descrambler_ts_packet_cb (pkt : swdmx_tspacket) : M St unit :=
  l ← gets (fun s => chan_list (view s));
  pkt ← (if payload pkt then zoom view put (descramble l pkt) else mret pkt);
  cbs ← gets (fun s => d_cb_list (view s));
  call_all deliver cbs pkt.
End Packets.
