(* ===== verification/SwdmxDescOk.v ===== *)
(** The descrambler on a transport stream: what the consumers of a stream
    scrambled with AES in CBC mode get is the clear stream. *)

From stdpp Require Import base list numbers gmap.
From Stdlib Require Import ZArith Lia Bool.
From S2P Require Import Prelude.
From S2P Require Import SwdmxList.
From S2P Require Import SwdmxTs.
From S2P Require Import AesCore.
From S2P Require Import AesFips.
From S2P Require Import AesKeys.
From S2P Require Import SwdmxCbc.
From S2P Require Import SwdmxCbcOk.
From S2P Require Import SwdmxDesc.

#[local] Open Scope Z_scope.

(** ** What the descrambler has to do *)

(** The channel that takes the packets of a PID. *)
Fixpoint first_chan (m : gmap Z swdmx_descchannel) (l : list Z) (pid : Z) : option swdmx_descchannel :=
  match l with
  | [] => None
  | a :: l =>
      match m !! a with
      | Some c =>
          if (if desc_cb c then true else false) && (truth (ch_enable c) && (ch_pid c =? pid))
          then Some c else first_chan m l pid
      | None => None
      end
  end.

(** Entry [a] holds the decryption schedule of an AES-128 key. *)
Record has_key (d : descrambler) (a : Z) (key : list Z) : Prop := {
  hk_ok : block_ok 16 key;
  hk_entry : ∃ e k k0, keys d !! a = Some e ∧ truth (k_used e) = true ∧ k_algo e = SWDMX_DESC_ALGO_AES_DEC ∧
    objs d !! k_data e = Some (Swdmx_aes_key k) ∧ key_ok k0 ∧ AES_set_decrypt_key (Some key) 128 k0 = Ok 0 k
}.

(** Entry [a] holds an initialisation vector. *)
Record has_iv (d : descrambler) (a : Z) (iv : list Z) : Prop := {
  hi_ok : block_ok 16 iv;
  hi_entry : ∃ e, keys d !! a = Some e ∧ truth (k_used e) = true ∧ truth (k_is_iv e) = true ∧
    objs d !! k_data e = Some (Swdmx_aes_iv iv)
}.

(** A packet with another scrambling control and payload. *)
Definition with_payload (f : ts_fields) (scr : Z) (rest : list Z) : ts_fields :=
  mk_tsf (tf_error f) (tf_start f) (tf_priority f) (tf_pid f) scr (tf_cc f) (tf_adp f) (tf_has_payload f) rest.

(** A packet of the scrambling control [scr] cannot be decrypted on the channel
    [c]: no key or no vector for that control, or an entry that is not in use
    or is not what its place is for. *)
Definition unusable (d : descrambler) (c : swdmx_descchannel) (scr : Z) : Prop :=
  match parity_keys c scr with
  | Some (Some ka, Some va) => ∃ k i, keys d !! ka = Some k ∧ keys d !! va = Some i ∧
      (truth (k_used k) = false ∨ truth (k_used i) = false ∨ k_algo k ≠ SWDMX_DESC_ALGO_AES_DEC ∨ truth (k_is_iv i) = false)
  | _ => True
  end.

(** The scrambling control a channel sets has two bits. *)
Definition scb_ok (c : swdmx_descchannel) : Prop := truth (scb_as_is c) = false → 0 ≤ scb c < 4.

(** [f'] is [f] descrambled: the whole blocks of the payload are decrypted,
    each packet from the vector of its parity, the rest stays; a packet no
    channel takes, or that cannot be decrypted, stays as it is. *)
Inductive descrambles (d : descrambler) (f : ts_fields) : ts_fields → Prop :=
  | Ds_clear : tf_pid f = 8191 ∨ tf_has_payload f = false ∨ first_chan (chans d) (chan_list d) (tf_pid f) = None →
      descrambles d f f
  | Ds_idle c : tf_pid f ≠ 8191 → tf_has_payload f = true →
      first_chan (chans d) (chan_list d) (tf_pid f) = Some c → unusable d c (tf_scramble f) → descrambles d f f
  | Ds_aes c ka va key iv n e tail :
      tf_pid f ≠ 8191 → tf_has_payload f = true →
      first_chan (chans d) (chan_list d) (tf_pid f) = Some c →
      parity_keys c (tf_scramble f) = Some (Some ka, Some va) → has_key d ka key → has_iv d va iv →
      tf_rest f = e ++ tail → block_ok (16 * n) e → (length tail < 16)%nat → scb_ok c →
      descrambles d f (with_payload f (if truth (scb_as_is c) then tf_scramble f else scb c)
                         (cbc_decrypt (aes_inv_cipher 128 key) n iv e ++ tail)).

(** The nodes of the channel list are channels. *)
Definition chans_ok (d : descrambler) : Prop := Forall (fun a => is_Some (chans d !! a)) (chan_list d).

(** What the interface has to see to: the controls the channels set have two
    bits, and an entry that is in use has been set, a key in the place of a
    key and a vector in that of a vector. *)
Record desc_ok (d : descrambler) : Prop := {
  dk_chans : chans_ok d;
  dk_scb : ∀ a c, a ∈ chan_list d → chans d !! a = Some c → scb_ok c;
  dk_keys : ∀ a c scr ka va, a ∈ chan_list d → chans d !! a = Some c → parity_keys c scr = Some (Some ka, Some va) →
    unusable d c scr ∨ ∃ key iv, has_key d ka key ∧ has_iv d va iv
}.

Definition with_buf (d : descrambler) (b : list Z) : descrambler := d <| d_buf := b |>.

Lemma d_buf_with d b : d_buf (with_buf d b) = b.
Proof. done. Qed.

(** ** The header of a packet *)

Definition ts_head (f : ts_fields) : list Z :=
  match tf_adp f with Some a => zlen a :: a | None => [] end.

Definition ts_b1 (f : ts_fields) : Z :=
  b2z (tf_error f) * 128 + b2z (tf_start f) * 64 + b2z (tf_priority f) * 32 + tf_pid f / 256.

Definition ts_low (f : ts_fields) : Z := (if tf_adp f then 32 else 0) + b2z (tf_has_payload f) * 16 + tf_cc f.

Lemma ts_encode_with f scr rest :
  ts_encode (with_payload f scr rest) = [71; ts_b1 f; tf_pid f mod 256; scr * 64 + ts_low f] ++ ts_head f ++ rest.
Proof.
  unfold ts_encode, ts_head, with_payload, ts_b1, ts_low.
  cbn [tf_error tf_start tf_priority tf_pid tf_scramble tf_cc tf_adp tf_has_payload tf_rest].
  cbn [app]. do 4 f_equal. lia.
Qed.

Lemma with_payload_same f : with_payload f (tf_scramble f) (tf_rest f) = f.
Proof. by destruct f. Qed.

Lemma ts_encode_split f :
  ts_encode f = [71; ts_b1 f; tf_pid f mod 256; tf_scramble f * 64 + ts_low f] ++ ts_head f ++ tf_rest f.
Proof. rewrite <- (with_payload_same f) at 1. apply ts_encode_with. Qed.

Lemma ts_low_range f : ts_fields_ok f → 0 ≤ ts_low f < 64.
Proof.
  intros Hf. pose proof (tfo_cc _ Hf). unfold ts_low. destruct (tf_adp f), (tf_has_payload f); cbn [b2z]; lia.
Qed.

Lemma ts_fields_with f scr rest : ts_fields_ok f → 0 ≤ scr < 4 → length rest = length (tf_rest f) →
  ts_fields_ok (with_payload f scr rest).
Proof.
  intros Hf Hs Hl. destruct Hf as [Hp _ Hc Ha Hn]. split; try done.
  rewrite ts_encode_split in Hn. rewrite ts_encode_with, !zlen_app in *. unfold zlen in *. rewrite Hl. exact Hn.
Qed.

Lemma ts_expect_with size p f scr rest : length rest = length (tf_rest f) →
  ts_expect size p (with_payload f scr rest) = (ts_expect size p f) <| scramble := scr |>.
Proof. intros Hl. unfold ts_expect, with_payload. cbn. unfold zlen. by rewrite Hl. Qed.

Lemma ts_expect_payload size p f : tf_has_payload f = true →
  payload (ts_expect size p f) = Some (p + 4 + zlen (ts_head f)) ∧ payload_len (ts_expect size p f) = zlen (tf_rest f).
Proof.
  intros Hf. unfold ts_expect, ts_head. cbn [payload payload_len]. rewrite Hf.
  split; [|done]. destruct (tf_adp f); [|done]. do 2 f_equal. unfold zlen. cbn [length]. lia.
Qed.

(** The byte with the new scrambling control. *)
Lemma scb_byte scr v low : 0 ≤ low < 64 → 0 ≤ v < 4 →
  u8 (Z.lor (Z.land (scr * 64 + low) 0x3f) (Z.shiftl v 6)) = v * 64 + low.
Proof.
  intros Hl Hv. change 0x3f with (Z.ones 6). rewrite Z.land_ones, Z.add_comm by lia.
  change 64 with (2 ^ 6) at 1. rewrite Z.mod_add, Z.mod_small by lia.
  rewrite Z.lor_comm, Z.shiftl_mul_pow2, lor_mul_add by lia. unfold u8. apply Z.mod_small. lia.
Qed.

Lemma aset_middle {A} (a : list A) x y c o : o = zlen a → aset (a ++ x :: c) o y = Some (a ++ y :: c).
Proof.
  intros ->. pose proof (zlen_nonneg a). rewrite aset_Some by (rewrite zlen_app; unfold zlen; cbn [length]; lia).
  unfold zlen. by rewrite Nat2Z.id, insert_app_r_alt, Nat.sub_diag by lia.
Qed.

Lemma aget_middle {A} (a : list A) x c o : o = zlen a → aget (a ++ x :: c) o = Some x.
Proof. intros ->. unfold zlen. rewrite aget_nat. by rewrite list_lookup_middle. Qed.

(** ** One packet *)

Section One.
Context (W : nat) `{!WordSize W} (obuf : list Z) (Hobuf : zlen obuf = 184).

Lemma land_15_len n (e tail : list Z) : length e = (16 * n)%nat → (length tail < 16)%nat →
  zlen (e ++ tail) - Z.land (zlen (e ++ tail)) 15 = 16 * Z.of_nat n.
Proof.
  intros He Ht. change 15 with (Z.ones 4). rewrite Z.land_ones by lia. unfold zlen. rewrite length_app, He.
  replace (Z.of_nat (16 * n + length tail)) with (Z.of_nat (length tail) + Z.of_nat n * 2 ^ 4) by lia.
  rewrite Z.mod_add, Z.mod_small by lia. lia.
Qed.

(** The output has the length of the input. *)
Lemma cbc_decrypt_length dec n iv c : (∀ x, length x = 16%nat → length (dec x) = 16%nat) →
  length iv = 16%nat → length c = (16 * n)%nat → length (cbc_decrypt dec n iv c) = (16 * n)%nat.
Proof.
  intros Hd. revert iv c. induction n as [|n IH]; intros iv c Hv Hc; [done|]. cbn [cbc_decrypt].
  assert (length (take 16 c) = 16%nat) by (rewrite length_take; lia).
  rewrite length_app, length_zip_with, Hd, IH by (done || rewrite length_drop; lia). lia.
Qed.

Lemma aes_cbc_length key n iv c : block_ok 16 key → block_ok 16 iv → block_ok (16 * n) c →
  length (cbc_decrypt (aes_inv_cipher 128 key) n iv c) = (16 * n)%nat.
Proof.
  intros Hk [Hiv _] [Hc _]. apply cbc_decrypt_length; [|done..]. intros x Hx.
  unfold aes_inv_cipher, inv_cipher, add_round_key. rewrite length_zip_with.
  pose proof (aes_round_keys_ok 128 key ltac:(by left) Hk 0 ltac:(done)) as [-> _].
  unfold inv_sub_bytes. rewrite length_fmap. unfold inv_shift_rows. by rewrite length_fmap.
Qed.

(** The decryption of the payload in the packet. *)
Lemma dec_desc_pkt_ok {U} d key k k0 iv n pre e tail post p left (Q : unit → descrambler → Prop) E :
  block_ok 16 key → key_ok k0 → AES_set_decrypt_key (Some key) 128 k0 = Ok 0 k → block_ok 16 iv →
  block_ok (16 * n) e → (length tail < 16)%nat → left = zlen (e ++ tail) → left ≤ 184 →
  d_buf d = pre ++ e ++ tail ++ post → p = zlen pre →
  Q tt (with_buf d (pre ++ cbc_decrypt (aes_inv_cipher 128 key) n iv e ++ tail ++ post)) →
  wp U (aes_cbc_dec_desc_pkt W obuf k iv p left) Q E d.
Proof.
  intros Hkey Hk0 Hset Hiv He Ht -> Hle Hb -> HQ. unfold aes_cbc_dec_desc_pkt. apply wp_bind, wp_gets.
  destruct (cbc_key_decrypt W 128 key ltac:(by left) Hkey k0 Hk0) as (k' & Hset' & Hdec & _).
  assert (k' = k) as -> by congruence.
  rewrite (land_15_len n) by (apply He || done). rewrite Hb. unfold zlen. rewrite Nat2Z.id, drop_app_length.
  rewrite zlen_app in Hle. assert (16 * n ≤ length obuf)%nat as Ho by (destruct He; unfold zlen in *; lia).
  rewrite <- (take_drop (16 * n) obuf). rewrite Hdec by (done || rewrite length_take; lia).
  set (p' := cbc_decrypt _ _ _ _) in *.
  assert (length p' = (16 * n)%nat) as Hp'.
  { by apply aes_cbc_length. }
  assert (load (p' ++ drop (16 * n) obuf) 0 (16 * Z.of_nat n) = Some p') as Hl
    by (apply (load_middle [] p'); [done|unfold zlen; lia]).
  assert (store (pre ++ e ++ tail ++ post) (Z.of_nat (length pre)) p' = Some (pre ++ p' ++ tail ++ post)) as Hs
    by (apply store_middle; [done|destruct He; unfold zlen; lia]).
  apply wp_bind, wp_of_option; [|by rewrite Hl]. intros xs Hxs. assert (xs = p') as -> by congruence.
  apply wp_bind, wp_of_option; [|by rewrite Hs]. intros b' Hb'. assert (b' = pre ++ p' ++ tail ++ post) as -> by congruence.
  apply wp_modify. exact HQ.
Qed.

Lemma wp_first_chan {U} d l pkt (Q : swdmx_tspacket → descrambler → Prop) E :
  Forall (fun a => is_Some (chans d !! a)) l →
  match first_chan (chans d) l (pid pkt) with
  | Some c => wp U (r ← swdmx_aes_cbc_dec_desc_cb W obuf c pkt;
                    if (r =? 0) && negb (truth (scb_as_is c)) then set_packet_scb (scb c) pkt else mret pkt) Q E d
  | None => Q pkt d
  end → wp U (descramble W obuf l pkt) Q E d.
Proof.
  intros Hl. induction Hl as [|a l [c Hc] Hl IH]; [done|]. cbn [first_chan descramble]. rewrite Hc. intros HQ.
  apply wp_bind. unfold chan_at. apply wp_bind, wp_gets, wp_of_option; [|congruence].
  intros c' Hc'. assert (c' = c) as -> by congruence.
  destruct (desc_cb c) as [[]|]; cbn [andb] in HQ; [|by apply IH].
  destruct (truth (ch_enable c) && (ch_pid c =? pid pkt)); [exact HQ|by apply IH].
Qed.

(** A packet that cannot be decrypted is left alone. *)
Lemma unusable_left {U} d c pkt (Q : swdmx_tspacket → descrambler → Prop) E : unusable d c (scramble pkt) → Q pkt d →
  wp U (r ← swdmx_aes_cbc_dec_desc_cb W obuf c pkt;
        if (r =? 0) && negb (truth (scb_as_is c)) then set_packet_scb (scb c) pkt else mret pkt) Q E d.
Proof.
  unfold unusable, swdmx_aes_cbc_dec_desc_cb. intros Hun HQ. apply wp_bind.
  destruct (parity_keys c (scramble pkt)) as [[[ka|] [va|]]|]; try by apply wp_ret, wp_ret.
  destruct Hun as (ek & ei & Hk & Hi & Hor). unfold key_ent.
  apply wp_bind, wp_bind, wp_gets, wp_of_option; [|congruence]. intros x Hx. assert (x = ek) as -> by congruence.
  apply wp_bind, wp_bind, wp_gets, wp_of_option; [|congruence]. intros x Hx1. assert (x = ei) as -> by congruence.
  assert (negb (truth (k_used ek)) || negb (truth (k_used ei)) || negb (bool_decide (k_algo ek = SWDMX_DESC_ALGO_AES_DEC))
    || negb (truth (k_is_iv ei)) = true) as ->.
  { destruct Hor as [->|[->|[Hne| ->]]]; cbn [negb]; rewrite ?orb_true_r; [done..| |done].
    rewrite bool_decide_eq_false_2 by done. cbn [negb]. by rewrite !orb_true_r. }
  by apply wp_ret, wp_ret.
Qed.

(** What the descrambler does to a packet at [pre]. *)
Lemma descramble_one {U} d pre f f' post (Q : swdmx_tspacket → descrambler → Prop) E :
  chans_ok d → ts_fields_ok f → tf_pid f ≠ 8191 → descrambles d f f' → d_buf d = pre ++ ts_encode f ++ post →
  let k := ts_expect 188 (zlen pre) f in
  Q (ts_expect 188 (zlen pre) f') (with_buf d (pre ++ ts_encode f' ++ post)) →
  wp U (if payload k then descramble W obuf (chan_list d) k else mret k) Q E d.
Proof.
  intros Hch Hf Hnull Hds Hb k HQ.
  destruct Hds as [[Hp|[Hp|Hn]]|c _ Hp Hfc Hun|c ka va key iv n e tail _ Hp Hfc Hpar [Hkok (ek & kk & k0 & Hek & Huk & Hal & Hok & Hk0 & Hset)]
    [Hiok (ei & Hei & Hui & Hii & Hoi)] Hrest He Ht Hscb].
  1: done.
  1, 2, 3: assert (with_buf d (pre ++ ts_encode f ++ post) = d) as Hd by (rewrite <- Hb; by destruct d); rewrite Hd in HQ.
  - unfold k, ts_expect at 1. cbn [payload]. rewrite Hp. by apply wp_ret.
  - destruct (payload k); [|by apply wp_ret]. apply wp_first_chan; [done|].
    change (pid k) with (tf_pid f). by rewrite Hn.
  - destruct (ts_expect_payload 188 (zlen pre) f Hp) as [Hpay _]. fold k in Hpay. rewrite Hpay.
    apply wp_first_chan; [done|]. change (pid k) with (tf_pid f). rewrite Hfc. by apply unusable_left.
  - destruct (ts_expect_payload 188 (zlen pre) f Hp) as [Hpay Hlen]. fold k in Hpay, Hlen. rewrite Hpay.
    apply wp_first_chan; [done|]. change (pid k) with (tf_pid f). rewrite Hfc.
    set (p' := cbc_decrypt _ _ _ _) in *.
    assert (length (p' ++ tail) = length (tf_rest f)) as Hl'.
    { rewrite Hrest, !length_app. f_equal. rewrite (proj1 He). by apply aes_cbc_length. }
    apply wp_bind. unfold swdmx_aes_cbc_dec_desc_cb. change (scramble k) with (tf_scramble f). rewrite Hpar.
    unfold key_ent, obj_at.
    apply wp_bind, wp_bind, wp_gets, wp_of_option; [|congruence]. intros x Hx. assert (x = ek) as -> by congruence.
    apply wp_bind, wp_bind, wp_gets, wp_of_option; [|congruence]. intros x Hx1. assert (x = ei) as -> by congruence.
    rewrite Huk, Hui, Hii, bool_decide_eq_true_2 by done. cbn [negb orb].
    apply wp_bind, wp_bind, wp_gets, wp_of_option; [|congruence]. intros x Hx2. assert (x = Swdmx_aes_key kk) as -> by congruence.
    apply wp_bind, wp_bind, wp_gets, wp_of_option; [|congruence]. intros x Hx3. assert (x = Swdmx_aes_iv iv) as -> by congruence.
    assert (iv_bytes (Swdmx_aes_iv iv) = Some iv) as Hivb by (apply load_all; destruct Hiok; unfold zlen; lia).
    rewrite Hivb. apply wp_bind, wp_of_option; [|done]. intros x [= <-]. rewrite Hpay, Hlen.
    pose proof (ts_encode_split f) as Henc. rewrite Hrest in Henc.
    set (h4 := [71; ts_b1 f; tf_pid f mod 256; tf_scramble f * 64 + ts_low f]) in *.
    apply wp_bind. apply (dec_desc_pkt_ok d key kk k0 iv n (pre ++ h4 ++ ts_head f) e tail post); try done.
    { by rewrite Hrest. }
    { pose proof (tfo_len _ Hf) as Hn. rewrite Henc, !zlen_app in Hn. rewrite Hrest, zlen_app.
      change (zlen h4) with 4 in Hn. pose proof (zlen_nonneg (ts_head f)). lia. }
    { rewrite Hb, Henc, <- !app_assoc. done. }
    { rewrite !zlen_app. change (zlen h4) with 4. lia. }
    apply wp_ret. fold p'. cbn [Z.eqb andb]. rewrite <- !app_assoc.
    destruct (truth (scb_as_is c)) eqn:Has; cbn [negb]; [|specialize (Hscb Has)].
    + apply wp_ret. rewrite ts_expect_with, ts_encode_with in HQ by done. fold h4 in HQ. rewrite <- !app_assoc in HQ.
      cbn [app] in HQ |- *. exact HQ.
    + unfold set_packet_scb. apply wp_bind, wp_gets. rewrite d_buf_with.
      set (lst := tf_scramble f * 64 + ts_low f) in *.
      assert (∀ x r, pre ++ [71; ts_b1 f; tf_pid f mod 256; x] ++ r =
        (pre ++ [71; ts_b1 f; tf_pid f mod 256]) ++ x :: r) as Hsplit by (intros x r; by rewrite <- app_assoc).
      assert (packet k + 3 = zlen (pre ++ [71; ts_b1 f; tf_pid f mod 256])) as Hpk by (by rewrite zlen_app).
      unfold h4. rewrite Hsplit.
      apply wp_bind, wp_of_option; rewrite (aget_middle _ _ _ _ Hpk); [|done]. intros b [= <-].
      apply wp_bind, wp_of_option; rewrite (aset_middle _ _ _ _ _ Hpk); [|done]. intros b [= <-].
      apply wp_bind, wp_modify, wp_ret. unfold lst. rewrite scb_byte by (done || by apply ts_low_range).
      rewrite ts_expect_with, ts_encode_with in HQ by done. rewrite <- !app_assoc in *. cbn [app] in *. exact HQ.
Qed.

(** ** A stream *)

(** The descrambler and the calls of its callbacks so far. *)
Definition desc_log : Type := descrambler * list (swdmx_cb_entry * swdmx_tspacket).

Definition desc_view : desc_log → descrambler := fst.
Definition desc_put (d : descrambler) (s : desc_log) : desc_log := (d, s.2).
Definition desc_deliver (e : swdmx_cb_entry) (pkt : swdmx_tspacket) : M desc_log unit :=
  modify (fun s => (s.1, s.2 ++ [(e, pkt)])).

(** The parser with the descrambler as its callback ([stream_init] of
    t5d_demux.c). *)
Definition run_desc (tsp : swdmx_ts_parser) (p len : Z) : M desc_log Z :=
  swdmx_ts_parser_run (fun s => d_buf (desc_view s))
    (fun _ => swdmx_descrambler_ts_packet_cb W obuf desc_view desc_put desc_deliver) tsp p len.

Lemma wp_call_log {U} cbs k d log (Q : unit → desc_log → Prop) E :
  Q tt (d, log ++ calls cbs [k]) → wp U (call_all desc_deliver cbs k) Q E (d, log).
Proof.
  revert log. induction cbs as [|c cbs IH]; intros log HQ.
  - apply wp_ret. by rewrite app_nil_r in HQ.
  - cbn [call_all]. apply wp_bind, wp_modify, IH. cbn [fst snd]. rewrite <- app_assoc. exact HQ.
Qed.

Lemma desc_cb_one {U} d pre f f' post log (Q : unit → desc_log → Prop) E :
  chans_ok d → ts_fields_ok f → tf_pid f ≠ 8191 → descrambles d f f' → d_buf d = pre ++ ts_encode f ++ post →
  Q tt (with_buf d (pre ++ ts_encode f' ++ post), log ++ calls (d_cb_list d) [ts_expect 188 (zlen pre) f']) →
  wp U (swdmx_descrambler_ts_packet_cb W obuf desc_view desc_put desc_deliver (ts_expect 188 (zlen pre) f)) Q E (d, log).
Proof.
  intros Hch Hf Hn Hds Hb HQ. unfold swdmx_descrambler_ts_packet_cb. apply wp_bind, wp_gets, wp_bind.
  assert (∀ k (Q' : swdmx_tspacket → desc_log → Prop), wp U (if payload k then descramble W obuf (chan_list d) k else mret k)
    (fun k' d' => Q' k' (d', log)) (fun e d' => E e (d', log)) d →
    wp U (if payload k then zoom desc_view desc_put (descramble W obuf (chan_list d) k) else mret k) Q' E (d, log)) as Hz.
  { intros k Q' Hw. destruct (payload k); [|exact Hw]. by apply wp_zoom. }
  apply Hz. apply (descramble_one d pre f f' post); [done..|]. apply wp_bind, wp_gets. by apply wp_call_log.
Qed.

Lemma descrambles_buf d b f f' : descrambles d f f' → descrambles (with_buf d b) f f'.
Proof.
  intros [Hc|c Hn Hp Hfc Hun|c ka va key iv n e tail Hn Hp Hfc Hpar [Hk Hke] [Hi Hie] Hr He Ht Hs];
    [by apply Ds_clear|by apply (Ds_idle (with_buf d b) f c)|].
  by apply (Ds_aes (with_buf d b) f c ka va key iv n e tail).
Qed.

Lemma descrambles_zlen d f f' : ts_fields_ok f → descrambles d f f' → zlen (ts_encode f') = 188 ∧ tf_pid f' = tf_pid f.
Proof.
  intros Hf [Hc|c Hn Hp Hfc Hun|c ka va key iv n e tail Hn Hp Hfc Hpar [Hk Hke] [Hi Hie] Hr He Ht Hs]; [by split; [apply Hf|]..|].
  split; [|done]. destruct (ts_fields_with f 0 (cbc_decrypt (aes_inv_cipher 128 key) n iv e ++ tail) Hf) as [_ _ _ _ Hz]; [done| |].
  - rewrite Hr, !length_app. f_equal. rewrite (proj1 He). by apply aes_cbc_length.
  - by rewrite ts_encode_with in *.
Qed.

Lemma run_desc_loop {U} tsp e fs fs' d pre post fuel log (Q : Z → desc_log → Prop) E :
  packet_size tsp = 188 → tsp_cb_list tsp = [e] → chans_ok d → Forall ts_fields_ok fs → Forall2 (descrambles d) fs fs' →
  d_buf d = pre ++ ts_stream fs ++ post → (length fs < fuel)%nat →
  Q 0 (with_buf d (pre ++ ts_stream fs' ++ post), log ++ calls (d_cb_list d) (ts_expect_all 188 (zlen pre) fs')) →
  wp U (run_loop (fun s => d_buf (desc_view s))
          (fun _ => swdmx_descrambler_ts_packet_cb W obuf desc_view desc_put desc_deliver)
          fuel tsp (zlen pre) (188 * zlen fs)) Q E (d, log).
Proof.
  intros Hsize Hcb. revert d pre fuel log fs'. induction fs as [|f fs IH]; intros d pre fuel log fs' Hch Hfs Hds Hb Hfuel HQ;
    (destruct fuel as [|fuel]; [cbn in Hfuel; lia|]); inversion Hds as [|? f' ? fs2 Hf' Hds2]; subst; cbn [run_loop]; rewrite Hsize, Z.geb_leb.
  - rewrite (proj2 (Z.leb_gt _ _)) by (change (zlen []) with 0; lia). apply wp_ret.
    assert (with_buf d (pre ++ ts_stream [] ++ post) = d) as Hd by (rewrite <- Hb; by destruct d).
    rewrite Hd in HQ. unfold calls in HQ. cbn [ts_expect_all] in HQ. by rewrite app_nil_r in HQ.
  - apply Forall_cons_1 in Hfs as [Hf Hfs].
    assert (zlen (f :: fs) = 1 + zlen fs) as Hz by (unfold zlen; cbn [length]; lia). rewrite Hz. pose proof (zlen_nonneg fs).
    rewrite (proj2 (Z.leb_le _ _)) by lia.
    change (ts_stream (f :: fs)) with (ts_encode f ++ ts_stream fs) in Hb.
    change (ts_stream (f' :: fs2)) with (ts_encode f' ++ ts_stream fs2) in HQ. rewrite <- !app_assoc in *.
    destruct (descrambles_zlen _ _ _ Hf Hf') as [Hz' Hpid].
    apply wp_bind, wp_gets. cbn [desc_view fst]. rewrite Hb.
    assert (aget (pre ++ ts_encode f ++ ts_stream fs ++ post) (zlen pre) = Some 71) as Hsync by (by apply aget_middle).
    apply wp_bind, wp_of_option; [|by rewrite Hsync]. intros b Hb'. assert (b = 71) as -> by congruence. cbn [Z.eqb].
    apply wp_bind. unfold ts_packet. apply wp_bind, wp_gets. rewrite Hsize. cbn [desc_view fst]. rewrite Hb.
    rewrite ts_header_encode by done. apply wp_bind, wp_of_option; [|done]. intros h Hh.
    replace (188 * (1 + zlen fs) - 188) with (188 * zlen fs) by lia.
    cbn [ts_expect_all] in HQ. rewrite Hpid in HQ. destruct (Z.eqb_spec (tf_pid f) 8191) as [He|He].
    + injection Hh as <-. apply wp_ret.
      assert (f' = f) as -> by (destruct Hf' as [| |? ? ? ? ? ? ? ? Hne]; done).
      assert (zlen pre + 188 = zlen (pre ++ ts_encode f)) as -> by (by rewrite zlen_app, (tfo_len _ Hf)).
      apply (IH d (pre ++ ts_encode f) fuel log fs2); [done..| |cbn in Hfuel; lia|].
      * by rewrite <- app_assoc.
      * rewrite <- app_assoc, zlen_app, (tfo_len _ Hf). exact HQ.
    + injection Hh as <-. rewrite Hcb. cbn [call_all]. apply wp_bind.
      apply (desc_cb_one d pre f f' (ts_stream fs ++ post)); [done..|]. apply wp_ret.
      assert (zlen pre + 188 = zlen (pre ++ ts_encode f')) as -> by (by rewrite zlen_app, Hz').
      apply (IH (with_buf d (pre ++ ts_encode f' ++ ts_stream fs ++ post)) (pre ++ ts_encode f') fuel _ fs2);
        [done|done| |by rewrite d_buf_with, <- app_assoc|cbn in Hfuel; lia|].
      * eapply Forall2_impl; [exact Hds2|]. intros ? ?. apply descrambles_buf.
      * rewrite <- !app_assoc, zlen_app, Hz', <- calls_app. exact HQ.
Qed.

Lemma run_desc_ok {U} tsp e fs fs' d pre post log (Q : Z → desc_log → Prop) E :
  packet_size tsp = 188 → tsp_cb_list tsp = [e] → chans_ok d → Forall ts_fields_ok fs → Forall2 (descrambles d) fs fs' →
  d_buf d = pre ++ ts_stream fs ++ post →
  Q (188 * zlen fs) (with_buf d (pre ++ ts_stream fs' ++ post), log ++ calls (d_cb_list d) (ts_expect_all 188 (zlen pre) fs')) →
  wp U (run_desc tsp (zlen pre) (188 * zlen fs)) Q E (d, log).
Proof.
  intros Hsize Hcb Hch Hfs Hds Hb HQ. unfold run_desc, swdmx_ts_parser_run. apply wp_bind.
  apply (run_desc_loop tsp e fs fs' d pre post); [done..|unfold zlen; lia|]. apply wp_ret. by rewrite Z.sub_0_r.
Qed.
End One.

(** The channel that takes a packet is one of the list. *)
Lemma first_chan_in m l pid c : first_chan m l pid = Some c → ∃ a, a ∈ l ∧ m !! a = Some c.
Proof.
  induction l as [|a l IH]; [done|]. cbn [first_chan]. destruct (m !! a) as [c'|] eqn:Ha; [|done].
  destruct (_ && _); [intros [= ->]; exists a; split; [left|done]|].
  intros (x & Hx & Hm)%IH. exists x. split; [by right|done].
Qed.

(** Every packet has something to become. *)
Lemma descrambles_total d f : desc_ok d → Forall is_byte (tf_rest f) → ∃ f', descrambles d f f'.
Proof.
  intros Hd Hb. destruct (Z.eq_dec (tf_pid f) 8191) as [?|Hn]; [exists f; apply Ds_clear; by left|].
  destruct (tf_has_payload f) eqn:Hp; [|exists f; apply Ds_clear; by right; left].
  destruct (first_chan (chans d) (chan_list d) (tf_pid f)) as [c|] eqn:Hfc; [|exists f; apply Ds_clear; by right; right].
  destruct (first_chan_in _ _ _ _ Hfc) as (a & Ha & Hc).
  assert (unusable d c (tf_scramble f) → ∃ f', descrambles d f f') as Hidle by (intros Hun; exists f; by apply (Ds_idle d f c)).
  destruct (parity_keys c (tf_scramble f)) as [[[ka|] [va|]]|] eqn:Hpar; try by (apply Hidle; unfold unusable; rewrite Hpar).
  destruct (dk_keys _ Hd a c _ ka va Ha Hc Hpar) as [Hun|(key & iv & Hk & Hi)]; [by apply Hidle|].
  set (n := (length (tf_rest f) / 16)%nat). pose proof (Nat.div_mod (length (tf_rest f)) 16 ltac:(lia)) as Hdm. fold n in Hdm.
  pose proof (Nat.mod_upper_bound (length (tf_rest f)) 16 ltac:(lia)) as Hub.
  eexists. apply (Ds_aes d f c ka va key iv n (take (16 * n) (tf_rest f)) (drop (16 * n) (tf_rest f))); try done.
  - by rewrite take_drop.
  - split; [rewrite length_take; lia|by apply Forall_take].
  - rewrite length_drop. lia.
  - by apply (dk_scb _ Hd a).
Qed.

(** C30: The descrambler behind the parser, on any stream of packets, anywhere
    in the buffer: a packet whose PID has an enabled channel with a key and a
    vector for its scrambling control is decrypted in place with them (only
    whole blocks, its scrambling control replaced unless the channel keeps
    it); every other packet -- of no channel, without payload, of control 1,
    or of a control for which the channel has no key or vector in use -- and
    every other byte of the buffer stay; the callbacks get the packets, null
    packets left out, in order, as if the descrambled stream had been parsed.
    What the interface leaves to its caller is assumed: the controls channels
    set have two bits, key entries in use have been set, a key as key and a
    vector as vector. *)
Theorem descrambler_stream_spec W `{!WordSize W} obuf tsp e fs d pre post log :
  zlen obuf = 184 → packet_size tsp = 188 → tsp_cb_list tsp = [e] → desc_ok d →
  Forall ts_fields_ok fs → Forall (fun f => Forall is_byte (tf_rest f)) fs → d_buf d = pre ++ ts_stream fs ++ post →
  ∃ fs', Forall2 (descrambles d) fs fs' ∧
    run_desc W obuf tsp (zlen pre) (188 * zlen fs) (d, log) =
      Ok (188 * zlen fs) (with_buf d (pre ++ ts_stream fs' ++ post),
                          log ++ calls (d_cb_list d) (ts_expect_all 188 (zlen pre) fs')).
Proof.
  intros Ho Hsize Hcb Hd Hfs Hby Hb. assert (∃ fs', Forall2 (descrambles d) fs fs') as [fs' Hds].
  { clear -Hd Hby. induction Hby as [|f fs Hf _ [fs' IH]]; [by exists []|].
    destruct (descrambles_total d f Hd Hf) as [f' Hf']. exists (f' :: fs'). by constructor. }
  exists fs'. split; [done|]. apply wp_only. apply (run_desc_ok W obuf Ho tsp e fs fs' d pre post); (done || apply Hd).
Qed.

(** ** Scrambling *)

(** A clear packet scrambled: AES in CBC mode on the whole blocks of the
    payload. *)
Definition scramble_packet (key iv : list Z) (scr : Z) (f : ts_fields) : ts_fields :=
  let n := (length (tf_rest f) / 16)%nat in
  with_payload f scr
    (cbc_encrypt (aes_cipher 128 key) n iv (take (16 * n) (tf_rest f)) ++ drop (16 * n) (tf_rest f)).

(** [g] is how the clear packet [f] may come in. *)
Inductive scrambled (d : descrambler) (f : ts_fields) : ts_fields → Prop :=
  | Sc_clear : tf_pid f = 8191 ∨ tf_has_payload f = false ∨ first_chan (chans d) (chan_list d) (tf_pid f) = None →
      scrambled d f f
  | Sc_aes c ka va key iv scr :
      tf_pid f ≠ 8191 → tf_has_payload f = true →
      first_chan (chans d) (chan_list d) (tf_pid f) = Some c →
      parity_keys c scr = Some (Some ka, Some va) → has_key d ka key → has_iv d va iv →
      Forall is_byte (tf_rest f) → truth (scb_as_is c) = false → scb c = tf_scramble f →
      scrambled d f (scramble_packet key iv scr f).

Lemma parity_range c scr x : parity_keys c scr = Some x → 0 ≤ scr < 4.
Proof.
  unfold parity_keys. destruct (Z.eqb_spec scr 2); [lia|]. destruct (Z.eqb_spec scr 3); [lia|].
  destruct (Z.eqb_spec scr 0); [lia|done].
Qed.

Lemma scrambled_descrambles d f g : ts_fields_ok f → scrambled d f g → ts_fields_ok g ∧ descrambles d g f.
Proof.
  intros Hf [Hc|c ka va key iv scr Hn Hp Hfc Hpar Hk Hi Hb Has Hscb]; [by split; [|apply Ds_clear]|].
  unfold scramble_packet. set (n := (length (tf_rest f) / 16)%nat) in *.
  pose proof (Nat.div_mod (length (tf_rest f)) 16 ltac:(lia)) as Hdm. fold n in Hdm.
  pose proof (Nat.mod_upper_bound (length (tf_rest f)) 16 ltac:(lia)) as Hub.
  assert (block_ok (16 * n) (take (16 * n) (tf_rest f))) as Ht by (split; [rewrite length_take; lia|by apply Forall_take]).
  destruct (aes_cbc_inverse 128 key ltac:(by left) (hk_ok _ _ _ Hk) n iv _ (hi_ok _ _ _ Hi) Ht) as [Hcok Hinv].
  set (e := cbc_encrypt _ _ _ _) in *.
  assert (length (e ++ drop (16 * n) (tf_rest f)) = length (tf_rest f)) as Hl
    by (rewrite length_app, length_drop; destruct Hcok; lia).
  pose proof (parity_range _ _ _ Hpar) as Hscr. pose proof (tfo_scramble _ Hf) as Hfs.
  split; [by apply ts_fields_with|].
  set (h := with_payload _ _ _).
  assert (f = with_payload h (if truth (scb_as_is c) then tf_scramble h else scb c)
                (cbc_decrypt (aes_inv_cipher 128 key) n iv e ++ drop (16 * n) (tf_rest f))) as Hg.
  { rewrite Hinv, take_drop, Has, Hscb. unfold h, with_payload. cbn. by destruct f. }
  rewrite Hg. apply (Ds_aes d h c ka va key iv n e); try done; [rewrite length_drop; lia|intros _; lia].
Qed.

(** C13: Descrambling round trip: when the packets of a clear stream come in
    scrambled with AES in CBC mode under the keys of their channels (or clear,
    where no channel takes them), the parser and the descrambler give the
    callbacks exactly the packets of the clear stream and leave it in the
    buffer, payload tails and packets without payload included. *)
Theorem descrambler_roundtrip W `{!WordSize W} obuf tsp e fs gs d pre post log :
  zlen obuf = 184 → packet_size tsp = 188 → tsp_cb_list tsp = [e] → chans_ok d →
  Forall ts_fields_ok fs → Forall2 (scrambled d) fs gs → d_buf d = pre ++ ts_stream gs ++ post →
  run_desc W obuf tsp (zlen pre) (188 * zlen gs) (d, log) =
    Ok (188 * zlen gs) (with_buf d (pre ++ ts_stream fs ++ post),
                        log ++ calls (d_cb_list d) (ts_expect_all 188 (zlen pre) fs)).
Proof.
  intros Ho Hsize Hcb Hch Hfs Hds Hb.
  assert (Forall ts_fields_ok gs ∧ Forall2 (descrambles d) gs fs) as [Hgs Hds'].
  { clear Hb. revert Hfs. induction Hds as [|f g fs gs Hfg _ IH]; intros Hfs; [by split|].
    apply Forall_cons_1 in Hfs as [Hf Hfs]. destruct (scrambled_descrambles _ _ _ Hf Hfg), (IH Hfs). by split; constructor. }
  apply wp_only. by apply (run_desc_ok W obuf Ho tsp e gs fs d pre post).
Qed.

(** ** Key entries *)

(** The data of an entry in use is an object its [free] releases. *)
Definition entry_ok (d : descrambler) (e : swdmx_key) : Prop :=
  truth (k_used e) = true → k_free e ≠ Fn_null ∧ is_Some (objs d !! k_data e).

(** The objects without those of an entry. *)
Definition released (e : swdmx_key) (m : gmap Z key_obj) : gmap Z key_obj :=
  if truth (k_used e) then delete (k_data e) m else m.

Lemma wp_key_ent {U} d a e (Q : swdmx_key → descrambler → Prop) E : keys d !! a = Some e → Q e d → wp U (key_ent a) Q E d.
Proof.
  intros He HQ. unfold key_ent. apply wp_bind, wp_gets, wp_of_option; [|congruence].
  intros x Hx. by assert (x = e) as -> by congruence.
Qed.

Lemma wp_obj_at {U} d a o (Q : key_obj → descrambler → Prop) E : objs d !! a = Some o → Q o d → wp U (obj_at a) Q E d.
Proof.
  intros Ho HQ. unfold obj_at. apply wp_bind, wp_gets, wp_of_option; [|congruence].
  intros x Hx. by assert (x = o) as -> by congruence.
Qed.

Definition with_keys (d : descrambler) (ks : gmap Z swdmx_key) (os : gmap Z key_obj) : descrambler :=
  mk_desc (chan_list d) (d_cb_list d) (chans d) ks os (d_buf d).

Lemma wp_upd_key {U} d a e g (Q : unit → descrambler → Prop) E : keys d !! a = Some e →
  Q tt (with_keys d (<[a := g e]> (keys d)) (objs d)) → wp U (upd_key a g) Q E d.
Proof. intros He HQ. unfold upd_key. apply wp_bind. eapply wp_key_ent; [exact He|]. apply wp_modify. exact HQ. Qed.

Lemma wp_key_clear {U} d a e (Q : Z → descrambler → Prop) E : keys d !! a = Some e → entry_ok d e →
  Q SWDMX_OK (with_keys d (if truth (k_used e)
                           then <[a := e <| k_used := 0 |> <| k_algo := SWDMX_DESC_ALGO_NONE |>]> (keys d) else keys d)
                (released e (objs d))) →
  wp U (swdmx_key_clear a) Q E d.
Proof.
  intros He Hok HQ. unfold swdmx_key_clear, released in *. apply wp_bind. eapply wp_key_ent; [exact He|].
  apply wp_bind, wp_when; intros Hu; rewrite Hu in HQ; [|apply wp_ret; by destruct d].
  destruct (Hok Hu) as [Hfree [o Ho]].
  assert (∀ (R : unit → descrambler → Prop), R tt (with_keys d (keys d) (delete (k_data e) (objs d))) →
    wp U (match k_free e with Fn_aes_iv => aes_iv_free a | Fn_aes_dec_key => aes_key_free a | Fn_null => mret tt end) R E d)
    as Hf.
  { intros R HR. destruct (k_free e); [done|..]; unfold aes_iv_free, aes_key_free, free_obj; apply wp_bind;
      (eapply wp_key_ent; [exact He|]); apply wp_bind; (eapply wp_obj_at; [exact Ho|]); apply wp_modify; exact HR. }
  apply wp_bind, Hf, wp_bind. eapply wp_upd_key; [exact He|]. eapply wp_upd_key; [apply lookup_insert_eq|].
  apply wp_ret. cbn [keys objs with_keys]. rewrite insert_insert_eq. exact HQ.
Qed.

(** A key entry configured and set holds the key, or the vector when it is an
    entry for vectors, whatever it held before; the object of its earlier use
    is released, no other entry or object changes. *)
Theorem swdmx_key_setup_spec d a e addr junk junk_iv v :
  keys d !! a = Some e → entry_ok d e → key_ok junk → length junk_iv = 16%nat → block_ok 16 v →
  ∃ e' o, (swdmx_aes_dec_key_init addr junk junk_iv a;; swdmx_key_set a v) d =
      Ok SWDMX_OK (with_keys d (<[a := e']> (keys d)) (<[addr := o]> (released e (objs d)))) ∧
    entry_ok (with_keys d (<[a := e']> (keys d)) (<[addr := o]> (released e (objs d)))) e' ∧
    (if truth (k_is_iv e) then has_iv else has_key)
      (with_keys d (<[a := e']> (keys d)) (<[addr := o]> (released e (objs d)))) a v.
Proof.
  intros He Hok Hj Hji Hv.
  destruct (decrypt_key_ready 128 v junk ltac:(by left) Hv Hj) as (k & Hset & _).
  set (fn := if truth (k_is_iv e) then Fn_aes_iv else Fn_aes_dec_key).
  set (e' := mk_key 1 (k_is_iv e) SWDMX_DESC_ALGO_AES_DEC addr fn fn).
  set (o := if truth (k_is_iv e) then Swdmx_aes_iv v else Swdmx_aes_key k). exists e', o.
  split.
  - apply wp_only. apply wp_bind. unfold swdmx_aes_dec_key_init. apply wp_bind. eapply wp_key_clear; [exact He|exact Hok|].
    match goal with |- wp _ _ _ _ ?s => set (d1 := s) end.
    assert (∃ e1, keys d1 !! a = Some e1 ∧ k_is_iv e1 = k_is_iv e ∧ ∀ x, <[a := x]> (keys d1) = <[a := x]> (keys d)) as (e1 & He1 & Hiv & Hins).
    { unfold d1. cbn [keys with_keys]. destruct (truth (k_used e)).
      - eexists. split; [apply lookup_insert_eq|]. split; [done|]. intros x. apply insert_insert_eq.
      - by exists e. }
    assert (objs d1 = released e (objs d)) as Hobj by done.
    assert (with_keys d1 = with_keys d) as Hwk by done. clearbody d1. rewrite <- Hobj, <- Hwk. clear Hobj.
    apply wp_bind. eapply wp_upd_key; [exact He1|]. apply wp_bind. eapply wp_upd_key; [apply lookup_insert_eq|].
    apply wp_bind. eapply wp_key_ent; [apply lookup_insert_eq|]. cbn [keys objs with_keys]. rewrite insert_insert_eq, Hins.
    replace (truth (k_is_iv (e1 <| k_used := 1 |> <| k_algo := SWDMX_DESC_ALGO_AES_DEC |>))) with (truth (k_is_iv e)) by (by rewrite <- Hiv).
    apply wp_bind.
    unfold o, e', fn. destruct (truth (k_is_iv e)) eqn:Hi.
    + apply wp_bind, wp_modify. eapply wp_upd_key; [apply lookup_insert_eq|]. apply wp_ret.
      unfold swdmx_key_set. apply wp_bind. eapply wp_key_ent; [apply lookup_insert_eq|].
      cbn [k_used truth Z.eqb negb]. apply wp_bind. cbn. unfold aes_iv_set. apply wp_bind.
      eapply wp_key_ent; [apply lookup_insert_eq|].
      assert (load v 0 16 = Some v) as Hlv by (apply load_all; destruct Hv; unfold zlen; lia).
      apply wp_bind, wp_of_option; [|by rewrite Hlv]. intros xs Hxs. assert (xs = v) as -> by congruence.
      apply wp_bind. eapply wp_obj_at; [apply lookup_insert_eq|]. cbn beta iota.
      assert (store junk_iv 0 v = Some v) as Hsv by (apply store_all; destruct Hv; unfold zlen; lia).
      apply wp_bind, wp_of_option; [|by rewrite Hsv]. intros ys Hys. assert (ys = v) as -> by congruence.
      apply wp_bind. eapply wp_obj_at; [apply lookup_insert_eq|]. apply wp_modify, wp_ret. split; [done|].
      unfold with_keys. cbn. by rewrite !insert_insert_eq, Hins, <- Hiv.
    + apply wp_bind, wp_modify. eapply wp_upd_key; [apply lookup_insert_eq|]. apply wp_ret.
      unfold swdmx_key_set. apply wp_bind. eapply wp_key_ent; [apply lookup_insert_eq|].
      cbn [k_used truth Z.eqb negb]. apply wp_bind. cbn -[AES_set_decrypt_key]. unfold aes_dec_key_set. apply wp_bind.
      eapply wp_key_ent; [apply lookup_insert_eq|]. apply wp_bind. eapply wp_obj_at; [apply lookup_insert_eq|]. cbn beta iota.
      rewrite Hset. apply wp_bind. eapply wp_obj_at; [apply lookup_insert_eq|]. apply wp_modify, wp_ret. split; [done|].
      unfold with_keys. cbn. by rewrite !insert_insert_eq, Hins, <- Hiv.
  - split.
    + intros _. unfold e'. cbn [k_free k_data with_keys objs]. split; [unfold fn; by destruct (truth _)|].
      rewrite lookup_insert_eq. by eexists.
    + unfold o, e', fn. destruct (truth (k_is_iv e)) eqn:Hi; (split; [done|]).
      * eexists. split; [apply lookup_insert_eq|]. cbn [k_used k_is_iv k_data objs with_keys]. by rewrite lookup_insert_eq.
      * eexists _, k, junk. split; [apply lookup_insert_eq|]. cbn [k_used k_algo k_data objs with_keys]. by rewrite lookup_insert_eq.
Qed.

(** *** A channel set up through the interface *)

Definition new_entry (is_iv : Z) : swdmx_key := mk_key 0 is_iv SWDMX_DESC_ALGO_NONE 0 Fn_null Fn_null.

(** Channel 10 for PID 256 with key entry 1 and vector entry 2. *)
Definition sample_channel : X Z :=
  swdmx_descrambler_alloc_channel 10;;
  swdmx_desc_channel_set_pid 10 256;;
  swdmx_desc_channel_set_cb 10 (Some Swdmx_aes_cbc_dec_desc_cb);;
  swdmx_desc_channel_set_scb 10 0 0;;
  swdmx_desc_channel_set_key 10 SWDMX_DESC_EVEN_KEY 1;;
  swdmx_desc_channel_set_key 10 SWDMX_DESC_EVEN_IV 2;;
  swdmx_desc_channel_enable 10;;
  swdmx_descrambler_add_ts_packet_cb (mk_cb 5 6).

Definition sample_keys : X Z :=
  swdmx_aes_dec_key_init 100 blank_key (replicate 16 0) 1;; swdmx_key_set 1 fips_key;;
  swdmx_aes_dec_key_init 101 blank_key (replicate 16 0) 2;; swdmx_key_set 2 fips_plain.

Definition sample_new (buf : list Z) : descrambler :=
  swdmx_descrambler_new {[1 := new_entry 0; 2 := new_entry 1]} ∅ buf.

Definition state_of {A} (m : X A) (d : descrambler) : descrambler := match m d with Ok _ d' => d' | _ => d end.

Definition sample_desc (buf : list Z) : descrambler := state_of (sample_keys;; sample_channel) (sample_new buf).

(** The first of the sample packets scrambled, the others as they are. *)
Definition sample_scrambled : list ts_fields :=
  match sample_packets with
  | f :: fs => scramble_packet fips_key fips_plain 2 f :: fs
  | [] => []
  end.

Lemma sample_has_key buf : has_key (sample_desc buf) 1 fips_key.
Proof.
  split; [split; [done|]; by repeat (constructor; [by vm_compute|])|].
  eexists _, _, blank_key. split; [vm_compute; reflexivity|]. split; [done|]. split; [done|].
  split; [vm_compute; reflexivity|]. split; [split; [done|by repeat constructor]|]. by vm_compute.
Qed.

Lemma sample_has_iv buf : has_iv (sample_desc buf) 2 fips_plain.
Proof.
  split; [split; [done|]; by repeat (constructor; [by vm_compute|])|].
  eexists. split; [vm_compute; reflexivity|]. done.
Qed.

Lemma sample_fields : Forall ts_fields_ok sample_packets.
Proof. repeat constructor; cbn; try lia; try done; intros ? [= <-]; vm_compute; done. Qed.

Lemma sample_scrambled_ok buf : Forall2 (scrambled (sample_desc buf)) sample_packets sample_scrambled.
Proof.
  constructor; [|constructor; [|constructor; [|constructor]]].
  - eapply (Sc_aes _ _ _ 1 2); [done|done|vm_compute; reflexivity|done|apply sample_has_key|apply sample_has_iv|..].
    + by repeat (constructor; [by vm_compute|]).
    + done.
    + done.
  - by apply Sc_clear; left.
  - apply Sc_clear. right. by left.
Qed.

Lemma sample_chans buf : chans_ok (sample_desc buf).
Proof.
  unfold chans_ok. assert (chan_list (sample_desc buf) = [10]) as -> by (by vm_compute).
  constructor; [|constructor]. eexists. vm_compute. reflexivity.
Qed.

Lemma descrambler_roundtrip_witness :
  let d := sample_desc (ts_stream sample_scrambled) in
  Forall2 (scrambled d) sample_packets sample_scrambled ∧
  run_desc 8 (replicate 184 0) (mk_tsp 188 [mk_cb 1 2]) 0 (188 * 3) (d, []) =
    Ok (188 * 3) (with_buf d ([] ++ ts_stream sample_packets ++ []), [] ++ calls (d_cb_list d) (ts_expect_all 188 0 sample_packets)).
Proof.
  split; [apply sample_scrambled_ok|].
  apply (descrambler_roundtrip 8 (replicate 184 0) (mk_tsp 188 [mk_cb 1 2]) (mk_cb 1 2) sample_packets sample_scrambled
           (sample_desc (ts_stream sample_scrambled)) [] [] []); [done|done|done|apply sample_chans|apply sample_fields|
           apply sample_scrambled_ok|].
  cbn [app]. rewrite app_nil_r. by vm_compute.
Defined.

Lemma sample_desc_ok buf : desc_ok (sample_desc buf).
Proof.
  assert (chan_list (sample_desc buf) = [10]) as El by (by vm_compute).
  split; [apply sample_chans|..]; rewrite El; intros a c; [intros ->%list_elem_of_singleton Hc|intros scr ka va ->%list_elem_of_singleton Hc];
    vm_compute in Hc; injection Hc as <-.
  - intros _. vm_compute. intuition congruence.
  - unfold parity_keys. destruct (scr =? 2); [|by destruct (scr =? 3), (scr =? 0)]. intros [= <- <-]. right.
    exists fips_key, fips_plain. split; [apply sample_has_key|apply sample_has_iv].
Qed.

(** The scrambled packets, and a clear one of the same PID, for which the
    channel has no key. *)
Definition sample_mixed : list ts_fields := sample_scrambled ++ take 1 sample_packets.

Lemma descrambler_stream_spec_witness :
  let d := sample_desc (ts_stream sample_packets ++ ts_stream sample_mixed) in
  (∃ fs', Forall2 (descrambles d) sample_mixed fs' ∧
    run_desc 4 (replicate 184 9) (mk_tsp 188 [mk_cb 1 2]) 564 (188 * 4) (d, []) =
      Ok (188 * 4) (with_buf d (ts_stream sample_packets ++ ts_stream fs' ++ []),
                    [] ++ calls (d_cb_list d) (ts_expect_all 188 564 fs'))) ∧
  run_desc 4 (replicate 184 9) (mk_tsp 188 [mk_cb 1 2]) 564 (188 * 4) (d, []) =
    Ok (188 * 4) (with_buf d (ts_stream sample_packets ++ ts_stream (sample_packets ++ take 1 sample_packets)),
                  calls (d_cb_list d) (ts_expect_all 188 564 (sample_packets ++ take 1 sample_packets))).
Proof.
  split; [|by vm_compute].
  apply (descrambler_stream_spec 4 (replicate 184 9) (mk_tsp 188 [mk_cb 1 2]) (mk_cb 1 2) sample_mixed
           (sample_desc (ts_stream sample_packets ++ ts_stream sample_mixed)) (ts_stream sample_packets) [] []);
    [done|done|done|apply sample_desc_ok| | |by vm_compute].
  - apply Forall_app. split; [|apply Forall_take, sample_fields].
    assert (Forall ts_fields_ok (drop 1 sample_scrambled)) as Hd by (apply (Forall_drop _ 1 sample_packets), sample_fields).
    constructor; [|exact Hd]. apply (scrambled_descrambles (sample_desc []) (nth 0 sample_packets (mk_tsf false false false 0 0 0 None false []))).
    + pose proof sample_fields as Hs. inversion Hs. assumption.
    + pose proof (sample_scrambled_ok []) as Hs. inversion Hs. assumption.
  - assert (forallb (fun f => forallb (fun x => (0 <=? x) && (x <? 256)) (tf_rest f)) sample_mixed = true) as Hb by (by vm_compute).
    rewrite Forall_forall. intros f Hf. rewrite Forall_forall. intros x Hx. rewrite forallb_forall in Hb.
    rewrite ?list_elem_of_In in Hf. rewrite ?list_elem_of_In in Hx. specialize (Hb f Hf). rewrite forallb_forall in Hb. specialize (Hb x Hx). unfold is_byte. lia.
Defined.

Lemma swdmx_key_setup_spec_witness :
  ∃ e' o, (swdmx_aes_dec_key_init 100 blank_key (replicate 16 0) 1;; swdmx_key_set 1 fips_key) (sample_new []) =
      Ok SWDMX_OK (with_keys (sample_new []) (<[1 := e']> (keys (sample_new []))) (<[100 := o]> (released (new_entry 0) ∅))) ∧
    entry_ok (with_keys (sample_new []) (<[1 := e']> (keys (sample_new []))) (<[100 := o]> (released (new_entry 0) ∅))) e' ∧
    has_key (with_keys (sample_new []) (<[1 := e']> (keys (sample_new []))) (<[100 := o]> (released (new_entry 0) ∅))) 1 fips_key.
Proof.
  apply (swdmx_key_setup_spec (sample_new []) 1 (new_entry 0) 100 blank_key (replicate 16 0) fips_key); [done|done| |done|].
  - split; [done|by repeat constructor].
  - split; [done|]. by repeat (constructor; [by vm_compute|]).
Defined.

(** ** What the interface does not guard *)

(** The first sample packet as the parser hands it to the descrambler. *)
Definition sample_run (setup : X Z) : res desc_log Z :=
  run_desc 8 (replicate 184 0) (mk_tsp 188 [mk_cb 1 2]) 0 188
    (state_of (setup;; sample_channel) (sample_new (ts_stream sample_scrambled)), []).

(** A key entry that was configured but never set: the schedule is what
    [swdmx_malloc] left, and [AES_decrypt] can read outside of it. *)
Lemma unset_key_undefined :
  sample_run (swdmx_aes_dec_key_init 100 (mk_aes_key (replicate 60 0) 1000) (replicate 16 0) 1;;
              swdmx_aes_dec_key_init 101 blank_key (replicate 16 0) 2;; swdmx_key_set 2 fips_plain) = Undef ∧
  sample_run sample_keys ≠ Undef.
Proof. split; by vm_compute. Qed.

(** An entry for vectors in the place of the key: [is_iv] of the key is not
    tested, and the 16 bytes are read as a key schedule. *)
Lemma iv_as_key_undefined :
  sample_run (sample_keys;; upd_key 1 (fun k => k <| k_is_iv := 1 |>);;
              swdmx_aes_dec_key_init 102 blank_key (replicate 16 0) 1) = Undef.
Proof. by vm_compute. Qed.
