(* ===== verification/T5dStream.v ===== *)
(** Feeding a stream (t5d_process_stream in
    src/drivers/stream_input/t5d_demux/t5d_demux.c): the data comes in pieces
    of any size; what is too short for a packet waits in a cache.

    The consumer of the packets is a parameter: a state [T] and [deliver],
    which works on the buffer of the parser and on [T].  [Consumer] is what
    the theorems need of it; the descrambler and a log are its instances
    (T5dPipe). *)

From stdpp Require Import base list numbers.
From Stdlib Require Import ZArith Lia Bool.
From S2P Require Import Prelude.
From S2P Require Import SwdmxList.
From S2P Require Import SwdmxTs.

#[local] Open Scope Z_scope.

Definition T5D_HW_STREAM_NUM : Z := 3.
Definition T5D_DMA_STREAM_NUM : Z := 8.
Definition T5D_STREAM_TS_BUFFER_SIZE : Z := 4096.
Definition T5D_DMA_0 : Z := 0.
Definition T5D_FRONTEND_TS0 : Z := 32.

(** [cache_buffer] has 188 bytes; [ts_buffer] is NULL until the first use;
    [sw] stands for the descrambler and the demux behind the parser. *)
Record t5d_stream (T : Type) := mk_stream {
  cache_buffer : list Z;
  cache_len : Z;
  ts_buffer : option (list Z);
  sw_ts_parser : swdmx_ts_parser;
  sw : T
}.
Arguments mk_stream {T}.
Arguments cache_buffer {T}.
Arguments cache_len {T}.
Arguments ts_buffer {T}.
Arguments sw_ts_parser {T}.
Arguments sw {T}.

#[export] Instance eta_t5d_stream T : Settable (t5d_stream T) := fun r =>
  mk_stream (cache_buffer r) (cache_len r) (ts_buffer r) (sw_ts_parser r) (sw r).

Record t5d_streams (T : Type) := mk_streams { hw_streams : list (t5d_stream T); dma_streams : list (t5d_stream T) }.
Arguments mk_streams {T}.
Arguments hw_streams {T}.
Arguments dma_streams {T}.

(** The stream of a source: which array, and the index. *)
Definition stream_get (source : Z) : option (bool * Z) :=
  if source >=? T5D_FRONTEND_TS0 then
    let id := source - T5D_FRONTEND_TS0 in
    if id >=? T5D_HW_STREAM_NUM then None else Some (true, id)
  else
    let id := source - T5D_DMA_0 in
    if id >=? T5D_DMA_STREAM_NUM then None else Some (false, id).

Section Process.
Context {T : Type} (deliver : swdmx_cb_entry → swdmx_tspacket → M (list Z * T) unit).

Definition P A := M (t5d_stream T) A.

#[export] Instance P_ret : MRet P := M_ret (t5d_stream T).
#[export] Instance P_bind : MBind P := M_bind (t5d_stream T).

(** The buffer of the stream. *)
Definition the_buf : P (list Z) := b ← gets ts_buffer; of_option b.

Definition set_buf (b : list Z) : P unit := modify (fun s => s <| ts_buffer := Some b |>).

(** [swdmx_ts_parser_run(s->sw_ts_parser, buf, buffered)] *)
Definition run_ts_parser (buffered : Z) : P Z :=
  s ← get;
  b ← the_buf;
  match swdmx_ts_parser_run fst deliver (sw_ts_parser s) 0 buffered (b, sw s) with
  | Ok n (b, t) => set_buf b;; modify (fun s => s <| sw := t |>);; mret n
  | _ => undef
  end.

(** [while (1)]: what is left of the source, and [buffered]. *)
Fixpoint process_loop (fuel : nat) (src : list Z) (buffered : Z) : P unit :=
  match fuel with
  | O => undef
  | S f =>
      let cpy := Z.min (zlen src) (T5D_STREAM_TS_BUFFER_SIZE - buffered) in
      xs ← of_option (load src 0 cpy);
      b ← the_buf; b ← of_option (store b buffered xs); set_buf b;;
      let buffered := buffered + cpy in
      let src := drop (Z.to_nat cpy) src in
      solved ← run_ts_parser buffered;
      b ← the_buf;
      let buf_left := buffered - solved in
      if truth (zlen src) then
        (if truth buf_left then
           xs ← of_option (load b solved buf_left); b ← of_option (store b 0 xs); set_buf b
         else mret tt);;
        process_loop f src buf_left
      else
        (if truth buf_left then
           xs ← of_option (load b solved buf_left);
           c ← gets cache_buffer; c ← of_option (store c 0 xs); modify (fun s => s <| cache_buffer := c |>)
         else mret tt);;
        modify (fun s => s <| cache_len := buf_left |>)
  end.

(** The body of [t5d_process_stream] for the stream of the source; [junk] is
    what the new buffer holds.  Every turn of the loop takes a byte or is the
    last one. *)
Definition process_stream (junk data : list Z) : P Z :=
  s ← get;
  (if ts_buffer s then mret tt else set_buf junk);;
  (if zlen data + cache_len s <? 188 then
     c ← of_option (store (cache_buffer s) (cache_len s) data);
     modify (fun s => s <| cache_buffer := c |>);;
     modify (fun s => s <| cache_len := cache_len s + zlen data |>)
   else
     (if truth (cache_len s) then
        xs ← of_option (load (cache_buffer s) 0 (cache_len s));
        b ← the_buf; b ← of_option (store b 0 xs); set_buf b
      else mret tt);;
     process_loop (S (length data)) data (cache_len s));;
  mret 0.

(** [int t5d_process_stream(source, data, len)]; the result of [stream_get]
    is used without a test. *)
Definition t5d_process_stream (source : Z) (junk data : list Z) : M (t5d_streams T) Z :=
  fun ss =>
    match stream_get source with
    | Some (hw, id) =>
        let l := if hw then hw_streams ss else dma_streams ss in
        match aget l id with
        | Some s =>
            match process_stream junk data s with
            | Ok r s' =>
                match aset l id s' with
                | Some l' => Ok r (if hw then mk_streams l' (dma_streams ss) else mk_streams (hw_streams ss) l')
                | None => Undef
                end
            | Err e s' => Err e ss
            | Undef => Undef
            end
        | None => Undef
        end
    | None => Undef
    end.
End Process.

(** ** The packets of a byte stream *)

(** The reference: the pieces of 188 bytes that start with a sync byte, and
    the bytes left over. *)
Fixpoint split_packets (fuel : nat) (l : list Z) : list (list Z) * list Z :=
  match fuel with
  | O => ([], l)
  | S f =>
      if (length l <? 188)%nat then ([], l)
      else match l with
           | b :: l' =>
               if b =? 71 then let r := split_packets f (drop 188 l) in (take 188 l :: r.1, r.2)
               else split_packets f l'
           | [] => ([], [])
           end
  end.

Definition packets_of (l : list Z) : list (list Z) := (split_packets (S (length l)) l).1.
Definition left_over (l : list Z) : list Z := (split_packets (S (length l)) l).2.

Lemma split_fuel f l : (length l < f)%nat → split_packets f l = (packets_of l, left_over l).
Proof.
  unfold packets_of, left_over. intros Hf. rewrite <- surjective_pairing.
  remember (length l) as n eqn:Hn. revert f l Hf Hn.
  induction n as [n IH] using lt_wf_ind. intros [|f] l Hf Hn; [lia|]. subst n. cbn [split_packets].
  destruct (Nat.ltb_spec (length l) 188) as [|Hl]; [done|]. destruct l as [|b l]; [done|].
  assert (split_packets f l = split_packets (S (length l)) l) as Hsk by (eapply (IH (length l)); cbn in *; lia).
  assert (split_packets f (drop 188 (b :: l)) = split_packets (length (b :: l)) (drop 188 (b :: l))) as Hdr.
  { transitivity (split_packets (S (length (drop 188 (b :: l)))) (drop 188 (b :: l)));
      [|symmetry]; (eapply (IH (length (drop 188 (b :: l)))); [rewrite length_drop; cbn in *; lia| |done]);
      rewrite length_drop; cbn in *; lia. }
  rewrite Hdr, Hsk. done.
Qed.

Lemma split_short l : (length l < 188)%nat → packets_of l = [] ∧ left_over l = l.
Proof. intros Hl. unfold packets_of, left_over. cbn [split_packets]. by rewrite (proj2 (Nat.ltb_lt _ _) Hl). Qed.

Lemma split_packet pk l : length pk = 188%nat → head pk = Some 71 →
  packets_of (pk ++ l) = pk :: packets_of l ∧ left_over (pk ++ l) = left_over l.
Proof.
  intros Hl Hh. unfold packets_of at 1, left_over at 1. cbn [split_packets].
  rewrite (proj2 (Nat.ltb_ge _ _)) by (rewrite length_app; lia).
  destruct pk as [|b pk]; [done|]. cbn in Hh. injection Hh as ->.
  cbn [app Z.eqb Pos.eqb]. change (71 :: (pk ++ l)) with ((71 :: pk) ++ l). rewrite <- Hl. rewrite take_app_length, drop_app_length.
  rewrite split_fuel by (rewrite length_app; cbn; lia). done.
Qed.

Lemma split_skip b l : b ≠ 71 → (187 ≤ length l)%nat →
  packets_of (b :: l) = packets_of l ∧ left_over (b :: l) = left_over l.
Proof.
  intros Hb Hl. unfold packets_of at 1, left_over at 1. cbn [split_packets].
  rewrite (proj2 (Nat.ltb_ge _ _)) by (cbn; lia).
  rewrite (proj2 (Z.eqb_neq _ _) Hb), split_fuel by (cbn; lia). done.
Qed.

(** The cases of a byte stream: too short, a packet, a byte to skip. *)
Lemma split_ind (Q : list Z → Prop) :
  (∀ l, (length l < 188)%nat → Q l) →
  (∀ pk l, length pk = 188%nat → head pk = Some 71 → Q l → Q (pk ++ l)) →
  (∀ b l, b ≠ 71 → (187 ≤ length l)%nat → Q l → Q (b :: l)) →
  ∀ l, Q l.
Proof.
  intros H1 H2 H3 l. remember (length l) as n eqn:Hn. revert l Hn.
  induction n as [n IH] using lt_wf_ind. intros l ->.
  destruct (decide (length l < 188)%nat) as [|Hl]; [by apply H1|]. destruct l as [|b l]; [cbn in *; lia|].
  destruct (decide (b = 71)) as [->|Hb].
  - rewrite <- (take_drop 188 (71 :: l)). apply H2; [rewrite length_take; lia|done|].
    eapply IH; [|done]. rewrite length_drop. lia.
  - apply H3; [done|cbn in *; lia|]. eapply IH; [|done]. cbn. lia.
Qed.

Lemma left_over_short l : (length (left_over l) < 188)%nat.
Proof.
  induction l as [l Hl|pk l Hl Hh IH|b l Hb Hl IH] using split_ind.
  - by rewrite (proj2 (split_short l Hl)).
  - by rewrite (proj2 (split_packet pk l Hl Hh)).
  - by rewrite (proj2 (split_skip b l Hb Hl)).
Qed.

Lemma left_over_suffix l : ∃ pre, l = pre ++ left_over l.
Proof.
  induction l as [l Hl|pk l Hl Hh [pre IH]|b l Hb Hl [pre IH]] using split_ind.
  - exists []. by rewrite (proj2 (split_short l Hl)).
  - exists (pk ++ pre). rewrite (proj2 (split_packet pk l Hl Hh)), <- app_assoc. by f_equal.
  - exists (b :: pre). rewrite (proj2 (split_skip b l Hb Hl)). cbn. by f_equal.
Qed.

(** Parsing in two parts. *)
Lemma split_app l1 l2 :
  packets_of (l1 ++ l2) = packets_of l1 ++ packets_of (left_over l1 ++ l2) ∧
  left_over (l1 ++ l2) = left_over (left_over l1 ++ l2).
Proof.
  induction l1 as [l Hl|pk l Hl Hh IH|b l Hb Hl IH] using split_ind.
  - destruct (split_short l Hl) as [-> ->]. done.
  - rewrite <- app_assoc. destruct (split_packet pk (l ++ l2) Hl Hh) as [-> ->].
    destruct (split_packet pk l Hl Hh) as [-> ->]. destruct IH as [-> ->]. done.
  - cbn [app]. destruct (split_skip b (l ++ l2) Hb) as [-> ->]; [rewrite length_app; lia|].
    destruct (split_skip b l Hb Hl) as [-> ->]. done.
Qed.

(** ** The interface of a consumer *)

(** What happens to the packet [pk] when the parser finds it: [consume];
    other bytes of the buffer stay.  [good] says which packets the consumer
    can take. *)
Class Consumer {T} (deliver : swdmx_cb_entry → swdmx_tspacket → M (list Z * T) unit) (tsp : swdmx_ts_parser)
    (good : list Z → T → Prop) (consume : T → list Z → T) : Prop := {
  consume_ok : ∀ pre pk post t, length pk = 188%nat → head pk = Some 71 → good pk t →
    ∃ pk', length pk' = 188%nat ∧
      ts_packet fst deliver tsp (zlen pre) (pre ++ pk ++ post, t) = Ok tt (pre ++ pk' ++ post, consume t pk);
  good_stable : ∀ pk pk' t, good pk t → good pk (consume t pk')
}.

Section Feed.
Context {T : Type} (deliver : swdmx_cb_entry → swdmx_tspacket → M (list Z * T) unit).
Context (tsp : swdmx_ts_parser) (good : list Z → T → Prop) (consume : T → list Z → T).
Context `{!Consumer deliver tsp good consume} (Hsize : packet_size tsp = 188).

Lemma good_all l pk t : Forall (fun p => good p t) l → Forall (fun p => good p (consume t pk)) l.
Proof. intros Hl. eapply list.Forall_impl; [exact Hl|]. intros p. apply good_stable. Qed.

Lemma run_packets fuel pre l post t : (length l < fuel)%nat → Forall (fun p => good p t) (packets_of l) →
  ∃ l', (length l' + length (left_over l) = length l)%nat ∧
    run_loop fst deliver fuel tsp (zlen pre) (zlen l) (pre ++ l ++ post, t) =
      Ok (zlen (left_over l)) (pre ++ l' ++ left_over l ++ post, foldl consume t (packets_of l)).
Proof.
  revert fuel pre t. induction l as [l Hl|pk l Hl Hh IH|b l Hb Hl IH] using split_ind; intros fuel pre t Hf Hg;
    (destruct fuel as [|fuel]; [lia|]); cbn [run_loop]; rewrite Hsize, Z.geb_leb.
  - destruct (split_short l Hl) as [-> ->]. rewrite (proj2 (Z.leb_gt _ _)) by (unfold zlen; lia). by exists [].
  - destruct (split_packet pk l Hl Hh) as [Hpk Hlo]. rewrite Hpk in *. rewrite Hlo. apply Forall_cons_1 in Hg as [Hg1 Hg].
    rewrite length_app in Hf. rewrite (proj2 (Z.leb_le _ _)) by (unfold zlen; rewrite length_app; lia).
    destruct (consume_ok pre pk (l ++ post) t Hl Hh Hg1) as (pk' & Hl' & Hrun).
    destruct (IH fuel (pre ++ pk') (consume t pk) ltac:(lia) (good_all _ _ _ Hg)) as (l' & Hlen & Hloop).
    exists (pk' ++ l'). split; [rewrite !length_app; lia|].
    rewrite (bind_Ok (gets _) _ _ _ _ eq_refl). cbn [fst].
    assert (aget (pre ++ (pk ++ l) ++ post) (zlen pre) = Some 71) as ->.
    { destruct pk as [|b pk]; [done|]. cbn in Hh. injection Hh as ->. unfold zlen. rewrite aget_nat. cbn [app].
      by rewrite list_lookup_middle. }
    rewrite (bind_Ok (of_option (Some 71)) _ _ _ _ eq_refl), Z.eqb_refl, <- app_assoc, (bind_Ok _ _ _ _ _ Hrun).
    replace (zlen pre + 188) with (zlen (pre ++ pk')) by (rewrite zlen_app; unfold zlen; lia).
    replace (zlen (pk ++ l) - 188) with (zlen l) by (rewrite zlen_app; unfold zlen; lia).
    rewrite (app_assoc pre), Hloop. by rewrite <- !app_assoc.
  - destruct (split_skip b l Hb Hl) as [Hpk Hlo]. rewrite Hpk in *. rewrite Hlo. cbn [length] in Hf.
    rewrite (proj2 (Z.leb_le _ _)) by (unfold zlen; cbn [length]; lia).
    destruct (IH fuel (pre ++ [b]) t ltac:(lia) Hg) as (l' & Hlen & Hloop). exists (b :: l'). split; [cbn; lia|].
    rewrite (bind_Ok (gets _) _ _ _ _ eq_refl). cbn [fst].
    assert (aget (pre ++ (b :: l) ++ post) (zlen pre) = Some b) as ->.
    { unfold zlen. rewrite aget_nat. cbn [app]. by rewrite list_lookup_middle. }
    rewrite (bind_Ok (of_option (Some b)) _ _ _ _ eq_refl), (proj2 (Z.eqb_neq _ _) Hb).
    replace (zlen pre + 1) with (zlen (pre ++ [b])) by (by rewrite zlen_app).
    replace (zlen (b :: l) - 1) with (zlen l) by (unfold zlen; cbn [length]; lia).
    replace (pre ++ (b :: l) ++ post) with ((pre ++ [b]) ++ l ++ post) by (by rewrite <- app_assoc).
    rewrite Hloop. by rewrite <- app_assoc.
Qed.

(** The stream holds the bytes [pend] that are no packet yet. *)
Record holds (s : t5d_stream T) (pend : list Z) (t : T) : Prop := {
  h_short : (length pend < 188)%nat;
  h_cache : length (cache_buffer s) = 188%nat;
  h_len : cache_len s = zlen pend;
  h_pend : take (length pend) (cache_buffer s) = pend;
  h_buf : ∀ b, ts_buffer s = Some b → zlen b = T5D_STREAM_TS_BUFFER_SIZE;
  h_tsp : sw_ts_parser s = tsp;
  h_sw : sw s = t
}.

Lemma store_front {A} (l xs : list A) : zlen xs ≤ zlen l →
  store l 0 xs = Some (xs ++ drop (length xs) l).
Proof.
  intros Hl. rewrite <- (take_drop (length xs) l) at 1. apply (store_middle [] (take (length xs) l)); [done|].
  unfold zlen in *. rewrite length_take. lia.
Qed.

Lemma wp_run_ts_parser {U} c cl l post t (Q : Z → t5d_stream T → Prop) E :
  Forall (fun p => good p t) (packets_of l) →
  (∀ l', zlen l' + zlen (left_over l) = zlen l →
    Q (zlen l') (mk_stream c cl (Some (l' ++ left_over l ++ post)) tsp (foldl consume t (packets_of l)))) →
  wp U (run_ts_parser deliver (zlen l)) Q E (mk_stream c cl (Some (l ++ post)) tsp t).
Proof.
  intros Hg HQ. destruct (run_packets (S (Z.to_nat (zlen l))) [] l post t ltac:(unfold zlen; lia) Hg) as (l' & Hl & Hrun).
  unfold run_ts_parser. apply wp_bind, wp_get, wp_bind. unfold the_buf. apply wp_bind, wp_gets, wp_of_option; [|done].
  intros b [= <-]. cbn [sw_ts_parser sw]. unfold swdmx_ts_parser_run. cbn [app] in Hrun. change (zlen []) with 0 in Hrun.
  rewrite (bind_Ok _ _ _ _ _ Hrun). cbn. specialize (HQ l' ltac:(unfold zlen; lia)).
  replace (zlen l - zlen (left_over l)) with (zlen l') by (unfold zlen in *; lia). exact HQ.
Qed.

Lemma process_loop_ok {U} fuel src rest junk c cl t E :
  (length src < fuel)%nat → (length rest < 188)%nat → zlen (rest ++ junk) = T5D_STREAM_TS_BUFFER_SIZE →
  length c = 188%nat → Forall (fun p => good p t) (packets_of (rest ++ src)) →
  wp U (process_loop deliver fuel src (zlen rest))
    (fun _ s' => holds s' (left_over (rest ++ src)) (foldl consume t (packets_of (rest ++ src)))) E
    (mk_stream c cl (Some (rest ++ junk)) tsp t).
Proof.
  revert src rest junk t. induction fuel as [|fuel IH]; intros src rest junk t Hf Hr Hj Hc Hg; [lia|].
  cbn [process_loop]. set (cpy := Z.min (zlen src) (T5D_STREAM_TS_BUFFER_SIZE - zlen rest)).
  unfold T5D_STREAM_TS_BUFFER_SIZE in Hj. rewrite zlen_app in Hj.
  assert (0 ≤ cpy ≤ zlen src ∧ cpy ≤ zlen junk ∧ (src ≠ [] → 0 < cpy)) as (Hcs & Hcj & Hpos).
  { unfold cpy, T5D_STREAM_TS_BUFFER_SIZE. pose proof (zlen_nonneg src). split; [unfold zlen in *; lia|].
    split; [unfold zlen in *; lia|]. intros Hne. destruct src; [done|]. unfold zlen in *. cbn [length]. lia. }
  clearbody cpy. set (k := Z.to_nat cpy).
  assert (load src 0 cpy = Some (take k src)) as Hload by (rewrite load_Some by lia; done).
  assert (zlen (take k src) = cpy) as Hlx by (unfold zlen in *; rewrite length_take; lia).
  apply wp_bind, wp_of_option; [|congruence]. intros xs Hxs. assert (xs = take k src) as -> by congruence.
  unfold the_buf, set_buf. apply wp_bind, wp_bind, wp_gets, wp_of_option; [|done]. intros b [= <-].
  assert (store (rest ++ junk) (zlen rest) (take k src) = Some ((rest ++ take k src) ++ drop k junk)) as Hst.
  { rewrite <- (take_drop k junk) at 1. rewrite <- app_assoc. apply store_middle; [done|].
    rewrite Hlx. unfold zlen in *. rewrite length_take. lia. }
  apply wp_bind, wp_of_option; [|congruence]. intros b Hb. assert (b = (rest ++ take k src) ++ drop k junk) as -> by congruence.
  apply wp_bind, wp_modify, wp_bind. cbn [cache_buffer cache_len sw_ts_parser sw].
  replace (zlen rest + cpy) with (zlen (rest ++ take k src)) by (rewrite zlen_app; lia).
  destruct (split_app (rest ++ take k src) (drop k src)) as [Hp Hl]. rewrite <- app_assoc, take_drop in Hp, Hl.
  rewrite Hp in Hg. apply Forall_app in Hg as [Hg1 Hg2]. set (chunk := rest ++ take k src) in *.
  apply (wp_run_ts_parser c cl chunk (drop k junk) t); [done|]. intros l' Hll. set (lo := left_over chunk) in *.
  apply wp_bind, wp_bind, wp_gets, wp_of_option; [|done]. intros b [= <-].
  replace (zlen chunk - zlen l') with (zlen lo) by lia.
  set (t' := foldl consume t (packets_of chunk)) in *.
  assert (Forall (fun p => good p t') (packets_of (lo ++ drop k src))) as Hg3.
  { unfold t'. clear -Hg2 Consumer0. revert t Hg2. generalize (packets_of chunk) as ps.
    induction ps as [|p ps IH]; intros t Hg; [done|]. cbn. apply IH. by apply (good_all). }
  pose proof (left_over_short chunk) as Hlo. fold lo in Hlo.
  assert (load (l' ++ lo ++ drop k junk) (zlen l') (zlen lo) = Some lo) as Hlo' by (by apply load_middle).
  assert (zlen (l' ++ lo ++ drop k junk) = 4096) as Htot.
  { rewrite !zlen_app. unfold chunk in Hll. rewrite zlen_app in Hll. unfold zlen in *. rewrite length_drop. lia. }
  rewrite Hp, Hl, foldl_app. fold t'. unfold truth at 1. destruct (Z.eqb_spec (zlen (drop k src)) 0) as [He|He]; cbn [negb].
  - assert (drop k src = []) as Hd by (destruct (drop k src); [done|]; unfold zlen in He; cbn [length] in He; lia).
    rewrite Hd, app_nil_r. destruct (split_short lo Hlo) as [-> ->]. cbn [foldl].
    assert (∀ cc, length cc = 188%nat → take (length lo) cc = lo →
      holds (mk_stream cc (zlen lo) (Some (l' ++ lo ++ drop k junk)) tsp t') lo t') as Hh.
    { intros cc Hcc Htk. split; try done. cbn. intros b [= <-]. exact Htot. }
    unfold truth. destruct (Z.eqb_spec (zlen lo) 0) as [Hz|Hz]; cbn [negb].
    + apply wp_bind, wp_ret, wp_modify, Hh; [done|]. by destruct lo; [|unfold zlen in Hz; cbn [length] in Hz; lia].
    + apply wp_bind, wp_bind, wp_of_option; [|congruence]. intros xs Hx'. assert (xs = lo) as -> by congruence.
      apply wp_bind, wp_gets. cbn [cache_buffer].
      assert (store c 0 lo = Some (lo ++ drop (length lo) c)) as Hsc by (apply store_front; unfold zlen; lia).
      apply wp_bind, wp_of_option; [|congruence]. intros cc Hcc. assert (cc = lo ++ drop (length lo) c) as -> by congruence.
      apply wp_modify, wp_modify, (Hh (lo ++ drop (length lo) c)); [rewrite length_app, length_drop; lia|by rewrite take_app_length].
  - assert (src ≠ []) as Hne by (intros ->; unfold zlen in He; by rewrite drop_nil in He).
    assert (length (drop k src) < fuel)%nat as Hf' by (rewrite length_drop; specialize (Hpos Hne); unfold k, zlen in *; lia).
    apply wp_bind. unfold truth. destruct (Z.eqb_spec (zlen lo) 0) as [Hz|Hz]; cbn [negb].
    + apply wp_ret. assert (lo = []) as Hnil by (destruct lo; [done|]; unfold zlen in Hz; cbn [length] in Hz; lia).
      rewrite Hnil in *. apply (IH (drop k src) [] (l' ++ [] ++ drop k junk)); done.
    + apply wp_bind, wp_of_option; [|congruence]. intros xs Hx'. assert (xs = lo) as -> by congruence.
      assert (store (l' ++ lo ++ drop k junk) 0 lo = Some (lo ++ drop (length lo) (l' ++ lo ++ drop k junk))) as Hsf
        by (apply store_front; rewrite Htot; unfold zlen; lia).
      apply wp_bind, wp_of_option; [|congruence]. intros b Hb'.
      assert (b = lo ++ drop (length lo) (l' ++ lo ++ drop k junk)) as -> by congruence.
      apply wp_modify. apply IH; try done.
      rewrite zlen_app. unfold zlen in *. rewrite length_drop. unfold T5D_STREAM_TS_BUFFER_SIZE. lia.
Qed.

Lemma process_stream_ok {U} junk data s pend t E : zlen junk = T5D_STREAM_TS_BUFFER_SIZE → holds s pend t →
  Forall (fun p => good p t) (packets_of (pend ++ data)) →
  wp U (process_stream deliver junk data)
    (fun r s' => r = 0 ∧ holds s' (left_over (pend ++ data)) (foldl consume t (packets_of (pend ++ data)))) E s.
Proof.
  intros Hj [Hs Hc Hl Hp Hb Ht Hsw] Hg. unfold process_stream, set_buf, the_buf. apply wp_bind, wp_get.
  destruct s as [c cl tb tp t0]. cbn [cache_buffer cache_len ts_buffer sw_ts_parser sw] in *. subst tp t0 cl.
  assert (∃ b, zlen b = 4096 ∧ ∀ (Q : unit → t5d_stream T → Prop), Q tt (mk_stream c (zlen pend) (Some b) tsp t) →
    wp U (if tb then mret tt else modify (fun s => s <| ts_buffer := Some junk |>)) Q E (mk_stream c (zlen pend) tb tsp t)) as (b & Hbl & Hw).
  { destruct tb as [b|]; [exists b; split; [by apply Hb|done]|exists junk; by split]. }
  apply wp_bind, Hw, wp_bind. clear Hw Hb tb. cbn [cache_len].
  destruct (Z.ltb_spec (zlen data + zlen pend) 188) as [Hlt|Hge].
  - assert (length (pend ++ data) < 188)%nat as Hsh by (rewrite length_app; unfold zlen in *; lia).
    destruct (split_short _ Hsh) as [-> ->].
    assert (store c (zlen pend) data = Some (pend ++ data ++ drop (length pend + length data) c)) as Hst.
    { assert (c = pend ++ take (length data) (drop (length pend) c) ++ drop (length pend + length data) c) as Hcut.
      { rewrite <- drop_drop, take_drop. rewrite <- Hp at 1. by rewrite take_drop. }
      rewrite Hcut at 1. apply store_middle; [done|].
      unfold zlen in *. rewrite length_take, length_drop. lia. }
    apply wp_bind, wp_of_option; [|congruence]. intros cc Hcc.
    assert (cc = pend ++ data ++ drop (length pend + length data) c) as -> by congruence.
    apply wp_bind, wp_modify, wp_modify, wp_ret. split; [done|]. split; cbn; try done.
    + rewrite !length_app, length_drop. unfold zlen in *. lia.
    + rewrite zlen_app. lia.
    + rewrite app_assoc. by rewrite take_app_length.
    + by intros ? [= <-].
  - apply wp_bind.
    assert (∃ b', zlen (pend ++ b') = 4096 ∧ ∀ (Q : unit → t5d_stream T → Prop), Q tt (mk_stream c (zlen pend) (Some (pend ++ b')) tsp t) →
      wp U (if truth (zlen pend) then
              xs ← of_option (load c 0 (zlen pend)); b ← (b ← gets ts_buffer; of_option b); b ← of_option (store b 0 xs);
              modify (fun s => s <| ts_buffer := Some b |>)
            else mret tt) Q E (mk_stream c (zlen pend) (Some b) tsp t)) as (b' & Hbl' & Hw).
    { unfold truth. destruct (Z.eqb_spec (zlen pend) 0) as [Hz|Hz]; cbn [negb].
      - destruct pend as [|x pend]; [exists b; by split|unfold zlen in Hz; cbn [length] in Hz; lia].
      - exists (drop (length pend) b). split; [rewrite zlen_app; unfold zlen in *; rewrite length_drop; lia|].
        intros Q HQ. assert (load c 0 (zlen pend) = Some pend) as Hlc.
        { rewrite load_Some by (unfold zlen; lia). change (Z.to_nat 0) with 0%nat. rewrite drop_0. unfold zlen. by rewrite Nat2Z.id, Hp. }
        apply wp_bind, wp_of_option; [|congruence]. intros xs Hxs. assert (xs = pend) as -> by congruence.
        apply wp_bind, wp_bind, wp_gets, wp_of_option; [|done]. intros bb [= <-].
        assert (store b 0 pend = Some (pend ++ drop (length pend) b)) as Hsb by (apply store_front; unfold zlen in *; lia).
        apply wp_bind, wp_of_option; [|congruence]. intros bb Hbb.
        assert (bb = pend ++ drop (length pend) b) as -> by congruence. by apply wp_modify. }
    apply Hw. eapply wp_mono; [apply process_loop_ok; [lia|done..]| |by intros].
    intros [] s' Hh. by apply wp_ret.
Qed.

(** ** Calls for one source *)

Definition stream_at (ss : t5d_streams T) (source : Z) : option (t5d_stream T) :=
  '(hw, id) ← stream_get source; aget (if hw : bool then hw_streams ss else dma_streams ss) id.

Fixpoint feed (source : Z) (junk : list Z) (pieces : list (list Z)) : M (t5d_streams T) unit :=
  match pieces with
  | [] => mret tt
  | data :: pieces => t5d_process_stream deliver source junk data;; feed source junk pieces
  end.

Lemma aset_other {A} (l l' : list A) i j v : aset l i v = Some l' → j ≠ i → aget l' j = aget l j.
Proof.
  intros Hs Hj. apply aset_inv in Hs as [Hi ->]. by apply aget_insert_ne; [lia|].
Qed.

Lemma t5d_process_stream_ok {U} source junk data ss s pend t E : zlen junk = T5D_STREAM_TS_BUFFER_SIZE →
  stream_at ss source = Some s → holds s pend t → Forall (fun p => good p t) (packets_of (pend ++ data)) →
  wp U (t5d_process_stream deliver source junk data)
    (fun r ss' => r = 0 ∧
      (∃ s', stream_at ss' source = Some s' ∧
        holds s' (left_over (pend ++ data)) (foldl consume t (packets_of (pend ++ data)))) ∧
      ∀ source', stream_get source' ≠ stream_get source → stream_at ss' source' = stream_at ss source') E ss.
Proof.
  intros Hj Hat Hh Hg.
  pose proof (process_stream_ok (U := False) junk data s pend t (fun _ _ => False) Hj Hh Hg) as Hok.
  unfold stream_at in *. unfold wp, t5d_process_stream in *.
  destruct (stream_get source) as [[hw id]|] eqn:Hget; [|done]. cbn [mbind option_bind] in Hat. rewrite Hat.
  destruct (process_stream deliver junk data s) as [r s'| |]; [|done..]. destruct Hok as [-> Hh'].
  apply aget_inv in Hat as [Hr _].
  assert (∃ l', aset (if hw then hw_streams ss else dma_streams ss) id s' = Some l') as [l' Hl']
    by (rewrite aset_Some by done; by eexists).
  rewrite Hl'. split; [done|]. split.
  - exists s'. cbn [mbind option_bind]. split; [|done]. apply aset_inv in Hl' as [_ ->].
    destruct hw; cbn [hw_streams dma_streams]; by apply aget_insert.
  - intros source' Hne. destruct (stream_get source') as [[hw' id']|]; [|done]. cbn [mbind option_bind].
    destruct hw, hw'; cbn [hw_streams dma_streams]; try done;
      (eapply aset_other; [exact Hl'|]; by intros ->).
Qed.

Lemma feed_ok {U} source junk pieces ss s pend t E : zlen junk = T5D_STREAM_TS_BUFFER_SIZE →
  stream_at ss source = Some s → holds s pend t → Forall (fun p => good p t) (packets_of (pend ++ concat pieces)) →
  wp U (feed source junk pieces)
    (fun _ ss' =>
      (∃ s', stream_at ss' source = Some s' ∧
        holds s' (left_over (pend ++ concat pieces)) (foldl consume t (packets_of (pend ++ concat pieces)))) ∧
      ∀ source', stream_get source' ≠ stream_get source → stream_at ss' source' = stream_at ss source') E ss.
Proof.
  intros Hj. revert ss s pend t. induction pieces as [|data pieces IH]; intros ss s pend t Hat Hh Hg; cbn [feed concat] in *.
  - apply wp_ret. split; [|done]. exists s. split; [done|]. rewrite app_nil_r.
    by destruct (split_short pend (h_short _ _ _ Hh)) as [-> ->].
  - destruct (split_app (pend ++ data) (concat pieces)) as [Hp Hl]. rewrite <- app_assoc in Hp, Hl.
    rewrite Hp in Hg |- *. rewrite Hl. apply Forall_app in Hg as [Hg1 Hg2]. rewrite foldl_app.
    apply wp_bind. eapply wp_mono; [by apply (t5d_process_stream_ok source junk data ss s pend t)| |by intros].
    intros r ss' (_ & (s' & Hat' & Hh') & Hrest).
    eapply wp_mono; [apply (IH ss' s' _ _ Hat' Hh')| |by intros].
    + revert Hg2. generalize (packets_of (left_over (pend ++ data) ++ concat pieces)) as qs.
      generalize (packets_of (pend ++ data)) as ps. clear -Consumer0. intros ps. revert t.
      induction ps as [|p ps IH]; intros t qs Hg; [done|]. cbn. apply IH. by apply good_all.
    + intros [] ss2 [Hs2 Hr2]. split; [done|]. intros source' Hne. by rewrite Hr2, Hrest.
Qed.
End Feed.
