(* ===== verification/T5dPipe.v ===== *)
(** The stream of a source from its bytes to the callbacks of the descrambler:
    the two consumers behind the parser (the interface [Consumer] of
    T5dStream). *)

From stdpp Require Import base list numbers gmap.
From Stdlib Require Import ZArith Lia Bool.
From S2P Require Import Prelude.
From S2P Require Import SwdmxList.
From S2P Require Import SwdmxTs.
From S2P Require Import AesCore.
From S2P Require Import AesFips.
From S2P Require Import SwdmxCbc.
From S2P Require Import SwdmxDesc.
From S2P Require Import SwdmxDescOk.
From S2P Require Import T5dStream.

#[local] Open Scope Z_scope.

(** ** Headers away from the start of the buffer *)

Definition shift (d : Z) (k : swdmx_tspacket) : swdmx_tspacket :=
  mk_tspkt (pid k) (payload_start k) (priority k) (error k) (scramble k) (cc k) (packet k + d) (packet_len k)
    (Z.add d <$> adp_field k) (adp_field_len k) (Z.add d <$> payload k) (payload_len k).

Lemma tspkt_ext k k' : pid k = pid k' → payload_start k = payload_start k' → priority k = priority k' →
  error k = error k' → scramble k = scramble k' → cc k = cc k' → packet k = packet k' → packet_len k = packet_len k' →
  adp_field k = adp_field k' → adp_field_len k = adp_field_len k' → payload k = payload k' →
  payload_len k = payload_len k' → k = k'.
Proof. destruct k, k'. cbn. intros. by subst. Qed.

Lemma header_shift size pre pk post : length pk = 188%nat →
  ts_packet_header size (pre ++ pk ++ post) (zlen pre) =
    option_map (option_map (shift (zlen pre))) (ts_packet_header size pk 0).
Proof.
  intros Hl.
  assert (∀ i, 0 ≤ i < 188 → aget (pre ++ pk ++ post) (zlen pre + i) = aget pk (0 + i)) as Hget.
  { intros i Hi. rewrite aget_app_r by lia. unfold aget. rewrite !(proj2 (Z.leb_le _ _)) by lia.
    rewrite lookup_app_l by lia. f_equal. }
  unfold ts_packet_header. rewrite !Hget by lia.
  destruct (aget pk (0 + 1)) as [p1|]; [|done]. destruct (aget pk (0 + 2)) as [p2|]; [|done]. cbn [mbind option_bind].
  destruct (Z.lor _ _ =? 8191); [done|]. destruct (aget pk (0 + 3)) as [p3|]; [|done]. cbn [mbind option_bind].
  destruct (truth (Z.land (Z.land (Z.shiftr p3 4) 3) 2)).
  - destruct (aget pk (0 + 4)) as [al|]; [|done]. cbn [mbind option_bind].
    destruct (184 - 1 - al <? 0); [done|].
    destruct (truth _); cbn; do 2 f_equal; apply tspkt_ext; cbn; try done; try lia; f_equal; lia.
  - destruct (truth _); cbn; do 2 f_equal; apply tspkt_ext; cbn; try done; try lia; f_equal; lia.
Qed.

(** ** A log of the packets *)

Definition slice_log : Type := list (swdmx_cb_entry * list Z).

(** The bytes of a packet, as its callback finds them. *)
Definition slice (buf : list Z) (k : swdmx_tspacket) : list Z := take 188 (drop (Z.to_nat (packet k)) buf).

Definition slice_deliver (e : swdmx_cb_entry) (k : swdmx_tspacket) : M (list Z * slice_log) unit :=
  modify (fun s => (s.1, s.2 ++ [(e, slice s.1 k)])).

Definition to_all {A} (cbs : list swdmx_cb_entry) (x : A) : list (swdmx_cb_entry * A) := (fun e => (e, x)) <$> cbs.

(** A packet reaches the callbacks unless it is a null packet or its
    adaptation field is too long. *)
Definition slice_consume (cbs : list swdmx_cb_entry) (t : slice_log) (pk : list Z) : slice_log :=
  match ts_packet_header 188 pk 0 with
  | Some (Some _) => t ++ to_all cbs pk
  | _ => t
  end.

Lemma slice_middle pre pk post k : length pk = 188%nat → packet k = zlen pre → slice (pre ++ pk ++ post) k = pk.
Proof.
  intros Hl Hk. unfold slice. rewrite Hk. unfold zlen. rewrite Nat2Z.id, drop_app_length, <- Hl. apply take_app_length.
Qed.

Lemma header_packet size pk k : ts_packet_header size pk 0 = Some (Some k) → packet k = 0.
Proof.
  unfold ts_packet_header.
  destruct (aget pk (0 + 1)) as [p1|]; [|done]. destruct (aget pk (0 + 2)) as [p2|]; [|done]. cbn [mbind option_bind].
  destruct (Z.lor _ _ =? 8191); [done|]. destruct (aget pk (0 + 3)) as [p3|]; [|done]. cbn [mbind option_bind].
  destruct (truth (Z.land (Z.land (Z.shiftr p3 4) 3) 2)).
  - destruct (aget pk (0 + 4)) as [al|]; [|done]. cbn [mbind option_bind].
    destruct (184 - 1 - al <? 0); [done|]. destruct (truth _); by intros [= <-].
  - destruct (truth _); by intros [= <-].
Qed.

#[export] Instance slice_consumer tsp : packet_size tsp = 188 →
  Consumer slice_deliver tsp (fun pk _ => is_Some (ts_packet_header 188 pk 0)) (slice_consume (tsp_cb_list tsp)).
Proof.
  intros Hsize. split; [|done]. intros pre pk post t Hl Hh [h Hhd]. exists pk. split; [done|].
  unfold ts_packet. rewrite (bind_Ok (gets _) _ _ _ _ eq_refl). cbn [fst]. rewrite Hsize, header_shift, Hhd by done.
  cbn [option_map]. rewrite (bind_Ok (of_option (Some _)) _ _ _ _ eq_refl). unfold slice_consume. rewrite Hhd.
  destruct h as [k|]; [|done]. cbn [option_map].
  assert (∀ cbs t, call_all slice_deliver cbs (shift (zlen pre) k) (pre ++ pk ++ post, t) =
    Ok tt (pre ++ pk ++ post, t ++ to_all cbs pk)) as Hcall.
  { induction cbs as [|e cbs IH]; intros t'; [cbn; by rewrite app_nil_r|]. cbn [call_all].
    rewrite (bind_Ok (slice_deliver _ _) _ _ _ _ eq_refl). cbn [fst snd].
    rewrite slice_middle by (done || (cbn; rewrite (header_packet _ _ _ Hhd); lia)). rewrite IH, <- app_assoc. done. }
  apply Hcall.
Qed.

Lemma header_defined pk : length pk = 188%nat → is_Some (ts_packet_header 188 pk 0).
Proof.
  intros Hl. assert (∀ i, 0 ≤ i < 188 → ∃ v, aget pk i = Some v) as Hget by (intros i Hi; apply aget_Some; unfold zlen; lia).
  unfold ts_packet_header. destruct (Hget (0 + 1) ltac:(lia)) as [p1 ->], (Hget (0 + 2) ltac:(lia)) as [p2 ->].
  cbn [mbind option_bind]. destruct (Z.lor _ _ =? 8191); [by eexists|].
  destruct (Hget (0 + 3) ltac:(lia)) as [p3 ->]. cbn [mbind option_bind].
  destruct (truth (Z.land (Z.land (Z.shiftr p3 4) 3) 2)).
  - destruct (Hget (0 + 4) ltac:(lia)) as [al ->]. cbn [mbind option_bind].
    destruct (184 - 1 - al <? 0); [by eexists|]. destruct (truth _); by eexists.
  - destruct (truth _); by eexists.
Qed.

Lemma packets_length l : Forall (fun pk => length pk = 188%nat) (packets_of l).
Proof.
  induction l as [l Hl|pk l Hl Hh IH|b l Hb Hl IH] using split_ind.
  - by rewrite (proj1 (split_short l Hl)).
  - rewrite (proj1 (split_packet pk l Hl Hh)). by constructor.
  - by rewrite (proj1 (split_skip b l Hb Hl)).
Qed.

(** C14: Data fed to a source in pieces of any size: the callbacks get the packets
    of the bytes still pending followed by all the pieces, each once and in
    order, and the bytes left over are kept; so how the data is cut does not
    matter.  Other sources are not touched, and no access leaves the cache
    (188 bytes), the buffer (4096 bytes) or the data. *)
Theorem t5d_stream_chunks tsp source junk pieces ss s pend (log : slice_log) :
  packet_size tsp = 188 → zlen junk = T5D_STREAM_TS_BUFFER_SIZE →
  stream_at ss source = Some s → holds tsp s pend log →
  ∃ ss' s', feed slice_deliver source junk pieces ss = Ok tt ss' ∧ stream_at ss' source = Some s' ∧
    holds tsp s' (left_over (pend ++ concat pieces))
      (foldl (slice_consume (tsp_cb_list tsp)) log (packets_of (pend ++ concat pieces))) ∧
    ∀ source', stream_get source' ≠ stream_get source → stream_at ss' source' = stream_at ss source'.
Proof.
  intros Hsize Hj Hat Hh. pose proof (slice_consumer tsp Hsize) as Hc.
  assert (Forall (fun p => is_Some (ts_packet_header 188 p 0)) (packets_of (pend ++ concat pieces))) as Hg.
  { eapply list.Forall_impl; [apply packets_length|]. intros p. apply header_defined. }
  pose proof (feed_ok (U := False) slice_deliver tsp _ _ Hsize source junk pieces ss s pend log (fun _ _ => False)
    Hj Hat Hh Hg) as Hok.
  unfold wp in Hok. destruct (feed _ _ _ _ ss) as [[] ss'| |]; [|done..].
  destruct Hok as [(s' & Hs' & Hh') Hrest]. by exists ss', s'.
Qed.

Definition sample_tsp : swdmx_ts_parser := mk_tsp 188 [mk_cb 1 2].

(** The streams of a device that was just initialised. *)
Definition sample_streams {T} (tsp : swdmx_ts_parser) (t : T) : t5d_streams T :=
  let s := mk_stream (replicate 188 0) 0 None tsp t in mk_streams (replicate 3 s) (replicate 8 s).

Lemma sample_holds {T} tsp (t : T) : holds tsp (mk_stream (replicate 188 0) 0 None tsp t) [] t.
Proof. split; try done. cbn. lia. Qed.

Lemma t5d_stream_chunks_witness :
  let buf := [9; 9] ++ ts_stream sample_packets in
  let pieces := [take 100 buf; []; take 200 (drop 100 buf); drop 300 buf] in
  ∃ ss' s', feed slice_deliver 33 (replicate 4096 0) pieces (sample_streams sample_tsp []) = Ok tt ss' ∧
    stream_at ss' 33 = Some s' ∧
    holds sample_tsp s' (left_over ([] ++ concat pieces))
      (foldl (slice_consume (tsp_cb_list sample_tsp)) [] (packets_of ([] ++ concat pieces))) ∧
    ∀ source', stream_get source' ≠ stream_get 33 → stream_at ss' source' = stream_at (sample_streams sample_tsp []) source'.
Proof.
  intros buf pieces. apply (t5d_stream_chunks sample_tsp 33 (replicate 4096 0) pieces (sample_streams sample_tsp [])
    (mk_stream (replicate 188 0) 0 None sample_tsp []) [] []); [done|done|done|apply sample_holds].
Defined.

(** ** The descrambler *)

Section Pipe.
Context (W : nat) `{!WordSize W} (obuf : list Z) (Hobuf : zlen obuf = 184).

(** The descrambler works on the buffer of the parser; the callbacks behind
    it log the bytes of their packets. *)
Definition pipe_log : Type := descrambler * slice_log.

Definition pipe_state : Type := list Z * pipe_log.

Definition pipe_view (s : pipe_state) : descrambler := with_buf s.2.1 s.1.
Definition pipe_put (d : descrambler) (s : pipe_state) : pipe_state := (d_buf d, (with_buf d [], s.2.2)).
Definition pipe_out (e : swdmx_cb_entry) (k : swdmx_tspacket) : M pipe_state unit :=
  modify (fun s => (s.1, (s.2.1, s.2.2 ++ [(e, slice s.1 k)]))).

Definition pipe_deliver (_ : swdmx_cb_entry) (k : swdmx_tspacket) : M pipe_state unit :=
  swdmx_descrambler_ts_packet_cb W obuf pipe_view pipe_put pipe_out k.

(** A packet of 188 bytes on its own. *)
Definition pipe_consume (t : pipe_log) (pk : list Z) : pipe_log :=
  match ts_packet_header 188 pk 0 with
  | Some (Some k) =>
      match (if payload k then descramble W obuf (chan_list t.1) k else mret k) (with_buf t.1 pk) with
      | Ok _ d => (t.1, t.2 ++ to_all (d_cb_list t.1) (d_buf d))
      | _ => t
      end
  | _ => t
  end.

Definition pipe_good (pk : list Z) (t : pipe_log) : Prop :=
  chans_ok t.1 ∧ d_buf t.1 = [] ∧
  ∃ f f', pk = ts_encode f ∧ ts_fields_ok f ∧ descrambles t.1 f f'.

Lemma pipe_consume_encode t f f' : chans_ok t.1 → ts_fields_ok f → descrambles t.1 f f' →
  pipe_consume t (ts_encode f) =
    (t.1, t.2 ++ if tf_pid f =? 8191 then [] else to_all (d_cb_list t.1) (ts_encode f')).
Proof.
  intros Hch Hf Hds. unfold pipe_consume.
  pose proof (ts_header_encode 188 [] f [] Hf) as Hh. cbn [app] in Hh. rewrite app_nil_r in Hh. change (zlen []) with 0 in Hh.
  rewrite Hh. destruct (Z.eqb_spec (tf_pid f) 8191) as [|Hn]; [rewrite app_nil_r; by destruct t|].
  pose proof (descramble_one W obuf Hobuf (U := False) (with_buf t.1 (ts_encode f)) [] f f' []
    (fun _ d => d = with_buf t.1 (ts_encode f')) (fun _ _ => False) Hch Hf Hn (descrambles_buf _ _ _ _ Hds)) as Hok.
  cbn [app] in Hok. rewrite !app_nil_r in Hok. specialize (Hok eq_refl eq_refl). unfold wp in Hok.
  change (chan_list (with_buf t.1 (ts_encode f))) with (chan_list t.1) in Hok. change (zlen []) with 0 in Hok.
  match type of Hok with match ?x with _ => _ end =>
    change (match x with Ok _ d => (t.1, t.2 ++ to_all (d_cb_list t.1) (d_buf d)) | _ => t end =
            (t.1, t.2 ++ to_all (d_cb_list t.1) (ts_encode f'))); destruct x as [k d| |]
  end; [|done..]. by rewrite Hok.
Qed.

Lemma with_buf_id d b : d_buf d = [] → with_buf (with_buf d b) [] = d.
Proof. intros <-. by destruct d. Qed.

Lemma wp_pipe_out {U} cbs k pre pk post d log (Q : unit → pipe_state → Prop) E :
  length pk = 188%nat → packet k = zlen pre →
  Q tt (pre ++ pk ++ post, (d, log ++ to_all cbs pk)) →
  wp U (call_all pipe_out cbs k) Q E (pre ++ pk ++ post, (d, log)).
Proof.
  intros Hl Hk. revert log. induction cbs as [|c cbs IH]; intros log HQ.
  - apply wp_ret. cbn in HQ. by rewrite app_nil_r in HQ.
  - cbn [call_all]. apply wp_bind, wp_modify, IH. cbn [fst snd]. rewrite slice_middle by done.
    rewrite <- app_assoc. exact HQ.
Qed.

#[export] Instance pipe_consumer tsp e : packet_size tsp = 188 → tsp_cb_list tsp = [e] →
  Consumer pipe_deliver tsp pipe_good pipe_consume.
Proof.
  intros Hsize Hcb. split.
  - intros pre pk post [d log] _ _ (Hch & Hnil & f & f' & -> & Hf & Hds). cbn [fst] in *.
    destruct (descrambles_zlen _ _ _ Hf Hds) as [Hz _].
    unfold ts_packet. rewrite (bind_Ok (gets _) _ _ _ _ eq_refl). cbn [fst].
    rewrite Hsize, (ts_header_encode 188 pre f post Hf), (bind_Ok (of_option (Some _)) _ _ _ _ eq_refl).
    rewrite (pipe_consume_encode (d, log) f f' Hch Hf Hds). cbn [fst snd].
    destruct (Z.eqb_spec (tf_pid f) 8191) as [Hn|Hn].
    { exists (ts_encode f). split; [pose proof (tfo_len _ Hf); unfold zlen in *; lia|]. by rewrite app_nil_r. }
    exists (ts_encode f'). split; [unfold zlen in *; lia|].
    rewrite Hcb. cbn [call_all]. apply wp_only, wp_bind. unfold pipe_deliver, swdmx_descrambler_ts_packet_cb.
    apply wp_bind, wp_gets, wp_bind. set (k := ts_expect 188 (zlen pre) f).
    set (s0 := (pre ++ ts_encode f ++ post, (d, log)) : pipe_state).
    assert (∀ (Q : swdmx_tspacket → pipe_state → Prop) E,
      wp False (if payload k then descramble W obuf (chan_list d) k else mret k)
        (fun k' d' => Q k' (pipe_put d' s0)) (fun c d' => E c (pipe_put d' s0)) (pipe_view s0) →
      wp False (if payload k then zoom pipe_view pipe_put (descramble W obuf (chan_list d) k) else mret k) Q E s0) as Hzoom.
    { intros Q E Hw. destruct (payload k); [by apply wp_zoom|]. unfold wp in *. cbn in *.
      assert (pipe_put (pipe_view s0) s0 = s0) as Hs0; [|by rewrite Hs0 in Hw].
      unfold pipe_put, pipe_view, s0. cbn [fst snd]. by rewrite d_buf_with, with_buf_id. }
    apply Hzoom. apply (descramble_one W obuf Hobuf (pipe_view s0) pre f f' post);
      [done|done|done|by apply descrambles_buf|done|].
    apply wp_bind, wp_gets.
    assert (pipe_put (with_buf (pipe_view s0) (pre ++ ts_encode f' ++ post)) s0 =
      (pre ++ ts_encode f' ++ post, (d, log))) as ->.
    { unfold pipe_put, pipe_view, s0. cbn [fst snd]. rewrite d_buf_with.
      change (with_buf (with_buf (with_buf d (pre ++ ts_encode f ++ post)) (pre ++ ts_encode f' ++ post)) [])
        with (with_buf (with_buf d (pre ++ ts_encode f ++ post)) []). by rewrite with_buf_id. }
    apply wp_pipe_out; [unfold zlen in *; lia|done|]. by apply wp_ret.
  - intros pk pk' [d log] (Hch & Hnil & Hex). unfold pipe_good.
    assert ((pipe_consume (d, log) pk').1 = d) as ->; [|done].
    unfold pipe_consume. destruct (ts_packet_header 188 pk' 0) as [[k|]|]; try done.
    by match goal with |- (match ?x with _ => _ end).1 = _ => destruct x end.
Qed.
End Pipe.

(** The packets of an encoded stream. *)
Lemma packets_of_stream g gs : Forall (fun b => b ≠ 71) g → Forall ts_fields_ok gs → gs ≠ [] →
  packets_of (g ++ ts_stream gs) = ts_encode <$> gs ∧ left_over (g ++ ts_stream gs) = [].
Proof.
  intros Hg Hgs Hne.
  assert (packets_of (ts_stream gs) = ts_encode <$> gs ∧ left_over (ts_stream gs) = []) as [Hp Hl].
  { clear Hg Hne g. induction Hgs as [|f fs Hf _ [IH1 IH2]]; [by apply split_short; cbn; lia|].
    change (ts_stream (f :: fs)) with (ts_encode f ++ ts_stream fs).
    destruct (split_packet (ts_encode f) (ts_stream fs)) as [-> ->];
      [pose proof (tfo_len _ Hf); unfold zlen in *; lia|done|]. rewrite IH1, IH2. done. }
  assert (188 ≤ length (ts_stream gs))%nat as Hlen.
  { pose proof (zlen_ts_stream gs Hgs) as Hz. destruct gs; [done|]. unfold zlen in *. cbn [length] in *. lia. }
  induction Hg as [|b g Hb Hg [IH1 IH2]]; [done|]. cbn [app].
  destruct (split_skip b (g ++ ts_stream gs) Hb) as [-> ->]; [rewrite length_app; lia|]. done.
Qed.

Lemma foldl_pipe W `{!WordSize W} obuf d fs gs log : zlen obuf = 184 → chans_ok d → d_buf d = [] →
  Forall2 (fun f g => ts_fields_ok g ∧ descrambles d g f) fs gs →
  foldl (pipe_consume W obuf) (d, log) (ts_encode <$> gs) =
    (d, log ++ (f ← filter (fun f => tf_pid f ≠ 8191) fs; to_all (d_cb_list d) (ts_encode f))).
Proof.
  intros Ho Hch Hnil Hfg. revert log. induction Hfg as [|f g fs gs [Hg Hds] _ IH]; intros log; [by rewrite app_nil_r|].
  cbn [fmap list_fmap foldl]. rewrite (pipe_consume_encode W obuf Ho (d, log) g f Hch Hg Hds), IH. cbn [fst snd].
  destruct (descrambles_zlen _ _ _ Hg Hds) as [_ Hpid]. rewrite <- Hpid.
  destruct (Z.eqb_spec (tf_pid f) 8191) as [He|He].
  - rewrite filter_cons_False by tauto. by rewrite app_nil_r.
  - rewrite filter_cons_True by done. by rewrite <- app_assoc.
Qed.

(** C6: From the bytes of a source to the consumers: a stream of packets scrambled
    with AES in CBC mode under the keys of their channels, behind bytes
    without a sync byte and fed in pieces of any size, reaches the callbacks
    behind the descrambler as exactly the packets of the clear stream, byte
    for byte, each once and in order, without the null packets; nothing stays
    behind in the cache. *)
Theorem t5d_pipeline_clear W `{!WordSize W} obuf tsp e source junk pieces ss s d log g fs gs :
  zlen obuf = 184 → packet_size tsp = 188 → tsp_cb_list tsp = [e] → zlen junk = T5D_STREAM_TS_BUFFER_SIZE →
  stream_at ss source = Some s → holds tsp s [] (d, log) → d_buf d = [] → chans_ok d →
  Forall (fun b => b ≠ 71) g → gs ≠ [] → Forall ts_fields_ok fs → Forall2 (scrambled d) fs gs →
  concat pieces = g ++ ts_stream gs →
  ∃ ss' s', feed (pipe_deliver W obuf) source junk pieces ss = Ok tt ss' ∧ stream_at ss' source = Some s' ∧
    holds tsp s' [] (d, log ++ (f ← filter (fun f => tf_pid f ≠ 8191) fs; to_all (d_cb_list d) (ts_encode f))).
Proof.
  intros Ho Hsize Hcb Hj Hat Hh Hnil Hch Hg Hne Hfs Hsc Hcat.
  assert (Forall2 (fun f g => ts_fields_ok g ∧ descrambles d g f) fs gs ∧ Forall ts_fields_ok gs) as [Hds Hgs].
  { clear -Hfs Hsc. induction Hsc as [|f g fs gs Hfg _ IH]; [by split|]. apply Forall_cons_1 in Hfs as [Hf Hfs].
    destruct (IH Hfs), (scrambled_descrambles _ _ _ Hf Hfg). by split; constructor. }
  destruct (packets_of_stream g gs Hg Hgs Hne) as [Hp Hl]. rewrite <- Hcat in Hp, Hl.
  pose proof (pipe_consumer W obuf Ho tsp e Hsize Hcb) as Hc.
  pose proof (feed_ok (U := False) (pipe_deliver W obuf) tsp pipe_good (pipe_consume W obuf) Hsize source junk pieces ss s []
    (d, log) (fun _ _ => False) Hj Hat Hh) as Hok. cbn [app] in Hok. rewrite Hp, Hl in Hok.
  rewrite (foldl_pipe W obuf d fs gs log Ho Hch Hnil Hds) in Hok. unfold wp in Hok.
  assert (Forall (fun p => pipe_good p (d, log)) (ts_encode <$> gs)) as Hgood.
  { apply Forall_fmap. clear -Hds Hch Hnil. induction Hds as [|f g fs gs [Hg Hd] _ IH]; constructor; [|done].
    split; [done|]. split; [done|]. by exists g, f. }
  specialize (Hok Hgood).
  destruct (feed (pipe_deliver W obuf) source junk pieces ss) as [[] ss'| |]; [|done..].
  destruct Hok as [(s' & Hs' & Hh') _]. by exists ss', s'.
Qed.

Lemma cut_three {A} (l : list A) a b : concat [take a l; take b (drop a l); drop (a + b) l] = l.
Proof. cbn [concat]. by rewrite app_nil_r, <- drop_drop, !take_drop. Qed.

Lemma t5d_pipeline_clear_witness :
  let d := sample_desc [] in
  let bytes := [1; 2; 3] ++ ts_stream sample_scrambled in
  let pieces := [take 64 bytes; take 250 (drop 64 bytes); drop (64 + 250) bytes] in
  ∃ ss' s', feed (pipe_deliver 8 (replicate 184 0)) 2 (replicate 4096 0) pieces (sample_streams sample_tsp (d, [])) = Ok tt ss' ∧
    stream_at ss' 2 = Some s' ∧
    holds sample_tsp s' [] (d, [] ++ (f ← filter (fun f => tf_pid f ≠ 8191) sample_packets; to_all (d_cb_list d) (ts_encode f))).
Proof.
  intros d bytes pieces.
  apply (t5d_pipeline_clear 8 (replicate 184 0) sample_tsp (mk_cb 1 2) 2 (replicate 4096 0) pieces
    (sample_streams sample_tsp (d, [])) (mk_stream (replicate 188 0) 0 None sample_tsp (d, [])) d [] [1; 2; 3]
    sample_packets sample_scrambled).
  - reflexivity.
  - reflexivity.
  - reflexivity.
  - vm_compute. reflexivity.
  - reflexivity.
  - apply sample_holds.
  - vm_compute. reflexivity.
  - apply sample_chans.
  - repeat constructor; lia.
  - discriminate.
  - apply sample_fields.
  - apply sample_scrambled_ok.
  - apply (cut_three bytes 64 250).
Defined.
