(* ===== verification/BufCore.v ===== *)
(** The buffer core of the V4L2 decoder framework
    (src/drivers/amvdec_ports/aml_buf_core.c, aml_buf_core.h): the capture
    buffers a decoder instance owns, who holds them, and the queue of the free
    ones; the pool of separate YUV memories of the dynamic mode; the internal
    buffers of the AVBC mode.

    The state is [struct buf_core_mgr_s] with the entries by address.  The
    hash table is the list of its entries, in the order in which
    [hash_for_each_safe] visits them; the free queues are lists of addresses
    and of pool indices.  Every operation takes the mutex for its whole
    duration, so operations are atomic steps.  Using an entry that has been
    freed, an absent pool element, or linking a queue node that is linked
    already is undefined behaviour.  The function pointers the buffer manager
    installs are the class [BufCallbacks]; what they are called for is
    recorded as events.  Log output and [buf_core_walk], which prints, are
    left out. *)

From stdpp Require Import base list numbers gmap.
From Stdlib Require Import ZArith Lia Bool.
From S2P Require Import Prelude.

#[local] Open Scope Z_scope.

(** ** Constants and enumerations *)

Definition DEC_BIT : Z := Z.shiftl 1 0.
Definition GE2D_BIT : Z := Z.shiftl 1 4.
Definition VPP_BIT : Z := Z.shiftl 1 8.
Definition VSINK_BIT : Z := Z.shiftl 1 12.
Definition DI_BIT : Z := Z.shiftl 1 16.

Definition DEC_MASK : Z := 15.
Definition GE2D_MASK : Z := 240.
Definition VPP_MASK : Z := 3840.
Definition VSINK_MASK : Z := 61440.
Definition DI_MASK : Z := 983040.

Definition AVBC_BUFFER_NUM : Z := 32.
Definition DAMBUF_POOL : Z := 32.
Definition FIELD_NUM : Z := 3.

Inductive buf_core_state :=
| BUF_STATE_INIT | BUF_STATE_FREE | BUF_STATE_USE | BUF_STATE_REF | BUF_STATE_DONE | BUF_STATE_ERR.

Inductive buf_core_mgr_state := BM_STATE_INIT | BM_STATE_ACTIVE | BM_STATE_EXIT.

Inductive buf_core_user :=
| BUF_USER_DEC | BUF_USER_VPP | BUF_USER_GE2D | BUF_USER_AVBCD | BUF_USER_VSINK | BUF_USER_DI | BUF_USER_MAX.

Inductive buf_core_holder :=
| BUF_HOLDER_DEC | BUF_HOLDER_VPP | BUF_HOLDER_GE2D | BUF_HOLDER_VSINK | BUF_HOLDER_DI | BUF_HOLDER_FREE.

Inductive buf_direction := BUF_GET | BUF_PUT.

Inductive buf_pair := BUF_MASTER | BUF_SUB0 | BUF_SUB1.

#[export] Instance buf_core_state_eq_dec : EqDecision buf_core_state.
Proof. solve_decision. Defined.
#[export] Instance buf_core_mgr_state_eq_dec : EqDecision buf_core_mgr_state.
Proof. solve_decision. Defined.
#[export] Instance buf_core_user_eq_dec : EqDecision buf_core_user.
Proof. solve_decision. Defined.
#[export] Instance buf_core_holder_eq_dec : EqDecision buf_core_holder.
Proof. solve_decision. Defined.
#[export] Instance buf_pair_eq_dec : EqDecision buf_pair.
Proof. solve_decision. Defined.

(** ** State *)

(** [master_ref], [priv] and [bc] are pointers that are only set. *)
Record buf_core_entry := mk_entry {
  key : Z;
  phy_addr : Z;
  ref : Z;
  dma_ref : Z;
  state : buf_core_state;
  user : buf_core_user;
  holder : buf_core_holder;
  vb2 : Z;
  ref_bit_map : Z;
  sub0 : option Z;            (** sub_entry[0] *)
  sub1 : option Z;            (** sub_entry[1] *)
  master_entry : option Z;
  pair : buf_pair;
  index : Z;
  inited : bool;
  queued_mask : Z;
  set_buf_planes_flag : bool
}.

#[export] Instance eta_buf_core_entry : Settable buf_core_entry := fun r =>
  mk_entry (key r) (phy_addr r) (ref r) (dma_ref r) (state r) (user r) (holder r) (vb2 r) (ref_bit_map r)
    (sub0 r) (sub1 r) (master_entry r) (pair r) (index r) (inited r) (queued_mask r) (set_buf_planes_flag r).

Record buf_core_dma := mk_dma {
  d_dmabuf : Z;
  d_phy_addr : Z;
  d_index : Z;
  d_ref : Z;
  d_dma_ref : Z;
  d_used : bool;
  d_inited : bool;
  dec_ref : Z;
  uvm_dma : list Z
}.

#[export] Instance eta_buf_core_dma : Settable buf_core_dma := fun r =>
  mk_dma (d_dmabuf r) (d_phy_addr r) (d_index r) (d_ref r) (d_dma_ref r) (d_used r) (d_inited r) (dec_ref r) (uvm_dma r).

(** An element of [bc->dma]: NULL, a structure, or a pointer to freed memory. *)
Inductive dma_slot :=
| Slot_null
| Slot_dma (d : buf_core_dma)
| Slot_freed.

(** What is done outside the buffer core. *)
Inductive event :=
| Ev_prepare (a : Z)
| Ev_wake_up_vdec
| Ev_external (a : Z)
| Ev_output (a : Z) (u : buf_core_user)
| Ev_vpp_que (key ext : Z)
| Ev_vpp_dque (a : Z)
| Ev_vpp_reset
| Ev_reconfigure (a : Z)
| Ev_free (a : Z)
| Ev_get_dma_buf (b : Z)
| Ev_dma_buf_put (b : Z).

Record buf_core_mgr_s := mk_bc {
  bc_state : buf_core_mgr_state;
  core_ref : Z;
  free_num : Z;
  free_que : list Z;
  buf_num : Z;
  internal_num : Z;
  buf_table : list Z;
  entries : gmap Z buf_core_entry;
  dma_num : Z;
  dma_free_num : Z;
  dma_free_que : list Z;
  dma : list dma_slot;
  workqueue_enabled : bool;
  avbcd : list (option Z);    (** entry[AVBC_BUFFER_NUM] *)
  events : list event
}.

#[export] Instance eta_buf_core_mgr_s : Settable buf_core_mgr_s := fun r =>
  mk_bc (bc_state r) (core_ref r) (free_num r) (free_que r) (buf_num r) (internal_num r) (buf_table r) (entries r)
    (dma_num r) (dma_free_num r) (dma_free_que r) (dma r) (workqueue_enabled r) (avbcd r) (events r).

Definition B A := M buf_core_mgr_s A.

#[export] Instance B_ret : MRet B := M_ret buf_core_mgr_s.
#[export] Instance B_bind : MBind B := M_bind buf_core_mgr_s.

(** Access through a pointer. *)
Definition entry_at (a : Z) : B buf_core_entry := m ← gets entries; of_option (m !! a).

Definition upd_entry (a : Z) (g : buf_core_entry → buf_core_entry) : B unit :=
  e ← entry_at a; modify (fun s => s <| entries := <[a := g e]> (entries s) |>).

Definition log (e : event) : B unit := modify (fun s => s <| events := events s ++ [e] |>).

Definition dma_at (i : Z) : B buf_core_dma :=
  l ← gets dma;
  x ← of_option (aget l i);
  match x with Slot_dma d => mret d | _ => undef end.

Definition upd_dma (i : Z) (g : buf_core_dma → buf_core_dma) : B unit :=
  d ← dma_at i;
  l ← gets dma;
  l ← of_option (aset l i (Slot_dma (g d)));
  modify (fun s => s <| dma := l |>).

(** [is_eq x y]: C's [x == y] on enumerations. *)
Definition is_eq {A} `{EqDecision A} (x y : A) : bool := bool_decide (x = y).

(** ** The interface to the buffer manager *)

(** The function pointers of [struct buf_core_mgr_s]; [None] is NULL.
    [prepare] and [reconfigure_planes] may change the entries; the others
    answer from state outside the buffer core. *)
Class BufCallbacks := {
  dynamic_mode : bool;        (** bm->config.dynamic_mode *)
  prepare : option (Z → gmap Z buf_core_entry → gmap Z buf_core_entry);
  reconfigure_planes : Z → gmap Z buf_core_entry → gmap Z buf_core_entry;
  has_external_process : bool;
  has_vpp_reset : bool;
  get_pre_user : buf_core_entry → buf_core_user → buf_core_user;
  get_next_user : buf_core_entry → buf_core_user → buf_core_user;
  vpp_que : option (Z → Z → Z);
  vpp_dque : option (buf_core_entry → Z);
  output : buf_core_entry → buf_core_user → Z
}.

Definition bc_sanity_check : B bool := s ← gets bc_state; mret (is_eq s BM_STATE_ACTIVE).

Definition is_dma_mode (key phy_addr : Z) : bool := negb (key =? phy_addr).

(** ** Holders *)

Definition map_add (b : Z) (e : buf_core_entry) : buf_core_entry := e <| ref_bit_map := u32 (ref_bit_map e + b) |>.
Definition map_sub (b : Z) (e : buf_core_entry) : buf_core_entry := e <| ref_bit_map := u32 (ref_bit_map e - b) |>.

(** [if (entry->ref_bit_map & mask) entry->holder = h;] *)
Definition hold_if (mask : Z) (h : buf_core_holder) (e : buf_core_entry) : buf_core_entry :=
  if truth (Z.land (ref_bit_map e) mask) then e <| holder := h |> else e.

Section Operations.
Context `{BufCallbacks}.

(** [static void direction_buf_get(bc, entry, user)] *)
Definition direction_buf_get (e : buf_core_entry) (u : buf_core_user) : buf_core_entry :=
  match u with
  | BUF_USER_DEC => map_add DEC_BIT (e <| holder := BUF_HOLDER_DEC |>)
  | BUF_USER_VPP =>
      let e := map_add VPP_BIT (e <| holder := BUF_HOLDER_VPP |>) in
      let type := get_pre_user e u in
      let e := if is_eq type BUF_USER_DEC then map_sub DEC_BIT e else e in
      if is_eq type BUF_USER_GE2D then map_sub GE2D_BIT e else e
  | BUF_USER_GE2D => map_sub DEC_BIT (map_add GE2D_BIT (e <| holder := BUF_HOLDER_GE2D |>))
  | BUF_USER_VSINK =>
      let e := map_add VSINK_BIT (e <| holder := BUF_HOLDER_VSINK |>) in
      let type := get_pre_user e u in
      let e := if is_eq type BUF_USER_VPP then map_sub VPP_BIT e else e in
      let e := if is_eq type BUF_USER_DEC then map_sub DEC_BIT e else e in
      if is_eq type BUF_USER_GE2D then map_sub GE2D_BIT e else e
  | BUF_USER_DI => map_add DI_BIT e
  | _ => e
  end.

(** [static void direction_buf_put(bc, entry, user)] *)
Definition direction_buf_put (e : buf_core_entry) (u : buf_core_user) : buf_core_entry :=
  match u with
  | BUF_USER_DEC =>
      let e := if truth (Z.land (ref_bit_map e) DEC_MASK) then map_sub DEC_BIT e else e in
      hold_if VSINK_MASK BUF_HOLDER_VSINK (hold_if VPP_MASK BUF_HOLDER_VPP (hold_if GE2D_MASK BUF_HOLDER_GE2D e))
  | BUF_USER_VPP =>
      let e := map_sub VPP_BIT e in
      if truth (Z.land (ref_bit_map e) VPP_MASK) then e <| holder := BUF_HOLDER_VPP |>
      else hold_if DEC_MASK BUF_HOLDER_DEC (hold_if GE2D_MASK BUF_HOLDER_GE2D e)
  | BUF_USER_GE2D =>
      let e := map_sub GE2D_BIT e in
      if truth (Z.land (ref_bit_map e) GE2D_MASK) then e <| holder := BUF_HOLDER_GE2D |>
      else e <| holder := BUF_HOLDER_DEC |>
  | BUF_USER_VSINK =>
      let e := hold_if DEC_MASK BUF_HOLDER_DEC (map_sub VSINK_BIT e) in
      if truth (Z.land (ref_bit_map e) VSINK_MASK) then e <| holder := BUF_HOLDER_VSINK |>
      else hold_if DI_MASK BUF_HOLDER_DI e
  | BUF_USER_DI => map_sub DI_BIT e
  | _ => e
  end.

(** [buf_core_update_holder(bc, entry, user, direction)] *)
Definition buf_core_update_holder (a : Z) (u : buf_core_user) (d : buf_direction) : B unit :=
  upd_entry a (fun e => match d with BUF_GET => direction_buf_get e u | BUF_PUT => direction_buf_put e u end).

(** ** The pool of YUV memories *)

(** A loop over the pool that ends with [break]: [body i] tells whether to
    stop.  The result is the index at the end. *)
Fixpoint pool_find (n : nat) (i : Z) (body : Z → B bool) : B Z :=
  match n with
  | O => mret i
  | S n => b ← body i; if (b : bool) then mret i else pool_find n (i + 1) body
  end.

(** [buf_core_init_dma(bc)]; [ok i] tells whether [vzalloc] succeeds. *)
Fixpoint init_dma_loop (n : nat) (i : Z) (ok : Z → bool) : B unit :=
  match n with
  | O => mret tt
  | S n =>
      if ok i then
        s ← get;
        l ← of_option (aset (dma s) i (Slot_dma (mk_dma 0 0 (dma_num s) 0 0 false false 0 [0; 0; 0])));
        modify (fun s => s <| dma_num := s32 (dma_num s + 1) |> <| dma := l |>);;
        init_dma_loop n (i + 1) ok
      else mret tt
  end.

Definition buf_core_init_dma (ok : Z → bool) : B unit :=
  when dynamic_mode (init_dma_loop (Z.to_nat DAMBUF_POOL) 0 ok).

(** [buf_core_deinit_dma(bc)]: the pointers stay in the array. *)
Definition buf_core_deinit_dma : B unit :=
  when dynamic_mode
    (for_range 0 DAMBUF_POOL (fun i =>
       l ← gets dma;
       x ← of_option (aget l i);
       match x with
       | Slot_null => mret tt
       | Slot_freed => undef
       | Slot_dma _ => l ← of_option (aset l i Slot_freed); modify (fun s => s <| dma := l |>)
       end);;
     modify (fun s => s <| dma_num := 0 |>)).

(** [buf_core_dmabuf_slot_occupied(bc)] *)
Definition buf_core_dmabuf_slot_occupied : B bool :=
  if dynamic_mode then
    i ← pool_find (Z.to_nat DAMBUF_POOL) 0 (fun i => d ← dma_at i; mret (negb (d_used d)));
    mret (DAMBUF_POOL <=? i)
  else mret false.

(** [buf_core_alloc_dma(bc, out_dma)]; the argument and the result are
    [*out_dma]. *)
Definition buf_core_alloc_dma (out : option Z) : B (option Z) :=
  if dynamic_mode then
    i ← pool_find (Z.to_nat DAMBUF_POOL) 0 (fun i => d ← dma_at i; mret (negb (d_used d)));
    if DAMBUF_POOL <=? i then mret None
    else
      upd_dma i (fun d => d <| d_used := true |> <| d_inited := true |>);;
      mret (Some i)
  else mret out.

(** [for (j = 0; j < FIELD_NUM; j++) if (uvm_dma[j] == b) { uvm_dma[j] = 0; break; }] *)
Fixpoint clear_uvm (b : Z) (l : list Z) : list Z :=
  match l with
  | [] => []
  | x :: l => if x =? b then 0 :: l else x :: clear_uvm b l
  end.

(** The body of the loop of [buf_core_release_dma]. *)
Definition release_dma_slot (uvm : Z) (i : Z) : B unit :=
  d ← dma_at i;
  when (truth (d_dmabuf d))
    (upd_dma i (fun d => d <| uvm_dma := clear_uvm uvm (uvm_dma d) |>);;
     d ← dma_at i;
     when (d_inited d && forallb (fun x => x =? 0) (uvm_dma d))
       (for_range 0 (d_dma_ref d) (fun _ => log (Ev_dma_buf_put (d_dmabuf d)));;
        upd_dma i (fun d => d <| d_dma_ref := 0 |> <| d_dmabuf := 0 |> <| d_phy_addr := 0 |>
                              <| d_used := false |> <| d_inited := false |> <| d_ref := 0 |>))).

(** [buf_core_release_dma(bc, uvm_dma)] *)
Definition buf_core_release_dma (uvm : Z) : B unit :=
  when dynamic_mode
    (for_range 0 DAMBUF_POOL (release_dma_slot uvm);;
     modify (fun s => s <| dma_free_que := [] |> <| dma_free_num := 0 |>)).

(** [list_add_tail(&dma->node, &bc->dma_free_que); bc->dma_free_num++;] *)
Definition dma_enqueue (i : Z) : B unit :=
  q ← gets dma_free_que;
  if bool_decide (i ∈ q) then undef
  else modify (fun s => s <| dma_free_que := q ++ [i] |> <| dma_free_num := s32 (dma_free_num s + 1) |>).

(** [if (!atomic_dec_return(&dma->ref)) ...] *)
Definition dma_unref (i : Z) : B unit :=
  upd_dma i (fun d => d <| d_ref := s32 (d_ref d - 1) |>);;
  d ← dma_at i;
  when (d_ref d =? 0) (dma_enqueue i).

(** [buf_core_reset_dma(bc)] *)
Definition buf_core_reset_dma : B unit :=
  when dynamic_mode
    (for_range 0 DAMBUF_POOL (fun i =>
       d ← dma_at i;
       when (truth (dec_ref d))
         (dma_unref i;;
          upd_dma i (fun d => d <| dec_ref := s32 (dec_ref d - 1) |>)))).

(** [buf_core_get_free_dmabuf(bc, out_dma)] *)
Definition buf_core_get_free_dmabuf : B (option Z) :=
  if dynamic_mode then
    q ← gets dma_free_que;
    match q with
    | [] => mret None
    | i :: q =>
        dma_at i;;
        modify (fun s => s <| dma_free_num := s32 (dma_free_num s - 1) |> <| dma_free_que := q |>);;
        mret (Some i)
    end
  else mret None.

(** The search for a memory by its dma-buf or its address. *)
Definition find_dma (b : Z) : B Z :=
  pool_find (Z.to_nat DAMBUF_POOL) 0 (fun i =>
    if truth b then d ← dma_at i; mret ((b =? d_dmabuf d) || (b =? d_phy_addr d)) else mret false).

(** [buf_core_put_free_dmabuf(bc, dmabuf, uvm_dmabuf, dec_flag)] *)
Definition buf_core_put_free_dmabuf (b uvm : Z) (dec_flag : bool) : B unit :=
  when dynamic_mode
    (i ← find_dma b;
     when (i <? DAMBUF_POOL)
       (d ← dma_at i;
        when (d_dma_ref d =? 0)
          (log (Ev_get_dma_buf (d_dmabuf d));; upd_dma i (fun d => d <| d_dma_ref := u32 (d_dma_ref d + 1) |>));;
        dma_unref i;;
        when (truth uvm) (upd_dma i (fun d => d <| uvm_dma := clear_uvm uvm (uvm_dma d) |>));;
        when dec_flag (upd_dma i (fun d => d <| dec_ref := s32 (dec_ref d - 1) |>)))).

(** [buf_core_get_dmabuf_ref(bc, dmabuf, dec_flag)] *)
Definition buf_core_get_dmabuf_ref (b : Z) (dec_flag : bool) : B unit :=
  when dynamic_mode
    (i ← find_dma b;
     when (i <? DAMBUF_POOL)
       (upd_dma i (fun d => d <| d_ref := s32 (d_ref d + 1) |>);;
        when dec_flag (upd_dma i (fun d => d <| dec_ref := s32 (dec_ref d + 1) |>)))).

(** ** The free queue *)

Definition touch (o : option Z) : B unit :=
  match o with Some a => entry_at a;; mret tt | None => mret tt end.

(** [list_add_valid], then [list_add_tail]: a node that is the last one is
    refused, a node linked elsewhere would be linked twice.  The last node is
    written to. *)
Definition free_que_add (a : Z) : B unit :=
  q ← gets free_que;
  touch (last q);;
  if bool_decide (last q = Some a) then mret tt
  else if bool_decide (a ∈ q) then undef
  else
    modify (fun s => s <| free_que := q ++ [a] |> <| free_num := s32 (free_num s + 1) |>);;
    log Ev_wake_up_vdec.

(** [static void buf_core_free_que(bc, entry)] *)
Definition buf_core_free_que (a : Z) : B unit :=
  upd_entry a (fun e => e <| state := BUF_STATE_FREE |> <| holder := BUF_HOLDER_FREE |> <| ref_bit_map := 0 |>
                          <| inited := true |> <| queued_mask := 0 |>);;
  free_que_add a.

(** [list_for_each_entry_safe(entry, tmp, &bc->free_que, node) list_del(...)] *)
Fixpoint touch_all (l : list Z) : B unit :=
  match l with [] => mret tt | a :: l => entry_at a;; touch_all l end.

Definition free_que_clear : B unit :=
  q ← gets free_que; touch_all q;; modify (fun s => s <| free_que := [] |>).

(** [bc->prepare(bc, entry)] *)
Definition call_prepare (a : Z) : B unit :=
  match prepare with
  | Some f => log (Ev_prepare a);; modify (fun s => s <| entries := f a (entries s) |>)
  | None => undef
  end.

(** The sub entries follow their master. *)
Definition sub_use (u : buf_core_user) (o : option Z) : B unit :=
  match o with
  | Some b => upd_entry b (fun e => e <| user := u |> <| state := BUF_STATE_USE |>)
  | None => mret tt
  end.

(** [atomic_inc(&entry->ref)], [atomic_dec(&entry->ref)] *)
Definition ref_inc (a : Z) : B unit := upd_entry a (fun e => e <| ref := s32 (ref e + 1) |>).
Definition ref_dec (a : Z) : B unit := upd_entry a (fun e => e <| ref := s32 (ref e - 1) |>).

(** [buf_core_get(bc, user, &out_entry, more_ref)] *)
Definition buf_core_get (u : buf_core_user) : B (option Z) :=
  ok ← bc_sanity_check;
  q ← gets free_que;
  match ok, q with
  | true, a :: q =>
      entry_at a;; touch (head q);;
      modify (fun s => s <| free_que := q |> <| free_num := s32 (free_num s - 1) |>);;
      upd_entry a (fun e => e <| user := u |> <| state := BUF_STATE_USE |>);;
      ref_inc a;;
      e ← entry_at a; sub_use u (sub0 e);;
      e ← entry_at a; sub_use u (sub1 e);;
      when (bool_decide (is_Some prepare)) (call_prepare a);;
      buf_core_update_holder a u BUF_GET;;
      mret (Some a)
  | _, _ => mret None
  end.

(** [if (!atomic_dec_return(&entry->ref)) free_que else { REF; update_holder }] *)
Definition unref (a : Z) (u : buf_core_user) : B unit :=
  ref_dec a;;
  e ← entry_at a;
  if ref e =? 0 then buf_core_free_que a
  else
    upd_entry a (fun e => e <| state := BUF_STATE_REF |>);;
    buf_core_update_holder a u BUF_PUT.

(** [buf_core_put(bc, entry)] *)
Definition buf_core_put (a : Z) : B unit :=
  ok ← bc_sanity_check;
  when ok (ref_dec a).

(** [buf_core_get_ref(bc, entry)] *)
Definition buf_core_get_ref (a : Z) : B unit :=
  ok ← bc_sanity_check;
  when ok
    (upd_entry a (fun e => e <| state := BUF_STATE_REF |>);;
     ref_inc a;;
     buf_core_update_holder a BUF_USER_DEC BUF_GET).

(** [buf_core_put_ref(bc, entry)] *)
Definition buf_core_put_ref (a : Z) : B unit :=
  e ← entry_at a;
  ok ← bc_sanity_check;
  if (ref e =? 0) && negb ok then mret tt else unref a BUF_USER_DEC.

(** [int buf_core_done(bc, entry, user)] *)
Definition submit_vpp (a : Z) (u : buf_core_user) : B unit :=
  match vpp_dque with
  | None => mret tt
  | Some f =>
      e ← entry_at a;
      when (is_eq (get_next_user e u) BUF_USER_VSINK)
        (log (Ev_vpp_dque a);;
         when (f e =? 0)
           (ref_inc a;; buf_core_update_holder a BUF_USER_DI BUF_GET))
  end.

Definition buf_core_done (a : Z) (u : buf_core_user) : B Z :=
  ok ← bc_sanity_check;
  e ← entry_at a;
  if negb ok then mret 0
  else if negb (is_eq (state e) BUF_STATE_USE) && negb (is_eq (state e) BUF_STATE_REF)
       && negb (is_eq (state e) BUF_STATE_DONE) then mret (-1)
  else
    upd_entry a (fun e => e <| state := BUF_STATE_DONE |>);;
    submit_vpp a u;;
    log (Ev_output a u);;
    e ← entry_at a;
    mret (output e u).

(** The hand-over to the DI manager in [buf_core_fill]: whether the function
    goes on. *)
Definition fill_vpp_que (a : Z) (u : buf_core_user) : B bool :=
  match vpp_que with
  | Some f =>
      if negb dynamic_mode && is_eq u BUF_USER_VSINK then
        e ← entry_at a;
        log (Ev_vpp_que (key e) 0);;
        mret (if f (key e) 0 =? 0 then inited e else true)
      else mret true
  | None => mret true
  end.

(** [buf_core_fill(bc, entry, user)] *)
Definition buf_core_fill (a : Z) (u : buf_core_user) : B unit :=
  when has_external_process (log (Ev_external a));;
  ok ← bc_sanity_check;
  when ok
    (go ← fill_vpp_que a u;
     when go
       (e ← entry_at a;
        let m := match pair e, master_entry e with
                 | BUF_MASTER, _ | _, None => a
                 | _, Some m => m
                 end in
        e ← entry_at m;
        if negb (is_eq (state e) BUF_STATE_INIT) && negb (is_eq (state e) BUF_STATE_DONE)
           && negb (is_eq (state e) BUF_STATE_REF) then mret tt
        else unref m u)).

(** [buf_core_vpp_cb(bc, entry)] *)
Definition buf_core_vpp_cb (a : Z) : B unit :=
  e ← entry_at a;
  m ← (if is_eq (pair e) BUF_MASTER then mret a else of_option (master_entry e));
  unref m BUF_USER_DI.

Definition buf_core_ready_num : B Z :=
  ok ← bc_sanity_check; n ← gets free_num; mret (if (ok : bool) then n else 0).

Definition buf_core_empty : B bool :=
  ok ← bc_sanity_check; q ← gets free_que; mret (if (ok : bool) then bool_decide (q = []) else true).

(** ** Attaching, detaching, reset *)

(** [buf_core_destroy(kref)] *)
Definition buf_core_destroy : B unit :=
  free_que_clear;;
  modify (fun s => s <| free_num := 0 |> <| buf_num := 0 |> <| bc_state := BM_STATE_EXIT |>).

(** [kref_put(&bc->core_ref, buf_core_destroy)]; the count is positive. *)
Definition core_put : B unit :=
  r ← gets core_ref;
  if r <=? 0 then undef
  else modify (fun s => s <| core_ref := r - 1 |>);; when (r =? 1) buf_core_destroy.

(** [bc->mem_ops.free(bc, entry)] *)
Definition mem_free (a : Z) : B unit :=
  entry_at a;; log (Ev_free a);; modify (fun s => s <| entries := delete a (entries s) |>).

(** [entry->state = BUF_STATE_ERR; hash_del(...); bc->mem_ops.free(...)] *)
Definition entry_release (a : Z) : B unit :=
  upd_entry a (fun e => e <| state := BUF_STATE_ERR |>);;
  modify (fun s => s <| buf_table := filter (fun x => x ≠ a) (buf_table s) |>);;
  mem_free a.

(** The references of a master after a reset: its own and one per sub entry. *)
Definition reset_entry (e : buf_core_entry) : buf_core_entry :=
  let e := e <| user := BUF_USER_MAX |> <| state := BUF_STATE_INIT |> <| queued_mask := 0 |>
             <| inited := false |> <| set_buf_planes_flag := false |> in
  if is_eq (pair e) BUF_MASTER then
    e <| ref := 1 + b2z (bool_decide (is_Some (sub0 e))) + b2z (bool_decide (is_Some (sub1 e))) |>
  else e.

(** [hash_for_each_safe] with its body. *)
Fixpoint each (l : list Z) (body : Z → B unit) : B unit :=
  match l with [] => mret tt | a :: l => body a;; each l body end.

Definition reset_each (a : Z) : B unit :=
  if dynamic_mode then
    entry_release a;;
    modify (fun s => s <| buf_num := 0 |>);;
    core_put
  else upd_entry a reset_entry.

(** [buf_core_reset(bc)] *)
Definition buf_core_reset : B unit :=
  when has_vpp_reset (log Ev_vpp_reset);;
  modify (fun s => s <| workqueue_enabled := false |>);;
  free_que_clear;;
  when dynamic_mode buf_core_reset_dma;;
  l ← gets buf_table;
  each l reset_each;;
  modify (fun s => s <| free_num := 0 |> <| internal_num := 0 |>).

(** [buf_core_update_planes(bc)] *)
Definition buf_core_update_planes : B unit :=
  l ← gets buf_table;
  each l (fun a =>
    e ← entry_at a;
    when (set_buf_planes_flag e)
      (log (Ev_reconfigure a);; modify (fun s => s <| entries := reconfigure_planes a (entries s) |>))).

(** [hash_for_each_possible_safe(..., key) if (key == entry->key)] *)
Fixpoint find_key (l : list Z) (k : Z) : B (option Z) :=
  match l with
  | [] => mret None
  | a :: l => e ← entry_at a; if key e =? k then mret (Some a) else find_key l k
  end.

(** [if (!entry->dma_ref) ...] of a buffer in dma-buf mode. *)
Definition take_dma_buf (a : Z) : B unit :=
  e ← entry_at a;
  log (Ev_get_dma_buf (key e));;
  upd_entry a (fun e => e <| dma_ref := u32 (dma_ref e + 1) |>).

(** What [bc->mem_ops.alloc(bc, &entry, priv)] gives: an error, or the address
    and contents of a new entry. *)
Definition allocated : Type := Z + Z * buf_core_entry.

(** The search for the YUV memory of the buffer in the dynamic mode. *)
Definition announce_dma (k phy : Z) : B unit :=
  i ← pool_find (Z.to_nat DAMBUF_POOL) 0 (fun i =>
        if truth phy then d ← dma_at i; mret (phy =? d_phy_addr d) else mret false);
  when (i <? DAMBUF_POOL)
    (d ← dma_at i;
     match vpp_que with Some _ => log (Ev_vpp_que (d_dmabuf d) k) | None => undef end).

(** The new entry in [buf_core_attach]. *)
Definition attach_new (a : Z) (junk : buf_core_entry) (k phy priv : Z) : B unit :=
  modify (fun s => s <| entries := <[a := junk <| key := k |> <| phy_addr := phy |> <| vb2 := priv |>
    <| user := BUF_USER_MAX |> <| state := BUF_STATE_INIT |> <| ref := 1 |>]> (entries s) |>);;
  modify (fun s => s <| buf_table := a :: buf_table s |> <| bc_state := BM_STATE_ACTIVE |>
    <| buf_num := s32 (buf_num s + 1) |> <| core_ref := core_ref s + 1 |>);;
  when (negb dynamic_mode && is_dma_mode k phy) (take_dma_buf a).

(** [int buf_core_attach(bc, key, phy_addr, priv)] *)
Definition buf_core_attach (alloc : allocated) (k phy priv : Z) : B Z :=
  l ← gets buf_table;
  o ← find_key l k;
  match o with
  | Some a =>
      e ← entry_at a;
      when (negb dynamic_mode && is_dma_mode k phy && (dma_ref e =? 0)) (take_dma_buf a);;
      upd_entry a (fun e => e <| user := BUF_USER_MAX |> <| state := BUF_STATE_INIT |> <| vb2 := priv |>);;
      call_prepare a;;
      mret 0
  | None =>
      when dynamic_mode (announce_dma k phy);;
      match alloc with
      | inl err => mret err
      | inr (a, junk) => attach_new a junk k phy priv;; mret 0
      end
  end.

(** [buf_core_detach(bc, key)] *)
Definition buf_core_detach (k : Z) : B unit :=
  l ← gets buf_table;
  o ← find_key l k;
  match o with Some a => entry_release a;; core_put | None => mret tt end.

(** [buf_core_put_dma(bc)] *)
Definition buf_core_put_dma : B unit :=
  l ← gets buf_table;
  each l (fun a =>
    e ← entry_at a;
    when (is_dma_mode (key e) (phy_addr e) && truth (dma_ref e))
      (upd_entry a (fun e => e <| dma_ref := u32 (dma_ref e - 1) |>);;
       log (Ev_dma_buf_put (key e)))).

(** [buf_core_update(bc, entry, phy_addr, pair)] *)
Definition buf_core_update (a phy : Z) (p : buf_pair) : B unit :=
  upd_entry a (fun e => e <| phy_addr := phy |> <| pair := p |>);; call_prepare a.

(** [buf_core_replace(bc, entry, priv)] *)
Definition buf_core_replace (a priv : Z) : B unit :=
  upd_entry a (fun e => e <| vb2 := priv |> <| user := BUF_USER_MAX |> <| state := BUF_STATE_INIT |>);;
  call_prepare a.

(** [buf_core_check_in_table(bc, key)] *)
Definition buf_core_check_in_table (k : Z) : B bool :=
  l ← gets buf_table; o ← find_key l k; mret (bool_decide (is_Some o)).

(** ** Internal buffers of the AVBC mode *)

Fixpoint avbcd_find (n : nat) (i : Z) (test : option Z → B bool) : B Z :=
  match n with
  | O => mret i
  | S n => l ← gets avbcd; x ← of_option (aget l i); b ← test x;
           if (b : bool) then mret i else avbcd_find n (i + 1) test
  end.

(** [bc->entry[i] && !bc->entry[i]->inited] *)
Definition avbcd_idle (x : option Z) : B bool :=
  match x with Some a => e ← entry_at a; mret (negb (inited e)) | None => mret false end.

Definition set_inited (b : bool) (a : Z) : B unit := upd_entry a (fun e => e <| inited := b |>).

(** The entry and the index [i] of the search. *)
Definition avbcd_pick (alloc : allocated) : B (Z + Z * Z) :=
  i ← avbcd_find (Z.to_nat AVBC_BUFFER_NUM) 0 avbcd_idle;
  if i <? AVBC_BUFFER_NUM then
    l ← gets avbcd; x ← of_option (aget l i); a ← of_option x;
    set_inited true a;; mret (inr (a, i))
  else
    match alloc with
    | inl err => mret (inl err)
    | inr (a, junk) =>
        modify (fun s => s <| entries := <[a := junk]> (entries s) |>);;
        i ← avbcd_find (Z.to_nat AVBC_BUFFER_NUM) 0 (fun x => mret (bool_decide (x = None)));
        when (i <? AVBC_BUFFER_NUM)
          (l ← gets avbcd; l ← of_option (aset l i (Some a));
           modify (fun s => s <| avbcd := l |>);; set_inited true a);;
        mret (inr (a, i))
    end.

(** [buf_core_alloc_avbcd_buf(bc, &out_entry)] *)
Definition buf_core_alloc_avbcd_buf (alloc : allocated) : B (option Z) :=
  r ← avbcd_pick alloc;
  match r with
  | inl _ => mret None
  | inr (a, i) =>
      upd_entry a (fun e => e <| user := BUF_USER_DEC |> <| state := BUF_STATE_USE |> <| index := i |>);;
      modify (fun s => s <| bc_state := BM_STATE_ACTIVE |> <| internal_num := s32 (internal_num s + 1) |>);;
      when (bool_decide (is_Some prepare)) (call_prepare a);;
      mret (Some a)
  end.

Fixpoint each_avbcd (l : list (option Z)) (body : Z → B unit) : B unit :=
  match l with
  | [] => mret tt
  | Some a :: l => body a;; each_avbcd l body
  | None :: l => each_avbcd l body
  end.

(** [buf_core_release_avbcd_buf(bc)]: the pointers stay in the array. *)
Definition buf_core_release_avbcd_buf : B unit :=
  l ← gets avbcd;
  each_avbcd l (fun a => upd_entry a (fun e => e <| state := BUF_STATE_ERR |>);; mem_free a).

(** [buf_core_reset_avbcd_buf(bc)] *)
Definition buf_core_reset_avbcd_buf : B unit :=
  l ← gets avbcd;
  each_avbcd l (fun a => e ← entry_at a; when (inited e) (set_inited false a)).

(** ** Life of the manager *)

(** [int buf_core_mgr_init(bc)]; [mandatory]: the mandatory function pointers
    are set, [wq]: the work queue could be created. *)
Definition buf_core_mgr_init (mandatory wq : bool) : B Z :=
  if negb mandatory then mret (-1)
  else
    modify (fun s => s <| buf_table := [] |> <| free_que := [] |> <| dma_free_que := [] |> <| core_ref := 1 |>);;
    if negb wq then mret (-1)
    else
      modify (fun s => s <| free_num := 0 |> <| buf_num := 0 |> <| bc_state := BM_STATE_INIT |>);;
      mret 0.

(** [buf_core_mgr_release(bc)] *)
Definition buf_core_mgr_release : B unit :=
  modify (fun s => s <| workqueue_enabled := false |>);; core_put.

End Operations.
