(* ===== verification/BufHolder.v ===== *)
(** Who holds a buffer: the counters in [ref_bit_map]
    (src/drivers/amvdec_ports/aml_buf_core.c, [direction_buf_get] and
    [direction_buf_put]).

    The map packs five counters of four bits.  As long as no counter leaves
    its range, adding and subtracting the bits of the users is counting. *)

From stdpp Require Import base list numbers gmap.
From Stdlib Require Import ZArith Lia Bool.
From S2P Require Import Prelude.
From S2P Require Import BufCore.

#[local] Open Scope Z_scope.

(** The references of the decoder, GE2D, VPP, the sink and DI. *)
Record counters := mk_counters { c_dec : Z; c_ge2d : Z; c_vpp : Z; c_vsink : Z; c_di : Z }.

#[export] Instance eta_counters : Settable counters := fun r =>
  mk_counters (c_dec r) (c_ge2d r) (c_vpp r) (c_vsink r) (c_di r).

Definition nibble (x : Z) : Prop := 0 ≤ x < 16.

Definition counters_ok (c : counters) : Prop :=
  nibble (c_dec c) ∧ nibble (c_ge2d c) ∧ nibble (c_vpp c) ∧ nibble (c_vsink c) ∧ nibble (c_di c).

(** The layout of [ref_bit_map]. *)
Definition packed (c : counters) : Z :=
  c_dec c + 16 * c_ge2d c + 256 * c_vpp c + 4096 * c_vsink c + 65536 * c_di c.

(** A user takes the buffer over from the user in front of it. *)
Definition count_get (u pre : buf_core_user) (c : counters) : counters :=
  let drop_pre c := match pre with
    | BUF_USER_DEC => c <| c_dec := c_dec c - 1 |>
    | BUF_USER_GE2D => c <| c_ge2d := c_ge2d c - 1 |>
    | _ => c
    end in
  match u with
  | BUF_USER_DEC => c <| c_dec := c_dec c + 1 |>
  | BUF_USER_VPP => drop_pre (c <| c_vpp := c_vpp c + 1 |>)
  | BUF_USER_GE2D => c <| c_ge2d := c_ge2d c + 1 |> <| c_dec := c_dec c - 1 |>
  | BUF_USER_VSINK =>
      let c := c <| c_vsink := c_vsink c + 1 |> in
      match pre with BUF_USER_VPP => c <| c_vpp := c_vpp c - 1 |> | _ => drop_pre c end
  | BUF_USER_DI => c <| c_di := c_di c + 1 |>
  | _ => c
  end.

(** A user gives its reference up. *)
Definition count_put (u : buf_core_user) (c : counters) : counters :=
  match u with
  | BUF_USER_DEC => c <| c_dec := Z.max 0 (c_dec c - 1) |>
  | BUF_USER_VPP => c <| c_vpp := c_vpp c - 1 |>
  | BUF_USER_GE2D => c <| c_ge2d := c_ge2d c - 1 |>
  | BUF_USER_VSINK => c <| c_vsink := c_vsink c - 1 |>
  | BUF_USER_DI => c <| c_di := c_di c - 1 |>
  | _ => c
  end.

(** The counter of a holder; nobody counts for the free queue. *)
Definition count_of (h : buf_core_holder) (c : counters) : Z :=
  match h with
  | BUF_HOLDER_DEC => c_dec c
  | BUF_HOLDER_GE2D => c_ge2d c
  | BUF_HOLDER_VPP => c_vpp c
  | BUF_HOLDER_VSINK => c_vsink c
  | BUF_HOLDER_DI => c_di c
  | BUF_HOLDER_FREE => 0
  end.

(** Bits [k .. k+3] of a number. *)
Lemma land_nibble m k : 0 ≤ m → 0 ≤ k → Z.land m (Z.shiftl 15 k) = (m / 2 ^ k) mod 16 * 2 ^ k.
Proof.
  intros Hm Hk. rewrite <- Z.shiftl_mul_pow2, <- Z.shiftr_div_pow2 by done.
  change 16 with (2 ^ 4). rewrite <- Z.land_ones by lia. apply Z.bits_inj'. intros n Hn.
  rewrite Z.land_spec, !Z.shiftl_spec by done. change 15 with (Z.ones 4).
  destruct (Z.ltb_spec n k).
  - rewrite !(Z.testbit_neg_r _ (n - k)) by lia. by rewrite andb_false_r.
  - rewrite Z.land_spec, Z.shiftr_spec by lia. by replace (n - k + k) with n by lia.
Qed.

Lemma packed_range c : counters_ok c → 0 ≤ packed c < 2 ^ 32.
Proof. unfold counters_ok, nibble, packed. cbn. lia. Qed.

Lemma packed_u32 c : counters_ok c → u32 (packed c) = packed c.
Proof. intros Hc. apply u32_id. by apply packed_range. Qed.

Lemma truth_land_nibble m k x : 0 ≤ m → 0 ≤ k → (m / 2 ^ k) mod 16 = x → truth (Z.land m (Z.shiftl 15 k)) = negb (x =? 0).
Proof.
  intros Hm Hk Hx. rewrite land_nibble, Hx by done. unfold truth. f_equal.
  pose proof (Z.pow_pos_nonneg 2 k ltac:(lia) Hk). apply eq_bool_prop_intro.
  rewrite !Is_true_true, !Z.eqb_eq. nia.
Qed.

(** The masks select the counters. *)
Lemma masks_spec c : counters_ok c →
  truth (Z.land (packed c) DEC_MASK) = negb (c_dec c =? 0) ∧
  truth (Z.land (packed c) GE2D_MASK) = negb (c_ge2d c =? 0) ∧
  truth (Z.land (packed c) VPP_MASK) = negb (c_vpp c =? 0) ∧
  truth (Z.land (packed c) VSINK_MASK) = negb (c_vsink c =? 0) ∧
  truth (Z.land (packed c) DI_MASK) = negb (c_di c =? 0).
Proof.
  intros Hc. pose proof (packed_range c Hc). unfold counters_ok, nibble in Hc.
  change DEC_MASK with (Z.shiftl 15 0). change GE2D_MASK with (Z.shiftl 15 4). change VPP_MASK with (Z.shiftl 15 8).
  change VSINK_MASK with (Z.shiftl 15 12). change DI_MASK with (Z.shiftl 15 16).
  repeat split; apply truth_land_nibble; try lia; unfold packed in *; cbn -[Z.mul Z.add Z.div Z.modulo] in *;
    Z.to_euclidean_division_equations; lia.
Qed.

Section Holders.
Context `{BufCallbacks}.

Ltac bit_values :=
  change DEC_BIT with 1; change GE2D_BIT with 16; change VPP_BIT with 256; change VSINK_BIT with 4096;
  change DI_BIT with 65536.

(** The bits of the map after [direction_buf_get], for a known predecessor. *)
Lemma get_map e u c pre :
  ref_bit_map e = packed c → (∀ e', key e' = key e → get_pre_user e' u = pre) → counters_ok c →
  counters_ok (count_get u pre c) → ref_bit_map (direction_buf_get e u) = packed (count_get u pre c).
Proof.
  intros Hm Hpre Hc Hc'. rewrite <- (packed_u32 _ Hc').
  destruct u; cbn [direction_buf_get count_get]; try (rewrite Hm; symmetry; by apply packed_u32);
    rewrite ?Hpre by done; try destruct pre; unfold map_add, map_sub, is_eq; repeat (case_bool_decide; try done);
    cbn; rewrite Hm, ?u32_sub_l, ?u32_add_l;
    unfold packed; bit_values; cbn -[Z.mul Z.add Z.sub]; f_equal; lia.
Qed.

(** A map that packs [c], and a holder kept or one that counts. *)
Definition settles (c : counters) (h : buf_core_holder) (e : buf_core_entry) : Prop :=
  ref_bit_map e = packed c ∧ (holder e = h ∨ count_of (holder e) c ≠ 0).

Lemma settles_hold_if c h e mask h' : truth (Z.land (packed c) mask) = negb (count_of h' c =? 0) →
  settles c h e → settles c h (hold_if mask h' e).
Proof.
  intros Ht [Hm Hh]. unfold hold_if. rewrite Hm, Ht. destruct (Z.eqb_spec (count_of h' c) 0); cbn; split; cbn; auto.
Qed.

Lemma settles_if c h e mask h' y : truth (Z.land (packed c) mask) = negb (count_of h' c =? 0) →
  ref_bit_map e = packed c → settles c h y →
  settles c h (if truth (Z.land (ref_bit_map e) mask) then e <| holder := h' |> else y).
Proof.
  intros Ht Hm Hy. rewrite Hm, Ht. destruct (Z.eqb_spec (count_of h' c) 0); cbn; [done|]. split; cbn; auto.
Qed.

Lemma settles_sub c c' b e : ref_bit_map e = packed c → counters_ok c' → packed c - b = packed c' →
  settles c' (holder e) (map_sub b e).
Proof.
  intros Hm Hc' Hb. unfold map_sub. split; cbn; [|by left]. rewrite Hm, Hb. by apply packed_u32.
Qed.

(** After [direction_buf_put]: GE2D falls back to the decoder in any case. *)
Lemma put_map e u c :
  ref_bit_map e = packed c → counters_ok c → counters_ok (count_put u c) → u ≠ BUF_USER_GE2D →
  settles (count_put u c) (holder e) (direction_buf_put e u).
Proof.
  intros Hm Hc Hc' Hu. destruct (masks_spec _ Hc') as (Hd & Hg & Hv & Hs & Hi).
  destruct u; cbn [direction_buf_put count_put] in *; try (split; [done|by left]).
  - repeat apply settles_hold_if; try done. rewrite Hm. destruct (masks_spec c Hc) as (-> & _).
    unfold counters_ok, nibble in Hc. destruct (Z.eqb_spec (c_dec c) 0) as [E|E]; cbn [negb].
    + split; [rewrite Hm|by left]. unfold packed; cbn -[Z.mul Z.add Z.max]. lia.
    + eapply settles_sub; [done..|]. unfold packed; bit_values; cbn -[Z.mul Z.add Z.max]. lia.
  - assert (settles (c <| c_vpp := c_vpp c - 1 |>) (holder e) (map_sub VPP_BIT e)) as Hx.
    { eapply settles_sub; [done..|]. unfold packed; bit_values; cbn -[Z.mul Z.add]. lia. }
    apply settles_if; [done|apply Hx|]. by repeat apply settles_hold_if.
  - assert (settles (c <| c_vsink := c_vsink c - 1 |>) (holder e) (hold_if DEC_MASK BUF_HOLDER_DEC (map_sub VSINK_BIT e))) as Hx.
    { apply settles_hold_if; [done|]. eapply settles_sub; [done..|]. unfold packed; bit_values; cbn -[Z.mul Z.add]. lia. }
    apply settles_if; [done|apply Hx|]. by apply settles_hold_if.
  - eapply settles_sub; [done..|]. unfold packed; bit_values; cbn -[Z.mul Z.add]. lia.
Qed.

(** [ref_bit_map] counts the references: as long as no counter leaves its
    four bits, taking a buffer over adds one for the user and takes one from
    the user in front of it, and giving it up takes one back, without
    disturbing the other counters.  A user that gets a buffer becomes its
    holder (DI does not); after a put the holder is the old one or one that
    still counts, except that GE2D always falls back to itself or the
    decoder. *)
Theorem update_holder_counters e u c pre :
  ref_bit_map e = packed c → counters_ok c → (∀ e', key e' = key e → get_pre_user e' u = pre) →
  (counters_ok (count_get u pre c) →
     ref_bit_map (direction_buf_get e u) = packed (count_get u pre c) ∧
     (holder (direction_buf_get e u) = match u with
        | BUF_USER_DEC => BUF_HOLDER_DEC | BUF_USER_VPP => BUF_HOLDER_VPP | BUF_USER_GE2D => BUF_HOLDER_GE2D
        | BUF_USER_VSINK => BUF_HOLDER_VSINK | _ => holder e end)) ∧
  (counters_ok (count_put u c) →
     let e' := direction_buf_put e u in
     ref_bit_map e' = packed (count_put u c) ∧
     (holder e' = holder e ∨ count_of (holder e') (count_put u c) ≠ 0 ∨
      u = BUF_USER_GE2D ∧ holder e' = BUF_HOLDER_DEC)).
Proof.
  intros Hm Hc Hpre. split.
  - intros Hc'. split; [by apply get_map|]. destruct u; cbn [direction_buf_get]; try done;
      rewrite ?Hpre by done; unfold is_eq; by destruct pre.
  - intros Hc' e'. destruct (decide (u = BUF_USER_GE2D)) as [->|Hu].
    + subst e'. cbn [direction_buf_put count_put] in *. destruct (masks_spec _ Hc') as (_ & Hg & _).
      destruct (settles_sub c _ GE2D_BIT e Hm Hc') as [Hx _].
      { unfold packed; bit_values; cbn -[Z.mul Z.add]. lia. }
      rewrite Hx, Hg. cbn -[Z.sub]. destruct (Z.eqb_spec (c_ge2d c - 1) 0) as [E|E]; cbn -[Z.sub]; (split; [done|]); auto.
    + destruct (put_map e u c Hm Hc Hc' Hu) as [H1 H2]. split; [done|]. destruct H2; auto.
Qed.

End Holders.

(** A buffer manager whose callbacks change nothing: the decoder feeds the
    sink directly. *)
Definition plain_callbacks (dynamic : bool) : BufCallbacks := {|
  dynamic_mode := dynamic;
  prepare := Some (λ _ m, m);
  reconfigure_planes := λ _ m, m;
  has_external_process := true;
  has_vpp_reset := false;
  get_pre_user := λ _ _, BUF_USER_DEC;
  get_next_user := λ _ _, BUF_USER_VSINK;
  vpp_que := Some (λ _ _, -1);
  vpp_dque := None;
  output := λ _ _, 0
|}.

Definition sample_entry : buf_core_entry :=
  mk_entry 7000 8000 1 0 BUF_STATE_USE BUF_USER_DEC BUF_HOLDER_DEC 0 2 None None None BUF_MASTER 0 false 0 false.

Lemma update_holder_counters_witness :
  let H := plain_callbacks false in
  let c := mk_counters 2 0 0 0 0 in
  (counters_ok (count_get BUF_USER_VSINK BUF_USER_DEC c) →
     ref_bit_map (direction_buf_get sample_entry BUF_USER_VSINK) = packed (count_get BUF_USER_VSINK BUF_USER_DEC c) ∧
     (holder (direction_buf_get sample_entry BUF_USER_VSINK) = BUF_HOLDER_VSINK)) ∧
  (counters_ok (count_put BUF_USER_VSINK c) →
     let e' := direction_buf_put sample_entry BUF_USER_VSINK in
     ref_bit_map e' = packed (count_put BUF_USER_VSINK c) ∧
     (holder e' = holder sample_entry ∨ count_of (holder e') (count_put BUF_USER_VSINK c) ≠ 0 ∨
      BUF_USER_VSINK = BUF_USER_GE2D ∧ holder e' = BUF_HOLDER_DEC)).
Proof.
  apply (@update_holder_counters (plain_callbacks false) sample_entry BUF_USER_VSINK (mk_counters 2 0 0 0 0) BUF_USER_DEC).
  - done.
  - repeat split; cbn; lia.
  - done.
Defined.
