(* ===== verification/BufPool.v ===== *)
(** The pool of YUV memories of the dynamic mode
    (src/drivers/amvdec_ports/aml_buf_core.c, the functions with dma in their
    names): the invariant [pool_ok] and that every operation keeps it and
    leaves the buffers alone.

    A memory in the free queue has no reference; the references of the decoder
    are among those of the memory. *)

From stdpp Require Import base list numbers gmap.
From Stdlib Require Import ZArith Lia Bool.
From S2P Require Import Prelude.
From S2P Require Import BufCore.

#[local] Open Scope Z_scope.

Record pool_ok (l : list dma_slot) (q : list Z) (n : Z) : Prop := {
  po_len : zlen l = 32;
  po_all : ∀ i, 0 ≤ i < 32 → ∃ d, aget l i = Some (Slot_dma d);
  po_que : NoDup q;
  po_num : n = zlen q;
  po_free : ∀ i, i ∈ q → ∃ d, aget l i = Some (Slot_dma d) ∧ d_ref d = 0;
  po_ref : ∀ i d, aget l i = Some (Slot_dma d) → 0 ≤ dec_ref d ≤ d_ref d ∧ d_ref d < 2 ^ 31 ∧ 0 ≤ d_dma_ref d
}.

(** A memory whose references are in order. *)
Definition refs_ok (d : buf_core_dma) : Prop := 0 ≤ dec_ref d ≤ d_ref d ∧ d_ref d < 2 ^ 31 ∧ 0 ≤ d_dma_ref d.

(** *** Changing one element *)

Lemma slot_index l q n i d : pool_ok l q n → aget l i = Some (Slot_dma d) → 0 ≤ i < 32.
Proof. intros Hp Hi. rewrite <- (po_len _ _ _ Hp). by apply aget_inv in Hi as [? _]. Qed.

(** The queue is no longer than the pool. *)
Lemma que_indices l q n : pool_ok l q n → q ⊆ seqZ 0 32.
Proof.
  intros Hp j Hj. apply elem_of_seqZ. destruct (po_free _ _ _ Hp j Hj) as (d & Hd & _).
  pose proof (slot_index _ _ _ _ _ Hp Hd). lia.
Qed.

Lemma que_len l q n : pool_ok l q n → zlen q ≤ 32.
Proof.
  intros Hp. pose proof (submseteq_length _ _ (NoDup_submseteq _ _ (po_que _ _ _ Hp) (que_indices _ _ _ Hp))) as Hl.
  rewrite length_seqZ in Hl. unfold zlen. lia.
Qed.

Lemma dma_room l q n i : pool_ok l q n → 0 ≤ i < 32 → i ∉ q → zlen q + 1 ≤ 32.
Proof.
  intros Hp Hi Hq. assert (length (i :: q) ≤ length (seqZ 0 32))%nat as Hl.
  - apply submseteq_length, NoDup_submseteq; [constructor; [done|apply Hp]|].
    intros j [->|Hj]%elem_of_cons; [apply elem_of_seqZ; lia|by eapply que_indices].
  - rewrite length_seqZ in Hl. unfold zlen. cbn in Hl. lia.
Qed.

Lemma pool_update l q q' n n' i d d' : pool_ok l q n → aget l i = Some (Slot_dma d) → refs_ok d' →
  NoDup q' → n' = zlen q' → (∀ j, j ≠ i → j ∈ q' → j ∈ q) → (i ∈ q' → d_ref d' = 0) →
  pool_ok (<[Z.to_nat i := Slot_dma d']> l) q' n'.
Proof.
  intros Hp Hi Hr Hnd Hn Hother Hself. pose proof (slot_index _ _ _ _ _ Hp Hi). destruct Hp as [H1 H2 H3 H4 H5 H6].
  assert (∀ j, j ≠ i → aget (<[Z.to_nat i := Slot_dma d']> l) j = aget l j) as Hne by (intros; apply aget_insert_ne; lia).
  assert (aget (<[Z.to_nat i := Slot_dma d']> l) i = Some (Slot_dma d')) as Heq by (apply aget_insert; lia).
  split; try done.
  - by rewrite zlen_insert.
  - intros j Hj. destruct (decide (j = i)) as [->|?]; [by eexists|rewrite Hne by done; by apply H2].
  - intros j Hj. destruct (decide (j = i)) as [->|?]; [by eauto|rewrite Hne by done; by eauto].
  - intros j x. destruct (decide (j = i)) as [->|?]; [rewrite Heq; by intros [= <-]|rewrite Hne by done; apply H6].
Qed.

(** The queue stays. *)
Lemma pool_set l q n i d d' : pool_ok l q n → aget l i = Some (Slot_dma d) → refs_ok d' →
  (i ∈ q → d_ref d' = 0) → pool_ok (<[Z.to_nat i := Slot_dma d']> l) q n.
Proof. intros Hp Hi Hr Hq. eapply pool_update; try done; apply Hp. Qed.

(** A referenced memory is not in the queue. *)
Lemma dma_not_queued l q n i d : pool_ok l q n → aget l i = Some (Slot_dma d) → 1 ≤ d_ref d → i ∉ q.
Proof. intros Hp Hi Hr Hq. destruct (po_free _ _ _ Hp i Hq) as (x & Hx & ?). replace x with d in * by congruence. lia. Qed.

(** The last reference puts the memory into the queue. *)
Lemma pool_put l q n i d d' : pool_ok l q n → aget l i = Some (Slot_dma d) → 1 ≤ d_ref d → d_ref d' = d_ref d - 1 →
  refs_ok d' →
  pool_ok (<[Z.to_nat i := Slot_dma d']> l) (if d_ref d =? 1 then q ++ [i] else q) (if d_ref d =? 1 then n + 1 else n).
Proof.
  intros Hp Hi Hr Hd Hok. pose proof (dma_not_queued _ _ _ _ _ Hp Hi Hr) as Hq. destruct (Z.eqb_spec (d_ref d) 1) as [E|E].
  - eapply pool_update; [done|done|done| | | |].
    + apply NoDup_app. split; [apply Hp|]. split; [|apply NoDup_singleton]. by intros j Hj ->%list_elem_of_singleton.
    + rewrite (po_num _ _ _ Hp), zlen_app. done.
    + intros j Hj. rewrite elem_of_app, list_elem_of_singleton. by intros [?| ->].
    + lia.
  - eapply pool_set; [done|done|done|]. done.
Qed.

(** *** Rules *)

(** The operations on the pool leave the buffers alone. *)
Definition pframe (s s' : buf_core_mgr_s) : Prop :=
  bc_state s' = bc_state s ∧ core_ref s' = core_ref s ∧ free_num s' = free_num s ∧ free_que s' = free_que s ∧
  buf_table s' = buf_table s ∧ entries s' = entries s.

Lemma pframe_refl s : pframe s s.
Proof. by repeat split. Qed.

Lemma pframe_trans s1 s2 s3 : pframe s1 s2 → pframe s2 s3 → pframe s1 s3.
Proof. unfold pframe. intuition congruence. Qed.

Definition pool_inv (s : buf_core_mgr_s) : Prop := pool_ok (dma s) (dma_free_que s) (dma_free_num s).

Section Pool.
Context `{BufCallbacks}.

Lemma wp_dma_at i d s (Q : buf_core_dma → buf_core_mgr_s → Prop) E : aget (dma s) i = Some (Slot_dma d) → Q d s →
  wp False (dma_at i) Q E s.
Proof. intros Hi HQ. unfold dma_at. wp_step. wp_step. wp_step. rewrite Hi. cbn [of_option]. wp_step. by wp_step. Qed.

Lemma wp_upd_dma i g d s (Q : unit → buf_core_mgr_s → Prop) E : aget (dma s) i = Some (Slot_dma d) →
  (∀ s', dma s' = <[Z.to_nat i := Slot_dma (g d)]> (dma s) → dma_free_que s' = dma_free_que s →
     dma_free_num s' = dma_free_num s → pframe s s' → Q tt s') →
  wp False (upd_dma i g) Q E s.
Proof.
  intros Hi HQ. unfold upd_dma. wp_step. eapply wp_dma_at; [exact Hi|]. wp_step. wp_step. wp_step.
  rewrite aset_Some by (by apply aget_inv in Hi as [? _]). cbn [of_option]. wp_step. wp_step. by apply HQ.
Qed.

Lemma wp_pool_find n lo (body : Z → B bool) (R : Z → Prop) s (Q : Z → buf_core_mgr_s → Prop) E :
  (∀ i, lo ≤ i < lo + Z.of_nat n → wp False (body i) (fun b s' => s' = s ∧ (b = true → R i)) E s) →
  (∀ j, lo ≤ j ≤ lo + Z.of_nat n → (j < lo + Z.of_nat n → R j) → Q j s) →
  wp False (pool_find n lo body) Q E s.
Proof.
  revert lo. induction n as [|n IH]; intros lo Hb HQ; cbn [pool_find].
  - wp_step. apply HQ; lia.
  - wp_step. eapply wp_mono; [apply Hb; lia| |done]. intros b s' [-> HR]. destruct b.
    + wp_step. apply HQ; [lia|]. intros _. by apply HR.
    + apply IH.
      * intros i Hi. apply Hb. lia.
      * intros j Hj Hj'. apply HQ; [lia|]. intros ?. apply Hj'. lia.
Qed.

(** Every element of the pool. *)
Lemma wp_pool_range (body : Z → B unit) s (Q : unit → buf_core_mgr_s → Prop) E :
  pool_inv s →
  (∀ i d s', aget (dma s') i = Some (Slot_dma d) → pool_inv s' → 0 ≤ i < 32 →
     (∀ j, i ≤ j → aget (dma s') j = aget (dma s) j) →
     wp False (body i) (fun _ s'' => pool_inv s'' ∧ pframe s' s'' ∧ ∀ j, i < j → aget (dma s'') j = aget (dma s') j) E s') →
  (∀ s', pool_inv s' → pframe s s' → Q tt s') →
  wp False (for_range 0 DAMBUF_POOL body) Q E s.
Proof.
  intros Hs Hb HQ.
  apply (wp_for_range _ _ _ (fun i s' => pool_inv s' ∧ pframe s s' ∧ ∀ j, i ≤ j → aget (dma s') j = aget (dma s) j)).
  - done.
  - intros i s' Hi (Hs' & Hf & Hsame). destruct (po_all _ _ _ Hs' i Hi) as [d Hd].
    eapply wp_mono; [apply (Hb i d s'); by auto| |done]. intros _ s'' (? & ? & Hj). split; [done|].
    split; [by eapply pframe_trans|]. intros j Hij. rewrite Hj by lia. apply Hsame. lia.
  - intros s' (? & ? & _). by apply HQ.
Qed.

(** [dma_unref] on its own may leave more references of the decoder than
    references; what follows it repairs that. *)
Lemma wp_dma_unref i d s (Q : unit → buf_core_mgr_s → Prop) E : pool_inv s → aget (dma s) i = Some (Slot_dma d) →
  1 ≤ d_ref d →
  (∀ s', dma s' = <[Z.to_nat i := Slot_dma (d <| d_ref := d_ref d - 1 |>)]> (dma s) →
     dma_free_que s' = (if d_ref d =? 1 then dma_free_que s ++ [i] else dma_free_que s) →
     dma_free_num s' = (if d_ref d =? 1 then dma_free_num s + 1 else dma_free_num s) →
     pframe s s' → Q tt s') →
  wp False (dma_unref i) Q E s.
Proof.
  intros Hs Hi Hr HQ. destruct (po_ref _ _ _ Hs _ _ Hi) as (Hdec & Hlt & _). pose proof (slot_index _ _ _ _ _ Hs Hi) as Hb.
  pose proof (dma_not_queued _ _ _ _ _ Hs Hi Hr) as Hq. unfold dma_unref. wp_step. eapply wp_upd_dma; [exact Hi|].
  rewrite s32_id by lia. intros s1 E1 E2 E3 F1. wp_step.
  eapply wp_dma_at; [rewrite E1; apply aget_insert; by rewrite (po_len _ _ _ Hs)|]. cbn -[Z.sub]. wp_step; bprop.
  - unfold dma_enqueue. wp_step. wp_step. wp_step; [apply bool_decide_eq_true in H1; by rewrite E2 in H1|]. wp_step.
    assert (d_ref d = 1) as Ed by lia. rewrite Ed in HQ, E1. apply HQ; [exact E1| | |unfold pframe in *; cbn; intuition congruence].
    + cbn. by rewrite E2.
    + cbn -[s32]. rewrite E3, (po_num _ _ _ Hs). pose proof (dma_room _ _ _ _ Hs Hb Hq). pose proof (zlen_nonneg (dma_free_que s)).
      apply s32_id. lia.
  - apply HQ; rewrite ?(proj2 (Z.eqb_neq (d_ref d) 1)) by lia; done.
Qed.

(** *** The operations *)

(** The operation runs, keeps the invariant and leaves the buffers alone. *)
Definition pool_step {A} (m : B A) (s : buf_core_mgr_s) : Prop :=
  wp False m (fun _ s' => (dynamic_mode = true → pool_inv s') ∧ pframe s s') (fun _ _ => False) s.

(** An update of one element that keeps its references. *)
Lemma wp_upd_refs i g d s (Q : unit → buf_core_mgr_s → Prop) E : pool_inv s → aget (dma s) i = Some (Slot_dma d) →
  refs_ok (g d) → (d_ref (g d) = d_ref d ∨ d_ref (g d) = 0 ∨ i ∉ dma_free_que s) →
  (∀ s', pool_inv s' → pframe s s' → aget (dma s') i = Some (Slot_dma (g d)) → dma_free_que s' = dma_free_que s →
     (∀ j, j ≠ i → aget (dma s') j = aget (dma s) j) → Q tt s') →
  wp False (upd_dma i g) Q E s.
Proof.
  intros Hs Hi Hr Hd HQ. pose proof (slot_index _ _ _ _ _ Hs Hi) as Hb. eapply wp_upd_dma; [exact Hi|].
  intros s' E1 E2 E3 F. apply HQ; [|done| |done|].
  - unfold pool_inv. rewrite E1, E2, E3. eapply pool_set; [done|done|done|]. intros Hq. destruct Hd as [->|[?|?]]; [|done..].
    destruct (po_free _ _ _ Hs _ Hq) as (x & Hx & Hz). by replace d with x by congruence.
  - rewrite E1. apply aget_insert. by rewrite (po_len _ _ _ Hs).
  - intros j Hj. rewrite E1. apply aget_insert_ne; lia.
Qed.

(** [dma_unref] followed by an update of the rest of the memory. *)
Lemma wp_unref_then i g d s (Q : unit → buf_core_mgr_s → Prop) E : pool_inv s → aget (dma s) i = Some (Slot_dma d) →
  1 ≤ d_ref d → refs_ok (g (d <| d_ref := d_ref d - 1 |>)) → d_ref (g (d <| d_ref := d_ref d - 1 |>)) = d_ref d - 1 →
  (∀ s', pool_inv s' → pframe s s' → (∀ j, j ≠ i → aget (dma s') j = aget (dma s) j) → Q tt s') →
  wp False (dma_unref i;; upd_dma i g) Q E s.
Proof.
  intros Hs Hi Hr Hok Hd HQ. pose proof (slot_index _ _ _ _ _ Hs Hi) as Hb. wp_step.
  eapply wp_dma_unref; [done|exact Hi|done|]. intros s1 E1 E2 E3 F1.
  eapply wp_upd_dma; [rewrite E1; apply aget_insert; by rewrite (po_len _ _ _ Hs)|]. intros s2 G1 G2 G3 F2.
  rewrite E1, list_insert_insert_eq in G1. apply HQ.
  - unfold pool_inv. rewrite G1, G2, G3, E2, E3. by eapply pool_put.
  - by eapply pframe_trans.
  - intros j Hj. rewrite G1. apply aget_insert_ne; lia.
Qed.

Lemma get_free_step s : (dynamic_mode = true → pool_inv s) → pool_step buf_core_get_free_dmabuf s.
Proof.
  intros Hs. unfold pool_step, buf_core_get_free_dmabuf. wp_step; [|wp_step; by split]. specialize (Hs H0).
  wp_step. wp_step. destruct (dma_free_que s) as [|i q] eqn:Hq; [wp_step; by split|].
  destruct (po_free _ _ _ Hs i) as (d & Hd & Hr); [rewrite Hq; left|].
  wp_step. eapply wp_dma_at; [exact Hd|]. wp_step. wp_step. wp_step. split; [|by repeat split]. intros _.
  pose proof (que_len _ _ _ Hs) as Hlen. destruct Hs as [H1 H2 H3 H4 H5 H6]. rewrite Hq in *. apply NoDup_cons in H3 as [Hi Hnd]. split; cbn -[zlen s32]; try done.
  - rewrite H4. rewrite s32_id; unfold zlen in *; cbn in *; lia.
  - intros j Hj. apply H5. by right.
Qed.

(** The first memory that is not used. *)
Lemma wp_find_unused s (Q : Z → buf_core_mgr_s → Prop) E : pool_inv s → (∀ j, 0 ≤ j → Q j s) →
  wp False (pool_find (Z.to_nat DAMBUF_POOL) 0 (fun i => d ← dma_at i; mret (negb (d_used d)))) Q E s.
Proof.
  intros Hs HQ. apply (wp_pool_find _ _ _ (fun _ => True)); [|intros; apply HQ; lia].
  intros i Hi. destruct (po_all _ _ _ Hs i) as [d Hd]; [unfold DAMBUF_POOL in Hi; lia|]. wp_step. eapply wp_dma_at; [exact Hd|]. by wp_step.
Qed.

Lemma slot_occupied_step s : (dynamic_mode = true → pool_inv s) → pool_step buf_core_dmabuf_slot_occupied s.
Proof.
  intros Hs. unfold pool_step, buf_core_dmabuf_slot_occupied. wp_step; [|wp_step; by split]. wp_step.
  apply wp_find_unused; [by apply Hs|]. intros j _. wp_step. by split.
Qed.

Lemma alloc_dma_step s o : (dynamic_mode = true → pool_inv s) → pool_step (buf_core_alloc_dma o) s.
Proof.
  intros Hs. unfold pool_step, buf_core_alloc_dma. wp_step; [|wp_step; by split]. wp_step.
  apply wp_find_unused; [by apply Hs|]. intros j Hj. wp_step; bprop; [wp_step; by split|]. specialize (Hs H0).
  destruct (po_all _ _ _ Hs j) as [d Hd]; [unfold DAMBUF_POOL in *; lia|]. wp_step.
  eapply wp_upd_refs; [exact Hs|exact Hd|exact (po_ref _ _ _ Hs _ _ Hd)|by left|]. intros s' Hs' F _ _ _. wp_step. by split.
Qed.

(** The search finds a memory with this dma-buf or this address, or nothing. *)
Definition matches (b : Z) (d : buf_core_dma) : Prop := b = d_dmabuf d ∨ b = d_phy_addr d.

Lemma wp_find_dma b s (Q : Z → buf_core_mgr_s → Prop) E : pool_inv s →
  (∀ j, 32 ≤ j → Q j s) → (∀ j d, aget (dma s) j = Some (Slot_dma d) → matches b d → j < 32 → Q j s) →
  wp False (find_dma b) Q E s.
Proof.
  intros Hs Hno Hyes. unfold find_dma.
  apply (wp_pool_find _ _ _ (fun i => ∃ d, aget (dma s) i = Some (Slot_dma d) ∧ matches b d)).
  - intros i Hi. destruct (po_all _ _ _ Hs i) as [d Hd]; [unfold DAMBUF_POOL in Hi; lia|]. wp_step; [|by wp_step].
    wp_step. eapply wp_dma_at; [exact Hd|]. wp_step. split; [done|]. intros Hm. exists d. split; [done|].
    unfold matches. apply orb_true_iff in Hm as [Hm|Hm]; apply Z.eqb_eq in Hm; auto.
  - intros j Hj Hm. destruct (decide (j < 32)); [|apply Hno; lia]. destruct Hm as (d & Hd & Hm); [unfold DAMBUF_POOL; lia|]. by eapply Hyes.
Qed.

Lemma get_dmabuf_ref_step s b (f : bool) : (dynamic_mode = true → pool_inv s) →
  (∀ i d, aget (dma s) i = Some (Slot_dma d) → matches b d → i ∉ dma_free_que s ∧ d_ref d + 1 < 2 ^ 31) →
  pool_step (buf_core_get_dmabuf_ref b f) s.
Proof.
  intros Hs Hv. unfold pool_step, buf_core_get_dmabuf_ref. wp_step; [|by split]. wp_step. specialize (Hs H0).
  apply wp_find_dma; [done| |].
  - intros j Hj. wp_step; [unfold DAMBUF_POOL in *; bprop; lia|by split].
  - intros j d Hd Hm Hj. wp_step; [|by split]. destruct (Hv _ _ Hd Hm) as [Hq Hlt].
    destruct (po_ref _ _ _ Hs _ _ Hd) as (Hdec & Hlt' & Hdr). wp_step. eapply wp_upd_refs; [exact Hs|exact Hd| |by right; right|].
    + unfold refs_ok. cbn -[s32]. rewrite s32_id by lia. lia.
    + cbn -[s32]. rewrite s32_id by lia. intros s1 Hs1 F1 Hd1 Eq1 _. wp_step; [|by split].
      eapply wp_upd_refs; [exact Hs1|exact Hd1| |by left|by split; [|eapply pframe_trans]].
      unfold refs_ok. cbn -[s32]. rewrite s32_id by lia. lia.
Qed.

(** Giving up a reference: [dec_flag] for one of the decoder's. *)
Definition droppable (f : bool) (d : buf_core_dma) : Prop :=
  1 ≤ d_ref d ∧ if f then 1 ≤ dec_ref d else dec_ref d + 1 ≤ d_ref d.

Lemma put_free_tail j uvm (f : bool) d s : pool_inv s → aget (dma s) j = Some (Slot_dma d) → droppable f d →
  wp False (dma_unref j;;
            when (truth uvm) (upd_dma j (fun d => d <| uvm_dma := clear_uvm uvm (uvm_dma d) |>));;
            when f (upd_dma j (fun d => d <| dec_ref := s32 (dec_ref d - 1) |>)))
    (fun _ s' => pool_inv s' ∧ pframe s s') (fun _ _ => False) s.
Proof.
  intros Hs Hd [Hr Hf]. pose proof (slot_index _ _ _ _ _ Hs Hd) as Hb. destruct (po_ref _ _ _ Hs _ _ Hd) as (Hdec & Hlt & Hdr).
  wp_step. eapply wp_dma_unref; [done|exact Hd|done|]. intros s1 E1 E2 E3 F1. wp_step.
  apply (wp_mono _ (fun _ s' => (∃ x, dma s' = <[Z.to_nat j := Slot_dma x]> (dma s) ∧ d_ref x = d_ref d - 1 ∧ dec_ref x = dec_ref d ∧
    d_dma_ref x = d_dma_ref d) ∧ dma_free_que s' = dma_free_que s1 ∧ dma_free_num s' = dma_free_num s1 ∧ pframe s s') _ (fun _ _ => False));
    [| |done].
  - wp_step; [|by split; [eexists|]]. eapply wp_upd_dma; [rewrite E1; apply aget_insert; by rewrite (po_len _ _ _ Hs)|].
    intros s2 G1 G2 G3 F2. rewrite E1, list_insert_insert_eq in G1. split; [by eexists|]. split; [done|]. split; [done|].
    by eapply pframe_trans.
  - intros _ s2 ((x & G1 & X1 & X2 & X3) & G2 & G3 & F2). wp_step.
    + eapply wp_upd_dma; [rewrite G1; apply aget_insert; by rewrite (po_len _ _ _ Hs)|]. intros s3 K1 K2 K3 F3.
      rewrite G1, list_insert_insert_eq in K1. split; [|by eapply pframe_trans].
      unfold pool_inv. rewrite K1, K2, K3, G2, G3, E2, E3. eapply pool_put; [done|done|done|done|].
      rewrite H0 in Hf. unfold refs_ok. cbn -[s32]. rewrite s32_id by lia. lia.
    + split; [|done]. unfold pool_inv. rewrite G1, G2, G3, E2, E3. eapply pool_put; [done|done|done|done|].
      rewrite H0 in Hf. unfold refs_ok. lia.
Qed.

Lemma put_free_step s b uvm (f : bool) : (dynamic_mode = true → pool_inv s) →
  (∀ i d, aget (dma s) i = Some (Slot_dma d) → matches b d → droppable f d) →
  pool_step (buf_core_put_free_dmabuf b uvm f) s.
Proof.
  intros Hs Hv. unfold pool_step, buf_core_put_free_dmabuf. wp_step; [|by split]. wp_step. specialize (Hs H0).
  apply wp_find_dma; [done| |].
  - intros j Hj. wp_step; [unfold DAMBUF_POOL in *; bprop; lia|by split].
  - intros j d Hd Hm Hj. wp_step; [|by split]. destruct (Hv _ _ Hd Hm) as [Hr Hf].
    wp_step. eapply wp_dma_at; [exact Hd|]. wp_step.
    apply (wp_mono _ (fun _ s' => pool_inv s' ∧ pframe s s' ∧ ∃ d', aget (dma s') j = Some (Slot_dma d') ∧ droppable f d') _ (fun _ _ => False)); [| |done].
    + wp_step; [|split; [done|split; [done|by exists d]]]. wp_step. unfold log. wp_step.
      destruct (po_ref _ _ _ Hs _ _ Hd) as (Hdec & Hlt & Hdr).
      eapply (wp_upd_refs j _ d); [exact Hs|exact Hd| |by left|].
      * unfold refs_ok. cbn -[u32]. pose proof (u32_range (d_dma_ref d + 1)). lia.
      * intros s1 Hs1 F1 Hd1 _ _. split; [done|]. split; [done|]. by eexists.
    + intros _ s1 (Hs1 & F1 & d1 & Hd1 & Hr1 & Hf1). clear d Hd Hm Hr Hf.
      apply (wp_mono _ (fun _ s' => pool_inv s' ∧ pframe s1 s') _ (fun _ _ => False)); [| |done].
      * by apply (put_free_tail j uvm f d1).
      * intros _ s2 [Hs2 F2]. split; [done|by eapply pframe_trans].
Qed.

(** A memory may be released when the decoder has no reference to it. *)
Definition releasable (uvm : Z) (d : buf_core_dma) : Prop :=
  truth (d_dmabuf d) = true → d_inited d = true → forallb (fun x => x =? 0) (clear_uvm uvm (uvm_dma d)) = true → dec_ref d = 0.

Lemma release_slot_wp uvm i d s : pool_inv s → aget (dma s) i = Some (Slot_dma d) → releasable uvm d →
  wp False (release_dma_slot uvm i)
    (fun _ s' => pool_inv s' ∧ pframe s s' ∧ ∀ j, i < j → aget (dma s') j = aget (dma s) j) (fun _ _ => False) s.
Proof.
  intros Hs Hd Hv. pose proof (po_ref _ _ _ Hs _ _ Hd) as Hr. unfold release_dma_slot. wp_step. eapply wp_dma_at; [exact Hd|].
  wp_step; [|by split; [|split]]. wp_step. eapply wp_upd_refs; [exact Hs|exact Hd|exact Hr|by left|]. intros s1 Hs1 F1 Hd1 Eq1 O1.
  wp_step. eapply wp_dma_at; [exact Hd1|].
  wp_step; [|split; [done|split; [done|]]; intros j Hj; apply O1; lia]. cbn in H1. bprop. specialize (Hv H0 H1 H2). wp_step.
  apply (wp_for_range _ _ _ (fun _ s' => dma s' = dma s1 ∧ dma_free_que s' = dma_free_que s1 ∧ dma_free_num s' = dma_free_num s1 ∧ pframe s1 s')).
  - by repeat split.
  - intros _ s2 _ (E1 & E2 & E3 & F2). unfold log. wp_step. done.
  - intros s2 (E1 & E2 & E3 & F2). eapply wp_upd_refs; [|rewrite E1; exact Hd1| |by right; left|].
    + unfold pool_inv. by rewrite E1, E2, E3.
    + unfold refs_ok. cbn. rewrite Hv. lia.
    + intros s3 Hs3 F3 _ _ O3. split; [done|]. split; [by eapply pframe_trans; [|eapply pframe_trans]|].
      intros j Hj. rewrite O3, E1 by lia. apply O1. lia.
Qed.

(** [buf_core_release_dma]: the queue is empty afterwards. *)
Lemma release_dma_step s uvm : (dynamic_mode = true → pool_inv s) →
  (∀ i d, aget (dma s) i = Some (Slot_dma d) → releasable uvm d) → pool_step (buf_core_release_dma uvm) s.
Proof.
  intros Hs Hv. unfold pool_step, buf_core_release_dma. wp_step; [|by split]. specialize (Hs H0). wp_step.
  apply wp_pool_range; [done| |].
  - intros i d s1 Hd Hs1 Hi Hsame. eapply release_slot_wp; [done|exact Hd|]. apply (Hv i). by rewrite <- Hsame.
  - intros s1 Hs1 F1. wp_step. split; [|done]. intros _. destruct Hs1 as [H1 H2 H3 H4 H5 H6].
    split; cbn; try done; [constructor|]. by intros i Hi%elem_of_nil.
Qed.

Lemma reset_dma_step s : (dynamic_mode = true → pool_inv s) → pool_step buf_core_reset_dma s.
Proof.
  intros Hs. unfold pool_step, buf_core_reset_dma. wp_step; [|by split]. specialize (Hs H0).
  apply wp_pool_range; [done| |by split]. intros i d s1 Hd Hs1 Hi Hsame. wp_step. eapply wp_dma_at; [exact Hd|].
  destruct (po_ref _ _ _ Hs1 _ _ Hd) as (Hdec & Hlt & Hdr). wp_step; [|by split].
  unfold truth in *. bprop. eapply wp_unref_then; [done|exact Hd|lia| |done|].
  - unfold refs_ok. cbn -[s32 Z.sub]. rewrite s32_id by lia. lia.
  - intros s2 Hs2 F2 Ho. split; [done|]. split; [done|]. intros j Hj. apply Ho. lia.
Qed.

End Pool.
