(* ===== verification/BufRefs.v ===== *)
(** References, the free queue and the life of the buffer core
    (src/drivers/amvdec_ports/aml_buf_core.c).

    [bc_ok] is what every sequence of correctly paired calls maintains: a
    buffer is in the free queue exactly while nobody holds a reference.  The
    buffer manager's part is the class [BufCallbacksOk]; what a caller has to
    respect is [op_valid]. *)

From stdpp Require Import base list numbers gmap.
From Stdlib Require Import ZArith Lia Bool.
From S2P Require Import Prelude.
From S2P Require Import BufCore.
From S2P Require Import BufHolder.
From S2P Require Import BufPool.

#[local] Open Scope Z_scope.

(** ** Entries *)

Definition links (e : buf_core_entry) (b : Z) : Prop :=
  sub0 e = Some b ∨ sub1 e = Some b ∨ master_entry e = Some b.

Definition links_ok (m : gmap Z buf_core_entry) : Prop :=
  ∀ a e b, m !! a = Some e → links e b → is_Some (m !! b).

(** [T] the buffers of the table, [q] those of the free queue. *)
Record ents_ok (T q : list Z) (m : gmap Z buf_core_entry) : Prop := {
  eo_table : NoDup T;
  eo_dom : ∀ a, a ∈ T ↔ is_Some (m !! a);
  eo_keys : ∀ a b x y, m !! a = Some x → m !! b = Some y → key x = key y → a = b;
  eo_que : NoDup q;
  eo_free : ∀ a, a ∈ q ↔ ∃ e, m !! a = Some e ∧ ref e = 0;
  eo_ref : ∀ a e, m !! a = Some e → 0 ≤ ref e < 2 ^ 31;
  eo_sub : ∀ a e, m !! a = Some e → pair e ≠ BUF_MASTER → 1 ≤ ref e;
  eo_links : links_ok m
}.

(** What the callbacks leave alone. *)
Definition like (e e' : buf_core_entry) : Prop :=
  key e' = key e ∧ ref e' = ref e ∧ dma_ref e' = dma_ref e ∧ state e' = state e ∧ user e' = user e ∧
  holder e' = holder e ∧ ref_bit_map e' = ref_bit_map e ∧ pair e' = pair e ∧ inited e' = inited e ∧
  queued_mask e' = queued_mask e.

Definition keeps (m m' : gmap Z buf_core_entry) : Prop :=
  ∀ a, match m !! a, m' !! a with
       | Some e, Some e' => like e e'
       | None, None => True
       | _, _ => False
       end.

(** The callbacks may change the links between the buffers of a pair, the
    index and the planes flag, nothing else. *)
Class BufCallbacksOk `{BufCallbacks} := {
  prepare_set : is_Some prepare;
  prepare_ok : ∀ f a m, prepare = Some f → links_ok m → keeps m (f a m) ∧ links_ok (f a m);
  reconfigure_ok : ∀ a m, links_ok m → keeps m (reconfigure_planes a m) ∧ links_ok (reconfigure_planes a m)
}.

#[export] Instance plain_callbacks_ok dynamic : @BufCallbacksOk (plain_callbacks dynamic).
Proof.
  assert (∀ m, keeps m m) as Hk by (intros m a; destruct (m !! a); by repeat split).
  split; cbn; [by eexists| |by auto]. intros f a m [= <-]. by auto.
Qed.

Lemma keeps_lookup m m' a e' : keeps m m' → m' !! a = Some e' → ∃ e, m !! a = Some e ∧ like e e'.
Proof. intros Hk Ha. specialize (Hk a). rewrite Ha in Hk. destruct (m !! a) as [e|]; [by exists e|done]. Qed.

Lemma keeps_inv m m' a e : keeps m m' → m !! a = Some e → ∃ e', m' !! a = Some e' ∧ like e e'.
Proof. intros Hk Ha. specialize (Hk a). rewrite Ha in Hk. destruct (m' !! a) as [e'|]; [by exists e'|done]. Qed.

Lemma keeps_dom m m' a : keeps m m' → is_Some (m !! a) ↔ is_Some (m' !! a).
Proof. intros Hk. specialize (Hk a). destruct (m !! a), (m' !! a); try done; split; by intros []. Qed.

Lemma ents_keeps T q m m' : keeps m m' → links_ok m' → ents_ok T q m → ents_ok T q m'.
Proof.
  intros Hk Hl [H1 H2 H3 H4 H5 H6 H7 H8]. split; try done.
  - intros a. rewrite H2. by apply keeps_dom.
  - intros a b x y Ha Hb E. destruct (keeps_lookup _ _ _ _ Hk Ha) as (x0 & Hx & Lx & _).
    destruct (keeps_lookup _ _ _ _ Hk Hb) as (y0 & Hy & Ly & _). eapply H3; [done..|congruence].
  - intros a. rewrite H5. split; intros (e & He & Hr).
    + destruct (keeps_inv _ _ _ _ Hk He) as (e' & He' & L). exists e'. unfold like in L. split; [done|]. lia.
    + destruct (keeps_lookup _ _ _ _ Hk He) as (e' & He' & L). exists e'. unfold like in L. split; [done|]. lia.
  - intros a e He. destruct (keeps_lookup _ _ _ _ Hk He) as (e0 & He0 & L). specialize (H6 _ _ He0). unfold like in L. lia.
  - intros a e He Hp. destruct (keeps_lookup _ _ _ _ Hk He) as (e0 & He0 & L). unfold like in L.
    specialize (H7 _ _ He0). destruct L as (_ & -> & _ & _ & _ & _ & _ & Hpe & _). apply H7. congruence.
Qed.

(** Links do not dangle after the update of an entry that keeps its links. *)
Lemma links_ok_insert m a e e' : links_ok m → m !! a = Some e → (∀ b, links e' b → links e b) → links_ok (<[a := e']> m).
Proof.
  intros Hl Ha He b x c Hb Hc. rewrite lookup_insert_is_Some'. right.
  destruct (decide (b = a)) as [->|Hne].
  - rewrite lookup_insert_eq in Hb. injection Hb as <-. eapply Hl; [exact Ha|by apply He].
  - rewrite lookup_insert_ne in Hb by done. by eapply Hl.
Qed.

(** An update that keeps key and links, and moves the buffer between held and
    free together with the queue. *)
Lemma ents_update T q q' m a e e' : ents_ok T q m → m !! a = Some e →
  key e' = key e → (∀ b, links e' b → links e b) → 0 ≤ ref e' < 2 ^ 31 →
  (pair e' ≠ BUF_MASTER → 1 ≤ ref e') → NoDup q' → (∀ b, b ≠ a → b ∈ q' ↔ b ∈ q) → (a ∈ q' ↔ ref e' = 0) →
  ents_ok T q' (<[a := e']> m).
Proof.
  intros [H1 H2 H3 H4 H5 H6 H7 H8] Ha Hk Hl Hr Hp Hq Hother Hself. split; try done.
  - intros b. rewrite H2, lookup_insert_is_Some'. split; [by auto|]. intros [->|?]; [by eexists|done].
  - intros b c x y Hb Hc E. destruct (decide (b = a)) as [->|Hba], (decide (c = a)) as [->|Hca]; try done.
    + rewrite lookup_insert_eq in Hb. injection Hb as <-. rewrite lookup_insert_ne in Hc by done. eapply H3; [done..|congruence].
    + rewrite lookup_insert_eq in Hc. injection Hc as <-. rewrite lookup_insert_ne in Hb by done. eapply H3; [done..|congruence].
    + rewrite lookup_insert_ne in Hb, Hc by done. by eapply H3.
  - intros b. destruct (decide (b = a)) as [->|Hne].
    + rewrite Hself, lookup_insert_eq. split; [intros ?; by exists e'|]. by intros (? & [= <-] & ?).
    + rewrite Hother, H5, lookup_insert_ne by done. done.
  - intros b x. destruct (decide (b = a)) as [->|Hne].
    + rewrite lookup_insert_eq. by intros [= <-].
    + rewrite lookup_insert_ne by done. apply H6.
  - intros b x. destruct (decide (b = a)) as [->|Hne].
    + rewrite lookup_insert_eq. by intros [= <-].
    + rewrite lookup_insert_ne by done. apply H7.
  - by eapply links_ok_insert.
Qed.

(** The reference count stays zero or stays positive. *)
Lemma ents_same_que T q m a e e' : ents_ok T q m → m !! a = Some e →
  key e' = key e → (∀ b, links e' b → links e b) → 0 ≤ ref e' < 2 ^ 31 → (ref e' = 0 ↔ ref e = 0) →
  (pair e' ≠ BUF_MASTER → 1 ≤ ref e') → ents_ok T q (<[a := e']> m).
Proof.
  intros Hok Ha Hk Hl Hr Hz Hp. eapply ents_update; try done.
  - apply Hok.
  - rewrite (eo_free _ _ _ Hok), Hz. split; [|intros ?; by exists e].
    intros (x & Hx & ?). by replace e with x by congruence.
Qed.

(** ** The invariant *)

Section Refs.
Context `{Hcb : BufCallbacks} {Hok : BufCallbacksOk}.

(** [rel]: [buf_core_mgr_release] has been called. *)
Record bc_ok (rel : bool) (s : buf_core_mgr_s) : Prop := {
  bo_ents : ents_ok (buf_table s) (free_que s) (entries s);
  bo_num : free_num s = zlen (free_que s);
  bo_size : zlen (buf_table s) < 2 ^ 31;
  bo_core : core_ref s = zlen (buf_table s) + (if rel then 0 else 1);
  bo_exit : rel = true → buf_table s = [] → bc_state s = BM_STATE_EXIT;
  bo_pool : dynamic_mode = true → pool_ok (dma s) (dma_free_que s) (dma_free_num s)
}.

(** States that differ in the entries, the free queue and what is only
    reported. *)
Definition frame (s s' : buf_core_mgr_s) : Prop :=
  bc_state s' = bc_state s ∧ core_ref s' = core_ref s ∧ buf_table s' = buf_table s ∧
  dma s' = dma s ∧ dma_free_que s' = dma_free_que s ∧ dma_free_num s' = dma_free_num s.

Lemma bc_ok_frame rel s s' : bc_ok rel s → frame s s' → ents_ok (buf_table s') (free_que s') (entries s') →
  free_num s' = zlen (free_que s') → bc_ok rel s'.
Proof.
  intros [H1 H2 H3 H4 H5 H6] (E1 & E2 & E3 & E4 & E5 & E6) He Hn.
  split; rewrite ?E1, ?E2, ?E3, ?E4, ?E5, ?E6; try done. by rewrite <- E3.
Qed.

(** The queue is no longer than the table, so its length does not overflow. *)
Lemma que_bound T q m : ents_ok T q m → zlen q ≤ zlen T.
Proof.
  intros H. unfold zlen. apply inj_le, submseteq_length, NoDup_submseteq; [apply H|].
  intros a Ha. apply (eo_dom _ _ _ H). apply (eo_free _ _ _ H) in Ha as (e & He & _). by exists e.
Qed.

(** *** Rules for the steps of the operations *)

Lemma wp_entry_at a e s (Q : buf_core_entry → buf_core_mgr_s → Prop) E : entries s !! a = Some e → Q e s →
  wp False (entry_at a) Q E s.
Proof. intros Ha HQ. unfold entry_at. wp_step. wp_step. rewrite Ha. cbn [of_option]. by wp_step. Qed.

Lemma wp_upd_entry a g e s (Q : unit → buf_core_mgr_s → Prop) E : entries s !! a = Some e →
  Q tt (s <| entries := <[a := g e]> (entries s) |>) → wp False (upd_entry a g) Q E s.
Proof. intros Ha HQ. unfold upd_entry. wp_step. eapply wp_entry_at; [exact Ha|]. by wp_step. Qed.

Lemma wp_log ev s (Q : unit → buf_core_mgr_s → Prop) E : Q tt (s <| events := events s ++ [ev] |>) → wp False (log ev) Q E s.
Proof. intros HQ. unfold log. by wp_step. Qed.

Lemma wp_touch o s (Q : unit → buf_core_mgr_s → Prop) E : (∀ a, o = Some a → is_Some (entries s !! a)) → Q tt s →
  wp False (touch o) Q E s.
Proof.
  intros Ho HQ. destruct o as [a|]; cbn [touch]; [|by wp_step]. destruct (Ho a eq_refl) as [e He].
  wp_step. eapply wp_entry_at; [exact He|]. by wp_step.
Qed.

Lemma wp_touch_all l s (Q : unit → buf_core_mgr_s → Prop) E : (∀ a, a ∈ l → is_Some (entries s !! a)) → Q tt s →
  wp False (touch_all l) Q E s.
Proof.
  intros Hl HQ. induction l as [|a l IH]; cbn [touch_all]; [by wp_step|].
  destruct (Hl a) as [e He]; [left|]. wp_step. eapply wp_entry_at; [exact He|]. apply IH. intros b Hb. apply Hl. by right.
Qed.

Lemma wp_sanity s (Q : bool → buf_core_mgr_s → Prop) E : Q (is_eq (bc_state s) BM_STATE_ACTIVE) s → wp False bc_sanity_check Q E s.
Proof. intros HQ. unfold bc_sanity_check. wp_step. wp_step. by wp_step. Qed.

(** Entries that differ in what the invariant does not speak of. *)
Definition same_core (e e' : buf_core_entry) : Prop :=
  state e' = state e ∧ user e' = user e ∧ key e' = key e ∧ ref e' = ref e ∧ pair e' = pair e ∧ sub0 e' = sub0 e ∧ sub1 e' = sub1 e ∧ master_entry e' = master_entry e.

Lemma hold_if_core mask h e : same_core e (hold_if mask h e).
Proof. unfold hold_if. destruct (truth _); by repeat split. Qed.

Lemma same_core_trans e1 e2 e3 : same_core e1 e2 → same_core e2 e3 → same_core e1 e3.
Proof. unfold same_core. intuition congruence. Qed.

Lemma direction_core e u d : same_core e (match d with BUF_GET => direction_buf_get e u | BUF_PUT => direction_buf_put e u end).
Proof.
  destruct d, u; cbn [direction_buf_get direction_buf_put];
    repeat match goal with
    | |- same_core _ (if ?b then _ else _) => destruct b
    | |- same_core _ (hold_if _ _ _) => eapply same_core_trans; [|apply hold_if_core]
    | |- same_core _ (set_field _ _ ?x) => eapply (same_core_trans _ x); [|by repeat split]
    | |- same_core _ (map_add _ ?x) => eapply (same_core_trans _ x); [|by repeat split]
    | |- same_core _ (map_sub _ ?x) => eapply (same_core_trans _ x); [|by repeat split]
    end; by repeat split.
Qed.

Lemma same_core_links e e' b : same_core e e' → links e' b → links e b.
Proof. unfold same_core, links. intuition congruence. Qed.

Lemma wp_update_holder a u d e s (Q : unit → buf_core_mgr_s → Prop) E : entries s !! a = Some e →
  (∀ e', e' = match d with BUF_GET => direction_buf_get e u | BUF_PUT => direction_buf_put e u end →
     same_core e e' → Q tt (s <| entries := <[a := e']> (entries s) |>)) →
  wp False (buf_core_update_holder a u d) Q E s.
Proof. intros Ha HQ. eapply wp_upd_entry; [exact Ha|]. by apply HQ, direction_core. Qed.

(** *** References *)

(** The entry of a buffer that goes to the free queue. *)
Definition freed (e : buf_core_entry) : buf_core_entry :=
  e <| ref := 0 |> <| state := BUF_STATE_FREE |> <| holder := BUF_HOLDER_FREE |> <| ref_bit_map := 0 |>
    <| inited := true |> <| queued_mask := 0 |>.

(** What giving up a reference does: the last one frees the buffer. *)
Definition unref_post (a : Z) (u : buf_core_user) (e : buf_core_entry) (s s' : buf_core_mgr_s) : Prop :=
  frame s s' ∧
  if ref e =? 1 then
    entries s' = <[a := freed e]> (entries s) ∧ free_que s' = free_que s ++ [a] ∧
    events s' = events s ++ [Ev_wake_up_vdec]
  else
    entries s' = <[a := direction_buf_put (e <| ref := ref e - 1 |> <| state := BUF_STATE_REF |>) u]> (entries s) ∧
    free_que s' = free_que s ∧ events s' = events s.

Lemma not_queued rel s a e : bc_ok rel s → entries s !! a = Some e → 1 ≤ ref e → a ∉ free_que s.
Proof.
  intros Hs Ha Hr Hin. apply (eo_free _ _ _ (bo_ents _ _ Hs)) in Hin as (x & Hx & Hz). replace x with e in Hz by congruence. lia.
Qed.

Lemma last_elem {A} (l : list A) x : last l = Some x → x ∈ l.
Proof. intros Hl. apply last_Some in Hl as [l' ->]. apply elem_of_app. right. by left. Qed.

Lemma wp_free_que_add a s (Q : unit → buf_core_mgr_s → Prop) E :
  a ∉ free_que s → (∀ b, b ∈ free_que s → is_Some (entries s !! b)) → free_num s = zlen (free_que s) →
  zlen (free_que s) + 1 < 2 ^ 31 →
  (∀ s', frame s s' → entries s' = entries s → free_que s' = free_que s ++ [a] → free_num s' = zlen (free_que s') →
     events s' = events s ++ [Ev_wake_up_vdec] → Q tt s') →
  wp False (free_que_add a) Q E s.
Proof.
  intros Ha Hdom Hn Hlt HQ. unfold free_que_add. wp_step. wp_step. wp_step. apply wp_touch.
  { intros b Hb. by apply Hdom, last_elem. }
  wp_step; [apply bool_decide_eq_true in H; exfalso; by apply Ha, last_elem|].
  wp_step; [by apply bool_decide_eq_true in H0|]. wp_step. wp_step. apply wp_log. apply HQ; try done.
  cbn -[zlen]. rewrite Hn, zlen_app. apply s32_id. pose proof (zlen_nonneg (free_que s)). change (zlen [a]) with 1. lia.
Qed.

(** The queue has room for a buffer that is not in it. *)
Lemma que_room T q m a : ents_ok T q m → is_Some (m !! a) → a ∉ q → zlen q + 1 ≤ zlen T.
Proof.
  intros H Hd Ha. change (zlen q + 1 ≤ zlen T) with (zlen q + 1 ≤ zlen T).
  assert (zlen (a :: q) ≤ zlen T) as Hle; [|unfold zlen in *; cbn in *; lia].
  unfold zlen. apply inj_le, submseteq_length, NoDup_submseteq.
  - constructor; [done|apply H].
  - intros b [->|Hb]%elem_of_cons; apply (eo_dom _ _ _ H); [done|]. apply (eo_free _ _ _ H) in Hb as (e & He & _). by exists e.
Qed.

Lemma ents_freed T q m a e : ents_ok T q m → m !! a = Some e → a ∉ q → pair e = BUF_MASTER →
  ents_ok T (q ++ [a]) (<[a := freed e]> m).
Proof.
  intros H Ha Hq Hp. eapply ents_update; [exact H|exact Ha|done|done|cbn; lia|cbn; congruence| | |].
  - apply NoDup_app. split; [apply H|]. split; [|apply NoDup_singleton]. intros b Hb ->%list_elem_of_singleton. done.
  - intros b Hne. rewrite elem_of_app, list_elem_of_singleton. intuition congruence.
  - rewrite elem_of_app, list_elem_of_singleton. cbn. intuition.
Qed.

Lemma unref_wp rel a u e s (Q : unit → buf_core_mgr_s → Prop) E :
  bc_ok rel s → entries s !! a = Some e → 1 ≤ ref e → (pair e ≠ BUF_MASTER → 2 ≤ ref e) →
  (∀ s', bc_ok rel s' → unref_post a u e s s' → Q tt s') → wp False (unref a u) Q E s.
Proof.
  intros Hs Ha Hr Hp HQ. pose proof (bo_ents _ _ Hs) as He. pose proof (eo_ref _ _ _ He a e Ha) as Hb.
  pose proof (not_queued _ _ _ _ Hs Ha Hr) as Hq.
  unfold unref, ref_dec. wp_step. eapply wp_upd_entry; [exact Ha|]. rewrite s32_id by lia.
  wp_step. eapply wp_entry_at; [apply lookup_insert_eq|]. cbn -[Z.sub]. wp_step; bprop.
  - assert (ref e = 1) as Hr1 by lia. assert (pair e = BUF_MASTER) as Hm.
    { destruct (decide (pair e = BUF_MASTER)) as [|Hn]; [done|]. specialize (Hp Hn). lia. }
    unfold buf_core_free_que. wp_step. eapply wp_upd_entry; [apply lookup_insert_eq|]. cbn -[Z.sub].
    rewrite insert_insert_eq. replace (ref e - 1) with 0 by lia.
    apply wp_free_que_add; cbn -[zlen].
    + done.
    + intros b Hin. rewrite lookup_insert_is_Some'. right. apply (eo_free _ _ _ He) in Hin as (x & Hx & _). by exists x.
    + apply Hs.
    + pose proof (que_room _ _ _ a He ltac:(by eexists) Hq). pose proof (bo_size _ _ Hs). lia.
    + intros s' Hf E1 E2 E3 E4. cbn -[zlen] in *. change (_ <| queued_mask := 0 |>) with (freed e) in E1.
      assert (buf_table s' = buf_table s) as Et by apply Hf. apply HQ.
      * eapply (bc_ok_frame _ s); [done|done| |done]. rewrite E1, E2, Et. by apply ents_freed.
      * split; [done|]. by rewrite Hr1.
  - wp_step. eapply wp_upd_entry; [apply lookup_insert_eq|]. cbn -[Z.sub]. rewrite insert_insert_eq.
    eapply wp_update_holder; [apply lookup_insert_eq|]. intros e' Ee Hcore. cbn -[Z.sub direction_buf_put].
    rewrite insert_insert_eq. apply HQ.
    + eapply (bc_ok_frame _ s); [done|by repeat split| |apply Hs]. cbn -[Z.sub direction_buf_put].
      destruct Hcore as (_ & _ & Hk & Hrf & Hpr & Hs0 & Hs1 & Hms). cbn -[Z.sub] in *.
      eapply ents_same_que; [exact He|exact Ha|done| |lia|lia|].
      * unfold links. by rewrite Hs0, Hs1, Hms.
      * rewrite Hpr, Hrf. intros Hn. specialize (Hp Hn). lia.
    + split; [by repeat split|]. rewrite (proj2 (Z.eqb_neq _ _)) by lia. by rewrite Ee.
Qed.

(** *** The operations on one buffer *)

(** [k] references may be given up: a buffer of a pair other than the master
    keeps the one it was attached with. *)
Definition held (s : buf_core_mgr_s) (a k : Z) : Prop :=
  ∃ e, entries s !! a = Some e ∧ k ≤ ref e ∧ (pair e ≠ BUF_MASTER → k + 1 ≤ ref e).

(** A reference may be added. *)
Definition sharable (s : buf_core_mgr_s) (a : Z) : Prop :=
  ∃ e, entries s !! a = Some e ∧ 1 ≤ ref e ∧ ref e + 1 < 2 ^ 31.

Definition ok_step {A} (rel : bool) (m : B A) (s : buf_core_mgr_s) : Prop :=
  wp False m (fun _ => bc_ok rel) (fun _ _ => False) s.

(** Updates of one entry that keep the reference count zero or positive. *)
Lemma bc_ok_insert rel s s' a e e' : bc_ok rel s → frame s s' → entries s !! a = Some e →
  entries s' = <[a := e']> (entries s) → free_que s' = free_que s → free_num s' = free_num s →
  key e' = key e → (∀ b, links e' b → links e b) → 0 ≤ ref e' < 2 ^ 31 → (ref e' = 0 ↔ ref e = 0) →
  (pair e' ≠ BUF_MASTER → 1 ≤ ref e') → bc_ok rel s'.
Proof.
  intros Hs Hf Ha E1 E2 E3 Hk Hl Hr Hz Hp. eapply bc_ok_frame; [exact Hs|exact Hf| |].
  - assert (buf_table s' = buf_table s) as -> by apply Hf. rewrite E1, E2.
    eapply ents_same_que; [apply Hs|exact Ha|done..].
  - rewrite E3, E2. apply Hs.
Qed.

Lemma put_ok rel s a : bc_ok rel s → held s a 2 → ok_step rel (buf_core_put a) s.
Proof.
  intros Hs (e & Ha & Hr & Hp). unfold ok_step, buf_core_put. wp_step. apply wp_sanity. wp_step; [|done].
  pose proof (eo_ref _ _ _ (bo_ents _ _ Hs) _ _ Ha). unfold ref_dec. eapply wp_upd_entry; [exact Ha|].
  rewrite s32_id by lia. eapply bc_ok_insert; [exact Hs|by repeat split|exact Ha|done|done|done|done|done| | |]; cbn -[Z.sub].
  - lia.
  - lia.
  - intros Hn. specialize (Hp Hn). lia.
Qed.

(** Adding a reference, and the bits for it. *)
Lemma ref_inc_wp rel s a e u (Q : unit → buf_core_mgr_s → Prop) E : bc_ok rel s → entries s !! a = Some e →
  1 ≤ ref e → ref e + 1 < 2 ^ 31 →
  (∀ s', bc_ok rel s' → frame s s' → (∃ e', entries s' !! a = Some e' ∧ same_core (e <| ref := ref e + 1 |>) e') → Q tt s') →
  wp False (ref_inc a;; buf_core_update_holder a u BUF_GET) Q E s.
Proof.
  intros Hs Ha H1 H2 HQ. unfold ref_inc. wp_step. eapply wp_upd_entry; [exact Ha|]. rewrite s32_id by lia.
  eapply wp_update_holder; [apply lookup_insert_eq|]. intros e' Ee Hc. cbn -[Z.add direction_buf_get].
  rewrite insert_insert_eq. apply HQ.
  - destruct Hc as (_ & _ & Hk & Hr & Hp & Hs0 & Hs1 & Hm). cbn -[Z.add] in *.
    eapply bc_ok_insert; [exact Hs|by repeat split|exact Ha|done|done|done|done| |lia|lia|lia].
    unfold links. by rewrite Hs0, Hs1, Hm.
  - by repeat split.
  - exists e'. split; [apply lookup_insert_eq|done].
Qed.

Lemma get_ref_ok rel s a : bc_ok rel s → sharable s a → ok_step rel (buf_core_get_ref a) s.
Proof.
  intros Hs (e & Ha & H1 & H2). unfold ok_step, buf_core_get_ref. wp_step. apply wp_sanity. wp_step; [|done].
  wp_step. eapply wp_upd_entry; [exact Ha|].
  eapply (ref_inc_wp rel _ a (e <| state := BUF_STATE_REF |>)); [|apply lookup_insert_eq|done|done|done].
  eapply bc_ok_insert; [exact Hs|by repeat split|exact Ha|done|done|done|done|done| |done|]; cbn; lia.
Qed.

Lemma put_ref_ok rel s a : bc_ok rel s → held s a 1 → ok_step rel (buf_core_put_ref a) s.
Proof.
  intros Hs (e & Ha & H1 & H2). unfold ok_step, buf_core_put_ref. wp_step. eapply wp_entry_at; [exact Ha|].
  wp_step. apply wp_sanity. wp_step; [by wp_step|]. eapply unref_wp; [done|exact Ha|done|done|]. by auto.
Qed.

(** The buffer [buf_core_fill] gives back. *)
Definition fill_target (s : buf_core_mgr_s) (a : Z) : Z :=
  match entries s !! a with
  | Some e => match pair e, master_entry e with BUF_MASTER, _ | _, None => a | _, Some m => m end
  | None => a
  end.

Lemma bc_ok_events rel s ev : bc_ok rel s → bc_ok rel (s <| events := ev |>).
Proof. intros Hs. eapply (bc_ok_frame _ s); [done|by repeat split|apply Hs|apply Hs]. Qed.

Lemma fill_ok rel s a u : bc_ok rel s → is_Some (entries s !! a) → held s (fill_target s a) 1 →
  ok_step rel (buf_core_fill a u) s.
Proof.
  intros Hs [e Ha] Hheld. unfold ok_step, buf_core_fill. wp_step.
  apply (wp_mono _ (fun _ s' => bc_ok rel s' ∧ entries s' = entries s) _ (fun _ _ => False)); [| |done].
  { wp_step; [|done]. apply wp_log. split; [by apply bc_ok_events|done]. }
  intros _ s1 [Hs1 E1]. wp_step. apply wp_sanity. wp_step; [|done]. wp_step.
  apply (wp_mono _ (fun _ s' => bc_ok rel s' ∧ entries s' = entries s) _ (fun _ _ => False)); [| |done].
  { unfold fill_vpp_que. destruct vpp_que; [|by wp_step]. wp_step; [|by wp_step]. wp_step.
    eapply wp_entry_at; [by rewrite E1|]. wp_step. apply wp_log. wp_step. split; [by apply bc_ok_events|done]. }
  intros go s2 [Hs2 E2]. wp_step; [|done]. wp_step. eapply wp_entry_at; [by rewrite E2|].
  unfold fill_target in Hheld. rewrite Ha in Hheld. destruct Hheld as (x & Hx & H1 & H2). wp_step.
  eapply wp_entry_at; [rewrite E2; exact Hx|]. wp_step; [by wp_step|].
  eapply unref_wp; [done|rewrite E2; exact Hx|done|done|]. by auto.
Qed.

Lemma vpp_cb_ok rel s a e m : bc_ok rel s → entries s !! a = Some e →
  (if is_eq (pair e) BUF_MASTER then m = a else master_entry e = Some m) → held s m 1 → ok_step rel (buf_core_vpp_cb a) s.
Proof.
  intros Hs Ha Hm (x & Hx & H1 & H2). unfold ok_step, buf_core_vpp_cb. wp_step. eapply wp_entry_at; [exact Ha|].
  wp_step. destruct (is_eq (pair e) BUF_MASTER).
  - subst m. wp_step. eapply unref_wp; [done|exact Hx|done|done|]. by auto.
  - rewrite Hm. cbn [of_option]. wp_step. eapply unref_wp; [done|exact Hx|done|done|]. by auto.
Qed.

Lemma done_ok rel s a u : bc_ok rel s → sharable s a → ok_step rel (buf_core_done a u) s.
Proof.
  intros Hs (e & Ha & H1 & H2). unfold ok_step, buf_core_done. wp_step. apply wp_sanity. wp_step.
  eapply wp_entry_at; [exact Ha|]. wp_step; [by wp_step|]. wp_step; [by wp_step|]. wp_step.
  eapply wp_upd_entry; [exact Ha|]. set (e1 := e <| state := BUF_STATE_DONE |>).
  set (s1 := set_field _ _ s). assert (bc_ok rel s1) as Hs1.
  { eapply bc_ok_insert; [exact Hs|by repeat split|exact Ha|done|done|done|done|done| |done|]; cbn; lia. }
  assert (entries s1 !! a = Some e1) as Ha1 by apply lookup_insert_eq. clearbody s1. wp_step.
  apply (wp_mono _ (fun _ s' => bc_ok rel s' ∧ is_Some (entries s' !! a)) _ (fun _ _ => False)); [| |done].
  - unfold submit_vpp. destruct vpp_dque as [f|]; [|wp_step; by split; [|eexists]]. wp_step. eapply wp_entry_at; [exact Ha1|].
    wp_step; [|by split; [|eexists]]. wp_step. apply wp_log. wp_step; [|split; [by apply bc_ok_events|by eexists]].
    eapply (ref_inc_wp rel _ a e1); [by apply bc_ok_events|exact Ha1|done|done|].
    intros s2 Hs2 _ (e2 & He2 & _). split; [done|by eexists].
  - intros _ s2 [Hs2 [e2 He2]]. wp_step. apply wp_log. wp_step. eapply wp_entry_at; [exact He2|]. wp_step. by apply bc_ok_events.
Qed.

(** A buffer that [buf_core_get] has handed out. *)
Definition got (u : buf_core_user) (k : Z) (s : buf_core_mgr_s) (a : Z) : Prop :=
  ∃ e, entries s !! a = Some e ∧ ref e = 1 ∧ state e = BUF_STATE_USE ∧ user e = u ∧ key e = k.

Lemma sub_use_wp rel s a u o k (Q : unit → buf_core_mgr_s → Prop) E : bc_ok rel s →
  (∀ b, o = Some b → is_Some (entries s !! b)) → got u k s a →
  (∀ s', bc_ok rel s' → frame s s' → free_que s' = free_que s → got u k s' a → Q tt s') →
  wp False (sub_use u o) Q E s.
Proof.
  intros Hs Ho (e & Ha & Hr & Hst & Hu & Hk) HQ. destruct o as [b|]; cbn [sub_use].
  - destruct (Ho b eq_refl) as [x Hx]. eapply wp_upd_entry; [exact Hx|]. apply HQ.
    + pose proof (eo_ref _ _ _ (bo_ents _ _ Hs) _ _ Hx). pose proof (eo_sub _ _ _ (bo_ents _ _ Hs) _ _ Hx).
      by eapply bc_ok_insert; [exact Hs|by repeat split|exact Hx|..].
    + by repeat split.
    + done.
    + unfold got. cbn. destruct (decide (a = b)) as [->|Hne].
      * rewrite lookup_insert_eq. eexists. split; [done|]. cbn. replace x with e by congruence. done.
      * rewrite lookup_insert_ne by done. by exists e.
  - wp_step. apply HQ; [done|by repeat split|done|]. by exists e.
Qed.

Lemma frame_refl s : frame s s.
Proof. by repeat split. Qed.

Lemma frame_trans s1 s2 s3 : frame s1 s2 → frame s2 s3 → frame s1 s3.
Proof. unfold frame. intuition congruence. Qed.

Lemma call_prepare_wp rel s a (Q : unit → buf_core_mgr_s → Prop) E : bc_ok rel s →
  (∀ s', bc_ok rel s' → frame s s' → free_que s' = free_que s → keeps (entries s) (entries s') → Q tt s') →
  wp False (call_prepare a) Q E s.
Proof.
  intros Hs HQ. unfold call_prepare. destruct prepare as [f|] eqn:Hf.
  - wp_step. apply wp_log. wp_step. destruct (prepare_ok f a (entries s) Hf) as [Hk Hl]; [apply Hs|].
    apply HQ; [|by repeat split|done|done].
    eapply (bc_ok_frame _ s); [done|by repeat split| |apply Hs]. cbn. eapply ents_keeps; [exact Hk|done|apply Hs].
  - destruct prepare_set as [f Hs']. congruence.
Qed.

Lemma got_keeps u k s s' a : got u k s a → keeps (entries s) (entries s') → got u k s' a.
Proof.
  intros (e & Ha & Hr & Hst & Hu & Hk) Hkp. destruct (keeps_inv _ _ _ _ Hkp Ha) as (e' & He' & L). exists e'.
  unfold like in L. intuition congruence.
Qed.

Definition get_post (rel : bool) (u : buf_core_user) (s : buf_core_mgr_s) (r : option Z) (s' : buf_core_mgr_s) : Prop :=
  bc_ok rel s' ∧
  match r with
  | Some a => frame s s' ∧ free_que s = a :: free_que s' ∧ ∃ e, entries s !! a = Some e ∧ ref e = 0 ∧ got u (key e) s' a
  | None => s' = s ∧ (bc_state s ≠ BM_STATE_ACTIVE ∨ free_que s = [])
  end.

(** One of the two steps for the sub entries. *)
Lemma sub_step_wp {A} rel s a u k f (c : B A) (Q : A → buf_core_mgr_s → Prop) E :
  (∀ x b, f x = Some b → links x b) → bc_ok rel s → got u k s a →
  (∀ s', bc_ok rel s' → frame s s' → free_que s' = free_que s → got u k s' a → wp False c Q E s') →
  wp False (x ← entry_at a; sub_use u (f x);; c) Q E s.
Proof.
  intros Hf Hs Hg HQ. destruct (Hg) as (x & Hx & _). wp_step. eapply wp_entry_at; [exact Hx|]. wp_step.
  eapply sub_use_wp; [exact Hs| |exact Hg|exact HQ].
  intros b Hb. eapply (eo_links _ _ _ (bo_ents _ _ Hs)); [exact Hx|by apply Hf].
Qed.

(** Taking the head of the queue. *)
Lemma get_head_ok rel s u a q e : bc_ok rel s → free_que s = a :: q → entries s !! a = Some e →
  bc_ok rel (s <| free_que := q |> <| free_num := s32 (free_num s - 1) |>
               <| entries := <[a := e <| user := u |> <| state := BUF_STATE_USE |> <| ref := 1 |>]> (entries s) |>).
Proof.
  intros Hs Hq Ha. pose proof (bo_ents _ _ Hs) as He. rewrite Hq in He.
  pose proof (eo_que _ _ _ He) as Hnd. apply NoDup_cons in Hnd as [Hna Hnd].
  eapply (bc_ok_frame _ s); [done|by repeat split| |].
  - eapply (ents_update _ _ _ _ a e); [exact He|exact Ha|done|done|cbn; lia|cbn; lia|done| |].
    + intros b Hne. rewrite elem_of_cons. cbn. intuition congruence.
    + cbn. split; [done|lia].
  - cbn -[zlen s32]. rewrite (bo_num _ _ Hs), Hq. pose proof (que_bound _ _ _ He). pose proof (bo_size _ _ Hs).
    rewrite s32_id; unfold zlen in *; cbn in *; lia.
Qed.

Lemma head_dom T a q m : ents_ok T (a :: q) m → ∀ b, head q = Some b → is_Some (m !! b).
Proof.
  intros He b Hb. destruct q as [|c q]; [done|]. injection Hb as ->.
  destruct (proj1 (eo_free _ _ _ He b)) as (e & Hx & _); [right; left|by exists e].
Qed.

Lemma buf_core_get_wp rel s u : bc_ok rel s → wp False (buf_core_get u) (get_post rel u s) (fun _ _ => False) s.
Proof.
  intros Hs. unfold buf_core_get. wp_step. apply wp_sanity. wp_step. wp_step.
  destruct (is_eq (bc_state s) BM_STATE_ACTIVE) eqn:Hact.
  2: { wp_step. split; [done|]. split; [done|]. left. by apply bool_decide_eq_false in Hact. }
  destruct (free_que s) as [|a q] eqn:Hq; [wp_step; split; [done|split; [done|by right]]|].
  pose proof (bo_ents _ _ Hs) as He. rewrite Hq in He. destruct (proj1 (eo_free _ _ _ He a)) as (e & Ha & Hr); [left|].
  wp_step. eapply wp_entry_at; [exact Ha|]. wp_step. apply wp_touch; [by eapply head_dom|].
  wp_step. wp_step. wp_step. eapply wp_upd_entry; [exact Ha|]. wp_step. unfold ref_inc.
  eapply wp_upd_entry; [apply lookup_insert_eq|]. cbn -[Z.add Z.sub zlen s32]. rewrite insert_insert_eq, Hr.
  change (s32 (0 + 1)) with 1. pose proof (get_head_ok rel s u a q e Hs Hq Ha) as Hs1.
  match type of Hs1 with bc_ok _ ?x => match goal with |- wp _ _ _ _ ?y => change y with x; set (s1 := x) in * end end.
  assert (got u (key e) s1 a) as Hg1 by (eexists; split; [apply lookup_insert_eq|done]).
  assert (frame s s1) as Hf1 by done. assert (free_que s1 = q) as Hq1 by done. clearbody s1.
  eapply sub_step_wp; [by left|exact Hs1|exact Hg1|]. intros s2 Hs2 Hf2 Hq2 Hg2.
  eapply sub_step_wp; [by right; left|exact Hs2|exact Hg2|]. intros s3 Hs3 Hf3 Hq3 Hg3. wp_step.
  apply (wp_mono _ (fun _ s4 => bc_ok rel s4 ∧ frame s3 s4 ∧ free_que s4 = free_que s3 ∧ got u (key e) s4 a) _ (fun _ _ => False)); [| |done].
  - wp_step; [|done]. eapply call_prepare_wp; [exact Hs3|]. intros s4 Hs4 Hf4 Hq4 Hk. by eauto using got_keeps.
  - intros _ s4 (Hs4 & Hf4 & Hq4 & (x & Hx & Hxr & Hxs & Hxu & Hxk)). wp_step. eapply wp_update_holder; [exact Hx|].
    intros y _ (Y1 & Y2 & Y3 & Y4 & Y5 & Y6 & Y7 & Y8). wp_step. split.
    + pose proof (eo_sub _ _ _ (bo_ents _ _ Hs4) _ _ Hx) as Hsub.
      eapply bc_ok_insert; [exact Hs4|done|exact Hx|done|done|done|done| |lia|lia|].
      * unfold links. by rewrite Y6, Y7, Y8.
      * rewrite Y4, Y5. exact Hsub.
    + split; [by repeat (eapply frame_trans; [|done])|]. split; [cbn; congruence|].
      exists e. split; [done|]. split; [done|]. exists y. split; [apply lookup_insert_eq|]. repeat split; congruence.
Qed.

(** *** The pool *)

Lemma bc_ok_pool rel s s' : bc_ok rel s → pframe s s' → (dynamic_mode = true → pool_inv s') → bc_ok rel s'.
Proof.
  intros [H1 H2 H3 H4 H5 H6] (E1 & E2 & E3 & E4 & E5 & E6) Hp. split; rewrite ?E1, ?E2, ?E3, ?E4, ?E5, ?E6; done.
Qed.

Lemma pool_step_ok {A} rel (m : B A) s : bc_ok rel s → ((dynamic_mode = true → pool_inv s) → pool_step m s) → ok_step rel m s.
Proof.
  intros Hs Hm. eapply wp_mono; [apply Hm, Hs| |done]. intros a s' [Hp Hf]. by eapply bc_ok_pool.
Qed.

(** *** Loops over the table *)

Lemma wp_each l (body : Z → B unit) (I : list Z → buf_core_mgr_s → Prop) s (Q : unit → buf_core_mgr_s → Prop) E :
  I l s → (∀ a r s, I (a :: r) s → wp False (body a) (fun _ => I r) E s) → (∀ s, I [] s → Q tt s) →
  wp False (each l body) Q E s.
Proof.
  intros Hl Hb HQ. revert s Hl. induction l as [|a l IH]; intros s Hl; cbn [each].
  - wp_step. by apply HQ.
  - wp_step. eapply wp_mono; [by apply Hb| |done]. intros [] s' Hs'. by apply IH.
Qed.

(** A body that keeps the invariant, and the set of buffers. *)
Lemma wp_each_ok rel (body : Z → B unit) s :
  bc_ok rel s → (∀ a s, bc_ok rel s → is_Some (entries s !! a) → wp False (body a)
     (fun _ s' => bc_ok rel s' ∧ ∀ b, is_Some (entries s !! b) → is_Some (entries s' !! b)) (fun _ _ => False) s) →
  wp False (each (buf_table s) body) (fun _ => bc_ok rel) (fun _ _ => False) s.
Proof.
  intros Hs Hb. apply (wp_each _ _ (fun r s' => bc_ok rel s' ∧ ∀ a, a ∈ r → is_Some (entries s' !! a))).
  - split; [done|]. intros a Ha. by apply (eo_dom _ _ _ (bo_ents _ _ Hs)).
  - intros a r s1 [Hs1 Hd]. eapply wp_mono; [apply Hb; [done|apply Hd; left]| |done].
    intros _ s2 [Hs2 Hd2]. split; [done|]. intros b Hin. apply Hd2, Hd. by right.
  - by intros s1 [Hs1 _].
Qed.

(** An update that keeps what the invariant speaks of. *)
Lemma bc_ok_upd rel s a e e' : bc_ok rel s → entries s !! a = Some e →
  key e' = key e → ref e' = ref e → pair e' = pair e → (∀ b, links e' b → links e b) →
  bc_ok rel (s <| entries := <[a := e']> (entries s) |>).
Proof.
  intros Hs Ha Hk Hr Hp Hlk.
  pose proof (eo_ref _ _ _ (bo_ents _ _ Hs) _ _ Ha) as Hb. pose proof (eo_sub _ _ _ (bo_ents _ _ Hs) _ _ Ha) as Hsub.
  eapply bc_ok_insert; [exact Hs|by repeat split|exact Ha|done|done|done|done|done| | |]; rewrite ?Hr, ?Hp; done.
Qed.

Lemma insert_dom (m : gmap Z buf_core_entry) a x b : is_Some (m !! b) → is_Some (<[a := x]> m !! b).
Proof. intros Hb. apply lookup_insert_is_Some'. by right. Qed.

Lemma put_dma_ok rel s : bc_ok rel s → ok_step rel buf_core_put_dma s.
Proof.
  intros Hs. unfold ok_step, buf_core_put_dma. wp_step. wp_step. apply wp_each_ok; [done|]. intros a s1 Hs1 [e Ha].
  wp_step. eapply wp_entry_at; [exact Ha|]. wp_step; [|done]. wp_step. eapply wp_upd_entry; [exact Ha|]. apply wp_log.
  split; [|intros b; apply insert_dom]. apply (bc_ok_events rel (s1 <| entries := _ |>)). by eapply bc_ok_upd.
Qed.

Lemma update_planes_ok rel s : bc_ok rel s → ok_step rel buf_core_update_planes s.
Proof.
  intros Hs. unfold ok_step, buf_core_update_planes. wp_step. wp_step. apply wp_each_ok; [done|]. intros a s1 Hs1 [e Ha].
  wp_step. eapply wp_entry_at; [exact Ha|]. wp_step; [|done]. wp_step. apply wp_log. wp_step.
  destruct (reconfigure_ok a (entries s1)) as [Hk Hl]; [apply Hs1|]. split; [|intros b Hb; by apply (keeps_dom _ _ b Hk)].
  eapply (bc_ok_frame _ s1); [done|by repeat split| |apply Hs1]. cbn. eapply ents_keeps; [exact Hk|done|apply Hs1].
Qed.

(** Changing a buffer, then preparing it. *)
Lemma upd_prepare_ok rel s a g : bc_ok rel s →
  (∃ e, entries s !! a = Some e ∧ key (g e) = key e ∧ ref (g e) = ref e ∧ (∀ b, links (g e) b → links e b) ∧
        (pair (g e) ≠ BUF_MASTER → 1 ≤ ref e)) →
  ok_step rel (upd_entry a g;; call_prepare a) s.
Proof.
  intros Hs (e & Ha & Hk & Hr & Hl & Hp). unfold ok_step. wp_step. eapply wp_upd_entry; [exact Ha|].
  eapply call_prepare_wp; [|by auto]. pose proof (eo_ref _ _ _ (bo_ents _ _ Hs) _ _ Ha).
  eapply bc_ok_insert; [exact Hs|by repeat split|exact Ha|done|done|done|done|done| | |]; rewrite ?Hr; done.
Qed.

(** A buffer nobody holds stays a master. *)
Lemma update_ok rel s a phy p : bc_ok rel s →
  (∃ e, entries s !! a = Some e ∧ (p ≠ BUF_MASTER → 1 ≤ ref e)) → ok_step rel (buf_core_update a phy p) s.
Proof. intros Hs (e & Ha & Hp). apply upd_prepare_ok; [done|]. by exists e. Qed.

Lemma replace_ok rel s a priv : bc_ok rel s → is_Some (entries s !! a) → ok_step rel (buf_core_replace a priv) s.
Proof.
  intros Hs [e Ha]. apply upd_prepare_ok; [done|]. exists e. split; [done|]. split; [done|]. split; [done|].
  split; [done|]. exact (eo_sub _ _ _ (bo_ents _ _ Hs) _ _ Ha).
Qed.

(** *** Attaching and detaching *)

Lemma wp_find_key k l s (Q : option Z → buf_core_mgr_s → Prop) E :
  (∀ a, a ∈ l → is_Some (entries s !! a)) →
  (∀ a e, a ∈ l → entries s !! a = Some e → key e = k → Q (Some a) s) →
  ((∀ a e, a ∈ l → entries s !! a = Some e → key e ≠ k) → Q None s) → wp False (find_key l k) Q E s.
Proof.
  intros Hd Hyes Hno. induction l as [|a l IH]; cbn [find_key].
  - wp_step. apply Hno. by intros a e Ha%elem_of_nil.
  - destruct (Hd a) as [e Ha]; [left|]. wp_step. eapply wp_entry_at; [exact Ha|]. wp_step; bprop.
    + wp_step. eapply Hyes; [left|done|done].
    + apply IH.
      * intros b Hb. apply Hd. by right.
      * intros b x Hb. apply Hyes. by right.
      * intros Hl. apply Hno. intros b x [->|Hb]%elem_of_cons; [congruence|by eapply Hl].
Qed.

Lemma table_dom rel s a : bc_ok rel s → a ∈ buf_table s → is_Some (entries s !! a).
Proof. intros Hs. apply (eo_dom _ _ _ (bo_ents _ _ Hs)). Qed.

Lemma take_dma_ok rel s a : bc_ok rel s → is_Some (entries s !! a) →
  wp False (take_dma_buf a) (fun _ s' => bc_ok rel s' ∧ is_Some (entries s' !! a)) (fun _ _ => False) s.
Proof.
  intros Hs [e Ha]. unfold take_dma_buf. wp_step. eapply wp_entry_at; [exact Ha|]. wp_step. apply wp_log.
  eapply wp_upd_entry; [exact Ha|]. split; [|eexists; apply lookup_insert_eq].
  eapply (bc_ok_upd rel (s <| events := _ |>)); [by apply bc_ok_events|exact Ha|done..].
Qed.

(** Attaching a buffer that is in the table again. *)
Lemma attach_again_ok rel s a priv (b : bool) : bc_ok rel s → is_Some (entries s !! a) →
  ok_step rel (e ← entry_at a; when (b && (dma_ref e =? 0)) (take_dma_buf a);;
    upd_entry a (fun e => e <| user := BUF_USER_MAX |> <| state := BUF_STATE_INIT |> <| vb2 := priv |>);;
    call_prepare a;; mret 0) s.
Proof.
  intros Hs [e Ha]. unfold ok_step. wp_step. eapply wp_entry_at; [exact Ha|]. wp_step.
  apply (wp_mono _ (fun _ s' => bc_ok rel s' ∧ is_Some (entries s' !! a)) _ (fun _ _ => False)); [| |done].
  - wp_step; [|split; [done|by exists e]]. apply take_dma_ok; [done|by exists e].
  - intros _ s1 [Hs1 [e1 Ha1]]. wp_step. eapply wp_upd_entry; [exact Ha1|]. wp_step.
    eapply call_prepare_wp; [|intros s2 Hs2 _ _ _; by wp_step]. by eapply bc_ok_upd.
Qed.

(** What the allocation of an entry has to give: an unused address, and
    contents without links to unknown entries. *)
Definition fresh_entry (s : buf_core_mgr_s) (a : Z) (junk : buf_core_entry) : Prop :=
  entries s !! a = None ∧ zlen (buf_table s) + 1 < 2 ^ 31 ∧ ∀ b, links junk b → b = a ∨ is_Some (entries s !! b).

Lemma ents_new T q m a e : ents_ok T q m → m !! a = None → (∀ b x, m !! b = Some x → key x ≠ key e) →
  ref e = 1 → (∀ b, links e b → b = a ∨ is_Some (m !! b)) → ents_ok (a :: T) q (<[a := e]> m).
Proof.
  intros [H1 H2 H3 H4 H5 H6 H7 H8] Ha Hk Hr Hl. split; try done.
  - constructor; [|done]. intros Hin%H2. rewrite Ha in Hin. by destruct Hin.
  - intros b. rewrite elem_of_cons, lookup_insert_is_Some', H2. intuition congruence.
  - intros b c x y Hb Hc E. destruct (decide (b = a)) as [->|Hba], (decide (c = a)) as [->|Hca]; try done.
    + rewrite lookup_insert_eq in Hb. rewrite lookup_insert_ne in Hc by done. injection Hb as <-. by destruct (Hk _ _ Hc).
    + rewrite lookup_insert_eq in Hc. rewrite lookup_insert_ne in Hb by done. injection Hc as <-. by destruct (Hk _ _ Hb).
    + rewrite lookup_insert_ne in Hb, Hc by done. by eapply H3.
  - intros b. rewrite H5. destruct (decide (b = a)) as [->|Hne].
    + rewrite lookup_insert_eq, Ha. split; [by intros (? & ? & _)|]. intros (x & [= <-] & Hz). lia.
    + by rewrite lookup_insert_ne by done.
  - intros b x. destruct (decide (b = a)) as [->|Hne]; [rewrite lookup_insert_eq; intros [= <-]; lia|].
    rewrite lookup_insert_ne by done. apply H6.
  - intros b x. destruct (decide (b = a)) as [->|Hne]; [rewrite lookup_insert_eq; intros [= <-]; lia|].
    rewrite lookup_insert_ne by done. apply H7.
  - intros b x c Hb Hc. apply lookup_insert_is_Some'. destruct (decide (b = a)) as [->|Hne].
    + rewrite lookup_insert_eq in Hb. injection Hb as <-. destruct (Hl _ Hc); [left|right]; done.
    + rewrite lookup_insert_ne in Hb by done. right. by eapply H8.
Qed.

Lemma attach_new_ok s a junk k phy priv : bc_ok false s → fresh_entry s a junk →
  (∀ b x, entries s !! b = Some x → key x ≠ k) → ok_step false (attach_new a junk k phy priv) s.
Proof.
  intros Hs (Ha & Hlen & Hl) Hk. unfold ok_step, attach_new. wp_step. wp_step. wp_step. wp_step.
  match goal with |- wp _ _ _ _ ?x => set (s1 := x) end.
  assert (bc_ok false s1) as Hs1.
  { destruct Hs as [H1 H2 H3 H4 H5 H6]. split; cbn -[zlen s32]; try done.
    - by apply ents_new.
    - unfold zlen in *. cbn. lia.
    - rewrite H4. unfold zlen. cbn. lia. }
  wp_step; [|done]. eapply wp_mono; [apply (take_dma_ok false); [done|eexists; apply lookup_insert_eq]|by intros ? ? []|done].
Qed.

(** [announce_dma] only reads. *)
Lemma announce_dma_wp rel s k phy : bc_ok rel s → dynamic_mode = true → is_Some vpp_que →
  wp False (announce_dma k phy) (fun _ s' => ∃ ev, s' = s <| events := ev |>) (fun _ _ => False) s.
Proof.
  intros Hs Hd [f Hf]. pose proof (bo_pool _ _ Hs Hd) as Hp. unfold announce_dma. wp_step.
  apply (wp_pool_find _ _ _ (fun _ => True)).
  - intros i Hi. destruct (po_all _ _ _ Hp i) as [d Hi']; [unfold DAMBUF_POOL in Hi; lia|]. wp_step; [|by wp_step].
    wp_step. eapply wp_dma_at; [exact Hi'|]. by wp_step.
  - intros j Hj _. wp_step; [|exists (events s); by destruct s]. bprop.
    destruct (po_all _ _ _ Hp j) as [d Hd']; [unfold DAMBUF_POOL in *; lia|].
    wp_step. eapply wp_dma_at; [exact Hd'|]. rewrite Hf. apply wp_log. by eexists.
Qed.

Lemma attach_ok s alloc k phy priv : bc_ok false s → (dynamic_mode = true → is_Some vpp_que) →
  match alloc with inl _ => True | inr (a, junk) => fresh_entry s a junk end →
  ok_step false (buf_core_attach alloc k phy priv) s.
Proof.
  intros Hs Hv Hal. unfold ok_step, buf_core_attach. wp_step. wp_step. wp_step.
  apply wp_find_key; [intros a; by apply (table_dom false)| |].
  - intros a e _ Ha _. apply attach_again_ok; [done|by exists e].
  - intros Hno. wp_step.
    apply (wp_mono _ (fun _ s' => ∃ ev, s' = s <| events := ev |>) _ (fun _ _ => False)); [| |done].
    + wp_step; [|exists (events s); by destruct s]. by eapply announce_dma_wp; auto.
    + intros _ s1 [ev ->]. destruct alloc as [err|[a junk]]; [wp_step; by apply bc_ok_events|]. wp_step.
      eapply wp_mono; [apply attach_new_ok; [by apply bc_ok_events|done|]| |done].
      * intros b x Hb. eapply Hno; [|exact Hb]. apply (eo_dom _ _ _ (bo_ents _ _ Hs)). by exists x.
      * intros [] s2 Hs2. by wp_step.
Qed.

(** The buffer may go: somebody holds it, so it is not in the free queue, and
    no other buffer refers to it. *)
Definition detachable (s : buf_core_mgr_s) (a : Z) : Prop :=
  ∃ e, entries s !! a = Some e ∧ 1 ≤ ref e ∧ ∀ b x, b ≠ a → entries s !! b = Some x → ¬ links x a.

Lemma ents_delete T q m a e : ents_ok T q m → m !! a = Some e → 1 ≤ ref e →
  (∀ b x, b ≠ a → m !! b = Some x → ¬ links x a) → ents_ok (filter (fun x => x ≠ a) T) q (delete a m).
Proof.
  intros [H1 H2 H3 H4 H5 H6 H7 H8] Ha Hr Hl. split; try done.
  - by apply NoDup_filter.
  - intros b. rewrite list_elem_of_filter, H2, lookup_delete_is_Some. intuition congruence.
  - intros b c x y [_ Hb]%lookup_delete_Some [_ Hc]%lookup_delete_Some. by apply H3.
  - intros b. rewrite H5. split; intros (x & Hx & Hz).
    + exists x. split; [|done]. rewrite lookup_delete_ne; [done|]. intros ->. replace x with e in Hz by congruence. lia.
    + apply lookup_delete_Some in Hx as [_ Hx]. by exists x.
  - intros b x [_ Hb]%lookup_delete_Some. by eapply H6.
  - intros b x [_ Hb]%lookup_delete_Some. by eapply H7.
  - intros b x c [Hne Hb]%lookup_delete_Some Hc. apply lookup_delete_is_Some. split; [|by eapply H8].
    intros <-. by eapply Hl.
Qed.

Lemma filter_length (T : list Z) a : NoDup T → a ∈ T → zlen T = zlen (filter (fun x => x ≠ a) T) + 1.
Proof.
  intros Hn Ha. assert (T ≡ₚ a :: filter (fun x => x ≠ a) T) as Hp.
  - apply NoDup_Permutation; [done| |].
    + constructor; [|by apply NoDup_filter]. by intros [? _]%list_elem_of_filter.
    + intros b. rewrite elem_of_cons, list_elem_of_filter. destruct (decide (b = a)) as [->|?]; [|tauto]. split; [by left|done].
  - unfold zlen. rewrite Hp at 1. cbn. lia.
Qed.

Lemma wp_entry_release a e s (Q : unit → buf_core_mgr_s → Prop) E : entries s !! a = Some e →
  (∀ s', buf_table s' = filter (fun x => x ≠ a) (buf_table s) → entries s' = delete a (entries s) →
     free_que s' = free_que s → free_num s' = free_num s → core_ref s' = core_ref s → bc_state s' = bc_state s →
     dma s' = dma s → dma_free_que s' = dma_free_que s → dma_free_num s' = dma_free_num s → Q tt s') →
  wp False (entry_release a) Q E s.
Proof.
  intros Ha HQ. unfold entry_release, mem_free. wp_step. eapply wp_upd_entry; [exact Ha|]. wp_step. wp_step. wp_step.
  eapply wp_entry_at; [apply lookup_insert_eq|]. wp_step. apply wp_log. wp_step.
  apply HQ; try done. cbn. by rewrite delete_insert_eq.
Qed.

(** Releasing the core when its last reference goes. *)
Lemma wp_core_put s (Q : unit → buf_core_mgr_s → Prop) E : 1 ≤ core_ref s →
  (core_ref s = 1 → ∀ a, a ∈ free_que s → is_Some (entries s !! a)) →
  (∀ s', core_ref s' = core_ref s - 1 → buf_table s' = buf_table s → entries s' = entries s →
     dma s' = dma s → dma_free_que s' = dma_free_que s → dma_free_num s' = dma_free_num s →
     (if core_ref s =? 1 then free_que s' = [] ∧ free_num s' = 0 ∧ bc_state s' = BM_STATE_EXIT
      else free_que s' = free_que s ∧ free_num s' = free_num s ∧ bc_state s' = bc_state s) → Q tt s') →
  wp False core_put Q E s.
Proof.
  intros Hr Hq HQ. unfold core_put. wp_step. wp_step. wp_step; bprop; [lia|]. wp_step. wp_step. wp_step; bprop.
  - unfold buf_core_destroy, free_que_clear. wp_step. wp_step. wp_step. wp_step. apply wp_touch_all; [by apply Hq|]. wp_step. wp_step.
    apply HQ; try done. by rewrite H0.
  - apply HQ; try done. by rewrite (proj2 (Z.eqb_neq _ _)) by done.
Qed.

Lemma no_buffers_no_queue q m : ents_ok [] q m → q = [].
Proof.
  intros H. destruct q as [|b q]; [done|]. destruct (proj1 (eo_free _ _ _ H b)) as (x & Hx & _); [left|].
  assert (b ∈ @nil Z) as Hb by (apply (eo_dom _ _ _ H); by exists x). by apply elem_of_nil in Hb.
Qed.

Lemma detach_ok rel s k : bc_ok rel s → (∀ a e, entries s !! a = Some e → key e = k → detachable s a) →
  ok_step rel (buf_core_detach k) s.
Proof.
  intros Hs Hv. unfold ok_step, buf_core_detach. wp_step. wp_step. wp_step.
  apply wp_find_key; [intros a; by apply (table_dom rel)| |intros _; by wp_step].
  intros a e Hin Ha Hk. destruct (Hv a e Ha Hk) as (x & Hx & Hr & Hl). replace x with e in * by congruence. clear x Hx.
  pose proof (ents_delete _ _ _ _ _ (bo_ents _ _ Hs) Ha Hr Hl) as Hdel.
  pose proof (filter_length _ _ (eo_table _ _ _ (bo_ents _ _ Hs)) Hin) as Hlen.
  wp_step. eapply wp_entry_release; [exact Ha|]. intros s1 E1 E2 E3 E4 E5 E6 E7 E8 E9.
  pose proof (bo_core _ _ Hs) as Hc. pose proof (zlen_nonneg (filter (fun x => x ≠ a) (buf_table s))).
  rewrite <- E1, <- E2, <- E3 in Hdel.
  apply wp_core_put; [destruct rel; lia| |].
  { intros _ b Hb. apply (eo_free _ _ _ Hdel) in Hb as (x & Hx & _). by exists x. }
  intros s2 G1 G2 G3 G4 G5 G6 G7. destruct (Z.eqb_spec (core_ref s1) 1) as [Eone|Emore].
  - assert (rel = true ∧ buf_table s1 = []) as [-> Hnil].
    { rewrite <- E1 in Hlen. destruct rel; [|destruct (buf_table s1); unfold zlen in *; cbn in *; lia].
      split; [done|]. destruct (buf_table s1); [done|]. unfold zlen in *. cbn in *. lia. }
    destruct G7 as (Q1 & Q2 & Q3). rewrite Hnil in *. pose proof (no_buffers_no_queue _ _ Hdel) as Hq.
    split; rewrite ?G1, ?G2, ?G3, ?G4, ?G5, ?G6, ?Q1, ?Q2, ?Q3, ?E7, ?E8, ?E9; rewrite ?Hnil; try done.
    + by rewrite Hq in Hdel.
    + by rewrite Eone.
    + apply Hs.
  - destruct G7 as (Q1 & Q2 & Q3).
    split; rewrite ?G1, ?G2, ?G3, ?G4, ?G5, ?G6, ?Q1, ?Q2, ?Q3, ?E4, ?E5, ?E7, ?E8, ?E9.
    + done.
    + rewrite E3. apply Hs.
    + pose proof (bo_size _ _ Hs). rewrite E1. lia.
    + rewrite E1. lia.
    + intros -> Hnil. rewrite E1 in Hnil. rewrite Hnil in Hlen. unfold zlen in *. cbn in *. lia.
    + apply Hs.
Qed.

Lemma release_ok s : bc_ok false s → ok_step true buf_core_mgr_release s.
Proof.
  intros Hs. unfold ok_step, buf_core_mgr_release. wp_step. wp_step. pose proof (bo_core _ _ Hs) as Hc.
  pose proof (zlen_nonneg (buf_table s)). destruct Hs as [H1 H2 H3 H4 H5 H6].
  apply wp_core_put; cbn -[zlen].
  - lia.
  - intros _ a Ha. apply (eo_free _ _ _ H1) in Ha as (x & Hx & _). by exists x.
  - intros s' G1 G2 G3 G4 G5 G6 G7. cbn -[zlen] in *. destruct (Z.eqb_spec (core_ref s) 1) as [E|E].
    + destruct G7 as (Q1 & Q2 & Q3). assert (buf_table s = []) as Hnil.
      { destruct (buf_table s); [done|]. unfold zlen in *. cbn in *. lia. }
      rewrite Hnil in *. pose proof (no_buffers_no_queue _ _ H1) as Hq.
      split; rewrite ?G1, ?G2, ?G3, ?G4, ?G5, ?G6, ?Q1, ?Q2, ?Q3; try done; [by rewrite Hq in H1|by rewrite E].
    + destruct G7 as (Q1 & Q2 & Q3). split; rewrite ?G1, ?G2, ?G3, ?G4, ?G5, ?G6, ?Q1, ?Q2, ?Q3; try done; [lia|].
      intros _ Hnil. rewrite Hnil in *. unfold zlen in *. cbn in *. lia.
Qed.

(** *** Reset *)

(** The state before the loop of [buf_core_reset]. *)
Definition cleared (s s1 : buf_core_mgr_s) : Prop :=
  bc_state s1 = bc_state s ∧ core_ref s1 = core_ref s ∧ buf_table s1 = buf_table s ∧ entries s1 = entries s ∧
  free_que s1 = [] ∧ (dynamic_mode = true → pool_inv s1).

(** Without the dynamic mode: the entries not reached yet are as before, the
    others are held. *)
Record resetting (s : buf_core_mgr_s) (r : list Z) (s1 : buf_core_mgr_s) : Prop := {
  rs_frame : bc_state s1 = bc_state s ∧ core_ref s1 = core_ref s ∧ buf_table s1 = buf_table s;
  rs_que : free_que s1 = [];
  rs_pool : dynamic_mode = true → pool_inv s1;
  rs_dom : ∀ a, is_Some (entries s !! a) ↔ is_Some (entries s1 !! a);
  rs_same : ∀ a e1, entries s1 !! a = Some e1 → ∃ e, entries s !! a = Some e ∧ key e1 = key e ∧ pair e1 = pair e ∧
    (∀ b, links e1 b → links e b) ∧ (e1 = e ∨ 1 ≤ ref e1 < 2 ^ 31) ∧ (a ∉ r → 1 ≤ ref e1 < 2 ^ 31)
}.

Lemma reset_entry_spec e : key (reset_entry e) = key e ∧ pair (reset_entry e) = pair e ∧
  (∀ b, links (reset_entry e) b → links e b) ∧ ((pair e ≠ BUF_MASTER → 1 ≤ ref e < 2 ^ 31) → 1 ≤ ref (reset_entry e) < 2 ^ 31).
Proof.
  unfold reset_entry, is_eq. cbn. case_bool_decide as Hp; (split; [done|]); (split; [done|]); (split; [done|]); cbn.
  - intros _. destruct (bool_decide _), (bool_decide _); cbn; lia.
  - intros Hr. by apply Hr.
Qed.

Lemma reset_static_step rel s a r s1 : bc_ok rel s → dynamic_mode = false → NoDup (a :: r) → is_Some (entries s !! a) →
  resetting s (a :: r) s1 → wp False (reset_each a) (fun _ => resetting s r) (fun _ _ => False) s1.
Proof.
  intros Hs Hd [Ha Hn]%NoDup_cons Hin [H1 H2 H3 H4 H5]. unfold reset_each. rewrite Hd. apply H4 in Hin as [e1 He1].
  eapply wp_upd_entry; [exact He1|]. destruct (H5 _ _ He1) as (e & He & Hk & Hp & Hl & Heq & _).
  destruct (reset_entry_spec e1) as (R1 & R2 & R3 & R4).
  assert (1 ≤ ref (reset_entry e1) < 2 ^ 31) as Hr.
  { apply R4. intros Hm. destruct Heq as [->|?]; [|done]. pose proof (eo_sub _ _ _ (bo_ents _ _ Hs) _ _ He Hm).
    pose proof (eo_ref _ _ _ (bo_ents _ _ Hs) _ _ He). lia. }
  split; cbn; try done.
  - intros b. rewrite lookup_insert_is_Some', H4. split; [by auto|]. intros [<-|?]; [by exists e1|done].
  - intros b x Hb. destruct (decide (b = a)) as [->|Hne].
    + rewrite lookup_insert_eq in Hb. injection Hb as <-. exists e. split; [done|]. repeat split; try congruence; auto; lia.
    + rewrite lookup_insert_ne in Hb by done. destruct (H5 _ _ Hb) as (y & Hy & ? & ? & ? & ? & Hout). exists y.
      repeat split; try done; apply Hout; rewrite elem_of_cons; tauto.
Qed.

Lemma reset_static_end rel s s1 : bc_ok rel s → resetting s [] s1 →
  bc_ok rel (s1 <| free_num := 0 |> <| internal_num := 0 |>).
Proof.
  intros Hs [(F1 & F2 & F3) H2 H3 H4 H5]. destruct Hs as [He Hn Hsz Hc Hx Hp].
  split; cbn -[zlen]; rewrite ?F1, ?F2, ?F3; rewrite ?H2; try done.
  assert (∀ a x, entries s1 !! a = Some x → 1 ≤ ref x < 2 ^ 31) as Hr.
  { intros a x Ha. destruct (H5 _ _ Ha) as (e & _ & _ & _ & _ & _ & Hr). apply Hr. by intros ?%elem_of_nil. }
  destruct He as [E1 E2 E3 E4 E5 E6 E7 E8]. split; try done.
  - intros a. by rewrite E2.
  - intros a b x y Ha Hb E. destruct (H5 _ _ Ha) as (x' & Hx' & Kx & _). destruct (H5 _ _ Hb) as (y' & Hy' & Ky & _).
    eapply E3; [done..|congruence].
  - constructor.
  - intros a. split; [by intros ?%elem_of_nil|]. intros (x & Ha & Hz). specialize (Hr _ _ Ha). lia.
  - intros a x Ha. specialize (Hr _ _ Ha). lia.
  - intros a x Ha _. specialize (Hr _ _ Ha). lia.
  - intros a x b Ha Hl. destruct (H5 _ _ Ha) as (e & Hea & _ & _ & Hlk & _). apply H4. eapply E8; [exact Hea|by apply Hlk].
Qed.

(** In the dynamic mode every buffer is released. *)
Record draining (rel : bool) (r : list Z) (s1 : buf_core_mgr_s) : Prop := {
  dr_table : buf_table s1 = r;
  dr_nodup : NoDup r;
  dr_dom : ∀ a, a ∈ r ↔ is_Some (entries s1 !! a);
  dr_que : free_que s1 = [];
  dr_size : zlen r < 2 ^ 31;
  dr_core : core_ref s1 = zlen r + (if rel then 0 else 1);
  dr_exit : rel = true → r = [] → bc_state s1 = BM_STATE_EXIT;
  dr_pool : dynamic_mode = true → pool_inv s1
}.

Lemma filter_tail (a : Z) r : a ∉ r → filter (fun x => x ≠ a) (a :: r) = r.
Proof.
  intros Ha. rewrite filter_cons_False by (intros H; by apply H). induction r as [|b r IH]; [done|].
  apply not_elem_of_cons in Ha as [Hne Ha]. rewrite filter_cons_True by done. by rewrite IH.
Qed.

Lemma reset_dynamic_step rel a r s1 : dynamic_mode = true → draining rel (a :: r) s1 →
  wp False (reset_each a) (fun _ => draining rel r) (fun _ _ => False) s1.
Proof.
  intros Hd [H1 H2 H3 H4 H5 H6 H7 H8]. unfold reset_each. rewrite Hd. apply NoDup_cons in H2 as [Ha Hn].
  destruct (proj1 (H3 a)) as [e He]; [left|]. wp_step. eapply wp_entry_release; [exact He|].
  intros s2 E1 E2 E3 E4 E5 E6 E7 E8 E9. wp_step. wp_step.
  assert (zlen (a :: r) = zlen r + 1) as Hlen by (unfold zlen; cbn; lia). pose proof (zlen_nonneg r).
  rewrite H1, filter_tail in E1 by done.
  apply wp_core_put; cbn -[zlen]; rewrite ?E5; [destruct rel; lia|by rewrite E3, H4; intros _ b ?%elem_of_nil|].
  intros s3 G1 G2 G3 G4 G5 G6 G7. split; rewrite ?G1, ?G2, ?G3; try done.
  - intros b. rewrite E2, lookup_delete_is_Some, <- H3, elem_of_cons. split; [|by intros [? [->|?]]].
    intros Hb. split; [by intros <-|by right].
  - destruct (_ =? 1); destruct G7 as (-> & _); [done|]. cbn. by rewrite E3.
  - lia.
  - lia.
  - intros -> ->. rewrite H6 in G7. by destruct G7 as (_ & _ & ->).
  - intros _. unfold pool_inv. rewrite G4, G5, G6. cbn. rewrite E7, E8, E9. by apply H8.
Qed.

Lemma reset_dynamic_end rel s1 : draining rel [] s1 → bc_ok rel (s1 <| free_num := 0 |> <| internal_num := 0 |>).
Proof.
  intros [H1 H2 H3 H4 H5 H6 H7 H8].
  assert (∀ a x, ¬ entries s1 !! a = Some x) as Hno.
  { intros a x Ha. assert (a ∈ @nil Z) as Hin by (apply H3; by exists x). by apply elem_of_nil in Hin. }
  split; cbn -[zlen]; rewrite ?H1, ?H4; try done. split; try done.
  - intros a b x y Ha. by destruct (Hno _ _ Ha).
  - intros a. split; [by intros ?%elem_of_nil|]. intros (x & Ha & _). by destruct (Hno _ _ Ha).
  - intros a x Ha. by destruct (Hno _ _ Ha).
  - intros a x Ha. by destruct (Hno _ _ Ha).
  - intros a x b Ha. by destruct (Hno _ _ Ha).
Qed.

Lemma reset_loop_ok rel s s1 : bc_ok rel s → cleared s s1 →
  wp False (l ← gets buf_table; each l reset_each;; modify (fun s => s <| free_num := 0 |> <| internal_num := 0 |>))
    (fun _ => bc_ok rel) (fun _ _ => False) s1.
Proof.
  intros Hs (C1 & C2 & C3 & C4 & C5 & C6). wp_step. wp_step. wp_step. rewrite C3.
  destruct dynamic_mode eqn:Hd.
  - apply (wp_each _ _ (draining rel)).
    + destruct Hs as [He Hn Hsz Hc Hx Hp]. split; rewrite ?C1, ?C2, ?C3, ?C4; try done; [apply He|apply He|by auto].
    + intros a r s2. by apply reset_dynamic_step.
    + intros s2 Hs2. wp_step. by apply reset_dynamic_end.
  - apply (wp_each _ _ (fun r s' => resetting s r s' ∧ NoDup r ∧ ∀ a, a ∈ r → is_Some (entries s !! a))).
    + split; [|split; [apply Hs|intros a; by apply (table_dom rel)]]. split; rewrite ?C1, ?C2, ?C3, ?C4; try done; [by rewrite Hd|].
      intros a e Ha. exists e. split; [done|]. split; [done|]. split; [done|]. split; [done|]. split; [by left|].
      intros Hno. destruct Hno. apply (eo_dom _ _ _ (bo_ents _ _ Hs)). by exists e.
    + intros a r s2 (Hs2 & Hn & Hin). eapply wp_mono; [eapply reset_static_step; [done|done|done|apply Hin; left|done]| |done].
      intros [] s3 Hs3. apply NoDup_cons in Hn as [_ Hn]. split; [done|]. split; [done|]. intros b Hb. apply Hin. by right.
    + intros s2 (Hs2 & _). wp_step. by eapply reset_static_end.
Qed.

Lemma reset_ok rel s : bc_ok rel s → ok_step rel buf_core_reset s.
Proof.
  intros Hs. unfold ok_step, buf_core_reset. wp_step.
  apply (wp_mono _ (fun _ s' => bc_ok rel s') _ (fun _ _ => False)); [| |done].
  { wp_step; [|done]. apply wp_log. by apply bc_ok_events. }
  clear s Hs. intros _ s Hs. wp_step. wp_step. unfold free_que_clear. wp_step. wp_step. wp_step. wp_step.
  apply wp_touch_all.
  { intros a Ha. cbn in *. apply (eo_free _ _ _ (bo_ents _ _ Hs)) in Ha as (x & Hx & _). by exists x. }
  wp_step. wp_step. apply (wp_mono _ (fun _ s' => cleared s s') _ (fun _ _ => False)); [| |done].
  - wp_step; [|split; [done|]; split; [done|]; split; [done|]; split; [done|]; split; [done|]; exact (bo_pool _ _ Hs)]. eapply wp_mono; [apply reset_dma_step; by apply Hs| |done].
    intros _ s' [Hp (E1 & E2 & E3 & E4 & E5 & E6)]. by split; [|split; [|split; [|split; [|split]]]].
  - intros _ s1 Hs1. by eapply reset_loop_ok.
Qed.

End Refs.
