(* ===== verification/BufLife.v ===== *)
(** The life of the buffer core: every sequence of operations that keeps to
    the rules of [op_valid] runs, and keeps the invariant of BufRefs.v
    (src/drivers/amvdec_ports/aml_buf_core.c).

    The operations are those of [bc->buf_ops] and [bc->config] and the two
    functions of the manager's life; the AVBC buffers, which never are in the
    table, are left out. *)

From stdpp Require Import base list numbers gmap.
From Stdlib Require Import ZArith Lia Bool.
From S2P Require Import Prelude.
From S2P Require Import BufCore.
From S2P Require Import BufHolder.
From S2P Require Import BufPool.
From S2P Require Import BufRefs.

#[local] Open Scope Z_scope.

(** ** The operations *)

Inductive buf_op :=
| Op_get (u : buf_core_user)
| Op_put (a : Z)
| Op_get_ref (a : Z)
| Op_put_ref (a : Z)
| Op_done (a : Z) (u : buf_core_user)
| Op_fill (a : Z) (u : buf_core_user)
| Op_vpp_cb (a : Z)
| Op_ready_num
| Op_empty
| Op_attach (alloc : allocated) (k phy priv : Z)
| Op_detach (k : Z)
| Op_reset
| Op_update (a phy : Z) (p : buf_pair)
| Op_replace (a priv : Z)
| Op_put_dma
| Op_update_planes
| Op_check_in_table (k : Z)
| Op_slot_occupied
| Op_alloc_dma (out : option Z)
| Op_release_dma (uvm : Z)
| Op_get_free_dmabuf
| Op_put_free_dmabuf (b uvm : Z) (dec_flag : bool)
| Op_get_dmabuf_ref (b : Z) (dec_flag : bool)
| Op_mgr_release.

Section Life.
Context `{Hcb : BufCallbacks} {Hok : BufCallbacksOk}.

(** The operation without its result. *)
Definition forget {A} (m : B A) : B unit := m;; mret tt.

Definition run (op : buf_op) : B unit :=
  match op with
  | Op_get u => forget (buf_core_get u)
  | Op_put a => buf_core_put a
  | Op_get_ref a => buf_core_get_ref a
  | Op_put_ref a => buf_core_put_ref a
  | Op_done a u => forget (buf_core_done a u)
  | Op_fill a u => buf_core_fill a u
  | Op_vpp_cb a => buf_core_vpp_cb a
  | Op_ready_num => forget buf_core_ready_num
  | Op_empty => forget buf_core_empty
  | Op_attach alloc k phy priv => forget (buf_core_attach alloc k phy priv)
  | Op_detach k => buf_core_detach k
  | Op_reset => buf_core_reset
  | Op_update a phy p => buf_core_update a phy p
  | Op_replace a priv => buf_core_replace a priv
  | Op_put_dma => buf_core_put_dma
  | Op_update_planes => buf_core_update_planes
  | Op_check_in_table k => forget (buf_core_check_in_table k)
  | Op_slot_occupied => forget buf_core_dmabuf_slot_occupied
  | Op_alloc_dma o => forget (buf_core_alloc_dma o)
  | Op_release_dma uvm => buf_core_release_dma uvm
  | Op_get_free_dmabuf => forget buf_core_get_free_dmabuf
  | Op_put_free_dmabuf b uvm f => buf_core_put_free_dmabuf b uvm f
  | Op_get_dmabuf_ref b f => buf_core_get_dmabuf_ref b f
  | Op_mgr_release => buf_core_mgr_release
  end.

(** Whether the manager has been released afterwards. *)
Definition released (rel : bool) (op : buf_op) : bool :=
  match op with Op_mgr_release => true | _ => rel end.

(** What a caller has to respect.  Giving up a reference requires one, sharing
    requires one already held; detaching requires that somebody holds the
    buffer; a YUV memory is given up only by who has it and not referenced
    while it waits in the queue; nothing is attached, and the manager is not
    released again, after its release. *)
Definition op_valid (rel : bool) (op : buf_op) (s : buf_core_mgr_s) : Prop :=
  match op with
  | Op_put a => held s a 2
  | Op_get_ref a | Op_done a _ => sharable s a
  | Op_put_ref a => held s a 1
  | Op_fill a _ => is_Some (entries s !! a) ∧ held s (fill_target s a) 1
  | Op_vpp_cb a => ∃ e m, entries s !! a = Some e ∧
      (if is_eq (pair e) BUF_MASTER then m = a else master_entry e = Some m) ∧ held s m 1
  | Op_attach alloc _ _ _ => rel = false ∧ (dynamic_mode = true → is_Some vpp_que) ∧
      match alloc with inl _ => True | inr (a, junk) => fresh_entry s a junk end
  | Op_detach k => ∀ a e, entries s !! a = Some e → key e = k → detachable s a
  | Op_update a _ p => ∃ e, entries s !! a = Some e ∧ (p ≠ BUF_MASTER → 1 ≤ ref e)
  | Op_replace a _ => is_Some (entries s !! a)
  | Op_release_dma uvm => ∀ i d, aget (dma s) i = Some (Slot_dma d) → releasable uvm d
  | Op_put_free_dmabuf b _ f => ∀ i d, aget (dma s) i = Some (Slot_dma d) → matches b d → droppable f d
  | Op_get_dmabuf_ref b _ => ∀ i d, aget (dma s) i = Some (Slot_dma d) → matches b d →
      i ∉ dma_free_que s ∧ d_ref d + 1 < 2 ^ 31
  | Op_mgr_release => rel = false
  | _ => True
  end.

(** ** The beginning *)

(** The manager as it is allocated, zeroed. *)
Definition bc_zero : buf_core_mgr_s :=
  mk_bc BM_STATE_INIT 0 0 [] 0 0 [] ∅ 0 0 [] (replicate 32 Slot_null) false (replicate 32 None) [].

Definition start : B unit := forget (buf_core_mgr_init true true);; buf_core_init_dma (fun _ => true).

(** States between operations. *)
Inductive reachable : bool → buf_core_mgr_s → Prop :=
| reach_start s : start bc_zero = Ok tt s → reachable false s
| reach_op rel s op s' : reachable rel s → op_valid rel op s → run op s = Ok tt s' → reachable (released rel op) s'.

(** The pool after [buf_core_init_dma]. *)
Definition new_dma (i : Z) : dma_slot := Slot_dma (mk_dma 0 0 i 0 0 false false 0 [0; 0; 0]).

Lemma new_pool_ok : pool_ok (new_dma <$> seqZ 0 32) [] 0.
Proof.
  assert (∀ i x, aget (new_dma <$> seqZ 0 32) i = Some x → x = new_dma i) as Hi.
  { intros i x. unfold aget. destruct (Z.leb_spec 0 i); [|done]. rewrite list_lookup_fmap.
    destruct (seqZ 0 32 !! Z.to_nat i) as [j|] eqn:Hj; [|done]. apply lookup_seqZ in Hj as [-> _]. intros [= <-]. f_equal. lia. }
  split; try done.
  - intros i Hr. assert (is_Some (aget (new_dma <$> seqZ 0 32) i)) as [x Hx].
    { unfold aget. rewrite (proj2 (Z.leb_le 0 i)) by lia. apply lookup_lt_is_Some. rewrite length_fmap, length_seqZ. lia. }
    rewrite Hx. apply Hi in Hx as ->. by eexists.
  - constructor.
  - by intros i Hin%elem_of_nil.
  - intros i d Hd. apply Hi in Hd. injection Hd as ->. cbn. lia.
Qed.

Lemma start_ok : ∃ s, start bc_zero = Ok tt s ∧ bc_ok false s ∧ entries s = ∅ ∧ bc_state s = BM_STATE_INIT.
Proof.
  assert (∀ s, entries s = ∅ → buf_table s = [] → free_que s = [] → free_num s = 0 → core_ref s = 1 →
    (dynamic_mode = true → pool_inv s) → bc_ok false s) as Hnew.
  { intros s E1 E2 E3 E4 E5 Hp. split; rewrite ?E1, ?E2, ?E3, ?E4, ?E5; try done. split; try done; try constructor.
    - by intros ?%elem_of_nil.
    - rewrite lookup_empty. by intros [].
    - by intros ?%elem_of_nil.
    - intros (x & Hx & _). by rewrite lookup_empty in Hx. }
  unfold start, buf_core_init_dma. destruct dynamic_mode eqn:Hd.
  - eexists. split; [vm_compute; reflexivity|]. split; [|done]. apply Hnew; try done. intros _. exact new_pool_ok.
  - eexists. split; [vm_compute; reflexivity|]. split; [|done]. by apply Hnew.
Qed.

(** ** Every operation keeps the invariant *)

Lemma forget_ok {A} rel (m : B A) s : ok_step rel m s → ok_step rel (forget m) s.
Proof. intros Hm. unfold ok_step, forget. wp_step. eapply wp_mono; [exact Hm| |done]. intros a s' Hs'. by wp_step. Qed.

Lemma check_in_table_ok rel s k : bc_ok rel s → ok_step rel (buf_core_check_in_table k) s.
Proof.
  intros Hs. unfold ok_step, buf_core_check_in_table. wp_step. wp_step. wp_step.
  apply wp_find_key; [intros a; by apply (table_dom rel)| |]; intros; by wp_step.
Qed.

Lemma ready_num_ok rel s : bc_ok rel s → ok_step rel buf_core_ready_num s.
Proof. intros Hs. unfold ok_step, buf_core_ready_num. wp_step. apply wp_sanity. wp_step. wp_step. by wp_step. Qed.

Lemma empty_ok rel s : bc_ok rel s → ok_step rel buf_core_empty s.
Proof. intros Hs. unfold ok_step, buf_core_empty. wp_step. apply wp_sanity. wp_step. wp_step. by wp_step. Qed.

Lemma get_ok rel s u : bc_ok rel s → ok_step rel (buf_core_get u) s.
Proof. intros Hs. eapply wp_mono; [by apply buf_core_get_wp| |done]. by intros r s' [Hs' _]. Qed.

#[local] Hint Resolve get_ok put_ok get_ref_ok put_ref_ok done_ok fill_ok ready_num_ok empty_ok attach_ok detach_ok
  reset_ok replace_ok put_dma_ok update_planes_ok check_in_table_ok : core.

Lemma run_ok rel s op : bc_ok rel s → op_valid rel op s → ok_step (released rel op) (run op) s.
Proof.
  intros Hs Hv. destruct op; cbn [op_valid run released] in *; try apply forget_ok; auto.
  - destruct Hv. by apply fill_ok.
  - destruct Hv as (e & m & Ha & Hm & Hh). by eapply vpp_cb_ok.
  - destruct Hv as (-> & Hq & Hal). by apply attach_ok.
  - by apply update_ok.
  - eapply pool_step_ok; [done|]. apply slot_occupied_step.
  - eapply pool_step_ok; [done|]. apply alloc_dma_step.
  - eapply pool_step_ok; [done|]. intros. by apply release_dma_step.
  - eapply pool_step_ok; [done|]. apply get_free_step.
  - eapply pool_step_ok; [done|]. intros. by apply put_free_step.
  - eapply pool_step_ok; [done|]. intros. by apply get_dmabuf_ref_step.
  - subst rel. by apply release_ok.
Qed.

Lemma ok_step_runs {A} rel (m : B A) s : ok_step rel m s → ∃ a s', m s = Ok a s' ∧ bc_ok rel s'.
Proof.
  unfold ok_step, wp. destruct (m s) as [a s'|e s'|] eqn:Hm; [|done|done]. intros Hs'. by exists a, s'.
Qed.

Lemma buf_reachable_ok rel s : reachable rel s → bc_ok rel s.
Proof.
  induction 1 as [s Hs|rel s op s' _ IH Hv Hr].
  - destruct start_ok as (s' & Hs' & Hok' & _). congruence.
  - destruct (ok_step_runs _ _ _ (run_ok _ _ _ IH Hv)) as ([] & s2 & Hs2 & Hok2). congruence.
Qed.

(** ** The main theorems *)

(** C3: Whatever the clients do, as long as they respect [op_valid], no
    operation uses a freed entry or links a queue node twice; and always: the
    free queue holds, each once, exactly the buffers nobody references,
    [free_num] is its length, the table lists exactly the buffers that exist,
    with different keys, sub buffers are referenced, no pointer between
    buffers dangles, and the manager has one reference per buffer and one for
    its owner until the release. *)
Theorem buf_reachable_safe rel s : reachable rel s →
  (∀ op, op_valid rel op s → ∃ s', run op s = Ok tt s' ∧ reachable (released rel op) s') ∧
  NoDup (free_que s) ∧ free_num s = zlen (free_que s) ∧
  (∀ a, a ∈ free_que s ↔ ∃ e, entries s !! a = Some e ∧ ref e = 0) ∧
  NoDup (buf_table s) ∧ (∀ a, a ∈ buf_table s ↔ is_Some (entries s !! a)) ∧
  (∀ a b x y, entries s !! a = Some x → entries s !! b = Some y → key x = key y → a = b) ∧
  (∀ a e, entries s !! a = Some e → 0 ≤ ref e < 2 ^ 31 ∧ (pair e ≠ BUF_MASTER → 1 ≤ ref e) ∧
     ∀ b, links e b → is_Some (entries s !! b)) ∧
  core_ref s = zlen (buf_table s) + (if rel then 0 else 1).
Proof.
  intros Hr. pose proof (buf_reachable_ok _ _ Hr) as Hs. split.
  - intros op Hv. destruct (ok_step_runs _ _ _ (run_ok _ _ _ Hs Hv)) as ([] & s' & Hs' & _).
    exists s'. split; [done|]. by eapply reach_op.
  - destruct Hs as [[H1 H2 H3 H4 H5 H6 H7 H8] Hn _ Hc _ _]. do 6 (split; [done|]). split; [|done].
    intros a e Ha. split; [by eapply H6|]. split; [by eapply H7|]. intros b. by eapply H8.
Qed.

(** [buf_core_get] gives the buffer at the head of the free queue, which
    nobody references, to the user: one reference, state USE; the order of
    the other free buffers stays.  It gives nothing only when the manager is
    not active or every buffer is referenced, and then changes nothing. *)
Theorem buf_core_get_spec rel s u : reachable rel s → ∃ r s', buf_core_get u s = Ok r s' ∧
  match r with
  | Some a => free_que s = a :: free_que s' ∧ free_num s' = free_num s - 1 ∧ ∃ e e', entries s !! a = Some e ∧ ref e = 0 ∧
      entries s' !! a = Some e' ∧ ref e' = 1 ∧ state e' = BUF_STATE_USE ∧ user e' = u ∧ key e' = key e
  | None => s' = s ∧ (bc_state s ≠ BM_STATE_ACTIVE ∨ ∀ a e, entries s !! a = Some e → 1 ≤ ref e)
  end.
Proof.
  intros Hr. pose proof (buf_reachable_ok _ _ Hr) as Hs. pose proof (buf_core_get_wp rel s u Hs) as Hw.
  unfold wp in Hw. destruct (buf_core_get u s) as [r s'|e s'|]; [|done|done]. exists r, s'. split; [done|].
  destruct Hw as [Hs' Hp]. destruct r as [a|].
  - destruct Hp as (_ & Hq & e & Ha & Hz & e' & He' & H1 & H2 & H3 & H4). split; [done|]. split.
    + rewrite (bo_num _ _ Hs), (bo_num _ _ Hs'), Hq. unfold zlen. cbn. lia.
    + exists e, e'. by repeat split.
  - destruct Hp as [-> [?|Hq]]; split; try done; [by left|right]. intros a e Ha.
    pose proof (eo_ref _ _ _ (bo_ents _ _ Hs) _ _ Ha). destruct (decide (ref e = 0)); [|lia].
    assert (a ∈ free_que s) as Hin by (apply (eo_free _ _ _ (bo_ents _ _ Hs)); by exists e).
    rewrite Hq in Hin. by apply elem_of_nil in Hin.
Qed.

(** [buf_core_put_ref] by a holder takes exactly one reference: the last
    one puts the buffer at the tail of the free queue, in state FREE with no
    holder bits, and wakes the decoder; otherwise the queue stays and the
    state is REF. *)
Theorem buf_core_put_ref_spec rel s a e : reachable rel s → entries s !! a = Some e → held s a 1 →
  ∃ s' e', buf_core_put_ref a s = Ok tt s' ∧ entries s' !! a = Some e' ∧ ref e' = ref e - 1 ∧
    (∀ b, b ≠ a → entries s' !! b = entries s !! b) ∧
    if ref e =? 1 then
      free_que s' = free_que s ++ [a] ∧ state e' = BUF_STATE_FREE ∧ holder e' = BUF_HOLDER_FREE ∧
      ref_bit_map e' = 0 ∧ events s' = events s ++ [Ev_wake_up_vdec]
    else free_que s' = free_que s ∧ state e' = BUF_STATE_REF ∧ events s' = events s.
Proof.
  intros Hr Ha (x & Hx & H1 & H2). replace x with e in * by congruence. clear x Hx.
  pose proof (buf_reachable_ok _ _ Hr) as Hs.
  assert (wp False (buf_core_put_ref a) (fun _ s' => unref_post a BUF_USER_DEC e s s') (fun _ _ => False) s) as Hw.
  { unfold buf_core_put_ref. wp_step. eapply wp_entry_at; [exact Ha|]. wp_step. apply wp_sanity.
    rewrite (proj2 (Z.eqb_neq (ref e) 0)) by lia. eapply unref_wp; [exact Hs|exact Ha|done|done|by auto]. }
  unfold wp in Hw. destruct (buf_core_put_ref a s) as [[] s'|?|]; [|done|done]. destruct Hw as [_ Hw]. exists s'.
  destruct (Z.eqb_spec (ref e) 1) as [E|E]; destruct Hw as (-> & -> & ->).
  - exists (freed e). split; [done|]. rewrite lookup_insert_eq. split; [done|]. split; [cbn; lia|].
    split; [by intros; apply lookup_insert_ne|done].
  - pose proof (direction_core (e <| ref := ref e - 1 |> <| state := BUF_STATE_REF |>) BUF_USER_DEC BUF_PUT) as (C1 & _ & _ & C4 & _).
    eexists. split; [done|]. rewrite lookup_insert_eq. split; [done|]. split; [by rewrite C4|].
    split; [by intros; apply lookup_insert_ne|]. by rewrite C1.
Qed.
(** The head of the queue is read. *)
Lemma get_freed_head s a q u : bc_state s = BM_STATE_ACTIVE → free_que s = a :: q → entries s !! a = None →
  buf_core_get u s = Undef.
Proof.
  intros H1 H2 H3. unfold buf_core_get, bc_sanity_check, entry_at, gets, mbind, B_bind, M_bind, mret, B_ret, M_ret.
  rewrite H1, H2. unfold is_eq. rewrite bool_decide_eq_true_2 by done. by rewrite H3.
Qed.

(** C40: Detaching a buffer that waits in the free queue, which the rules
    exclude, leaves its freed node in the queue: when it was the head, the
    next [buf_core_get] of an active manager uses freed memory. *)
Theorem detach_queued_dangles rel s a e q u : reachable rel s → free_que s = a :: q → entries s !! a = Some e →
  core_ref s ≠ 1 → bc_state s = BM_STATE_ACTIVE →
  ∃ s', buf_core_detach (key e) s = Ok tt s' ∧ free_que s' = a :: q ∧ entries s' !! a = None ∧ buf_core_get u s' = Undef.
Proof.
  intros Hr Hq Ha Hc Hst. pose proof (buf_reachable_ok _ _ Hr) as Hs.
  assert (a ∈ buf_table s) as Hin by (apply (eo_dom _ _ _ (bo_ents _ _ Hs)); by exists e).
  assert (1 ≤ core_ref s) as Hpos.
  { rewrite (bo_core _ _ Hs). destruct (buf_table s); [by apply elem_of_nil in Hin|]. unfold zlen. cbn. destruct rel; lia. }
  assert (wp False (buf_core_detach (key e)) (fun _ s' => free_que s' = a :: q ∧ entries s' !! a = None ∧ bc_state s' = BM_STATE_ACTIVE)
    (fun _ _ => False) s) as Hw.
  { unfold buf_core_detach. wp_step. wp_step. wp_step. apply wp_find_key; [intros b; by apply (table_dom rel)| |].
    - intros b x Hb Hx Hk. assert (b = a) as -> by by eapply (eo_keys _ _ _ (bo_ents _ _ Hs)). wp_step.
      eapply wp_entry_release; [exact Hx|]. intros s1 E1 E2 E3 E4 E5 E6 _ _ _. apply wp_core_put; rewrite ?E5; [done|done|].
      intros s2 _ _ G3 _ _ _ G7. rewrite (proj2 (Z.eqb_neq _ _)) in G7 by done. destruct G7 as (Q1 & _ & Q3).
      rewrite G3, E2, lookup_delete_eq, Q1, Q3, E3, E6. done.
    - intros Hno. by destruct (Hno a e Hin Ha). }
  unfold wp in Hw. destruct (buf_core_detach (key e) s) as [[] s'|?|]; [|done|done]. destruct Hw as (H1 & H2 & H3).
  exists s'. split; [done|]. split; [done|]. split; [done|].
  by eapply get_freed_head.
Qed.

(** [buf_core_put] of the last reference does not put the buffer to the
    free queue: nobody references it, and no queue holds it. *)
Theorem buf_core_put_loses rel s a e : reachable rel s → bc_state s = BM_STATE_ACTIVE → entries s !! a = Some e → ref e = 1 →
  ∃ s', buf_core_put a s = Ok tt s' ∧ (∃ e', entries s' !! a = Some e' ∧ ref e' = 0 ∧ state e' = state e) ∧
    free_que s' = free_que s ∧ a ∉ free_que s'.
Proof.
  intros Hr Hst Ha H1. pose proof (buf_reachable_ok _ _ Hr) as Hs.
  assert (wp False (buf_core_put a) (fun _ s' => entries s' = <[a := e <| ref := 0 |>]> (entries s) ∧ free_que s' = free_que s)
    (fun _ _ => False) s) as Hw.
  { unfold buf_core_put. wp_step. apply wp_sanity. rewrite Hst. wp_step; [|done]. eapply wp_upd_entry; [exact Ha|]. by rewrite H1. }
  unfold wp in Hw. destruct (buf_core_put a s) as [[] s'|?|]; [|done|done]. destruct Hw as [E1 E2]. exists s'. split; [done|].
  split; [exists (e <| ref := 0 |>); by rewrite E1, lookup_insert_eq|]. split; [done|]. rewrite E2.
  eapply not_queued; [done|exact Ha|lia].
Qed.

End Life.

(** ** A run *)

Definition after (s : buf_core_mgr_s) (m : @B unit) : buf_core_mgr_s := match m s with Ok _ s' => s' | _ => s end.

Definition run_ops (ops : list buf_op) : buf_core_mgr_s :=
  fold_left (fun s op => after s (@run (plain_callbacks false) op)) ops (after bc_zero (@start (plain_callbacks false))).

(** Two buffers are attached; the second one is given back. *)
Definition demo_1 : buf_core_mgr_s := run_ops [Op_attach (inr (1, sample_entry)) 7000 8000 0].
Definition demo_2 : buf_core_mgr_s := run_ops [Op_attach (inr (1, sample_entry)) 7000 8000 0; Op_attach (inr (2, sample_entry)) 7001 8001 0].
Definition demo_3 : buf_core_mgr_s := run_ops [Op_attach (inr (1, sample_entry)) 7000 8000 0; Op_attach (inr (2, sample_entry)) 7001 8001 0; Op_put_ref 2].

(** The entries of the demonstration. *)
Definition demo_entry (s : buf_core_mgr_s) (a : Z) : buf_core_entry := default sample_entry (entries s !! a).

Notation reach := (@reachable (plain_callbacks false)).

Lemma sample_no_links b : ¬ links sample_entry b.
Proof. unfold links. by intros [H|[H|H]]. Qed.

Lemma demo_1_reachable : reach false demo_1.
Proof.
  eapply (@reach_op (plain_callbacks false) false (after bc_zero (@start (plain_callbacks false))) (Op_attach (inr (1, sample_entry)) 7000 8000 0)).
  - constructor. vm_compute. reflexivity.
  - split; [done|]. split; [done|]. split; [vm_compute; reflexivity|]. split; [vm_compute; reflexivity|].
    intros b Hb. by destruct (sample_no_links b).
  - vm_compute. reflexivity.
Qed.

Lemma demo_2_reachable : reach false demo_2.
Proof.
  eapply (@reach_op (plain_callbacks false) false demo_1 (Op_attach (inr (2, sample_entry)) 7001 8001 0)).
  - exact demo_1_reachable.
  - split; [done|]. split; [done|]. split; [vm_compute; reflexivity|]. split; [vm_compute; reflexivity|].
    intros b Hb. by destruct (sample_no_links b).
  - vm_compute. reflexivity.
Qed.

Lemma demo_3_reachable : reach false demo_3.
Proof.
  eapply (@reach_op (plain_callbacks false) false demo_2 (Op_put_ref 2)).
  - exact demo_2_reachable.
  - eexists. split; [vm_compute; reflexivity|]. split; [vm_compute; discriminate|]. intros H. by destruct H.
  - vm_compute. reflexivity.
Qed.
Lemma buf_reachable_safe_witness :
  (∃ s', @run (plain_callbacks false) (Op_get BUF_USER_DEC) demo_3 = Ok tt s' ∧ reach false s') ∧ free_num demo_3 = zlen (free_que demo_3).
Proof.
  destruct (@buf_reachable_safe (plain_callbacks false) _ false demo_3 demo_3_reachable) as (H1 & _ & H2 & _).
  split; [by apply (H1 (Op_get BUF_USER_DEC))|exact H2].
Defined.

Lemma buf_core_get_spec_witness :
  ∃ r s', @buf_core_get (plain_callbacks false) BUF_USER_DEC demo_3 = Ok r s' ∧
    match r with
    | Some a => free_que demo_3 = a :: free_que s' ∧ free_num s' = free_num demo_3 - 1 ∧ ∃ e e', entries demo_3 !! a = Some e ∧
        ref e = 0 ∧ entries s' !! a = Some e' ∧ ref e' = 1 ∧ state e' = BUF_STATE_USE ∧ user e' = BUF_USER_DEC ∧ key e' = key e
    | None => s' = demo_3 ∧ (bc_state demo_3 ≠ BM_STATE_ACTIVE ∨ ∀ a e, entries demo_3 !! a = Some e → 1 ≤ ref e)
    end.
Proof. exact (@buf_core_get_spec (plain_callbacks false) _ false demo_3 BUF_USER_DEC demo_3_reachable). Defined.

Lemma buf_core_put_ref_spec_witness :
  let s := demo_2 in let e := demo_entry s 2 in
  ∃ s' e', @buf_core_put_ref (plain_callbacks false) 2 s = Ok tt s' ∧ entries s' !! 2 = Some e' ∧ ref e' = ref e - 1 ∧
    (∀ b, b ≠ 2 → entries s' !! b = entries s !! b) ∧
    if ref e =? 1 then
      free_que s' = free_que s ++ [2] ∧ state e' = BUF_STATE_FREE ∧ holder e' = BUF_HOLDER_FREE ∧
      ref_bit_map e' = 0 ∧ events s' = events s ++ [Ev_wake_up_vdec]
    else free_que s' = free_que s ∧ state e' = BUF_STATE_REF ∧ events s' = events s.
Proof.
  apply (@buf_core_put_ref_spec (plain_callbacks false) _ false demo_2 2 (demo_entry demo_2 2) demo_2_reachable).
  - vm_compute. reflexivity.
  - exists (demo_entry demo_2 2). split; [vm_compute; reflexivity|]. split; [vm_compute; discriminate|]. intros H. by destruct H.
Defined.

Lemma detach_queued_dangles_witness :
  ∃ s', @buf_core_detach (key (demo_entry demo_3 2)) demo_3 = Ok tt s' ∧ free_que s' = [2] ∧ entries s' !! 2 = None ∧
    @buf_core_get (plain_callbacks false) BUF_USER_DEC s' = Undef.
Proof.
  apply (@detach_queued_dangles (plain_callbacks false) _ false demo_3 2 (demo_entry demo_3 2) [] BUF_USER_DEC demo_3_reachable).
  - vm_compute. reflexivity.
  - vm_compute. reflexivity.
  - vm_compute. discriminate.
  - vm_compute. reflexivity.
Defined.

Lemma buf_core_put_loses_witness :
  let e := demo_entry demo_1 1 in
  ∃ s', @buf_core_put 1 demo_1 = Ok tt s' ∧ (∃ e', entries s' !! 1 = Some e' ∧ ref e' = 0 ∧ state e' = state e) ∧
    free_que s' = free_que demo_1 ∧ 1 ∉ free_que s'.
Proof.
  apply (@buf_core_put_loses (plain_callbacks false) _ false demo_1 1 (demo_entry demo_1 1) demo_1_reachable).
  - vm_compute. reflexivity.
  - vm_compute. reflexivity.
  - vm_compute. reflexivity.
Defined.
