(* ===== verification/PtsServer.v ===== *)
(** The PTS server (src/drivers/media_sync/pts_server/pts_server_core.c,
    pts_server_core.h): the demultiplexer checks in at which byte of the
    stream a time stamp begins, the decoder checks out the time stamp of the
    byte a frame began at.

    This file has the data, the table of instances and the operations that
    create, configure and release an instance; PtsCheckin and PtsCheckout have
    the operations on the time stamps.

    An instance owns an array of nodes; [pts_list] and [pts_free_list] are
    lists of its indices.  An instance is reached through its slot of
    [vPtsServerInsList] only, so the slot holds it.  Every operation holds the
    mutex of the slot while it works on an instance; log output is left
    out. *)

From stdpp Require Import base list numbers gmap.
From Stdlib Require Import ZArith Lia Bool.
From S2P Require Import Prelude.

#[local] Open Scope Z_scope.

Definition MAX_INSTANCE_NUM : Z := 40.
Definition MAX_EXPIRED_COUNT : Z := 300.
Definition MAX_CHECKOUT_RETRY_COUNT : Z := 10.
Definition MAX_CHECKOUT_BOUND_VALUE : Z := 5.
Definition MAX_DYNAMIC_INSTANCE_NUM : Z := 10.
Definition DEFAULT_FREE_LIST_COUNT : Z := 500.
Definition DEFAULT_LOOKUP_THRESHOLD : Z := 2500.
Definition DEFAULT_DOULBCHECK_THRESHOLD : Z := 5.
Definition DEFAULT_REWIND_PTS_THRESHOLD : Z := 5000000.
Definition DEFAULT_REWIND_INDEX_THRESHOLD : Z := 120.

(** ** Data *)

Record pts_node := mk_ptn {
  n_offset : Z;            (** u32 *)
  n_pts_90k : Z;           (** u64 *)
  n_pts_64 : Z;            (** u64 *)
  n_expired_count : Z;     (** u32 *)
  n_duration_count : Z;    (** u32 *)
  n_index : Z              (** u32 *)
}.

#[export] Instance eta_pts_node : Settable pts_node := fun r =>
  mk_ptn (n_offset r) (n_pts_90k r) (n_pts_64 r) (n_expired_count r) (n_duration_count r) (n_index r).

(** [struct psinstance]; [all_free_ptn] is the array, empty when NULL. *)
Record psinstance := mk_ins {
  pts_list : list Z;
  pts_free_list : list Z;
  mPtsServerInsId : Z;
  mMaxCount : Z;
  mLookupThreshold : Z;
  mPtsCheckinStarted : Z;
  mPtsCheckoutStarted : Z;
  mPtsCheckoutFailCount : Z;
  mFrameDuration : Z;
  mFrameDuration64 : Z;
  mFirstCheckinPts : Z;
  mFirstCheckinOffset : Z;
  mFirstCheckinSize : Z;
  mLastCheckinPts : Z;
  mLastCheckinOffset : Z;
  mLastCheckinSize : Z;
  mAlignmentOffset : Z;
  mLastCheckoutPts : Z;
  mLastPeekPts : Z;
  mLastCheckoutOffset : Z;
  mFirstCheckinPts64 : Z;
  mLastCheckinPts64 : Z;
  mLastCheckoutPts64 : Z;
  mLastPeekPts64 : Z;
  mDoubleCheckFrameDuration : Z;
  mDoubleCheckFrameDuration64 : Z;
  mDoubleCheckFrameDurationCount : Z;
  mLastDoubleCheckoutPts : Z;
  mLastDoubleCheckoutPts64 : Z;
  mDecoderDuration : Z;
  kDoubleCheckThreshold : Z;
  mLastDropIndex : Z;
  mLastIndex : Z;
  mListSize : Z;
  mLastCheckoutCurOffset : Z;
  all_free_ptn : list pts_node;
  setC2Mode : bool;
  mTrickMode : Z;
  mOffsetMode : bool;
  mLastCheckinPiecePts : Z;
  mLastCheckinPiecePts64 : Z;
  mLastCheckinPieceOffset : Z;
  mLastCheckinPieceSize : Z;
  mLastCheckoutIndex : Z;
  mLastCheckinDurationCount : Z;
  mLastCheckoutDurationCount : Z;
  mLastShotBound : Z;
  mStickyWrapFlag : Z;
  mLastCheckoutPts90k : Z;
  mFirstCheckinPts90k : Z;
  mLastCheckinPts90k : Z;
  mRef : Z;
  last_offset : list Z;
  write_count : Z;
  mAudioOffsetMargin : Z
}.

#[export] Instance eta_psinstance : Settable psinstance := fun r =>
  mk_ins (pts_list r) (pts_free_list r) (mPtsServerInsId r) (mMaxCount r) (mLookupThreshold r) (mPtsCheckinStarted r)
    (mPtsCheckoutStarted r) (mPtsCheckoutFailCount r) (mFrameDuration r) (mFrameDuration64 r) (mFirstCheckinPts r)
    (mFirstCheckinOffset r) (mFirstCheckinSize r) (mLastCheckinPts r) (mLastCheckinOffset r) (mLastCheckinSize r)
    (mAlignmentOffset r) (mLastCheckoutPts r) (mLastPeekPts r) (mLastCheckoutOffset r) (mFirstCheckinPts64 r)
    (mLastCheckinPts64 r) (mLastCheckoutPts64 r) (mLastPeekPts64 r) (mDoubleCheckFrameDuration r)
    (mDoubleCheckFrameDuration64 r) (mDoubleCheckFrameDurationCount r) (mLastDoubleCheckoutPts r)
    (mLastDoubleCheckoutPts64 r) (mDecoderDuration r) (kDoubleCheckThreshold r) (mLastDropIndex r) (mLastIndex r)
    (mListSize r) (mLastCheckoutCurOffset r) (all_free_ptn r) (setC2Mode r) (mTrickMode r) (mOffsetMode r)
    (mLastCheckinPiecePts r) (mLastCheckinPiecePts64 r) (mLastCheckinPieceOffset r) (mLastCheckinPieceSize r)
    (mLastCheckoutIndex r) (mLastCheckinDurationCount r) (mLastCheckoutDurationCount r) (mLastShotBound r)
    (mStickyWrapFlag r) (mLastCheckoutPts90k r) (mFirstCheckinPts90k r) (mLastCheckinPts90k r) (mRef r)
    (last_offset r) (write_count r) (mAudioOffsetMargin r).

(** [kzalloc(sizeof(ptsserver_ins))] *)
Definition ins_zero : psinstance :=
  mk_ins [] [] 0 0 0 0 0 0 0 0 0 0 0 0 0 0 0 0 0 0 0 0 0 0 0 0 0 0 0 0 0 0 0 0 0 [] false 0 false 0 0 0 0 0 0 0 0 0 0
    0 0 0 [0; 0] 0 0.
Record ptsserver_alloc_para := mk_para { p_mMaxCount : Z; p_mLookupThreshold : Z; p_kDoubleCheckThreshold : Z }.

Record start_offset := mk_start { mBaseOffset : Z; s_mAlignmentOffset : Z }.

(** [vPtsServerInsList]: the instance of each slot. *)
Definition ins_list : Type := list (option psinstance).

Definition I A := M psinstance A.
#[export] Instance I_ret : MRet I := M_ret psinstance.
#[export] Instance I_bind : MBind I := M_bind psinstance.

Definition V A := M ins_list A.
#[export] Instance V_ret : MRet V := M_ret ins_list.
#[export] Instance V_bind : MBind V := M_bind ins_list.

(** A node through its pointer. *)
Definition node_at (p : Z) : I pts_node := l ← gets all_free_ptn; of_option (aget l p).

Definition upd_node (p : Z) (g : pts_node → pts_node) : I unit :=
  n ← node_at p;
  l ← gets all_free_ptn;
  l ← of_option (aset l p (g n));
  modify (fun s => s <| all_free_ptn := l |>).

(** [list_del(&ptn->node); list_add_tail(&ptn->node, &pInstance->pts_free_list)] *)
Definition without (p : Z) (l : list Z) : list Z := filter (fun q => q ≠ p) l.

Definition to_free_list (p : Z) : I unit :=
  node_at p;;
  l ← gets pts_list;
  if bool_decide (p ∈ l) then
    modify (fun s => s <| pts_list := without p l |> <| pts_free_list := pts_free_list s ++ [p] |>)
  else undef.

(** The same with [pInstance->mListSize--]. *)
Definition release_node (p : Z) : I unit :=
  to_free_list p;; modify (fun s => s <| mListSize := u32 (mListSize s - 1) |>).

(** ** Arithmetic *)

(** The kernel's [abs] on 32 bit operands. *)
Definition abs32 (x : Z) : Z := let y := s32 x in s32 (if y <? 0 then - y else y).

(** [get_llabs(value)] *)
Definition get_llabs (x : Z) : Z := let value := s64 x in u64 (if value >? 0 then value else 0 - value).

(** ** The table of instances *)

Definition id_is (id : Z) (o : option psinstance) : bool :=
  match o with Some s => id =? mPtsServerInsId s | None => false end.

(** [get_index_from_ptsserver_id(pServerInsId)]; the loop over the table. *)
Fixpoint index_from (i : Z) (l : ins_list) (id : Z) : Z :=
  match l with
  | [] => -1
  | o :: l => if id_is id o then i else index_from (i + 1) l id
  end.

Definition get_index_from_ptsserver_id (id : Z) : V Z := l ← get; mret (index_from 0 l id).

(** What every operation starts with: the bounds of the index and the check
    that the slot is in use; [fail] is returned otherwise. *)
Definition on_instance {A} (index : Z) (fail : A) (m : I A) : V A :=
  if (index <? 0) || (MAX_INSTANCE_NUM <=? index) then mret fail
  else
    l ← get;
    x ← of_option (aget l index);
    match x with
    | None => mret fail
    | Some ins => zoom (fun _ => ins) (fun ins l => <[Z.to_nat index := Some ins]> l) m
    end.

(** The same for the operations that look the slot up by the identifier. *)
Definition on_server {A} (id : Z) (fail : A) (m : I A) : V A :=
  index ← get_index_from_ptsserver_id id; on_instance index fail m.

(** [ptsserver_init()] *)
Definition ptsserver_init : V Z :=
  for_range 0 MAX_INSTANCE_NUM (fun i => l ← get; l ← of_option (aset l i None); modify (fun _ => l));; mret 0.

(** ** Creating an instance *)

(** What [ptsserver_ins_init_syncinfo] clears. *)
Definition sync_zero (s : psinstance) : psinstance :=
  s <| mPtsCheckinStarted := 0 |> <| mPtsCheckoutStarted := 0 |> <| mPtsCheckoutFailCount := 0 |>
    <| mFrameDuration := 0 |> <| mFrameDuration64 := 0 |> <| mFirstCheckinPts := 0 |> <| mFirstCheckinOffset := 0 |>
    <| mFirstCheckinSize := 0 |> <| mLastCheckinPts := 0 |> <| mLastCheckinOffset := 0 |> <| mLastCheckinSize := 0 |>
    <| mAlignmentOffset := 0 |> <| mLastCheckoutPts := 0 |> <| mLastPeekPts := 0 |> <| mLastCheckoutOffset := 0 |>
    <| mFirstCheckinPts64 := 0 |> <| mLastCheckinPts64 := 0 |> <| mLastCheckoutPts64 := 0 |> <| mLastPeekPts64 := 0 |>
    <| mDoubleCheckFrameDuration := 0 |> <| mDoubleCheckFrameDuration64 := 0 |>
    <| mDoubleCheckFrameDurationCount := 0 |> <| mLastDoubleCheckoutPts := 0 |> <| mLastDoubleCheckoutPts64 := 0 |>
    <| mDecoderDuration := 0 |> <| mListSize := 0 |> <| mLastCheckoutCurOffset := 0 |> <| mLastCheckinPiecePts := 0 |>
    <| mLastCheckinPiecePts64 := 0 |> <| mLastCheckinPieceOffset := 0 |> <| mLastCheckinPieceSize := 0 |>
    <| mLastCheckoutIndex := 0 |> <| mLastCheckinDurationCount := 0 |> <| mLastCheckoutDurationCount := 0 |>
    <| mLastShotBound := 0 |> <| mTrickMode := 0 |> <| setC2Mode := false |> <| mOffsetMode := false |>
    <| mStickyWrapFlag := 0 |> <| mLastDropIndex := 0 |> <| mLastIndex := 0 |> <| mLastCheckoutPts90k := 0 |>
    <| mFirstCheckinPts90k := 0 |> <| mLastCheckinPts90k := 0 |> <| mAudioOffsetMargin := 0 |>.

(** What [ptsserver_ins_reset] clears: [mLastPeekPts], [mLastPeekPts64], [mLastIndex],
    [mLastDropIndex], [last_offset] and [write_count] stay. *)
Definition sync_reset (s : psinstance) : psinstance :=
  s <| mPtsCheckinStarted := 0 |> <| mPtsCheckoutStarted := 0 |> <| mPtsCheckoutFailCount := 0 |>
    <| mFrameDuration := 0 |> <| mFrameDuration64 := 0 |> <| mFirstCheckinPts := 0 |> <| mFirstCheckinOffset := 0 |>
    <| mFirstCheckinSize := 0 |> <| mLastCheckinPts := 0 |> <| mLastCheckinOffset := 0 |> <| mLastCheckinSize := 0 |>
    <| mAlignmentOffset := 0 |> <| mLastCheckoutPts := 0 |> <| mLastCheckoutOffset := 0 |>
    <| mFirstCheckinPts64 := 0 |> <| mLastCheckinPts64 := 0 |> <| mLastCheckoutPts64 := 0 |>
    <| mDoubleCheckFrameDuration := 0 |> <| mDoubleCheckFrameDuration64 := 0 |>
    <| mDoubleCheckFrameDurationCount := 0 |> <| mLastDoubleCheckoutPts := 0 |> <| mLastDoubleCheckoutPts64 := 0 |>
    <| mDecoderDuration := 0 |> <| mLastCheckoutCurOffset := 0 |> <| mLastCheckinPiecePts := 0 |>
    <| mLastCheckinPiecePts64 := 0 |> <| mLastCheckinPieceOffset := 0 |> <| mLastCheckinPieceSize := 0 |>
    <| mLastCheckoutIndex := 0 |> <| mLastCheckinDurationCount := 0 |> <| mLastCheckoutDurationCount := 0 |>
    <| mLastShotBound := 0 |> <| mTrickMode := 0 |> <| setC2Mode := false |> <| mOffsetMode := false |>
    <| mStickyWrapFlag := 0 |> <| mLastCheckoutPts90k := 0 |> <| mFirstCheckinPts90k := 0 |>
    <| mLastCheckinPts90k := 0 |> <| mListSize := 0 |> <| mAudioOffsetMargin := 0 |>.
(** [vmalloc(mMaxCount * sizeof(struct ptsnode))]: NULL, or an array of that
    many nodes with unknown contents. *)
Definition vmalloc_nodes : Type := Z → option (list pts_node).

(** [ptsserver_ins_init_syncinfo(pInstance, allocParm)] *)
Definition ptsserver_ins_init_syncinfo (vm : vmalloc_nodes) (allocParm : option ptsserver_alloc_para) : I Z :=
  modify (fun s => match allocParm with
    | Some a => s <| mMaxCount := p_mMaxCount a |> <| mLookupThreshold := p_mLookupThreshold a |>
                  <| kDoubleCheckThreshold := p_kDoubleCheckThreshold a |>
    | None => s <| mMaxCount := DEFAULT_FREE_LIST_COUNT |> <| mLookupThreshold := DEFAULT_LOOKUP_THRESHOLD |>
                <| kDoubleCheckThreshold := DEFAULT_DOULBCHECK_THRESHOLD |>
    end);;
  modify sync_zero;;
  modify (fun s => s <| pts_list := [] |> <| pts_free_list := [] |>);;
  n ← gets mMaxCount;
  match vm n with
  | None => modify (fun s => s <| all_free_ptn := [] |>);; mret (-1)
  | Some l =>
      modify (fun s => s <| all_free_ptn := l |>);;
      for_range 0 n (fun i => node_at i;; modify (fun s => s <| pts_free_list := pts_free_list s ++ [i] |>));;
      mret 0
  end.

(** [for (i = lo; i < hi; i++) if (slot i is free) break;]: the index at the
    end. *)
Fixpoint first_free (n : nat) (i : Z) : V Z :=
  match n with
  | O => mret i
  | S n =>
      l ← get;
      x ← of_option (aget l i);
      match x with None => mret i | Some _ => first_free n (i + 1) end
  end.

(** The fresh instance with identifier [id] in slot [i]. *)
Definition place (vm : vmalloc_nodes) (allocParm : option ptsserver_alloc_para) (i id : Z) : V unit :=
  let ins := ins_zero <| mPtsServerInsId := id |> <| mRef := 1 |> in
  zoom (fun _ => ins) (fun ins l => <[Z.to_nat i := Some ins]> l) (ptsserver_ins_init_syncinfo vm allocParm);; mret tt.

(** Where the instance is that the caller gets a pointer to. *)
Inductive ins_ptr :=
| Ins_slot (i : Z)
| Ins_unlisted.            (** allocated, in no slot *)

(** [ptsserver_ins_alloc(&id, &ins, allocParm)]: the result, [*pServerInsId]
    if it is written, [*pIns] if it is written. *)
Definition ptsserver_ins_alloc (kzalloc_ok : bool) (vm : vmalloc_nodes) (allocParm : option ptsserver_alloc_para)
    : V (Z * option Z * option ins_ptr) :=
  if negb kzalloc_ok then mret (-1, None, None)
  else
    i ← first_free (Z.to_nat (MAX_DYNAMIC_INSTANCE_NUM - 1)) 0;
    if i <? MAX_DYNAMIC_INSTANCE_NUM - 1 then
      place vm allocParm i i;; mret (0, Some i, Some (Ins_slot i))
    else if i =? MAX_DYNAMIC_INSTANCE_NUM then mret (-1, None, None)
    else mret (0, None, Some Ins_unlisted).

(** [ptsserver_static_ins_binder(id, &ins, allocParm)] *)
Definition ptsserver_static_ins_binder (kzalloc_ok : bool) (vm : vmalloc_nodes) (id : Z)
    (allocParm : option ptsserver_alloc_para) : V (Z * option ins_ptr) :=
  index ← get_index_from_ptsserver_id id;
  if (0 <=? index) && (index <? MAX_INSTANCE_NUM) then
    on_instance index (-1, None) (modify (fun s => s <| mRef := s32 (mRef s + 1) |>);; mret (0, Some (Ins_slot index)))
  else if negb kzalloc_ok then mret (-1, None)
  else
    i ← first_free (Z.to_nat (MAX_INSTANCE_NUM - MAX_DYNAMIC_INSTANCE_NUM)) MAX_DYNAMIC_INSTANCE_NUM;
    if i <? MAX_INSTANCE_NUM then place vm allocParm i id;; mret (0, Some (Ins_slot i))
    else mret (0, Some Ins_unlisted).

(** ** Releasing and resetting *)

(** [while (!list_empty(list)) list_del(first)] *)
Fixpoint drain (l : list Z) : I unit :=
  match l with [] => mret tt | p :: l => node_at p;; drain l end.

(** [while (!list_empty(&pts_list)) { list_del; list_add_tail; mListSize--; }] *)
Fixpoint drain_to_free (l : list Z) : I unit :=
  match l with [] => mret tt | p :: l => release_node p;; drain_to_free l end.

Definition reset_instance : I Z :=
  l ← gets pts_list; drain_to_free l;; modify sync_reset;; mret 0.

(** [ptsserver_ins_reset(pServerInsId)] *)
Definition ptsserver_ins_reset (id : Z) : V Z := on_server id (-1) reset_instance.

(** [ptsserver_ins_release(pServerInsId)] *)
Definition ptsserver_ins_release (id : Z) : V Z :=
  index ← get_index_from_ptsserver_id id;
  r ← on_instance index (-1)
        (modify (fun s => s <| mRef := s32 (mRef s - 1) |>);;
         n ← gets mRef;
         if n >? 0 then mret 1
         else
           l ← gets pts_free_list; drain l;;
           l ← gets pts_list; drain l;;
           mret 0);
  if r =? -1 then mret (-1)
  else if r =? 1 then ptsserver_ins_reset id;; mret 0
  else modify (fun l => <[Z.to_nat index := None]> l);; mret 0.

(** ** Settings and queries *)

Definition ptsserver_set_mode (id : Z) (set_mode : bool) : V unit :=
  on_instance id tt (modify (fun s =>
    let s := s <| setC2Mode := set_mode |> in if set_mode then s <| mOffsetMode := true |> else s)).

Definition ptsserver_set_first_checkin_offset (id : Z) (o : start_offset) : V Z :=
  on_instance id (-1)
    (modify (fun s => s <| mLastCheckinOffset := mBaseOffset o |> <| mLastCheckinPieceOffset := mBaseOffset o |>
                        <| mAlignmentOffset := s_mAlignmentOffset o |>);; mret 0).

(** [ptsserver_check_rec_num_enough(pServerInsId, val)]: the pointer is not
    checked. *)
Definition ptsserver_check_rec_num_enough (id val : Z) : V Z :=
  if (id <? 0) || (MAX_INSTANCE_NUM <=? id) then mret 0
  else
    l ← get;
    x ← of_option (aget l id);
    s ← of_option x;
    o0 ← of_option (aget (last_offset s) 0);
    if (o0 <=? val) && (u32 (val - o0) <? 2 ^ 31) then mret 0
    else
      o1 ← of_option (aget (last_offset s) 1);
      if (o1 <=? val) && (u32 (val - o1) <? 2 ^ 31) then mret 0 else mret 1.

Definition ptsserver_get_last_checkin_pts (id : Z) : V (Z * option (Z * Z)) :=
  on_instance id (-1, None) (s ← get; mret (0, Some (mLastCheckinPts s, mLastCheckinPts64 s))).

Definition ptsserver_get_last_checkout_pts (id : Z) : V (Z * option (Z * Z)) :=
  on_instance id (-1, None) (s ← get; mret (0, Some (mLastCheckoutPts s, mLastCheckoutPts64 s))).

Definition ptsserver_set_trick_mode (id mode : Z) : V Z :=
  on_instance id (-1) (modify (fun s => s <| mTrickMode := mode |> <| mOffsetMode := truth mode |>);; mret 0).

Definition ptsserver_get_list_size (id : Z) : V (Z * option Z) :=
  on_server id (-1, None) (n ← gets mListSize; mret (0, Some n)).

Definition ptsserver_set_audio_offset_margin (id margin : Z) : V Z :=
  on_server id (-1) (modify (fun s => s <| mAudioOffsetMargin := margin |>);; mret 0).
