(* ===== verification/PtsCheckin.v ===== *)
(** Checking time stamps in (src/drivers/media_sync/pts_server/
    pts_server_core.c, [ptsserver_checkin_pts_size] for video and
    [ptsserver_checkin_apts_size] for audio). *)

From stdpp Require Import base list numbers gmap.
From Stdlib Require Import ZArith Lia Bool.
From S2P Require Import Prelude.
From S2P Require Import PtsServer.

#[local] Open Scope Z_scope.

Record checkin_pts_size := mk_checkin { ci_size : Z; ci_pts : Z; ci_pts_64 : Z }.

Record checkin_apts_size := mk_acheckin { ai_offset : Z; ai_size : Z; ai_pts_90k : Z; ai_pts_64 : Z }.

(** ** Video *)

(** The walk over the full list: nodes up to [mLastDropIndex] go.  The result
    tells whether one went. *)
Fixpoint drop_old (l : list Z) (del : bool) : I bool :=
  match l with
  | [] => mret del
  | p :: l =>
      n ← node_at p;
      last ← gets mLastDropIndex;
      if n_index n <=? last then
        release_node p;;
        modify (fun s => s <| mLastDropIndex := u32 (mLastDropIndex s + 1) |>);;
        drop_old l true
      else drop_old l del
  end.

(** The first node of the list goes. *)
Definition drop_first : I unit :=
  l ← gets pts_list;
  p ← of_option (head l);
  release_node p.

(** Room for a node when the list is full. *)
Definition make_room : I unit :=
  s ← get;
  when (mMaxCount s <=? mListSize s)
    (del ← drop_old (pts_list s) false;
     when (negb del) drop_first).

(** The offsets that are recorded with every call. *)
Definition record_offsets (ci : checkin_pts_size) (isOffset : bool) : I unit :=
  s ← get;
  l ← of_option (aset (last_offset s) (write_count s mod 2) (ci_size ci));
  modify (fun s => s <| last_offset := l |> <| write_count := u32 (write_count s + 1) |>
    <| mLastCheckinPieceOffset :=
         if isOffset then ci_size ci else u32 (mLastCheckinPieceOffset s + mLastCheckinPieceSize s) |>).

Definition record_piece (ci : checkin_pts_size) : I unit :=
  modify (fun s => s <| mLastCheckinPieceSize := ci_size ci |> <| mLastCheckinPiecePts := ci_pts ci |>
                     <| mLastCheckinPiecePts64 := ci_pts_64 ci |>).

(** The first node of the free list, removed from it. *)
Definition take_free : I (option Z) :=
  l ← gets pts_free_list;
  match l with
  | [] => mret None
  | p :: l => node_at p;; modify (fun s => s <| pts_free_list := l |>);; mret (Some p)
  end.

(** [list_for_each_entry_safe(cur, ...) if (test cur) break;
    list_add_tail(&ptn->node, &cur->node)] *)
Fixpoint insert_before (test : pts_node → bool) (p : Z) (l : list Z) : I (list Z) :=
  match l with
  | [] => mret [p]
  | q :: l =>
      n ← node_at q;
      if test n then mret (p :: q :: l) else l ← insert_before test p l; mret (q :: l)
  end.

(** Where the new node goes: by the time stamp in C2 mode; otherwise by the
    time stamp among recent nodes close in time, and by the offset when the
    time stamp is invalid. *)
Definition goes_before (c2 : bool) (n cur : pts_node) : bool :=
  if c2 then n_pts_64 n <=? n_pts_64 cur
  else if negb (n_pts_64 n =? u64 (-1)) then
    (n_pts_64 n <=? n_pts_64 cur) && (get_llabs (n_pts_64 n - n_pts_64 cur) <? DEFAULT_REWIND_PTS_THRESHOLD)
    && (abs32 (n_index n - n_index cur) <? DEFAULT_REWIND_INDEX_THRESHOLD)
  else n_offset n <=? n_offset cur.

(** The node of a frame: filled, linked and counted. *)
Definition checkin_fill (ci : checkin_pts_size) (isOffset : bool) (p : Z) : I unit :=
  when (negb isOffset)
    (modify (fun s => s <| mLastCheckinSize := u32 (mLastCheckinPieceOffset s - mLastCheckinOffset s) |>));;
  s ← get;
  upd_node p (fun n => n
    <| n_offset := if isOffset then ci_size ci else u32 (mLastCheckinOffset s + mLastCheckinSize s) |>
    <| n_pts_90k := ci_pts ci |> <| n_pts_64 := ci_pts_64 ci |> <| n_expired_count := MAX_EXPIRED_COUNT |>
    <| n_index := mLastIndex s |>);;
  modify (fun s => s <| mLastIndex := u32 (mLastIndex s + 1) |>).

Definition checkin_link (p : Z) : I unit :=
  s ← get;
  n ← node_at p;
  l ← insert_before (goes_before (setC2Mode s) n) p (pts_list s);
  modify (fun s => s <| pts_list := l |>).

Definition checkin_count (p : Z) : I unit :=
  n ← node_at p;
  s ← get;
  upd_node p (fun n => n <| n_duration_count := mLastCheckinDurationCount s |>);;
  when ((n_pts_64 n <? mLastCheckinPts64 s)
        && (get_llabs (n_pts_64 n - mLastCheckinPts64 s) >? DEFAULT_REWIND_PTS_THRESHOLD))
    (modify (fun s => s <| mLastCheckinDurationCount := u32 (mLastCheckinDurationCount s + 1) |>));;
  modify (fun s => s <| mLastCheckinPts := u32 (n_pts_90k n) |> <| mLastCheckinPts64 := u32 (n_pts_64 n) |>
                     <| mListSize := u32 (mListSize s + 1) |>).

Definition checkin_head (ci : checkin_pts_size) (isOffset : bool) : I (option Z) :=
  o ← take_free;
  match o with
  | None => mret None
  | Some p => checkin_fill ci isOffset p;; checkin_link p;; checkin_count p;; mret (Some p)
  end.

(** The rest of the function, [p] the node of the frame. *)
Definition checkin_finish (ci : checkin_pts_size) (isOffset : bool) (p : Z) : I Z :=
  s ← get;
  when (mPtsCheckinStarted s =? 0)
    (modify (fun s => s <| mFirstCheckinOffset := if isOffset then ci_size ci else 0 |>
       <| mFirstCheckinSize := ci_size ci |> <| mFirstCheckinPts := ci_pts ci |>
       <| mFirstCheckinPts64 := u32 (ci_pts_64 ci) |> <| mPtsCheckinStarted := 1 |>));;
  n ← node_at p;
  modify (fun s =>
    if truth (mAlignmentOffset s) then
      s <| mLastCheckinOffset := u32 (mLastCheckinOffset s + mAlignmentOffset s) |>
        <| mLastCheckinPieceOffset := u32 (mLastCheckinPieceOffset s + mAlignmentOffset s) |>
        <| mAlignmentOffset := 0 |>
    else s <| mLastCheckinOffset := n_offset n |>);;
  record_piece ci;;
  mret 0.

(** The body of [ptsserver_checkin_pts_size]; a time stamp 0 marks a further
    piece of the last frame. *)
Definition checkin_pts (ci : checkin_pts_size) (isOffset : bool) : I Z :=
  make_room;;
  record_offsets ci isOffset;;
  if ci_pts ci =? 0 then
    s ← get;
    if truth (mListSize s) then
      p ← of_option (last (pts_list s)); checkin_finish ci isOffset p
    else record_piece ci;; mret 0
  else
    o ← checkin_head ci isOffset;
    match o with
    | None => mret (-1)
    | Some p => checkin_finish ci isOffset p
    end.

Definition ptsserver_checkin_pts_size (id : Z) (ci : checkin_pts_size) (isOffset : bool) : V Z :=
  on_instance id (-1) (checkin_pts ci isOffset).

(** ** Audio *)

(** The body of [ptsserver_checkin_apts_size]. *)
Definition checkin_apts (ai : checkin_apts_size) : I Z :=
  s ← get;
  when (mMaxCount s <=? mListSize s) drop_first;;
  o ← take_free;
  match o with
  | None => mret (-1)
  | Some p =>
      upd_node p (fun n => n <| n_offset := ai_offset ai |> <| n_pts_90k := ai_pts_90k ai |> <| n_pts_64 := ai_pts_64 ai |>);;
      modify (fun s => s <| pts_list := pts_list s ++ [p] |> <| mListSize := u32 (mListSize s + 1) |>);;
      s ← get;
      when (mPtsCheckinStarted s =? 0)
        (modify (fun s => s <| mFirstCheckinOffset := ai_offset ai |> <| mFirstCheckinSize := ai_size ai |>
           <| mFirstCheckinPts90k := ai_pts_90k ai |> <| mFirstCheckinPts64 := u32 (ai_pts_64 ai) |>
           <| mPtsCheckinStarted := 1 |>));;
      n ← node_at p;
      modify (fun s =>
        if truth (mAlignmentOffset s) then
          s <| mLastCheckinOffset := mAlignmentOffset s |> <| mAlignmentOffset := 0 |>
        else s <| mLastCheckinOffset := n_offset n |>);;
      modify (fun s => s <| mLastCheckinSize := ai_size ai |> <| mLastCheckinPts90k := ai_pts_90k ai |>
                         <| mLastCheckinPts64 := u32 (ai_pts_64 ai) |>);;
      mret 0
  end.

Definition ptsserver_checkin_apts_size (id : Z) (ai : checkin_apts_size) : V Z :=
  on_server id (-1) (checkin_apts ai).
