(* ===== verification/PtsCheckout.v ===== *)
(** Checking time stamps out (src/drivers/media_sync/pts_server/
    pts_server_core.c): [ptsserver_checkout_pts_offset] and
    [ptsserver_peek_pts_offset] for video, [ptsserver_checkout_apts_offset]
    for audio.

    Each walks over the list of nodes as it was when the walk began and may
    move the node it is at to the free list.  The local variables a walk
    changes are a record. *)

From stdpp Require Import base list numbers gmap.
From Stdlib Require Import ZArith Lia Bool.
From S2P Require Import Prelude.
From S2P Require Import PtsServer.

#[local] Open Scope Z_scope.

(** The argument, read and written. *)
Record checkout_pts_offset := mk_checkout { co_offset : Z; co_pts : Z; co_pts_64 : Z }.

#[export] Instance eta_checkout_pts_offset : Settable checkout_pts_offset := fun r =>
  mk_checkout (co_offset r) (co_pts r) (co_pts_64 r).

Record checkout_apts_offset := mk_acheckout { ao_offset : Z; ao_pts_90k : Z; ao_pts_64 : Z }.

#[export] Instance eta_checkout_apts_offset : Settable checkout_apts_offset := fun r =>
  mk_acheckout (ao_offset r) (ao_pts_90k r) (ao_pts_64 r).

(** The difference that makes a node stale: 240M. *)
Definition FAR : Z := 251658240.

Definition NO_OFFSET : Z := 4294967295.            (** 0xFFFFFFFF *)

(** [(u64)-1] *)
Definition MINUS_1 : Z := 18446744073709551615.

Definition is_node (p : Z) (o : option Z) : bool := bool_decide (o = Some p).

(** ** The walk of a checkout *)

Record scan := mk_scan {
  sc_find : bool;
  sc_find_ptn : option Z;
  sc_find_index : Z;
  sc_fit_offset_ptn : option Z;
  sc_fit_offset_number : Z;
  sc_fit_pts_ptn : option Z;
  sc_fit_pts_number : Z;
  sc_must_have_fit : bool;
  sc_expected_offset_diff : Z;
  sc_expected_pts : Z;
  sc_find_frame_num : Z;
  sc_retryCount : Z;
  sc_i : Z
}.

#[export] Instance eta_scan : Settable scan := fun r =>
  mk_scan (sc_find r) (sc_find_ptn r) (sc_find_index r) (sc_fit_offset_ptn r) (sc_fit_offset_number r) (sc_fit_pts_ptn r)
    (sc_fit_pts_number r) (sc_must_have_fit r) (sc_expected_offset_diff r) (sc_expected_pts r) (sc_find_frame_num r)
    (sc_retryCount r) (sc_i r).

(** A node behind the decoder grows old. *)
Definition expire (cur p : Z) : I unit :=
  n ← node_at p;
  s ← get;
  when (((n_offset n =? NO_OFFSET) || (n_offset n <? cur))
        && ((n_pts_64 n <? mLastCheckoutPts64 s) || (n_pts_90k n =? MINUS_1)))
    (upd_node p (fun n => n <| n_expired_count := u32 (n_expired_count n - 1) |>)).

(** The first node with a time stamp shortly after the last one. *)
Definition scan_fit_pts (s : psinstance) (n : pts_node) (offsetAbs p : Z) (l : scan) : scan :=
  let d := u64 (n_pts_64 n - mLastCheckoutPts64 s) in
  if bool_decide (sc_fit_pts_ptn l = None) && (0 <? mLastCheckoutPts64 s) && (10000 <? d) && (d <? 500000)
     && (offsetAbs <? 50000)
  then l <| sc_fit_pts_ptn := Some p |> <| sc_fit_pts_number := sc_i l |>
  else l.

(** The node within the threshold that is nearest in front of the offset. *)
Definition scan_fit_offset (n : pts_node) (offsetAbs cur p : Z) (l : scan) : I scan :=
  if (offsetAbs <=? sc_expected_offset_diff l) && (n_offset n <? cur) then
    let l := l <| sc_fit_offset_ptn := Some p |> <| sc_fit_offset_number := sc_i l |>
               <| sc_expected_offset_diff := offsetAbs |> <| sc_must_have_fit := true |> in
    if n_pts_90k n =? MINUS_1 then
      modify (fun s => s <| mOffsetMode := true |>);; mret (l <| sc_find := true |>)
    else mret l
  else mret l.

(** The node within the threshold with the next time stamp. *)
Definition scan_find (s : psinstance) (n : pts_node) (cur p : Z) (l : scan) : scan :=
  if (mLastCheckoutPts64 s <=? n_pts_64 n) && negb (mOffsetMode s) && (n_offset n <? cur)
     && ((n_pts_64 n <=? sc_expected_pts l) || (sc_expected_pts l =? mLastCheckoutPts64 s))
  then l <| sc_find := true |> <| sc_find_index := sc_i l |> <| sc_find_ptn := Some p |> <| sc_expected_pts := n_pts_64 n |>
  else l.

Definition scan_near (n : pts_node) (offsetAbs cur p : Z) (l : scan) : I scan :=
  s ← get;
  if offsetAbs <=? mLookupThreshold s then
    l ← scan_fit_offset n offsetAbs cur p l;
    s ← get;
    let l := scan_find s n cur p l in
    mret (if (n_offset n <? cur) || (0 <=? sc_find_frame_num l) then l <| sc_find_frame_num := 0 |> else l)
  else
    mret (if 0 <=? sc_find_frame_num l then l <| sc_find_frame_num := s32 (sc_find_frame_num l + 1) |> else l).

(** Stale nodes go, unless the walk has marked them. *)
Definition scan_drop (offsetAbs p : Z) (l : scan) : I unit :=
  n ← node_at p;
  when (((FAR <? offsetAbs) || (n_expired_count n <=? 0))
        && negb (is_node p (sc_find_ptn l)) && negb (is_node p (sc_fit_offset_ptn l)) && negb (is_node p (sc_fit_pts_ptn l)))
    (release_node p).

(** The body of the loop up to the test for [break]. *)
Definition scan_node (cur p : Z) (l : scan) : I scan :=
  n ← node_at p;
  let offsetAbs := u32 (abs32 (cur - n_offset n)) in
  expire cur p;;
  s ← get;
  let l := scan_fit_pts s n offsetAbs p l in
  l ← scan_near n offsetAbs cur p l;
  scan_drop offsetAbs p l;;
  s ← get;
  mret (if sc_find l && (sc_find_index l =? 0) && (0 <? mLastCheckoutIndex s)
        then l <| sc_retryCount := s32 (mListSize s) |> else l).

Fixpoint scan_list (nodes : list Z) (cur : Z) (l : scan) : I scan :=
  match nodes with
  | [] => mret l
  | p :: nodes =>
      l ← scan_node cur p l;
      if sc_retryCount l <=? sc_find_frame_num l then mret l
      else scan_list nodes cur (l <| sc_i := s32 (sc_i l + 1) |>)
  end.

(** ** Choosing the node *)

Record found := mk_found {
  f_find : bool;
  f_find_ptn : option Z;
  f_find_index : Z;
  f_invalid_mode : bool;
  f_shot_bound : Z;
  f_cur_offset : Z;
  f_out : checkout_pts_offset
}.

#[export] Instance eta_found : Settable found := fun r =>
  mk_found (f_find r) (f_find_ptn r) (f_find_index r) (f_invalid_mode r) (f_shot_bound r) (f_cur_offset r) (f_out r).

Definition sticky (b : bool) : I unit := modify (fun s => s <| mStickyWrapFlag := b2z b |>).

(** By the offset. *)
Definition choose_offset (l : scan) (f : found) : found :=
  f <| f_find := true |> <| f_find_ptn := sc_fit_offset_ptn l |> <| f_find_index := sc_fit_offset_number l |>
    <| f_shot_bound := f_shot_bound f - 1 |>.

(** [if (pInstance->mOffsetMode)] *)
Definition select_offset_mode (l : scan) (f : found) : I found :=
  match sc_fit_offset_ptn l with
  | None => mret f
  | Some p =>
      sticky false;;
      n ← node_at p;
      let f := choose_offset l f in
      mret (if n_pts_90k n =? MINUS_1 then f <| f_invalid_mode := true |> else f)
  end.

(** The two candidates disagree: [pp] fits the time stamp, [po] the offset. *)
Definition select_between (pp po : Z) (l : scan) (f : found) : I found :=
  np ← node_at pp;
  no ← node_at po;
  s ← get;
  if (n_pts_64 no <? n_pts_64 np) && (10000 <? u64 (n_pts_64 no - mLastCheckoutPts64 s)) then
    sticky false;; mret (choose_offset l f)
  else
    sticky true;;
    mret (f <| f_find := true |> <| f_find_ptn := Some pp |> <| f_find_index := sc_fit_pts_number l |>
            <| f_shot_bound := f_shot_bound f - 1 |>).

(** Whether the candidate by the time stamp is to be considered. *)
Definition prefers_pts (po : Z) (l : scan) : I (option Z) :=
  s ← get;
  match sc_fit_pts_ptn l with
  | Some pp =>
      np ← node_at pp;
      no ← node_at po;
      mret (if truth (mPtsCheckoutStarted s) && negb (bool_decide (sc_find_ptn l = Some pp))
               && (n_duration_count np =? n_duration_count no) && (mStickyWrapFlag s =? 0)
            then Some pp else None)
  | None => mret None
  end.

Definition select_pts_mode (l : scan) (f : found) : I found :=
  match sc_must_have_fit l, sc_fit_offset_ptn l with
  | true, Some po =>
      pp ← prefers_pts po l;
      s ← get;
      match pp with
      | Some pp => select_between pp po l f
      | None =>
          sticky false;;
          mret (if bool_decide (sc_find_ptn l = None) || (mPtsCheckoutStarted s =? 0) then choose_offset l f
                else f <| f_find := true |>)
      end
  | _, _ => mret f
  end.

Definition select (l : scan) (f : found) : I found :=
  s ← get; if mOffsetMode s then select_offset_mode l f else select_pts_mode l f.

(** ** Second and third attempt *)

(** The wider walk in trick mode and before the first checkout. *)
Record retry := mk_retry { r_find : bool; r_find_index : Z; r_find_ptn : option Z; r_diff : Z; r_frame_num : Z; r_i : Z }.

Fixpoint retry_list (nodes : list Z) (cur : Z) (r : retry) : I retry :=
  match nodes with
  | [] => mret r
  | p :: nodes =>
      n ← node_at p;
      let offsetAbs := u32 (abs32 (cur - n_offset n)) in
      let fits := (offsetAbs <=? r_diff r) && (n_offset n <? cur) in
      if negb fits && (5 <? r_frame_num r) then mret r
      else
        let r := if fits then mk_retry true (r_i r) (Some p) offsetAbs (r_frame_num r) (r_i r) else r in
        retry_list nodes cur
          (mk_retry (r_find r) (r_find_index r) (r_find_ptn r) (r_diff r)
             (if r_find r then s32 (r_frame_num r + 1) else r_frame_num r) (s32 (r_i r + 1)))
  end.

Definition second_attempt (f : found) : I found :=
  s ← get;
  if negb (f_find f) && ((mTrickMode s =? 1) || (mPtsCheckoutStarted s =? 0)) then
    r ← retry_list (pts_list s) (f_cur_offset f) (mk_retry false (f_find_index f) (f_find_ptn f) 10000 0 0);
    mret (f <| f_find := r_find r |> <| f_find_index := r_find_index r |> <| f_find_ptn := r_find_ptn r |>)
  else mret f.

(** C2 mode: the nearest node between the last offset and this one. *)
Fixpoint nearest_list (nodes : list Z) (cur lastcur min : Z) (o : option Z) : I (option Z) :=
  match nodes with
  | [] => mret o
  | p :: nodes =>
      n ← node_at p;
      let offsetAbs := u32 (abs32 (cur - n_offset n)) in
      if (n_offset n <? cur) && (lastcur <=? n_offset n) && (offsetAbs <? min)
      then nearest_list nodes cur lastcur offsetAbs (Some p)
      else nearest_list nodes cur lastcur min o
  end.

(** The found node answers. *)
Definition answer (p : Z) (f : found) : I found :=
  n ← node_at p;
  mret (f <| f_find_ptn := Some p |> <| f_cur_offset := n_offset n |>
          <| f_out := (f_out f) <| co_pts := u32 (n_pts_90k n) |> <| co_pts_64 := n_pts_64 n |> |>).

Definition third_attempt (f : found) : I found :=
  s ← get;
  if negb (f_find f) && setC2Mode s && negb (f_cur_offset f =? NO_OFFSET) then
    let started := truth (mPtsCheckoutStarted s) in
    let f := if started
             then f <| f_out := (f_out f) <| co_pts := mLastCheckoutPts s |> <| co_pts_64 := mLastCheckoutPts64 s |> |>
             else f in
    let min := if started then u32 (abs32 (f_cur_offset f - mLastCheckoutCurOffset s)) else NO_OFFSET in
    o ← nearest_list (pts_list s) (f_cur_offset f) (mLastCheckoutCurOffset s) min (f_find_ptn f);
    f ← (match o with
         | Some p => answer p f
         | None =>
             match started, pts_list s with
             | false, p :: _ => answer p f
             | _, _ => mret (f <| f_cur_offset := mLastCheckoutCurOffset s |>)
             end
         end);
    mret (f <| f_find := true |>)
  else mret f.

(** The chosen node leaves the list. *)
Definition take_found (f : found) : I found :=
  match f_find f, f_find_ptn f with
  | true, Some p =>
      n ← node_at p;
      f ← (if f_invalid_mode f then mret f
           else
             modify (fun s => s <| mLastCheckoutDurationCount := n_duration_count n |>);;
             mret (f <| f_out := (f_out f) <| co_pts := u32 (n_pts_90k n) |> <| co_pts_64 := n_pts_64 n |> |>));
      release_node p;;
      mret f
  | _, _ => mret f
  end.

Definition scan_start (s : psinstance) : scan :=
  mk_scan false None (-1) None (-1) None (-1) false (mLookupThreshold s) (mLastCheckoutPts64 s) (-1) MAX_CHECKOUT_RETRY_COUNT 0.

(** [if (cur_offset != 0xFFFFFFFF && !list_empty(&pInstance->pts_list))] *)
Definition checkout_search (cur : Z) (co : checkout_pts_offset) : I found :=
  s ← get;
  let f := mk_found false None (-1) false MAX_CHECKOUT_BOUND_VALUE cur co in
  if negb (cur =? NO_OFFSET) && negb (bool_decide (pts_list s = [])) then
    l ← scan_list (pts_list s) cur (scan_start s);
    f ← select l (f <| f_find := sc_find l |> <| f_find_ptn := sc_find_ptn l |> <| f_find_index := sc_find_index l |>);
    f ← second_attempt f;
    f ← third_attempt f;
    modify (fun s => s <| mLastCheckoutIndex := u32 (f_find_index f) |>);;
    take_found f
  else mret f.

(** ** The time stamp when there is no node, and the frame duration *)

(** No node or an invalid one: the last time stamp and a duration, or -1
    before the first checkout. *)
Definition next_pts (s : psinstance) : Z :=
  if truth (mDecoderDuration s) then u32 (mLastCheckoutPts s + u32 (mDecoderDuration s * 90) / 96)
  else if mPtsCheckoutStarted s =? 0 then u32 (-1) else u32 (mLastCheckoutPts s + mFrameDuration s).

Definition next_pts_64 (s : psinstance) : Z :=
  if truth (mDecoderDuration s) then u64 (mLastCheckoutPts64 s + u32 (mDecoderDuration s * 1000) / 96)
  else if mPtsCheckoutStarted s =? 0 then MINUS_1 else u64 (mLastCheckoutPts64 s + mFrameDuration64 s).

Definition extrapolate (s : psinstance) : psinstance :=
  s <| mLastCheckoutPts := next_pts s |> <| mLastCheckoutPts64 := next_pts_64 s |>.

Definition checkout_fail (f : found) : I checkout_pts_offset :=
  modify (fun s => s <| mPtsCheckoutFailCount := u32 (mPtsCheckoutFailCount s + 1) |>);;
  s ← get;
  when (f_cur_offset f <? mLastCheckoutCurOffset s) (sticky false);;
  (match f_invalid_mode f, f_find_ptn f with
   | true, Some p => n ← node_at p; modify (fun s => s <| mLastCheckoutDurationCount := n_duration_count n |>)
   | _, _ => mret tt
   end);;
  modify extrapolate;;
  modify (fun s => s <| mLastCheckoutCurOffset := f_cur_offset f |>);;
  s ← get;
  mret ((f_out f) <| co_pts := mLastCheckoutPts s |> <| co_pts_64 := mLastCheckoutPts64 s |>).

(** [div_u64(dividend, divisor)] *)
Definition div_u64 (a b : Z) : I Z := if b =? 0 then undef else mret (a / b).

(** The first duration is taken as it is. *)
Definition first_duration (out : checkout_pts_offset) : I unit :=
  s ← get;
  d ← div_u64 (u32 (co_pts out - mLastCheckoutPts s)) (u32 (mPtsCheckoutFailCount s + 1));
  d64 ← div_u64 (u64 (co_pts_64 out - mLastCheckoutPts64 s)) (u32 (mPtsCheckoutFailCount s + 1));
  let d := u32 d in
  modify (fun s => s <| mFrameDuration := if 9000 <? d then 0 else d |>
                     <| mFrameDuration64 := if 100000 <? d64 then 0 else d64 |>).

(** Another duration has to be seen repeatedly. *)
Definition double_check (out : checkout_pts_offset) : I unit :=
  s ← get;
  d ← div_u64 (u32 (co_pts out - mLastDoubleCheckoutPts s)) (u32 (mPtsCheckoutFailCount s + 1));
  d64 ← div_u64 (u64 (co_pts_64 out - mLastDoubleCheckoutPts64 s)) (u32 (mPtsCheckoutFailCount s + 1));
  let d := u32 d in
  modify (fun s =>
    let s := if (d =? mDoubleCheckFrameDuration s) || (d64 =? mDoubleCheckFrameDuration64 s)
             then s <| mDoubleCheckFrameDurationCount := u32 (mDoubleCheckFrameDurationCount s + 1) |>
             else s <| mDoubleCheckFrameDuration := d |> <| mDoubleCheckFrameDuration64 := d64 |>
                    <| mDoubleCheckFrameDurationCount := 0 |> in
    if kDoubleCheckThreshold s <? mDoubleCheckFrameDurationCount s
    then s <| mFrameDuration := mDoubleCheckFrameDuration s |> <| mFrameDuration64 := mDoubleCheckFrameDuration64 s |>
           <| mDoubleCheckFrameDurationCount := 0 |>
    else s).

Definition update_duration (out : checkout_pts_offset) : I unit :=
  s ← get;
  if truth (mPtsCheckoutStarted s) then
    if (mFrameDuration s =? 0) && (mFrameDuration64 s =? 0) then first_duration out else double_check out
  else modify (fun s => s <| mPtsCheckoutStarted := 1 |>).

Definition checkout_record (cur_duration : Z) (f : found) : I unit :=
  let out := f_out f in
  modify (fun s => s <| mPtsCheckoutFailCount := 0 |> <| mLastCheckoutOffset := u32 (co_offset out) |>
    <| mLastCheckoutPts := co_pts out |> <| mLastCheckoutPts64 := co_pts_64 out |>
    <| mLastPeekPts := co_pts out |> <| mLastPeekPts64 := co_pts_64 out |>
    <| mLastDoubleCheckoutPts := co_pts out |> <| mLastDoubleCheckoutPts64 := co_pts_64 out |>
    <| mDecoderDuration := cur_duration |> <| mLastCheckoutCurOffset := f_cur_offset f |>
    <| mLastShotBound := f_shot_bound f |>).

(** The body of [ptsserver_checkout_pts_offset]. *)
Definition checkout_pts (co : checkout_pts_offset) : I (Z * checkout_pts_offset) :=
  let cur := Z.land 4294967295 (co_offset co) in
  let cur_duration := Z.land (Z.shiftr (co_offset co) 32) 1073741823 in
  f ← checkout_search cur co;
  if negb (f_find f) || f_invalid_mode f then out ← checkout_fail f; mret (0, out)
  else update_duration (f_out f);; checkout_record cur_duration f;; mret (0, f_out f).

Definition ptsserver_checkout_pts_offset (id : Z) (co : checkout_pts_offset) : V (Z * checkout_pts_offset) :=
  on_instance id (-1, co) (checkout_pts co).

(** ** Peek: the same question without taking the node *)

Record peek := mk_peek { k_find : bool; k_fit_offset_ptn : option Z; k_diff : Z; k_frame_num : Z }.

Definition peek_node (cur p : Z) (k : peek) : I peek :=
  n ← node_at p;
  s ← get;
  let offsetAbs := u32 (abs32 (cur - n_offset n)) in
  k ← (if (offsetAbs <=? mLookupThreshold s) && (offsetAbs <=? k_diff k) && (n_offset n <? cur) then
         if n_pts_90k n =? MINUS_1 then
           modify (fun s => s <| mOffsetMode := true |>);; mret (mk_peek true (Some p) offsetAbs (k_frame_num k))
         else mret (mk_peek (k_find k) (Some p) offsetAbs (k_frame_num k))
       else mret k);
  mret (if k_find k then mk_peek true (k_fit_offset_ptn k) (k_diff k) (s32 (k_frame_num k + 1)) else k).

Fixpoint peek_list (nodes : list Z) (cur : Z) (k : peek) : I peek :=
  match nodes with
  | [] => mret k
  | p :: nodes =>
      k ← peek_node cur p k;
      if MAX_CHECKOUT_RETRY_COUNT <=? k_frame_num k then mret k else peek_list nodes cur k
  end.

(** The node whose time stamp answers, when there is a valid one. *)
Definition peek_search (cur : Z) : I (option Z) :=
  s ← get;
  if negb (cur =? NO_OFFSET) && negb (bool_decide (pts_list s = [])) then
    k ← peek_list (pts_list s) cur (mk_peek false None (mLookupThreshold s) 0);
    s ← get;
    match k_fit_offset_ptn k with
    | None => mret None
    | Some p =>
        n ← node_at p;
        mret (if mOffsetMode s && (n_pts_90k n =? MINUS_1) then None else Some p)
    end
  else mret None.

Definition peek_extrapolate (s : psinstance) (co : checkout_pts_offset) : checkout_pts_offset :=
  if truth (mDecoderDuration s) then
    co <| co_pts := u32 (mLastPeekPts s + mDecoderDuration s) |>
       <| co_pts_64 := u64 (mLastPeekPts64 s + u32 (mDecoderDuration s * 1000) / 96) |>
  else
    co <| co_pts := if truth (mFrameDuration s) then u32 (mLastPeekPts s + mFrameDuration s) else 0 |>
       <| co_pts_64 := if truth (mFrameDuration64 s) then u64 (mLastPeekPts64 s + mFrameDuration64 s) else 0 |>.

(** The body of [ptsserver_peek_pts_offset]. *)
Definition peek_pts (co : checkout_pts_offset) : I (Z * checkout_pts_offset) :=
  o ← peek_search (Z.land 4294967295 (co_offset co));
  s ← get;
  co ← (match o with
        | Some p => n ← node_at p; mret (co <| co_pts := u32 (n_pts_90k n) |> <| co_pts_64 := n_pts_64 n |>)
        | None => mret (peek_extrapolate s co)
        end);
  modify (fun s => s <| mLastPeekPts := co_pts co |> <| mLastPeekPts64 := co_pts_64 co |>);;
  mret (0, co).

Definition ptsserver_peek_pts_offset (id : Z) (co : checkout_pts_offset) : V (Z * checkout_pts_offset) :=
  on_instance id (-1, co) (peek_pts co).

(** ** Audio *)

Record ascan := mk_ascan { a_find : option Z; a_diff : Z; a_frame_num : Z }.

(** The difference is an [s32], compared with the [u32] threshold as
    unsigned. *)
Fixpoint ascan_list (nodes : list Z) (cur threshold : Z) (a : ascan) : I ascan :=
  match nodes with
  | [] => mret a
  | p :: nodes =>
      n ← node_at p;
      let offsetAbs := abs32 (cur - n_offset n) in
      let next a :=
        ascan_list nodes cur threshold
          (mk_ascan (a_find a) (a_diff a)
             (if bool_decide (is_Some (a_find a)) then s32 (a_frame_num a + 1) else a_frame_num a)) in
      if u32 offsetAbs <=? threshold then
        next (if u32 offsetAbs <=? a_diff a then mk_ascan (Some p) (u32 offsetAbs) (a_frame_num a) else a)
      else if FAR <? offsetAbs then release_node p;; next a
      else if 5 <? a_frame_num a then mret a
      else next a
  end.

(** The nearest node, which leaves the list. *)
Definition asearch (cur : Z) (co : checkout_apts_offset) : I (bool * checkout_apts_offset) :=
  s ← get;
  let threshold := if mAudioOffsetMargin s =? 0 then mLookupThreshold s else mAudioOffsetMargin s in
  if negb (cur =? NO_OFFSET) && negb (bool_decide (pts_list s = [])) then
    a ← ascan_list (pts_list s) cur threshold (mk_ascan None threshold 0);
    match a_find a with
    | None => mret (false, co)
    | Some p =>
        n ← node_at p;
        release_node p;;
        mret (true, co <| ao_pts_90k := n_pts_90k n |> <| ao_pts_64 := n_pts_64 n |>)
    end
  else mret (false, co).

Definition acheckout_record (cur : Z) (co : checkout_apts_offset) : I (Z * checkout_apts_offset) :=
  modify (fun s => s <| mPtsCheckoutStarted := if mPtsCheckoutStarted s =? 0 then 1 else mPtsCheckoutStarted s |>
    <| mPtsCheckoutFailCount := 0 |> <| mLastCheckoutOffset := u32 (ao_offset co) |>
    <| mLastCheckoutPts64 := ao_pts_64 co |> <| mLastDoubleCheckoutPts64 := ao_pts_64 co |>
    <| mLastCheckoutPts90k := ao_pts_90k co |> <| mLastCheckoutCurOffset := cur |>);;
  mret (0, co).

(** The body of [ptsserver_checkout_apts_offset]. *)
Definition checkout_apts (co : checkout_apts_offset) : I (Z * checkout_apts_offset) :=
  let cur := Z.land 4294967295 (ao_offset co) in
  r ← asearch cur co;
  let '(find, co) := r in
  if find && negb (ao_pts_64 co =? MINUS_1) then acheckout_record cur co
  else
    s ← get;
    if mPtsCheckoutStarted s =? 0 then
      modify (fun s => s <| mPtsCheckoutStarted := 1 |>);;
      acheckout_record cur (co <| ao_pts_90k := mFirstCheckinPts90k s |> <| ao_pts_64 := mFirstCheckinPts64 s |>)
    else
      modify (fun s => s <| mPtsCheckoutFailCount := u32 (mPtsCheckoutFailCount s + 1) |> <| mLastCheckoutCurOffset := cur |>);;
      mret (0, co <| ao_pts_90k := MINUS_1 |> <| ao_pts_64 := MINUS_1 |>).

Definition ptsserver_checkout_apts_offset (id : Z) (co : checkout_apts_offset) : V (Z * checkout_apts_offset) :=
  on_server id (-1, co) (checkout_apts co).
