(* ===== verification/PtsLists.v ===== *)
(** The lists of an instance of the PTS server (src/drivers/media_sync/
    pts_server/pts_server_core.c): every operation on an instance runs without
    undefined behaviour and keeps its nodes together - each is in exactly one
    of the two lists, and [mListSize] counts the first. *)

From stdpp Require Import base list numbers gmap.
From Stdlib Require Import ZArith Lia Bool.
From S2P Require Import Prelude.
From S2P Require Import PtsServer.
From S2P Require Import PtsCheckin.
From S2P Require Import PtsCheckout.

#[local] Open Scope Z_scope.

(** ** The invariant *)

Record ins_ok (s : psinstance) : Prop := {
  io_nodes : pts_list s ++ pts_free_list s ≡ₚ seqZ 0 (zlen (all_free_ptn s));
  io_size : mListSize s = zlen (pts_list s);
  io_count : all_free_ptn s = [] ∨ zlen (all_free_ptn s) = mMaxCount s;
  io_max : 1 ≤ mMaxCount s < 2 ^ 32;
  io_offsets : zlen (last_offset s) = 2;
  io_writes : 0 ≤ write_count s
}.

(** The part of the state the invariant speaks of. *)
Definition same_lists (s s' : psinstance) : Prop :=
  pts_list s' = pts_list s ∧ pts_free_list s' = pts_free_list s ∧ zlen (all_free_ptn s') = zlen (all_free_ptn s) ∧
  mListSize s' = mListSize s ∧ mMaxCount s' = mMaxCount s ∧ zlen (last_offset s') = zlen (last_offset s) ∧
  (0 ≤ write_count s → 0 ≤ write_count s').

Lemma same_lists_refl s : same_lists s s.
Proof. by repeat split. Qed.

Lemma same_lists_trans s1 s2 s3 : same_lists s1 s2 → same_lists s2 s3 → same_lists s1 s3.
Proof. unfold same_lists. intuition congruence. Qed.

Lemma ins_ok_same s s' : ins_ok s → same_lists s s' → ins_ok s'.
Proof.
  intros [H1 H2 H3 H4 H5 H6] (E1 & E2 & E3 & E4 & E5 & E6 & E7).
  split; rewrite ?E1, ?E2, ?E3, ?E4, ?E5, ?E6; try done; [|by auto].
  destruct H3 as [H3|H3]; [left|by right]. rewrite H3 in E3. destruct (all_free_ptn s'); [done|]. unfold zlen in E3. cbn in E3. lia.
Qed.

(** The nodes of an instance. *)
Definition is_ptr (s : psinstance) (p : Z) : Prop := 0 ≤ p < zlen (all_free_ptn s).

Lemma elem_ptr s p : ins_ok s → p ∈ pts_list s ++ pts_free_list s ↔ is_ptr s p.
Proof. intros H. rewrite (io_nodes _ H), elem_of_seqZ. unfold is_ptr. lia. Qed.

Lemma list_ptr s p : ins_ok s → p ∈ pts_list s → is_ptr s p.
Proof. intros H Hp. apply elem_ptr; [done|]. apply elem_of_app. by left. Qed.

Lemma free_ptr s p : ins_ok s → p ∈ pts_free_list s → is_ptr s p.
Proof. intros H Hp. apply elem_ptr; [done|]. apply elem_of_app. by right. Qed.

Lemma is_ptr_node s p : is_ptr s p → ∃ n, aget (all_free_ptn s) p = Some n.
Proof. intros Hp. apply aget_Some. exact Hp. Qed.

Lemma all_nodup s : ins_ok s → NoDup (pts_list s ++ pts_free_list s).
Proof. intros H. rewrite (io_nodes _ H). apply NoDup_seqZ. Qed.

Lemma list_nodup s : ins_ok s → NoDup (pts_list s).
Proof. intros H. by apply all_nodup, NoDup_app in H as [? _]. Qed.

Lemma list_not_free s p : ins_ok s → p ∈ pts_list s → p ∉ pts_free_list s.
Proof. intros H Hp. apply all_nodup, NoDup_app in H as (_ & H & _). by apply H. Qed.

(** The lists are no longer than the array, which is no longer than
    [mMaxCount]. *)
Lemma lists_len s : ins_ok s → zlen (pts_list s) + zlen (pts_free_list s) = zlen (all_free_ptn s).
Proof.
  intros H. pose proof (Permutation_length (io_nodes _ H)) as Hl. rewrite length_app, length_seqZ in Hl. unfold zlen in *. lia.
Qed.

Lemma size_bound s : ins_ok s → 0 ≤ mListSize s ≤ mMaxCount s.
Proof.
  intros H. pose proof (lists_len s H). rewrite (io_size _ H). pose proof (zlen_nonneg (pts_list s)).
  pose proof (zlen_nonneg (pts_free_list s)). destruct (io_count _ H) as [E|E]; [rewrite E in *; unfold zlen in *; cbn in *|];
  pose proof (io_max _ H); lia.
Qed.

(** A full list has a first node. *)
Lemma full_list s : ins_ok s → mMaxCount s ≤ mListSize s → ∃ p l, pts_list s = p :: l.
Proof.
  intros H Hf. rewrite (io_size _ H) in Hf. pose proof (io_max _ H). destruct (pts_list s) as [|p l]; [|by exists p, l].
  unfold zlen in *. cbn in *. lia.
Qed.

(** ** Rules *)

Lemma wp_node_at p s n (Q : pts_node → psinstance → Prop) E : aget (all_free_ptn s) p = Some n → Q n s → wp False (node_at p) Q E s.
Proof. intros Hp HQ. unfold node_at. wp_step. wp_step. rewrite Hp. cbn [of_option]. by wp_step. Qed.

(** Reading a node of the instance. *)
Lemma wp_node p s (Q : pts_node → psinstance → Prop) E : is_ptr s p →
  (∀ n, aget (all_free_ptn s) p = Some n → Q n s) → wp False (node_at p) Q E s.
Proof. intros Hp HQ. destruct (is_ptr_node _ _ Hp) as [n Hn]. eapply wp_node_at; [exact Hn|by apply HQ]. Qed.

Lemma wp_upd_node p g s n (Q : unit → psinstance → Prop) E : aget (all_free_ptn s) p = Some n →
  Q tt (s <| all_free_ptn := <[Z.to_nat p := g n]> (all_free_ptn s) |>) → wp False (upd_node p g) Q E s.
Proof.
  intros Hp HQ. unfold upd_node. wp_step. eapply wp_node_at; [exact Hp|]. wp_step. wp_step. wp_step.
  rewrite aset_Some by (by apply aget_inv in Hp as [? _]). cbn [of_option]. wp_step. by wp_step.
Qed.

(** An operation that keeps the lists. *)
Definition quiet {A} (m : I A) (s : psinstance) : Prop := wp False m (fun _ s' => same_lists s s') (fun _ _ => False) s.

Lemma upd_node_quiet p g s : is_ptr s p → quiet (upd_node p g) s.
Proof.
  intros Hp. destruct (is_ptr_node _ _ Hp) as [n Hn]. eapply wp_upd_node; [exact Hn|]. repeat split; try done.
  cbn. apply zlen_insert.
Qed.

Lemma without_perm p (l : list Z) : NoDup l → p ∈ l → l ≡ₚ p :: without p l.
Proof.
  intros Hn Hp. unfold without. apply NoDup_Permutation; [done| |].
  - constructor; [|by apply NoDup_filter]. by intros [? _]%list_elem_of_filter.
  - intros q. rewrite elem_of_cons, list_elem_of_filter. destruct (decide (q = p)) as [->|?]; [|tauto]. split; [by left|done].
Qed.

Lemma elem_without p q l : q ∈ without p l ↔ q ≠ p ∧ q ∈ l.
Proof. unfold without. by rewrite list_elem_of_filter. Qed.

(** A node of the list goes to the free list and is counted off. *)
Record moved (p : Z) (s s' : psinstance) : Prop := {
  mv_ok : ins_ok s';
  mv_list : pts_list s' = without p (pts_list s);
  mv_free : pts_free_list s' = pts_free_list s ++ [p];
  mv_same : s' = s <| pts_list := pts_list s' |> <| pts_free_list := pts_free_list s' |> <| mListSize := mListSize s' |>
}.

Lemma wp_release p s (Q : unit → psinstance → Prop) E : ins_ok s → p ∈ pts_list s → (∀ s', moved p s s' → Q tt s') →
  wp False (release_node p) Q E s.
Proof.
  intros Hs Hp HQ. unfold release_node, to_free_list. wp_step. wp_step. apply wp_node; [by apply list_ptr|]. intros n _.
  wp_step. wp_step. rewrite bool_decide_eq_true_2 by done. wp_step. wp_step. apply HQ.
  pose proof (without_perm p (pts_list s) (list_nodup _ Hs) Hp) as Hperm.
  split; [|done|done|by destruct s]. destruct Hs as [H1 H2 H3 H4 H5 H6]. split; cbn -[zlen u32]; try done.
  - etrans; [|exact H1]. rewrite app_assoc. rewrite Permutation_app_comm. cbn. change (p :: ?a ++ ?b) with ((p :: a) ++ b).
    by apply Permutation_app.
  - assert (zlen (pts_list s) = zlen (without p (pts_list s)) + 1) as Hl.
    { apply Permutation_length in Hperm. unfold zlen. rewrite Hperm. cbn. lia. }
    rewrite H2, Hl. assert (zlen (pts_list s) ≤ mMaxCount s) as Hm.
    { rewrite <- H2. apply size_bound. by split. }
    pose proof (zlen_nonneg (without p (pts_list s))). rewrite u32_id; lia.
Qed.

(** ** Checking in *)

(** States that differ in the lists, the count and the drop index; the list
    does not gain nodes. *)
Record trimmed (s s' : psinstance) : Prop := {
  tr_ok : ins_ok s';
  tr_list : pts_list s' `sublist_of` pts_list s;
  tr_same : s' = s <| pts_list := pts_list s' |> <| pts_free_list := pts_free_list s' |> <| mListSize := mListSize s' |>
                   <| mLastDropIndex := mLastDropIndex s' |>;
  tr_size : mListSize s' ≤ mListSize s
}.

Lemma trimmed_refl s : ins_ok s → trimmed s s.
Proof. split; [done|done|by destruct s|lia]. Qed.

Lemma trimmed_trans s1 s2 s3 : trimmed s1 s2 → trimmed s2 s3 → trimmed s1 s3.
Proof.
  intros [A1 A2 A3 A4] [B1 B2 B3 B4]. split; [done|by etrans| |lia]. rewrite B3, A3. by destruct s1.
Qed.

(** A move takes one node off. *)
Lemma moved_size p s s' : ins_ok s → p ∈ pts_list s → moved p s s' → mListSize s' = mListSize s - 1.
Proof.
  intros Hs Hp [H1 H2 _ _]. rewrite (io_size _ H1), (io_size _ Hs), H2.
  pose proof (Permutation_length (without_perm p (pts_list s) (list_nodup _ Hs) Hp)) as Hl. unfold zlen. rewrite Hl. cbn. lia.
Qed.

Lemma moved_trimmed p s s' : ins_ok s → p ∈ pts_list s → moved p s s' → trimmed s s'.
Proof.
  intros Hs Hp Hm. pose proof (moved_size _ _ _ Hs Hp Hm) as Hsz. destruct Hm as [H1 H2 H3 H4]. split; [done| | |lia].
  - rewrite H2. apply sublist_filter.
  - rewrite H4. by destruct s.
Qed.

Lemma drop_old_wp l del s : ins_ok s → NoDup l → (∀ p, p ∈ l → p ∈ pts_list s) →
  wp False (drop_old l del) (fun del' s' => trimmed s s' ∧ (del = true → del' = true) ∧ (if del' then del = false → mListSize s' < mListSize s else s' = s))
    (fun _ _ => False) s.
Proof.
  revert del s. induction l as [|p l IH]; intros del s Hs Hn Hl; cbn [drop_old].
  - wp_step. split; [by apply trimmed_refl|]. split; [done|]. by destruct del.
  - apply NoDup_cons in Hn as [Hp Hn]. assert (p ∈ pts_list s) as Hin by (apply Hl; left).
    wp_step. apply wp_node; [by apply list_ptr|]. intros n _. wp_step. wp_step. wp_step.
    + wp_step. apply wp_release; [done|done|]. intros s1 Hm. wp_step. wp_step.
      pose proof (moved_trimmed _ _ _ Hs Hin Hm) as Ht. pose proof (moved_size _ _ _ Hs Hin Hm) as Hsz.
      set (s2 := s1 <| mLastDropIndex := _ |>).
      assert (trimmed s s2) as Ht2.
      { destruct Ht as [T1 T2 T3 T4]. split; [by eapply ins_ok_same|done| |done]. unfold s2. rewrite T3. by destruct s. }
      eapply wp_mono; [apply (IH true s2); [apply Ht2|done|]| |done].
      * intros q Hq. change (pts_list s2) with (pts_list s1). rewrite (mv_list _ _ _ Hm). apply elem_without.
        split; [by intros ->|]. apply Hl. by right.
      * intros d s3 (Ht3 & Hd & _). rewrite Hd by done. split; [by eapply trimmed_trans|]. split; [done|].
        intros _. pose proof (tr_size _ _ Ht3). change (mListSize s2) with (mListSize s1) in *. lia.
    + apply IH; [done|done|]. intros q Hq. apply Hl. by right.
Qed.

Lemma drop_first_wp s (Q : unit → psinstance → Prop) E : ins_ok s → pts_list s ≠ [] →
  (∀ p s', p ∈ pts_list s → moved p s s' → Q tt s') → wp False drop_first Q E s.
Proof.
  intros Hs Hne HQ. unfold drop_first. wp_step. wp_step. wp_step. destruct (pts_list s) as [|p l] eqn:Hl; [done|].
  cbn [head of_option]. wp_step. assert (p ∈ pts_list s) as Hp by (rewrite Hl; left).
  apply wp_release; [done|done|]. intros s'. apply HQ. left.
Qed.

(** Afterwards there is room. *)
Lemma make_room_wp s : ins_ok s →
  wp False make_room (fun _ s' => trimmed s s' ∧ mListSize s' < mMaxCount s' ∧ (mListSize s < mMaxCount s → s' = s)) (fun _ _ => False) s.
Proof.
  intros Hs. unfold make_room. wp_step. wp_step. wp_step; bprop.
  2: { split; [by apply trimmed_refl|done]. }
  destruct (full_list _ Hs H) as (p & l & Hl). pose proof (size_bound _ Hs) as Hb. wp_step.
  eapply wp_mono; [apply drop_old_wp; [done|by apply list_nodup|done]| |done].
  intros d s1 (Ht & _ & Hd). assert (mMaxCount s1 = mMaxCount s) as Em by (rewrite (tr_same _ _ Ht); done). wp_step.
  - destruct d; [done|]. subst s1. apply drop_first_wp; [done|by rewrite Hl|]. intros q s2 Hq Hm.
    pose proof (moved_size _ _ _ Hs Hq Hm). pose proof (moved_trimmed _ _ _ Hs Hq Hm) as Ht2.
    assert (mMaxCount s2 = mMaxCount s) as -> by (rewrite (tr_same _ _ Ht2); done). split; [done|]. lia.
  - destruct d; [|done]. specialize (Hd eq_refl). split; [done|]. lia.
Qed.

(** The search for the place: the new node stands behind nodes that are not
    to follow it, in front of one that is. *)
Definition placed (s : psinstance) (test : pts_node → bool) (p : Z) (l l' : list Z) : Prop :=
  ∃ l1 l2, l = l1 ++ l2 ∧ l' = l1 ++ p :: l2 ∧
    (∀ q m, q ∈ l1 → aget (all_free_ptn s) q = Some m → test m = false) ∧
    (∀ q m, head l2 = Some q → aget (all_free_ptn s) q = Some m → test m = true).

Lemma insert_before_wp test p l s : (∀ q, q ∈ l → is_ptr s q) →
  wp False (insert_before test p l) (fun l' s' => s' = s ∧ placed s test p l l') (fun _ _ => False) s.
Proof.
  intros Hl. induction l as [|q l IH]; cbn [insert_before].
  - wp_step. split; [done|]. exists [], []. repeat split; try done. by intros q m ?%elem_of_nil.
  - wp_step. apply wp_node; [apply Hl; left|]. intros n Hn. wp_step.
    + wp_step. split; [done|]. exists [], (q :: l). repeat split; try done; [by intros x m ?%elem_of_nil|].
      intros x m [= <-] Hm. by replace m with n by congruence.
    + wp_step. eapply wp_mono; [apply IH; intros x Hx; apply Hl; by right| |done].
      intros l' s' (-> & l1 & l2 & -> & -> & H1 & H2). wp_step. split; [done|]. exists (q :: l1), l2. repeat split; try done.
      intros x m [->|Hx]%elem_of_cons Hm; [by replace m with n by congruence|by eapply H1].
Qed.

(** What decides how a checkout goes, besides the nodes. *)
Definition modes (s : psinstance) : bool * bool * Z * Z * Z * Z :=
  (setC2Mode s, mOffsetMode s, mTrickMode s, mLookupThreshold s, mPtsCheckoutStarted s, mPtsCheckoutFailCount s).

(** What [checkin_head] makes of a free node. *)
Definition new_node (s : psinstance) (ci : checkin_pts_size) (isOffset : bool) : pts_node :=
  mk_ptn (if isOffset then ci_size ci else u32 (mLastCheckinOffset s + u32 (mLastCheckinPieceOffset s - mLastCheckinOffset s)))
    (ci_pts ci) (ci_pts_64 ci) MAX_EXPIRED_COUNT (mLastCheckinDurationCount s) (mLastIndex s).

Record headed (s s' : psinstance) (ci : checkin_pts_size) (isOffset : bool) (p : Z) : Prop := {
  hd_ok : ins_ok s';
  hd_free : pts_free_list s = p :: pts_free_list s';
  hd_place : placed s (goes_before (setC2Mode s) (new_node s ci isOffset)) p (pts_list s) (pts_list s');
  hd_nodes : all_free_ptn s' = <[Z.to_nat p := new_node s ci isOffset]> (all_free_ptn s);
  hd_modes : modes s' = modes s
}.

Lemma placed_perm s test p l l' : placed s test p l l' → l' ≡ₚ p :: l.
Proof. intros (l1 & l2 & -> & -> & _). symmetry. apply Permutation_middle. Qed.

Lemma headed_ok s s' p l' : ins_ok s → pts_free_list s = p :: pts_free_list s' → pts_list s' = l' → l' ≡ₚ p :: pts_list s →
  zlen (all_free_ptn s') = zlen (all_free_ptn s) → mMaxCount s' = mMaxCount s → mListSize s' = u32 (mListSize s + 1) →
  zlen (last_offset s') = zlen (last_offset s) → write_count s' = write_count s → ins_ok s'.
Proof.
  intros Hs Hf Hl Hp E1 E2 E3 E4 E5. pose proof (lists_len _ Hs) as Hlen. pose proof (size_bound _ Hs) as Hb.
  destruct Hs as [H1 H2 H3 H4 H5 H6]. split; rewrite ?E1, ?E2, ?E4, ?E5; try done.
  - rewrite Hl, Hp, <- H1, Hf. cbn. by rewrite Permutation_middle.
  - rewrite E3, H2, Hl. assert (zlen l' = zlen (pts_list s) + 1) as -> by (unfold zlen; rewrite Hp; cbn; lia).
    apply u32_id. rewrite Hf in Hlen. unfold zlen in *. cbn in Hlen. destruct H3 as [H3|H3]; [rewrite H3 in Hlen; cbn in Hlen|]; lia.
  - destruct H3 as [H3|H3]; [|by right]. left. rewrite H3 in E1. destruct (all_free_ptn s'); [done|]. unfold zlen in E1. cbn in E1. lia.
Qed.

Lemma placed_same s s' test test' p l l' : placed s test p l l' → (∀ m, test' m = test m) →
  (∀ q, q ∈ l → aget (all_free_ptn s') q = aget (all_free_ptn s) q) → placed s' test' p l l'.
Proof.
  intros (l1 & l2 & -> & -> & H1 & H2) Ht Hn. exists l1, l2. split; [done|]. split; [done|]. split.
  - intros q m Hq. rewrite Hn, Ht; [by apply H1|]. apply elem_of_app. by left.
  - intros q m Hq. rewrite Hn, Ht; [by apply H2|]. apply elem_of_app. right. destruct l2; [done|]. injection Hq as ->. left.
Qed.

Lemma checkin_head_wp s ci isOffset : ins_ok s →
  wp False (checkin_head ci isOffset) (fun o s' => match o with
     | None => s' = s ∧ pts_free_list s = []
     | Some p => headed s s' ci isOffset p
     end) (fun _ _ => False) s.
Proof.
  intros Hs. unfold checkin_head, take_free. wp_step. wp_step. wp_step.
  destruct (pts_free_list s) as [|p fl] eqn:Hf; [wp_step; by wp_step|].
  assert (is_ptr s p) as Hp by (apply free_ptr; [done|rewrite Hf; left]). destruct (is_ptr_node _ _ Hp) as [n0 Hn0].
  wp_step. eapply wp_node_at; [exact Hn0|]. wp_step. wp_step. wp_step.
  unfold checkin_fill. wp_step. wp_step.
  apply (wp_mono _ (fun _ s1 => s1 = s <| pts_free_list := fl |>
     <| mLastCheckinSize := if isOffset then mLastCheckinSize s else u32 (mLastCheckinPieceOffset s - mLastCheckinOffset s) |>)
     _ (fun _ _ => False)); [| |done].
  { by destruct isOffset; cbn [negb]; wp_step. }
  intros _ s1 ->. wp_step. wp_step. wp_step. eapply wp_upd_node; [exact Hn0|]. wp_step. wp_step.
  unfold checkin_link. wp_step. wp_step. wp_step. eapply wp_node_at; [apply aget_insert; exact Hp|]. wp_step.
  eapply wp_mono; [apply insert_before_wp| |done].
  { intros q Hq. unfold is_ptr. cbn -[zlen]. rewrite zlen_insert. by apply list_ptr. }
  intros l' s2 [-> Hpl]. wp_step. wp_step. unfold checkin_count. wp_step. eapply wp_node_at; [apply aget_insert; exact Hp|].
  wp_step. wp_step. wp_step. eapply wp_upd_node; [apply aget_insert; exact Hp|]. wp_step.
  match goal with |- wp _ _ _ _ ?x => set (s3 := x) end.
  apply (wp_mono _ (fun _ s4 => ∃ c, s4 = s3 <| mLastCheckinDurationCount := c |>) _ (fun _ _ => False)); [| |done].
  { wp_step; [wp_step; by eexists|]. exists (mLastCheckinDurationCount s3). by destruct s3. }
  intros _ s4 [c ->]. wp_step. wp_step.
  assert (p ∉ pts_list s) as Hpl'.
  { intros Hin. apply (list_not_free _ _ Hs Hin). rewrite Hf. left. }
  assert (placed s (goes_before (setC2Mode s) (new_node s ci isOffset)) p (pts_list s) l') as Hplace.
  { eapply placed_same; [exact Hpl|by destruct isOffset|]. intros q Hq. cbn. symmetry. apply aget_insert_ne; [apply Hp|]. by intros ->. }
  split; cbn -[zlen u32 placed]; try done.
  - eapply (headed_ok s _ p l'); [done|by rewrite Hf|done|by eapply placed_perm| |done|done|done|done].
    cbn -[zlen]. by rewrite !zlen_insert.
  - rewrite list_insert_insert_eq. f_equal. by destruct isOffset.
Qed.

(** An operation runs and keeps the invariant. *)
Definition safe {A} (m : I A) (s : psinstance) : Prop := wp False m (fun _ => ins_ok) (fun _ _ => False) s.

Lemma wp_modify_quiet f s (Q : unit → psinstance → Prop) E : same_lists s (f s) → (same_lists s (f s) → Q tt (f s)) → wp False (modify f) Q E s.
Proof. intros Hf HQ. wp_step. by apply HQ. Qed.

(** The offset at which the next piece begins. *)
Definition piece_offset (s : psinstance) (ci : checkin_pts_size) (isOffset : bool) : Z :=
  if isOffset then ci_size ci else u32 (mLastCheckinPieceOffset s + mLastCheckinPieceSize s).

Lemma record_offsets_wp ci b s (Q : unit → psinstance → Prop) E : ins_ok s →
  (∀ l w, let s' := s <| last_offset := l |> <| write_count := w |> <| mLastCheckinPieceOffset := piece_offset s ci b |> in
     ins_ok s' → Q tt s') →
  wp False (record_offsets ci b) Q E s.
Proof.
  intros Hs HQ. unfold record_offsets. wp_step. wp_step. wp_step.
  rewrite aset_Some by (rewrite (io_offsets _ Hs); apply Z.mod_pos_bound; lia). cbn [of_option]. wp_step. wp_step. apply HQ.
  eapply ins_ok_same; [exact Hs|]. repeat split; try done; cbn -[zlen u32].
  - apply zlen_insert.
  - intros _. apply u32_range.
Qed.

(** Conditional updates of fields. *)
Lemma same_lists_if (b : bool) s x y : same_lists s x → same_lists s y → same_lists s (if b then x else y).
Proof. by destruct b. Qed.

(** The rest of a checkin leaves nodes and modes alone. *)
Definition finished (s s' : psinstance) : Prop := same_lists s s' ∧ all_free_ptn s' = all_free_ptn s ∧ modes s' = modes s.

Lemma checkin_finish_wp ci b p s : is_ptr s p → wp False (checkin_finish ci b p) (fun r s' => r = 0 ∧ finished s s') (fun _ _ => False) s.
Proof.
  intros Hp. unfold checkin_finish. wp_step. wp_step. wp_step.
  apply (wp_mono _ (fun _ s1 => finished s s1) _ (fun _ _ => False)); [| |done].
  { wp_step; [wp_step|]; by repeat split. }
  intros _ s1 (H1 & H2 & H3). assert (is_ptr s1 p) as Hp1 by (unfold is_ptr; by rewrite H2).
  wp_step. apply wp_node; [done|]. intros n _. wp_step. wp_step. wp_step. unfold record_piece. wp_step. wp_step.
  split; [done|]. unfold finished. rewrite <- H2, <- H3. split; [|by destruct (truth (mAlignmentOffset s1))].
  eapply same_lists_trans; [exact H1|]. destruct (truth (mAlignmentOffset s1)); by repeat split.
Qed.

(** The node a checkin makes. *)
Definition frame_node (s : psinstance) (ci : checkin_pts_size) (isOffset : bool) : pts_node :=
  mk_ptn (piece_offset s ci isOffset) (ci_pts ci) (ci_pts_64 ci) MAX_EXPIRED_COUNT (mLastCheckinDurationCount s) (mLastIndex s).

(** A frame is checked in: the list keeps its order and, when it was full,
    loses nodes; the new node takes its place. *)
Record framed (s s' : psinstance) (ci : checkin_pts_size) (isOffset : bool) (p : Z) : Prop := {
  fr_list : ∃ l, l `sublist_of` pts_list s ∧ (mListSize s < mMaxCount s → l = pts_list s) ∧ p ∉ l ∧
    placed s (goes_before (setC2Mode s) (frame_node s ci isOffset)) p l (pts_list s');
  fr_ptr : is_ptr s p;
  fr_nodes : all_free_ptn s' = <[Z.to_nat p := frame_node s ci isOffset]> (all_free_ptn s);
  fr_modes : modes s' = modes s
}.

Definition checkin_post (s : psinstance) (ci : checkin_pts_size) (b : bool) (r : Z) (s' : psinstance) : Prop :=
  ins_ok s' ∧
  if ci_pts ci =? 0 then r = 0 ∧ pts_list s' `sublist_of` pts_list s ∧ all_free_ptn s' = all_free_ptn s
  else (r = 0 ∧ ∃ p, framed s s' ci b p) ∨ (r = -1 ∧ all_free_ptn s = []).

Lemma new_node_frame s s1 ci b l w : piece_offset s1 ci b = piece_offset s ci b →
  mLastCheckinDurationCount s1 = mLastCheckinDurationCount s → mLastIndex s1 = mLastIndex s →
  new_node (s1 <| last_offset := l |> <| write_count := w |> <| mLastCheckinPieceOffset := piece_offset s1 ci b |>) ci b = frame_node s ci b.
Proof.
  intros E1 E2 E3. unfold new_node, frame_node. cbn -[u32 piece_offset]. rewrite E2, E3, <- E1. f_equal. unfold piece_offset.
  destruct b; [done|]. rewrite u32_add_r. rewrite Z.add_sub_assoc, Z.add_simpl_l. apply u32_id, u32_range.
Qed.

Lemma checkin_pts_wp ci b s : ins_ok s → wp False (checkin_pts ci b) (checkin_post s ci b) (fun _ _ => False) s.
Proof.
  intros Hs. unfold checkin_pts, checkin_post. wp_step. eapply wp_mono; [by apply make_room_wp| |done].
  intros _ s1 (Ht & Hroom & Hsame). pose proof (tr_ok _ _ Ht) as Hs1. wp_step. apply record_offsets_wp; [done|]. intros lo w s2 Hs2.
  assert (piece_offset s1 ci b = piece_offset s ci b ∧ mLastCheckinDurationCount s1 = mLastCheckinDurationCount s ∧ mLastIndex s1 = mLastIndex s ∧
    setC2Mode s1 = setC2Mode s ∧ modes s1 = modes s ∧ all_free_ptn s1 = all_free_ptn s ∧ mMaxCount s1 = mMaxCount s) as (E1 & E2 & E3 & E4 & E5 & E6 & E7).
  { unfold piece_offset, modes. by rewrite (tr_same _ _ Ht). }
  pose proof (tr_list _ _ Ht) as Hsub. wp_step.
  - rewrite H. wp_step. wp_step. wp_step.
    + wp_step. assert (pts_list s2 ≠ []) as Hne.
      { intros E. rewrite (io_size _ Hs2), E in H0. done. }
      destruct (last (pts_list s2)) as [p|] eqn:Hl; [|by apply last_None in Hl]. cbn [of_option]. wp_step.
      eapply wp_mono; [apply checkin_finish_wp, list_ptr; [done|]| |done].
      { apply last_Some in Hl as [l ->]. apply elem_of_app. right. left. }
      intros r s3 (-> & HL & En & _). split; [by eapply ins_ok_same|]. split; [done|]. destruct HL as (-> & _). split; [exact Hsub|].
      rewrite En. exact E6.
    + unfold record_piece. wp_step. wp_step. wp_step. split; [by eapply ins_ok_same|]. split; [done|]. split; [exact Hsub|exact E6].
  - rewrite H. wp_step. eapply wp_mono; [by apply checkin_head_wp| |done]. intros [p|] s3.
    + intros [G1 G2 G3 G4 G5]. assert (is_ptr s3 p) as Hp.
      { apply list_ptr; [done|]. rewrite (placed_perm _ _ _ _ _ G3). left. }
      eapply wp_mono; [by apply checkin_finish_wp| |done]. intros r s4 (-> & HL & En & Em). split; [by eapply ins_ok_same|]. left.
      split; [done|]. exists p. assert (new_node s2 ci b = frame_node s ci b) as Enew by (by apply new_node_frame).
      rewrite Enew in G3, G4. change (all_free_ptn s2) with (all_free_ptn s1) in G4. rewrite E6 in G4.
      split.
      * exists (pts_list s1). split; [done|]. split; [by intros ->%Hsame|]. split.
        { intros Hin. apply (list_not_free _ _ Hs2 Hin). change (pts_free_list s2) with (pts_free_list s2). rewrite G2. left. }
        destruct HL as (-> & _). change (setC2Mode s2) with (setC2Mode s1) in G3. rewrite E4 in G3.
        eapply placed_same; [exact G3|done|]. intros q _. change (all_free_ptn s2) with (all_free_ptn s1). by rewrite E6.
      * unfold is_ptr in *. rewrite G4, zlen_insert in Hp. done.
      * by rewrite En.
      * rewrite Em, G5. exact E5.
    + intros [-> Hf]. wp_step. split; [done|]. right. split; [done|]. rewrite <- E6.
      pose proof (lists_len _ Hs2) as Hlen. rewrite Hf in Hlen. change (all_free_ptn s2) with (all_free_ptn s1) in Hlen.
      pose proof (io_size _ Hs2) as Hsz. destruct (io_count _ Hs1) as [E|E]; [done|]. change (mListSize s2) with (mListSize s1) in Hsz.
      change (zlen []) with 0 in Hlen. lia.
Qed.

Lemma checkin_pts_safe ci b s : ins_ok s → safe (checkin_pts ci b) s.
Proof. intros Hs. eapply wp_mono; [by apply checkin_pts_wp| |done]. by intros r s' [? _]. Qed.

(** ** Audio *)

(** The first time stamp that was checked in, as it is kept. *)
Definition first_pts (s : psinstance) : Z * Z := (mFirstCheckinPts64 s, mFirstCheckinPts90k s).

(** A frame is appended; the list loses its first node when it was full.  The
    first time stamp is kept in 32 bits, and later ones leave it alone. *)
Definition acheckin_post (s : psinstance) (ai : checkin_apts_size) (r : Z) (s' : psinstance) : Prop :=
  ins_ok s' ∧ modes s' = modes s ∧ mPtsServerInsId s' = mPtsServerInsId s ∧
  ((r = -1 ∧ all_free_ptn s = []) ∨
   r = 0 ∧
   (∃ l p n, l `sublist_of` pts_list s ∧ (mListSize s < mMaxCount s → l = pts_list s) ∧ pts_list s' = l ++ [p] ∧ p ∉ l ∧
      aget (all_free_ptn s') p = Some n ∧ n_offset n = ai_offset ai ∧ n_pts_90k n = ai_pts_90k ai ∧ n_pts_64 n = ai_pts_64 ai ∧
      ∀ q, q ≠ p → aget (all_free_ptn s') q = aget (all_free_ptn s) q) ∧
   mPtsCheckinStarted s' ≠ 0 ∧
   first_pts s' = (if mPtsCheckinStarted s =? 0 then (u32 (ai_pts_64 ai), ai_pts_90k ai) else first_pts s)).

Lemma checkin_apts_wp ai s : ins_ok s → wp False (checkin_apts ai) (acheckin_post s ai) (fun _ _ => False) s.
Proof.
  intros Hs. unfold checkin_apts, acheckin_post. wp_step. wp_step. wp_step.
  apply (wp_mono _ (fun _ s1 => trimmed s s1 ∧ mListSize s1 < mMaxCount s ∧ (mListSize s < mMaxCount s → s1 = s)) _ (fun _ _ => False)); [| |done].
  { wp_step; bprop; [|by split; [apply trimmed_refl|]]. destruct (full_list _ Hs H) as (p & l & Hl). pose proof (size_bound _ Hs).
    apply drop_first_wp; [done|by rewrite Hl|]. intros q s1 Hq Hm. pose proof (moved_size _ _ _ Hs Hq Hm). split; [by apply (moved_trimmed q)|]. lia. }
  intros _ s0 (Ht & Hroom & Hsame). pose proof (tr_ok _ _ Ht) as Hs0.
  assert (modes s0 = modes s ∧ all_free_ptn s0 = all_free_ptn s ∧ mMaxCount s0 = mMaxCount s ∧ mPtsCheckinStarted s0 = mPtsCheckinStarted s ∧
    mPtsServerInsId s0 = mPtsServerInsId s ∧ first_pts s0 = first_pts s)
    as (<- & <- & Em & <- & <- & <-) by (unfold modes, first_pts; by rewrite (tr_same _ _ Ht)).
  wp_step. unfold take_free. wp_step. wp_step. destruct (pts_free_list s0) as [|p fl] eqn:Hf.
  { wp_step. wp_step. split; [done|]. split; [done|]. split; [done|]. left. split; [done|]. pose proof (lists_len _ Hs0) as Hlen. rewrite Hf in Hlen.
    pose proof (io_size _ Hs0). destruct (io_count _ Hs0) as [E|E]; [done|]. change (zlen []) with 0 in Hlen. lia. }
  assert (is_ptr s0 p) as Hp by (apply free_ptr; [done|rewrite Hf; left]). destruct (is_ptr_node _ _ Hp) as [n0 Hn0].
  wp_step. eapply wp_node_at; [exact Hn0|]. wp_step. wp_step. wp_step. wp_step. eapply wp_upd_node; [exact Hn0|].
  wp_step. wp_step. wp_step. wp_step.
  match goal with |- wp _ _ _ _ ?x => set (s1 := x) end.
  assert (ins_ok s1) as Hs1.
  { eapply (headed_ok s0 _ p (pts_list s0 ++ [p])); [done|by rewrite Hf|done| | |done|done|done|done].
    - rewrite Permutation_app_comm. done.
    - cbn -[zlen]. apply zlen_insert. }
  assert (is_ptr s1 p) as Hp1 by (unfold is_ptr; cbn -[zlen]; by rewrite zlen_insert).
  assert (p ∉ pts_list s0) as Hnew. { intros Hin. apply (list_not_free _ _ Hs0 Hin). rewrite Hf. left. }
  assert (modes s1 = modes s0 ∧ mPtsCheckinStarted s1 = mPtsCheckinStarted s0 ∧ mPtsServerInsId s1 = mPtsServerInsId s0 ∧
    first_pts s1 = first_pts s0 ∧ pts_list s1 = pts_list s0 ++ [p] ∧
    (∃ n, aget (all_free_ptn s1) p = Some n ∧ n_offset n = ai_offset ai ∧ n_pts_90k n = ai_pts_90k ai ∧ n_pts_64 n = ai_pts_64 ai) ∧
    (∀ q, q ≠ p → aget (all_free_ptn s1) q = aget (all_free_ptn s0) q)) as (<- & <- & <- & <- & El & (n & Hn & D) & Hkeep).
  { do 5 (split; [done|]). split; [eexists; split; [by apply aget_insert|done]|].
    intros q Hq. apply aget_insert_ne; [apply Hp|by intros ->]. }
  clearbody s1. wp_step.
  apply (wp_mono _ (fun _ s2 => finished s1 s2 ∧ mPtsServerInsId s2 = mPtsServerInsId s1 ∧ mPtsCheckinStarted s2 ≠ 0 ∧
    first_pts s2 = if mPtsCheckinStarted s1 =? 0 then (u32 (ai_pts_64 ai), ai_pts_90k ai) else first_pts s1) _ (fun _ _ => False)); [| |done].
  { apply wp_if; intros Hst; rewrite Hst; bprop; [wp_step|]; (split; [by repeat split|]); (split; [done|]); by split. }
  intros _ s2 [(H2 & En & E2) (Eid & Hst & Hfirst)]. wp_step.
  apply wp_node; [unfold is_ptr; rewrite En; exact Hp1|]. intros m _. wp_step. wp_step. wp_step. wp_step. wp_step.
  match goal with |- ins_ok ?x ∧ _ => set (s3 := x) end.
  assert (same_lists s2 s3 ∧ all_free_ptn s3 = all_free_ptn s2 ∧ modes s3 = modes s2 ∧ first_pts s3 = first_pts s2 ∧
    mPtsServerInsId s3 = mPtsServerInsId s2 ∧ mPtsCheckinStarted s3 = mPtsCheckinStarted s2) as (H3 & En3 & E3 & E4 & E5 & E6).
  { unfold s3. destruct (truth (mAlignmentOffset s2)); by repeat split. }
  clearbody s3. split; [eapply ins_ok_same; [exact Hs1|by eapply same_lists_trans]|]. split; [congruence|]. split; [congruence|]. right. split; [done|].
  rewrite E4, E6. split; [|done]. exists (pts_list s0), p, n. split; [apply Ht|]. split; [by intros ->%Hsame|].
  split; [destruct H3 as (-> & _), H2 as (-> & _); done|]. split; [done|]. rewrite En3, En. split; [done|].
  destruct D as (D1 & D2 & D3). by repeat split.
Qed.

Lemma checkin_apts_safe ai s : ins_ok s → safe (checkin_apts ai) s.
Proof. intros Hs. eapply wp_mono; [by apply checkin_apts_wp| |done]. by intros r s' [? _]. Qed.

(** ** The walk of a checkout *)

(** Nodes that differ in the expiry count. *)
Definition same_data (n n' : pts_node) : Prop :=
  n_offset n' = n_offset n ∧ n_pts_90k n' = n_pts_90k n ∧ n_pts_64 n' = n_pts_64 n ∧
  n_duration_count n' = n_duration_count n ∧ n_index n' = n_index n.

Definition same_nodes (s s' : psinstance) : Prop :=
  zlen (all_free_ptn s') = zlen (all_free_ptn s) ∧
  ∀ p n, aget (all_free_ptn s) p = Some n → ∃ n', aget (all_free_ptn s') p = Some n' ∧ same_data n n'.

Lemma same_data_refl n : same_data n n.
Proof. by repeat split. Qed.

Lemma same_data_trans n1 n2 n3 : same_data n1 n2 → same_data n2 n3 → same_data n1 n3.
Proof. unfold same_data. intuition congruence. Qed.

Lemma same_nodes_refl s : same_nodes s s.
Proof. split; [done|]. intros p n Hp. exists n. by split. Qed.

Lemma same_nodes_trans s1 s2 s3 : same_nodes s1 s2 → same_nodes s2 s3 → same_nodes s1 s3.
Proof.
  intros [L1 H1] [L2 H2]. split; [congruence|]. intros p n Hn. destruct (H1 _ _ Hn) as (n' & Hn' & D1).
  destruct (H2 _ _ Hn') as (n'' & Hn'' & D2). exists n''. split; [done|by eapply same_data_trans].
Qed.

Lemma same_nodes_at s s' p n' : same_nodes s s' → is_ptr s p → aget (all_free_ptn s') p = Some n' →
  ∃ n, aget (all_free_ptn s) p = Some n ∧ same_data n n'.
Proof.
  intros [_ H] Hp Hn'. destruct (is_ptr_node _ _ Hp) as [n Hn]. exists n. split; [done|].
  destruct (H _ _ Hn) as (x & Hx & D). by replace n' with x by congruence.
Qed.

(** What a walk may do: nodes go to the free list and grow old, and an
    invalid time stamp turns the offset mode on. *)
Record aged (s s' : psinstance) : Prop := {
  ag_ok : ins_ok s';
  ag_list : pts_list s' `sublist_of` pts_list s;
  ag_nodes : same_nodes s s';
  ag_same : s' = s <| pts_list := pts_list s' |> <| pts_free_list := pts_free_list s' |> <| mListSize := mListSize s' |>
                   <| all_free_ptn := all_free_ptn s' |> <| mOffsetMode := mOffsetMode s' |>;
  ag_mode : mOffsetMode s' = mOffsetMode s ∨ mOffsetMode s' = true ∧
    ∃ p n, p ∈ pts_list s ∧ aget (all_free_ptn s) p = Some n ∧ n_pts_90k n = MINUS_1
}.

Lemma aged_refl s : ins_ok s → aged s s.
Proof. intros Hs. split; [done|done|apply same_nodes_refl|by destruct s|by left]. Qed.

Lemma aged_trans s1 s2 s3 : ins_ok s1 → aged s1 s2 → aged s2 s3 → aged s1 s3.
Proof.
  intros Hs [A1 A2 A3 A4 A5] [B1 B2 B3 B4 B5]. split; [done|by etrans|by eapply same_nodes_trans| |].
  - rewrite B4, A4. by destruct s1.
  - destruct B5 as [->|(-> & p & n & Hp & Hn & Hm)]; [done|]. right. split; [done|]. exists p.
    destruct (same_nodes_at _ _ p n A3) as (n0 & Hn0 & D); [by eapply list_ptr, elem_of_sublist|done|].
    exists n0. split; [by eapply elem_of_sublist|]. split; [done|]. unfold same_data in D. intuition congruence.
Qed.

Lemma released_aged p s s' : ins_ok s → p ∈ pts_list s → moved p s s' → aged s s'.
Proof.
  intros Hs Hp [H1 H2 H3 H4]. split; [done| | | |].
  - rewrite H2. apply sublist_filter.
  - rewrite H4. exact (same_nodes_refl s).
  - rewrite H4. by destruct s.
  - left. by rewrite H4.
Qed.

(** Changing the expiry count of a node. *)
Lemma expire_wp cur p s : ins_ok s → is_ptr s p →
  wp False (expire cur p) (fun _ s' => aged s s' ∧ pts_list s' = pts_list s) (fun _ _ => False) s.
Proof.
  intros Hs Hp. unfold expire. wp_step. destruct (is_ptr_node _ _ Hp) as [n Hn]. eapply wp_node_at; [exact Hn|].
  wp_step. wp_step. wp_step; [|by split; [apply aged_refl|]]. eapply wp_upd_node; [exact Hn|]. split; [|done].
  split; cbn -[zlen]; [|done| |by destruct s|by left].
  - eapply ins_ok_same; [exact Hs|]. repeat split; try done. cbn -[zlen]. apply zlen_insert.
  - split; [apply zlen_insert|]. intros q m Hq. cbn. destruct (decide (q = p)) as [->|Hne].
    + exists (n <| n_expired_count := u32 (n_expired_count n - 1) |>). rewrite aget_insert by exact Hp. split; [done|].
      by replace m with n by congruence.
    + exists m. rewrite aget_insert_ne; [by split|apply Hp|done].
Qed.

(** A node shortly in front of the offset. *)
Definition candidate (s : psinstance) (cur p : Z) : Prop :=
  ∃ n, aget (all_free_ptn s) p = Some n ∧ n_offset n < cur ∧ u32 (abs32 (cur - n_offset n)) ≤ mLookupThreshold s.

(** The walk has seen the nodes [V]: as long as there was no candidate nothing
    has been found, and the walk does not stop early; what is marked is still
    in the list. *)
Record scan_inv (s0 s : psinstance) (cur : Z) (V : list Z) (l : scan) : Prop := {
  si_aged : aged s0 s;
  si_fit : ∀ p, sc_fit_offset_ptn l = Some p → p ∈ pts_list s ∧ p ∈ V ∧ candidate s0 cur p;
  si_find : ∀ p, sc_find_ptn l = Some p → p ∈ pts_list s ∧ candidate s0 cur p;
  si_pts : ∀ p, sc_fit_pts_ptn l = Some p → p ∈ pts_list s;
  si_none : sc_fit_offset_ptn l = None → (∀ p, p ∈ V → ¬ candidate s0 cur p) ∧ sc_find l = false ∧ sc_find_ptn l = None ∧
    sc_expected_offset_diff l = mLookupThreshold s0 ∧ sc_find_frame_num l = -1 ∧ sc_retryCount l = MAX_CHECKOUT_RETRY_COUNT;
  si_must : is_Some (sc_fit_offset_ptn l) → sc_must_have_fit l = true
}.

(** The invariant between the parts of a step: [p] is being looked at. *)
Lemma scan_inv_state s0 s s' cur V l : ins_ok s0 → scan_inv s0 s cur V l → aged s s' →
  (∀ p, p ∈ pts_list s → sc_fit_offset_ptn l = Some p ∨ sc_find_ptn l = Some p ∨ sc_fit_pts_ptn l = Some p → p ∈ pts_list s') →
  scan_inv s0 s' cur V l.
Proof.
  intros H0 [H1 H2 H3 H4 H5 H6] Ha Hk. split; try done.
  - by eapply aged_trans.
  - intros p Hp. destruct (H2 p Hp) as (? & ? & ?). by auto.
  - intros p Hp. destruct (H3 p Hp) as (? & ?). by auto.
  - intros p Hp. by auto.
Qed.

Lemma scan_fit_pts_inv s0 s cur V l n d p : scan_inv s0 s cur V l → p ∈ pts_list s → scan_inv s0 s cur V (scan_fit_pts s n d p l).
Proof.
  intros H Hp. unfold scan_fit_pts. destruct (_ && _); [|done]. destruct H as [H1 H2 H3 H4 H5 H6]. split; try done.
  cbn. by intros q [= <-].
Qed.

Lemma aged_threshold s s' : aged s s' → mLookupThreshold s' = mLookupThreshold s ∧ mLastCheckoutPts64 s' = mLastCheckoutPts64 s ∧
  mPtsCheckoutStarted s' = mPtsCheckoutStarted s ∧ mTrickMode s' = mTrickMode s ∧ setC2Mode s' = setC2Mode s ∧
  mPtsCheckoutFailCount s' = mPtsCheckoutFailCount s.
Proof. intros Ha. by rewrite (ag_same _ _ Ha). Qed.

(** The node is a candidate by what the walk reads of it. *)
Lemma candidate_read s0 s cur p n : ins_ok s0 → aged s0 s → p ∈ pts_list s → aget (all_free_ptn s) p = Some n →
  candidate s0 cur p ↔ n_offset n < cur ∧ u32 (abs32 (cur - n_offset n)) ≤ mLookupThreshold s0.
Proof.
  intros H0 Ha Hp Hn. destruct (same_nodes_at _ _ p n (ag_nodes _ _ Ha)) as (n0 & Hn0 & D); [apply list_ptr; [done|]; eapply elem_of_sublist; [done|apply Ha]|done|].
  destruct D as (E & _). rewrite E. split.
  - intros (x & Hx & H1 & H2). by replace x with n0 in * by congruence.
  - intros [H1 H2]. by exists n0.
Qed.

(** A node that is no candidate, or does not beat the marked one. *)
Lemma scan_inv_pass s0 s cur V l p : scan_inv s0 s cur V l → (sc_fit_offset_ptn l = None → ¬ candidate s0 cur p) →
  scan_inv s0 s cur (p :: V) l.
Proof.
  intros [H1 H2 H3 H4 H5 H6] Hnc. split; try done.
  - intros q Hq. destruct (H2 q Hq) as (? & ? & ?). repeat split; try done. by right.
  - intros Hq. destruct (H5 Hq) as (Hv & ?). split; [|done]. intros q [->|Hin]%elem_of_cons; auto.
Qed.

(** Turning the offset mode on because of an invalid node. *)
Lemma mode_aged s p n : ins_ok s → p ∈ pts_list s → aget (all_free_ptn s) p = Some n → n_pts_90k n = MINUS_1 →
  aged s (s <| mOffsetMode := true |>).
Proof.
  intros Hs Hp Hn Hm. split; [by eapply ins_ok_same|done|exact (same_nodes_refl s)|by destruct s|].
  right. split; [done|]. by exists p, n.
Qed.

Lemma scan_fit_offset_wp s0 s cur V l n p d : ins_ok s0 → scan_inv s0 s cur V l → p ∈ pts_list s →
  aget (all_free_ptn s) p = Some n → d = u32 (abs32 (cur - n_offset n)) → d ≤ mLookupThreshold s0 →
  wp False (scan_fit_offset n d cur p l)
    (fun l' s' => scan_inv s0 s' cur (p :: V) l' ∧ pts_list s' = pts_list s ∧ (n_offset n < cur → is_Some (sc_fit_offset_ptn l')) ∧
       sc_find_frame_num l' = sc_find_frame_num l) (fun _ _ => False) s.
Proof.
  intros H0 HI Hp Hn Hd Ht. pose proof (candidate_read _ _ cur _ _ H0 (si_aged _ _ _ _ _ HI) Hp Hn) as Hc. rewrite <- Hd in Hc.
  unfold scan_fit_offset. destruct ((d <=? sc_expected_offset_diff l) && (n_offset n <? cur)) eqn:Hb; bprop.
  - set (l1 := _ <| sc_must_have_fit := true |>).
    assert (∀ b s', aged s s' → pts_list s' = pts_list s →
      scan_inv s0 s' cur (p :: V) (if b : bool then l1 <| sc_find := true |> else l1)) as Hl1.
    { intros b s' Ha El. destruct HI as [J1 J2 J3 J4 J5 J6]. pose proof (aged_trans _ _ _ H0 J1 Ha).
      destruct b; split; try done; cbn; rewrite ?El; try done; intros q [= <-]; (split; [done|split; [left|by apply Hc]]). }
    pose proof (ag_ok _ _ (si_aged _ _ _ _ _ HI)) as Hs.
    wp_step; bprop; [wp_step; wp_step|]; wp_step.
    + split; [|split; [done|split; [by eexists|done]]]. apply (Hl1 true); [by eapply mode_aged|done].
    + split; [|split; [done|split; [by eexists|done]]]. apply (Hl1 false); [by apply aged_refl|done].
  - wp_step. split; [|split; [done|split; [|done]]].
    + apply scan_inv_pass; [done|]. intros Hf. destruct (si_none _ _ _ _ _ HI Hf) as (_ & _ & _ & E & _). rewrite E in *.
      rewrite Hc. apply andb_false_iff in Hb as [?|?]; bprop; lia.
    + intros Hlt. apply andb_false_iff in Hb as [?|?]; bprop; [|lia]. destruct (sc_fit_offset_ptn l) eqn:Hf; [by eexists|].
      destruct (si_none _ _ _ _ _ HI Hf) as (_ & _ & _ & E & _). lia.
Qed.

Lemma scan_find_inv s0 s cur V l n p : scan_inv s0 s cur V l → p ∈ pts_list s → (n_offset n < cur → candidate s0 cur p) →
  (n_offset n < cur → is_Some (sc_fit_offset_ptn l)) → scan_inv s0 s cur V (scan_find s n cur p l).
Proof.
  intros HI Hp Hc Hf. unfold scan_find. destruct (_ && _) eqn:Hb; [|done]. bprop. destruct (Hf ltac:(lia)) as [q Hq].
  destruct HI as [J1 J2 J3 J4 J5 J6]. split; try done; cbn.
  - intros x [= <-]. split; [done|]. apply Hc. lia.
  - intros E. congruence.
Qed.

(** The counter of nodes behind the first candidate. *)
Lemma scan_num_inv s0 s cur V l k : scan_inv s0 s cur V l → (sc_fit_offset_ptn l = None → sc_find_frame_num l = k) →
  scan_inv s0 s cur V (l <| sc_find_frame_num := k |>).
Proof.
  intros [J1 J2 J3 J4 J5 J6] Hk. split; try done. cbn. intros Hf. destruct (J5 Hf) as (? & ? & ? & ? & ? & ?).
  repeat split; try done. specialize (Hk Hf). congruence.
Qed.

Lemma scan_near_wp s0 s cur V l n p : ins_ok s0 → scan_inv s0 s cur V l → p ∈ pts_list s → aget (all_free_ptn s) p = Some n →
  wp False (scan_near n (u32 (abs32 (cur - n_offset n))) cur p l)
    (fun l' s' => scan_inv s0 s' cur (p :: V) l' ∧ pts_list s' = pts_list s) (fun _ _ => False) s.
Proof.
  intros H0 HI Hp Hn. pose proof (candidate_read _ _ cur _ _ H0 (si_aged _ _ _ _ _ HI) Hp Hn) as Hc.
  destruct (aged_threshold _ _ (si_aged _ _ _ _ _ HI)) as (Et & _). unfold scan_near. wp_step. wp_step. rewrite Et. wp_step; bprop.
  - wp_step. eapply wp_mono; [by eapply scan_fit_offset_wp| |done]. intros l1 s1 (H1 & El & Hf & Ek). wp_step. wp_step. wp_step.
    assert (scan_inv s0 s1 cur (p :: V) (scan_find s1 n cur p l1)) as H2.
    { apply scan_find_inv; [done|by rewrite El| |done]. intros ?. by apply Hc. }
    split; [|done]. assert (sc_find_frame_num (scan_find s1 n cur p l1) = sc_find_frame_num l1) as Ek2.
    { unfold scan_find. by destruct (_ && _). }
    assert (sc_fit_offset_ptn (scan_find s1 n cur p l1) = sc_fit_offset_ptn l1) as Ef2.
    { unfold scan_find. by destruct (_ && _). }
    destruct ((n_offset n <? cur) || _) eqn:Hb; [|done]. apply scan_num_inv; [done|]. intros E.
    destruct (si_none _ _ _ _ _ H2 E) as (_ & _ & _ & _ & Ez & _). rewrite Ef2 in E.
    apply orb_true_iff in Hb as [Hb|Hb]; bprop; [destruct (Hf Hb); congruence|lia].
  - wp_step. assert (scan_inv s0 s cur (p :: V) l) as H1 by (apply scan_inv_pass; [done|intros _; rewrite Hc; lia]).
    split; [|done]. destruct (0 <=? sc_find_frame_num l) eqn:Hz; [|done]. bprop. apply scan_num_inv; [done|]. intros E.
    destruct (si_none _ _ _ _ _ H1 E) as (_ & _ & _ & _ & Ez & _). lia.
Qed.

Lemma is_node_false p o : negb (is_node p o) = true → o ≠ Some p.
Proof. unfold is_node. intros H%negb_true_iff. by apply bool_decide_eq_false in H. Qed.

Lemma scan_drop_wp s0 s cur V l d p : ins_ok s0 → scan_inv s0 s cur V l → p ∈ pts_list s →
  wp False (scan_drop d p l) (fun _ s' => scan_inv s0 s' cur V l ∧ ∀ q, q ≠ p → q ∈ pts_list s → q ∈ pts_list s') (fun _ _ => False) s.
Proof.
  intros H0 HI Hp. pose proof (ag_ok _ _ (si_aged _ _ _ _ _ HI)) as Hs. unfold scan_drop. wp_step.
  apply wp_node; [by apply list_ptr|]. intros n _. wp_step; [|by split].
  apply andb_true_iff in H as [[[_ H1]%andb_true_iff H2]%andb_true_iff H3]. apply is_node_false in H1, H2, H3.
  apply wp_release; [done|done|]. intros s1 Hm. assert (∀ q, q ≠ p → q ∈ pts_list s → q ∈ pts_list s1) as Hkeep.
  { intros q Hne Hq. rewrite (mv_list _ _ _ Hm). by apply elem_without. }
  split; [|done]. eapply scan_inv_state; [done|done|by eapply released_aged|]. intros q Hq Hor. apply Hkeep; [|done].
  intros ->. naive_solver.
Qed.

Lemma scan_node_wp s0 s cur V l p : ins_ok s0 → scan_inv s0 s cur V l → p ∈ pts_list s →
  wp False (scan_node cur p l) (fun l' s' => scan_inv s0 s' cur (p :: V) l' ∧ ∀ q, q ≠ p → q ∈ pts_list s → q ∈ pts_list s')
    (fun _ _ => False) s.
Proof.
  intros H0 HI Hp. pose proof (ag_ok _ _ (si_aged _ _ _ _ _ HI)) as Hs. unfold scan_node. wp_step.
  destruct (is_ptr_node s p) as [n Hn]; [by apply list_ptr|]. eapply wp_node_at; [exact Hn|]. wp_step.
  eapply wp_mono; [apply expire_wp; [done|by apply list_ptr]| |done]. intros _ s1 [Ha1 El1].
  assert (scan_inv s0 s1 cur V l) as H1.
  { eapply scan_inv_state; [done|done|done|]. intros q Hq _. by rewrite El1. }
  destruct (proj2 (ag_nodes _ _ Ha1) _ _ Hn) as (n1 & Hn1 & D).
  wp_step. wp_step. wp_step. replace (n_offset n) with (n_offset n1) by apply D.
  assert (∀ l1, scan_near n (u32 (abs32 (cur - n_offset n1))) cur p l1 = scan_near n1 (u32 (abs32 (cur - n_offset n1))) cur p l1) as En.
  { intros l1. destruct D as (D1 & D2 & D3 & _). unfold scan_near, scan_fit_offset, scan_find. by rewrite <- D1, <- D2, <- D3. }
  rewrite En. rewrite <- El1 in Hp.
  eapply wp_mono; [apply (scan_near_wp s0 s1 cur V); [done|by apply scan_fit_pts_inv|done|done]| |done].
  intros l2 s2 [H2 El2]. rewrite <- El2 in Hp. wp_step. eapply wp_mono; [by apply (scan_drop_wp s0 _ cur (p :: V))| |done].
  intros _ s3 [H3 Hk]. wp_step. wp_step. wp_step. split.
  - destruct (sc_find l2) eqn:Hfi; [|done]. cbn. destruct (_ && _); [|done]. destruct H3 as [J1 J2 J3 J4 J5 J6]. split; try done. cbn.
    intros E. destruct (J5 E) as (_ & ? & _). congruence.
  - intros q Hne Hq. apply Hk; [done|]. by rewrite El2, El1.
Qed.

(** The break comes after a candidate only; without a break every node is
    seen. *)
Lemma scan_list_wp s0 nodes s cur V l : ins_ok s0 → NoDup nodes → scan_inv s0 s cur V l → (∀ p, p ∈ nodes → p ∈ pts_list s) →
  wp False (scan_list nodes cur l) (fun l' s' => ∃ V', scan_inv s0 s' cur V' l' ∧ (∀ p, p ∈ V → p ∈ V') ∧
     (∀ p, p ∈ V' → p ∈ V ∨ p ∈ nodes) ∧ (sc_fit_offset_ptn l' = None → ∀ p, p ∈ nodes → p ∈ V'))
    (fun _ _ => False) s.
Proof.
  intros H0. revert V l s. induction nodes as [|p nodes IH]; intros V l s Hn HI Hl; cbn [scan_list].
  - wp_step. exists V. split; [done|]. split; [done|]. split; [by auto|]. by intros _ p ?%elem_of_nil.
  - apply NoDup_cons in Hn as [Hp Hn]. wp_step.
    eapply wp_mono; [apply scan_node_wp; [done|done|apply Hl; left]| |done]. intros l1 s1 [H1 Hk]. wp_step; bprop.
    + wp_step. exists (p :: V). split; [done|]. split; [by right|]. split.
      * intros q [->|Hq]%elem_of_cons; [right; left|by left].
      * intros E. destruct (si_none _ _ _ _ _ H1 E) as (_ & _ & _ & _ & E1 & E2). rewrite E1, E2 in H. unfold MAX_CHECKOUT_RETRY_COUNT in H. lia.
    + eapply wp_mono; [apply (IH (p :: V)); [done| |]| |done].
      * destruct H1 as [J1 J2 J3 J4 J5 J6]. by split.
      * intros q Hq. apply Hk; [by intros ->|]. apply Hl. by right.
      * intros l2 s2 (V' & H2 & Hsub & Hv & Hall). exists V'. split; [done|]. split; [intros q Hq; apply Hsub; by right|]. split.
        -- intros q Hq. destruct (Hv q Hq) as [[->|Hin]%elem_of_cons|Hin]; [right; left|by left|right; by right].
        -- intros E q [->|Hq]%elem_of_cons; [apply Hsub; left|by auto].
Qed.

(** The whole walk. *)
Lemma scan_wp s cur : ins_ok s →
  wp False (scan_list (pts_list s) cur (scan_start s)) (fun l s' => ∃ V, scan_inv s s' cur V l ∧
     (sc_fit_offset_ptn l = None → ∀ p, p ∈ pts_list s → ¬ candidate s cur p) ∧ ∀ p, p ∈ V → p ∈ pts_list s) (fun _ _ => False) s.
Proof.
  intros Hs. eapply wp_mono; [apply (scan_list_wp s _ _ _ []); [done|by apply list_nodup| |done]| |done].
  - split; cbn; try done; [by apply aged_refl|]. intros _. split; [by intros p ?%elem_of_nil|done].
  - intros l s' (V & HI & _ & Hv & Hall). exists V. split; [done|]. split.
    + intros E p Hp. apply (si_none _ _ _ _ _ HI E). by apply Hall.
    + intros p Hp. destruct (Hv p Hp) as [Hq|?]; [by apply elem_of_nil in Hq|done].
Qed.

(** ** The choice *)

(** The chosen node is in the list, and there is one when something has been
    found. *)
Definition choice_ok (s : psinstance) (f : found) : Prop :=
  (∀ p, f_find_ptn f = Some p → p ∈ pts_list s) ∧ (f_invalid_mode f = true → is_Some (f_find_ptn f)).

(** An operation on the sticky flag. *)
Lemma sticky_wp b s (Q : unit → psinstance → Prop) E :
  Q tt (s <| mStickyWrapFlag := b2z b |>) → wp False (sticky b) Q E s.
Proof. intros HQ. unfold sticky. by wp_step. Qed.

(** States that differ in the sticky flag. *)
Definition stuck (s s' : psinstance) : Prop := ∃ b, s' = s <| mStickyWrapFlag := b |>.

Lemma stuck_refl s : stuck s s.
Proof. exists (mStickyWrapFlag s). by destruct s. Qed.

Lemma stuck_same s s' : stuck s s' → same_lists s s' ∧ all_free_ptn s' = all_free_ptn s ∧ pts_list s' = pts_list s.
Proof. intros [b ->]. by repeat split. Qed.

(** The candidate by the time stamp counts after the first checkout only. *)
Lemma prefers_pts_wp s0 s cur V l po : ins_ok s0 → scan_inv s0 s cur V l → po ∈ pts_list s →
  wp False (prefers_pts po l) (fun o s' => s' = s ∧ ∀ pp, o = Some pp → pp ∈ pts_list s ∧ mPtsCheckoutStarted s ≠ 0) (fun _ _ => False) s.
Proof.
  intros H0 HI Hpo. pose proof (ag_ok _ _ (si_aged _ _ _ _ _ HI)) as Hs. unfold prefers_pts. wp_step. wp_step.
  destruct (sc_fit_pts_ptn l) as [pp|] eqn:Hpp; [|by wp_step].
  pose proof (si_pts _ _ _ _ _ HI pp Hpp) as Hin. wp_step. apply wp_node; [by apply list_ptr|]. intros np _.
  wp_step. apply wp_node; [by apply list_ptr|]. intros no _. wp_step. split; [done|].
  destruct (_ && _) eqn:Hb; [|done]. intros x [= <-]. split; [done|].
  apply andb_true_iff in Hb as [[[Hb _]%andb_true_iff _]%andb_true_iff _]. unfold truth in Hb. by bprop.
Qed.

(** What the selection yields: in the offset mode, and before the first
    checkout, the node marked for its offset. *)
Lemma select_wp s0 s cur V l f : ins_ok s0 → scan_inv s0 s cur V l → f_find f = sc_find l → f_find_ptn f = sc_find_ptn l → f_invalid_mode f = false →
  wp False (select l f) (fun f' s' => stuck s s' ∧ f_cur_offset f' = f_cur_offset f ∧ f_out f' = f_out f ∧
    match sc_fit_offset_ptn l with
    | None => f' = f
    | Some po => f_find f' = true ∧ ∃ p, f_find_ptn f' = Some p ∧ p ∈ pts_list s ∧
        (mOffsetMode s = true ∨ mPtsCheckoutStarted s = 0 → p = po) ∧
        (f_invalid_mode f' = true → ∃ n, aget (all_free_ptn s) p = Some n ∧ n_pts_90k n = MINUS_1)
    end) (fun _ _ => False) s.
Proof.
  intros H0 HI Hff Hfp Hinv. pose proof (ag_ok _ _ (si_aged _ _ _ _ _ HI)) as Hs.
  unfold select. wp_step. wp_step. destruct (sc_fit_offset_ptn l) as [po|] eqn:Hpo.
  - destruct (si_fit _ _ _ _ _ HI po Hpo) as (Hin & _). wp_step.
    + unfold select_offset_mode. rewrite Hpo. wp_step. apply sticky_wp. wp_step.
      destruct (is_ptr_node s po) as [n Hn]; [by apply list_ptr|]. eapply wp_node_at; [exact Hn|]. wp_step.
      unfold choose_offset. rewrite Hpo. destruct (n_pts_90k n =? MINUS_1) eqn:Hm; cbn; bprop.
      * split; [by eexists|]. repeat split; try done. exists po. repeat split; try done. by exists n.
      * split; [by eexists|]. repeat split; try done. exists po. rewrite Hinv. by repeat split.
    + unfold select_pts_mode. rewrite (si_must _ _ _ _ _ HI), Hpo by (rewrite Hpo; by eexists). wp_step.
      eapply wp_mono; [by apply (prefers_pts_wp s0 s cur V)| |done]. intros o s1 [-> Ho]. wp_step. wp_step. destruct o as [pp|].
      * destruct (Ho pp eq_refl) as [Hpin Hst]. unfold select_between. wp_step. apply wp_node; [by apply list_ptr|]. intros np _.
        wp_step. apply wp_node; [by apply list_ptr|]. intros no _. wp_step. wp_step. wp_step.
        -- wp_step. apply sticky_wp. wp_step. split; [by eexists|]. unfold choose_offset. cbn. rewrite Hpo, Hinv. repeat split; try done.
           exists po. by repeat split.
        -- wp_step. apply sticky_wp. wp_step. split; [by eexists|]. cbn. rewrite Hinv. repeat split; try done.
           exists pp. repeat split; try done. intros [?|?]; congruence.
      * wp_step. apply sticky_wp. wp_step. destruct (_ || _) eqn:Hb; (split; [by eexists|]); cbn; rewrite ?Hinv, ?Hpo; repeat split; try done.
        -- exists po. by repeat split.
        -- apply orb_false_iff in Hb as [Hb1 Hb2]. apply bool_decide_eq_false in Hb1. bprop.
           destruct (sc_find_ptn l) as [p|] eqn:Hp; [|done]. destruct (si_find _ _ _ _ _ HI p Hp) as [Hpin _].
           exists p. rewrite Hfp. repeat split; try done. intros [?|?]; congruence.
  - wp_step.
    + unfold select_offset_mode. rewrite Hpo. wp_step. repeat split; try done. apply stuck_refl.
    + unfold select_pts_mode. rewrite Hpo. destruct (sc_must_have_fit l); wp_step; (repeat split; try done); apply stuck_refl.
Qed.

Lemma retry_list_wp s nodes cur r : ins_ok s → (∀ p, p ∈ nodes → p ∈ pts_list s) →
  (r_find r = true → ∃ p, r_find_ptn r = Some p ∧ p ∈ pts_list s) →
  wp False (retry_list nodes cur r) (fun r' s' => s' = s ∧ (r_find r = true → r_find r' = true) ∧
     if r_find r' then ∃ p, r_find_ptn r' = Some p ∧ p ∈ pts_list s else r_find_ptn r' = r_find_ptn r) (fun _ _ => False) s.
Proof.
  intros Hs. revert r. induction nodes as [|p nodes IH]; intros r Hl Hr; cbn [retry_list].
  - wp_step. split; [done|]. split; [done|]. destruct (r_find r); [by apply Hr|done].
  - assert (p ∈ pts_list s) as Hp by (apply Hl; left). wp_step. apply wp_node; [by apply list_ptr|]. intros n _.
    destruct ((u32 (abs32 (cur - n_offset n)) <=? r_diff r) && (n_offset n <? cur)); cbn [negb andb].
    + cbn. eapply wp_mono; [apply IH| |done]; cbn.
      * intros q Hq. apply Hl. by right.
      * intros _. by exists p.
      * intros r' s' (-> & Ht & Hr'). specialize (Ht eq_refl). split; [done|]. split; [done|]. by rewrite Ht in *.
    + wp_step.
      * wp_step. split; [done|]. split; [done|]. destruct (r_find r); [by apply Hr|done].
      * eapply wp_mono; [apply IH| |done]; cbn; [intros q Hq; apply Hl; by right|done|done].
Qed.

(** A choice whose node is in the list. *)
Definition chosen (s : psinstance) (f f' : found) : Prop :=
  f_invalid_mode f' = f_invalid_mode f ∧ ∃ p, f_find f' = true ∧ f_find_ptn f' = Some p ∧ p ∈ pts_list s.

Lemma second_attempt_wp s f : ins_ok s → f_find_ptn f = None ∨ f_find f = true →
  wp False (second_attempt f) (fun f' s' => s' = s ∧ f_out f' = f_out f ∧
     (f' = f ∨ f_find f = false ∧ (chosen s f f' ∨ f_find f' = false ∧ f_find_ptn f' = None ∧ f_invalid_mode f' = f_invalid_mode f)))
    (fun _ _ => False) s.
Proof.
  intros Hs Hf. unfold second_attempt. wp_step. wp_step. wp_step; [|wp_step; by split; [|split; [|left]]]. bprop.
  wp_step. eapply wp_mono; [apply retry_list_wp; [done|done|done]| |done]. intros r s1 (-> & _ & Hr). wp_step.
  split; [done|]. split; [done|]. right. split; [done|]. cbn in *. destruct (r_find r).
  - left. split; [done|]. destruct Hr as (p & Hp & Hin). by exists p.
  - right. split; [done|]. split; [|done]. rewrite Hr. destruct Hf as [?|?]; [done|congruence].
Qed.

Lemma nearest_list_wp s nodes cur lastcur min o : ins_ok s → (∀ p, p ∈ nodes → p ∈ pts_list s) →
  (∀ p, o = Some p → p ∈ pts_list s) →
  wp False (nearest_list nodes cur lastcur min o) (fun o' s' => s' = s ∧ ∀ p, o' = Some p → p ∈ pts_list s) (fun _ _ => False) s.
Proof.
  intros Hs. revert min o. induction nodes as [|p nodes IH]; intros min o Hl Ho; cbn [nearest_list]; [by wp_step|].
  assert (p ∈ pts_list s) as Hp by (apply Hl; left). wp_step. apply wp_node; [by apply list_ptr|]. intros n _.
  wp_step; apply IH; try done; try (intros q Hq; apply Hl; by right). by intros q [= <-].
Qed.

(** The fallback of the C2 mode always finds, with or without a node. *)
Definition third_post (s : psinstance) (f f' : found) : Prop :=
  f' = f ∨
  setC2Mode s = true ∧ f_find f = false ∧
    (chosen s f f' ∨
     f_find f' = true ∧ f_find_ptn f' = None ∧ f_invalid_mode f' = f_invalid_mode f ∧
       (mPtsCheckoutStarted s = 0 → pts_list s = []) ∧
       f_out f' = if truth (mPtsCheckoutStarted s)
                  then (f_out f) <| co_pts := mLastCheckoutPts s |> <| co_pts_64 := mLastCheckoutPts64 s |> else f_out f).

Lemma answer_wp s p f : ins_ok s → p ∈ pts_list s →
  wp False (answer p f) (fun f' s' => s' = s ∧ f_find_ptn f' = Some p ∧ f_invalid_mode f' = f_invalid_mode f ∧
    co_offset (f_out f') = co_offset (f_out f)) (fun _ _ => False) s.
Proof. intros Hs Hp. unfold answer. wp_step. apply wp_node; [by apply list_ptr|]. intros n _. by wp_step. Qed.

Lemma third_attempt_wp s f : ins_ok s → f_find_ptn f = None ∨ f_find f = true →
  wp False (third_attempt f) (fun f' s' => s' = s ∧ third_post s f f' ∧ co_offset (f_out f') = co_offset (f_out f)) (fun _ _ => False) s.
Proof.
  intros Hs Hf. unfold third_attempt. wp_step. wp_step. wp_step; [|wp_step; by split; [|split; [left|]]]. bprop.
  destruct Hf as [Hf|?]; [|congruence]. set (f1 := if truth _ then _ else f).
  assert (f_find_ptn f1 = None ∧ f_invalid_mode f1 = f_invalid_mode f ∧ co_offset (f_out f1) = co_offset (f_out f) ∧
    f_out f1 = if truth (mPtsCheckoutStarted s)
                  then (f_out f) <| co_pts := mLastCheckoutPts s |> <| co_pts_64 := mLastCheckoutPts64 s |> else f_out f) as (E1 & E2 & E3 & E4).
  { unfold f1. by destruct (truth _). }
  assert (∀ p, p ∈ pts_list s → wp False (answer p f1) (λ f2, wp False (mret (f2 <| f_find := true |>))
    (λ f' s', s' = s ∧ third_post s f f' ∧ co_offset (f_out f') = co_offset (f_out f)) (λ _ _, False)) (λ _ _, False) s) as Hans.
  { intros p Hp. eapply wp_mono; [by apply answer_wp| |done]. intros f2 s2 (-> & A1 & A2 & A3). wp_step. split; [done|].
    split; [|cbn; congruence]. right. split; [done|]. split; [done|]. left. split; [cbn; congruence|]. by exists p. }
  clearbody f1. wp_step. eapply wp_mono; [apply nearest_list_wp; [done|done|by rewrite E1]| |done].
  intros o s1 [-> Ho]. wp_step. destruct o as [p|]; [by apply Hans, Ho|].
  assert ((mPtsCheckoutStarted s = 0 → pts_list s = []) → wp False (mret (f1 <| f_cur_offset := mLastCheckoutCurOffset s |>)) (λ f2, wp False (mret (f2 <| f_find := true |>))
    (λ f' s', s' = s ∧ third_post s f f' ∧ co_offset (f_out f') = co_offset (f_out f)) (λ _ _, False)) (λ _ _, False) s) as Hnone.
  { intros Hemp. wp_step. wp_step. split; [done|]. split; [|done]. right. split; [done|]. split; [done|]. right. by repeat split. }
  destruct (truth (mPtsCheckoutStarted s)) eqn:Hst.
  - apply Hnone. intros E. by rewrite E in Hst.
  - destruct (pts_list s) as [|p l] eqn:Hl; [by apply Hnone|]. apply Hans. left.
Qed.

(** ** The search as a whole *)

(** The fields a search leaves alone. *)
Definition rest (s : psinstance) : psinstance :=
  s <| pts_list := [] |> <| pts_free_list := [] |> <| mListSize := 0 |> <| all_free_ptn := [] |> <| mOffsetMode := false |>
    <| mStickyWrapFlag := 0 |> <| mLastCheckoutIndex := 0 |> <| mLastCheckoutDurationCount := 0 |>.

Record searched (s s' : psinstance) : Prop := {
  se_ok : ins_ok s';
  se_list : pts_list s' `sublist_of` pts_list s;
  se_nodes : same_nodes s s';
  se_same : rest s' = rest s;
  se_mode : mOffsetMode s' = mOffsetMode s ∨ mOffsetMode s' = true ∧
    ∃ p n, p ∈ pts_list s ∧ aget (all_free_ptn s) p = Some n ∧ n_pts_90k n = MINUS_1
}.

Lemma aged_searched s s' : aged s s' → searched s s'.
Proof. intros [A1 A2 A3 A4 A5]. split; try done. rewrite A4 at 1. reflexivity. Qed.

Lemma searched_trans s1 s2 s3 : ins_ok s1 → searched s1 s2 → searched s2 s3 → searched s1 s3.
Proof.
  intros Hs [A1 A2 A3 A4 A5] [B1 B2 B3 B4 B5]. split; [done|by etrans|by eapply same_nodes_trans|congruence|].
  destruct B5 as [->|(-> & p & n & Hp & Hn & Hm)]; [done|]. right. split; [done|]. exists p.
  destruct (same_nodes_at _ _ p n A3) as (n0 & Hn0 & D); [by eapply list_ptr, elem_of_sublist|done|].
  exists n0. split; [by eapply elem_of_sublist|]. split; [done|]. unfold same_data in D. intuition congruence.
Qed.

(** Changes of the fields that are not the lists or the nodes. *)
Lemma searched_fields s a b c : ins_ok s →
  searched s (s <| mStickyWrapFlag := a |> <| mLastCheckoutIndex := b |> <| mLastCheckoutDurationCount := c |>).
Proof. intros Hs. split; [by eapply ins_ok_same|done|exact (same_nodes_refl s)|reflexivity|by left]. Qed.

(** The answer of a search. *)
Definition search_result (s : psinstance) (co : checkout_pts_offset) (f : found) (s' : psinstance) : Prop :=
  match f_find f, f_find_ptn f with
  | true, Some p =>
      p ∈ pts_list s ∧ p ∉ pts_list s' ∧ p ∈ pts_free_list s' ∧
      ∃ n, aget (all_free_ptn s) p = Some n ∧
        if f_invalid_mode f then n_pts_90k n = MINUS_1 ∧ co_offset (f_out f) = co_offset co
        else f_out f = co <| co_pts := u32 (n_pts_90k n) |> <| co_pts_64 := n_pts_64 n |>
  | true, None => f_invalid_mode f = false ∧ setC2Mode s = true ∧ (mPtsCheckoutStarted s = 0 → pts_list s' = []) ∧
      f_out f = if truth (mPtsCheckoutStarted s)
                then co <| co_pts := mLastCheckoutPts s |> <| co_pts_64 := mLastCheckoutPts64 s |> else co
  | false, _ => f_find_ptn f = None ∧ f_invalid_mode f = false ∧ f_out f = co
  end.

(** What is known of the choice before the node is taken. *)
Definition choice_result (s : psinstance) (co : checkout_pts_offset) (f : found) : Prop :=
  match f_find f, f_find_ptn f with
  | true, Some p => p ∈ pts_list s ∧ co_offset (f_out f) = co_offset co ∧
      (f_invalid_mode f = true → ∃ n, aget (all_free_ptn s) p = Some n ∧ n_pts_90k n = MINUS_1)
  | true, None => f_invalid_mode f = false ∧ setC2Mode s = true ∧ (mPtsCheckoutStarted s = 0 → pts_list s = []) ∧
      f_out f = if truth (mPtsCheckoutStarted s)
                then co <| co_pts := mLastCheckoutPts s |> <| co_pts_64 := mLastCheckoutPts64 s |> else co
  | false, _ => f_find_ptn f = None ∧ f_invalid_mode f = false ∧ f_out f = co
  end.

Lemma take_found_wp s co f : ins_ok s → choice_result s co f →
  wp False (take_found f) (fun f' s' => searched s s' ∧ search_result s co f' s' ∧ f_find f' = f_find f ∧
    f_find_ptn f' = f_find_ptn f ∧ f_invalid_mode f' = f_invalid_mode f ∧ f_cur_offset f' = f_cur_offset f) (fun _ _ => False) s.
Proof.
  intros Hs Hc. unfold take_found, choice_result, search_result in *.
  destruct (f_find f) eqn:Hf; [destruct (f_find_ptn f) as [p|] eqn:Hp|];
    [|wp_step; rewrite Hf, ?Hp; split; [by apply aged_searched, aged_refl|]; split; [exact Hc|]; by auto..].
  destruct Hc as (Hin & Hoff & Hinv). wp_step. destruct (is_ptr_node s p) as [n Hn]; [by apply list_ptr|].
  eapply wp_node_at; [exact Hn|]. wp_step.
  apply (wp_mono _ (fun f' s1 => searched s s1 ∧ pts_list s1 = pts_list s ∧ f_find f' = true ∧
    f_find_ptn f' = Some p ∧ f_invalid_mode f' = f_invalid_mode f ∧ f_cur_offset f' = f_cur_offset f ∧
    co_offset (f_out f') = co_offset co ∧
    (f_invalid_mode f = false → f_out f' = co <| co_pts := u32 (n_pts_90k n) |> <| co_pts_64 := n_pts_64 n |>)) _ (fun _ _ => False)); [| |done].
  { wp_step; [wp_step; rewrite H; split; [by apply aged_searched, aged_refl|]; by auto 10|]. wp_step. wp_step. wp_step.
    split; [|do 6 (split; [done|]); intros _; unfold set_field; cbn; by rewrite Hoff].
    split; [by eapply ins_ok_same|done|exact (same_nodes_refl s)|reflexivity|by left]. }
  intros f1 s1 (Hse & El & F1 & F2 & F3 & F4 & Fo & F5). wp_step.
  apply wp_release; [apply Hse|by rewrite El|]. intros s2 Hm. wp_step. rewrite F1, F2.
  split; [eapply searched_trans; [done|done|]; by apply aged_searched, (released_aged p); [apply Hse|rewrite El|]|].
  split; [|done]. rewrite (mv_list _ _ _ Hm), (mv_free _ _ _ Hm), elem_without. split; [done|]. split; [by intros [? _]|].
  split; [apply elem_of_app; right; left|]. exists n. split; [done|]. rewrite F3. destruct (f_invalid_mode f) eqn:Hi.
  - destruct (Hinv eq_refl) as (m & Hm' & ?). split; [by replace n with m by congruence|done].
  - by apply F5.
Qed.

Lemma wp_unbind {A C} (m : I A) (k : A → I C) Q E s : wp False (a ← m; k a) Q E s → wp False m (fun a => wp False (k a) Q E) E s.
Proof. unfold wp, mbind, I_bind, M_bind. by destruct (m s). Qed.

(** The second and third attempt leave a choice alone, and otherwise choose
    from the list. *)
Lemma attempts_wp s co f : ins_ok s → choice_result s co f → (f_find f = true → is_Some (f_find_ptn f)) →
  wp False (f ← second_attempt f; third_attempt f)
    (fun f' s' => s' = s ∧ choice_result s co f' ∧ (f_find f = true → f' = f)) (fun _ _ => False) s.
Proof.
  intros Hs Hc Hsome. assert (f_find_ptn f = None ∨ f_find f = true) as Hf.
  { unfold choice_result in Hc. destruct (f_find f); [by right|]. left. apply Hc. }
  wp_step. eapply wp_mono; [by apply second_attempt_wp| |done]. intros f1 s1 (-> & Eo1 & H1).
  assert (choice_result s co f1 ∧ (f_find f1 = true → is_Some (f_find_ptn f1)) ∧ (f_find f = true → f1 = f)) as (Hc1 & Hsome1 & Hid1).
  { destruct H1 as [->|(Hff & [(Hi & p & H1 & H2 & H3)|(H1 & H2 & H3)])]; [done| |].
    - unfold choice_result in *. rewrite Hff in Hc. destruct Hc as (_ & Hi0 & Ho). rewrite H1, H2, Hi, Hi0, Eo1, Ho.
      split; [done|]. split; [by eexists|]. congruence.
    - unfold choice_result in *. rewrite Hff in Hc. destruct Hc as (_ & Hi0 & Ho). rewrite H1, H2, H3, Hi0, Eo1, Ho.
      split; [done|]. split; [done|]. congruence. }
  assert (f_find_ptn f1 = None ∨ f_find f1 = true) as Hf1.
  { unfold choice_result in Hc1. destruct (f_find f1); [by right|]. left. apply Hc1. }
  eapply wp_mono; [by apply third_attempt_wp| |done]. intros f2 s2 (-> & H2 & Eo2). split; [done|].
  destruct H2 as [->|(Hc2 & Hff & H2)]; [by auto|]. assert (f_find f = true → False) as Hno.
  { intros E. rewrite Hid1 in Hff by done. congruence. }
  split; [|by intros ?%Hno]. unfold choice_result in Hc1. rewrite Hff in Hc1. destruct Hc1 as (_ & Hi0 & Ho).
  unfold choice_result. destruct H2 as [(Hi & p & G1 & G2 & G3)|(G1 & G2 & G3 & G4 & G5)].
  - rewrite G1, G2, Hi, Hi0, Eo2, Ho. done.
  - rewrite G1, G2, G3, Hi0, G5, Ho. done.
Qed.

Lemma rest_field s s' : rest s' = rest s → mPtsCheckoutStarted s' = mPtsCheckoutStarted s ∧ setC2Mode s' = setC2Mode s ∧
  mLastCheckoutPts s' = mLastCheckoutPts s ∧ mLastCheckoutPts64 s' = mLastCheckoutPts64 s ∧ mLookupThreshold s' = mLookupThreshold s ∧
  mPtsCheckoutFailCount s' = mPtsCheckoutFailCount s.
Proof.
  intros E. repeat split.
  - exact (f_equal mPtsCheckoutStarted E).
  - exact (f_equal setC2Mode E).
  - exact (f_equal mLastCheckoutPts E).
  - exact (f_equal mLastCheckoutPts64 E).
  - exact (f_equal mLookupThreshold E).
  - exact (f_equal mPtsCheckoutFailCount E).
Qed.

(** The answer in terms of the state before. *)
Lemma search_result_before s s1 co f s' : ins_ok s → searched s s1 → search_result s1 co f s' → search_result s co f s'.
Proof.
  intros Hs Hse. destruct (rest_field _ _ (se_same _ _ Hse)) as (R1 & R2 & R3 & R4 & _). unfold search_result.
  destruct (f_find f); [|done]. destruct (f_find_ptn f) as [p|]; [|by rewrite R1, R2, R3, R4].
  intros (H1 & H2 & H3 & n & Hn & H4). pose proof (elem_of_sublist _ _ _ H1 (se_list _ _ Hse)) as Hin. split; [done|]. split; [done|]. split; [done|].
  destruct (same_nodes_at _ _ p n (se_nodes _ _ Hse)) as (n0 & Hn0 & D1 & D2 & D3 & _); [by apply list_ptr|done|].
  exists n0. split; [done|]. by rewrite <- D2, <- D3.
Qed.

(** The candidate decides in the offset mode and before the first checkout. *)
Definition by_offset (s : psinstance) : Prop := mOffsetMode s = true ∨ mPtsCheckoutStarted s = 0.

Definition unique_candidate (s : psinstance) (cur p : Z) : Prop :=
  p ∈ pts_list s ∧ candidate s cur p ∧ ∀ q, q ∈ pts_list s → candidate s cur q → q = p.

Definition search_post (s : psinstance) (cur : Z) (co : checkout_pts_offset) (f : found) (s' : psinstance) : Prop :=
  searched s s' ∧ search_result s co f s' ∧ (f_find f = true → pts_list s ≠ []) ∧
  (cur ≠ NO_OFFSET → by_offset s → ∀ p, unique_candidate s cur p → f_find f = true ∧ f_find_ptn f = Some p).

Lemma checkout_search_wp s cur co : ins_ok s → wp False (checkout_search cur co) (search_post s cur co) (fun _ _ => False) s.
Proof.
  intros Hs. unfold checkout_search. wp_step. wp_step. wp_step.
  2: { wp_step. split; [by apply aged_searched, aged_refl|]. split; [done|]. split; [done|]. intros Hne _ p (Hp & _). apply andb_false_iff in H as [H|H].
    - bprop. done.
    - apply negb_false_iff, bool_decide_eq_true in H. rewrite H in Hp. by apply elem_of_nil in Hp. }
  bprop. apply bool_decide_eq_false in H0 as Hfull. wp_step. eapply wp_mono; [by apply scan_wp| |done]. intros l s1 (V & HI & Hnone & HV). wp_step.
  pose proof (si_aged _ _ _ _ _ HI) as Ha. pose proof (ag_ok _ _ Ha) as Hs1.
  eapply wp_mono; [eapply (select_wp s s1 cur V); done| |done]. cbn. intros f1 s2 (Hst & Ec & Eo & Hm).
  assert (searched s s2) as Hse2.
  { eapply searched_trans; [done|by apply aged_searched|]. destruct Hst as [b ->].
    split; [by eapply ins_ok_same|done|exact (same_nodes_refl s1)|reflexivity|by left]. }
  pose proof (stuck_same _ _ Hst) as (_ & En & El).
  assert (choice_result s2 co f1 ∧ (f_find f1 = true → is_Some (f_find_ptn f1))) as [Hc Hsome].
  { unfold choice_result. destruct (sc_fit_offset_ptn l) as [po|] eqn:Hpo.
    - destruct Hm as (Hff & p & Hp & Hin & _ & Hinv). rewrite Hff, Hp, Eo, El, En. split; [done|by eexists].
    - subst f1. destruct (si_none _ _ _ _ _ HI Hpo) as (_ & E1 & E2 & _). cbn. rewrite E1, E2. done. }
  pose proof (wp_unbind _ _ _ _ _ (attempts_wp s2 co f1 (se_ok _ _ Hse2) Hc Hsome)) as Hat.
  wp_step. eapply wp_mono; [exact Hat| |done]. cbn. intros f2 s3 H3. wp_step.
  eapply wp_mono; [exact H3| |done]. clear f2 s3 H3. intros f3 s3 (-> & Hc3 & Hid). wp_step. wp_step.
  eapply wp_mono; [apply (take_found_wp _ co)| |done].
  { eapply ins_ok_same; [apply Hse2|done]. }
  { exact Hc3. }
  intros f4 s4 (Hse4 & Hr & E1 & E2 & E3 & E4).
  assert (searched s2 s4) as Hse24.
  { eapply searched_trans; [apply Hse2| |exact Hse4].
    split; [eapply ins_ok_same; [apply Hse2|done]|done|exact (same_nodes_refl s2)|reflexivity|by left]. }
  split; [by eapply searched_trans|]. split; [by eapply (search_result_before s s2)|]. split; [done|].
  intros _ Hby p (Hp & Hcand & Huniq). destruct (sc_fit_offset_ptn l) as [po|] eqn:Hpo.
  - destruct Hm as (Hff & x & Hx & _ & Hxo & _). rewrite E1, E2, Hid, Hff, Hx by done. split; [done|].
    destruct (si_fit _ _ _ _ _ HI po Hpo) as (_ & HpoV & Hpoc). rewrite Hxo.
    + f_equal. apply Huniq; [by apply HV|done].
    + destruct Hby as [Hby|Hby]; [left|right].
      * destruct (ag_mode _ _ Ha) as [->|[? _]]; done.
      * destruct (aged_threshold _ _ Ha) as (_ & _ & -> & _). done.
  - destruct (Hnone eq_refl p Hp Hcand).
Qed.
