(* ===== verification/PtsOps.v ===== *)
(** The operations that check time stamps out (src/drivers/media_sync/
    pts_server/pts_server_core.c): they run without undefined behaviour, and
    where the answer comes from. *)

From stdpp Require Import base list numbers gmap sorting.
From Stdlib Require Import ZArith Lia Bool.
From S2P Require Import Prelude.
From S2P Require Import PtsServer.
From S2P Require Import PtsCheckin.
From S2P Require Import PtsCheckout.
From S2P Require Import PtsLists.

#[local] Open Scope Z_scope.

(** The divisor of the frame durations, [mPtsCheckoutFailCount + 1], has not
    wrapped to 0. *)
Definition divisor_ok (s : psinstance) : Prop := u32 (mPtsCheckoutFailCount s + 1) ≠ 0.

(** ** A checkout *)

(** The answer is the time stamp of a node that leaves the list ... *)
Definition served (s : psinstance) (co : checkout_pts_offset) (p : Z) (out : checkout_pts_offset) (s' : psinstance) : Prop :=
  p ∈ pts_list s ∧ p ∉ pts_list s' ∧ p ∈ pts_free_list s' ∧
  (∃ n, aget (all_free_ptn s) p = Some n ∧ out = co <| co_pts := u32 (n_pts_90k n) |> <| co_pts_64 := n_pts_64 n |>) ∧
  mLastCheckoutPts s' = co_pts out ∧ mLastCheckoutPts64 s' = co_pts_64 out ∧ mPtsCheckoutFailCount s' = 0.

(** ... or the last one again, in C2 mode ... *)
Definition repeated (s : psinstance) (co out : checkout_pts_offset) (s' : psinstance) : Prop :=
  setC2Mode s = true ∧ mPtsCheckoutStarted s ≠ 0 ∧
  out = co <| co_pts := mLastCheckoutPts s |> <| co_pts_64 := mLastCheckoutPts64 s |> ∧
  mLastCheckoutPts s' = co_pts out ∧ mLastCheckoutPts64 s' = co_pts_64 out ∧ mPtsCheckoutFailCount s' = 0.

(** ... or what the caller passed in, in C2 mode before the first checkout,
    when the walk has dropped every node: it then counts as the last one ... *)
Definition echoed (s : psinstance) (co out : checkout_pts_offset) (s' : psinstance) : Prop :=
  setC2Mode s = true ∧ mPtsCheckoutStarted s = 0 ∧ pts_list s ≠ [] ∧ pts_list s' = [] ∧ out = co ∧
  mLastCheckoutPts s' = co_pts co ∧ mLastCheckoutPts64 s' = co_pts_64 co ∧ mPtsCheckoutFailCount s' = 0.

(** ... or the last one and a frame duration. *)
Definition guessed (s : psinstance) (co out : checkout_pts_offset) (s' : psinstance) : Prop :=
  out = co <| co_pts := next_pts s |> <| co_pts_64 := next_pts_64 s |> ∧
  mLastCheckoutPts s' = co_pts out ∧ mLastCheckoutPts64 s' = co_pts_64 out ∧
  mPtsCheckoutFailCount s' = u32 (mPtsCheckoutFailCount s + 1).

(** What the guess depends on. *)
Definition same_clock (s s' : psinstance) : Prop :=
  mDecoderDuration s' = mDecoderDuration s ∧ mPtsCheckoutStarted s' = mPtsCheckoutStarted s ∧
  mLastCheckoutPts s' = mLastCheckoutPts s ∧ mLastCheckoutPts64 s' = mLastCheckoutPts64 s ∧
  mFrameDuration s' = mFrameDuration s ∧ mFrameDuration64 s' = mFrameDuration64 s.

Lemma next_pts_clock s s' : same_clock s s' → next_pts s' = next_pts s ∧ next_pts_64 s' = next_pts_64 s.
Proof. intros (E1 & E2 & E3 & E4 & E5 & E6). unfold next_pts, next_pts_64. by rewrite E1, E2, E3, E4, E5, E6. Qed.

Lemma rest_clock s s' : rest s' = rest s → same_clock s s'.
Proof.
  intros E. split; [exact (f_equal mDecoderDuration E)|]. split; [exact (f_equal mPtsCheckoutStarted E)|].
  split; [exact (f_equal mLastCheckoutPts E)|]. split; [exact (f_equal mLastCheckoutPts64 E)|].
  split; [exact (f_equal mFrameDuration E)|exact (f_equal mFrameDuration64 E)].
Qed.

(** The lists and the nodes stay. *)
Definition idle (s s' : psinstance) : Prop := same_lists s s' ∧ all_free_ptn s' = all_free_ptn s.

Lemma idle_refl s : idle s s.
Proof. by repeat split. Qed.

Lemma idle_trans s1 s2 s3 : idle s1 s2 → idle s2 s3 → idle s1 s3.
Proof. intros [A1 A2] [B1 B2]. split; [by eapply same_lists_trans|congruence]. Qed.

(** The state while the failure is recorded. *)
Definition failing (s s' : psinstance) : Prop :=
  idle s s' ∧ mPtsCheckoutFailCount s' = u32 (mPtsCheckoutFailCount s + 1) ∧ same_clock s s'.

Lemma checkout_fail_wp s f : ins_ok s → (∀ p, f_invalid_mode f = true → f_find_ptn f = Some p → is_ptr s p) →
  wp False (checkout_fail f) (fun out s' => ins_ok s' ∧ idle s s' ∧ guessed s (f_out f) out s') (fun _ _ => False) s.
Proof.
  intros Hs Hp. unfold checkout_fail. wp_step. wp_step. wp_step. wp_step. wp_step.
  apply (wp_mono _ (fun _ s1 => failing s s1) _ (fun _ _ => False)); [| |done].
  { wp_step; [apply sticky_wp|]; (split; [by repeat split|]); by repeat split. }
  intros _ s1 (G1 & G2 & G3). wp_step.
  apply (wp_mono _ (fun _ s2 => failing s s2) _ (fun _ _ => False)); [| |done].
  { destruct (f_invalid_mode f) eqn:Hi; [|by wp_step]. destruct (f_find_ptn f) as [p|] eqn:Hf; [|by wp_step].
    wp_step. apply wp_node; [destruct G1 as (_ & Ez); unfold is_ptr; rewrite Ez; by apply Hp|]. intros n _. wp_step.
    split; [eapply idle_trans; [exact G1|]; by repeat split|]. by split. }
  clear s1 G1 G2 G3. intros _ s2 (G1 & G2 & G3). destruct (next_pts_clock _ _ G3) as [N1 N2].
  wp_step. wp_step. wp_step. wp_step. wp_step. wp_step. wp_step.
  assert (idle s (extrapolate s2 <| mLastCheckoutCurOffset := f_cur_offset f |>)) as HL.
  { eapply idle_trans; [exact G1|]. by repeat split. }
  split; [eapply ins_ok_same; [exact Hs|apply HL]|]. split; [done|]. unfold guessed. rewrite <- N1, <- N2. by repeat split.
Qed.

(** The frame duration is a matter of its own fields. *)
Lemma div_u64_wp a b s (Q : Z → psinstance → Prop) E : b ≠ 0 → Q (a / b) s → wp False (div_u64 a b) Q E s.
Proof. intros Hb HQ. unfold div_u64. rewrite (proj2 (Z.eqb_neq b 0)) by done. by wp_step. Qed.

Lemma update_duration_wp s out : divisor_ok s → wp False (update_duration out) (fun _ s' => idle s s') (fun _ _ => False) s.
Proof.
  intros Hd. unfold update_duration. wp_step. wp_step. wp_step; [wp_step|].
  - unfold first_duration. wp_step. wp_step. wp_step. apply div_u64_wp; [done|]. wp_step. apply div_u64_wp; [done|].
    wp_step. by repeat split.
  - unfold double_check. wp_step. wp_step. wp_step. apply div_u64_wp; [done|]. wp_step. apply div_u64_wp; [done|].
    wp_step. destruct (_ || _); cbn -[u32]; destruct (_ <? _); by repeat split.
  - wp_step. by repeat split.
Qed.

Lemma checkout_record_wp s d f (Q : unit → psinstance → Prop) E :
  (∀ s', idle s s' → mLastCheckoutPts s' = co_pts (f_out f) → mLastCheckoutPts64 s' = co_pts_64 (f_out f) →
     mPtsCheckoutFailCount s' = 0 → Q tt s') →
  wp False (checkout_record d f) Q E s.
Proof. intros HQ. unfold checkout_record. wp_step. by apply HQ. Qed.

Definition checkout_post (s : psinstance) (co : checkout_pts_offset) (r : Z * checkout_pts_offset) (s' : psinstance) : Prop :=
  ins_ok s' ∧ r.1 = 0 ∧ pts_list s' `sublist_of` pts_list s ∧ same_nodes s s' ∧
  ((∃ p, served s co p r.2 s') ∨ repeated s co r.2 s' ∨ echoed s co r.2 s' ∨ guessed s co r.2 s') ∧
  (Z.land 4294967295 (co_offset co) ≠ NO_OFFSET → by_offset s → ∀ p n, unique_candidate s (Z.land 4294967295 (co_offset co)) p → aget (all_free_ptn s) p = Some n → n_pts_90k n ≠ MINUS_1 →
   served s co p r.2 s').

Lemma served_intro s s1 s' co p f : search_result s co f s1 → f_find f = true → f_find_ptn f = Some p → f_invalid_mode f = false →
  idle s1 s' → mLastCheckoutPts s' = co_pts (f_out f) → mLastCheckoutPts64 s' = co_pts_64 (f_out f) →
  mPtsCheckoutFailCount s' = 0 → served s co p (f_out f) s'.
Proof.
  intros Hr Hf Hp Hi [(L1 & L2 & _) _] E1 E2 E3. unfold search_result in Hr. rewrite Hf, Hp, Hi in Hr.
  destruct Hr as (H1 & H2 & H3 & n & Hn & Ho). unfold served. rewrite L1, L2. split; [done|]. split; [done|]. split; [done|].
  split; [by exists n|done].
Qed.

Lemma searched_idle s s1 s2 : searched s s1 → idle s1 s2 → ins_ok s2 ∧ pts_list s2 `sublist_of` pts_list s ∧ same_nodes s s2.
Proof.
  intros Hse [HL En]. split; [eapply ins_ok_same; [apply Hse|done]|]. split.
  - destruct HL as (-> & _). apply Hse.
  - destruct (se_nodes _ _ Hse) as [E1 E2]. unfold same_nodes. by rewrite En.
Qed.

Lemma checkout_pts_wp s co : ins_ok s → divisor_ok s → wp False (checkout_pts co) (checkout_post s co) (fun _ _ => False) s.
Proof.
  intros Hs Hd. unfold checkout_pts. wp_step. eapply wp_mono; [by apply checkout_search_wp| |done].
  intros f s1 (Hse & Hr & Hfull & Hu). pose proof (se_ok _ _ Hse) as Hs1. wp_step.
  - (* the guess *)
    wp_step. eapply wp_mono; [apply checkout_fail_wp; [done|]| |done].
    { intros p Hi Hp. unfold search_result in Hr. rewrite Hp, Hi in Hr. destruct (f_find f); [|by destruct Hr].
      destruct Hr as (_ & _ & Hfree & _). by apply free_ptr. }
    intros out s2 (Hs2 & HL & Hg). wp_step. split; [done|]. split; [done|].
    destruct (searched_idle _ _ _ Hse HL) as (_ & Hsub & Hnodes). split; [done|]. split; [done|].
    assert (guessed s (f_out f) out s2) as Hg'.
    { destruct (next_pts_clock _ _ (rest_clock _ _ (se_same _ _ Hse))) as [N1 N2]. unfold guessed in *. rewrite <- N1, <- N2.
      destruct (rest_field _ _ (se_same _ _ Hse)) as (_ & _ & _ & _ & _ & <-). exact Hg. }
    assert (guessed s co out s2) as Hgco.
    { destruct Hg' as (-> & G). unfold guessed. split; [|exact G]. assert (co_offset (f_out f) = co_offset co) as Eo.
      { unfold search_result in Hr. destruct (f_find f); [|by destruct Hr as (_ & _ & ->)].
        destruct (f_find_ptn f); [|destruct Hr as (Hi & _); rewrite Hi in H; discriminate H]. cbn in H. rewrite H in Hr.
        by destruct Hr as (_ & _ & _ & n & _ & _ & ?). }
      unfold set_field. cbn. by rewrite Eo. }
    split; [by do 3 right|]. intros Hne Hby p n Hun Hn Hm. destruct (Hu Hne Hby p Hun) as [Hf Hp].
    exfalso. unfold search_result in Hr. rewrite Hf, Hp in Hr. rewrite Hf in H. cbn in H. rewrite H in Hr. destruct Hr as (_ & _ & _ & m & Hm' & Hmm & _).
    by replace m with n in * by congruence.
  - apply orb_false_iff in H as [Hf Hi]. bprop. wp_step.
    eapply wp_mono; [apply update_duration_wp| |done].
    { unfold divisor_ok. by destruct (rest_field _ _ (se_same _ _ Hse)) as (_ & _ & _ & _ & _ & ->). }
    intros [] s2 HL2. wp_step. apply checkout_record_wp. intros s3 HL3 E1 E2 E3. wp_step.
    pose proof (idle_trans _ _ _ HL2 HL3) as HL. destruct (searched_idle _ _ _ Hse HL) as (Hs3 & Hsub & Hnodes).
    split; [done|]. split; [done|]. split; [done|]. split; [done|]. cbn [snd].
    destruct (f_find_ptn f) as [p|] eqn:Hp.
    + assert (served s co p (f_out f) s3) as Hsv by by eapply served_intro. split; [by left; exists p|].
      intros Hne Hby q n Hun _ _. destruct (Hu Hne Hby q Hun) as [_ Hq]. by injection Hq as ->.
    + split.
      * unfold search_result in Hr. rewrite Hf, Hp in Hr. destruct Hr as (_ & Hc2 & Hemp & Ho). right. unfold truth in Ho.
        destruct (Z.eqb_spec (mPtsCheckoutStarted s) 0) as [Hst|Hst]; cbn [negb] in Ho; [right; left|by left]. rewrite Ho in *.
        destruct HL as [(EL & _) _]. split; [done|]. split; [done|]. split; [by apply Hfull|]. split; [rewrite EL; by apply Hemp|done].
      * intros Hne Hby q n Hun _ _. by destruct (Hu Hne Hby q Hun) as [_ Hq].
Qed.

(** ** A peek *)

(** A peek turns the offset mode on and remembers its answer, nothing else. *)
Definition looked (s s' : psinstance) : Prop := ∃ b, s' = s <| mOffsetMode := b |>.

Lemma looked_refl s : looked s s.
Proof. exists (mOffsetMode s). by destruct s. Qed.

Lemma looked_trans s1 s2 s3 : looked s1 s2 → looked s2 s3 → looked s1 s3.
Proof. intros [a ->] [b ->]. by exists b. Qed.

Lemma looked_ptr s s' p : looked s s' → is_ptr s' p ↔ is_ptr s p.
Proof. by intros [b ->]. Qed.

Definition peek_wp (s : psinstance) (k : peek) (s' : psinstance) : Prop :=
  looked s s' ∧ ∀ q, k_fit_offset_ptn k = Some q → is_ptr s q.

Lemma peek_node_wp cur p k s : is_ptr s p → (∀ q, k_fit_offset_ptn k = Some q → is_ptr s q) →
  wp False (peek_node cur p k) (peek_wp s) (fun _ _ => False) s.
Proof.
  intros Hp Hk. unfold peek_node. wp_step. apply wp_node; [done|]. intros n _. wp_step. wp_step. wp_step.
  apply (wp_mono _ (peek_wp s) _ (fun _ _ => False)); [| |done].
  - wp_step; [wp_step|]; repeat wp_step; (split; [first [apply looked_refl|by eexists]|]); try done; by intros q [= <-].
  - intros k' s' [H1 H2]. wp_step. split; [done|]. by destruct (k_find k').
Qed.

Lemma peek_list_wp cur nodes k s : (∀ p, p ∈ nodes → is_ptr s p) → (∀ q, k_fit_offset_ptn k = Some q → is_ptr s q) →
  wp False (peek_list nodes cur k) (peek_wp s) (fun _ _ => False) s.
Proof.
  revert k s. induction nodes as [|p nodes IH]; intros k s Hl Hk; cbn [peek_list].
  - wp_step. by split; [apply looked_refl|].
  - wp_step. eapply wp_mono; [apply peek_node_wp; [apply Hl; left|done]| |done]. intros k1 s1 [H1 H2].
    wp_step; [by wp_step|]. eapply wp_mono; [apply IH| |done].
    + intros q Hin. rewrite (looked_ptr _ _ _ H1). apply Hl. by right.
    + intros q Hin. rewrite (looked_ptr _ _ _ H1). by apply H2.
    + intros k2 s2 [H3 H4]. split; [by eapply looked_trans|]. intros q Hin. rewrite <- (looked_ptr _ _ _ H1). by apply H4.
Qed.

Lemma peek_search_wp cur s : ins_ok s →
  wp False (peek_search cur) (fun o s' => looked s s' ∧ ∀ p, o = Some p → is_ptr s p) (fun _ _ => False) s.
Proof.
  intros Hs. unfold peek_search. wp_step. wp_step. wp_step; [|wp_step; by split; [apply looked_refl|]]. wp_step.
  eapply wp_mono; [apply peek_list_wp; [by intros p; apply list_ptr|done]| |done]. intros k s1 [H1 H2]. wp_step. wp_step.
  destruct (k_fit_offset_ptn k) as [p|]; [|by wp_step]. wp_step.
  apply wp_node; [rewrite (looked_ptr _ _ _ H1); by apply H2|]. intros n _. wp_step. split; [done|].
  intros q. destruct (mOffsetMode s1 && _); [done|]. intros [= <-]. by apply H2.
Qed.

Definition peeked (s : psinstance) (co : checkout_pts_offset) (r : Z * checkout_pts_offset) (s' : psinstance) : Prop :=
  r.1 = 0 ∧ (∃ b, s' = s <| mOffsetMode := b |> <| mLastPeekPts := co_pts r.2 |> <| mLastPeekPts64 := co_pts_64 r.2 |>) ∧
  ((∃ p n, aget (all_free_ptn s) p = Some n ∧ r.2 = co <| co_pts := u32 (n_pts_90k n) |> <| co_pts_64 := n_pts_64 n |>) ∨
   r.2 = peek_extrapolate s co).

Lemma peek_pts_wp s co : ins_ok s → wp False (peek_pts co) (peeked s co) (fun _ _ => False) s.
Proof.
  intros Hs. unfold peek_pts. wp_step. eapply wp_mono; [by apply peek_search_wp| |done]. intros o s1 [[b ->] Hp].
  wp_step. wp_step. wp_step. destruct o as [p|].
  - destruct (is_ptr_node s p) as [n Hn]; [by apply Hp|]. wp_step. apply (wp_node_at _ _ n); [exact Hn|]. repeat wp_step.
    split; [done|]. split; [by exists b|]. left. by exists p, n.
  - repeat wp_step. split; [done|]. split; [by exists b|]. by right.
Qed.

Lemma peeked_ok s co r s' : ins_ok s → peeked s co r s' → ins_ok s'.
Proof. intros Hs (_ & [b ->] & _). eapply ins_ok_same; [exact Hs|]. by repeat split. Qed.

(** ** Audio *)

(** What the walk of an audio checkout does: far nodes go to the free list;
    the marked node stays. *)
Record swept (s s' : psinstance) : Prop := {
  sw_ok : ins_ok s';
  sw_sub : ∀ p, p ∈ pts_list s' → p ∈ pts_list s;
  sw_same : s' = s <| pts_list := pts_list s' |> <| pts_free_list := pts_free_list s' |> <| mListSize := mListSize s' |>
}.

Lemma swept_refl s : ins_ok s → swept s s.
Proof. intros Hs. split; [done|done|by destruct s]. Qed.

Lemma swept_trans s1 s2 s3 : swept s1 s2 → swept s2 s3 → swept s1 s3.
Proof. intros [A1 A2 A3] [B1 B2 B3]. split; [done|by auto|]. rewrite B3, A3. by destruct s1. Qed.

Lemma moved_swept p s s' : ins_ok s → p ∈ pts_list s → moved p s s' → swept s s'.
Proof.
  intros Hs Hp [H1 H2 H3 H4]. split; [done| |].
  - intros q. rewrite H2, elem_without. by intros [_ ?].
  - rewrite H4. by destruct s.
Qed.

Lemma swept_nodes s s' : swept s s' → all_free_ptn s' = all_free_ptn s.
Proof. intros [_ _ E]. by rewrite E. Qed.

(** A node within the threshold. *)
Definition near (s : psinstance) (cur threshold p : Z) : Prop :=
  ∃ n, aget (all_free_ptn s) p = Some n ∧ u32 (abs32 (cur - n_offset n)) ≤ threshold.

(** The walk marks the node nearest to the offset of those it has seen. *)
Record ascan_inv (s0 s : psinstance) (cur threshold : Z) (V : list Z) (a : ascan) : Prop := {
  as_swept : swept s0 s;
  as_find : ∀ p, a_find a = Some p → p ∈ pts_list s ∧ p ∈ V ∧
    ∃ n, aget (all_free_ptn s0) p = Some n ∧ a_diff a = u32 (abs32 (cur - n_offset n)) ∧ a_diff a ≤ threshold;
  as_diff : a_find a = None → a_diff a = threshold ∧ a_frame_num a = 0;
  as_min : ∀ p n, p ∈ V → aget (all_free_ptn s0) p = Some n →
    u32 (abs32 (cur - n_offset n)) ≤ threshold → is_Some (a_find a) ∧ a_diff a ≤ u32 (abs32 (cur - n_offset n))
}.

Lemma ascan_count s0 s cur t V a k : ascan_inv s0 s cur t V a → (a_find a = None → k = 0) →
  ascan_inv s0 s cur t V (mk_ascan (a_find a) (a_diff a) k).
Proof. intros [H1 H2 H3 H4] Hk. split; cbn; [done|done| |done]. intros E. destruct (H3 E). by auto. Qed.

Lemma ascan_seen s0 s cur t V a p n : ascan_inv s0 s cur t V a → aget (all_free_ptn s0) p = Some n → p ∈ pts_list s →
  ascan_inv s0 s cur t (p :: V)
    (if u32 (abs32 (cur - n_offset n)) <=? t
     then if u32 (abs32 (cur - n_offset n)) <=? a_diff a then mk_ascan (Some p) (u32 (abs32 (cur - n_offset n))) (a_frame_num a) else a
     else a).
Proof.
  intros [H1 H2 H3 H4] Hn Hp. destruct (Z.leb_spec (u32 (abs32 (cur - n_offset n))) t) as [Ht|Ht];
    [destruct (Z.leb_spec (u32 (abs32 (cur - n_offset n))) (a_diff a)) as [Hd|Hd]|].
  - split; cbn; [done| |done|].
    + intros q [= <-]. split; [done|]. split; [left|]. by exists n.
    + intros q m [->|Hq]%elem_of_cons Hm Hle; (split; [by eexists|]).
      * by replace m with n by congruence.
      * destruct (H4 q m Hq Hm Hle). lia.
  - assert (is_Some (a_find a)) as Hs. { destruct (a_find a) eqn:E; [by eexists|]. destruct (H3 eq_refl). lia. }
    split; [done| |done|].
    + intros q Hq. destruct (H2 q Hq) as (? & ? & ?). split; [done|]. split; [by right|done].
    + intros q m [->|Hq]%elem_of_cons Hm Hle; [|by eauto]. split; [done|]. replace m with n by congruence. lia.
  - split; [done| |done|].
    + intros q Hq. destruct (H2 q Hq) as (? & ? & ?). split; [done|]. split; [by right|done].
    + intros q m [->|Hq]%elem_of_cons Hm Hle; [|by eauto]. replace m with n in Hle by congruence. lia.
Qed.

Definition ascan_post (s0 : psinstance) (cur t : Z) (V nodes : list Z) (a : ascan) (s' : psinstance) : Prop :=
  ∃ V', ascan_inv s0 s' cur t V' a ∧ (a_find a = None → ∀ p, p ∈ V ∨ p ∈ nodes → p ∈ V').

(** One more node, seen or gone. *)
Lemma ascan_post_cons s0 cur t V p nodes a s : ascan_post s0 cur t (p :: V) nodes a s → ascan_post s0 cur t V (p :: nodes) a s.
Proof.
  intros (V' & H1 & H2). exists V'. split; [done|]. intros E q Hq. apply H2; [done|]. rewrite !elem_of_cons in *. tauto.
Qed.

Lemma ascan_list_wp s0 cur t nodes : NoDup nodes → ∀ V a s, (∀ p, p ∈ nodes → p ∉ V ∧ p ∈ pts_list s) →
  ascan_inv s0 s cur t V a → wp False (ascan_list nodes cur t a) (ascan_post s0 cur t V nodes) (fun _ _ => False) s.
Proof.
  induction nodes as [|p nodes IH]; intros Hnd V a s Hl HI; cbn [ascan_list].
  { wp_step. exists V. split; [done|]. intros _ q [?|?%elem_of_nil]; done. }
  apply NoDup_cons in Hnd as [Hp Hnd]. pose proof (as_swept _ _ _ _ _ _ HI) as Hsw. pose proof (sw_ok _ _ Hsw) as Hs.
  destruct (Hl p) as [HpV Hpl]; [left|]. destruct (is_ptr_node s p) as [n Hn]; [by apply list_ptr|].
  wp_step. apply (wp_node_at _ _ n); [done|]. rewrite (swept_nodes _ _ Hsw) in Hn.
  assert (∀ a' s', ascan_inv s0 s' cur t (p :: V) a' → (∀ q, q ∈ nodes → q ∈ pts_list s') →
    wp False (ascan_list nodes cur t (mk_ascan (a_find a') (a_diff a')
      (if bool_decide (is_Some (a_find a')) then s32 (a_frame_num a' + 1) else a_frame_num a')))
      (ascan_post s0 cur t V (p :: nodes)) (fun _ _ => False) s') as Hnext.
  { intros a' s' HI' Hin. eapply wp_mono; [apply (IH Hnd (p :: V))| |done].
    - intros q Hq. split; [|by auto]. intros [->|Hv]%elem_of_cons; [done|]. by destruct (Hl q ltac:(by right)) as [? _].
    - apply ascan_count; [done|]. intros E. rewrite E. by destruct (as_diff _ _ _ _ _ _ HI' E).
    - intros a2 s2. apply ascan_post_cons. }
  pose proof (ascan_seen _ _ _ _ _ _ _ _ HI Hn Hpl) as Hseen. assert (∀ q, q ∈ nodes → q ∈ pts_list s) as Hin by (intros q Hq; by apply Hl; right).
  wp_step; bprop.
  - rewrite (proj2 (Z.leb_le _ _) H) in Hseen. by apply Hnext.
  - rewrite (proj2 (Z.leb_gt _ _) H) in Hseen. wp_step; bprop.
    + wp_step. apply wp_release; [done|done|]. intros s1 Hm.
      assert (∀ q, q ≠ p → q ∈ pts_list s → q ∈ pts_list s1) as Hkeep.
      { intros q Hne Hq. rewrite (mv_list _ _ _ Hm). by apply elem_without. }
      apply Hnext; [|intros q Hq; apply Hkeep; [by intros ->|by apply Hin]].
      destruct Hseen as [J1 J2 J3 J4]. split; [|intros q Hq|done|done].
      * eapply swept_trans; [done|]. by eapply moved_swept.
      * destruct (J2 q Hq) as (K1 & _ & n' & K2). destruct (as_find _ _ _ _ _ _ HI q Hq) as (_ & K3 & _).
        split; [|split; [by right|by exists n']]. apply Hkeep; [by intros ->|done].
    + wp_step; bprop; [|by apply Hnext]. wp_step. exists (p :: V). split; [done|]. intros E.
      destruct (as_diff _ _ _ _ _ _ HI E). lia.
Qed.

Definition athreshold (s : psinstance) : Z := if mAudioOffsetMargin s =? 0 then mLookupThreshold s else mAudioOffsetMargin s.

(** The node [p] answers and leaves the list. *)
Definition aserved (s : psinstance) (cur : Z) (co : checkout_apts_offset) (p : Z) (out : checkout_apts_offset) (s' : psinstance) : Prop :=
  p ∈ pts_list s ∧ near s cur (athreshold s) p ∧ p ∉ pts_list s' ∧
  ∃ n, aget (all_free_ptn s) p = Some n ∧ out = co <| ao_pts_90k := n_pts_90k n |> <| ao_pts_64 := n_pts_64 n |>.

Definition asearch_post (s : psinstance) (cur : Z) (co : checkout_apts_offset) (r : bool * checkout_apts_offset) (s' : psinstance) : Prop :=
  swept s s' ∧
  if r.1 then ∃ p, aserved s cur co p r.2 s'
  else r.2 = co ∧ (cur ≠ NO_OFFSET → ∀ p, p ∈ pts_list s → ¬ near s cur (athreshold s) p).

Lemma asearch_wp s cur co : ins_ok s → wp False (asearch cur co) (asearch_post s cur co) (fun _ _ => False) s.
Proof.
  intros Hs. unfold asearch. wp_step. wp_step. fold (athreshold s). wp_step.
  2: { wp_step. split; [by apply swept_refl|]. split; [done|]. intros Hne p Hp. apply andb_false_iff in H as [H|H].
    - bprop. done.
    - apply negb_false_iff, bool_decide_eq_true in H. rewrite H in Hp. by apply elem_of_nil in Hp. }
  wp_step. eapply wp_mono; [apply (ascan_list_wp s cur (athreshold s) _ (list_nodup _ Hs) [] _ s)| |done].
  { intros p Hp. split; [apply not_elem_of_nil|done]. }
  { split; [by apply swept_refl|done|done|]. by intros p n ?%elem_of_nil. }
  intros a s1 (V & HI & Hnone). pose proof (as_swept _ _ _ _ _ _ HI) as Hsw. destruct (a_find a) as [p|] eqn:Hp.
  - destruct (as_find _ _ _ _ _ _ HI p Hp) as (Hpl & _ & n & Hn & E & Hle). wp_step. apply (wp_node_at _ _ n).
    { by rewrite (swept_nodes _ _ Hsw). }
    wp_step. apply wp_release; [apply Hsw|done|]. intros s2 Hm. wp_step. split.
    + eapply swept_trans; [done|]. by eapply moved_swept; [apply Hsw|..].
    + exists p. split; [by apply Hsw|]. split; [exists n; split; [done|lia]|]. split; [|by exists n].
      rewrite (mv_list _ _ _ Hm), elem_without. by intros [? _].
  - wp_step. split; [done|]. split; [done|]. intros _ p Hpl (n & Hn & Hle).
    destruct (as_min _ _ _ _ _ _ HI p n (Hnone eq_refl p (or_intror Hpl)) Hn Hle) as [Hsome _]. rewrite Hp in Hsome. by destruct Hsome.
Qed.

Definition acheckout_post (s : psinstance) (co : checkout_apts_offset) (r : Z * checkout_apts_offset) (s' : psinstance) : Prop :=
  ins_ok s' ∧ r.1 = 0 ∧ mPtsCheckoutStarted s' ≠ 0 ∧
  ((∃ p, aserved s (Z.land 4294967295 (ao_offset co)) co p r.2 s' ∧ mLastCheckoutPts64 s' = ao_pts_64 r.2 ∧ mPtsCheckoutFailCount s' = 0) ∨
   (mPtsCheckoutStarted s = 0 ∧ ao_pts_90k r.2 = mFirstCheckinPts90k s ∧ ao_pts_64 r.2 = mFirstCheckinPts64 s) ∨
   (mPtsCheckoutStarted s ≠ 0 ∧ ao_pts_90k r.2 = MINUS_1 ∧ ao_pts_64 r.2 = MINUS_1 ∧
    mPtsCheckoutFailCount s' = u32 (mPtsCheckoutFailCount s + 1))) ∧
  (Z.land 4294967295 (ao_offset co) ≠ NO_OFFSET →
   (∃ p, p ∈ pts_list s ∧ near s (Z.land 4294967295 (ao_offset co)) (athreshold s) p) →
   (∀ p n, p ∈ pts_list s → near s (Z.land 4294967295 (ao_offset co)) (athreshold s) p → aget (all_free_ptn s) p = Some n → n_pts_64 n ≠ MINUS_1) →
   ∃ p, aserved s (Z.land 4294967295 (ao_offset co)) co p r.2 s').

Lemma checkout_apts_wp s co : ins_ok s → wp False (checkout_apts co) (acheckout_post s co) (fun _ _ => False) s.
Proof.
  intros Hs. unfold checkout_apts, acheckout_post. wp_step. eapply wp_mono; [by apply asearch_wp| |done]. intros [find co1] s1 [Hsw Hr]. cbn in Hr.
  pose proof (sw_ok _ _ Hsw) as Hs1. assert (mPtsCheckoutStarted s1 = mPtsCheckoutStarted s ∧ mFirstCheckinPts90k s1 = mFirstCheckinPts90k s ∧
    mFirstCheckinPts64 s1 = mFirstCheckinPts64 s ∧ mPtsCheckoutFailCount s1 = mPtsCheckoutFailCount s) as (E1 & E2 & E3 & E4).
  { by rewrite (sw_same _ _ Hsw). }
  set (cur := Z.land 4294967295 (ao_offset co)) in *. clearbody cur.
  assert (find && negb (ao_pts_64 co1 =? MINUS_1) = false →
    cur ≠ NO_OFFSET → (∃ p, p ∈ pts_list s ∧ near s cur (athreshold s) p) →
    (∀ p n, p ∈ pts_list s → near s cur (athreshold s) p → aget (all_free_ptn s) p = Some n → n_pts_64 n ≠ MINUS_1) → False) as Hno.
  { intros Hb Hne (p & Hp & Hnear) Hval. destruct find; cbn in Hb.
    - bprop. destruct Hr as (q & Hq1 & Hq2 & _ & n & Hn & ->). by apply (Hval q n).
    - destruct Hr as [_ Hr]. by apply (Hr Hne p). }
  wp_step.
  - apply andb_true_iff in H as [-> H]. bprop. destruct Hr as [p Hp]. unfold acheckout_record. wp_step. wp_step. wp_step.
    split; [eapply ins_ok_same; [exact Hs1|]; by repeat split|]. split; [done|]. cbn -[Z.eqb].
    split; [destruct (Z.eqb_spec (mPtsCheckoutStarted s1) 0); [done|assumption]|]. split; [|intros _ _ _; exists p; exact Hp]. left. exists p. by split; [exact Hp|].
  - wp_step. wp_step. apply wp_if; intros Hst; bprop.
    + wp_step. wp_step. unfold acheckout_record. wp_step. wp_step. wp_step.
      split; [eapply ins_ok_same; [exact Hs1|]; by repeat split|]. split; [done|]. cbn -[Z.eqb]. split; [done|].
      split; [|by intros Hne Hex Hval; destruct (Hno H Hne Hex Hval)]. right. left. rewrite <- E1, <- E2, <- E3. done.
    + wp_step. wp_step. wp_step. split; [eapply ins_ok_same; [exact Hs1|]; by repeat split|]. split; [done|]. cbn -[Z.eqb u32].
      split; [done|]. split; [|by intros Hne Hex Hval; destruct (Hno H Hne Hex Hval)]. right. right. rewrite <- E1, <- E4. done.
Qed.

(** ** The order of the list *)

(** In C2 mode the list is in the order of the time stamps. *)
Definition not_later (s : psinstance) (p q : Z) : Prop :=
  ∀ n m, aget (all_free_ptn s) p = Some n → aget (all_free_ptn s) q = Some m → n_pts_64 n ≤ n_pts_64 m.

Definition in_order (s : psinstance) : Prop := StronglySorted (not_later s) (pts_list s).

Lemma ssorted_sublist (R : Z → Z → Prop) l k : l `sublist_of` k → StronglySorted R k → StronglySorted R l.
Proof.
  induction 1 as [|x l k Hlk IH|x l k Hlk IH]; intros Hs; [done| |].
  - apply StronglySorted_cons in Hs as [Hx Hs]. apply StronglySorted_cons. split; [|by apply IH].
    rewrite Forall_forall in *. intros y Hy. apply Hx. by eapply elem_of_sublist.
  - apply StronglySorted_cons in Hs as [_ Hs]. by apply IH.
Qed.

Lemma ssorted_insert (R : Z → Z → Prop) l1 l2 x : StronglySorted R (l1 ++ l2) → Forall (fun y => R y x) l1 → Forall (R x) l2 →
  StronglySorted R (l1 ++ x :: l2).
Proof.
  induction l1 as [|y l1 IH]; cbn; intros Hs H1 H2.
  - apply StronglySorted_cons. by split.
  - apply StronglySorted_cons in Hs as [Hy Hs]. apply Forall_cons in H1 as [Hyx H1]. apply StronglySorted_cons.
    split; [|by apply IH]. rewrite Forall_forall in *. intros z. rewrite !elem_of_app, elem_of_cons. intros [Hz|[->|Hz]]; [|done|];
      apply Hy; rewrite elem_of_app; tauto.
Qed.

Lemma ssorted_same (R R' : Z → Z → Prop) l : (∀ x y, x ∈ l → y ∈ l → R x y → R' x y) → StronglySorted R l → StronglySorted R' l.
Proof.
  induction l as [|x l IH]; intros HR Hs; [constructor|]. apply StronglySorted_cons in Hs as [Hx Hs]. apply StronglySorted_cons. split.
  - rewrite Forall_forall in *. intros y Hy. apply HR; [left|by right|by apply Hx].
  - apply IH; [|done]. intros a b Ha Hb. apply HR; by right.
Qed.

Lemma shrunk_in_order s s' : ins_ok s → pts_list s' `sublist_of` pts_list s → same_nodes s s' → in_order s → in_order s'.
Proof.
  intros Hs Hsub Hn Ho. eapply ssorted_same; [|by eapply ssorted_sublist]. intros x y Hx Hy HR n m En Em.
  destruct (same_nodes_at _ _ x n Hn) as (n0 & En0 & D); [eapply list_ptr, elem_of_sublist; done|done|].
  destruct (same_nodes_at _ _ y m Hn) as (m0 & Em0 & D'); [eapply list_ptr, elem_of_sublist; done|done|].
  specialize (HR _ _ En0 Em0). unfold same_data in *. destruct D as (_ & _ & -> & _), D' as (_ & _ & -> & _). done.
Qed.

Lemma framed_in_order s s' ci b p : ins_ok s → setC2Mode s = true → framed s s' ci b p → in_order s → in_order s'.
Proof.
  intros Hs Hc2 [(l & Hl & _ & Hp & l1 & l2 & El & El' & H1 & H2) Hptr En _] Ho. unfold in_order. rewrite El'.
  assert (∀ q, q ∈ l → q ≠ p ∧ aget (all_free_ptn s') q = aget (all_free_ptn s) q ∧ is_Some (aget (all_free_ptn s) q)) as Hsame.
  { intros q Hq. assert (q ≠ p) as Hne by by intros ->. split; [done|]. rewrite En. split; [apply aget_insert_ne; [apply Hptr|done]|].
    destruct (is_ptr_node s q) as [n Hn]; [|by exists n]. apply list_ptr; [done|]. by eapply elem_of_sublist. }
  assert (StronglySorted (not_later s) (l1 ++ l2)) as Hsl by (rewrite <- El; by eapply ssorted_sublist).
  assert (aget (all_free_ptn s') p = Some (frame_node s ci b)) as Hnp by (rewrite En; by apply aget_insert).
  unfold goes_before in H1, H2. rewrite Hc2 in H1, H2. rewrite El in Hsame. apply ssorted_insert.
  - eapply ssorted_same; [|exact Hsl]. intros x y Hx Hy HR n m. destruct (Hsame x Hx) as (_ & -> & _). destruct (Hsame y Hy) as (_ & -> & _). apply HR.
  - rewrite Forall_forall. intros x Hx n m Hn Hm. replace m with (frame_node s ci b) by congruence.
    destruct (Hsame x) as (_ & E & _); [apply elem_of_app; by left|]. rewrite E in Hn. specialize (H1 x n Hx Hn). bprop. cbn in *. lia.
  - destruct l2 as [|y l2]; [constructor|]. destruct (Hsame y) as (_ & _ & n & Hn); [apply elem_of_app; right; left|].
    specialize (H2 y n eq_refl Hn). bprop. cbn in H2. assert (Forall (not_later s y) l2) as Hy2.
    { clear -Hsl. induction l1 as [|a l1 IH]; cbn in Hsl; apply StronglySorted_cons in Hsl as [? ?]; [done|by apply IH]. }
    rewrite Forall_forall in *. intros z Hz a m Ha Hm. replace a with (frame_node s ci b) by congruence. cbn.
    destruct (Hsame z) as (_ & E & _); [apply elem_of_app; by right|]. rewrite E in Hm. apply elem_of_cons in Hz as [->|Hz].
    + by replace m with n by congruence.
    + specialize (Hy2 z Hz n m Hn Hm). lia.
Qed.
