(* ===== verification/PtsLife.v ===== *)
(** The life of the PTS server (src/drivers/media_sync/pts_server/
    pts_server_core.c): instances come, are used and go; every sequence of
    operations that keeps to the rules of [srv_valid] runs. *)

From stdpp Require Import base list numbers gmap sorting.
From Stdlib Require Import ZArith Lia Bool.
From S2P Require Import Prelude.
From S2P Require Import PtsServer.
From S2P Require Import PtsCheckin.
From S2P Require Import PtsCheckout.
From S2P Require Import PtsLists.
From S2P Require Import PtsOps.

#[local] Open Scope Z_scope.

(** ** One instance *)

Definition para_ok (o : option ptsserver_alloc_para) : Prop :=
  match o with Some a => 1 ≤ p_mMaxCount a < 2 ^ 32 | None => True end.

(** An allocation has the size asked for. *)
Definition vm_ok (vm : vmalloc_nodes) : Prop := ∀ n l, 0 ≤ n → vm n = Some l → zlen l = n.

(** What the lists and the modes are after the fields are cleared. *)
Lemma sync_zero_fields s : mMaxCount (sync_zero s) = mMaxCount s ∧ mListSize (sync_zero s) = 0 ∧
  last_offset (sync_zero s) = last_offset s ∧ write_count (sync_zero s) = write_count s ∧
  mPtsServerInsId (sync_zero s) = mPtsServerInsId s ∧ mRef (sync_zero s) = mRef s.
Proof. destruct s. vm_compute. auto 10. Qed.

Lemma sync_reset_fields s : pts_list (sync_reset s) = pts_list s ∧ pts_free_list (sync_reset s) = pts_free_list s ∧
  all_free_ptn (sync_reset s) = all_free_ptn s ∧ mMaxCount (sync_reset s) = mMaxCount s ∧
  last_offset (sync_reset s) = last_offset s ∧ write_count (sync_reset s) = write_count s ∧ mListSize (sync_reset s) = 0 ∧
  mPtsCheckinStarted (sync_reset s) = 0 ∧ mPtsCheckoutStarted (sync_reset s) = 0 ∧ mOffsetMode (sync_reset s) = false.
Proof. destruct s. vm_compute. auto 15. Qed.

#[local] Opaque sync_zero sync_reset.

Lemma init_syncinfo_wp vm o s : para_ok o → vm_ok vm → last_offset s = [0; 0] → write_count s = 0 →
  wp False (ptsserver_ins_init_syncinfo vm o) (fun _ s' => ins_ok s' ∧ pts_list s' = [] ∧ mPtsServerInsId s' = mPtsServerInsId s ∧ mRef s' = mRef s) (fun _ _ => False) s.
Proof.
  intros Ho Hvm Hl Hw. unfold ptsserver_ins_init_syncinfo. wp_step. wp_step. wp_step. wp_step.
  match goal with |- context [sync_zero ?x] => set (s0 := x) end. destruct (sync_zero_fields s0) as (E1 & E2 & E3 & E4 & E5 & E6).
  assert (1 ≤ mMaxCount s0 < 2 ^ 32 ∧ last_offset s0 = [0; 0] ∧ write_count s0 = 0 ∧ mPtsServerInsId s0 = mPtsServerInsId s ∧ mRef s0 = mRef s)
    as (F1 & F2 & F3 & <- & <-) by (by destruct o).
  clearbody s0. revert E1 E2 E3 E4 E5 E6. generalize (sync_zero s0) as z. intros z E1 E2 E3 E4 <- <-.
  wp_step. wp_step. wp_step. wp_step. set (s1 := z <| pts_list := [] |> <| pts_free_list := [] |>).
  assert (1 ≤ mMaxCount s1 < 2 ^ 32 ∧ pts_list s1 = [] ∧ pts_free_list s1 = [] ∧ mListSize s1 = 0 ∧ last_offset s1 = [0; 0] ∧
    write_count s1 = 0 ∧ mPtsServerInsId s1 = mPtsServerInsId z ∧ mRef s1 = mRef z) as (G1 & G2 & G3 & G4 & G5 & G6 & <- & <-).
  { unfold s1. cbn. by rewrite E1, E2, E3, E4. }
  clearbody s1. destruct (vm (mMaxCount s1)) as [l|] eqn:Hv.
  - apply Hvm in Hv; [|lia]. wp_step. wp_step. wp_step.
    apply (wp_for_range _ _ _ (fun i s' => s' = s1 <| all_free_ptn := l |> <| pts_free_list := seqZ 0 i |>)).
    + by destruct s1; cbn in *; subst.
    + intros i s' Hi ->. wp_step. apply wp_node; [unfold is_ptr; cbn -[zlen]; lia|]. intros n _. wp_step. cbn -[seqZ].
      rewrite seqZ_app by lia. cbn -[seqZ]. done.
    + intros s' ->. wp_step. split; [|done]. rewrite Z.max_r by lia. split; cbn -[seqZ zlen]; rewrite ?G2, ?Hv, ?G4, ?G5, ?G6; try done.
      by right.
  - wp_step. wp_step. wp_step. split; [|done]. split; cbn -[seqZ zlen]; rewrite ?G2, ?G3, ?G4, ?G5, ?G6; try done. by left.
Qed.

Lemma drain_wp l s : (∀ p, p ∈ l → is_ptr s p) → wp False (drain l) (fun _ s' => s' = s) (fun _ _ => False) s.
Proof.
  induction l as [|p l IH]; intros Hl; cbn [drain]; [by wp_step|]. wp_step. apply wp_node; [apply Hl; left|]. intros n _.
  apply IH. intros q Hq. apply Hl. by right.
Qed.

Lemma drain_to_free_wp l s : ins_ok s → NoDup l → (∀ p, p ∈ l → p ∈ pts_list s) →
  wp False (drain_to_free l) (fun _ s' => ins_ok s' ∧ (∀ p, p ∈ pts_list s' ↔ p ∈ pts_list s ∧ p ∉ l)) (fun _ _ => False) s.
Proof.
  revert s. induction l as [|p l IH]; intros s Hs Hn Hl; cbn [drain_to_free].
  - wp_step. split; [done|]. intros p. rewrite elem_of_nil. tauto.
  - apply NoDup_cons in Hn as [Hp Hn]. wp_step. apply wp_release; [done|apply Hl; left|]. intros s1 Hm.
    assert (∀ q, q ∈ pts_list s1 ↔ q ≠ p ∧ q ∈ pts_list s) as E1 by (intros q; rewrite (mv_list _ _ _ Hm); apply elem_without).
    eapply wp_mono; [apply IH; [apply Hm|done|]| |done].
    + intros q Hq. apply E1. split; [by intros ->|]. apply Hl. by right.
    + intros [] s2 [H1 H2]. split; [done|]. intros q. rewrite H2, E1, elem_of_cons. tauto.
Qed.

Lemma reset_instance_wp s : ins_ok s →
  wp False reset_instance (fun r s' => r = 0 ∧ ins_ok s' ∧ pts_list s' = [] ∧ mListSize s' = 0 ∧ mPtsCheckinStarted s' = 0 ∧
    mPtsCheckoutStarted s' = 0 ∧ mOffsetMode s' = false) (fun _ _ => False) s.
Proof.
  intros Hs. unfold reset_instance. wp_step. wp_step. wp_step. eapply wp_mono; [apply drain_to_free_wp; [done|by apply list_nodup|done]| |done].
  intros [] s1 [Hs1 He]. wp_step. wp_step. wp_step. assert (pts_list s1 = []) as El.
  { destruct (pts_list s1) as [|p l]; [done|]. destruct (He p) as [[? ?] _]; [left|done]. }
  destruct (sync_reset_fields s1) as (F1 & F2 & F3 & F4 & F5 & F6 & F7 & F8 & F9 & F10). split; [done|]. rewrite F1. split; [|done].
  destruct Hs1 as [H1 H2 H3 H4 H5 H6]. split; rewrite ?F1, ?F2, ?F3, ?F4, ?F5, ?F6, ?F7; try done. by rewrite El.
Qed.

(** ** The table *)

Definition slot_ok (o : option psinstance) : Prop := match o with Some s => ins_ok s | None => True end.

Record srv_ok (l : ins_list) : Prop := { so_len : zlen l = MAX_INSTANCE_NUM; so_slots : Forall slot_ok l }.

Lemma srv_slot l i s : srv_ok l → aget l i = Some (Some s) → ins_ok s.
Proof. intros H [_ Hi]%aget_inv. exact (proj1 (Forall_lookup _ _) (so_slots _ H) _ _ Hi). Qed.

Lemma srv_insert l i o : srv_ok l → slot_ok o → srv_ok (<[Z.to_nat i := o]> l).
Proof. intros [H1 H2] Ho. split; [etrans; [apply zlen_insert|done]|by apply Forall_insert]. Qed.

Lemma srv_get l i : srv_ok l → 0 ≤ i < MAX_INSTANCE_NUM → ∃ o, aget l i = Some o.
Proof. intros H Hi. apply aget_Some. by rewrite (so_len _ H). Qed.

(** What an operation does to the instance of a slot, it does to the
    table. *)
Definition in_slot {A} (l : ins_list) (i : Z) (Q : A → psinstance → Prop) (a : A) (l' : ins_list) : Prop :=
  ∃ s', Q a s' ∧ l' = <[Z.to_nat i := Some s']> l.

Lemma on_instance_wp {A} l i (fail : A) (m : I A) (Q : psinstance → A → psinstance → Prop) : srv_ok l →
  (∀ s, aget l i = Some (Some s) → ins_ok s → wp False m (Q s) (fun _ _ => False) s) →
  wp False (on_instance i fail m) (fun a l' => (l' = l ∧ a = fail ∧ ∀ s, aget l i ≠ Some (Some s)) ∨
    ∃ s, aget l i = Some (Some s) ∧ in_slot l i (Q s) a l') (fun _ _ => False) l.
Proof.
  intros Hl Hm. unfold on_instance. wp_step.
  { wp_step. left. split; [done|]. split; [done|]. intros s [Hi _]%aget_inv. rewrite (so_len _ Hl) in Hi. apply orb_true_iff in H as [H|H]; bprop; lia. }
  apply orb_false_iff in H as [H1 H2]. bprop. destruct (srv_get l i Hl) as [o Ho]; [lia|]. wp_step. wp_step. wp_step. rewrite Ho.
  cbn [of_option]. wp_step. destruct o as [s|].
  - wp_step. eapply wp_mono; [apply Hm; [done|by eapply srv_slot]| |done]. intros a s' Hq. right. exists s. split; [done|]. by exists s'.
  - wp_step. left. split; [done|]. split; [done|]. intros s. congruence.
Qed.

(** An operation that keeps the invariant of the instance keeps that of the
    table. *)
Lemma on_instance_ok {A} l i (fail : A) (m : I A) : srv_ok l → (∀ s, aget l i = Some (Some s) → ins_ok s → safe m s) →
  wp False (on_instance i fail m) (fun _ => srv_ok) (fun _ _ => False) l.
Proof.
  intros Hl Hm. eapply wp_mono; [apply (on_instance_wp l i fail m (fun _ _ => ins_ok)); [done|exact Hm]| |done].
  intros a l' [(-> & _)|(s & _ & s' & Hs' & ->)]; [done|by apply srv_insert].
Qed.

Lemma get_index_wp id l (Q : Z → ins_list → Prop) E : (∀ i, -1 ≤ i < zlen l → (0 ≤ i → ∃ s, aget l i = Some (Some s) ∧ mPtsServerInsId s = id) → Q i l) →
  wp False (get_index_from_ptsserver_id id) Q E l.
Proof.
  intros HQ. unfold get_index_from_ptsserver_id. wp_step. wp_step. wp_step.
  assert (∀ k j, let i := index_from j k id in i = -1 ∨ j ≤ i < j + zlen k ∧ ∃ s, aget k (i - j) = Some (Some s) ∧ mPtsServerInsId s = id) as H.
  { induction k as [|o k IH]; intros j; cbn -[zlen]; [by left|]. unfold zlen. rewrite length_cons, Nat2Z.inj_succ. fold (zlen k).
    pose proof (zlen_nonneg k). destruct (id_is id o) eqn:Ho.
    - right. split; [lia|]. rewrite Z.sub_diag. unfold id_is in Ho. destruct o as [s|]; [|done]. bprop. by exists s.
    - destruct (IH (j + 1)) as [?|(Hi & s & Hs & Hid)]; [by left|right]. split; [lia|]. exists s. split; [|done].
      apply aget_inv in Hs as [_ Hs]. unfold aget. rewrite (proj2 (Z.leb_le _ _)) by lia.
      replace (Z.to_nat (index_from (j + 1) k id - j)) with (S (Z.to_nat (index_from (j + 1) k id - (j + 1)))) by lia. done. }
  destruct (H l 0) as [E0|(Hi & s & Hs & Hid)].
  - rewrite E0. apply HQ; [pose proof (zlen_nonneg l); lia|lia].
  - apply HQ; [lia|]. intros _. exists s. by rewrite Z.sub_0_r in Hs.
Qed.

Lemma on_server_ok {A} l id (fail : A) (m : I A) : srv_ok l → (∀ s, ins_ok s → (∃ i, aget l i = Some (Some s) ∧ mPtsServerInsId s = id) → safe m s) →
  wp False (on_server id fail m) (fun _ => srv_ok) (fun _ _ => False) l.
Proof.
  intros Hl Hm. unfold on_server. wp_step. apply get_index_wp. intros i Hi Hs. apply on_instance_ok; [done|]. intros s Hg Hok.
  apply Hm; [done|]. exists i. split; [done|]. destruct (Hs) as (s' & Hs' & Hid); [by apply aget_inv in Hg as [? _]; lia|]. congruence.
Qed.

(** ** Instances come and go *)

Definition used (l : ins_list) (i : Z) : Prop := ∃ s, aget l i = Some (Some s).

Lemma first_free_wp n i l : srv_ok l → 0 ≤ i → i + Z.of_nat n ≤ MAX_INSTANCE_NUM →
  wp False (first_free n i) (fun j l' => l' = l ∧ i ≤ j ≤ i + Z.of_nat n ∧ (∀ k, i ≤ k < j → used l k) ∧
    (j < i + Z.of_nat n → aget l j = Some None)) (fun _ _ => False) l.
Proof.
  intros Hl. revert i. induction n as [|n IH]; intros i Hi Hn; cbn [first_free].
  - wp_step. split; [done|]. split; [lia|]. split; [intros k Hk; lia|lia].
  - destruct (srv_get l i Hl) as [o Ho]; [lia|]. wp_step. wp_step. wp_step. rewrite Ho. cbn [of_option]. wp_step. destruct o as [s|].
    + eapply wp_mono; [apply IH; lia| |done]. intros j l' (-> & H1 & H2 & H3). split; [done|]. split; [lia|]. split; [|intros; apply H3; lia].
      intros k Hk. destruct (decide (k = i)) as [->|]; [by exists s|]. apply H2. lia.
    + wp_step. split; [done|]. split; [lia|]. split; [intros k Hk; lia|done].
Qed.

(** The new instance: empty, with its identifier and one reference. *)
Definition fresh_slot (l : ins_list) (i id : Z) (l' : ins_list) : Prop :=
  ∃ s, ins_ok s ∧ pts_list s = [] ∧ mPtsServerInsId s = id ∧ mRef s = 1 ∧ l' = <[Z.to_nat i := Some s]> l.

Lemma place_wp vm o i id l : para_ok o → vm_ok vm → wp False (place vm o i id) (fun _ l' => fresh_slot l i id l') (fun _ _ => False) l.
Proof.
  intros Ho Hvm. unfold place. wp_step. wp_step. eapply wp_mono; [by apply init_syncinfo_wp| |done]. intros r s (H1 & H2 & H3 & H4). wp_step. by exists s.
Qed.

Lemma fresh_slot_ok l i id l' : srv_ok l → fresh_slot l i id l' → srv_ok l'.
Proof. intros Hl (s & Hs & _ & _ & _ & ->). by apply srv_insert. Qed.

Definition alloc_post (l : ins_list) (kz : bool) (r : Z * option Z * option ins_ptr) (l' : ins_list) : Prop :=
  if kz then
    (∃ i, 0 ≤ i < 9 ∧ aget l i = Some None ∧ (∀ k, 0 ≤ k < i → used l k) ∧ r = (0, Some i, Some (Ins_slot i)) ∧ fresh_slot l i i l') ∨
    ((∀ k, 0 ≤ k < 9 → used l k) ∧ r = (0, None, Some Ins_unlisted) ∧ l' = l)
  else r = (-1, None, None) ∧ l' = l.

Lemma ins_alloc_wp kz vm o l : srv_ok l → para_ok o → vm_ok vm →
  wp False (ptsserver_ins_alloc kz vm o) (fun r l' => srv_ok l' ∧ alloc_post l kz r l') (fun _ _ => False) l.
Proof.
  intros Hl Ho Hvm. unfold ptsserver_ins_alloc, alloc_post. destruct kz; cbn [negb]; [|by wp_step]. wp_step.
  eapply wp_mono; [by apply first_free_wp| |done]. change (Z.of_nat (Z.to_nat (MAX_DYNAMIC_INSTANCE_NUM - 1))) with 9.
  intros i l1 (-> & H1 & H2 & H3). change (MAX_DYNAMIC_INSTANCE_NUM - 1) with 9. change (i =? MAX_DYNAMIC_INSTANCE_NUM) with (i =? 10).
  wp_step; bprop.
  - wp_step. eapply wp_mono; [by apply place_wp| |done]. intros [] l2 Hf. wp_step. split; [by eapply (fresh_slot_ok l i i)|]. left. exists i.
    split; [lia|]. split; [apply H3; lia|]. by split.
  - wp_step; bprop; [lia|]. wp_step. split; [done|]. right. replace i with 9 in * by lia. done.
Qed.

Lemma static_ins_binder_wp kz vm id o l : srv_ok l → para_ok o → vm_ok vm →
  wp False (ptsserver_static_ins_binder kz vm id o) (fun _ => srv_ok) (fun _ _ => False) l.
Proof.
  intros Hl Ho Hvm. unfold ptsserver_static_ins_binder. wp_step. apply get_index_wp. intros i Hi _. wp_step.
  - apply on_instance_ok; [done|]. intros s _ Hs. unfold safe. wp_step. wp_step. wp_step. by eapply ins_ok_same.
  - destruct kz; cbn [negb]; [|by wp_step]. wp_step. eapply wp_mono; [by apply first_free_wp| |done].
    intros j l1 (-> & _). wp_step; [|by wp_step]. wp_step. eapply wp_mono; [by apply place_wp| |done]. intros [] l2 Hf. wp_step.
    by eapply fresh_slot_ok.
Qed.

Lemma ins_reset_wp id l : srv_ok l → wp False (ptsserver_ins_reset id) (fun _ => srv_ok) (fun _ _ => False) l.
Proof.
  intros Hl. apply on_server_ok; [done|]. intros s Hs _. eapply wp_mono; [by apply reset_instance_wp| |done]. by intros r s' (_ & ? & _).
Qed.

Lemma ins_release_wp id l : srv_ok l → wp False (ptsserver_ins_release id) (fun _ => srv_ok) (fun _ _ => False) l.
Proof.
  intros Hl. unfold ptsserver_ins_release. wp_step. apply get_index_wp. intros i Hi _. wp_step.
  eapply wp_mono; [apply (on_instance_ok l i); [done|]| |done].
  - intros s _ Hs. unfold safe. wp_step. wp_step. wp_step. wp_step. set (s1 := s <| mRef := _ |>).
    assert (ins_ok s1) as Hs1 by (by eapply ins_ok_same). clearbody s1. wp_step; [by wp_step|]. wp_step. wp_step. wp_step.
    eapply wp_mono; [apply drain_wp; by intros p; apply free_ptr| |done]. intros _ s2 ->. wp_step. wp_step. wp_step.
    eapply wp_mono; [apply drain_wp; by intros p; apply list_ptr| |done]. intros _ s2 ->. by wp_step.
  - intros r l1 Hl1. wp_step; [by wp_step|]. wp_step.
    + wp_step. eapply wp_mono; [by apply ins_reset_wp| |done]. intros x l2 Hl2. by wp_step.
    + wp_step. wp_step. wp_step. by apply srv_insert.
Qed.

(** The last two offsets, at the slot of an instance. *)
Lemma check_rec_wp id val l : srv_ok l → (0 ≤ id < MAX_INSTANCE_NUM → used l id) →
  wp False (ptsserver_check_rec_num_enough id val) (fun _ l' => l' = l) (fun _ _ => False) l.
Proof.
  intros Hl Hu. unfold ptsserver_check_rec_num_enough. wp_step; [by wp_step|]. apply orb_false_iff in H as [H1 H2]. bprop.
  destruct Hu as [s Hs]; [lia|]. pose proof (io_offsets _ (srv_slot _ _ _ Hl Hs)) as Hlo. wp_step. wp_step. wp_step. rewrite Hs. cbn [of_option].
  wp_step. wp_step. cbn [of_option]. wp_step. wp_step. destruct (aget_Some (last_offset s) 0) as [a Ha]; [lia|].
  rewrite Ha. cbn [of_option]. wp_step. wp_step; [by wp_step|]. wp_step. destruct (aget_Some (last_offset s) 1) as [b Hb]; [lia|].
  rewrite Hb. cbn [of_option]. wp_step. wp_step; by wp_step.
Qed.

(** ** The operations *)

Inductive pts_op :=
| Op_alloc (kz : bool) (vm : vmalloc_nodes) (o : option ptsserver_alloc_para)
| Op_bind (kz : bool) (vm : vmalloc_nodes) (id : Z) (o : option ptsserver_alloc_para)
| Op_set_mode (id : Z) (b : bool)
| Op_first_offset (id : Z) (o : start_offset)
| Op_checkin (id : Z) (ci : checkin_pts_size) (isOffset : bool)
| Op_checkout (id : Z) (co : checkout_pts_offset)
| Op_peek (id : Z) (co : checkout_pts_offset)
| Op_rec_num (id val : Z)
| Op_last_checkin (id : Z)
| Op_last_checkout (id : Z)
| Op_trick_mode (id mode : Z)
| Op_reset (id : Z)
| Op_release (id : Z)
| Op_list_size (id : Z)
| Op_checkin_apts (id : Z) (ai : checkin_apts_size)
| Op_checkout_apts (id : Z) (co : checkout_apts_offset)
| Op_audio_margin (id margin : Z).

Definition srv_forget {A} (m : V A) : V unit := m;; mret tt.

Definition srv_run (op : pts_op) : V unit :=
  match op with
  | Op_alloc kz vm o => srv_forget (ptsserver_ins_alloc kz vm o)
  | Op_bind kz vm id o => srv_forget (ptsserver_static_ins_binder kz vm id o)
  | Op_set_mode id b => ptsserver_set_mode id b
  | Op_first_offset id o => srv_forget (ptsserver_set_first_checkin_offset id o)
  | Op_checkin id ci b => srv_forget (ptsserver_checkin_pts_size id ci b)
  | Op_checkout id co => srv_forget (ptsserver_checkout_pts_offset id co)
  | Op_peek id co => srv_forget (ptsserver_peek_pts_offset id co)
  | Op_rec_num id val => srv_forget (ptsserver_check_rec_num_enough id val)
  | Op_last_checkin id => srv_forget (ptsserver_get_last_checkin_pts id)
  | Op_last_checkout id => srv_forget (ptsserver_get_last_checkout_pts id)
  | Op_trick_mode id mode => srv_forget (ptsserver_set_trick_mode id mode)
  | Op_reset id => srv_forget (ptsserver_ins_reset id)
  | Op_release id => srv_forget (ptsserver_ins_release id)
  | Op_list_size id => srv_forget (ptsserver_get_list_size id)
  | Op_checkin_apts id ai => srv_forget (ptsserver_checkin_apts_size id ai)
  | Op_checkout_apts id co => srv_forget (ptsserver_checkout_apts_offset id co)
  | Op_audio_margin id margin => srv_forget (ptsserver_set_audio_offset_margin id margin)
  end.

(** An instance is created with room for at least one node, and memory comes
    in the size asked for; a checkout that would be the 2^32-th failed one in
    a row divides by 0; the number of recorded offsets is asked of a slot in
    use only. *)
Definition srv_valid (op : pts_op) (l : ins_list) : Prop :=
  match op with
  | Op_alloc _ vm o | Op_bind _ vm _ o => para_ok o ∧ vm_ok vm
  | Op_checkout id _ => ∀ s, aget l id = Some (Some s) → divisor_ok s
  | Op_rec_num id _ => 0 ≤ id < MAX_INSTANCE_NUM → used l id
  | _ => True
  end.

Inductive srv_reachable : ins_list → Prop :=
| reach_init l : ptsserver_init (replicate (Z.to_nat MAX_INSTANCE_NUM) None) = Ok 0 l → srv_reachable l
| reach_op l op l' : srv_reachable l → srv_valid op l → srv_run op l = Ok tt l' → srv_reachable l'.

Lemma srv_forget_wp {A} (m : V A) l : wp False m (fun _ => srv_ok) (fun _ _ => False) l → wp False (srv_forget m) (fun _ => srv_ok) (fun _ _ => False) l.
Proof. intros Hm. unfold srv_forget. wp_step. eapply wp_mono; [exact Hm| |done]. intros a l' Hl. by wp_step. Qed.

(** A setting changes fields that are not the lists. *)
Lemma modify_safe f s : ins_ok s → same_lists s (f s) → safe (modify f) s.
Proof. intros Hs Hf. unfold safe. wp_step. by eapply ins_ok_same. Qed.

Lemma modify_ret_safe {A} f (a : A) s : ins_ok s → same_lists s (f s) → safe (modify f;; mret a) s.
Proof. intros Hs Hf. unfold safe. wp_step. wp_step. wp_step. by eapply ins_ok_same. Qed.

Lemma srv_run_ok op l : srv_ok l → srv_valid op l → wp False (srv_run op) (fun _ => srv_ok) (fun _ _ => False) l.
Proof.
  intros Hl Hv. destruct op; cbn [srv_run srv_valid] in *; try apply srv_forget_wp.
  - destruct Hv. eapply wp_mono; [by apply ins_alloc_wp| |done]. by intros r l' [? _].
  - destruct Hv. by apply static_ins_binder_wp.
  - apply on_instance_ok; [done|]. intros s _ Hs. apply modify_safe; [done|]. by destruct b.
  - apply on_instance_ok; [done|]. intros s _ Hs. by apply modify_ret_safe.
  - apply on_instance_ok; [done|]. intros s _ Hs. by apply checkin_pts_safe.
  - apply on_instance_ok; [done|]. intros s Hi Hs. eapply wp_mono; [by apply checkout_pts_wp; [|apply Hv]| |done]. by intros r s' [? _].
  - apply on_instance_ok; [done|]. intros s _ Hs. eapply wp_mono; [by apply peek_pts_wp| |done]. intros r s'. by apply peeked_ok.
  - eapply wp_mono; [by apply check_rec_wp| |done]. by intros r l' ->.
  - apply on_instance_ok; [done|]. intros s _ Hs. unfold safe. by repeat wp_step.
  - apply on_instance_ok; [done|]. intros s _ Hs. unfold safe. by repeat wp_step.
  - apply on_instance_ok; [done|]. intros s _ Hs. by apply modify_ret_safe.
  - by apply ins_reset_wp.
  - by apply ins_release_wp.
  - apply on_server_ok; [done|]. intros s Hs _. unfold safe. by repeat wp_step.
  - apply on_server_ok; [done|]. intros s Hs _. by apply checkin_apts_safe.
  - apply on_server_ok; [done|]. intros s Hs _. eapply wp_mono; [by apply checkout_apts_wp| |done]. by intros r s' [? _].
  - apply on_server_ok; [done|]. intros s Hs _. by apply modify_ret_safe.
Qed.

Lemma srv_reachable_ok l : srv_reachable l → srv_ok l.
Proof.
  induction 1 as [l H|l op l' Hr IH Hv H].
  - vm_compute in H. injection H as <-. split; [done|]. by repeat constructor.
  - pose proof (srv_run_ok op l IH Hv) as Hw. unfold wp in Hw. by rewrite H in Hw.
Qed.

(** An operation on the instance of a slot. *)
Lemma on_instance_run {A} l i (fail : A) (m : I A) s a s' : aget l i = Some (Some s) → zlen l = MAX_INSTANCE_NUM → m s = Ok a s' →
  on_instance i fail m l = Ok a (<[Z.to_nat i := Some s']> l).
Proof.
  intros Hi Hl Hm. pose proof (aget_inv _ _ _ Hi) as [Hr _]. rewrite Hl in Hr. unfold on_instance.
  rewrite (proj2 (Z.ltb_ge i 0)), (proj2 (Z.leb_gt MAX_INSTANCE_NUM i)) by lia. cbn [orb].
  unfold mbind, V_bind, M_bind, get. cbn. rewrite Hi. cbn. unfold zoom. by rewrite Hm.
Qed.

(** ** What the server promises *)

(** C4: Whatever sequence of operations that keeps to the rules of
    [srv_valid] follows the initialisation, the next one runs: no node is used
    that the instance does not have, no list is walked astray, nothing is
    divided by 0.  In every instance each node of the array is in exactly one
    of the two lists, [mListSize] is the length of [pts_list] and at most
    [mMaxCount]. *)
Theorem pts_reachable_safe l : srv_reachable l →
  (∀ op, srv_valid op l → ∃ l', srv_run op l = Ok tt l' ∧ srv_reachable l') ∧ zlen l = MAX_INSTANCE_NUM ∧
  ∀ i s, aget l i = Some (Some s) →
    pts_list s ++ pts_free_list s ≡ₚ seqZ 0 (zlen (all_free_ptn s)) ∧ NoDup (pts_list s) ∧
    mListSize s = zlen (pts_list s) ∧ mListSize s ≤ mMaxCount s.
Proof.
  intros Hr. pose proof (srv_reachable_ok _ Hr) as Hl. split; [|split; [apply Hl|]].
  - intros op Hv. pose proof (srv_run_ok op l Hl Hv) as Hw. unfold wp in Hw. destruct (srv_run op l) as [[] l'|?|] eqn:E; [|done|done].
    exists l'. split; [done|]. by eapply reach_op.
  - intros i s Hi. pose proof (srv_slot _ _ _ Hl Hi) as Hs. split; [apply Hs|]. split; [by apply list_nodup|]. split; [apply Hs|].
    by apply size_bound.
Qed.

(** C37: Checking in a frame of an instance that has nodes: the new node has
    the offset given, or the end of the last piece, and the time stamps; the
    list keeps its other nodes in their order, all of them when it was not
    full; in C2 mode a list in the order of the time stamps stays so. *)
Theorem checkin_pts_spec l id s ci b : srv_reachable l → aget l id = Some (Some s) → all_free_ptn s ≠ [] → ci_pts ci ≠ 0 →
  ∃ s' p l1 l2, ptsserver_checkin_pts_size id ci b l = Ok 0 (<[Z.to_nat id := Some s']> l) ∧
    pts_list s' = l1 ++ p :: l2 ∧ l1 ++ l2 `sublist_of` pts_list s ∧ (mListSize s < mMaxCount s → l1 ++ l2 = pts_list s) ∧
    (∃ n, aget (all_free_ptn s') p = Some n ∧ n_pts_90k n = ci_pts ci ∧ n_pts_64 n = ci_pts_64 ci ∧
       n_offset n = if b then ci_size ci else u32 (mLastCheckinPieceOffset s + mLastCheckinPieceSize s)) ∧
    (∀ q, q ∈ l1 ++ l2 → aget (all_free_ptn s') q = aget (all_free_ptn s) q) ∧
    (setC2Mode s = true → in_order s → in_order s').
Proof.
  intros Hr Hi Hne Hc. pose proof (srv_reachable_ok _ Hr) as Hl. pose proof (srv_slot _ _ _ Hl Hi) as Hs.
  pose proof (checkin_pts_wp ci b s Hs) as Hw. unfold wp in Hw. destruct (checkin_pts ci b s) as [r s'|?|] eqn:E; [|done|done].
  destruct Hw as [Hs' Hp]. rewrite (proj2 (Z.eqb_neq _ _) Hc) in Hp. destruct Hp as [[-> [p Hf]]|[_ ?]]; [|done].
  pose proof Hf as [(k & Hk1 & Hk2 & Hk3 & l1 & l2 & -> & El & _) Hptr En _]. exists s', p, l1, l2.
  split; [eapply on_instance_run; [done|apply Hl|done]|]. split; [done|]. split; [done|]. split; [done|]. rewrite En. split.
  { exists (frame_node s ci b). by rewrite aget_insert. }
  split; [|intros H1 H2; exact (framed_in_order s s' ci b p Hs H1 Hf H2)].
  intros q Hq. apply aget_insert_ne; [apply Hptr|by intros ->].
Qed.

(** C38: A checkout answers 0 with a time stamp from one of four sources: a
    node, which leaves the list; in C2 mode the last answer again; in C2 mode
    before the first checkout, when the walk has dropped every node of the
    list, whatever time stamp the caller passed in (it then counts as the last
    answer); or the last answer and a frame duration, -1 before the first.
    When the offset decides (offset mode, or no checkout yet) and exactly one
    node lies within the threshold in front of the offset, its time stamp is
    the answer. *)
Theorem checkout_pts_spec l id s co : srv_reachable l → aget l id = Some (Some s) → divisor_ok s →
  ∃ out s', ptsserver_checkout_pts_offset id co l = Ok (0, out) (<[Z.to_nat id := Some s']> l) ∧
    ((∃ p, served s co p out s') ∨ repeated s co out s' ∨ echoed s co out s' ∨ guessed s co out s') ∧
    (∀ p n, Z.land 4294967295 (co_offset co) ≠ NO_OFFSET → by_offset s → unique_candidate s (Z.land 4294967295 (co_offset co)) p →
       aget (all_free_ptn s) p = Some n → n_pts_90k n ≠ MINUS_1 → served s co p out s') ∧
    (in_order s → in_order s').
Proof.
  intros Hr Hi Hd. pose proof (srv_reachable_ok _ Hr) as Hl. pose proof (srv_slot _ _ _ Hl Hi) as Hs.
  pose proof (checkout_pts_wp s co Hs Hd) as Hw. unfold wp in Hw. destruct (checkout_pts co s) as [[r out] s'|?|] eqn:E; [|done|done].
  destruct Hw as (Hs' & Hr0 & Hsub & Hn & Hor & Hu). cbn in *. subst r. exists out, s'.
  split; [eapply on_instance_run; [done|apply Hl|done]|]. split; [done|]. split.
  - intros p n H1 H2 H3 H4 H5. by apply (Hu H1 H2 p n).
  - by apply shrunk_in_order.
Qed.

(** C8: What is checked in is checked out: a frame checked in at an offset,
    into an instance with room and in which the offset decides, is what a
    checkout at a later offset within the threshold returns, when no other
    node competes. *)
Theorem checkin_checkout l id s ci co : srv_reachable l → aget l id = Some (Some s) → divisor_ok s → all_free_ptn s ≠ [] →
  mListSize s < mMaxCount s → by_offset s → 0 < ci_pts ci < 2 ^ 32 →
  let cur := Z.land 4294967295 (co_offset co) in
  cur ≠ NO_OFFSET → ci_size ci < cur → u32 (abs32 (cur - ci_size ci)) ≤ mLookupThreshold s →
  (∀ q, q ∈ pts_list s → ¬ candidate s cur q) →
  ∃ l1 l2, ptsserver_checkin_pts_size id ci true l = Ok 0 l1 ∧
    ptsserver_checkout_pts_offset id co l1 = Ok (0, co <| co_pts := ci_pts ci |> <| co_pts_64 := ci_pts_64 ci |>) l2.
Proof.
  intros Hr Hi Hd Hne Hroom Hby Hpts cur Hcur Hlt Hth Hno. pose proof (srv_reachable_ok _ Hr) as Hl. pose proof (srv_slot _ _ _ Hl Hi) as Hs.
  pose proof (checkin_pts_wp ci true s Hs) as Hw. unfold wp in Hw. destruct (checkin_pts ci true s) as [r s1|?|] eqn:E; [|done|done].
  destruct Hw as [Hs1 Hp]. rewrite (proj2 (Z.eqb_neq (ci_pts ci) 0)) in Hp by lia. destruct Hp as [[-> [p Hf]]|[_ Hemp]]; [|done].
  destruct Hf as [(k & _ & Hk & Hpk & Hpl) Hptr En Em]. rewrite (Hk Hroom) in *. pose proof (placed_perm _ _ _ _ _ Hpl) as Hperm.
  injection Em as M1 M2 M3 M4 M5 M6.
  assert (aget (all_free_ptn s1) p = Some (frame_node s ci true)) as Hnp by (rewrite En; by apply aget_insert).
  assert (unique_candidate s1 cur p) as Huq.
  { split; [rewrite Hperm; left|]. split; [exists (frame_node s ci true); rewrite M4; by split|]. intros q. rewrite Hperm.
    intros [->|Hq]%elem_of_cons (m & Hm & H1 & H2); [done|]. destruct (Hno q Hq). exists m. rewrite M4 in H2. split; [|done].
    rewrite En, aget_insert_ne in Hm; [done|apply Hptr|by intros ->]. }
  assert (divisor_ok s1) as Hd1 by (unfold divisor_ok; by rewrite M6).
  assert (by_offset s1) as Hby1 by (unfold by_offset; by rewrite M2, M5).
  pose proof (checkout_pts_wp s1 co Hs1 Hd1) as Hw. unfold wp in Hw. destruct (checkout_pts co s1) as [[r out] s2|?|] eqn:E2; [|done|done].
  destruct Hw as (_ & Hr0 & _ & _ & _ & Hu). cbn in Hr0. subst r.
  destruct (Hu Hcur Hby1 p _ Huq Hnp) as (_ & _ & _ & (m & Hm & Ho) & _); [cbn; unfold MINUS_1; lia|].
  exists (<[Z.to_nat id := Some s1]> l), (<[Z.to_nat id := Some s2]> (<[Z.to_nat id := Some s1]> l)).
  split; [eapply on_instance_run; [done|apply Hl|done]|]. replace m with (frame_node s ci true) in Ho by congruence.
  cbn [frame_node n_pts_90k n_pts_64] in Ho. rewrite u32_id in Ho by lia. rewrite <- Ho.
  apply aget_inv in Hi as [Hi _]. eapply on_instance_run; [by apply aget_insert| |done]. etrans; [apply zlen_insert|apply Hl].
Qed.

(** Creating an instance takes the first free of the slots 0 to 8, whose
    number is the identifier, for an empty instance with one reference.  When
    they are all in use the tenth dynamic slot is not taken: the call returns
    0, without an identifier, and with an instance no slot holds. *)
Theorem ins_alloc_spec l kz vm o : srv_reachable l → para_ok o → vm_ok vm →
  ∃ r l', ptsserver_ins_alloc kz vm o l = Ok r l' ∧ srv_reachable l' ∧
    if kz then
      (∃ i s, 0 ≤ i < 9 ∧ aget l i = Some None ∧ (∀ k, 0 ≤ k < i → used l k) ∧ r = (0, Some i, Some (Ins_slot i)) ∧
         l' = <[Z.to_nat i := Some s]> l ∧ pts_list s = [] ∧ mPtsServerInsId s = i ∧ mRef s = 1) ∨
      ((∀ k, 0 ≤ k < 9 → used l k) ∧ r = (0, None, Some Ins_unlisted) ∧ l' = l)
    else r = (-1, None, None) ∧ l' = l.
Proof.
  intros Hr Ho Hvm. pose proof (srv_reachable_ok _ Hr) as Hl. pose proof (ins_alloc_wp kz vm o l Hl Ho Hvm) as Hw. unfold wp in Hw.
  destruct (ptsserver_ins_alloc kz vm o l) as [r l'|?|] eqn:E; [|done|done]. destruct Hw as [Hl' Hp]. exists r, l'. split; [done|]. split.
  - eapply (reach_op l (Op_alloc kz vm o)); [done|by split|]. cbn. unfold srv_forget, mbind, V_bind, M_bind. by rewrite E.
  - unfold alloc_post in Hp. destruct kz; [|done]. destruct Hp as [(i & H1 & H2 & H3 & H4 & s & _ & H5 & H6 & H7 & H8)|?]; [|by right].
    left. by exists i, s.
Qed.

(** An audio checkout answers 0 with the time stamp of a node within the
    threshold (the margin, when set), which leaves the list, and does so when
    there is one and their time stamps are valid; otherwise the first call
    answers the first time stamp checked in, and later ones -1. *)
Theorem checkout_apts_spec i l id s co : srv_reachable l → index_from 0 l id = i → aget l i = Some (Some s) →
  let cur := Z.land 4294967295 (ao_offset co) in
  ∃ out s', ptsserver_checkout_apts_offset id co l = Ok (0, out) (<[Z.to_nat i := Some s']> l) ∧
    ((∃ p, aserved s cur co p out s') ∨
     (mPtsCheckoutStarted s = 0 ∧ ao_pts_90k out = mFirstCheckinPts90k s ∧ ao_pts_64 out = mFirstCheckinPts64 s) ∨
     (mPtsCheckoutStarted s ≠ 0 ∧ ao_pts_90k out = MINUS_1 ∧ ao_pts_64 out = MINUS_1)) ∧
    (∀ p, cur ≠ NO_OFFSET → p ∈ pts_list s → near s cur (athreshold s) p →
       (∀ q n, q ∈ pts_list s → near s cur (athreshold s) q → aget (all_free_ptn s) q = Some n → n_pts_64 n ≠ MINUS_1) →
       ∃ q, aserved s cur co q out s').
Proof.
  intros Hr Hid Hi cur. pose proof (srv_reachable_ok _ Hr) as Hl. pose proof (srv_slot _ _ _ Hl Hi) as Hs.
  pose proof (checkout_apts_wp s co Hs) as Hw. unfold wp in Hw. destruct (checkout_apts co s) as [[r out] s'|?|] eqn:E; [|done|done].
  destruct Hw as (_ & Hr0 & _ & Hor & Hu). cbn in Hr0, Hor, Hu. subst r. exists out, s'. split.
  - unfold ptsserver_checkout_apts_offset, on_server, get_index_from_ptsserver_id, mbind, V_bind, M_bind, get. cbn. rewrite Hid.
    eapply on_instance_run; [done|apply Hl|done].
  - split.
    + destruct Hor as [(p & Hp & _)|[?|(? & ? & ? & _)]]; [left; by exists p|by right; left|by right; right].
    + intros p H1 H2 H3 H4. apply Hu; [done|by exists p|done].
Qed.

(** Further audio check-ins do not touch the first time stamp. *)
Fixpoint audio_checkins (id : Z) (ais : list checkin_apts_size) : V unit :=
  match ais with
  | [] => mret tt
  | ai :: ais => ptsserver_checkin_apts_size id ai;; audio_checkins id ais
  end.

(** The slot of an identifier is where it was when the instance keeps it. *)
Lemma index_from_set l id s s' : ∀ k i, aget l i = Some (Some s) → mPtsServerInsId s' = mPtsServerInsId s →
  index_from k (<[Z.to_nat i := Some s']> l) id = index_from k l id.
Proof.
  induction l as [|o l IH]; intros k i Hi Hid; apply aget_inv in Hi as [Hr Hi]; [done|]. unfold zlen in Hr. cbn [length] in Hr.
  destruct (Z.to_nat i) as [|n] eqn:En.
  - injection Hi as ->. cbn [insert list_insert index_from id_is]. by rewrite Hid.
  - cbn [insert list_insert index_from]. destruct (id_is id o); [done|].
    specialize (IH (k + 1) (i - 1)). replace (Z.to_nat (i - 1)) with n in IH by lia. apply IH; [|done].
    replace (i - 1) with (Z.of_nat n) by lia. rewrite aget_nat. exact Hi.
Qed.

(** An operation on the instance with an identifier. *)
Lemma on_server_run {A} l id (fail : A) (m : I A) s a s' : aget l (index_from 0 l id) = Some (Some s) → zlen l = MAX_INSTANCE_NUM →
  m s = Ok a s' → on_server id fail m l = Ok a (<[Z.to_nat (index_from 0 l id) := Some s']> l).
Proof.
  intros Hi Hl Hm. unfold on_server, get_index_from_ptsserver_id, mbind, V_bind, M_bind, get. cbn. by eapply on_instance_run.
Qed.

(** The table with another instance in the slot of an identifier. *)
Definition put_ins (l : ins_list) (id : Z) (s : psinstance) : ins_list := <[Z.to_nat (index_from 0 l id) := Some s]> l.

Lemma put_ins_found l id s s' : aget l (index_from 0 l id) = Some (Some s) → mPtsServerInsId s' = mPtsServerInsId s →
  index_from 0 (put_ins l id s') id = index_from 0 l id ∧ aget (put_ins l id s') (index_from 0 (put_ins l id s') id) = Some (Some s') ∧
  zlen (put_ins l id s') = zlen l ∧ ∀ s2, put_ins (put_ins l id s') id s2 = put_ins l id s2.
Proof.
  intros Hi Hid. assert (index_from 0 (put_ins l id s') id = index_from 0 l id) as E by (by apply (index_from_set l id s)).
  split; [done|]. rewrite E. split; [apply aget_insert; by apply aget_inv in Hi as [? _]|]. split; [apply zlen_insert|].
  intros s2. unfold put_ins in *. rewrite E. apply list_insert_insert_eq.
Qed.

(** A check-in of a stream that has begun, or begins with it. *)
Lemma audio_checkin_run l id s ai : zlen l = MAX_INSTANCE_NUM → ins_ok s → aget l (index_from 0 l id) = Some (Some s) → all_free_ptn s ≠ [] →
  ∃ s1, ptsserver_checkin_apts_size id ai l = Ok 0 (put_ins l id s1) ∧ ins_ok s1 ∧ mPtsServerInsId s1 = mPtsServerInsId s ∧
    all_free_ptn s1 ≠ [] ∧ modes s1 = modes s ∧ mPtsCheckinStarted s1 ≠ 0 ∧
    first_pts s1 = (if mPtsCheckinStarted s =? 0 then (u32 (ai_pts_64 ai), ai_pts_90k ai) else first_pts s).
Proof.
  intros Hl Hs Hi Hne. pose proof (checkin_apts_wp ai s Hs) as Hw. unfold wp in Hw. destruct (checkin_apts ai s) as [r s1|?|] eqn:E; [|done|done].
  destruct Hw as (Hs1 & Hm & Hid & [[_ ?]|(-> & (l' & p & n & _ & _ & _ & _ & Hn & _) & Hst & Hf)]); [done|]. exists s1.
  split; [by apply (on_server_run _ _ _ _ s)|]. split; [done|]. split; [done|]. split; [|done].
  intros Ez. rewrite Ez in Hn. by apply aget_inv in Hn as [_ Hn].
Qed.

(** Any number of them. *)
Lemma audio_checkins_run id ais : ∀ l s, zlen l = MAX_INSTANCE_NUM → ins_ok s → aget l (index_from 0 l id) = Some (Some s) →
  all_free_ptn s ≠ [] → mPtsCheckinStarted s ≠ 0 →
  ∃ s1, audio_checkins id ais l = Ok tt (put_ins l id s1) ∧ ins_ok s1 ∧ mPtsServerInsId s1 = mPtsServerInsId s ∧ modes s1 = modes s ∧
    first_pts s1 = first_pts s.
Proof.
  induction ais as [|ai ais IH]; intros l s Hl Hs Hi Hne Hst.
  - exists s. apply aget_inv in Hi as [_ Hi]. assert (put_ins l id s = l) as -> by (exact (list_insert_id _ _ _ Hi)). done.
  - destruct (audio_checkin_run l id s ai Hl Hs Hi Hne) as (s1 & H1 & Hs1 & Hid1 & Hne1 & Hm1 & Hst1 & Hf1).
    rewrite (proj2 (Z.eqb_neq _ _)) in Hf1 by done. destruct (put_ins_found l id s s1 Hi Hid1) as (_ & P2 & P3 & P4).
    destruct (IH (put_ins l id s1) s1) as (s2 & H2 & Hs2 & Hid2 & Hm2 & Hf2); [by rewrite P3|done|done|done|done|].
    rewrite P4 in H2. exists s2. split; [cbn [audio_checkins]; unfold mbind, V_bind, M_bind; rewrite H1; exact H2|].
    split; [done|]. repeat split; congruence.
Qed.

(** C39: The first 64 bit time stamp of an audio stream is kept in 32 bits,
    and later ones leave it alone: after any number of check-ins, when the
    first checkout of the stream finds no node within the threshold, its answer
    is the time stamp of the first check-in modulo 2^32. *)
Theorem apts_first_truncated l id s ai ais co : srv_reachable l → aget l (index_from 0 l id) = Some (Some s) → all_free_ptn s ≠ [] →
  mPtsCheckinStarted s = 0 → mPtsCheckoutStarted s = 0 →
  ∃ s1, audio_checkins id (ai :: ais) l = Ok tt (put_ins l id s1) ∧
    ((∀ p, p ∈ pts_list s1 → ¬ near s1 (Z.land 4294967295 (ao_offset co)) (athreshold s1) p) →
      ∃ s2 out, ptsserver_checkout_apts_offset id co (put_ins l id s1) = Ok (0, out) (put_ins l id s2) ∧
        ao_pts_64 out = u32 (ai_pts_64 ai) ∧ ao_pts_90k out = ai_pts_90k ai).
Proof.
  intros Hr Hi Hne Hst Hco. pose proof (srv_reachable_ok _ Hr) as Hl. pose proof (srv_slot _ _ _ Hl Hi) as Hs.
  assert (zlen l = MAX_INSTANCE_NUM) as Hz by apply Hl.
  destruct (audio_checkin_run l id s ai Hz Hs Hi Hne) as (s1 & H1 & Hs1 & Hid1 & Hne1 & Hm1 & Hst1 & Hf1). rewrite Hst in Hf1. cbn [Z.eqb] in Hf1.
  destruct (put_ins_found l id s s1 Hi Hid1) as (_ & P2 & P3 & P4).
  destruct (audio_checkins_run id ais (put_ins l id s1) s1) as (s2 & H2 & Hs2 & Hid2 & Hm2 & Hf2); [by rewrite P3|done|done|done|done|].
  rewrite P4 in H2. exists s2. split; [cbn [audio_checkins]; unfold mbind, V_bind, M_bind; rewrite H1; exact H2|]. intros Hno.
  destruct (put_ins_found l id s s2 Hi) as (_ & Q2 & Q3 & Q4); [congruence|].
  pose proof (checkout_apts_wp s2 co Hs2) as Hw. unfold wp in Hw. destruct (checkout_apts co s2) as [[r out] s3|?|] eqn:E; [|done|done].
  destruct Hw as (_ & Hr0 & _ & Hor & _). cbn in Hr0, Hor. subst r. exists s3, out.
  split; [rewrite <- (Q4 s3); apply (on_server_run (put_ins l id s2) id _ _ s2 _ s3); [exact Q2|by rewrite Q3|exact E]|].
  rewrite Hf1 in Hf2. injection Hf2 as <- <-. rewrite Hm1 in Hm2. injection Hm2 as _ _ _ _ M5 _.
  destruct Hor as [(p & (Hp & Hnear & _) & _)|[(_ & -> & ->)|(Hn & _)]]; [by destruct (Hno p Hp)|done|congruence].
Qed.

(** ** Examples *)

(** A checker of the rules, for the allocations of [demo_vm]. *)
Definition valid_b (op : pts_op) (l : ins_list) : bool :=
  match op with
  | Op_alloc _ _ (Some a) => (1 <=? p_mMaxCount a) && (p_mMaxCount a <? 2 ^ 32)
  | Op_checkout id _ => match aget l id with Some (Some s) => negb (u32 (mPtsCheckoutFailCount s + 1) =? 0) | _ => true end
  | Op_alloc _ _ None | Op_bind _ _ _ _ | Op_rec_num _ _ => false
  | _ => true
  end.

Definition alloc_vm_ok (op : pts_op) : Prop := match op with Op_alloc _ vm _ => vm_ok vm | _ => True end.

Lemma valid_b_ok op l : alloc_vm_ok op → valid_b op l = true → srv_valid op l.
Proof.
  destruct op; cbn -[u32]; try done.
  - intros Hv. destruct o; [|done]. intros H. bprop. split; [cbn; lia|done].
  - intros _ H s Hs. rewrite Hs in H. unfold divisor_ok. by bprop.
Qed.

(** The table after some operations. *)
Fixpoint play (ops : list pts_op) (l : ins_list) : option ins_list :=
  match ops with
  | [] => Some l
  | op :: ops => if valid_b op l then match srv_run op l with Ok _ l' => play ops l' | _ => None end else None
  end.

Lemma play_reachable ops l l' : Forall alloc_vm_ok ops → srv_reachable l → play ops l = Some l' → srv_reachable l'.
Proof.
  intros Hv. revert l. induction Hv as [|op ops Hop Hv IH]; intros l Hr; cbn.
  - by intros [= <-].
  - destruct (valid_b op l) eqn:Hb; [|done]. destruct (srv_run op l) as [[] l1|?|] eqn:E; [|done|done].
    apply IH. eapply reach_op; [done|by apply valid_b_ok|done].
Qed.

Definition demo_vm : vmalloc_nodes := fun n => Some (replicate (Z.to_nat n) (mk_ptn 0 0 0 0 0 0)).

Lemma demo_vm_ok : vm_ok demo_vm.
Proof. intros n l Hn [= <-]. unfold zlen. rewrite length_replicate. lia. Qed.

(** An instance with room for two nodes. *)
Definition demo_alloc : pts_op := Op_alloc true demo_vm (Some (mk_para 2 2500 5)).

Definition empty_table : ins_list := replicate (Z.to_nat MAX_INSTANCE_NUM) None.

Definition demo (ops : list pts_op) : ins_list := default [] (play ops empty_table).

Definition demo_slot (ops : list pts_op) (i : Z) : psinstance := default ins_zero (mjoin (aget (demo ops) i)).

Lemma demo_reachable ops : Forall alloc_vm_ok ops → play ops empty_table = Some (demo ops) → srv_reachable (demo ops).
Proof. intros Hv H. apply (play_reachable ops empty_table); [exact Hv|apply reach_init; vm_compute; reflexivity|exact H]. Qed.

Ltac demo_reach := apply demo_reachable; [repeat constructor; exact demo_vm_ok|vm_compute; reflexivity].

(** Two frames checked in, the first one checked out. *)
Definition demo_frames : list pts_op :=
  [demo_alloc; Op_checkin 0 (mk_checkin 1000 90000 1000000) true; Op_checkin 0 (mk_checkin 2000 93600 1040000) true;
   Op_checkout 0 (mk_checkout 1500 0 0)].

Lemma pts_reachable_safe_witness : srv_reachable (demo demo_frames) ∧
  mListSize (demo_slot demo_frames 0) = 1 ∧ mListSize (demo_slot demo_frames 0) ≤ mMaxCount (demo_slot demo_frames 0) ∧
  ∃ l', srv_run (Op_checkout 0 (mk_checkout 2500 0 0)) (demo demo_frames) = Ok tt l'.
Proof.
  assert (srv_reachable (demo demo_frames)) as Hr by demo_reach.
  destruct (pts_reachable_safe _ Hr) as (H1 & _ & H3). split; [exact Hr|]. split; [vm_compute; reflexivity|]. split.
  - apply (H3 0). vm_compute. reflexivity.
  - destruct (H1 (Op_checkout 0 (mk_checkout 2500 0 0))) as (l' & Hl' & _); [|by exists l'].
    apply valid_b_ok; [exact Logic.I|vm_compute; reflexivity].
Defined.

Lemma checkin_pts_spec_witness : ∃ s' p, ptsserver_checkin_pts_size 0 (mk_checkin 1000 90000 1000000) true (demo [demo_alloc]) =
  Ok 0 (<[0%nat := Some s']> (demo [demo_alloc])) ∧ pts_list s' = [p].
Proof.
  assert (srv_reachable (demo [demo_alloc])) as Hr by demo_reach.
  destruct (checkin_pts_spec (demo [demo_alloc]) 0 (demo_slot [demo_alloc] 0) (mk_checkin 1000 90000 1000000) true Hr)
    as (s' & p & l1 & l2 & H1 & H2 & _ & H3 & _); [vm_compute; reflexivity|vm_compute; discriminate|vm_compute; discriminate|].
  assert (l1 ++ l2 = []) as [-> ->]%app_eq_nil by (rewrite H3; [vm_compute; reflexivity|vm_compute; reflexivity]).
  exists s', p. split; [exact H1|exact H2].
Defined.

Lemma checkout_pts_spec_witness : ∃ s', ptsserver_checkout_pts_offset 0 (mk_checkout 2500 0 0) (demo demo_frames) =
  Ok (0, mk_checkout 2500 93600 1040000) (<[0%nat := Some s']> (demo demo_frames)).
Proof.
  assert (srv_reachable (demo demo_frames)) as Hr by demo_reach.
  destruct (checkout_pts_spec (demo demo_frames) 0 (demo_slot demo_frames 0) (mk_checkout 2500 0 0) Hr) as (out & s' & H & _);
    [vm_compute; reflexivity|vm_compute; discriminate|]. exists s'. replace (mk_checkout 2500 93600 1040000) with out; [exact H|].
  pose proof (f_equal (fun r => match r with Ok (_, o) _ => Some o | _ => None end) H) as Ho. vm_compute in Ho. by injection Ho as <-.
Defined.

Lemma checkin_checkout_witness : ∃ l1 l2,
  ptsserver_checkin_pts_size 0 (mk_checkin 1000 90000 1000000) true (demo [demo_alloc]) = Ok 0 l1 ∧
  ptsserver_checkout_pts_offset 0 (mk_checkout 1500 0 0) l1 = Ok (0, mk_checkout 1500 90000 1000000) l2.
Proof.
  assert (srv_reachable (demo [demo_alloc])) as Hr by demo_reach.
  destruct (checkin_checkout (demo [demo_alloc]) 0 (demo_slot [demo_alloc] 0) (mk_checkin 1000 90000 1000000) (mk_checkout 1500 0 0) Hr)
    as (l1 & l2 & H1 & H2).
  - vm_compute. reflexivity.
  - vm_compute. discriminate.
  - vm_compute. discriminate.
  - vm_compute. reflexivity.
  - right. vm_compute. reflexivity.
  - cbn. lia.
  - vm_compute. discriminate.
  - vm_compute. reflexivity.
  - vm_compute. discriminate.
  - intros q. replace (pts_list (demo_slot [demo_alloc] 0)) with ([] : list Z) by (vm_compute; reflexivity). by intros ?%elem_of_nil.
  - exists l1, l2. split; [exact H1|exact H2].
Defined.

(** All nine dynamic slots in use. *)
Lemma ins_alloc_spec_witness : ∃ r l', ptsserver_ins_alloc true demo_vm (Some (mk_para 2 2500 5)) (demo (replicate 9 demo_alloc)) = Ok r l' ∧
  r = (0, None, Some Ins_unlisted) ∧ aget l' 9 = Some None.
Proof.
  assert (srv_reachable (demo (replicate 9 demo_alloc))) as Hr by demo_reach.
  destruct (ins_alloc_spec (demo (replicate 9 demo_alloc)) true demo_vm (Some (mk_para 2 2500 5)) Hr) as (r & l' & H1 & _ & H2);
    [cbn; lia|exact demo_vm_ok|]. exists r, l'. split; [exact H1|].
  destruct H2 as [(i & s & Hi & Hn & _)|(_ & -> & ->)].
  - exfalso. assert (i = 0 ∨ i = 1 ∨ i = 2 ∨ i = 3 ∨ i = 4 ∨ i = 5 ∨ i = 6 ∨ i = 7 ∨ i = 8) as Hin by lia.
    destruct_or! Hin; rewrite Hin in Hn; vm_compute in Hn; discriminate Hn.
  - split; [reflexivity|vm_compute; reflexivity].
Defined.

Lemma checkout_apts_spec_witness : ∃ out s', ptsserver_checkout_apts_offset 0 (mk_acheckout 1500 0 0) (demo [demo_alloc]) =
  Ok (0, out) (<[0%nat := Some s']> (demo [demo_alloc])).
Proof.
  assert (srv_reachable (demo [demo_alloc])) as Hr by demo_reach.
  destruct (checkout_apts_spec 0 (demo [demo_alloc]) 0 (demo_slot [demo_alloc] 0) (mk_acheckout 1500 0 0) Hr) as (out & s' & H & _);
    [vm_compute; reflexivity|vm_compute; reflexivity|]. exists out, s'. exact H.
Defined.

(** A time stamp above 2^32 microseconds and one more frame, and a checkout far
    away. *)
Lemma apts_first_truncated_witness : ∃ s1 s2 out,
  audio_checkins 0 [mk_acheckin 1000 100 386547057 (2 ^ 32 + 5); mk_acheckin 1100 100 386547957 (2 ^ 32 + 10005)] (demo [demo_alloc])
    = Ok tt (put_ins (demo [demo_alloc]) 0 s1) ∧
  ptsserver_checkout_apts_offset 0 (mk_acheckout 100000 0 0) (put_ins (demo [demo_alloc]) 0 s1) = Ok (0, out) (put_ins (demo [demo_alloc]) 0 s2) ∧
  ao_pts_64 out = 5.
Proof.
  assert (srv_reachable (demo [demo_alloc])) as Hr by demo_reach.
  destruct (apts_first_truncated (demo [demo_alloc]) 0 (demo_slot [demo_alloc] 0) (mk_acheckin 1000 100 386547057 (2 ^ 32 + 5))
    [mk_acheckin 1100 100 386547957 (2 ^ 32 + 10005)] (mk_acheckout 100000 0 0) Hr)
    as (s1 & H1 & H2); [vm_compute; reflexivity|vm_compute; discriminate|vm_compute; reflexivity|vm_compute; reflexivity|].
  exists s1. destruct H2 as (s2 & out & H3 & H4 & _).
  - pose (r := audio_checkins 0 [mk_acheckin 1000 100 386547057 (2 ^ 32 + 5); mk_acheckin 1100 100 386547957 (2 ^ 32 + 10005)] (demo [demo_alloc])).
    assert (s1 = match r with Ok _ l => default ins_zero (mjoin (aget l 0)) | _ => ins_zero end) as ->.
    { unfold r. rewrite H1. reflexivity. }
    intros p Hp. replace (pts_list _) with ([0; 1] : list Z) in Hp by (vm_compute; reflexivity).
    apply elem_of_cons in Hp as [->|Hp%list_elem_of_singleton]; [|subst p];
      intros (n & Hn & Hle); vm_compute in Hn; injection Hn as <-; vm_compute in Hle; by destruct Hle.
  - exists s2, out. split; [exact H1|]. split; [exact H3|]. rewrite H4. vm_compute. reflexivity.
Defined.
