(* ===== verification/H264Sort.v ===== *)
(** Sorting of reference lists (src/drivers/frame_provider/decoder/
    h264_multi/h264_dpb.c, [swap], [shortsort] and [qsort]): a quicksort with
    a stack of its own, on an array of pointers.

    Pointers into the array are indices; an element is moved as a whole, where
    the code moves it byte by byte.  The comparison may read through the
    elements, and is undefined ([None]) when it reads through a bad one. *)

From stdpp Require Import base list numbers sorting.
From Stdlib Require Import ZArith Lia Bool.
From S2P Require Import Prelude.

#[local] Open Scope Z_scope.

Definition CUTOFF : Z := 8.
Definition STKSIZ : Z := 62.         (** 8 * sizeof(void * ) - 2 *)

(** ** The code *)

Section Code.
Context {A : Type} (comp : A → A → option Z).

Definition Q B := M (list A) B.

Definition elt (p : Z) : Q A := l ← get; of_option (aget l p).

Definition compare (p q : Z) : Q Z := a ← elt p; b ← elt q; of_option (comp a b).

Definition store_elt (p : Z) (a : A) : Q unit := l ← get; l ← of_option (aset l p a); modify (fun _ => l).

Definition swap (a b : Z) : Q unit :=
  if a =? b then mret tt else x ← elt a; y ← elt b; store_elt a y;; store_elt b x.

(** [for (p = lo + width; p <= hi; p += width) if (comp(p, max) > 0) max = p;] *)
Definition find_max (lo hi : Z) : Q Z :=
  fold_range (lo + 1) (hi + 1) (fun p max => c ← compare p max; mret (if 0 <? c then p else max)) lo.

(** [n] turns of [while (hi > lo)]. *)
Fixpoint shortsort_loop (n : nat) (lo hi : Z) : Q unit :=
  match n with
  | O => mret tt
  | S n => max ← find_max lo hi; swap max hi;; shortsort_loop n lo (hi - 1)
  end.

Definition shortsort (lo hi : Z) : Q unit := shortsort_loop (Z.to_nat (hi - lo)) lo hi.

(** [do p += width; while (p < end && comp(p, mid) <= 0);] *)
Fixpoint scan_up (n : nat) (stop mid p : Z) : Q Z :=
  match n with
  | O => undef
  | S n =>
      let p := p + 1 in
      if p <? stop then c ← compare p mid; if c <=? 0 then scan_up n stop mid p else mret p else mret p
  end.

(** [do p -= width; while (p > stop && test(comp(p, mid)));] *)
Fixpoint scan_down (n : nat) (test : Z → bool) (stop mid p : Z) : Q Z :=
  match n with
  | O => undef
  | S n =>
      let p := p - 1 in
      if stop <? p then c ← compare p mid; if test c then scan_down n test stop mid p else mret p else mret p
  end.

(** Both scans of [loguy]; the middle element is not compared with itself. *)
Definition scans_up (m : nat) (hi mid loguy : Z) : Q Z :=
  loguy ← (if loguy <? mid then scan_up m mid mid loguy else mret loguy);
  if mid <=? loguy then scan_up m (hi + 1) mid loguy else mret loguy.

(** The loop of the partition step; [n] bounds its turns and those of the
    scans.  The result: [mid], [loguy], [higuy]. *)
Fixpoint partition_loop (n m : nat) (lo hi mid loguy higuy : Z) : Q (Z * Z * Z) :=
  match n with
  | O => undef
  | S n =>
      loguy ← scans_up m hi mid loguy;
      higuy ← scan_down m (fun c => 0 <? c) mid mid higuy;
      if higuy <? loguy then mret (mid, loguy, higuy)
      else
        swap loguy higuy;;
        partition_loop n m lo hi (if mid =? higuy then loguy else mid) loguy higuy
  end.

(** Elements equal to the middle one are left out of the lower part. *)
Definition skip_equal (m : nat) (lo mid higuy : Z) : Q Z :=
  let higuy := higuy + 1 in
  higuy ← (if mid <? higuy then scan_down m (fun c => c =? 0) mid mid higuy else mret higuy);
  if higuy <=? mid then scan_down m (fun c => c =? 0) lo mid higuy else mret higuy.

(** The ends of the two parts: [higuy] and [loguy]. *)
Definition partition (lo hi : Z) : Q (Z * Z) :=
  let size := hi - lo + 1 in
  let m := S (Z.to_nat size) in
  let mid := lo + Z.shiftr size 1 in
  c ← compare lo mid; (when (0 <? c) (swap lo mid));;
  c ← compare lo hi; (when (0 <? c) (swap lo hi));;
  c ← compare mid hi; (when (0 <? c) (swap mid hi));;
  r ← partition_loop m m lo hi mid lo hi;
  let '(mid, loguy, higuy) := r in
  higuy ← skip_equal m lo mid higuy;
  mret (higuy, loguy).

(** [lostk[stkptr] = lo; histk[stkptr] = hi; ++stkptr;] *)
Definition push (lo hi : Z) (stk : list (Z * Z)) : Q (list (Z * Z)) :=
  if STKSIZ <=? zlen stk then undef else mret ((lo, hi) :: stk).

(** From the label [recurse] on; [n] bounds the number of times it is
    reached. *)
Fixpoint sort_loop (n : nat) (lo hi : Z) (stk : list (Z * Z)) : Q unit :=
  match n with
  | O => undef
  | S n =>
      let pop stk := match stk with [] => mret tt | (lo, hi) :: stk => sort_loop n lo hi stk end in
      if hi - lo + 1 <=? CUTOFF then shortsort lo hi;; pop stk
      else
        r ← partition lo hi;
        let '(higuy, loguy) := r in
        if hi - loguy <=? higuy - lo then
          stk ← (if lo <? higuy then push lo higuy stk else mret stk);
          if loguy <? hi then sort_loop n loguy hi stk else pop stk
        else
          stk ← (if loguy <? hi then push loguy hi stk else mret stk);
          if lo <? higuy then sort_loop n lo higuy stk else pop stk
  end.

(** [qsort(base, num, width, comp)] *)
Definition qsort (base num : Z) : Q unit :=
  if num <? 2 then mret tt else sort_loop (Z.to_nat num) base (base + (num - 1)) [].
End Code.

(** ** What it does *)

Section Sorting.
Context {A : Type} (comp : A → A → option Z) (key : A → Z).

(** The comparison is that of keys. *)
Definition compares (a b : A) : Prop :=
  ∃ c, comp a b = Some c ∧ (c <= 0 ↔ key a <= key b) ∧ (c = 0 ↔ key a = key b).

Definition all_compare (l : list A) : Prop := ∀ a b, a ∈ l → b ∈ l → compares a b.

(** The elements at the places from [lo] to [hi] can be compared; nothing is
    said of the others. *)
Definition part_compare (lo hi : Z) (l : list A) : Prop :=
  ∀ i j a b, lo ≤ i ≤ hi → lo ≤ j ≤ hi → aget l i = Some a → aget l j = Some b → compares a b.

Lemma part_compare_all lo hi l : 0 ≤ lo → all_compare (take (Z.to_nat (hi + 1 - lo)) (drop (Z.to_nat lo) l)) → part_compare lo hi l.
Proof.
  intros Hlo Hc. assert (∀ i a, lo ≤ i ≤ hi → aget l i = Some a → a ∈ take (Z.to_nat (hi + 1 - lo)) (drop (Z.to_nat lo) l)) as Hin.
  { intros i a Hi [_ Ha]%aget_inv. apply (list_elem_of_lookup_2 _ (Z.to_nat (i - lo))). rewrite lookup_take_lt by lia.
    rewrite lookup_drop. rewrite <- Ha. f_equal. lia. }
  intros i j a b Hi Hj Ha Hb. apply Hc; [apply (Hin i)|apply (Hin j)]; done.
Qed.

Lemma part_compare_narrow lo hi lo' hi' l : part_compare lo hi l → lo ≤ lo' → hi' ≤ hi → part_compare lo' hi' l.
Proof. intros Hc Hlo Hhi i j a b Hi Hj. apply Hc; lia. Qed.

(** The key of an element. *)
Definition kat (l : list A) (i : Z) : Z := match aget l i with Some a => key a | None => 0 end.

Lemma kat_Some l i a : aget l i = Some a → kat l i = key a.
Proof. unfold kat. by intros ->. Qed.

Lemma kat_same l l' i : aget l' i = aget l i → kat l' i = kat l i.
Proof. unfold kat. by intros ->. Qed.

(** The elements from [lo] to [hi] are moved among themselves. *)
Record shuffled (lo hi : Z) (l l' : list A) : Prop := {
  sh_perm : l' ≡ₚ l;
  sh_out : ∀ i, i < lo ∨ hi < i → aget l' i = aget l i;
  sh_in : ∀ (P : Z → Prop), (∀ i, lo ≤ i ≤ hi → P (kat l i)) → ∀ i, lo ≤ i ≤ hi → P (kat l' i);
  sh_elem : ∀ i a, lo ≤ i ≤ hi → aget l' i = Some a → ∃ j, lo ≤ j ≤ hi ∧ aget l j = Some a
}.

Lemma shuffled_refl lo hi l : shuffled lo hi l l.
Proof. split; [done..|]. intros i a Hi Ha. by exists i. Qed.

Lemma shuffled_trans lo hi l1 l2 l3 : shuffled lo hi l1 l2 → shuffled lo hi l2 l3 → shuffled lo hi l1 l3.
Proof.
  intros [A1 A2 A3 A4] [B1 B2 B3 B4]. split; [by etrans|intros i Hi; by rewrite B2, A2|intros P HP; apply B3; by apply A3|].
  intros i a Hi Ha. destruct (B4 i a Hi Ha) as (j & Hj & Hb). by apply (A4 j).
Qed.

Lemma shuffled_wider lo hi lo' hi' l l' : shuffled lo hi l l' → lo' ≤ lo → hi ≤ hi' → shuffled lo' hi' l l'.
Proof.
  intros [A1 A2 A3 A4] Hlo Hhi. split; [done|intros i Hi; apply A2; lia| |].
  - intros P HP i Hi. destruct (decide (lo ≤ i ≤ hi)) as [Hin|Hout]; [apply A3; [intros j Hj; apply HP; lia|done]|].
    rewrite (kat_same l) by (apply A2; lia). by apply HP.
  - intros i a Hi Ha. destruct (decide (lo ≤ i ≤ hi)) as [Hin|Hout].
    + destruct (A4 i a Hin Ha) as (j & Hj & Hl). exists j. split; [lia|done].
    + exists i. split; [done|]. rewrite <- Ha. symmetry. apply A2. lia.
Qed.

Lemma shuffled_len lo hi l l' : shuffled lo hi l l' → zlen l' = zlen l.
Proof. intros [H _ _ _]. unfold zlen. by rewrite H. Qed.

(** Moving elements within a part of the part leaves them comparable. *)
Lemma shuffled_compare a b lo hi l l' : shuffled a b l l' → lo ≤ a → b ≤ hi → part_compare lo hi l → part_compare lo hi l'.
Proof.
  intros Hsh Ha Hb Hc. pose proof (sh_elem _ _ _ _ (shuffled_wider _ _ lo hi _ _ Hsh Ha Hb)) as He.
  intros i j x y Hi Hj Hx Hy. destruct (He i x Hi Hx) as (i' & Hi' & Hx'). destruct (He j y Hj Hy) as (j' & Hj' & Hy').
  by apply (Hc i' j').
Qed.

Lemma shuffled_compare_same lo hi l l' : shuffled lo hi l l' → part_compare lo hi l → part_compare lo hi l'.
Proof. intros Hsh. by apply (shuffled_compare lo hi). Qed.

(** *** Rules *)

Definition inside (l : list A) (i : Z) : Prop := 0 ≤ i < zlen l.

Lemma elt_wp p l (R : A → list A → Prop) E : inside l p → (∀ a, aget l p = Some a → R a l) → wp False (elt p) R E l.
Proof.
  intros Hp HR. destruct (aget_Some _ _ Hp) as [a Ha]. unfold elt. wp_step. wp_step. rewrite Ha. cbn [of_option]. wp_step. by apply HR.
Qed.

Lemma compare_wp lo hi p q l (R : Z → list A → Prop) E : part_compare lo hi l → inside l p → inside l q →
  lo ≤ p ≤ hi → lo ≤ q ≤ hi →
  (∀ c, (c ≤ 0 ↔ kat l p ≤ kat l q) → (c = 0 ↔ kat l p = kat l q) → R c l) → wp False (compare comp p q) R E l.
Proof.
  intros Hc Hp Hq Hpi Hqi HR. unfold compare. wp_step. apply elt_wp; [done|]. intros a Ha. wp_step. apply elt_wp; [done|]. intros b Hb.
  destruct (Hc p q a b Hpi Hqi Ha Hb) as (c & Hab & H1 & H2). rewrite Hab. cbn [of_option].
  wp_step. apply HR; by rewrite (kat_Some _ _ _ Ha), (kat_Some _ _ _ Hb).
Qed.

(** A swap exchanges two keys. *)
Definition swapped (a b : Z) (l l' : list A) : Prop :=
  kat l' a = kat l b ∧ kat l' b = kat l a ∧ ∀ i, i ≠ a → i ≠ b → kat l' i = kat l i.

Lemma swap_wp a b lo hi l (R : unit → list A → Prop) E : inside l a → inside l b → lo ≤ a ≤ hi → lo ≤ b ≤ hi →
  (∀ l', shuffled lo hi l l' → swapped a b l l' → R tt l') → wp False (swap a b) R E l.
Proof.
  intros Ha Hb Hla Hlb HR. unfold swap. wp_step; bprop.
  { wp_step. subst b. apply HR; [apply shuffled_refl|]. by repeat split. }
  wp_step. apply elt_wp; [done|]. intros x Hx. wp_step. apply elt_wp; [done|]. intros y Hy. unfold store_elt.
  wp_step. wp_step. wp_step. rewrite aset_Some by done. cbn [of_option]. wp_step. wp_step. wp_step. wp_step. wp_step.
  unfold inside in *. rewrite aset_Some by (by rewrite zlen_insert). cbn [of_option]. wp_step. wp_step.
  set (l' := <[Z.to_nat b:=x]> (<[Z.to_nat a:=y]> l)).
  assert (aget l' a = Some y) as Ea by (unfold l'; rewrite aget_insert_ne by (try done; lia); by apply aget_insert).
  assert (aget l' b = Some x) as Eb by (unfold l'; apply aget_insert; by rewrite zlen_insert).
  assert (∀ i, i ≠ a → i ≠ b → aget l' i = aget l i) as Eo.
  { intros i H1 H2. unfold l'. rewrite aget_insert_ne by (try done; lia). apply aget_insert_ne; [lia|done]. }
  assert (swapped a b l l') as Hsw.
  { split; [by rewrite (kat_Some _ _ _ Ea), (kat_Some _ _ _ Hy)|]. split; [by rewrite (kat_Some _ _ _ Eb), (kat_Some _ _ _ Hx)|].
    intros i H1 H2. apply kat_same. by apply Eo. }
  apply HR; [|done]. split.
  - apply aget_inv in Hx as [_ Hx], Hy as [_ Hy]. by apply Permutation_insert_swap.
  - intros i Hi. apply Eo; lia.
  - destruct Hsw as (S1 & S2 & S3). intros P HP i Hi. destruct (decide (i = a)) as [->|]; [rewrite S1; by apply HP|].
    destruct (decide (i = b)) as [->|]; [rewrite S2; by apply HP|]. rewrite S3 by done. by apply HP.
  - intros i z Hi Hz. destruct (decide (i = a)) as [->|]; [exists b; split; [done|congruence]|].
    destruct (decide (i = b)) as [->|]; [exists a; split; [done|congruence]|]. exists i. split; [done|]. by rewrite <- Eo.
Qed.

(** *** The short sort *)

Definition sorted_on (l : list A) (lo hi : Z) : Prop := ∀ i j, lo ≤ i ≤ j → j ≤ hi → kat l i ≤ kat l j.

Lemma find_max_wp lo hi l : part_compare lo hi l → 0 ≤ lo < hi → hi < zlen l →
  wp False (find_max comp lo hi) (fun m l' => l' = l ∧ lo ≤ m ≤ hi ∧ ∀ i, lo ≤ i ≤ hi → kat l i ≤ kat l m) (fun _ _ => False) l.
Proof.
  intros Hc Hlo Hhi. unfold find_max.
  apply (wp_fold_range _ _ _ (fun p m l' => l' = l ∧ lo ≤ m < p ∧ ∀ i, lo ≤ i < p → kat l i ≤ kat l m)).
  - split; [done|]. split; [lia|]. intros i Hi. by replace i with lo by lia.
  - intros p m l' Hp (-> & Hm & Hle). wp_step. apply (compare_wp lo hi); [done|unfold inside; lia|unfold inside; lia|lia|lia|]. intros c H1 H2. wp_step.
    split; [done|]. destruct (Z.ltb_spec 0 c) as [Hpos|Hneg].
    + split; [lia|]. intros i Hi. destruct (decide (i = p)) as [->|]; [done|]. specialize (Hle i ltac:(lia)). lia.
    + split; [lia|]. intros i Hi. destruct (decide (i = p)) as [->|]; [lia|]. apply Hle. lia.
  - intros m l' (-> & Hm & Hle). split; [done|]. split; [lia|]. intros i Hi. apply Hle. lia.
Qed.

Lemma sorted_on_same l l' lo hi : (∀ i, lo ≤ i ≤ hi → kat l' i = kat l i) → sorted_on l lo hi → sorted_on l' lo hi.
Proof. intros E Hs i j Hi Hj. rewrite !E by lia. by apply Hs. Qed.

Lemma shortsort_loop_wp lo top n : ∀ hi l, n = Z.to_nat (hi - lo) → part_compare lo top l → 0 ≤ lo ≤ hi → hi ≤ top → top < zlen l →
  sorted_on l (hi + 1) top → (∀ i j, lo ≤ i ≤ hi → hi < j ≤ top → kat l i ≤ kat l j) →
  wp False (shortsort_loop comp n lo hi) (fun _ l' => shuffled lo hi l l' ∧ sorted_on l' lo top) (fun _ _ => False) l.
Proof.
  induction n as [|n IH]; intros hi l Hn Hc Hlo Hhi Htop Hs Hle; cbn [shortsort_loop].
  - wp_step. split; [apply shuffled_refl|]. replace hi with lo in * by lia. intros i j Hi Hj.
    destruct (decide (i = lo)) as [->|]; [|apply Hs; lia]. destruct (decide (j = lo)) as [->|]; [done|]. apply Hle; lia.
  - wp_step. eapply wp_mono; [apply find_max_wp; [by eapply part_compare_narrow|lia|lia]| |done]. intros m l' (-> & Hm & Hmax). wp_step.
    apply (swap_wp m hi lo hi); [unfold inside; lia|unfold inside; lia|done|lia|]. intros l1 Hsh (S1 & S2 & S3).
    assert (∀ j, hi < j → kat l1 j = kat l j) as Eout by (intros j Hj; apply S3; lia).
    assert (∀ i, lo ≤ i ≤ hi → kat l1 i ≤ kat l1 hi) as Hmax1.
    { rewrite S2. apply (sh_in _ _ _ _ Hsh (fun x => x <= kat l m)). done. }
    eapply wp_mono; [apply (IH (hi - 1) l1)| |done].
    + lia.
    + by apply (shuffled_compare lo hi lo top l).
    + lia.
    + lia.
    + by rewrite (shuffled_len _ _ _ _ Hsh).
    + intros i j Hi Hj. destruct (decide (i = hi)) as [->|].
      * destruct (decide (j = hi)) as [->|]; [done|]. rewrite (Eout j) by lia. rewrite S2. apply Hle; lia.
      * rewrite !Eout by lia. apply Hs; lia.
    + intros i j Hi Hj. destruct (decide (j = hi)) as [->|]; [apply Hmax1; lia|]. rewrite (Eout j) by lia.
      apply (sh_in _ _ _ _ Hsh (fun x => x <= kat l j)); [|lia]. intros x Hx. apply Hle; lia.
    + intros _ l2 [H1 H2]. split; [|done]. eapply shuffled_trans; [done|]. eapply shuffled_wider; [done|lia|lia].
Qed.

(** What sorting a part comes to. *)
Definition part_sorted (lo hi : Z) (l l' : list A) : Prop := shuffled lo hi l l' ∧ sorted_on l' lo hi.

Lemma shortsort_wp lo hi l : part_compare lo hi l → 0 ≤ lo ≤ hi → hi < zlen l →
  wp False (shortsort comp lo hi) (fun _ l' => part_sorted lo hi l l') (fun _ _ => False) l.
Proof.
  intros Hc Hlo Hhi. apply shortsort_loop_wp; [done|done|done|lia|done| |]; intros i j Hi Hj; lia.
Qed.

(** *** The partition *)

(** Going up: everything passed is not above the middle one. *)
Lemma scan_up_wp lo hi n stop mid l : part_compare lo hi l → stop ≤ hi + 1 → hi < zlen l → 0 ≤ lo → lo ≤ mid ≤ hi →
  ∀ p, stop - p ≤ Z.of_nat n → lo ≤ p + 1 → p < stop →
  wp False (scan_up comp n stop mid p) (fun q l' => l' = l ∧ p < q ≤ stop ∧ (∀ i, p < i < q → kat l i ≤ kat l mid) ∧
    (q < stop → kat l mid < kat l q)) (fun _ _ => False) l.
Proof.
  intros Hc Hs Hhi Hlo Hm. induction n as [|n IH]; intros p Hn Hp Hlt; cbn [scan_up]; [lia|]. cbv zeta. wp_step; bprop.
  - wp_step. apply (compare_wp lo hi); [done|unfold inside; lia|unfold inside; lia|lia|lia|]. intros c H1 H2. wp_step; bprop.
    + eapply wp_mono; [apply IH; lia| |done]. intros q l' (-> & Hq & Hle & Hgt). split; [done|]. split; [lia|]. split; [|done].
      intros i Hi. destruct (decide (i = p + 1)) as [->|]; [lia|]. apply Hle. lia.
    + wp_step. split; [done|]. split; [lia|]. split; [intros i Hi; lia|]. lia.
  - wp_step. split; [done|]. split; [lia|]. split; [intros i Hi; lia|lia].
Qed.

(** Going down while the test holds. *)
Lemma scan_down_wp lo hi n test (T : Z → Prop) stop mid l : part_compare lo hi l → hi < zlen l → 0 ≤ lo → lo ≤ mid ≤ hi → lo ≤ stop →
  (∀ c k, (c ≤ 0 ↔ k ≤ kat l mid) → (c = 0 ↔ k = kat l mid) → test c = true ↔ T k) →
  ∀ p, p - stop ≤ Z.of_nat n → stop < p ≤ hi + 1 →
  wp False (scan_down comp n test stop mid p) (fun q l' => l' = l ∧ stop ≤ q < p ∧ (∀ i, q < i < p → T (kat l i)) ∧
    (stop < q → ¬ T (kat l q))) (fun _ _ => False) l.
Proof.
  intros Hc Hhi Hlo Hm Hs HT. induction n as [|n IH]; intros p Hn Hp; cbn [scan_down]; [lia|]. cbv zeta. wp_step; bprop.
  - wp_step. apply (compare_wp lo hi); [done|unfold inside; lia|unfold inside; lia|lia|lia|]. intros c H1 H2. pose proof (HT c _ H1 H2) as Ht. apply wp_if; intros Hb.
    + eapply wp_mono; [apply IH; lia| |done]. intros q l' (-> & Hq & Hle & Hgt). split; [done|]. split; [lia|]. split; [|done].
      intros i Hi. destruct (decide (i = p - 1)) as [->|]; [by apply Ht|]. apply Hle. lia.
    + wp_step. split; [done|]. split; [lia|]. split; [intros i Hi; lia|]. intros _ HTq. apply Ht in HTq. congruence.
  - wp_step. split; [done|]. split; [lia|]. split; [intros i Hi; lia|lia].
Qed.

(** The comments of the code: what holds at the head of the loop ... *)
Record parting (lo hi mid loguy higuy : Z) (l : list A) : Prop := {
  pa_range : lo ≤ loguy < higuy ∧ higuy ≤ hi;
  pa_mid : lo < mid < higuy;
  pa_low : ∀ i, lo ≤ i ≤ loguy → kat l i ≤ kat l mid;
  pa_high : ∀ i, higuy ≤ i < hi → kat l mid < kat l i;
  pa_last : kat l mid ≤ kat l hi
}.

(** ... and when it has ended. *)
Record parted (lo hi mid loguy higuy : Z) (l : list A) : Prop := {
  pd_range : lo < mid ≤ higuy ∧ higuy < loguy ≤ hi + 1 ∧ higuy < hi;
  pd_low : ∀ i, lo ≤ i < loguy → kat l i ≤ kat l mid;
  pd_high : ∀ i, higuy < i < hi → kat l mid < kat l i;
  pd_last : kat l mid ≤ kat l hi
}.

(** Both scans up: past the middle element when all before it are small. *)
Lemma scans_up_wp m lo hi mid loguy higuy l : part_compare lo hi l → 0 ≤ lo → hi < zlen l → hi - lo < Z.of_nat m → parting lo hi mid loguy higuy l →
  wp False (scans_up comp m hi mid loguy)
    (fun g l' => l' = l ∧ loguy < g ≤ hi + 1 ∧ (∀ i, lo ≤ i < g → kat l i ≤ kat l mid) ∧ (g ≤ hi → kat l mid < kat l g)) (fun _ _ => False) l.
Proof.
  intros Hc Hlo Hhi Hm [P1 P2 P3 P4 P5]. unfold scans_up. wp_step.
  apply (wp_mono _ (fun g l' => l' = l ∧ loguy ≤ g ≤ hi ∧ (∀ i, lo ≤ i < g → kat l i ≤ kat l mid) ∧
    ((g < mid ∧ loguy < g ∧ kat l mid < kat l g) ∨ (mid ≤ g ∧ kat l g ≤ kat l mid))) _ (fun _ _ => False)); [| |done].
  - wp_step; bprop.
    + eapply wp_mono; [apply (scan_up_wp lo hi); [done|lia|lia|lia|lia|lia|lia|lia]| |done]. intros g l' (-> & Hg & Hle & Hgt).
      split; [done|]. split; [lia|]. split.
      * intros i Hi. destruct (Z.le_gt_cases i loguy); [apply P3; lia|apply Hle; lia].
      * destruct (Z.lt_ge_cases g mid); [left; specialize (Hgt ltac:(lia)); lia|right]. by replace g with mid by lia.
    + wp_step. split; [done|]. split; [lia|]. split; [intros i Hi; apply P3; lia|]. right. split; [lia|]. apply P3. lia.
  - intros g l' (-> & Hg & Hle & Hor). wp_step; bprop.
    + destruct Hor as [(? & _)|(_ & Hgm)]; [lia|].
      eapply wp_mono; [apply (scan_up_wp lo hi); [done|lia|lia|lia|lia|lia|lia|lia]| |done]. intros g' l' (-> & Hg' & Hle' & Hgt).
      split; [done|]. split; [lia|]. split; [|intros; apply Hgt; lia]. intros i Hi.
      destruct (Z.lt_trichotomy i g) as [?|[->|?]]; [apply Hle; lia|done|apply Hle'; lia].
    + wp_step. destruct Hor as [(H1 & H2 & H3)|(? & _)]; [|lia]. split; [done|]. split; [lia|]. by split.
Qed.

Lemma partition_loop_wp m lo hi n : ∀ mid loguy higuy l, part_compare lo hi l → 0 ≤ lo → hi < zlen l → hi - lo < Z.of_nat m →
  higuy - loguy ≤ Z.of_nat n → parting lo hi mid loguy higuy l →
  wp False (partition_loop comp n m lo hi mid loguy higuy)
    (fun r l' => shuffled lo hi l l' ∧ parted lo hi r.1.1 r.1.2 r.2 l') (fun _ _ => False) l.
Proof.
  induction n as [|n IH]; intros mid loguy higuy l Hc Hlo Hhi Hm Hn HP; cbn [partition_loop]; [destruct HP; lia|].
  pose proof HP as [P1 P2 P3 P4 P5]. wp_step. eapply wp_mono; [by apply (scans_up_wp m lo hi mid loguy higuy)| |done].
  intros g l' (-> & Hg & Hle & Hgt). wp_step.
  eapply wp_mono; [apply (scan_down_wp lo hi m _ (fun k => kat l mid < k)); [done|lia|lia|lia|lia| |lia|lia]| |done].
  { intros c k H1 H2. rewrite Z.ltb_lt. lia. }
  intros h l' (-> & Hh & Hhigh & Hstop). assert (kat l h ≤ kat l mid) as Hhm.
  { destruct (decide (mid < h)) as [Hd|Hd]; [specialize (Hstop Hd); lia|]. by replace h with mid by lia. }
  assert (∀ i, h < i < hi → kat l mid < kat l i) as Hhigh'.
  { intros i Hi. destruct (Z.lt_ge_cases i higuy); [apply Hhigh; lia|apply P4; lia]. }
  wp_step; bprop.
  { wp_step. split; [apply shuffled_refl|]. split; cbn; [lia|done|done|done]. }
  assert (g ≠ h) as Hne by (intros ->; specialize (Hgt ltac:(lia)); lia).
  assert (kat l mid < kat l g) as Hgm by (apply Hgt; lia).
  wp_step. apply (swap_wp g h lo hi); [unfold inside; lia|unfold inside; lia|lia|lia|]. intros l1 Hsh (S1 & S2 & S3).
  assert (∃ mid', (if mid =? h then g else mid) = mid' ∧ kat l1 mid' = kat l mid ∧ lo < mid' < h) as (mid' & -> & Em & Hmid').
  { destruct (Z.eqb_spec mid h) as [->|Hmh]; eexists; (split; [reflexivity|]); [split; [done|lia]|].
    split; [|lia]. apply S3; [intros ->; lia|done]. }
  eapply wp_mono; [apply (IH mid' g h l1)| |done].
  - by eapply shuffled_compare_same.
  - done.
  - by rewrite (shuffled_len _ _ _ _ Hsh).
  - done.
  - lia.
  - split; rewrite ?Em.
    + lia.
    + lia.
    + intros i Hi. destruct (decide (i = g)) as [->|]; [by rewrite S1|]. rewrite S3 by lia. apply Hle. lia.
    + intros i Hi. destruct (decide (i = h)) as [->|]; [by rewrite S2|]. rewrite S3 by lia. apply Hhigh'. lia.
    + destruct (decide (h = hi)) as [->|]; [rewrite S2; lia|]. rewrite S3 by lia. done.
  - intros r l2 [H1 H2]. split; [by eapply shuffled_trans|done].
Qed.

Lemma skip_equal_wp m lo hi mid loguy higuy l : part_compare lo hi l → 0 ≤ lo → hi < zlen l → hi - lo < Z.of_nat m → parted lo hi mid loguy higuy l →
  wp False (skip_equal comp m lo mid higuy) (fun q l' => l' = l ∧ lo ≤ q ≤ higuy ∧ ∀ i, q < i ≤ higuy → kat l i = kat l mid) (fun _ _ => False) l.
Proof.
  intros Hc Hlo Hhi Hm [P1 P2 P3 P4]. unfold skip_equal. cbv zeta. rewrite (proj2 (Z.ltb_lt mid (higuy + 1))) by lia. wp_step.
  assert (∀ c k, (c ≤ 0 ↔ k ≤ kat l mid) → (c = 0 ↔ k = kat l mid) → (c =? 0) = true ↔ k = kat l mid) as HT.
  { intros c k _ H. by rewrite Z.eqb_eq. }
  eapply wp_mono; [apply (scan_down_wp lo hi m _ (fun k => k = kat l mid)); [done|lia|lia|lia|lia|exact HT|lia|lia]| |done].
  intros q l' (-> & Hq & Heq & _). wp_step; bprop.
  - eapply wp_mono; [apply (scan_down_wp lo hi m _ (fun k => k = kat l mid)); [done|lia|lia|lia|lia|exact HT|lia|lia]| |done].
    intros q' l' (-> & Hq' & Heq' & _). split; [done|]. split; [lia|]. intros i Hi.
    destruct (Z.lt_trichotomy i q) as [?|[->|?]]; [apply Heq'; lia|by replace q with mid by lia|apply Heq; lia].
  - wp_step. split; [done|]. split; [lia|]. intros i Hi. apply Heq. lia.
Qed.

(** Putting two elements into order. *)
Lemma order_wp a b lo hi l (R : unit → list A → Prop) E : part_compare lo hi l → 0 ≤ lo → hi < zlen l → lo ≤ a ≤ hi → lo ≤ b ≤ hi → a ≠ b →
  (∀ l', shuffled lo hi l l' → kat l' a = Z.min (kat l a) (kat l b) → kat l' b = Z.max (kat l a) (kat l b) →
     (∀ i, i ≠ a → i ≠ b → kat l' i = kat l i) → R tt l') →
  wp False (c ← compare comp a b; when (0 <? c) (swap a b)) R E l.
Proof.
  intros Hc Hlo Hhi Ha Hb Hab HR. wp_step. apply (compare_wp lo hi); [done|unfold inside; lia|unfold inside; lia|lia|lia|]. intros c H1 H2. wp_step; bprop.
  - apply (swap_wp a b lo hi); [unfold inside; lia|unfold inside; lia|done|done|]. intros l' Hsh (S1 & S2 & S3). apply HR; [done|lia|lia|done].
  - apply HR; [apply shuffled_refl|lia|lia|done].
Qed.

(** The two parts a partition leaves: around [pivot], and what lies between
    equals it. *)
Definition partition_post (lo hi : Z) (l : list A) (r : Z * Z) (l' : list A) : Prop :=
  shuffled lo hi l l' ∧ lo ≤ r.1 < hi ∧ lo < r.2 ≤ hi + 1 ∧ r.1 < r.2 ∧
  ∃ pivot, (∀ i, lo ≤ i ≤ r.1 → kat l' i ≤ pivot) ∧ (∀ i, r.1 < i < r.2 → kat l' i = pivot) ∧ (∀ i, r.2 ≤ i ≤ hi → pivot ≤ kat l' i).

Lemma wp_assoc {B C D} (m : Q B) (k : B → Q C) (k' : C → Q D) R E (l : list A) :
  wp False (x ← (y ← m; k y); k' x) R E l → wp False (y ← m; x ← k y; k' x) R E l.
Proof. unfold wp, mbind, M_bind. by destruct (m l). Qed.

Lemma partition_wp lo hi l : part_compare lo hi l → 0 ≤ lo → hi < zlen l → lo + 2 ≤ hi →
  wp False (partition comp lo hi) (partition_post lo hi l) (fun _ _ => False) l.
Proof.
  intros Hc Hlo Hhi Hsz. unfold partition. cbv zeta. set (mid := lo + Z.shiftr (hi - lo + 1) 1).
  assert (lo < mid < hi) as Hmid. { unfold mid. rewrite Z.shiftr_div_pow2 by lia. change (2 ^ 1) with 2. Z.to_euclidean_division_equations. lia. }
  clearbody mid. set (m := S (Z.to_nat (hi - lo + 1))). assert (hi - lo < Z.of_nat m) as Hm by (unfold m; lia).
  assert (hi - lo ≤ Z.of_nat m) as Hm' by lia. clearbody m.
  apply wp_assoc. wp_step. apply (order_wp lo mid lo hi); [done|lia|lia|lia|lia|lia|]. intros l1 Sh1 E1 F1 G1.
  apply wp_assoc. wp_step. apply (order_wp lo hi lo hi); [by eapply shuffled_compare_same|lia|by rewrite (shuffled_len _ _ _ _ Sh1)|lia|lia|lia|].
  intros l2 Sh2 E2 F2 G2. pose proof (shuffled_trans _ _ _ _ _ Sh1 Sh2) as Sh12.
  apply wp_assoc. wp_step. apply (order_wp mid hi lo hi); [by eapply shuffled_compare_same|lia|by rewrite (shuffled_len _ _ _ _ Sh12)|lia|lia|lia|].
  intros l3 Sh3 E3 F3 G3. pose proof (shuffled_trans _ _ _ _ _ Sh12 Sh3) as Sh.
  assert (kat l3 lo ≤ kat l3 mid ∧ kat l3 mid ≤ kat l3 hi) as [K1 K2].
  { rewrite (G3 lo) by lia. rewrite E3, F3. rewrite (G2 mid) by lia. lia. }
  assert (part_compare lo hi l3 ∧ hi < zlen l3) as [Hc3 Hhi3] by (split; [by eapply shuffled_compare_same|by rewrite (shuffled_len _ _ _ _ Sh)]).
  wp_step. eapply wp_mono; [apply (partition_loop_wp m lo hi m mid lo hi l3); [done|lia|done|done|lia|]| |done].
  { split; [lia|lia| |lia|done]. intros i Hi. by replace i with lo by lia. }
  intros [[mid' loguy] higuy] l4 [Sh4 Hpd]. cbn in Hpd. pose proof (shuffled_trans _ _ _ _ _ Sh Sh4) as Sh'.
  wp_step. eapply wp_mono; [apply (skip_equal_wp m lo hi mid' loguy higuy l4)| |done].
  { by eapply shuffled_compare_same. }
  { lia. }
  { by rewrite (shuffled_len _ _ _ _ Sh'). }
  { done. }
  { done. }
  intros q l5 (-> & Hq & Heq). destruct Hpd as [D1 D2 D3 D4]. wp_step. split; [done|]. cbn. split; [lia|]. split; [lia|]. split; [lia|].
  exists (kat l4 mid'). split; [intros i Hi; apply D2; lia|]. split.
  - intros i Hi. destruct (decide (i ≤ higuy)) as [?|?]; [apply Heq; lia|]. destruct (decide (i < hi)) as [?|?].
    + specialize (D2 i ltac:(lia)). specialize (D3 i ltac:(lia)). lia.
    + replace i with hi in * by lia. specialize (D2 hi ltac:(lia)). lia.
  - intros i Hi. destruct (decide (i = hi)) as [->|?]; [done|]. specialize (D3 i ltac:(lia)). lia.
Qed.

(** *** The whole *)

Lemma kat_out lo hi l l' i : shuffled lo hi l l' → i < lo ∨ hi < i → kat l' i = kat l i.
Proof. intros Hsh Hi. apply kat_same. by apply (sh_out _ _ _ _ Hsh). Qed.

(** Sorting the two parts sorts the whole. *)
Lemma parts_sorted lo hi l r l1 l2 l3 : partition_post lo hi l r l1 → part_sorted lo r.1 l1 l2 → part_sorted r.2 hi l2 l3 →
  part_sorted lo hi l l3.
Proof.
  destruct r as [h g]. intros (Sh & H1 & H2 & H3 & pivot & P1 & P2 & P3) [Sh2 S2] [Sh3 S3]. cbn in *. split.
  - eapply shuffled_trans; [done|]. eapply shuffled_trans; (eapply shuffled_wider; [done|lia|lia]).
  - assert (∀ i, lo ≤ i ≤ h → kat l3 i = kat l2 i ∧ kat l2 i ≤ pivot) as K1.
    { intros i Hi. split; [apply (kat_out _ _ _ _ _ Sh3); lia|]. by apply (sh_in _ _ _ _ Sh2 (fun x => x <= pivot)). }
    assert (∀ i, h < i < g → kat l3 i = pivot) as K2.
    { intros i Hi. rewrite (kat_out _ _ _ _ _ Sh3) by lia. rewrite (kat_out _ _ _ _ _ Sh2) by lia. apply P2. lia. }
    assert (∀ i, g ≤ i ≤ hi → pivot ≤ kat l3 i) as K3.
    { apply (sh_in _ _ _ _ Sh3 (fun x => pivot <= x)). intros i Hi. rewrite (kat_out _ _ _ _ _ Sh2) by lia. by apply P3. }
    intros i j Hi Hj. destruct (Z.le_gt_cases j h) as [?|?].
    { destruct (K1 i) as [-> _]; [lia|]. destruct (K1 j) as [-> _]; [lia|]. apply S2; lia. }
    destruct (Z.le_gt_cases g i) as [?|?]; [apply S3; lia|].
    assert (kat l3 i ≤ pivot). { destruct (Z.le_gt_cases i h); [destruct (K1 i); lia|rewrite (K2 i); lia]. }
    assert (pivot ≤ kat l3 j). { destruct (Z.lt_ge_cases j g); [rewrite (K2 j); lia|apply K3; lia]. }
    lia.
Qed.

(** The other order of the two recursions. *)
Lemma parts_sorted' lo hi l r l1 l2 l3 : partition_post lo hi l r l1 → part_sorted r.2 hi l1 l2 → part_sorted lo r.1 l2 l3 →
  part_sorted lo hi l l3.
Proof.
  destruct r as [h g]. intros (Sh & H1 & H2 & H3 & pivot & P1 & P2 & P3) [Sh2 S2] [Sh3 S3]. cbn in *. split.
  - eapply shuffled_trans; [done|]. eapply shuffled_trans; (eapply shuffled_wider; [done|lia|lia]).
  - assert (∀ i, g ≤ i ≤ hi → kat l3 i = kat l2 i ∧ pivot ≤ kat l2 i) as K1.
    { intros i Hi. split; [apply (kat_out _ _ _ _ _ Sh3); lia|]. by apply (sh_in _ _ _ _ Sh2 (fun x => pivot <= x)). }
    assert (∀ i, h < i < g → kat l3 i = pivot) as K2.
    { intros i Hi. rewrite (kat_out _ _ _ _ _ Sh3) by lia. rewrite (kat_out _ _ _ _ _ Sh2) by lia. apply P2. lia. }
    assert (∀ i, lo ≤ i ≤ h → kat l3 i ≤ pivot) as K3.
    { apply (sh_in _ _ _ _ Sh3 (fun x => x <= pivot)). intros i Hi. rewrite (kat_out _ _ _ _ _ Sh2) by lia. by apply P1. }
    intros i j Hi Hj. destruct (Z.le_gt_cases g i) as [?|?].
    { destruct (K1 i) as [-> _]; [lia|]. destruct (K1 j) as [-> _]; [lia|]. apply S2; lia. }
    destruct (Z.le_gt_cases j h) as [?|?]; [apply S3; lia|].
    assert (kat l3 i ≤ pivot). { destruct (Z.le_gt_cases i h); [apply K3; lia|rewrite (K2 i); lia]. }
    assert (pivot ≤ kat l3 j). { destruct (Z.lt_ge_cases j g); [rewrite (K2 j); lia|destruct (K1 j); lia]. }
    lia.
Qed.

(** A part of fewer than two elements is sorted. *)
Lemma part_sorted_small lo hi l : hi ≤ lo → part_sorted lo hi l l.
Proof. intros H. split; [apply shuffled_refl|]. intros i j Hi Hj. by replace j with i by lia. Qed.

Definition pop (n : nat) (stk : list (Z * Z)) : Q unit :=
  match stk with [] => mret tt | (lo, hi) :: stk => sort_loop comp n lo hi stk end.

(** From [recurse] on: the current part gets sorted, and then what is on the
    stack gets its turn.  A part of [k] elements reaches the label at most
    [k - 1] times, and takes at most [log2 k] entries of the stack. *)
Definition sort_part (n : nat) (lo hi : Z) : Prop :=
  ∀ stk l (R : unit → list A → Prop), part_compare lo hi l → 0 ≤ lo < hi → hi < zlen l → hi - lo ≤ Z.of_nat n →
    zlen stk + Z.log2 (hi - lo + 1) ≤ STKSIZ →
    (∀ n' l', Z.of_nat n - (hi - lo) ≤ Z.of_nat n' < Z.of_nat n → part_sorted lo hi l l' → wp False (pop n' stk) R (fun _ _ => False) l') →
    wp False (sort_loop comp n lo hi stk) R (fun _ _ => False) l.

Lemma push_wp lo hi stk l (R : list (Z * Z) → list A → Prop) E : zlen stk < STKSIZ → R ((lo, hi) :: stk) l → wp False (push lo hi stk : Q _) R E l.
Proof. intros Hs HR. unfold push. rewrite (proj2 (Z.leb_gt _ _)) by done. by wp_step. Qed.

Lemma zlen_cons {B} (x : B) l : zlen (x :: l) = zlen l + 1.
Proof. unfold zlen. cbn. lia. Qed.

Lemma log2_half a b : 0 < a → 2 * a ≤ b → Z.log2 a + 1 ≤ Z.log2 b.
Proof. intros Ha Hb. replace (Z.log2 a + 1) with (Z.log2 (2 * a)) by (rewrite Z.log2_double by lia; lia). by apply Z.log2_le_mono. Qed.

(** Sorting a part leaves another part comparable that lies apart from it. *)
Lemma part_sorted_compare lo hi a b l l' : part_compare a b l → part_sorted lo hi l l' → b < lo ∨ hi < a →
  part_compare a b l' ∧ zlen l' = zlen l.
Proof.
  intros Hc [Hs _] Hd. split; [|by eapply shuffled_len]. intros i j x y Hi Hj Hx Hy.
  rewrite (sh_out _ _ _ _ Hs) in Hx, Hy by lia. by apply (Hc i j).
Qed.

(** One part: nothing to do when it has fewer than two elements, otherwise by
    the recursion. *)
Lemma part_wp n a b stk l (R : unit → list A → Prop) : (a < b → ∀ n', (n' ≤ n)%nat → sort_part n' a b) →
  part_compare a b l → 0 ≤ a → b < zlen l → Z.max 0 (b - a) ≤ Z.of_nat n → (a < b → zlen stk + Z.log2 (b - a + 1) ≤ STKSIZ) →
  (∀ n' l', Z.of_nat n - Z.max 0 (b - a) ≤ Z.of_nat n' ≤ Z.of_nat n → part_sorted a b l l' → wp False (pop n' stk) R (fun _ _ => False) l') →
  wp False (if a <? b then sort_loop comp n a b stk else pop n stk) R (fun _ _ => False) l.
Proof.
  intros IH Hc Ha Hb Hn Hstk HR. apply wp_if; intros Hab; bprop.
  - apply (IH Hab n); [done|done|lia|done|lia|by apply Hstk|]. intros n' l' Hn' Hp. apply HR; [lia|done].
  - apply HR; [lia|]. apply part_sorted_small. lia.
Qed.

(** Two parts: the first may be pushed, the second is sorted at once. *)
Lemma two_parts_wp n a b a' b' stk l (R : unit → list A → Prop) : (∀ n' x y, (n' ≤ n)%nat → sort_part n' x y) →
  part_compare a b l → part_compare a' b' l → b < a' ∨ b' < a → 0 ≤ a → b < zlen l → 0 ≤ a' → b' < zlen l → Z.max 0 (b - a) + Z.max 0 (b' - a') ≤ Z.of_nat n →
  zlen stk < STKSIZ → (a < b → zlen stk + Z.log2 (b - a + 1) ≤ STKSIZ) → (a' < b' → zlen stk + 1 + Z.log2 (b' - a' + 1) ≤ STKSIZ) →
  (∀ n' l1 l2, Z.of_nat n - (Z.max 0 (b - a) + Z.max 0 (b' - a')) ≤ Z.of_nat n' ≤ Z.of_nat n →
     part_sorted a' b' l l1 → part_sorted a b l1 l2 → wp False (pop n' stk) R (fun _ _ => False) l2) →
  wp False (stk ← (if a <? b then push a b stk else mret stk); if a' <? b' then sort_loop comp n a' b' stk else pop n stk) R (fun _ _ => False) l.
Proof.
  intros IH Hc Hc' Hd Ha Hb Ha' Hb' Hn Hroom Hl Hl' HR. wp_step.
  apply (wp_mono _ (fun stk' l' => l' = l ∧ stk' = if a <? b then (a, b) :: stk else stk) _ (fun _ _ => False)); [| |done].
  { destruct (a <? b); [by apply push_wp|by wp_step]. }
  intros stk' l' (-> & ->). apply part_wp; [by auto|done|done|done|lia| |].
  - intros Hlt. specialize (Hl' Hlt). destruct (a <? b); rewrite ?zlen_cons; lia.
  - intros n' l1 Hn' Hp. destruct (part_sorted_compare _ _ _ _ _ _ Hc Hp) as [Hc1 Hz1]; [lia|].
    pose proof (part_wp n' a b stk l1 R) as Hpart. destruct (a <? b) eqn:Hab; cbn [pop].
    + apply Hpart; [intros _ x Hx; apply IH; lia|done|done|by rewrite Hz1|lia|done|]. intros n2 l2 Hn2 Hp2. apply (HR n2 l1); [lia|done|done].
    + bprop. apply (HR n' l1); [lia|done|]. apply part_sorted_small. lia.
Qed.

Lemma sort_part_ok n : ∀ lo hi, sort_part n lo hi.
Proof.
  induction n as [n IHn] using lt_wf_ind. intros lo hi stk l R Hc Hlo Hhi Hn Hstk HR. destruct n as [|n]; [lia|]. cbn [sort_loop].
  change (match ?s with [] => mret tt | (a, b) :: t => sort_loop comp n a b t end) with (pop n s).
  assert (∀ n' a b, (n' ≤ n)%nat → sort_part n' a b) as IH by (intros n' a b Hn'; apply IHn; lia).
  wp_step; bprop.
  - wp_step. eapply wp_mono; [apply shortsort_wp; [done|lia|done]| |done]. intros [] l' Hp. apply HR; [lia|done].
  - assert (3 ≤ Z.log2 (hi - lo + 1)) as H3. { change 3 with (Z.log2 8). apply Z.log2_le_mono. unfold CUTOFF in *. lia. }
    unfold CUTOFF in *. wp_step. eapply wp_mono; [apply partition_wp; [done|lia|done|lia]| |done]. intros [h g] l1 Hpost.
    pose proof Hpost as (Sh & H1 & H2 & H4 & _). cbn in H1, H2, H4.
    assert (part_compare lo hi l1 ∧ hi < zlen l1) as [Hc1 Hhi1] by (split; [by eapply shuffled_compare_same|by rewrite (shuffled_len _ _ _ _ Sh)]).
    assert (part_compare lo h l1 ∧ part_compare g hi l1) as [Hch Hcg] by (split; apply (part_compare_narrow _ _ _ _ _ Hc1); lia).
    assert (zlen stk < STKSIZ) as Hroom by lia.
    assert (∀ k, 0 < k ≤ hi - lo → zlen stk + Z.log2 (k + 1) ≤ STKSIZ) as Hbig.
    { intros k Hk. assert (Z.log2 (k + 1) ≤ Z.log2 (hi - lo + 1)) by (apply Z.log2_le_mono; lia). lia. }
    assert (∀ k, 0 < k → 2 * (k + 1) ≤ hi - lo + 1 → zlen stk + 1 + Z.log2 (k + 1) ≤ STKSIZ) as Hsmall.
    { intros k Hk Hk2. pose proof (log2_half (k + 1) (hi - lo + 1)). lia. }
    wp_step; bprop.
    + apply two_parts_wp; [done|done|done|lia|lia|lia|lia|lia|lia|done|intros; apply Hbig; lia|intros; apply Hsmall; lia|].
      intros n' l2 l3 Hn' Hp2 Hp3. apply HR; [lia|]. by eapply (parts_sorted' lo hi l (h, g) l1 l2 l3).
    + apply two_parts_wp; [done|done|done|lia|lia|lia|lia|lia|lia|done|intros; apply Hbig; lia|intros; apply Hsmall; lia|].
      intros n' l2 l3 Hn' Hp2 Hp3. apply HR; [lia|]. by eapply (parts_sorted lo hi l (h, g) l1 l2 l3).
Qed.

Lemma qsort_wp base num l : part_compare base (base + num - 1) l → 0 ≤ base → base + num ≤ zlen l → num < 2 ^ 63 →
  wp False (qsort comp base num) (fun _ l' => part_sorted base (base + num - 1) l l') (fun _ _ => False) l.
Proof.
  intros Hc Hb Hl Hn. unfold qsort. wp_step; bprop.
  - wp_step. apply part_sorted_small. lia.
  - replace (base + num - 1) with (base + (num - 1)) in * by lia. apply sort_part_ok; [done|lia|lia|lia| |].
    + change (zlen []) with 0. assert (Z.log2 (base + (num - 1) - base + 1) < 63) by (apply Z.log2_lt_pow2; lia). unfold STKSIZ. lia.
    + intros n' l' _ Hp. cbn [pop]. by wp_step.
Qed.
End Sorting.

(** ** The claim *)

(** Numbers compared by a subtraction that does not overflow. *)
Definition compare_small (a b : Z) : option Z := if bool_decide (0 ≤ a < 2 ^ 30 ∧ 0 ≤ b < 2 ^ 30) then Some (a - b) else None.

(** C18: [qsort] ends (with a stack of 62 entries, for up to 2^63 - 1 elements),
    compares only elements of the part it is given, and leaves a permutation
    of the array in which that part is in order of the keys and everything
    outside it is where it was.  The comparison function has to agree with an
    order of keys on the elements of that part only: on any other element it
    may be undefined, and a [qsort] that compared one would be undefined. *)
Theorem qsort_spec {A} (comp : A → A → option Z) (key : A → Z) base num l :
  all_compare comp key (take (Z.to_nat num) (drop (Z.to_nat base) l)) → 0 ≤ base → base + num ≤ zlen l → num < 2 ^ 63 →
  ∃ l', qsort comp base num l = Ok tt l' ∧ l' ≡ₚ l ∧ (∀ i, i < base ∨ base + num ≤ i → aget l' i = aget l i) ∧
    ∀ i j a b, base ≤ i ≤ j → j < base + num → aget l' i = Some a → aget l' j = Some b → key a ≤ key b.
Proof.
  intros Hc Hb Hl Hn. assert (part_compare comp key base (base + num - 1) l) as Hp.
  { apply part_compare_all; [done|]. by replace (base + num - 1 + 1 - base) with num by lia. }
  pose proof (qsort_wp comp key base num l Hp Hb Hl Hn) as H. unfold wp in H.
  destruct (qsort comp base num l) as [[] l'| |]; try done. destruct H as [[Hpm Ho _ _] Hs]. exists l'. split; [done|]. split; [done|].
  split; [intros i Hi; apply Ho; lia|]. intros i j a b Hi Hj Ha Hb'. specialize (Hs i j Hi ltac:(lia)). unfold kat in Hs. by rewrite Ha, Hb' in Hs.
Qed.

(** Twelve elements, with duplicates: more than [CUTOFF], so that there is a
    partition.  The two around them cannot be compared with anything. *)
Definition sort_example : list Z := [-1; 5; 3; 9; 1; 7; 3; 8; 2; 6; 4; 0; 3; 2 ^ 40].

Lemma qsort_spec_witness :
  compare_small (-1) 5 = None ∧ compare_small 5 (2 ^ 40) = None ∧
  qsort compare_small 1 12 sort_example = Ok tt [-1; 0; 1; 2; 3; 3; 3; 4; 5; 6; 7; 8; 9; 2 ^ 40] ∧
  ∃ l', qsort compare_small 1 12 sort_example = Ok tt l' ∧ l' ≡ₚ sort_example ∧
    (∀ i, i < 1 ∨ 1 + 12 ≤ i → aget l' i = aget sort_example i) ∧
    ∀ i j a b, 1 ≤ i ≤ j → j < 1 + 12 → aget l' i = Some a → aget l' j = Some b → a ≤ b.
Proof.
  split; [reflexivity|]. split; [reflexivity|]. split; [reflexivity|].
  apply (qsort_spec compare_small (fun x => x) 1 12 sort_example); [|lia|vm_compute; congruence|lia].
  assert (Forall (fun x => 0 ≤ x < 2 ^ 30) (take (Z.to_nat 12) (drop (Z.to_nat 1) sort_example))) as HF by (cbn; repeat constructor; lia).
  intros a b Ha Hb. rewrite Forall_forall in HF. exists (a - b).
  assert (compare_small a b = Some (a - b)) as -> by (unfold compare_small; rewrite bool_decide_eq_true_2; [done|split; by apply HF]).
  split; [done|]. lia.
Defined.
