(* ===== verification/H264Types.v ===== *)
(** The structures of the H.264 decoded picture buffer
    (src/drivers/frame_provider/decoder/h264_multi/h264_dpb.h), the state of
    its operations, access through its pointers, and the functions the
    decoder driver supplies.

    A pointer to a picture is an index of [m_PIC], a pointer to a frame store
    one of [mFrameStore]; NULL is [None].  The global [dummy_pic] and
    [dummy_fs] are the elements behind the last ones, at [DUMMY_PIC] and
    [DUMMY_FS].  Members that the modelled files never read, or that nothing
    ever sets, are left out: sizes and canvases, the slice lists of a picture
    (never allocated), cropping, chroma format, tone mapping, [iCodingType].
    Members that are only carried from a picture to its frame store are in the
    record [pic_info] that both have. *)

From stdpp Require Import base list numbers.
From Stdlib Require Import ZArith Lia Bool.
From S2P Require Import Prelude.

#[local] Open Scope Z_scope.

(** ** Constants and enumerations *)

Definition MAX_LIST_SIZE : Z := 33.
Definition MAX_PIC_BUF_NUM : Z := 128.
Definition DPB_SIZE_MAX : Z := 32.
Definition DEC_REF_PIC_MARKING_BUFFER_NUM_MAX : Z := 45.
Definition REORDERING_COMMAND_MAX_SIZE : Z := 33.
Definition FRAME_NUM_MAX_SIZE : Z := 65536.
Definition INT_MIN : Z := - 2 ^ 31.
Definition INT_MAX : Z := 2 ^ 31 - 1.
Definition H264_OUTPUT_MODE_FAST : Z := 8.

Definition DUMMY_PIC : Z := MAX_PIC_BUF_NUM.
Definition DUMMY_FS : Z := DPB_SIZE_MAX.

(** The bits of [data_flag]. *)
Definition I_FLAG : Z := 1.
Definition IDR_FLAG : Z := 2.
Definition NOOUTPUT_FLAG : Z := 8.
Definition ERROR_FLAG : Z := 16.
Definition NULL_FLAG : Z := 32.
Definition FIELD_DISP_FLAG : Z := 64.
Definition NODISP_FLAG : Z := 128.

Definition PIC_INVALID : Z := 9.

Inductive PictureStructure := FRAME | TOP_FIELD | BOTTOM_FIELD.

Inductive SliceType := P_SLICE | B_SLICE | I_SLICE | SP_SLICE | SI_SLICE | NUM_SLICE_TYPES.

Inductive FirstInsertFrm_State :=
| FirstInsertFrm_IDLE | FirstInsertFrm_OUT | FirstInsertFrm_RESET | FirstInsertFrm_SKIPDONE.

Inductive FrameNumGap_Value := FrameNumGap_Null | FrameNumGap_Normal | FrameNumGap_Loop.

#[export] Instance PictureStructure_eq_dec : EqDecision PictureStructure.
Proof. solve_decision. Defined.
#[export] Instance SliceType_eq_dec : EqDecision SliceType.
Proof. solve_decision. Defined.
#[export] Instance FirstInsertFrm_State_eq_dec : EqDecision FirstInsertFrm_State.
Proof. solve_decision. Defined.

(** [is_eq x y]: C's [x == y] on enumerations and pointers. *)
Definition is_eq {A} `{EqDecision A} (x y : A) : bool := bool_decide (x = y).

(** [x & m] as a condition. *)
Definition bit (x m : Z) : bool := truth (Z.land x m).

(** ** Parameter sets and slices *)

Record SPSParameters := mk_sps {
  pic_order_cnt_type : Z;
  log2_max_pic_order_cnt_lsb_minus4 : Z;
  num_ref_frames_in_pic_order_cnt_cycle : Z;
  offset_for_ref_frame : list Z;
  offset_for_non_ref_pic : Z;
  offset_for_top_to_bottom_field : Z;
  sps_frame_mbs_only_flag : bool;
  sps_num_ref_frames : Z;
  log2_max_frame_num_minus4 : Z;
  frame_num_gap_allowed : Z;
  profile_idc : Z
}.

#[export] Instance eta_sps : Settable SPSParameters := fun r =>
  mk_sps (pic_order_cnt_type r) (log2_max_pic_order_cnt_lsb_minus4 r) (num_ref_frames_in_pic_order_cnt_cycle r)
    (offset_for_ref_frame r) (offset_for_non_ref_pic r) (offset_for_top_to_bottom_field r) (sps_frame_mbs_only_flag r)
    (sps_num_ref_frames r) (log2_max_frame_num_minus4 r) (frame_num_gap_allowed r) (profile_idc r).

(** [Next] is an index of the slice's buffer. *)
Record DecRefPicMarking_s := mk_drpm {
  memory_management_control_operation : Z;
  difference_of_pic_nums_minus1 : Z;
  long_term_pic_num : Z;
  long_term_frame_idx : Z;
  max_long_term_frame_idx_plus1 : Z;
  Next : option Z
}.

#[export] Instance eta_drpm : Settable DecRefPicMarking_s := fun r =>
  mk_drpm (memory_management_control_operation r) (difference_of_pic_nums_minus1 r) (long_term_pic_num r)
    (long_term_frame_idx r) (max_long_term_frame_idx_plus1 r) (Next r).

Definition zero_drpm : DecRefPicMarking_s := mk_drpm 0 0 0 0 0 None.

Record Slice := mk_slice {
  first_mb_in_slice : Z;
  mode_8x8_flags : Z;
  picture_structure_mmco : Z;
  sl_frame_num : Z;
  sl_idr_flag : bool;
  toppoc : Z;
  bottompoc : Z;
  framepoc : Z;
  pic_order_cnt_lsb : Z;
  PicOrderCntMsb : Z;
  field_pic_flag : bool;
  bottom_field_flag : bool;
  ThisPOC : Z;
  nal_reference_idc : Z;
  AbsFrameNum : Z;
  delta_pic_order_cnt_bottom : Z;
  delta_pic_order_cnt : Z * Z;
  listXsize : list Z;                       (** [6] *)
  listX : list (list (option Z));           (** [6][MAX_LIST_SIZE * 2] *)
  sl_structure : PictureStructure;
  sl_long_term_reference_flag : bool;
  sl_no_output_of_prior_pics_flag : bool;
  sl_adaptive_ref_pic_buffering_flag : bool;
  num_ref_idx_active : Z * Z;
  sl_slice_type : SliceType;
  ref_pic_list_reordering_flag : list bool;            (** [2] *)
  modification_of_pic_nums_idc : list (list Z);        (** [2][REORDERING_COMMAND_MAX_SIZE] *)
  abs_diff_pic_num_minus1 : list (list Z);
  long_term_pic_idx : list (list Z);
  marking_buffer : list DecRefPicMarking_s;            (** dec_ref_pic_marking_buffer[45] *)
  sl_pic_struct : Z
}.

#[export] Instance eta_slice : Settable Slice := fun r =>
  mk_slice (first_mb_in_slice r) (mode_8x8_flags r) (picture_structure_mmco r) (sl_frame_num r) (sl_idr_flag r)
    (toppoc r) (bottompoc r) (framepoc r) (pic_order_cnt_lsb r) (PicOrderCntMsb r) (field_pic_flag r)
    (bottom_field_flag r) (ThisPOC r) (nal_reference_idc r) (AbsFrameNum r) (delta_pic_order_cnt_bottom r)
    (delta_pic_order_cnt r) (listXsize r) (listX r) (sl_structure r) (sl_long_term_reference_flag r)
    (sl_no_output_of_prior_pics_flag r) (sl_adaptive_ref_pic_buffering_flag r) (num_ref_idx_active r)
    (sl_slice_type r) (ref_pic_list_reordering_flag r) (modification_of_pic_nums_idc r) (abs_diff_pic_num_minus1 r)
    (long_term_pic_idx r) (marking_buffer r) (sl_pic_struct r).

(** [active_sps]: whether the pointer is set; it can only point to [mSPS]. *)
Record VideoParameters := mk_video {
  PrevPicOrderCntMsb : Z;
  PrevPicOrderCntLsb : Z;
  last_has_mmco_5 : bool;
  last_pic_bottom_field : bool;
  v_ThisPOC : Z;
  PreviousFrameNum : Z;
  FrameNumOffset : Z;
  PreviousFrameNumOffset : Z;
  max_frame_num : Z;
  pre_frame_num : Z;
  ExpectedDeltaPerPicOrderCntCycle : Z;
  PicOrderCntCycleCnt : Z;
  FrameNumInPicOrderCntCycle : Z;
  ExpectedPicOrderCnt : Z;
  active_sps : bool;
  conceal_mode : Z;
  earlier_missing_poc : Z;
  dec_picture : option Z;
  no_reference_picture : option Z;
  non_conforming_stream : Z;
  recovery_point : Z
}.

#[export] Instance eta_video : Settable VideoParameters := fun r =>
  mk_video (PrevPicOrderCntMsb r) (PrevPicOrderCntLsb r) (last_has_mmco_5 r) (last_pic_bottom_field r) (v_ThisPOC r)
    (PreviousFrameNum r) (FrameNumOffset r) (PreviousFrameNumOffset r) (max_frame_num r) (pre_frame_num r)
    (ExpectedDeltaPerPicOrderCntCycle r) (PicOrderCntCycleCnt r) (FrameNumInPicOrderCntCycle r) (ExpectedPicOrderCnt r)
    (active_sps r) (conceal_mode r) (earlier_missing_poc r) (dec_picture r) (no_reference_picture r)
    (non_conforming_stream r) (recovery_point r).

(** ** Pictures and frame stores *)

Record pic_qos := mk_qos {
  max_mv : Z;
  avg_mv : Z;
  min_mv : Z;
  max_qp : Z;
  avg_qp : Z;
  min_qp : Z;
  max_skip : Z;
  avg_skip : Z;
  min_skip : Z
}.

#[export] Instance eta_qos : Settable pic_qos := fun r =>
  mk_qos (max_mv r) (avg_mv r) (min_mv r) (max_qp r) (avg_qp r) (min_qp r) (max_skip r) (avg_skip r) (min_skip r).

(** [pic_size] is [decoded_frame_size] in a frame store. *)
Record pic_info := mk_info {
  pts : Z;
  pts64 : Z;
  timestamp : Z;
  offset_delimiter : Z;
  frame_size : Z;
  pic_size : Z;
  recovery_frame : Z;
  layer_id : Z;
  qos : pic_qos
}.

#[export] Instance eta_info : Settable pic_info := fun r =>
  mk_info (pts r) (pts64 r) (timestamp r) (offset_delimiter r) (frame_size r) (pic_size r) (recovery_frame r)
    (layer_id r) (qos r).

Record StorablePicture := mk_pic {
  p_index : Z;
  p_is_used : bool;
  p_structure : PictureStructure;
  p_poc : Z;
  p_top_poc : Z;
  p_bottom_poc : Z;
  p_frame_poc : Z;
  p_frame_num : Z;
  p_pic_num : Z;
  p_buf_spec_num : Z;
  p_buf_spec_is_alloced : bool;
  p_col_buf_is_alloced : bool;
  p_colocated_buf_index : Z;
  p_long_term_pic_num : Z;
  p_long_term_frame_idx : Z;
  p_is_long_term : bool;
  p_used_for_reference : bool;
  p_is_output : bool;
  p_pre_output : bool;
  p_non_existing : bool;
  p_coded_frame : bool;
  p_mb_aff_frame_flag : bool;
  p_top_field : option Z;
  p_bottom_field : option Z;
  p_frame : option Z;
  p_slice_type : SliceType;
  p_idr_flag : bool;
  p_no_output_of_prior_pics_flag : bool;
  p_long_term_reference_flag : bool;
  p_adaptive_ref_pic_buffering_flag : bool;
  p_frame_mbs_only_flag : bool;
  p_dec_ref_pic_marking_buffer : option Z;
  p_data_flag : Z;
  p_pic_struct : Z;
  p_info : pic_info
}.

#[export] Instance eta_pic : Settable StorablePicture := fun r =>
  mk_pic (p_index r) (p_is_used r) (p_structure r) (p_poc r) (p_top_poc r) (p_bottom_poc r) (p_frame_poc r)
    (p_frame_num r) (p_pic_num r) (p_buf_spec_num r) (p_buf_spec_is_alloced r) (p_col_buf_is_alloced r)
    (p_colocated_buf_index r) (p_long_term_pic_num r) (p_long_term_frame_idx r) (p_is_long_term r)
    (p_used_for_reference r) (p_is_output r) (p_pre_output r) (p_non_existing r) (p_coded_frame r)
    (p_mb_aff_frame_flag r) (p_top_field r) (p_bottom_field r) (p_frame r) (p_slice_type r) (p_idr_flag r)
    (p_no_output_of_prior_pics_flag r) (p_long_term_reference_flag r) (p_adaptive_ref_pic_buffering_flag r)
    (p_frame_mbs_only_flag r) (p_dec_ref_pic_marking_buffer r) (p_data_flag r) (p_pic_struct r) (p_info r).

(** The members [is_used], [is_reference], [is_long_term] and
    [is_orig_reference] are masks: 1 for the top field, 2 for the bottom one. *)
Record FrameStore := mk_fs {
  f_buf_spec_num : Z;
  f_colocated_buf_index : Z;
  f_is_used : Z;
  f_is_reference : Z;
  f_is_long_term : Z;
  f_is_orig_reference : Z;
  f_frame_num : Z;
  f_frame_num_wrap : Z;
  f_long_term_frame_idx : Z;
  f_is_output : bool;
  f_pre_output : bool;
  f_index : Z;
  f_data_flag : Z;
  f_poc : Z;
  f_concealment_reference : bool;
  f_frame : option Z;
  f_top_field : option Z;
  f_bottom_field : option Z;
  f_slice_type : SliceType;
  f_dpb_frame_count : Z;
  f_hw_decode_time : Z;
  f_frame_size2 : Z;
  f_show_frame : bool;
  f_info : pic_info
}.

#[export] Instance eta_fs : Settable FrameStore := fun r =>
  mk_fs (f_buf_spec_num r) (f_colocated_buf_index r) (f_is_used r) (f_is_reference r) (f_is_long_term r)
    (f_is_orig_reference r) (f_frame_num r) (f_frame_num_wrap r) (f_long_term_frame_idx r) (f_is_output r)
    (f_pre_output r) (f_index r) (f_data_flag r) (f_poc r) (f_concealment_reference r) (f_frame r) (f_top_field r)
    (f_bottom_field r) (f_slice_type r) (f_dpb_frame_count r) (f_hw_decode_time r) (f_frame_size2 r) (f_show_frame r)
    (f_info r).

Record DecodedPictureBuffer := mk_dpb {
  fs : list (option Z);
  fs_ref : list (option Z);
  fs_ltref : list (option Z);
  fs_list0 : list (option Z);
  fs_list1 : list (option Z);
  fs_listlt : list (option Z);
  size : Z;
  used_size : Z;
  ref_frames_in_buffer : Z;
  ltref_frames_in_buffer : Z;
  last_output_poc : Z;
  max_long_term_pic_idx : Z;
  init_done : bool;
  first_pic_done : bool;
  num_ref_frames : Z;
  last_picture : option Z
}.

#[export] Instance eta_dpb : Settable DecodedPictureBuffer := fun r =>
  mk_dpb (fs r) (fs_ref r) (fs_ltref r) (fs_list0 r) (fs_list1 r) (fs_listlt r) (size r) (used_size r)
    (ref_frames_in_buffer r) (ltref_frames_in_buffer r) (last_output_poc r) (max_long_term_pic_idx r) (init_done r)
    (first_pic_done r) (num_ref_frames r) (last_picture r).

(** ** Structures filled with zeros *)

Definition zero_sps : SPSParameters := mk_sps 0 0 0 (repeat 0 128) 0 0 false 0 0 0 0.

Definition zero_slice : Slice :=
  mk_slice 0 0 0 0 false 0 0 0 0 0 false false 0 0 0 0 (0, 0) (repeat 0 6) (repeat (repeat None 66) 6) FRAME false false false
    (0, 0) P_SLICE [false; false] (repeat (repeat 0 33) 2) (repeat (repeat 0 33) 2) (repeat (repeat 0 33) 2)
    (repeat zero_drpm 45) 0.

Definition zero_video : VideoParameters := mk_video 0 0 false false 0 0 0 0 0 0 0 0 0 0 false 0 0 None None 0 0.

Definition zero_info : pic_info := mk_info 0 0 0 0 0 0 0 0 (mk_qos 0 0 0 0 0 0 0 0 0).

Definition zero_pic : StorablePicture :=
  mk_pic 0 false FRAME 0 0 0 0 0 0 0 false false 0 0 0 false false false false false false false None None None P_SLICE
    false false false false false None 0 0 zero_info.

Definition zero_fs : FrameStore :=
  mk_fs 0 0 0 0 0 0 0 0 0 false false 0 0 0 false None None None P_SLICE 0 0 0 false zero_info.

Definition zero_dpb : DecodedPictureBuffer :=
  mk_dpb (repeat None 32) (repeat None 32) (repeat None 32) (repeat None 32) (repeat None 32) (repeat None 32)
    0 0 0 0 0 0 false false 0 None.

(** ** The state *)

(** What is done outside the file. *)
Inductive event :=
| Ev_release_buf_spec (n : Z)
| Ev_get_free_buf_idx (n : Z)
| Ev_prepare_display (k : Z)
| Ev_post_picture_early (n : Z)
| Ev_force_recover.

(** The registers the firmware fills; members of the union overlap only where
    they are not used. *)
Record dpb_param := mk_param {
  l_data : list Z;
  offset_for_ref_frame_base : list Z;       (** [128] *)
  l0_reorder_cmd : list Z;                  (** [66] *)
  l1_reorder_cmd : list Z;
  mmco_cmd : list Z;                        (** [44] *)
  NAL_info_mmco : Z;
  pa_picture_structure_mmco : Z;
  pa_frame_num : Z;
  pa_pic_order_cnt_lsb : Z;
  num_ref_idx_l0_active_minus1 : Z;
  num_ref_idx_l1_active_minus1 : Z;
  pa_delta_pic_order_cnt_bottom : Z * Z;
  pa_delta_pic_order_cnt_0 : Z * Z;
  pa_delta_pic_order_cnt_1 : Z * Z
}.

(** [dpb_error_flag] holds a line number, read as a condition only. *)
Record h264_dpb_stru := mk_h264 {
  param : dpb_param;
  reorder_output : Z;
  dec_dpb_size : Z;
  fast_output_enable : Z;
  poc_even_odd_flag : Z;
  poc_check_count : Z;
  max_reference_size : Z;
  colocated_buf_map : Z;
  colocated_buf_count : Z;
  mDPB : DecodedPictureBuffer;
  mSlice : Slice;
  mVideo : VideoParameters;
  mSPS : SPSParameters;
  m_PIC : list StorablePicture;             (** [MAX_PIC_BUF_NUM], and dummy_pic *)
  mFrameStore : list FrameStore;            (** [DPB_SIZE_MAX], and dummy_fs *)
  bitstream_restriction_flag : bool;
  buf_alloc_fail : bool;
  dpb_error_flag : bool;
  first_insert_frame : FirstInsertFrm_State;
  first_output_poc : Z;
  dpb_frame_count : Z;
  wait_aux_data_flag : bool;
  without_display_mode : bool;
  h264_long_term_reference_flag : bool;
  events : list event
}.

#[export] Instance eta_h264 : Settable h264_dpb_stru := fun r =>
  mk_h264 (param r) (reorder_output r) (dec_dpb_size r) (fast_output_enable r) (poc_even_odd_flag r) (poc_check_count r)
    (max_reference_size r) (colocated_buf_map r) (colocated_buf_count r) (mDPB r) (mSlice r) (mVideo r) (mSPS r) (m_PIC r)
    (mFrameStore r) (bitstream_restriction_flag r) (buf_alloc_fail r) (dpb_error_flag r) (first_insert_frame r)
    (first_output_poc r) (dpb_frame_count r) (wait_aux_data_flag r) (without_display_mode r)
    (h264_long_term_reference_flag r) (events r).

Definition D A := M h264_dpb_stru A.

#[export] Instance D_ret : MRet D := M_ret h264_dpb_stru.
#[export] Instance D_bind : MBind D := M_bind h264_dpb_stru.

(** ** Access through pointers *)

Definition pic_at (o : option Z) : D StorablePicture :=
  p ← of_option o; l ← gets m_PIC; of_option (aget l p).

Definition upd_pic (o : option Z) (g : StorablePicture → StorablePicture) : D unit :=
  p ← of_option o;
  l ← gets m_PIC;
  x ← of_option (aget l p);
  modify (fun s => s <| m_PIC := <[Z.to_nat p := g x]> (m_PIC s) |>).

Definition fs_at (o : option Z) : D FrameStore :=
  k ← of_option o; l ← gets mFrameStore; of_option (aget l k).

Definition upd_fs (o : option Z) (g : FrameStore → FrameStore) : D unit :=
  k ← of_option o;
  l ← gets mFrameStore;
  x ← of_option (aget l k);
  modify (fun s => s <| mFrameStore := <[Z.to_nat k := g x]> (mFrameStore s) |>).

Definition upd_dpb (g : DecodedPictureBuffer → DecodedPictureBuffer) : D unit := modify (fun s => s <| mDPB := g (mDPB s) |>).
Definition upd_video (g : VideoParameters → VideoParameters) : D unit := modify (fun s => s <| mVideo := g (mVideo s) |>).
Definition upd_slice (g : Slice → Slice) : D unit := modify (fun s => s <| mSlice := g (mSlice s) |>).
Definition upd_sps (g : SPSParameters → SPSParameters) : D unit := modify (fun s => s <| mSPS := g (mSPS s) |>).

(** An element of an array of pointers in [mDPB]: [p_Dpb->fs[i]]. *)
Definition ptr_of (arr : DecodedPictureBuffer → list (option Z)) (i : Z) : D (option Z) :=
  l ← gets (fun s => arr (mDPB s)); of_option (aget l i).

Definition log (e : event) : D unit := modify (fun s => s <| events := events s ++ [e] |>).

Definition error_flag : D unit := modify (fun s => s <| dpb_error_flag := true |>).

(** [if (p) ... p->member = v;] *)
Definition on_pic (o : option Z) (g : StorablePicture → StorablePicture) : D unit :=
  match o with None => mret tt | Some _ => upd_pic o g end.

(** [p && g(p)] *)
Definition test_pic (o : option Z) (g : StorablePicture → bool) : D bool :=
  match o with None => mret false | Some _ => p ← pic_at o; mret (g p) end.

(** [a && b] and [a || b] on conditions that read memory. *)
Definition and_then (a b : D bool) : D bool := x ← a; if (x : bool) then b else mret false.
Definition or_else (a b : D bool) : D bool := x ← a; if (x : bool) then mret true else b.

(** The body of a loop that may [continue] or [return]. *)
Inductive flow := Next_ | Continue | Return.

Definition flow_seq (a b : D flow) : D flow := r ← a; match r with Next_ => b | _ => mret r end.

(** [for (i = 0; i < hi; i++) body], left by [break] or [return]: the index at
    which that happened. *)
Fixpoint until_n (n : nat) (i : Z) (body : Z → D flow) : D (option Z) :=
  match n with
  | O => mret None
  | S n => r ← body i; match r with Return => mret (Some i) | _ => until_n n (i + 1) body end
  end.

Definition until (hi : Z) (body : Z → D flow) : D (option Z) := until_n (Z.to_nat hi) 0 body.

(** ** The decoder driver *)

(** A buffer for pictures: [used] is 0 for a free one, 1 for one of a picture
    in the decoded picture buffer, 2 for one of a frame that was handed over,
    3 and 5 for one the decoded picture buffer has let go since then, 4 for one
    that is to be released; [vf_ref] counts the [vframe_s] that are out. *)
Record buffer_spec_s := mk_buffer_spec {
  used : Z;
  vf_ref : Z;
  fs_idx : Z
}.

#[export] Instance eta_buffer_spec : Settable buffer_spec_s := fun r => mk_buffer_spec (used r) (vf_ref r) (fs_idx r).

(** A fence: [dma_fence_get_status] and the count of its references. *)
Record fence_s := mk_fence { fence_status : Z; fence_refcount : Z }.

(** What is handed over: the index of the frame store and of the buffer in one
    number, and its fence. *)
Record vframe_s := mk_vframe {
  vf_index : Z;
  vf_fence : option fence_s
}.

(** The members of [struct vdec_h264_hw_s] and the parameters of the module
    that [prepare_display_buf] and the functions it calls, and the policy for
    repeated playback, look at.  [fence_vf] holds vframes with their fences.
    [pts_lookup] stands for the look up of time stamps by the decoder: from
    what the frame carries to [pts], [pts64] and [frame_size]; [None] when the decoder does not
    look them up. *)
Record vdec_h264_hw_s := mk_hw {
  enable_fence : bool;
  force_disp_bufspec_num : Z;
  buffer_spec : list buffer_spec_s;
  newframe_q : list vframe_s;
  display_q : list vframe_s;
  fence_vf : list (option (Z * fence_s));
  fence_used_size : Z;
  error_skip_count : Z;
  no_error_count : Z;
  no_error_i_count : Z;
  i_only : Z;
  send_error_frame_flag : bool;
  is_used_v4l : bool;
  is_stream_off : bool;
  prog_only : bool;
  vdec_secure : bool;
  mmu_enable : bool;
  dec_control : Z;
  hw_bitstream_restriction_flag : bool;
  frame_width : Z;
  frame_height : Z;
  frame_dur : Z;
  level_idc : Z;
  pts_lookup : option (pic_info → Z * Z * Z);
  loop_flag : Z;
  loop_last_poc : Z;
  loop_playback_poc_threshold : Z;
  poc_threshold : Z;
  loop_times : Z
}.

#[export] Instance eta_hw : Settable vdec_h264_hw_s := fun r =>
  mk_hw (enable_fence r) (force_disp_bufspec_num r) (buffer_spec r) (newframe_q r) (display_q r) (fence_vf r)
    (fence_used_size r) (error_skip_count r) (no_error_count r) (no_error_i_count r) (i_only r) (send_error_frame_flag r)
    (is_used_v4l r) (is_stream_off r) (prog_only r) (vdec_secure r) (mmu_enable r) (dec_control r)
    (hw_bitstream_restriction_flag r) (frame_width r) (frame_height r) (frame_dur r) (level_idc r) (pts_lookup r)
    (loop_flag r) (loop_last_poc r) (loop_playback_poc_threshold r) (poc_threshold r) (loop_times r).

(** What the buffer finds in the driver (vmh264.c).  [hw_state] is the state
    of the driver, which other threads change all the time: what an operation
    finds when it looks at it is any function of what happened before.  Of
    [get_free_buf_idx] and [post_picture_early] only the answer matters here;
    any answer is allowed.  [mvfrm] is the vdec's frame in progress. *)
Class H264Driver := {
  hw_state : list event → vdec_h264_hw_s;
  get_free_buf_idx : list event → Z;
  post_picture_early : list event → Z → bool;
  is_save_buffer_mode : bool;
  get_error_proc_policy : Z;
  bufspec_lock : bool;                      (** vh264_get_bufspec_lock is not NULL *)
  mvfrm : option (Z * Z)                    (** frame_size, hw_decode_time *)
}.
