(* ===== verification/H264Poc.v ===== *)
(** Picture order counts (src/drivers/frame_provider/decoder/h264_multi/
    h264_dpb.c, [decode_poc]): the three ways of H.264 (8.2.1) to derive the
    order count of a picture from its slice header, against their definition
    in the standard.

    Signed arithmetic wraps, as the kernel is built; a shift by 32 or more is
    undefined. *)

From stdpp Require Import base list numbers.
From Stdlib Require Import ZArith Lia Bool.
From S2P Require Import Prelude H264Types.

#[local] Open Scope Z_scope.

(** ** The code *)

(** [1 << (log2_max_pic_order_cnt_lsb_minus4 + 4)] *)
Definition MaxPicOrderCntLsb (sps : SPSParameters) : option Z :=
  let n := s32 (log2_max_pic_order_cnt_lsb_minus4 sps + 4) in
  if (0 <=? n) && (n <? 32) then Some (2 ^ n) else None.

(** The comparison with [MaxPicOrderCntLsb >> 1] is one of unsigned numbers. *)
Definition poc_msb (max : Z) (v : VideoParameters) (lsb : Z) : Z :=
  let prev := PrevPicOrderCntLsb v in
  if (lsb <? prev) && (Z.shiftr max 1 <=? u32 (prev - lsb)) then s32 (PrevPicOrderCntMsb v + max)
  else if (prev <? lsb) && (Z.shiftr max 1 <? u32 (lsb - prev)) then s32 (PrevPicOrderCntMsb v - max)
  else PrevPicOrderCntMsb v.

(** What precedes the derivation of the most significant part. *)
Definition poc0_prev (v : VideoParameters) (sl : Slice) : VideoParameters :=
  if sl_idr_flag sl then v <| PrevPicOrderCntMsb := 0 |> <| PrevPicOrderCntLsb := 0 |>
  else if last_has_mmco_5 v then
    v <| PrevPicOrderCntMsb := 0 |> <| PrevPicOrderCntLsb := if last_pic_bottom_field v then 0 else toppoc sl |>
  else v.

Definition poc_case0 (max : Z) (v : VideoParameters) (sl : Slice) : VideoParameters * Slice :=
  let v := poc0_prev v sl in
  let sl := sl <| PicOrderCntMsb := poc_msb max v (pic_order_cnt_lsb sl) |> in
  let poc := s32 (PicOrderCntMsb sl + pic_order_cnt_lsb sl) in
  let sl :=
    if negb (field_pic_flag sl) then
      let btm := s32 (poc + delta_pic_order_cnt_bottom sl) in
      sl <| toppoc := poc |> <| bottompoc := btm |> <| ThisPOC := if poc <? btm then poc else btm |>
    else if negb (bottom_field_flag sl) then sl <| ThisPOC := poc |> <| toppoc := poc |>
    else sl <| ThisPOC := poc |> <| bottompoc := poc |> in
  let sl := sl <| framepoc := ThisPOC sl |> in
  let v := v <| v_ThisPOC := ThisPOC sl |> <| PreviousFrameNum := sl_frame_num sl |> in
  let v := if truth (nal_reference_idc sl) then
             v <| PrevPicOrderCntLsb := pic_order_cnt_lsb sl |> <| PrevPicOrderCntMsb := PicOrderCntMsb sl |>
           else v in
  (v, sl).

(** [FrameNumOffset] of a picture that is not an IDR picture. *)
Definition frame_num_offset (v : VideoParameters) (frame_num : Z) : VideoParameters :=
  let v := if last_has_mmco_5 v then v <| PreviousFrameNumOffset := 0 |> <| PreviousFrameNum := 0 |> else v in
  v <| FrameNumOffset := if frame_num <? PreviousFrameNum v then s32 (PreviousFrameNumOffset v + max_frame_num v)
                         else PreviousFrameNumOffset v |>.

(** [for (i = 0; i < n && i < ARRAY_SIZE(offset_for_ref_frame); i++) acc += offset_for_ref_frame[i];] *)
Definition add_offsets (sps : SPSParameters) (n acc : Z) : Z :=
  fold_left (fun acc x => s32 (acc + x)) (take (Z.to_nat n) (offset_for_ref_frame sps)) acc.

(** The expected order count, from [AbsFrameNum]. *)
Definition expected_poc (sps : SPSParameters) (v : VideoParameters) (sl : Slice) : VideoParameters :=
  let n := num_ref_frames_in_pic_order_cnt_cycle sps in
  let v := v <| ExpectedDeltaPerPicOrderCntCycle := if truth n then add_offsets sps n 0 else 0 |> in
  let v :=
    if truth (AbsFrameNum sl) then
      let v := v <| PicOrderCntCycleCnt := Z.quot (s32 (AbsFrameNum sl - 1)) n |>
                 <| FrameNumInPicOrderCntCycle := Z.rem (s32 (AbsFrameNum sl - 1)) n |> in
      v <| ExpectedPicOrderCnt :=
             add_offsets sps (FrameNumInPicOrderCntCycle v + 1)
               (s32 (PicOrderCntCycleCnt v * ExpectedDeltaPerPicOrderCntCycle v)) |>
    else v <| ExpectedPicOrderCnt := 0 |> in
  if truth (nal_reference_idc sl) then v
  else v <| ExpectedPicOrderCnt := s32 (ExpectedPicOrderCnt v + offset_for_non_ref_pic sps) |>.

Definition poc_case1 (sps : SPSParameters) (v : VideoParameters) (sl : Slice) : VideoParameters * Slice :=
  let v := if sl_idr_flag sl then v <| FrameNumOffset := 0 |> else frame_num_offset v (sl_frame_num sl) in
  let abs := if truth (num_ref_frames_in_pic_order_cnt_cycle sps) then s32 (FrameNumOffset v + sl_frame_num sl) else 0 in
  let sl := sl <| AbsFrameNum := if negb (truth (nal_reference_idc sl)) && (0 <? abs) then abs - 1 else abs |> in
  let v := expected_poc sps v sl in
  let '(d0, d1) := delta_pic_order_cnt sl in
  let poc := s32 (ExpectedPicOrderCnt v + d0) in
  let sl :=
    if negb (field_pic_flag sl) then
      let btm := s32 (poc + offset_for_top_to_bottom_field sps + d1) in
      sl <| toppoc := poc |> <| bottompoc := btm |> <| ThisPOC := if poc <? btm then poc else btm |>
    else if negb (bottom_field_flag sl) then sl <| ThisPOC := poc |> <| toppoc := poc |>
    else
      let btm := s32 (ExpectedPicOrderCnt v + offset_for_top_to_bottom_field sps + d0) in
      sl <| ThisPOC := btm |> <| bottompoc := btm |> in
  let sl := sl <| framepoc := ThisPOC sl |> in
  (v <| PreviousFrameNum := sl_frame_num sl |> <| PreviousFrameNumOffset := FrameNumOffset v |>, sl).

Definition poc_case2 (v : VideoParameters) (sl : Slice) : VideoParameters * Slice :=
  let '(v, sl) :=
    if sl_idr_flag sl then
      (v <| FrameNumOffset := 0 |>, sl <| ThisPOC := 0 |> <| framepoc := 0 |> <| toppoc := 0 |> <| bottompoc := 0 |>)
    else
      let v := frame_num_offset v (sl_frame_num sl) in
      let abs := s32 (FrameNumOffset v + sl_frame_num sl) in
      let poc := if truth (nal_reference_idc sl) then s32 (2 * abs) else s32 (2 * abs - 1) in
      let sl := sl <| AbsFrameNum := abs |> <| ThisPOC := poc |> <| framepoc := poc |> in
      (v, if negb (field_pic_flag sl) then sl <| toppoc := poc |> <| bottompoc := poc |>
          else if negb (bottom_field_flag sl) then sl <| toppoc := poc |> else sl <| bottompoc := poc |>) in
  (v <| PreviousFrameNum := sl_frame_num sl |> <| PreviousFrameNumOffset := FrameNumOffset v |>, sl).

(** [decode_poc(p_Vid, pSlice)]; [None]: an undefined shift. *)
Definition poc_of (sps : SPSParameters) (v : VideoParameters) (sl : Slice) : option (VideoParameters * Slice) :=
  match MaxPicOrderCntLsb sps with
  | None => None
  | Some max => Some (
      if pic_order_cnt_type sps =? 0 then poc_case0 max v sl
      else if pic_order_cnt_type sps =? 1 then poc_case1 sps v sl
      else if pic_order_cnt_type sps =? 2 then poc_case2 v sl
      else (v, sl))
  end.

Definition decode_poc : D unit :=
  s ← get;
  if active_sps (mVideo s) then
    r ← of_option (poc_of (mSPS s) (mVideo s) (mSlice s));
    modify (fun s => s <| mVideo := r.1 |> <| mSlice := r.2 |>)
  else undef.

(** ** Type 0: the nearest count with the given least significant part *)

(** Two numbers that agree modulo [max] and lie in the same half open window of
    that size are equal. *)
Lemma window_unique max a b prev : 0 < max → a mod max = b mod max → - max < 2 * (a - prev) ≤ max → - max < 2 * (b - prev) ≤ max → a = b.
Proof.
  intros Hm He Ha Hb. pose proof (Z.div_mod a max ltac:(lia)) as Ea. pose proof (Z.div_mod b max ltac:(lia)) as Eb. rewrite He in Ea.
  assert (a - b = max * (a / max - b / max)) as Hd by lia. assert (a / max - b / max = 0); [|lia]. nia.
Qed.

(** What the most significant part is chosen for. *)
Lemma poc_msb_nearest n v lsb : let max := 2 ^ n in 1 ≤ n ≤ 29 → 0 ≤ lsb < max → 0 ≤ PrevPicOrderCntLsb v < max →
  - 2 ^ 30 ≤ PrevPicOrderCntMsb v ≤ 2 ^ 30 → PrevPicOrderCntMsb v mod max = 0 →
  poc_msb max v lsb mod max = 0 ∧ - max < 2 * (poc_msb max v lsb + lsb - (PrevPicOrderCntMsb v + PrevPicOrderCntLsb v)) ≤ max.
Proof.
  intros max Hn Hlsb Hprev Hmsb Hmod. assert (0 < max ≤ 2 ^ 29) as Hmax.
  { unfold max. split; [lia|apply Z.pow_le_mono_r; lia]. }
  assert (max = 2 * Z.shiftr max 1) as Hhalf.
  { rewrite Z.shiftr_div_pow2 by lia. change (2 ^ 1) with 2. unfold max. replace n with (Z.succ (n - 1)) by lia. rewrite Z.pow_succ_r by lia.
    rewrite (Z.mul_comm 2), Z.div_mul by lia. lia. }
  clearbody max. unfold poc_msb. set (h := Z.shiftr max 1) in *. clearbody h. cbv zeta. set (prev := PrevPicOrderCntLsb v) in *. set (msb := PrevPicOrderCntMsb v) in *.
  clearbody prev msb.
  destruct (Z.ltb_spec lsb prev); cbn [andb].
  - rewrite u32_id by lia. rewrite (proj2 (Z.ltb_ge prev lsb)) by lia. cbn [andb]; cbv iota. destruct (Z.leb_spec h (prev - lsb)); cbv iota; [|split; [exact Hmod|lia]].
    rewrite s32_id by lia. split; [|lia]. rewrite <- Zplus_mod_idemp_r, Z_mod_same_full, Z.add_0_r. done.
  - destruct (Z.ltb_spec prev lsb); cbn [andb]; cbv iota; [|split; [exact Hmod|lia]]. rewrite u32_id by lia. destruct (Z.ltb_spec h (lsb - prev)); [|split; [done|lia]].
    rewrite s32_id by lia. split; [|lia]. rewrite <- Zminus_mod_idemp_r, Z_mod_same_full, Z.sub_0_r. done.
Qed.

(** *** Coding a sequence *)

(** A frame as an encoder sees it: the order counts of its fields, whether it
    is a reference, whether it starts a sequence. *)
Record coded_frame := mk_coded { c_top : Z; c_bottom : Z; c_ref : bool; c_idr : bool }.

(** What its slice header carries when the least significant part has [n] bits. *)
Definition poc_header (n : Z) (c : coded_frame) (sl : Slice) : Slice :=
  sl <| pic_order_cnt_lsb := c_top c mod 2 ^ n |> <| delta_pic_order_cnt_bottom := c_bottom c - c_top c |>
     <| nal_reference_idc := if c_ref c then 1 else 0 |> <| sl_idr_flag := c_idr c |> <| field_pic_flag := false |>.

(** The count the next one is coded against. *)
Definition next_base (base : Z) (c : coded_frame) : Z := if c_ref c then c_top c else if c_idr c then 0 else base.

(** Each count is near enough to that of the last reference. *)
Fixpoint well_coded (n base : Z) (l : list coded_frame) : Prop :=
  match l with
  | [] => True
  | c :: l =>
      - 2 ^ n < 2 * (c_top c - (if c_idr c then 0 else base)) ≤ 2 ^ n ∧ - 2 ^ 29 ≤ c_top c ≤ 2 ^ 29 ∧ - 2 ^ 29 ≤ c_bottom c ≤ 2 ^ 29 ∧
      well_coded n (next_base base c) l
  end.

(** [decode_poc] on a sequence of headers; the order counts of the fields. *)
Fixpoint decode_pocs (n : Z) (sps : SPSParameters) (v : VideoParameters) (sl : Slice) (l : list coded_frame) : option (list (Z * Z)) :=
  match l with
  | [] => Some []
  | c :: l =>
      match poc_of sps v (poc_header n c sl) with
      | None => None
      | Some (v, sl) => cons (toppoc sl, bottompoc sl) <$> decode_pocs n sps v sl l
      end
  end.

(** What the decoder remembers of the last reference. *)
Definition poc_base (n base : Z) (v : VideoParameters) : Prop :=
  last_has_mmco_5 v = false ∧ PrevPicOrderCntLsb v = base mod 2 ^ n ∧ PrevPicOrderCntMsb v = base - base mod 2 ^ n ∧ - 2 ^ 29 ≤ base ≤ 2 ^ 29.

Lemma poc_case0_coded n base v sl c : 1 ≤ n ≤ 28 → poc_base n base v → well_coded n base [c] →
  let '(v', sl') := poc_case0 (2 ^ n) v (poc_header n c sl) in
  toppoc sl' = c_top c ∧ bottompoc sl' = c_bottom c ∧ framepoc sl' = Z.min (c_top c) (c_bottom c) ∧ poc_base n (next_base base c) v'.
Proof.
  intros Hn (Hm5 & Hlsb & Hmsb & Hb) (Hwin & Ht & Hbt & _). set (max := 2 ^ n) in *. assert (0 < max ≤ 2 ^ 28) as Hmax.
  { unfold max. split; [lia|apply Z.pow_le_mono_r; lia]. }
  set (b := if c_idr c then 0 else base) in *. assert (- 2 ^ 29 ≤ b ≤ 2 ^ 29) as Hbb by (unfold b; destruct (c_idr c); lia).
  set (v0 := poc0_prev v (poc_header n c sl)). assert (PrevPicOrderCntLsb v0 = b mod max ∧ PrevPicOrderCntMsb v0 = b - b mod max ∧ last_has_mmco_5 v0 = false) as (L0 & M0 & F0).
  { unfold v0, poc0_prev, b. cbn. rewrite Hm5. destruct (c_idr c); cbn; [rewrite Zmod_0_l; by rewrite Hm5|done]. }
  pose proof (Z.mod_pos_bound (c_top c) max ltac:(lia)) as Hr. pose proof (Z.mod_pos_bound b max ltac:(lia)) as Hrb.
  pose proof (poc_msb_nearest n v0 (c_top c mod max) ltac:(lia)) as Hnear. rewrite L0, M0 in Hnear. fold max in Hnear. destruct Hnear as [N1 N2]; [done|done|lia| |].
  { rewrite Zminus_mod, Zmod_mod, <- Zminus_mod, Z.sub_diag. apply Zmod_0_l. }
  assert (poc_msb max v0 (c_top c mod max) + c_top c mod max = c_top c) as Epoc.
  { apply (window_unique max _ _ b); [lia| |lia|done]. rewrite <- Zplus_mod_idemp_l, N1, Z.add_0_l. apply Zmod_mod. }
  unfold poc_case0. fold v0. cbv zeta. cbn -[poc_msb Z.pow]. fold max. rewrite Epoc, (s32_id (c_top c)), s32_id by lia.
  replace (c_top c + (c_bottom c - c_top c)) with (c_bottom c) by lia. split_and!; try done; [destruct (Z.ltb_spec (c_top c) (c_bottom c)); lia|].
  unfold next_base, poc_base. fold max. destruct (c_ref c); cbn; [split_and!; try done; lia|].
  unfold b in *. destruct (c_idr c); split_and!; try done; lia.
Qed.

Lemma MaxPicOrderCntLsb_id sps n : 1 ≤ n ≤ 28 → log2_max_pic_order_cnt_lsb_minus4 sps = n - 4 → MaxPicOrderCntLsb sps = Some (2 ^ n).
Proof.
  intros Hn E. unfold MaxPicOrderCntLsb. rewrite E. replace (n - 4 + 4) with n by lia. rewrite s32_id by lia. cbv zeta.
  by rewrite (proj2 (Z.leb_le _ _)), (proj2 (Z.ltb_lt _ _)) by lia.
Qed.

Lemma decode_pocs_coded n sps : 1 ≤ n ≤ 28 → log2_max_pic_order_cnt_lsb_minus4 sps = n - 4 → pic_order_cnt_type sps = 0 → ∀ l base v sl,
  poc_base n base v → well_coded n base l → decode_pocs n sps v sl l = Some ((fun c => (c_top c, c_bottom c)) <$> l).
Proof.
  intros Hn Hlog Htype. induction l as [|c l IH]; intros base v sl Hb Hw; [done|]. cbn [decode_pocs]. unfold poc_of.
  rewrite (MaxPicOrderCntLsb_id _ _ Hn Hlog), Htype, Z.eqb_refl. destruct Hw as (H1 & H2 & H3 & Hw).
  pose proof (poc_case0_coded n base v sl c Hn Hb) as Hstep. destruct (poc_case0 _ _ _) as [v' sl']. destruct Hstep as (-> & -> & _ & Hb'); [done|].
  by rewrite (IH (next_base base c) v' sl' Hb' Hw).
Qed.

(** C19: for order counts of type 0, what an encoder writes comes back: of a
    sequence of frames that starts with an IDR picture, whose headers carry
    only the [n] lower bits of the top field's count and the distance of the
    bottom field's, [decode_poc] recovers both counts of every frame, when each
    count lies within half of [2^n] of that of the reference before it (the
    window of 8.2.1.1: above minus a half, up to plus a half). *)
Theorem decode_poc_roundtrip n sps v sl c l : 1 ≤ n ≤ 28 → log2_max_pic_order_cnt_lsb_minus4 sps = n - 4 → pic_order_cnt_type sps = 0 →
  c_idr c = true → last_has_mmco_5 v = false → well_coded n 0 (c :: l) →
  decode_pocs n sps v sl (c :: l) = Some ((fun c => (c_top c, c_bottom c)) <$> c :: l).
Proof.
  intros Hn Hlog Htype Hidr Hm5 Hw. cbn [decode_pocs]. unfold poc_of. rewrite (MaxPicOrderCntLsb_id _ _ Hn Hlog), Htype, Z.eqb_refl.
  set (v0 := v <| PrevPicOrderCntMsb := 0 |> <| PrevPicOrderCntLsb := 0 |>).
  assert (poc_case0 (2 ^ n) v (poc_header n c sl) = poc_case0 (2 ^ n) v0 (poc_header n c sl)) as ->.
  { unfold poc_case0. assert (poc0_prev v (poc_header n c sl) = poc0_prev v0 (poc_header n c sl)) as ->; [|done]. unfold poc0_prev. cbn -[Z.pow]. by rewrite Hidr. }
  assert (poc_base n 0 v0) as Hb by (unfold poc_base; rewrite Zmod_0_l; split_and!; [done|done|done|lia|lia]).
  destruct Hw as (H1 & H2 & H3 & Hw). pose proof (poc_case0_coded n 0 v0 sl c Hn Hb) as Hstep. destruct (poc_case0 _ v0 _) as [v' sl'].
  destruct Hstep as (-> & -> & _ & Hb'); [done|]. by rewrite (decode_pocs_coded n sps Hn Hlog Htype l _ v' sl' Hb' Hw).
Qed.

(** ** Type 1: the sum of the offsets so far *)

(** The order count of 8.2.1.2 without the cycle: one offset for every frame
    since the IDR picture. *)
Definition offset_at (sps : SPSParameters) (i : Z) : Z := tab (offset_for_ref_frame sps) (i mod num_ref_frames_in_pic_order_cnt_cycle sps).

Fixpoint sum_offsets (sps : SPSParameters) (k : nat) : Z :=
  match k with O => 0 | S k => sum_offsets sps k + offset_at sps (Z.of_nat k) end.

(** The parameter set as [slice_prepare] fills it: an array of 128 offsets, of
    which a cycle uses as many as it has frames. *)
Definition offsets_ok (sps : SPSParameters) : Prop :=
  zlen (offset_for_ref_frame sps) = 128 ∧ 0 ≤ num_ref_frames_in_pic_order_cnt_cycle sps ≤ 128.

(** Arithmetic that wraps: a sum or a product may be wrapped once, at the end. *)
Lemma s32_cong x y : x mod 2 ^ 32 = y mod 2 ^ 32 → s32 x = s32 y.
Proof. intros E. unfold s32. f_equal. rewrite <- (Zplus_mod_idemp_l x), <- (Zplus_mod_idemp_l y). by rewrite E. Qed.

Lemma s32_mod x : s32 x mod 2 ^ 32 = x mod 2 ^ 32.
Proof. exact (u32_s32 x). Qed.

Lemma s32_add a b : s32 (s32 a + b) = s32 (a + b).
Proof. apply s32_cong. by rewrite <- Zplus_mod_idemp_l, s32_mod, Zplus_mod_idemp_l. Qed.

Lemma s32_mul a b : s32 (a * s32 b) = s32 (a * b).
Proof. apply s32_cong. by rewrite <- Zmult_mod_idemp_r, s32_mod, Zmult_mod_idemp_r. Qed.

Section Offsets.
Context (sps : SPSParameters) (Hok : offsets_ok sps).
Notation n := (num_ref_frames_in_pic_order_cnt_cycle sps).

(** Adding offsets from the start of a cycle. *)
Lemma add_offsets_sum k : (k ≤ Z.to_nat n)%nat → ∀ acc, add_offsets sps (Z.of_nat k) (s32 acc) = s32 (acc + sum_offsets sps k).
Proof.
  destruct Hok as (Hl & Hn). intros Hk acc. unfold add_offsets. rewrite Nat2Z.id.
  induction k as [|k IH]; [rewrite take_0; cbn [fold_left sum_offsets]; by rewrite Z.add_0_r|].
  destruct (lookup_lt_is_Some_2 (offset_for_ref_frame sps) k) as [x Hx]; [unfold zlen in Hl; lia|].
  rewrite (take_S_r _ _ _ Hx), fold_left_app, IH by lia. cbn [fold_left sum_offsets].
  assert (offset_at sps (Z.of_nat k) = x) as -> by (unfold offset_at, tab; rewrite Z.mod_small, Nat2Z.id by lia; by apply nth_lookup_Some).
  rewrite s32_add. f_equal. lia.
Qed.

(** Whole cycles add the same amount. *)
Lemma sum_cycles q k : n ≠ 0 → sum_offsets sps (q * Z.to_nat n + k) = Z.of_nat q * sum_offsets sps (Z.to_nat n) + sum_offsets sps k.
Proof.
  destruct Hok as (Hl & Hn). intros Hn0. revert k. induction q as [|q IH]; intros k; [cbn; lia|].
  assert (∀ k, sum_offsets sps (Z.to_nat n + k) = sum_offsets sps (Z.to_nat n) + sum_offsets sps k) as H1.
  { clear IH k. induction k as [|k IH]; [rewrite Nat.add_0_r; cbn; lia|]. rewrite Nat.add_succ_r. cbn [sum_offsets]. rewrite IH.
    assert (offset_at sps (Z.of_nat (Z.to_nat n + k)) = offset_at sps (Z.of_nat k)); [|lia]. unfold offset_at. f_equal.
    rewrite Nat2Z.inj_add, Z2Nat.id by lia. rewrite <- Zplus_mod_idemp_l, Z_mod_same_full. done. }
  rewrite Nat.mul_succ_l, (Nat.add_comm _ (Z.to_nat n)), <- Nat.add_assoc, H1, IH. lia.
Qed.

(** The expected count of 8.2.1.2 is that sum. *)
Lemma expected_poc_sum v sl : 0 ≤ AbsFrameNum sl < 2 ^ 31 → (n = 0 → AbsFrameNum sl = 0) →
  ExpectedPicOrderCnt (expected_poc sps v sl)
  = s32 (sum_offsets sps (Z.to_nat (AbsFrameNum sl)) + (if truth (nal_reference_idc sl) then 0 else offset_for_non_ref_pic sps)).
Proof.
  destruct Hok as (Hl & Hn). intros Habs H0. unfold expected_poc. cbv zeta.
  set (abs := AbsFrameNum sl) in *. assert (∀ v' : VideoParameters, ExpectedPicOrderCnt v' = s32 (sum_offsets sps (Z.to_nat abs)) →
    ExpectedPicOrderCnt (if truth (nal_reference_idc sl) then v' else v' <| ExpectedPicOrderCnt := s32 (ExpectedPicOrderCnt v' + offset_for_non_ref_pic sps) |>)
    = s32 (sum_offsets sps (Z.to_nat abs) + (if truth (nal_reference_idc sl) then 0 else offset_for_non_ref_pic sps))) as Hlast.
  { intros v' Hv. destruct (truth (nal_reference_idc sl)); cbn -[s32]; rewrite Hv; [by rewrite Z.add_0_r|apply s32_add]. }
  apply Hlast. clear Hlast. unfold truth. destruct (Z.eqb_spec abs 0) as [E0|Hne]; cbn -[add_offsets Z.pow Z.mul s32]; [by rewrite E0|].
  assert (n ≠ 0) as Hn0 by (intros E; lia). rewrite (proj2 (Z.eqb_neq n 0)) by done. cbn [negb].
  rewrite (s32_id (abs - 1)) by lia. rewrite Z.quot_div_nonneg, Z.rem_mod_nonneg by lia. set (q := (abs - 1) / n). set (r := (abs - 1) mod n).
  assert (abs = n * q + (r + 1) ∧ 0 ≤ r < n ∧ 0 ≤ q) as (Eabs & Hr & Hq).
  { unfold q, r. pose proof (Z.div_mod (abs - 1) n ltac:(lia)). pose proof (Z.mod_pos_bound (abs - 1) n ltac:(lia)). pose proof (Z.div_pos (abs - 1) n). lia. }
  pose proof (add_offsets_sum (Z.to_nat n) ltac:(lia) 0) as Hall. rewrite Z2Nat.id in Hall by lia. change (s32 0) with 0 in Hall. rewrite Hall, Z.add_0_l.
  rewrite s32_mul. replace (r + 1) with (Z.of_nat (Z.to_nat (r + 1))) at 1 by lia. rewrite add_offsets_sum by lia. f_equal.
  pose proof (sum_cycles (Z.to_nat q) (Z.to_nat (r + 1)) Hn0) as Hcyc. rewrite Z2Nat.id in Hcyc by lia. rewrite <- Hcyc. f_equal. nia.
Qed.
End Offsets.

(** [FrameNumOffset], [AbsFrameNum] and [expectedPicOrderCnt] of 8.2.1.2, on
    numbers that do not wrap. *)
Definition spec_offset (v : VideoParameters) (sl : Slice) : Z :=
  if sl_idr_flag sl || last_has_mmco_5 v then 0
  else PreviousFrameNumOffset v + (if sl_frame_num sl <? PreviousFrameNum v then max_frame_num v else 0).

Definition spec_abs (sps : SPSParameters) (v : VideoParameters) (sl : Slice) : Z :=
  let abs := if num_ref_frames_in_pic_order_cnt_cycle sps =? 0 then 0 else spec_offset v sl + sl_frame_num sl in
  if negb (truth (nal_reference_idc sl)) && (0 <? abs) then abs - 1 else abs.

Definition spec_expected (sps : SPSParameters) (v : VideoParameters) (sl : Slice) : Z :=
  sum_offsets sps (Z.to_nat (spec_abs sps v sl)) + (if truth (nal_reference_idc sl) then 0 else offset_for_non_ref_pic sps).

(** The order counts of a picture, (8-9) and (8-10): those of the top and of
    the bottom field, where the picture has them. *)
Definition spec_top (sps : SPSParameters) (v : VideoParameters) (sl : Slice) : option Z :=
  if field_pic_flag sl && bottom_field_flag sl then None else Some (spec_expected sps v sl + (delta_pic_order_cnt sl).1).

Definition spec_bottom (sps : SPSParameters) (v : VideoParameters) (sl : Slice) : option Z :=
  if negb (field_pic_flag sl) then
    Some (spec_expected sps v sl + (delta_pic_order_cnt sl).1 + offset_for_top_to_bottom_field sps + (delta_pic_order_cnt sl).2)
  else if bottom_field_flag sl then Some (spec_expected sps v sl + offset_for_top_to_bottom_field sps + (delta_pic_order_cnt sl).1)
  else None.

(** A member that holds a count, or is left alone when there is none. *)
Definition holds_count (c : option Z) (new old : Z) : Prop :=
  new = match c with Some c => s32 c | None => old end.

(** C20: for order counts of type 1 the cycle computation of [decode_poc] (whole
    cycles by a product, the rest by a loop, both on 32 bit integers) gives the
    counts of 8.2.1.2: the sum of one offset for each frame since the IDR
    picture or operation 5, the offset of non-reference pictures and the deltas
    of the slice header -- for a frame both counts and the smaller one as that
    of the frame, for a field its own, the other one left alone.  Whatever the
    offsets and deltas, each is the count of the standard as an int of 32 bits,
    so exactly that count when it fits; the division is defined.  The cycle has
    at most 128 frames, and there are fewer than 2^31. *)
Theorem decode_poc_type1_spec sps v sl : offsets_ok sps → pic_order_cnt_type sps = 1 → MaxPicOrderCntLsb sps ≠ None →
  0 ≤ sl_frame_num sl → 0 ≤ spec_offset v sl → spec_offset v sl + sl_frame_num sl < 2 ^ 31 →
  ∃ v' sl', poc_of sps v sl = Some (v', sl') ∧
    holds_count (spec_top sps v sl) (toppoc sl') (toppoc sl) ∧
    holds_count (spec_bottom sps v sl) (bottompoc sl') (bottompoc sl) ∧
    framepoc sl' = (if negb (field_pic_flag sl) then Z.min (toppoc sl') (bottompoc sl')
                    else if bottom_field_flag sl then bottompoc sl' else toppoc sl') ∧
    ThisPOC sl' = framepoc sl' ∧
    PreviousFrameNum v' = sl_frame_num sl ∧ PreviousFrameNumOffset v' = spec_offset v sl.
Proof.
  intros Hok Htype Hmax Hfn Hoff Habs. pose proof Hok as (Hl & Hn). unfold poc_of. destruct (MaxPicOrderCntLsb sps) as [max|]; [|done].
  rewrite Htype. cbn [Z.eqb Pos.eqb]. unfold poc_case1. set (v0 := if sl_idr_flag sl then _ else _).
  assert (FrameNumOffset v0 = spec_offset v sl) as E0.
  { unfold v0, spec_offset, frame_num_offset in *. destruct (sl_idr_flag sl), (last_has_mmco_5 v); cbn -[Z.pow s32] in *; try done.
    - by rewrite (proj2 (Z.ltb_ge _ _)) by lia.
    - destruct (_ <? _); [apply s32_id; lia|lia]. }
  cbv zeta. rewrite E0, (s32_id (spec_offset v sl + sl_frame_num sl)) by lia.
  replace (if truth (num_ref_frames_in_pic_order_cnt_cycle sps) then spec_offset v sl + sl_frame_num sl else 0)
    with (if num_ref_frames_in_pic_order_cnt_cycle sps =? 0 then 0 else spec_offset v sl + sl_frame_num sl)
    by (unfold truth; by destruct (_ =? 0)).
  change (if negb _ && _ then _ else _) with (spec_abs sps v sl).
  assert (0 ≤ spec_abs sps v sl < 2 ^ 31 ∧ (num_ref_frames_in_pic_order_cnt_cycle sps = 0 → spec_abs sps v sl = 0)) as [Hab H0].
  { unfold spec_abs. cbv zeta. destruct (Z.eqb_spec (num_ref_frames_in_pic_order_cnt_cycle sps) 0);
      [rewrite (proj2 (Z.ltb_ge 0 0)) by lia; rewrite andb_false_r; lia|].
    destruct (negb _); cbn [andb]; [|lia]. destruct (Z.ltb_spec 0 (spec_offset v sl + sl_frame_num sl)); lia. }
  set (sl1 := sl <| AbsFrameNum := spec_abs sps v sl |>). pose proof (expected_poc_sum sps Hok v0 sl1 Hab H0) as Hexp.
  change (AbsFrameNum sl1) with (spec_abs sps v sl) in Hexp. change (nal_reference_idc sl1) with (nal_reference_idc sl) in Hexp.
  fold (spec_expected sps v sl) in Hexp. change (delta_pic_order_cnt sl1) with (delta_pic_order_cnt sl).
  unfold spec_top, spec_bottom. destruct (delta_pic_order_cnt sl) as [d0 d1]. cbn [fst snd]. rewrite Hexp. set (e := spec_expected sps v sl). clearbody e.
  set (t2b := offset_for_top_to_bottom_field sps).
  assert (s32 (s32 e + t2b + d0) = s32 (e + t2b + d0)) as -> by (by rewrite <- Z.add_assoc, s32_add, Z.add_assoc).
  assert (s32 (s32 (s32 e + d0) + t2b + d1) = s32 (e + d0 + t2b + d1)) as -> by (by rewrite s32_add, <- Z.add_assoc, s32_add, Z.add_assoc).
  rewrite s32_add. change (field_pic_flag sl1) with (field_pic_flag sl). change (bottom_field_flag sl1) with (bottom_field_flag sl).
  assert (FrameNumOffset (expected_poc sps v0 sl1) = spec_offset v sl) as Eo.
  { rewrite <- E0. unfold expected_poc. cbv zeta. repeat destruct (truth _); done. }
  set (top := s32 (e + d0)). set (btm := s32 (e + d0 + t2b + d1)). set (btm1 := s32 (e + t2b + d0)).
  unfold holds_count. destruct (field_pic_flag sl) eqn:Ef, (bottom_field_flag sl) eqn:Eb; cbn [negb andb]; eexists _, _; (split; [reflexivity|]); cbn -[Z.pow expected_poc Z.ltb s32 top btm btm1 Z.min];
    (split_and!; [reflexivity|reflexivity| |reflexivity|reflexivity|exact Eo]); clearbody top btm btm1; try reflexivity;
    destruct (Z.ltb_spec top btm); lia.
Qed.

(** ** Examples *)

(** Four bits for counts up to 25; 4 and 20 are not references. *)
Definition poc_example : list coded_frame :=
  [mk_coded 0 1 true true; mk_coded 8 9 true false; mk_coded 4 5 false false; mk_coded 16 15 true false;
   mk_coded 24 25 true false; mk_coded 20 21 false false; mk_coded 17 18 true false].

Lemma decode_poc_roundtrip_witness :
  well_coded 4 0 poc_example ∧
  decode_pocs 4 zero_sps zero_video zero_slice poc_example = Some [(0, 1); (8, 9); (4, 5); (16, 15); (24, 25); (20, 21); (17, 18)].
Proof.
  assert (well_coded 4 0 poc_example) as Hw by (vm_compute; intuition congruence). split; [exact Hw|].
  exact (decode_poc_roundtrip 4 zero_sps zero_video zero_slice (mk_coded 0 1 true true) (tail poc_example) ltac:(lia) eq_refl eq_refl eq_refl eq_refl Hw).
Defined.

(** A cycle of three offsets; the eighth frame, not a reference, and a bottom
    field with a delta that does not fit with the rest into 32 bits. *)
Definition poc_sps : SPSParameters :=
  zero_sps <| pic_order_cnt_type := 1 |> <| num_ref_frames_in_pic_order_cnt_cycle := 3 |>
    <| offset_for_ref_frame := [2; 4; -1] ++ repeat 0 125 |> <| offset_for_non_ref_pic := -2 |> <| offset_for_top_to_bottom_field := 1 |>.

Definition poc_slice : Slice := zero_slice <| sl_frame_num := 8 |> <| delta_pic_order_cnt := (100, 0) |>.

Definition poc_field : Slice :=
  poc_slice <| field_pic_flag := true |> <| bottom_field_flag := true |> <| delta_pic_order_cnt := (2 ^ 31 - 1, 0) |> <| toppoc := 7 |>.

(** What the theorem states of a slice. *)
Definition type1_counts (sps : SPSParameters) (v : VideoParameters) (sl : Slice) : Prop :=
  ∃ v' sl', poc_of sps v sl = Some (v', sl') ∧
    holds_count (spec_top sps v sl) (toppoc sl') (toppoc sl) ∧ holds_count (spec_bottom sps v sl) (bottompoc sl') (bottompoc sl) ∧
    framepoc sl' = (if negb (field_pic_flag sl) then Z.min (toppoc sl') (bottompoc sl')
                    else if bottom_field_flag sl then bottompoc sl' else toppoc sl') ∧
    ThisPOC sl' = framepoc sl' ∧ PreviousFrameNum v' = sl_frame_num sl ∧ PreviousFrameNumOffset v' = spec_offset v sl.

Lemma decode_poc_type1_spec_witness :
  (∃ v' sl', poc_of poc_sps zero_video poc_slice = Some (v', sl') ∧ toppoc sl' = 110 ∧ bottompoc sl' = 111) ∧
  (∃ v' sl', poc_of poc_sps zero_video poc_field = Some (v', sl') ∧ toppoc sl' = 7 ∧ bottompoc sl' = - 2 ^ 31 + 10) ∧
  type1_counts poc_sps zero_video poc_slice ∧ type1_counts poc_sps zero_video poc_field.
Proof.
  split; [eexists _, _; split; [reflexivity|by split]|]. split; [eexists _, _; split; [reflexivity|by split]|].
  split; apply decode_poc_type1_spec; try (vm_compute; congruence); try (vm_compute; intuition congruence).
Defined.
