(* ===== verification/H264Pool.v ===== *)
(** Pictures and frame stores of the H.264 decoded picture buffer
    (src/drivers/frame_provider/decoder/h264_multi/h264_dpb.c): the pool of
    pictures, the co-located buffers, field and frame views, and a picture's
    way into a frame store and out of it.

    [gen_field_ref_ids] and [calculate_frame_no] do nothing: a picture's lists
    are never allocated, the body of the other is compiled out. *)

From stdpp Require Import base list numbers.
From Stdlib Require Import ZArith Lia Bool.
From S2P Require Import Prelude H264Types.

#[local] Open Scope Z_scope.

(** ** The pool of pictures *)

(** The first element that is not in use. *)
Fixpoint first_unused (l : list StorablePicture) (ii : Z) : option Z :=
  match l with
  | [] => None
  | p :: l => if p_is_used p then first_unused l (ii + 1) else Some ii
  end.

(** What a picture is reset to; [frame_mbs_only_flag] comes from the active
    parameter set. *)
Definition fresh_pic (structure : PictureStructure) (mbs_only : bool) (p : StorablePicture) : StorablePicture :=
  p <| p_is_used := true |> <| p_buf_spec_is_alloced := false |> <| p_col_buf_is_alloced := false |>
    <| p_pic_num := 0 |> <| p_frame_num := 0 |> <| p_long_term_frame_idx := 0 |> <| p_long_term_pic_num := 0 |>
    <| p_used_for_reference := false |> <| p_is_long_term := false |> <| p_non_existing := false |>
    <| p_is_output := false |> <| p_pre_output := false |>
    <| p_data_flag := Z.land (p_data_flag p) (Z.lnot (Z.lor (Z.lor ERROR_FLAG NODISP_FLAG) (Z.lor NULL_FLAG NOOUTPUT_FLAG))) |>
    <| p_structure := structure |> <| p_coded_frame := false |> <| p_mb_aff_frame_flag := false |>
    <| p_top_poc := 0 |> <| p_bottom_poc := 0 |> <| p_poc := 0 |> <| p_frame_mbs_only_flag := mbs_only |>.

(** [get_new_pic(p_H264_Dpb, structure, is_output)]; the last argument is not
    used. *)
Definition get_new_pic (structure : PictureStructure) : D (option Z) :=
  s ← get;
  match first_unused (take (Z.to_nat MAX_PIC_BUF_NUM) (m_PIC s)) 0 with
  | Some p =>
      if active_sps (mVideo s) then
        upd_pic (Some p) (fresh_pic structure (sps_frame_mbs_only_flag (mSPS s)));;
        mret (Some p)
      else undef
  | None => modify (fun s => s <| buf_alloc_fail := true |>);; mret None
  end.

(** [free_picture(p_H264_Dpb, pic)] *)
Definition free_picture (o : option Z) : D unit :=
  match o with
  | None => mret tt
  | Some _ =>
      p ← pic_at o;
      if (p_index p <? 0) || (MAX_PIC_BUF_NUM <=? p_index p) then mret tt
      else upd_pic (Some (p_index p)) (fun p => p <| p_is_used := false |>)
  end.

(** ** Co-located buffers *)

Definition init_colocate_buf (count : Z) : D unit :=
  modify (fun s => s <| colocated_buf_map := 0 |> <| colocated_buf_count := u32 count |>).

(** The loop of [allocate_colocate_buf]; a shift of a 32 bit map by 32 or more
    is undefined. *)
Fixpoint colocate_scan (n : nat) (map i : Z) : option Z :=
  match n with
  | O => Some i
  | S n => if 32 <=? i then None else if Z.land (Z.shiftr map i) 1 =? 0 then Some i else colocate_scan n map (i + 1)
  end.

Definition allocate_colocate_buf : D Z :=
  s ← get;
  i ← of_option (colocate_scan (Z.to_nat (colocated_buf_count s)) (colocated_buf_map s) 0);
  if i =? colocated_buf_count s then mret (-1)
  else
    modify (fun s => s <| colocated_buf_map := Z.lor (colocated_buf_map s) (Z.shiftl 1 i) |>);;
    mret i.

Definition release_colocate_buf (index : Z) : D unit :=
  s ← get;
  if (index <? 0) || (colocated_buf_count s <=? index) then mret tt
  else if 32 <=? index then undef
  else if Z.land (Z.shiftr (colocated_buf_map s) index) 1 =? 1 then
    modify (fun s => s <| colocated_buf_map := Z.land (colocated_buf_map s) (Z.lnot (Z.shiftl 1 index)) |>)
  else mret tt.

(** ** Field views of a frame, frame view of two fields *)

(** The members of a field that come from its frame. *)
Definition field_of (frame : StorablePicture) (poc : Z) (o top btm : option Z) (p : StorablePicture) : StorablePicture :=
  p <| p_buf_spec_num := p_buf_spec_num frame |> <| p_colocated_buf_index := p_colocated_buf_index frame |>
    <| p_data_flag := p_data_flag frame |> <| p_poc := poc |>
    <| p_info := (p_info p) <| offset_delimiter := offset_delimiter (p_info frame) |> |>
    <| p_slice_type := p_slice_type frame |> <| p_frame_poc := p_frame_poc frame |>
    <| p_bottom_poc := p_bottom_poc frame |> <| p_top_poc := p_top_poc frame |>
    <| p_used_for_reference := p_used_for_reference frame |> <| p_is_long_term := p_is_long_term frame |>
    <| p_long_term_frame_idx := p_long_term_frame_idx frame |>
    <| p_coded_frame := true |> <| p_mb_aff_frame_flag := p_mb_aff_frame_flag frame |>
    <| p_frame := o |> <| p_top_field := top |> <| p_bottom_field := btm |>.

(** [dpb_split_field(p_H264_Dpb, fs)] *)
Definition dpb_split_field (k : option Z) : D unit :=
  f ← fs_at k;
  let o := f_frame f in
  frame ← pic_at o;
  upd_fs k (fun f => f <| f_poc := p_poc frame |>);;
  if negb (p_frame_mbs_only_flag frame) then
    top ← get_new_pic TOP_FIELD;
    upd_fs k (fun f => f <| f_top_field := top |>);;
    btm ← get_new_pic BOTTOM_FIELD;
    upd_fs k (fun f => f <| f_bottom_field := btm |>);;
    if bool_decide (top = None) || bool_decide (btm = None) then mret tt
    else
      upd_pic top (field_of frame (p_top_poc frame) o top btm);;
      upd_pic btm (field_of frame (p_bottom_poc frame) o top btm);;
      upd_fs k (fun f => f <| f_long_term_frame_idx := p_long_term_frame_idx frame |>);;
      upd_pic o (fun p => p <| p_top_field := top |> <| p_bottom_field := btm |> <| p_frame := o |>)
  else
    upd_fs k (fun f => f <| f_top_field := None |> <| f_bottom_field := None |>);;
    upd_pic o (fun p => p <| p_top_field := None |> <| p_bottom_field := None |> <| p_frame := o |>).

(** The parts of [dpb_combine_field] behind the test that there is a frame.
    What the frame takes over from the top field: *)
Definition combine_data (k : option Z) : D unit :=
  f ← fs_at k;
  top ← pic_at (f_top_field f);
  upd_pic (f_frame f) (fun p =>
    p <| p_buf_spec_num := p_buf_spec_num top |> <| p_colocated_buf_index := p_colocated_buf_index top |>
      <| p_data_flag := p_data_flag top |> <| p_slice_type := p_slice_type top |> <| p_pic_struct := PIC_INVALID |>);;
  match f_bottom_field f with
  | None => mret tt
  | Some _ =>
      btm ← pic_at (f_bottom_field f);
      upd_pic (f_frame f) (fun p => p <| p_data_flag := Z.lor (p_data_flag p) (Z.land (p_data_flag btm) 240) |>)
  end.

(** ... the order counts and the marking, *)
Definition combine_pocs (k : option Z) : D unit :=
  f ← fs_at k;
  match f_bottom_field f with
  | None => mret tt
  | Some _ =>
      top ← pic_at (f_top_field f);
      btm ← pic_at (f_bottom_field f);
      let poc := Z.min (p_poc top) (p_poc btm) in
      upd_fs k (fun f => f <| f_poc := poc |>);;
      upd_pic (f_frame f) (fun p => p <| p_poc := poc |> <| p_frame_poc := poc |>);;
      upd_pic (f_bottom_field f) (fun p => p <| p_frame_poc := poc |> <| p_top_poc := p_poc top |>);;
      upd_pic (f_top_field f) (fun p => p <| p_frame_poc := poc |> <| p_bottom_poc := p_poc btm |>);;
      upd_pic (f_frame f) (fun p =>
        p <| p_top_poc := p_poc top |> <| p_bottom_poc := p_poc btm |>
          <| p_used_for_reference := p_used_for_reference top && p_used_for_reference btm |>
          <| p_is_long_term := p_is_long_term top && p_is_long_term btm |>)
  end.

(** ... and the pointers between the three. *)
Definition combine_links (k : option Z) : D unit :=
  f ← fs_at k;
  frame ← pic_at (f_frame f);
  (when (p_is_long_term frame)
    (upd_pic (f_frame f) (fun p => p <| p_long_term_frame_idx := f_long_term_frame_idx f |>)));;
  upd_pic (f_frame f) (fun p =>
    let p := p <| p_top_field := f_top_field f |> <| p_frame := f_frame f |> <| p_coded_frame := false |> in
    match f_bottom_field f with None => p | Some _ => p <| p_bottom_field := f_bottom_field f |> end);;
  match f_bottom_field f with
  | None => mret tt
  | Some _ =>
      let link p := p <| p_frame := f_frame f |> <| p_top_field := f_top_field f |> <| p_bottom_field := f_bottom_field f |> in
      upd_pic (f_top_field f) link;; upd_pic (f_bottom_field f) link
  end.

(** The time stamp of the field that is displayed first. *)
Definition combine_pts (k : option Z) : D unit :=
  f ← fs_at k;
  match f_bottom_field f with
  | None => mret tt
  | Some _ =>
      top ← pic_at (f_top_field f);
      btm ← pic_at (f_bottom_field f);
      frame ← pic_at (f_frame f);
      let size := u32 (pic_size (p_info top) + pic_size (p_info btm)) in
      let early := if p_poc top <? p_poc btm then p_info top else p_info btm in
      let drop := (p_poc top <? p_poc btm) && is_eq (p_slice_type frame) B_SLICE
                    && (pts (p_info btm) =? 0) && (pts64 (p_info btm) =? 0) in
      upd_fs k (fun f =>
        f <| f_info := (f_info f)
               <| pts := if drop then 0 else pts early |> <| pts64 := if drop then 0 else pts64 early |>
               <| offset_delimiter := offset_delimiter early |> <| pic_size := size |> |>)
  end.

(** [dpb_combine_field(p_H264_Dpb, fs)] *)
Definition dpb_combine_field (k : option Z) : D unit :=
  f ← fs_at k;
  (when (bool_decide (f_frame f = None))
    (o ← get_new_pic FRAME; upd_fs k (fun f => f <| f_frame := o |>)));;
  f ← fs_at k;
  if bool_decide (f_frame f = None) then mret tt
  else combine_data k;; combine_pocs k;; combine_links k;; combine_pts k.

(** ** Into a frame store *)

(** The marking a frame store takes over with one of its pictures: [= 3] for
    a frame, [|= m] for a field. *)
Definition insert_marks (mark : Z → Z) (p : StorablePicture) (f : FrameStore) : FrameStore :=
  if p_used_for_reference p then
    let f := f <| f_is_reference := mark (f_is_reference f) |> <| f_is_orig_reference := mark (f_is_orig_reference f) |> in
    if p_is_long_term p then
      f <| f_is_long_term := mark (f_is_long_term f) |> <| f_long_term_frame_idx := p_long_term_frame_idx p |>
    else f
  else f.

(** [case FRAME] *)
Definition insert_frame (k o : option Z) (p : StorablePicture) : D unit :=
  upd_fs k (fun f =>
    insert_marks (fun _ => 3) p
      (f <| f_frame := o |> <| f_is_used := 3 |> <| f_slice_type := p_slice_type p |>
         <| f_info := (f_info f) <| frame_size := frame_size (p_info p) |>
                        <| offset_delimiter := offset_delimiter (p_info p) |> <| pic_size := pic_size (p_info p) |>
                        <| pts := pts (p_info p) |> <| pts64 := pts64 (p_info p) |> <| layer_id := layer_id (p_info p) |> |>));;
  dpb_split_field k.

(** [case TOP_FIELD] and [case BOTTOM_FIELD] behind the assignment of the
    pointer; [m] is the mask of the field. *)
Definition insert_field (k : option Z) (m : Z) (p : StorablePicture) : D unit :=
  upd_fs k (fun f =>
    let f := f <| f_is_used := Z.lor (f_is_used f) m |> in
    let f := if frame_size (f_info f) =? 0 then f <| f_slice_type := p_slice_type p |> else f in
    insert_marks (fun x => Z.lor x m) p
      (f <| f_info := (f_info f) <| layer_id := layer_id (p_info p) |>
                        <| frame_size := s32 (frame_size (f_info f) + frame_size (p_info p)) |> |>));;
  f ← fs_at k;
  if f_is_used f =? 3 then dpb_combine_field k
  else upd_fs k (fun f => f <| f_poc := p_poc p |>).

(** The members copied at the end. *)
Definition insert_rest (mvfrm : option (Z * Z)) (p : StorablePicture) (f : FrameStore) : FrameStore :=
  let f := f <| f_frame_num := u32 (p_pic_num p) |> <| f_is_output := p_is_output p |> <| f_pre_output := p_pre_output p |>
             <| f_info := (f_info f) <| recovery_frame := recovery_frame (p_info p) |> <| qos := qos (p_info p) |>
                            <| timestamp := timestamp (p_info p) |> |> in
  match mvfrm with
  | None => f
  | Some (sz, time) => f <| f_frame_size2 := u32 sz |> <| f_hw_decode_time := u32 time |>
  end.

Section Insert.
Context `{H264Driver}.

(** [insert_picture_in_dpb(p_H264_Dpb, fs, p, data_flag)] *)
Definition insert_picture_in_dpb (k o : option Z) (data_flag : Z) : D unit :=
  modify (fun s => s <| dpb_frame_count := s32 (dpb_frame_count s + 1) |>);;
  s ← get;
  upd_pic o (fun p => p <| p_data_flag := data_flag |> <| p_slice_type := sl_slice_type (mSlice s) |>);;
  p ← pic_at o;
  upd_fs k (fun f =>
    f <| f_dpb_frame_count := dpb_frame_count s |> <| f_data_flag := Z.lor (f_data_flag f) data_flag |>
      <| f_buf_spec_num := p_buf_spec_num p |> <| f_colocated_buf_index := p_colocated_buf_index p |>);;
  match p_structure p with
  | FRAME => insert_frame k o p
  | TOP_FIELD => upd_fs k (fun f => f <| f_top_field := o |>);; insert_field k 1 p
  | BOTTOM_FIELD => upd_fs k (fun f => f <| f_bottom_field := o |>);; insert_field k 2 p
  end;;
  p ← pic_at o;
  upd_fs k (insert_rest mvfrm p).
End Insert.

(** ** Out of a frame store *)

(** The pictures a frame store gives up, by [is_used]. *)
Definition free_pictures (k : option Z) : D unit :=
  f ← fs_at k;
  if f_is_used f =? 3 then
    free_picture (f_frame f);; free_picture (f_top_field f);; free_picture (f_bottom_field f);;
    upd_fs k (fun f => f <| f_frame := None |> <| f_top_field := None |> <| f_bottom_field := None |>)
  else if f_is_used f =? 2 then free_picture (f_bottom_field f);; upd_fs k (fun f => f <| f_bottom_field := None |>)
  else when (f_is_used f =? 1) (free_picture (f_top_field f);; upd_fs k (fun f => f <| f_top_field := None |>)).

(** [p_Dpb->fs[i] = o;] *)
Definition set_fs (i : Z) (o : option Z) : D unit :=
  l ← gets (fun s => fs (mDPB s)); l ← of_option (aset l i o); upd_dpb (fun d => d <| fs := l |>).

(** [for (i = pos; i < used_size - 1; i++) fs[i] = fs[i + 1];] *)
Definition shift_down (pos last : Z) : D unit :=
  for_range pos last (fun i => o ← ptr_of fs (i + 1); set_fs i o).

(** [remove_frame_from_dpb(p_H264_Dpb, pos)]; [used_size] is unsigned. *)
Definition remove_frame_from_dpb (pos : Z) : D unit :=
  k ← ptr_of fs pos;
  free_pictures k;;
  upd_fs k (fun f =>
    f <| f_data_flag := 0 |> <| f_is_used := 0 |> <| f_is_long_term := 0 |> <| f_is_reference := 0 |>
      <| f_is_orig_reference := 0 |> <| f_info := (f_info f) <| frame_size := 0 |> |>);;
  tmp ← ptr_of fs pos;
  n ← gets (fun s => used_size (mDPB s));
  shift_down pos (u32 (n - 1));;
  set_fs (u32 (n - 1)) tmp;;
  (when (truth n) (upd_dpb (fun d => d <| used_size := n - 1 |>))).

(** [reset_frame_store(p_H264_Dpb, f)] *)
Definition reset_frame_store (k : option Z) : D unit :=
  match k with
  | None => mret tt
  | Some _ =>
      f ← fs_at k;
      free_picture (f_frame f);; free_picture (f_top_field f);; free_picture (f_bottom_field f);;
      upd_fs k (fun f =>
        f <| f_is_used := 0 |> <| f_is_reference := 0 |> <| f_is_long_term := 0 |> <| f_is_orig_reference := 0 |>
          <| f_is_output := false |> <| f_pre_output := false |> <| f_show_frame := false |>
          <| f_frame := None |> <| f_top_field := None |> <| f_bottom_field := None |>)
  end.

(** [set_frame_output_flag(p_H264_Dpb, index)]: an index of [mFrameStore]. *)
Definition set_frame_output_flag (index : Z) : D unit :=
  if (0 <=? index) && (index <? DPB_SIZE_MAX) then
    upd_fs (Some index) (fun f => f <| f_is_output := true |> <| f_pre_output := false |> <| f_show_frame := false |>)
  else undef.

(** ** Second fields *)

(** Picture [p] is the second field of frame store [f]. *)
Definition second_field_of (p : StorablePicture) (f : FrameStore) : bool :=
  (s32 (f_frame_num f) =? p_pic_num p)
  && (is_eq (p_structure p) TOP_FIELD && (f_is_used f =? 2) || is_eq (p_structure p) BOTTOM_FIELD && (f_is_used f =? 1))
  && Bool.eqb (p_used_for_reference p) (truth (f_is_orig_reference f)).
