(* ===== verification/H264Display.v ===== *)
(** How the decoder driver hands frames of the decoded picture buffer over for
    display and takes them back
    (src/drivers/frame_provider/decoder/h264_multi/vmh264.c:
    [prepare_display_buf] and what it calls, [vh264_vf_get], [vh264_vf_put]).

    The functions take the state of the driver and give it back; they work on
    the frame stores of the decoded picture buffer.  Left out is what only
    fills the [vframe_s] (sizes, canvases, time stamps, side data), statistics,
    the calls that wake other parts, and the memory handles of V4L2. *)

From stdpp Require Import base list numbers.
From Stdlib Require Import ZArith Lia Bool.
From S2P Require Import Prelude H264Types H264Pool.

#[local] Open Scope Z_scope.

Definition BUFSPEC_POOL_SIZE : Z := 64.
Definition VF_POOL_SIZE : Z := 64.

Definition VF_INDEX (frm_idx bufspec_idx : Z) : Z := Z.lor frm_idx (Z.shiftl bufspec_idx 8).
Definition FRAME_INDEX (vf_index : Z) : Z := Z.land vf_index 255.
Definition BUFSPEC_INDEX (vf_index : Z) : Z := Z.land (Z.shiftr vf_index 8) 255.

(** The values of [pic_struct] for pictures shown more than once. *)
Definition PIC_TOP_BOT : Z := 3.
Definition PIC_BOT_TOP : Z := 4.
Definition PIC_TOP_BOT_TOP : Z := 5.
Definition PIC_BOT_TOP_BOT : Z := 6.
Definition PIC_TRIPLE_FRAME : Z := 8.

(** ** Buffers and queues *)

(** [hw->buffer_spec[n]] *)
Definition spec_at (hw : vdec_h264_hw_s) (n : Z) : D buffer_spec_s := of_option (aget (buffer_spec hw) n).

Definition set_spec (n : Z) (b : buffer_spec_s) (hw : vdec_h264_hw_s) : vdec_h264_hw_s :=
  hw <| buffer_spec := <[Z.to_nat n := b]> (buffer_spec hw) |>.

(** [kfifo_put]: nothing is put into a full queue. *)
Definition kfifo_put (vf : vframe_s) (q : list vframe_s) : list vframe_s :=
  if zlen q <? VF_POOL_SIZE then q ++ [vf] else q.

(** [vh264_vf_get]; the dummy frame, which [vh264_vf_put] ignores, is [None]
    like NULL. *)
Definition vh264_vf_get (hw : vdec_h264_hw_s) : option vframe_s * vdec_h264_hw_s :=
  if bit (force_disp_bufspec_num hw) 256 then
    (None, hw <| force_disp_bufspec_num := Z.lor (force_disp_bufspec_num hw) 512 |>)
  else match display_q hw with
       | [] => (None, hw)
       | vf :: q => (Some vf, hw <| display_q := q |>)
       end.

Fixpoint first_free_slot (l : list (option (Z * fence_s))) : option nat :=
  match l with
  | [] => None
  | None :: _ => Some O
  | Some _ :: l => S <$> first_free_slot l
  end.

(** A frame whose fence is not signalled, or is looked at elsewhere, is kept
    when there is a place for it. *)
Definition keep_fenced (hw : vdec_h264_hw_s) (vf : vframe_s) : option vdec_h264_hw_s :=
  match vf_fence vf with
  | None => None
  | Some fe =>
      if (fence_status fe =? 0) || ((fence_status fe =? 1) && (fence_refcount fe =? 2)) then
        (fun i => hw <| fence_vf := <[i := Some (vf_index vf, fe)]> (fence_vf hw) |> <| fence_used_size := fence_used_size hw + 1 |>)
          <$> first_free_slot (fence_vf hw)
      else None
  end.

(** One vframe of buffer [n] comes back. *)
Definition give_back (hw : vdec_h264_hw_s) (n frame_index : Z) : D vdec_h264_hw_s :=
  b ← spec_at hw n;
  let r := s32 (vf_ref b - 1) in
  if used b =? 2 then
    (when (r <=? 0) (set_frame_output_flag frame_index));;
    mret (set_spec n (b <| vf_ref := r |>) hw)
  else
    let u := if r <=? 0 then if used b =? 3 then 4 else if used b =? 5 then 0 else used b else used b in
    mret (set_spec n (b <| vf_ref := r |> <| used := u |>) hw).

(** [vh264_vf_put(vf, vdec)].  In fence mode [fs_idx] is read before the
    index of the buffer is checked. *)
Definition vh264_vf_put (hw : vdec_h264_hw_s) (o : option vframe_s) : D vdec_h264_hw_s :=
  match o with
  | None => mret hw
  | Some vf =>
      if vf_index vf =? -1 then mret hw
      else match (if enable_fence hw then keep_fenced hw vf else None) with
           | Some hw => mret hw
           | None =>
               let n := BUFSPEC_INDEX (vf_index vf) in
               frame_index ← (if enable_fence hw then b ← spec_at hw n; mret (fs_idx b) else mret (FRAME_INDEX (vf_index vf)));
               if (frame_index <? 0) || (DPB_SIZE_MAX <=? frame_index) || (n <? 0) || (BUFSPEC_POOL_SIZE <=? n) then mret hw
               else
                 let vf := mk_vframe (vf_index vf) (if enable_fence hw then None else vf_fence vf) in
                 hw ← give_back hw n frame_index;
                 mret (hw <| newframe_q := kfifo_put vf (newframe_q hw) |>)
           end
  end.

(** ** The frame *)

(** [is_interlace(frame)] *)
Definition is_interlace (f : FrameStore) : D bool :=
  match f_frame f with
  | None => mret false
  | Some _ =>
      p ← pic_at (f_frame f);
      mret (bool_decide (is_Some (f_top_field f)) && bool_decide (is_Some (f_bottom_field f)) && negb (p_coded_frame p)
            || p_coded_frame p && negb (p_frame_mbs_only_flag p) && is_eq (p_structure p) FRAME
            || (p_pic_struct p =? PIC_TOP_BOT) || (p_pic_struct p =? PIC_BOT_TOP)
            || (p_pic_struct p =? PIC_TOP_BOT_TOP) || (p_pic_struct p =? PIC_BOT_TOP_BOT))
  end.

(** [check_force_interlace(hw, frame)] *)
Definition check_force_interlace (hw : vdec_h264_hw_s) (sps : SPSParameters) : bool :=
  if vdec_secure hw then false
  else if truth (i_only hw) || mmu_enable hw then false
  else
    bit (dec_control hw) 1 && hw_bitstream_restriction_flag hw && (frame_width hw =? 1920) && (1080 <=? frame_height hw)
      && ((frame_dur hw =? 3203) || ((frame_dur hw =? 3840) && (profile_idc sps =? 100) && (level_idc hw =? 40)))
    || bit (dec_control hw) 2 && (frame_width hw =? 720) && (frame_height hw =? 576) && (frame_dur hw =? 3840).

(** The frame is taken for broken: too few good frames came before it. *)
Definition after_error `{H264Driver} (hw : vdec_h264_hw_s) (f : FrameStore) : bool :=
  let error_skip_i_count := Z.land (Z.shiftr (error_skip_count hw) 12) 15 in
  let error_skip_frame_count := Z.land (error_skip_count hw) 4095 in
  bit get_error_proc_policy 4096
  && ((no_error_count hw <? error_skip_frame_count) && ((error_skip_i_count =? 0) || (no_error_i_count hw <? error_skip_i_count))
      && negb (bit (f_data_flag f) I_FLAG)).

Definition mark_error (f : FrameStore) : FrameStore := f <| f_data_flag := Z.lor (f_data_flag f) ERROR_FLAG |>.

(** A field whose second field never came. *)
Definition lone_field (hw : vdec_h264_hw_s) (k : option Z) : D unit :=
  f ← fs_at k;
  let top := (f_is_used f =? 1) && bool_decide (is_Some (f_top_field f)) in
  let bottom := (f_is_used f =? 2) && bool_decide (is_Some (f_bottom_field f)) in
  when (bool_decide (f_frame f = None) && (top || bottom))
    (if truth (i_only hw) then
       p ← pic_at (if top then f_top_field f else f_bottom_field f);
       upd_fs k (fun f => f <| f_info := (f_info f) <| offset_delimiter := offset_delimiter (p_info p) |> |>)
     else upd_fs k mark_error).

(** The time stamps the decoder looks up itself. *)
Definition look_up_pts (hw : vdec_h264_hw_s) (f : FrameStore) : FrameStore :=
  match pts_lookup hw with
  | Some look =>
      if bit (f_data_flag f) NODISP_FLAG then f
      else
        let '(p, p64, sz) := look (f_info f) in
        f <| f_info := (f_info f) <| pts := p |> <| pts64 := p64 |> <| frame_size := sz |> |>
  | None => f
  end.

(** Whether the frame is not to be seen. *)
Definition hidden (hw : vdec_h264_hw_s) (f : FrameStore) : bool :=
  negb (enable_fence hw)
  && (bit (f_data_flag f) NODISP_FLAG || bit (f_data_flag f) NULL_FLAG
      || negb (send_error_frame_flag hw) && bit (f_data_flag f) ERROR_FLAG
      || bit (i_only hw) 1 && negb (bit (f_data_flag f) I_FLAG)).

Section Display.
Context `{H264Driver}.

(** [post_prepare_process(vdec, frame)] *)
Definition post_prepare_process (hw : vdec_h264_hw_s) (k : option Z) : D Z :=
  f ← fs_at k;
  let buffer_index := f_buf_spec_num f in
  if (buffer_index <? 0) || (BUFSPEC_POOL_SIZE <=? buffer_index) then mret (-1)
  else if bit (force_disp_bufspec_num hw) 256 then
    b ← spec_at hw buffer_index;
    (when (negb (used b =? 3) && negb (used b =? 5)) (set_frame_output_flag (f_index f)));;
    mret (-1)
  else
    (when (after_error hw f) (upd_fs k mark_error));;
    lone_field hw k;;
    upd_fs k (look_up_pts hw);;
    f ← fs_at k;
    let show := if hidden hw f then false else negb (negb (enable_fence hw) && bit (f_data_flag f) NOOUTPUT_FLAG) in
    upd_fs k (fun f => f <| f_show_frame := show |>);;
    mret 0.

(** How many vframes the frame makes. *)
Definition vframe_count (hw : vdec_h264_hw_s) (f : FrameStore) : D Z :=
  i ← is_interlace f;
  sps ← gets mSPS;
  let n := if (i : bool) || check_force_interlace hw sps then 2 else 1 in
  n ← match f_frame f with
      | None => mret n
      | Some _ =>
          p ← pic_at (f_frame f);
          let ps := p_pic_struct p in
          mret (if (ps =? PIC_TOP_BOT_TOP) || (ps =? PIC_BOT_TOP_BOT) || (ps =? PIC_TRIPLE_FRAME) then 3 else n)
      end;
  mret (if is_used_v4l hw && prog_only hw then 1 else n).

(** One turn of the loop of [post_video_frame]; [None]: no vframe is left. *)
Definition post_turn (k : option Z) (buffer_index vf_count i : Z) (hw : vdec_h264_hw_s) : D (option vdec_h264_hw_s) :=
  match newframe_q hw with
  | [] => mret None
  | vf :: q =>
      f ← fs_at k;
      let vf := mk_vframe (VF_INDEX (f_index f) buffer_index) (vf_fence vf) in
      let hw := hw <| newframe_q := q |> in
      hw ← (if enable_fence hw then mret hw
            else b ← spec_at hw buffer_index;
                 let b := b <| used := 2 |> in
                 mret (set_spec buffer_index (if i =? 0 then b <| vf_ref := vf_count |> else b) hw));
      if f_show_frame f then
        let hw := hw <| display_q := kfifo_put vf (display_q hw) |> in
        wdm ← gets without_display_mode;
        if (wdm : bool) || (is_used_v4l hw && is_stream_off hw) then
          let '(o, hw) := vh264_vf_get hw in
          hw ← vh264_vf_put hw o;
          mret (Some hw)
        else mret (Some hw)
      else
        hw ← vh264_vf_put hw (Some vf);
        mret (Some hw)
  end.

Fixpoint post_turns (n : nat) (k : option Z) (buffer_index vf_count i : Z) (hw : vdec_h264_hw_s) : D Z :=
  match n with
  | O => mret 0
  | S n =>
      r ← post_turn k buffer_index vf_count i hw;
      match r with None => mret (-1) | Some hw => post_turns n k buffer_index vf_count (i + 1) hw end
  end.

(** [post_video_frame(vdec, frame)] *)
Definition post_video_frame (hw : vdec_h264_hw_s) (k : option Z) : D Z :=
  f ← fs_at k;
  let buffer_index := f_buf_spec_num f in
  vf_count ← vframe_count hw f;
  hw ← (if enable_fence hw then mret hw
        else b ← spec_at hw buffer_index; mret (set_spec buffer_index (b <| vf_ref := 0 |>) hw));
  post_turns (Z.to_nat vf_count) k buffer_index vf_count 0 hw.

(** The vframes of the first [n] that wait for their fence whose fence is
    signalled and is not looked at elsewhere. *)
Fixpoint take_signed (l : list (option (Z * fence_s))) (n : Z) : list vframe_s * list (option (Z * fence_s)) :=
  match l with
  | [] => ([], [])
  | o :: r =>
      if n <=? 0 then ([], l)
      else match o with
           | None => let '(vs, r) := take_signed r n in (vs, None :: r)
           | Some (i, fe) =>
               let '(vs, r) := take_signed r (n - 1) in
               if (fence_status fe =? 1) && negb (fence_refcount fe =? 2) then (mk_vframe i (Some fe) :: vs, None :: r)
               else (vs, Some (i, fe) :: r)
           end
  end.

Fixpoint put_all (hw : vdec_h264_hw_s) (l : list vframe_s) : D vdec_h264_hw_s :=
  match l with
  | [] => mret hw
  | vf :: l => hw ← vh264_vf_put hw (Some vf); put_all hw l
  end.

(** [prepare_display_buf(vdec, frame)].  In fence mode the status of a fence is
    the one it has when the frames that wait are looked at, after the fence of
    this frame was signalled. *)
Definition prepare_display_buf (k : option Z) : D Z :=
  hw ← gets (fun s => hw_state (events s));
  r ← post_prepare_process hw k;
  if negb (r =? 0) then mret (-1)
  else if enable_fence hw then
    f ← fs_at k;
    b ← spec_at hw (f_buf_spec_num f);
    let hw := set_spec (f_buf_spec_num f) (b <| used := 2 |> <| vf_ref := 1 |> <| fs_idx := f_index f |>) hw in
    let '(signed_fence, rest) := take_signed (fence_vf hw) (fence_used_size hw) in
    _ ← put_all (hw <| fence_vf := rest |> <| fence_used_size := fence_used_size hw - zlen signed_fence |>) signed_fence;
    mret 0
  else
    r ← post_video_frame hw k;
    mret (if r =? 0 then 0 else -1).
End Display.
