(* ===== verification/H264Slice.v ===== *)
(** From the registers the firmware fills to a slice header, a picture and an
    initialised buffer (src/drivers/frame_provider/decoder/h264_multi/
    h264_dpb.c): [slice_prepare], [ref_pic_list_reordering], [init_picture],
    [dpb_init_global], [init_dpb] and the check for a frame store that waits
    for its second field.

    [data] is the view [l] of the register block; the members of the views
    [dpb] and [mmco] lie behind the indices of [data] that are used.  The
    usability information that only the driver reads is left out. *)

From stdpp Require Import base list numbers.
From Stdlib Require Import ZArith Lia Bool.
From S2P Require Import Prelude H264Types H264Pool.

#[local] Open Scope Z_scope.

(** ** Registers *)

Definition OFFSET_DELIMITER_LO : Z := 0x2F.
Definition OFFSET_DELIMITER_HI : Z := 0x30.
Definition SPS_FLAGS2 : Z := 0x6C.
Definition NON_CONFORMING_STREAM : Z := 0x70.
Definition RECOVERY_POINT : Z := 0x71.
Definition NEW_PICTURE_STRUCTURE : Z := 0x7C.
Definition SLICE_TYPE : Z := 0x82.
Definition LOG2_MAX_FRAME_NUM : Z := 0x83.
Definition PIC_ORDER_CNT_TYPE : Z := 0x85.
Definition LOG2_MAX_PIC_ORDER_CNT_LSB : Z := 0x86.
Definition MODE_8X8_FLAGS : Z := 0x8C.
Definition PICTURE_STRUCT : Z := 0xBF.
Definition OFFSET_FOR_NON_REF_PIC : Z := 0xE0.
Definition OFFSET_FOR_TOP_TO_BOTTOM_FIELD : Z := 0xE2.
Definition MAX_REFERENCE_FRAME_NUM : Z := 0xE4.
Definition FRAME_NUM_GAP_ALLOWED : Z := 0xE5.
Definition NUM_REF_FRAMES_IN_PIC_ORDER_CNT_CYCLE : Z := 0xE6.
Definition PROFILE_IDC_MMCO : Z := 0xE7.
Definition FIRST_MB_IN_SLICE : Z := 0xF0.

(** [(short)] *)
Definition s16 (x : Z) : Z := (x + 2 ^ 15) mod 2 ^ 16 - 2 ^ 15.

(** [val(s)]: two registers as an [int]. *)
Definition val (s : Z * Z) : Z := s32 (Z.lor s.1 (Z.shiftl s.2 16)).

(** [1 << n] *)
Definition one_shl (n : Z) : option Z := if (0 <=? n) && (n <? 32) then Some (s32 (2 ^ n)) else None.

(** The structure of the picture; the firmware knows no other values. *)
Definition structure_of (x : Z) : option PictureStructure :=
  if (x =? 0) || (x =? 3) then Some FRAME else if x =? 1 then Some TOP_FIELD else if x =? 2 then Some BOTTOM_FIELD else None.

Definition slice_type_of (x : Z) : SliceType :=
  if x =? 2 then I_SLICE else if x =? 5 then P_SLICE else if x =? 6 then B_SLICE else NUM_SLICE_TYPES.

(** ** Reference list modification *)

(** One of the two lists: the flag, [modification_of_pic_nums_idc],
    [abs_diff_pic_num_minus1] and [long_term_pic_idx]. *)
Record reorder_cmds := mk_reorder {
  ro_flag : bool;
  ro_idc : list Z;
  ro_diff : list Z;
  ro_long : list Z
}.

(** The loop, from [i] and [j] on; [at_end]: whether running out of registers
    after a command clears the flag, which it does for list 0 only. *)
Fixpoint reorder_loop (n : nat) (at_end : bool) (cmd : list Z) (i j : Z) (r : reorder_cmds) : option reorder_cmds :=
  match n with
  | O => None
  | S n =>
      v ← aget cmd j;
      idc ← aset (ro_idc r) i v;
      let r := mk_reorder (ro_flag r) idc (ro_diff r) (ro_long r) in
      let j := j + 1 in
      let stop r := Some (mk_reorder false (ro_idc r) (ro_diff r) (ro_long r)) in
      if 66 <=? j then stop r
      else
        r_j ← (if (v =? 0) || (v =? 1) then
                 d ← aget cmd j; l ← aset (ro_diff r) i d; Some (mk_reorder (ro_flag r) (ro_idc r) l (ro_long r), j + 1)
               else if v =? 2 then
                 d ← aget cmd j; l ← aset (ro_long r) i d; Some (mk_reorder (ro_flag r) (ro_idc r) (ro_diff r) l, j + 1)
               else Some (r, j));
        let '(r, j) := r_j in
        let i := i + 1 in
        if REORDERING_COMMAND_MAX_SIZE <=? i then stop r
        else if 66 <=? j then (if at_end then stop r else Some r)
        else if v =? 3 then Some r
        else reorder_loop n at_end cmd i j r
  end.

(** One list of [ref_pic_list_reordering]; every turn takes a register. *)
Definition reorder_list (at_end : bool) (cmd : list Z) (r : reorder_cmds) : option reorder_cmds :=
  v ← aget cmd 0;
  if negb (v =? 3) then reorder_loop 66 at_end cmd 0 0 (mk_reorder true (ro_idc r) (ro_diff r) (ro_long r))
  else Some (mk_reorder false (ro_idc r) (ro_diff r) (ro_long r)).

(** The members of list [x] in a slice. *)
Definition get_cmds (x : nat) (sl : Slice) : option reorder_cmds :=
  f ← ref_pic_list_reordering_flag sl !! x;
  a ← modification_of_pic_nums_idc sl !! x;
  b ← abs_diff_pic_num_minus1 sl !! x;
  c ← long_term_pic_idx sl !! x;
  Some (mk_reorder f a b c).

Definition put_cmds (x : nat) (r : reorder_cmds) (sl : Slice) : Slice :=
  sl <| ref_pic_list_reordering_flag := <[x := ro_flag r]> (ref_pic_list_reordering_flag sl) |>
     <| modification_of_pic_nums_idc := <[x := ro_idc r]> (modification_of_pic_nums_idc sl) |>
     <| abs_diff_pic_num_minus1 := <[x := ro_diff r]> (abs_diff_pic_num_minus1 sl) |>
     <| long_term_pic_idx := <[x := ro_long r]> (long_term_pic_idx sl) |>.

Definition reorder_slice (x : nat) (at_end : bool) (cmd : list Z) (sl : Slice) : option Slice :=
  r ← get_cmds x sl; r ← reorder_list at_end cmd r; Some (put_cmds x r sl).

(** [ref_pic_list_reordering(p_H264_Dpb, currSlice)] *)
Definition ref_pic_list_reordering (pa : dpb_param) (sl : Slice) : option Slice :=
  sl ← (if negb (is_eq (sl_slice_type sl) I_SLICE) && negb (is_eq (sl_slice_type sl) SI_SLICE)
        then reorder_slice 0 true (l0_reorder_cmd pa) sl else Some sl);
  if is_eq (sl_slice_type sl) B_SLICE then reorder_slice 1 false (l1_reorder_cmd pa) sl else Some sl.

(** ** Memory management commands *)

(** [for (i = 0, j = 0; i < 44; j++)]: the buffer and
    [adaptive_ref_pic_buffering_flag]. *)
Fixpoint mmco_read (n : nat) (cmd : list Z) (i j : Z) (buf : list DecRefPicMarking_s) (adaptive : bool) : option (list DecRefPicMarking_s * bool) :=
  match n with
  | O => None
  | S n =>
      if 44 <=? i then Some (buf, adaptive)
      else
        v ← aget cmd i;
        let i := i + 1 in
        let c := zero_drpm <| memory_management_control_operation := v |> in
        buf ← (if 0 <? j then p ← aget buf (j - 1); aset buf (j - 1) (p <| Next := Some j |>) else Some buf);
        if (v =? 0) || (44 <=? i) then buf ← aset buf j c; Some (buf, adaptive)
        else
          c_i ← (if (v =? 1) || (v =? 3) then d ← aget cmd i; Some (c <| difference_of_pic_nums_minus1 := d |>, i + 1) else Some (c, i));
          let '(c, i) := c_i in
          c_i ← (if v =? 2 then d ← aget cmd i; Some (c <| long_term_pic_num := d |>, i + 1) else Some (c, i));
          let '(c, i) := c_i in
          if 44 <=? i then buf ← aset buf j c; Some (buf, true)
          else
            c_i ← (if (v =? 3) || (v =? 6) then d ← aget cmd i; Some (c <| long_term_frame_idx := d |>, i + 1) else Some (c, i));
            let '(c, i) := c_i in
            c_i ← (if v =? 4 then d ← aget cmd i; Some (c <| max_long_term_frame_idx_plus1 := d |>, i + 1) else Some (c, i));
            let '(c, i) := c_i in
            buf ← aset buf j c;
            mmco_read n cmd i (j + 1) buf true
  end.

(** ** [slice_prepare] *)

(** The sequence parameter set; [frame_mbs_only_flag] is the driver's. *)
Definition prepare_sps (pa : dpb_param) (sps : SPSParameters) : SPSParameters :=
  let data := tab (l_data pa) in
  sps <| pic_order_cnt_type := data PIC_ORDER_CNT_TYPE |>
      <| log2_max_pic_order_cnt_lsb_minus4 := data LOG2_MAX_PIC_ORDER_CNT_LSB - 4 |>
      <| num_ref_frames_in_pic_order_cnt_cycle := data NUM_REF_FRAMES_IN_PIC_ORDER_CNT_CYCLE |>
      <| offset_for_ref_frame := map s16 (take 128 (offset_for_ref_frame_base pa)) |>
      <| offset_for_non_ref_pic := s16 (data OFFSET_FOR_NON_REF_PIC) |>
      <| offset_for_top_to_bottom_field := s16 (data OFFSET_FOR_TOP_TO_BOTTOM_FIELD) |>
      <| sps_num_ref_frames := data MAX_REFERENCE_FRAME_NUM |>
      <| profile_idc := Z.land (Z.shiftr (data PROFILE_IDC_MMCO) 8) 255 |>
      <| log2_max_frame_num_minus4 := data LOG2_MAX_FRAME_NUM - 4 |>
      <| frame_num_gap_allowed := data FRAME_NUM_GAP_ALLOWED |>.

(** The slice header, but for the commands. *)
Definition prepare_slice (pa : dpb_param) (st : PictureStructure) (sl : Slice) : Slice :=
  let data := tab (l_data pa) in
  let idr := Z.land (NAL_info_mmco pa) 31 =? 5 in
  let sl :=
    sl <| sl_frame_num := pa_frame_num pa |> <| sl_idr_flag := idr |>
       <| nal_reference_idc := Z.land (Z.shiftr (NAL_info_mmco pa) 5) 3 |>
       <| pic_order_cnt_lsb := pa_pic_order_cnt_lsb pa |>
       <| delta_pic_order_cnt_bottom := val (pa_delta_pic_order_cnt_bottom pa) |>
       <| delta_pic_order_cnt := (val (pa_delta_pic_order_cnt_0 pa), val (pa_delta_pic_order_cnt_1 pa)) |>
       <| sl_structure := st |> <| field_pic_flag := negb (is_eq st FRAME) |> <| bottom_field_flag := is_eq st BOTTOM_FIELD |>
       <| sl_pic_struct := data PICTURE_STRUCT |> <| sl_slice_type := slice_type_of (data SLICE_TYPE) |>
       <| first_mb_in_slice := data FIRST_MB_IN_SLICE |> <| mode_8x8_flags := data MODE_8X8_FLAGS |>
       <| picture_structure_mmco := pa_picture_structure_mmco pa |> <| sl_adaptive_ref_pic_buffering_flag := false |> in
  if idr then
    sl <| sl_long_term_reference_flag := bit (tab (mmco_cmd pa) 0) 1 |>
       <| sl_no_output_of_prior_pics_flag := bit (tab (mmco_cmd pa) 0) 2 |>
  else sl.

(** [num_ref_idx_active], cut to the size of the lists. *)
Definition clip_active (n : Z) : Z := if MAX_LIST_SIZE <=? n then MAX_LIST_SIZE - 1 else n.

Definition prepare_video (pa : dpb_param) (max_frame_num' : Z) (first_done : bool) (v : VideoParameters) : VideoParameters :=
  let data := tab (l_data pa) in
  let v := v <| last_has_mmco_5 := false |> <| last_pic_bottom_field := false |> <| max_frame_num := max_frame_num' |>
             <| non_conforming_stream := data NON_CONFORMING_STREAM |> <| recovery_point := data RECOVERY_POINT |> in
  if (Z.land (NAL_info_mmco pa) 31 =? 5) || negb first_done then v <| pre_frame_num := pa_frame_num pa |> else v.

(** [slice_prepare(p_H264_Dpb, p_Dpb, p_Vid, sps, pSlice)] *)
Definition slice_prepare : D unit :=
  s ← get;
  let pa := param s in
  st ← of_option (structure_of (tab (l_data pa) NEW_PICTURE_STRUCTURE));
  max ← of_option (one_shl (tab (l_data pa) LOG2_MAX_FRAME_NUM));
  upd_sps (prepare_sps pa);;
  upd_slice (prepare_slice pa st);;
  upd_video (prepare_video pa max (first_pic_done (mDPB s)));;
  sl ← gets mSlice;
  (when (sl_idr_flag sl) (modify (fun s => s <| h264_long_term_reference_flag := sl_long_term_reference_flag sl |>)));;
  let n0 := num_ref_idx_l0_active_minus1 pa + 1 in
  let n1 := num_ref_idx_l1_active_minus1 pa + 1 in
  upd_slice (fun sl => sl <| num_ref_idx_active := (clip_active n0, clip_active n1) |>);;
  (when ((MAX_LIST_SIZE <=? n0) || (MAX_LIST_SIZE <=? n1)) error_flag);;
  (when (truth (nal_reference_idc sl))
    (r ← of_option (mmco_read 45 (mmco_cmd pa) 0 0 (marking_buffer sl) false);
     upd_slice (fun sl => sl <| marking_buffer := r.1 |> <| sl_adaptive_ref_pic_buffering_flag := r.2 |>)));;
  sl ← gets mSlice;
  sl ← of_option (ref_pic_list_reordering pa sl);
  upd_slice (fun _ => sl);;
  modify (fun s => s <| bitstream_restriction_flag := bit (Z.shiftr (tab (l_data pa) SPS_FLAGS2) 3) 1 |>).

(** ** Pictures and the buffer *)

(** [init_picture(p_H264_Dpb, currSlice, dec_picture)] *)
Definition init_picture (sl : Slice) (p : StorablePicture) : StorablePicture :=
  let p :=
    p <| p_top_poc := toppoc sl |> <| p_bottom_poc := bottompoc sl |> <| p_frame_poc := framepoc sl |>
      <| p_poc := match sl_structure sl with TOP_FIELD => toppoc sl | BOTTOM_FIELD => bottompoc sl | FRAME => framepoc sl end |>
      <| p_used_for_reference := truth (nal_reference_idc sl) |> <| p_idr_flag := sl_idr_flag sl |>
      <| p_no_output_of_prior_pics_flag := sl_no_output_of_prior_pics_flag sl |>
      <| p_long_term_reference_flag := sl_long_term_reference_flag sl |>
      <| p_adaptive_ref_pic_buffering_flag := sl_adaptive_ref_pic_buffering_flag sl |>
      <| p_dec_ref_pic_marking_buffer := Some 0 |>
      <| p_pic_num := sl_frame_num sl |> <| p_frame_num := sl_frame_num sl |> <| p_coded_frame := is_eq (sl_structure sl) FRAME |>
      <| p_pic_struct := if sl_pic_struct sl <? PIC_INVALID then sl_pic_struct sl else PIC_INVALID |> in
  if Z.land (picture_structure_mmco sl) 3 =? 3 then p <| p_mb_aff_frame_flag := true |> else p.

(** [init_dummy_fs()].  The commands of [dummy_pic], which nobody follows, are
    left out. *)
Definition init_dummy_fs (s : h264_dpb_stru) : h264_dpb_stru :=
  let link p := p <| p_top_field := Some DUMMY_PIC |> <| p_bottom_field := Some DUMMY_PIC |> <| p_frame := Some DUMMY_PIC |> in
  let fields f := f <| f_frame := Some DUMMY_PIC |> <| f_top_field := Some DUMMY_PIC |> <| f_bottom_field := Some DUMMY_PIC |> in
  s <| m_PIC := alter link (Z.to_nat DUMMY_PIC) (m_PIC s) |> <| mFrameStore := alter fields (Z.to_nat DUMMY_FS) (mFrameStore s) |>.

(** [dpb_init_global(p_H264_Dpb, id, actual_dpb_size, max_reference_size)] *)
Definition dpb_init_global (actual_dpb_size max_ref : Z) : D unit :=
  modify init_dummy_fs;;
  modify (fun s =>
    s <| mDPB := zero_dpb |> <| mSlice := zero_slice |> <| mVideo := zero_video |> <| mSPS := zero_sps |>
      <| mFrameStore := repeat zero_fs (Z.to_nat DPB_SIZE_MAX) ++ drop (Z.to_nat DPB_SIZE_MAX) (mFrameStore s) |>
      <| m_PIC := imap (fun i _ => zero_pic <| p_index := Z.of_nat i |>) (repeat tt (Z.to_nat MAX_PIC_BUF_NUM))
                    ++ drop (Z.to_nat MAX_PIC_BUF_NUM) (m_PIC s) |>);;
  upd_dpb (fun d => d <| size := actual_dpb_size |>);;
  modify (fun s => s <| max_reference_size := max_ref |> <| poc_even_odd_flag := 0 |>).

(** The body of the loop of [init_dpb]. *)
Definition init_fs (i : Z) : D unit :=
  set_fs i (Some i);;
  upd_fs (Some i) (fun f => f <| f_index := i |>);;
  d ← gets mDPB;
  l ← of_option (aset (fs_ref d) i None);
  lt ← of_option (aset (fs_ltref d) i None);
  upd_dpb (fun d => d <| fs_ref := l |> <| fs_ltref := lt |>);;
  upd_fs (Some i) (fun f => f <| f_info := (f_info f) <| layer_id := 0 |> |>).

(** The picture that fills the places of missing references.  The result of
    [get_new_pic] is dereferenced unchecked. *)
Definition init_no_reference : D unit :=
  v ← gets mVideo;
  when (bool_decide (no_reference_picture v = None))
    (o ← get_new_pic FRAME;
     upd_video (fun v => v <| no_reference_picture := o |>);;
     upd_pic o (fun p => p <| p_top_field := o |> <| p_bottom_field := o |> <| p_frame := o |>)).

(** [init_dpb(p_H264_Dpb, type)] *)
Definition init_dpb : D unit :=
  upd_video (fun v => v <| active_sps := true |>);;
  s ← get;
  (when (init_done (mDPB s))
    ((when (bool_decide (no_reference_picture (mVideo s) ≠ None))
       (free_picture (no_reference_picture (mVideo s));; upd_video (fun v => v <| no_reference_picture := None |>)));;
     upd_dpb (fun d => d <| init_done := false |>)));;
  upd_dpb (fun d => d <| num_ref_frames := sps_num_ref_frames (mSPS s) |> <| used_size := 0 |> <| last_picture := None |>
                      <| ref_frames_in_buffer := 0 |> <| ltref_frames_in_buffer := 0 |>);;
  for_range 0 (size (mDPB s)) init_fs;;
  init_no_reference;;
  upd_dpb (fun d => d <| last_output_poc := INT_MIN |>);;
  upd_video (fun v => v <| last_has_mmco_5 := false |>);;
  init_colocate_buf (max_reference_size s);;
  upd_dpb (fun d => d <| init_done := true |>).

(** [check_frame_store_same_pic_num(p_Dpb, p, currSlice)] *)
Definition check_frame_store_same_pic_num (o : option Z) : D unit :=
  d ← gets mDPB;
  match last_picture d with
  | None => mret tt
  | Some _ =>
      f ← fs_at (last_picture d);
      p ← pic_at o;
      when (second_field_of p f)
        (upd_pic o (fun p => p <| p_buf_spec_num := f_buf_spec_num f |> <| p_buf_spec_is_alloced := false |>
                               <| p_col_buf_is_alloced := false |> <| p_colocated_buf_index := f_colocated_buf_index f |>);;
         sl ← gets mSlice;
         (if is_eq (sl_structure sl) TOP_FIELD then
            x ← pic_at (f_bottom_field f); upd_pic o (fun p => p <| p_bottom_poc := p_poc x |>)
          else
            x ← pic_at (f_top_field f); upd_pic o (fun p => p <| p_top_poc := p_poc x |>));;
         upd_pic o (fun p => p <| p_frame_poc := Z.min (p_bottom_poc p) (p_top_poc p) |>))
  end.

(** [get_cur_slice_picture_struct(p_H264_Dpb)] *)
Definition get_cur_slice_picture_struct : D PictureStructure := gets (fun s => sl_structure (mSlice s)).
