(* ===== verification/H264Mark.v ===== *)
(** Reference marking in the H.264 decoded picture buffer
    (src/drivers/frame_provider/decoder/h264_multi/h264_dpb.c): which frame
    stores are references, the lists of the short-term and the long-term ones,
    the sliding window and the memory management control operations.

    [print]s and [check_num_ref], which only prints, are left out. *)

From stdpp Require Import base list numbers.
From Stdlib Require Import ZArith Lia Bool.
From S2P Require Import Prelude H264Types H264Pool.

#[local] Open Scope Z_scope.

Definition unused (p : StorablePicture) : StorablePicture := p <| p_used_for_reference := false |>.
Definition unused_lt (p : StorablePicture) : StorablePicture := p <| p_used_for_reference := false |> <| p_is_long_term := false |>.

(** ** Marking a frame store unused *)

(** The three [if]s that [unmark_for_reference] and
    [unmark_for_long_term_reference] have in common; [g] is what they do to a
    picture. *)
Definition unmark_pics (k : option Z) (g : StorablePicture → StorablePicture) : D unit :=
  f ← fs_at k;
  (when (bit (f_is_used f) 1) (on_pic (f_top_field f) g));;
  (when (bit (f_is_used f) 2) (on_pic (f_bottom_field f) g));;
  when (f_is_used f =? 3)
    ((match f_top_field f, f_bottom_field f with
      | Some _, Some _ => upd_pic (f_top_field f) g;; upd_pic (f_bottom_field f) g
      | _, _ => mret tt
      end);;
     upd_pic (f_frame f) g).

Definition unmark_for_reference (k : option Z) : D unit :=
  unmark_pics k unused;; upd_fs k (fun f => f <| f_is_reference := 0 |>).

Definition unmark_for_long_term_reference (k : option Z) : D unit :=
  unmark_pics k unused_lt;; upd_fs k (fun f => f <| f_is_reference := 0 |> <| f_is_long_term := 0 |>).

(** ** Is a frame store a reference? *)

(** The test on the frame, then on the top and on the bottom field. *)
Definition any_pic (f : FrameStore) (g : StorablePicture → bool) : D bool :=
  or_else (if f_is_used f =? 3 then p ← pic_at (f_frame f); mret (g p) else mret false)
    (or_else (if bit (f_is_used f) 1 then test_pic (f_top_field f) g else mret false)
             (if bit (f_is_used f) 2 then test_pic (f_bottom_field f) g else mret false)).

Definition is_used_for_reference (k : option Z) : D bool :=
  f ← fs_at k;
  if truth (f_is_reference f) then mret true else any_pic f p_used_for_reference.

Definition is_short_term_reference (k : option Z) : D bool :=
  f ← fs_at k; any_pic f (fun p => p_used_for_reference p && negb (p_is_long_term p)).

Definition is_long_term_reference (k : option Z) : D bool :=
  f ← fs_at k; any_pic f (fun p => p_used_for_reference p && p_is_long_term p).

(** ** The lists of references *)

(** [for (i = 0; i < used_size; i++) if (test(fs[i])) list[j++] = fs[i];] *)
Definition collect (test : option Z → D bool) (n : Z) (l : list (option Z)) : D (Z * list (option Z)) :=
  fold_range 0 n (fun i '(j, l) =>
    k ← ptr_of fs i;
    b ← test k;
    if (b : bool) then l ← of_option (aset l j k); mret (j + 1, l) else mret (j, l)) (0, l).

(** [while (j < size) list[j++] = NULL;] *)
Definition clear_from (j n : Z) (l : list (option Z)) : D (list (option Z)) :=
  fold_range j n (fun j l => of_option (aset l j None)) l.

(** [for (i = 0; i < DPB_SIZE_MAX; i++) if (list[i] == NULL) list[i] = &dummy_fs;] *)
Definition fill_dummy (l : list (option Z)) : list (option Z) :=
  map (fun o => match o with None => Some DUMMY_FS | _ => o end) l.

Definition update_ref_list : D unit :=
  d ← gets mDPB;
  r ← collect is_short_term_reference (used_size d) (fs_ref d);
  let '(j, l) := r in
  upd_dpb (fun d => d <| ref_frames_in_buffer := j |>);;
  l ← clear_from j (size d) l;
  upd_dpb (fun d => d <| fs_ref := fill_dummy l |>).

Definition update_ltref_list : D unit :=
  d ← gets mDPB;
  r ← collect is_long_term_reference (used_size d) (fs_ltref d);
  let '(j, l) := r in
  upd_dpb (fun d => d <| ltref_frames_in_buffer := j |>);;
  l ← clear_from j (size d) l;
  upd_dpb (fun d => d <| fs_ltref := fill_dummy l |>).

(** ** The sliding window *)

(** [sliding_window_memory_management(p_Dpb, p)]: the first reference frame
    store, by [is_reference], that has no long-term field. *)
Definition sliding_window_memory_management (o : option Z) : D unit :=
  d ← gets mDPB;
  let sliding_margin := u32 (Z.max 1 (num_ref_frames d) - ltref_frames_in_buffer d) in
  (when (ref_frames_in_buffer d =? sliding_margin)
    (_ ← until (used_size d) (fun i =>
       k ← ptr_of fs i;
       f ← fs_at k;
       if truth (f_is_reference f) && negb (truth (f_is_long_term f)) then
         unmark_for_reference k;; update_ref_list;; mret Return
       else mret Next_);
     mret tt));;
  upd_pic o (fun p => p <| p_is_long_term := false |>).

(** ** Memory management control operations *)

Definition get_pic_num_x (p : StorablePicture) (difference_of_pic_nums_minus1 : Z) : Z :=
  let currPicNum := match p_structure p with FRAME => s32 (p_frame_num p) | _ => s32 (2 * p_frame_num p + 1) end in
  s32 (currPicNum - s32 (difference_of_pic_nums_minus1 + 1)).

(** [if (p == NULL) { dpb_error_flag = __LINE__; continue; }] *)
Definition non_null (o : option Z) (m : D flow) : D flow :=
  match o with None => error_flag;; mret Continue | Some _ => m end.

(** A field of [fs_ref[i]] is unmarked when its number is [picNumX]; [m] is
    the mask of the field and [m'] that of the other. *)
Definition unmark_short_field (k : option Z) (picNumX m m' : Z) (field : FrameStore → option Z) : D flow :=
  f ← fs_at k;
  if bit (f_is_reference f) m && negb (bit (f_is_long_term f) m) then
    non_null (field f)
      (p ← pic_at (field f);
       if p_pic_num p =? picNumX then
         upd_pic (field f) unused;;
         upd_fs k (fun f => f <| f_is_reference := Z.land (f_is_reference f) m' |>);;
         (when (f_is_used f =? 3) (on_pic (f_frame f) unused));;
         mret Return
       else mret Next_)
  else mret Next_.

Definition mm_unmark_short_term_for_reference (o : option Z) (difference_of_pic_nums_minus1 : Z) : D unit :=
  p ← pic_at o;
  let picNumX := get_pic_num_x p difference_of_pic_nums_minus1 in
  n ← gets (fun s => ref_frames_in_buffer (mDPB s));
  _ ← until n (fun i =>
    k ← ptr_of fs_ref i;
    non_null k
      match p_structure p with
      | FRAME =>
          f ← fs_at k;
          if (f_is_reference f =? 3) && (f_is_long_term f =? 0) then
            non_null (f_frame f)
              (x ← pic_at (f_frame f);
               if p_pic_num x =? picNumX then unmark_for_reference k;; mret Return else mret Next_)
          else mret Next_
      | _ =>
          flow_seq (unmark_short_field k picNumX 1 2 f_top_field) (unmark_short_field k picNumX 2 1 f_bottom_field)
      end);
  mret tt.

(** The same for a field of [fs_ltref[i]]. *)
Definition unmark_long_field (k : option Z) (num m m' : Z) (field : FrameStore → option Z) : D flow :=
  f ← fs_at k;
  if bit (f_is_reference f) m && bit (f_is_long_term f) m then
    p ← pic_at (field f);
    if p_long_term_pic_num p =? num then
      upd_pic (field f) unused_lt;;
      upd_fs k (fun f => f <| f_is_reference := Z.land (f_is_reference f) m' |> <| f_is_long_term := Z.land (f_is_long_term f) m' |>);;
      (when (f_is_used f =? 3) (upd_pic (f_frame f) unused_lt));;
      mret Return
    else mret Next_
  else mret Next_.

Definition mm_unmark_long_term_for_reference (o : option Z) (num : Z) : D unit :=
  p ← pic_at o;
  n ← gets (fun s => ltref_frames_in_buffer (mDPB s));
  _ ← until n (fun i =>
    k ← ptr_of fs_ltref i;
    match p_structure p with
    | FRAME =>
        f ← fs_at k;
        if (f_is_reference f =? 3) && (f_is_long_term f =? 3) then
          x ← pic_at (f_frame f);
          (when (p_long_term_pic_num x =? num) (unmark_for_long_term_reference k));; mret Next_
        else mret Next_
    | _ => flow_seq (unmark_long_field k num 1 2 f_top_field) (unmark_long_field k num 2 1 f_bottom_field)
    end);
  mret tt.

Definition unmark_long_term_frame_for_reference_by_frame_idx (idx : Z) : D unit :=
  n ← gets (fun s => ltref_frames_in_buffer (mDPB s));
  for_range 0 n (fun i =>
    k ← ptr_of fs_ltref i;
    f ← fs_at k;
    when (f_long_term_frame_idx f =? idx) (unmark_for_long_term_reference k)).

Definition unmark1 (k : option Z) : D unit :=
  d ← gets mDPB;
  match last_picture d with None => mret tt | Some _ => unmark_for_long_term_reference k end.

Definition unmark2 (k : option Z) (curr_pic_num : Z) : D unit :=
  f ← fs_at k;
  when (negb (f_frame_num f =? u32 (Z.shiftr curr_pic_num 1))) (unmark_for_long_term_reference k).

Definition unmark3_top (k : option Z) (curr_pic_num : Z) (mark_current : bool) : D unit :=
  f ← fs_at k;
  if f_is_long_term f =? 3 then unmark_for_long_term_reference k
  else if f_is_long_term f =? 1 then unmark_for_long_term_reference k
  else if mark_current then unmark1 k
  else unmark2 k curr_pic_num.

Definition unmark3_bottom (k : option Z) (curr_pic_num : Z) (mark_current : bool) : D unit :=
  f ← fs_at k;
  if f_is_long_term f =? 2 then unmark_for_long_term_reference k
  else if mark_current then unmark1 k
  else unmark2 k curr_pic_num.

(** [curr_frame_num] is passed down and not used. *)
Definition unmark_long_term_field_for_reference_by_frame_idx (structure : PictureStructure) (idx : Z) (mark_current : bool)
    (curr_pic_num : Z) : D unit :=
  s ← get;
  let curr_pic_num := if curr_pic_num <? 0 then s32 (curr_pic_num + s32 (2 * max_frame_num (mVideo s))) else curr_pic_num in
  for_range 0 (ltref_frames_in_buffer (mDPB s)) (fun i =>
    k ← ptr_of fs_ltref i;
    f ← fs_at k;
    when (f_long_term_frame_idx f =? idx)
      match structure with
      | FRAME => mret tt
      | TOP_FIELD => unmark3_top k curr_pic_num mark_current
      | BOTTOM_FIELD => unmark3_bottom k curr_pic_num mark_current
      end).

(** *** Long-term marking *)

Definition lt_mark (idx num : Z) (p : StorablePicture) : StorablePicture :=
  p <| p_long_term_frame_idx := idx |> <| p_long_term_pic_num := num |> <| p_is_long_term := true |>.

Definition mark_frame_long_term (k : option Z) (idx picNumX : Z) : D flow :=
  f ← fs_at k;
  if f_is_reference f =? 3 then
    non_null (f_frame f)
      (x ← pic_at (f_frame f);
       if negb (p_is_long_term x) && (p_pic_num x =? picNumX) then
         upd_fs k (fun f => f <| f_long_term_frame_idx := idx |>);;
         upd_pic (f_frame f) (lt_mark idx idx);;
         (match f_top_field f, f_bottom_field f with
          | Some _, Some _ => upd_pic (f_top_field f) (lt_mark idx idx);; upd_pic (f_bottom_field f) (lt_mark idx idx)
          | _, _ => mret tt
          end);;
         upd_fs k (fun f => f <| f_is_long_term := 3 |>);;
         mret Return
       else mret Next_)
  else mret Next_.

Definition mark_field_long_term (k : option Z) (idx picNumX m add : Z) (field : FrameStore → option Z) : D flow :=
  f ← fs_at k;
  if bit (f_is_reference f) m then
    non_null (field f)
      (x ← pic_at (field f);
       if negb (p_is_long_term x) && (p_pic_num x =? picNumX) then
         upd_fs k (fun f => f <| f_long_term_frame_idx := idx |>);;
         upd_pic (field f) (lt_mark idx (s32 (2 * idx + add)));;
         upd_fs k (fun f => f <| f_is_long_term := Z.lor (f_is_long_term f) m |>);;
         f ← fs_at k;
         (when (f_is_long_term f =? 3) (on_pic (f_frame f) (lt_mark idx idx)));;
         mret Return
       else mret Next_)
  else mret Next_.

Definition mark_pic_long_term (o : option Z) (idx picNumX : Z) : D unit :=
  p ← pic_at o;
  n ← gets (fun s => ref_frames_in_buffer (mDPB s));
  _ ← until n (fun i =>
    k ← ptr_of fs_ref i;
    non_null k
      match p_structure p with
      | FRAME => mark_frame_long_term k idx picNumX
      | TOP_FIELD => flow_seq (mark_field_long_term k idx picNumX 1 1 f_top_field) (mark_field_long_term k idx picNumX 2 0 f_bottom_field)
      | BOTTOM_FIELD => flow_seq (mark_field_long_term k idx picNumX 1 0 f_top_field) (mark_field_long_term k idx picNumX 2 1 f_bottom_field)
      end);
  mret tt.

(** One field of the search of [mm_assign_long_term_frame_idx]: [Return] when
    it has the number. *)
Definition has_pic_num (k : option Z) (picNumX m : Z) (field : FrameStore → option Z) : D flow :=
  f ← fs_at k;
  if bit (f_is_reference f) m then
    non_null (field f) (x ← pic_at (field f); mret (if p_pic_num x =? picNumX then Return else Next_))
  else mret Next_.

(** The structure of the field with number [picNumX], [FRAME] when there is
    none. *)
Fixpoint find_field (n : nat) (i picNumX : Z) : D PictureStructure :=
  match n with
  | O => mret FRAME
  | S n =>
      k ← ptr_of fs_ref i;
      match k with
      | None => error_flag;; find_field n (i + 1) picNumX
      | Some _ =>
          r ← has_pic_num k picNumX 1 f_top_field;
          match r with
          | Return => mret TOP_FIELD
          | Continue => find_field n (i + 1) picNumX
          | Next_ =>
              r ← has_pic_num k picNumX 2 f_bottom_field;
              match r with Return => mret BOTTOM_FIELD | _ => find_field n (i + 1) picNumX end
          end
      end
  end.

Definition mm_assign_long_term_frame_idx (o : option Z) (difference_of_pic_nums_minus1 idx : Z) : D unit :=
  p ← pic_at o;
  let picNumX := get_pic_num_x p difference_of_pic_nums_minus1 in
  match p_structure p with
  | FRAME => unmark_long_term_frame_for_reference_by_frame_idx idx
  | _ =>
      n ← gets (fun s => ref_frames_in_buffer (mDPB s));
      structure ← find_field (Z.to_nat n) 0 picNumX;
      unmark_long_term_field_for_reference_by_frame_idx structure idx false picNumX
  end;;
  mark_pic_long_term o idx picNumX.

Definition mm_update_max_long_term_frame_idx (max_plus1 : Z) : D unit :=
  upd_dpb (fun d => d <| max_long_term_pic_idx := s32 (max_plus1 - 1) |>);;
  d ← gets mDPB;
  for_range 0 (ltref_frames_in_buffer d) (fun i =>
    k ← ptr_of fs_ltref i;
    f ← fs_at k;
    when (max_long_term_pic_idx d <? f_long_term_frame_idx f) (unmark_for_long_term_reference k)).

Definition mm_unmark_all_long_term_for_reference : D unit := mm_update_max_long_term_frame_idx 0.

Definition mm_unmark_all_short_term_for_reference : D unit :=
  n ← gets (fun s => ref_frames_in_buffer (mDPB s));
  for_range 0 n (fun i => k ← ptr_of fs_ref i; unmark_for_reference k);;
  update_ref_list.

Definition mm_mark_current_picture_long_term (o : option Z) (idx : Z) : D unit :=
  p ← pic_at o;
  match p_structure p with
  | FRAME => unmark_long_term_frame_for_reference_by_frame_idx idx
  | st => unmark_long_term_field_for_reference_by_frame_idx st idx true 0
  end;;
  upd_pic o (fun p => p <| p_is_long_term := true |> <| p_long_term_frame_idx := idx |>).

(** The marking of the frame store that holds a buffer, -1 when none does. *)
Definition get_long_term_flag_by_buf_spec_num (buf_spec_num : Z) : D Z :=
  n ← gets (fun s => used_size (mDPB s));
  i ← until n (fun i =>
    k ← ptr_of fs i; f ← fs_at k; mret (if f_buf_spec_num f =? buf_spec_num then Return else Next_));
  match i with
  | None => mret (-1)
  | Some i => k ← ptr_of fs i; f ← fs_at k; mret (f_is_long_term f)
  end.

(** *** Picture numbers *)

(** [frame_num_wrap]: a larger [frame_num] than the current one is from before
    the counter wrapped.  The comparison is unsigned. *)
Definition wrap_num (frame_num cur max : Z) : Z := if u32 cur <? frame_num then s32 (frame_num - max) else s32 frame_num.

(** One field of [update_pic_num]; [Continue] when it is missing. *)
Definition number_field (present : bool) (o : option Z) (g : StorablePicture → StorablePicture) : D flow :=
  if present then non_null o (upd_pic o g;; mret Next_) else mret Next_.

(** The body of the loop over the short-term references. *)
Definition number_short (cur max : Z) (st : PictureStructure) (i : Z) : D unit :=
  k ← ptr_of fs_ref i;
  match k with
  | None => error_flag
  | Some _ =>
      f ← fs_at k;
      match st with
      | FRAME =>
          match f_frame f with
          | None => error_flag
          | Some _ =>
              when (f_is_used f =? 3)
                (x ← pic_at (f_frame f);
                 when (p_used_for_reference x && negb (p_is_long_term x))
                   (let wrap := wrap_num (f_frame_num f) cur max in
                    upd_fs k (fun f => f <| f_frame_num_wrap := wrap |>);;
                    upd_pic (f_frame f) (fun p => p <| p_pic_num := wrap |>)))
          end
      | _ =>
          let add_top := if is_eq st TOP_FIELD then 1 else 0 in
          when (truth (f_is_reference f))
            (let wrap := wrap_num (f_frame_num f) cur max in
             upd_fs k (fun f => f <| f_frame_num_wrap := wrap |>);;
             _ ← flow_seq (number_field (bit (f_is_reference f) 1) (f_top_field f) (fun p => p <| p_pic_num := s32 (2 * wrap + add_top) |>))
                     (number_field (bit (f_is_reference f) 2) (f_bottom_field f) (fun p => p <| p_pic_num := s32 (2 * wrap + (1 - add_top)) |>));
             mret tt)
      end
  end.

(** The body of the loop over the long-term references. *)
Definition number_long (st : PictureStructure) (i : Z) : D unit :=
  k ← ptr_of fs_ltref i;
  match k with
  | None => error_flag
  | Some _ =>
      f ← fs_at k;
      match st with
      | FRAME =>
          match f_frame f with
          | None => error_flag
          | Some _ =>
              when (f_is_used f =? 3)
                (upd_pic (f_frame f) (fun p => if p_is_long_term p then p <| p_long_term_pic_num := p_long_term_frame_idx p |> else p))
          end
      | _ =>
          let add_top := if is_eq st TOP_FIELD then 1 else 0 in
          let num add p := p <| p_long_term_pic_num := s32 (2 * p_long_term_frame_idx p + add) |> in
          _ ← flow_seq (number_field (bit (f_is_long_term f) 1) (f_top_field f) (num add_top))
                  (number_field (bit (f_is_long_term f) 2) (f_bottom_field f) (num (1 - add_top)));
          mret tt
      end
  end.

(** [update_pic_num(p_H264_Dpb)] *)
Definition update_pic_num : D unit :=
  s ← get;
  if active_sps (mVideo s) then
    let sh := s32 (log2_max_frame_num_minus4 (mSPS s) + 4) in
    if (sh <? 0) || (32 <=? sh) then undef
    else
      let max := s32 (Z.shiftl 1 sh) in
      let st := sl_structure (mSlice s) in
      for_range 0 (ref_frames_in_buffer (mDPB s)) (number_short (sl_frame_num (mSlice s)) max st);;
      for_range 0 (ltref_frames_in_buffer (mDPB s)) (number_long st)
  else undef.
