(* ===== verification/H264Store.v ===== *)
(** Output and storing of pictures in the H.264 decoded picture buffer
    (src/drivers/frame_provider/decoder/h264_multi/h264_dpb.c): frame stores
    that are no longer needed leave it, pictures go out in output order, a
    decoded picture is marked and stored.

    A loop that ends when its callee says so is given [S DPB_SIZE_MAX] turns;
    running out of them is undefined behaviour, which H264Safe excludes. *)

From stdpp Require Import base list numbers.
From Stdlib Require Import ZArith Lia Bool.
From S2P Require Import Prelude H264Types H264Pool H264Display H264Mark.

#[local] Open Scope Z_scope.

(** ** Leaving the buffer *)

(** [is_output && !is_used_for_reference(fs)] *)
Definition may_leave (k : option Z) : D bool :=
  f ← fs_at k;
  if f_is_output f then b ← is_used_for_reference k; mret (negb b) else mret false.

(** The first loop of [remove_unused_frame_from_dpb]. *)
Definition release_colocated (i : Z) : D unit :=
  k ← ptr_of fs i;
  b ← is_used_for_reference k;
  f ← fs_at k;
  when (negb b && (0 <=? f_colocated_buf_index f))
    (release_colocate_buf (f_colocated_buf_index f);;
     upd_fs k (fun f => f <| f_colocated_buf_index := -1 |>)).

(** [remove_unused_frame_from_dpb(p_H264_Dpb)] *)
Definition remove_unused_frame_from_dpb : D bool :=
  n ← gets (fun s => used_size (mDPB s));
  for_range 0 n release_colocated;;
  i ← until n (fun i => k ← ptr_of fs i; b ← may_leave k; mret (if (b : bool) then Return else Next_));
  match i with
  | None => mret false
  | Some i =>
      k ← ptr_of fs i;
      f ← fs_at k;
      log (Ev_release_buf_spec (f_buf_spec_num f));;
      upd_fs k (fun f => f <| f_buf_spec_num := -1 |>);;
      remove_frame_from_dpb i;;
      mret true
  end.

(** [while (body()) ;]: whether [body] ever answered 1. *)
Fixpoint while_ (n : nat) (body : D bool) : D bool :=
  match n with
  | O => undef
  | S n => b ← body; if (b : bool) then _ ← while_ n body; mret true else mret false
  end.

Definition TURNS : nat := S (Z.to_nat DPB_SIZE_MAX).

Definition remove_unused_frames : D bool := while_ TURNS remove_unused_frame_from_dpb.

(** [is_there_unused_frame_from_dpb(p_Dpb)] *)
Definition is_there_unused_frame_from_dpb : D bool :=
  n ← gets (fun s => used_size (mDPB s));
  i ← until n (fun i => k ← ptr_of fs i; b ← may_leave k; mret (if (b : bool) then Return else Next_));
  mret (match i with None => false | Some _ => true end).

(** [unmark_one_error_out_frame(p_H264_Dpb)] *)
Definition unmark_one_error_out_frame : D bool :=
  n ← gets (fun s => used_size (mDPB s));
  i ← until n (fun i =>
    k ← ptr_of fs i;
    f ← fs_at k;
    if f_is_output f && (bit (f_data_flag f) ERROR_FLAG || bit (f_data_flag f) NULL_FLAG)
    then unmark_for_reference k;; mret Return
    else mret Next_);
  mret (match i with None => false | Some _ => true end).

(** [unmark_one_out_frame(p_H264_Dpb)]: the loop does not stop at the first. *)
Definition unmark_one_out_frame : D bool :=
  n ← gets (fun s => used_size (mDPB s));
  fold_range 0 n (fun i ret =>
    k ← ptr_of fs i;
    f ← fs_at k;
    if f_is_output f then unmark_for_reference k;; mret true else mret ret) false.

(** [bufmgr_h264_remove_unused_frame(p_H264_Dpb, force_flag)] *)
Definition bufmgr_h264_remove_unused_frame (force_flag : Z) : D unit :=
  removed ← remove_unused_frames;
  if (removed : bool) then mret tt
  else if force_flag =? 2 then
    b ← unmark_one_out_frame; when b (update_ref_list;; _ ← remove_unused_frame_from_dpb; mret tt)
  else if force_flag =? 1 then
    b ← unmark_one_error_out_frame; when b (update_ref_list;; _ ← remove_unused_frame_from_dpb; mret tt)
  else mret tt.

(** ** Output *)

(** Waiting for output: [!is_output && !pre_output]. *)
Definition waiting (f : FrameStore) : bool := negb (f_is_output f) && negb (f_pre_output f).

(** The candidate of the smallest order count: [*poc] and [*pos]. *)
Definition get_smallest_poc `{H264Driver} : D (Z * Z) :=
  n ← gets (fun s => used_size (mDPB s));
  if bufspec_lock then
    fold_range 0 n (fun i '(poc, pos) =>
      k ← ptr_of fs i;
      f ← fs_at k;
      mret (if (f_poc f <? poc) && waiting f then (f_poc f, i) else (poc, pos))) (INT_MAX, -1)
  else mret (INT_MAX, -1).

(** [for (i = 0; i < used_size; i++) if (test(fs[i])) n++;] *)
Definition count_fs (test : FrameStore → bool) : D Z :=
  n ← gets (fun s => used_size (mDPB s));
  fold_range 0 n (fun i c => k ← ptr_of fs i; f ← fs_at k; mret (if test f then c + 1 else c)) 0.

(** A frame store that may be displayed: complete, or a single field in error
    that is to be shown. *)
Definition displayable (f : FrameStore) : bool :=
  waiting f && ((f_is_used f =? 3) || (bit (f_data_flag f) ERROR_FLAG && bit (f_data_flag f) FIELD_DISP_FLAG)).

(** The first complete frame after a start or a reset. *)
Definition first_insert (f : FrameStore) (fast : bool) : D bool :=
  s ← get;
  if (is_eq (first_insert_frame s) FirstInsertFrm_IDLE || is_eq (first_insert_frame s) FirstInsertFrm_RESET)
     && (f_is_used f =? 3) && (last_output_poc (mDPB s) =? INT_MIN)
  then
    modify (fun s => s <| first_insert_frame := FirstInsertFrm_OUT |> <| first_output_poc := f_poc f |>);;
    mret (if is_eq (first_insert_frame s) FirstInsertFrm_IDLE then true else fast)
  else mret fast.

(** [poc_even_odd_flag]: 0 at first, 2 when only even counts were seen, 1 after
    an odd one. *)
Definition check_even_odd (f : FrameStore) : D unit :=
  s ← get;
  (when ((poc_even_odd_flag s =? 0) && (5 <=? poc_check_count s)) (modify (fun s => s <| poc_even_odd_flag := 2 |>)));;
  when (bit (f_poc f) 1) (modify (fun s => s <| poc_even_odd_flag := 1 |>)).

(** [for (j = 0; ...) { if (ERROR_FLAG) break; fast_output_flag = 1; }] *)
Fixpoint fast_if_no_error (n : nat) (j : Z) (fast : bool) : D bool :=
  match n with
  | O => mret fast
  | S n => k ← ptr_of fs j; f ← fs_at k; if bit (f_data_flag f) ERROR_FLAG then mret fast else fast_if_no_error n (j + 1) true
  end.

(** The body of the first loop of [output_frames]: how many frames are not
    displayed, and [fast_output_flag]. *)
Definition output_scan (i : Z) (acc : Z * bool) : D (Z * bool) :=
  let '(none_displayed_num, fast) := acc in
  k ← ptr_of fs i;
  f ← fs_at k;
  if displayable f then
    fast ← first_insert f fast;
    check_even_odd f;;
    s ← get;
    let step := f_poc f - last_output_poc (mDPB s) in
    let fast := fast || (bit (fast_output_enable s) 1 && bit (f_data_flag f) IDR_FLAG) in
    fast ← (if bit (fast_output_enable s) 2 && (step =? 1) then fast_if_no_error (Z.to_nat (used_size (mDPB s))) 0 fast else mret fast);
    let fast := fast || (bit (fast_output_enable s) 4 && (poc_even_odd_flag s =? 2) && (f_is_used f =? 3) && (step =? 2)) in
    mret (none_displayed_num + 1, fast)
  else mret (none_displayed_num, fast).

(** The second loop: whether the frames that are still needed, none in error,
    fill the decoder's buffer. *)
Fixpoint inner_dpb (n : nat) (i inner_dpb_size : Z) : D (option Z) :=
  match n with
  | O => mret (Some inner_dpb_size)
  | S n =>
      k ← ptr_of fs i;
      f ← fs_at k;
      if bit (f_data_flag f) ERROR_FLAG then mret None
      else
        inner_dpb n (i + 1)
          (if (waiting f || truth (f_is_reference f)) && (f_is_used f =? 3) then inner_dpb_size + 1 else inner_dpb_size)
  end.

Section Store.
Context `{H264Driver}.

(** Whether [output_frames] goes on when it does not flush. *)
Definition output_wanted : D bool :=
  n ← gets (fun s => used_size (mDPB s));
  acc ← fold_range 0 n output_scan (0, false);
  let '(none_displayed_num, fast) := acc in
  s ← get;
  fast ← (if negb (bit get_error_proc_policy 67108864) && negb (bitstream_restriction_flag s) then
            r ← inner_dpb (Z.to_nat n) 0 0;
            mret (match r with Some c => fast || (dec_dpb_size s <=? c) | None => fast end)
          else mret fast);
  mret (fast || (reorder_output s <=? none_displayed_num)).

(** [wait_aux_data_flag]: not enough frames to be sure of the order. *)
Definition aux_wait : D bool :=
  s ← get;
  if wait_aux_data_flag s then
    c ← count_fs (fun f => waiting f && ((f_is_used f =? 3) || bit (f_data_flag f) ERROR_FLAG));
    mret (c <=? reorder_output s)
  else mret false.

(** Frames before the first one that was put out are not displayed. *)
Definition skip_leading (k : option Z) : D unit :=
  s ← get;
  when (is_eq (first_insert_frame s) FirstInsertFrm_OUT)
    (f ← fs_at k;
     if f_poc f <? first_output_poc s then upd_fs k (fun f => f <| f_data_flag := Z.lor (f_data_flag f) NODISP_FLAG |>)
     else when (negb (last_output_poc (mDPB s) =? INT_MIN)) (modify (fun s => s <| first_insert_frame := FirstInsertFrm_SKIPDONE |>))).

(** [prepare_display_buf(vdec, fs[pos])] and what follows its success. *)
Definition output_one (poc pos : Z) : D bool :=
  k ← ptr_of fs pos;
  skip_leading k;;
  r ← prepare_display_buf k;
  f ← fs_at k;
  log (Ev_prepare_display (f_index f));;
  if 0 <=? r then
    wdm ← gets without_display_mode;
    (when (negb wdm && f_show_frame f) (upd_fs k (fun f => f <| f_pre_output := true |>)));;
    upd_dpb (fun d => d <| last_output_poc := poc |>);;
    mret true
  else mret false.

(** [output_frames(p_H264_Dpb, flush_flag)] *)
Definition output_frames (flush_flag : bool) : D bool :=
  w ← (if flush_flag then mret false else aux_wait);
  if (w : bool) then mret false
  else
    go ← (if flush_flag then mret true else output_wanted);
    if (go : bool) then
      r ← get_smallest_poc;
      let '(poc, pos) := r in
      if pos =? -1 then mret false else output_one poc pos
    else mret false.

Definition output_all (flush_flag : bool) : D unit := _ ← while_ TURNS (output_frames flush_flag); mret tt.

(** [flush_dpb(p_H264_Dpb)] *)
Definition flush_dpb : D unit :=
  d ← gets mDPB;
  when (init_done d)
    (for_range 0 (used_size d) (fun i => k ← ptr_of fs i; unmark_for_reference k);;
     _ ← remove_unused_frames;
     output_all true;;
     upd_dpb (fun d => d <| last_output_poc := INT_MIN |>)).

(** ** Marking of the stored picture *)

(** [idr_memory_management(p_H264_Dpb, p)].  [set_frame_output_flag] gets the
    position [i], not the index of the frame store. *)
Definition idr_memory_management (o : option Z) : D unit :=
  p ← pic_at o;
  (if p_no_output_of_prior_pics_flag p then
     n ← gets (fun s => used_size (mDPB s));
     for_range 0 n (fun i =>
       k ← ptr_of fs i;
       unmark_for_reference k;;
       f ← fs_at k;
       (when (truth (f_is_long_term f)) (unmark_for_long_term_reference k));;
       f ← fs_at k;
       when (waiting f) (set_frame_output_flag i))
   else flush_dpb);;
  upd_dpb (fun d => d <| last_picture := None |>);;
  update_ref_list;;
  update_ltref_list;;
  upd_dpb (fun d => d <| last_output_poc := INT_MIN |>);;
  p ← pic_at o;
  if p_long_term_reference_flag p then
    upd_dpb (fun d => d <| max_long_term_pic_idx := 0 |>);;
    upd_pic o (fun p => p <| p_is_long_term := true |> <| p_long_term_frame_idx := 0 |>)
  else
    upd_dpb (fun d => d <| max_long_term_pic_idx := -1 |>);;
    upd_pic o (fun p => p <| p_is_long_term := false |>).

(** The switch of [adaptive_memory_management]. *)
Definition do_mmco (o : option Z) (c : DecRefPicMarking_s) : D unit :=
  let op := memory_management_control_operation c in
  if op =? 1 then mm_unmark_short_term_for_reference o (difference_of_pic_nums_minus1 c);; update_ref_list
  else if op =? 2 then mm_unmark_long_term_for_reference o (long_term_pic_num c);; update_ltref_list
  else if op =? 3 then
    mm_assign_long_term_frame_idx o (difference_of_pic_nums_minus1 c) (long_term_frame_idx c);;
    update_ref_list;; update_ltref_list
  else if op =? 4 then mm_update_max_long_term_frame_idx (max_long_term_frame_idx_plus1 c);; update_ltref_list
  else if op =? 5 then
    mm_unmark_all_short_term_for_reference;; mm_unmark_all_long_term_for_reference;;
    upd_video (fun v => v <| last_has_mmco_5 := true |>)
  else if op =? 6 then mm_mark_current_picture_long_term o (long_term_frame_idx c)
  else mret tt.

(** [while (p->dec_ref_pic_marking_buffer)]: the commands of the slice. *)
Fixpoint mmco_loop (n : nat) (o : option Z) : D unit :=
  p ← pic_at o;
  match p_dec_ref_pic_marking_buffer p with
  | None => mret tt
  | Some c =>
      match n with
      | O => undef
      | S n =>
          l ← gets (fun s => marking_buffer (mSlice s));
          c ← of_option (aget l c);
          do_mmco o c;;
          upd_pic o (fun p => p <| p_dec_ref_pic_marking_buffer := Next c |>);;
          mmco_loop n o
      end
  end.

(** What operation 5 does to the picture's own counts. *)
Definition mmco5_pic (p : StorablePicture) : StorablePicture :=
  let p := p <| p_pic_num := 0 |> <| p_frame_num := 0 |> in
  match p_structure p with
  | TOP_FIELD => p <| p_poc := 0 |> <| p_top_poc := 0 |>
  | BOTTOM_FIELD => p <| p_poc := 0 |> <| p_bottom_poc := 0 |>
  | FRAME =>
      let top := s32 (p_top_poc p - p_poc p) in
      let btm := s32 (p_bottom_poc p - p_poc p) in
      p <| p_top_poc := top |> <| p_bottom_poc := btm |> <| p_poc := Z.min top btm |>
  end.

(** [adaptive_memory_management(p_H264_Dpb, p)] *)
Definition adaptive_memory_management (o : option Z) : D unit :=
  upd_video (fun v => v <| last_has_mmco_5 := false |>);;
  mmco_loop (Z.to_nat DEC_REF_PIC_MARKING_BUFFER_NUM_MAX) o;;
  v ← gets mVideo;
  when (last_has_mmco_5 v) (upd_pic o mmco5_pic;; flush_dpb).

(** ** Storing *)

Definition is_second_field (p : StorablePicture) : D bool :=
  d ← gets mDPB;
  if is_eq (p_structure p) FRAME then mret false
  else match last_picture d with
       | None => mret false
       | Some _ => f ← fs_at (last_picture d); mret (second_field_of p f)
       end.

Definition store_second_field (o : option Z) (data_flag : Z) : D Z :=
  d ← gets mDPB;
  insert_picture_in_dpb (last_picture d) o data_flag;;
  update_ref_list;;
  update_ltref_list;;
  upd_dpb (fun d => d <| last_picture := None |>);;
  s ← get;
  (when (is_eq (first_insert_frame s) FirstInsertFrm_IDLE || is_save_buffer_mode) (output_all false));;
  mret 0.

(** A first field in error that stays alone is displayed. *)
Definition show_lone_field (p : StorablePicture) : D unit :=
  d ← gets mDPB;
  match last_picture d with
  | None => mret tt
  | Some _ =>
      f ← fs_at (last_picture d);
      when (negb (s32 (f_frame_num f) =? p_pic_num p) && ((f_is_used f =? 2) || (f_is_used f =? 1)) && bit (f_data_flag f) ERROR_FLAG)
        (upd_fs (last_picture d) (fun f => f <| f_data_flag := Z.lor (f_data_flag f) FIELD_DISP_FLAG |>))
  end.

(** The check for duplicate frame numbers.  The bound is read in every turn:
    the lists are rebuilt inside the loop.  [true]: [return -2]. *)
Fixpoint check_duplicates (n : nat) (i frame_num : Z) : D bool :=
  s ← get;
  if ref_frames_in_buffer (mDPB s) <=? i then mret false
  else
    match n with
    | O => undef
    | S n =>
        k ← ptr_of fs_ref i;
        match k with
        | None => check_duplicates n (i + 1) frame_num
        | Some _ =>
            f ← fs_at k;
            if f_frame_num f =? frame_num then
              if f_dpb_frame_count f =? dpb_frame_count s then mret true
              else unmark_for_reference k;; update_ref_list;; check_duplicates n (i + 1) frame_num
            else check_duplicates n (i + 1) frame_num
        end
    end.

(** [if (conceal_mode != 0) ...] *)
Definition mark_concealment : D unit :=
  s ← get;
  when (negb (conceal_mode (mVideo s) =? 0))
    (for_range 0 (size (mDPB s)) (fun i =>
       k ← ptr_of fs i;
       f ← fs_at k;
       when (truth (f_is_reference f)) (upd_fs k (fun f => f <| f_concealment_reference := true |>)))).

(** From "store at end of buffer" on. *)
Definition store_at_end (o : option Z) (data_flag : Z) : D Z :=
  d ← gets mDPB;
  if size d <=? used_size d then mret (-1)
  else
    k ← ptr_of fs (used_size d);
    insert_picture_in_dpb k o data_flag;;
    p ← pic_at o;
    (when (p_idr_flag p) (upd_video (fun v => v <| earlier_missing_poc := 0 |>)));;
    upd_dpb (fun d => d <| last_picture := if is_eq (p_structure p) FRAME then None else k |>);;
    upd_dpb (fun d => d <| used_size := used_size d + 1 |>);;
    update_ref_list;;
    update_ltref_list;;
    s ← get;
    let fast := fast_output_enable s =? H264_OUTPUT_MODE_FAST in
    (when (fast || negb (is_eq (first_insert_frame s) FirstInsertFrm_SKIPDONE) || is_save_buffer_mode) (output_all fast));;
    upd_dpb (fun d => d <| first_pic_done := true |>);;
    mret 0.

(** The marking before the picture is stored. *)
Definition mark_before_store (o : option Z) : D unit :=
  p ← pic_at o;
  upd_video (fun v => v <| last_has_mmco_5 := false |> <| last_pic_bottom_field := is_eq (p_structure p) BOTTOM_FIELD |>);;
  if p_idr_flag p then
    idr_memory_management o;;
    s ← get;
    when (is_eq (first_insert_frame s) FirstInsertFrm_OUT) (modify (fun s => s <| first_insert_frame := FirstInsertFrm_SKIPDONE |>))
  else when (p_used_for_reference p && p_adaptive_ref_pic_buffering_flag p) (adaptive_memory_management o).

(** [store_picture_in_dpb(p_H264_Dpb, p, data_flag)] *)
Definition store_picture_in_dpb (o : option Z) (data_flag : Z) : D Z :=
  mark_before_store o;;
  p ← pic_at o;
  b ← is_second_field p;
  if (b : bool) then store_second_field o data_flag
  else
    (when (negb (p_idr_flag p) && p_used_for_reference p && negb (p_adaptive_ref_pic_buffering_flag p))
      (sliding_window_memory_management o));;
    mark_concealment;;
    _ ← remove_unused_frames;
    show_lone_field p;;
    output_all false;;
    p ← pic_at o;
    dup ← (if p_used_for_reference p && negb (p_is_long_term p) then check_duplicates TURNS 0 (p_frame_num p) else mret false);
    if (dup : bool) then mret (-2) else store_at_end o data_flag.

(** [bufmgr_post(p_H264_Dpb)] *)
Definition bufmgr_post : D unit :=
  v ← gets mVideo; when (last_has_mmco_5 v) (upd_video (fun v => v <| pre_frame_num := 0 |>)).

(** [release_picture(p_H264_Dpb, pic)] *)
Definition release_picture (o : option Z) : D unit :=
  d ← gets mDPB;
  p ← pic_at o;
  match last_picture d with
  | None =>
      (when (0 <=? p_colocated_buf_index p)
        (release_colocate_buf (p_colocated_buf_index p);; upd_pic o (fun p => p <| p_colocated_buf_index := -1 |>)));;
      log (Ev_release_buf_spec (p_buf_spec_num p))
  | Some _ =>
      (when (p_buf_spec_is_alloced p) (log (Ev_release_buf_spec (p_buf_spec_num p))));;
      when (p_col_buf_is_alloced p)
        (release_colocate_buf (p_colocated_buf_index p);; upd_pic o (fun p => p <| p_colocated_buf_index := -1 |>))
  end;;
  free_picture o.
End Store.
