(* ===== verification/H264Lists.v ===== *)
(** The reference picture lists of a slice
    (src/drivers/frame_provider/decoder/h264_multi/h264_dpb.c): their initial
    order, by picture number, order count or field, their modification by the
    commands of the slice header, the field lists of a macroblock adaptive
    frame, and the check of the finished lists.

    [listX] is an array of six arrays; the size of a list is a [char], signed
    or not: a value that only one of them holds is undefined here.  What is
    only printed is left out. *)

From stdpp Require Import base list numbers.
From Stdlib Require Import ZArith Lia Bool.
From S2P Require Import Prelude H264Types H264Sort H264Pool H264Mark.

#[local] Open Scope Z_scope.

(** ** Comparisons *)

(** The comparison functions: those of pictures and those of frame stores. *)
Definition asc (x y : Z) : Z := if x <? y then -1 else if y <? x then 1 else 0.
Definition desc (x y : Z) : Z := if x <? y then 1 else if y <? x then -1 else 0.

Definition by_pic (s : h264_dpb_stru) (cmp : Z → Z → Z) (key : StorablePicture → Z) (a b : option Z) : option Z :=
  a ← a; b ← b; x ← aget (m_PIC s) a; y ← aget (m_PIC s) b; Some (cmp (key x) (key y)).

Definition by_fs (s : h264_dpb_stru) (cmp : Z → Z → Z) (key : FrameStore → Z) (a b : option Z) : option Z :=
  a ← a; b ← b; x ← aget (mFrameStore s) a; y ← aget (mFrameStore s) b; Some (cmp (key x) (key y)).

Definition compare_pic_by_pic_num_desc s := by_pic s desc p_pic_num.
Definition compare_pic_by_lt_pic_num_asc s := by_pic s asc p_long_term_pic_num.
Definition compare_pic_by_poc_asc s := by_pic s asc p_poc.
Definition compare_pic_by_poc_desc s := by_pic s desc p_poc.
Definition compare_fs_by_frame_num_desc s := by_fs s desc f_frame_num_wrap.
Definition compare_fs_by_lt_pic_idx_asc s := by_fs s asc f_long_term_frame_idx.
Definition compare_fs_by_poc_asc s := by_fs s asc f_poc.
Definition compare_fs_by_poc_desc s := by_fs s desc f_poc.

(** [qsort(&l[base], num, ...)]: [qsort] sees the [num] elements behind the
    pointer it is given. *)
Definition sorted_part {A} (comp : A → A → option Z) (base num : Z) (l : list A) : option (list A) :=
  if (0 <=? base) && (0 <=? num) && (base + num <=? zlen l) then
    match qsort comp 0 num (take (Z.to_nat num) (drop (Z.to_nat base) l)) with
    | Ok _ l' => Some (take (Z.to_nat base) l ++ l' ++ drop (Z.to_nat (base + num)) l)
    | _ => None
    end
  else None.

(** ** Access to the lists *)

(** [(char)n] *)
Definition char_of (n : Z) : option Z := if (0 <=? n) && (n <? 128) then Some n else None.

Definition row (x : Z) : D (list (option Z)) := l ← gets (fun s => listX (mSlice s)); of_option (aget l x).

Definition set_row (x : Z) (r : list (option Z)) : D unit :=
  l ← gets (fun s => listX (mSlice s)); l ← of_option (aset l x r); upd_slice (fun sl => sl <| listX := l |>).

(** [listX[x][i]] and [listX[x][i] = o;] *)
Definition list_at (x i : Z) : D (option Z) := r ← row x; of_option (aget r i).
Definition list_put (x i : Z) (o : option Z) : D unit := r ← row x; r ← of_option (aset r i o); set_row x r.

(** [listXsize[x]] and [listXsize[x] = (char)n;] *)
Definition list_size (x : Z) : D Z := l ← gets (fun s => listXsize (mSlice s)); of_option (aget l x).
Definition set_size (x n : Z) : D unit :=
  n ← of_option (char_of n);
  l ← gets (fun s => listXsize (mSlice s)); l ← of_option (aset l x n); upd_slice (fun sl => sl <| listXsize := l |>).

(** [CHECK_VALID(listXsize[x], ...)] *)
Definition check_valid (x : Z) : D unit :=
  n ← list_size x; when ((MAX_LIST_SIZE <? n) || (n <? 0)) (set_size x 0;; error_flag).

Definition sort_row (x base num : Z) (comp : h264_dpb_stru → option Z → option Z → option Z) : D unit :=
  s ← get; r ← row x; r ← of_option (sorted_part (comp s) base num r); set_row x r.

(** The arrays [fs_list0], [fs_list1] and [fs_listlt]. *)
Inductive fs_array := List0 | List1 | ListLt.

Definition fs_array_of (a : fs_array) (d : DecodedPictureBuffer) : list (option Z) :=
  match a with List0 => fs_list0 d | List1 => fs_list1 d | ListLt => fs_listlt d end.

Definition set_fs_array (a : fs_array) (l : list (option Z)) (d : DecodedPictureBuffer) : DecodedPictureBuffer :=
  match a with List0 => d <| fs_list0 := l |> | List1 => d <| fs_list1 := l |> | ListLt => d <| fs_listlt := l |> end.

Definition array_put (a : fs_array) (i : Z) (k : option Z) : D unit :=
  l ← gets (fun s => fs_array_of a (mDPB s)); l ← of_option (aset l i k); upd_dpb (set_fs_array a l).

Definition sort_array (a : fs_array) (base num : Z) (comp : h264_dpb_stru → option Z → option Z → option Z) : D unit :=
  s ← get; l ← of_option (sorted_part (comp s) base num (fs_array_of a (mDPB s))); upd_dpb (set_fs_array a l).

(** [for (i = 0; i < n; i++) ... list[idx++] = ...;], where [pick] answers what
    to add for [arr[i]]. *)
Definition gather (arr : DecodedPictureBuffer → list (option Z)) (n : Z) (pick : option Z → D (option (option Z)))
    (put : Z → option Z → D unit) (idx : Z) : D Z :=
  fold_range 0 n (fun i idx =>
    k ← ptr_of arr i;
    r ← pick k;
    match r with None => mret idx | Some o => put idx o;; mret (idx + 1) end) idx.

(** ** Frames and fields *)

Definition is_short_ref (p : StorablePicture) : bool := p_used_for_reference p && negb (p_is_long_term p).
Definition is_long_ref (p : StorablePicture) : bool := p_used_for_reference p && p_is_long_term p.

(** The frame of a short-term reference that passes [test]. *)
Definition short_frame (test : StorablePicture → bool) (k : option Z) : D (option (option Z)) :=
  match k with
  | None => error_flag;; mret None
  | Some _ =>
      f ← fs_at k;
      match f_frame f with
      | None => error_flag;; mret None
      | Some _ =>
          if f_is_used f =? 3 then
            p ← pic_at (f_frame f); mret (if is_short_ref p && test p then Some (f_frame f) else None)
          else mret None
      end
  end.

Definition long_frame (k : option Z) : D (option (option Z)) :=
  f ← fs_at k;
  if f_is_used f =? 3 then p ← pic_at (f_frame f); mret (if p_is_long_term p then Some (f_frame f) else None)
  else mret None.

(** A short-term reference that passes [test]. *)
Definition short_store (test : FrameStore → bool) (k : option Z) : D (option (option Z)) :=
  match k with
  | None => error_flag;; mret None
  | Some _ => f ← fs_at k; mret (if test f then Some k else None)
  end.

(** One parity of [gen_pic_list_from_frame_list]. *)
Record parity := mk_parity {
  pa_mask : Z;
  pa_field : FrameStore → option Z
}.

Definition top_parity : parity := mk_parity 1 f_top_field.
Definition bottom_parity : parity := mk_parity 2 f_bottom_field.

(** [for (; i < list_idx; i++)] over the frame stores [l] up to the next field
    to add, which is added. *)
Fixpoint next_field (n : nat) (is_ref : StorablePicture → bool) (pa : parity) (x : Z) (l : list (option Z)) (i : Z) : D Z :=
  match n with
  | O => mret i
  | S n =>
      k ← of_option (aget l i);
      f ← fs_at k;
      b ← (if bit (f_is_used f) (pa_mask pa) then test_pic (pa_field pa f) is_ref else mret false);
      if (b : bool) then
        sz ← list_size x; list_put x sz (pa_field pa f);; set_size x (sz + 1);; mret (i + 1)
      else next_field n is_ref pa x l (i + 1)
  end.

Fixpoint fields_loop (n : nat) (is_ref : StorablePicture → bool) (first second : parity) (x : Z) (l : list (option Z)) (list_idx i j : Z) : D unit :=
  if (i <? list_idx) || (j <? list_idx) then
    match n with
    | O => undef
    | S n =>
        i ← next_field (Z.to_nat (list_idx - i)) is_ref first x l i;
        j ← next_field (Z.to_nat (list_idx - j)) is_ref second x l j;
        fields_loop n is_ref first second x l list_idx i j
    end
  else mret tt.

(** [gen_pic_list_from_frame_list(currStructure, fs_list, list_idx, list,
    list_size, long_term)]; every turn goes on in one of the two parities. *)
Definition gen_pic_list_from_frame_list (st : PictureStructure) (a : fs_array) (list_idx x : Z) (long_term : bool) : D unit :=
  l ← gets (fun s => fs_array_of a (mDPB s));
  let is_ref := if long_term then is_long_ref else is_short_ref in
  let go first second := fields_loop (2 * Z.to_nat list_idx) is_ref first second x l list_idx 0 0 in
  match st with
  | TOP_FIELD => go top_parity bottom_parity
  | BOTTOM_FIELD => go bottom_parity top_parity
  | FRAME => mret tt
  end.

(** The long-term references of fields. *)
Definition sort_long_stores : D Z :=
  d ← gets mDPB;
  idx ← gather fs_ltref (ltref_frames_in_buffer d) (fun k => mret (Some k)) (array_put ListLt) 0;
  sort_array ListLt 0 idx compare_fs_by_lt_pic_idx_asc;;
  mret idx.

(** "set max size", "set the unused list entries to NULL" *)
Definition finish_lists : D unit :=
  s ← get;
  let '(n0, n1) := num_ref_idx_active (mSlice s) in
  sz0 ← list_size 0; set_size 0 (Z.min sz0 n0);;
  sz1 ← list_size 1; set_size 1 (Z.min sz1 n1);;
  check_valid 0;;
  check_valid 1;;
  let none := no_reference_picture (mVideo s) in
  sz0 ← list_size 0; for_range sz0 MAX_LIST_SIZE (fun i => list_put 0 i none);;
  sz1 ← list_size 1; for_range sz1 MAX_LIST_SIZE (fun i => list_put 1 i none).

(** ** Initial lists *)

Definition init_lists_p_frame : D unit :=
  d ← gets mDPB;
  idx ← gather fs_ref (ref_frames_in_buffer d) (short_frame (fun _ => true)) (list_put 0) 0;
  sort_row 0 0 idx compare_pic_by_pic_num_desc;;
  set_size 0 idx;;
  check_valid 0;;
  idx ← gather fs_ltref (ltref_frames_in_buffer d) long_frame (list_put 0) idx;
  sz ← list_size 0;
  sort_row 0 sz (idx - sz) compare_pic_by_lt_pic_num_asc;;
  set_size 0 idx;;
  check_valid 0.

Definition init_lists_p_field (st : PictureStructure) : D unit :=
  d ← gets mDPB;
  idx ← gather fs_ref (ref_frames_in_buffer d) (short_store (fun f => truth (f_is_reference f))) (array_put List0) 0;
  sort_array List0 0 idx compare_fs_by_frame_num_desc;;
  set_size 0 0;;
  gen_pic_list_from_frame_list st List0 idx 0 false;;
  ltidx ← sort_long_stores;
  gen_pic_list_from_frame_list st ListLt ltidx 0 true.

(** [init_lists_p_slice(currSlice)] *)
Definition init_lists_p_slice : D unit :=
  sl ← gets mSlice;
  (match sl_structure sl with FRAME => init_lists_p_frame | st => init_lists_p_field st end);;
  set_size 1 0;;
  finish_lists.

(** [init_lists_i_slice(currSlice)] *)
Definition init_lists_i_slice : D unit := set_size 0 0;; set_size 1 0.

(** What precedes the current picture and what follows it, in list 1 the other
    way round. *)
Definition swap_parts (get : Z → D (option Z)) (put : Z → option Z → D unit) (idx1 idx : Z) : D unit :=
  for_range 0 idx1 (fun j => o ← get j; put (idx - idx1 + j) o);;
  for_range idx1 idx (fun j => o ← get j; put (j - idx1) o).

(** A long-term frame goes to both lists. *)
Definition put_both (i : Z) (o : option Z) : D unit := list_put 0 i o;; list_put 1 i o.

Definition set_sizes (n : Z) : D unit := set_size 1 n;; set_size 0 n.

Definition init_lists_b_frame (framepoc : Z) : D unit :=
  d ← gets mDPB;
  idx1 ← gather fs_ref (ref_frames_in_buffer d) (short_frame (fun p => p_poc p <=? framepoc)) (list_put 0) 0;
  sort_row 0 0 idx1 compare_pic_by_poc_desc;;
  idx ← gather fs_ref (ref_frames_in_buffer d) (short_frame (fun p => framepoc <? p_poc p)) (list_put 0) idx1;
  sort_row 0 idx1 (idx - idx1) compare_pic_by_poc_asc;;
  swap_parts (list_at 0) (list_put 1) idx1 idx;;
  set_sizes idx;;
  check_valid 0;;
  check_valid 1;;
  idx ← gather fs_ltref (ltref_frames_in_buffer d) long_frame put_both idx;
  sz ← list_size 0;
  sort_row 0 sz (idx - sz) compare_pic_by_lt_pic_num_asc;;
  sort_row 1 sz (idx - sz) compare_pic_by_lt_pic_num_asc;;
  set_sizes idx;;
  check_valid 0;;
  check_valid 1.

Definition array_at (a : fs_array) (i : Z) : D (option Z) := ptr_of (fs_array_of a) i.

Definition before_store (poc : Z) (f : FrameStore) : bool := truth (f_is_used f) && (f_poc f <=? poc).
Definition after_store (poc : Z) (f : FrameStore) : bool := truth (f_is_used f) && (poc <? f_poc f).

(** [fs_list0] and [fs_list1] of a field, and how many there are in each. *)
Definition order_stores (poc : Z) : D Z :=
  d ← gets mDPB;
  idx1 ← gather fs_ref (ref_frames_in_buffer d) (short_store (before_store poc)) (array_put List0) 0;
  sort_array List0 0 idx1 compare_fs_by_poc_desc;;
  idx ← gather fs_ref (ref_frames_in_buffer d) (short_store (after_store poc)) (array_put List0) idx1;
  sort_array List0 idx1 (idx - idx1) compare_fs_by_poc_asc;;
  swap_parts (array_at List0) (array_put List1) idx1 idx;;
  mret idx.

Definition init_lists_b_field (st : PictureStructure) (poc : Z) : D unit :=
  set_size 0 0;;
  set_size 1 1;;
  idx ← order_stores poc;
  set_size 0 0;;
  set_size 1 0;;
  gen_pic_list_from_frame_list st List0 idx 0 false;;
  gen_pic_list_from_frame_list st List1 idx 1 false;;
  ltidx ← sort_long_stores;
  gen_pic_list_from_frame_list st ListLt ltidx 0 true;;
  gen_pic_list_from_frame_list st ListLt ltidx 1 true.

(** [for (j = 0; j < n; j++) if (listX[0][j] != listX[1][j]) { diff = 1; break; }] *)
Fixpoint lists_differ (n : nat) (j : Z) : D bool :=
  match n with
  | O => mret false
  | S n => a ← list_at 0 j; b ← list_at 1 j; if is_eq a b then lists_differ n (j + 1) else mret true
  end.

(** Two identical lists of more than one element: the first two elements of
    the second change places. *)
Definition make_different : D unit :=
  sz0 ← list_size 0;
  sz1 ← list_size 1;
  when ((sz0 =? sz1) && (1 <? sz0))
    (diff ← lists_differ (Z.to_nat sz0) 0;
     when (negb diff) (tmp ← list_at 1 0; o ← list_at 1 1; list_put 1 0 o;; list_put 1 1 tmp)).

(** [init_lists_b_slice(currSlice)] *)
Definition init_lists_b_slice : D unit :=
  sl ← gets mSlice;
  (match sl_structure sl with FRAME => init_lists_b_frame (framepoc sl) | st => init_lists_b_field st (ThisPOC sl) end);;
  make_different;;
  finish_lists.

(** ** Macroblock adaptive frames *)

(** The fields of list [x] in the lists [a] and [b], up to an entry without
    a picture. *)
Fixpoint mbaff_fields (n : nat) (i x a b : Z) : D unit :=
  match n with
  | O => mret tt
  | S n =>
      o ← list_at x i;
      match o with
      | None => error_flag
      | Some _ =>
          p ← pic_at o;
          list_put a (2 * i) (p_top_field p);;
          list_put a (2 * i + 1) (p_bottom_field p);;
          list_put b (2 * i) (p_bottom_field p);;
          list_put b (2 * i + 1) (p_top_field p);;
          mbaff_fields n (i + 1) x a b
      end
  end.

(** [init_mbaff_lists(p_H264_Dpb, currSlice)] *)
Definition init_mbaff_lists : D unit :=
  v ← gets mVideo;
  for_range 2 6 (fun i =>
    for_range 0 MAX_LIST_SIZE (fun j => list_put i j (no_reference_picture v));; set_size i 0);;
  sz ← list_size 0;
  mbaff_fields (Z.to_nat sz) 0 0 2 4;;
  set_size 4 (sz * 2);;
  set_size 2 (sz * 2);;
  sz ← list_size 1;
  mbaff_fields (Z.to_nat sz) 0 1 3 5;;
  set_size 5 (sz * 2);;
  set_size 3 (sz * 2).

(** ** Modification *)

(** The search for a picture in one frame store: [Found] ends it. *)
Inductive search := Found (o : option Z) | Further.

(** A field with the number. *)
Definition short_field (k : option Z) (num : Z) (pa : parity) (rest : D search) : D search :=
  f ← fs_at k;
  if bit (f_is_reference f) (pa_mask pa) then
    match pa_field pa f with
    | None => error_flag;; mret Further
    | Some _ =>
        p ← pic_at (pa_field pa f);
        if negb (p_is_long_term p) && (p_pic_num p =? num) then mret (Found (pa_field pa f)) else rest
    end
  else rest.

Definition short_with_num (st : PictureStructure) (num : Z) (k : option Z) : D search :=
  match k with
  | None => error_flag;; mret Further
  | Some _ =>
      match st with
      | FRAME =>
          f ← fs_at k;
          if f_is_reference f =? 3 then
            match f_frame f with
            | None => error_flag;; mret Further
            | Some _ =>
                p ← pic_at (f_frame f);
                mret (if negb (p_is_long_term p) && (p_pic_num p =? num) then Found (f_frame f) else Further)
            end
          else mret Further
      | _ => short_field k num top_parity (short_field k num bottom_parity (mret Further))
      end
  end.

Definition long_test (num : Z) (p : StorablePicture) : bool := p_is_long_term p && (p_long_term_pic_num p =? num).

Definition long_field (f : FrameStore) (num : Z) (pa : parity) (rest : D search) : D search :=
  b ← (if bit (f_is_reference f) (pa_mask pa) then test_pic (pa_field pa f) (long_test num) else mret false);
  if (b : bool) then mret (Found (pa_field pa f)) else rest.

Definition long_with_num (st : PictureStructure) (num : Z) (k : option Z) : D search :=
  f ← fs_at k;
  match st with
  | FRAME =>
      b ← (if f_is_reference f =? 3 then test_pic (f_frame f) (long_test num) else mret false);
      mret (if (b : bool) then Found (f_frame f) else Further)
  | _ => long_field f num top_parity (long_field f num bottom_parity (mret Further))
  end.

(** The first of the entries from [i] on, [none] when there is none. *)
Fixpoint find_pic (n : nat) (arr : DecodedPictureBuffer → list (option Z)) (test : option Z → D search) (none : option Z) (i : Z) : D (option Z) :=
  match n with
  | O => mret none
  | S n => k ← ptr_of arr i; r ← test k; match r with Found o => mret o | Further => find_pic n arr test none (i + 1) end
  end.

Definition get_short_term_pic (num : Z) : D (option Z) :=
  s ← get;
  find_pic (Z.to_nat (ref_frames_in_buffer (mDPB s))) fs_ref (short_with_num (sl_structure (mSlice s)) num) (no_reference_picture (mVideo s)) 0.

Definition get_long_term_pic (num : Z) : D (option Z) :=
  s ← get;
  find_pic (Z.to_nat (ltref_frames_in_buffer (mDPB s))) fs_ltref (long_with_num (sl_structure (mSlice s)) num) None 0.

(** Picture [o] moves to place [refIdx] of list [x]; what is behind it moves
    up, and what satisfies [same] leaves its later place. *)
Definition move_to_front (x num_minus1 : Z) (o : option Z) (same : StorablePicture → bool) (refIdx : Z) : D Z :=
  for_range 0 (num_minus1 + 1 - refIdx) (fun t => let c := num_minus1 + 1 - t in v ← list_at x (c - 1); list_put x c v);;
  list_put x refIdx o;;
  let refIdx := refIdx + 1 in
  _ ← fold_range refIdx (num_minus1 + 2) (fun c n =>
        v ← list_at x c;
        b ← test_pic v (fun p => negb (same p));
        if (b : bool) then list_put x n v;; mret (n + 1) else mret n) refIdx;
  mret refIdx.

Definition reorder_short_term (x num_minus1 picNumLX refIdx : Z) : D Z :=
  o ← get_short_term_pic picNumLX;
  move_to_front x num_minus1 o (fun p => negb (p_is_long_term p) && (p_pic_num p =? picNumLX)) refIdx.

Definition reorder_long_term (x num_minus1 LongTermPicNum refIdx : Z) : D Z :=
  o ← get_long_term_pic LongTermPicNum;
  move_to_front x num_minus1 o (long_test LongTermPicNum) refIdx.

(** [picNumLXNoWrap], from [picNumLXPred]. *)
Definition pic_num_no_wrap (idc pred diff_minus1 maxPicNum : Z) : Z :=
  let d := s32 (diff_minus1 + 1) in
  if idc =? 0 then if s32 (pred - d) <? 0 then s32 (s32 (pred - d) + maxPicNum) else s32 (pred - d)
  else if maxPicNum <=? s32 (pred + d) then s32 (s32 (pred + d) - maxPicNum) else s32 (pred + d).

(** One of the arrays of commands of list [x]. *)
Definition command (arr : Slice → list (list Z)) (x i : Z) : D Z :=
  l ← gets (fun s => arr (mSlice s)); r ← of_option (aget l x); of_option (aget r i).

(** The loop over the commands; [n] is how many of the array are left. *)
Fixpoint reorder_commands (n : nat) (x num_minus1 maxPicNum currPicNum i pred refIdx : Z) : D unit :=
  match n with
  | O => mret tt
  | S n =>
      idc ← command modification_of_pic_nums_idc x i;
      if 3 <=? idc then mret tt
      else if idc <? 2 then
        diff ← command abs_diff_pic_num_minus1 x i;
        let pred := pic_num_no_wrap idc pred diff maxPicNum in
        refIdx ← reorder_short_term x num_minus1 (if currPicNum <? pred then s32 (pred - maxPicNum) else pred) refIdx;
        reorder_commands n x num_minus1 maxPicNum currPicNum (i + 1) pred refIdx
      else
        num ← command long_term_pic_idx x i;
        refIdx ← reorder_long_term x num_minus1 num refIdx;
        reorder_commands n x num_minus1 maxPicNum currPicNum (i + 1) pred refIdx
  end.

(** [reorder_ref_pic_list(currSlice, cur_list)] *)
Definition reorder_ref_pic_list (x : Z) : D unit :=
  s ← get;
  let sl := mSlice s in
  let num_minus1 := (if x =? 0 then (num_ref_idx_active sl).1 else (num_ref_idx_active sl).2) - 1 in
  let max := max_frame_num (mVideo s) in
  let '(maxPicNum, currPicNum) :=
    if is_eq (sl_structure sl) FRAME then (max, sl_frame_num sl) else (s32 (2 * max), s32 (2 * sl_frame_num sl + 1)) in
  reorder_commands (Z.to_nat REORDERING_COMMAND_MAX_SIZE) x num_minus1 maxPicNum currPicNum 0 currPicNum 0;;
  set_size x (num_minus1 + 1).

Definition reorder_flag (x : Z) : D bool := l ← gets (fun s => ref_pic_list_reordering_flag (mSlice s)); of_option (aget l x).

(** [reorder_lists(currSlice)] *)
Definition reorder_lists : D unit :=
  sl ← gets mSlice;
  let '(n0, n1) := num_ref_idx_active sl in
  (when (negb (is_eq (sl_slice_type sl) I_SLICE) && negb (is_eq (sl_slice_type sl) SI_SLICE))
    (b ← reorder_flag 0; (when (b : bool) (reorder_ref_pic_list 0));;
     sz ← list_size 0; set_size 0 (Z.min sz n0);;
     check_valid 0));;
  when (is_eq (sl_slice_type sl) B_SLICE)
    (b ← reorder_flag 1; (when (b : bool) (reorder_ref_pic_list 1));;
     _ ← list_at 1 (n1 - 1);
     set_size 1 n1).

(** ** The check of the lists *)

(** [is_pic_in_dpb(p_H264_Dpb, pic)] *)
Definition is_pic_in_dpb (o : option Z) : D bool :=
  n ← gets (fun s => used_size (mDPB s));
  r ← until n (fun i =>
    k ← ptr_of fs i;
    f ← fs_at k;
    mret (if is_eq (f_top_field f) o || is_eq (f_bottom_field f) o || is_eq (f_frame f) o then Return else Next_));
  mret (match r with None => false | Some _ => true end).

(** The loop over list [x]: 0, or the code for an entry that is NULL, not in
    the buffer or not there. *)
Fixpoint check_list (n : nat) (x null absent not_there i : Z) : D Z :=
  match n with
  | O => mret 0
  | S n =>
      o ← list_at x i;
      if bool_decide (o = None) then mret null
      else
        b ← is_pic_in_dpb o;
        if negb b then mret absent
        else
          p ← pic_at o;
          b ← test_pic (p_frame p) p_non_existing;
          if (b : bool) then mret not_there else check_list n x null absent not_there (i + 1)
  end.

(** [dpb_check_ref_list_error(p_H264_Dpb)] *)
Definition dpb_check_ref_list_error : D Z :=
  s ← get;
  let sl := mSlice s in
  skip ← (if is_eq (first_insert_frame s) FirstInsertFrm_OUT then test_pic (dec_picture (mVideo s)) (fun p => p_poc p <? first_output_poc s) else mret false);
  if (skip : bool) then mret 0
  else
    r ← (if negb (is_eq (sl_slice_type sl) I_SLICE) && negb (is_eq (sl_slice_type sl) SI_SLICE)
         then sz ← list_size 0; check_list (Z.to_nat sz) 0 5 1 3 0 else mret 0);
    if truth r then mret r
    else if is_eq (sl_slice_type sl) B_SLICE then sz ← list_size 1; check_list (Z.to_nat sz) 1 6 2 4 0 else mret 0.
