(* ===== verification/H264Header.v ===== *)
(** A slice header: [h264_slice_header_process] of
    src/drivers/frame_provider/decoder/h264_multi/h264_dpb.c, which puts the
    other parts together.  The registers are read, the buffer is initialised
    when it has to be, a new picture gets its order count, its buffers and its
    place, and the reference lists are built.

    Locks and prints are left out. *)

From stdpp Require Import base list numbers.
From Stdlib Require Import ZArith Lia Bool.
From S2P Require Import Prelude H264Types H264Poc H264Pool H264Slice H264Mark H264Lists.

#[local] Open Scope Z_scope.

(** [*frame_num_gap], which is left as it is when nothing is missing. *)
Definition frame_num_gap_of (s : h264_dpb_stru) (gap : FrameNumGap_Value) : option FrameNumGap_Value :=
  let v := mVideo s in
  let cur := sl_frame_num (mSlice s) in
  if (recovery_point v =? 0) && (max_frame_num v <=? FRAME_NUM_MAX_SIZE) && negb (u32 cur =? pre_frame_num v) then
    if u32 (max_frame_num v) =? 0 then None
    else
      Some (if negb (u32 cur =? u32 (pre_frame_num v + 1) mod u32 (max_frame_num v)) then
              if (u32 cur <? pre_frame_num v) && truth cur then FrameNumGap_Loop else FrameNumGap_Normal
            else gap)
  else Some gap.

Section Header.
Context `{H264Driver}.

(** [dec_picture->buf_spec_num = get_free_buf_idx(vdec)] and the co-located
    buffer of a reference. *)
Definition alloc_buffers (o : option Z) : D unit :=
  s ← get;
  let n := get_free_buf_idx (events s) in
  log (Ev_get_free_buf_idx n);;
  upd_pic o (fun p => p <| p_buf_spec_num := n |>);;
  (if n <? 0 then modify (fun s => s <| buf_alloc_fail := true |>);; upd_pic o (fun p => p <| p_buf_spec_is_alloced := false |>)
   else upd_pic o (fun p => p <| p_buf_spec_is_alloced := true |>));;
  p ← pic_at o;
  when (p_used_for_reference p)
    (c ← allocate_colocate_buf;
     upd_pic o (fun p => p <| p_colocated_buf_index := c |>);;
     if c <? 0 then modify (fun s => s <| buf_alloc_fail := true |>);; upd_pic o (fun p => p <| p_col_buf_is_alloced := false |>)
     else upd_pic o (fun p => p <| p_col_buf_is_alloced := true |>)).

(** The new picture is there; [false]: [return -1]. *)
Definition setup_picture (o : option Z) : D bool :=
  s ← get;
  upd_pic o (init_picture (mSlice s));;
  let data := tab (l_data (param s)) in
  let off := u32 (Z.lor (data OFFSET_DELIMITER_LO) (Z.shiftl (data OFFSET_DELIMITER_HI) 16)) in
  upd_pic o (fun p => p <| p_info := (p_info p) <| offset_delimiter := off |> |> <| p_buf_spec_num := -1 |> <| p_colocated_buf_index := -1 |>);;
  update_pic_num;;
  (when (negb (is_eq (sl_structure (mSlice s)) FRAME)) (check_frame_store_same_pic_num o));;
  p ← pic_at o;
  (when (p_buf_spec_num p =? -1) (alloc_buffers o));;
  s ← get;
  if buf_alloc_fail s then mret false
  else
    p ← pic_at o;
    log (Ev_post_picture_early (p_buf_spec_num p));;
    mret (negb (post_picture_early (events s) (p_buf_spec_num p))).

(** [if (new_pic_flag)]: the gap, and whether to go on. *)
Definition new_picture (gap : FrameNumGap_Value) : D (FrameNumGap_Value * bool) :=
  s ← get;
  gap ← of_option (frame_num_gap_of s gap);
  (when (truth (nal_reference_idc (mSlice s))) (upd_video (fun v => v <| pre_frame_num := u32 (sl_frame_num (mSlice s)) |>)));;
  decode_poc;;
  o ← get_new_pic (sl_structure (mSlice s));
  upd_video (fun v => v <| dec_picture := o |>);;
  b ← (match o with None => mret true | Some _ => setup_picture o end);
  mret (gap, b).

(** [h264_slice_header_process(p_H264_Dpb, frame_num_gap)] *)
Definition h264_slice_header_process (gap : FrameNumGap_Value) : D (Z * FrameNumGap_Value) :=
  v ← gets mVideo;
  let new_pic_flag := bool_decide (dec_picture v = None) in
  modify (fun s => s <| buf_alloc_fail := false |> <| dpb_error_flag := false |>);;
  slice_prepare;;
  modify (fun s => s <| mDPB := (mDPB s) <| num_ref_frames := sps_num_ref_frames (mSPS s) |> |>);;
  s ← get;
  (when (negb (init_done (mDPB s))) init_dpb);;
  r ← (if new_pic_flag then new_picture gap else mret (gap, true));
  let '(gap, go) := r in
  s ← get;
  if negb go || buf_alloc_fail s then mret (-1, gap)
  else
    match sl_slice_type (mSlice s) with
    | P_SLICE => init_lists_p_slice
    | B_SLICE => init_lists_b_slice
    | _ => init_lists_i_slice
    end;;
    reorder_lists;;
    (when (is_eq (sl_structure (mSlice s)) FRAME) init_mbaff_lists);;
    mret (if new_pic_flag then 1 else 0, gap).
End Header.
