(* ===== verification/H264Inv.v ===== *)
(** What holds of the H.264 decoded picture buffer between operations
    (src/drivers/frame_provider/decoder/h264_multi/h264_dpb.c), rules for the
    access through its pointers, and the relation [steady] of the steps that
    only change marks. *)

From stdpp Require Import base list numbers sorting gmap.
From Stdlib Require Import ZArith Lia Bool.
From S2P Require Import Prelude H264Types H264Pool.

#[local] Open Scope Z_scope.

(** ** Elements of the two arrays *)

Definition pic_set (p : Z) (x : StorablePicture) (s : h264_dpb_stru) : h264_dpb_stru :=
  s <| m_PIC := <[Z.to_nat p := x]> (m_PIC s) |>.

Definition store_set (k : Z) (f : FrameStore) (s : h264_dpb_stru) : h264_dpb_stru :=
  s <| mFrameStore := <[Z.to_nat k := f]> (mFrameStore s) |>.

Notation pic s p := (aget (m_PIC s) p).
Notation store s k := (aget (mFrameStore s) k).

Section Rules.
Implicit Types (s : h264_dpb_stru) (E : Z → h264_dpb_stru → Prop).

Lemma wp_some {A B} (a : A) (o : option A) (k : A → D B) (R : B → h264_dpb_stru → Prop) E s :
  o = Some a → wp False (k a) R E s → wp False (x ← of_option o; k x) R E s.
Proof. by intros ->. Qed.

Lemma pic_at_wp p x (R : StorablePicture → h264_dpb_stru → Prop) E s : pic s p = Some x → R x s → wp False (pic_at (Some p)) R E s.
Proof. intros Hp HR. unfold pic_at. apply (wp_some p); [done|]. wp_step. wp_step. by rewrite Hp. Qed.

Lemma upd_pic_wp p g x (R : unit → h264_dpb_stru → Prop) E s : pic s p = Some x → R tt (pic_set p (g x) s) → wp False (upd_pic (Some p) g) R E s.
Proof. intros Hp HR. unfold upd_pic. apply (wp_some p); [done|]. wp_step. wp_step. by apply (wp_some x). Qed.

Lemma fs_at_wp k f (R : FrameStore → h264_dpb_stru → Prop) E s : store s k = Some f → R f s → wp False (fs_at (Some k)) R E s.
Proof. intros Hp HR. unfold fs_at. apply (wp_some k); [done|]. wp_step. wp_step. by rewrite Hp. Qed.

Lemma upd_fs_wp k g f (R : unit → h264_dpb_stru → Prop) E s : store s k = Some f → R tt (store_set k (g f) s) → wp False (upd_fs (Some k) g) R E s.
Proof. intros Hp HR. unfold upd_fs. apply (wp_some k); [done|]. wp_step. wp_step. by apply (wp_some f). Qed.

Lemma ptr_wp arr i k (R : option Z → h264_dpb_stru → Prop) E s : aget (arr (mDPB s)) i = Some k → R k s → wp False (ptr_of arr i) R E s.
Proof. intros Hp HR. unfold ptr_of. wp_step. wp_step. by rewrite Hp. Qed.

Lemma pic_set_eq p x y s : pic s p = Some y → pic (pic_set p x s) p = Some x.
Proof. intros [H _]%aget_inv. by apply aget_insert. Qed.

Lemma pic_set_ne p q x s : 0 ≤ p → p ≠ q → pic (pic_set p x s) q = pic s q.
Proof. intros. by apply aget_insert_ne. Qed.

Lemma store_set_eq k f g s : store s k = Some g → store (store_set k f s) k = Some f.
Proof. intros [H _]%aget_inv. by apply aget_insert. Qed.

Lemma store_set_ne k j f s : 0 ≤ k → k ≠ j → store (store_set k f s) j = store s j.
Proof. intros. by apply aget_insert_ne. Qed.
End Rules.

(** ** Pictures of a frame store *)

Definition opt_list (o : option Z) : list Z := match o with Some p => [p] | None => [] end.

Definition own_store (f : FrameStore) : list Z := opt_list (f_frame f) ++ opt_list (f_top_field f) ++ opt_list (f_bottom_field f).

(** The pictures that belong to frame stores. *)
Definition owned (l : list FrameStore) : list Z := take (Z.to_nat DPB_SIZE_MAX) l ≫= own_store.

Lemma owned_set l k f f' : 0 ≤ k < DPB_SIZE_MAX → aget l k = Some f →
  ∃ r, owned l ≡ₚ own_store f ++ r ∧ owned (<[Z.to_nat k := f']> l) ≡ₚ own_store f' ++ r.
Proof.
  intros Hk [Hl Hf]%aget_inv. unfold owned. set (n := Z.to_nat k) in *. assert (n < Z.to_nat DPB_SIZE_MAX)%nat as Hn by lia.
  rewrite take_insert_lt by done. set (t := take (Z.to_nat DPB_SIZE_MAX) l).
  assert (t !! n = Some f) as Ht by (unfold t; by rewrite lookup_take_lt).
  exists ((take n t ++ drop (S n) t) ≫= own_store). clearbody t.
  assert (∀ g, (<[n := g]> t) ≫= own_store ≡ₚ own_store g ++ (take n t ++ drop (S n) t) ≫= own_store) as HP.
  { intros g. rewrite insert_take_drop by (by eapply lookup_lt_Some). rewrite !bind_app. cbn. rewrite app_assoc, (Permutation_app_comm _ (own_store g)).
    by rewrite <- app_assoc. }
  split; [|apply HP]. rewrite <- HP. by rewrite list_insert_id.
Qed.

Lemma owned_length l n : (∀ f, f ∈ l → length (own_store f) ≤ n)%nat → (length (owned l) ≤ Z.to_nat DPB_SIZE_MAX * n)%nat.
Proof.
  intros H. unfold owned. set (t := take (Z.to_nat DPB_SIZE_MAX) l). assert (length t ≤ Z.to_nat DPB_SIZE_MAX)%nat as Ht by (unfold t; rewrite length_take; lia).
  assert (∀ f, f ∈ t → length (own_store f) ≤ n)%nat as Hf. { intros f Hin. apply H. unfold t in Hin. by apply elem_of_take in Hin as (i & Hi & _); eapply list_elem_of_lookup_2. }
  clearbody t. revert Ht. generalize (Z.to_nat DPB_SIZE_MAX). induction t as [|f t IH]; intros m Hm; [cbn; lia|]. cbn in *. rewrite length_app.
  destruct m as [|m]; [lia|]. specialize (IH ltac:(intros; apply Hf; by right) m ltac:(lia)). specialize (Hf f ltac:(left)). lia.
Qed.

Lemma own_store_length f : (length (own_store f) ≤ 3)%nat.
Proof. unfold own_store. destruct (f_frame f), (f_top_field f), (f_bottom_field f); cbn; lia. Qed.

(** ** The invariant *)

(** The pictures of a frame store by [is_used]; [m] is [frame_mbs_only_flag]:
    a frame then has no field views, and there are no fields. *)
Definition shape_pics (m : bool) (f : FrameStore) : Prop :=
  (f_is_used f = 0 ∧ own_store f = []) ∨
  (m = false ∧ f_is_used f = 1 ∧ f_frame f = None ∧ is_Some (f_top_field f) ∧ f_bottom_field f = None) ∨
  (m = false ∧ f_is_used f = 2 ∧ f_frame f = None ∧ f_top_field f = None ∧ is_Some (f_bottom_field f)) ∨
  (f_is_used f = 3 ∧ is_Some (f_frame f) ∧
   if m then f_top_field f = None ∧ f_bottom_field f = None else is_Some (f_top_field f) ∧ is_Some (f_bottom_field f)).

(** Only what is in use is marked. *)
Record shape (m : bool) (f : FrameStore) : Prop := {
  sp_pics : shape_pics m f;
  sp_range : 0 ≤ f_is_reference f ≤ 3;
  sp_mask : Z.land (f_is_reference f) (f_is_used f) = f_is_reference f
}.

(** The lists of references and [last_picture] point to frame stores. *)
Definition refs_in (arr : list (option Z)) (n : Z) : Prop :=
  zlen arr = DPB_SIZE_MAX ∧ 0 ≤ n ≤ DPB_SIZE_MAX ∧ (∀ i, 0 ≤ i < n → ∃ k, aget arr i = Some (Some k) ∧ 0 ≤ k < DPB_SIZE_MAX) ∧
  NoDup (take (Z.to_nat n) arr).

(** The arrays the reference lists of a slice are built in. *)
Definition arrays_ok (d : DecodedPictureBuffer) : Prop :=
  zlen (fs_list0 d) = DPB_SIZE_MAX ∧ zlen (fs_list1 d) = DPB_SIZE_MAX ∧ zlen (fs_listlt d) = DPB_SIZE_MAX.

Record refs_ok (d : DecodedPictureBuffer) : Prop := {
  ro_arrays : arrays_ok d;
  ro_short : refs_in (fs_ref d) (ref_frames_in_buffer d);
  ro_long : refs_in (fs_ltref d) (ltref_frames_in_buffer d);
  ro_last : ∀ k, last_picture d = Some k → 0 ≤ k < DPB_SIZE_MAX
}.

(** The commands of a slice: each points to a later one. *)
Definition chain_ok (l : list DecRefPicMarking_s) : Prop :=
  zlen l = DEC_REF_PIC_MARKING_BUFFER_NUM_MAX ∧
  ∀ i c j, aget l i = Some c → Next c = Some j → i < j < DEC_REF_PIC_MARKING_BUFFER_NUM_MAX.

(** The memory management commands of a picture are those of the slice. *)
Definition commands_ok (x : StorablePicture) : Prop := ∀ c, p_dec_ref_pic_marking_buffer x = Some c → 0 ≤ c < DEC_REF_PIC_MARKING_BUFFER_NUM_MAX.

(** [n] arrays of [k] elements. *)
Definition grid {A} (n k : Z) (ll : list (list A)) : Prop := zlen ll = n ∧ ∀ l, l ∈ ll → zlen l = k.

(** The members of the slice are as large as they are declared; the elements
    of its first two lists point to pictures. *)
Record slice_ok (sl : Slice) : Prop := {
  so_chain : chain_ok (marking_buffer sl);
  so_lists : grid 6 (2 * MAX_LIST_SIZE) (listX sl);
  so_pics : ∀ x l p, x = 0 ∨ x = 1 → aget (listX sl) x = Some l → Some p ∈ l → 0 ≤ p ≤ MAX_PIC_BUF_NUM;
  so_sizes : zlen (listXsize sl) = 6;
  so_flags : zlen (ref_pic_list_reordering_flag sl) = 2;
  so_idc : grid 2 REORDERING_COMMAND_MAX_SIZE (modification_of_pic_nums_idc sl);
  so_diff : grid 2 REORDERING_COMMAND_MAX_SIZE (abs_diff_pic_num_minus1 sl);
  so_long : grid 2 REORDERING_COMMAND_MAX_SIZE (long_term_pic_idx sl)
}.

(** Where frame store [k] is in [fs]. *)
Definition at_pos (d : DecodedPictureBuffer) (i k : Z) : Prop := 0 ≤ i < used_size d ∧ aget (fs d) i = Some (Some k).

(** [fs] holds [size] frame stores, each once. *)
Record fs_ok (d : DecodedPictureBuffer) : Prop := {
  fo_len : zlen (fs d) = DPB_SIZE_MAX;
  fo_sizes : 0 ≤ used_size d ≤ size d ∧ size d ≤ DPB_SIZE_MAX;
  fo_fs : ∀ i, 0 ≤ i < size d → ∃ k, aget (fs d) i = Some (Some k) ∧ 0 ≤ k < DPB_SIZE_MAX;
  fo_inj : ∀ i j k, 0 ≤ i < size d → 0 ≤ j < size d → aget (fs d) i = Some (Some k) → aget (fs d) j = Some (Some k) → i = j
}.

(** What most operations leave as it is: whether pictures are displayed,
    whether the buffer is initialised, the picture that is being decoded and
    the one for missing references. *)
Record fixed := mk_fixed { x_display : bool; x_init : bool; x_dec : option Z; x_noref : option Z }.

Definition fixed_of (s : h264_dpb_stru) : fixed :=
  mk_fixed (without_display_mode s) (init_done (mDPB s)) (dec_picture (mVideo s)) (no_reference_picture (mVideo s)).

(** The invariant.  [ex] lists the pictures in use that belong to no frame
    store; frame store [X] is being filled or emptied. *)
Record inv (fx : fixed) (m : bool) (ex : list Z) (X : option Z) (s : h264_dpb_stru) : Prop := {
  iv_pics : zlen (m_PIC s) = MAX_PIC_BUF_NUM + 1;
  iv_stores : zlen (mFrameStore s) = DPB_SIZE_MAX + 1;
  iv_index : ∀ p x, 0 ≤ p < MAX_PIC_BUF_NUM → pic s p = Some x → p_index x = p;
  iv_mbs : ∀ p x, 0 ≤ p < MAX_PIC_BUF_NUM → pic s p = Some x → p_is_used x = true → p_frame_mbs_only_flag x = m;
  iv_commands : ∀ p x, 0 ≤ p < MAX_PIC_BUF_NUM → pic s p = Some x → commands_ok x;
  iv_sps : active_sps (mVideo s) = true ∧ sps_frame_mbs_only_flag (mSPS s) = m;
  iv_colocated : 0 ≤ colocated_buf_count s ≤ 32;
  iv_fs : fs_ok (mDPB s);
  iv_used : ∀ k f, 0 ≤ k < DPB_SIZE_MAX → Some k ≠ X → store s k = Some f → f_is_used f ≠ 0 ↔ ∃ i, at_pos (mDPB s) i k;
  iv_shape : ∀ k f, 0 ≤ k < DPB_SIZE_MAX → Some k ≠ X → store s k = Some f → shape m f;
  iv_refs : refs_ok (mDPB s);
  iv_number : ∀ i k f, 0 ≤ i < size (mDPB s) → aget (fs (mDPB s)) i = Some (Some k) → store s k = Some f → f_index f = k;
  iv_own : NoDup (owned (mFrameStore s) ++ ex);
  iv_own_used : ∀ p, p ∈ owned (mFrameStore s) ++ ex ↔ ∃ x, 0 ≤ p < MAX_PIC_BUF_NUM ∧ pic s p = Some x ∧ p_is_used x = true;
  iv_slice : slice_ok (mSlice s);
  iv_fixed : fixed_of s = fx
}.

(** The picture that is being stored; fields only in streams with fields. *)
Definition stored (m : bool) (s : h264_dpb_stru) (o : Z) : Prop :=
  ∃ x, pic s o = Some x ∧ (m = true → p_structure x = FRAME).

(** ** Steps that only change marks *)

Record le_pic (x x' : StorablePicture) : Prop := {
  lp_index : p_index x' = p_index x;
  lp_used : p_is_used x' = p_is_used x;
  lp_structure : p_structure x' = p_structure x;
  lp_mbs : p_frame_mbs_only_flag x' = p_frame_mbs_only_flag x;
  lp_commands : commands_ok x' ↔ commands_ok x
}.

Record le_store (f f' : FrameStore) : Prop := {
  ls_used : f_is_used f' = f_is_used f;
  ls_frame : f_frame f' = f_frame f;
  ls_top : f_top_field f' = f_top_field f;
  ls_bottom : f_bottom_field f' = f_bottom_field f;
  ls_output : f_is_output f' = f_is_output f;
  ls_pre : f_pre_output f' = f_pre_output f;
  ls_index : f_index f' = f_index f;
  ls_ref : ∃ c, f_is_reference f' = Z.land (f_is_reference f) c
}.

Record steady (s s' : h264_dpb_stru) : Prop := {
  sd_pics_len : zlen (m_PIC s') = zlen (m_PIC s);
  sd_stores_len : zlen (mFrameStore s') = zlen (mFrameStore s);
  sd_pics : ∀ p x, pic s p = Some x → ∃ x', pic s' p = Some x' ∧ le_pic x x';
  sd_stores : ∀ k f, store s k = Some f → ∃ f', store s' k = Some f' ∧ le_store f f';
  sd_fs : fs (mDPB s') = fs (mDPB s);
  sd_size : size (mDPB s') = size (mDPB s);
  sd_used : used_size (mDPB s') = used_size (mDPB s);
  sd_init : init_done (mDPB s') = init_done (mDPB s);
  sd_sps : mSPS s' = mSPS s;
  sd_slice : mSlice s' = mSlice s;
  sd_active : active_sps (mVideo s') = active_sps (mVideo s);
  sd_dec : dec_picture (mVideo s') = dec_picture (mVideo s);
  sd_noref : no_reference_picture (mVideo s') = no_reference_picture (mVideo s);
  sd_count : dpb_frame_count s' = dpb_frame_count s;
  sd_colocated : colocated_buf_count s' = colocated_buf_count s;
  sd_display : without_display_mode s' = without_display_mode s
}.

Arguments iv_pics {fx m ex X s} _.
Arguments iv_stores {fx m ex X s} _.
Arguments iv_index {fx m ex X s} _.
Arguments iv_mbs {fx m ex X s} _.
Arguments iv_commands {fx m ex X s} _.
Arguments iv_sps {fx m ex X s} _.
Arguments iv_colocated {fx m ex X s} _.
Arguments iv_fs {fx m ex X s} _.
Arguments iv_used {fx m ex X s} _.
Arguments iv_shape {fx m ex X s} _.
Arguments iv_refs {fx m ex X s} _.
Arguments iv_number {fx m ex X s} _.
Arguments iv_own {fx m ex X s} _.
Arguments iv_own_used {fx m ex X s} _.
Arguments iv_slice {fx m ex X s} _.
Arguments iv_fixed {fx m ex X s} _.
Arguments sd_pics_len {s s'} _.
Arguments sd_stores_len {s s'} _.
Arguments sd_pics {s s'} _.
Arguments sd_stores {s s'} _.
Arguments sd_fs {s s'} _.
Arguments sd_size {s s'} _.
Arguments sd_used {s s'} _.
Arguments sd_init {s s'} _.
Arguments sd_sps {s s'} _.
Arguments sd_slice {s s'} _.
Arguments sd_active {s s'} _.
Arguments sd_dec {s s'} _.
Arguments sd_noref {s s'} _.
Arguments sd_count {s s'} _.
Arguments sd_colocated {s s'} _.
Arguments sd_display {s s'} _.

#[export] Instance le_pic_preorder : PreOrder le_pic.
Proof. split; [done|]. intros x y z [] []. split; [congruence..|by etrans]. Qed.

#[export] Instance le_store_preorder : PreOrder le_store.
Proof.
  split.
  - intros f. split; try done. exists (-1). by rewrite Z.land_m1_r.
  - intros f g h [? ? ? ? ? ? ? [c Hc]] [? ? ? ? ? ? ? [e He]]. split; try congruence. exists (Z.land c e). by rewrite He, Hc, Z.land_assoc.
Qed.

#[export] Instance steady_preorder : PreOrder steady.
Proof.
  split.
  - intros s. split; try done; intros ? a Ha; by exists a.
  - intros s t u [] []. split; try congruence.
    + intros p x Hp. edestruct sd_pics0 as (y & Hy & L1); [done|]. edestruct sd_pics1 as (z & Hz & L2); [done|]. exists z. split; [done|by etrans].
    + intros p x Hp. edestruct sd_stores0 as (y & Hy & L1); [done|]. edestruct sd_stores1 as (z & Hz & L2); [done|]. exists z. split; [done|by etrans].
Qed.

Lemma steady_pic p x x' s : pic s p = Some x → le_pic x x' → steady s (pic_set p x' s).
Proof.
  intros Hp Hle. split; try done; [apply zlen_insert|..|intros k f Hk; by exists f]. intros q y Hq. pose proof (aget_inv _ _ _ Hp) as [Hr _].
  destruct (decide (p = q)) as [->|Hne]; [|rewrite pic_set_ne by (try done; lia); by exists y].
  exists x'. split; [by eapply pic_set_eq|]. by simplify_eq.
Qed.

Lemma steady_store k f f' s : store s k = Some f → le_store f f' → steady s (store_set k f' s).
Proof.
  intros Hp Hle. split; try done; [apply zlen_insert|intros p x Hq; by exists x|]. intros q y Hq. pose proof (aget_inv _ _ _ Hp) as [Hr _].
  destruct (decide (k = q)) as [->|Hne]; [|rewrite store_set_ne by (try done; lia); by exists y].
  exists f'. split; [by eapply store_set_eq|]. by simplify_eq.
Qed.

Lemma shape_le m f f' : shape m f → le_store f f' → shape m f'.
Proof.
  intros [Hp Hr Hm] [H1 H2 H3 H4 _ _ _ [c Hc]]. split.
  - unfold shape_pics, own_store in *. by rewrite H1, H2, H3, H4.
  - rewrite Hc. split; [apply Z.land_nonneg; lia|]. assert (Z.land (Z.land (f_is_reference f) c) 3 = Z.land (f_is_reference f) c) as <-.
    { rewrite <- Z.land_assoc, (Z.land_comm c), Z.land_assoc. f_equal. change 3 with (Z.ones 2). rewrite Z.land_ones by lia. apply Z.mod_small. lia. }
    change 3 with (Z.ones 2) at 1. rewrite Z.land_ones by lia. pose proof (Z.mod_pos_bound (Z.land (f_is_reference f) c) (2 ^ 2)). lia.
  - rewrite Hc, H1. rewrite <- Z.land_assoc, (Z.land_comm c), Z.land_assoc. by rewrite Hm.
Qed.

Lemma owned_same l l' : zlen l' = zlen l → (∀ k f, aget l k = Some f → ∃ f', aget l' k = Some f' ∧ own_store f' = own_store f) → owned l' = owned l.
Proof.
  unfold zlen, owned. generalize (Z.to_nat DPB_SIZE_MAX). intros n Hlen H. revert n l' Hlen H.
  induction l as [|f l IH]; intros n [|f' l'] Hlen H; try done; cbn in Hlen. destruct n as [|n]; [done|]. cbn.
  destruct (H 0 f) as (f0 & [= <-] & ->); [done|]. f_equal. apply IH; [lia|]. intros k g Hk.
  apply aget_inv in Hk as [Hr Hk]. destruct (H (k + 1) g) as (g' & Hg & He).
  { replace (k + 1) with (Z.of_nat (S (Z.to_nat k))) by lia. by rewrite aget_nat. }
  exists g'. split; [|done]. replace (k + 1) with (Z.of_nat (S (Z.to_nat k))) in Hg by lia. rewrite aget_nat in Hg.
  replace k with (Z.of_nat (Z.to_nat k)) by lia. by rewrite aget_nat.
Qed.

Lemma le_store_own f f' : le_store f f' → own_store f' = own_store f.
Proof. intros []. unfold own_store. congruence. Qed.

(** A frame store of the new state comes from one of the old state. *)
Lemma sd_store_inv s s' k f' : steady s s' → store s' k = Some f' → ∃ f, store s k = Some f ∧ le_store f f'.
Proof.
  intros Hs Hf. pose proof (aget_inv _ _ _ Hf) as [Hr _]. rewrite (sd_stores_len Hs) in Hr. destruct (aget_Some _ _ Hr) as [f Hk].
  exists f. split; [done|]. destruct (sd_stores Hs _ _ Hk) as (g & Hg & ?). by simplify_eq.
Qed.

Lemma sd_pic_inv s s' p x' : steady s s' → pic s' p = Some x' → ∃ x, pic s p = Some x ∧ le_pic x x'.
Proof.
  intros Hs Hf. pose proof (aget_inv _ _ _ Hf) as [Hr _]. rewrite (sd_pics_len Hs) in Hr. destruct (aget_Some _ _ Hr) as [f Hk].
  exists f. split; [done|]. destruct (sd_pics Hs _ _ Hk) as (g & Hg & ?). by simplify_eq.
Qed.

Lemma fs_ok_same d d' : fs d' = fs d → size d' = size d → used_size d' = used_size d → fs_ok d → fs_ok d'.
Proof. intros E1 E2 E3 []. split; rewrite ?E1, ?E2, ?E3; try done; intros *; rewrite ?E1; auto. Qed.

Lemma inv_steady fx m ex X s s' : inv fx m ex X s → steady s s' → refs_ok (mDPB s') → inv fx m ex X s'.
Proof.
  intros [] Hs Hr. pose proof Hs as [].
  assert (owned (mFrameStore s') = owned (mFrameStore s)) as Ho.
  { apply owned_same; [done|]. intros k f Hk. destruct (sd_stores0 _ _ Hk) as (f' & Hf' & Hle). exists f'. split; [done|]. by apply le_store_own. }
  split; rewrite ?Ho; try congruence.
  - intros p x Hp Hx. destruct (sd_pic_inv _ _ _ _ Hs Hx) as (y & Hy & []). rewrite lp_index0. by apply iv_index0.
  - intros p x Hp Hx. destruct (sd_pic_inv _ _ _ _ Hs Hx) as (y & Hy & []). rewrite lp_used0, lp_mbs0. by apply (iv_mbs0 p).
  - intros p x Hp Hx. destruct (sd_pic_inv _ _ _ _ Hs Hx) as (y & Hy & []). apply lp_commands0. by apply (iv_commands0 p).
  - by eapply fs_ok_same.
  - intros k f Hk Hx Hf. destruct (sd_store_inv _ _ _ _ Hs Hf) as (g & Hg & []). rewrite ls_used0. rewrite (iv_used0 k g) by done.
    unfold at_pos. by rewrite sd_fs0, sd_used0.
  - intros k f Hk Hx Hf. destruct (sd_store_inv _ _ _ _ Hs Hf) as (g & Hg & Hle). by eapply shape_le; [eapply iv_shape0|].
  - intros i k f Hi Hk Hf. rewrite sd_size0 in Hi. rewrite sd_fs0 in Hk. destruct (sd_store_inv _ _ _ _ Hs Hf) as (g & Hg & []). rewrite ls_index0. by eapply iv_number0.
  - intros p. rewrite iv_own_used0. split; intros (x & Hp & Hx & Hu).
    + destruct (sd_pics0 _ _ Hx) as (y & Hy & []). exists y. repeat split; [lia|lia|done|congruence].
    + destruct (sd_pic_inv _ _ _ _ Hs Hx) as (y & Hy & []). exists y. repeat split; [lia|lia|done|congruence].
  - unfold fixed_of in *. congruence.
Qed.
