(* ===== verification/H264MarkOk.v ===== *)
(** The marking operations of the H.264 decoded picture buffer
    (src/drivers/frame_provider/decoder/h264_multi/h264_dpb.c) are safe and
    [steady], whatever their arguments; the lists of references hold what they
    should. *)

From stdpp Require Import base list numbers sorting gmap.
From Stdlib Require Import ZArith Lia Bool.
From S2P Require Import Prelude H264Types H264Pool H264Mark H264Inv.

#[local] Open Scope Z_scope.

Section Keep.
Context (fx : fixed) (m : bool) (ex : list Z) (s0 : h264_dpb_stru) (I : inv fx m ex None s0).

(** What every marking step preserves, seen from the state [s0]. *)
Definition kept (s : h264_dpb_stru) : Prop := steady s0 s ∧ refs_ok (mDPB s).

Lemma kept_inv s : kept s → inv fx m ex None s.
Proof. intros []. by eapply inv_steady. Qed.

Lemma kept_start : kept s0.
Proof. split; [done|apply I]. Qed.

Implicit Types (s : h264_dpb_stru) (E : Z → h264_dpb_stru → Prop).

(** *** Access *)

Lemma kept_store s k : kept s → 0 ≤ k < DPB_SIZE_MAX → ∃ f, store s k = Some f ∧ shape m f.
Proof.
  intros Hs Hk. pose proof (kept_inv _ Hs) as HI. destruct (aget_Some (mFrameStore s) k) as [f Hf]; [rewrite (iv_stores HI); lia|].
  exists f. split; [done|]. by eapply (iv_shape HI).
Qed.

(** The pictures of a frame store are in the pool. *)
Lemma store_pics s k f p : kept s → 0 ≤ k < DPB_SIZE_MAX → store s k = Some f → p ∈ own_store f → ∃ x, 0 ≤ p < MAX_PIC_BUF_NUM ∧ pic s p = Some x.
Proof.
  intros Hs Hk Hf Hp. pose proof (kept_inv _ Hs) as HI. assert (p ∈ owned (mFrameStore s)) as Ho.
  { apply aget_inv in Hf as [_ Hf]. apply list_elem_of_bind. exists f. split; [done|]. apply list_elem_of_lookup. exists (Z.to_nat k).
    rewrite lookup_take_lt by (unfold DPB_SIZE_MAX in *; lia). done. }
  destruct (iv_own_used HI p) as [H _]. destruct H as (x & ? & ? & ?); [set_solver|]. by exists x.
Qed.

Lemma kept_pic s p x g : kept s → pic s p = Some x → le_pic x (g x) → kept (pic_set p (g x) s).
Proof. intros [H1 H2] Hp Hle. split; [etrans; [done|by eapply steady_pic]|done]. Qed.

Lemma kept_set_store s k f f' : kept s → store s k = Some f → le_store f f' → kept (store_set k f' s).
Proof. intros [H1 H2] Hp Hle. split; [etrans; [done|by eapply steady_store]|done]. Qed.

(** A pointer of a frame store, or NULL. *)
Definition good (s : h264_dpb_stru) (o : option Z) : Prop := ∀ p, o = Some p → ∃ x, pic s p = Some x.

Lemma good_same s s' o : good s o → kept s → kept s' → good s' o.
Proof.
  intros Hg [H1 _] [H2 _] p ->. destruct (Hg p) as [x Hx]; [done|]. destruct (sd_pic_inv _ _ _ _ H1 Hx) as (y & Hy & _).
  destruct (sd_pics H2 _ _ Hy) as (z & Hz & _). by exists z.
Qed.

Lemma store_good s k f : kept s → 0 ≤ k < DPB_SIZE_MAX → store s k = Some f → good s (f_frame f) ∧ good s (f_top_field f) ∧ good s (f_bottom_field f).
Proof.
  intros Hs Hk Hf. split_and!; intros p Hp; (edestruct (store_pics s k f p) as (x & _ & Hx); [done|done|done| |by exists x]);
    unfold own_store; rewrite Hp; cbn; set_solver.
Qed.

(** The same when [mDPB] is [d]. *)
Definition keptd (d : DecodedPictureBuffer) (s : h264_dpb_stru) : Prop := kept s ∧ mDPB s = d.

Lemma upd_pic_kept d s p g (R : unit → h264_dpb_stru → Prop) E : keptd d s → good s (Some p) → (∀ x, le_pic x (g x)) →
  (∀ s', keptd d s' → R tt s') → wp False (upd_pic (Some p) g) R E s.
Proof. intros [Hs Hd] Hg Hle HR. destruct (Hg p) as [x Hx]; [done|]. eapply upd_pic_wp; [done|]. apply HR. split; [by apply kept_pic|done]. Qed.

Lemma on_pic_kept d s o g (R : unit → h264_dpb_stru → Prop) E : keptd d s → good s o → (∀ x, le_pic x (g x)) →
  (∀ s', keptd d s' → R tt s') → wp False (on_pic o g) R E s.
Proof. intros Hs Hg Hle HR. destruct o as [p|]; [by eapply upd_pic_kept|]. unfold on_pic. wp_step. by apply HR. Qed.

Lemma upd_fs_kept d s k g (R : unit → h264_dpb_stru → Prop) E : keptd d s → 0 ≤ k < DPB_SIZE_MAX → (∀ f, le_store f (g f)) →
  (∀ s', keptd d s' → R tt s') → wp False (upd_fs (Some k) g) R E s.
Proof.
  intros [Hs Hd] Hk Hle HR. destruct (kept_store s k) as (f & Hf & _); [done..|]. eapply upd_fs_wp; [done|]. apply HR. split; [by eapply kept_set_store|done].
Qed.

Lemma good_samed d d' s s' o : good s o → keptd d s → keptd d' s' → good s' o.
Proof. intros Hg [H1 _] [H2 _]. by eapply good_same. Qed.

(** *** What shapes say about pointers *)

Lemma shape_frame f : shape m f → f_is_used f = 3 → is_Some (f_frame f).
Proof. intros [[(H & _)|[(_ & H & _)|[(_ & H & _)|(_ & H & _)]]] _ _] Hu; [congruence|congruence|congruence|done]. Qed.

Lemma mask_cases x : 0 ≤ x ≤ 3 → x = 0 ∨ x = 1 ∨ x = 2 ∨ x = 3.
Proof. lia. Qed.

(** A marked field is there, unless there are only frames. *)
Lemma shape_top f : m = false → shape m f → bit (f_is_reference f) 1 = true → is_Some (f_top_field f).
Proof.
  intros -> [Hp Hr Hm] Hb. destruct Hp as [(E & _)|[(_ & _ & _ & H & _)|[(_ & E & _)|(_ & _ & H & _)]]]; try done; exfalso; rewrite E in Hm;
    destruct (mask_cases _ Hr) as [X|[X|[X|X]]]; rewrite X in *; vm_compute in Hm, Hb; congruence.
Qed.

Lemma shape_bottom f : m = false → shape m f → bit (f_is_reference f) 2 = true → is_Some (f_bottom_field f).
Proof.
  intros -> [Hp Hr Hm] Hb. destruct Hp as [(E & _)|[(_ & E & _)|[(_ & _ & _ & _ & H)|(_ & _ & _ & H)]]]; try done; exfalso; rewrite E in Hm;
    destruct (mask_cases _ Hr) as [X|[X|[X|X]]]; rewrite X in *; vm_compute in Hm, Hb; congruence.
Qed.

Lemma shape_ref3 f : shape m f → f_is_reference f = 3 → f_is_used f = 3.
Proof.
  intros [Hp Hr Hm] Hx. rewrite Hx in Hm. destruct Hp as [(E & _)|[(_ & E & _)|[(_ & E & _)|(E & _)]]]; rewrite E in Hm; vm_compute in Hm; congruence.
Qed.

(** *** Unmarking a frame store *)

Lemma unmark_pics_kept d s k g (R : unit → h264_dpb_stru → Prop) E : keptd d s → 0 ≤ k < DPB_SIZE_MAX → (∀ x, le_pic x (g x)) →
  (∀ s', keptd d s' → R tt s') → wp False (unmark_pics (Some k) g) R E s.
Proof.
  intros Hs Hk Hle HR. pose proof Hs as [Hs0 _]. destruct (kept_store s k) as (f & Hf & Hsh); [done..|].
  destruct (store_good s k f) as (G1 & G2 & G3); [done..|]. unfold unmark_pics. wp_step. eapply fs_at_wp; [done|].
  assert (∀ s1 o (b : bool) (R1 : unit → h264_dpb_stru → Prop), keptd d s1 → good s o → (∀ s', keptd d s' → R1 tt s') → wp False (when b (on_pic o g)) R1 E s1) as Hwhen.
  { intros s1 o b R1 H1 Hg HR1. wp_step; [|by apply HR1]. eapply on_pic_kept; [done| |done|done]. by eapply good_samed. }
  wp_step. apply Hwhen; [done|done|]. intros s1 H1. wp_step. apply Hwhen; [done|done|]. intros s2 H2. wp_step; [|by apply HR].
  bprop. destruct (shape_frame f Hsh) as [p Hp]; [done|]. wp_step.
  assert (∀ s1 p, keptd d s1 → good s (Some p) → good s1 (Some p)) as Hgood by (intros; by eapply good_samed).
  apply (wp_mono _ (fun _ s' => keptd d s') _ E); [| |done].
  - destruct (f_top_field f) as [t|], (f_bottom_field f) as [b|]; try by wp_step. wp_step. eapply upd_pic_kept; [done|by apply Hgood|done|].
    intros s3 H3. eapply upd_pic_kept; [done|by apply Hgood|done|done].
  - intros _ s3 H3. rewrite Hp. eapply upd_pic_kept; [done|apply Hgood; [done|by rewrite <- Hp]|done|done].
Qed.

Lemma unmark_for_reference_kept d s k (R : unit → h264_dpb_stru → Prop) E : keptd d s → 0 ≤ k < DPB_SIZE_MAX →
  (∀ s', keptd d s' → R tt s') → wp False (unmark_for_reference (Some k)) R E s.
Proof.
  intros Hs Hk HR. unfold unmark_for_reference. wp_step. eapply unmark_pics_kept; [done|done|by intros []|]. intros s1 H1.
  eapply upd_fs_kept; [done|done| |done]. intros f. split; try done. exists 0. cbn. by rewrite Z.land_0_r.
Qed.

Lemma unmark_for_long_term_reference_kept d s k (R : unit → h264_dpb_stru → Prop) E : keptd d s → 0 ≤ k < DPB_SIZE_MAX →
  (∀ s', keptd d s' → R tt s') → wp False (unmark_for_long_term_reference (Some k)) R E s.
Proof.
  intros Hs Hk HR. unfold unmark_for_long_term_reference. wp_step. eapply unmark_pics_kept; [done|done|by intros []|]. intros s1 H1.
  eapply upd_fs_kept; [done|done| |done]. intros f. split; try done. exists 0. cbn. by rewrite Z.land_0_r.
Qed.

(** *** Reading a frame store *)

(** What [test_pic], [any_pic] and the tests on a frame store answer. *)
Definition pic_has (s : h264_dpb_stru) (g : StorablePicture → bool) (o : option Z) : bool :=
  match o with Some p => match pic s p with Some x => g x | None => false end | None => false end.

Definition fs_has (s : h264_dpb_stru) (g : StorablePicture → bool) (f : FrameStore) : bool :=
  ((f_is_used f =? 3) && pic_has s g (f_frame f)) ||
  ((bit (f_is_used f) 1 && pic_has s g (f_top_field f)) || (bit (f_is_used f) 2 && pic_has s g (f_bottom_field f))).

Lemma test_pic_wp s o g (R : bool → h264_dpb_stru → Prop) E : good s o → R (pic_has s g o) s → wp False (test_pic o g) R E s.
Proof.
  intros Hg HR. destruct o as [p|]; unfold test_pic; [|by wp_step]. destruct (Hg p) as [x Hx]; [done|]. wp_step. eapply pic_at_wp; [done|].
  wp_step. cbn in HR. by rewrite Hx in HR.
Qed.

Lemma or_else_wp s (a b : D bool) x y (R : bool → h264_dpb_stru → Prop) E :
  (∀ R', R' x s → wp False a R' E s) → (∀ R', R' y s → wp False b R' E s) → R (x || y) s → wp False (or_else a b) R E s.
Proof. intros Ha Hb HR. unfold or_else. wp_step. apply Ha. destruct x; [by wp_step|]. by apply Hb. Qed.

Lemma any_pic_wp s f g (R : bool → h264_dpb_stru → Prop) E : (f_is_used f = 3 → is_Some (f_frame f)) →
  good s (f_frame f) → good s (f_top_field f) → good s (f_bottom_field f) → R (fs_has s g f) s → wp False (any_pic f g) R E s.
Proof.
  intros Hu G1 G2 G3 HR. unfold any_pic.
  assert (∀ (b : bool) o R', good s o → R' (b && pic_has s g o) s → wp False (if b then test_pic o g else mret false) R' E s) as Hif.
  { intros b o R' Hg HR'. destruct b; [by apply test_pic_wp|by wp_step]. }
  apply (or_else_wp _ _ _ ((f_is_used f =? 3) && pic_has s g (f_frame f))
    ((bit (f_is_used f) 1 && pic_has s g (f_top_field f)) || (bit (f_is_used f) 2 && pic_has s g (f_bottom_field f)))).
  - intros R' HR'. destruct (Z.eqb_spec (f_is_used f) 3) as [E3|]; [|by wp_step]. destruct (Hu E3) as [p Hp]. rewrite Hp in *.
    destruct (G1 p) as [x Hx]; [done|]. wp_step. eapply pic_at_wp; [done|]. wp_step. cbn in HR'. by rewrite Hx in HR'.
  - intros R' HR'. eapply or_else_wp; [intros; by apply Hif|intros; by apply Hif|done].
  - done.
Qed.

Definition short_term (p : StorablePicture) : bool := p_used_for_reference p && negb (p_is_long_term p).
Definition long_term (p : StorablePicture) : bool := p_used_for_reference p && p_is_long_term p.

(** The answer of [is_used_for_reference] and of the two other tests. *)
Definition referenced (s : h264_dpb_stru) (f : FrameStore) : bool := truth (f_is_reference f) || fs_has s p_used_for_reference f.

Lemma fs_has_wp s k g f (R : bool → h264_dpb_stru → Prop) E : kept s → 0 ≤ k < DPB_SIZE_MAX → store s k = Some f →
  R (fs_has s g f) s → wp False (any_pic f g) R E s.
Proof.
  intros Hs Hk Hf HR. destruct (store_good s k f) as (G1 & G2 & G3); [done..|]. apply any_pic_wp; try done. intros Hu.
  destruct (kept_store s k) as (f' & Hf' & Hsh); [done..|]. simplify_eq. by apply shape_frame.
Qed.

Lemma is_used_for_reference_wp s k f (R : bool → h264_dpb_stru → Prop) E : kept s → 0 ≤ k < DPB_SIZE_MAX → store s k = Some f →
  R (referenced s f) s → wp False (is_used_for_reference (Some k)) R E s.
Proof.
  intros Hs Hk Hf HR. unfold is_used_for_reference, referenced in *. wp_step. eapply fs_at_wp; [done|].
  destruct (truth (f_is_reference f)); [by wp_step|]. by eapply fs_has_wp.
Qed.

Lemma is_short_term_reference_wp s k f (R : bool → h264_dpb_stru → Prop) E : kept s → 0 ≤ k < DPB_SIZE_MAX → store s k = Some f →
  R (fs_has s short_term f) s → wp False (is_short_term_reference (Some k)) R E s.
Proof. intros Hs Hk Hf HR. unfold is_short_term_reference. wp_step. eapply fs_at_wp; [done|]. by eapply fs_has_wp. Qed.

Lemma is_long_term_reference_wp s k f (R : bool → h264_dpb_stru → Prop) E : kept s → 0 ≤ k < DPB_SIZE_MAX → store s k = Some f →
  R (fs_has s long_term f) s → wp False (is_long_term_reference (Some k)) R E s.
Proof. intros Hs Hk Hf HR. unfold is_long_term_reference. wp_step. eapply fs_at_wp; [done|]. by eapply fs_has_wp. Qed.

(** *** The lists of references *)

(** The frame stores in use whose pictures satisfy [g], in the order of [fs]. *)
Definition selected (s : h264_dpb_stru) (g : StorablePicture → bool) (o : option Z) : bool :=
  match o with Some k => match store s k with Some f => fs_has s g f | None => false end | None => false end.

Definition in_use (s : h264_dpb_stru) : list (option Z) := take (Z.to_nat (used_size (mDPB s))) (fs (mDPB s)).

Definition refs_with (s : h264_dpb_stru) (g : StorablePicture → bool) : list (option Z) := filter (fun o => selected s g o = true) (in_use s).

Lemma kept_fs s i : kept s → 0 ≤ i < used_size (mDPB s) → ∃ k, aget (fs (mDPB s)) i = Some (Some k) ∧ 0 ≤ k < DPB_SIZE_MAX.
Proof. intros Hs Hi. destruct (iv_fs (kept_inv _ Hs)) as [? ? H _]. apply H. lia. Qed.

Lemma collect_wp s g test l (R : Z * list (option Z) → h264_dpb_stru → Prop) E : kept s → zlen l = DPB_SIZE_MAX →
  (∀ k f R', 0 ≤ k < DPB_SIZE_MAX → store s k = Some f → R' (fs_has s g f) s → wp False (test (Some k)) R' E s) →
  (let sel := refs_with s g in R (zlen sel, sel ++ drop (length sel) l) s) →
  wp False (collect test (used_size (mDPB s)) l) R E s.
Proof.
  intros Hs Hl Htest HR. pose proof (kept_inv _ Hs) as HI. pose proof (iv_fs HI) as [Hlen Hsz Hfs _]. unfold collect.
  set (sel i := filter (fun o => selected s g o = true) (take (Z.to_nat i) (fs (mDPB s)))).
  apply (wp_fold_range _ _ _ (fun i a s' => s' = s ∧ a = (zlen (sel i), sel i ++ drop (length (sel i)) l))).
  - split; [done|]. unfold sel. by rewrite take_0, drop_0.
  - intros i a s' Hi (-> & ->). destruct (kept_fs s i) as (k & Hk & Hkr); [done|lia|]. wp_step. eapply ptr_wp; [done|]. wp_step.
    destruct (kept_store s k) as (f & Hf & _); [done..|]. apply (Htest k f); [done|done|].
    assert (length (sel i) ≤ Z.to_nat i)%nat as Hle. { unfold sel. etrans; [apply length_filter|]. rewrite length_take. lia. }
    assert (sel (i + 1) = sel i ++ (if fs_has s g f then [Some k] else [])) as Hnext.
    { unfold sel. apply aget_inv in Hk as [_ Hk]. replace (Z.to_nat (i + 1)) with (S (Z.to_nat i)) by lia.
      rewrite (take_S_r _ _ _ Hk), filter_app. f_equal. rewrite filter_cons. cbn. rewrite Hf. by destruct (fs_has s g f). }
    destruct (fs_has s g f).
    + wp_step. assert (length (sel i) < length l)%nat as Hlt by (unfold zlen in Hl; lia).
      destruct (lookup_lt_is_Some_2 l (length (sel i))) as [y Hy]; [done|]. rewrite aset_Some by (rewrite zlen_app; unfold zlen; rewrite length_drop; lia).
      cbn [of_option]. wp_step. wp_step. split; [done|]. rewrite Hnext. f_equal; [rewrite zlen_app; done|].
      replace (Z.to_nat (zlen (sel i))) with (length (sel i) + 0)%nat by (unfold zlen; lia). rewrite insert_app_r, (drop_S _ _ _ Hy), <- app_assoc. cbn.
      rewrite length_app. cbn. by rewrite Nat.add_1_r.
    + wp_step. split; [done|]. by rewrite Hnext, app_nil_r.
  - intros a s' (-> & ->). rewrite Z.max_r by lia. exact HR.
Qed.

Lemma clear_from_wp s j n l (R : list (option Z) → h264_dpb_stru → Prop) E : 0 ≤ j → n ≤ zlen l →
  (∀ l', zlen l' = zlen l → (∀ i, aget l' i = if bool_decide (j ≤ i < n) then Some None else aget l i) → R l' s) →
  wp False (clear_from j n l) R E s.
Proof.
  intros Hj Hn HR. unfold clear_from.
  apply (wp_fold_range _ _ _ (fun x l' s' => s' = s ∧ zlen l' = zlen l ∧ ∀ i, aget l' i = if bool_decide (j ≤ i < x) then Some None else aget l i)).
  - split; [done|]. split; [done|]. intros i. by rewrite bool_decide_eq_false_2 by lia.
  - intros x l' s' Hx (-> & Hl & Hi). rewrite aset_Some by lia. cbn [of_option]. wp_step. split; [done|]. rewrite zlen_insert. split; [done|]. intros i.
    destruct (decide (x = i)) as [->|Hne]; [rewrite aget_insert by lia; by rewrite bool_decide_eq_true_2 by lia|].
    rewrite aget_insert_ne by (try done; lia). rewrite Hi. by rewrite (bool_decide_ext (j ≤ i < x) (j ≤ i < x + 1)) by lia.
  - intros l' s' (-> & Hl & Hi). apply HR; [done|]. intros i. rewrite Hi. by rewrite (bool_decide_ext (j ≤ i < Z.max j n) (j ≤ i < n)) by lia.
Qed.

(** A list of references after an update: the selected frame stores, and
    [dummy_fs] behind them. *)
Definition holds (l : list (option Z)) (sel : list (option Z)) (n : Z) : Prop :=
  zlen l = DPB_SIZE_MAX ∧ (∀ i, 0 ≤ i < zlen sel → aget l i = aget sel i) ∧ ∀ i, zlen sel ≤ i < n → aget l i = Some (Some DUMMY_FS).

Definition set_short (n : Z) (l : list (option Z)) (s : h264_dpb_stru) : h264_dpb_stru :=
  s <| mDPB := (mDPB s) <| ref_frames_in_buffer := n |> <| fs_ref := l |> |>.

Definition set_long (n : Z) (l : list (option Z)) (s : h264_dpb_stru) : h264_dpb_stru :=
  s <| mDPB := (mDPB s) <| ltref_frames_in_buffer := n |> <| fs_ltref := l |> |>.

Lemma aget_map {A B} (h : A → B) l i : aget (map h l) i = h <$> aget l i.
Proof. unfold aget. destruct (0 <=? i); [|done]. by rewrite list_lookup_fmap. Qed.

Lemma aget_app_l {A} (l k : list A) i : i < zlen l → aget (l ++ k) i = aget l i.
Proof. unfold aget, zlen. intros. destruct (Z.leb_spec 0 i); [|done]. apply lookup_app_l. lia. Qed.

(** The selected frame stores are some of those in use. *)
Lemma refs_with_in s g i : kept s → 0 ≤ i < zlen (refs_with s g) → ∃ k, aget (refs_with s g) i = Some (Some k) ∧ 0 ≤ k < DPB_SIZE_MAX.
Proof.
  intros Hs Hi. destruct (aget_Some _ _ Hi) as [o Ho]. rewrite Ho. apply aget_inv in Ho as [_ Ho]. apply list_elem_of_lookup_2 in Ho.
  apply list_elem_of_filter in Ho as [_ Ho]. apply elem_of_take in Ho as (j & Hj & Hjn).
  destruct (kept_fs s (Z.of_nat j)) as (k & Hk & Hkr); [done|lia|]. rewrite aget_nat in Hk. exists k. by simplify_eq.
Qed.

Lemma refs_with_len s g : kept s → zlen (refs_with s g) ≤ used_size (mDPB s).
Proof.
  intros Hs. destruct (iv_fs (kept_inv _ Hs)) as [_ Hsz _ _]. unfold zlen, refs_with, in_use. pose proof (length_filter (fun o => selected s g o = true) (take (Z.to_nat (used_size (mDPB s))) (fs (mDPB s)))) as H.
  rewrite length_take in H. lia.
Qed.

Lemma refs_with_distinct s g : kept s → NoDup (refs_with s g).
Proof.
  intros Hs. destruct (iv_fs (kept_inv _ Hs)) as [_ Hsz _ Hinj]. apply NoDup_filter, NoDup_alt. intros i j o Hi Hj. unfold in_use in Hi, Hj.
  apply lookup_take_Some in Hi as [Hi Hin]. apply lookup_take_Some in Hj as [Hj Hjn]. destruct (kept_fs s (Z.of_nat i)) as (k & Hk & _); [done|lia|].
  pose proof Hk as Hk'. rewrite aget_nat in Hk'. simplify_eq. apply Nat2Z.inj. apply (Hinj _ _ k); [lia|lia|done|by rewrite aget_nat].
Qed.

(** What [clear_from] and [fill_dummy] make of the array. *)
Lemma holds_filled s g l l' : kept s → zlen l = DPB_SIZE_MAX → (let sel := refs_with s g in
  zlen l' = zlen (sel ++ drop (length sel) l) ∧
  ∀ i, aget l' i = if bool_decide (zlen sel ≤ i < size (mDPB s)) then Some None else aget (sel ++ drop (length sel) l) i) →
  holds (fill_dummy l') (refs_with s g) (size (mDPB s)).
Proof.
  intros Hs Hl [Hlen Hi]. pose proof (refs_with_len s g Hs). destruct (iv_fs (kept_inv _ Hs)) as [_ Hsz _ _]. unfold holds, fill_dummy. split_and!.
  - unfold zlen in *. rewrite length_map, Hlen, length_app, length_drop. lia.
  - intros i Hr. rewrite aget_map, Hi. rewrite bool_decide_eq_false_2 by lia. rewrite aget_app_l by lia.
    destruct (refs_with_in s g i) as (k & Hk & _); [done..|]. by rewrite Hk.
  - intros i Hr. rewrite aget_map, Hi. by rewrite bool_decide_eq_true_2 by lia.
Qed.

Lemma holds_refs_in s g l : kept s → holds l (refs_with s g) (size (mDPB s)) → refs_in l (zlen (refs_with s g)).
Proof.
  intros Hs (H1 & H2 & _). pose proof (refs_with_len s g Hs). destruct (iv_fs (kept_inv _ Hs)) as [_ Hsz _ _]. split; [done|]. split; [unfold zlen in *; lia|].
  split; [intros i Hi; rewrite H2 by done; by apply refs_with_in|]. replace (take _ l) with (refs_with s g); [by apply refs_with_distinct|].
  apply list_eq. intros i. destruct (decide (i < length (refs_with s g))%nat) as [Hi|Hi].
  - rewrite lookup_take_lt by (unfold zlen; lia). rewrite <- !aget_nat. symmetry. apply H2. unfold zlen. lia.
  - rewrite !(proj2 (lookup_ge_None _ _)); [done|rewrite length_take; unfold zlen; lia|lia].
Qed.

Lemma kept_set_short s l : kept s → holds l (refs_with s short_term) (size (mDPB s)) → kept (set_short (zlen (refs_with s short_term)) l s).
Proof.
  intros Hs Hh. pose proof Hs as [H1 []]. split; [etrans; [done|]; split; try done; intros ? a Ha; by exists a|]. split; [done|by apply holds_refs_in|done|done].
Qed.

Lemma kept_set_long s l : kept s → holds l (refs_with s long_term) (size (mDPB s)) → kept (set_long (zlen (refs_with s long_term)) l s).
Proof.
  intros Hs Hh. pose proof Hs as [H1 []]. split; [etrans; [done|]; split; try done; intros ? a Ha; by exists a|]. split; [done|done|by apply holds_refs_in|done].
Qed.

Lemma update_ref_list_wp s (R : unit → h264_dpb_stru → Prop) E : kept s →
  (∀ l, holds l (refs_with s short_term) (size (mDPB s)) → R tt (set_short (zlen (refs_with s short_term)) l s)) →
  wp False update_ref_list R E s.
Proof.
  intros Hs HR. pose proof (ro_short _ (iv_refs (kept_inv _ Hs))) as [Hz _]. unfold update_ref_list. wp_step. wp_step. wp_step.
  apply (collect_wp s short_term); [done|done|intros; by eapply is_short_term_reference_wp|]. cbv beta zeta iota. wp_step. apply wp_modify. cbv beta.
  destruct (iv_fs (kept_inv _ Hs)) as [_ Hsz _ _]. pose proof (refs_with_len s short_term Hs).
  wp_step. apply clear_from_wp; [apply zlen_nonneg|rewrite zlen_app; unfold zlen in *; rewrite length_drop; lia|]. intros l' Hl' Hi.
  apply wp_modify. apply (HR (fill_dummy l')). by eapply holds_filled.
Qed.

Lemma update_ltref_list_wp s (R : unit → h264_dpb_stru → Prop) E : kept s →
  (∀ l, holds l (refs_with s long_term) (size (mDPB s)) → R tt (set_long (zlen (refs_with s long_term)) l s)) →
  wp False update_ltref_list R E s.
Proof.
  intros Hs HR. pose proof (ro_long _ (iv_refs (kept_inv _ Hs))) as [Hz _]. unfold update_ltref_list. wp_step. wp_step. wp_step.
  apply (collect_wp s long_term); [done|done|intros; by eapply is_long_term_reference_wp|]. cbv beta zeta iota. wp_step. apply wp_modify. cbv beta.
  destruct (iv_fs (kept_inv _ Hs)) as [_ Hsz _ _]. pose proof (refs_with_len s long_term Hs).
  wp_step. apply clear_from_wp; [apply zlen_nonneg|rewrite zlen_app; unfold zlen in *; rewrite length_drop; lia|]. intros l' Hl' Hi.
  apply wp_modify. apply (HR (fill_dummy l')). by eapply holds_filled.
Qed.

Lemma update_ref_list_kept s (R : unit → h264_dpb_stru → Prop) E : kept s → (∀ s', kept s' → R tt s') → wp False update_ref_list R E s.
Proof. intros Hs HR. apply update_ref_list_wp; [done|]. intros l Hl. apply HR. by apply kept_set_short. Qed.

Lemma update_ltref_list_kept s (R : unit → h264_dpb_stru → Prop) E : kept s → (∀ s', kept s' → R tt s') → wp False update_ltref_list R E s.
Proof. intros Hs HR. apply update_ltref_list_wp; [done|]. intros l Hl. apply HR. by apply kept_set_long. Qed.

(** *** Loops and tests of the control operations *)

Lemma until_n_wp n body (P : h264_dpb_stru → Prop) (R : option Z → h264_dpb_stru → Prop) E : ∀ i s, P s →
  (∀ j s', i ≤ j < i + Z.of_nat n → P s' → wp False (body j) (fun _ => P) E s') →
  (∀ o s', P s' → (∀ j, o = Some j → i ≤ j < i + Z.of_nat n) → R o s') → wp False (until_n n i body) R E s.
Proof.
  induction n as [|n IH]; intros i s HP Hb HR; cbn [until_n]; [wp_step; by apply HR|]. wp_step. eapply wp_mono; [apply Hb; [lia|done]| |done].
  intros r s' Hs'. assert (wp False (until_n n (i + 1) body) R E s') as Hgo.
  { apply IH; [done|intros; apply Hb; [lia|done]|]. intros o s2 H2 Ho. apply HR; [done|]. intros j Hj. specialize (Ho j Hj). lia. }
  destruct r; [done|done|]. wp_step. apply HR; [done|]. intros j [= <-]. lia.
Qed.

Lemma until_wp n body (P : h264_dpb_stru → Prop) (R : option Z → h264_dpb_stru → Prop) E s : P s →
  (∀ j s', 0 ≤ j < n → P s' → wp False (body j) (fun _ => P) E s') →
  (∀ o s', P s' → (∀ j, o = Some j → 0 ≤ j < n) → R o s') → wp False (until n body) R E s.
Proof. intros HP Hb HR. unfold until. eapply until_n_wp; [done|intros; apply Hb; [lia|done]|]. intros o s' Hs' Ho. apply HR; [done|]. intros j Hj. specialize (Ho j Hj). lia. Qed.

Lemma keptd_ref d s i : keptd d s → 0 ≤ i < ref_frames_in_buffer d → ∃ k, aget (fs_ref (mDPB s)) i = Some (Some k) ∧ 0 ≤ k < DPB_SIZE_MAX.
Proof. intros [Hs <-] Hi. destruct (ro_short _ (iv_refs (kept_inv _ Hs))) as (_ & _ & H & _). by apply H. Qed.

Lemma keptd_ltref d s i : keptd d s → 0 ≤ i < ltref_frames_in_buffer d → ∃ k, aget (fs_ltref (mDPB s)) i = Some (Some k) ∧ 0 ≤ k < DPB_SIZE_MAX.
Proof. intros [Hs <-] Hi. destruct (ro_long _ (iv_refs (kept_inv _ Hs))) as (_ & _ & H & _). by apply H. Qed.

Lemma non_null_wp d s o (b : D flow) (R : flow → h264_dpb_stru → Prop) E : keptd d s → (∀ s', keptd d s' → R Continue s') →
  (∀ p, o = Some p → wp False b R E s) → wp False (non_null o b) R E s.
Proof.
  intros [[H1 H2] Hd] Hc Hb. destruct o as [p|]; unfold non_null; [by eapply Hb|]. wp_step. apply wp_modify. wp_step. apply Hc. split; [|done]. split; [|done].
  etrans; [done|]. split; try done; intros ? a Ha; by exists a.
Qed.

Lemma flow_seq_wp s (a b : D flow) (R : flow → h264_dpb_stru → Prop) E :
  wp False a (fun r s' => match r with Next_ => wp False b R E s' | _ => R r s' end) E s → wp False (flow_seq a b) R E s.
Proof. intros H. unfold flow_seq. wp_step. eapply wp_mono; [done| |done]. by intros []. Qed.

Lemma keptd_store d s k : keptd d s → 0 ≤ k < DPB_SIZE_MAX → ∃ f, store s k = Some f ∧ shape m f ∧ good s (f_frame f) ∧ good s (f_top_field f) ∧ good s (f_bottom_field f).
Proof. intros [Hs _] Hk. destruct (kept_store s k) as (f & Hf & Hsh); [done..|]. exists f. split_and!; try done; by apply (store_good s k f). Qed.


Lemma stored_kept s s' o : stored m s o → kept s → kept s' → stored m s' o.
Proof.
  intros (x & Hx & Hm) [H1 _] [H2 _]. destruct (sd_pic_inv _ _ _ _ H1 Hx) as (y & Hy & L1). destruct (sd_pics H2 _ _ Hy) as (z & Hz & L2).
  exists z. split; [done|]. intros Ht. rewrite (lp_structure _ _ L2), <- (lp_structure _ _ L1). by apply Hm.
Qed.

Lemma le_unused x : le_pic x (unused x).
Proof. by destruct x. Qed.

Lemma le_unused_lt x : le_pic x (unused_lt x).
Proof. by destruct x. Qed.

Lemma le_lt_mark idx num x : le_pic x (lt_mark idx num x).
Proof. by destruct x. Qed.

Lemma unmark_short_field_kept d s k num b c field (R : flow → h264_dpb_stru → Prop) E : keptd d s → 0 ≤ k < DPB_SIZE_MAX →
  (∀ s f, good s (f_frame f) → good s (f_top_field f) → good s (f_bottom_field f) → good s (field f)) →
  (∀ r s', keptd d s' → R r s') → wp False (unmark_short_field (Some k) num b c field) R E s.
Proof.
  intros Hs Hk Hfld HR. destruct (keptd_store d s k) as (f & Hf & Hsh & G1 & G2 & G3); [done..|]. pose proof (Hfld _ _ G1 G2 G3) as G.
  unfold unmark_short_field. wp_step. eapply fs_at_wp; [done|]. wp_step; [|wp_step; by apply HR].
  eapply non_null_wp; [done|intros; by apply HR|]. intros p Hp. rewrite Hp in *. destruct (G p) as [x Hx]; [done|].
  wp_step. eapply pic_at_wp; [done|]. wp_step; [|wp_step; by apply HR]. wp_step. eapply upd_pic_kept; [done|done|apply le_unused|]. intros s1 Hs1.
  wp_step. eapply upd_fs_kept; [done|done| |].
  { intros g. split; try done. by exists c. }
  intros s2 Hs2. wp_step. wp_step.
  - eapply on_pic_kept; [done| |apply le_unused|]; [by eapply good_samed|]. intros s3 Hs3. wp_step. by apply HR.
  - wp_step. by apply HR.
Qed.

Lemma mm_unmark_short_kept d s o num (R : unit → h264_dpb_stru → Prop) E : keptd d s → stored m s o →
  (∀ s', keptd d s' → R tt s') → wp False (mm_unmark_short_term_for_reference (Some o) num) R E s.
Proof.
  intros Hs (x & Hx & _) HR. unfold mm_unmark_short_term_for_reference. wp_step. eapply pic_at_wp; [done|]. cbv zeta. wp_step. wp_step.
  rewrite (proj2 Hs). wp_step. apply (until_wp _ _ (keptd d)); [done| |intros; wp_step; by apply HR]. intros i s1 Hi Hs1.
  destruct (keptd_ref d s1 i) as (k & Hk & Hkr); [done..|]. wp_step. eapply ptr_wp; [done|]. cbn [non_null].
  assert (wp False (flow_seq (unmark_short_field (Some k) (get_pic_num_x x num) 1 2 f_top_field)
    (unmark_short_field (Some k) (get_pic_num_x x num) 2 1 f_bottom_field)) (fun _ => keptd d) E s1) as Hfields.
  { apply flow_seq_wp. eapply unmark_short_field_kept; [done|done|auto|]. intros [] s2 Hs2; [|done|done]. eapply unmark_short_field_kept; [done|done|auto|done]. }
  destruct (p_structure x); [|done|done]. destruct (keptd_store d s1 k) as (f & Hf & Hsh & G1 & _ & _); [done..|].
  wp_step. eapply fs_at_wp; [done|]. wp_step; [|by wp_step]. eapply non_null_wp; [done|done|]. intros p Hp. rewrite Hp in *. destruct (G1 p) as [y Hy]; [done|].
  wp_step. eapply pic_at_wp; [done|]. wp_step; [|by wp_step]. wp_step. eapply unmark_for_reference_kept; [done|done|]. intros s2 Hs2. by wp_step.
Qed.

Lemma unmark_long_field_kept d s k num b c field (R : flow → h264_dpb_stru → Prop) E : keptd d s → 0 ≤ k < DPB_SIZE_MAX →
  (∀ s f, good s (f_frame f) → good s (f_top_field f) → good s (f_bottom_field f) → good s (field f)) →
  (∀ f, shape m f → bit (f_is_reference f) b = true → is_Some (field f)) →
  (∀ r s', keptd d s' → R r s') → wp False (unmark_long_field (Some k) num b c field) R E s.
Proof.
  intros Hs Hk Hfld Hsome HR. destruct (keptd_store d s k) as (f & Hf & Hsh & G1 & G2 & G3); [done..|]. pose proof (Hfld _ _ G1 G2 G3) as G.
  unfold unmark_long_field. wp_step. eapply fs_at_wp; [done|]. wp_step; [|wp_step; by apply HR]. bprop.
  destruct (Hsome f) as [p Hp]; [done..|]. rewrite Hp in *. destruct (G p) as [x Hx]; [done|].
  wp_step. eapply pic_at_wp; [done|]. wp_step; [|wp_step; by apply HR]. wp_step. eapply upd_pic_kept; [done|done|apply le_unused_lt|]. intros s1 Hs1.
  wp_step. eapply upd_fs_kept; [done|done| |].
  { intros g. split; try done. by exists c. }
  intros s2 Hs2. wp_step. wp_step; bprop.
  - destruct (shape_frame f Hsh) as [q Hq]; [done|]. rewrite Hq in *.
    eapply upd_pic_kept; [done| |apply le_unused_lt|]; [by eapply good_samed|]. intros s3 Hs3. wp_step. by apply HR.
  - wp_step. by apply HR.
Qed.

Lemma mm_unmark_long_kept d s o num (R : unit → h264_dpb_stru → Prop) E : keptd d s → stored m s o →
  (∀ s', keptd d s' → R tt s') → wp False (mm_unmark_long_term_for_reference (Some o) num) R E s.
Proof.
  intros Hs (x & Hx & Hm) HR. unfold mm_unmark_long_term_for_reference. wp_step. eapply pic_at_wp; [done|]. wp_step. wp_step.
  rewrite (proj2 Hs). wp_step. apply (until_wp _ _ (keptd d)); [done| |intros; wp_step; by apply HR]. intros i s1 Hi Hs1.
  destruct (keptd_ltref d s1 i) as (k & Hk & Hkr); [done..|]. wp_step. eapply ptr_wp; [done|].
  assert (m = false → wp False (flow_seq (unmark_long_field (Some k) num 1 2 f_top_field) (unmark_long_field (Some k) num 2 1 f_bottom_field)) (fun _ => keptd d) E s1) as Hfields.
  { intros Hmf. apply flow_seq_wp. eapply unmark_long_field_kept; [done|done|auto|auto using shape_top|]. intros [] s2 Hs2; [|done|done].
    eapply unmark_long_field_kept; [done|done|auto|auto using shape_bottom|done]. }
  destruct (p_structure x) eqn:Est; [|apply Hfields; destruct m; [by discriminate (Hm eq_refl)|done]..].
  destruct (keptd_store d s1 k) as (f & Hf & Hsh & G1 & _ & _); [done..|].
  wp_step. eapply fs_at_wp; [done|]. wp_step; [|by wp_step]. bprop. destruct (shape_frame f Hsh) as [p Hp]; [by apply shape_ref3|]. rewrite Hp in *.
  destruct (G1 p) as [y Hy]; [done|]. wp_step. eapply pic_at_wp; [done|]. wp_step. wp_step; [|by wp_step].
  eapply unmark_for_long_term_reference_kept; [done|done|]. intros s2 Hs2. by wp_step.
Qed.

(** A loop over a list of references whose body keeps [mDPB]. *)
Lemma ltref_loop d s (body : option Z → D unit) (R : unit → h264_dpb_stru → Prop) E : keptd d s →
  (∀ k s', keptd d s' → 0 ≤ k < DPB_SIZE_MAX → wp False (body (Some k)) (fun _ => keptd d) E s') →
  (∀ s', keptd d s' → R tt s') → wp False (for_range 0 (ltref_frames_in_buffer d) (fun i => k ← ptr_of fs_ltref i; body k)) R E s.
Proof.
  intros Hs Hb HR. apply (wp_for_range _ _ _ (fun _ => keptd d)); [done| |done]. intros i s1 Hi Hs1.
  destruct (keptd_ltref d s1 i) as (k & Hk & Hkr); [done..|]. wp_step. eapply ptr_wp; [done|]. by apply Hb.
Qed.

Lemma unmark_by_frame_idx_kept d s idx (R : unit → h264_dpb_stru → Prop) E : keptd d s → (∀ s', keptd d s' → R tt s') →
  wp False (unmark_long_term_frame_for_reference_by_frame_idx idx) R E s.
Proof.
  intros Hs HR. unfold unmark_long_term_frame_for_reference_by_frame_idx. wp_step. wp_step. rewrite (proj2 Hs).
  apply (ltref_loop d s (fun k => f ← fs_at k; when (f_long_term_frame_idx f =? idx) (unmark_for_long_term_reference k))); [done| |done].
  intros k s1 Hs1 Hk. destruct (keptd_store d s1 k) as (f & Hf & _); [done..|]. wp_step. eapply fs_at_wp; [done|]. wp_step; [|done].
  by eapply unmark_for_long_term_reference_kept.
Qed.

Lemma unmark1_kept d s k (R : unit → h264_dpb_stru → Prop) E : keptd d s → 0 ≤ k < DPB_SIZE_MAX → (∀ s', keptd d s' → R tt s') →
  wp False (unmark1 (Some k)) R E s.
Proof. intros Hs Hk HR. unfold unmark1. wp_step. wp_step. destruct (last_picture (mDPB s)); [by eapply unmark_for_long_term_reference_kept|wp_step; by apply HR]. Qed.

Lemma unmark2_kept d s k num (R : unit → h264_dpb_stru → Prop) E : keptd d s → 0 ≤ k < DPB_SIZE_MAX → (∀ s', keptd d s' → R tt s') →
  wp False (unmark2 (Some k) num) R E s.
Proof.
  intros Hs Hk HR. destruct (keptd_store d s k) as (f & Hf & _); [done..|]. unfold unmark2. wp_step. eapply fs_at_wp; [done|].
  wp_step; [by eapply unmark_for_long_term_reference_kept|by apply HR].
Qed.

Lemma unmark_by_field_idx_kept d s st idx cur num (R : unit → h264_dpb_stru → Prop) E : keptd d s → (∀ s', keptd d s' → R tt s') →
  wp False (unmark_long_term_field_for_reference_by_frame_idx st idx cur num) R E s.
Proof.
  intros Hs HR. unfold unmark_long_term_field_for_reference_by_frame_idx. wp_step. wp_step. cbv zeta. generalize (if num <? 0 then s32 (num + s32 (2 * max_frame_num (mVideo s))) else num).
  intros n. rewrite (proj2 Hs). apply (ltref_loop d s (fun k => f ← fs_at k; when (f_long_term_frame_idx f =? idx)
    match st with FRAME => mret tt | TOP_FIELD => unmark3_top k n cur | BOTTOM_FIELD => unmark3_bottom k n cur end)); [done| |done].
  intros k s1 Hs1 Hk. destruct (keptd_store d s1 k) as (f & Hf & _); [done..|]. wp_step. eapply fs_at_wp; [done|]. wp_step; [|done].
  destruct st; [by wp_step|unfold unmark3_top|unfold unmark3_bottom]; wp_step; (eapply fs_at_wp; [done|]);
    repeat (wp_step; [by eapply unmark_for_long_term_reference_kept|]); (wp_step; [by eapply unmark1_kept|by eapply unmark2_kept]).
Qed.

Lemma mark_frame_long_kept d s k idx num (R : flow → h264_dpb_stru → Prop) E : keptd d s → 0 ≤ k < DPB_SIZE_MAX →
  (∀ r s', keptd d s' → R r s') → wp False (mark_frame_long_term (Some k) idx num) R E s.
Proof.
  intros Hs Hk HR. destruct (keptd_store d s k) as (f & Hf & _ & G1 & G2 & G3); [done..|]. unfold mark_frame_long_term. wp_step. eapply fs_at_wp; [done|].
  wp_step; [|wp_step; by apply HR]. eapply non_null_wp; [done|intros; by apply HR|]. intros p Hp. rewrite Hp in *. destruct (G1 p) as [x Hx]; [done|].
  wp_step. eapply pic_at_wp; [done|]. wp_step; [|wp_step; by apply HR]. wp_step. eapply upd_fs_kept; [done|done| |].
  { intros g. split; try done. exists (-1). by rewrite Z.land_m1_r. }
  intros s1 Hs1. wp_step. eapply upd_pic_kept; [done|by eapply good_samed|apply le_lt_mark|]. intros s2 Hs2. wp_step.
  apply (wp_mono _ (fun _ => keptd d) _ E); [| |done].
  - destruct (f_top_field f) as [t|], (f_bottom_field f) as [b|]; try by wp_step. wp_step. eapply upd_pic_kept; [done|by eapply good_samed|apply le_lt_mark|].
    intros s3 Hs3. eapply upd_pic_kept; [done|by eapply (good_samed d d s s3)|apply le_lt_mark|done].
  - intros _ s3 Hs3. wp_step. eapply upd_fs_kept; [done|done| |].
    { intros g. split; try done. exists (-1). by rewrite Z.land_m1_r. }
    intros s4 Hs4. wp_step. by apply HR.
Qed.

Lemma mark_field_long_kept d s k idx num b add field (R : flow → h264_dpb_stru → Prop) E : keptd d s → 0 ≤ k < DPB_SIZE_MAX →
  (∀ s f, good s (f_frame f) → good s (f_top_field f) → good s (f_bottom_field f) → good s (field f)) →
  (∀ r s', keptd d s' → R r s') → wp False (mark_field_long_term (Some k) idx num b add field) R E s.
Proof.
  intros Hs Hk Hfld HR. destruct (keptd_store d s k) as (f & Hf & _ & G1 & G2 & G3); [done..|]. pose proof (Hfld _ _ G1 G2 G3) as G.
  unfold mark_field_long_term. wp_step. eapply fs_at_wp; [done|]. wp_step; [|wp_step; by apply HR].
  eapply non_null_wp; [done|intros; by apply HR|]. intros p Hp. rewrite Hp in *. destruct (G p) as [x Hx]; [done|].
  wp_step. eapply pic_at_wp; [done|]. wp_step; [|wp_step; by apply HR]. wp_step. eapply upd_fs_kept; [done|done| |].
  { intros g. split; try done. exists (-1). by rewrite Z.land_m1_r. }
  intros s1 Hs1. wp_step. eapply upd_pic_kept; [done|by eapply good_samed|apply le_lt_mark|]. intros s2 Hs2. wp_step.
  eapply upd_fs_kept; [done|done| |].
  { intros g. split; try done. exists (-1). by rewrite Z.land_m1_r. }
  intros s3 Hs3. destruct (keptd_store d s3 k) as (f3 & Hf3 & _ & G4 & _ & _); [done..|]. wp_step. eapply fs_at_wp; [done|]. wp_step. wp_step.
  - eapply on_pic_kept; [done|done|apply le_lt_mark|]. intros s4 Hs4. wp_step. by apply HR.
  - wp_step. by apply HR.
Qed.

Lemma mark_pic_long_term_kept d s o idx num (R : unit → h264_dpb_stru → Prop) E : keptd d s → stored m s o →
  (∀ s', keptd d s' → R tt s') → wp False (mark_pic_long_term (Some o) idx num) R E s.
Proof.
  intros Hs (x & Hx & _) HR. unfold mark_pic_long_term. wp_step. eapply pic_at_wp; [done|]. wp_step. wp_step. rewrite (proj2 Hs). wp_step.
  apply (until_wp _ _ (keptd d)); [done| |intros; wp_step; by apply HR]. intros i s1 Hi Hs1.
  destruct (keptd_ref d s1 i) as (k & Hk & Hkr); [done..|]. wp_step. eapply ptr_wp; [done|]. cbn [non_null].
  assert (∀ a b, wp False (flow_seq (mark_field_long_term (Some k) idx num 1 a f_top_field) (mark_field_long_term (Some k) idx num 2 b f_bottom_field)) (fun _ => keptd d) E s1) as Hfields.
  { intros a b. apply flow_seq_wp. eapply mark_field_long_kept; [done|done|auto|]. intros [] s2 Hs2; [|done|done]. eapply mark_field_long_kept; [done|done|auto|done]. }
  destruct (p_structure x); [|apply Hfields|apply Hfields]. by eapply mark_frame_long_kept.
Qed.

Lemma has_pic_num_kept d s k num b field (R : flow → h264_dpb_stru → Prop) E : keptd d s → 0 ≤ k < DPB_SIZE_MAX →
  (∀ s f, good s (f_frame f) → good s (f_top_field f) → good s (f_bottom_field f) → good s (field f)) →
  (∀ r s', keptd d s' → R r s') → wp False (has_pic_num (Some k) num b field) R E s.
Proof.
  intros Hs Hk Hfld HR. destruct (keptd_store d s k) as (f & Hf & _ & G1 & G2 & G3); [done..|]. pose proof (Hfld _ _ G1 G2 G3) as G.
  unfold has_pic_num. wp_step. eapply fs_at_wp; [done|]. wp_step; [|wp_step; by apply HR].
  eapply non_null_wp; [done|intros; by apply HR|]. intros p Hp. rewrite Hp in *. destruct (G p) as [x Hx]; [done|].
  wp_step. eapply pic_at_wp; [done|]. wp_step. by apply HR.
Qed.

Lemma find_field_kept d num (R : PictureStructure → h264_dpb_stru → Prop) E n : ∀ i s, keptd d s → 0 ≤ i → i + Z.of_nat n ≤ ref_frames_in_buffer d →
  (∀ r s', keptd d s' → R r s') → wp False (find_field n i num) R E s.
Proof.
  induction n as [|n IH]; intros i s Hs Hi Hn HR; cbn [find_field]; [wp_step; by apply HR|].
  destruct (keptd_ref d s i) as (k & Hk & Hkr); [done|lia|]. wp_step. eapply ptr_wp; [done|]. cbv beta iota. wp_step.
  eapply has_pic_num_kept; [done|done|auto|]. intros r s1 Hs1. destruct r; [|by apply IH; [done|lia|lia|..]|wp_step; by apply HR]. wp_step.
  eapply has_pic_num_kept; [done|done|auto|]. intros r s2 Hs2. destruct r; [by apply IH; [done|lia|lia|..]..|]. wp_step. by apply HR.
Qed.

Lemma mm_assign_kept d s o num idx (R : unit → h264_dpb_stru → Prop) E : keptd d s → stored m s o →
  (∀ s', keptd d s' → R tt s') → wp False (mm_assign_long_term_frame_idx (Some o) num idx) R E s.
Proof.
  intros Hs Ho HR. pose proof Ho as (x & Hx & _). unfold mm_assign_long_term_frame_idx. wp_step. eapply pic_at_wp; [done|]. cbv zeta. wp_step.
  apply (wp_mono _ (fun _ => keptd d) _ E); [| |done].
  - assert (wp False (n ← gets (λ s, ref_frames_in_buffer (mDPB s)); structure ← find_field (Z.to_nat n) 0 (get_pic_num_x x num);
      unmark_long_term_field_for_reference_by_frame_idx structure idx false (get_pic_num_x x num)) (fun _ => keptd d) E s) as Hfields.
    { wp_step. wp_step. rewrite (proj2 Hs). wp_step. destruct (ro_short _ (iv_refs (kept_inv _ (proj1 Hs)))) as (_ & Hr & _). rewrite (proj2 Hs) in Hr.
      apply (find_field_kept d); [done|lia|lia|]. intros r s1 Hs1. by eapply unmark_by_field_idx_kept. }
    destruct (p_structure x); [by eapply unmark_by_frame_idx_kept|done|done].
  - intros [] s1 Hs1. eapply mark_pic_long_term_kept; [done| |done]. eapply stored_kept; [done|apply Hs|apply Hs1].
Qed.

(** *** The remaining operations, which may change [mDPB] *)

Lemma kept_upd_dpb s (g : DecodedPictureBuffer → DecodedPictureBuffer) (R : unit → h264_dpb_stru → Prop) E : kept s →
  (∀ d, fs (g d) = fs d) → (∀ d, size (g d) = size d) → (∀ d, used_size (g d) = used_size d) → (∀ d, init_done (g d) = init_done d) →
  (∀ d, refs_ok d → refs_ok (g d)) → (∀ s', kept s' → mDPB s' = g (mDPB s) → R tt s') → wp False (upd_dpb g) R E s.
Proof.
  intros [H1 H2] E1 E2 E3 E4 E5 HR. apply wp_modify. apply HR; [|done]. split; [|by apply E5]. etrans; [done|].
  split; try done; [intros ? a Ha; by exists a..|by apply E1|by apply E2|by apply E3|by apply E4].
Qed.

Lemma mm_update_max_kept s n (R : unit → h264_dpb_stru → Prop) E : kept s → (∀ s', kept s' → R tt s') →
  wp False (mm_update_max_long_term_frame_idx n) R E s.
Proof.
  intros Hs HR. unfold mm_update_max_long_term_frame_idx. wp_step. apply kept_upd_dpb; try done. { by intros d []. }
  intros s1 Hs1 _. wp_step. wp_step. set (d := mDPB s1). assert (keptd d s1) as Hd by done. clearbody d.
  apply (ltref_loop d s1 (fun k => f ← fs_at k; when (max_long_term_pic_idx d <? f_long_term_frame_idx f) (unmark_for_long_term_reference k)));
    [done| |intros s2 [Hs2 _]; by apply HR].
  intros k s2 Hs2 Hk. destruct (keptd_store d s2 k) as (f & Hf & _); [done..|]. wp_step. eapply fs_at_wp; [done|]. wp_step; [|done].
  by eapply unmark_for_long_term_reference_kept.
Qed.

Lemma mm_unmark_all_short_kept s (R : unit → h264_dpb_stru → Prop) E : kept s → (∀ s', kept s' → R tt s') →
  wp False mm_unmark_all_short_term_for_reference R E s.
Proof.
  intros Hs HR. unfold mm_unmark_all_short_term_for_reference. wp_step. wp_step. wp_step. set (d := mDPB s). assert (keptd d s) as Hd by done. clearbody d.
  apply (wp_for_range _ _ _ (fun _ => keptd d)); [done| |intros s1 [Hs1 _]; by apply update_ref_list_kept]. intros i s1 Hi Hs1.
  destruct (keptd_ref d s1 i) as (k & Hk & Hkr); [done..|]. wp_step. eapply ptr_wp; [done|]. by eapply unmark_for_reference_kept.
Qed.

Lemma mm_mark_current_kept s o idx (R : unit → h264_dpb_stru → Prop) E : kept s → stored m s o → (∀ s', kept s' → R tt s') →
  wp False (mm_mark_current_picture_long_term (Some o) idx) R E s.
Proof.
  intros Hs (x & Hx & _) HR. unfold mm_mark_current_picture_long_term. wp_step. eapply pic_at_wp; [done|]. wp_step.
  assert (keptd (mDPB s) s) as Hd by done. apply (wp_mono _ (fun _ => keptd (mDPB s)) _ E); [| |done].
  - destruct (p_structure x); [by eapply unmark_by_frame_idx_kept|by eapply unmark_by_field_idx_kept..].
  - intros [] s1 Hs1. eapply upd_pic_kept; [done| |by intros []|intros s2 [Hs2 _]; by apply HR].
    assert (good s (Some o)) as Hg by (intros p [= <-]; by exists x). by eapply good_samed.
Qed.

Lemma sliding_window_kept s o (R : unit → h264_dpb_stru → Prop) E : kept s → stored m s o → (∀ s', kept s' → R tt s') →
  wp False (sliding_window_memory_management (Some o)) R E s.
Proof.
  intros Hs (x & Hx & _) HR. assert (good s (Some o)) as Hg by (intros p [= <-]; by exists x).
  assert (∀ s', kept s' → wp False (upd_pic (Some o) (fun p => p <| p_is_long_term := false |>)) R E s') as Hlast.
  { intros s1 Hs1. apply (upd_pic_kept (mDPB s1)); [done|by eapply good_same|by intros []|intros s2 [Hs2 _]; by apply HR]. }
  unfold sliding_window_memory_management. wp_step. wp_step. cbv zeta. wp_step. wp_step; [|by apply Hlast]. wp_step.
  assert (used_size (mDPB s) = used_size (mDPB s0)) as Hu by apply Hs. rewrite Hu.
  apply (until_wp _ _ kept); [done| |intros; wp_step; by apply Hlast]. intros i s1 Hi Hs1.
  assert (used_size (mDPB s1) = used_size (mDPB s0)) as Hu1 by apply Hs1. destruct (kept_fs s1 i) as (k & Hk & Hkr); [done|lia|].
  wp_step. eapply ptr_wp; [done|]. destruct (kept_store s1 k) as (f & Hf & _); [done..|]. wp_step. eapply fs_at_wp; [done|].
  wp_step; [|by wp_step]. wp_step. eapply (unmark_for_reference_kept (mDPB s1)); [done|done|]. intros s2 [Hs2 _]. wp_step. apply update_ref_list_kept; [done|].
  intros s3 Hs3. by wp_step.
Qed.
End Keep.
