(* ===== verification/H264PoolOk.v ===== *)
(** The pool of pictures and the frame stores of the H.264 decoded picture
    buffer (src/drivers/frame_provider/decoder/h264_multi/h264_dpb.c): taking
    a picture, filling and emptying a frame store keep the invariant; the pool
    cannot run out. *)

From stdpp Require Import base list numbers sorting gmap.
From Stdlib Require Import ZArith Lia Bool.
From S2P Require Import Prelude H264Types H264Pool H264Inv.

#[local] Open Scope Z_scope.

(** ** Changing one element *)

Section Change.
Context (fx : fixed) (m : bool).
Implicit Types (s : h264_dpb_stru) (ex : list Z) (X : option Z).

Lemma inv_set_pic ex ex' X s p x x' : inv fx m ex X s → 0 ≤ p < MAX_PIC_BUF_NUM → pic s p = Some x → p_index x' = p_index x → (commands_ok x → commands_ok x') →
  (p_is_used x' = true → p_frame_mbs_only_flag x' = m) → NoDup (owned (mFrameStore s) ++ ex') →
  (∀ q, q ∈ owned (mFrameStore s) ++ ex' ↔ if bool_decide (q = p) then p_is_used x' = true else q ∈ owned (mFrameStore s) ++ ex) →
  inv fx m ex' X (pic_set p x' s).
Proof.
  intros HI Hp Hx Hidx Hcmd Hmbs Hnd Hown. destruct HI. split; try done.
  - cbn. by rewrite zlen_insert.
  - intros q y Hq Hy. destruct (decide (p = q)) as [->|Hne].
    + rewrite (pic_set_eq q x' x) in Hy by done. simplify_eq. rewrite Hidx. by apply iv_index.
    + rewrite pic_set_ne in Hy by (try done; lia). by apply iv_index.
  - intros q y Hq Hy Hu. destruct (decide (p = q)) as [->|Hne].
    + rewrite (pic_set_eq q x' x) in Hy by done. simplify_eq. by apply Hmbs.
    + rewrite pic_set_ne in Hy by (try done; lia). by apply (iv_mbs q).
  - intros q y Hq Hy. destruct (decide (p = q)) as [->|Hne].
    + rewrite (pic_set_eq q x' x) in Hy by done. simplify_eq. by apply Hcmd, (iv_commands q).
    + rewrite pic_set_ne in Hy by (try done; lia). by apply (iv_commands q).
  - intros q. change (mFrameStore (pic_set p x' s)) with (mFrameStore s). rewrite Hown. case_bool_decide as Hqp.
    + subst q. split; [intros Hu; exists x'; split; [done|]; split; [by eapply pic_set_eq|done]|].
      intros (y & _ & Hy & Hu). rewrite (pic_set_eq p x' x) in Hy by done. by simplify_eq.
    + rewrite iv_own_used. by rewrite pic_set_ne by (try done; lia).
Qed.

Lemma inv_set_store ex ex' s k f f' : inv fx m ex (Some k) s → 0 ≤ k < DPB_SIZE_MAX → store s k = Some f → f_index f' = f_index f →
  own_store f ++ ex ≡ₚ own_store f' ++ ex' → inv fx m ex' (Some k) (store_set k f' s).
Proof.
  intros HI Hk Hf Hnum Hperm. destruct HI. destruct (owned_set _ _ _ f' Hk Hf) as (r & H1 & H2).
  assert (owned (mFrameStore (store_set k f' s)) ++ ex' ≡ₚ owned (mFrameStore s) ++ ex) as HP.
  { change (mFrameStore (store_set k f' s)) with (<[Z.to_nat k:=f']> (mFrameStore s)). rewrite H1, H2.
    rewrite <- !app_assoc, !(Permutation_app_comm r), !app_assoc. by rewrite Hperm. }
  split; try done.
  - cbn. by rewrite zlen_insert.
  - intros j g Hj Hne Hg. rewrite store_set_ne in Hg by (try (by intros ->); lia). by apply iv_used.
  - intros j g Hj Hne Hg. rewrite store_set_ne in Hg by (try (by intros ->); lia). by apply (iv_shape j).
  - intros i j g Hi Hj Hg. destruct (decide (k = j)) as [->|Hne]; [rewrite (store_set_eq j f' f) in Hg by done; simplify_eq; rewrite Hnum; by eapply iv_number|].
    rewrite store_set_ne in Hg by (try done; lia). by eapply iv_number.
  - by rewrite HP.
  - intros p. rewrite HP. apply iv_own_used.
Qed.

Lemma inv_open ex X s : inv fx m ex None s → inv fx m ex X s.
Proof. intros []. split; try done; intros; [by apply iv_used|by eapply iv_shape]. Qed.

Lemma inv_close ex s k f : inv fx m ex (Some k) s → store s k = Some f → shape m f → (f_is_used f ≠ 0 ↔ ∃ i, at_pos (mDPB s) i k) → inv fx m ex None s.
Proof.
  intros HI Hf Hsh Hu. destruct HI. split; try done; intros j g Hj _ Hg; (destruct (decide (j = k)) as [->|Hne]; [by simplify_eq|]);
    [apply iv_used|eapply iv_shape]; try done; congruence.
Qed.

(** ** Taking a picture *)

Lemma first_unused_spec l : ∀ i, match first_unused l i with
  | Some p => ∃ j x, p = i + Z.of_nat j ∧ l !! j = Some x ∧ p_is_used x = false
  | None => ∀ j x, l !! j = Some x → p_is_used x = true end.
Proof.
  induction l as [|x l IH]; intros i; cbn [first_unused]; [done|]. destruct (p_is_used x) eqn:Hx.
  - specialize (IH (i + 1)). destruct (first_unused l (i + 1)) as [p|].
    + destruct IH as (j & y & -> & Hy & Hu). exists (S j), y. split; [lia|done].
    + intros [|j] y Hy; [cbn in Hy; congruence|by eapply IH].
  - exists O, x. split; [lia|done].
Qed.

(** More pictures than the frame stores and [ex] can hold. *)
Lemma pool_not_full ex X s : inv fx m ex X s → (length ex < 32)%nat →
  ∃ p x, first_unused (take (Z.to_nat MAX_PIC_BUF_NUM) (m_PIC s)) 0 = Some p ∧ 0 ≤ p < MAX_PIC_BUF_NUM ∧ pic s p = Some x ∧ p_is_used x = false.
Proof.
  intros HI Hex. pose proof (first_unused_spec (take (Z.to_nat MAX_PIC_BUF_NUM) (m_PIC s)) 0) as H.
  pose proof (iv_pics HI) as Hlen. unfold zlen in Hlen. destruct (first_unused _ 0) as [p|].
  - destruct H as (j & x & -> & Hj & Hu). apply lookup_take_Some in Hj as [Hj Hlt]. exists (0 + Z.of_nat j), x. split_and!; try done; [lia|lia|].
    replace (0 + Z.of_nat j) with (Z.of_nat j) by lia. by rewrite aget_nat.
  - exfalso. assert (length (owned (mFrameStore s) ++ ex) < Z.to_nat MAX_PIC_BUF_NUM)%nat as Hlt.
    { rewrite length_app. pose proof (owned_length (mFrameStore s) 3 (fun f _ => own_store_length f)). unfold MAX_PIC_BUF_NUM, DPB_SIZE_MAX in *. lia. }
    assert (∀ i : nat, (i < Z.to_nat MAX_PIC_BUF_NUM)%nat → Z.of_nat i ∈ owned (mFrameStore s) ++ ex) as Hall.
    { intros i Hi. destruct (lookup_lt_is_Some_2 (m_PIC s) i) as [x Hx]; [lia|]. apply (iv_own_used HI). exists x. split; [lia|].
      rewrite aget_nat. split; [done|]. apply (H i). apply lookup_take_Some. done. }
    assert (Z.of_nat <$> seq 0 (Z.to_nat MAX_PIC_BUF_NUM) ⊆ owned (mFrameStore s) ++ ex) as Hsub.
    { intros p (i & -> & Hi)%list_elem_of_fmap. apply elem_of_seq in Hi. apply Hall. lia. }
    assert ((Z.of_nat <$> seq 0 (Z.to_nat MAX_PIC_BUF_NUM)) ⊆+ owned (mFrameStore s) ++ ex) as Hsm.
    { apply NoDup_submseteq; [|done]. apply NoDup_fmap_2; [intros ? ?; lia|apply NoDup_seq]. }
    apply submseteq_length in Hsm. rewrite length_fmap, length_seq in Hsm. lia.
Qed.

Lemma owned_in_use ex X s p x : inv fx m ex X s → 0 ≤ p < MAX_PIC_BUF_NUM → pic s p = Some x → p_is_used x = false → p ∉ owned (mFrameStore s) ++ ex.
Proof. intros HI Hp Hx Hu Hin. apply (iv_own_used HI) in Hin as (y & _ & Hy & ?). congruence. Qed.

Lemma get_new_pic_wp ex X s st (R : option Z → h264_dpb_stru → Prop) E : inv fx m ex X s → (length ex < 32)%nat →
  (∀ p x, 0 ≤ p < MAX_PIC_BUF_NUM → pic s p = Some x → p_is_used x = false → p ∉ owned (mFrameStore s) ++ ex →
    inv fx m (p :: ex) X (pic_set p (fresh_pic st m x) s) → R (Some p) (pic_set p (fresh_pic st m x) s)) →
  wp False (get_new_pic st) R E s.
Proof.
  intros HI Hex HR. destruct (pool_not_full ex X s HI Hex) as (p & x & Hfirst & Hp & Hx & Hu). unfold get_new_pic. wp_step. wp_step. rewrite Hfirst.
  destruct (iv_sps HI) as [-> ->]. wp_step. eapply upd_pic_wp; [done|]. wp_step. pose proof (owned_in_use _ _ _ _ _ HI Hp Hx Hu) as Hnin.
  apply HR; try done. eapply inv_set_pic; [done|done|done|by destruct x|by destruct x|by destruct x| |].
  - rewrite Permutation_app_comm. cbn. constructor; [|rewrite Permutation_app_comm; apply (iv_own HI)]. by rewrite (Permutation_app_comm ex).
  - intros q. replace (p_is_used (fresh_pic st m x)) with true by by destruct x. case_bool_decide as Hq; [subst; set_solver|set_solver].
Qed.

(** ** Giving pictures back *)

(** [s'] is [s] with the pictures [ps] not in use. *)
Record freed (ps : list Z) s s' : Prop := {
  fr_state : s' = s <| m_PIC := m_PIC s' |>;
  fr_len : zlen (m_PIC s') = zlen (m_PIC s);
  fr_pics : ∀ q x, pic s q = Some x → pic s' q = Some (if bool_decide (q ∈ ps) then x <| p_is_used := false |> else x)
}.

Lemma freed_nil s : freed [] s s.
Proof. split; [by destruct s|done|]. intros q x Hq. by rewrite bool_decide_eq_false_2 by set_solver. Qed.

Lemma freed_app ps qs s s1 s2 : freed ps s s1 → freed qs s1 s2 → freed (ps ++ qs) s s2.
Proof.
  intros [A1 A2 A3] [B1 B2 B3]. split; [rewrite B1, A1; by destruct s|congruence|]. intros q x Hq. rewrite (B3 _ _ (A3 _ _ Hq)). f_equal.
  repeat case_bool_decide; try done; set_solver.
Qed.

Lemma freed_pic_inv ps s s' q y : freed ps s s' → pic s' q = Some y → ∃ x, pic s q = Some x ∧ y = if bool_decide (q ∈ ps) then x <| p_is_used := false |> else x.
Proof.
  intros [_ Hlen H] Hy. pose proof (aget_inv _ _ _ Hy) as [Hr _]. rewrite Hlen in Hr. destruct (aget_Some _ _ Hr) as [x Hx]. exists x. split; [done|].
  rewrite (H _ _ Hx) in Hy. congruence.
Qed.

Lemma freed_store ps s s' k f : freed ps s s' → freed ps (store_set k f s) (store_set k f s').
Proof. intros [H1 H2 H3]. split; [rewrite H1; by destruct s|done|done]. Qed.

(** The pictures of a state can be freed. *)
Definition freeable (ps : list Z) s : Prop := ∀ p, p ∈ ps → 0 ≤ p < MAX_PIC_BUF_NUM ∧ ∃ x, pic s p = Some x ∧ p_index x = p.

Lemma freeable_freed ps qs s s' : freeable ps s → freed qs s s' → freeable ps s'.
Proof.
  intros H Hf p Hp. destruct (H p Hp) as (Hr & x & Hx & Hi). split; [done|]. eexists. split; [by apply (fr_pics _ _ _ Hf)|]. by case_bool_decide.
Qed.

Lemma free_picture_wp s o (R : unit → h264_dpb_stru → Prop) E : freeable (opt_list o) s → (∀ s', freed (opt_list o) s s' → R tt s') → wp False (free_picture o) R E s.
Proof.
  intros Hf HR. unfold free_picture. destruct o as [p|]; [|wp_step; apply HR, freed_nil]. destruct (Hf p) as (Hr & x & Hx & Hi); [cbn; set_solver|].
  wp_step. eapply pic_at_wp; [done|]. rewrite Hi. rewrite (proj2 (Z.ltb_ge _ _)), (proj2 (Z.leb_gt _ _)) by lia. cbn [orb].
  eapply upd_pic_wp; [done|]. apply HR. split; [done|cbn; apply zlen_insert|]. intros q y Hq. case_bool_decide as Hin.
  - assert (q = p) as -> by (cbn in Hin; set_solver). simplify_eq. by eapply pic_set_eq.
  - rewrite pic_set_ne; [done|lia|]. intros ->. apply Hin. cbn. set_solver.
Qed.

Lemma inv_freed ps ex X s s' : inv fx m (ps ++ ex) X s → freed ps s s' → inv fx m ex X s'.
Proof.
  intros HI Hf. destruct HI. pose proof Hf as [E1 E2 E3].
  assert (mFrameStore s' = mFrameStore s ∧ mDPB s' = mDPB s ∧ mVideo s' = mVideo s ∧ mSPS s' = mSPS s ∧ mSlice s' = mSlice s ∧
    colocated_buf_count s' = colocated_buf_count s ∧ fixed_of s' = fixed_of s) as (F1 & F2 & F3 & F4 & F5 & F6 & F7) by (rewrite E1; by destruct s).
  assert (owned (mFrameStore s) ++ ps ++ ex ≡ₚ ps ++ owned (mFrameStore s) ++ ex) as HP by (rewrite !app_assoc; by rewrite (Permutation_app_comm ps)).
  assert (NoDup ps ∧ (∀ q, q ∈ ps → q ∉ owned (mFrameStore s) ++ ex) ∧ NoDup (owned (mFrameStore s) ++ ex)) as (_ & Hdisj & Hnd) by (apply NoDup_app; by rewrite <- HP).
  split; rewrite ?F1, ?F2, ?F3, ?F4, ?F5, ?F6, ?F7; try done; try congruence.
  - intros q y Hq Hy. destruct (freed_pic_inv _ _ _ _ _ Hf Hy) as (x & Hx & ->). assert (p_index x = q) as Hi by (by apply iv_index). case_bool_decide; [by destruct x|done].
  - intros q y Hq Hy. destruct (freed_pic_inv _ _ _ _ _ Hf Hy) as (x & Hx & ->). case_bool_decide; [by destruct x|]. by apply (iv_mbs q).
  - intros q y Hq Hy. destruct (freed_pic_inv _ _ _ _ _ Hf Hy) as (x & Hx & ->). assert (commands_ok x) by (by apply (iv_commands q)). by case_bool_decide.
  - intros q. split.
    + intros Hin. destruct (proj1 (iv_own_used q)) as (x & Hr & Hx & Hu); [rewrite HP; set_solver|]. exists x. split; [done|].
      rewrite (E3 _ _ Hx). rewrite bool_decide_eq_false_2; [done|]. intros Hps. by eapply Hdisj.
    + intros (y & Hr & Hy & Hu). destruct (freed_pic_inv _ _ _ _ _ Hf Hy) as (x & Hx & ->). case_bool_decide as Hps; [by destruct x|].
      assert (q ∈ owned (mFrameStore s) ++ ps ++ ex) as Hin by (apply iv_own_used; by exists x). set_solver.
Qed.
End Change.
