(* ===== verification/H264Fill.v ===== *)
(** Putting a picture into a frame store of the H.264 decoded picture buffer
    (src/drivers/frame_provider/decoder/h264_multi/h264_dpb.c), and emptying
    one, keep the invariant. *)

From stdpp Require Import base list numbers sorting gmap.
From Stdlib Require Import ZArith Lia Bool.
From S2P Require Import Prelude H264Types H264Pool H264Inv H264PoolOk.

#[local] Open Scope Z_scope.

(** Changes of members the invariant does not read. *)
Ltac inv_same HI := destruct HI; split; done.

Section Fill.
Context (fx : fixed) (m : bool) (keep : list Z) (k : Z) (Hk : 0 ≤ k < DPB_SIZE_MAX).
Implicit Types (s : h264_dpb_stru) (ex : list Z) (d : DecodedPictureBuffer) (f : FrameStore) (E : Z → h264_dpb_stru → Prop).

(** Frame store [k] is being changed and holds [f]; the pictures [keep] stay as
    they are. *)
Record filling ex d f s : Prop := {
  fl_inv : inv fx m ex (Some k) s;
  fl_store : store s k = Some f;
  fl_dpb : mDPB s = d;
  fl_keep : ∀ p, p ∈ keep → p ∈ own_store f ++ ex ∧ stored m s p
}.

(** A picture of the pool that is in use. *)
Lemma inv_pic ex X s p : inv fx m ex X s → p ∈ owned (mFrameStore s) ++ ex → ∃ x, pic s p = Some x ∧ p_frame_mbs_only_flag x = m.
Proof. intros HI Hp. apply (iv_own_used HI) in Hp as (x & Hr & Hx & Hu). exists x. split; [done|]. by apply (iv_mbs HI p). Qed.

Lemma store_owned s f p : store s k = Some f → p ∈ own_store f → p ∈ owned (mFrameStore s).
Proof.
  intros Hf Hp. apply aget_inv in Hf as [_ Hf]. apply list_elem_of_bind. exists f. split; [done|]. apply list_elem_of_lookup. exists (Z.to_nat k).
  rewrite lookup_take_lt by (unfold DPB_SIZE_MAX in *; lia). done.
Qed.

Lemma filling_pic ex d f s p : filling ex d f s → p ∈ own_store f ++ ex → ∃ x, pic s p = Some x ∧ p_frame_mbs_only_flag x = m.
Proof.
  intros [HI Hf _ _] Hp. eapply inv_pic; [done|]. rewrite elem_of_app in Hp |- *. destruct Hp as [Hp|Hp]; [left; by eapply store_owned|by right].
Qed.

Lemma stored_pic_set s p q x x' : stored m s q → pic s p = Some x → le_pic x x' → stored m (pic_set p x' s) q.
Proof.
  intros (y & Hy & Hm) Hx Hle. pose proof (aget_inv _ _ _ Hx) as [Hr _]. destruct (decide (p = q)) as [->|Hne].
  - exists x'. split; [by eapply pic_set_eq|]. rewrite (lp_structure _ _ Hle). by simplify_eq.
  - exists y. split; [|done]. by rewrite pic_set_ne by (try done; lia).
Qed.

Lemma pic_at_fill ex d f s p (R : StorablePicture → h264_dpb_stru → Prop) E : filling ex d f s → p ∈ own_store f ++ ex →
  (∀ x, pic s p = Some x → p_frame_mbs_only_flag x = m → R x s) → wp False (pic_at (Some p)) R E s.
Proof. intros Hs Hp HR. destruct (filling_pic _ _ _ _ _ Hs Hp) as (x & Hx & Hm). eapply pic_at_wp; [done|]. by apply HR. Qed.

Lemma fs_at_fill ex d f s (R : FrameStore → h264_dpb_stru → Prop) E : filling ex d f s → R f s → wp False (fs_at (Some k)) R E s.
Proof. intros [] HR. by eapply fs_at_wp. Qed.

Lemma upd_pic_fill ex d f s p g (R : unit → h264_dpb_stru → Prop) E : filling ex d f s → p ∈ own_store f ++ ex → (∀ x, le_pic x (g x)) →
  (∀ s', filling ex d f s' → R tt s') → wp False (upd_pic (Some p) g) R E s.
Proof.
  intros Hs Hp Hle HR. destruct (filling_pic _ _ _ _ _ Hs Hp) as (x & Hx & Hm). eapply upd_pic_wp; [done|]. destruct Hs as [HI Hf Hd Hkp]. apply HR.
  split; [|done|done|].
  - eapply inv_steady; [done|by eapply steady_pic|]. apply (iv_refs HI).
  - intros q Hq. destruct (Hkp q Hq) as [? Hst]. split; [done|]. eapply stored_pic_set; [done|done|done].
Qed.

Lemma upd_fs_fill ex ex' d f s g (R : unit → h264_dpb_stru → Prop) E : filling ex d f s → f_index (g f) = f_index f → own_store f ++ ex ≡ₚ own_store (g f) ++ ex' →
  (∀ s', filling ex' d (g f) s' → R tt s') → wp False (upd_fs (Some k) g) R E s.
Proof.
  intros [HI Hf Hd Hkp] Hnum Hperm HR. eapply upd_fs_wp; [done|]. apply HR. split; [by eapply inv_set_store|by eapply store_set_eq|done|].
  intros q Hq. rewrite <- Hperm. by apply Hkp.
Qed.

Lemma get_new_pic_fill ex d f s st (R : option Z → h264_dpb_stru → Prop) E : filling ex d f s → (length ex < 32)%nat →
  (∀ p s', filling (p :: ex) d f s' → R (Some p) s') → wp False (get_new_pic st) R E s.
Proof.
  intros [HI Hf Hd Hkp] Hex HR. eapply get_new_pic_wp; [done|done|]. intros p x Hp Hx Hu Hnin HI'. apply HR. split; [done|done|done|].
  intros q Hq. destruct (Hkp q Hq) as [Hin (y & Hy & Hst)]. split; [rewrite elem_of_app in Hin |- *; destruct Hin; [by left|by right; right]|].
  exists y. split; [|done]. rewrite pic_set_ne; [done|lia|]. intros ->. apply Hnin. rewrite elem_of_app in Hin |- *. destruct Hin as [Hin|Hin]; [left; by eapply store_owned|by right].
Qed.

Lemma le_field_of frame poc o top btm x : le_pic x (field_of frame poc o top btm x).
Proof. by destruct x. Qed.

(** The fields a frame store keeps while its pictures' views are made. *)
Definition same_marks (f f' : FrameStore) : Prop :=
  f_is_used f' = f_is_used f ∧ f_is_reference f' = f_is_reference f ∧ f_frame f' = f_frame f.

(** [dpb_split_field]: a frame store with a frame only gets its two fields. *)
Lemma split_fill ex d f s o (R : unit → h264_dpb_stru → Prop) E : filling ex d f s → (length ex < 31)%nat → own_store f = [o] → f_frame f = Some o →
  (∀ f' s', filling ex d f' s' → same_marks f f' → o ∈ own_store f' →
     (if m then f_top_field f' = None ∧ f_bottom_field f' = None else is_Some (f_top_field f') ∧ is_Some (f_bottom_field f')) → R tt s') →
  wp False (dpb_split_field (Some k)) R E s.
Proof.
  intros Hs Hex Hown Hfr HR. assert (f_top_field f = None ∧ f_bottom_field f = None) as [Ht Hb].
  { unfold own_store in Hown. rewrite Hfr in Hown. by destruct (f_top_field f), (f_bottom_field f). }
  assert (∀ f', f_frame f' = Some o → f_top_field f' = None → f_bottom_field f' = None → own_store f' = [o]) as Hown1.
  { unfold own_store. by intros f' -> -> ->. }
  unfold dpb_split_field. wp_step. eapply fs_at_fill; [done|]. cbv zeta. rewrite Hfr. wp_step. eapply pic_at_fill; [done|rewrite Hown; by left|]. intros x Hx Hm.
  wp_step. eapply (upd_fs_fill ex ex); [done|done|done|]. intros s1 H1. rewrite Hm. destruct m; cbn [negb].
  - wp_step. eapply (upd_fs_fill ex ex); [done|done|by rewrite !Hown1|]. intros s2 H2. eapply upd_pic_fill; [done|rewrite Hown1 by done; by left|by intros []|].
    intros s3 H3. eapply HR; [done|done|rewrite Hown1 by done; by left|done].
  - wp_step. eapply get_new_pic_fill; [done|lia|]. intros t s2 H2. wp_step. eapply (upd_fs_fill _ ex); [done|done| |].
    { unfold own_store. cbn. by rewrite Hfr, Ht, Hb. }
    intros s3 H3. wp_step. eapply get_new_pic_fill; [done|lia|]. intros b s4 H4. wp_step. eapply (upd_fs_fill _ ex); [done|done| |].
    { unfold own_store. cbn. by rewrite Hfr, Hb. }
    intros s5 H5. rewrite !bool_decide_eq_false_2 by done. cbn [orb]. match type of H5 with filling _ _ ?f _ => set (f5 := f) in * end.
    assert (own_store f5 = [o; t; b]) as Ho5 by (unfold f5, own_store; cbn; by rewrite Hfr).
    wp_step. eapply upd_pic_fill; [done|rewrite Ho5; by right; left|apply le_field_of|]. intros s6 H6.
    wp_step. eapply upd_pic_fill; [done|rewrite Ho5; by right; right; left|apply le_field_of|]. intros s7 H7.
    wp_step. eapply (upd_fs_fill _ ex); [done|done|done|]. intros s8 H8. match type of H8 with filling _ _ ?f _ => set (f8 := f) in * end.
    assert (own_store f8 = [o; t; b]) as Ho8 by done.
    eapply upd_pic_fill; [done|rewrite Ho8; by left|by intros []|]. intros s9 H9.
    eapply HR; [done|done|rewrite Ho8; by left|done].
Qed.
(** A frame store with all three views, [o] its frame. *)
Definition with_views (o t b : Z) (u r : Z) (f : FrameStore) : Prop :=
  f_frame f = Some o ∧ f_top_field f = Some t ∧ f_bottom_field f = Some b ∧ f_is_used f = u ∧ f_is_reference f = r.

Lemma views_own o t b u r f : with_views o t b u r f → own_store f = [o; t; b].
Proof. intros (H1 & H2 & H3 & _). unfold own_store. by rewrite H1, H2, H3. Qed.

Definition viewed ex d o t b u r s : Prop := ∃ f, filling ex d f s ∧ with_views o t b u r f.

Section Views.
Context (ex : list Z) (d : DecodedPictureBuffer) (o t b u r : Z).
Implicit Types (R : unit → h264_dpb_stru → Prop).
Notation ok := (viewed ex d o t b u r).

Lemma fs_at_view s (R : FrameStore → h264_dpb_stru → Prop) E : ok s → (∀ f, with_views o t b u r f → R f s) → wp False (fs_at (Some k)) R E s.
Proof. intros (f & Hs & Hf) HR. eapply fs_at_fill; [done|]. by apply HR. Qed.

Lemma pic_at_view s p (R : StorablePicture → h264_dpb_stru → Prop) E : ok s → p ∈ [o; t; b] → (∀ x, R x s) → wp False (pic_at (Some p)) R E s.
Proof. intros (f & Hs & Hf) Hp HR. eapply pic_at_fill; [done|rewrite (views_own _ _ _ _ _ _ Hf); set_solver|]. intros x _ _. apply HR. Qed.

Lemma upd_pic_view s p g R E : ok s → p ∈ [o; t; b] → (∀ x, le_pic x (g x)) → (∀ s', ok s' → R tt s') → wp False (upd_pic (Some p) g) R E s.
Proof.
  intros (f & Hs & Hf) Hp Hle HR. eapply upd_pic_fill; [done|rewrite (views_own _ _ _ _ _ _ Hf); set_solver|done|]. intros s' Hs'. apply HR. by exists f.
Qed.

Lemma upd_fs_view s g R E : ok s → (∀ f, f_index (g f) = f_index f) → (∀ f, with_views o t b u r f → with_views o t b u r (g f)) → (∀ s', ok s' → R tt s') → wp False (upd_fs (Some k) g) R E s.
Proof.
  intros (f & Hs & Hf) Hnum Hg HR. eapply (upd_fs_fill ex ex); [done|done|by rewrite (views_own _ _ _ _ _ _ Hf), (views_own _ _ _ _ _ _ (Hg _ Hf))|].
  intros s' Hs'. apply HR. exists (g f). split; [done|by apply Hg].
Qed.

(** Steps on a frame store with three views. *)
Ltac view_step := first
  [ wp_step
  | apply fs_at_view; [done|]; let f := fresh "f" in let H1 := fresh in let H2 := fresh in let H3 := fresh in
    intros f (H1 & H2 & H3 & _); rewrite ?H1, ?H2, ?H3; clear H1 H2 H3
  | apply pic_at_view; [done|set_solver|]; intros ?
  | apply upd_pic_view; [done|set_solver|intros []; done|]; intros ? ?
  | apply upd_fs_view; [done|done|intros []; done|]; intros ? ?
  | solve [auto] ].

Lemma combine_data_view s R E : ok s → (∀ s', ok s' → R tt s') → wp False (combine_data (Some k)) R E s.
Proof. intros Hs HR. unfold combine_data. repeat view_step. Qed.

Lemma combine_pocs_view s R E : ok s → (∀ s', ok s' → R tt s') → wp False (combine_pocs (Some k)) R E s.
Proof. intros Hs HR. unfold combine_pocs. repeat view_step. Qed.

Lemma combine_links_view s R E : ok s → (∀ s', ok s' → R tt s') → wp False (combine_links (Some k)) R E s.
Proof. intros Hs HR. unfold combine_links. repeat view_step. Qed.

Lemma combine_pts_view s R E : ok s → (∀ s', ok s' → R tt s') → wp False (combine_pts (Some k)) R E s.
Proof. intros Hs HR. unfold combine_pts. repeat view_step. Qed.
End Views.
(** [dpb_combine_field] on a frame store that has just got its second field. *)
Lemma combine_fill ex d f s t b (R : unit → h264_dpb_stru → Prop) E : filling ex d f s → (length ex < 32)%nat →
  f_frame f = None → f_top_field f = Some t → f_bottom_field f = Some b →
  (∀ o s', viewed ex d o t b (f_is_used f) (f_is_reference f) s' → R tt s') → wp False (dpb_combine_field (Some k)) R E s.
Proof.
  intros Hs Hex Hfr Ht Hb HR. unfold dpb_combine_field. wp_step. eapply fs_at_fill; [done|]. rewrite Hfr, bool_decide_eq_true_2 by done. cbn [when].
  wp_step. wp_step. eapply get_new_pic_fill; [done|done|]. intros o s1 H1. eapply (upd_fs_fill _ ex); [done|done| |].
  { unfold own_store. cbn. by rewrite Hfr, Ht, Hb, <- Permutation_middle. }
  intros s2 H2. set (u := f_is_used f) in *. set (r := f_is_reference f) in *.
  assert (viewed ex d o t b u r s2) as Hv by (eexists; split; [done|done]).
  wp_step. eapply fs_at_view; [done|]. intros f3 (E1 & _). rewrite E1, bool_decide_eq_false_2 by done.
  wp_step. eapply combine_data_view; [done|]. intros s3 H3. wp_step. eapply combine_pocs_view; [done|]. intros s4 H4.
  wp_step. eapply combine_links_view; [done|]. intros s5 H5. eapply combine_pts_view; [done|]. intros s6 H6. by eapply HR.
Qed.

(** A frame store that has taken picture [o]. *)
Definition inserted ex d (o : Z) s : Prop := ∃ f, filling ex d f s ∧ shape m f ∧ f_is_used f ≠ 0 ∧ o ∈ own_store f.

Lemma shape_empty f : shape m f → f_is_used f = 0 → own_store f = [] ∧ f_is_reference f = 0.
Proof.
  intros [Hp Hr Hm] Hu. rewrite Hu, Z.land_0_r in Hm. destruct Hp as [(_ & H)|[(_ & H & _)|[(_ & H & _)|(H & _)]]]; try congruence. by split.
Qed.

Lemma own_nil f : own_store f = [] → f_frame f = None ∧ f_top_field f = None ∧ f_bottom_field f = None.
Proof. unfold own_store. by destruct (f_frame f), (f_top_field f), (f_bottom_field f). Qed.

Lemma insert_marks_pics mark p f : own_store (insert_marks mark p f) = own_store f ∧ f_is_used (insert_marks mark p f) = f_is_used f ∧
  f_frame (insert_marks mark p f) = f_frame f ∧ f_top_field (insert_marks mark p f) = f_top_field f ∧ f_bottom_field (insert_marks mark p f) = f_bottom_field f ∧
  f_index (insert_marks mark p f) = f_index f ∧
  (f_is_reference (insert_marks mark p f) = f_is_reference f ∨ f_is_reference (insert_marks mark p f) = mark (f_is_reference f)).
Proof. unfold insert_marks. destruct (p_used_for_reference p), (p_is_long_term p); split_and!; auto. Qed.

Lemma land_range x : 0 ≤ x ≤ 3 → Z.land x 3 = x.
Proof. intros Hx. change 3 with (Z.ones 2). rewrite Z.land_ones by lia. apply Z.mod_small. lia. Qed.

Lemma insert_frame_fill ex d f s o x (R : unit → h264_dpb_stru → Prop) E : filling (o :: ex) d f s → (length ex < 31)%nat → shape m f → f_is_used f = 0 →
  (∀ s', inserted ex d o s' → R tt s') → wp False (insert_frame (Some k) (Some o) x) R E s.
Proof.
  intros Hs Hex Hsh Hu HR. destruct (shape_empty f Hsh Hu) as [Hown Href]. destruct (own_nil f Hown) as (N1 & N2 & N3). unfold insert_frame.
  match goal with |- context [upd_fs _ ?h] => set (g := h) end.
  assert (own_store (g f) = [o] ∧ f_is_used (g f) = 3 ∧ f_frame (g f) = Some o ∧ f_top_field (g f) = None ∧ f_bottom_field (g f) = None ∧ 0 ≤ f_is_reference (g f) ≤ 3 ∧
    f_index (g f) = f_index f) as (G1 & G2 & G3 & G4 & G5 & G6 & G7).
  { unfold g. match goal with |- context [insert_marks ?a ?b ?c] => destruct (insert_marks_pics a b c) as (-> & -> & -> & -> & -> & -> & Hr) end.
    unfold own_store. cbn in *. rewrite N2, N3. split_and!; try done; destruct Hr as [->| ->]; lia. }
  clearbody g. wp_step. eapply (upd_fs_fill _ ex); [done|done|by rewrite Hown, G1|]. intros s1 H1.
  eapply split_fill; [done|done|done|done|]. intros f' s' H' (E1 & E2 & E3) Hin Hviews. apply HR. exists f'. split; [done|]. split; [|split; [lia|done]].
  split; [|lia|rewrite E1, E2, G2; by apply land_range]. right. right. right. split; [by rewrite E1|]. split; [by rewrite E3, G3|done].
Qed.

Lemma lor_mask x c : 0 ≤ x ≤ 3 → c = 1 ∨ c = 2 → 0 ≤ Z.lor x c ≤ 3.
Proof. intros Hx [->| ->]; (assert (x = 0 ∨ x = 1 ∨ x = 2 ∨ x = 3) as [->|[->|[->| ->]]] by lia); vm_compute; split; congruence. Qed.
(** A frame store with field [o] of mask [c] in place, before the masks are
    updated. *)
Definition has_field (c o : Z) f : Prop :=
  f_frame f = None ∧ 0 ≤ f_is_reference f ≤ 3 ∧
  ((c = 1 ∧ f_top_field f = Some o ∧ (f_is_used f = 0 ∧ f_bottom_field f = None ∧ f_is_reference f = 0 ∨ f_is_used f = 2 ∧ is_Some (f_bottom_field f))) ∨
   (c = 2 ∧ f_bottom_field f = Some o ∧ (f_is_used f = 0 ∧ f_top_field f = None ∧ f_is_reference f = 0 ∨ f_is_used f = 1 ∧ is_Some (f_top_field f)))).

Lemma insert_field_fill ex d f s o c x (R : unit → h264_dpb_stru → Prop) E : m = false → filling ex d f s → (length ex < 32)%nat → has_field c o f →
  (∀ s', inserted ex d o s' → R tt s') → wp False (insert_field (Some k) c x) R E s.
Proof.
  intros Hmf Hs Hex (Hfr & Href & Hf) HR. unfold insert_field. match goal with |- wp _ (upd_fs _ ?h ≫= _) _ _ _ => set (g := h) end.
  assert (own_store (g f) = own_store f ∧ f_is_used (g f) = Z.lor (f_is_used f) c ∧ f_frame (g f) = None ∧ f_top_field (g f) = f_top_field f ∧
    f_bottom_field (g f) = f_bottom_field f ∧ f_index (g f) = f_index f ∧
    (f_is_reference (g f) = f_is_reference f ∨ f_is_reference (g f) = Z.lor (f_is_reference f) c)) as (G1 & G2 & G3 & G4 & G5 & G7 & G6).
  { unfold g. cbv beta zeta. match goal with |- context [insert_marks ?a ?b ?c] => destruct (insert_marks_pics a b c) as (-> & -> & -> & -> & -> & -> & Hr) end.
    cbn in *. destruct (frame_size (f_info f) =? 0); cbn in *; split_and!; auto. }
  assert (0 ≤ f_is_reference (g f) ≤ 3) as Hrg.
  { destruct G6 as [->| ->]; [done|]. apply lor_mask; [done|]. destruct Hf as [[-> _]|[-> _]]; auto. }
  clearbody g. wp_step. eapply (upd_fs_fill ex ex); [done|done|by rewrite G1|]. intros s1 H1. wp_step. eapply fs_at_fill; [done|]. rewrite G2.
  assert (∀ t b s', f_is_used (g f) = 3 → o = t ∨ o = b → (∃ q, viewed ex d q t b (f_is_used (g f)) (f_is_reference (g f)) s') → inserted ex d o s') as Hboth.
  { intros t b s' Hu Ho (q & f' & Hs' & Hv). pose proof Hv as (V1 & V2 & V3 & V4 & V5). exists f'. split; [done|]. split; [|split; [lia|rewrite (views_own _ _ _ _ _ _ Hv); set_solver]].
    split; [|by rewrite V5|rewrite V4, V5, Hu; by apply land_range]. right. right. right. rewrite V1, V2, V3, Hmf. split; [lia|done]. }
  assert (∀ s', inserted ex d o s' → R tt s') as HR' by done. clear HR.
  destruct Hf as [(-> & Ht & [(Hu & Hb & Hz)|(Hu & b & Hb)])|(-> & Hb & [(Hu & Ht & Hz)|(Hu & t & Ht)])]; rewrite Hu in *; change (Z.lor 0 1) with 1 in *; change (Z.lor 2 1) with 3 in *; change (Z.lor 0 2) with 2 in *; change (Z.lor 1 2) with 3 in *;
    match goal with |- context [?a =? 3] => change (a =? 3) with false || change (a =? 3) with true end; cbv iota.
  - eapply (upd_fs_fill ex ex); [done|done|done|]. intros s2 H2. apply HR'. eexists. split; [done|]. unfold own_store. cbn. rewrite G2, G3, G4, G5, Ht, Hb. split; [|split; [lia|set_solver]].
    split; [right; left; cbn; rewrite G2, G3, G4, G5, Ht, Hb; by split_and!|done|]. cbn. rewrite G2. rewrite Hz in G6. by destruct G6 as [->| ->].
  - eapply (combine_fill _ _ _ _ o b); [done|done|done|by rewrite G4|by rewrite G5|]. intros q s2 H2. apply HR', (Hboth o b); [by rewrite G2|by left|by exists q].
  - eapply (upd_fs_fill ex ex); [done|done|done|]. intros s2 H2. apply HR'. eexists. split; [done|]. unfold own_store. cbn. rewrite G2, G3, G4, G5, Ht, Hb. split; [|split; [lia|set_solver]].
    split; [right; right; left; cbn; rewrite G2, G3, G4, G5, Ht, Hb; by split_and!|done|]. cbn. rewrite G2. rewrite Hz in G6. by destruct G6 as [->| ->].
  - eapply (combine_fill _ _ _ _ t o); [done|done|done|by rewrite G4|by rewrite G5|]. intros q s2 H2. apply HR', (Hboth t o); [by rewrite G2|by right|by exists q].
Qed.
(** The frame store a picture may be put into. *)
Definition goes (st : PictureStructure) f : Prop :=
  match st with
  | FRAME => f_is_used f = 0
  | TOP_FIELD => m = false ∧ (f_is_used f = 0 ∨ f_is_used f = 2)
  | BOTTOM_FIELD => m = false ∧ (f_is_used f = 0 ∨ f_is_used f = 1)
  end.

Lemma filling_same ex d f s s' : filling ex d f s → m_PIC s' = m_PIC s → mFrameStore s' = mFrameStore s → mDPB s' = mDPB s → active_sps (mVideo s') = active_sps (mVideo s) →
  mSPS s' = mSPS s → mSlice s' = mSlice s → colocated_buf_count s' = colocated_buf_count s → fixed_of s' = fixed_of s → filling ex d f s'.
Proof.
  intros [HI Hf Hd Hkp] E1 E2 E3 E4 E5 E6 E7 E8. split; [|by rewrite E2|congruence|unfold stored; by rewrite E1].
  destruct HI. split; rewrite ?E1, ?E2, ?E3, ?E4, ?E5, ?E6, ?E7, ?E8; done.
Qed.

Lemma inserted_rest ex d o s mv x (R : unit → h264_dpb_stru → Prop) E : inserted ex d o s → (∀ s', inserted ex d o s' → R tt s') →
  wp False (upd_fs (Some k) (insert_rest mv x)) R E s.
Proof.
  intros (f & Hs & Hsh & Hu & Hin) HR.
  assert (own_store (insert_rest mv x f) = own_store f ∧ f_is_used (insert_rest mv x f) = f_is_used f ∧ f_is_reference (insert_rest mv x f) = f_is_reference f ∧
    f_frame (insert_rest mv x f) = f_frame f ∧ f_top_field (insert_rest mv x f) = f_top_field f ∧ f_bottom_field (insert_rest mv x f) = f_bottom_field f) as (E1 & E2 & E3 & E4 & E5 & E6)
    by (destruct mv as [[]|]; done).
  eapply (upd_fs_fill ex ex); [done|by destruct mv as [[]|]|by rewrite E1|]. intros s' Hs'. apply HR. eexists. split; [done|]. rewrite E2, E1. split; [|done]. destruct Hsh as [S1 S2 S3].
  split; rewrite ?E2, ?E3; [|done|done]. unfold shape_pics. by rewrite E1, E2, E4, E5, E6.
Qed.

(** The switch of [insert_picture_in_dpb]. *)
Definition insert_by (ko o : option Z) (st : PictureStructure) (x : StorablePicture) : D unit :=
  match st with
  | FRAME => insert_frame ko o x
  | TOP_FIELD => upd_fs ko (fun f => f <| f_top_field := o |>);; insert_field ko 1 x
  | BOTTOM_FIELD => upd_fs ko (fun f => f <| f_bottom_field := o |>);; insert_field ko 2 x
  end.

Lemma insert_by_fill ex d f s o st x (R : unit → h264_dpb_stru → Prop) E : filling (o :: ex) d f s → (length ex < 31)%nat → shape m f → goes st f →
  (∀ s', inserted ex d o s' → R tt s') → wp False (insert_by (Some k) (Some o) st x) R E s.
Proof.
  intros Hs Hex Hsh Hgo HR. pose proof Hsh as [Hp Hr Hm]. pose proof (shape_empty f Hsh) as Hempty. destruct st; cbn in Hgo |- *.
  - by eapply insert_frame_fill.
  - destruct Hgo as [Hmf Hu]. assert (f_frame f = None ∧ f_top_field f = None ∧
      (f_is_used f = 0 ∧ f_bottom_field f = None ∧ f_is_reference f = 0 ∨ f_is_used f = 2 ∧ is_Some (f_bottom_field f))) as (V1 & V2 & V3).
    { destruct Hu as [Hu|Hu]; [destruct (Hempty Hu) as [(? & ? & ?)%own_nil ?]; by auto 10|].
      destruct Hp as [(Q & _)|[(_ & Q & _)|[(_ & Q & Q1 & Q2 & Q3)|(Q & _)]]]; try congruence. auto 10. }
    wp_step. eapply (upd_fs_fill _ ex); [done|done| |].
    { unfold own_store. cbn. rewrite V1, V2. cbn. by rewrite <- Permutation_middle. }
    intros s4 H4. eapply insert_field_fill; [done|done|lia| |done]. split; [done|]. split; [done|]. left. auto.
  - destruct Hgo as [Hmf Hu]. assert (f_frame f = None ∧ f_bottom_field f = None ∧
      (f_is_used f = 0 ∧ f_top_field f = None ∧ f_is_reference f = 0 ∨ f_is_used f = 1 ∧ is_Some (f_top_field f))) as (V1 & V2 & V3).
    { destruct Hu as [Hu|Hu]; [destruct (Hempty Hu) as [(? & ? & ?)%own_nil ?]; by auto 10|].
      destruct Hp as [(Q & _)|[(_ & Q & Q1 & Q2 & Q3)|[(_ & Q & _)|(Q & _)]]]; try congruence. auto 10. }
    wp_step. eapply (upd_fs_fill _ ex); [done|done| |].
    { unfold own_store. cbn. rewrite V1, V2. cbn. by rewrite app_nil_r, <- app_assoc. }
    intros s4 H4. eapply insert_field_fill; [done|done|lia| |done]. split; [done|]. split; [done|]. right. auto.
Qed.

(** [insert_picture_in_dpb]. *)
Lemma insert_picture_fill `{H264Driver} ex d f s o x df (R : unit → h264_dpb_stru → Prop) E : filling (o :: ex) d f s → (length ex < 31)%nat → shape m f →
  pic s o = Some x → goes (p_structure x) f → (∀ s', inserted ex d o s' → R tt s') → wp False (insert_picture_in_dpb (Some k) (Some o) df) R E s.
Proof.
  intros Hs Hex Hsh Hx Hgo HR. unfold insert_picture_in_dpb. wp_step. wp_step. set (s1 := s <| dpb_frame_count := _ |>).
  assert (filling (o :: ex) d f s1) as H1 by by eapply filling_same. assert (pic s1 o = Some x) as Hx1 by done. clearbody s1.
  wp_step. wp_step. wp_step. eapply upd_pic_wp; [done|].
  match goal with |- context [pic_set o ?y s1] => set (x2 := y) end. assert (p_structure x2 = p_structure x ∧ le_pic x x2) as [Est Hle] by done.
  set (s2 := pic_set o x2 s1). assert (pic s2 o = Some x2) as Hx2 by by eapply pic_set_eq.
  assert (filling (o :: ex) d f s2) as H2.
  { destruct H1 as [HI Hf Hd Hkp]. split; [|done|done|].
    - eapply inv_steady; [done|by eapply steady_pic|apply (iv_refs HI)].
    - intros q Hq. destruct (Hkp q Hq) as [? Hst]. split; [done|]. by eapply stored_pic_set. }
  clearbody x2 s2. wp_step. eapply pic_at_wp; [done|]. wp_step. eapply (upd_fs_fill _ (o :: ex)); [done|done|done|]. intros s3 H3.
  match type of H3 with filling _ _ ?g _ => assert (shape m g ∧ goes (p_structure x2) g) as (Hsh3 & Hgo3) end.
  { split; [by destruct Hsh; split|by rewrite Est]. }
  change (match p_structure x2 with FRAME => _ | TOP_FIELD => _ | BOTTOM_FIELD => _ end) with (insert_by (Some k) (Some o) (p_structure x2) x2).
  wp_step. eapply insert_by_fill; [done|done|done|done|]. intros s' (f' & Hf' & Hsh' & Hu' & Hin'). wp_step.
  eapply pic_at_fill; [done|set_solver|]. intros y _ _. eapply inserted_rest; [by exists f'|done].
Qed.
(** *** Emptying a frame store *)

Lemma owned_freeable ex d f s ps : filling ex d f s → (∀ p, p ∈ ps → p ∈ own_store f) → freeable ps s.
Proof.
  intros [HI Hf _ _] Hps p Hp. assert (p ∈ owned (mFrameStore s) ++ ex) as Ho by (rewrite elem_of_app; left; by eapply store_owned; [|apply Hps]).
  apply (iv_own_used HI) in Ho as (x & Hr & Hx & _). split; [done|]. exists x. split; [done|]. by apply (iv_index HI).
Qed.

(** The pictures of the frame store are freed, its pointers cleared. *)
Lemma emptied_fill ex d f s s' f' : filling ex d f s → (∀ p, p ∈ keep → p ∈ ex) → freed (own_store f) s s' → own_store f' = [] → f_index f' = f_index f → filling ex d f' (store_set k f' s').
Proof.
  intros [HI Hf Hd Hkp] Hex Hfr Hf' Hnum. pose proof Hfr as [E1 E2 E3]. split.
  - eapply (inv_freed fx m (own_store f) ex (Some k) (store_set k f' s)); [|by apply freed_store].
    eapply (inv_set_store fx m ex (own_store f ++ ex)); [done|done|done|done|]. by rewrite Hf'.
  - eapply store_set_eq. rewrite E1. exact Hf.
  - rewrite <- Hd. by rewrite E1.
  - intros q Hq. destruct (Hkp q Hq) as [_ (x & Hx & Hst)]. split; [rewrite elem_of_app; right; by apply Hex|].
    eexists. split; [by apply (E3 _ _ Hx)|]. by case_bool_decide.
Qed.

Lemma free_pictures_fill ex d f s (R : unit → h264_dpb_stru → Prop) E : filling ex d f s → (∀ p, p ∈ keep → p ∈ ex) → shape m f →
  (∀ f' s', filling ex d f' s' → own_store f' = [] → R tt s') → wp False (free_pictures (Some k)) R E s.
Proof.
  intros Hs Hex Hsh HR. unfold free_pictures. wp_step. eapply fs_at_fill; [done|].
  assert (∀ s1 ps g (R' : unit → h264_dpb_stru → Prop), freed ps s s1 → ps = own_store f → own_store (g f) = [] → f_index (g f) = f_index f →
    (∀ f' s', filling ex d f' s' → own_store f' = [] → R' tt s') → wp False (upd_fs (Some k) g) R' E s1) as Hclear.
  { intros s1 ps g R' Hfr -> Hg Hnum HR'. pose proof Hfr as [E1 _ _]. eapply upd_fs_wp; [rewrite E1; exact (fl_store _ _ _ _ Hs)|].
    eapply HR'; [by eapply emptied_fill|done]. }
  assert (∀ s1 ps o (R' : unit → h264_dpb_stru → Prop), freed ps s s1 → (∀ p, o = Some p → p ∈ own_store f) →
    (∀ s2, freed (ps ++ opt_list o) s s2 → R' tt s2) → wp False (free_picture o) R' E s1) as Hfree.
  { intros s1 ps o R' Hfr Ho HR'. apply free_picture_wp; [|intros s2 H2; apply HR'; by eapply freed_app]. eapply freeable_freed; [|done].
    eapply owned_freeable; [done|]. intros p Hp. apply Ho. destruct o; cbn in Hp; [|set_solver]. f_equal. set_solver. }
  assert ((∀ p, f_frame f = Some p → p ∈ own_store f) ∧ (∀ p, f_top_field f = Some p → p ∈ own_store f) ∧ (∀ p, f_bottom_field f = Some p → p ∈ own_store f)) as (Hin1 & Hin2 & Hin3).
  { unfold own_store. split_and!; intros p ->; cbn; set_solver. }
  destruct Hsh as [Hp _ _].
  destruct Hp as [(Hu & Hown)|[(_ & Hu & N1 & [q N2] & N3)|[(_ & Hu & N1 & N2 & [q N3])|(Hu & _)]]]; rewrite Hu;
    repeat match goal with |- context [?a =? ?b] => change (a =? b) with false || change (a =? b) with true end; cbv iota; cbn [when].
  - by eapply HR.
  - wp_step. eapply (Hfree s []); [apply freed_nil|exact Hin2|]. intros s1 H1. eapply Hclear; [done|unfold own_store; by rewrite N1, N2, N3| |done|exact HR].
    unfold own_store. cbn. by rewrite N1, N3.
  - wp_step. eapply (Hfree s []); [apply freed_nil|exact Hin3|]. intros s1 H1. eapply Hclear; [done|unfold own_store; by rewrite N1, N2, N3| |done|exact HR].
    unfold own_store. cbn. by rewrite N1, N2.
  - wp_step. eapply (Hfree s []); [apply freed_nil|exact Hin1|]. intros s1 H1. wp_step. eapply Hfree; [done|exact Hin2|]. intros s2 H2.
    wp_step. eapply Hfree; [done|exact Hin3|]. intros s3 H3. eapply Hclear; [done| |done|done|exact HR]. unfold own_store. by rewrite <- app_assoc.
Qed.
End Fill.

(** ** Taking a frame store out of the buffer *)

(** Where an entry of [fs] comes from when the one at [pos] has moved behind
    the [n - 1] others. *)
Definition moved (pos n j : Z) : Z := if (pos <=? j) && (j <? n - 1) then j + 1 else if j =? n - 1 then pos else j.

Section Remove.
Context (fx : fixed) (m : bool).
Implicit Types (s : h264_dpb_stru) (ex keep : list Z) (E : Z → h264_dpb_stru → Prop).

Definition with_fs (l : list (option Z)) s : h264_dpb_stru := s <| mDPB := (mDPB s) <| fs := l |> |>.

Lemma set_fs_wp i o s (R : unit → h264_dpb_stru → Prop) E : 0 ≤ i < zlen (fs (mDPB s)) → R tt (with_fs (<[Z.to_nat i := o]> (fs (mDPB s))) s) →
  wp False (set_fs i o) R E s.
Proof. intros Hi HR. unfold set_fs. wp_step. wp_step. wp_step. rewrite aset_Some by done. cbn [of_option]. wp_step. by apply wp_modify. Qed.

Lemma with_fs_twice l l' s : with_fs l (with_fs l' s) = with_fs l s.
Proof. unfold with_fs. destruct s as [a b c d e f g h i [] k]. reflexivity. Qed.

Lemma shift_down_wp pos last s (R : unit → h264_dpb_stru → Prop) E : 0 ≤ pos ≤ last → last < zlen (fs (mDPB s)) →
  (∀ l, zlen l = zlen (fs (mDPB s)) → (∀ j, aget l j = aget (fs (mDPB s)) (if (pos <=? j) && (j <? last) then j + 1 else j)) → R tt (with_fs l s)) →
  wp False (shift_down pos last) R E s.
Proof.
  intros Hp Hl HR. unfold shift_down. set (l0 := fs (mDPB s)) in *.
  apply (wp_for_range _ _ _ (fun i s' => ∃ l, s' = with_fs l s ∧ zlen l = zlen l0 ∧ ∀ j, aget l j = aget l0 (if (pos <=? j) && (j <? i) then j + 1 else j))).
  - exists l0. split; [unfold with_fs, l0; destruct s as [a b c d e f g h i [] k]; reflexivity|]. split; [done|]. intros j.
    destruct (Z.leb_spec pos j), (Z.ltb_spec j pos); cbn [andb]; try done; lia.
  - intros i s' Hi (l & -> & Hz & Hj). wp_step. destruct (aget_Some l (i + 1)) as [o Ho]; [lia|]. eapply ptr_wp; [exact Ho|].
    apply set_fs_wp; [change (fs (mDPB (with_fs l s))) with l; lia|]. change (fs (mDPB (with_fs l s))) with l.
    exists (<[Z.to_nat i := o]> l). split; [apply with_fs_twice|]. split; [by rewrite zlen_insert|]. intros j. destruct (decide (i = j)) as [<-|Hne].
    + rewrite aget_insert by lia. rewrite Hj in Ho. rewrite (proj2 (Z.ltb_ge _ _)), andb_false_r in Ho by lia.
      rewrite (proj2 (Z.leb_le _ _)), (proj2 (Z.ltb_lt _ _)) by lia. done.
    + rewrite aget_insert_ne by (try done; lia). rewrite Hj. f_equal. destruct (Z.leb_spec pos j), (Z.ltb_spec j i), (Z.ltb_spec j (i + 1)); cbn [andb]; try done; lia.
  - intros s' (l & -> & Hz & Hj). apply HR; [done|]. intros j. rewrite Hj. by rewrite Z.max_r by lia.
Qed.

Lemma moved_range pos n sz j : 0 ≤ pos < n → n ≤ sz → 0 ≤ j < sz → 0 ≤ moved pos n j < sz.
Proof. unfold moved. intros. destruct (Z.leb_spec pos j), (Z.ltb_spec j (n - 1)), (Z.eqb_spec j (n - 1)); cbn [andb]; lia. Qed.

Lemma moved_inj pos n i j : 0 ≤ pos < n → moved pos n i = moved pos n j → i = j.
Proof.
  unfold moved. intros. destruct (Z.leb_spec pos i), (Z.ltb_spec i (n - 1)), (Z.eqb_spec i (n - 1)), (Z.leb_spec pos j), (Z.ltb_spec j (n - 1)), (Z.eqb_spec j (n - 1)); cbn [andb] in *; lia.
Qed.

(** Every position but [pos] is still there. *)
Lemma moved_onto pos n i : 0 ≤ pos < n → 0 ≤ i < n → i ≠ pos → ∃ j, 0 ≤ j < n - 1 ∧ moved pos n j = i.
Proof.
  intros Hp Hi Hne. unfold moved. destruct (Z.lt_ge_cases i pos).
  - exists i. split; [lia|]. destruct (Z.leb_spec pos i), (Z.ltb_spec i (n - 1)), (Z.eqb_spec i (n - 1)); cbn [andb]; lia.
  - exists (i - 1). split; [lia|]. destruct (Z.leb_spec pos (i - 1)), (Z.ltb_spec (i - 1) (n - 1)), (Z.eqb_spec (i - 1) (n - 1)); cbn [andb]; lia.
Qed.

Lemma moved_small pos n j : 0 ≤ pos < n → 0 ≤ j < n - 1 → 0 ≤ moved pos n j < n ∧ moved pos n j ≠ pos.
Proof. unfold moved. intros. destruct (Z.leb_spec pos j), (Z.ltb_spec j (n - 1)), (Z.eqb_spec j (n - 1)); cbn [andb]; lia. Qed.

(** The buffer without the frame store at [pos]. *)
Definition shrunk (pos : Z) (d d' : DecodedPictureBuffer) : Prop :=
  ∃ l, d' = d <| fs := l |> <| used_size := used_size d - 1 |> ∧ zlen l = zlen (fs d) ∧ ∀ j, aget l j = aget (fs d) (moved pos (used_size d) j).

Lemma shrunk_fs_ok pos d d' : shrunk pos d d' → 0 ≤ pos < used_size d → fs_ok d → fs_ok d'.
Proof.
  intros (l & -> & Hz & Hl) Hp [F1 F2 F3 F4]. split; cbn; [congruence|lia| |].
  - intros i Hi. rewrite Hl. apply F3. apply moved_range; lia.
  - intros i j k Hi Hj. rewrite !Hl. intros A B. apply (moved_inj pos (used_size d)); [done|]. eapply F4; [apply moved_range; lia|apply moved_range; lia|done|done].
Qed.

Lemma shrunk_at_pos pos d d' k : shrunk pos d d' → at_pos d pos k → fs_ok d → ∀ j, (∃ i, at_pos d' i j) ↔ (∃ i, at_pos d i j) ∧ j ≠ k.
Proof.
  intros (l & -> & Hz & Hl) [Hp Hk] [F1 F2 F3 F4] j. unfold at_pos. cbn. split.
  - intros (i & Hi & Hj). rewrite Hl in Hj. destruct (moved_small pos (used_size d) i) as [H1 H2]; [done..|]. split; [by exists (moved pos (used_size d) i)|].
    intros ->. apply H2. eapply F4; [| |done|done]; lia.
  - intros [(i & Hi & Hj) Hne]. destruct (moved_onto pos (used_size d) i) as (i' & Hi' & He); [done|done|intros ->; congruence|].
    exists i'. split; [done|]. by rewrite Hl, He.
Qed.

(** The frame store has been emptied: it may be taken out. *)
Lemma inv_shrink pos k keep ex d' s f : filling fx m keep k ex (mDPB s) f s → 0 ≤ k < DPB_SIZE_MAX → shape m f → f_is_used f = 0 → at_pos (mDPB s) pos k →
  shrunk pos (mDPB s) d' → inv fx m ex None (s <| mDPB := d' |>).
Proof.
  intros [HI Hf _ _] Hk Hsh Hu Hpos Hd'. pose proof (iv_fs HI) as Hok. pose proof (shrunk_at_pos _ _ _ _ Hd' Hpos Hok) as Hat.
  assert (fs_ok d') as Hok' by (eapply shrunk_fs_ok; [done|apply Hpos|done]). destruct Hd' as (l & Ed & Hz & Hl).
  eapply (inv_close _ _ _ _ k f); [|done|done|].
  - destruct HI as [? ? ? ? ? ? ? ? HU ? HR HN]. split; try done.
    + intros j g Hj Hne Hg. cbn in Hg |- *. rewrite (HU j g) by done. rewrite Hat. split; [intros H; split; [done|congruence]|by intros [? _]].
    + destruct HR as [R1 R2 R3]. subst d'. by split.
    + intros i j g Hi Hj Hg. subst d'. cbn in Hi, Hj. rewrite Hl in Hj. eapply HN; [|exact Hj|exact Hg]. apply moved_range; [apply Hpos|apply (fo_sizes _ Hok)|done].
    + subst d'. done.
  - rewrite Hu. cbn. rewrite Hat. split; [done|]. by intros [_ ?].
Qed.
(** The state between operations: the invariant, and the pictures that belong
    to no frame store can be stored. *)
Definition ok ex s : Prop := inv fx m ex None s ∧ ∀ p, p ∈ ex → stored m s p.

(** Opening a frame store. *)
Lemma ok_filling ex s k f : ok ex s → 0 ≤ k < DPB_SIZE_MAX → store s k = Some f → filling fx m ex k ex (mDPB s) f s.
Proof. intros [HI Hst] Hk Hf. split; [by apply inv_open|done|done|]. intros p Hp. split; [rewrite elem_of_app; by right|by apply Hst]. Qed.

Lemma ok_store ex s k : ok ex s → 0 ≤ k < DPB_SIZE_MAX → ∃ f, store s k = Some f ∧ shape m f.
Proof.
  intros [HI _] Hk. destruct (aget_Some (mFrameStore s) k) as [f Hf]; [rewrite (iv_stores HI); lia|]. exists f. split; [done|]. by eapply (iv_shape HI).
Qed.

Lemma ok_at_pos ex s i : ok ex s → 0 ≤ i < used_size (mDPB s) → ∃ k, at_pos (mDPB s) i k ∧ 0 ≤ k < DPB_SIZE_MAX.
Proof. intros [HI _] Hi. destruct (iv_fs HI) as [? ? H _]. destruct (H i) as (k & Hk & Hr); [lia|]. by exists k. Qed.

Lemma remove_frame_wp ex s pos k (R : unit → h264_dpb_stru → Prop) E : ok ex s → at_pos (mDPB s) pos k →
  (∀ s', ok ex s' → shrunk pos (mDPB s) (mDPB s') → R tt s') → wp False (remove_frame_from_dpb pos) R E s.
Proof.
  intros Hok Hpos HR. pose proof Hok as [HI Hst]. pose proof Hpos as [Hp Hk]. pose proof (iv_fs HI) as [F1 F2 F3 F4].
  assert (0 ≤ k < DPB_SIZE_MAX) as Hkr. { destruct (F3 pos) as (k' & Hk' & ?); [lia|]. congruence. }
  destruct (ok_store _ _ _ Hok Hkr) as (f & Hf & Hsh). pose proof (ok_filling _ _ _ _ Hok Hkr Hf) as Hfill.
  unfold remove_frame_from_dpb. wp_step. eapply ptr_wp; [done|]. wp_step. eapply (free_pictures_fill fx m ex k Hkr); [done|done|done|].
  intros f1 s1 H1 Hown1. wp_step. eapply (upd_fs_fill fx m ex k Hkr ex ex); [done|done|by unfold own_store|]. intros s2 H2.
  match type of H2 with filling _ _ _ _ _ _ ?g _ => set (f2 := g) in * end. assert (shape m f2) as Hsh2 by (split; [by left|done|done]).
  assert (f_is_used f2 = 0) as Hu2 by done. clearbody f2. pose proof (fl_dpb _ _ _ _ _ _ _ _ H2) as Ed.
  wp_step. eapply ptr_wp; [rewrite Ed; exact Hk|]. wp_step. wp_step. rewrite Ed. assert (u32 (used_size (mDPB s) - 1) = used_size (mDPB s) - 1) as ->.
  { unfold u32. apply Z.mod_small. unfold DPB_SIZE_MAX in *. lia. }
  wp_step. apply shift_down_wp; [lia|rewrite Ed, F1; lia|]. rewrite Ed. intros l Hl Hj. wp_step. apply set_fs_wp; [change (fs (mDPB (with_fs l s2))) with l; lia|].
  change (fs (mDPB (with_fs l s2))) with l. rewrite with_fs_twice. set (n := used_size (mDPB s)) in *. unfold truth.
  rewrite (proj2 (Z.eqb_neq n 0)) by lia. cbn [negb when]. apply wp_modify. set (l' := <[Z.to_nat (n - 1):=Some k]> l). match goal with |- R tt ?x => set (s3 := x) end.
  assert (shrunk pos (mDPB s) (mDPB s3)) as Hsr.
  { exists l'. split; [unfold s3; cbn; by rewrite Ed|]. split; [unfold l'; by rewrite zlen_insert|]. intros j. unfold l', moved. fold n. destruct (decide (j = n - 1)) as [->|Hne].
    - rewrite aget_insert by lia. rewrite Z.ltb_irrefl, andb_false_r, Z.eqb_refl. done.
    - rewrite aget_insert_ne by (try done; lia). rewrite Hj. by rewrite (proj2 (Z.eqb_neq j (n - 1))) by done. }
  apply HR; [|done]. split.
  - assert (s3 = s2 <| mDPB := mDPB s3 |>) as -> by (unfold s3, with_fs; by destruct s2). eapply (inv_shrink pos k ex ex); [by rewrite Ed|done|done|done|by rewrite Ed|by rewrite Ed].
  - intros p Hpe. exact (proj2 (fl_keep _ _ _ _ _ _ _ _ H2 p Hpe)).
Qed.
End Remove.
