(* ===== verification/H264DisplayOk.v ===== *)
(** Handing frames of the H.264 decoded picture buffer over for display
    (src/drivers/frame_provider/decoder/h264_multi/vmh264.c) keeps the
    invariant of the buffer; a frame that [prepare_display_buf] accepts is to
    be shown or has been given back. *)

From stdpp Require Import base list numbers sorting gmap.
From Stdlib Require Import ZArith Lia Bool.
From S2P Require Import Prelude H264Types H264Pool H264Display H264Store H264Inv H264PoolOk H264Fill.

#[local] Open Scope Z_scope.

(** The part of a frame store the invariant speaks about is the same, or less
    is marked. *)
Definition same_pics (f f' : FrameStore) : Prop :=
  f_is_used f' = f_is_used f ∧ f_frame f' = f_frame f ∧ f_top_field f' = f_top_field f ∧ f_bottom_field f' = f_bottom_field f ∧
  f_index f' = f_index f ∧ ∃ c, f_is_reference f' = Z.land (f_is_reference f) c.

Lemma land_m1 x : ∃ c, x = Z.land x c.
Proof. exists (-1). by rewrite Z.land_m1_r. Qed.

Lemma same_pics_refl f : same_pics f f.
Proof. repeat split; try done. apply land_m1. Qed.

#[export] Hint Resolve same_pics_refl land_m1 : core.

Lemma same_pics_trans f g h : same_pics f g → same_pics g h → same_pics f h.
Proof. intros (? & ? & ? & ? & ? & c & ?) (? & ? & ? & ? & ? & c' & ?). split_and!; try congruence. exists (Z.land c c'). rewrite Z.land_assoc. congruence. Qed.

Lemma le_same_pics f f' : le_store f f' → same_pics f f'.
Proof. by intros []. Qed.

Lemma same_pics_own f f' : same_pics f f' → own_store f' = own_store f.
Proof. intros (H1 & H2 & H3 & H4 & _). unfold own_store. congruence. Qed.

Lemma same_pics_shape m f f' : same_pics f f' → shape m f → shape m f'.
Proof.
  intros (H1 & H2 & H3 & H4 & H5 & H6) Hsh. apply (shape_le m f) with (f' := f' <| f_is_output := f_is_output f |> <| f_pre_output := f_pre_output f |>) in Hsh; [|by split].
  by destruct Hsh.
Qed.

(** What the buffer relies on in the driver: its table of buffers has its
    size; the frames that wait for their fences carry an index of a buffer, as
    all that [post_video_frame] makes; and when nothing is displayed, fences
    are off and the queue for display, from which every frame is taken back at
    once, is empty. *)
Class H264DriverOk `{H264Driver} (wdm : bool) : Prop := {
  driver_specs ev : zlen (buffer_spec (hw_state ev)) = BUFSPEC_POOL_SIZE;
  driver_fences ev i fe : Some (i, fe) ∈ fence_vf (hw_state ev) → BUFSPEC_INDEX i < BUFSPEC_POOL_SIZE;
  driver_direct ev : wdm = true → enable_fence (hw_state ev) = false ∧ display_q (hw_state ev) = []
}.

(** ** Indices *)

Lemma vf_index_add k n : 0 ≤ k < DPB_SIZE_MAX → VF_INDEX k n = n * 2 ^ 8 + k.
Proof. intros Hk. unfold VF_INDEX, DPB_SIZE_MAX in *. rewrite Z.lor_comm, Z.shiftl_mul_pow2 by lia. apply lor_mul_add; lia. Qed.

Lemma frame_index_vf k n : 0 ≤ k < DPB_SIZE_MAX → FRAME_INDEX (VF_INDEX k n) = k.
Proof.
  intros Hk. rewrite vf_index_add by done. unfold FRAME_INDEX, DPB_SIZE_MAX in *. change 255 with (Z.ones 8). rewrite Z.land_ones by lia.
  rewrite Z.add_comm, Z_mod_plus_full. apply Z.mod_small. lia.
Qed.

Lemma bufspec_index_vf k n : 0 ≤ k < DPB_SIZE_MAX → 0 ≤ n < BUFSPEC_POOL_SIZE → BUFSPEC_INDEX (VF_INDEX k n) = n.
Proof.
  intros Hk Hn. rewrite vf_index_add by done. unfold BUFSPEC_INDEX, DPB_SIZE_MAX, BUFSPEC_POOL_SIZE in *. change 255 with (Z.ones 8).
  rewrite Z.shiftr_div_pow2, Z.land_ones by lia. rewrite Z.div_add_l, (Z.div_small k), Z.add_0_r by lia. apply Z.mod_small. lia.
Qed.

Lemma bufspec_index_range i : 0 ≤ BUFSPEC_INDEX i.
Proof. unfold BUFSPEC_INDEX. apply Z.land_nonneg. lia. Qed.

Lemma vf_index_valid k n : 0 ≤ k < DPB_SIZE_MAX → 0 ≤ n → VF_INDEX k n ≠ -1.
Proof. intros Hk Hn. rewrite vf_index_add by done. lia. Qed.

Lemma vf_index_mk i fe : vf_index (mk_vframe i fe) = i.
Proof. done. Qed.

(** ** Marking *)

Definition flagged (f : FrameStore) : FrameStore := f <| f_is_output := true |> <| f_pre_output := false |> <| f_show_frame := false |>.

(** A step on a frame store: it may be marked as put out, and change in ways
    that matter to the display only. *)
Record less (f f' : FrameStore) : Prop := {
  ls_pics : same_pics f f';
  ls_spec : f_buf_spec_num f' = f_buf_spec_num f;
  ls_waiting : waiting f' = true → waiting f = true
}.

#[export] Instance less_preorder : PreOrder less.
Proof. split; [by intros f|]. intros f g h [] []. split; [by eapply same_pics_trans|congruence|auto]. Qed.

Lemma less_flagged f : less f (flagged f).
Proof. split; [by repeat split; auto|done|]. unfold waiting, flagged. by cbn. Qed.

Lemma flagged_flagged f : flagged (flagged f) = flagged f.
Proof. done. Qed.

Section Display.
Context (fx : fixed) (m : bool) (ex : list Z).
Implicit Types (s : h264_dpb_stru) (E : Z → h264_dpb_stru → Prop) (hw : vdec_h264_hw_s).
Notation ok := (ok fx m ex).

Lemma ok_set_store s k f f' : ok s → 0 ≤ k < DPB_SIZE_MAX → store s k = Some f → same_pics f f' → ok (store_set k f' s).
Proof.
  intros [HI Hst] Hk Hf Hsame. split; [|done]. pose proof (iv_shape HI k f Hk ltac:(done) Hf) as Hsh.
  eapply (inv_close _ _ _ _ k f'); [|by eapply store_set_eq|by eapply same_pics_shape|].
  - eapply inv_set_store; [by apply inv_open|done|done|apply Hsame|]. by rewrite (same_pics_own _ _ Hsame).
  - destruct Hsame as [-> _]. by apply (iv_used HI k f).
Qed.

(** The pictures of a frame store can be read. *)
Lemma ok_own_pic s k f p (R : StorablePicture → h264_dpb_stru → Prop) E : ok s → 0 ≤ k < DPB_SIZE_MAX → store s k = Some f → p ∈ own_store f → (∀ x, R x s) → wp False (pic_at (Some p)) R E s.
Proof.
  intros [HI _] Hk Hf Hp HR. destruct (inv_pic fx m ex None s p HI) as (x & Hx & _); [|by eapply pic_at_wp].
  rewrite elem_of_app. left. by eapply store_owned.
Qed.

(** ** Relations between states *)

(** Frame stores have changed as [P] says, nothing else. *)
Record shown (P : FrameStore → FrameStore → Prop) s s' : Prop := {
  sh_ok : ok s';
  sh_state : s' = s <| mFrameStore := mFrameStore s' |>;
  sh_stores : ∀ j f', store s' j = Some f' → ∃ f, store s j = Some f ∧ P f f'
}.

Lemma shown_start P s : Reflexive P → ok s → shown P s s.
Proof. intros HP Hs. split; [done|by destruct s|]. intros j f' Hf. exists f'. by split. Qed.

Lemma shown_trans P s1 s2 s3 : Transitive P → shown P s1 s2 → shown P s2 s3 → shown P s1 s3.
Proof.
  intros HP [? E1 S1] [? E2 S2]. split; [done|rewrite E2, E1; by destruct s1|]. intros j f3 Hf. destruct (S2 _ _ Hf) as (f2 & Hf2 & P2). destruct (S1 _ _ Hf2) as (f1 & Hf1 & P1).
  exists f1. split; [done|by etrans].
Qed.

Lemma shown_mono (P Q : FrameStore → FrameStore → Prop) s s' : (∀ f f', P f f' → Q f f') → shown P s s' → shown Q s s'.
Proof. intros H [? ? S]. split; [done..|]. intros j f' Hf. destruct (S _ _ Hf) as (f & ? & ?). exists f. auto. Qed.

Lemma shown_set P s s' k f f' : Transitive P → Reflexive P → shown P s s' → 0 ≤ k < DPB_SIZE_MAX → store s' k = Some f → P f f' → same_pics f f' → shown P s (store_set k f' s').
Proof.
  intros HT HRf Hs Hk Hf HP Hsame. eapply (shown_trans P _ s'); [done|done|]. split; [eapply ok_set_store; [apply Hs|done..]|by destruct s'|].
  intros j g Hg. destruct (decide (k = j)) as [->|Hne]; [|rewrite store_set_ne in Hg by (try done; lia); by exists g]. rewrite (store_set_eq j f' f) in Hg by done. simplify_eq. by exists f.
Qed.

(** What [vh264_vf_put] does to frame stores. *)
Definition maybe_flagged (f f' : FrameStore) : Prop := f' = f ∨ f' = flagged f.

#[local] Instance maybe_flagged_preorder : PreOrder maybe_flagged.
Proof. split; [by left|]. intros f g h [->| ->] [->| ->]; unfold maybe_flagged; rewrite ?flagged_flagged; auto. Qed.

Notation given := (shown maybe_flagged).

Lemma given_less s s' : given s s' → shown less s s'.
Proof. apply shown_mono. intros f f' [->| ->]; [done|apply less_flagged]. Qed.

Lemma set_flag_given s s' i (R : unit → h264_dpb_stru → Prop) E : given s s' → 0 ≤ i < DPB_SIZE_MAX →
  (∀ s2 f, given s s2 → given s' s2 → store s2 i = Some (flagged f) → R tt s2) → wp False (set_frame_output_flag i) R E s'.
Proof.
  intros Hs Hi HR. unfold set_frame_output_flag. rewrite (proj2 (Z.leb_le _ _)), (proj2 (Z.ltb_lt _ _)) by lia. cbn [andb].
  destruct (ok_store _ _ _ _ i (sh_ok _ _ _ Hs) Hi) as (f & Hf & _). eapply upd_fs_wp; [done|]. change (_ <| f_show_frame := false |>) with (flagged f).
  assert (given s' (store_set i (flagged f) s')) as H2.
  { eapply (shown_set _ _ _ _ f); [apply _|apply _|apply shown_start; [apply _|apply Hs]|done|done|by right|apply less_flagged]. }
  apply (HR _ f); [by eapply shown_trans; [apply _|..]|done|by eapply store_set_eq].
Qed.

(** ** Buffers *)

Lemma spec_at_wp hw n (R : buffer_spec_s → h264_dpb_stru → Prop) E s : zlen (buffer_spec hw) = BUFSPEC_POOL_SIZE → 0 ≤ n < BUFSPEC_POOL_SIZE →
  (∀ b, aget (buffer_spec hw) n = Some b → R b s) → wp False (spec_at hw n) R E s.
Proof. intros Hl Hn HR. unfold spec_at. destruct (aget_Some (buffer_spec hw) n) as [b Hb]; [lia|]. rewrite Hb. wp_step; [|done]. by simplify_eq; apply HR. Qed.

(** The driver after a step on its buffers and queues: what matters is kept. *)
Record same_mode hw hw' : Prop := {
  sm_fence : enable_fence hw' = enable_fence hw;
  sm_specs : zlen (buffer_spec hw') = zlen (buffer_spec hw);
  sm_display : display_q hw' = display_q hw;
  sm_force : force_disp_bufspec_num hw' = force_disp_bufspec_num hw;
  sm_frames : zlen (newframe_q hw) ≤ zlen (newframe_q hw')
}.

#[local] Instance same_mode_preorder : PreOrder same_mode.
Proof. split; [by intros hw|]. intros a b c [] []. split; congruence || lia. Qed.

Lemma kfifo_put_len vf q : zlen q ≤ zlen (kfifo_put vf q).
Proof. unfold kfifo_put. case_match; [|lia]. rewrite zlen_app. unfold zlen. cbn. lia. Qed.

Lemma same_mode_set hw n b : same_mode hw (set_spec n b hw).
Proof. split; try done. apply zlen_insert. Qed.

Lemma same_mode_put vf hw : same_mode hw (hw <| newframe_q := kfifo_put vf (newframe_q hw) |>).
Proof. split; try done. apply kfifo_put_len. Qed.

Lemma give_back_ok hw n i s s' (R : vdec_h264_hw_s → h264_dpb_stru → Prop) E : given s s' → zlen (buffer_spec hw) = BUFSPEC_POOL_SIZE → 0 ≤ n < BUFSPEC_POOL_SIZE → 0 ≤ i < DPB_SIZE_MAX →
  (∀ hw' s2, given s s2 → same_mode hw hw' → R hw' s2) → wp False (give_back hw n i) R E s'.
Proof.
  intros Hs Hl Hn Hi HR. unfold give_back. wp_step. apply spec_at_wp; [done|done|]. intros b Hb. cbv zeta. wp_step.
  - wp_step. wp_step; [|wp_step; apply HR; [done|apply same_mode_set]]. eapply set_flag_given; [done|done|]. intros s2 f H2 _ _. wp_step. apply HR; [done|apply same_mode_set].
  - wp_step. apply HR; [done|apply same_mode_set].
Qed.

Lemma keep_fenced_mode hw vf hw' : keep_fenced hw vf = Some hw' → same_mode hw hw'.
Proof. unfold keep_fenced. destruct (vf_fence vf); [|done]. case_match; [|done]. by intros (i & _ & ->)%fmap_Some. Qed.

Lemma vf_put_ok hw o s s' (R : vdec_h264_hw_s → h264_dpb_stru → Prop) E : given s s' → zlen (buffer_spec hw) = BUFSPEC_POOL_SIZE →
  (enable_fence hw = true → ∀ vf, o = Some vf → BUFSPEC_INDEX (vf_index vf) < BUFSPEC_POOL_SIZE) →
  (∀ hw' s2, given s s2 → same_mode hw hw' → R hw' s2) → wp False (vh264_vf_put hw o) R E s'.
Proof.
  intros Hs Hl Hf HR. unfold vh264_vf_put. destruct o as [vf|]; [|wp_step; by apply HR]. wp_step; [wp_step; by apply HR|].
  destruct (if enable_fence hw then keep_fenced hw vf else None) as [hw1|] eqn:Ek.
  { wp_step. apply HR; [done|]. destruct (enable_fence hw); [by eapply keep_fenced_mode|done]. }
  cbv zeta. pose proof (bufspec_index_range (vf_index vf)) as Hn. wp_step. apply (wp_mono _ (fun _ s2 => s2 = s') _ E); [| |done].
  - destruct (enable_fence hw) eqn:He; [|by wp_step]. wp_step. apply spec_at_wp; [done| |intros; by wp_step]. split; [done|]. by apply (Hf eq_refl vf).
  - intros i s2 ->. wp_step; [wp_step; by apply HR|]. bprop. wp_step. eapply give_back_ok; [done|done|lia|lia|]. intros hw2 s2 G2 M2. wp_step. apply HR; [done|].
    etrans; [exact M2|by apply same_mode_put].
Qed.

(** The vframe of frame store [k] comes back, for the last time when the count
    of its buffer is 1. *)
Lemma vf_put_own hw k n b vf s s' (R : vdec_h264_hw_s → h264_dpb_stru → Prop) E : given s s' → zlen (buffer_spec hw) = BUFSPEC_POOL_SIZE →
  enable_fence hw = false → 0 ≤ k < DPB_SIZE_MAX → 0 ≤ n < BUFSPEC_POOL_SIZE → vf_index vf = VF_INDEX k n →
  aget (buffer_spec hw) n = Some b → used b = 2 → 1 ≤ vf_ref b ≤ 3 →
  (∀ hw' s2, given s s2 → given s' s2 → same_mode hw hw' → aget (buffer_spec hw') n = Some (b <| vf_ref := vf_ref b - 1 |>) →
    (vf_ref b = 1 → ∃ f, store s2 k = Some (flagged f)) → R hw' s2) → wp False (vh264_vf_put hw (Some vf)) R E s'.
Proof.
  intros Hs Hl Hf Hk Hn Hi Hb Hu Hr HR. unfold vh264_vf_put. rewrite Hi, Hf. rewrite (proj2 (Z.eqb_neq _ _)) by (apply vf_index_valid; lia). cbv zeta.
  rewrite bufspec_index_vf, frame_index_vf by done. wp_step. wp_step. rewrite !(proj2 (Z.ltb_ge _ _)), !(proj2 (Z.leb_gt _ _)) by lia. cbn [orb].
  wp_step. unfold give_back, spec_at. rewrite Hb. cbn [of_option]. wp_step. wp_step. cbv zeta. rewrite Hu, Z.eqb_refl. rewrite (s32_id (vf_ref b - 1)) by lia.
  set (hw2 := set_spec n _ hw). assert (same_mode hw hw2) as M2 by apply same_mode_set.
  assert (aget (buffer_spec hw2) n = Some (b <| vf_ref := vf_ref b - 1 |>)) as Hb2 by (apply aget_insert; lia). clearbody hw2. wp_step. wp_step; bprop.
  - eapply set_flag_given; [done|done|]. intros s2 f H2 H2' Hfl. wp_step. wp_step. apply HR; [done|done|etrans; [exact M2|apply same_mode_put]|done|]. intros _. by exists f.
  - wp_step. wp_step. apply HR; [done|apply shown_start; [apply _|apply Hs]|etrans; [exact M2|apply same_mode_put]|done|lia].
Qed.

(** ** The frame that is handed over *)

Lemma upd_fs_less s s' k f g (R : unit → h264_dpb_stru → Prop) E : shown less s s' → 0 ≤ k < DPB_SIZE_MAX → store s' k = Some f → less f (g f) →
  (∀ s2, shown less s s2 → store s2 k = Some (g f) → R tt s2) → wp False (upd_fs (Some k) g) R E s'.
Proof.
  intros Hs Hk Hf Hg HR. eapply upd_fs_wp; [done|]. apply HR; [|by eapply store_set_eq].
  eapply (shown_set less _ _ _ f); [apply _|apply _|done|done|done|exact Hg|apply Hg].
Qed.

Lemma less_mark_error f : less f (mark_error f).
Proof. split; [by repeat split; auto|done|done]. Qed.

Lemma less_look_up_pts hw f : less f (look_up_pts hw f).
Proof. unfold look_up_pts. destruct (pts_lookup hw) as [look|]; [|done]. case_match; [done|]. destruct (look _) as [[]]. split; [by repeat split; auto|done|done]. Qed.

Lemma lone_field_ok hw k f s s' (R : unit → h264_dpb_stru → Prop) E : shown less s s' → 0 ≤ k < DPB_SIZE_MAX → store s' k = Some f →
  (∀ s2 f2, shown less s s2 → store s2 k = Some f2 → less f f2 → R tt s2) → wp False (lone_field hw (Some k)) R E s'.
Proof.
  intros Hs Hk Hf HR. unfold lone_field. wp_step. eapply fs_at_wp; [done|]. cbv zeta. apply wp_when; intros Hl; [|by eapply HR].
  apply andb_true_iff in Hl as [_ Hl]. wp_step.
  - wp_step. assert (∀ o, is_Some o → (∀ p, o = Some p → p ∈ own_store f) → (∀ x : StorablePicture, wp False (upd_fs (Some k) (fun f => f <| f_info := (f_info f) <| offset_delimiter := offset_delimiter (p_info x) |> |>)) R E s') →
      wp False (pic_at o) (fun x => wp False (upd_fs (Some k) (fun f => f <| f_info := (f_info f) <| offset_delimiter := offset_delimiter (p_info x) |> |>)) R E) E s') as Hpic.
    { intros o [p ->] Hin HR'. eapply ok_own_pic; [apply Hs|exact Hk|exact Hf|by apply Hin|done]. }
    apply Hpic; clear Hpic.
    + destruct (_ && bool_decide (is_Some (f_top_field f))) eqn:Et; [by apply andb_true_iff in Et as [_ ?%bool_decide_eq_true]|].
      cbn [orb] in Hl. by apply andb_true_iff in Hl as [_ ?%bool_decide_eq_true].
    + intros p Hp. unfold own_store. destruct (_ && _); rewrite Hp; cbn; set_solver.
    + intros x. eapply upd_fs_less; [done|done|done|by split; [repeat split; auto|done|done]|]. intros s2 G2 Hf2. eapply HR; [done|done|].
      by split; [repeat split; auto|done|done].
  - eapply upd_fs_less; [done|done|done|apply less_mark_error|]. intros s2 G2 Hf2. eapply HR; [done|done|]. apply less_mark_error.
Qed.

(** The frame has been prepared: its buffer exists, and with fences it is
    shown. *)
Definition prepared_frame hw (k : Z) s : Prop :=
  ∃ f, store s k = Some f ∧ f_index f = k ∧ 0 ≤ f_buf_spec_num f < BUFSPEC_POOL_SIZE ∧ (enable_fence hw = true → f_show_frame f = true).

Lemma post_prepare_ok `{H264Driver} hw k f s (R : Z → h264_dpb_stru → Prop) E : ok s → 0 ≤ k < DPB_SIZE_MAX → store s k = Some f → f_index f = k →
  zlen (buffer_spec hw) = BUFSPEC_POOL_SIZE → (∀ s', shown less s s' → (0 ≤ f_buf_spec_num f < BUFSPEC_POOL_SIZE → bit (force_disp_bufspec_num hw) 256 = true) → R (-1) s') →
  (∀ s', shown less s s' → prepared_frame hw k s' → bit (force_disp_bufspec_num hw) 256 = false → R 0 s') → wp False (post_prepare_process hw (Some k)) R E s.
Proof.
  intros Hs Hk Hf Hi Hl HR1 HR. assert (shown less s s) as G0 by (apply shown_start; [apply _|done]). unfold post_prepare_process. wp_step. eapply fs_at_wp; [done|]. cbv zeta.
  wp_step; bprop; [wp_step; apply HR1; [done|lia]|]. wp_step.
  - wp_step. apply spec_at_wp; [done|lia|]. intros b Hb. wp_step. wp_step; [|wp_step; by apply HR1]. rewrite Hi.
    eapply (set_flag_given s); [apply shown_start; [apply _|done]|done|]. intros s2 f2 G2 _ _. wp_step. apply HR1; [by apply given_less|done].
  - wp_step. apply (wp_mono _ (fun _ s1 => shown less s s1 ∧ ∃ f1, store s1 k = Some f1 ∧ less f f1) _ E); [| |done].
    { wp_step; [|split; [done|by exists f]]. eapply upd_fs_less; [done|done|done|apply less_mark_error|]. intros s1 G1 Hf1. split; [done|]. eexists. split; [done|apply less_mark_error]. }
    intros [] s1 (G1 & f1 & Hf1 & L1). wp_step. eapply lone_field_ok; [done|done|done|]. intros s2 f2 G2 Hf2 L2.
    wp_step. eapply upd_fs_less; [done|done|done|apply less_look_up_pts|]. intros s3 G3 Hf3. assert (less f (look_up_pts hw f2)) as L3 by (etrans; [exact L1|]; etrans; [exact L2|apply less_look_up_pts]).
    set (f3 := look_up_pts hw f2) in *. clearbody f3. wp_step. eapply fs_at_wp; [done|]. cbv zeta. match goal with |- context [if hidden hw f3 then false else ?d] => set (show := if hidden hw f3 then false else d) end. wp_step.
    assert (enable_fence hw = true → show = true) as Hshow by (unfold show, hidden; intros ->; done). clearbody show.
    eapply upd_fs_less; [done|done|done|by split; [repeat split; auto|done|done]|]. intros s4 G4 Hf4. wp_step. apply HR; [done| |done].
    eexists. split; [done|]. destruct L3 as [(_ & _ & _ & _ & E5 & _) E6 _]. cbn. rewrite E5, E6. split_and!; done || lia.
Qed.

Lemma vframe_count_ok hw k f s (R : Z → h264_dpb_stru → Prop) E : ok s → 0 ≤ k < DPB_SIZE_MAX → store s k = Some f → (∀ n, 1 ≤ n ≤ 3 → R n s) →
  wp False (vframe_count hw f) R E s.
Proof.
  intros Hs Hk Hf HR. assert (∀ p (Q : StorablePicture → h264_dpb_stru → Prop), f_frame f = Some p → (∀ x, Q x s) → wp False (pic_at (Some p)) Q E s) as Hpic.
  { intros p Q Hp HQ. eapply ok_own_pic; [done|exact Hk|exact Hf| |done]. unfold own_store. rewrite Hp. cbn. set_solver. }
  unfold vframe_count, is_interlace. wp_step. apply (wp_mono _ (fun _ s' => s' = s) _ E); [| |done].
  { destruct (f_frame f) as [p|] eqn:Ef; [|by wp_step]. wp_step. eapply Hpic; [done|]. intros x. by wp_step. }
  intros i s' ->. wp_step. wp_step. cbv zeta. match goal with |- context [if ?c then 2 else 1] => set (n := if c then 2 else 1) end. assert (1 ≤ n ≤ 3) as Hn by (unfold n; case_match; lia). clearbody n.
  wp_step. apply (wp_mono _ (fun n s' => s' = s ∧ 1 ≤ n ≤ 3) _ E); [| |done].
  - destruct (f_frame f) as [p|] eqn:Ef; [|by wp_step]. wp_step. eapply Hpic; [done|]. intros x. wp_step. split; [done|]. case_match; lia.
  - intros n' s' [-> Hn']. wp_step. apply HR. case_match; lia.
Qed.

(** ** The turns of [post_video_frame] without fences *)

Lemma given_store s s' k f : given s s' → 0 ≤ k < DPB_SIZE_MAX → store s k = Some f → ∃ f', store s' k = Some f' ∧ maybe_flagged f f'.
Proof.
  intros Hs Hk Hf. destruct (ok_store _ _ _ _ k (sh_ok _ _ _ Hs) Hk) as (f' & Hf' & _). exists f'. split; [done|].
  destruct (sh_stores _ _ _ Hs _ _ Hf') as (g & Hg & ?). by simplify_eq.
Qed.

Lemma given_display s s' : given s s' → without_display_mode s' = without_display_mode s.
Proof. intros [_ -> _]. by destruct s. Qed.

(** The buffer of the frame, as a turn leaves it. *)
Definition turn_spec (vf_count i : Z) (b : buffer_spec_s) : buffer_spec_s :=
  let b := b <| used := 2 |> in if i =? 0 then b <| vf_ref := vf_count |> else b.

(** One turn: the common part. *)
Lemma turn_wp hw k n count i vf q b f s' (R : option vdec_h264_hw_s → h264_dpb_stru → Prop) E : newframe_q hw = vf :: q → enable_fence hw = false →
  store s' k = Some f → f_index f = k → aget (buffer_spec hw) n = Some b →
  (∀ hw2, hw2 = set_spec n (turn_spec count i b) (hw <| newframe_q := q |>) →
    wp False (if f_show_frame f then
                let hw := hw2 <| display_q := kfifo_put (mk_vframe (VF_INDEX k n) (vf_fence vf)) (display_q hw2) |> in
                if without_display_mode s' || (is_used_v4l hw && is_stream_off hw) then
                  let '(o, hw) := vh264_vf_get hw in hw ← vh264_vf_put hw o; mret (Some hw)
                else mret (Some hw)
              else hw ← vh264_vf_put hw2 (Some (mk_vframe (VF_INDEX k n) (vf_fence vf))); mret (Some hw)) R E s') →
  wp False (post_turn (Some k) n count i hw) R E s'.
Proof.
  intros Hq Hfe Hf Hi Hb HR. unfold post_turn. rewrite Hq. wp_step. eapply fs_at_wp; [done|]. cbv zeta. rewrite Hi.
  specialize (HR _ eq_refl). change (enable_fence (hw <| newframe_q := q |>)) with (enable_fence hw). rewrite Hfe. unfold spec_at.
  change (buffer_spec (hw <| newframe_q := q |>)) with (buffer_spec hw). rewrite Hb. cbn [of_option]. do 3 wp_step.
  change (if i =? 0 then _ else _) with (turn_spec count i b). destruct (f_show_frame f); [|exact HR]. wp_step. wp_step. exact HR.
Qed.

Lemma turn_ok hw k n count i s s' f (R : option vdec_h264_hw_s → h264_dpb_stru → Prop) E : given s s' → 0 ≤ k < DPB_SIZE_MAX → 0 ≤ n < BUFSPEC_POOL_SIZE → store s' k = Some f → f_index f = k →
  zlen (buffer_spec hw) = BUFSPEC_POOL_SIZE → enable_fence hw = false → (newframe_q hw = [] → R None s') →
  (∀ hw' s2, given s s2 → given s' s2 → zlen (buffer_spec hw') = BUFSPEC_POOL_SIZE → enable_fence hw' = false → zlen (newframe_q hw) ≤ zlen (newframe_q hw') + 1 → R (Some hw') s2) → wp False (post_turn (Some k) n count i hw) R E s'.
Proof.
  intros Hs Hk Hn Hf Hi Hl Hfe HR0 HR. destruct (newframe_q hw) as [|vf q] eqn:Hq; [unfold post_turn; rewrite Hq; wp_step; by apply HR0|].
  destruct (aget_Some (buffer_spec hw) n) as [b Hb]; [lia|]. eapply turn_wp; [done..|]. intros hw2 ->.
  assert (∀ hw3 o, zlen (buffer_spec hw3) = BUFSPEC_POOL_SIZE → enable_fence hw3 = false → newframe_q hw3 = q → wp False (hw ← vh264_vf_put hw3 o; mret (Some hw)) R E s') as Hput.
  { intros hw3 o Hl3 Hf3 Hq3. wp_step. apply (vf_put_ok hw3 o s'); [apply shown_start; [apply _|apply Hs]|done|congruence|]. intros hw4 s4 G4 [M1 M2 _ _ M5]. wp_step.
    rewrite Hq3 in M5. apply HR; [by eapply shown_trans; [apply _|..]|done|congruence|congruence|unfold zlen in *; cbn; lia]. }
  set (hw2 := set_spec _ _ _). assert (zlen (buffer_spec hw2) = BUFSPEC_POOL_SIZE ∧ enable_fence hw2 = false ∧ newframe_q hw2 = q) as (Hl2 & Hf2 & Hq2).
  { unfold hw2. split; [|done]. cbn. by rewrite zlen_insert. }
  clearbody hw2. wp_step; [|by apply Hput]. cbv zeta. set (hw3 := hw2 <| display_q := _ |>).
  assert (zlen (buffer_spec hw3) = BUFSPEC_POOL_SIZE ∧ enable_fence hw3 = false ∧ newframe_q hw3 = q) as (Hl3 & Hf3 & Hq3) by done. clearbody hw3. wp_step.
  - unfold vh264_vf_get. destruct (bit _ _); [by apply Hput|]. destruct (display_q _); by apply Hput.
  - wp_step. apply HR; [done|apply shown_start; [apply _|apply Hs]|done|done|rewrite Hq3; unfold zlen; cbn; lia].
Qed.

(** A turn takes its own vframe back at once: the frame is not to be seen, or
    nothing is displayed and the queue is empty. *)
Definition direct hw (k : Z) s : Prop :=
  (∃ f, store s k = Some f ∧ f_show_frame f = false) ∨
  (without_display_mode s = true ∧ display_q hw = [] ∧ bit (force_disp_bufspec_num hw) 256 = false).

(** The count of the buffer before turn [i]. *)
Definition counted hw (n count i : Z) : Prop := ∃ b, aget (buffer_spec hw) n = Some b ∧ (0 < i → used b = 2 ∧ vf_ref b = count - i).

Lemma direct_given hw hw' k s s' : 0 ≤ k < DPB_SIZE_MAX → given s s' → display_q hw' = display_q hw → force_disp_bufspec_num hw' = force_disp_bufspec_num hw → direct hw k s → direct hw' k s'.
Proof.
  intros Hk Hs E1 E2 [(f & Hf & Hv)|Hd]; [left|right; by rewrite (given_display _ _ Hs), E1, E2].
  destruct (given_store _ _ _ _ Hs Hk Hf) as (f' & Hf' & [->| ->]); by eexists.
Qed.

Lemma turn_direct hw k n count i s s' f (R : option vdec_h264_hw_s → h264_dpb_stru → Prop) E : given s s' → 0 ≤ k < DPB_SIZE_MAX → 0 ≤ n < BUFSPEC_POOL_SIZE → store s' k = Some f → f_index f = k →
  zlen (buffer_spec hw) = BUFSPEC_POOL_SIZE → enable_fence hw = false → 0 ≤ i < count → count ≤ 3 → counted hw n count i → direct hw k s' → (newframe_q hw = [] → R None s') →
  (∀ hw' s2, given s s2 → given s' s2 → zlen (buffer_spec hw') = BUFSPEC_POOL_SIZE → enable_fence hw' = false → counted hw' n count (i + 1) → direct hw' k s2 →
    (i + 1 = count → ∃ f, store s2 k = Some f ∧ f_is_output f = true) → zlen (newframe_q hw) ≤ zlen (newframe_q hw') + 1 → R (Some hw') s2) → wp False (post_turn (Some k) n count i hw) R E s'.
Proof.
  intros Hs Hk Hn Hf Hi Hl Hfe Hr H3 (b & Hb & Hcnt) Hd HR0 HR. destruct (newframe_q hw) as [|vf q] eqn:Hq; [unfold post_turn; rewrite Hq; wp_step; by apply HR0|].
  eapply turn_wp; [done..|]. intros hw2 Ehw. set (b2 := turn_spec count i b) in Ehw. set (vf2 := mk_vframe _ _).
  assert (used b2 = 2 ∧ vf_ref b2 = count - i) as [U2 V2].
  { unfold b2, turn_spec. destruct (Z.eqb_spec i 0) as [->|]; [cbn; lia|]. destruct Hcnt as [_ Hv]; [lia|]. by cbn. }
  assert (zlen (buffer_spec hw2) = BUFSPEC_POOL_SIZE ∧ enable_fence hw2 = false ∧ aget (buffer_spec hw2) n = Some b2 ∧ display_q hw2 = display_q hw ∧
    force_disp_bufspec_num hw2 = force_disp_bufspec_num hw ∧ newframe_q hw2 = q) as (Hl2 & Hf2 & Hb2 & D2 & F2 & Q2).
  { rewrite Ehw. cbn. rewrite zlen_insert. split_and!; try done. apply aget_insert. lia. }
  assert (∀ hw3, zlen (buffer_spec hw3) = BUFSPEC_POOL_SIZE → enable_fence hw3 = false → aget (buffer_spec hw3) n = Some b2 → display_q hw3 = display_q hw → force_disp_bufspec_num hw3 = force_disp_bufspec_num hw → newframe_q hw3 = q →
    wp False (hw ← vh264_vf_put hw3 (Some vf2); mret (Some hw)) R E s') as Hput.
  { intros hw3 Hl3 Hf3 Hb3 D3 F3 Q3. wp_step. apply (vf_put_own hw3 k n b2 vf2 s s'); [done|done|done|done|done|done|done|done|lia|]. intros hw4 s4 G4 G4' [M1 M2 M3 M4 M5] Hb4 Hlast.
    wp_step. rewrite Q3 in M5. apply HR; [done|done|congruence|congruence| | | |unfold zlen in *; cbn; lia].
    - exists (b2 <| vf_ref := vf_ref b2 - 1 |>). split; [exact Hb4|]. intros _. cbn. split; [done|lia].
    - eapply direct_given; [done|exact G4'| | |exact Hd]; congruence.
    - intros Hc. destruct Hlast as [g Hg]; [lia|]. by exists (flagged g). }
  clear Ehw. clearbody b2 vf2. destruct (f_show_frame f) eqn:Hv; [|by apply Hput]. destruct Hd as [(g & Hg & Hgv)|(Hw & Hdq & Hff)]; [congruence|].
  cbv zeta. rewrite Hw. cbn [orb]. unfold vh264_vf_get. change (force_disp_bufspec_num (hw2 <| display_q := _ |>)) with (force_disp_bufspec_num hw2).
  rewrite F2, Hff, D2, Hdq. change (kfifo_put vf2 []) with [vf2]. cbn [display_q]. by apply Hput.
Qed.

(** ** All turns *)

(** The frame store is still numbered. *)
Lemma given_number s s' k f : given s s' → 0 ≤ k < DPB_SIZE_MAX → store s k = Some f → f_index f = k → ∃ f', store s' k = Some f' ∧ f_index f' = k.
Proof. intros Hs Hk Hf Hi. destruct (given_store _ _ _ _ Hs Hk Hf) as (f' & Hf' & [->| ->]); by eexists. Qed.

Lemma turns_ok k n count t : ∀ i hw s s' f (R : Z → h264_dpb_stru → Prop) E, given s s' → 0 ≤ k < DPB_SIZE_MAX → 0 ≤ n < BUFSPEC_POOL_SIZE → store s' k = Some f → f_index f = k →
  zlen (buffer_spec hw) = BUFSPEC_POOL_SIZE → enable_fence hw = false → (∀ r s2, given s s2 → (Z.of_nat t ≤ zlen (newframe_q hw) → r = 0) → R r s2) → wp False (post_turns t (Some k) n count i hw) R E s'.
Proof.
  induction t as [|t IH]; intros i hw s s' f R E Hs Hk Hn Hf Hi Hl Hfe HR; cbn [post_turns]; [wp_step; by apply HR|]. wp_step.
  eapply turn_ok; [exact Hs|done|done|done|done|done|done|intros Hq; wp_step; apply HR; [done|rewrite Hq; unfold zlen; cbn; lia]|]. intros hw2 s2 G2 G2' Hl2 Hf2 Hz.
  destruct (given_number _ _ _ _ G2' Hk Hf Hi) as (f2 & Hs2 & Hi2). eapply (IH _ _ s); [done..|]. intros r s3 G3 Hr. apply HR; [done|]. intros Ht. apply Hr. lia.
Qed.

Lemma turns_direct k n count t : ∀ i hw s s' f (R : Z → h264_dpb_stru → Prop) E, given s s' → 0 ≤ k < DPB_SIZE_MAX → 0 ≤ n < BUFSPEC_POOL_SIZE → store s' k = Some f → f_index f = k →
  zlen (buffer_spec hw) = BUFSPEC_POOL_SIZE → enable_fence hw = false → 0 ≤ i → count = i + Z.of_nat t → count ≤ 3 → counted hw n count i → direct hw k s' →
  (t = O → f_is_output f = true) →
  (∀ r s2, given s s2 → (r = 0 → ∃ f, store s2 k = Some f ∧ f_is_output f = true) → (Z.of_nat t ≤ zlen (newframe_q hw) → r = 0) → R r s2) →
  wp False (post_turns t (Some k) n count i hw) R E s'.
Proof.
  induction t as [|t IH]; intros i hw s s' f R E Hs Hk Hn Hf Hi Hl Hfe H0i Hc H3 Hcnt Hd Ho HR; cbn [post_turns].
  { wp_step. apply HR; [done| |done]. intros _. exists f. auto. }
  wp_step. eapply turn_direct; [exact Hs|done|done|done|done|done|done|lia|done|done|done|intros Hq; wp_step; apply HR; [done|done|rewrite Hq; unfold zlen; cbn; lia]|].
  intros hw2 s2 G2 G2' Hl2 Hf2 Hcnt2 Hd2 Hlast Hz.
  destruct (given_number _ _ _ _ G2' Hk Hf Hi) as (f2 & Hs2 & Hi2). eapply (IH _ _ s); [done..|lia|lia|done|done|done| |].
  - intros ->. destruct Hlast as (g & Hg & Hgo); [lia|]. by simplify_eq.
  - intros r s3 G3 Ho3 Hr. apply HR; [done|done|]. intros Ht. apply Hr. lia.
Qed.

(** What the caller is told: 0 means that the frame is marked as put out, or
    that it is to be shown and nobody has taken it back. *)
Definition taken (wdm : bool) (k : Z) s : Prop :=
  ∃ f, store s k = Some f ∧ (f_is_output f = true ∨ (wdm = false ∧ f_show_frame f = true)).

Lemma taken_given wdm k s s' : given s s' → 0 ≤ k < DPB_SIZE_MAX → taken wdm k s → taken wdm k s'.
Proof.
  intros Hs Hk (f & Hf & Ht). destruct (given_store _ _ _ _ Hs Hk Hf) as (f' & Hf' & [->| ->]); [by exists f|exists (flagged f); split; [done|by left]].
Qed.

Lemma post_video_ok hw k s (R : Z → h264_dpb_stru → Prop) E : ok s → 0 ≤ k < DPB_SIZE_MAX → prepared_frame hw k s → zlen (buffer_spec hw) = BUFSPEC_POOL_SIZE →
  enable_fence hw = false → bit (force_disp_bufspec_num hw) 256 = false → (x_display fx = true → display_q hw = []) →
  (∀ r s', given s s' → (r = 0 → taken (x_display fx) k s') → (3 ≤ zlen (newframe_q hw) → r = 0) → R r s') → wp False (post_video_frame hw (Some k)) R E s.
Proof.
  intros Hs Hk (f & Hf & Hi & Hn & _) Hl Hfe Hff Hdq HR. assert (given s s) as G0 by (apply shown_start; [apply _|done]). set (n := f_buf_spec_num f) in *.
  assert (without_display_mode s = x_display fx) as Hw by exact (f_equal x_display (iv_fixed (proj1 Hs))).
  unfold post_video_frame. wp_step. eapply fs_at_wp; [done|]. cbv zeta. change (f_buf_spec_num f) with n. wp_step. eapply vframe_count_ok; [done|done|done|]. intros count Hc.
  wp_step. rewrite Hfe. cbv iota. wp_step. apply spec_at_wp; [done|done|]. intros b Hb. wp_step. set (hw2 := set_spec _ _ _).
  assert (zlen (buffer_spec hw2) = BUFSPEC_POOL_SIZE ∧ enable_fence hw2 = false ∧ display_q hw2 = display_q hw ∧ force_disp_bufspec_num hw2 = force_disp_bufspec_num hw ∧
    newframe_q hw2 = newframe_q hw ∧ counted hw2 n count 0) as (Hl2 & Hf2 & D2 & F2 & Q2 & C2).
  { unfold hw2. cbn. rewrite zlen_insert. split_and!; try done. eexists. split; [by apply aget_insert; lia|lia]. }
  clearbody hw2. assert (direct hw2 k s ∨ taken (x_display fx) k s) as [Hd|Ht].
  { destruct (f_show_frame f) eqn:Hv; [|left; left; by exists f]. destruct (x_display fx); [left; right; rewrite D2, F2; auto|right; exists f; auto]. }
  - eapply (turns_direct k n count (Z.to_nat count) 0 hw2 s s f); try done; [lia|lia|lia|]. intros r s' Gs Ho Hr0. rewrite Q2 in Hr0. apply HR; [done| |intros; apply Hr0; lia].
    intros Hr. destruct (Ho Hr) as (g & Hg & Hgo). exists g. auto.
  - eapply (turns_ok k n count _ 0 hw2 s s f); try done. intros r s' Gs Hr0. rewrite Q2 in Hr0. apply HR; [done| |intros; apply Hr0; lia]. intros _. by eapply taken_given.
Qed.

(** ** [prepare_display_buf] *)

Lemma take_signed_range (P : Z → Prop) l : ∀ n, (∀ i fe, Some (i, fe) ∈ l → P i) → ∀ vf, vf ∈ (take_signed l n).1 → P (vf_index vf).
Proof.
  induction l as [|o l IH]; intros n Hl vf; cbn [take_signed]; [set_solver|]. assert (∀ i fe, Some (i, fe) ∈ l → P i) as Hl' by (intros i fe Hin; eapply Hl; by right).
  destruct (n <=? 0); [set_solver|]. destruct o as [[i fe]|].
  - specialize (IH (n - 1) Hl' vf). destruct (take_signed l (n - 1)) as [vs r]. case_match; [|exact IH]. intros [->|Hin]%elem_of_cons; [|by apply IH]. apply (Hl i fe). by left.
  - specialize (IH n Hl' vf). by destruct (take_signed l n) as [vs r].
Qed.

Lemma put_all_ok l : ∀ hw s s' (R : vdec_h264_hw_s → h264_dpb_stru → Prop) E, given s s' → zlen (buffer_spec hw) = BUFSPEC_POOL_SIZE →
  (∀ vf, vf ∈ l → BUFSPEC_INDEX (vf_index vf) < BUFSPEC_POOL_SIZE) → (∀ hw' s2, given s s2 → R hw' s2) → wp False (put_all hw l) R E s'.
Proof.
  induction l as [|vf l IH]; intros hw s s' R E Hs Hl Hv HR; cbn [put_all]; [wp_step; by apply HR|]. wp_step.
  eapply vf_put_ok; [done|done|intros _ ? [= <-]; apply Hv; by left|]. intros hw2 s2 G2 [_ M _ _]. eapply (IH _ s); [done|congruence|intros v Hin; apply Hv; by right|done].
Qed.

(** The driver can take a frame: it does not recycle frames unseen, and has
    vframes for one. *)
Definition accepts hw : Prop := bit (force_disp_bufspec_num hw) 256 = false ∧ (enable_fence hw = true ∨ 3 ≤ zlen (newframe_q hw)).

Lemma prepare_ok `{H264Driver} `{!H264DriverOk (x_display fx)} k f s (R : Z → h264_dpb_stru → Prop) E : ok s → 0 ≤ k < DPB_SIZE_MAX → store s k = Some f → f_index f = k →
  (∀ r s', shown less s s' → (0 ≤ r → taken (x_display fx) k s') → (accepts (hw_state (events s)) → 0 ≤ f_buf_spec_num f < BUFSPEC_POOL_SIZE → 0 ≤ r) → R r s') →
  wp False (prepare_display_buf (Some k)) R E s.
Proof.
  intros Hs Hk Hf Hi HR. unfold prepare_display_buf. wp_step. wp_step. pose proof (driver_specs (events s)) as Hl. pose proof (driver_fences (events s)) as Hfn.
  pose proof (driver_direct (events s)) as Hd. set (hw := hw_state (events s)) in *. clearbody hw. wp_step.
  eapply post_prepare_ok; [done|done|done|done|done|intros s1 G1 Hno; change (negb (-1 =? 0)) with true; cbv iota; wp_step; apply HR; [done|done|intros [Hb _] Hn; by rewrite Hno in Hb]|]. intros s1 G1 Hp Hff.
  change (negb (0 =? 0)) with false. cbv iota. pose proof (sh_ok _ _ _ G1) as Hs1. destruct (enable_fence hw) eqn:Hfe.
  - assert (x_display fx = false) as Hx by (destruct (x_display fx); [by destruct (Hd eq_refl)|done]). destruct Hp as (f1 & Hf1 & Hi1 & Hn1 & Hv1). wp_step. eapply fs_at_wp; [done|].
    wp_step. apply spec_at_wp; [done|done|]. intros b Hb. cbv zeta. set (hw2 := set_spec _ _ hw). destruct (take_signed (fence_vf hw2) (fence_used_size hw2)) as [vs rest] eqn:Et.
    wp_step. eapply (put_all_ok vs _ s1); [apply shown_start; [apply _|done]|cbn; by rewrite zlen_insert| |].
    { pose proof (take_signed_range (fun i => BUFSPEC_INDEX i < BUFSPEC_POOL_SIZE) (fence_vf hw2) (fence_used_size hw2) Hfn) as Hr. by rewrite Et in Hr. }
    intros hw3 s2 G2. wp_step. apply HR; [eapply (shown_trans less _ s1); [apply _|done|by apply given_less]| |done]. intros _. eapply (taken_given _ _ s1); [done|done|].
    exists f1. split; [done|]. right. auto.
  - wp_step. eapply post_video_ok; [done|done|exact Hp|done|done|done|intros Hx; apply (Hd Hx)|]. intros r s2 G2 Ht Hr. wp_step.
    apply HR; [eapply (shown_trans less _ s1); [apply _|done|by apply given_less]|destruct (Z.eqb_spec r 0); [auto|lia]|].
    intros [_ [|Hq]] _; [congruence|]. by rewrite Hr.
Qed.
End Display.
