(* ===== verification/H264Safe.v ===== *)
(** The operations of the H.264 decoded picture buffer
    (src/drivers/frame_provider/decoder/h264_multi/h264_dpb.c) that move frame
    stores out of the buffer, put them out and store pictures keep the
    invariant, and their loops end. *)

From stdpp Require Import base list numbers sorting gmap.
From Stdlib Require Import ZArith Lia Bool.
From S2P Require Import Prelude H264Types H264Pool H264Display H264Mark H264Store H264Inv H264MarkOk H264PoolOk H264Fill H264DisplayOk.

#[local] Open Scope Z_scope.

(** ** Loops that end when the body says so *)

Lemma while_wp (μ : h264_dpb_stru → Z) (I : h264_dpb_stru → Prop) body (R : bool → h264_dpb_stru → Prop) E n : ∀ s, I s → μ s < Z.of_nat n →
  (∀ s, I s → 0 ≤ μ s ∧ wp False body (fun b s' => I s' ∧ (b = true → μ s' < μ s)) E s) →
  (∀ b s', I s' → R b s') → wp False (while_ n body) R E s.
Proof.
  revert R. induction n as [|n IH]; intros R s HI Hμ Hb HR; cbn [while_]; [destruct (Hb s HI); lia|].
  wp_step. eapply wp_mono; [apply Hb, HI| |done]. intros b s' [HI' Hlt]. destruct b; [|wp_step; by apply HR].
  wp_step. apply IH; [done|specialize (Hlt eq_refl); lia|done|]. intros b2 s2 H2. wp_step. by apply HR.
Qed.

Section Safe.
Context (fx : fixed) (m : bool) (ex : list Z).
Implicit Types (s : h264_dpb_stru) (E : Z → h264_dpb_stru → Prop).
Notation ok := (ok fx m ex).

(** *** Steps *)

Lemma ok_kept s s' : ok s → kept s s' → ok s'.
Proof.
  intros [HI Hst] Hk. split; [by eapply kept_inv|]. intros p Hp. destruct (Hst p Hp) as (x & Hx & Hm). destruct (sd_pics (proj1 Hk) _ _ Hx) as (y & Hy & L).
  exists y. split; [done|]. by rewrite (lp_structure _ _ L).
Qed.

Lemma ok_start s : ok s → kept s s.
Proof. intros [HI _]. by eapply kept_start. Qed.

(** A step that changes no picture, no frame store and little of [mDPB]. *)
Lemma inv_refix s s' : inv fx m ex None s → m_PIC s' = m_PIC s → mFrameStore s' = mFrameStore s → sps_frame_mbs_only_flag (mSPS s') = sps_frame_mbs_only_flag (mSPS s) →
  slice_ok (mSlice s') → active_sps (mVideo s') = active_sps (mVideo s) → 0 ≤ colocated_buf_count s' ≤ 32 →
  fs (mDPB s') = fs (mDPB s) → size (mDPB s') = size (mDPB s) →
  used_size (mDPB s') = used_size (mDPB s) → refs_ok (mDPB s') → inv (fixed_of s') m ex None s'.
Proof.
  intros [] E1 E2 E3 Hsl E5 E6 E8 E9 E10 Hr. split; rewrite ?E1, ?E2, ?E3, ?E5; try done; [by eapply fs_ok_same| |].
  - intros j f Hj Hne Hf. unfold at_pos. rewrite E8, E10. by apply iv_used.
  - intros i k f Hi Hk. rewrite E9 in Hi. rewrite E8 in Hk. by eapply iv_number.
Qed.

Lemma inv_video s v : inv fx m ex None s → active_sps v = active_sps (mVideo s) →
  inv (mk_fixed (x_display fx) (x_init fx) (dec_picture v) (no_reference_picture v)) m ex None (s <| mVideo := v |>).
Proof.
  intros HI Hv. rewrite <- (iv_fixed HI). change (mk_fixed _ _ _ _) with (fixed_of (s <| mVideo := v |>)).
  apply (inv_refix s); try done; [apply (iv_slice HI)|apply (iv_colocated HI)|apply (iv_refs HI)].
Qed.

Lemma inv_init s b map count : inv fx m ex None s → 0 ≤ count ≤ 32 →
  inv (mk_fixed (x_display fx) b (x_dec fx) (x_noref fx)) m ex None
    (s <| colocated_buf_map := map |> <| colocated_buf_count := count |> <| mDPB := (mDPB s) <| init_done := b |> |>).
Proof.
  intros HI Hc. rewrite <- (iv_fixed HI). match goal with |- inv _ _ _ _ ?s' => change (mk_fixed _ _ _ _) with (fixed_of s') end.
  apply (inv_refix s); try done; [apply (iv_slice HI)|]. destruct (iv_refs HI). by split.
Qed.

Lemma ok_slice s s' : ok s → m_PIC s' = m_PIC s → mFrameStore s' = mFrameStore s → sps_frame_mbs_only_flag (mSPS s') = sps_frame_mbs_only_flag (mSPS s) →
  slice_ok (mSlice s') → active_sps (mVideo s') = active_sps (mVideo s) → 0 ≤ colocated_buf_count s' ≤ 32 →
  fixed_of s' = fixed_of s → fs (mDPB s') = fs (mDPB s) → size (mDPB s') = size (mDPB s) →
  used_size (mDPB s') = used_size (mDPB s) → refs_ok (mDPB s') → ok s'.
Proof.
  intros [HI Hst] E1 E2 E3 Hsl E5 E6 E7 E8 E9 E10 Hr. split; [|unfold stored; by rewrite E1].
  rewrite <- (iv_fixed HI), <- E7. by apply (inv_refix s).
Qed.

Lemma ok_same s s' : ok s → m_PIC s' = m_PIC s → mFrameStore s' = mFrameStore s → mSPS s' = mSPS s → mSlice s' = mSlice s →
  active_sps (mVideo s') = active_sps (mVideo s) → colocated_buf_count s' = colocated_buf_count s → fixed_of s' = fixed_of s →
  fs (mDPB s') = fs (mDPB s) → size (mDPB s') = size (mDPB s) → used_size (mDPB s') = used_size (mDPB s) → refs_ok (mDPB s') → ok s'.
Proof.
  intros Hs E1 E2 E3 E4 E5 E6 E7 E8 E9 E10 Hr. apply (ok_slice s); try done; [by rewrite E3|rewrite E4; apply (iv_slice (proj1 Hs))|].
  rewrite E6. apply (iv_colocated (proj1 Hs)).
Qed.

Lemma ok_refs s : ok s → refs_ok (mDPB s).
Proof. intros [HI _]. apply (iv_refs HI). Qed.

Lemma upd_fs_ok s k g (R : unit → h264_dpb_stru → Prop) E : ok s → 0 ≤ k < DPB_SIZE_MAX → (∀ f, same_pics f (g f)) →
  (∀ f, store s k = Some f → ok (store_set k (g f) s) → R tt (store_set k (g f) s)) → wp False (upd_fs (Some k) g) R E s.
Proof.
  intros Hs Hk Hg HR. destruct (ok_store _ _ _ _ k Hs Hk) as (f & Hf & _). eapply upd_fs_wp; [done|]. apply HR; [done|]. by eapply ok_set_store.
Qed.

(** Reading [fs[i]] and its frame store. *)
Lemma fs_ptr_ok s i (R : option Z → h264_dpb_stru → Prop) E : ok s → 0 ≤ i < used_size (mDPB s) →
  (∀ k f, 0 ≤ k < DPB_SIZE_MAX → aget (fs (mDPB s)) i = Some (Some k) → store s k = Some f → shape m f → R (Some k) s) → wp False (ptr_of fs i) R E s.
Proof.
  intros Hs Hi HR. destruct (ok_at_pos _ _ _ _ i Hs Hi) as (k & [_ Hk] & Hkr). destruct (ok_store _ _ _ _ k Hs Hkr) as (f & Hf & Hsh).
  eapply ptr_wp; [done|]. by eapply HR.
Qed.

Lemma ok_sizes s : ok s → 0 ≤ used_size (mDPB s) ≤ size (mDPB s) ∧ size (mDPB s) ≤ DPB_SIZE_MAX.
Proof. intros [HI _]. by destruct (iv_fs HI). Qed.

(** *** Co-located buffers *)

Lemma release_colocate_ok s i (R : unit → h264_dpb_stru → Prop) E : ok s →
  (∀ n, ok (s <| colocated_buf_map := n |>) → R tt (s <| colocated_buf_map := n |>)) → wp False (release_colocate_buf i) R E s.
Proof.
  intros Hs HR. assert (∀ n, R tt (s <| colocated_buf_map := n |>)) as HR' by (intros n; apply HR; eapply ok_same; try done; exact (ok_refs s Hs)).
  assert (R tt s) as HRs by (specialize (HR' (colocated_buf_map s)); destruct s; exact HR'). destruct Hs as [HI _]. pose proof (iv_colocated HI).
  unfold release_colocate_buf. wp_step. wp_step. wp_step; [by wp_step|]. bprop. rewrite (proj2 (Z.leb_gt _ _)) by lia. wp_step; [apply wp_modify, HR'|by wp_step].
Qed.
(** *** Leaving the buffer *)

(** [ok], with [mDPB] fixed. *)
Definition okd d s : Prop := ok s ∧ mDPB s = d.

Lemma used_for_reference_ok s k (R : bool → h264_dpb_stru → Prop) E : ok s → 0 ≤ k < DPB_SIZE_MAX → (∀ b, R b s) → wp False (is_used_for_reference (Some k)) R E s.
Proof.
  intros Hs Hk HR. destruct (ok_store _ _ _ _ k Hs Hk) as (f & Hf & _). eapply (is_used_for_reference_wp fx m ex s (proj1 Hs)); [by apply ok_start|done|done|apply HR].
Qed.

Lemma release_colocated_ok d s i (R : unit → h264_dpb_stru → Prop) E : okd d s → 0 ≤ i < used_size d → (∀ s', okd d s' → R tt s') → wp False (release_colocated i) R E s.
Proof.
  intros [Hs <-] Hi HR. unfold release_colocated. wp_step. apply fs_ptr_ok; [done|done|]. intros k f Hk _ Hf Hsh. wp_step. apply used_for_reference_ok; [done|done|].
  intros b. wp_step. eapply fs_at_wp; [done|]. wp_step; [|by apply HR]. wp_step. apply release_colocate_ok; [done|]. intros n Hn.
  apply upd_fs_ok; [done|done|by repeat split; auto|]. intros g Hg Hg'. by apply HR.
Qed.

(** A search through the buffer that changes nothing. *)
Lemma may_leave_search s (R : option Z → h264_dpb_stru → Prop) E : ok s → (∀ o, (∀ i, o = Some i → 0 ≤ i < used_size (mDPB s)) → R o s) →
  wp False (until (used_size (mDPB s)) (fun i => k ← ptr_of fs i; b ← may_leave k; mret (if (b : bool) then Return else Next_))) R E s.
Proof.
  intros Hs HR. apply (until_wp _ _ (fun s' => s' = s)); [done| |].
  - intros i s' Hi ->. wp_step. apply fs_ptr_ok; [done|done|]. intros k f Hk _ Hf _. wp_step. unfold may_leave. wp_step. eapply fs_at_wp; [done|].
    wp_step; [|wp_step; by wp_step]. wp_step. apply used_for_reference_ok; [done|done|]. intros b. wp_step. by wp_step.
  - intros o s' -> Ho. by apply HR.
Qed.

Lemma remove_unused_frame_ok s (R : bool → h264_dpb_stru → Prop) E : ok s →
  (∀ b s', ok s' → (b = true → used_size (mDPB s') < used_size (mDPB s)) → R b s') → wp False remove_unused_frame_from_dpb R E s.
Proof.
  intros Hs HR. unfold remove_unused_frame_from_dpb. wp_step. wp_step. wp_step. apply (wp_for_range _ _ _ (fun _ => okd (mDPB s))); [by split| |].
  { intros i s' Hi Hs'. apply (release_colocated_ok (mDPB s)); [done|done|done]. }
  intros s1 [H1 E1]. wp_step. rewrite <- E1. apply may_leave_search; [done|]. intros [i|] Hi; [|wp_step; apply HR; [done|by intros]].
  specialize (Hi i eq_refl). wp_step. apply fs_ptr_ok; [done|done|]. intros k f Hk Hpos Hf Hsh. wp_step. eapply fs_at_wp; [done|]. wp_step. apply wp_modify.
  assert (ok (s1 <| events := events s1 ++ [Ev_release_buf_spec (f_buf_spec_num f)] |>)) as H2 by (eapply ok_same; try done; exact (ok_refs _ H1)).
  wp_step. apply upd_fs_ok; [done|done|by repeat split; auto|]. intros g Hg H3. wp_step. eapply remove_frame_wp; [done|by split|].
  intros s4 H4 (l & E4 & _ & _). wp_step. apply HR; [done|]. intros _. rewrite E4, <- E1. cbn. lia.
Qed.

Lemma remove_unused_frames_ok s (R : bool → h264_dpb_stru → Prop) E : ok s → (∀ b s', ok s' → R b s') → wp False remove_unused_frames R E s.
Proof.
  intros Hs HR. apply (while_wp (fun s => used_size (mDPB s)) ok); [done| | |done].
  - pose proof (ok_sizes _ Hs). unfold TURNS, DPB_SIZE_MAX in *. lia.
  - intros s' Hs'. split; [apply (ok_sizes _ Hs')|]. by apply remove_unused_frame_ok.
Qed.
(** *** Output *)

(** The frame stores in use that wait for output. *)
Definition waits s (o : option Z) : bool :=
  match o with Some k => match store s k with Some f => waiting f | None => false end | None => false end.

Definition n_waiting s : Z := zlen (filter (fun o => waits s o = true) (in_use s)).

Lemma filter_le {A} (P Q : A → bool) l : (∀ a, Q a = true → P a = true) →
  (length (filter (fun a => Q a = true) l) ≤ length (filter (fun a => P a = true) l))%nat.
Proof.
  intros H. induction l as [|a l IH]; [done|]. rewrite !filter_cons. destruct (decide (Q a = true)) as [Hq|Hq], (decide (P a = true)) as [Hp|Hp]; cbn; [lia| |lia|lia].
  by specialize (H a Hq).
Qed.

Lemma filter_less {A} (P Q : A → bool) l a : (∀ a, Q a = true → P a = true) → a ∈ l → P a = true → Q a = false →
  (length (filter (fun a => Q a = true) l) < length (filter (fun a => P a = true) l))%nat.
Proof.
  intros H Hin Hp Hq. induction l as [|b l IH]; [set_solver|]. rewrite !filter_cons. apply elem_of_cons in Hin as [<-|Hin].
  - rewrite (decide_True (P := P a = true)) by done. rewrite (decide_False (P := Q a = true)) by congruence. cbn. pose proof (filter_le P Q l H). lia.
  - specialize (IH Hin). destruct (decide (Q b = true)) as [Hqb|Hqb], (decide (P b = true)) as [Hpb|Hpb]; cbn; [lia| |lia|lia]. by specialize (H b Hqb).
Qed.

Lemma n_waiting_range s : ok s → 0 ≤ n_waiting s ≤ DPB_SIZE_MAX.
Proof.
  intros Hs. pose proof (ok_sizes _ Hs). unfold n_waiting, zlen, in_use. split; [lia|].
  pose proof (length_filter (fun o => waits s o = true) (take (Z.to_nat (used_size (mDPB s))) (fs (mDPB s)))) as Hl. rewrite length_take in Hl. lia.
Qed.

(** Only frame store [k] has changed; it holds [f]. *)
Record only (k : Z) (f : FrameStore) s s' : Prop := {
  on_ok : ok s';
  on_fs : fs (mDPB s') = fs (mDPB s);
  on_used : used_size (mDPB s') = used_size (mDPB s);
  on_store : store s' k = Some f;
  on_others : ∀ j, j ≠ k → store s' j = store s j
}.

(** Frame store [k] does not wait any more, and no other one has begun to. *)
Lemma n_waiting_less s s' i k f f' : fs (mDPB s') = fs (mDPB s) → used_size (mDPB s') = used_size (mDPB s) →
  (∀ j g', store s' j = Some g' → waiting g' = true → ∃ g, store s j = Some g ∧ waiting g = true) →
  at_pos (mDPB s) i k → store s k = Some f → waiting f = true → store s' k = Some f' → waiting f' = false → n_waiting s' < n_waiting s.
Proof.
  intros E1 E2 Ho [Hi Hpos] Hf Hw Hf' Hw'. unfold n_waiting, in_use. rewrite E1, E2. apply inj_lt, (filter_less _ _ _ (Some k)).
  - intros [j|]; cbn; [|done]. destruct (store s' j) as [g'|] eqn:Eg; [|done]. intros Hg. destruct (Ho j g' Eg Hg) as (g & -> & ?). done.
  - apply aget_inv in Hpos as [_ Hpos]. apply elem_of_take. exists (Z.to_nat i). split; [done|lia].
  - cbn. by rewrite Hf.
  - cbn. by rewrite Hf'.
Qed.

Lemma only_start s k f : ok s → store s k = Some f → only k f s s.
Proof. intros Hs Hf. by split. Qed.

Lemma only_set k f f' s s' : only k f s s' → 0 ≤ k < DPB_SIZE_MAX → same_pics f f' → only k f' s (store_set k f' s').
Proof.
  intros [H1 H2 H3 H4 H5] Hk Hsame. split; [by eapply ok_set_store|done|done|by eapply store_set_eq|]. intros j Hj.
  rewrite <- (H5 j Hj). destruct (decide (0 ≤ k)); [|lia]. by apply store_set_ne.
Qed.

Lemma only_same k f s s1 s2 : only k f s s1 → ok s2 → mFrameStore s2 = mFrameStore s1 → fs (mDPB s2) = fs (mDPB s1) → used_size (mDPB s2) = used_size (mDPB s1) → only k f s s2.
Proof. intros [H1 H2 H3 H4 H5] Hs E1 E2 E3. split; rewrite ?E1; try done; congruence. Qed.

(** The candidate for output: the first of the smallest order count among the
    first [n] frame stores that wait. *)
Definition smallest s (n : Z) (r : Z * Z) : Prop :=
  (∀ i k f, 0 ≤ i < n → aget (fs (mDPB s)) i = Some (Some k) → store s k = Some f → waiting f = true → r.1 ≤ f_poc f ∧ (i < r.2 → r.1 < f_poc f)) ∧
  (r.2 = -1 ∧ r.1 = INT_MAX ∨
   0 ≤ r.2 < n ∧ r.1 < INT_MAX ∧ ∃ k f, aget (fs (mDPB s)) r.2 = Some (Some k) ∧ 0 ≤ k < DPB_SIZE_MAX ∧ store s k = Some f ∧ waiting f = true ∧ f_poc f = r.1).
Lemma get_smallest_poc_ok `{H264Driver} s (R : Z * Z → h264_dpb_stru → Prop) E : ok s →
  (∀ r, (if bufspec_lock then smallest s (used_size (mDPB s)) r else r = (INT_MAX, -1)) → R r s) → wp False get_smallest_poc R E s.
Proof.
  intros Hs HR. unfold get_smallest_poc. wp_step. wp_step. destruct bufspec_lock; [|wp_step; by apply HR].
  apply (wp_fold_range _ _ _ (fun n r s' => s' = s ∧ smallest s n r)).
  - split; [done|]. split; [intros; lia|by left].
  - intros i [poc pos] s' Hi (-> & H1 & H2). cbn in H1, H2. wp_step. apply fs_ptr_ok; [done|done|]. intros k f Hk Hpos Hf _. wp_step. eapply fs_at_wp; [done|]. wp_step.
    split; [done|]. destruct (waiting f) eqn:Hw; [rewrite andb_true_r; destruct (Z.ltb_spec (f_poc f) poc) as [Hlt|Hge]|rewrite andb_false_r].
    + split; cbn.
      * intros j k' f' Hj A B C. destruct (decide (j = i)) as [->|Hne]; [simplify_eq; lia|]. specialize (H1 j k' f' ltac:(lia) A B C) as [H1 _]. lia.
      * right. split; [lia|]. split; [destruct H2 as [(_ & ->)|(_ & ? & _)]; lia|]. by exists k, f.
    + split; cbn.
      * intros j k' f' Hj A B C. destruct (decide (j = i)) as [->|Hne]; [simplify_eq; destruct H2 as [(-> & _)|(? & _)]; lia|]. by apply (H1 j k' f'); [lia|..].
      * destruct H2 as [?|(? & ?)]; [by left|right; split; [lia|done]].
    + split; cbn.
      * intros j k' f' Hj A B C. destruct (decide (j = i)) as [->|Hne]; [simplify_eq; congruence|]. by apply (H1 j k' f'); [lia|..].
      * destruct H2 as [?|(? & ?)]; [by left|right; split; [lia|done]].
  - intros r s' (-> & Hr). apply HR. by rewrite Z.max_r in Hr by apply (ok_sizes _ Hs).
Qed.

(** Steps that change neither [mDPB] nor the arrays. *)
Definition scanned s0 s : Prop := ok s ∧ mDPB s = mDPB s0 ∧ mFrameStore s = mFrameStore s0.

Lemma scanned_modify s0 s g (R : unit → h264_dpb_stru → Prop) E : scanned s0 s → (∀ s, m_PIC (g s) = m_PIC s ∧ mFrameStore (g s) = mFrameStore s ∧ mDPB (g s) = mDPB s ∧
    mSPS (g s) = mSPS s ∧ mSlice (g s) = mSlice s ∧ mVideo (g s) = mVideo s ∧ colocated_buf_count (g s) = colocated_buf_count s ∧ without_display_mode (g s) = without_display_mode s) →
  (∀ s', scanned s0 s' → R tt s') → wp False (modify g) R E s.
Proof.
  intros (H1 & H2 & H3) Hg HR. apply wp_modify, HR. destruct (Hg s) as (E1 & E2 & E3 & E4 & E5 & E6 & E7 & E8).
  split; [|split; congruence]. eapply ok_same; try done; try congruence; [unfold fixed_of; congruence|]. rewrite E3. by apply ok_refs.
Qed.

Lemma first_insert_ok s0 s f b (R : bool → h264_dpb_stru → Prop) E : scanned s0 s → (∀ b s', scanned s0 s' → R b s') → wp False (first_insert f b) R E s.
Proof.
  intros Hs HR. unfold first_insert. wp_step. wp_step. wp_step; [|wp_step; by apply HR]. wp_step. eapply scanned_modify; [done|done|]. intros s1 H1. wp_step. by apply HR.
Qed.

Lemma check_even_odd_ok s0 s f (R : unit → h264_dpb_stru → Prop) E : scanned s0 s → (∀ s', scanned s0 s' → R tt s') → wp False (check_even_odd f) R E s.
Proof.
  intros Hs HR. unfold check_even_odd. wp_step. wp_step. wp_step.
  assert (∀ s1, scanned s0 s1 → wp False (when (bit (f_poc f) 1) (modify (fun s => s <| poc_even_odd_flag := 1 |>))) R E s1) as Hlast.
  { intros s1 H1. wp_step; [|by apply HR]. by eapply scanned_modify. }
  wp_step; [|by apply Hlast]. by eapply scanned_modify.
Qed.

Lemma fast_if_no_error_ok s (R : bool → h264_dpb_stru → Prop) E n : ∀ j b, ok s → 0 ≤ j → j + Z.of_nat n ≤ used_size (mDPB s) → (∀ b, R b s) →
  wp False (fast_if_no_error n j b) R E s.
Proof.
  induction n as [|n IH]; intros j b Hs Hj Hn HR; cbn [fast_if_no_error]; [by wp_step|]. wp_step. apply fs_ptr_ok; [done|lia|].
  intros k f Hk _ Hf _. wp_step. eapply fs_at_wp; [done|]. wp_step; [by wp_step|]. apply IH; [done|lia|lia|done].
Qed.

Lemma inner_dpb_ok s (R : option Z → h264_dpb_stru → Prop) E n : ∀ j b, ok s → 0 ≤ j → j + Z.of_nat n ≤ used_size (mDPB s) → (∀ b, R b s) →
  wp False (inner_dpb n j b) R E s.
Proof.
  induction n as [|n IH]; intros j b Hs Hj Hn HR; cbn [inner_dpb]; [by wp_step|]. wp_step. apply fs_ptr_ok; [done|lia|].
  intros k f Hk _ Hf _. wp_step. eapply fs_at_wp; [done|]. wp_step; [by wp_step|]. apply IH; [done|lia|lia|done].
Qed.

Lemma output_scan_ok s0 s i acc (R : Z * bool → h264_dpb_stru → Prop) E : scanned s0 s → 0 ≤ i < used_size (mDPB s) → (∀ r s', scanned s0 s' → R r s') →
  wp False (output_scan i acc) R E s.
Proof.
  intros Hs Hi HR. destruct acc as [c b]. unfold output_scan. wp_step. apply fs_ptr_ok; [apply Hs|done|]. intros k f Hk _ Hf _. wp_step. eapply fs_at_wp; [done|].
  wp_step; [|wp_step; by apply HR]. wp_step. eapply first_insert_ok; [done|]. intros b1 s1 H1. wp_step. eapply check_even_odd_ok; [done|]. intros s2 H2.
  wp_step. wp_step. cbv zeta. wp_step. assert (∀ b, wp False (mret b) (fun a s' => scanned s0 s') E s2) as Hret by (intros; by wp_step).
  apply (wp_mono _ (fun _ s' => scanned s0 s') _ E); [|intros b3 s3 H3; wp_step; by apply HR|done].
  wp_step; [|by wp_step]. apply fast_if_no_error_ok; [apply H2|lia| |done]. rewrite Z2Nat.id by apply (ok_sizes _ (proj1 H2)). lia.
Qed.

Lemma output_wanted_ok `{H264Driver} s (R : bool → h264_dpb_stru → Prop) E : ok s → (∀ b s', scanned s s' → R b s') → wp False output_wanted R E s.
Proof.
  intros Hs HR. unfold output_wanted. wp_step. wp_step. wp_step.
  apply (wp_fold_range _ _ _ (fun _ _ s' => scanned s s')); [by split| |].
  - intros i acc s' Hi Hs'. apply (output_scan_ok s); [done|by rewrite (proj1 (proj2 Hs'))|done].
  - intros [c b] s1 H1. wp_step. wp_step. wp_step. apply (wp_mono _ (fun _ s' => scanned s s') _ E); [|intros b3 s3 H3; wp_step; by apply HR|done].
    wp_step; [|by wp_step]. wp_step. apply inner_dpb_ok; [apply H1|lia| |].
    + rewrite (proj1 (proj2 H1)). rewrite Z2Nat.id by apply (ok_sizes _ Hs). lia.
    + intros o. by wp_step.
Qed.

Lemma aux_wait_ok s (R : bool → h264_dpb_stru → Prop) E : ok s → (∀ b, R b s) → wp False aux_wait R E s.
Proof.
  intros Hs HR. unfold aux_wait. wp_step. wp_step. wp_step; [|by wp_step]. unfold count_fs. wp_step. wp_step. wp_step.
  apply (wp_fold_range _ _ _ (fun _ _ s' => s' = s)); [done| |intros c s' ->; by wp_step].
  intros i c s' Hi ->. wp_step. apply fs_ptr_ok; [done|done|]. intros k f Hk _ Hf _. wp_step. eapply fs_at_wp; [done|]. by wp_step.
Qed.
(** *** Putting frames out *)

Lemma ok_upd_dpb s g : ok s → (∀ d, fs (g d) = fs d) → (∀ d, size (g d) = size d) → (∀ d, used_size (g d) = used_size d ∧ init_done (g d) = init_done d) → (∀ d, refs_ok d → refs_ok (g d)) →
  ok (s <| mDPB := g (mDPB s) |>).
Proof.
  intros Hs E1 E2 E3 E4. eapply ok_same; try done; cbn; auto; [|by apply E3|by apply E4, ok_refs]. unfold fixed_of. cbn. by rewrite (proj2 (E3 _)).
Qed.

Lemma upd_dpb_ok s g (R : unit → h264_dpb_stru → Prop) E : ok s → (∀ d, fs (g d) = fs d) → (∀ d, size (g d) = size d) → (∀ d, used_size (g d) = used_size d ∧ init_done (g d) = init_done d) →
  (∀ d, refs_ok d → refs_ok (g d)) → (ok (s <| mDPB := g (mDPB s) |>) → R tt (s <| mDPB := g (mDPB s) |>)) → wp False (upd_dpb g) R E s.
Proof. intros. apply wp_modify. by auto using ok_upd_dpb. Qed.

Lemma refs_same d d' : fs_ref d' = fs_ref d → fs_ltref d' = fs_ltref d → ref_frames_in_buffer d' = ref_frames_in_buffer d →
  ltref_frames_in_buffer d' = ltref_frames_in_buffer d → last_picture d' = last_picture d ∨ last_picture d' = None →
  (fs_list0 d', fs_list1 d', fs_listlt d') = (fs_list0 d, fs_list1 d, fs_listlt d) → refs_ok d → refs_ok d'.
Proof. intros E1 E2 E3 E4 E5 [= E6 E7 E8] []. unfold arrays_ok in *. split; unfold arrays_ok; rewrite ?E1, ?E2, ?E3, ?E4, ?E6, ?E7, ?E8; try done. destruct E5 as [->| ->]; done. Qed.

(** Frames before the first one: a frame store is changed at most in a flag. *)
Lemma skip_leading_ok s k f (R : unit → h264_dpb_stru → Prop) E : ok s → 0 ≤ k < DPB_SIZE_MAX → store s k = Some f →
  (∀ f' s', same_pics f f' → (f_poc f' = f_poc f ∧ f_buf_spec_num f' = f_buf_spec_num f) → waiting f' = waiting f → only k f' s s' → R tt s') → wp False (skip_leading (Some k)) R E s.
Proof.
  intros Hs Hk Hf HR. pose proof (only_start _ _ _ Hs Hf) as Ho. unfold skip_leading. wp_step. wp_step. wp_step; [|by eapply HR]. wp_step. eapply fs_at_wp; [done|].
  wp_step.
  - eapply upd_fs_wp; [done|]. eapply HR; [| | |apply (only_set k f); [done|done|]]; [by repeat split; auto|done|done|by repeat split; auto].
  - wp_step; [|by eapply HR]. apply wp_modify. apply (HR f); [done|done|done|]. eapply only_same; try done. eapply ok_same; try done. exact (ok_refs _ Hs).
Qed.

(** A frame is handed over: frame stores change in what matters to the display
    only; a frame that is accepted does not wait any more. *)
Record handed (k : Z) s s' : Prop := {
  hd_ok : ok s';
  hd_fs : fs (mDPB s') = fs (mDPB s);
  hd_used : used_size (mDPB s') = used_size (mDPB s);
  hd_stores : ∀ j f', store s' j = Some f' → ∃ f, store s j = Some f ∧ less f f'
}.

Lemma handed_less k s s' i f f' : handed k s s' → at_pos (mDPB s) i k → store s k = Some f → waiting f = true → store s' k = Some f' → waiting f' = false → n_waiting s' < n_waiting s.
Proof.
  intros [_ H1 H2 H3] Hpos Hf Hw Hf' Hw'. eapply (n_waiting_less s s' i k f f'); try done. intros j g' Hg Hgw. destruct (H3 j g' Hg) as (g & Hs & []). exists g. auto.
Qed.

Lemma handed_set k s s' f f' : handed k s s' → 0 ≤ k < DPB_SIZE_MAX → store s' k = Some f → less f f' → handed k s (store_set k f' s').
Proof.
  intros [H1 H2 H3 H4] Hk Hf Hl. split; [by eapply ok_set_store; [| | |apply Hl]|done|done|]. intros j g Hg. destruct (decide (k = j)) as [->|Hne].
  - rewrite (store_set_eq j f' f) in Hg by done. simplify_eq. destruct (H4 _ _ Hf) as (h & Hh & ?). exists h. split; [done|by etrans].
  - rewrite store_set_ne in Hg by (try done; lia). by apply H4.
Qed.

Lemma handed_same k s s1 s2 : handed k s s1 → ok s2 → mFrameStore s2 = mFrameStore s1 → fs (mDPB s2) = fs (mDPB s1) → used_size (mDPB s2) = used_size (mDPB s1) → handed k s s2.
Proof. intros [H1 H2 H3 H4] Hs E1 E2 E3. split; rewrite ?E1, ?E2, ?E3; done. Qed.

Lemma ok_number s i k f : ok s → at_pos (mDPB s) i k → store s k = Some f → f_index f = k.
Proof. intros Hs [Hi Hk] Hf. pose proof (ok_sizes _ Hs). apply (iv_number (proj1 Hs) i k f); [lia|done|done]. Qed.

(** Before [prepare_display_buf]'s result is looked at. *)
Lemma prepare_handed `{H264Driver} `{!H264DriverOk (x_display fx)} s poc pos k f (R : bool → h264_dpb_stru → Prop) E : ok s → at_pos (mDPB s) pos k → 0 ≤ k < DPB_SIZE_MAX →
  store s k = Some f →
  (∀ r s3 f3, handed k s s3 → store s3 k = Some f3 → ((∀ ev, accepts (hw_state ev)) → 0 ≤ f_buf_spec_num f < BUFSPEC_POOL_SIZE → 0 ≤ r) → (0 ≤ r → f_is_output f3 = true ∨ (x_display fx = false ∧ f_show_frame f3 = true)) →
    wp False (if 0 <=? r then
                wdm ← gets without_display_mode;
                (when (negb wdm && f_show_frame f3) (upd_fs (Some k) (fun f => f <| f_pre_output := true |>)));;
                upd_dpb (fun d => d <| last_output_poc := poc |>);; mret true
              else mret false) R E s3) → wp False (output_one poc pos) R E s.
Proof.
  intros Hs Hpos Hk Hf HR. unfold output_one. wp_step. eapply ptr_wp; [apply Hpos|]. wp_step. eapply skip_leading_ok; [done|done|done|]. intros f1 s1 Hf1 [_ Hb1] Hw1 H1.
  assert (handed k s s1) as G1.
  { destruct H1 as [O1 O2 O3 O4 O5]. split; [done..|]. intros j g Hg. destruct (decide (j = k)) as [->|Hne]; [|rewrite O5 in Hg by done; by exists g].
    simplify_eq. exists f. split; [done|]. split; [done|done|congruence]. }
  wp_step. eapply (prepare_ok fx m ex); [apply G1|done|apply H1| |].
  { destruct Hf1 as (_ & _ & _ & _ & -> & _). by eapply ok_number. }
  intros r s2 [S1 S2 S3] Ht Hacc. assert (fs (mDPB s2) = fs (mDPB s1) ∧ used_size (mDPB s2) = used_size (mDPB s1)) as [E1 E2] by (rewrite S2; by destruct s1).
  assert (handed k s s2) as G2.
  { split; [done|rewrite E1; apply G1|rewrite E2; apply G1|]. intros j g Hg. destruct (S3 _ _ Hg) as (g1 & Hg1 & L1). destruct (hd_stores _ _ _ G1 _ _ Hg1) as (g0 & Hg0 & L0).
    exists g0. split; [done|by etrans]. }
  destruct (ok_store _ _ _ _ k S1 Hk) as (f2 & Hf2 & _). wp_step. eapply fs_at_wp; [done|]. wp_step. apply wp_modify. apply HR; [|done|rewrite Hb1 in Hacc; auto|].
  - eapply handed_same; [done| |done..]. eapply ok_same; [exact S1|done..|]. exact (ok_refs _ S1).
  - intros Hr. destruct (Ht Hr) as (g & Hg & Hgo). by simplify_eq.
Qed.

Lemma output_one_ok `{H264Driver} `{!H264DriverOk (x_display fx)} s poc pos k f (R : bool → h264_dpb_stru → Prop) E : ok s → at_pos (mDPB s) pos k → 0 ≤ k < DPB_SIZE_MAX →
  store s k = Some f → waiting f = true → (∀ b s', ok s' → (b = true → n_waiting s' < n_waiting s) → R b s') → wp False (output_one poc pos) R E s.
Proof.
  intros Hs Hpos Hk Hf Hw HR. eapply prepare_handed; [done|done|done|done|]. intros r s3 f3 G3 Hf3 _ Ht. wp_step; bprop; [|wp_step; apply HR; [apply G3|done]]. specialize (Ht ltac:(done)).
  assert (without_display_mode s3 = x_display fx) as Hd by exact (f_equal x_display (iv_fixed (proj1 (hd_ok _ _ _ G3)))).
  assert (∀ s4 f4, handed k s s4 → store s4 k = Some f4 → waiting f4 = false → wp False (upd_dpb (fun d => d <| last_output_poc := poc |>);; mret true) R E s4) as Hlast.
  { intros s4 f4 G4 Hf4 Hw4. wp_step. apply upd_dpb_ok; [apply G4|done..|by intros d; apply refs_same; auto|]. intros G5. wp_step. apply HR; [done|]. intros _.
    eapply (handed_less k s _ pos f f4); [by eapply handed_same|done..]. }
  clear HR. wp_step. wp_step. rewrite Hd. wp_step. wp_step; bprop.
  - eapply upd_fs_wp; [done|]. eapply (Hlast _ (f3 <| f_pre_output := true |>)); [eapply handed_set; [done|done|done|]|by eapply store_set_eq|].
    + split; [by repeat split; auto|done|]. unfold waiting. cbn. by rewrite andb_false_r.
    + unfold waiting. cbn. by rewrite andb_false_r.
  - apply (Hlast _ f3); [done|done|]. unfold waiting. destruct Ht as [->|[Hwd Hsh]]; [done|]. rewrite Hwd, Hsh in *. done.
Qed.
(** Steps on the picture that is stored. *)
Lemma pic_at_ok s o (R : StorablePicture → h264_dpb_stru → Prop) E : ok s → o ∈ ex → (∀ x, pic s o = Some x → R x s) → wp False (pic_at (Some o)) R E s.
Proof. intros [_ Hst] Ho HR. destruct (Hst o Ho) as (x & Hx & _). eapply pic_at_wp; [done|]. by apply HR. Qed.

Lemma ex_commands s o x : ok s → o ∈ ex → pic s o = Some x → commands_ok x.
Proof.
  intros [HI _] Ho Hx. assert (o ∈ owned (mFrameStore s) ++ ex) as Hin by set_solver. apply (iv_own_used HI) in Hin as (_ & Hr & _). by apply (iv_commands HI o).
Qed.

Lemma upd_pic_ok d s o g (R : unit → h264_dpb_stru → Prop) E : okd d s → o ∈ ex → (∀ x, commands_ok x → le_pic x (g x)) →
  (∀ x, pic s o = Some x → okd d (pic_set o (g x) s) → R tt (pic_set o (g x) s)) → wp False (upd_pic (Some o) g) R E s.
Proof.
  intros [Hs Hd] Ho Hg HR. destruct (proj2 Hs o Ho) as (x & Hx & _). assert (commands_ok x) as Hc by by eapply ex_commands. eapply upd_pic_wp; [done|]. apply HR; [done|]. split; [|done].
  eapply ok_kept; [done|]. split; [by eapply steady_pic, Hg|]. exact (ok_refs _ Hs).
Qed.

Section Driver.
Context `{!H264Driver} `{!H264DriverOk (x_display fx)}.

Lemma output_frames_ok s flush (R : bool → h264_dpb_stru → Prop) E : ok s → (∀ b s', ok s' → (b = true → n_waiting s' < n_waiting s) → R b s') →
  wp False (output_frames flush) R E s.
Proof.
  intros Hs HR. unfold output_frames. wp_step. apply (wp_mono _ (fun _ s' => s' = s) _ E); [|intros w s' ->|done].
  { destruct flush; [by wp_step|]. by apply aux_wait_ok. }
  wp_step; [wp_step; by apply HR|]. wp_step. apply (wp_mono _ (fun _ s' => scanned s s') _ E); [|intros go s1 (H1 & E1 & E2)|done].
  { destruct flush; [by wp_step|]. by apply output_wanted_ok. }
  wp_step; [|wp_step; by apply HR]. wp_step. apply get_smallest_poc_ok; [done|]. intros [poc pos] Hr.
  wp_step; [wp_step; by apply HR|]. bprop. destruct bufspec_lock; [|by simplify_eq].
  destruct Hr as [_ [[Hr _]|(Hr & _ & k & f & Hpos & Hk & Hf & Hw & _)]]; cbn in *; [done|].
  eapply output_one_ok; [done|split; [exact Hr|exact Hpos]|done|done|done|]. intros b s' Hs' Hlt. apply HR; [done|]. intros Hb. specialize (Hlt Hb).
  assert (n_waiting s1 = n_waiting s) as <-; [|done]. unfold n_waiting, in_use, waits. by rewrite E1, E2.
Qed.

Lemma output_all_ok s flush (R : unit → h264_dpb_stru → Prop) E : ok s → (∀ s', ok s' → R tt s') → wp False (output_all flush) R E s.
Proof.
  intros Hs HR. unfold output_all. wp_step. apply (while_wp n_waiting ok); [done| | |intros b s' Hs'; wp_step; by apply HR].
  - pose proof (n_waiting_range _ Hs). unfold TURNS, DPB_SIZE_MAX in *. lia.
  - intros s' Hs'. split; [apply (n_waiting_range _ Hs')|]. by apply output_frames_ok.
Qed.

(** Marking a frame store, from [ok]. *)
Lemma unmark_ok d s k (R : unit → h264_dpb_stru → Prop) E : okd d s → 0 ≤ k < DPB_SIZE_MAX → (∀ s', okd d s' → R tt s') → wp False (unmark_for_reference (Some k)) R E s.
Proof.
  intros [Hs <-] Hk HR. eapply (unmark_for_reference_kept fx m ex s (proj1 Hs) (mDPB s)); [split; [by apply ok_start|done]|done|].
  intros s' [H1 H2]. apply HR. split; [by eapply ok_kept|done].
Qed.

Lemma unmark_lt_ok d s k (R : unit → h264_dpb_stru → Prop) E : okd d s → 0 ≤ k < DPB_SIZE_MAX → (∀ s', okd d s' → R tt s') → wp False (unmark_for_long_term_reference (Some k)) R E s.
Proof.
  intros [Hs <-] Hk HR. eapply (unmark_for_long_term_reference_kept fx m ex s (proj1 Hs) (mDPB s)); [split; [by apply ok_start|done]|done|].
  intros s' [H1 H2]. apply HR. split; [by eapply ok_kept|done].
Qed.

Lemma update_ref_list_ok s (R : unit → h264_dpb_stru → Prop) E : ok s → (∀ s', ok s' → R tt s') → wp False update_ref_list R E s.
Proof. intros Hs HR. eapply (update_ref_list_kept fx m ex s (proj1 Hs)); [by apply ok_start|]. intros s' H'. apply HR. by eapply ok_kept. Qed.

Lemma update_ltref_list_ok s (R : unit → h264_dpb_stru → Prop) E : ok s → (∀ s', ok s' → R tt s') → wp False update_ltref_list R E s.
Proof. intros Hs HR. eapply (update_ltref_list_kept fx m ex s (proj1 Hs)); [by apply ok_start|]. intros s' H'. apply HR. by eapply ok_kept. Qed.

(** A loop over the frame stores in use. *)
Lemma in_use_loop d s (body : Z → D unit) (R : unit → h264_dpb_stru → Prop) E : okd d s →
  (∀ i s', okd d s' → 0 ≤ i < used_size d → wp False (body i) (fun _ => okd d) E s') → (∀ s', okd d s' → R tt s') →
  wp False (for_range 0 (used_size d) body) R E s.
Proof. intros Hs Hb HR. apply (wp_for_range _ _ _ (fun _ => okd d)); [done| |done]. intros i s' Hi Hs'. by apply Hb. Qed.

Lemma fs_ptr_okd d s i (R : option Z → h264_dpb_stru → Prop) E : okd d s → 0 ≤ i < used_size d →
  (∀ k f, 0 ≤ k < DPB_SIZE_MAX → store s k = Some f → R (Some k) s) → wp False (ptr_of fs i) R E s.
Proof. intros [Hs <-] Hi HR. apply fs_ptr_ok; [done|done|]. intros k f Hk _ Hf _. by eapply HR. Qed.

Lemma flush_dpb_ok s (R : unit → h264_dpb_stru → Prop) E : ok s → (∀ s', ok s' → R tt s') → wp False flush_dpb R E s.
Proof.
  intros Hs HR. unfold flush_dpb. wp_step. wp_step. wp_step; [|by apply HR]. wp_step. apply (in_use_loop _ s); [by split| |].
  { intros i s1 H1 Hi. wp_step. eapply fs_ptr_okd; [done|done|]. intros k f Hk Hf. by eapply unmark_ok. }
  intros s1 [H1 _]. wp_step. apply remove_unused_frames_ok; [done|]. intros b s2 H2. wp_step. apply output_all_ok; [done|]. intros s3 H3.
  apply upd_dpb_ok; [done|done..|by intros d; apply refs_same; auto|]. by apply HR.
Qed.

Lemma set_output_flag_ok d s i (R : unit → h264_dpb_stru → Prop) E : okd d s → 0 ≤ i < DPB_SIZE_MAX → (∀ s', okd d s' → R tt s') →
  wp False (set_frame_output_flag i) R E s.
Proof.
  intros [Hs Hd] Hi HR. unfold set_frame_output_flag. rewrite (proj2 (Z.leb_le _ _)), (proj2 (Z.ltb_lt _ _)) by lia. cbn [andb].
  apply upd_fs_ok; [done|done|by repeat split; auto|]. intros f Hf H'. by apply HR.
Qed.

(** An IDR picture. *)
Lemma idr_ok s o (R : unit → h264_dpb_stru → Prop) E : ok s → o ∈ ex → (∀ s', ok s' → R tt s') → wp False (idr_memory_management (Some o)) R E s.
Proof.
  intros Hs Ho HR. unfold idr_memory_management. wp_step. apply pic_at_ok; [done|done|]. intros p Hp. wp_step. apply (wp_mono _ (fun _ => ok) _ E); [|intros [] s1 H1|done].
  - wp_step; [|by apply flush_dpb_ok]. wp_step. wp_step. apply (in_use_loop _ s); [by split| |by intros ? []]. intros i s1 H1 Hi. wp_step. eapply fs_ptr_okd; [done|done|].
    intros k f Hk Hf. wp_step. eapply unmark_ok; [done|done|]. intros s2 H2. destruct (ok_store _ _ _ _ k (proj1 H2) Hk) as (f2 & Hf2 & _). wp_step. eapply fs_at_wp; [done|].
    assert (∀ s3, okd (mDPB s) s3 → wp False (f ← fs_at (Some k); when (waiting f) (set_frame_output_flag i)) (fun _ => okd (mDPB s)) E s3) as Hlast.
    { intros s3 H3. destruct (ok_store _ _ _ _ k (proj1 H3) Hk) as (f3 & Hf3 & _). wp_step. eapply fs_at_wp; [done|]. wp_step; [|done].
      eapply set_output_flag_ok; [done| |done]. pose proof (ok_sizes _ Hs). lia. }
    wp_step. wp_step; [|by apply Hlast]. by eapply unmark_lt_ok.
  - wp_step. apply upd_dpb_ok; [done|done..|by intros d; apply refs_same; auto|]. intros H2. wp_step. apply update_ref_list_ok; [done|]. intros s3 H3. wp_step.
    apply update_ltref_list_ok; [done|]. intros s4 H4. wp_step. apply upd_dpb_ok; [done|done..|by intros d; apply refs_same; auto|]. intros H5. wp_step.
    apply pic_at_ok; [done|done|]. intros q Hq. wp_step; wp_step; (apply upd_dpb_ok; [done|done..|by intros d; apply refs_same; auto|]; intros H6;
      eapply upd_pic_ok; [by split|done|by intros []|]; intros x Hx [H7 _]; by apply HR).
Qed.
(** *** Control operations *)

Lemma keptd_ok d s s' (R : unit → h264_dpb_stru → Prop) : ok s → (∀ s', ok s' → R tt s') → keptd s d s' → R tt s'.
Proof. intros Hs HR [H1 _]. apply HR. by eapply ok_kept. Qed.

Lemma ok_startd s : ok s → keptd s (mDPB s) s.
Proof. intros Hs. split; [by apply ok_start|done]. Qed.

Lemma do_mmco_ok s o c (R : unit → h264_dpb_stru → Prop) E : ok s → o ∈ ex → (∀ s', ok s' → R tt s') → wp False (do_mmco (Some o) c) R E s.
Proof.
  intros Hs Ho HR. pose proof (proj2 Hs o Ho) as Hst. pose proof (ok_startd _ Hs) as Hd. pose proof (ok_start _ Hs) as Hk. pose proof (proj1 Hs) as HI.
  assert (∀ s1, kept s s1 → ok s1) as Hok by (intros; by eapply ok_kept). unfold do_mmco. cbv zeta.
  wp_step; [wp_step; eapply (mm_unmark_short_kept fx m ex s HI); [done|done|]; intros s1 [Hs1 _]; apply update_ref_list_ok; [by apply Hok|done]|].
  wp_step; [wp_step; eapply (mm_unmark_long_kept fx m ex s HI); [done|done|]; intros s1 [Hs1 _]; apply update_ltref_list_ok; [by apply Hok|done]|].
  wp_step; [wp_step; eapply (mm_assign_kept fx m ex s HI); [done|done|]; intros s1 [Hs1 _]; wp_step; apply update_ref_list_ok; [by apply Hok|];
    intros s2 Hs2; by apply update_ltref_list_ok|].
  wp_step; [wp_step; eapply (mm_update_max_kept fx m ex s HI); [done|]; intros s1 Hs1; apply update_ltref_list_ok; [by apply Hok|done]|].
  wp_step; [|wp_step; [eapply (mm_mark_current_kept fx m ex s HI); [done|done|]; intros s1 Hs1; by apply HR, Hok|wp_step; by apply HR]].
  wp_step. eapply (mm_unmark_all_short_kept fx m ex s HI); [done|]. intros s1 Hs1. wp_step. eapply (mm_update_max_kept fx m ex s HI); [done|]. intros s2 Hs2.
  apply wp_modify, HR. eapply (ok_same s2); [by apply Hok|done..|]. apply (ok_refs s2). by apply Hok.
Qed.

(** The commands of a slice: they follow each other in the buffer, so that
    their list ends. *)
Lemma mmco_loop_ok o (R : unit → h264_dpb_stru → Prop) E n : ∀ s x, ok s → o ∈ ex → pic s o = Some x →
  (∀ c, p_dec_ref_pic_marking_buffer x = Some c → DEC_REF_PIC_MARKING_BUFFER_NUM_MAX - Z.of_nat n ≤ c < DEC_REF_PIC_MARKING_BUFFER_NUM_MAX ∧ 0 ≤ c) →
  (∀ s', ok s' → R tt s') → wp False (mmco_loop n (Some o)) R E s.
Proof.
  induction n as [|n IH]; intros s x Hs Ho Hx Hc HR; cbn [mmco_loop]; wp_step; (eapply pic_at_wp; [done|]);
    (destruct (p_dec_ref_pic_marking_buffer x) as [c|] eqn:Ec; [specialize (Hc c eq_refl); try lia|wp_step; by apply HR]).
  wp_step. wp_step. destruct (so_chain _ (iv_slice (proj1 Hs))) as [Hlen Hnext]. destruct (aget_Some (marking_buffer (mSlice s)) c) as [cmd Hcmd]; [lia|]. rewrite Hcmd. cbn [of_option]. wp_step. wp_step.
  wp_step. apply do_mmco_ok; [done|done|]. intros s1 H1. wp_step. eapply (upd_pic_ok (mDPB s1)); [by split|done| |].
  { intros y Hy. split; try done. split; [done|]. intros _ c' Hc'. specialize (Hnext c cmd c' Hcmd Hc'). lia. }
  intros y Hy [H2 _]. eapply IH; [done|done|by eapply pic_set_eq| |done]. intros c' Hc'. cbn in Hc'. specialize (Hnext c cmd c' Hcmd Hc'). lia.
Qed.
Lemma upd_video_ok s g (R : unit → h264_dpb_stru → Prop) E : ok s → (∀ v, active_sps (g v) = active_sps v ∧ dec_picture (g v) = dec_picture v ∧ no_reference_picture (g v) = no_reference_picture v) →
  (ok (s <| mVideo := g (mVideo s) |>) → R tt (s <| mVideo := g (mVideo s) |>)) → wp False (upd_video g) R E s.
Proof.
  intros Hs Hg HR. apply wp_modify, HR. destruct (Hg (mVideo s)) as (E1 & E2 & E3). apply (ok_same s); try done; [|by apply (ok_refs s)].
  unfold fixed_of. cbn. by rewrite E2, E3.
Qed.

Lemma le_mmco5 x : le_pic x (mmco5_pic x).
Proof. unfold mmco5_pic. cbv zeta. by case_match. Qed.

Lemma adaptive_ok s o x (R : unit → h264_dpb_stru → Prop) E : ok s → o ∈ ex → pic s o = Some x → (∀ s', ok s' → R tt s') →
  wp False (adaptive_memory_management (Some o)) R E s.
Proof.
  intros Hs Ho Hx HR. assert (commands_ok x) as Hc by by eapply ex_commands. unfold adaptive_memory_management. wp_step. apply upd_video_ok; [done|done|]. intros Hs1. wp_step.
  eapply mmco_loop_ok; [done|done|exact Hx| |].
  { intros c Hc'. specialize (Hc c Hc'). rewrite Z2Nat.id by (unfold DEC_REF_PIC_MARKING_BUFFER_NUM_MAX; lia). lia. }
  intros s2 Hs2. wp_step. wp_step. wp_step; [|by apply HR]. wp_step. eapply (upd_pic_ok (mDPB s2)); [by split|done|intros ? _; apply le_mmco5|]. intros y Hy [Hs3 _]. by apply flush_dpb_ok.
Qed.

Lemma mark_before_store_ok s o x (R : unit → h264_dpb_stru → Prop) E : ok s → o ∈ ex → pic s o = Some x → (∀ s', ok s' → R tt s') →
  wp False (mark_before_store (Some o)) R E s.
Proof.
  intros Hs Ho Hx HR. unfold mark_before_store. wp_step. eapply pic_at_wp; [done|]. wp_step. apply upd_video_ok; [done|done|]. intros Hs1. wp_step.
  - wp_step. apply idr_ok; [done|done|]. intros s2 Hs2. wp_step. wp_step. wp_step; [|by apply HR]. apply wp_modify, HR. eapply (ok_same s2); try done. by apply (ok_refs s2).
  - wp_step; [|by apply HR]. by eapply adaptive_ok.
Qed.

Lemma sliding_ok s o (R : unit → h264_dpb_stru → Prop) E : ok s → o ∈ ex → (∀ s', ok s' → R tt s') → wp False (sliding_window_memory_management (Some o)) R E s.
Proof.
  intros Hs Ho HR. eapply (sliding_window_kept fx m ex s (proj1 Hs)); [by apply ok_start|by apply Hs|]. intros s' H'. apply HR. by eapply ok_kept.
Qed.

Lemma mark_concealment_ok s (R : unit → h264_dpb_stru → Prop) E : ok s → (∀ s', ok s' → R tt s') → wp False mark_concealment R E s.
Proof.
  intros Hs HR. unfold mark_concealment. wp_step. wp_step. wp_step; [|by apply HR]. apply (wp_for_range _ _ _ (fun _ => okd (mDPB s))); [by split| |intros s' []; by apply HR].
  intros i s1 Hi [Hs1 Ed]. destruct (iv_fs (proj1 Hs1)) as [_ _ Hfs _]. rewrite Ed in Hfs. destruct (Hfs i Hi) as (k & Hk & Hkr). wp_step. apply (ptr_wp fs i (Some k)); [by rewrite Ed|].
  destruct (ok_store _ _ _ _ k Hs1 Hkr) as (f & Hf & _). wp_step. eapply fs_at_wp; [done|]. wp_step; [|by split].
  apply upd_fs_ok; [done|done|by repeat split; auto|]. intros g Hg Hs2. by split.
Qed.

Lemma ok_last s k : ok s → last_picture (mDPB s) = Some k → 0 ≤ k < DPB_SIZE_MAX.
Proof. intros Hs Hk. by apply (ro_last _ (ok_refs _ Hs)). Qed.

Lemma show_lone_field_ok s x (R : unit → h264_dpb_stru → Prop) E : ok s → (∀ s', ok s' → R tt s') → wp False (show_lone_field x) R E s.
Proof.
  intros Hs HR. unfold show_lone_field. wp_step. wp_step. destruct (last_picture (mDPB s)) as [k|] eqn:Ek; [|wp_step; by apply HR]. pose proof (ok_last _ _ Hs Ek) as Hk.
  destruct (ok_store _ _ _ _ k Hs Hk) as (f & Hf & _). wp_step. eapply fs_at_wp; [done|]. wp_step; [|by apply HR].
  apply upd_fs_ok; [done|done|by repeat split; auto|]. intros g Hg. apply HR.
Qed.

(** The check for duplicates: every turn takes the next entry of the list of
    references, which has at most [DPB_SIZE_MAX]. *)
Lemma check_duplicates_ok num (R : bool → h264_dpb_stru → Prop) E n : ∀ s i, ok s → 0 ≤ i → DPB_SIZE_MAX < Z.of_nat n + i → (∀ b s', ok s' → R b s') →
  wp False (check_duplicates n i num) R E s.
Proof.
  induction n as [|n IH]; intros s i Hs Hi Hn HR; cbn [check_duplicates]; wp_step; wp_step; destruct (ro_short _ (ok_refs _ Hs)) as (_ & Hr & Href & _);
    (wp_step; [wp_step; by apply HR|]); bprop; [lia|]. destruct (Href i) as (k & Hk & Hkr); [lia|]. wp_step. eapply ptr_wp; [done|]. cbv beta iota.
  destruct (ok_store _ _ _ _ k Hs Hkr) as (f & Hf & _). wp_step. eapply fs_at_wp; [done|].
  wp_step; [|apply IH; [done|lia|lia|done]]. wp_step; [wp_step; by apply HR|]. wp_step. apply (unmark_ok (mDPB s)); [by split|done|]. intros s1 [Hs1 _]. wp_step.
  apply update_ref_list_ok; [done|]. intros s2 Hs2. apply IH; [done|lia|lia|done].
Qed.
End Driver.
End Safe.

(** ** Storing a picture *)

Section Storing.
Context (fx : fixed) (m : bool) `{!H264Driver} `{!H264DriverOk (x_display fx)} (ex : list Z) (Hex : (length ex < 31)%nat) (o : Z).
Implicit Types (s : h264_dpb_stru) (E : Z → h264_dpb_stru → Prop).
Notation before := (ok fx m (o :: ex)).
Notation after := (ok fx m ex).

Lemma head_in : o ∈ o :: ex.
Proof. by left. Qed.

Lemma before_filling s k f : before s → 0 ≤ k < DPB_SIZE_MAX → store s k = Some f → filling fx m ex k (o :: ex) (mDPB s) f s.
Proof.
  intros [HI Hst] Hk Hf. split; [by apply inv_open|done|done|]. intros p Hp. split; [rewrite elem_of_app; right; by right|apply Hst; by right].
Qed.

(** The picture is in its frame store, which is in use. *)
Lemma inserted_after s k d : 0 ≤ k < DPB_SIZE_MAX → inserted fx m ex k ex d o s → (∃ i, at_pos d i k) → after s.
Proof.
  intros Hk (f & Hs & Hsh & Hu & _) Hpos. split; [|intros p Hp; by apply (fl_keep _ _ _ _ _ _ _ _ Hs)].
  eapply (inv_close _ _ _ _ k f); [apply Hs|apply Hs|done|]. by rewrite (fl_dpb _ _ _ _ _ _ _ _ Hs).
Qed.

Lemma store_at_fits s k x f : before s → pic s o = Some x → store s k = Some f → second_field_of x f = true → goes m (p_structure x) f ∧ f_is_used f ≠ 0.
Proof.
  intros [_ Hst] Hx Hf H2. destruct (Hst o head_in) as (y & Hy & Hm). simplify_eq. unfold second_field_of in H2.
  assert (m = true → p_structure x = FRAME) as Hm' by done. clear Hm. destruct (p_structure x), m; try (by discriminate (Hm' eq_refl)); cbn in *;
    rewrite ?andb_false_r, ?orb_false_r in H2; try done; destruct (Z.eqb_spec (f_is_used f) 1), (Z.eqb_spec (f_is_used f) 2); cbn in H2; rewrite ?andb_false_r in H2; try done; lia || auto.
Qed.
(** The end of both ways to store: the lists are rebuilt, frames put out. *)
Lemma update_lists_after s (k : D Z) (R : Z → h264_dpb_stru → Prop) E : after s → (∀ s', after s' → wp False k R E s') →
  wp False (update_ref_list;; update_ltref_list;; k) R E s.
Proof. intros Hs Hk. wp_step. eapply update_ref_list_ok; [done|]. intros s1 Hs1. wp_step. eapply update_ltref_list_ok; [done|]. intros s2 Hs2. by apply Hk. Qed.

Lemma store_second_field_ok s k x f df (R : Z → h264_dpb_stru → Prop) E : before s → last_picture (mDPB s) = Some k → pic s o = Some x → store s k = Some f →
  second_field_of x f = true → (∀ s', after s' → R 0 s') → wp False (store_second_field (Some o) df) R E s.
Proof.
  intros Hs Hlast Hx Hf H2 HR. destruct (store_at_fits _ _ _ _ Hs Hx Hf H2) as [Hgo Hu]. pose proof (ok_last _ _ _ _ _ Hs Hlast) as Hk.
  pose proof (iv_used (proj1 Hs) k f Hk ltac:(done) Hf) as [Hat _]. specialize (Hat Hu). pose proof (iv_shape (proj1 Hs) k f Hk ltac:(done) Hf) as Hsh.
  unfold store_second_field. wp_step. wp_step. rewrite Hlast. wp_step. eapply (insert_picture_fill fx m ex k Hk ex); [by apply before_filling|done|done|done|done|].
  intros s1 Hs1. apply (inserted_after s1 k _ Hk) in Hs1; [|done]. apply update_lists_after; [done|]. intros s2 Hs2.
  wp_step. apply (upd_dpb_ok fx m ex); [done|done..|by intros d; apply refs_same; auto|]. intros Hs3. wp_step. wp_step. wp_step.
  wp_step; [|wp_step; by apply HR]. eapply (output_all_ok fx m ex); [done|]. intros s4 Hs4. wp_step. by apply HR.
Qed.

(** A frame store behind those in use is empty. *)
Lemma free_store s k f : before s → used_size (mDPB s) < size (mDPB s) → aget (fs (mDPB s)) (used_size (mDPB s)) = Some (Some k) → 0 ≤ k < DPB_SIZE_MAX →
  store s k = Some f → f_is_used f = 0.
Proof.
  intros [HI _] Hlt Hk Hkr Hf. destruct (decide (f_is_used f = 0)) as [|Hne]; [done|]. apply (iv_used HI k f Hkr ltac:(done) Hf) in Hne as (i & Hi & Hik).
  destruct (iv_fs HI) as [_ Hsz _ Hinj]. exfalso. assert (i = used_size (mDPB s)); [|lia]. eapply Hinj; [lia|lia|done|done].
Qed.

(** The buffer has grown by the frame store that was filled. *)
Lemma grown_after s k d l : 0 ≤ k < DPB_SIZE_MAX → inserted fx m ex k ex d o s → fs_ok d → used_size d < size d → aget (fs d) (used_size d) = Some (Some k) →
  l = None ∨ l = Some k → after (s <| mDPB := d <| last_picture := l |> <| used_size := used_size d + 1 |> |>).
Proof.
  intros Hk (f & [HI Hf Hd Hkp] & Hsh & Hu & _) Hok Hlt Hat Hl. split; [|intros p Hp; by apply Hkp]. destruct Hok as [F1 F2 F3 F4].
  set (d' := d <| last_picture := l |> <| used_size := used_size d + 1 |>). assert (∀ i j, at_pos d' i j ↔ at_pos d i j ∨ i = used_size d ∧ j = k) as Hpos.
  { intros i j. unfold at_pos. cbn. split.
    - intros [Hi Hj]. destruct (decide (i = used_size d)) as [->|]; [right; split; [done|congruence]|left; split; [lia|done]].
    - intros [[Hi Hj]|[-> ->]]; (split; [lia|done]). }
  eapply (inv_close _ _ _ _ k f); [|done|done|].
  - destruct HI as [? ? ? ? ? ? ? ? HU ? HR ? ? ? ? HF]. rewrite Hd in *. split; try done.
    + split; cbn; [done|lia|done|done].
    + intros j g Hj Hne Hg. cbn in Hg. rewrite (HU j g Hj Hne Hg). cbn. split; intros [i Hi]; exists i; [apply Hpos; by left|].
      apply Hpos in Hi as [Hi|[-> ->]]; done.
    + destruct HR as [R1 R2 R3]. split; [done|done|done|]. cbn. destruct Hl as [->| ->]; [done|]. intros j [= <-]. done.
    + rewrite <- HF. unfold fixed_of. cbn. by rewrite Hd.
  - split; [intros _; exists (used_size d); apply Hpos; by right|done].
Qed.

Lemma store_at_end_ok s x df (R : Z → h264_dpb_stru → Prop) E : before s → pic s o = Some x → (∀ s', after s' → R 0 s') → (before s → R (-1) s) →
  wp False (store_at_end (Some o) df) R E s.
Proof.
  intros Hs Hx HR HR1. unfold store_at_end. wp_step. wp_step. wp_step; bprop; [wp_step; by apply HR1|]. pose proof (iv_fs (proj1 Hs)) as Hok. pose proof Hok as [F1 F2 F3 F4].
  set (d := mDPB s) in *. destruct (F3 (used_size d)) as (k & Hat & Hk); [lia|]. destruct (ok_store _ _ _ _ k Hs Hk) as (f & Hf & Hsh).
  assert (f_is_used f = 0) as Hu by (by eapply (free_store s k f)). assert (goes m (p_structure x) f) as Hgo.
  { destruct (proj2 Hs o head_in) as (y & Hy & Hm). simplify_eq. destruct (p_structure x); [done| |]; destruct m; try (by discriminate (Hm eq_refl)); cbn; auto. }
  wp_step. eapply ptr_wp; [exact Hat|]. wp_step. eapply (insert_picture_fill fx m ex k Hk ex); [by apply before_filling|done|done|done|done|].
  intros s1 Hs1. change (mDPB s) with d in Hs1. assert (∀ s2 l, inserted fx m ex k ex d o s2 → l = None ∨ l = Some k →
    wp False (upd_dpb (fun d => d <| last_picture := l |>);; upd_dpb (fun d => d <| used_size := used_size d + 1 |>);; update_ref_list;; update_ltref_list;;
      s ← get; let fast := fast_output_enable s =? H264_OUTPUT_MODE_FAST in
      (when (fast || negb (is_eq (first_insert_frame s) FirstInsertFrm_SKIPDONE) || is_save_buffer_mode) (output_all fast));;
      upd_dpb (fun d => d <| first_pic_done := true |>);; mret 0) R E s2) as Hend.
  { intros s2 l Hs2 Hl. pose proof (grown_after s2 k d l Hk Hs2 Hok ltac:(lia) Hat Hl) as Hs3. destruct Hs2 as (f2 & Hs2 & _). pose proof (fl_dpb _ _ _ _ _ _ _ _ Hs2) as Ed.
    wp_step. apply wp_modify. wp_step. apply wp_modify. match goal with |- wp _ _ _ _ ?y => set (s4 := y) end.
    assert (s4 = s2 <| mDPB := d <| last_picture := l |> <| used_size := used_size d + 1 |> |>) as -> by (unfold s4; cbn; by rewrite Ed).
    apply update_lists_after; [done|]. intros s5 Hs5. wp_step. wp_step. cbv zeta. wp_step.
    assert (∀ s6, after s6 → wp False (upd_dpb (fun d => d <| first_pic_done := true |>);; mret 0) R E s6) as Hlast.
    { intros s6 Hs6. wp_step. eapply (upd_dpb_ok fx m ex); [done|done..|by intros e; apply refs_same; auto|]. intros Hs7. wp_step. by apply HR. }
    wp_step; [|by apply Hlast]. by eapply (output_all_ok fx m ex). }
  wp_step. destruct Hs1 as (f1 & Hf1 & Hrest). eapply pic_at_fill; [done|exact Hf1|rewrite elem_of_app; left; apply Hrest|]. intros y _ _.
  assert ((if is_eq (p_structure y) FRAME then None else Some k) = None ∨ (if is_eq (p_structure y) FRAME then None else Some k) = Some k) as Hl by (destruct (is_eq _ _); auto).
  wp_step. wp_step; [|apply Hend; [by exists f1|done]]. apply wp_modify. apply Hend; [|done]. exists f1. split; [by eapply filling_same|done].
Qed.
Lemma is_second_field_ok s x (R : bool → h264_dpb_stru → Prop) E : before s →
  (∀ b, (b = true → ∃ k f, last_picture (mDPB s) = Some k ∧ store s k = Some f ∧ second_field_of x f = true) → R b s) → wp False (is_second_field x) R E s.
Proof.
  intros Hs HR. unfold is_second_field. wp_step. wp_step. wp_step; [wp_step; by apply HR|]. destruct (last_picture (mDPB s)) as [k|] eqn:Ek; [|wp_step; by apply HR].
  destruct (ok_store _ _ _ _ k Hs (ok_last _ _ _ _ _ Hs Ek)) as (f & Hf & _). wp_step. eapply fs_at_wp; [done|]. wp_step. apply HR. intros H2. by exists k, f.
Qed.

(** What [store_picture_in_dpb] comes to: the picture belongs to a frame store
    now, or it still is the caller's. *)
Definition store_result (r : Z) s : Prop := r = 0 ∧ after s ∨ (r = -1 ∨ r = -2) ∧ before s.

Lemma store_picture_ok s x df (R : Z → h264_dpb_stru → Prop) E : before s → pic s o = Some x → (∀ r s', store_result r s' → R r s') →
  wp False (store_picture_in_dpb (Some o) df) R E s.
Proof.
  intros Hs Hx HR. pose proof head_in as Ho. unfold store_picture_in_dpb. wp_step. eapply (mark_before_store_ok fx m (o :: ex)); [done|done|exact Hx|]. intros s1 Hs1.
  wp_step. eapply (pic_at_ok fx m (o :: ex)); [done|done|]. intros x1 Hx1. wp_step. apply is_second_field_ok; [done|]. intros b H2. destruct b.
  { destruct (H2 eq_refl) as (k & f & Hlast & Hf & H2'). eapply store_second_field_ok; [done|done|done|done|done|]. intros s2 Hs2. apply HR. by left. }
  clear H2. assert (∀ s2, before s2 → wp False (mark_concealment;; _ ← remove_unused_frames; show_lone_field x1;; output_all false;; p ← pic_at (Some o);
    dup ← (if p_used_for_reference p && negb (p_is_long_term p) then check_duplicates TURNS 0 (p_frame_num p) else mret false);
    if (dup : bool) then mret (-2) else store_at_end (Some o) df) R E s2) as Hrest.
  { intros s2 Hs2. wp_step. eapply (mark_concealment_ok fx m (o :: ex)); [done|]. intros s3 Hs3. wp_step. eapply (remove_unused_frames_ok fx m (o :: ex)); [done|]. intros _ s4 Hs4.
    wp_step. eapply (show_lone_field_ok fx m (o :: ex)); [done|]. intros s5 Hs5. wp_step. eapply (output_all_ok fx m (o :: ex)); [done|]. intros s6 Hs6. wp_step. eapply (pic_at_ok fx m (o :: ex)); [done|done|]. intros x6 Hx6.
    wp_step. apply (wp_mono _ (fun _ s' => before s') _ E); [| |done].
    - wp_step; [|by wp_step]. eapply (check_duplicates_ok fx m (o :: ex)); [done|lia|unfold TURNS, DPB_SIZE_MAX; lia|done].
    - intros dup s7 Hs7. wp_step; [wp_step; apply HR; right; auto|]. destruct (proj2 Hs7 o Ho) as (x7 & Hx7 & _).
      eapply store_at_end_ok; [done|done|intros s8 Hs8; apply HR; by left|intros Hs8; apply HR; right; auto]. }
  wp_step. wp_step; [|by apply Hrest]. eapply (sliding_ok fx m (o :: ex)); [done|done|done].
Qed.

(** [release_picture]. *)
Lemma release_picture_ok s (R : unit → h264_dpb_stru → Prop) E : before s → (∀ s', after s' → R tt s') → wp False (release_picture (Some o)) R E s.
Proof.
  intros Hs HR. assert (∀ s1, before s1 → wp False (free_picture (Some o)) R E s1) as Hfree.
  { intros s1 [HI Hst]. apply (free_picture_wp s1).
    - intros p Hp. assert (p = o) as -> by (cbn in Hp; set_solver). assert (o ∈ owned (mFrameStore s1) ++ o :: ex) as Hin by set_solver.
      apply (iv_own_used HI) in Hin as (x & Hr & Hx & _). split; [done|]. exists x. split; [done|]. by apply (iv_index HI).
    - intros s2 Hfr. apply HR. split; [by eapply (inv_freed fx m [o] ex)|]. intros p Hp. destruct (Hst p) as (x & Hx & Hm); [by right|].
      eexists. split; [by apply (fr_pics _ _ _ Hfr)|]. by case_bool_decide. }
  assert (∀ s1 e, before s1 → wp False (log e;; free_picture (Some o)) R E s1) as Hlog.
  { intros s1 e Hs1. wp_step. apply wp_modify. apply Hfree. apply (ok_same fx m (o :: ex) s1); try done. by apply (ok_refs fx m (o :: ex) s1). }
  assert (∀ s1 i (R1 : unit → h264_dpb_stru → Prop), before s1 → (∀ s2, before s2 → R1 tt s2) →
    wp False (release_colocate_buf i;; upd_pic (Some o) (fun p => p <| p_colocated_buf_index := -1 |>)) R1 E s1) as Hcol.
  { intros s1 i R1 Hs1 HR1. wp_step. eapply (release_colocate_ok fx m (o :: ex)); [done|]. intros n Hn. eapply (upd_pic_ok fx m (o :: ex)); [by split|apply head_in|by intros []|].
    intros x Hx [Hs2 _]. by apply HR1. }
  unfold release_picture. wp_step. wp_step. wp_step. eapply (pic_at_ok fx m (o :: ex)); [done|apply head_in|]. intros x Hx. destruct (last_picture (mDPB s)).
  - wp_step. wp_step. apply (wp_mono _ (fun _ s' => before s') _ E); [| |done].
    + wp_step; [|done]. apply wp_modify. apply (ok_same fx m (o :: ex) s); try done. by apply (ok_refs fx m (o :: ex) s).
    + intros [] s1 Hs1. wp_step; [|by apply Hfree]. by apply Hcol.
  - wp_step. wp_step. wp_step; [|by apply Hlog]. apply Hcol; [done|]. intros s2 Hs2. by apply Hlog.
Qed.
End Storing.
