(* ===== verification/H264Keeps.v ===== *)
(** Facts about the frame stores of the H.264 decoded picture buffer
    (src/drivers/frame_provider/decoder/h264_multi/h264_dpb.c) that operations
    keep, by a rule per construct of the program instead of an argument about
    definedness: every frame store in use has a buffer of the driver, before
    and after a flush. *)

From stdpp Require Import base list numbers.
From Stdlib Require Import ZArith Lia Bool.
From S2P Require Import Prelude H264Types H264Pool H264Display H264Mark H264Store H264Inv.

#[local] Open Scope Z_scope.

Create HintDb retains.

(** ** Programs that keep [I] *)

Section Keeps.
Context (I : h264_dpb_stru → Prop).

(** From a state with [I], [c] ends in one, if it ends normally. *)
Definition retains {A} (c : D A) : Prop := ∀ s a s', I s → c s = Ok a s' → I s'.

Lemma retains_wp {A} (c : D A) : (∀ s, I s → wp True c (fun _ => I) (fun _ _ => True) s) → retains c.
Proof. intros H s a s' Hs E. specialize (H s Hs). unfold wp in H. by rewrite E in H. Qed.

Lemma retains_ret {A} (a : A) : retains (mret a).
Proof. by intros s b s' Hs [= <- <-]. Qed.

Lemma retains_bind {A B} (c : D A) (k : A → D B) : retains c → (∀ a, retains (k a)) → retains (c ≫= k).
Proof. intros Hc Hk s b s' Hs. unfold mbind, D_bind, M_bind. destruct (c s) as [a s1| |] eqn:E; [|done..]. apply Hk. by eapply Hc. Qed.

Lemma retains_gets {A} (f : h264_dpb_stru → A) : retains (gets f).
Proof. by intros s b s' Hs [= <- <-]. Qed.

Lemma retains_get : retains get.
Proof. by intros s b s' Hs [= <- <-]. Qed.

Lemma retains_modify g : (∀ s, I s → I (g s)) → retains (modify g).
Proof. intros Hg s b s' Hs [= <- <-]. by apply Hg. Qed.

Lemma retains_undef {A} : retains (undef : D A).
Proof. by intros s b s' Hs. Qed.

Lemma retains_option {A} (o : option A) : retains (of_option o).
Proof. destruct o; [apply retains_ret|apply retains_undef]. Qed.

Lemma retains_when b (c : D unit) : retains c → retains (when b c).
Proof. destruct b; [done|]. intros _. apply retains_ret. Qed.

Lemma retains_for_n n (body : Z → D unit) : ∀ lo, (∀ i, retains (body i)) → retains (for_n n lo body).
Proof. induction n as [|n IH]; intros lo Hb; [apply retains_ret|]. apply retains_bind; [done|]. intros _. by apply IH. Qed.

Lemma retains_for lo hi (body : Z → D unit) : (∀ i, retains (body i)) → retains (for_range lo hi body).
Proof. apply retains_for_n. Qed.

Lemma retains_fold_n {A} n (body : Z → A → D A) : ∀ lo a, (∀ i a, retains (body i a)) → retains (fold_n n lo body a).
Proof. induction n as [|n IH]; intros lo a Hb; [apply retains_ret|]. apply retains_bind; [done|]. intros b. by apply IH. Qed.

Lemma retains_fold {A} lo hi (body : Z → A → D A) a : (∀ i a, retains (body i a)) → retains (fold_range lo hi body a).
Proof. apply retains_fold_n. Qed.

Lemma retains_until_n n (body : Z → D flow) : ∀ i, (∀ i, retains (body i)) → retains (until_n n i body).
Proof. induction n as [|n IH]; intros i Hb; [apply retains_ret|]. apply retains_bind; [done|]. intros [| |]; [by apply IH..|apply retains_ret]. Qed.

Lemma retains_until hi (body : Z → D flow) : (∀ i, retains (body i)) → retains (until hi body).
Proof. apply retains_until_n. Qed.

Lemma retains_while n (body : D bool) : retains body → retains (while_ n body).
Proof.
  intros Hb. induction n as [|n IH]; [apply retains_undef|]. apply retains_bind; [done|]. intros [|]; [|apply retains_ret]. apply retains_bind; [done|]. intros _. apply retains_ret.
Qed.
End Keeps.

#[export] Hint Resolve retains_ret retains_gets retains_get retains_undef retains_option : retains.

(** A rule for the head of the program; what is left over are the conditions
    of [modify]. *)
Ltac retains_step :=
  first
  [ solve [auto with retains]
  | apply retains_bind; [|intros ?]
  | apply retains_when
  | apply retains_for; intros ?
  | apply retains_fold; intros ? ?
  | apply retains_until; intros ?
  | apply retains_while
  | apply retains_modify; [] 
  | match goal with |- retains _ (match ?x with _ => _ end) => destruct x end ].

(** ** Buffers of frame stores *)

(** A frame store in use has a buffer. *)
Definition has_buffer (f : FrameStore) : Prop := f_is_used f ≠ 0 → 0 ≤ f_buf_spec_num f < BUFSPEC_POOL_SIZE.

(** All frame stores have, but for [X]. *)
Definition buffered_but (X : option Z) (s : h264_dpb_stru) : Prop :=
  ∀ k f, 0 ≤ k < DPB_SIZE_MAX → Some k ≠ X → aget (mFrameStore s) k = Some f → has_buffer f.

Notation buffered := (buffered_but None).

(** The update of a frame store: one that is exempt, or one that stays good. *)
Lemma upd_fs_run o g s a s' : upd_fs o g s = Ok a s' → ∃ k f, o = Some k ∧ aget (mFrameStore s) k = Some f ∧ s' = s <| mFrameStore := <[Z.to_nat k := g f]> (mFrameStore s) |>.
Proof.
  assert (wp True (upd_fs o g) (fun _ s' => ∃ k f, o = Some k ∧ aget (mFrameStore s) k = Some f ∧ s' = s <| mFrameStore := <[Z.to_nat k := g f]> (mFrameStore s) |>) (fun _ _ => True) s) as W.
  { unfold upd_fs. wp_step. wp_step; [|done]. wp_step. wp_step. wp_step. wp_step; [|done]. apply wp_modify. eauto. }
  intros E. unfold wp in W. by rewrite E in W.
Qed.

Lemma buffered_upd X o g : (o = X ∨ ∀ f, has_buffer f → has_buffer (g f)) → retains (buffered_but X) (upd_fs o g).
Proof.
  intros Hg s a s' Hs (k & f & -> & Ef & ->)%upd_fs_run j h Hj Hx. cbn. pose proof (aget_inv _ _ _ Ef) as [? _]. destruct (decide (j = k)) as [->|Hne].
  - rewrite aget_insert by done. intros [= <-]. destruct Hg as [<-|Hg]; [done|]. apply Hg. by apply (Hs k f).
  - rewrite aget_insert_ne by lia. by apply Hs.
Qed.

Lemma buffered_close k s g a s' : buffered_but (Some k) s → (∀ f, f_is_used (g f) = 0) → upd_fs (Some k) g s = Ok a s' → buffered s'.
Proof.
  intros Hs Hg (i & f & [= <-] & Ef & ->)%upd_fs_run j h Hj _. cbn. pose proof (aget_inv _ _ _ Ef) as [? _]. destruct (decide (j = k)) as [->|Hne].
  - rewrite aget_insert by done. intros [= <-]. unfold has_buffer. by rewrite Hg.
  - rewrite aget_insert_ne by lia. apply Hs; [done|congruence].
Qed.

(** ** Primitives *)

Section Primitives.
Context (I : h264_dpb_stru → Prop).

Lemma retains_fs_at o : retains I (fs_at o).
Proof. unfold fs_at. repeat retains_step. Qed.

Lemma retains_pic_at o : retains I (pic_at o).
Proof. unfold pic_at. repeat retains_step. Qed.

Lemma retains_ptr_of arr i : retains I (ptr_of arr i).
Proof. unfold ptr_of. repeat retains_step. Qed.

Lemma retains_spec_at hw n : retains I (spec_at hw n).
Proof. unfold spec_at. repeat retains_step. Qed.
End Primitives.

Section Buffered.
Context (X : option Z).
Notation retains := (retains (buffered_but X)).

Lemma buffered_modify g : (∀ s, mFrameStore (g s) = mFrameStore s) → retains (modify g).
Proof. intros Hg. apply retains_modify. intros s Hs k f Hk Hx. rewrite Hg. by apply Hs. Qed.

Lemma buffered_upd_pic o g : retains (upd_pic o g).
Proof. unfold upd_pic. repeat retains_step. Qed.
End Buffered.

#[export] Hint Resolve retains_fs_at retains_pic_at retains_ptr_of retains_spec_at buffered_upd_pic : retains.
#[export] Hint Extern 2 (retains _ (modify _)) => apply buffered_modify; done : retains.
#[export] Hint Extern 2 (retains _ (log _)) => apply buffered_modify; done : retains.
#[export] Hint Extern 2 (retains _ (upd_dpb _)) => apply buffered_modify; done : retains.
#[export] Hint Extern 2 (retains _ (upd_fs _ _)) => apply buffered_upd; solve [by left | right; by intros ?] : retains.

(** ** Operations on references and buffers *)

Section Operations.
Context (X : option Z).
Notation retains := (retains (buffered_but X)).

Lemma retains_flag i : retains (set_frame_output_flag i).
Proof. unfold set_frame_output_flag. repeat retains_step. Qed.

Lemma retains_free_picture o : retains (free_picture o).
Proof. unfold free_picture. repeat retains_step. Qed.

Lemma retains_unmark k : retains (unmark_for_reference k).
Proof. unfold unmark_for_reference, unmark_pics, on_pic. repeat retains_step. Qed.

Lemma retains_used_for_reference k : retains (is_used_for_reference k).
Proof. unfold is_used_for_reference, any_pic, or_else, test_pic. repeat retains_step. Qed.

Lemma retains_release_colocate i : retains (release_colocate_buf i).
Proof. unfold release_colocate_buf. repeat retains_step. Qed.

Lemma retains_set_fs i o : retains (set_fs i o).
Proof. unfold set_fs. repeat retains_step. Qed.

Lemma retains_free_pictures : retains (free_pictures X).
Proof.
  unfold free_pictures. apply retains_bind; [apply retains_fs_at|]. intros f. pose proof retains_free_picture. repeat retains_step.
Qed.
End Operations.

#[export] Hint Resolve retains_flag retains_free_picture retains_unmark retains_used_for_reference retains_release_colocate retains_set_fs : retains.

(** ** A frame store leaves the buffer *)

Lemma bind_run {A B} (c : D A) (k : A → D B) s b s' : (x ← c; k x) s = Ok b s' → ∃ a s1, c s = Ok a s1 ∧ k a s1 = Ok b s'.
Proof. unfold mbind, D_bind, M_bind. destruct (c s) as [a s1| |]; [|done..]. eauto. Qed.

Lemma ptr_of_run arr i s o s' : ptr_of arr i s = Ok o s' → s' = s ∧ aget (arr (mDPB s)) i = Some o.
Proof.
  assert (wp True (ptr_of arr i) (fun o s' => s' = s ∧ aget (arr (mDPB s)) i = Some o) (fun _ _ => True) s) as W by (unfold ptr_of; wp_step; wp_step; by wp_step).
  intros E. unfold wp in W. by rewrite E in W.
Qed.

Lemma fs_at_run o s f s' : fs_at o s = Ok f s' → s' = s ∧ is_Some o.
Proof.
  assert (wp True (fs_at o) (fun f s' => s' = s ∧ is_Some o) (fun _ _ => True) s) as W by (unfold fs_at; wp_step; wp_step; [|done]; subst; wp_step; wp_step; by wp_step).
  intros E. unfold wp in W. by rewrite E in W.
Qed.

Lemma retains_shift_down X pos n : retains (buffered_but X) (shift_down pos n).
Proof. unfold shift_down. repeat retains_step. Qed.

(** The frame store at [pos] is the one that may be without a buffer; it is
    not in use any more. *)
Lemma remove_frame_buffered pos k s a s' : aget (fs (mDPB s)) pos = Some (Some k) → buffered_but (Some k) s → remove_frame_from_dpb pos s = Ok a s' → buffered s'.
Proof.
  intros Hk Hs. unfold remove_frame_from_dpb. intros (o & s1 & [-> Ho]%ptr_of_run & E)%bind_run. assert (o = Some k) as -> by congruence.
  apply bind_run in E as (u & s2 & E2 & E). apply retains_free_pictures in E2; [|done]. apply bind_run in E as (u2 & s3 & E3 & E).
  eapply (buffered_close k) in E3; [|exact E2|done]. revert E. apply (retains_bind (buffered_but None) (ptr_of fs pos)); [apply retains_ptr_of| |done]. intros tmp.
  pose proof (retains_shift_down None). repeat retains_step.
Qed.

Lemma retains_release_colocated i : retains (buffered_but None) (release_colocated i).
Proof. unfold release_colocated. repeat retains_step. Qed.

Lemma retains_may_leave X k : retains (buffered_but X) (may_leave k).
Proof. unfold may_leave. repeat retains_step. Qed.

(** The end of [remove_unused_frame_from_dpb]: the buffer goes first. *)
Lemma drop_frame_buffered i : retains (buffered_but None)
  (k ← ptr_of fs i; f ← fs_at k; log (Ev_release_buf_spec (f_buf_spec_num f));; upd_fs k (fun f => f <| f_buf_spec_num := -1 |>);; remove_frame_from_dpb i;; mret true).
Proof.
  intros s b s' Hs. intros (o & s1 & [-> Ho]%ptr_of_run & E)%bind_run. apply bind_run in E as (f & s1 & [-> [k ->]]%fs_at_run & E).
  apply bind_run in E as (u & s2 & [= _ <-] & E). apply bind_run in E as (u2 & s3 & E3 & E). assert (buffered_but (Some k) s3) as H3.
  { eapply (buffered_upd (Some k) (Some k)); [by left| |exact E3]. intros j g Hj _. by apply Hs. }
  assert (aget (fs (mDPB s3)) i = Some (Some k)) as Hk by (apply upd_fs_run in E3 as (? & ? & _ & _ & ->); exact Ho).
  apply bind_run in E as (u3 & s4 & E4 & [= _ <-]). by eapply remove_frame_buffered.
Qed.

Lemma retains_remove_unused_frame : retains (buffered_but None) remove_unused_frame_from_dpb.
Proof.
  unfold remove_unused_frame_from_dpb. pose proof retains_release_colocated. pose proof (retains_may_leave None). apply retains_bind; [apply retains_gets|]. intros n.
  apply retains_bind; [repeat retains_step|]. intros _. apply retains_bind; [repeat retains_step|]. intros [i|]; [apply drop_frame_buffered|apply retains_ret].
Qed.

(** ** Frames go out *)

Lemma look_up_pts_buffer hw f : has_buffer f → has_buffer (look_up_pts hw f).
Proof. unfold look_up_pts. destruct (pts_lookup hw) as [look|]; [|done]. case_match; [done|]. by destruct (look (f_info f)) as [[]]. Qed.

Section Output.
Context `{H264Driver}.
Notation retains := (retains (buffered_but None)).

Lemma retains_vf_put hw o : retains (vh264_vf_put hw o).
Proof. unfold vh264_vf_put, give_back. repeat retains_step. Qed.

Lemma retains_put_all l : ∀ hw, retains (put_all hw l).
Proof. induction l as [|vf l IH]; intros hw; cbn [put_all]; [apply retains_ret|]. apply retains_bind; [apply retains_vf_put|]. intros hw'. apply IH. Qed.

Lemma retains_prepare_process hw k : retains (post_prepare_process hw k).
Proof.
  unfold post_prepare_process, lone_field. assert (retains (upd_fs k (look_up_pts hw))) by (apply buffered_upd; right; apply look_up_pts_buffer). repeat retains_step.
Qed.

Lemma retains_post_turn k n count i hw : retains (post_turn k n count i hw).
Proof. unfold post_turn, vh264_vf_get. pose proof retains_vf_put. repeat retains_step. Qed.

Lemma retains_post_turns t k n count : ∀ i hw, retains (post_turns t k n count i hw).
Proof. induction t as [|t IH]; intros i hw; cbn [post_turns]; [apply retains_ret|]. apply retains_bind; [apply retains_post_turn|]. intros [hw'|]; [apply IH|apply retains_ret]. Qed.

Lemma retains_post_video hw k : retains (post_video_frame hw k).
Proof. unfold post_video_frame, vframe_count, is_interlace. pose proof retains_post_turns. repeat retains_step. Qed.

Lemma retains_prepare k : retains (prepare_display_buf k).
Proof. unfold prepare_display_buf. pose proof retains_prepare_process. pose proof retains_put_all. pose proof retains_post_video. repeat retains_step. Qed.

Lemma retains_skip_leading k : retains (skip_leading k).
Proof. unfold skip_leading. repeat retains_step. Qed.

Lemma retains_output_one poc pos : retains (output_one poc pos).
Proof. unfold output_one. pose proof retains_prepare. pose proof retains_skip_leading. repeat retains_step. Qed.

(** One turn of the loop of a flush. *)
Lemma retains_output_flush : retains (output_frames true).
Proof. unfold output_frames, get_smallest_poc. pose proof retains_output_one. repeat retains_step. Qed.
End Output.

(** Both kinds of facts about a run. *)
Lemma wp_retains {A} (I : h264_dpb_stru → Prop) (c : D A) (R : A → h264_dpb_stru → Prop) E s : retains I c → I s → wp False c R E s → wp False c (fun a s' => R a s' ∧ I s') E s.
Proof. unfold retains, wp. intros Hk Hs. specialize (Hk s). destruct (c s) as [a s'| |]; [|done..]. intros HR. split; [done|]. by apply (Hk a). Qed.
