(* ===== verification/H264ListsOk.v ===== *)
(** The construction of the reference picture lists
    (src/drivers/frame_provider/decoder/h264_multi/h264_dpb.c, H264Lists):
    what it changes, that it is safe in every state of the buffer, and the
    lists it makes, against the order H.264 prescribes (8.2.4.2). *)

From stdpp Require Import base list numbers sorting gmap.
From Stdlib Require Import ZArith Lia Bool.
From S2P Require Import Prelude H264Types H264Sort H264Pool H264Mark H264Inv H264MarkOk H264PoolOk H264Fill H264DisplayOk H264Safe H264Lists.

#[local] Open Scope Z_scope.

(** ** Replacing a part of a list *)

Section Splice.
Context {A : Type}.
Implicit Types (l sel : list A).

Definition splice (i : nat) sel l : list A := take i l ++ sel ++ drop (i + length sel) l.

Lemma splice_nil i l : splice i [] l = l.
Proof. unfold splice. cbn. by rewrite Nat.add_0_r, take_drop. Qed.

Lemma length_splice i sel l : (i + length sel ≤ length l)%nat → length (splice i sel l) = length l.
Proof. intros. unfold splice. rewrite !length_app, length_take, length_drop. lia. Qed.

Lemma lookup_splice i sel l j : (i + length sel ≤ length l)%nat →
  splice i sel l !! j = if decide (j < i)%nat then l !! j else if decide (j < i + length sel)%nat then sel !! (j - i)%nat else l !! j.
Proof.
  intros Hl. unfold splice. case_decide.
  - rewrite lookup_app_l by (rewrite length_take; lia). by rewrite lookup_take_lt.
  - rewrite lookup_app_r by (rewrite length_take; lia). rewrite length_take, Nat.min_l by lia. case_decide.
    + by rewrite lookup_app_l by lia.
    + rewrite lookup_app_r by lia. rewrite lookup_drop. f_equal. lia.
Qed.

(** Equations between splices, element by element. *)
Ltac splice_eq :=
  apply list_eq; intros ?; repeat first [rewrite lookup_splice by (rewrite ?length_splice, ?length_app, ?length_insert; cbn in *; lia)
    |rewrite length_app]; repeat case_decide; cbn in *; try lia; try done.

Lemma splice_snoc i sel x l : (i + length sel < length l)%nat → <[(i + length sel)%nat := x]> (splice i sel l) = splice i (sel ++ [x]) l.
Proof.
  intros Hl. apply list_eq. intros j. rewrite lookup_splice by (rewrite length_app; cbn; lia). rewrite length_app. cbn.
  destruct (decide (j = i + length sel)%nat) as [->|Hne].
  - rewrite list_lookup_insert_eq by (rewrite length_splice; lia). repeat case_decide; try lia. by rewrite lookup_app_r, Nat.add_comm, Nat.add_sub, Nat.sub_diag by lia.
  - rewrite list_lookup_insert_ne by done. rewrite lookup_splice by lia. repeat case_decide; try lia; try done. by rewrite lookup_app_l by lia.
Qed.

Lemma splice_after i a b l : (i + length a + length b ≤ length l)%nat → splice (i + length a) b (splice i a l) = splice i (a ++ b) l.
Proof.
  intros Hl. splice_eq; [by rewrite lookup_app_l by lia|rewrite lookup_app_r by lia; f_equal; lia].
Qed.

Lemma splice_before i a b l : (i + length a + length b ≤ length l)%nat → splice i a (splice (i + length a) b l) = splice i (a ++ b) l.
Proof.
  intros Hl. splice_eq; [by rewrite lookup_app_l by lia|rewrite lookup_app_r by lia; f_equal; lia].
Qed.

Lemma splice_over i a b l : length a = length b → (i + length a ≤ length l)%nat → splice i b (splice i a l) = splice i b l.
Proof. intros. splice_eq. Qed.

Lemma drop_take_splice i sel l : (i + length sel ≤ length l)%nat → take (length sel) (drop i (splice i sel l)) = sel.
Proof.
  intros Hl. unfold splice. rewrite drop_app_ge by (rewrite length_take; lia). rewrite length_take, Nat.min_l, Nat.sub_diag by lia. by rewrite drop_0, take_app_length.
Qed.

Lemma elem_of_splice i sel l x : x ∈ splice i sel l → x ∈ sel ∨ x ∈ l.
Proof.
  unfold splice. rewrite !elem_of_app. intros [H|[H|H]]; [right|by left|right].
  - apply elem_of_take in H as (j & Hj & _). by eapply list_elem_of_lookup_2.
  - apply list_elem_of_lookup in H as [j Hj]. rewrite lookup_drop in Hj. by eapply list_elem_of_lookup_2.
Qed.

(** *** A part that is sorted *)

Definition ordered (key : A → Z) : list A → Prop := StronglySorted (fun a b => key a ≤ key b).

Lemma ordered_lookup key l : (∀ i j a b, (i ≤ j)%nat → l !! i = Some a → l !! j = Some b → key a ≤ key b) → ordered key l.
Proof.
  induction l as [|a l IH]; intros H; constructor; [apply IH; intros i j x y Hij Hx Hy; by apply (H (S i) (S j) x y ltac:(lia))|].
  apply Forall_lookup. intros j b Hb. apply (H O (S j) a b); [lia|done|done].
Qed.

Lemma sorted_part_spec comp key i sel l : all_compare comp key sel → (i + length sel ≤ length l)%nat → zlen l < 2 ^ 63 →
  ∃ sel', sorted_part comp (Z.of_nat i) (zlen sel) (splice i sel l) = Some (splice i sel' l) ∧ sel' ≡ₚ sel ∧ ordered key sel'.
Proof.
  intros Hc Hl Hb. unfold sorted_part. assert (zlen (splice i sel l) = zlen l) as El by (unfold zlen; by rewrite length_splice).
  rewrite (proj2 (Z.leb_le 0 _)), (proj2 (Z.leb_le 0 _)), (proj2 (Z.leb_le _ _)) by (rewrite ?El; unfold zlen; lia). cbn [andb].
  rewrite Nat2Z.id. replace (Z.to_nat (zlen sel)) with (length sel) by (unfold zlen; lia). rewrite drop_take_splice by done.
  assert (part_compare comp key 0 (0 + zlen sel - 1) sel) as Hpc.
  { apply part_compare_all; [done|]. change (drop (Z.to_nat 0) sel) with sel. rewrite take_ge; [done|]. unfold zlen. lia. }
  pose proof (qsort_wp comp key 0 (zlen sel) sel Hpc ltac:(lia) ltac:(lia) ltac:(unfold zlen in *; lia)) as Hq. unfold wp in Hq.
  destruct (qsort comp 0 (zlen sel) sel) as [u sel'|e sel'|]; [|done|done]. destruct Hq as [[Hp _ _ _] Hsort]. exists sel'. assert (length sel' = length sel) as E' by (by rewrite Hp).
  split; [|split; [done|]].
  - f_equal. rewrite <- (splice_over i sel sel' l) by lia. unfold splice at 3. rewrite E'. replace (Z.to_nat (Z.of_nat i + zlen sel)) with (i + length sel)%nat by (unfold zlen; lia). done.
  - apply ordered_lookup. intros x y a b Hxy Ha Hb'. specialize (Hsort (Z.of_nat x) (Z.of_nat y)). unfold kat in Hsort. rewrite !aget_nat, Ha, Hb' in Hsort.
    apply Hsort; [lia|]. apply lookup_lt_Some in Hb'. unfold zlen. lia.
Qed.
End Splice.

#[global] Arguments splice : simpl never.

(** ** What the construction changes *)

(** The two lists and their sizes, the other four, the arrays and the error
    flag. *)
Record lists := mk_lists {
  c_err : bool;
  c_l0 : list (option Z);
  c_l1 : list (option Z);
  c_rest : list (list (option Z));
  c_n0 : Z;
  c_n1 : Z;
  c_ns : list Z;
  c_a0 : list (option Z);
  c_a1 : list (option Z);
  c_alt : list (option Z)
}.

#[export] Instance eta_lists : Settable lists := fun r =>
  mk_lists (c_err r) (c_l0 r) (c_l1 r) (c_rest r) (c_n0 r) (c_n1 r) (c_ns r) (c_a0 r) (c_a1 r) (c_alt r).

Definition view (s : h264_dpb_stru) (c : lists) : h264_dpb_stru :=
  s <| dpb_error_flag := c_err c |>
    <| mSlice := (mSlice s) <| listX := c_l0 c :: c_l1 c :: c_rest c |> <| listXsize := c_n0 c :: c_n1 c :: c_ns c |> |>
    <| mDPB := (mDPB s) <| fs_list0 := c_a0 c |> <| fs_list1 := c_a1 c |> <| fs_listlt := c_alt c |> |>.

Definition get_l (x : Z) (c : lists) : list (option Z) := if x =? 0 then c_l0 c else c_l1 c.
Definition get_n (x : Z) (c : lists) : Z := if x =? 0 then c_n0 c else c_n1 c.
Definition set_l (x : Z) (l : list (option Z)) (c : lists) : lists := if x =? 0 then c <| c_l0 := l |> else c <| c_l1 := l |>.
Definition set_n (x n : Z) (c : lists) : lists := if x =? 0 then c <| c_n0 := n |> else c <| c_n1 := n |>.
Definition get_a (a : fs_array) (c : lists) : list (option Z) := match a with List0 => c_a0 c | List1 => c_a1 c | ListLt => c_alt c end.
Definition set_a (a : fs_array) (l : list (option Z)) (c : lists) : lists :=
  match a with List0 => c <| c_a0 := l |> | List1 => c <| c_a1 := l |> | ListLt => c <| c_alt := l |> end.
Definition set_err (c : lists) : lists := c <| c_err := true |>.

Definition ROW : Z := 2 * MAX_LIST_SIZE.

(** A pointer to a picture, or NULL. *)
Definition ptr_ok (o : option Z) : Prop := ∀ p, o = Some p → 0 ≤ p ≤ MAX_PIC_BUF_NUM.

Record lists_ok (c : lists) : Prop := {
  lo_l0 : zlen (c_l0 c) = ROW;
  lo_l1 : zlen (c_l1 c) = ROW;
  lo_rest : grid 4 ROW (c_rest c);
  lo_p0 : Forall ptr_ok (c_l0 c);
  lo_p1 : Forall ptr_ok (c_l1 c);
  lo_ns : zlen (c_ns c) = 4;
  lo_a0 : zlen (c_a0 c) = DPB_SIZE_MAX;
  lo_a1 : zlen (c_a1 c) = DPB_SIZE_MAX;
  lo_alt : zlen (c_alt c) = DPB_SIZE_MAX
}.

Definition first_two (x : Z) : Prop := x = 0 ∨ x = 1.

Lemma lo_len c x : lists_ok c → first_two x → zlen (get_l x c) = ROW.
Proof. intros [] [->| ->]; done. Qed.

Lemma lo_ptrs c x : lists_ok c → first_two x → Forall ptr_ok (get_l x c).
Proof. intros [] [->| ->]; done. Qed.

Lemma lo_alen c a : lists_ok c → zlen (get_a a c) = DPB_SIZE_MAX.
Proof. intros []. by destruct a. Qed.

Lemma lists_ok_err c : lists_ok c → lists_ok (set_err c).
Proof. by intros []. Qed.

Lemma lists_ok_set_l c x l : lists_ok c → zlen l = ROW → Forall ptr_ok l → lists_ok (set_l x l c).
Proof. intros [] Hl Hp. unfold set_l. by destruct (x =? 0). Qed.

Lemma lists_ok_set_n c x n : lists_ok c → lists_ok (set_n x n c).
Proof. intros []. unfold set_n. by destruct (x =? 0). Qed.

Lemma lists_ok_set_a c a l : lists_ok c → zlen l = DPB_SIZE_MAX → lists_ok (set_a a l c).
Proof. intros []. by destruct a. Qed.

Lemma lists_ok_put c x i o : lists_ok c → first_two x → ptr_ok o → lists_ok (set_l x (<[i := o]> (get_l x c)) c).
Proof.
  intros Hc Hx Ho. apply lists_ok_set_l; [done|by rewrite zlen_insert, lo_len|]. apply Forall_insert; [by apply lo_ptrs|done].
Qed.

#[export] Hint Resolve lists_ok_err lists_ok_set_n : core.

Lemma get_set_l x l c : first_two x → get_l x (set_l x l c) = l.
Proof. by intros [->| ->]. Qed.

Lemma get_set_l_ne x y l c : first_two x → first_two y → x ≠ y → get_l x (set_l y l c) = get_l x c.
Proof. by intros [->| ->] [->| ->] ?. Qed.

Lemma set_set_l x l l' c : set_l x l (set_l x l' c) = set_l x l c.
Proof. unfold set_l. by destruct (x =? 0). Qed.

(** A state is the view of its own lists. *)
Definition lists_of (s : h264_dpb_stru) : lists :=
  let sl := mSlice s in
  mk_lists (dpb_error_flag s) (default [] (listX sl !! 0%nat)) (default [] (listX sl !! 1%nat)) (drop 2 (listX sl))
    (default 0 (listXsize sl !! 0%nat)) (default 0 (listXsize sl !! 1%nat)) (drop 2 (listXsize sl)) (fs_list0 (mDPB s)) (fs_list1 (mDPB s)) (fs_listlt (mDPB s)).

Lemma two_and_rest {A} (l : list A) d : 2 ≤ zlen l → l = default d (l !! 0%nat) :: default d (l !! 1%nat) :: drop 2 l.
Proof. unfold zlen. destruct l as [|a [|b l]]; cbn; [lia|lia|]. by rewrite drop_0. Qed.

Lemma view_lists_of s : slice_ok (mSlice s) → view s (lists_of s) = s.
Proof.
  intros Hs. destruct (so_lists _ Hs) as [Hl _]. pose proof (so_sizes _ Hs) as Hn. unfold view, lists_of.
  destruct s as [? ? ? ? ? ? ? ? ? d sl]. destruct d, sl. cbn in *.
  match goal with |- context [default [] (?l !! 0%nat)] => rewrite <- (two_and_rest l []) by lia end.
  match goal with |- context [default 0 (?l !! 0%nat)] => rewrite <- (two_and_rest l 0) by lia end. done.
Qed.

Lemma lists_of_ok s : slice_ok (mSlice s) → arrays_ok (mDPB s) → lists_ok (lists_of s).
Proof.
  intros Hs (A0 & A1 & A2). destruct (so_lists _ Hs) as [Hl Hrow]. pose proof (so_sizes _ Hs) as Hn. pose proof (so_pics _ Hs) as Hp. unfold lists_of.
  destruct (listX (mSlice s)) as [|l0 [|l1 rest]] eqn:El; [done|done|].
  split; cbn; [apply Hrow; by left|apply Hrow; right; by left| | | | |done..].
  - rewrite drop_0. split; [unfold zlen in *; cbn in Hl; lia|]. intros l Hin. apply Hrow. by do 2 right.
  - apply Forall_forall. intros o Ho p ->. apply (Hp 0 l0); [by left|done|done].
  - apply Forall_forall. intros o Ho p ->. apply (Hp 1 l1); [by right|done|done].
  - unfold zlen in *. rewrite length_drop. lia.
Qed.

Lemma view_slice_ok s c : slice_ok (mSlice s) → lists_ok c → slice_ok (mSlice (view s c)).
Proof.
  intros [] []. destruct lo_rest0 as [Hl Hr]. split; try done; cbn.
  - split; [unfold zlen in *; cbn; lia|]. intros l Hin. apply elem_of_cons in Hin as [->|Hin]; [done|]. apply elem_of_cons in Hin as [->|Hin]; [done|]. by apply Hr.
  - intros x l p Hx Hl' Hin. assert (Forall ptr_ok l) as Hf by (destruct Hx as [->| ->]; cbn in Hl'; by injection Hl' as <-).
    rewrite Forall_forall in Hf. by apply (Hf (Some p)).
  - unfold zlen in *. cbn. lia.
Qed.

Section Lists.
Context (fx : fixed) (m : bool) (ex : list Z) (s : h264_dpb_stru) (Hs : ok fx m ex s).
Implicit Types (c : lists) (E : Z → h264_dpb_stru → Prop).

Lemma view_refs c : lists_ok c → refs_ok (mDPB (view s c)).
Proof. intros []. destruct (ok_refs _ _ _ _ Hs). by split. Qed.

Lemma view_ok c : lists_ok c → ok fx m ex (view s c).
Proof.
  intros Hc. apply (ok_slice fx m ex s); try done; [|apply (iv_colocated (proj1 Hs))|by apply view_refs].
  apply view_slice_ok; [apply (iv_slice (proj1 Hs))|done].
Qed.

(** *** Rules *)

Lemma row_wp x c (R : list (option Z) → h264_dpb_stru → Prop) E : first_two x → R (get_l x c) (view s c) → wp False (row x) R E (view s c).
Proof. intros [->| ->] HR; exact HR. Qed.

Lemma set_row_wp x l c (R : unit → h264_dpb_stru → Prop) E : first_two x → R tt (view s (set_l x l c)) → wp False (set_row x l) R E (view s c).
Proof. intros [->| ->] HR; unfold set_row; wp_step; wp_step; wp_step; (rewrite aset_Some by (unfold zlen; cbn; lia)); exact HR. Qed.

Lemma list_at_wp x i o c (R : option Z → h264_dpb_stru → Prop) E : first_two x → aget (get_l x c) i = Some o → R o (view s c) →
  wp False (list_at x i) R E (view s c).
Proof. intros Hx Ho HR. unfold list_at. wp_step. apply row_wp; [done|]. rewrite Ho. cbn [of_option]. by wp_step. Qed.

Lemma list_put_wp x i o c (R : unit → h264_dpb_stru → Prop) E : first_two x → 0 ≤ i < zlen (get_l x c) →
  R tt (view s (set_l x (<[Z.to_nat i := o]> (get_l x c)) c)) → wp False (list_put x i o) R E (view s c).
Proof. intros Hx Hi HR. unfold list_put. wp_step. apply row_wp; [done|]. wp_step. rewrite aset_Some by done. cbn [of_option]. wp_step. by apply set_row_wp. Qed.

Lemma list_size_wp x c (R : Z → h264_dpb_stru → Prop) E : first_two x → R (get_n x c) (view s c) → wp False (list_size x) R E (view s c).
Proof. intros [->| ->] HR; exact HR. Qed.

Lemma char_of_small n : 0 ≤ n < 128 → char_of n = Some n.
Proof. intros. unfold char_of. by rewrite (proj2 (Z.leb_le _ _)), (proj2 (Z.ltb_lt _ _)) by lia. Qed.

Lemma set_size_wp x n c (R : unit → h264_dpb_stru → Prop) E : first_two x → 0 ≤ n < 128 → R tt (view s (set_n x n c)) → wp False (set_size x n) R E (view s c).
Proof. intros [->| ->] Hn HR; unfold set_size; rewrite char_of_small by done; cbn [of_option]; wp_step; wp_step; wp_step; wp_step; wp_step;
  (rewrite aset_Some by (unfold zlen; cbn; lia)); exact HR. Qed.

Lemma check_valid_wp x c (R : unit → h264_dpb_stru → Prop) E : first_two x → 0 ≤ get_n x c ≤ MAX_LIST_SIZE → R tt (view s c) → wp False (check_valid x) R E (view s c).
Proof.
  intros Hx Hn HR. unfold check_valid. wp_step. apply list_size_wp; [done|]. rewrite !(proj2 (Z.ltb_ge _ _)) by lia. exact HR.
Qed.

Lemma error_flag_wp c (R : unit → h264_dpb_stru → Prop) E : R tt (view s (set_err c)) → wp False error_flag R E (view s c).
Proof. done. Qed.

Lemma array_put_wp a i k c (R : unit → h264_dpb_stru → Prop) E : 0 ≤ i < zlen (get_a a c) → R tt (view s (set_a a (<[Z.to_nat i := k]> (get_a a c)) c)) →
  wp False (array_put a i k) R E (view s c).
Proof. intros Hi HR. unfold array_put. wp_step. wp_step. wp_step. destruct a; cbn in *; rewrite aset_Some by done; exact HR. Qed.

Lemma sort_row_wp x i sel l comp key c (R : unit → h264_dpb_stru → Prop) E : first_two x → all_compare (comp (view s c)) key sel →
  get_l x c = splice i sel l → (i + length sel ≤ length l)%nat → zlen l < 2 ^ 63 →
  (∀ sel', sel' ≡ₚ sel → ordered key sel' → R tt (view s (set_l x (splice i sel' l) c))) →
  wp False (sort_row x (Z.of_nat i) (zlen sel) comp) R E (view s c).
Proof.
  intros Hx Hc El Hl Hb HR. destruct (sorted_part_spec _ _ i sel l Hc Hl Hb) as (sel' & Hsel & Hp & Ho). unfold sort_row. wp_step. wp_step. wp_step.
  apply row_wp; [done|]. rewrite El, Hsel. cbn [of_option]. wp_step. wp_step. apply set_row_wp; [done|]. by apply HR.
Qed.

Lemma sort_array_wp a i sel l comp key c (R : unit → h264_dpb_stru → Prop) E : all_compare (comp (view s c)) key sel →
  get_a a c = splice i sel l → (i + length sel ≤ length l)%nat → zlen l < 2 ^ 63 →
  (∀ sel', sel' ≡ₚ sel → ordered key sel' → R tt (view s (set_a a (splice i sel' l) c))) →
  wp False (sort_array a (Z.of_nat i) (zlen sel) comp) R E (view s c).
Proof.
  intros Hc El Hl Hb HR. destruct (sorted_part_spec _ _ i sel l Hc Hl Hb) as (sel' & Hsel & Hp & Ho). specialize (HR sel' Hp Ho). unfold sort_array. wp_step. wp_step.
  wp_step. replace (fs_array_of a (mDPB (view s c))) with (splice i sel l) by (rewrite <- El; by destruct a). rewrite Hsel. cbn [of_option]. wp_step.
  destruct a; exact HR.
Qed.

(** *** Gathering references *)

Definition with_err (e : bool) (c : lists) : lists := c <| c_err := e |>.

(** What [pick] answers, whatever it does to the error flag. *)
Definition picks (pick : option Z → D (option (option Z))) (pv : option Z → option (option Z)) : Prop :=
  ∀ k c (R : option (option Z) → h264_dpb_stru → Prop) E, 0 ≤ k < DPB_SIZE_MAX →
    (∀ e, R (pv (Some k)) (view s (with_err e c))) → wp False (pick (Some k)) R E (view s c).

Definition chosen (arr : list (option Z)) (n : Z) (pv : option Z → option (option Z)) : list (option Z) := omap pv (take (Z.to_nat n) arr).

Lemma length_omap_le {A B} (f : A → option B) l : (length (omap f l) ≤ length l)%nat.
Proof. induction l as [|a l IH]; cbn; [done|]. destruct (f a); cbn; lia. Qed.

Lemma chosen_length arr n pv : 0 ≤ n → (length (chosen arr n pv) ≤ Z.to_nat n)%nat.
Proof. intros Hn. unfold chosen. etrans; [apply length_omap_le|]. rewrite length_take. lia. Qed.

Lemma gather_wp arr n pick pv put idx (C : list (option Z) → lists) e0 (R : Z → h264_dpb_stru → Prop) E :
  (∀ c, arr (mDPB (view s c)) = arr (mDPB s)) → refs_in (arr (mDPB s)) n → picks pick pv →
  (∀ e pre o (R' : unit → h264_dpb_stru → Prop), (length pre < length (chosen (arr (mDPB s)) n pv))%nat → R' tt (view s (with_err e (C (pre ++ [o])))) →
     wp False (put (idx + zlen pre) o) R' E (view s (with_err e (C pre)))) →
  (∀ e, let sel := chosen (arr (mDPB s)) n pv in R (idx + zlen sel) (view s (with_err e (C sel)))) →
  wp False (gather arr n pick put idx) R E (view s (with_err e0 (C []))).
Proof.
  intros Ha (Hlen & Hn & Hrefs & _) Hpick Hput HR. unfold gather. set (l := arr (mDPB s)) in *. set (sel i := chosen l i pv).
  apply (wp_fold_range _ _ _ (fun i idx' s' => idx' = idx + zlen (sel i) ∧ ∃ e, s' = view s (with_err e (C (sel i))))).
  - assert (sel 0 = []) as -> by done. change (zlen (@nil (option Z))) with 0. split; [lia|]. by exists e0.
  - intros i a s' Hi [-> [e ->]]. destruct (Hrefs i Hi) as (k & Hk & Hkr). wp_step. apply (ptr_wp arr i (Some k)); [by rewrite Ha|]. wp_step. apply Hpick; [done|]. intros e'.
    assert (sel (i + 1) = sel i ++ match pv (Some k) with Some o => [o] | None => [] end) as Hnext.
    { unfold sel, chosen. apply aget_inv in Hk as [_ Hk]. replace (Z.to_nat (i + 1)) with (S (Z.to_nat i)) by lia. by rewrite (take_S_r _ _ _ Hk), omap_app. }
    assert (length (sel (i + 1)%Z) ≤ length (sel n))%nat as Hle.
    { unfold sel, chosen. replace (Z.to_nat n) with (Z.to_nat (i + 1) + (Z.to_nat n - Z.to_nat (i + 1)))%nat by lia. rewrite <- take_take_drop, omap_app, length_app. lia. }
    rewrite Hnext, length_app in Hle. rewrite Hnext. destruct (pv (Some k)) as [o|].
    + wp_step. apply (Hput e'); [cbn in Hle; unfold sel in Hle at 2; lia|]. wp_step. split; [rewrite zlen_app; unfold zlen; cbn; lia|]. by exists e'.
    + wp_step. rewrite app_nil_r. split; [done|]. by exists e'.
  - intros a s' [-> [e ->]]. rewrite Z.max_r by lia. apply HR.
Qed.

Lemma eta_row x c : first_two x → c = with_err (c_err c) (set_l x (get_l x c) c).
Proof. intros [->| ->]; by destruct c. Qed.

Lemma gather_row_wp x arr n pick pv i c (R : Z → h264_dpb_stru → Prop) E : let sel := chosen (arr (mDPB s)) n pv in first_two x →
  (∀ c, arr (mDPB (view s c)) = arr (mDPB s)) → refs_in (arr (mDPB s)) n → picks pick pv → (i + length sel ≤ length (get_l x c))%nat →
  (∀ e, R (Z.of_nat i + zlen sel) (view s (with_err e (set_l x (splice i sel (get_l x c)) c)))) →
  wp False (gather arr n pick (list_put x) (Z.of_nat i)) R E (view s c).
Proof.
  cbv zeta. intros Hx Ha Hr Hp Hl HR. rewrite (eta_row x c Hx). rewrite <- (splice_nil i (get_l x c)) at 1.
  apply (gather_wp _ _ _ pv _ _ (fun sel => set_l x (splice i sel (get_l x c)) c)); [done|done|done| |done].
  intros e pre o R' Hpre HR'. set (l := get_l x c) in *. assert (get_l x (with_err e (set_l x (splice i pre l) c)) = splice i pre l) as Eg by (by destruct Hx as [->| ->]).
  apply list_put_wp; [done|rewrite Eg; unfold zlen; rewrite length_splice; lia|]. rewrite Eg. replace (Z.to_nat (Z.of_nat i + zlen pre)) with (i + length pre)%nat by (unfold zlen; lia).
  rewrite splice_snoc by lia. by destruct Hx as [->| ->].
Qed.

Lemma gather_array_wp a arr n pick pv i c (R : Z → h264_dpb_stru → Prop) E : let sel := chosen (arr (mDPB s)) n pv in
  (∀ c, arr (mDPB (view s c)) = arr (mDPB s)) → refs_in (arr (mDPB s)) n → picks pick pv → (i + length sel ≤ length (get_a a c))%nat →
  (∀ e, R (Z.of_nat i + zlen sel) (view s (with_err e (set_a a (splice i sel (get_a a c)) c)))) →
  wp False (gather arr n pick (array_put a) (Z.of_nat i)) R E (view s c).
Proof.
  cbv zeta. intros Ha Hr Hp Hl HR. replace c with (with_err (c_err c) (set_a a (splice i [] (get_a a c)) c)) at 1 by (rewrite splice_nil; by destruct a, c).
  apply (gather_wp _ _ _ pv _ _ (fun sel => set_a a (splice i sel (get_a a c)) c)); [done|done|done| |done].
  intros e pre o R' Hpre HR'. set (l := get_a a c) in *. assert (get_a a (with_err e (set_a a (splice i pre l) c)) = splice i pre l) as Eg by (by destruct a).
  apply array_put_wp; [rewrite Eg; unfold zlen; rewrite length_splice; lia|]. rewrite Eg. replace (Z.to_nat (Z.of_nat i + zlen pre)) with (i + length pre)%nat by (unfold zlen; lia).
  rewrite splice_snoc by lia. by destruct a.
Qed.

Lemma gather_both_wp arr n pick pv i c (R : Z → h264_dpb_stru → Prop) E : let sel := chosen (arr (mDPB s)) n pv in
  (∀ c, arr (mDPB (view s c)) = arr (mDPB s)) → refs_in (arr (mDPB s)) n → picks pick pv → (i + length sel ≤ length (c_l0 c))%nat → (i + length sel ≤ length (c_l1 c))%nat →
  (∀ e, R (Z.of_nat i + zlen sel) (view s (with_err e (set_l 1 (splice i sel (c_l1 c)) (set_l 0 (splice i sel (c_l0 c)) c))))) →
  wp False (gather arr n pick put_both (Z.of_nat i)) R E (view s c).
Proof.
  cbv zeta. intros Ha Hr Hp Hl0 Hl1 HR.
  replace c with (with_err (c_err c) (set_l 1 (splice i [] (c_l1 c)) (set_l 0 (splice i [] (c_l0 c)) c))) at 1 by (rewrite !splice_nil; by destruct c).
  apply (gather_wp _ _ _ pv _ _ (fun sel => set_l 1 (splice i sel (c_l1 c)) (set_l 0 (splice i sel (c_l0 c)) c))); [done|done|done| |done].
  intros e pre o R' Hpre HR'. unfold put_both. replace (Z.of_nat i + zlen pre) with (Z.of_nat (i + length pre)) by (unfold zlen; lia). wp_step.
  apply list_put_wp; [by left|cbn; unfold zlen; rewrite length_splice; lia|]. apply list_put_wp; [by right|cbn; unfold zlen; rewrite length_splice; lia|].
  cbn [get_l set_l Z.eqb with_err]. rewrite Nat2Z.id. cbn. rewrite !splice_snoc by lia. exact HR'.
Qed.

(** *** What is gathered *)

(** The frame of a complete frame store, when it passes [t]. *)
Definition frame_of (t : StorablePicture → bool) (o : option Z) : option (option Z) :=
  k ← o; f ← store s k; p ← f_frame f; x ← pic s p; if (f_is_used f =? 3) && t x then Some (Some p) else None.

(** A frame store that passes [t]. *)
Definition store_of (t : FrameStore → bool) (o : option Z) : option (option Z) :=
  k ← o; f ← store s k; if t f then Some (Some k) else None.

Lemma used_frame k f : 0 ≤ k < DPB_SIZE_MAX → store s k = Some f → f_is_used f = 3 → ∃ p x, f_frame f = Some p ∧ 0 ≤ p < MAX_PIC_BUF_NUM ∧ pic s p = Some x.
Proof.
  intros Hk Hf Hu. pose proof (iv_shape (proj1 Hs) k f Hk ltac:(done) Hf) as Hsh. destruct (shape_frame m f Hsh Hu) as [p Hp].
  destruct (store_pics fx m ex s (proj1 Hs) s k f p (ok_start _ _ _ _ Hs) Hk Hf) as (x & Hr & Hx); [unfold own_store; rewrite Hp; by left|]. by exists p, x.
Qed.

Lemma frame_used k f p : 0 ≤ k < DPB_SIZE_MAX → store s k = Some f → f_frame f = Some p → f_is_used f = 3.
Proof.
  intros Hk Hf Hp. destruct (iv_shape (proj1 Hs) k f Hk ltac:(done) Hf) as [[(_ & H)|[(_ & _ & H & _)|[(_ & _ & H & _)|(H & _)]]] _ _]; [|congruence|congruence|done].
  unfold own_store in H. rewrite Hp in H. done.
Qed.

Lemma short_frame_picks test : picks (short_frame test) (frame_of (fun x => is_short_ref x && test x)).
Proof.
  intros k c R E Hk HR. destruct (ok_store _ _ _ _ k Hs Hk) as (f & Hf & _). unfold short_frame. wp_step. apply (fs_at_wp k f); [exact Hf|].
  revert HR. cbn [frame_of mbind option_bind]. rewrite Hf. cbn [mbind option_bind]. intros HR. destruct (f_frame f) as [p|] eqn:Ep; cbn [mbind option_bind] in HR.
  - pose proof (frame_used k f p Hk Hf Ep) as Hu. destruct (used_frame k f Hk Hf Hu) as (q & x & Hq & _ & Hx). rewrite Hq in Ep. injection Ep as ->.
    rewrite Hu in *. rewrite Hx in HR. cbn [mbind option_bind Z.eqb] in HR. change (3 =? 3) with true in *. cbv iota. wp_step. apply (pic_at_wp p x); [exact Hx|].
    wp_step. exact (HR (c_err c)).
  - wp_step. apply error_flag_wp. wp_step. exact (HR true).
Qed.

Lemma long_frame_picks : picks long_frame (frame_of p_is_long_term).
Proof.
  intros k c R E Hk HR. destruct (ok_store _ _ _ _ k Hs Hk) as (f & Hf & _). unfold long_frame. wp_step. apply (fs_at_wp k f); [exact Hf|].
  specialize (HR (c_err c)). revert HR. cbn [frame_of mbind option_bind]. rewrite Hf. cbn [mbind option_bind]. intros HR. wp_step; bprop.
  - destruct (used_frame k f Hk Hf) as (q & x & Hq & _ & Hx); [done|]. rewrite Hq in *. cbn [mbind option_bind] in HR. rewrite Hx in HR. wp_step.
    apply (pic_at_wp q x); [exact Hx|]. wp_step. cbn [mbind option_bind] in HR. by rewrite (proj2 (Z.eqb_eq _ _)) in HR by done.
  - wp_step. destruct (f_frame f) as [p|] eqn:Ep; [by rewrite (frame_used k f p) in * by done|]. exact HR.
Qed.

Lemma short_store_picks test : picks (short_store test) (store_of test).
Proof.
  intros k c R E Hk HR. destruct (ok_store _ _ _ _ k Hs Hk) as (f & Hf & _). unfold short_store. wp_step. apply (fs_at_wp k f); [exact Hf|]. wp_step.
  specialize (HR (c_err c)). cbn [store_of mbind option_bind] in HR. by rewrite Hf in HR.
Qed.

Lemma all_stores_picks : picks (fun k => mret (Some k)) (fun o => Some o).
Proof. intros k c R E Hk HR. wp_step. exact (HR (c_err c)). Qed.

(** The elements of what is gathered. *)
Lemma in_chosen arr n pv o : o ∈ chosen arr n pv → ∃ i k, 0 ≤ i < n ∧ aget arr i = Some k ∧ pv k = Some o.
Proof.
  unfold chosen. intros (k & Hk & Ho)%list_elem_of_omap. apply elem_of_take in Hk as (i & Hi & Hin). exists (Z.of_nat i), k. rewrite aget_nat. split; [lia|done].
Qed.

Definition a_pic (o : option Z) : Prop := ∃ p x, o = Some p ∧ 0 ≤ p < MAX_PIC_BUF_NUM ∧ pic s p = Some x.
Definition a_store (o : option Z) : Prop := ∃ k f, o = Some k ∧ 0 ≤ k < DPB_SIZE_MAX ∧ store s k = Some f.

Lemma chosen_frames arr n t o : refs_in arr n → o ∈ chosen arr n (frame_of t) → a_pic o ∧ ∃ x, (p ← o; pic s p) = Some x ∧ t x = true.
Proof.
  intros (_ & _ & Hr & _) (i & k' & Hi & Hk & Ho)%in_chosen. destruct (Hr i Hi) as (k & Hk' & Hkr). simplify_eq. cbn [frame_of mbind option_bind] in Ho.
  destruct (store s k) as [f|] eqn:Hf; [|done]. cbn [mbind option_bind] in Ho. destruct (f_frame f) as [p|] eqn:Hp; [|done]. cbn [mbind option_bind] in Ho.
  pose proof (frame_used k f p Hkr Hf Hp) as Hu. destruct (used_frame k f Hkr Hf Hu) as (q & x & Hq & Hqr & Hx). simplify_eq. rewrite Hx in Ho. cbn [mbind option_bind] in Ho.
  rewrite Hu in Ho. destruct (t x) eqn:Et; [|done]. cbn in Ho. injection Ho as <-. split; [by exists p, x|]. exists x. by cbn.
Qed.

Lemma chosen_stores arr n t o : refs_in arr n → o ∈ chosen arr n (store_of t) → a_store o ∧ ∃ f, (k ← o; store s k) = Some f ∧ t f = true.
Proof.
  intros (_ & _ & Hr & _) (i & k' & Hi & Hk & Ho)%in_chosen. destruct (Hr i Hi) as (k & Hk' & Hkr). simplify_eq. cbn [store_of mbind option_bind] in Ho.
  destruct (store s k) as [f|] eqn:Hf; [|done]. cbn [mbind option_bind] in Ho. destruct (t f) eqn:Et; [|done]. injection Ho as <-. split; [by exists k, f|]. exists f. by cbn.
Qed.

(** *** Keys *)

Definition pic_key (key : StorablePicture → Z) (o : option Z) : Z := match p ← o; pic s p with Some x => key x | None => 0 end.
Definition fs_key (key : FrameStore → Z) (o : option Z) : Z := match k ← o; store s k with Some f => key f | None => 0 end.

Lemma asc_spec x y : (asc x y ≤ 0 ↔ x ≤ y) ∧ (asc x y = 0 ↔ x = y).
Proof. unfold asc. destruct (Z.ltb_spec x y), (Z.ltb_spec y x); lia. Qed.

Lemma desc_spec x y : (desc x y ≤ 0 ↔ - x ≤ - y) ∧ (desc x y = 0 ↔ - x = - y).
Proof. unfold desc. destruct (Z.ltb_spec x y), (Z.ltb_spec y x); lia. Qed.

Lemma by_pic_compare cmp (sg : Z → Z) key c sel : (∀ x y, (cmp x y ≤ 0 ↔ sg x ≤ sg y) ∧ (cmp x y = 0 ↔ sg x = sg y)) → (∀ o, o ∈ sel → a_pic o) →
  all_compare (by_pic (view s c) cmp key) (fun o => sg (pic_key key o)) sel.
Proof.
  intros Hc Hsel a b Ha Hb. destruct (Hsel a Ha) as (p & x & -> & _ & Hp). destruct (Hsel b Hb) as (q & y & -> & _ & Hq). exists (cmp (key x) (key y)).
  unfold pic_key. cbn [mbind option_bind]. rewrite Hp, Hq. split; [|apply Hc]. unfold by_pic. cbn [mbind option_bind]. change (m_PIC (view s c)) with (m_PIC s). by rewrite Hp, Hq.
Qed.

Lemma by_fs_compare cmp (sg : Z → Z) key c sel : (∀ x y, (cmp x y ≤ 0 ↔ sg x ≤ sg y) ∧ (cmp x y = 0 ↔ sg x = sg y)) → (∀ o, o ∈ sel → a_store o) →
  all_compare (by_fs (view s c) cmp key) (fun o => sg (fs_key key o)) sel.
Proof.
  intros Hc Hsel a b Ha Hb. destruct (Hsel a Ha) as (p & x & -> & _ & Hp). destruct (Hsel b Hb) as (q & y & -> & _ & Hq). exists (cmp (key x) (key y)).
  unfold fs_key. cbn [mbind option_bind]. rewrite Hp, Hq. split; [|apply Hc]. unfold by_fs. cbn [mbind option_bind]. change (mFrameStore (view s c)) with (mFrameStore s). by rewrite Hp, Hq.
Qed.

(** *** How much is gathered *)

Lemma omap_length_submseteq {A B} (f : A → option B) l l' : l ⊆+ l' → (length (omap f l) ≤ length (omap f l'))%nat.
Proof. induction 1 as [|x l l' _ IH|x y l|x l l' _ IH|l1 l2 l3 _ IH1 _ IH2]; cbn; repeat case_match; cbn; lia. Qed.

Lemma omap_disjoint {A B} (f g : A → option B) l : (∀ a, f a = None ∨ g a = None) → (length (omap f l) + length (omap g l) ≤ length l)%nat.
Proof. intros H. induction l as [|a l IH]; cbn; [done|]. destruct (H a) as [-> | ->]; repeat case_match; cbn; lia. Qed.

(** The frame stores, and a list of references among them. *)
Definition all_stores : list (option Z) := Some <$> seqZ 0 DPB_SIZE_MAX.

Lemma refs_submseteq arr n : refs_in arr n → take (Z.to_nat n) arr ⊆+ all_stores.
Proof.
  intros (Hl & Hn & Hr & Hnd). apply NoDup_submseteq; [done|]. intros o Ho. apply elem_of_take in Ho as (i & Hi & Hin).
  destruct (Hr (Z.of_nat i)) as (k & Hk & Hkr); [lia|]. rewrite aget_nat in Hk. simplify_eq. apply list_elem_of_fmap. exists k. split; [done|]. apply elem_of_seqZ. lia.
Qed.

Lemma length_all_stores : length all_stores = Z.to_nat DPB_SIZE_MAX.
Proof. reflexivity. Qed.

Notation short_refs t := (chosen (fs_ref (mDPB s)) (ref_frames_in_buffer (mDPB s)) t).
Notation long_refs t := (chosen (fs_ltref (mDPB s)) (ltref_frames_in_buffer (mDPB s)) t).

Lemma short_in : refs_in (fs_ref (mDPB s)) (ref_frames_in_buffer (mDPB s)).
Proof. apply (ok_refs _ _ _ _ Hs). Qed.

Lemma long_in : refs_in (fs_ltref (mDPB s)) (ltref_frames_in_buffer (mDPB s)).
Proof. apply (ok_refs _ _ _ _ Hs). Qed.

Lemma frame_of_excl t t' o : (∀ x, t x = true → t' x = false) → frame_of t o = None ∨ frame_of t' o = None.
Proof.
  intros H. destruct o as [k|]; [|by left]. cbn [frame_of mbind option_bind]. destruct (store s k) as [f|]; [|by left]. cbn [mbind option_bind].
  destruct (f_frame f) as [p|]; [|by left]. cbn [mbind option_bind]. destruct (pic s p) as [x|]; [|by left]. cbn [mbind option_bind].
  destruct (t x) eqn:E; [right; by rewrite (H x E), andb_false_r|left; by rewrite andb_false_r].
Qed.

(** Frames are short-term or long-term references, not both. *)
Lemma frames_bound t : (length (short_refs (frame_of (fun x => is_short_ref x && t x))) + length (long_refs (frame_of p_is_long_term)) ≤ 32)%nat.
Proof.
  pose proof (omap_length_submseteq (frame_of (fun x => is_short_ref x && t x)) _ _ (refs_submseteq _ _ short_in)).
  pose proof (omap_length_submseteq (frame_of p_is_long_term) _ _ (refs_submseteq _ _ long_in)).
  pose proof (omap_disjoint (frame_of (fun x => is_short_ref x && t x)) (frame_of p_is_long_term) all_stores) as Hd. rewrite length_all_stores in Hd.
  unfold chosen. unfold DPB_SIZE_MAX in Hd. etrans; [|apply Hd]; [lia|]. intros o. apply frame_of_excl. intros x Hx. unfold is_short_ref in Hx. bprop. done.
Qed.

(** *** Lists of frames *)

Lemma ptr_ok_pic o : a_pic o → ptr_ok o.
Proof. intros (p & x & -> & Hp & _) q [= <-]. lia. Qed.

Lemma lists_ok_splice c x i sel : lists_ok c → first_two x → (i + length sel ≤ length (get_l x c))%nat → Forall a_pic sel →
  lists_ok (set_l x (splice i sel (get_l x c)) c).
Proof.
  intros Hc Hx Hl Hsel. apply lists_ok_set_l; [done|unfold zlen; rewrite length_splice by done; by apply lo_len|].
  apply Forall_forall. intros o [Ho|Ho]%elem_of_splice; [apply ptr_ok_pic; rewrite Forall_forall in Hsel; by apply Hsel|].
  pose proof (lo_ptrs c x Hc Hx) as Hp. rewrite Forall_forall in Hp. by apply Hp.
Qed.

Lemma lists_ok_parts c e i sel n : lists_ok c → (i + length sel ≤ length (c_l0 c))%nat → Forall a_pic sel →
  lists_ok (with_err e (set_n 0 n (set_l 0 (splice i sel (c_l0 c)) c))).
Proof. intros Hc Hl Hsel. by destruct (lists_ok_splice c 0 i sel Hc (or_introl eq_refl) Hl Hsel). Qed.

Lemma lists_ok_with_err e c : lists_ok c → lists_ok (with_err e c).
Proof. by intros []. Qed.

(** Short-term frames by falling picture number, long-term ones by rising
    number behind them. *)
Record p_frame_list (S L : list (option Z)) : Prop := {
  pf_short : S ≡ₚ short_refs (frame_of (fun x => is_short_ref x && true));
  pf_short_order : ordered (fun o => - pic_key p_pic_num o) S;
  pf_long : L ≡ₚ long_refs (frame_of p_is_long_term);
  pf_long_order : ordered (pic_key p_long_term_pic_num) L
}.

Lemma row_length c x : lists_ok c → first_two x → length (get_l x c) = 66%nat.
Proof. intros Hc Hx. pose proof (lo_len c x Hc Hx) as H. unfold zlen, ROW, MAX_LIST_SIZE in H. lia. Qed.

Lemma init_p_frame_wp c (R : unit → h264_dpb_stru → Prop) E : lists_ok c →
  (∀ S L c', p_frame_list S L → lists_ok c' → get_l 0 c' = splice 0 (S ++ L) (get_l 0 c) → get_n 0 c' = zlen (S ++ L) → zlen (S ++ L) ≤ 32 → R tt (view s c')) →
  wp False init_lists_p_frame R E (view s c).
Proof.
  intros Hc HR. pose proof (frames_bound (fun _ => true)) as Hb. set (S0 := short_refs _) in Hb. set (L0 := long_refs _) in Hb.
  assert (first_two 0) as H0 by (by left). pose proof (row_length c 0 Hc H0) as Hlen. pose proof Hlen as Hlen'. cbn in Hlen'. unfold init_lists_p_frame. wp_step. wp_step. wp_step.
  apply (gather_row_wp 0 fs_ref _ _ _ 0 c _ _ H0 ltac:(done) short_in (short_frame_picks _)); [fold S0; lia|]. intros e. fold S0. wp_step.
  eapply (sort_row_wp 0 0 S0 (get_l 0 c) _ (fun o => - pic_key p_pic_num o)); [done|apply (by_pic_compare desc Z.opp); [apply desc_spec|]|done|lia|unfold zlen; lia|].
  { intros o Ho. apply (chosen_frames _ _ _ _ short_in Ho). }
  intros S HS HSo. assert (length S = length S0) as ES by (by rewrite HS). wp_step. apply set_size_wp; [done|unfold zlen; lia|]. wp_step.
  apply check_valid_wp; [done|cbn; unfold zlen, MAX_LIST_SIZE; lia|]. wp_step.
  replace (Z.of_nat 0 + zlen S0) with (Z.of_nat (length S)) by (unfold zlen; lia).
  apply (gather_row_wp 0 fs_ltref _ _ _ (length S) _ _ _ H0 ltac:(done) long_in long_frame_picks); [fold L0; cbn; rewrite length_splice by lia; lia|].
  intros e'. fold L0. wp_step. apply list_size_wp; [done|]. wp_step.
  replace (Z.of_nat (length S) + zlen L0 - get_n 0 _) with (zlen L0) by (cbn; unfold zlen; lia).
  replace (get_n 0 _) with (Z.of_nat (length S)) by (cbn; unfold zlen; lia).
  eapply (sort_row_wp 0 (length S) L0 (splice 0 S (get_l 0 c)) _ (pic_key p_long_term_pic_num));
    [done|apply (by_pic_compare asc id); [apply asc_spec|]|done|rewrite length_splice; lia|unfold zlen; rewrite length_splice; lia|].
  { intros o Ho. apply (chosen_frames _ _ _ _ long_in Ho). }
  intros L HL HLo. assert (length L = length L0) as EL by (by rewrite HL). wp_step. apply set_size_wp; [done|unfold zlen; lia|].
  apply check_valid_wp; [done|cbn; unfold zlen, MAX_LIST_SIZE; lia|].
  assert (Forall a_pic (S ++ L)) as Hpics.
  { apply Forall_forall. intros o [Ho|Ho]%elem_of_app; [rewrite HS in Ho; by apply (chosen_frames _ _ _ _ short_in) in Ho as [? _]|].
    rewrite HL in Ho. by apply (chosen_frames _ _ _ _ long_in) in Ho as [? _]. }
  apply (HR S L); [by split| |cbn; change (length S) with (0 + length S)%nat; apply splice_after; cbn in Hlen; lia|cbn; rewrite zlen_app; unfold zlen; lia|rewrite zlen_app; unfold zlen; lia].
  pose proof (lists_ok_parts c e' 0 (S ++ L) (Z.of_nat (length S) + zlen L0) Hc) as Hok. rewrite <- splice_after in Hok by (cbn; lia).
  apply Hok; [cbn; rewrite length_app; lia|done].
Qed.

(** *** The end of a list *)

Lemma fill_row_wp x lo hi o c (R : unit → h264_dpb_stru → Prop) E : first_two x → 0 ≤ lo → hi ≤ zlen (get_l x c) →
  R tt (view s (set_l x (splice (Z.to_nat lo) (replicate (Z.to_nat (hi - lo)) o) (get_l x c)) c)) →
  wp False (for_range lo hi (fun i => list_put x i o)) R E (view s c).
Proof.
  intros Hx Hlo Hhi HR. set (l := get_l x c) in *. set (row i := splice (Z.to_nat lo) (replicate (Z.to_nat (i - lo)) o) l).
  apply (wp_for_range _ _ _ (fun i s' => s' = view s (set_l x (row i) c))).
  - unfold row. rewrite Z.sub_diag. change (replicate (Z.to_nat 0) o) with (@nil (option Z)). rewrite splice_nil. unfold l. f_equal. destruct Hx as [->| ->]; by destruct c.
  - intros i s' Hi ->. assert (zlen (row i) = zlen l) as El by (unfold row, zlen in *; rewrite length_splice; [done|rewrite length_replicate; lia]).
    apply list_put_wp; [done|rewrite get_set_l by done; lia|]. rewrite get_set_l, set_set_l by done. do 2 f_equal. unfold row.
    replace (Z.to_nat i) with (Z.to_nat lo + length (replicate (Z.to_nat (i - lo)) o))%nat by (rewrite length_replicate; lia).
    rewrite splice_snoc by (rewrite length_replicate; unfold zlen in *; lia). f_equal. replace (Z.to_nat (i + 1 - lo)) with (S (Z.to_nat (i - lo))) by lia. by rewrite replicate_S_end.
  - intros s' ->. replace (row (Z.max lo hi)) with (row hi); [exact HR|]. unfold row. f_equal. f_equal. lia.
Qed.

(** [sz] entries are left, NULL pictures behind them. *)
Definition padded (sz : Z) (o : option Z) (l : list (option Z)) : list (option Z) :=
  splice (Z.to_nat sz) (replicate (Z.to_nat (MAX_LIST_SIZE - sz)) o) l.

Lemma lists_ok_padded c x sz o : lists_ok c → first_two x → 0 ≤ sz ≤ MAX_LIST_SIZE → ptr_ok o → lists_ok (set_l x (padded sz o (get_l x c)) c).
Proof.
  intros Hc Hx Hsz Ho. pose proof (row_length c x Hc Hx) as Hl. unfold MAX_LIST_SIZE in *. apply lists_ok_set_l; [done| |].
  - unfold zlen, padded. rewrite length_splice by (rewrite length_replicate; unfold MAX_LIST_SIZE; lia). by apply lo_len.
  - apply Forall_forall. intros a [Ha|Ha]%elem_of_splice; [by apply elem_of_replicate in Ha as [-> _]|].
    pose proof (lo_ptrs c x Hc Hx) as Hp. rewrite Forall_forall in Hp. by apply Hp.
Qed.

(** The sizes are cut, and the rest of both lists is filled. *)
Record finished (c c' : lists) : Prop := {
  fi_ok : lists_ok c';
  fi_n0 : get_n 0 c' = Z.min (get_n 0 c) (num_ref_idx_active (mSlice s)).1;
  fi_n1 : get_n 1 c' = Z.min (get_n 1 c) (num_ref_idx_active (mSlice s)).2;
  fi_l0 : get_l 0 c' = padded (get_n 0 c') (no_reference_picture (mVideo s)) (get_l 0 c);
  fi_l1 : get_l 1 c' = padded (get_n 1 c') (no_reference_picture (mVideo s)) (get_l 1 c)
}.

Definition active_ok (sl : Slice) : Prop := 1 ≤ (num_ref_idx_active sl).1 < MAX_LIST_SIZE ∧ 1 ≤ (num_ref_idx_active sl).2 < MAX_LIST_SIZE.

Lemma finish_lists_wp c (R : unit → h264_dpb_stru → Prop) E : lists_ok c → 0 ≤ get_n 0 c → 0 ≤ get_n 1 c → active_ok (mSlice s) → ptr_ok (no_reference_picture (mVideo s)) →
  (∀ c', finished c c' → R tt (view s c')) → wp False finish_lists R E (view s c).
Proof.
  intros Hc Hn0 Hn1 [Ha0 Ha1] Hp HR. unfold MAX_LIST_SIZE in *. assert (first_two 0) as H0 by (by left). assert (first_two 1) as H1 by (by right).
  unfold finish_lists. wp_step. wp_step. cbn [view]. change (num_ref_idx_active (mSlice (view s c))) with (num_ref_idx_active (mSlice s)).
  change (no_reference_picture (mVideo (view s c))) with (no_reference_picture (mVideo s)).
  destruct (num_ref_idx_active (mSlice s)) as [n0 n1] eqn:En. cbn [fst snd] in Ha0, Ha1. set (o := no_reference_picture (mVideo s)) in *.
  wp_step. apply list_size_wp; [done|]. wp_step. apply set_size_wp; [done|lia|]. wp_step. apply list_size_wp; [done|]. wp_step. apply set_size_wp; [done|cbn in *; lia|].
  wp_step. apply check_valid_wp; [done|cbn in *; unfold MAX_LIST_SIZE; lia|]. wp_step. apply check_valid_wp; [done|cbn in *; unfold MAX_LIST_SIZE; lia|]. cbv zeta.
  set (m0 := Z.min (c_n0 c) n0). set (m1 := Z.min (c_n1 c) n1). set (c1 := set_n 1 m1 (set_n 0 m0 c)).
  pose proof (lo_len c 0 Hc H0) as L0. pose proof (lo_len c 1 Hc H1) as L1. unfold ROW, MAX_LIST_SIZE in L0, L1. cbn in Hn0, Hn1, L0, L1.
  change (view s (set_n 1 _ _)) with (view s c1). wp_step. apply list_size_wp; [done|]. wp_step.
  apply fill_row_wp; [done|cbn; lia|cbn; unfold MAX_LIST_SIZE; lia|]. wp_step. apply list_size_wp; [done|]. apply fill_row_wp; [done|cbn; lia|cbn; unfold MAX_LIST_SIZE; lia|].
  assert (lists_ok c1) as Hc1 by (by apply lists_ok_set_n, lists_ok_set_n).
  assert (lists_ok (set_l 0 (padded m0 o (get_l 0 c1)) c1)) as Hc2 by (apply lists_ok_padded; [done|done|unfold MAX_LIST_SIZE; lia|done]).
  apply HR. split; [|by rewrite En|by rewrite En|done|done].
  apply (lists_ok_padded _ 1 m1 o Hc2 H1); [unfold MAX_LIST_SIZE; lia|done].
Qed.

(** *** Lists of fields *)

(** The field of a frame store that passes [t]. *)
Definition field_pic (t : StorablePicture → bool) (pa : parity) (o : option Z) : option (option Z) :=
  k ← o; f ← store s k;
  if bit (f_is_used f) (pa_mask pa) then p ← pa_field pa f; x ← pic s p; if t x then Some (Some p) else None else None.

Definition fields_of (t : StorablePicture → bool) (pa : parity) (l : list (option Z)) : list (option Z) := omap (field_pic t pa) l.

(** 8.2.4.2.5: the two parities in turn, and when one of them has run out the
    rest of the other. *)
Fixpoint alternate {A} (a b : list A) : list A :=
  match a with
  | [] => b
  | x :: a => x :: match b with [] => a | y :: b => y :: alternate a b end
  end.

Lemma length_alternate {A} (a b : list A) : length (alternate a b) = (length a + length b)%nat.
Proof. revert b. induction a as [|x a IH]; intros [|y b]; cbn; [done|done|lia|]. rewrite IH. lia. Qed.

Lemma elem_of_alternate {A} (a b : list A) x : x ∈ alternate a b → x ∈ a ∨ x ∈ b.
Proof.
  revert b. induction a as [|y a IH]; intros b; cbn; [by right|]. intros [->|H]%elem_of_cons; [left; by left|]. destruct b as [|z b]; [left; by right|].
  apply elem_of_cons in H as [->|H]; [right; by left|]. apply IH in H as [H|H]; [left; by right|right; by right].
Qed.

Definition a_parity (pa : parity) : Prop := pa = top_parity ∨ pa = bottom_parity.

Lemma parity_pic pa k f p : a_parity pa → 0 ≤ k < DPB_SIZE_MAX → store s k = Some f → pa_field pa f = Some p → ∃ x, 0 ≤ p < MAX_PIC_BUF_NUM ∧ pic s p = Some x.
Proof.
  intros Hpa Hk Hf Hp. apply (store_pics fx m ex s (proj1 Hs) s k f p (ok_start _ _ _ _ Hs) Hk Hf). unfold own_store. destruct Hpa as [->| ->]; cbn in Hp; rewrite Hp; set_solver.
Qed.

Lemma fields_of_pic t pa l o : a_parity pa → Forall a_store l → o ∈ fields_of t pa l → a_pic o.
Proof.
  intros Hpa Hl (k' & Hk' & Ho)%list_elem_of_omap. rewrite Forall_forall in Hl. destruct (Hl _ Hk') as (k & f & -> & Hk & Hf). unfold field_pic in Ho. cbn [mbind option_bind] in Ho.
  rewrite Hf in Ho. cbn [mbind option_bind] in Ho. destruct (bit _ _); [|done]. destruct (pa_field pa f) as [p|] eqn:Ep; [|done]. cbn [mbind option_bind] in Ho.
  destruct (parity_pic pa k f p Hpa Hk Hf Ep) as (x & Hp & Hx). rewrite Hx in Ho. cbn [mbind option_bind] in Ho. destruct (t x); [|done]. injection Ho as <-. by exists p, x.
Qed.

(** List [x] while it grows: [acc] is what it holds. *)
Definition grown (c : lists) (x : Z) (acc : list (option Z)) : lists := set_n x (zlen acc) (set_l x (splice 0 acc (get_l x c)) c).

Lemma grown_put c x acc o (R : unit → h264_dpb_stru → Prop) E : first_two x → (length acc < length (get_l x c))%nat → zlen acc < 127 →
  R tt (view s (grown c x (acc ++ [o]))) →
  wp False (sz ← list_size x; list_put x sz o;; set_size x (sz + 1)) R E (view s (grown c x acc)).
Proof.
  intros Hx Hl Ha HR. assert (get_n x (grown c x acc) = zlen acc) as En by (by destruct Hx as [->| ->]).
  assert (get_l x (grown c x acc) = splice 0 acc (get_l x c)) as El by (by destruct Hx as [->| ->]).
  wp_step. apply list_size_wp; [done|]. rewrite En. wp_step. apply list_put_wp; [done|rewrite El; unfold zlen; rewrite length_splice; cbn; lia|].
  apply set_size_wp; [done|unfold zlen in *; lia|]. rewrite El. replace (Z.to_nat (zlen acc)) with (0 + length acc)%nat by (unfold zlen; lia).
  rewrite splice_snoc by (cbn; lia). replace (zlen acc + 1) with (zlen (acc ++ [o])) by (by rewrite zlen_app). destruct Hx as [->| ->]; exact HR.
Qed.

Lemma grown_assoc {A} x (g : Z → D unit) (h : Z → D unit) (k : D A) (R : A → h264_dpb_stru → Prop) E s' :
  wp False (sz ← list_size x; g sz;; h sz) (fun _ => wp False k R E) E s' → wp False (sz ← list_size x; g sz;; h sz;; k) R E s'.
Proof.
  unfold wp, mbind, D_bind, M_bind. destruct (list_size x s') as [sz s1|e s1|]; [|done|done]. destruct (g sz s1) as [u s2|e s2|]; [|done|done]. by destruct (h sz s2).
Qed.

(** The test of [next_field] on a frame store. *)
Lemma field_test t pa k f : a_parity pa → 0 ≤ k < DPB_SIZE_MAX → store s k = Some f →
  ∃ b : bool, field_pic t pa (Some k) = (if b then Some (pa_field pa f) else None) ∧
    ∀ c (R : bool → h264_dpb_stru → Prop) E, R b (view s c) →
      wp False (if bit (f_is_used f) (pa_mask pa) then test_pic (pa_field pa f) t else mret false) R E (view s c).
Proof.
  intros Hpa Hk Hf. unfold field_pic. cbn [mbind option_bind]. rewrite Hf. cbn [mbind option_bind].
  destruct (bit (f_is_used f) (pa_mask pa)); [|exists false; split; [done|intros ? ? ? HR; exact HR]].
  destruct (pa_field pa f) as [p|] eqn:Ep; [|exists false; split; [done|intros ? ? ? HR; exact HR]]. destruct (parity_pic pa k f p Hpa Hk Hf Ep) as (y & _ & Hy).
  exists (t y). cbn [mbind option_bind]. rewrite Hy. split; [done|]. intros c R E HR. unfold test_pic. wp_step. apply (pic_at_wp p y); [exact Hy|]. by wp_step.
Qed.

Lemma next_field_wp t pa x c l li n : a_parity pa → first_two x → Forall a_store (take li l) → (li ≤ length l)%nat →
  ∀ i acc (R : Z → h264_dpb_stru → Prop) E, (i + n = li)%nat → zlen acc < 127 →
  (fields_of t pa (drop i (take li l)) ≠ [] → (length acc < length (get_l x c))%nat) →
  match fields_of t pa (drop i (take li l)) with
  | [] => R (Z.of_nat li) (view s (grown c x acc))
  | o :: rest => ∀ i', (i < i' ≤ li)%nat → fields_of t pa (drop i' (take li l)) = rest → R (Z.of_nat i') (view s (grown c x (acc ++ [o])))
  end → wp False (next_field n t pa x l (Z.of_nat i)) R E (view s (grown c x acc)).
Proof.
  intros Hpa Hx Hst Hli. induction n as [|n IH]; intros i acc R E Hn Ha Hroom HR; cbn [next_field].
  { replace i with li in * by lia. rewrite drop_ge in HR by (rewrite length_take; lia). wp_step. exact HR. }
  assert (i < length (take li l))%nat as Hi by (rewrite length_take; lia). destruct (lookup_lt_is_Some_2 _ _ Hi) as [k' Hk'].
  pose proof Hk' as Hk2. apply lookup_take_Some in Hk2 as [Hk2 _]. pose proof (Forall_lookup_1 _ _ _ _ Hst Hk') as (k & f & -> & Hk & Hf).
  rewrite (drop_S _ _ _ Hk') in *. rewrite aget_nat, Hk2. cbn [of_option]. wp_step. wp_step. wp_step. apply (fs_at_wp k f); [exact Hf|].
  destruct (field_test t pa k f Hpa Hk Hf) as (b & Hb & Htest). unfold fields_of in HR, Hroom. cbn [omap list_omap] in HR, Hroom. rewrite Hb in HR, Hroom.
  wp_step. apply Htest. clear Htest Hb. destruct b.
  - apply grown_assoc. apply grown_put; [done|by apply Hroom|done|]. wp_step. replace (Z.of_nat i + 1) with (Z.of_nat (S i)) by lia. apply HR; [lia|done].
  - replace (Z.of_nat i + 1) with (Z.of_nat (S i)) by lia. apply IH; [lia|done|done|]. unfold fields_of. destruct (omap _ _); [done|]. intros i' Hi'; apply HR; lia.
Qed.

Lemma alternate_nil_r {A} (a : list A) : alternate a [] = a.
Proof. by destruct a. Qed.

(** Both parities, from [i] and [j] on. *)
Lemma fields_loop_wp t p1 p2 x c l li n : a_parity p1 → a_parity p2 → first_two x → Forall a_store (take li l) → (li ≤ length l)%nat → length (get_l x c) = 66%nat →
  ∀ i j acc (R : unit → h264_dpb_stru → Prop) E, (i ≤ li)%nat → (j ≤ li)%nat → (li - i + (li - j) ≤ n)%nat →
  (length acc + length (fields_of t p1 (drop i (take li l))) + length (fields_of t p2 (drop j (take li l))) ≤ 66)%nat →
  R tt (view s (grown c x (acc ++ alternate (fields_of t p1 (drop i (take li l))) (fields_of t p2 (drop j (take li l)))))) →
  wp False (fields_loop n t p1 p2 x l (Z.of_nat li) (Z.of_nat i) (Z.of_nat j)) R E (view s (grown c x acc)).
Proof.
  intros Hp1 Hp2 Hx Hst Hli Hlen. set (F := fun pa i => fields_of t pa (drop i (take li l))). change (fields_of t p1 (drop ?i _)) with (F p1 i).
  assert (∀ pa, F pa li = []) as Hend by (intros pa; unfold F; by rewrite drop_ge by (rewrite length_take; lia)).
  assert (∀ pa i acc (R : Z → h264_dpb_stru → Prop) E, a_parity pa → (i ≤ li)%nat → (length acc + length (F pa i) ≤ 66)%nat →
    (∀ i', (i ≤ i' ≤ li)%nat → (i < li → i < i')%nat → (length (F pa i') ≤ length (F pa i))%nat →
       F pa i = take 1 (F pa i) ++ F pa i' → R (Z.of_nat i') (view s (grown c x (acc ++ take 1 (F pa i))))) →
    wp False (next_field (Z.to_nat (Z.of_nat li - Z.of_nat i)) t pa x l (Z.of_nat i)) R E (view s (grown c x acc))) as Hnext.
  { intros pa i acc R E Hpa Hi Hroom HR. apply (next_field_wp t pa x c l li); [done|done|done|done|lia|unfold zlen; lia| |].
    - change (fields_of t pa (drop i (take li l))) with (F pa i). rewrite Hlen. destruct (F pa i); cbn in Hroom; [done|lia].
    - change (fields_of t pa (drop i (take li l))) with (F pa i). destruct (F pa i) as [|o rest].
      + specialize (HR li). rewrite (Hend pa) in HR. cbn [take] in HR. rewrite !app_nil_r in HR. apply HR; [lia|lia|cbn; lia|done].
      + intros i' Hi' Hf. change (F pa i' = rest) in Hf. cbn [take] in HR. rewrite firstn_O in HR. apply HR; [lia|lia|rewrite Hf; cbn; lia|by rewrite Hf]. }
  assert (∀ acc, acc ++ alternate (F p1 li) (F p2 li) = acc) as Hdone by (intros acc; rewrite !Hend; apply app_nil_r).
  induction n as [|n IH]; intros i j acc R E Hi Hj Hn Hroom HR; cbn [fields_loop];
    change (length acc + length (F p1 i) + length (F p2 j) ≤ 66)%nat in Hroom;
    change (R tt (view s (grown c x (acc ++ alternate (F p1 i) (F p2 j))))) in HR.
  { rewrite !(proj2 (Z.ltb_ge _ _)) by lia. cbn [orb]. replace i with li in HR by lia. replace j with li in HR by lia. rewrite Hdone in HR. by wp_step. }
  destruct (decide (i = li ∧ j = li)) as [[-> ->]|Hne].
  { rewrite !(proj2 (Z.ltb_ge _ _)) by lia. cbn [orb]. rewrite Hdone in HR. by wp_step. }
  replace ((Z.of_nat i <? Z.of_nat li) || (Z.of_nat j <? Z.of_nat li)) with true
    by (symmetry; apply orb_true_iff; destruct (decide (i = li)); [right|left]; apply Z.ltb_lt; lia).
  wp_step. apply Hnext; [done|done|lia|]. intros i' Hi' Hlt Hle Ei.
  wp_step. apply Hnext; [done|done|rewrite length_app, length_take; lia|]. intros j' Hj' Hlt' Hle' Ej.
  assert (length (F p1 i) = length (take 1 (F p1 i)) + length (F p1 i'))%nat as E1 by (by rewrite <- length_app, <- Ei).
  assert (length (F p2 j) = length (take 1 (F p2 j)) + length (F p2 j'))%nat as E2 by (by rewrite <- length_app, <- Ej).
  apply IH; [lia|lia| |rewrite !length_app; change (length acc + length (take 1 (F p1 i)) + length (take 1 (F p2 j)) + length (F p1 i') + length (F p2 j') ≤ 66)%nat; lia|].
  { destruct (decide (i = li)), (decide (j = li)); lia. }
  change (R tt (view s (grown c x (((acc ++ take 1 (F p1 i)) ++ take 1 (F p2 j)) ++ alternate (F p1 i') (F p2 j'))))).
  replace (((acc ++ take 1 (F p1 i)) ++ take 1 (F p2 j)) ++ alternate (F p1 i') (F p2 j')) with (acc ++ alternate (F p1 i) (F p2 j)); [done|].
  rewrite <- !app_assoc. f_equal. clear HR Hroom E1 E2 Hle Hle'. destruct (F p1 i) as [|a A]; [destruct (F p1 i'); [|done]; destruct (F p2 j) as [|b B]; cbn in *|].
  - by rewrite <- Ej.
  - rewrite firstn_O in *. cbn in Ej. by injection Ej as <-.
  - cbn in Ei |- *. rewrite firstn_O in *. cbn in *. injection Ei as <-. f_equal. destruct (F p2 j) as [|b B]; cbn in *; [rewrite <- Ej; by rewrite alternate_nil_r|].
    rewrite firstn_O in *. cbn in *. by injection Ej as <-.
Qed.

Definition parities (st : PictureStructure) : option (parity * parity) :=
  match st with TOP_FIELD => Some (top_parity, bottom_parity) | BOTTOM_FIELD => Some (bottom_parity, top_parity) | FRAME => None end.

Definition ref_test (long_term : bool) : StorablePicture → bool := if long_term then is_long_ref else is_short_ref.

(** The fields of the frame stores [L], in turn. *)
Definition field_list (st : PictureStructure) (long_term : bool) (L : list (option Z)) : list (option Z) :=
  match parities st with
  | Some (p1, p2) => alternate (fields_of (ref_test long_term) p1 L) (fields_of (ref_test long_term) p2 L)
  | None => []
  end.

Lemma gen_pic_list_wp st a long_term x c L l acc (R : unit → h264_dpb_stru → Prop) E : first_two x → length (get_l x c) = 66%nat → Forall a_store L →
  get_a a c = splice 0 L l → (length L ≤ length l)%nat → (length acc + length (field_list st long_term L) ≤ 66)%nat →
  R tt (view s (grown c x (acc ++ field_list st long_term L))) →
  wp False (gen_pic_list_from_frame_list st a (zlen L) x long_term) R E (view s (grown c x acc)).
Proof.
  intros Hx Hlen HL Ha Hl Hroom HR. unfold gen_pic_list_from_frame_list. wp_step. wp_step.
  assert (fs_array_of a (mDPB (view s (grown c x acc))) = splice 0 L l) as -> by (rewrite <- Ha; unfold grown; by destruct a, Hx as [->| ->]).
  assert (take (length L) (splice 0 L l) = L) as Et by (by apply (drop_take_splice 0)).
  assert (length L ≤ length (splice 0 L l))%nat as Hle by (rewrite length_splice; cbn; lia). cbv zeta.
  assert (∀ p1 p2, a_parity p1 → a_parity p2 → parities st = Some (p1, p2) →
    wp False (fields_loop (2 * Z.to_nat (zlen L)) (ref_test long_term) p1 p2 x (splice 0 L l) (zlen L) 0 0) R E (view s (grown c x acc))) as Hgo.
  { intros p1 p2 H1 H2 Hp. unfold field_list in HR, Hroom. rewrite Hp in HR, Hroom. rewrite length_alternate in Hroom.
    apply (fields_loop_wp _ p1 p2 x c (splice 0 L l) (length L) _ H1 H2 Hx ltac:(by rewrite Et) Hle Hlen 0%nat 0%nat); rewrite ?Et, ?drop_0; [lia|lia|unfold zlen; lia|lia|exact HR]. }
  destruct st; [|by apply Hgo; [left|right|]..|by apply Hgo; [right|left|]]. wp_step. cbn in HR. by rewrite app_nil_r in HR.
Qed.

(** *** How many fields there are *)

(** Functions that select elements. *)
Definition selects {A} (f : A → option A) : Prop := ∀ a b, f a = Some b → b = a.

Lemma omap_submseteq {A} (f g : A → option A) l : selects f → selects g → (∀ a, f a = None ∨ g a = None) → omap f l ++ omap g l ⊆+ l.
Proof.
  intros Hf Hg Hd. induction l as [|a l IH]; cbn; [done|]. destruct (f a) as [b|] eqn:Ef.
  - apply Hf in Ef as Eb. subst b. destruct (Hd a) as [H|H]; [congruence|]. rewrite H. cbn. by apply submseteq_skip.
  - destruct (g a) as [b|] eqn:Eg; [|by apply submseteq_cons]. apply Hg in Eg. subst b. rewrite <- Permutation_middle. by apply submseteq_skip.
Qed.

Lemma store_of_selects t : selects (store_of t).
Proof.
  intros [k|] o; [|done]. unfold store_of. cbn [mbind option_bind]. destruct (store s k) as [f|]; [|done]. cbn [mbind option_bind]. destruct (t f); [congruence|done].
Qed.

Lemma store_of_excl t t' o : (∀ f, t f = true → t' f = false) → store_of t o = None ∨ store_of t' o = None.
Proof.
  intros H. destruct o as [k|]; [|by left]. unfold store_of. cbn [mbind option_bind]. destruct (store s k) as [f|]; [|by left]. cbn [mbind option_bind].
  destruct (t f) eqn:E; [right; by rewrite (H f E)|by left].
Qed.

Lemma field_pic_excl pa o : field_pic is_short_ref pa o = None ∨ field_pic is_long_ref pa o = None.
Proof.
  destruct o as [k|]; [|by left]. unfold field_pic. cbn [mbind option_bind]. destruct (store s k) as [f|]; [|by left]. cbn [mbind option_bind].
  destruct (bit _ _); [|by left]. destruct (pa_field pa f) as [p|]; [|by left]. cbn [mbind option_bind]. destruct (pic s p) as [x|]; [|by left]. cbn [mbind option_bind].
  unfold is_short_ref, is_long_ref. destruct (p_is_long_term x); [left; by rewrite andb_false_r|right; by rewrite andb_false_r].
Qed.

Lemma length_field_list st b L : (length (field_list st b L) ≤ length (fields_of (ref_test b) top_parity L) + length (fields_of (ref_test b) bottom_parity L))%nat.
Proof. unfold field_list. destruct st; cbn [parities length]; [lia|by rewrite length_alternate|rewrite length_alternate; lia]. Qed.

(** A frame store has two fields, each a short-term or a long-term reference. *)
Lemma fields_bound st A B : A ⊆+ all_stores → B ⊆+ all_stores → (length (field_list st false A) + length (field_list st true B) ≤ 64)%nat.
Proof.
  intros HA HB. pose proof (length_field_list st false A). pose proof (length_field_list st true B). unfold fields_of in *. cbn [ref_test] in *.
  pose proof (omap_length_submseteq (field_pic is_short_ref top_parity) _ _ HA). pose proof (omap_length_submseteq (field_pic is_short_ref bottom_parity) _ _ HA).
  pose proof (omap_length_submseteq (field_pic is_long_ref top_parity) _ _ HB). pose proof (omap_length_submseteq (field_pic is_long_ref bottom_parity) _ _ HB).
  pose proof (omap_disjoint _ _ all_stores (field_pic_excl top_parity)) as D1. pose proof (omap_disjoint _ _ all_stores (field_pic_excl bottom_parity)) as D2.
  rewrite length_all_stores in D1, D2. unfold DPB_SIZE_MAX in *. lia.
Qed.

Lemma field_list_pics st b L : Forall a_store L → Forall a_pic (field_list st b L).
Proof.
  intros HL. apply Forall_forall. intros o Ho. unfold field_list in Ho. destruct st; cbn [parities] in Ho; [by apply not_elem_of_nil in Ho|..];
    apply elem_of_alternate in Ho as [Ho|Ho]; (eapply fields_of_pic; [|done|exact Ho]); [by left|by right|by right|by left].
Qed.

(** *** Lists of fields of a P slice *)

Lemma grown_start c x : set_n x 0 c = grown c x [].
Proof. unfold grown. rewrite splice_nil. unfold set_n, set_l, get_l, zlen. by destruct (x =? 0), c. Qed.

(** The long-term references by rising index. *)
Record long_stores (L : list (option Z)) : Prop := {
  ls_perm : L ≡ₚ take (Z.to_nat (ltref_frames_in_buffer (mDPB s))) (fs_ltref (mDPB s));
  ls_order : ordered (fs_key f_long_term_frame_idx) L
}.

Lemma refs_stores arr n : refs_in arr n → Forall a_store (take (Z.to_nat n) arr).
Proof.
  intros (_ & _ & Hr & _). apply Forall_forall. intros o Ho. apply elem_of_take in Ho as (i & Hi & Hin). destruct (Hr (Z.of_nat i)) as (k & Hk & Hkr); [lia|].
  rewrite aget_nat in Hk. simplify_eq. destruct (ok_store _ _ _ _ k Hs Hkr) as (f & Hf & _). by exists k, f.
Qed.

Lemma omap_Some {A} (l : list A) : omap Some l = l.
Proof. induction l as [|a l IH]; cbn; [done|by rewrite IH]. Qed.

Lemma length_refs arr n : refs_in arr n → (length (take (Z.to_nat n) arr) ≤ 32)%nat.
Proof. intros (_ & Hn & _). rewrite length_take. unfold DPB_SIZE_MAX in Hn. lia. Qed.

Lemma array_length c a : lists_ok c → length (get_a a c) = 32%nat.
Proof. intros Hc. pose proof (lo_alen c a Hc) as H. unfold zlen, DPB_SIZE_MAX in H. lia. Qed.

Lemma sort_long_stores_wp c (R : Z → h264_dpb_stru → Prop) E : lists_ok c →
  (∀ L e, long_stores L → R (zlen L) (view s (set_a ListLt (splice 0 L (get_a ListLt c)) (with_err e c)))) → wp False sort_long_stores R E (view s c).
Proof.
  intros Hc HR. pose proof (array_length c ListLt Hc) as Hlen. pose proof (length_refs _ _ long_in) as Hb. unfold sort_long_stores. wp_step. wp_step. wp_step.
  set (L0 := take (Z.to_nat (ltref_frames_in_buffer (mDPB s))) (fs_ltref (mDPB s))) in *.
  assert (long_refs (fun o => Some o) = L0) as E0 by apply omap_Some.
  apply (gather_array_wp ListLt fs_ltref _ _ _ 0 c _ _ ltac:(done) long_in all_stores_picks); [rewrite E0; lia|]. intros e. rewrite E0. wp_step.
  eapply (sort_array_wp ListLt 0 L0 (get_a ListLt c) _ (fs_key f_long_term_frame_idx)); [apply (by_fs_compare asc id); [apply asc_spec|]|done|lia|unfold zlen; lia|].
  { intros o Ho. pose proof (refs_stores _ _ long_in) as Hst. rewrite Forall_forall in Hst. by apply Hst. }
  intros L HL HLo. wp_step. replace (Z.of_nat 0 + zlen L0) with (zlen L) by (unfold zlen; rewrite HL; lia). by apply (HR L e).
Qed.

(** A list that is done: [Lst] in list [x], and what the rest needs. *)
Record holds_list (c0 : lists) (x : Z) (Lst : list (option Z)) (c : lists) : Prop := {
  hl_ok : lists_ok c;
  hl_row : get_l x c = splice 0 Lst (get_l x c0);
  hl_size : get_n x c = zlen Lst;
  hl_room : (length Lst ≤ 64)%nat
}.

Lemma grown_ok c x acc : lists_ok c → first_two x → (length acc ≤ 64)%nat → Forall a_pic acc → lists_ok (grown c x acc).
Proof. intros Hc Hx Hl Hp. apply lists_ok_set_n, lists_ok_splice; [done|done|rewrite (row_length c x Hc Hx); lia|done]. Qed.

Lemma array_ok c a L e : lists_ok c → (length L ≤ 32)%nat → lists_ok (set_a a (splice 0 L (get_a a c)) (with_err e c)).
Proof.
  intros Hc Hl. apply lists_ok_set_a; [by apply lists_ok_with_err|]. unfold zlen. rewrite length_splice by (rewrite (array_length c a Hc); cbn; lia). by apply lo_alen.
Qed.

Lemma perm_stores L L0 : L ≡ₚ L0 → Forall a_store L0 → Forall a_store L.
Proof. by intros ->. Qed.

(** Reference fields: short-term ones by falling [frame_num_wrap]. *)
Record p_field_stores (S : list (option Z)) : Prop := {
  pfs_perm : S ≡ₚ short_refs (store_of (fun f => truth (f_is_reference f)));
  pfs_order : ordered (fun o => - fs_key f_frame_num_wrap o) S
}.

Lemma chosen_stores_all arr n t : refs_in arr n → Forall a_store (chosen arr n (store_of t)).
Proof. intros Hr. apply Forall_forall. intros o Ho. by apply (chosen_stores _ _ _ _ Hr Ho). Qed.

Lemma chosen_submseteq arr n t : refs_in arr n → chosen arr n (store_of t) ⊆+ all_stores.
Proof.
  intros Hr. etrans; [|by apply refs_submseteq]. unfold chosen. set (l := take _ arr). pose proof (omap_submseteq (store_of t) (fun _ => None) l) as H.
  etrans; [|apply H; [apply store_of_selects|done|by right]]. by apply submseteq_inserts_r.
Qed.

Lemma init_p_field_wp st c (R : unit → h264_dpb_stru → Prop) E : lists_ok c →
  (∀ S L c', p_field_stores S → long_stores L → holds_list c 0 (field_list st false S ++ field_list st true L) c' → R tt (view s c')) →
  wp False (init_lists_p_field st) R E (view s c).
Proof.
  intros Hc HR. assert (first_two 0) as H0 by (by left). pose proof (row_length c 0 Hc H0) as Hlen. pose proof (array_length c List0 Hc) as Hal.
  set (S0 := short_refs (store_of (fun f => truth (f_is_reference f)))). pose proof (chosen_stores_all _ _ (fun f => truth (f_is_reference f)) short_in) as HS0. fold S0 in HS0.
  pose proof (chosen_submseteq _ _ (fun f => truth (f_is_reference f)) short_in) as Hsub. fold S0 in Hsub. pose proof (submseteq_length _ _ Hsub) as Hb. rewrite length_all_stores in Hb. unfold DPB_SIZE_MAX in Hb.
  unfold init_lists_p_field. wp_step. wp_step. wp_step. apply (gather_array_wp List0 fs_ref _ _ _ 0 c _ _ ltac:(done) short_in (short_store_picks _)); [fold S0; lia|].
  intros e. fold S0. wp_step. eapply (sort_array_wp List0 0 S0 (get_a List0 c) _ (fun o => - fs_key f_frame_num_wrap o));
    [apply (by_fs_compare desc Z.opp); [apply desc_spec|]|done|lia|unfold zlen; lia|].
  { intros o Ho. rewrite Forall_forall in HS0. by apply HS0. }
  intros S HS HSo. pose proof (perm_stores _ _ HS HS0) as HSs. assert (length S = length S0) as ES by (by rewrite HS). wp_step. apply set_size_wp; [done|lia|].
  set (c1 := set_a List0 (splice 0 S (get_a List0 c)) (with_err e c)). assert (lists_ok c1) as Hc1 by (apply array_ok; [done|lia]).
  change (view s (set_n 0 0 _)) with (view s (set_n 0 0 c1)). rewrite grown_start. replace (Z.of_nat 0 + zlen S0) with (zlen S) by (unfold zlen; lia). wp_step.
  assert (∀ L, L ≡ₚ take (Z.to_nat (ltref_frames_in_buffer (mDPB s))) (fs_ltref (mDPB s)) → (length (field_list st false S) + length (field_list st true L) ≤ 64)%nat) as Hroom.
  { intros L HL. apply fields_bound; [by rewrite HS|rewrite HL; by apply refs_submseteq, long_in]. }
  apply (gen_pic_list_wp st List0 false 0 c1 S (get_a List0 c)); [done|by apply row_length|done|done|lia|pose proof (Hroom _ (reflexivity _)); cbn; lia|].
  set (A := field_list st false S). assert (Forall a_pic A) as HA by (by apply field_list_pics). wp_step.
  assert (length A ≤ 64)%nat as HAl by (pose proof (Hroom _ (reflexivity _)) as Hr; fold A in Hr; lia).
  apply sort_long_stores_wp; [by apply grown_ok|]. intros L e' HL. pose proof (Hroom L (ls_perm _ HL)) as Hr. fold A in Hr. pose proof (length_refs _ _ long_in) as Hll. rewrite <- (ls_perm _ HL) in Hll.
  set (c2 := set_a ListLt (splice 0 L (get_a ListLt c1)) (with_err e' c1)). change (view s (set_a ListLt _ _)) with (view s (grown c2 0 A)).
  assert (Forall a_store L) as HLs by (eapply perm_stores; [apply HL|apply refs_stores, long_in]). pose proof (array_length c1 ListLt Hc1) as Hal1. assert (lists_ok c2) as Hc2 by (apply array_ok; [done|lia]).
  apply (gen_pic_list_wp st ListLt true 0 c2 L (get_a ListLt c1)); [done|by apply row_length|done|done|lia|lia|].
  apply (HR S L); [by split|done|]. assert (Forall a_pic (A ++ field_list st true L)) as HAL by (apply Forall_app; split; [done|by apply field_list_pics]).
  split; [apply grown_ok; [done|done|rewrite length_app; lia|done]|done|done|rewrite length_app; fold A; lia].
Qed.

(** *** P slices *)

Definition p_list (st : PictureStructure) (Lst : list (option Z)) : Prop :=
  if is_eq st FRAME then ∃ S L, p_frame_list S L ∧ Lst = S ++ L
  else ∃ S L, p_field_stores S ∧ long_stores L ∧ Lst = field_list st false S ++ field_list st true L.

(** What list [x] is in the end: at most [n] elements of [Lst], and then the
    picture that stands for a missing one. *)
Record final_list (x : Z) (Lst : list (option Z)) (n : Z) (c : lists) : Prop := {
  fl_size : get_n x c = Z.min (zlen Lst) n;
  fl_elems : ∀ i, 0 ≤ i < get_n x c → aget (get_l x c) i = aget Lst i;
  fl_missing : ∀ i, get_n x c ≤ i < MAX_LIST_SIZE → aget (get_l x c) i = Some (no_reference_picture (mVideo s))
}.

Lemma padded_elems Lst l n o i : 0 ≤ n ≤ zlen Lst → n ≤ MAX_LIST_SIZE → (length Lst ≤ 64)%nat → length l = 66%nat → 0 ≤ i < MAX_LIST_SIZE →
  aget (padded n o (splice 0 Lst l)) i = if i <? n then aget Lst i else Some o.
Proof.
  intros Hn Hn' HL Hl Hi. unfold MAX_LIST_SIZE, zlen in *. unfold padded. replace i with (Z.of_nat (Z.to_nat i)) by lia. set (k := Z.to_nat i). rewrite !aget_nat.
  rewrite lookup_splice by (rewrite length_replicate, length_splice; unfold MAX_LIST_SIZE; cbn; lia). rewrite length_replicate. unfold MAX_LIST_SIZE.
  destruct (Z.ltb_spec (Z.of_nat k) n); case_decide; try lia.
  - rewrite lookup_splice by (cbn; lia). case_decide; [lia|]. rewrite decide_True by lia. by rewrite Nat.sub_0_r.
  - rewrite decide_True by lia. apply lookup_replicate_2. lia.
Qed.

Lemma finished_list c0 c c' x Lst : finished c c' → first_two x → lists_ok c0 → (length Lst ≤ 64)%nat → get_l x c = splice 0 Lst (get_l x c0) → get_n x c = zlen Lst →
  active_ok (mSlice s) → final_list x Lst (if x =? 0 then (num_ref_idx_active (mSlice s)).1 else (num_ref_idx_active (mSlice s)).2) c'.
Proof.
  intros [Hok En0 En1 El0 El1] Hx Hc0 Hlen El En Hact. set (n := if x =? 0 then _ else _). unfold active_ok, MAX_LIST_SIZE in Hact.
  assert (get_n x c' = Z.min (zlen Lst) n ∧ get_l x c' = padded (get_n x c') (no_reference_picture (mVideo s)) (get_l x c)) as [Hn Hl].
  { rewrite <- En. destruct Hx as [->| ->]; done. }
  assert (1 ≤ n ≤ 32) as Hact' by (unfold n; destruct Hx as [->| ->]; cbn; lia). pose proof (row_length c0 x Hc0 Hx) as Hr.
  split; [done|..]; intros i Hi; rewrite Hl, El; unfold zlen in *; (rewrite padded_elems; [|unfold zlen, MAX_LIST_SIZE in *; lia..]).
  - by rewrite (proj2 (Z.ltb_lt _ _)) by lia.
  - by rewrite (proj2 (Z.ltb_ge _ _)) by lia.
Qed.

Lemma init_p_slice_wp c (R : unit → h264_dpb_stru → Prop) E : lists_ok c → active_ok (mSlice s) → ptr_ok (no_reference_picture (mVideo s)) →
  (∀ Lst c', p_list (sl_structure (mSlice s)) Lst → lists_ok c' → final_list 0 Lst (num_ref_idx_active (mSlice s)).1 c' → get_n 1 c' = 0 → R tt (view s c')) →
  wp False init_lists_p_slice R E (view s c).
Proof.
  intros Hc Hact Hno HR. assert (first_two 0) as H0 by (by left). assert (first_two 1) as H1 by (by right). unfold init_lists_p_slice. wp_step. wp_step. wp_step.
  apply (wp_mono _ (fun _ s' => ∃ Lst c', p_list (sl_structure (mSlice s)) Lst ∧ holds_list c 0 Lst c' ∧ s' = view s c') _ E); [| |done].
  - unfold p_list. change (sl_structure (mSlice (view s c))) with (sl_structure (mSlice s)). destruct (sl_structure (mSlice s)).
    + apply init_p_frame_wp; [done|]. intros S L c' HSL Hok Hl Hn Hb. exists (S ++ L), c'. split; [by exists S, L|]. split; [split; [done|done|done|unfold zlen in Hb; lia]|done].
    + apply init_p_field_wp; [done|]. intros S L c' HS HL Hh. eexists _, c'. split; [by exists S, L|done].
    + apply init_p_field_wp; [done|]. intros S L c' HS HL Hh. eexists _, c'. split; [by exists S, L|done].
  - intros [] s' (Lst & c1 & HL & [Hok Hl Hn Hb] & ->). wp_step. apply set_size_wp; [done|lia|]. apply finish_lists_wp; [by apply lists_ok_set_n| |done|done|done|].
    + change (get_n 0 (set_n 1 0 c1)) with (get_n 0 c1). rewrite Hn. unfold zlen. lia.
    + intros c' Hf. pose proof Hf as [Hok' _ En1 _ _]. apply (HR Lst c'); [done|done|by apply (finished_list c _ _ 0 Lst Hf H0 Hc)|]. rewrite En1. cbn.
      unfold active_ok in Hact. lia.
Qed.
End Lists.
