(* ===== verification/H264ListsB.v ===== *)
(** The reference picture lists of B slices, the modification of lists and the
    lists of macroblock adaptive frames
    (src/drivers/frame_provider/decoder/h264_multi/h264_dpb.c, H264Lists):
    safe in every state of the buffer, and in the order H.264 prescribes
    (8.2.4.2.3, 8.2.4.2.4, 8.2.4.3). *)

From stdpp Require Import base list numbers sorting gmap.
From Stdlib Require Import ZArith Lia Bool.
From S2P Require Import Prelude H264Types H264Sort H264Pool H264Mark H264Inv H264MarkOk H264PoolOk H264Fill H264DisplayOk H264Safe H264Lists H264ListsOk.

#[local] Open Scope Z_scope.

Section ListsB.
Context (fx : fixed) (m : bool) (ex : list Z) (s : h264_dpb_stru) (Hs : ok fx m ex s).
Implicit Types (c : lists) (E : Z → h264_dpb_stru → Prop).

Notation short_refs t := (chosen (fs_ref (mDPB s)) (ref_frames_in_buffer (mDPB s)) t).
Notation long_refs t := (chosen (fs_ltref (mDPB s)) (ltref_frames_in_buffer (mDPB s)) t).

(** *** Two parts change places *)

Lemma copy_loop body lo hi sel (C : list (option Z) → lists) (R : unit → h264_dpb_stru → Prop) E : hi = lo + zlen sel →
  (∀ pre o rest (R' : unit → h264_dpb_stru → Prop), sel = pre ++ o :: rest → R' tt (view s (C (pre ++ [o]))) → wp False (body (lo + zlen pre)) R' E (view s (C pre))) →
  R tt (view s (C sel)) → wp False (for_range lo hi body) R E (view s (C [])).
Proof.
  intros -> Hb HR. apply (wp_for_range _ _ _ (fun i s' => s' = view s (C (take (Z.to_nat (i - lo)) sel)))).
  - by rewrite Z.sub_diag.
  - intros i s' Hi ->. set (k := Z.to_nat (i - lo)). assert (k < length sel)%nat as Hk by (unfold k, zlen in *; lia).
    destruct (lookup_lt_is_Some_2 sel k Hk) as [o Ho]. replace i with (lo + zlen (take k sel)) at 1 by (unfold zlen; rewrite length_take; lia).
    apply (Hb _ o (drop (S k) sel)); [by rewrite take_drop_middle|]. rewrite <- (take_S_r _ _ _ Ho). do 3 f_equal. unfold k. lia.
  - intros s' ->. rewrite take_ge by (unfold zlen; lia). exact HR.
Qed.

Lemma swap_parts_wp get put (G : list (option Z) → lists) src P F l (R : unit → h264_dpb_stru → Prop) E :
  (∀ l' j o (R' : option Z → h264_dpb_stru → Prop), aget (splice 0 (P ++ F) src) j = Some o → R' o (view s (G l')) → wp False (get j) R' E (view s (G l'))) →
  (∀ l' i o (R' : unit → h264_dpb_stru → Prop), 0 ≤ i < zlen l' → R' tt (view s (G (<[Z.to_nat i := o]> l'))) → wp False (put i o) R' E (view s (G l'))) →
  (length P + length F ≤ length src)%nat → (length P + length F ≤ length l)%nat →
  R tt (view s (G (splice 0 (F ++ P) l))) → wp False (swap_parts get put (zlen P) (zlen (P ++ F))) R E (view s (G l)).
Proof.
  intros Hget Hput Hsrc Hl HR. unfold swap_parts. rewrite zlen_app. wp_step. rewrite <- (splice_nil (length F) l) at 1.
  assert (∀ j o, (j < length (P ++ F))%nat → (P ++ F) !! j = Some o → aget (splice 0 (P ++ F) src) (Z.of_nat j) = Some o) as Hat.
  { intros j o Hj Ho. rewrite aget_nat, lookup_splice by (rewrite length_app; cbn; lia). rewrite decide_False by lia. rewrite decide_True by (cbn; lia). by rewrite Nat.sub_0_r. }
  apply (copy_loop _ _ _ P (fun pre => G (splice (length F) pre l))); [done| |].
  { intros pre o rest R' EP HR'. assert (length P = length pre + S (length rest))%nat as Elen by (by rewrite EP, length_app). wp_step. apply (Hget _ _ o).
    { apply Hat; [rewrite length_app; lia|]. rewrite EP, <- app_assoc. by apply list_lookup_middle. }
    replace (zlen P + zlen F - zlen P + (0 + zlen pre)) with (Z.of_nat (length F + length pre)) by (unfold zlen; lia).
    apply Hput; [unfold zlen; rewrite length_splice by lia; lia|]. rewrite Nat2Z.id, splice_snoc by lia. exact HR'. }
  rewrite <- (splice_nil 0 (splice (length F) P l)). apply (copy_loop _ _ _ F (fun pre => G (splice 0 pre (splice (length F) P l)))); [done| |].
  { intros pre o rest R' EF HR'. assert (length F = length pre + S (length rest))%nat as Elen by (by rewrite EF, length_app). wp_step.
    replace (zlen P + zlen pre) with (Z.of_nat (length P + length pre)) by (unfold zlen; lia). apply (Hget _ _ o).
    { apply Hat; [rewrite length_app; lia|]. rewrite lookup_app_r by lia. rewrite EF. by apply list_lookup_middle; lia. }
    replace (Z.of_nat (length P + length pre) - zlen P) with (Z.of_nat (0 + length pre)) by (unfold zlen; lia).
    assert (length (splice (length F) P l) = length l) as El by (apply length_splice; lia).
    apply Hput; [unfold zlen; rewrite length_splice by (rewrite El; lia); lia|]. rewrite Nat2Z.id, splice_snoc by (rewrite El; cbn; lia). exact HR'. }
  change (length F) with (0 + length F)%nat. rewrite splice_before by (cbn; lia). exact HR.
Qed.

(** *** Frames *)

Definition before_test (poc : Z) (x : StorablePicture) : bool := is_short_ref x && (p_poc x <=? poc).
Definition after_test (poc : Z) (x : StorablePicture) : bool := is_short_ref x && (poc <? p_poc x).

(** Short-term frames that precede the picture, the nearest first, those that
    follow it, the nearest first, and long-term frames.  Those are sorted in
    both lists. *)
Record b_frames (poc : Z) (P F L L' : list (option Z)) : Prop := {
  bf_before : P ≡ₚ short_refs (frame_of s (before_test poc));
  bf_before_order : ordered (fun o => - pic_key s p_poc o) P;
  bf_after : F ≡ₚ short_refs (frame_of s (after_test poc));
  bf_after_order : ordered (pic_key s p_poc) F;
  bf_long : L ≡ₚ long_refs (frame_of s p_is_long_term);
  bf_long_order : ordered (pic_key s p_long_term_pic_num) L;
  bf_long' : L' ≡ₚ long_refs (frame_of s p_is_long_term);
  bf_long_order' : ordered (pic_key s p_long_term_pic_num) L'
}.

Lemma omap_split {A B} (f g h : A → option B) l : (∀ a, (f a = None ∧ (g a = None ∨ is_Some (h a))) ∨ (g a = None ∧ is_Some (h a))) →
  (length (omap f l) + length (omap g l) ≤ length (omap h l))%nat.
Proof.
  intros H. induction l as [|a l IH]; cbn; [done|]. destruct (H a) as [[Hf Hg]|[Hg [b Hb]]].
  - rewrite Hf. destruct (g a) as [b|]; [destruct Hg as [|[b' Hb]]; [done|]; rewrite Hb; cbn; lia|]. destruct (h a); cbn; lia.
  - rewrite Hg, Hb. destruct (f a); cbn; lia.
Qed.

Lemma b_frames_bound poc : (length (short_refs (frame_of s (before_test poc))) + length (short_refs (frame_of s (after_test poc))) +
  length (long_refs (frame_of s p_is_long_term)) ≤ 32)%nat.
Proof.
  pose proof (frames_bound fx m ex s Hs (fun _ => true)) as H. set (h := frame_of s (fun x => is_short_ref x && true)) in *. etrans; [|exact H].
  apply Nat.add_le_mono_r, (omap_split _ _ h). intros [k|]; [|left; split; [done|by left]]. unfold h, frame_of. cbn [mbind option_bind].
  destruct (store s k) as [f|]; [|left; split; [done|by left]]. cbn [mbind option_bind]. destruct (f_frame f) as [p|]; [|left; split; [done|by left]]. cbn [mbind option_bind].
  destruct (pic s p) as [x|]; [|left; split; [done|by left]]. cbn [mbind option_bind]. unfold before_test, after_test. destruct (f_is_used f =? 3); [|left; split; [done|by left]].
  destruct (is_short_ref x); [|left; split; [done|by left]]. cbn. destruct (Z.leb_spec (p_poc x) poc), (Z.ltb_spec poc (p_poc x)); try lia; [right|left]; by eauto.
Qed.

Lemma chosen_frames_all arr n t : refs_in arr n → Forall (a_pic s) (chosen arr n (frame_of s t)).
Proof. intros Hr. apply Forall_forall. intros o Ho. by apply (chosen_frames fx m ex s Hs _ _ _ _ Hr Ho). Qed.

Lemma set_sizes_wp n c (R : unit → h264_dpb_stru → Prop) E : 0 ≤ n < 128 → R tt (view s (set_n 0 n (set_n 1 n c))) → wp False (set_sizes n) R E (view s c).
Proof. intros Hn HR. unfold set_sizes. wp_step. apply set_size_wp; [by right|done|]. apply set_size_wp; [by left|done|done]. Qed.

Lemma lists_ok_two c e n0 n1 A B l0 l1 : lists_ok c → l0 = splice 0 A (c_l0 c) → l1 = splice 0 B (c_l1 c) → (length A ≤ 66)%nat → (length B ≤ 66)%nat →
  Forall (a_pic s) A → Forall (a_pic s) B → lists_ok (with_err e (set_n 1 n1 (set_n 0 n0 (set_l 1 l1 (set_l 0 l0 c))))).
Proof.
  intros Hc -> -> HlA HlB HA HB. pose proof (row_length c 0 Hc (or_introl eq_refl)) as Hl0. pose proof (row_length c 1 Hc (or_intror eq_refl)) as Hl1. cbn in Hl0, Hl1.
  apply lists_ok_with_err, lists_ok_set_n, lists_ok_set_n. assert (lists_ok (set_l 0 (splice 0 A (get_l 0 c)) c)) as Hc0 by (apply (lists_ok_splice s); [done|by left|cbn; lia|done]).
  apply (lists_ok_splice s (set_l 0 (splice 0 A (get_l 0 c)) c) 1 0 B); [done|by right|cbn; lia|done].
Qed.

Lemma init_b_frame_wp poc c (R : unit → h264_dpb_stru → Prop) E : lists_ok c →
  (∀ P F L L' c', b_frames poc P F L L' → holds_list c 0 (P ++ F ++ L) c' → holds_list c 1 (F ++ P ++ L') c' → R tt (view s c')) →
  wp False (init_lists_b_frame poc) R E (view s c).
Proof.
  intros Hc HR. pose proof (b_frames_bound poc) as Hb. set (P0 := short_refs (frame_of s (before_test poc))) in *. set (F0 := short_refs (frame_of s (after_test poc))) in *.
  set (L0 := long_refs _) in *. assert (first_two 0) as H0 by (by left). assert (first_two 1) as H1 by (by right).
  pose proof (row_length c 0 Hc H0) as Hl0. pose proof (row_length c 1 Hc H1) as Hl1. cbn in Hl0, Hl1. pose proof (short_in _ _ _ _ Hs) as Hsi. pose proof (long_in _ _ _ _ Hs) as Hli.
  pose proof (chosen_frames_all _ _ (before_test poc) Hsi) as HP0. pose proof (chosen_frames_all _ _ (after_test poc) Hsi) as HF0. pose proof (chosen_frames_all _ _ p_is_long_term Hli) as HL0.
  fold P0 in HP0. fold F0 in HF0. fold L0 in HL0. unfold init_lists_b_frame. wp_step. wp_step. wp_step.
  apply (gather_row_wp s 0 fs_ref _ _ _ 0 c _ _ H0 ltac:(done) Hsi (short_frame_picks _ _ _ s Hs _)); [fold (before_test poc); fold P0; cbn; lia|]. intros e. fold (before_test poc). fold P0. wp_step.
  eapply (sort_row_wp s 0 0 P0 (c_l0 c) _ (fun o => - pic_key s p_poc o)); [done|apply (by_pic_compare s desc Z.opp); [apply desc_spec|by apply Forall_forall]|done|lia|unfold zlen; lia|].
  intros P HP HPo. assert (length P = length P0) as EP by (by rewrite HP). wp_step. replace (Z.of_nat 0 + zlen P0) with (Z.of_nat (length P)) by (unfold zlen; lia).
  apply (gather_row_wp s 0 fs_ref _ _ _ (length P) _ _ _ H0 ltac:(done) Hsi (short_frame_picks _ _ _ s Hs _)); [fold (after_test poc); fold F0; cbn; rewrite length_splice by lia; lia|].
  intros e'. fold (after_test poc). fold F0. wp_step. replace (Z.of_nat (length P) + zlen F0 - Z.of_nat (length P)) with (zlen F0) by lia.
  eapply (sort_row_wp s 0 (length P) F0 (splice 0 P (c_l0 c)) _ (pic_key s p_poc));
    [done|apply (by_pic_compare s asc id); [apply asc_spec|by apply Forall_forall]|done|rewrite length_splice; lia|unfold zlen; rewrite length_splice; lia|].
  intros F HF HFo. assert (length F = length F0) as EF by (by rewrite HF). rewrite (splice_after 0 P F) by (cbn; lia).
  replace (Z.of_nat (length P) + zlen F0) with (zlen (P ++ F)) by (rewrite zlen_app; unfold zlen; lia). change (Z.of_nat (length P)) with (zlen P).
  set (c1 := with_err e' (set_l 0 (splice 0 (P ++ F) (c_l0 c)) c)). change (view s (set_l 0 _ _)) with (view s (set_l 1 (c_l1 c) c1)). wp_step.
  apply (swap_parts_wp _ _ (fun l => set_l 1 l c1) (c_l0 c)); [| |lia|lia|].
  { intros l' j o R' Ho HR'. by apply (list_at_wp s 0 j o). }
  { intros l' i o R' Hi HR'. by apply list_put_wp. }
  wp_step. apply set_sizes_wp; [rewrite zlen_app; unfold zlen; lia|]. assert (0 ≤ zlen (P ++ F) ≤ MAX_LIST_SIZE) as Hsz by (rewrite zlen_app; unfold zlen, MAX_LIST_SIZE; lia).
  wp_step. apply check_valid_wp; [done|done|]. wp_step. apply check_valid_wp; [done|done|]. wp_step. change (zlen (P ++ F)) with (Z.of_nat (length (P ++ F))).
  assert (length (P ++ F) + length L0 ≤ 32)%nat as Hpf by (rewrite length_app; lia).
  apply (gather_both_wp s fs_ltref _ _ _ (length (P ++ F)) _ _ _ ltac:(done) Hli (long_frame_picks _ _ _ s Hs));
    [cbn; rewrite length_splice by lia; fold L0; lia|cbn; rewrite length_splice by (rewrite length_app in *; cbn; lia); fold L0; lia|].
  intros e2. fold L0. wp_step. apply list_size_wp; [done|]. change (get_n 0 _) with (Z.of_nat (length (P ++ F))). wp_step.
  replace (Z.of_nat (length (P ++ F)) + zlen L0 - Z.of_nat (length (P ++ F))) with (zlen L0) by lia.
  assert (length (F ++ P) = length (P ++ F)) as Efp by (rewrite !length_app; lia).
  eapply (sort_row_wp s 0 (length (P ++ F)) L0 (splice 0 (P ++ F) (c_l0 c)) _ (pic_key s p_long_term_pic_num));
    [done|apply (by_pic_compare s asc id); [apply asc_spec|by apply Forall_forall]|done|rewrite length_splice; lia|unfold zlen; rewrite length_splice; lia|].
  intros L HL HLo. wp_step.
  eapply (sort_row_wp s 1 (length (P ++ F)) L0 (splice 0 (F ++ P) (c_l1 c)) _ (pic_key s p_long_term_pic_num));
    [done|apply (by_pic_compare s asc id); [apply asc_spec|by apply Forall_forall]|done|rewrite length_splice; lia|unfold zlen; rewrite length_splice; lia|].
  intros L' HL' HLo'. assert (length L = length L0) as EL by (by rewrite HL). assert (length L' = length L0) as EL' by (by rewrite HL'). wp_step.
  replace (Z.of_nat (length (P ++ F)) + zlen L0) with (zlen (P ++ F ++ L)) by (rewrite app_assoc, zlen_app; unfold zlen; lia).
  assert (0 ≤ zlen (P ++ F ++ L) ≤ 32) as Hsz2 by (rewrite app_assoc, zlen_app; unfold zlen; lia).
  apply set_sizes_wp; [lia|]. wp_step. apply check_valid_wp; [done|cbn; unfold MAX_LIST_SIZE; lia|]. apply check_valid_wp; [done|cbn; unfold MAX_LIST_SIZE; lia|].
  assert (Forall (a_pic s) (P ++ F ++ L)) as Hp0 by (rewrite !Forall_app, HP, HF, HL; done). assert (Forall (a_pic s) (F ++ P ++ L')) as Hp1 by (rewrite !Forall_app, HP, HF, HL'; done).
  assert (splice (length (P ++ F)) L (splice 0 (P ++ F) (c_l0 c)) = splice 0 (P ++ F ++ L) (c_l0 c)) as S0.
  { rewrite (app_assoc P F L). apply (splice_after 0). cbn. lia. }
  assert (splice (length (P ++ F)) L' (splice 0 (F ++ P) (c_l1 c)) = splice 0 (F ++ P ++ L') (c_l1 c)) as S1.
  { rewrite (app_assoc F P L'), <- Efp. apply (splice_after 0). cbn. lia. }
  assert (length (F ++ P ++ L') = length (P ++ F ++ L)) as E1 by (rewrite !length_app; lia). unfold zlen in Hsz2.
  pose proof (lists_ok_two c e2 (zlen (P ++ F ++ L)) (zlen (P ++ F ++ L)) _ _ _ _ Hc S0 S1 ltac:(lia) ltac:(lia) Hp0 Hp1) as Hok.
  apply (HR P F L L'); [by split|split; [exact Hok|exact S0|done|lia]|split; [exact Hok|exact S1|cbn; unfold zlen; by rewrite E1|lia]].
Qed.

(** *** Fields *)

(** Short-term frame stores that precede the field, and that follow it. *)
Record b_stores (poc : Z) (P F : list (option Z)) : Prop := {
  bs_before : P ≡ₚ short_refs (store_of s (before_store poc));
  bs_before_order : ordered (fun o => - fs_key s f_poc o) P;
  bs_after : F ≡ₚ short_refs (store_of s (after_store poc));
  bs_after_order : ordered (fs_key s f_poc) F
}.

(** Both arrays are made. *)
Record two_arrays (c0 : lists) (poc : Z) (P F : list (option Z)) (c : lists) : Prop := {
  ta_stores : b_stores poc P F;
  ta_ok : lists_ok c;
  ta_a0 : get_a List0 c = splice 0 (P ++ F) (get_a List0 c0);
  ta_a1 : get_a List1 c = splice 0 (F ++ P) (get_a List1 c0);
  ta_l0 : get_l 0 c = get_l 0 c0;
  ta_l1 : get_l 1 c = get_l 1 c0
}.

(** The frame stores of both parts are short-term references, each once. *)
Lemma b_stores_sub poc P F : b_stores poc P F → P ++ F ⊆+ take (Z.to_nat (ref_frames_in_buffer (mDPB s))) (fs_ref (mDPB s)).
Proof.
  intros [HP _ HF _]. rewrite HP, HF. apply omap_submseteq; [apply store_of_selects|apply store_of_selects|]. intros o. apply store_of_excl. intros f Hf. unfold before_store in Hf. unfold after_store.
  bprop. apply andb_false_intro2. apply Z.ltb_ge. lia.
Qed.

Lemma order_stores_wp poc c (R : Z → h264_dpb_stru → Prop) E : lists_ok c →
  (∀ P F c', two_arrays c poc P F c' → R (zlen (P ++ F)) (view s c')) → wp False (order_stores poc) R E (view s c).
Proof.
  intros Hc HR. pose proof (short_in _ _ _ _ Hs) as Hsi. set (P0 := short_refs (store_of s (before_store poc))). set (F0 := short_refs (store_of s (after_store poc))).
  pose proof (array_length c List0 Hc) as Hl0. pose proof (array_length c List1 Hc) as Hl1. pose proof (length_refs _ _ Hsi) as Hlr.
  pose proof (chosen_stores_all s _ _ (before_store poc) Hsi) as HP0. pose proof (chosen_stores_all s _ _ (after_store poc) Hsi) as HF0. fold P0 in HP0. fold F0 in HF0.
  assert (length P0 + length F0 ≤ 32)%nat as Hb.
  { etrans; [|exact Hlr]. apply omap_disjoint. intros o. apply store_of_excl. intros f Hf. unfold before_store in Hf. unfold after_store. bprop. apply andb_false_intro2. apply Z.ltb_ge. lia. }
  unfold order_stores. wp_step. wp_step. wp_step. apply (gather_array_wp s List0 fs_ref _ _ _ 0 c _ _ ltac:(done) Hsi (short_store_picks _ _ _ s Hs _)); [fold P0; lia|]. intros e. fold P0. wp_step.
  eapply (sort_array_wp s List0 0 P0 (get_a List0 c) _ (fun o => - fs_key s f_poc o)); [apply (by_fs_compare s desc Z.opp); [apply desc_spec|by apply Forall_forall]|done|lia|unfold zlen; lia|].
  intros P HP HPo. assert (length P = length P0) as EP by (by rewrite HP). wp_step. replace (Z.of_nat 0 + zlen P0) with (Z.of_nat (length P)) by (unfold zlen; lia).
  apply (gather_array_wp s List0 fs_ref _ _ _ (length P) _ _ _ ltac:(done) Hsi (short_store_picks _ _ _ s Hs _)); [fold F0; cbn; rewrite length_splice by (cbn in *; lia); cbn in *; lia|].
  intros e'. fold F0. wp_step. replace (Z.of_nat (length P) + zlen F0 - Z.of_nat (length P)) with (zlen F0) by lia.
  eapply (sort_array_wp s List0 (length P) F0 (splice 0 P (get_a List0 c)) _ (fs_key s f_poc));
    [apply (by_fs_compare s asc id); [apply asc_spec|by apply Forall_forall]|done|rewrite length_splice; lia|unfold zlen; rewrite length_splice; lia|].
  intros F HF HFo. assert (length F = length F0) as EF by (by rewrite HF). rewrite (splice_after 0 P F) by (cbn in *; lia).
  replace (Z.of_nat (length P) + zlen F0) with (zlen (P ++ F)) by (rewrite zlen_app; unfold zlen; lia). change (Z.of_nat (length P)) with (zlen P).
  set (c1 := with_err e' (set_a List0 (splice 0 (P ++ F) (get_a List0 c)) c)). change (view s (set_a List0 _ _)) with (view s (set_a List1 (get_a List1 c) c1)). wp_step.
  apply (swap_parts_wp _ _ (fun l => set_a List1 l c1) (get_a List0 c)); [| |lia|lia|].
  { intros l' j o R' Ho HR'. by apply (ptr_wp (fs_array_of List0) j o). }
  { intros l' i o R' Hi HR'. by apply array_put_wp. }
  wp_step. apply (HR P F). assert (length (P ++ F) ≤ 32 ∧ length (F ++ P) ≤ 32)%nat as [Hpf Hfp] by (rewrite !length_app; lia).
  assert (lists_ok c1) as Hc1 by (apply (array_ok c List0 (P ++ F) e' Hc Hpf)).
  split; [by split|exact (array_ok c1 List1 (F ++ P) e' Hc1 Hfp)|done..].
Qed.

Lemma init_b_field_wp st poc c (R : unit → h264_dpb_stru → Prop) E : lists_ok c →
  (∀ P F L c', b_stores poc P F → long_stores s L → holds_list c 0 (field_list s st false (P ++ F) ++ field_list s st true L) c' →
     holds_list c 1 (field_list s st false (F ++ P) ++ field_list s st true L) c' → R tt (view s c')) →
  wp False (init_lists_b_field st poc) R E (view s c).
Proof.
  intros Hc HR. assert (first_two 0) as H0 by (by left). assert (first_two 1) as H1 by (by right). pose proof (long_in _ _ _ _ Hs) as Hli. pose proof (refs_submseteq _ _ (short_in _ _ _ _ Hs)) as Hsub.
  unfold init_lists_b_field. wp_step. apply set_size_wp; [done|lia|]. wp_step. apply set_size_wp; [done|lia|]. wp_step.
  apply order_stores_wp; [by repeat apply lists_ok_set_n|].
  intros P F c1 [Hst Hc1 Ha0 Ha1 El0 El1]. pose proof (b_stores_sub poc P F Hst) as Hpf. rewrite Hsub in Hpf.
  assert (F ++ P ⊆+ all_stores) as Hfp by (by rewrite Permutation_app_comm). pose proof (submseteq_length _ _ Hpf) as Hlen. rewrite length_all_stores in Hlen. unfold DPB_SIZE_MAX in Hlen.
  assert (length (F ++ P) = length (P ++ F)) as Elen by (rewrite !length_app; lia).
  assert (∀ L, L ⊆+ all_stores → Forall (a_store s) L) as Hall.
  { intros L HL. apply Forall_forall. intros o Ho. pose proof (elem_of_submseteq _ _ _ Ho HL) as Ho'. apply list_elem_of_fmap in Ho' as (k & -> & Hk). apply elem_of_seqZ in Hk.
    destruct (ok_store _ _ _ _ k Hs) as (f & Hf & _); [lia|]. exists k, f. split; [done|]. split; [lia|done]. }
  wp_step. apply set_size_wp; [done|lia|]. wp_step. apply set_size_wp; [done|lia|].
  set (A := field_list s st false (P ++ F)). set (B := field_list s st false (F ++ P)).
  assert (∀ L, L ⊆+ all_stores → (length A + length (field_list s st true L) ≤ 64 ∧ length B + length (field_list s st true L) ≤ 64)%nat) as Hroom
    by (intros L HL; split; by apply fields_bound).
  pose proof (Hroom _ (refs_submseteq _ _ Hli)) as [HA HB]. assert (Forall (a_pic s) A ∧ Forall (a_pic s) B) as [PA PB] by (split; apply (field_list_pics fx m ex s Hs); by apply Hall).
  change (view s (set_n 1 0 (set_n 0 0 c1))) with (view s (set_n 0 0 (set_n 1 0 c1))). rewrite grown_start. wp_step.
  apply (gen_pic_list_wp fx m ex s Hs st List0 false 0 (set_n 1 0 c1) (P ++ F) (get_a List0 c)); [done|apply row_length; auto|by apply Hall|done|rewrite array_length; [lia|done]|cbn; fold A; lia|].
  fold A. cbn [app]. change (view s (grown (set_n 1 0 c1) 0 A)) with (view s (set_n 1 0 (grown c1 0 A))). rewrite grown_start. wp_step.
  assert (lists_ok (grown c1 0 A)) as Hc2 by (apply (grown_ok s); [done|done|lia|done]). replace (zlen (P ++ F)) with (zlen (F ++ P)) by (unfold zlen; lia).
  apply (gen_pic_list_wp fx m ex s Hs st List1 false 1 (grown c1 0 A) (F ++ P) (get_a List1 c)); [done|by apply row_length|by apply Hall|done|rewrite array_length; [lia|done]|cbn; fold B; lia|].
  fold B. cbn [app]. wp_step. apply (sort_long_stores_wp fx m ex s Hs); [apply (grown_ok s); [done|done|lia|done]|]. intros L e HL. pose proof (array_length c1 ListLt Hc1) as Hal.
  pose proof (refs_submseteq _ _ Hli) as HLs. rewrite <- (ls_perm _ _ HL) in HLs. destruct (Hroom L HLs) as [HA' HB']. set (fl := field_list s st true L) in *.
  assert (Forall (a_pic s) fl) as Pfl by (apply (field_list_pics fx m ex s Hs); by apply Hall). pose proof (submseteq_length _ _ HLs) as HlL. rewrite length_all_stores in HlL. unfold DPB_SIZE_MAX in HlL.
  set (cl x l := set_a ListLt (splice 0 L (get_a ListLt c1)) (with_err e (grown c1 x l))).
  assert (∀ x l, first_two x → (length l ≤ 64)%nat → Forall (a_pic s) l → lists_ok (cl x l)) as Hcl.
  { intros x l Hx Hll Hp. assert (get_a ListLt c1 = get_a ListLt (grown c1 x l)) as El by (by destruct Hx as [->| ->]). unfold cl. rewrite El. apply array_ok; [by apply (grown_ok s)|lia]. }
  change (view s (set_a ListLt _ _)) with (view s (grown (cl 1 B) 0 A)). wp_step.
  apply (gen_pic_list_wp fx m ex s Hs st ListLt true 0 (cl 1 B) L (get_a ListLt c1)); [done|apply row_length; [apply Hcl; [done|lia|done]|done]|by apply Hall|done|lia|fold fl; lia|].
  fold fl. change (view s (grown (cl 1 B) 0 (A ++ fl))) with (view s (grown (cl 0 (A ++ fl)) 1 B)).
  assert (lists_ok (cl 0 (A ++ fl))) as Hc0 by (apply Hcl; [done|rewrite length_app; lia|by apply Forall_app]).
  apply (gen_pic_list_wp fx m ex s Hs st ListLt true 1 (cl 0 (A ++ fl)) L (get_a ListLt c1)); [done|by apply row_length|by apply Hall|done|lia|fold fl; lia|].
  fold fl. assert (lists_ok (grown (cl 0 (A ++ fl)) 1 (B ++ fl))) as Hok by (apply (grown_ok s); [done|done|rewrite length_app; lia|by apply Forall_app]).
  apply (HR P F L); [done|done|split; [done|exact (f_equal (splice 0 (A ++ fl)) El0)|done|rewrite length_app; fold A fl; lia]|split; [done|exact (f_equal (splice 0 (B ++ fl)) El1)|done|rewrite length_app; fold B fl; lia]].
Qed.

(** *** B slices *)

(** Two identical lists of more than one element are made different. *)
Definition different (a b : list (option Z)) : list (option Z) :=
  if bool_decide (a = b) then match b with x :: y :: b => y :: x :: b | _ => b end else b.

Lemma aget_splice {A} (Lst l : list A) i : (length Lst ≤ length l)%nat → (i < length Lst)%nat → aget (splice 0 Lst l) (Z.of_nat i) = Lst !! i.
Proof. intros Hl Hi. rewrite aget_nat, lookup_splice by done. rewrite decide_False by lia. rewrite decide_True by done. by rewrite Nat.sub_0_r. Qed.

Lemma lists_differ_wp c A B l0 l1 n (R : bool → h264_dpb_stru → Prop) E : get_l 0 c = splice 0 A l0 → get_l 1 c = splice 0 B l1 → (length A ≤ length l0)%nat → length A = length B →
  (length B ≤ length l1)%nat → ∀ j, (j + n = length A)%nat → R (negb (bool_decide (drop j A = drop j B))) (view s c) → wp False (lists_differ n (Z.of_nat j)) R E (view s c).
Proof.
  intros E0 E1 HA HAB HB. induction n as [|n IH]; intros j Hj HR; cbn [lists_differ].
  - rewrite !drop_ge in HR by lia. by wp_step.
  - destruct (lookup_lt_is_Some_2 A j) as [a Ha]; [lia|]. destruct (lookup_lt_is_Some_2 B j) as [b Hb]; [lia|].
    wp_step. apply (list_at_wp s 0 _ a); [by left|rewrite E0, aget_splice by lia; done|]. wp_step. apply (list_at_wp s 1 _ b); [by right|rewrite E1, aget_splice by lia; done|].
    rewrite (drop_S _ _ _ Ha), (drop_S _ _ _ Hb) in HR. unfold is_eq. destruct (decide (a = b)) as [->|Hne].
    + rewrite bool_decide_eq_true_2 by done. replace (Z.of_nat j + 1) with (Z.of_nat (S j)) by lia. apply IH; [lia|].
      rewrite (bool_decide_ext _ (b :: drop (S j) A = b :: drop (S j) B)); [done|]. split; [congruence|by intros [= ->]].
    + rewrite bool_decide_eq_false_2 by done. wp_step. rewrite bool_decide_eq_false_2 in HR by congruence. done.
Qed.

Lemma make_different_wp c A B l0 l1 (R : unit → h264_dpb_stru → Prop) E : get_l 0 c = splice 0 A l0 → get_l 1 c = splice 0 B l1 → get_n 0 c = zlen A → get_n 1 c = zlen B →
  (length A ≤ length l0)%nat → (length B ≤ length l1)%nat → R tt (view s (set_l 1 (splice 0 (different A B) l1) c)) → wp False make_different R E (view s c).
Proof.
  intros E0 E1 N0 N1 HA HB HR. assert (first_two 0) as H0 by (by left). assert (first_two 1) as H1 by (by right). unfold make_different.
  assert (different A B = B → R tt (view s c)) as Hsame.
  { intros Eb. rewrite Eb, <- E1 in HR. replace (set_l 1 (get_l 1 c) c) with c in HR; [done|]. by destruct c. }
  wp_step. apply list_size_wp; [done|]. wp_step. apply list_size_wp; [done|]. rewrite N0, N1. wp_step; bprop.
  2: { apply Hsame. unfold different. case_bool_decide as Hab; [|done]. subst B. rewrite Z.eqb_refl in *. cbn [andb] in *. bprop. unfold zlen in *. destruct A as [|a [|b A]]; cbn in *; [done|done|lia]. }
  unfold zlen in *. wp_step. rewrite Nat2Z.id. apply (lists_differ_wp c A B l0 l1 _ _ _ E0 E1 HA ltac:(lia) HB 0%nat); [done|]. rewrite !drop_0. rewrite negb_involutive.
  unfold different in HR, Hsame. case_bool_decide as Hab; [|by apply Hsame]. subst B. destruct A as [|a [|b A]]; [cbn in *; lia|cbn in *; lia|].
  assert (∀ i, (i < 2)%nat → aget (splice 0 (a :: b :: A) l1) (Z.of_nat i) = (a :: b :: A) !! i) as Hat by (intros i Hi; apply aget_splice; [exact HB|cbn; lia]).
  wp_step; [|done]. wp_step. apply (list_at_wp s 1 0 a); [done|rewrite E1; apply (Hat 0%nat); lia|]. wp_step. apply (list_at_wp s 1 1 b); [done|rewrite E1; apply (Hat 1%nat); lia|].
  pose proof HB as HB'. cbn in HB'. assert (zlen (get_l 1 c) = zlen l1) as Ez by (rewrite E1; unfold zlen; rewrite length_splice; [done|exact HB]).
  wp_step. apply list_put_wp; [done|rewrite Ez; unfold zlen; lia|]. apply list_put_wp; [done|rewrite get_set_l, zlen_insert, Ez by done; unfold zlen; lia|].
  rewrite get_set_l, set_set_l, E1 by done. replace (<[Z.to_nat 1:=a]> (<[Z.to_nat 0:=b]> (splice 0 (a :: b :: A) l1))) with (splice 0 (b :: a :: A) l1); [done|].
  clear - HB. destruct l1 as [|x [|y l1]]; cbn in HB; [lia|lia|]. done.
Qed.

Definition b_lists (sl : Slice) (A B : list (option Z)) : Prop :=
  if is_eq (sl_structure sl) FRAME then ∃ P F L L', b_frames (framepoc sl) P F L L' ∧ A = P ++ F ++ L ∧ B = different A (F ++ P ++ L')
  else ∃ P F L, b_stores (ThisPOC sl) P F ∧ long_stores s L ∧ let fields L := field_list s (sl_structure sl) false L in
    A = fields (P ++ F) ++ field_list s (sl_structure sl) true L ∧ B = different A (fields (F ++ P) ++ field_list s (sl_structure sl) true L).

Lemma length_different A B : length (different A B) = length B.
Proof. unfold different. case_bool_decide; [|done]. by destruct B as [|a [|b B]]. Qed.

Lemma different_lists_ok c0 c A B : holds_list c0 0 A c → holds_list c0 1 B c → lists_ok c0 → lists_ok (set_l 1 (splice 0 (different A B) (get_l 1 c0)) c).
Proof.
  intros [Hok Hl _ _] [_ Hl1 _ Hn] Hc0. assert (first_two 1) as H1 by (by right). pose proof (row_length c0 1 Hc0 H1) as Hr. apply lists_ok_set_l; [done|unfold zlen; rewrite length_splice; rewrite ?length_different; [by apply lo_len|lia]|].
  pose proof (lo_ptrs c 1 Hok H1) as Hp. rewrite Hl1 in Hp. unfold different. case_bool_decide; [|done]. destruct B as [|a [|b B]]; [done|done|].
  unfold splice in *. cbn in *. inversion Hp as [|? ? Ha Hp1]. inversion Hp1 as [|? ? Hb Hp2]. constructor; [exact Hb|]. constructor; [exact Ha|exact Hp2].
Qed.

Lemma init_b_slice_wp c (R : unit → h264_dpb_stru → Prop) E : lists_ok c → active_ok (mSlice s) → ptr_ok (no_reference_picture (mVideo s)) →
  (∀ A B c', b_lists (mSlice s) A B → lists_ok c' → final_list s 0 A (num_ref_idx_active (mSlice s)).1 c' → final_list s 1 B (num_ref_idx_active (mSlice s)).2 c' → R tt (view s c')) →
  wp False init_lists_b_slice R E (view s c).
Proof.
  intros Hc Hact Hno HR. assert (first_two 0) as H0 by (by left). assert (first_two 1) as H1 by (by right). unfold init_lists_b_slice. wp_step. wp_step. wp_step.
  apply (wp_mono _ (fun _ s' => ∃ A B c', b_lists (mSlice s) A (different A B) ∧ holds_list c 0 A c' ∧ holds_list c 1 B c' ∧ s' = view s c') _ E); [| |done].
  - unfold b_lists. change (sl_structure (mSlice (view s c))) with (sl_structure (mSlice s)). destruct (sl_structure (mSlice s)).
    + apply init_b_frame_wp; [done|]. intros P F L L' c' Hb HA HB. eexists _, _, c'. split; [by exists P, F, L, L'|done].
    + apply init_b_field_wp; [done|]. intros P F L c' Hb HL HA HB. eexists _, _, c'. split; [by exists P, F, L|done].
    + apply init_b_field_wp; [done|]. intros P F L c' Hb HL HA HB. eexists _, _, c'. split; [by exists P, F, L|done].
  - intros [] s' (A & B & c1 & HL & HA & HB & ->). pose proof (row_length c 0 Hc H0) as Hr0. pose proof (row_length c 1 Hc H1) as Hr1. pose proof HA as [Hok Hl0 Hn0 Hb0]. pose proof HB as [_ Hl1 Hn1 Hb1]. wp_step.
    apply (make_different_wp c1 A B (get_l 0 c) (get_l 1 c)); [done|done|done|done|lia|lia|]. pose proof (different_lists_ok c c1 A B HA HB Hc) as Hok2.
    set (c2 := set_l 1 _ c1) in *. apply finish_lists_wp; [done| | |done|done|].
    + change (get_n 0 c2) with (get_n 0 c1). rewrite Hn0. unfold zlen. lia.
    + change (get_n 1 c2) with (get_n 1 c1). rewrite Hn1. unfold zlen. lia.
    + intros c' Hf. apply (HR A (different A B) c'); [done|apply Hf| |].
      * by apply (finished_list s c c2 c' 0 A Hf H0 Hc).
      * apply (finished_list s c c2 c' 1 (different A B) Hf H1 Hc); [by rewrite length_different|done| |done]. change (get_n 1 c2) with (get_n 1 c1). rewrite Hn1. unfold zlen. by rewrite length_different.
Qed.
End ListsB.
