(* ===== verification/H264Reorder.v ===== *)
(** The modification of the reference picture lists and the lists of macroblock
    adaptive frames (src/drivers/frame_provider/decoder/h264_multi/h264_dpb.c,
    H264Lists) are safe in every state of the buffer; what a command does to a
    list, against 8.2.4.3. *)

From stdpp Require Import base list numbers sorting gmap.
From Stdlib Require Import ZArith Lia Bool.
From S2P Require Import Prelude H264Types H264Sort H264Pool H264Mark H264Inv H264MarkOk H264PoolOk H264Fill H264DisplayOk H264Safe H264Lists H264ListsOk.

#[local] Open Scope Z_scope.

(** One more element in front. *)
Lemma splice_cons {A} i (v : A) sel l : (i + S (length sel) ≤ length l)%nat → <[i := v]> (splice (S i) sel l) = splice i (v :: sel) l.
Proof.
  intros Hl. apply list_eq. intros j. rewrite (lookup_splice i) by (cbn; lia). destruct (decide (i = j)) as [->|Hne].
  - rewrite list_lookup_insert_eq by (rewrite length_splice; lia). rewrite decide_False by lia. rewrite decide_True by (cbn; lia). by rewrite Nat.sub_diag.
  - rewrite list_lookup_insert_ne by done. rewrite lookup_splice by lia. cbn. repeat case_decide; try lia; try done. by replace (j - i)%nat with (S (j - S i)) by lia.
Qed.

Section Reorder.
Context (fx : fixed) (m : bool) (ex : list Z) (s : h264_dpb_stru) (Hs : ok fx m ex s).
Implicit Types (c : lists) (E : Z → h264_dpb_stru → Prop).

(** *** Moving a picture *)

Definition keeps (same : StorablePicture → bool) (o : option Z) : bool :=
  match p ← o; pic s p with Some x => negb (same x) | None => false end.

(** The [n] elements from place [r] on move up by one for [o], and those that
    are the same picture, or none, are left out. *)
Definition moved (n r : nat) (o : option Z) (same : StorablePicture → bool) (l : list (option Z)) : list (option Z) :=
  let sub := take (n - r) (drop r l) in splice (S r) (filter (fun o => keeps same o = true) sub) (splice r (o :: sub) l).

Lemma shift_up_wp x n r l c (R : unit → h264_dpb_stru → Prop) E : first_two x → get_l x c = l → (n < length l)%nat →
  R tt (view s (set_l x (splice (S (n - (n - r))) (take (n - r) (drop (n - (n - r)) l)) l) c)) →
  wp False (for_range 0 (Z.of_nat n - Z.of_nat r) (fun t => v ← list_at x (Z.of_nat n - t - 1); list_put x (Z.of_nat n - t) v)) R E (view s c).
Proof.
  intros Hx El Hn HR. set (row t := splice (S (n - t)) (take t (drop (n - t) l)) l).
  apply (wp_for_range _ _ _ (fun t s' => s' = view s (set_l x (row (Z.to_nat t)) c))).
  - unfold row. change (take (Z.to_nat 0) ?l) with (@nil (option Z)). rewrite splice_nil, <- El. destruct Hx as [->| ->]; by destruct c.
  - intros t s' Ht ->. set (k := Z.to_nat t). assert (k < n)%nat as Hk by lia. destruct (lookup_lt_is_Some_2 l (n - k - 1)) as [v Hv]; [lia|].
    assert (length (take k (drop (n - k) l)) = k) as Ek by (rewrite length_take, length_drop; lia).
    wp_step. apply (list_at_wp s x _ v); [done|rewrite get_set_l by done; replace (Z.of_nat n - t - 1) with (Z.of_nat (n - k - 1)) by lia|].
    { rewrite aget_nat. unfold row. rewrite lookup_splice by (rewrite Ek; lia). by rewrite decide_True by lia. }
    assert (zlen (row k) = zlen l) as Ez by (unfold row, zlen; rewrite length_splice; [done|rewrite Ek; lia]).
    apply list_put_wp; [done|rewrite get_set_l by done; unfold zlen in *; lia|]. rewrite get_set_l, set_set_l by done. do 2 f_equal.
    replace (Z.to_nat (Z.of_nat n - t)) with (n - k)%nat by lia. unfold row. rewrite splice_cons by (rewrite Ek; lia).
    replace (Z.to_nat (t + 1)) with (S k) by lia. replace (S (n - S k)) with (n - k)%nat by lia. f_equal. replace (n - S k)%nat with (n - k - 1)%nat by lia.
    rewrite (drop_S _ _ _ Hv). cbn. do 3 f_equal. lia.
  - intros s' ->. replace (Z.to_nat (Z.max 0 (Z.of_nat n - Z.of_nat r))) with (n - r)%nat by lia. exact HR.
Qed.

Lemma ptr_pic p : 0 ≤ p ≤ MAX_PIC_BUF_NUM → ∃ x, pic s p = Some x.
Proof. intros Hp. apply aget_Some. rewrite (iv_pics (proj1 Hs)). lia. Qed.

Lemma keeps_wp same o c (R : bool → h264_dpb_stru → Prop) E : ptr_ok o → R (keeps same o) (view s c) → wp False (test_pic o (fun p => negb (same p))) R E (view s c).
Proof.
  intros Ho HR. unfold keeps in HR. destruct o as [p|]; cbn [mbind option_bind test_pic] in *; [|by wp_step]. destruct (ptr_pic p) as [x Hx]; [by apply Ho|].
  rewrite Hx in HR. wp_step. apply (pic_at_wp p x); [exact Hx|]. by wp_step.
Qed.

Lemma compact_wp x n r same sub l1 c (R : Z → h264_dpb_stru → Prop) E : first_two x → Forall ptr_ok l1 → (n < length l1)%nat → length sub = (n - r)%nat →
  (∀ i, (i < length sub)%nat → l1 !! (S r + i)%nat = sub !! i) →
  (∀ k, R k (view s (set_l x (splice (S r) (filter (fun o => keeps same o = true) sub) l1) c))) →
  wp False (fold_range (Z.of_nat (S r)) (Z.of_nat n + 1) (fun j k => v ← list_at x j; b ← test_pic v (fun p => negb (same p));
    if (b : bool) then list_put x k v;; mret (k + 1) else mret k) (Z.of_nat (S r))) R E (view s (set_l x l1 c)).
Proof.
  intros Hx Hp Hn Hsub Hl1 HR. set (kept i := filter (fun o => keeps same o = true) (take i sub)).
  assert (∀ i, length (kept i) ≤ i)%nat as Hk. { intros i. unfold kept. etrans; [apply length_filter|]. rewrite length_take. lia. }
  apply (wp_fold_range _ _ _ (fun j n' s' => let i := Z.to_nat (j - Z.of_nat (S r)) in n' = Z.of_nat (S r + length (kept i)) ∧ s' = view s (set_l x (splice (S r) (kept i) l1) c))).
  - cbv zeta. rewrite Z.sub_diag. change (kept (Z.to_nat 0)) with (@nil (option Z)). rewrite splice_nil. split; [cbn; lia|done].
  - intros j n' s' Hj [-> ->]. set (i := Z.to_nat (j - Z.of_nat (S r))) in *. assert (i < length sub)%nat as Hi by lia. destruct (lookup_lt_is_Some_2 sub i Hi) as [v Hv].
    pose proof (Hl1 i Hi) as Hat. rewrite Hv in Hat. specialize (Hk i). wp_step. apply (list_at_wp s x j v); [done| |].
    { rewrite get_set_l by done. replace j with (Z.of_nat (S r + i)) by lia. rewrite aget_nat, lookup_splice by lia. rewrite decide_False by lia. case_decide; [|exact Hat].
      replace (S r + i - S r)%nat with i by lia. lia. }
    assert (Z.to_nat (j + 1 - Z.of_nat (S r)) = S i) as Ei by lia. rewrite Ei. cbv zeta. assert (kept (S i) = kept i ++ (if keeps same v then [v] else [])) as Hnext.
    { unfold kept. rewrite (take_S_r _ _ _ Hv), filter_app. f_equal. rewrite filter_cons. by destruct (keeps same v). }
    wp_step. apply keeps_wp; [by eapply (Forall_lookup_1 _ _ _ _ Hp Hat)|]. rewrite Hnext. destruct (keeps same v); wp_step.
    + apply list_put_wp; [done|rewrite get_set_l by done; unfold zlen; rewrite length_splice by lia; lia|]. wp_step. rewrite get_set_l, set_set_l, Nat2Z.id, splice_snoc, length_app by (done || lia).
      split; [cbn; lia|done].
    + rewrite app_nil_r. done.
  - intros n' s' [-> ->]. replace (kept _) with (filter (fun o => keeps same o = true) sub); [apply HR|]. unfold kept. rewrite take_ge; [done|lia].
Qed.

Lemma moved_ptrs n r o same l : Forall ptr_ok l → ptr_ok o → Forall ptr_ok (moved n r o same l).
Proof.
  intros Hl Ho. assert (∀ a, a ∈ take (n - r) (drop r l) → ptr_ok a) as Hsub.
  { intros a Ha. apply elem_of_take in Ha as (i & Hi & _). rewrite lookup_drop in Hi. by eapply (Forall_lookup_1 _ _ _ _ Hl Hi). }
  apply Forall_forall. intros a Ha. unfold moved in Ha. apply elem_of_splice in Ha as [Ha|Ha]; [apply list_elem_of_filter in Ha as [_ Ha]; by apply Hsub|].
  apply elem_of_splice in Ha as [Ha|Ha]; [|by rewrite Forall_forall in Hl; apply Hl]. apply elem_of_cons in Ha as [->|Ha]; [done|by apply Hsub].
Qed.

Lemma length_moved n r o same l : (n < length l)%nat → (r < length l)%nat → length (moved n r o same l) = length l.
Proof.
  intros Hn Hr. unfold moved. assert (length (take (n - r) (drop r l)) ≤ n - r)%nat as H1 by (rewrite length_take; lia).
  pose proof (length_filter (fun o => keeps same o = true) (take (n - r) (drop r l))) as H2.
  assert (r + S (length (take (n - r) (drop r l))) ≤ length l)%nat as H3 by lia.
  rewrite !length_splice; [done|exact H3|rewrite length_splice by exact H3; lia].
Qed.

Lemma move_to_front_wp x n r o same c (R : Z → h264_dpb_stru → Prop) E : first_two x → lists_ok c → (n ≤ 32)%nat → (r ≤ 33)%nat → ptr_ok o →
  R (Z.of_nat (S r)) (view s (set_l x (moved n r o same (get_l x c)) c)) → wp False (move_to_front x (Z.of_nat n - 1) o same (Z.of_nat r)) R E (view s c).
Proof.
  intros Hx Hc Hn Hr Ho HR. pose proof (row_length c x Hc Hx) as Hl. set (l := get_l x c) in *. set (sub := take (n - r) (drop r l)).
  assert (length sub = (n - r)%nat) as Hsub by (unfold sub; rewrite length_take, length_drop; lia).
  unfold move_to_front. replace (Z.of_nat n - 1 + 1) with (Z.of_nat n) by lia. wp_step. apply (shift_up_wp x n r l); [done|done|lia|].
  set (l1 := splice (S (n - (n - r))) (take (n - r) (drop (n - (n - r)) l)) l).
  assert (length l1 = length l) as E1 by (unfold l1; rewrite length_splice; [done|rewrite length_take, length_drop; lia]).
  assert (<[r := o]> l1 = splice r (o :: sub) l) as Eput.
  { unfold l1. destruct (decide (r ≤ n)%nat).
    - replace (n - (n - r))%nat with r by lia. apply splice_cons. fold sub. lia.
    - unfold sub. replace (n - r)%nat with 0%nat by lia. rewrite !firstn_O, splice_nil. rewrite <- (splice_nil r l) at 1. rewrite <- (Nat.add_0_r r) at 1. by apply (splice_snoc r [] o l); cbn; lia. }
  wp_step. apply list_put_wp; [done|rewrite get_set_l by done; unfold zlen; rewrite E1; lia|]. rewrite get_set_l, set_set_l, Nat2Z.id, Eput by done. wp_step.
  replace (Z.of_nat r + 1) with (Z.of_nat (S r)) by lia. replace (Z.of_nat n - 1 + 2) with (Z.of_nat n + 1) by lia.
  assert (length (splice r (o :: sub) l) = length l) as E2 by (apply length_splice; cbn; lia).
  apply (compact_wp x n r same sub); [done| |lia|done| |].
  - apply Forall_forall. intros a [Ha|Ha]%elem_of_splice; pose proof (lo_ptrs c x Hc Hx) as Hp; rewrite Forall_forall in Hp; [|by apply Hp].
    apply elem_of_cons in Ha as [->|Ha]; [done|]. unfold sub in Ha. apply elem_of_take in Ha as (i & Hi & _). rewrite lookup_drop in Hi. apply Hp. by eapply list_elem_of_lookup_2.
  - intros i Hi. rewrite lookup_splice by (cbn; lia). rewrite decide_False by lia. rewrite decide_True by (cbn; lia). by replace (S r + i - r)%nat with (S i) by lia.
  - intros k. wp_step. exact HR.
Qed.

(** *** Finding a picture *)

(** A test that changes at most the error flag, and finds pictures. *)
Definition finds (test : option Z → D search) : Prop :=
  ∀ k c (R : search → h264_dpb_stru → Prop) E, 0 ≤ k < DPB_SIZE_MAX →
    (∀ r e, (∀ o, r = Found o → ptr_ok o) → R r (view s (with_err e c))) → wp False (test (Some k)) R E (view s c).

Lemma find_pic_wp arr test none c0 : (∀ c, arr (mDPB (view s c)) = arr (mDPB s)) → finds test → ptr_ok none → ∀ n i e0 (R : option Z → h264_dpb_stru → Prop) E,
  0 ≤ i → refs_in (arr (mDPB s)) (i + Z.of_nat n) → (∀ o e, ptr_ok o → R o (view s (with_err e c0))) → wp False (find_pic n arr test none i) R E (view s (with_err e0 c0)).
Proof.
  intros Ha Ht Hno. induction n as [|n IH]; intros i e0 R E Hi Hr HR; cbn [find_pic]; [wp_step; by apply HR|]. pose proof Hr as (Hl & Hn & Hk & Hnd).
  destruct (Hk i) as (k & Hik & Hkr); [lia|]. wp_step. apply (ptr_wp arr i (Some k)); [by rewrite Ha|]. wp_step. apply Ht; [done|]. intros r e Hf. destruct r as [o|].
  - wp_step. apply HR. by apply Hf.
  - apply IH; [lia| |done]. by replace (i + 1 + Z.of_nat n) with (i + Z.of_nat (S n)) by lia.
Qed.

Lemma own_ptr k f p : 0 ≤ k < DPB_SIZE_MAX → store s k = Some f → p ∈ own_store f → ptr_ok (Some p) ∧ ∃ x, pic s p = Some x.
Proof.
  intros Hk Hf Hp. destruct (store_pics fx m ex s (proj1 Hs) s k f p (ok_start _ _ _ _ Hs) Hk Hf Hp) as (x & Hr & Hx). split; [|by exists x]. intros q [= <-]. lia.
Qed.

Lemma short_field_finds num pa k c rest (R : search → h264_dpb_stru → Prop) E : a_parity pa → 0 ≤ k < DPB_SIZE_MAX →
  (∀ r e, (∀ o, r = Found o → ptr_ok o) → R r (view s (with_err e c))) → wp False rest R E (view s c) → wp False (short_field (Some k) num pa rest) R E (view s c).
Proof.
  intros Hpa Hk HR Hrest. destruct (ok_store _ _ _ _ k Hs Hk) as (f & Hf & _). unfold short_field. wp_step. apply (fs_at_wp k f); [exact Hf|]. wp_step; [|done].
  destruct (pa_field pa f) as [p|] eqn:Ep; [|wp_step; apply error_flag_wp; wp_step; by apply (HR Further true)].
  destruct (own_ptr k f p Hk Hf) as (Hp & y & Hy); [unfold own_store; destruct Hpa as [->| ->]; cbn in Ep; rewrite Ep; set_solver|].
  wp_step. apply (pic_at_wp p y); [exact Hy|]. wp_step; [|done]. wp_step. apply (HR (Found (Some p)) (c_err c)). by intros o [= <-].
Qed.

Lemma short_with_num_finds st num : finds (short_with_num st num).
Proof.
  intros k c R E Hk HR. destruct (ok_store _ _ _ _ k Hs Hk) as (f & Hf & _). unfold short_with_num.
  assert (wp False (short_field (Some k) num top_parity (short_field (Some k) num bottom_parity (mret Further))) R E (view s c)) as Hfields.
  { apply short_field_finds; [by left|done|done|]. apply short_field_finds; [by right|done|done|]. wp_step. by apply (HR Further (c_err c)). }
  destruct st; [|done|done]. wp_step. apply (fs_at_wp k f); [exact Hf|]. wp_step; [|wp_step; by apply (HR Further (c_err c))].
  destruct (f_frame f) as [p|] eqn:Ep; [|wp_step; apply error_flag_wp; wp_step; by apply (HR Further true)].
  destruct (own_ptr k f p Hk Hf) as (Hp & y & Hy); [unfold own_store; rewrite Ep; set_solver|]. wp_step. apply (pic_at_wp p y); [exact Hy|]. wp_step.
  apply (HR _ (c_err c)). intros o. by destruct (_ && _); [intros [= <-]|].
Qed.

Lemma test_own_wp (b : bool) k f o t c (R : bool → h264_dpb_stru → Prop) E : 0 ≤ k < DPB_SIZE_MAX → store s k = Some f → (∀ p, o = Some p → p ∈ own_store f) →
  (∀ b, (b = true → ptr_ok o) → R b (view s c)) → wp False (if b then test_pic o t else mret false) R E (view s c).
Proof.
  intros Hk Hf Ho HR. destruct b; [|by apply (HR false)]. destruct o as [p|]; [|by apply (HR false)]. destruct (own_ptr k f p Hk Hf (Ho p eq_refl)) as (Hp & y & Hy).
  unfold test_pic. wp_step. apply (pic_at_wp p y); [exact Hy|]. wp_step. by apply HR.
Qed.

Lemma long_with_num_finds st num : finds (long_with_num st num).
Proof.
  intros k c R E Hk HR. destruct (ok_store _ _ _ _ k Hs Hk) as (f & Hf & _). unfold long_with_num. wp_step. apply (fs_at_wp k f); [exact Hf|].
  assert (wp False (long_field f num top_parity (long_field f num bottom_parity (mret Further))) R E (view s c)) as Hfields.
  { unfold long_field. wp_step. apply (test_own_wp _ k f); [done|done|intros p Ep; cbn in Ep; unfold own_store; rewrite Ep; set_solver|]. intros b1 H1.
    wp_step; [wp_step; apply (HR _ (c_err c)); intros o [= <-]; auto|]. wp_step.
    apply (test_own_wp _ k f); [done|done|intros p Ep; cbn in Ep; unfold own_store; rewrite Ep; set_solver|]. intros b2 H2'.
    wp_step; wp_step; [apply (HR _ (c_err c)); intros o [= <-]; auto|by apply (HR _ (c_err c))]. }
  destruct st; [|done|done]. wp_step. apply (test_own_wp _ k f); [done|done|intros p Ep; unfold own_store; rewrite Ep; set_solver|]. intros b Hb. wp_step.
  apply (HR _ (c_err c)). intros o. destruct b; [intros [= <-]; auto|done].
Qed.

Lemma eta_err c : c = with_err (c_err c) c.
Proof. by destruct c. Qed.

Hypothesis Hno : ptr_ok (no_reference_picture (mVideo s)).

Lemma get_short_term_pic_wp num c (R : option Z → h264_dpb_stru → Prop) E : (∀ o e, ptr_ok o → R o (view s (with_err e c))) → wp False (get_short_term_pic num) R E (view s c).
Proof.
  intros HR. unfold get_short_term_pic. wp_step. wp_step. rewrite (eta_err c). pose proof (short_in _ _ _ _ Hs) as Hi. destruct Hi as (_ & Hn & _).
  apply (find_pic_wp fs_ref); [done|apply short_with_num_finds|done|lia| |done].
  assert (0 + Z.of_nat (Z.to_nat (ref_frames_in_buffer (mDPB s))) = ref_frames_in_buffer (mDPB s)) as En by lia.
  exact (eq_ind_r (refs_in (fs_ref (mDPB s))) (short_in _ _ _ _ Hs) En).
Qed.

Lemma get_long_term_pic_wp num c (R : option Z → h264_dpb_stru → Prop) E : (∀ o e, ptr_ok o → R o (view s (with_err e c))) → wp False (get_long_term_pic num) R E (view s c).
Proof.
  intros HR. unfold get_long_term_pic. wp_step. wp_step. rewrite (eta_err c). pose proof (long_in _ _ _ _ Hs) as Hi. destruct Hi as (_ & Hn & _).
  apply (find_pic_wp fs_ltref); [done|apply long_with_num_finds|done|lia| |done].
  assert (0 + Z.of_nat (Z.to_nat (ltref_frames_in_buffer (mDPB s))) = ltref_frames_in_buffer (mDPB s)) as En by lia.
  exact (eq_ind_r (refs_in (fs_ltref (mDPB s))) (long_in _ _ _ _ Hs) En).
Qed.

(** *** Commands *)

(** The lists are in order, and their sizes as before. *)
Definition same_sizes (c c' : lists) : Prop := lists_ok c' ∧ get_n 0 c' = get_n 0 c ∧ get_n 1 c' = get_n 1 c.

Lemma moved_same_sizes c e x n r o same : first_two x → lists_ok c → ptr_ok o → (n ≤ 32)%nat → (r ≤ 33)%nat →
  same_sizes c (set_l x (moved n r o same (get_l x (with_err e c))) (with_err e c)).
Proof.
  intros Hx Hc Ho Hn Hr. assert (lists_ok (with_err e c)) as Hce by (by apply lists_ok_with_err). pose proof (row_length _ x Hce Hx) as Hl.
  split; [|by destruct Hx as [->| ->]]. apply lists_ok_set_l; [done|unfold zlen; rewrite length_moved by lia; by apply lo_len|]. apply moved_ptrs; [by apply lo_ptrs|done].
Qed.

Lemma reorder_short_wp x n num r c (R : Z → h264_dpb_stru → Prop) E : first_two x → lists_ok c → (n ≤ 32)%nat → (r ≤ 33)%nat →
  (∀ c', same_sizes c c' → R (Z.of_nat (S r)) (view s c')) → wp False (reorder_short_term x (Z.of_nat n - 1) num (Z.of_nat r)) R E (view s c).
Proof.
  intros Hx Hc Hn Hr HR. unfold reorder_short_term. wp_step. apply get_short_term_pic_wp. intros o e Ho. apply move_to_front_wp; [done|by apply lists_ok_with_err|done|done|done|].
  apply HR. by apply moved_same_sizes.
Qed.

Lemma reorder_long_wp x n num r c (R : Z → h264_dpb_stru → Prop) E : first_two x → lists_ok c → (n ≤ 32)%nat → (r ≤ 33)%nat →
  (∀ c', same_sizes c c' → R (Z.of_nat (S r)) (view s c')) → wp False (reorder_long_term x (Z.of_nat n - 1) num (Z.of_nat r)) R E (view s c).
Proof.
  intros Hx Hc Hn Hr HR. unfold reorder_long_term. wp_step. apply get_long_term_pic_wp. intros o e Ho. apply move_to_front_wp; [done|by apply lists_ok_with_err|done|done|done|].
  apply HR. by apply moved_same_sizes.
Qed.

Lemma command_wp (arr : Slice → list (list Z)) x i c (R : Z → h264_dpb_stru → Prop) E : (∀ c, arr (mSlice (view s c)) = arr (mSlice s)) → grid 2 REORDERING_COMMAND_MAX_SIZE (arr (mSlice s)) →
  first_two x → 0 ≤ i < REORDERING_COMMAND_MAX_SIZE → (∀ v, R v (view s c)) → wp False (command arr x i) R E (view s c).
Proof.
  intros Ha [Hl Hrow] Hx Hi HR. unfold command. wp_step. wp_step. rewrite Ha. destruct (aget_Some (arr (mSlice s)) x) as [row Hr]; [destruct Hx as [->| ->]; lia|].
  rewrite Hr. cbn [of_option]. wp_step. wp_step. destruct (aget_Some row i) as [v Hv]; [rewrite (Hrow row); [done|]|].
  - apply aget_inv in Hr as [_ Hr]. by eapply list_elem_of_lookup_2.
  - rewrite Hv. cbn [of_option]. wp_step. by apply HR.
Qed.

Lemma same_sizes_trans c1 c2 c3 : same_sizes c1 c2 → same_sizes c2 c3 → same_sizes c1 c3.
Proof. intros (_ & E1 & E2) (H & E3 & E4). split; [done|]. split; congruence. Qed.

Lemma reorder_commands_wp x n max cur (R : unit → h264_dpb_stru → Prop) E : first_two x → (n ≤ 32)%nat → ∀ k i pred r c, lists_ok c → 0 ≤ i → i + Z.of_nat k ≤ REORDERING_COMMAND_MAX_SIZE →
  (r + k ≤ 33)%nat → (∀ c', same_sizes c c' → R tt (view s c')) → wp False (reorder_commands k x (Z.of_nat n - 1) max cur i pred (Z.of_nat r)) R E (view s c).
Proof.
  intros Hx Hn. pose proof (iv_slice (proj1 Hs)) as Hsl. induction k as [|k IH]; intros i pred r c Hc Hi Hk Hr HR; cbn [reorder_commands].
  { wp_step. by apply HR. }
  assert (0 ≤ i < REORDERING_COMMAND_MAX_SIZE) as Hir by lia. wp_step. apply command_wp; [done|apply Hsl|done|done|]. intros idc. wp_step; [wp_step; by apply HR|]. wp_step.
  - wp_step. apply command_wp; [done|apply Hsl|done|done|]. intros d. cbv zeta. wp_step. apply reorder_short_wp; [done|done|done|lia|]. intros c' H'.
    apply IH; [apply H'|lia|lia|lia|]. intros c'' H''. apply HR. by eapply same_sizes_trans.
  - wp_step. apply command_wp; [done|apply Hsl|done|done|]. intros d. wp_step. apply reorder_long_wp; [done|done|done|lia|]. intros c' H'.
    apply IH; [apply H'|lia|lia|lia|]. intros c'' H''. apply HR. by eapply same_sizes_trans.
Qed.

Definition active (x : Z) : Z := if x =? 0 then (num_ref_idx_active (mSlice s)).1 else (num_ref_idx_active (mSlice s)).2.

(** Only the size of list [x] is new. *)
Definition new_size (x : Z) (c c' : lists) : Prop := lists_ok c' ∧ get_n x c' = active x ∧ ∀ y, first_two y → y ≠ x → get_n y c' = get_n y c.

Lemma reorder_ref_pic_list_wp x c (R : unit → h264_dpb_stru → Prop) E : first_two x → lists_ok c → 1 ≤ active x < MAX_LIST_SIZE → (∀ c', new_size x c c' → R tt (view s c')) →
  wp False (reorder_ref_pic_list x) R E (view s c).
Proof.
  intros Hx Hc Ha HR. unfold MAX_LIST_SIZE in Ha. unfold reorder_ref_pic_list. wp_step. wp_step. cbv zeta. change (num_ref_idx_active (mSlice (view s c))) with (num_ref_idx_active (mSlice s)).
  fold (active x). replace (active x - 1) with (Z.of_nat (Z.to_nat (active x)) - 1) by lia. destruct (if is_eq _ _ then _ else _) as [max cur]. wp_step.
  apply (reorder_commands_wp x (Z.to_nat (active x)) max cur _ _ Hx ltac:(lia) _ 0 cur 0%nat); [done|lia|done|done|]. intros c' (Hok & E0 & E1).
  replace (Z.of_nat (Z.to_nat (active x)) - 1 + 1) with (active x) by lia. apply set_size_wp; [done|lia|]. apply HR. split; [by apply lists_ok_set_n|].
  destruct Hx as [->| ->]; (split; [done|]); intros y [->| ->] Hne; done.
Qed.

Lemma reorder_flag_wp x c (R : bool → h264_dpb_stru → Prop) E : first_two x → (∀ b, R b (view s c)) → wp False (reorder_flag x) R E (view s c).
Proof.
  intros Hx HR. unfold reorder_flag. wp_step. wp_step. destruct (aget_Some (ref_pic_list_reordering_flag (mSlice s)) x) as [b Hb].
  { rewrite (so_flags _ (iv_slice (proj1 Hs))). destruct Hx as [->| ->]; lia. }
  change (ref_pic_list_reordering_flag (mSlice (view s c))) with (ref_pic_list_reordering_flag (mSlice s)). rewrite Hb. cbn [of_option]. wp_step. apply HR.
Qed.

(** The lists are in order, their sizes no larger than those of the header. *)
Definition sized (c : lists) : Prop := lists_ok c ∧ 0 ≤ get_n 0 c < MAX_LIST_SIZE ∧ 0 ≤ get_n 1 c < MAX_LIST_SIZE.

Hypothesis Hact : active_ok (mSlice s).

Lemma reorder_lists_wp c (R : unit → h264_dpb_stru → Prop) E : sized c → (∀ c', sized c' → R tt (view s c')) → wp False reorder_lists R E (view s c).
Proof.
  intros (Hc & Hn0 & Hn1) HR. destruct Hact as [Ha0 Ha1]. assert (first_two 0) as H0 by (by left). assert (first_two 1) as H1 by (by right). unfold reorder_lists. wp_step. wp_step.
  change (num_ref_idx_active (mSlice (view s c))) with (num_ref_idx_active (mSlice s)). destruct (num_ref_idx_active (mSlice s)) as [n0 n1] eqn:En. cbn [fst snd] in Ha0, Ha1.
  assert (active 0 = n0 ∧ active 1 = n1) as [A0 A1] by (unfold active; by rewrite En).
  assert (∀ x (R1 : unit → h264_dpb_stru → Prop) (b : bool) c1, first_two x → lists_ok c1 → (∀ c', lists_ok c' → (∀ y, first_two y → y ≠ x → get_n y c' = get_n y c1) →
    get_n x c' = get_n x c1 ∨ get_n x c' = active x → R1 tt (view s c')) → wp False (when b (reorder_ref_pic_list x)) R1 E (view s c1)) as Hlist.
  { intros x R1 b c1 Hx Hc1 H'. wp_step; [|apply H'; [done|done|by left]]. apply reorder_ref_pic_list_wp; [done|done|destruct Hx as [->| ->]; lia|]. intros c' (Hok & E1 & E2). apply H'; [done|done|by right]. }
  wp_step. apply (wp_mono _ (fun _ s' => ∃ c', sized c' ∧ s' = view s c') _ E); [|intros [] s' (c1 & (Hc1 & Hm0 & Hm1) & ->)|done].
  - wp_step; [|exists c; done]. wp_step. apply reorder_flag_wp; [done|]. intros b. wp_step. apply Hlist; [done|done|]. intros c1 Hc1 Hy Hx. wp_step. apply list_size_wp; [done|]. wp_step.
    unfold MAX_LIST_SIZE in *. apply set_size_wp; [done|lia|]. apply check_valid_wp; [done|cbn in *; unfold MAX_LIST_SIZE; lia|]. eexists. split; [|reflexivity].
    split; [by apply lists_ok_set_n|]. pose proof (Hy 1 H1 ltac:(done)) as E1. cbn in *. unfold MAX_LIST_SIZE. lia.
  - wp_step; [|by apply HR]. wp_step. apply reorder_flag_wp; [done|]. intros b. wp_step. apply Hlist; [done|done|]. intros c2 Hc2 Hy Hx. wp_step.
    pose proof (lo_len c2 1 Hc2 H1) as Hl. unfold ROW, MAX_LIST_SIZE in *. destruct (aget_Some (get_l 1 c2) (n1 - 1)) as [o Ho]; [lia|].
    apply (list_at_wp s 1 _ o); [done|done|]. apply set_size_wp; [done|lia|]. apply HR. pose proof (Hy 0 H0 ltac:(done)) as E0. split; [by apply lists_ok_set_n|]. cbn in *. unfold MAX_LIST_SIZE. lia.
Qed.

(** *** Macroblock adaptive frames *)

(** Only the error flag and the other four lists are new. *)
Definition only_rest (c c' : lists) : Prop := lists_ok c' ∧ c_l0 c' = c_l0 c ∧ c_l1 c' = c_l1 c ∧ c_n0 c' = c_n0 c ∧ c_n1 c' = c_n1 c.

Lemma only_rest_trans c1 c2 c3 : only_rest c1 c2 → only_rest c2 c3 → only_rest c1 c3.
Proof. intros (_ & A & B & C & F) (G & A' & B' & C' & F'). split; [done|]. split_and!; congruence. Qed.

Ltac rest_chain := first [eassumption|eapply only_rest_trans; [eassumption|rest_chain]].

Lemma only_rest_refl c : lists_ok c → only_rest c c.
Proof. done. Qed.

Lemma only_rest_err c : lists_ok c → only_rest c (set_err c).
Proof. intros Hc. split; [by apply lists_ok_err|done]. Qed.

Lemma only_rest_sized c c' : only_rest c c' → sized c → sized c'.
Proof. intros (Hok & _ & _ & E0 & E1) (_ & N0 & N1). split; [done|]. cbn in *. by rewrite E0, E1. Qed.

Lemma rest_put_wp x i o c (R : unit → h264_dpb_stru → Prop) E : 2 ≤ x < 6 → 0 ≤ i < ROW → lists_ok c → (∀ c', only_rest c c' → R tt (view s c')) →
  wp False (list_put x i o) R E (view s c).
Proof.
  intros Hx Hi Hc HR. pose proof (lo_rest _ Hc) as [Hr Hrow]. unfold list_put, row. wp_step. wp_step. wp_step. cbn [view mSlice listX].
  assert (∀ {A} (a b : A) (l : list A), aget (a :: b :: l) x = aget l (x - 2)) as Hget.
  { intros A a b l. unfold aget. rewrite !(proj2 (Z.leb_le _ _)) by lia. replace (Z.to_nat x) with (S (S (Z.to_nat (x - 2)))) by lia. done. }
  change (listX (mSlice (view s c))) with (c_l0 c :: c_l1 c :: c_rest c). rewrite Hget. destruct (aget_Some (c_rest c) (x - 2)) as [l Hl]; [lia|]. rewrite Hl. cbn [of_option]. wp_step.
  apply aget_inv in Hl as [_ Hl]. pose proof (Hrow l (list_elem_of_lookup_2 _ _ _ Hl)) as El. wp_step. rewrite aset_Some by lia. cbn [of_option]. wp_step.
  unfold set_row. wp_step. wp_step. wp_step. change (listX (mSlice (view s c))) with (c_l0 c :: c_l1 c :: c_rest c). rewrite aset_Some by (unfold zlen in *; cbn; lia). cbn [of_option]. wp_step.
  replace (Z.to_nat x) with (S (S (Z.to_nat (x - 2)))) by lia. cbn [insert list_insert]. apply wp_modify.
  change (R tt (view s (c <| c_rest := <[Z.to_nat (x - 2) := <[Z.to_nat i := o]> l]> (c_rest c) |>))). apply HR. split; [|done]. destruct Hc. split; try done. cbn. split; [by rewrite zlen_insert|].
  intros l' Hin. apply list_elem_of_lookup in Hin as [j Hj]. destruct (decide (j = Z.to_nat (x - 2))) as [->|Hne].
  - rewrite list_lookup_insert_eq in Hj by (by eapply lookup_lt_Some). injection Hj as <-. by rewrite zlen_insert.
  - rewrite list_lookup_insert_ne in Hj by done. apply Hrow. by eapply list_elem_of_lookup_2.
Qed.

Lemma rest_size_wp x n c (R : unit → h264_dpb_stru → Prop) E : 2 ≤ x < 6 → 0 ≤ n < 128 → lists_ok c → (∀ c', only_rest c c' → R tt (view s c')) →
  wp False (set_size x n) R E (view s c).
Proof.
  intros Hx Hn Hc HR. pose proof (lo_ns _ Hc) as Hl. unfold set_size. rewrite char_of_small by done. cbn [of_option]. wp_step. wp_step. wp_step. wp_step. wp_step.
  change (listXsize (mSlice (view s c))) with (c_n0 c :: c_n1 c :: c_ns c). rewrite aset_Some by (unfold zlen in *; cbn; lia). cbn [of_option]. wp_step.
  replace (Z.to_nat x) with (S (S (Z.to_nat (x - 2)))) by lia. cbn [insert list_insert]. apply wp_modify.
  change (R tt (view s (c <| c_ns := <[Z.to_nat (x - 2) := n]> (c_ns c) |>))). apply HR. split; [|done]. destruct Hc. split; try done. cbn. by rewrite zlen_insert.
Qed.

Lemma mbaff_fields_wp x a b n (R : unit → h264_dpb_stru → Prop) E : first_two x → 2 ≤ a < 6 → 2 ≤ b < 6 → ∀ i c, lists_ok c → 0 ≤ i → i + Z.of_nat n ≤ MAX_LIST_SIZE →
  (∀ c', only_rest c c' → R tt (view s c')) → wp False (mbaff_fields n i x a b) R E (view s c).
Proof.
  intros Hx Ha Hb. induction n as [|n IH]; intros i c Hc Hi Hn HR; cbn [mbaff_fields]; [wp_step; by apply HR|]. pose proof (lo_len c x Hc Hx) as Hl. unfold ROW, MAX_LIST_SIZE in *.
  destruct (aget_Some (get_l x c) i) as [o Ho]; [lia|]. wp_step. apply (list_at_wp s x i o); [done|done|]. destruct o as [p|]; [|apply error_flag_wp; apply HR; by apply only_rest_err].
  pose proof (lo_ptrs c x Hc Hx) as Hp. apply aget_inv in Ho as [_ Ho]. destruct (ptr_pic p (Forall_lookup_1 _ _ _ _ Hp Ho p eq_refl)) as [y Hy].
  wp_step. apply (pic_at_wp p y); [exact Hy|]. wp_step. apply rest_put_wp; [done|unfold ROW, MAX_LIST_SIZE; lia|done|]. intros c1 K1. wp_step.
  apply rest_put_wp; [done|unfold ROW, MAX_LIST_SIZE; lia|apply K1|]. intros c2 K2. wp_step. apply rest_put_wp; [done|unfold ROW, MAX_LIST_SIZE; lia|apply K2|]. intros c3 K3. wp_step.
  apply rest_put_wp; [done|unfold ROW, MAX_LIST_SIZE; lia|apply K3|]. intros c4 K4. apply IH; [apply K4|lia|lia|]. intros c' K'. apply HR. rest_chain.
Qed.

Lemma init_mbaff_wp c (R : unit → h264_dpb_stru → Prop) E : sized c → (∀ c', only_rest c c' → R tt (view s c')) → wp False init_mbaff_lists R E (view s c).
Proof.
  intros (Hc & Hn0 & Hn1) HR. unfold MAX_LIST_SIZE in Hn0, Hn1. assert (first_two 0) as H0 by (by left). assert (first_two 1) as H1 by (by right). unfold init_mbaff_lists. wp_step. wp_step. wp_step.
  apply (wp_for_range _ _ _ (fun _ s' => ∃ c', only_rest c c' ∧ s' = view s c')); [by exists c| |intros s' (c1 & K1 & ->)].
  { intros i s' Hi (c1 & K1 & ->). wp_step. apply (wp_for_range _ _ _ (fun _ s' => ∃ c', only_rest c c' ∧ s' = view s c')); [by exists c1| |].
    - intros j s' Hj (c2 & K2 & ->). apply rest_put_wp; [lia|unfold ROW, MAX_LIST_SIZE in *; lia|apply K2|]. intros c3 K3. exists c3. split; [by eapply only_rest_trans|done].
    - intros s' (c2 & K2 & ->). apply rest_size_wp; [lia|lia|apply K2|]. intros c3 K3. exists c3. split; [by eapply only_rest_trans|done]. }
  pose proof K1 as (Hc1 & _ & _ & E0 & E1). wp_step. apply list_size_wp; [done|]. wp_step. cbn in Hn0, Hn1. replace (get_n 0 c1) with (c_n0 c) by done.
  apply mbaff_fields_wp; [done|lia|lia|done|lia|unfold MAX_LIST_SIZE; lia|]. intros c2 K2. wp_step. apply rest_size_wp; [lia|lia|apply K2|]. intros c3 K3. wp_step. apply rest_size_wp; [lia|lia|apply K3|].
  intros c4 K4. assert (only_rest c c4) as K5 by (rest_chain). pose proof K5 as (Hc5 & _ & _ & _ & E5). wp_step. apply list_size_wp; [done|]. wp_step.
  replace (get_n 1 c4) with (c_n1 c) by done. apply mbaff_fields_wp; [done|lia|lia|done|lia|unfold MAX_LIST_SIZE; lia|]. intros c6 K6. wp_step.
  apply rest_size_wp; [lia|lia|apply K6|]. intros c7 K7. apply rest_size_wp; [lia|lia|apply K7|]. intros c8 K8. apply HR. rest_chain.
Qed.

Lemma init_i_slice_wp c (R : unit → h264_dpb_stru → Prop) E : lists_ok c → (∀ c', sized c' → R tt (view s c')) → wp False init_lists_i_slice R E (view s c).
Proof.
  intros Hc HR. unfold init_lists_i_slice. wp_step. apply set_size_wp; [by left|lia|]. apply set_size_wp; [by right|lia|]. apply HR.
  split; [by apply lists_ok_set_n, lists_ok_set_n|done].
Qed.
End Reorder.
