(* ===== verification/H264Regs.v ===== *)
(** Commands in the registers of a slice header
    (src/drivers/frame_provider/decoder/h264_multi/h264_dpb.c): the loops of
    [slice_prepare] and [ref_pic_list_reordering] read whatever is there
    without leaving their arrays, and what an encoder means by its commands is
    what they read. *)

From stdpp Require Import base list numbers.
From Stdlib Require Import ZArith Lia Bool.
From S2P Require Import Prelude H264Types H264Pool H264Inv H264Slice.

#[local] Open Scope Z_scope.

Lemma aset_ok {A} (l : list A) i v : 0 ≤ i < zlen l → ∃ l', aset l i v = Some l' ∧ zlen l' = zlen l ∧ aget l' i = Some v ∧ ∀ j, j ≠ i → aget l' j = aget l j.
Proof.
  intros Hi. eexists. split; [by apply aset_Some|]. split; [apply zlen_insert|]. split; [by apply aget_insert|]. intros j Hj. apply aget_insert_ne; [lia|done].
Qed.

(** ** Memory management commands *)

Section Mmco.
Context (cmd : list Z) (Hcmd : zlen cmd = 44).

Lemma chain_aset l i c : chain_ok l → 0 ≤ i < DEC_REF_PIC_MARKING_BUFFER_NUM_MAX → (∀ j, Next c = Some j → i < j < DEC_REF_PIC_MARKING_BUFFER_NUM_MAX) →
  ∃ l', aset l i c = Some l' ∧ chain_ok l'.
Proof.
  intros [Hlen Hnext] Hi Hc. destruct (aset_ok l i c) as (l' & E1 & E2 & E3 & E4); [lia|]. exists l'. split; [done|]. split; [lia|].
  intros j d k Hd Hk. destruct (decide (j = i)) as [->|Hne]; [|rewrite E4 in Hd by done; by eapply Hnext]. rewrite E3 in Hd. simplify_eq. by apply Hc.
Qed.

(** The entry before gets its link. *)
Definition link (j : Z) (buf : list DecRefPicMarking_s) : option (list DecRefPicMarking_s) :=
  if 0 <? j then p ← aget buf (j - 1); aset buf (j - 1) (p <| Next := Some j |>) else Some buf.

Lemma link_chain j buf : chain_ok buf → 0 ≤ j < DEC_REF_PIC_MARKING_BUFFER_NUM_MAX → ∃ buf', link j buf = Some buf' ∧ chain_ok buf'.
Proof.
  intros Hb Hj. unfold link. destruct (Z.ltb_spec 0 j); [|by exists buf]. destruct (aget_Some buf (j - 1)) as [p Hp]; [destruct Hb; lia|]. rewrite Hp. cbn.
  apply chain_aset; [done|lia|]. cbn. intros k [= <-]. lia.
Qed.

(** An operand that is read when [b]. *)
Definition operand (b : bool) (g : Z → DecRefPicMarking_s → DecRefPicMarking_s) (c : DecRefPicMarking_s) (i : Z) : option (DecRefPicMarking_s * Z) :=
  if b then d ← aget cmd i; Some (g d c, i + 1) else Some (c, i).

Lemma operand_ok b g c i : 0 ≤ i → (b = true → i < 44) → (∀ d c, Next (g d c) = Next c) →
  ∃ c' i', operand b g c i = Some (c', i') ∧ Next c' = Next c ∧ i ≤ i' ∧ i' = if b then i + 1 else i.
Proof.
  intros Hi Hb Hg. unfold operand. destruct b; [|exists c, i; repeat split; lia]. destruct (aget_Some cmd i) as [d ->]; [specialize (Hb eq_refl); lia|].
  cbn. exists (g d c), (i + 1). repeat split; [apply Hg|lia].
Qed.

(** Each turn reads at least one register. *)
Lemma mmco_read_ok n : ∀ i j buf a, 0 ≤ j ≤ i → i ≤ 44 → 44 - i < Z.of_nat n → chain_ok buf →
  ∃ buf' a', mmco_read n cmd i j buf a = Some (buf', a') ∧ chain_ok buf'.
Proof.
  unfold DEC_REF_PIC_MARKING_BUFFER_NUM_MAX. induction n as [|n IH]; intros i j buf a Hj Hi Hn Hb; [lia|]. cbn [mmco_read].
  destruct (Z.leb_spec 44 i); [by exists buf, a|]. destruct (aget_Some cmd i) as [v Hv]; [lia|]. rewrite Hv. cbn [mbind option_bind]. cbv zeta.
  fold (link j buf). destruct (link_chain j buf Hb) as (buf1 & -> & Hb1); [unfold DEC_REF_PIC_MARKING_BUFFER_NUM_MAX; lia|]. cbn [mbind option_bind].
  assert (∀ c a', Next c = None → ∃ buf' a'', (buf ← aset buf1 j c; Some (buf, a' : bool)) = Some (buf', a'') ∧ chain_ok buf') as Hstop.
  { intros c a' Hc. destruct (chain_aset buf1 j c Hb1) as (b2 & -> & ?); [unfold DEC_REF_PIC_MARKING_BUFFER_NUM_MAX; lia|congruence|]. by exists b2, a'. }
  destruct ((v =? 0) || (44 <=? i + 1)) eqn:Estop; [by apply Hstop|]. bprop. set (c0 := zero_drpm <| memory_management_control_operation := v |>).
  assert (Next c0 = None) as N0 by done. clearbody c0.
  pose proof (operand_ok ((v =? 1) || (v =? 3)) (fun d c => c <| difference_of_pic_nums_minus1 := d |>) c0 (i + 1)) as (c1 & i1 & E1 & N1 & L1 & T1); [lia|lia|done|].
  unfold operand in E1. rewrite E1. cbn [mbind option_bind].
  pose proof (operand_ok (v =? 2) (fun d c => c <| long_term_pic_num := d |>) c1 i1) as (c2 & i2 & E2 & N2 & L2 & T2); [lia| |done|].
  { intros Hv2%Z.eqb_eq. subst v. cbn in T1. lia. }
  unfold operand in E2. rewrite E2. cbn [mbind option_bind]. destruct (Z.leb_spec 44 i2); [apply Hstop; congruence|].
  pose proof (operand_ok ((v =? 3) || (v =? 6)) (fun d c => c <| long_term_frame_idx := d |>) c2 i2) as (c3 & i3 & E3 & N3 & L3 & T3); [lia|lia|done|].
  unfold operand in E3. rewrite E3. cbn [mbind option_bind].
  pose proof (operand_ok (v =? 4) (fun d c => c <| max_long_term_frame_idx_plus1 := d |>) c3 i3) as (c4 & i4 & E4 & N4 & L4 & T4); [lia| |done|].
  { intros Hv4%Z.eqb_eq. subst v. cbn in T3. lia. }
  unfold operand in E4. rewrite E4. cbn [mbind option_bind].
  assert (i4 ≤ 44). { destruct (v =? 4) eqn:Ev; [apply Z.eqb_eq in Ev; subst v; cbn in T3; lia|]. destruct ((v =? 3) || (v =? 6)); lia. }
  destruct (chain_aset buf1 j c4 Hb1) as (b2 & -> & Hb2); [unfold DEC_REF_PIC_MARKING_BUFFER_NUM_MAX; lia|congruence|]. cbn [mbind option_bind].
  apply IH; [lia|lia|lia|done].
Qed.
End Mmco.

(** *** Commands as an encoder means them (H.264, 7.4.3.3) *)

Inductive mmco :=
| Unmark_short (difference : Z)
| Unmark_long (num : Z)
| Make_long (difference idx : Z)
| Max_long (n : Z)
| Unmark_all
| Current_long (idx : Z).

(** Their syntax elements. *)
Definition mmco_words (c : mmco) : list Z :=
  match c with
  | Unmark_short d => [1; d]
  | Unmark_long n => [2; n]
  | Make_long d idx => [3; d; idx]
  | Max_long n => [4; n]
  | Unmark_all => [5]
  | Current_long idx => [6; idx]
  end.

(** Their entries in the buffer. *)
Definition mmco_entry (c : mmco) (next : option Z) : DecRefPicMarking_s :=
  match c with
  | Unmark_short d => mk_drpm 1 d 0 0 0 next
  | Unmark_long n => mk_drpm 2 0 n 0 0 next
  | Make_long d idx => mk_drpm 3 d 0 idx 0 next
  | Max_long n => mk_drpm 4 0 0 0 n next
  | Unmark_all => mk_drpm 5 0 0 0 0 next
  | Current_long idx => mk_drpm 6 0 0 idx 0 next
  end.

Lemma aget_word {A} (l k : list A) i n x : 0 ≤ i → drop (Z.to_nat i) l = k → k !! n = Some x → aget l (i + Z.of_nat n) = Some x.
Proof.
  intros Hi <- Hx. replace (i + Z.of_nat n) with (Z.of_nat (Z.to_nat i + n)) by lia. by rewrite aget_nat, <- lookup_drop.
Qed.

Lemma drop_words (l p q : list Z) i : 0 ≤ i ≤ zlen l → drop (Z.to_nat i) l = p ++ q → i + zlen p + zlen q = zlen l ∧ drop (Z.to_nat (i + zlen p)) l = q.
Proof.
  intros Hi Hd. split.
  - apply (f_equal length) in Hd. rewrite length_drop, length_app in Hd. unfold zlen in *. lia.
  - replace (Z.to_nat (i + zlen p)) with (Z.to_nat i + length p)%nat by (unfold zlen; lia). rewrite <- drop_drop, Hd. by apply drop_app_length.
Qed.

(** A test of the code whose answer is known. *)
Ltac known :=
  repeat first [rewrite (proj2 (Z.leb_gt _ _)) by lia | rewrite (proj2 (Z.leb_le _ _)) by lia]; cbn [orb andb mbind option_bind].

Ltac read_on := cbn -[aset aget mmco_read Z.leb]; known.

Section Mmco_trip.
Context (cmd : list Z) (Hcmd : zlen cmd = 44).

(** One command. *)
Lemma mmco_read_command c n i j buf buf1 buf2 a w : 0 ≤ i ≤ 44 → drop (Z.to_nat i) cmd = mmco_words c ++ w → w ≠ [] →
  link j buf = Some buf1 → aset buf1 j (mmco_entry c None) = Some buf2 →
  mmco_read (S n) cmd i j buf a = mmco_read n cmd (i + zlen (mmco_words c)) (j + 1) buf2 true.
Proof.
  intros Hi Hd Hw H1 H2. destruct (drop_words cmd _ _ i ltac:(lia) Hd) as [Hlen _]. assert (0 < zlen w) as Hw0 by (destruct w; [done|unfold zlen; cbn; lia]).
  cbn [mmco_read]. fold (link j buf). rewrite H1.
  destruct c; cbn [mmco_words app] in *; unfold zlen in Hlen at 1; cbn [length] in Hlen; unfold mmco_entry in H2; unfold zero_drpm;
    pose proof (aget_word cmd _ i 0 _ ltac:(lia) Hd eq_refl) as A0; rewrite Z.add_0_r in A0; known; rewrite A0; read_on;
    try (rewrite (aget_word cmd _ i 1 _ ltac:(lia) Hd eq_refl : aget cmd (i + 1) = _); read_on);
    try (replace (i + 1 + 1) with (i + Z.of_nat 2) by lia; rewrite (aget_word cmd _ i 2 _ ltac:(lia) Hd eq_refl); read_on);
    match goal with |- aset ?b ?k ?c ≫= _ = _ => replace (aset b k c) with (Some buf2) by (symmetry; exact H2) end; cbn [mbind option_bind];
    f_equal; unfold zlen; cbn; lia.
Qed.

Lemma link_step j buf c : 0 ≤ j < zlen buf → ∃ buf1 buf2, link j buf = Some buf1 ∧ aset buf1 j c = Some buf2 ∧ zlen buf2 = zlen buf ∧
  aget buf2 j = Some c ∧ (0 < j → ∀ p, aget buf (j - 1) = Some p → aget buf2 (j - 1) = Some (p <| Next := Some j |>)) ∧
  ∀ k, k < j - 1 → aget buf2 k = aget buf k.
Proof.
  intros Hj. assert (∃ buf1, link j buf = Some buf1 ∧ zlen buf1 = zlen buf ∧ (0 < j → ∀ p, aget buf (j - 1) = Some p → aget buf1 (j - 1) = Some (p <| Next := Some j |>)) ∧
    ∀ k, k ≠ j - 1 → aget buf1 k = aget buf k) as (buf1 & E1 & Hl & Hp & Ho).
  { unfold link. destruct (Z.ltb_spec 0 j); [|exists buf; repeat split; lia]. destruct (aget_Some buf (j - 1)) as [p Hp]; [lia|]. rewrite Hp. cbn.
    destruct (aset_ok buf (j - 1) (p <| Next := Some j |>)) as (l & E & A & B & C); [lia|]. exists l. split_and!; try done. intros _ q [= <-]. done. }
  destruct (aset_ok buf1 j c) as (buf2 & E2 & A & B & C); [lia|]. exists buf1, buf2. split_and!; try done; [lia| |].
  - intros Hj0 p Hpp. rewrite C by lia. by apply Hp.
  - intros k Hk. rewrite C, Ho by lia. done.
Qed.

(** All of them, from [i] and [j] on. *)
Lemma mmco_read_commands cs : ∀ n i j buf a rest, (length cs < n)%nat → 0 ≤ j ≤ i → i ≤ 44 → zlen buf = DEC_REF_PIC_MARKING_BUFFER_NUM_MAX →
  drop (Z.to_nat i) cmd = (cs ≫= mmco_words) ++ 0 :: rest →
  ∃ buf', mmco_read n cmd i j buf a = Some (buf', a || bool_decide (cs ≠ [])) ∧
    (∀ k c, cs !! k = Some c → aget buf' (j + Z.of_nat k) = Some (mmco_entry c (Some (j + Z.of_nat k + 1)))) ∧
    aget buf' (j + zlen cs) = Some zero_drpm ∧ (∀ k, k < j - 1 → aget buf' k = aget buf k) ∧
    (0 < j → ∀ p, aget buf (j - 1) = Some p → aget buf' (j - 1) = Some (p <| Next := Some j |>)).
Proof.
  unfold DEC_REF_PIC_MARKING_BUFFER_NUM_MAX. induction cs as [|c cs IH]; intros n i j buf a rest Hn Hj Hi Hb Hd; (destruct n as [|n]; [cbn in Hn; lia|]).
  - cbn in Hd. destruct (drop_words cmd [0] rest i ltac:(lia) Hd) as [Hlen _]. unfold zlen in Hlen at 1. cbn in Hlen. assert (0 ≤ zlen rest) by (unfold zlen; lia).
    pose proof (aget_word cmd _ i 0 _ ltac:(lia) Hd eq_refl) as A0. rewrite Z.add_0_r in A0. destruct (link_step j buf zero_drpm) as (buf1 & buf2 & E1 & E2 & _ & Hz & Hp & Ho); [lia|].
    cbn [mmco_read]. fold (link j buf). rewrite E1. known. rewrite A0. cbn -[aset Z.leb]. match goal with |- context [aset ?b ?k ?c] => replace (aset b k c) with (Some buf2) by (symmetry; exact E2) end.
    exists buf2. cbn. rewrite orb_false_r. unfold zlen. cbn. rewrite Z.add_0_r. split_and!; try done. 
  - cbn [mbind list_bind] in Hd. rewrite <- app_assoc in Hd. destruct (drop_words cmd _ _ i ltac:(lia) Hd) as [Hlen Hd'].
    assert (0 < zlen (mmco_words c)) by (by destruct c). assert (0 < zlen ((cs ≫= mmco_words) ++ 0 :: rest)) by (unfold zlen; rewrite length_app; cbn; lia).
    destruct (link_step j buf (mmco_entry c None)) as (buf1 & buf2 & E1 & E2 & Hl & Hz & Hp & Ho); [lia|].
    rewrite (mmco_read_command c n i j buf buf1 buf2 a _ ltac:(lia) Hd) by (try done; by destruct (cs ≫= mmco_words)).
    destruct (IH n (i + zlen (mmco_words c)) (j + 1) buf2 true rest) as (buf' & -> & Hcs & Hend & Ho' & Hp'); [cbn in Hn; lia|lia|lia|lia|done|].
    exists buf'. cbn [orb]. rewrite bool_decide_eq_true_2, orb_true_r by done. split; [done|]. replace (j + 1 - 1) with j in * by lia. split_and!.
    + intros [|k] d Hk; cbn in Hk.
      * simplify_eq. rewrite Z.add_0_r. rewrite (Hp' ltac:(lia) _ Hz). by destruct d.
      * replace (j + Z.of_nat (S k)) with (j + 1 + Z.of_nat k) by lia. by apply Hcs.
    + replace (j + zlen (c :: cs)) with (j + 1 + zlen cs) by (unfold zlen; cbn; lia). done.
    + intros k Hk. rewrite Ho', Ho by lia. done.
    + intros Hj0 p Hpp. rewrite Ho' by lia. by apply Hp.
Qed.
End Mmco_trip.

(** C21: the memory management commands of a slice header come back as they were
    meant: of registers that hold the syntax elements of a list of commands and
    the 0 that ends it, [slice_prepare] fills its buffer with these commands in
    this order, each linked to the next one and the last one to the command 0,
    and the adaptive marking is on exactly when there is a command. *)
Theorem mmco_read_roundtrip cs rest buf : let cmd := (cs ≫= mmco_words) ++ 0 :: rest in
  zlen cmd = 44 → zlen buf = DEC_REF_PIC_MARKING_BUFFER_NUM_MAX →
  ∃ buf', mmco_read 45 cmd 0 0 buf false = Some (buf', bool_decide (cs ≠ [])) ∧
    (∀ k c, cs !! k = Some c → aget buf' (Z.of_nat k) = Some (mmco_entry c (Some (Z.of_nat k + 1)))) ∧ aget buf' (zlen cs) = Some zero_drpm.
Proof.
  intros cmd Hcmd Hb. assert (length cs ≤ length (cs ≫= mmco_words))%nat as Hlen.
  { clear. induction cs as [|c cs IH]; [done|]. cbn. rewrite length_app. destruct c; cbn; lia. }
  assert (length cs < 45)%nat as Hn by (unfold cmd, zlen in Hcmd; rewrite length_app in Hcmd; lia).
  destruct (mmco_read_commands cmd Hcmd cs 45 0 0 buf false rest Hn) as (buf' & E & Hcs & Hend & _); [lia|lia|done|done|].
  exists buf'. split; [done|]. split; [|done]. intros k c Hk. apply (Hcs k c Hk).
Qed.

Lemma mmco_read_roundtrip_witness :
  (option_map snd (mmco_read 45 ([1; 2; 3; 0; 7] ++ repeat 0 39) 0 0 (repeat zero_drpm 45) false) = Some true) ∧
  ∃ buf', mmco_read 45 ([1; 2; 3; 0; 7] ++ repeat 0 39) 0 0 (repeat zero_drpm 45) false = Some (buf', true) ∧ aget buf' 2 = Some zero_drpm.
Proof.
  split; [by vm_compute|]. destruct (mmco_read_roundtrip [Unmark_short 2; Make_long 0 7] (repeat 0 38) (repeat zero_drpm 45)) as (buf' & E & _ & H); [by vm_compute|by vm_compute|].
  exists buf'. split; [exact E|exact H].
Defined.

(** ** Reference list modification *)

Definition sized_cmds (r : reorder_cmds) : Prop :=
  zlen (ro_idc r) = REORDERING_COMMAND_MAX_SIZE ∧ zlen (ro_diff r) = REORDERING_COMMAND_MAX_SIZE ∧ zlen (ro_long r) = REORDERING_COMMAND_MAX_SIZE.

(** The loop stops with members of the right size. *)
Ltac ends := eexists; split; [done|]; unfold sized_cmds, REORDERING_COMMAND_MAX_SIZE in *; cbn; lia.

Section Reorder.
Context (cmd : list Z) (Hcmd : zlen cmd = 66) (at_end : bool).

(** Each turn reads at least one register. *)
Lemma reorder_loop_ok n : ∀ i j r, 0 ≤ i < REORDERING_COMMAND_MAX_SIZE → 0 ≤ j < 66 → 66 - j ≤ Z.of_nat n → sized_cmds r →
  ∃ r', reorder_loop n at_end cmd i j r = Some r' ∧ sized_cmds r'.
Proof.
  unfold REORDERING_COMMAND_MAX_SIZE. induction n as [|n IH]; intros i j r Hi Hj Hn (L1 & L2 & L3); unfold REORDERING_COMMAND_MAX_SIZE in L1, L2, L3; [lia|]. cbn [reorder_loop].
  destruct (aget_Some cmd j) as [v ->]; [lia|]. cbn [mbind option_bind]. destruct (aset_ok (ro_idc r) i v) as (idc & -> & Lidc & _); [lia|]. cbn [mbind option_bind]. cbv zeta.
  destruct (Z.leb_spec 66 (j + 1)); [ends|]. cbn [ro_flag ro_idc ro_diff ro_long].
  match goal with |- ∃ r', (?o ≫= _) = _ ∧ _ => assert (∃ r1 j1, o = Some (r1, j1) ∧ sized_cmds r1 ∧ j < j1 ≤ j + 2) as (r1 & j1 & -> & Hr1 & Hj1) end.
  { destruct (aget_Some cmd (j + 1)) as [d ->]; [lia|]. destruct (aset_ok (ro_diff r) i d) as (l1 & E1 & M1 & _); [lia|]. destruct (aset_ok (ro_long r) i d) as (l2 & E2 & M2 & _); [lia|].
    cbn [mbind option_bind]. rewrite E1, E2. cbn [mbind option_bind]. unfold sized_cmds, REORDERING_COMMAND_MAX_SIZE.
    destruct ((v =? 0) || (v =? 1)); [|destruct (v =? 2)]; (eexists _, _; split; [done|]); cbn; split_and!; lia. }
  cbn [mbind option_bind]. destruct Hr1 as (M1 & M2 & M3). destruct (Z.leb_spec REORDERING_COMMAND_MAX_SIZE (i + 1)); [ends|].
  destruct (Z.leb_spec 66 j1); [destruct at_end; ends|]. destruct (v =? 3); [ends|].
  unfold REORDERING_COMMAND_MAX_SIZE in *. apply IH; [lia|lia|lia|done].
Qed.

Lemma reorder_list_ok r : sized_cmds r → ∃ r', reorder_list at_end cmd r = Some r' ∧ sized_cmds r'.
Proof.
  intros Hr. unfold reorder_list. destruct (aget_Some cmd 0) as [v ->]; [lia|]. cbn [mbind option_bind]. destruct (negb (v =? 3)); [|ends].
  apply reorder_loop_ok; [unfold REORDERING_COMMAND_MAX_SIZE; lia|lia|lia|done].
Qed.
End Reorder.

(** *** Commands as an encoder means them (H.264, 7.4.3.1) *)

Inductive reorder_cmd := Minus (abs_diff : Z) | Plus (abs_diff : Z) | Long (num : Z).

Definition reorder_words (c : reorder_cmd) : list Z := match c with Minus d => [0; d] | Plus d => [1; d] | Long n => [2; n] end.

(** The members of a slice hold the command at [k]. *)
Definition reads_as (r : reorder_cmds) (k : Z) (c : reorder_cmd) : Prop :=
  match c with
  | Minus d => aget (ro_idc r) k = Some 0 ∧ aget (ro_diff r) k = Some d
  | Plus d => aget (ro_idc r) k = Some 1 ∧ aget (ro_diff r) k = Some d
  | Long n => aget (ro_idc r) k = Some 2 ∧ aget (ro_long r) k = Some n
  end.

Definition same_below (i : Z) (r r' : reorder_cmds) : Prop :=
  ∀ k, k < i → aget (ro_idc r') k = aget (ro_idc r) k ∧ aget (ro_diff r') k = aget (ro_diff r) k ∧ aget (ro_long r') k = aget (ro_long r) k.

Lemma reads_below i r r' k c : same_below i r r' → k < i → reads_as r k c → reads_as r' k c.
Proof. intros H Hk. destruct (H k Hk) as (E1 & E2 & E3). destruct c; cbn; by rewrite E1, ?E2, ?E3. Qed.

Section Reorder_trip.
Context (cmd : list Z) (Hcmd : zlen cmd = 66) (at_end : bool).

(** One command. *)
Lemma reorder_command c n i j r w : 0 ≤ i → i + 1 < REORDERING_COMMAND_MAX_SIZE → 0 ≤ j → j + 2 < 66 → sized_cmds r → drop (Z.to_nat j) cmd = reorder_words c ++ w →
  ∃ r', reorder_loop (S n) at_end cmd i j r = reorder_loop n at_end cmd (i + 1) (j + 2) r' ∧ sized_cmds r' ∧ ro_flag r' = ro_flag r ∧ reads_as r' i c ∧ same_below i r r'.
Proof.
  unfold REORDERING_COMMAND_MAX_SIZE. intros Hi Hi1 Hj Hj2 (L1 & L2 & L3) Hd. unfold REORDERING_COMMAND_MAX_SIZE in L1, L2, L3.
  assert (∃ v d, reorder_words c = [v; d] ∧ (v = 0 ∨ v = 1 ∨ v = 2)) as (v & d & Ec & Hv) by (destruct c; eexists _, _; split; try done; lia). rewrite Ec in Hd.
  pose proof (aget_word cmd _ j 0 _ ltac:(lia) Hd eq_refl) as A0. rewrite Z.add_0_r in A0. pose proof (aget_word cmd _ j 1 _ ltac:(lia) Hd eq_refl : aget cmd (j + 1) = Some d) as A1.
  destruct (aset_ok (ro_idc r) i v) as (idc & E1 & M1 & G1 & O1); [lia|]. destruct (aset_ok (ro_diff r) i d) as (df & E2 & M2 & G2 & O2); [lia|].
  destruct (aset_ok (ro_long r) i d) as (lg & E3 & M3 & G3 & O3); [lia|].
  exists (if v =? 2 then mk_reorder (ro_flag r) idc (ro_diff r) lg else mk_reorder (ro_flag r) idc df (ro_long r)). split_and!.
  - cbn [reorder_loop]. rewrite A0. cbn [mbind option_bind]. rewrite E1. cbn [mbind option_bind]. known. rewrite A1. cbn [mbind option_bind ro_idc ro_diff ro_long]. rewrite E2, E3.
    unfold REORDERING_COMMAND_MAX_SIZE. replace (j + 1 + 1) with (j + 2) by lia. destruct Hv as [->|[->| ->]]; cbn -[Z.leb]; known; done.
  - unfold sized_cmds, REORDERING_COMMAND_MAX_SIZE. destruct (v =? 2); cbn; lia.
  - by destruct (v =? 2).
  - destruct c; cbn in Ec; simplify_eq; cbn; done.
  - intros k Hk. destruct (v =? 2); cbn; rewrite O1, ?O2, ?O3 by lia; done.
Qed.

Lemma reorder_commands_trip cs : ∀ n i j r rest, (length cs < n)%nat → 0 ≤ i → i + zlen cs + 1 < REORDERING_COMMAND_MAX_SIZE → 0 ≤ j ≤ 66 → j + 2 * zlen cs + 1 < 66 → sized_cmds r →
  drop (Z.to_nat j) cmd = (cs ≫= reorder_words) ++ 3 :: rest →
  ∃ r', reorder_loop n at_end cmd i j r = Some r' ∧ ro_flag r' = ro_flag r ∧ (∀ k c, cs !! k = Some c → reads_as r' (i + Z.of_nat k) c) ∧
    aget (ro_idc r') (i + zlen cs) = Some 3 ∧ same_below i r r'.
Proof.
  unfold REORDERING_COMMAND_MAX_SIZE. induction cs as [|c cs IH]; intros n i j r rest Hn Hi Hi1 Hj Hj2 Hr Hd; (destruct n as [|n]; [cbn in Hn; lia|]); unfold zlen in Hi1, Hj2; cbn [length] in Hi1, Hj2.
  - cbn in Hd. pose proof (aget_word cmd _ j 0 _ ltac:(lia) Hd eq_refl) as A0. rewrite Z.add_0_r in A0. destruct Hr as (L1 & _). unfold REORDERING_COMMAND_MAX_SIZE in L1.
    destruct (aset_ok (ro_idc r) i 3) as (idc & E1 & M1 & G1 & O1); [lia|]. exists (mk_reorder (ro_flag r) idc (ro_diff r) (ro_long r)). cbn [reorder_loop]. rewrite A0.
    cbn [mbind option_bind]. rewrite E1. unfold REORDERING_COMMAND_MAX_SIZE. cbn -[Z.leb]. known. unfold zlen. cbn. rewrite Z.add_0_r. split_and!; try done. intros k Hk. cbn. rewrite O1 by lia. done.
  - cbn [mbind list_bind] in Hd. rewrite <- app_assoc in Hd. destruct (drop_words cmd _ _ j ltac:(lia) Hd) as [_ Hd'].
    destruct (reorder_command c n i j r _ Hi ltac:(unfold REORDERING_COMMAND_MAX_SIZE; lia) ltac:(lia) ltac:(lia) Hr Hd) as (r1 & -> & Hr1 & F1 & C1 & S1).
    replace (j + zlen (reorder_words c)) with (j + 2) in Hd' by (by destruct c).
    destruct (IH n (i + 1) (j + 2) r1 rest) as (r' & -> & F & C & T & S); [cbn in Hn; lia|lia|unfold zlen; lia|lia|unfold zlen; lia|done|done|].
    exists r'. split_and!; [done|congruence| | |].
    + intros [|k] d Hk; cbn in Hk.
      * simplify_eq. rewrite Z.add_0_r. eapply reads_below; [done|lia|done].
      * replace (i + Z.of_nat (Datatypes.S k)) with (i + 1 + Z.of_nat k) by lia. by apply C.
    + replace (i + zlen (c :: cs)) with (i + 1 + zlen cs) by (unfold zlen; cbn; lia). done.
    + intros k Hk. destruct (S k ltac:(lia)) as (-> & -> & ->). by apply S1.
Qed.
End Reorder_trip.

(** C22: the commands that modify a reference list come back as they were meant:
    of registers that hold up to 31 commands and the 3 that ends them,
    [ref_pic_list_reordering] fills the members of the slice with these
    commands in this order and the 3, and the flag is set exactly when there is
    a command; without commands the members stay as they are. *)
Theorem reorder_list_roundtrip at_end cs rest r : let cmd := (cs ≫= reorder_words) ++ 3 :: rest in
  zlen cmd = 66 → zlen cs ≤ 31 → sized_cmds r →
  ∃ r', reorder_list at_end cmd r = Some r' ∧ ro_flag r' = bool_decide (cs ≠ []) ∧ (∀ k c, cs !! k = Some c → reads_as r' (Z.of_nat k) c) ∧
    if bool_decide (cs = []) then r' = mk_reorder false (ro_idc r) (ro_diff r) (ro_long r) else aget (ro_idc r') (zlen cs) = Some 3.
Proof.
  intros cmd Hcmd Hcs Hr. unfold reorder_list. destruct cs as [|c cs].
  - cbn. exists (mk_reorder false (ro_idc r) (ro_diff r) (ro_long r)). by split_and!.
  - assert (∃ v, aget cmd 0 = Some v ∧ v ≠ 3) as (v & -> & Hv) by (destruct c; eexists; (split; [done|lia])).
    cbn [mbind option_bind]. rewrite (proj2 (Z.eqb_neq _ _) Hv). cbn [negb].
    destruct (reorder_commands_trip cmd Hcmd at_end (c :: cs) 66 0 0 (mk_reorder true (ro_idc r) (ro_diff r) (ro_long r)) rest) as (r' & E & F & C & T & _);
      [unfold zlen in Hcs; lia|lia|unfold REORDERING_COMMAND_MAX_SIZE; lia|lia|lia|done|done|].
    exists r'. split; [done|]. split; [done|]. split; [done|]. by rewrite bool_decide_eq_false_2 by done.
Qed.

Lemma reorder_list_roundtrip_witness : let r := mk_reorder false (repeat 0 33) (repeat 0 33) (repeat 0 33) in
  ∃ r', reorder_list true ([0; 4; 2; 1; 3] ++ repeat 0 61) r = Some r' ∧ ro_flag r' = true ∧ aget (ro_idc r') 2 = Some 3 ∧ reads_as r' 1 (Long 1).
Proof.
  intros r. destruct (reorder_list_roundtrip true [Minus 4; Long 1] (repeat 0 61) r) as (r' & E & F & C & T); [by vm_compute|by vm_compute|by vm_compute|].
  exists r'. split; [exact E|]. split; [exact F|]. split; [exact T|]. apply (C 1%nat). done.
Defined.
