(* ===== verification/H264HeaderOk.v ===== *)
(** A slice header is processed safely
    (src/drivers/frame_provider/decoder/h264_multi/h264_dpb.c,
    [h264_slice_header_process]): from registers as the firmware fills them,
    every part is defined, the pool has a picture, and the invariant holds
    afterwards. *)

From stdpp Require Import base list numbers.
From Stdlib Require Import ZArith Lia Bool.
From S2P Require Import Prelude H264Types H264Poc H264Pool H264Slice H264Mark H264Lists H264Header H264Inv H264MarkOk H264PoolOk H264Fill H264DisplayOk H264Safe.
From S2P Require Import H264ListsOk H264ListsB H264Reorder H264Regs.

#[local] Open Scope Z_scope.

(** ** The registers *)

(** What the firmware puts into the registers: arrays of their size, a
    structure that the stream can have, exponents of an [int], counts. *)
Record regs_ok (m : bool) (pa : dpb_param) : Prop := {
  rg_mmco : zlen (mmco_cmd pa) = 44;
  rg_l0 : zlen (l0_reorder_cmd pa) = 66;
  rg_l1 : zlen (l1_reorder_cmd pa) = 66;
  rg_structure : let st := tab (l_data pa) NEW_PICTURE_STRUCTURE in 0 ≤ st ≤ 3 ∧ (m = true → st = 0 ∨ st = 3);
  rg_frame_num : 0 ≤ tab (l_data pa) LOG2_MAX_FRAME_NUM < 32;
  rg_lsb : 0 ≤ tab (l_data pa) LOG2_MAX_PIC_ORDER_CNT_LSB < 32;
  rg_active : 0 ≤ num_ref_idx_l0_active_minus1 pa ∧ 0 ≤ num_ref_idx_l1_active_minus1 pa
}.

(** What the rest relies on in a slice header. *)
Record header_ok (m : bool) (s : h264_dpb_stru) : Prop := {
  ho_slice : slice_ok (mSlice s);
  ho_active : active_ok (mSlice s);
  ho_structure : m = true → sl_structure (mSlice s) = FRAME;
  ho_frame_num : 0 ≤ log2_max_frame_num_minus4 (mSPS s) + 4 < 32;
  ho_lsb : 0 ≤ log2_max_pic_order_cnt_lsb_minus4 (mSPS s) + 4 < 32;
  ho_max : u32 (max_frame_num (mVideo s)) ≠ 0
}.

(** The pointers of [mVideo]. *)
Definition same_ptrs (v v' : VideoParameters) : Prop :=
  active_sps v' = active_sps v ∧ dec_picture v' = dec_picture v ∧ no_reference_picture v' = no_reference_picture v.

(** What [slice_prepare] changes. *)
Record prepared (m : bool) (s s' : h264_dpb_stru) : Prop := {
  pr_state : s' = s <| mSPS := mSPS s' |> <| mSlice := mSlice s' |> <| mVideo := mVideo s' |> <| dpb_error_flag := dpb_error_flag s' |>
    <| h264_long_term_reference_flag := h264_long_term_reference_flag s' |> <| bitstream_restriction_flag := bitstream_restriction_flag s' |>;
  pr_mbs : sps_frame_mbs_only_flag (mSPS s') = sps_frame_mbs_only_flag (mSPS s);
  pr_video : same_ptrs (mVideo s) (mVideo s');
  pr_header : header_ok m s'
}.

Lemma u32_one_shl n : 0 ≤ n < 32 → ∃ max, one_shl n = Some max ∧ u32 max ≠ 0.
Proof.
  intros Hn. unfold one_shl. rewrite (proj2 (Z.leb_le _ _)), (proj2 (Z.ltb_lt _ _)) by lia. eexists. split; [done|].
  assert (0 < 2 ^ n) by (apply Z.pow_pos_nonneg; lia). assert (2 ^ n < 2 ^ 32) by (apply Z.pow_lt_mono_r; lia). rewrite u32_s32, u32_id; lia.
Qed.

Lemma structure_of_ok m x : 0 ≤ x ≤ 3 → (m = true → x = 0 ∨ x = 3) → ∃ st, structure_of x = Some st ∧ (m = true → st = FRAME).
Proof.
  intros Hx Hm. assert (x = 0 ∨ x = 1 ∨ x = 2 ∨ x = 3) as [->|[->|[->| ->]]] by lia; cbn; eexists; (split; [done|]); try done; intros E; specialize (Hm E); lia.
Qed.

Lemma clip_active_ok n : 0 ≤ n → 1 ≤ clip_active (n + 1) < MAX_LIST_SIZE.
Proof. intros Hn. unfold clip_active, MAX_LIST_SIZE. destruct (Z.leb_spec 33 (n + 1)); lia. Qed.

(** The parts of a slice that [slice_ok] speaks about. *)
Definition same_arrays (sl sl' : Slice) : Prop :=
  listX sl' = listX sl ∧ listXsize sl' = listXsize sl ∧ marking_buffer sl' = marking_buffer sl ∧ ref_pic_list_reordering_flag sl' = ref_pic_list_reordering_flag sl ∧
  modification_of_pic_nums_idc sl' = modification_of_pic_nums_idc sl ∧ abs_diff_pic_num_minus1 sl' = abs_diff_pic_num_minus1 sl ∧
  long_term_pic_idx sl' = long_term_pic_idx sl.

Lemma slice_ok_same sl sl' : same_arrays sl sl' → slice_ok sl → slice_ok sl'.
Proof. intros (E1 & E2 & E3 & E4 & E5 & E6 & E7) []. split; by rewrite ?E1, ?E2, ?E3, ?E4, ?E5, ?E6, ?E7. Qed.

Lemma prepare_slice_same pa st sl : same_arrays sl (prepare_slice pa st sl) ∧ sl_structure (prepare_slice pa st sl) = st.
Proof. unfold prepare_slice. cbv zeta. by case_match. Qed.

Lemma grid_insert {A} n k (ll : list (list A)) x l : grid n k ll → zlen l = k → grid n k (<[x := l]> ll).
Proof.
  intros [H1 H2] Hl. split; [unfold zlen in *; by rewrite length_insert|]. intros l' Hin. apply list_elem_of_lookup in Hin as [i Hi].
  destruct (decide (i = x)) as [->|Hne].
  - destruct (decide (x < length ll)%nat) as [Hlt|Hge]; [rewrite list_lookup_insert_eq in Hi by done; by simplify_eq|].
    rewrite list_insert_ge in Hi by lia. apply H2. by eapply list_elem_of_lookup_2.
  - rewrite list_lookup_insert_ne in Hi by done. apply H2. by eapply list_elem_of_lookup_2.
Qed.

Lemma grid_row {A} n k (ll : list (list A)) x : grid n k ll → Z.of_nat x < n → ∃ l, ll !! x = Some l ∧ zlen l = k.
Proof.
  intros [H1 H2] Hx. destruct (lookup_lt_is_Some_2 ll x) as [l Hl]; [unfold zlen in H1; lia|]. exists l. split; [done|]. apply H2. by eapply list_elem_of_lookup_2.
Qed.

(** ** [slice_prepare] *)

(** The members of one list are read; the rest stays. *)
Lemma reorder_slice_ok x at_end cmd sl : (x < 2)%nat → zlen cmd = 66 → slice_ok sl → ∃ r, reorder_slice x at_end cmd sl = Some (put_cmds x r sl) ∧ slice_ok (put_cmds x r sl).
Proof.
  intros Hx Hcmd []. unfold reorder_slice, get_cmds. destruct (lookup_lt_is_Some_2 (ref_pic_list_reordering_flag sl) x) as [f ->]; [unfold zlen in so_flags; lia|].
  destruct (grid_row _ _ _ x so_idc ltac:(lia)) as (a & -> & La). destruct (grid_row _ _ _ x so_diff ltac:(lia)) as (b & -> & Lb).
  destruct (grid_row _ _ _ x so_long ltac:(lia)) as (c & -> & Lc). cbn [mbind option_bind].
  destruct (reorder_list_ok cmd Hcmd at_end (mk_reorder f a b c)) as (r & -> & (L1 & L2 & L3)); [done|]. cbn [mbind option_bind]. exists r. split; [done|].
  split; cbn; try done; [by rewrite zlen_insert_nat || (unfold zlen in *; by rewrite length_insert)|by apply grid_insert..].
Qed.

Lemma reordering_ok pa sl : zlen (l0_reorder_cmd pa) = 66 → zlen (l1_reorder_cmd pa) = 66 → slice_ok sl → ∃ sl', ref_pic_list_reordering pa sl = Some sl' ∧ slice_ok sl' ∧
  num_ref_idx_active sl' = num_ref_idx_active sl ∧ sl_structure sl' = sl_structure sl.
Proof.
  intros H0 H1 Hs. unfold ref_pic_list_reordering.
  assert (∃ sl1, (if negb (is_eq (sl_slice_type sl) I_SLICE) && negb (is_eq (sl_slice_type sl) SI_SLICE) then reorder_slice 0 true (l0_reorder_cmd pa) sl else Some sl) = Some sl1 ∧
    slice_ok sl1 ∧ num_ref_idx_active sl1 = num_ref_idx_active sl ∧ sl_structure sl1 = sl_structure sl) as (sl1 & -> & K1 & A1 & S1).
  { destruct (_ && _); [|by exists sl]. destruct (reorder_slice_ok 0 true _ sl ltac:(lia) H0 Hs) as (r & -> & ?). by eexists. }
  cbn [mbind option_bind]. destruct (is_eq _ _); [|by exists sl1]. destruct (reorder_slice_ok 1 false _ sl1 ltac:(lia) H1 K1) as (r & -> & ?). by eexists.
Qed.

(** On the way: the parameter set and [mVideo] are final. *)
Record preparing (s s1 s' : h264_dpb_stru) : Prop := {
  pg_state : s' = s <| mSPS := mSPS s1 |> <| mSlice := mSlice s' |> <| mVideo := mVideo s1 |> <| dpb_error_flag := dpb_error_flag s' |>
    <| h264_long_term_reference_flag := h264_long_term_reference_flag s' |> <| bitstream_restriction_flag := bitstream_restriction_flag s' |>;
  pg_slice : slice_ok (mSlice s');
  pg_structure : sl_structure (mSlice s') = sl_structure (mSlice s1)
}.

Lemma preparing_flags s s1 s' e l b : preparing s s1 s' →
  preparing s s1 (s' <| dpb_error_flag := e |> <| h264_long_term_reference_flag := l |> <| bitstream_restriction_flag := b |>).
Proof. intros [H1 H2 H3]. split; [rewrite H1; by destruct s, s'|done|done]. Qed.

Lemma preparing_slice s s1 s' sl : preparing s s1 s' → slice_ok sl → sl_structure sl = sl_structure (mSlice s') → preparing s s1 (s' <| mSlice := sl |>).
Proof. intros [H1 H2 H3] Hsl Hst. split; [rewrite H1; by destruct s, s'|done|by rewrite <- H3, <- Hst]. Qed.

(** The part behind the assignments. *)
Lemma prepare_tail s s1 pa (R : unit → h264_dpb_stru → Prop) E : zlen (mmco_cmd pa) = 44 → zlen (l0_reorder_cmd pa) = 66 → zlen (l1_reorder_cmd pa) = 66 → preparing s s1 s1 →
  (∀ s', preparing s s1 s' → num_ref_idx_active (mSlice s') = (clip_active (num_ref_idx_l0_active_minus1 pa + 1), clip_active (num_ref_idx_l1_active_minus1 pa + 1)) → R tt s') →
  wp False (sl ← gets mSlice;
    (when (sl_idr_flag sl) (modify (fun s => s <| h264_long_term_reference_flag := sl_long_term_reference_flag sl |>)));;
    let n0 := num_ref_idx_l0_active_minus1 pa + 1 in
    let n1 := num_ref_idx_l1_active_minus1 pa + 1 in
    upd_slice (fun sl => sl <| num_ref_idx_active := (clip_active n0, clip_active n1) |>);;
    (when ((MAX_LIST_SIZE <=? n0) || (MAX_LIST_SIZE <=? n1)) error_flag);;
    (when (truth (nal_reference_idc sl))
      (r ← of_option (mmco_read 45 (mmco_cmd pa) 0 0 (marking_buffer sl) false);
       upd_slice (fun sl => sl <| marking_buffer := r.1 |> <| sl_adaptive_ref_pic_buffering_flag := r.2 |>)));;
    sl ← gets mSlice;
    sl ← of_option (ref_pic_list_reordering pa sl);
    upd_slice (fun _ => sl);;
    modify (fun s => s <| bitstream_restriction_flag := bit (Z.shiftr (tab (l_data pa) SPS_FLAGS2) 3) 1 |>)) R E s1.
Proof.
  intros Hmm H0 H1 Hs1 HR. set (act := (clip_active _, clip_active _)) in *. wp_step. wp_step. wp_step. apply (wp_mono _ (fun _ => preparing s s1) _ E); [| |done].
  { wp_step; [apply wp_modify|done]. by apply (preparing_flags s s1 s1 (dpb_error_flag s1) _ (bitstream_restriction_flag s1)). }
  intros [] s2 H2. cbv zeta. wp_step. apply wp_modify. set (s3 := s2 <| mSlice := _ |>). assert (preparing s s1 s3 ∧ num_ref_idx_active (mSlice s3) = act) as H3.
  { split; [apply preparing_slice; [done| |done]|done]. eapply slice_ok_same; [|apply H2]. done. }
  clearbody s3. wp_step. apply (wp_mono _ (fun _ s' => preparing s s1 s' ∧ num_ref_idx_active (mSlice s') = act) _ E); [| |done].
  { wp_step; [apply wp_modify|done]. destruct H3 as [H3 A3]. split; [|done]. by apply (preparing_flags s s1 s3 _ (h264_long_term_reference_flag s3) (bitstream_restriction_flag s3)). }
  intros [] s4 H4. wp_step. apply (wp_mono _ (fun _ s' => preparing s s1 s' ∧ num_ref_idx_active (mSlice s') = act) _ E); [| |done].
  { wp_step; [|done]. destruct H4 as [H4 A4]. destruct (mmco_read_ok _ Hmm 45 0 0 (marking_buffer (mSlice s1)) false) as (buf & a & -> & Hb); [lia|lia|lia|apply Hs1|].
    wp_step. cbn [of_option]. wp_step. apply wp_modify. split; [|done]. apply preparing_slice; [done| |done]. destruct (pg_slice _ _ _ H4). by split. }
  intros [] s5 [H5 A5]. wp_step. wp_step. wp_step. destruct (reordering_ok pa (mSlice s5) H0 H1 (pg_slice _ _ _ H5)) as (sl & -> & K & A & S).
  cbn [of_option]. wp_step. wp_step. apply wp_modify, wp_modify. apply HR; [|etrans; [exact A|exact A5]].
  apply (preparing_flags s s1 (s5 <| mSlice := sl |>) (dpb_error_flag s5) (h264_long_term_reference_flag s5)). by apply preparing_slice.
Qed.

Lemma slice_prepare_wp m s (R : unit → h264_dpb_stru → Prop) E : slice_ok (mSlice s) → regs_ok m (param s) → (∀ s', prepared m s s' → R tt s') → wp False slice_prepare R E s.
Proof.
  intros Hs [Hmm H0 H1 [Hr Hm] Hfn Hlsb Hact] HR. destruct (structure_of_ok m _ Hr Hm) as (st & Est & Hst). destruct (u32_one_shl _ Hfn) as (max & Emax & Hmax).
  unfold slice_prepare. wp_step. wp_step. wp_step. rewrite Est. cbn [of_option]. wp_step. wp_step. rewrite Emax. cbn [of_option]. wp_step.
  do 3 (wp_step; apply wp_modify). wp_step. wp_step. match goal with |- wp _ _ _ _ ?x => set (s1 := x) end.
  assert (slice_ok (mSlice s1) ∧ sl_structure (mSlice s1) = st) as [K1 S1].
  { destruct (prepare_slice_same (param s) st (mSlice s)) as [Hsame Est']. split; [by eapply slice_ok_same|done]. }
  assert (s1 = s <| mSPS := mSPS s1 |> <| mSlice := mSlice s1 |> <| mVideo := mVideo s1 |>) as E1 by (by destruct s).
  assert (sps_frame_mbs_only_flag (mSPS s1) = sps_frame_mbs_only_flag (mSPS s) ∧ log2_max_frame_num_minus4 (mSPS s1) = tab (l_data (param s)) LOG2_MAX_FRAME_NUM - 4 ∧
    log2_max_pic_order_cnt_lsb_minus4 (mSPS s1) = tab (l_data (param s)) LOG2_MAX_PIC_ORDER_CNT_LSB - 4) as (P1 & P2 & P3) by done.
  assert (same_ptrs (mVideo s) (mVideo s1) ∧ max_frame_num (mVideo s1) = max) as [V1 V2].
  { unfold s1, prepare_video. cbv zeta. cbn. case_match; done. }
  assert (preparing s s1 s1) as Hs1 by (split; [by destruct s|done|done]). apply (prepare_tail s s1 (param s)); try done. clear E1. clearbody s1.
  intros s' [G1 G2 G3] GA. assert (mSPS s' = mSPS s1 ∧ mVideo s' = mVideo s1) as [G4 G5] by (rewrite G1; by destruct s).
  apply HR. split; [rewrite G4, G5; done|congruence|by rewrite G5|]. split; rewrite ?G3, ?G4, ?G5, ?S1; [done| |done|lia|lia|congruence].
  unfold active_ok. rewrite GA. split; apply clip_active_ok; lia.
Qed.

Lemma ok_prepared fx m ex s s' : ok fx m ex s → prepared m s s' → ok fx m ex s'.
Proof.
  intros Hs [H1 H2 (H3 & H4 & H5) H6]. assert (m_PIC s' = m_PIC s ∧ mFrameStore s' = mFrameStore s ∧ mDPB s' = mDPB s ∧ colocated_buf_count s' = colocated_buf_count s ∧
    without_display_mode s' = without_display_mode s) as (E1 & E2 & E3 & E4 & E5) by (rewrite H1; by destruct s).
  apply (ok_slice fx m ex s); try done; try congruence; [apply H6|rewrite E4; apply (iv_colocated (proj1 Hs))|unfold fixed_of; congruence|].
  rewrite E3. by apply (ok_refs fx m ex).
Qed.

(** ** [decode_poc] *)

(** What the order counts leave alone in a slice. *)
Definition same_header (sl sl' : Slice) : Prop :=
  same_arrays sl sl' ∧ num_ref_idx_active sl' = num_ref_idx_active sl ∧ sl_structure sl' = sl_structure sl.

Definition same_video (v v' : VideoParameters) : Prop := same_ptrs v v' ∧ max_frame_num v' = max_frame_num v.

Lemma frame_num_offset_same v n : same_video v (frame_num_offset v n).
Proof. unfold frame_num_offset. cbv zeta. by destruct (last_has_mmco_5 v). Qed.

Lemma expected_poc_same sps v sl : same_video v (expected_poc sps v sl).
Proof. unfold expected_poc. cbv zeta. destruct (truth (AbsFrameNum sl)), (truth (nal_reference_idc sl)); done. Qed.

Lemma poc_case0_frame max v sl : same_video v (poc_case0 max v sl).1 ∧ same_header sl (poc_case0 max v sl).2.
Proof.
  unfold poc_case0. assert (same_video v (poc0_prev v sl)) as Hv by (unfold poc0_prev; destruct (sl_idr_flag sl); [done|by destruct (last_has_mmco_5 v)]).
  set (v1 := poc0_prev v sl) in *. clearbody v1. cbv zeta. cbn [fst snd]. split.
  - destruct (truth _); done.
  - destruct (negb (field_pic_flag _)); [done|]. destruct (negb (bottom_field_flag _)); done.
Qed.

Lemma poc_case1_frame sps v sl : same_video v (poc_case1 sps v sl).1 ∧ same_header sl (poc_case1 sps v sl).2.
Proof.
  unfold poc_case1. set (v1 := if sl_idr_flag sl then _ else _).
  assert (same_video v v1) as H1 by (unfold v1; destruct (sl_idr_flag sl); [done|apply frame_num_offset_same]). clearbody v1. cbv zeta.
  match goal with |- context [expected_poc sps v1 ?x] => set (sl1 := x) end. assert (same_header sl sl1) as S1 by done. clearbody sl1.
  pose proof (expected_poc_same sps v1 sl1) as H2. set (v2 := expected_poc sps v1 sl1) in *. clearbody v2. destruct (delta_pic_order_cnt sl1) as [d0 d1]. cbn [fst snd].
  split; [|destruct (negb (field_pic_flag sl1)); [done|]; destruct (negb (bottom_field_flag sl1)); done].
  destruct H1 as [(? & ? & ?) ?], H2 as [(? & ? & ?) ?]. split; [split_and!|]; cbn; congruence.
Qed.

Lemma poc_case2_frame v sl : same_video v (poc_case2 v sl).1 ∧ same_header sl (poc_case2 v sl).2.
Proof.
  unfold poc_case2. destruct (sl_idr_flag sl); [done|]. cbv zeta. pose proof (frame_num_offset_same v (sl_frame_num sl)) as H1.
  set (v1 := frame_num_offset v (sl_frame_num sl)) in *. clearbody v1. cbn [fst snd]. split; [done|].
  destruct (negb (field_pic_flag _)); [done|]. destruct (negb (bottom_field_flag _)); done.
Qed.

Lemma poc_of_frame sps v sl v' sl' : poc_of sps v sl = Some (v', sl') → same_video v v' ∧ same_header sl sl'.
Proof.
  unfold poc_of. destruct (MaxPicOrderCntLsb sps) as [max|]; [|done]. intros [= E].
  assert (∀ r : VideoParameters * Slice, r = (v', sl') → same_video v r.1 ∧ same_header sl r.2 → same_video v v' ∧ same_header sl sl') as Hr by (by intros r ->).
  apply (Hr _ E). destruct (_ =? 0); [apply poc_case0_frame|]. destruct (_ =? 1); [apply poc_case1_frame|]. destruct (_ =? 2); [apply poc_case2_frame|done].
Qed.

Lemma same_header_ok m s v sl : header_ok m s → same_video (mVideo s) v → same_header (mSlice s) sl → header_ok m (s <| mVideo := v |> <| mSlice := sl |>).
Proof.
  intros [H1 H2 H3 H4 H5 H6] [_ Hv] (A & B & C). split; cbn; try done; [by eapply slice_ok_same|unfold active_ok in *; by rewrite B|by rewrite C|by rewrite Hv].
Qed.

Lemma decode_poc_ok fx m ex s (R : unit → h264_dpb_stru → Prop) E : ok fx m ex s → header_ok m s →
  (∀ v sl, let s' := s <| mVideo := v |> <| mSlice := sl |> in ok fx m ex s' → header_ok m s' → same_header (mSlice s) sl → R tt s') → wp False decode_poc R E s.
Proof.
  intros Hs Hh HR. unfold decode_poc. wp_step. wp_step. destruct (iv_sps (proj1 Hs)) as [-> _]. wp_step. destruct (poc_of _ _ _) as [[v sl]|] eqn:Epoc.
  - cbn [of_option]. wp_step. apply wp_modify. destruct (poc_of_frame _ _ _ _ _ Epoc) as [Hv Hsl]. cbn [fst snd].
    pose proof (same_header_ok m s v sl Hh Hv Hsl) as Hh'. destruct Hv as [(E1 & E2 & E3) _]. apply HR; [|done|done].
    apply (ok_slice fx m ex s); try done; [apply Hh'|apply (iv_colocated (proj1 Hs))|unfold fixed_of; cbn; congruence|by apply (ok_refs fx m ex s)].
  - exfalso. unfold poc_of, MaxPicOrderCntLsb in Epoc. pose proof (ho_lsb _ _ Hh) as Hl. rewrite s32_id in Epoc by lia. cbv zeta in Epoc.
    by rewrite (proj2 (Z.leb_le _ _)), (proj2 (Z.ltb_lt _ _)) in Epoc by lia.
Qed.
