(* ===== verification/H264Start.v ===== *)
(** Starting the H.264 decoded picture buffer
    (src/drivers/frame_provider/decoder/h264_multi/h264_dpb.c):
    [dpb_init_global] and [init_dpb] set the invariant up. *)

From stdpp Require Import base list numbers.
From Stdlib Require Import ZArith Lia Bool.
From S2P Require Import Prelude H264Types H264Pool H264Slice H264Inv H264MarkOk H264PoolOk H264Fill H264DisplayOk H264Safe H264ListsOk H264HeaderOk.

#[local] Open Scope Z_scope.

(** ** Before and while the frame stores are set up *)

(** An empty frame store. *)
Definition empty_store (f : FrameStore) : Prop := f_is_used f = 0 ∧ own_store f = [] ∧ f_is_reference f = 0.

(** A picture that is not in use. *)
Definition idle (p : Z) (x : StorablePicture) : Prop := p_index x = p ∧ p_is_used x = false ∧ commands_ok x.

(** The first [n] places of [fs] have been set. *)
Record opened (m : bool) (n : Z) (s : h264_dpb_stru) : Prop := {
  op_pics : zlen (m_PIC s) = MAX_PIC_BUF_NUM + 1;
  op_idle : ∀ p x, 0 ≤ p < MAX_PIC_BUF_NUM → pic s p = Some x → idle p x;
  op_stores : zlen (mFrameStore s) = DPB_SIZE_MAX + 1;
  op_empty : ∀ k f, 0 ≤ k < DPB_SIZE_MAX → store s k = Some f → empty_store f;
  op_mbs : sps_frame_mbs_only_flag (mSPS s) = m;
  op_arrays : arrays_ok (mDPB s) ∧ zlen (fs (mDPB s)) = DPB_SIZE_MAX ∧ zlen (fs_ref (mDPB s)) = DPB_SIZE_MAX ∧ zlen (fs_ltref (mDPB s)) = DPB_SIZE_MAX;
  op_size : 0 ≤ size (mDPB s) ≤ DPB_SIZE_MAX;
  op_fs : ∀ j, 0 ≤ j < n → aget (fs (mDPB s)) j = Some (Some j);
  op_number : ∀ j f, 0 ≤ j < n → store s j = Some f → f_index f = j;
  op_counts : 0 ≤ max_reference_size s ≤ 32 ∧ 0 ≤ colocated_buf_count s ≤ 32;
  op_none : no_reference_picture (mVideo s) = None ∧ dec_picture (mVideo s) = None;
  op_slice : slice_ok (mSlice s)
}.

(** The buffer between [dpb_init_global] and [init_dpb]. *)
Definition fresh (m : bool) (s : h264_dpb_stru) : Prop := opened m 0 s ∧ init_done (mDPB s) = false ∧ used_size (mDPB s) = 0.

(** Nothing is in the buffer. *)
Definition cleared (s : h264_dpb_stru) : Prop :=
  used_size (mDPB s) = 0 ∧ ref_frames_in_buffer (mDPB s) = 0 ∧ ltref_frames_in_buffer (mDPB s) = 0 ∧ last_picture (mDPB s) = None ∧ active_sps (mVideo s) = true.

Lemma owned_empty l : (∀ k f, 0 ≤ k < DPB_SIZE_MAX → aget l k = Some f → empty_store f) → owned l = [].
Proof.
  intros H. unfold owned. assert (∀ f, f ∈ take (Z.to_nat DPB_SIZE_MAX) l → own_store f = []) as Hf.
  { intros f Hin. apply elem_of_take in Hin as (i & Hi & Hlt). apply (H (Z.of_nat i) f); [lia|]. by rewrite aget_nat. }
  induction (take _ l) as [|f t IH]; [done|]. cbn. rewrite (Hf f) by by left. apply IH. intros g Hg. apply Hf. by right.
Qed.

Lemma opened_inv m s : opened m (size (mDPB s)) s → cleared s → inv (fixed_of s) m [] None s.
Proof.
  intros [] (U1 & U2 & U3 & U4 & U5). destruct op_arrays0 as (A & A1 & A2 & A3). assert (owned (mFrameStore s) = []) as Hown by by apply owned_empty.
  split; try done.
  - intros p x Hp Hx. by apply op_idle0.
  - intros p x Hp Hx Hu. destruct (op_idle0 p x Hp Hx) as (_ & ? & _). congruence.
  - intros p x Hp Hx. by eapply op_idle0.
  - apply op_counts0.
  - split; [done|lia| |].
    + intros i Hi. exists i. split; [by apply op_fs0|lia].
    + intros i j k Hi Hj. rewrite !op_fs0 by lia. congruence.
  - intros k f Hk _ Hf. destruct (op_empty0 k f Hk Hf) as (-> & _ & _). split; [by intros []|]. intros (i & Hi & _). lia.
  - intros k f Hk _ Hf. destruct (op_empty0 k f Hk Hf) as (H1 & H2 & H3). split; [by left|lia|rewrite H3; by rewrite Z.land_0_l].
  - split; [done| | |by rewrite U4]; rewrite ?U2, ?U3; (split_and!; [done|done|done|intros; lia|apply NoDup_nil_2]).
  - intros i k f Hi Hk. rewrite op_fs0 in Hk by done. injection Hk as <-. by apply op_number0.
  - rewrite Hown. apply NoDup_nil_2.
  - rewrite Hown. intros p. split; [by intros ?%elem_of_nil|]. intros (x & Hp & Hx & Hu). destruct (op_idle0 p x Hp Hx) as (_ & ? & _). congruence.
Qed.

(** ** The loop of [init_dpb] *)

Definition opening (m : bool) (s0 : h264_dpb_stru) (n : Z) (s : h264_dpb_stru) : Prop :=
  opened m n s ∧ cleared s ∧ s = s0 <| mDPB := mDPB s |> <| mFrameStore := mFrameStore s |> ∧
  size (mDPB s) = size (mDPB s0) ∧ init_done (mDPB s) = init_done (mDPB s0).

Lemma opening_store m s0 n s k f f' : opening m s0 n s → store s k = Some f → empty_store f' → f_index f' = f_index f → opening m s0 n (store_set k f' s).
Proof.
  intros ([] & H2 & H3 & H4) Hf He Hnum. pose proof (aget_inv _ _ _ Hf) as [Hk _]. split; [|split; [done|]; split; [rewrite H3; by destruct s|done]].
  split; try done; [cbn; by rewrite zlen_insert| |]; intros j g Hj Hg; destruct (decide (k = j)) as [->|Hne].
  - rewrite (store_set_eq j f' f) in Hg by done. by simplify_eq.
  - rewrite store_set_ne in Hg by (try done; lia). by eapply op_empty0.
  - rewrite (store_set_eq j f' f) in Hg by done. simplify_eq. rewrite Hnum. by apply op_number0.
  - rewrite store_set_ne in Hg by (try done; lia). by apply op_number0.
Qed.

Lemma opening_arrays m s0 n s l lt : opening m s0 n s → zlen l = DPB_SIZE_MAX → zlen lt = DPB_SIZE_MAX →
  opening m s0 n (s <| mDPB := (mDPB s) <| fs_ref := l |> <| fs_ltref := lt |> |>).
Proof.
  intros ([] & H2 & H3 & H4) Hl Hlt. split; [|split; [done|]; split; [rewrite H3; by destruct s|done]]. split; try done.
  destruct op_arrays0 as (A & B & _). by split_and!.
Qed.

(** The next place of [fs] gets its frame store, which gets its number. *)
Lemma opening_fs m s0 n s f : opening m s0 n s → 0 ≤ n < DPB_SIZE_MAX → store s n = Some f →
  opening m s0 (n + 1) (store_set n (f <| f_index := n |>) (with_fs (<[Z.to_nat n := Some n]> (fs (mDPB s))) s)).
Proof.
  intros ([] & H2 & H3 & H4) Hn Hf. split; [|split; [done|]; split; [rewrite H3; by destruct s|done]]. destruct op_arrays0 as (A & B & C & F). split; try done.
  - cbn. by rewrite zlen_insert.
  - intros k g Hk Hg. destruct (decide (n = k)) as [->|Hne]; [rewrite (store_set_eq k _ f) in Hg by done; simplify_eq; by apply (op_empty0 k f)|].
    rewrite store_set_ne in Hg by (try done; lia). by eapply op_empty0.
  - cbn. rewrite zlen_insert. by split_and!.
  - intros j Hj. cbn. destruct (decide (n = j)) as [->|Hne]; [rewrite aget_insert by lia; done|]. rewrite aget_insert_ne by lia. apply op_fs0. lia.
  - intros j g Hj Hg. destruct (decide (n = j)) as [->|Hne]; [rewrite (store_set_eq j _ f) in Hg by done; by simplify_eq|].
    rewrite store_set_ne in Hg by (try done; lia). apply (op_number0 j g); [lia|done].
Qed.

Lemma opening_upd_fs m s0 n s i g (R : unit → h264_dpb_stru → Prop) E : opening m s0 n s → 0 ≤ i < DPB_SIZE_MAX → (∀ f, empty_store f → empty_store (g f)) → (∀ f, f_index (g f) = f_index f) →
  (∀ s', opening m s0 n s' → R tt s') → wp False (upd_fs (Some i) g) R E s.
Proof.
  intros Hs Hi Hg Hnum HR. pose proof (op_stores _ _ _ (proj1 Hs)) as Hl. destruct (aget_Some (mFrameStore s) i) as [f Hf]; [lia|]. eapply upd_fs_wp; [done|]. apply HR.
  eapply opening_store; [done|done| |done]. by apply Hg, (op_empty _ _ _ (proj1 Hs) i).
Qed.

Lemma init_fs_ok m s0 n s (R : unit → h264_dpb_stru → Prop) E : opening m s0 n s → 0 ≤ n < DPB_SIZE_MAX → (∀ s', opening m s0 (n + 1) s' → R tt s') →
  wp False (init_fs n) R E s.
Proof.
  intros Hs Hn HR. unfold init_fs. wp_step. apply set_fs_wp; [destruct (op_arrays _ _ _ (proj1 Hs)) as (_ & -> & _); lia|].
  destruct (aget_Some (mFrameStore s) n) as [f Hf]; [rewrite (op_stores _ _ _ (proj1 Hs)); lia|]. wp_step. eapply upd_fs_wp; [exact Hf|]. eapply opening_fs in Hs; [|done|done].
  set (s2 := store_set n _ _) in *. clearbody s2. clear Hf f. wp_step. wp_step. rename Hs into H2.
  destruct (op_arrays _ _ _ (proj1 H2)) as (_ & _ & L1 & L2). wp_step. rewrite aset_Some by lia. cbn [of_option]. wp_step. wp_step. rewrite aset_Some by lia. cbn [of_option]. wp_step.
  wp_step. apply wp_modify. eapply opening_upd_fs; [|done|by intros f|done|done]. apply opening_arrays; [done|by rewrite zlen_insert..].
Qed.

(** ** [init_dpb] *)

(** The buffer is initialised and holds nothing but the picture for missing
    references. *)
Definition started (m : bool) (s0 s : h264_dpb_stru) : Prop :=
  ∃ q, ok (mk_fixed (without_display_mode s0) true None (Some q)) m [q] s ∧ mSlice s = mSlice s0 ∧ mSPS s = mSPS s0 ∧ max_frame_num (mVideo s) = max_frame_num (mVideo s0).

Lemma init_no_reference_ok m s0 s (R : unit → h264_dpb_stru → Prop) E : opening m s0 (size (mDPB s)) s → no_reference_picture (mVideo s) = None → dec_picture (mVideo s) = None →
  (∀ q s', ok (mk_fixed (without_display_mode s0) (init_done (mDPB s)) None (Some q)) m [q] s' → mSlice s' = mSlice s0 → mSPS s' = mSPS s0 →
    max_frame_num (mVideo s') = max_frame_num (mVideo s0) → R tt s') → wp False init_no_reference R E s.
Proof.
  intros (Ho & Hc & Hst & Hsz & _) Hno Hdec HR. pose proof (opened_inv m s Ho Hc) as HI.
  assert (mSlice s = mSlice s0 ∧ mSPS s = mSPS s0 ∧ mVideo s = mVideo s0 ∧ without_display_mode s = without_display_mode s0) as (E1 & E2 & E3 & E4) by (rewrite Hst; by destruct s0).
  unfold init_no_reference. wp_step. wp_step. rewrite Hno, bool_decide_eq_true_2 by done. wp_step; [|done].
  wp_step. eapply get_new_pic_wp; [done|cbn; lia|]. intros p x Hp Hx Hu _ HI'. set (s1 := pic_set p (fresh_pic FRAME m x) s) in *.
  assert (pic s1 p = Some (fresh_pic FRAME m x)) as Hx1 by by eapply pic_set_eq.
  assert (fixed_of s1 = fixed_of s ∧ mSlice s1 = mSlice s0 ∧ mSPS s1 = mSPS s0 ∧ mVideo s1 = mVideo s) as (F1 & F2 & F3 & F4) by done. clearbody s1.
  wp_step. apply wp_modify. apply (inv_video _ m [p] s1 ((mVideo s1) <| no_reference_picture := Some p |>)) in HI'; [|done].
  eapply upd_pic_wp; [exact Hx1|]. apply (HR p); [|exact F2|exact F3|cbn; by rewrite F4, E3]. split.
  - replace (mk_fixed _ _ _ _) with (mk_fixed (x_display (fixed_of s)) (x_init (fixed_of s)) (dec_picture (mVideo s1)) (Some p)) by (cbn; by rewrite F4, Hdec, E4).
    eapply inv_steady; [exact HI'|apply (steady_pic p (fresh_pic FRAME m x)); [exact Hx1|]|exact (iv_refs HI')].
    generalize (fresh_pic FRAME m x). intros y. by split.
  - intros q Hq. apply list_elem_of_singleton in Hq as ->. eexists. split; [by eapply pic_set_eq|done].
Qed.

Lemma init_dpb_ok m s (R : unit → h264_dpb_stru → Prop) E : fresh m s → (∀ s', started m s s' → R tt s') → wp False init_dpb R E s.
Proof.
  intros (Ho & Hi & _) HR. unfold init_dpb. wp_step. apply wp_modify. wp_step. wp_step. wp_step. wp_step; [change (init_done (mDPB s) = true) in H; congruence|].
  wp_step. apply wp_modify. set (s1 := _ <| mDPB := _ |>).
  assert (opening m s1 0 s1 ∧ no_reference_picture (mVideo s1) = None ∧ dec_picture (mVideo s1) = None) as (H1 & Hno & Hdec).
  { destruct Ho as []. split; [|done]. split; [|split; [done|split; [done|done]]]. by split. }
  assert (mSlice s1 = mSlice s ∧ mSPS s1 = mSPS s ∧ max_frame_num (mVideo s1) = max_frame_num (mVideo s) ∧ without_display_mode s1 = without_display_mode s ∧
    size (mDPB s1) = size (mDPB s) ∧ init_done (mDPB s1) = false ∧ 0 ≤ size (mDPB s1) ≤ DPB_SIZE_MAX) as (E1 & E2 & E3 & E4 & E5 & E6 & E7).
  { split_and!; try done; apply Ho. }
  change (size (mDPB _)) with (size (mDPB s1)). pose proof (op_counts _ _ _ Ho) as [Hmax _]. clearbody s1. wp_step.
  apply (wp_for_range _ _ _ (fun i s' => opening m s1 i s')); [done| |].
  { intros i s' Hr Hs'. eapply init_fs_ok; [done|lia|done]. }
  intros s2 H2. rewrite Z.max_r in H2 by lia. pose proof H2 as (Ho2 & _ & Hst & Hsz & Hin). assert (mVideo s2 = mVideo s1) as Hv by (rewrite Hst; by destruct s1).
  rewrite <- Hsz in H2. wp_step. apply (init_no_reference_ok m s1); [done|by rewrite Hv..|]. intros q s3 H3 F1 F2 F3. rewrite Hin, E6 in H3. clear H2 Ho2 Hst Hsz Hin Hv s2.
  wp_step. eapply upd_dpb_ok; [exact H3|done|done|done|intros d Hd; by apply (refs_same d); [..|left| |]|]. intros H4.
  wp_step. eapply upd_video_ok; [exact H4|done|]. intros H5.
  destruct H5 as [HI Hst]. wp_step. unfold init_colocate_buf. apply wp_modify, wp_modify, HR. exists q. split; [split; [|exact Hst]|split; [|split]; cbn; congruence].
  rewrite <- E4. refine (inv_init _ m [q] _ true 0 (u32 (max_reference_size s)) HI _). rewrite u32_id; lia.
Qed.

(** ** [dpb_init_global] *)

Lemma grid_repeat {A} n k (a : A) : grid (Z.of_nat n) (Z.of_nat k) (repeat (repeat a k) n).
Proof. split; [unfold zlen; by rewrite repeat_length|]. intros l Hl. apply list_elem_of_In, repeat_spec in Hl as ->. unfold zlen. by rewrite repeat_length. Qed.

Lemma zero_slice_ok : slice_ok zero_slice.
Proof.
  split; try done.
  - split; [done|]. intros i c j Hc. apply aget_inv in Hc as [_ Hc]. apply list_elem_of_lookup_2, list_elem_of_In, (repeat_spec 45 zero_drpm) in Hc as ->. done.
  - apply (grid_repeat 6 66).
  - intros x l p _ Hl Hin. apply aget_inv in Hl as [_ Hl]. apply list_elem_of_lookup_2, list_elem_of_In, (repeat_spec 6 (repeat None 66)) in Hl as ->.
    by apply list_elem_of_In, (repeat_spec 66 None) in Hin.
  - apply (grid_repeat 2 33).
  - apply (grid_repeat 2 33).
  - apply (grid_repeat 2 33).
Qed.

Lemma dpb_init_global_ok actual max_ref s (R : unit → h264_dpb_stru → Prop) E : zlen (m_PIC s) = MAX_PIC_BUF_NUM + 1 → zlen (mFrameStore s) = DPB_SIZE_MAX + 1 →
  0 ≤ actual ≤ DPB_SIZE_MAX → 0 ≤ max_ref ≤ 32 → 0 ≤ colocated_buf_count s ≤ 32 → (∀ s', fresh false s' → without_display_mode s' = without_display_mode s → R tt s') →
  wp False (dpb_init_global actual max_ref) R E s.
Proof.
  intros Hp Hf Ha Hm Hc HR. unfold dpb_init_global. wp_step. apply wp_modify. wp_step. apply wp_modify. wp_step. apply wp_modify. apply wp_modify. apply HR; [|done].
  assert (zlen (m_PIC (init_dummy_fs s)) = MAX_PIC_BUF_NUM + 1 ∧ zlen (mFrameStore (init_dummy_fs s)) = DPB_SIZE_MAX + 1) as [Hp1 Hf1].
  { unfold zlen in *. cbn. by rewrite !length_alter. }
  assert (colocated_buf_count (init_dummy_fs s) = colocated_buf_count s) as Hc1 by done. set (s1 := init_dummy_fs s) in *. clearbody s1.
  set (n := Z.to_nat MAX_PIC_BUF_NUM) in *. set (d := Z.to_nat DPB_SIZE_MAX) in *.
  assert (∀ {A} (l k : list A) m, length l = m → ∀ i a, 0 ≤ i < Z.of_nat m → aget (l ++ k) i = Some a → l !! Z.to_nat i = Some a) as Hl.
  { intros A l k m <- i a Hi [_ Ha']%aget_inv. by rewrite lookup_app_l in Ha' by lia. }
  split; [|done]. split; try done.
  - unfold zlen in *. cbn -[n d]. rewrite length_app, length_imap, repeat_length, length_drop. unfold n, d, MAX_PIC_BUF_NUM in *. lia.
  - intros p x Hr Hx. apply (Hl _ _ _ n) in Hx; [|by rewrite length_imap, repeat_length|unfold n; lia]. rewrite list_lookup_imap in Hx. apply fmap_Some in Hx as (u & Hu & ->).
    split; [cbn; lia|done].
  - unfold zlen in *. cbn -[n d]. rewrite length_app, repeat_length, length_drop. unfold n, d, DPB_SIZE_MAX in *. lia.
  - intros k f Hr Hx. apply (Hl _ _ _ d) in Hx; [|by rewrite repeat_length|unfold d; lia]. apply list_elem_of_lookup_2, list_elem_of_In, repeat_spec in Hx as ->. done.
  - intros j Hj. lia.
  - intros j f Hj. lia.
  - cbn. by rewrite Hc1.
  - apply zero_slice_ok.
Qed.
