(* ===== verification/H264NewPic.v ===== *)
(** A new picture (src/drivers/frame_provider/decoder/h264_multi/h264_dpb.c,
    [h264_slice_header_process]): its number, its buffers and its place are
    found without leaving any array, and [h264_slice_header_process] as a whole
    keeps the invariant. *)

From stdpp Require Import base list numbers sorting gmap.
From Stdlib Require Import ZArith Lia Bool.
From S2P Require Import Prelude H264Types H264Poc H264Pool H264Slice H264Mark H264Lists H264Header H264Inv H264MarkOk H264PoolOk H264Fill H264DisplayOk H264Safe.
From S2P Require Import H264ListsOk H264ListsB H264Reorder H264Regs H264HeaderOk H264Start.

#[local] Open Scope Z_scope.

(** ** [update_pic_num] *)

Section Number.
Context (fx : fixed) (m : bool) (ex : list Z) (s0 : h264_dpb_stru) (I : inv fx m ex None s0).
Implicit Types (s : h264_dpb_stru) (E : Z → h264_dpb_stru → Prop).
Notation keptd := (keptd s0).

Lemma number_field_kept d s b o g (R : flow → h264_dpb_stru → Prop) E : keptd d s → good s o → (∀ x, le_pic x (g x)) → (∀ r s', keptd d s' → R r s') →
  wp False (number_field b o g) R E s.
Proof.
  intros Hs Hg Hle HR. unfold number_field. wp_step; [|wp_step; by apply HR]. eapply (non_null_wp s0 d); [done|intros; by apply HR|]. intros p ->.
  wp_step. eapply (upd_pic_kept s0 d); [done|done|done|]. intros s1 H1. wp_step. by apply HR.
Qed.

Lemma number_fields_kept d s b1 b2 o1 o2 g1 g2 (R : unit → h264_dpb_stru → Prop) E : keptd d s → good s o1 → good s o2 → (∀ x, le_pic x (g1 x)) → (∀ x, le_pic x (g2 x)) →
  (∀ s', keptd d s' → R tt s') → wp False (_ ← flow_seq (number_field b1 o1 g1) (number_field b2 o2 g2); mret tt) R E s.
Proof.
  intros Hs G1 G2 L1 L2 HR. wp_step. apply flow_seq_wp. eapply number_field_kept; [done|done|done|]. intros r s1 H1.
  destruct r; [|wp_step; by apply HR..]. eapply number_field_kept; [done|by eapply (good_samed s0 d d s s1)|done|]. intros r s2 H2. wp_step. by apply HR.
Qed.

Lemma error_flag_kept d s (R : unit → h264_dpb_stru → Prop) E : keptd d s → (∀ s', keptd d s' → R tt s') → wp False error_flag R E s.
Proof.
  intros [[H1 H2] Hd] HR. apply wp_modify, HR. split; [|done]. split; [|done]. etrans; [done|]. split; try done; intros ? a Ha; by exists a.
Qed.

Lemma number_short_kept d s cur max st i (R : unit → h264_dpb_stru → Prop) E : keptd d s → 0 ≤ i < ref_frames_in_buffer d → (∀ s', keptd d s' → R tt s') →
  wp False (number_short cur max st i) R E s.
Proof.
  intros Hs Hi HR. destruct (keptd_ref fx m ex s0 I d s i Hs Hi) as (k & Hk & Hkr). unfold number_short. wp_step. eapply ptr_wp; [done|]. cbv beta iota.
  destruct (keptd_store fx m ex s0 I d s k Hs Hkr) as (f & Hf & _ & G1 & G2 & G3). wp_step. eapply fs_at_wp; [done|].
  assert (∀ wrap (R1 : unit → h264_dpb_stru → Prop), (∀ s', keptd d s' → R1 tt s') → wp False (upd_fs (Some k) (fun f => f <| f_frame_num_wrap := wrap |>)) R1 E s) as Hwrap.
  { intros wrap R1 HR1. eapply (upd_fs_kept fx m ex s0 I d); [done|done| |done]. by intros g. }
  assert (∀ add1 add2, wp False (when (truth (f_is_reference f)) (let wrap := wrap_num (f_frame_num f) cur max in
     upd_fs (Some k) (fun f => f <| f_frame_num_wrap := wrap |>);;
     _ ← flow_seq (number_field (bit (f_is_reference f) 1) (f_top_field f) (fun p => p <| p_pic_num := s32 (2 * wrap + add1) |>))
             (number_field (bit (f_is_reference f) 2) (f_bottom_field f) (fun p => p <| p_pic_num := s32 (2 * wrap + add2) |>)); mret tt)) R E s) as Hfields.
  { intros. wp_step; [|by apply HR]. cbv zeta. wp_step. apply Hwrap. intros s1 H1.
    eapply number_fields_kept; [done|by eapply (good_samed s0 d d s s1)|by eapply (good_samed s0 d d s s1)|done|done|done]. }
  destruct st; [|apply Hfields..]. destruct (f_frame f) as [p|] eqn:Ep; [|by eapply error_flag_kept]. wp_step; [|by apply HR]. destruct (G1 p) as [x Hx]; [done|].
  wp_step. eapply pic_at_wp; [done|]. wp_step; [|by apply HR]. cbv zeta. wp_step. apply Hwrap. intros s1 H1.
  eapply (upd_pic_kept s0 d); [done|by eapply (good_samed s0 d d s s1)|done|done].
Qed.

Lemma number_long_kept d s st i (R : unit → h264_dpb_stru → Prop) E : keptd d s → 0 ≤ i < ltref_frames_in_buffer d → (∀ s', keptd d s' → R tt s') →
  wp False (number_long st i) R E s.
Proof.
  intros Hs Hi HR. destruct (keptd_ltref fx m ex s0 I d s i Hs Hi) as (k & Hk & Hkr). unfold number_long. wp_step. eapply ptr_wp; [done|]. cbv beta iota.
  destruct (keptd_store fx m ex s0 I d s k Hs Hkr) as (f & Hf & _ & G1 & G2 & G3). wp_step. eapply fs_at_wp; [done|].
  destruct st; [|eapply number_fields_kept; [done|done|done|done|done|done]..]. destruct (f_frame f) as [p|] eqn:Ep; [|by eapply error_flag_kept]. wp_step; [|by apply HR].
  eapply (upd_pic_kept s0 d); [done|done| |done]. intros x. by destruct (p_is_long_term x).
Qed.

Lemma update_pic_num_kept (R : unit → h264_dpb_stru → Prop) E : 0 ≤ log2_max_frame_num_minus4 (mSPS s0) + 4 < 32 → (∀ s', kept s0 s' → R tt s') →
  wp False update_pic_num R E s0.
Proof.
  intros Hn HR. unfold update_pic_num. wp_step. wp_step. destruct (iv_sps I) as [-> _]. cbv zeta. rewrite s32_id by lia.
  rewrite (proj2 (Z.ltb_ge _ _)), (proj2 (Z.leb_gt _ _)) by lia. cbn [orb]. set (d := mDPB s0).
  assert (keptd d s0) as H0 by (split; [by eapply kept_start|done]). wp_step. apply (wp_for_range _ _ _ (fun _ => keptd d)); [done| |].
  - intros i s Hi Hs. by apply (number_short_kept d).
  - intros s1 H1. apply (wp_for_range _ _ _ (fun _ => keptd d)); [done| |intros s2 [H2 _]; by apply HR]. intros i s Hi Hs. by apply (number_long_kept d).
Qed.
End Number.

(** ** The new picture *)

Section Setup.
Context (fx : fixed) (m : bool) (ex : list Z) (p : Z) (sl : Slice).
Context `{H264Driver}.
Implicit Types (s : h264_dpb_stru) (E : Z → h264_dpb_stru → Prop).

(** The picture is the caller's, and has the structure of the slice. *)
Definition mid s : Prop :=
  ok fx m (p :: ex) s ∧ mSlice s = sl ∧ (∀ x, pic s p = Some x → p_structure x = sl_structure sl) ∧ 0 ≤ log2_max_frame_num_minus4 (mSPS s) + 4 < 32.

Lemma new_in : p ∈ p :: ex.
Proof. left. Qed.

Lemma upd_mid s g (R : unit → h264_dpb_stru → Prop) E : mid s → (∀ x, commands_ok x → le_pic x (g x)) → (∀ s', mid s' → R tt s') → wp False (upd_pic (Some p) g) R E s.
Proof.
  intros (Hs & Hsl & Hst & Hn) Hg HR. eapply (upd_pic_ok fx m (p :: ex) (mDPB s)); [by split|apply new_in|done|]. intros x Hx [H1 _]. apply HR.
  split; [done|]. split; [done|]. split; [|done].
  intros y Hy. rewrite (pic_set_eq p (g x) x) in Hy by done. simplify_eq. rewrite (lp_structure x); [by apply Hst|]. apply Hg. apply (ex_commands fx m (p :: ex) s p x); [done|apply new_in|done].
Qed.

Lemma pic_at_mid s (R : StorablePicture → h264_dpb_stru → Prop) E : mid s → (∀ x, pic s p = Some x → p_structure x = sl_structure sl → R x s) → wp False (pic_at (Some p)) R E s.
Proof. intros (Hs & _ & Hst & _) HR. eapply (pic_at_ok fx m (p :: ex)); [done|apply new_in|]. intros x Hx. by apply HR, Hst. Qed.

Lemma mid_same s s' : mid s → s' = s <| buf_alloc_fail := buf_alloc_fail s' |> <| colocated_buf_map := colocated_buf_map s' |> <| events := events s' |> → mid s'.
Proof.
  intros (Hs & Hsl & Hst & Hn) E. rewrite E. split; [|done]. apply (ok_same fx m (p :: ex) s); try done. exact (ok_refs fx m (p :: ex) s Hs).
Qed.

Lemma log_mid s e (R : unit → h264_dpb_stru → Prop) E : mid s → (∀ s', mid s' → R tt s') → wp False (log e) R E s.
Proof. intros Hs HR. apply wp_modify, HR. apply (mid_same s); [done|by destruct s]. Qed.

Lemma fail_mid s (R : unit → h264_dpb_stru → Prop) E : mid s → (∀ s', mid s' → R tt s') → wp False (modify (fun s => s <| buf_alloc_fail := true |>)) R E s.
Proof. intros Hs HR. apply wp_modify, HR. apply (mid_same s); [done|by destruct s]. Qed.

Lemma update_pic_num_mid s (R : unit → h264_dpb_stru → Prop) E : mid s → (∀ s', mid s' → R tt s') → wp False update_pic_num R E s.
Proof.
  intros (Hs & Hsl & Hst & Hn) HR. eapply (update_pic_num_kept fx m (p :: ex)); [apply Hs|done|]. intros s' Hk. apply HR. split; [by eapply (ok_kept fx m (p :: ex))|].
  pose proof (proj1 Hk) as Hsd. split; [by rewrite (sd_slice Hsd)|]. split; [|by rewrite (sd_sps Hsd)]. intros x Hx. destruct (sd_pic_inv _ _ _ _ Hsd Hx) as (y & Hy & L). rewrite (lp_structure _ _ L). by apply Hst.
Qed.

Lemma colocate_scan_ok n : ∀ map i, 0 ≤ i → i + Z.of_nat n ≤ 32 → ∃ r, colocate_scan n map i = Some r.
Proof.
  induction n as [|n IH]; intros map i Hi Hn; cbn [colocate_scan]; [by exists i|]. rewrite (proj2 (Z.leb_gt _ _)) by lia. case_match; [by exists i|]. apply IH; lia.
Qed.

Lemma allocate_mid s (R : Z → h264_dpb_stru → Prop) E : mid s → (∀ c s', mid s' → R c s') → wp False allocate_colocate_buf R E s.
Proof.
  intros Hs HR. unfold allocate_colocate_buf. wp_step. wp_step. pose proof (iv_colocated (proj1 (proj1 Hs))) as Hc.
  destruct (colocate_scan_ok (Z.to_nat (colocated_buf_count s)) (colocated_buf_map s) 0) as [i Hi]; [lia|lia|]. rewrite Hi. wp_step. cbn [of_option]. wp_step.
  wp_step; [wp_step; by apply HR|]. wp_step. apply wp_modify. wp_step. apply HR. apply (mid_same s); [done|by destruct s].
Qed.

Lemma le_alloc n b x : le_pic x (x <| p_buf_spec_num := n |> <| p_buf_spec_is_alloced := b |>).
Proof. by split. Qed.

Lemma alloc_buffers_mid s (R : unit → h264_dpb_stru → Prop) E : mid s → (∀ s', mid s' → R tt s') → wp False (alloc_buffers (Some p)) R E s.
Proof.
  intros Hs HR. unfold alloc_buffers. wp_step. wp_step. cbv zeta. wp_step. apply log_mid; [done|]. intros s1 H1. wp_step. apply upd_mid; [done|by split|]. intros s2 H2.
  assert (∀ s3, mid s3 → wp False (x ← pic_at (Some p);
    when (p_used_for_reference x) (c ← allocate_colocate_buf;
     upd_pic (Some p) (fun p => p <| p_colocated_buf_index := c |>);;
     if c <? 0 then modify (fun s => s <| buf_alloc_fail := true |>);; upd_pic (Some p) (fun p => p <| p_col_buf_is_alloced := false |>)
     else upd_pic (Some p) (fun p => p <| p_col_buf_is_alloced := true |>))) R E s3) as Hrest.
  { intros s3 H3. wp_step. apply pic_at_mid; [done|]. intros x Hx _. wp_step; [|by apply HR]. wp_step. apply allocate_mid; [done|]. intros c s4 H4.
    wp_step. apply upd_mid; [done|by split|]. intros s5 H5. wp_step; [wp_step; apply fail_mid; [done|]; intros s6 K6|]; (apply upd_mid; [done|by split|done]). }
  wp_step. apply (wp_mono _ (fun _ => mid) _ E); [|intros []; apply Hrest|done].
  wp_step; [wp_step; apply fail_mid; [done|]; intros s3 K3|]; (apply upd_mid; [done|by split|done]).
Qed.

Lemma check_same_pic_num_mid s (R : unit → h264_dpb_stru → Prop) E : mid s → (∀ s', mid s' → R tt s') → wp False (check_frame_store_same_pic_num (Some p)) R E s.
Proof.
  intros Hs HR. unfold check_frame_store_same_pic_num. wp_step. wp_step. destruct (last_picture (mDPB s)) as [k|] eqn:Ek; [|wp_step; by apply HR].
  destruct (ok_store _ _ _ _ k (proj1 Hs) (ok_last _ _ _ _ _ (proj1 Hs) Ek)) as (f & Hf & Hsh). wp_step. eapply fs_at_wp; [done|]. wp_step. apply pic_at_mid; [done|]. intros x Hx Hstx.
  wp_step; [|by apply HR]. unfold second_field_of in *. bprop.
  assert (∀ s1 q (R1 : StorablePicture → h264_dpb_stru → Prop), mid s1 → q ∈ own_store f → (∀ y, R1 y s1) → wp False (pic_at (Some q)) R1 E s1) as Hpic.
  { intros s1 q R1 K1 Hq HR1. destruct (store_pics fx m (p :: ex) s (proj1 (proj1 Hs)) s k f q (kept_start _ _ _ _ (proj1 (proj1 Hs))) (ok_last _ _ _ _ _ (proj1 Hs) Ek) Hf Hq) as (_ & Hr & _).
    destruct (aget_Some (m_PIC s1) q) as [y Hy]; [rewrite (iv_pics (proj1 (proj1 K1))); lia|]. by eapply pic_at_wp. }
  destruct Hsh as [Hpics _ _]. wp_step. apply upd_mid; [done|by split|]. intros s1 K1. wp_step. wp_step. rewrite (proj1 (proj2 K1)), <- Hstx. wp_step.
  apply (wp_mono _ (fun _ => mid) _ E); [|intros [] s2 K2; apply upd_mid; [done|by split|done]|done].
  match goal with Hor : _ || _ = true |- _ => rename Hor into Hfield end. destruct (p_structure x); [by vm_compute in Hfield|..]; cbn in Hfield; rewrite ?orb_false_r in Hfield; apply Z.eqb_eq in Hfield;
    change (is_eq TOP_FIELD TOP_FIELD) with true; change (is_eq BOTTOM_FIELD TOP_FIELD) with false; cbv iota;
    destruct Hpics as [(E0 & _)|[(_ & E0 & _ & [t Ht] & _)|[(_ & E0 & _ & _ & [t Ht])|(E0 & _)]]]; try (exfalso; congruence); rewrite Ht; wp_step;
    (apply Hpic; [done|unfold own_store; rewrite Ht; set_solver|]); intros y; (apply upd_mid; [done|by split|done]).
Qed.

Lemma le_init_picture sl' x : commands_ok x → le_pic x (init_picture sl' x).
Proof.
  intros Hx. unfold init_picture. cbv zeta. assert (∀ y, p_index y = p_index x → p_is_used y = p_is_used x → p_structure y = p_structure x →
    p_frame_mbs_only_flag y = p_frame_mbs_only_flag x → p_dec_ref_pic_marking_buffer y = Some 0 → le_pic x y) as Hle.
  { intros y E1 E2 E3 E4 E5. split; try done. unfold commands_ok. rewrite E5. split; [done|]. intros _ c [= <-]. done. }
  case_match; by apply Hle.
Qed.

(** [false]: there is no buffer for the picture. *)
Lemma setup_mid s (R : bool → h264_dpb_stru → Prop) E : mid s → (∀ b s', mid s' → R b s') → wp False (setup_picture (Some p)) R E s.
Proof.
  intros Hs HR. unfold setup_picture. wp_step. wp_step. wp_step. apply upd_mid; [done|apply le_init_picture|]. intros s1 K1. cbv zeta. wp_step. apply upd_mid; [done|by split|].
  intros s2 K2. wp_step. apply update_pic_num_mid; [done|]. intros s3 K3. wp_step. apply (wp_mono _ (fun _ => mid) _ E); [| |done].
  { wp_step; [|done]. by apply check_same_pic_num_mid. }
  intros [] s4 K4. wp_step. apply pic_at_mid; [done|]. intros x Hx _. wp_step. apply (wp_mono _ (fun _ => mid) _ E); [| |done].
  { wp_step; [|done]. by apply alloc_buffers_mid. }
  intros [] s5 K5. wp_step. wp_step. wp_step; [wp_step; by apply HR|]. wp_step. apply pic_at_mid; [done|]. intros y Hy _. wp_step. apply log_mid; [done|]. intros s6 K6. wp_step. by apply HR.
Qed.
End Setup.

(** ** [h264_slice_header_process] *)

(** The buffer between operations: initialised, and the pictures in use that
    belong to no frame store are the one that is being decoded and the one for
    missing references. *)
Definition held (dec noref : option Z) : list Z := opt_list dec ++ opt_list noref.

Definition live (wdm m : bool) (dec : option Z) (s : h264_dpb_stru) : Prop := ∃ q, ok (mk_fixed wdm true dec (Some q)) m (held dec (Some q)) s.

Section Header.
Context (wdm m : bool) `{H264Driver}.
Implicit Types (s : h264_dpb_stru) (E : Z → h264_dpb_stru → Prop).

Lemma started_live s0 s : started m s0 s → live (without_display_mode s0) m None s.
Proof. intros (q & Hq & _). by exists q. Qed.

Lemma live_noref dec s : live wdm m dec s → ptr_ok (no_reference_picture (mVideo s)).
Proof.
  intros (q & HI & _) p Hp. pose proof (f_equal x_noref (iv_fixed HI)) as Hno. cbn in Hno. rewrite Hno in Hp. injection Hp as <-.
  assert (q ∈ owned (mFrameStore s) ++ held dec (Some q)) as Hin by (unfold held; set_solver). apply (iv_own_used HI) in Hin as (_ & Hr & _). lia.
Qed.

(** The lists are built, and [k] follows. *)
Definition build_lists {A} (sl : Slice) (k : D A) : D A :=
  match sl_slice_type sl with
  | P_SLICE => init_lists_p_slice
  | B_SLICE => init_lists_b_slice
  | _ => init_lists_i_slice
  end;;
  reorder_lists;;
  (when (is_eq (sl_structure sl) FRAME) init_mbaff_lists);;
  k.

Lemma build_lists_view {A} (k : D A) fx ex s c (R : A → h264_dpb_stru → Prop) E : ok fx m ex s → active_ok (mSlice s) → ptr_ok (no_reference_picture (mVideo s)) → lists_ok c →
  (∀ c', lists_ok c' → wp False k R E (view s c')) → wp False (build_lists (mSlice s) k) R E (view s c).
Proof.
  intros Hs Hact Hno Hc HR. unfold build_lists. wp_step. apply (wp_mono _ (fun _ s' => ∃ c', sized c' ∧ s' = view s c') _ E); [| |done].
  - pose proof Hact as [Ha0 Ha1]. unfold MAX_LIST_SIZE in Ha0, Ha1. assert (∀ x Lst n c', final_list s x Lst n c' → 1 ≤ n < 33 → 0 ≤ get_n x c' < MAX_LIST_SIZE) as Hfl.
    { intros x Lst n c' [Hn _ _] Hr. rewrite Hn. unfold MAX_LIST_SIZE, zlen. lia. }
    assert (wp False init_lists_i_slice (fun _ s' => ∃ c', sized c' ∧ s' = view s c') E (view s c)) as Hi.
    { apply init_i_slice_wp; [done|]. intros c' Hc'. by exists c'. }
    destruct (sl_slice_type (mSlice s)); try apply Hi.
    + apply (init_p_slice_wp fx m ex s Hs); [done..|]. intros Lst c' _ Hok Hfin Hn1. exists c'. split; [|done]. split; [done|]. split; [by eapply Hfl|rewrite Hn1; done].
    + apply (init_b_slice_wp fx m ex s Hs); [done..|]. intros A0 B0 c' _ Hok Hf0 Hf1. exists c'. split; [|done]. split; [done|]. split; by eapply Hfl.
  - intros [] s' (c' & Hc' & ->). wp_step. apply (reorder_lists_wp fx m ex s Hs Hno Hact); [done|]. intros c2 Hc2. wp_step. wp_step; [|apply HR, Hc2].
    apply (init_mbaff_wp fx m ex s Hs); [done|]. intros c3 Hc3. apply HR, Hc3.
Qed.

Lemma build_lists_live {A} (k : D A) dec s (R : A → h264_dpb_stru → Prop) E : live wdm m dec s → active_ok (mSlice s) → (∀ s', live wdm m dec s' → wp False k R E s') →
  wp False (build_lists (mSlice s) k) R E s.
Proof.
  intros Hs Hact HR. pose proof (live_noref dec s Hs) as Hno. destruct Hs as [q Hs]. pose proof (iv_slice (proj1 Hs)) as Hsl.
  pose proof (lists_of_ok s Hsl (ro_arrays _ (iv_refs (proj1 Hs)))) as Hc.
  assert (wp False (build_lists (mSlice s) k) R E (view s (lists_of s))) as W; [|by rewrite (view_lists_of s Hsl) in W].
  eapply build_lists_view; [done|done|done|done|]. intros c' Hc'. apply HR. exists q. by apply view_ok.
Qed.

(** *** A new picture *)

Lemma gap_ok s gap : header_ok m s → ∃ g, frame_num_gap_of s gap = Some g.
Proof.
  intros Hh. unfold frame_num_gap_of. cbv zeta. destruct (_ && _ && _); [|by eexists]. rewrite (proj2 (Z.eqb_neq _ _) (ho_max _ _ Hh)). by eexists.
Qed.

(** The picture is taken: it is held from now on. *)
Lemma take_picture fx s q st p x : ok fx m [q] s → x_dec fx = None → (m = true → st = FRAME) → inv fx m [p; q] None (pic_set p (fresh_pic st m x) s) → pic s p = Some x → p ≠ q →
  let s' := (pic_set p (fresh_pic st m x) s) <| mVideo := (mVideo s) <| dec_picture := Some p |> |> in
  ok (mk_fixed (x_display fx) (x_init fx) (Some p) (x_noref fx)) m [p; q] s' ∧ pic s' p = Some (fresh_pic st m x).
Proof.
  intros [_ Hst] Hdec Hm HI Hx Hne. cbv zeta. assert (pic (pic_set p (fresh_pic st m x) s) p = Some (fresh_pic st m x)) as Hp by by eapply pic_set_eq.
  assert (pic (pic_set p (fresh_pic st m x) s) q = pic s q) as Hq. { apply pic_set_ne; [|done]. apply aget_inv in Hx as [? _]. lia. }
  assert (p_structure (fresh_pic st m x) = st) as Hs by done. set (s1 := pic_set p (fresh_pic st m x) s) in *. assert (mVideo s1 = mVideo s) as Hv by done. clearbody s1.
  rewrite <- Hv. generalize dependent (fresh_pic st m x). intros y Hp Hy. split; [|exact Hp]. split.
  - apply (inv_video fx m [p; q] s1 ((mVideo s1) <| dec_picture := Some p |>)) in HI as H1; [|done]. replace (x_noref fx) with (no_reference_picture (mVideo s1)); [exact H1|].
    by rewrite <- (iv_fixed HI).
  - intros r Hr. apply list_elem_of_In in Hr as [<-|[<-|[]]].
    + exists y. split; [exact Hp|]. intros E. rewrite Hy. by apply Hm.
    + destruct (Hst q) as (z & Hz & Hzm); [by left|]. exists z. split; [|done]. change (pic s1 q = Some z). by rewrite Hq.
Qed.

Lemma new_picture_ok s gap (R : FrameNumGap_Value * bool → h264_dpb_stru → Prop) E : live wdm m None s → header_ok m s →
  (∀ g s' dec, live wdm m dec s' → active_ok (mSlice s') → R g s') → wp False (new_picture gap) R E s.
Proof.
  intros [q Hs] Hh HR. unfold new_picture. wp_step. wp_step. destruct (gap_ok s gap Hh) as [g Hg]. wp_step. rewrite Hg. cbn [of_option]. wp_step. wp_step.
  set (fx := mk_fixed wdm true None (Some q)) in *.
  apply (wp_mono _ (fun _ s' => ok fx m [q] s' ∧ header_ok m s' ∧ mSlice s' = mSlice s) _ E); [| |done].
  { wp_step; [|done]. apply wp_modify. split; [|split; [by destruct Hh; split|done]]. apply (ok_same fx m [q] s); try done. exact (ok_refs fx m [q] s Hs). }
  intros [] s1 (K1 & Hh1 & Esl). wp_step. apply (decode_poc_ok fx m [q]); [done|done|]. intros v sl s2 K2 Hh2 Hsl2.
  assert (mSlice s2 = sl) as Es2 by done. clearbody s2. wp_step. eapply get_new_pic_wp; [apply K2|cbn; lia|]. intros p x Hp Hx Hu Hnin HI.
  assert (p ≠ q) as Hne by (intros ->; apply Hnin; set_solver). assert (m = true → sl_structure (mSlice s) = FRAME) as Hm by (intros E0; rewrite <- Esl; by apply (ho_structure _ _ Hh1)).
  pose proof (take_picture fx s2 q (sl_structure (mSlice s)) p x K2 eq_refl Hm HI Hx Hne) as [K3 Hp3]. cbv zeta in K3, Hp3.
  wp_step. apply wp_modify. set (s3 := (pic_set p _ s2) <| mVideo := _ |>) in *. 
  assert (mSlice s3 = mSlice s2 ∧ mSPS s3 = mSPS s2) as [E3 E4] by done.
  change (wp False (b ← setup_picture (Some p); mret (g, b)) R E s3). clearbody s3.
  wp_step. apply (setup_mid (mk_fixed wdm true (Some p) (Some q)) m [q] p sl).
  - split; [exact K3|]. split; [congruence|]. split; [|rewrite E4; apply (ho_frame_num _ _ Hh2)]. intros y Hy. rewrite Hp3 in Hy. injection Hy as <-.
    change (p_structure (fresh_pic (sl_structure (mSlice s)) m x)) with (sl_structure (mSlice s)). rewrite <- Esl. symmetry. apply Hsl2.
  - intros b s4 (K4 & Esl4 & _). wp_step. apply (HR _ _ (Some p)); [by exists q|]. rewrite Esl4, <- Es2. apply (ho_active _ _ Hh2).
Qed.

(** *** The whole *)

(** The buffer between operations of the decoder. *)
Definition session s : Prop := fresh m s ∧ without_display_mode s = wdm ∨ ∃ dec, live wdm m dec s.

(** It is the same buffer for the driver: only parameters changed. *)
Definition at_header (dec : option Z) s : Prop := fresh m s ∧ without_display_mode s = wdm ∧ dec = None ∨ live wdm m dec s.

Lemma session_header s : session s → ∃ dec, at_header dec s ∧ dec_picture (mVideo s) = dec ∧ slice_ok (mSlice s).
Proof.
  intros [[Hf Hw]|[dec Hl]].
  - exists None. split; [by left|]. destruct (op_none _ _ _ (proj1 Hf)) as [_ Hd]. split; [exact Hd|exact (op_slice _ _ _ (proj1 Hf))].
  - exists dec. split; [by right|]. destruct Hl as [q [HI _]]. split; [exact (f_equal x_dec (iv_fixed HI))|apply (iv_slice HI)].
Qed.

Lemma header_prepared dec s s' : at_header dec s → prepared m s s' → at_header dec s'.
Proof.
  intros [(Hf & Hw & Hd)|[q Hs]] Hp; [left|right; exists q; by eapply ok_prepared]. pose proof Hp as [H1 H2 (H3 & H4 & H5) H6].
  assert (m_PIC s' = m_PIC s ∧ mFrameStore s' = mFrameStore s ∧ mDPB s' = mDPB s ∧ colocated_buf_count s' = colocated_buf_count s ∧
    without_display_mode s' = without_display_mode s ∧ max_reference_size s' = max_reference_size s) as (E1 & E2 & E3 & E4 & E5 & E6) by (rewrite H1; by destruct s).
  split; [|split; congruence]. destruct Hf as [[] Hi]. split; [|by rewrite E3]. split; rewrite ?E1, ?E2, ?E3, ?E4, ?E6; try done; [congruence|by rewrite H4, H5|apply H6].
Qed.

Lemma header_same dec s s' : at_header dec s →
  s' = s <| buf_alloc_fail := buf_alloc_fail s' |> <| dpb_error_flag := dpb_error_flag s' |> <| mDPB := (mDPB s) <| num_ref_frames := num_ref_frames (mDPB s') |> |> → at_header dec s'.
Proof.
  intros [(Hf & Hw & Hd)|[q Hs]] E; rewrite E; [left|right; exists q].
  - split; [|done]. destruct Hf as [[] Hi]. split; [|done]. by split.
  - apply (ok_same _ m (held dec (Some q)) s); try done. pose proof (ok_refs _ m (held dec (Some q)) s Hs) as []. by split.
Qed.

Lemma process_rest gap (b : bool) dec s (R : Z * FrameNumGap_Value → h264_dpb_stru → Prop) E : live wdm m dec s → header_ok m s → (b = true → dec = None) → (∀ r s' dec', live wdm m dec' s' → R r s') →
  wp False (r ← (if b then new_picture gap else mret (gap, true));
    let '(gap, go) := r in
    s ← get;
    if negb go || buf_alloc_fail s then mret (-1, gap)
    else build_lists (mSlice s) (mret (if b then 1 else 0, gap))) R E s.
Proof.
  intros Hs Hh Hb HR. wp_step. apply (wp_mono _ (fun _ s' => ∃ dec', live wdm m dec' s' ∧ active_ok (mSlice s')) _ E); [| |done].
  - wp_step; [|wp_step; exists dec; split; [done|apply (ho_active _ _ Hh)]]. rewrite Hb in Hs by done. apply new_picture_ok; [done|done|]. intros g s' dec' Hs' Ha. by exists dec'.
  - intros [g go] s' (dec' & Hs' & Ha). wp_step. wp_step. wp_step; [wp_step; by apply (HR _ _ dec')|]. apply (build_lists_live _ dec'); [done|done|]. intros s2 H2. wp_step. by apply (HR _ _ dec').
Qed.

Lemma slice_header_ok gap s (R : Z * FrameNumGap_Value → h264_dpb_stru → Prop) E : session s → regs_ok m (param s) → (∀ r s' dec, live wdm m dec s' → R r s') →
  wp False (h264_slice_header_process gap) R E s.
Proof.
  intros Hs Hr HR. destruct (session_header s Hs) as (dec & Hd & Edec & Hsl). unfold h264_slice_header_process. wp_step. wp_step. rewrite Edec. cbv zeta. wp_step. apply wp_modify.
  set (s1 := s <| buf_alloc_fail := false |> <| dpb_error_flag := false |>). assert (at_header dec s1) as H1 by (apply (header_same dec s); [done|unfold s1; destruct s as [? ? ? ? ? ? ? ? ? d]; by destruct d]).
  assert (slice_ok (mSlice s1) ∧ regs_ok m (param s1)) as [K1 K2] by (split; [exact Hsl|exact Hr]). clearbody s1. wp_step. apply (slice_prepare_wp m); [done|done|]. intros s2 Hp.
  pose proof (header_prepared dec s1 s2 H1 Hp) as H2. wp_step. apply wp_modify. set (s3 := s2 <| mDPB := _ |>).
  assert (at_header dec s3) as H3 by (apply (header_same dec s2); [done|unfold s3; destruct s2 as [? ? ? ? ? ? ? ? ? d]; by destruct d]). assert (header_ok m s3) as Hh3 by (destruct (pr_header _ _ _ Hp); by split). clearbody s3.
  wp_step. wp_step. wp_step. apply (wp_mono _ (fun _ s' => live wdm m dec s' ∧ header_ok m s') _ E); [| |done].
  - destruct H3 as [(Hf & Hw & ->)|Hl].
    + pose proof (proj1 (proj2 Hf)) as Hi. rewrite Hi. wp_step; [|done]. apply (init_dpb_ok m); [done|]. intros s4 H4. split; [rewrite <- Hw; by apply started_live|].
      destruct H4 as (q & _ & E1 & E2 & E3). destruct Hh3. split; by rewrite ?E1, ?E2, ?E3.
    + assert (init_done (mDPB s3) = true) as Hi by (destruct Hl as [q [HI _]]; exact (f_equal x_init (iv_fixed HI))). rewrite Hi. wp_step; [done|by split].
  - intros [] s4 [H4 Hh4]. apply (process_rest gap _ dec); [done|done| |done]. by intros ?%bool_decide_eq_true_1.
Qed.
End Header.
