(* ===== verification/H264Life.v ===== *)
(** The life of the H.264 decoded picture buffer
    (src/drivers/frame_provider/decoder/h264_multi/): the decoder driver
    (vmh264.c) resets it, hands it slice headers and decoded pictures, drops
    pictures, flushes it and makes room.  Whatever the order, nothing undefined
    happens, no loop runs on, and no picture is lost or in two places, when the
    driver is as [H264DriverOk] says. *)

From stdpp Require Import base list numbers sorting gmap.
From Stdlib Require Import ZArith Lia Bool.
From S2P Require Import Prelude H264Types H264Pool H264Display H264Slice H264Mark H264Store H264Header H264Inv H264MarkOk H264PoolOk H264Fill H264DisplayOk H264Safe.
From S2P Require Import H264ListsOk H264HeaderOk H264Start H264NewPic.

#[local] Open Scope Z_scope.

(** ** The driver's part *)

Section Driver.
Context `{H264Driver}.

(** [release_cur_decoding_buf(hw)], without the signal to the memory unit. *)
Definition release_cur_decoding_buf : D unit :=
  v ← gets mVideo;
  match dec_picture v with
  | None => mret tt
  | Some _ =>
      release_picture (dec_picture v);;
      upd_pic (dec_picture v) (fun p => p <| p_data_flag := Z.land (p_data_flag p) (Z.lnot (Z.lor ERROR_FLAG NULL_FLAG)) |>);;
      upd_video (fun v => v <| dec_picture := None |>)
  end.

(** The frame waits for output and its order count is far above [last]. *)
Definition left_behind (hw : vdec_h264_hw_s) (last : Z) (f : FrameStore) : bool :=
  (s32 (last + loop_playback_poc_threshold hw) <? f_poc f) && waiting f.

(** The policy for a stream that is played again and again: when the order
    count has fallen far, and has come back to where it fell to several times
    in a row, the frames of the run before are marked as put out. *)
Definition loop_playback (hw : vdec_h264_hw_s) (poc : Z) : D vdec_h264_hw_s :=
  n ← gets (fun s => used_size (mDPB s));
  if negb (truth (loop_flag hw)) then
    i ← until n (fun i => k ← ptr_of fs i; f ← fs_at k; mret (if left_behind hw poc f then Return else Next_));
    mret (match i with None => hw | Some _ => hw <| loop_flag := 1 |> <| loop_last_poc := poc |> end)
  else if (s32 (loop_last_poc hw - poc_threshold hw) <=? poc) && (poc <=? s32 (loop_last_poc hw + poc_threshold hw)) then
    if loop_times hw <=? loop_flag hw then
      for_range 0 n (fun i =>
        k ← ptr_of fs i;
        f ← fs_at k;
        when (left_behind hw (loop_last_poc hw) f) (upd_fs k (fun f => f <| f_is_output := true |>)));;
      mret (hw <| loop_flag := 0 |>)
    else mret (hw <| loop_flag := s32 (loop_flag hw + 1) |>)
  else mret (hw <| loop_flag := 0 |>).

(** The end of [vh264_pic_done_proc]: the decoded picture is stored or given
    up; [flags] is [hw->data_flag | hw->dec_flag], handed over as a byte.  [bufmgr_force_recover] is
    [bufmgr_h264_remove_unused_frame] and a request for a reset. *)
Definition pic_done (flags : Z) : D unit :=
  v ← gets mVideo;
  match dec_picture v with
  | None => mret tt
  | Some _ =>
      hw ← gets (fun s => hw_state (events s));
      p ← pic_at (dec_picture v);
      (when (bit get_error_proc_policy 2097152) (_ ← loop_playback hw (p_poc p); mret tt));;
      p ← pic_at (dec_picture v);
      ret ← store_picture_in_dpb (dec_picture v) (Z.land (Z.lor flags (p_data_flag p)) 255);
      if ret =? -1 then release_cur_decoding_buf;; bufmgr_h264_remove_unused_frame 2
      else if ret =? -2 then release_cur_decoding_buf
      else bufmgr_post;; upd_video (fun v => v <| dec_picture := None |>)
  end.

(** What the driver sets as it goes: how many pictures wait for output, which
    rules of fast output hold, whether auxiliary data is to be waited for. *)
Record settings := mk_settings {
  st_reorder_output : Z;
  st_dec_dpb_size : Z;
  st_fast_output_enable : Z;
  st_poc_even_odd_flag : Z;
  st_poc_check_count : Z;
  st_first_insert_frame : FirstInsertFrm_State;
  st_wait_aux_data_flag : bool
}.

Definition set_settings (t : settings) (s : h264_dpb_stru) : h264_dpb_stru :=
  s <| reorder_output := st_reorder_output t |> <| dec_dpb_size := st_dec_dpb_size t |>
    <| fast_output_enable := st_fast_output_enable t |> <| poc_even_odd_flag := st_poc_even_odd_flag t |>
    <| poc_check_count := st_poc_check_count t |> <| first_insert_frame := st_first_insert_frame t |>
    <| wait_aux_data_flag := st_wait_aux_data_flag t |>.

(** What happens to the buffer.  [Reset]: [dpb_init_global] and the parameters
    of the sequence that [vh264_set_params] sets afterwards. *)
Inductive op :=
| Reset (dpb_size max_ref : Z) (mbs_only : bool)
| Header (pa : dpb_param) (gap : FrameNumGap_Value)
| Done (flags : Z)
| Drop
| Flush
| Recover (force_flag : Z)
| Shown (index : Z)
| Tune (t : settings).

Definition run_op (o : op) : D unit :=
  match o with
  | Reset dpb_size max_ref mbs_only =>
      dpb_init_global 0 0;;
      modify (fun s => s <| mDPB := (mDPB s) <| size := dpb_size |> |> <| max_reference_size := max_ref |>
                         <| mSPS := (mSPS s) <| sps_frame_mbs_only_flag := mbs_only |> |>)
  | Header pa gap => modify (fun s => s <| param := pa |>);; _ ← h264_slice_header_process gap; mret tt
  | Done flags => pic_done flags
  | Drop => release_cur_decoding_buf
  | Flush => flush_dpb
  | Recover force_flag => bufmgr_h264_remove_unused_frame force_flag
  | Shown index => set_frame_output_flag index
  | Tune t => modify (set_settings t)
  end.

Fixpoint run (l : list op) : D unit :=
  match l with [] => mret tt | o :: l => run_op o;; run l end.
End Driver.

(** ** Sequences of operations *)

(** What has happened: nothing, a reset, or a slice header after it, for a
    sequence of frames only ([m]) or not. *)
Inductive phase := Raw | Empty (m : bool) | Live (m : bool).

(** The driver resets the buffer first; then everything may happen at any
    time. *)
Definition next (ph : phase) (o : op) : option phase :=
  match o, ph with
  | Reset _ _ m, _ => Some (Empty m)
  | Tune _, Raw => Some Raw
  | _, Raw => None
  | Header _ _, (Empty m | Live m) => Some (Live m)
  | _, _ => Some ph
  end.

(** The driver hands over registers as the firmware fills them, sizes within
    those of the arrays, and indices of frame stores. *)
Definition op_ok (ph : phase) (o : op) : Prop :=
  match o, ph with
  | Reset dpb_size max_ref _, _ => 0 ≤ dpb_size ≤ DPB_SIZE_MAX ∧ 0 ≤ max_ref ≤ 32
  | Header pa _, (Empty m | Live m) => regs_ok m pa
  | Shown index, _ => 0 ≤ index < DPB_SIZE_MAX
  | _, _ => True
  end.

(** From phase [ph] to phase [ph']. *)
Fixpoint ops_ok (ph : phase) (l : list op) (ph' : phase) : Prop :=
  match l with
  | [] => ph' = ph
  | o :: l => op_ok ph o ∧ ∃ ph1, next ph o = Some ph1 ∧ ops_ok ph1 l ph'
  end.

(** Memory of the right size. *)
Definition blank (wdm : bool) (s : h264_dpb_stru) : Prop :=
  zlen (m_PIC s) = MAX_PIC_BUF_NUM + 1 ∧ zlen (mFrameStore s) = DPB_SIZE_MAX + 1 ∧ 0 ≤ colocated_buf_count s ≤ 32 ∧ without_display_mode s = wdm.

Definition in_phase (wdm : bool) (ph : phase) (s : h264_dpb_stru) : Prop :=
  match ph with
  | Raw => blank wdm s
  | Empty m => fresh m s ∧ without_display_mode s = wdm
  | Live m => ∃ dec, live wdm m dec s
  end.

(** What holds of an initialised buffer: the frame stores in use are those in
    the used part of [fs], and every picture in use is in one place: it belongs
    to one frame store, or it is the one that is being decoded or the one for
    missing references. *)
Definition places (s : h264_dpb_stru) : list Z :=
  owned (mFrameStore s) ++ held (dec_picture (mVideo s)) (no_reference_picture (mVideo s)).

Record consistent (s : h264_dpb_stru) : Prop := {
  cs_sizes : 0 ≤ used_size (mDPB s) ≤ size (mDPB s) ∧ size (mDPB s) ≤ DPB_SIZE_MAX;
  cs_stores : ∀ k f, 0 ≤ k < DPB_SIZE_MAX → store s k = Some f → f_is_used f ≠ 0 ↔ ∃ i, at_pos (mDPB s) i k;
  cs_once : NoDup (places s);
  cs_places : ∀ p, p ∈ places s ↔ ∃ x, 0 ≤ p < MAX_PIC_BUF_NUM ∧ pic s p = Some x ∧ p_is_used x = true
}.

Section Life.
Context (wdm : bool) `{!H264Driver} {HOk : H264DriverOk wdm}.
Implicit Types (s : h264_dpb_stru) (E : Z → h264_dpb_stru → Prop).

Lemma phase_blank ph s : in_phase wdm ph s → blank wdm s.
Proof.
  destruct ph as [|m|m]; [done|intros [[[] _] Hw]|intros [dec [q [HI _]]]].
  - split_and!; try done; apply op_counts.
  - split; [apply (iv_pics HI)|]. split; [apply (iv_stores HI)|]. split; [apply (iv_colocated HI)|exact (f_equal x_display (iv_fixed HI))].
Qed.

Lemma reset_op_ok dpb_size max_ref m s (R : unit → h264_dpb_stru → Prop) E : blank wdm s → 0 ≤ dpb_size ≤ DPB_SIZE_MAX → 0 ≤ max_ref ≤ 32 →
  (∀ s', in_phase wdm (Empty m) s' → R tt s') → wp False (run_op (Reset dpb_size max_ref m)) R E s.
Proof.
  intros (H1 & H2 & H3 & H4) Hsz Hmr HR. unfold run_op. wp_step. apply dpb_init_global_ok; [done|done|unfold DPB_SIZE_MAX; lia|lia|done|]. intros s1 [[] [Hi Hu]] Hw.
  apply wp_modify, HR. split; [|by rewrite <- H4]. split; [|done]. split; try done. split; [done|apply op_counts].
Qed.

(** *** Making room *)

Lemma unmark_error_ok fx m ex s (R : bool → h264_dpb_stru → Prop) E : ok fx m ex s → (∀ b s', ok fx m ex s' → R b s') → wp False unmark_one_error_out_frame R E s.
Proof.
  intros Hs HR. unfold unmark_one_error_out_frame. wp_step. wp_step. set (d := mDPB s). wp_step. apply (until_wp _ _ (okd fx m ex d)); [by split| |].
  - intros i s1 Hi H1. wp_step. eapply (fs_ptr_okd fx m ex d); [done|done|]. intros k f Hk Hf. wp_step. eapply fs_at_wp; [done|]. wp_step; [|by wp_step].
    wp_step. eapply (unmark_ok fx m ex d); [done|done|]. intros s2 H2. by wp_step.
  - intros o s1 [H1 _] _. wp_step. by apply HR.
Qed.

Lemma unmark_out_ok fx m ex s (R : bool → h264_dpb_stru → Prop) E : ok fx m ex s → (∀ b s', ok fx m ex s' → R b s') → wp False unmark_one_out_frame R E s.
Proof.
  intros Hs HR. unfold unmark_one_out_frame. wp_step. wp_step. set (d := mDPB s). apply (wp_fold_range _ _ _ (fun _ _ => okd fx m ex d)); [by split| |intros b s1 [H1 _]; by apply HR].
  intros i b s1 Hi H1. wp_step. eapply (fs_ptr_okd fx m ex d); [done|done|]. intros k f Hk Hf. wp_step. eapply fs_at_wp; [done|]. wp_step; [|by wp_step].
  wp_step. eapply (unmark_ok fx m ex d); [done|done|]. intros s2 H2. by wp_step.
Qed.

Lemma recover_ok fx m ex s n (R : unit → h264_dpb_stru → Prop) E : ok fx m ex s → (∀ s', ok fx m ex s' → R tt s') → wp False (bufmgr_h264_remove_unused_frame n) R E s.
Proof.
  intros Hs HR. unfold bufmgr_h264_remove_unused_frame. wp_step. apply (remove_unused_frames_ok fx m ex); [done|]. intros b s1 H1. wp_step; [wp_step; by apply HR|].
  assert (∀ (c : bool) s2, ok fx m ex s2 → wp False (when c (update_ref_list;; _ ← remove_unused_frame_from_dpb; mret tt)) R E s2) as Htail.
  { intros c s2 H2. wp_step; [|by apply HR]. wp_step. apply (update_ref_list_ok fx m ex); [done|]. intros s3 K3. wp_step. apply (remove_unused_frame_ok fx m ex); [done|].
    intros; wp_step; by apply HR. }
  wp_step; [wp_step; apply (unmark_out_ok fx m ex); [done|]; intros; by apply Htail|]. wp_step; [|wp_step; by apply HR].
  wp_step. apply (unmark_error_ok fx m ex); [done|]. intros; by apply Htail.
Qed.

(** *** The decoded picture *)

Definition with_dec (dec : option Z) (q : Z) : fixed := mk_fixed wdm true dec (Some q).

Lemma live_dec m p s : live wdm m (Some p) s → dec_picture (mVideo s) = Some p ∧ ∃ q, ok (with_dec (Some p) q) m [p; q] s.
Proof. intros [q Hs]. split; [exact (f_equal x_dec (iv_fixed (proj1 Hs)))|]. by exists q. Qed.

(** The pointer to the picture is reset when the picture is somewhere else. *)
Lemma forget_dec m p q s (R : unit → h264_dpb_stru → Prop) E : ok (with_dec (Some p) q) m [q] s → (∀ s', live wdm m None s' → R tt s') →
  wp False (upd_video (fun v => v <| dec_picture := None |>)) R E s.
Proof.
  intros [HI Hst] HR. apply wp_modify, HR. exists q. split; [|exact Hst].
  apply (inv_video _ m [q] s ((mVideo s) <| dec_picture := None |>)) in HI as H1; [|done]. pose proof (f_equal x_noref (iv_fixed HI)) as Hno. cbn in H1, Hno. rewrite Hno in H1. exact H1.
Qed.

Lemma release_cur_ok m p q s (R : unit → h264_dpb_stru → Prop) E : ok (with_dec (Some p) q) m [p; q] s → (∀ s', live wdm m None s' → R tt s') → wp False release_cur_decoding_buf R E s.
Proof.
  intros Hs HR. assert (dec_picture (mVideo s) = Some p) as Hdec by exact (f_equal x_dec (iv_fixed (proj1 Hs))).
  assert (0 ≤ p < MAX_PIC_BUF_NUM) as Hp. { assert (p ∈ owned (mFrameStore s) ++ [p; q]) as Hin by set_solver. by apply (iv_own_used (proj1 Hs)) in Hin as (_ & Hr & _). }
  unfold release_cur_decoding_buf. wp_step. wp_step. rewrite Hdec. wp_step.
  apply (release_picture_ok (with_dec (Some p) q) m (H264DriverOk0 := HOk) [q] ltac:(cbn; lia) p); [exact Hs|]. intros s1 H1.
  destruct (aget_Some (m_PIC s1) p) as [x Hx]; [rewrite (iv_pics (proj1 H1)); lia|]. wp_step. eapply upd_pic_wp; [done|]. eapply forget_dec; [|done].
  eapply (ok_kept (with_dec (Some p) q) m [q] s1); [done|]. split; [by eapply steady_pic|exact (ok_refs _ _ _ _ H1)].
Qed.

Lemma loop_playback_ok fx m ex hw poc s (R : vdec_h264_hw_s → h264_dpb_stru → Prop) E : ok fx m ex s → (∀ hw' s', ok fx m ex s' → R hw' s') → wp False (loop_playback hw poc) R E s.
Proof.
  intros Hs HR. unfold loop_playback. wp_step. wp_step. set (d := mDPB s). wp_step.
  - wp_step. apply (until_wp _ _ (okd fx m ex d)); [by split| |intros o s1 [G1 _] _; wp_step; by apply HR].
    intros i s1 Hi G1. wp_step. eapply (fs_ptr_okd fx m ex d); [done|done|]. intros k f Hk Hf. wp_step. eapply fs_at_wp; [done|]. by wp_step.
  - wp_step; [|wp_step; by apply HR]. wp_step; [|wp_step; by apply HR]. wp_step.
    apply (in_use_loop fx m ex d); [by split| |intros s1 [G1 _]; wp_step; by apply HR].
    intros i s1 G1 Hi. wp_step. eapply (fs_ptr_okd fx m ex d); [done|done|]. intros k f Hk Hf. wp_step. eapply fs_at_wp; [done|]. wp_step; [|done].
    destruct G1 as [G1 Hd]. eapply (upd_fs_ok fx m ex); [done|done|by repeat split; auto|]. intros g _ G2. by split.
Qed.

Lemma pic_done_ok m p s flags (R : unit → h264_dpb_stru → Prop) E : live wdm m (Some p) s → (∀ s', live wdm m None s' → R tt s') → wp False (pic_done flags) R E s.
Proof.
  intros Hs HR. destruct (live_dec m p s Hs) as (Hdec & q & Hok). unfold pic_done. wp_step. wp_step. rewrite Hdec.
  destruct (proj2 Hok p) as (x0 & Hx0 & _); [by left|]. wp_step. wp_step. wp_step. eapply pic_at_wp; [done|]. wp_step.
  apply (wp_mono _ (fun _ => ok (with_dec (Some p) q) m [p; q]) _ E); [wp_step; [|done]; wp_step; eapply loop_playback_ok; [done|]; intros; by wp_step| |done].
  clear s Hs Hdec Hok x0 Hx0. intros [] s Hok. assert (dec_picture (mVideo s) = Some p) as Hdec by exact (f_equal x_dec (iv_fixed (proj1 Hok))).
  destruct (proj2 Hok p) as (x & Hx & _); [by left|]. wp_step. eapply pic_at_wp; [done|]. wp_step.
  apply (store_picture_ok (with_dec (Some p) q) m (H264DriverOk0 := HOk) [q] ltac:(cbn; lia) p s x); [exact Hok|exact Hx|]. intros r s1 [[-> H1]|[[->| ->] H1]].
  - change (0 =? -1) with false. change (0 =? -2) with false. cbv iota. unfold bufmgr_post. wp_step. wp_step. wp_step. apply (wp_mono _ (fun _ => ok (with_dec (Some p) q) m [q]) _ E); [|intros [] s2 H2; by eapply forget_dec|done].
    wp_step; [|done]. apply wp_modify. apply (ok_same (with_dec (Some p) q) m [q] s1); try done. exact (ok_refs _ _ _ _ H1).
  - change (-1 =? -1) with true. cbv iota. wp_step. eapply release_cur_ok; [exact H1|]. intros s2 [q2 H2]. apply (recover_ok _ m _ s2 2 R E H2). intros s3 H3. apply HR. by exists q2.
  - change (-2 =? -1) with false. change (-2 =? -2) with true. cbv iota. eapply release_cur_ok; [exact H1|done].
Qed.

Lemma settings_ok ph t s : in_phase wdm ph s → in_phase wdm ph (set_settings t s).
Proof.
  destruct ph as [|m|m]; [done|intros [[[] Hi] Hw]; split; [by split|done]|]. intros [dec [q Hs]]. exists dec, q.
  apply (ok_same _ m (held dec (Some q)) s); try done. exact (ok_refs _ _ _ _ Hs).
Qed.

(** *** One operation, and all of them *)

Lemma live_ok m dec s (c : D unit) (R : unit → h264_dpb_stru → Prop) E : live wdm m dec s →
  (∀ fx ex, x_display fx = wdm → ok fx m ex s → wp False c (fun _ s' => ok fx m ex s') E s) → (∀ s', in_phase wdm (Live m) s' → R tt s') → wp False c R E s.
Proof.
  intros [q Hs] Hc HR. eapply wp_mono; [apply (Hc (mk_fixed wdm true dec (Some q)) (held dec (Some q)) eq_refl Hs)| |done].
  intros [] s' H'. apply HR. by exists dec, q.
Qed.

Lemma empty_done m s : fresh m s → dec_picture (mVideo s) = None ∧ init_done (mDPB s) = false.
Proof. intros [Ho [Hi _]]. split; [apply (op_none _ _ _ Ho)|done]. Qed.

(** Without frame stores in use there is nothing to make room from. *)
Lemma recover_none s n (R : unit → h264_dpb_stru → Prop) E : used_size (mDPB s) = 0 → R tt s → wp False (bufmgr_h264_remove_unused_frame n) R E s.
Proof.
  intros Hu HR. assert (bufmgr_h264_remove_unused_frame n s = Ok tt s) as W; [|unfold wp; by rewrite W].
  assert (∀ {A} (c : Z → D A), (n ← gets (fun s => used_size (mDPB s)); c n) s = c 0 s) as Hg by (intros A c; rewrite <- Hu; done).
  assert (remove_unused_frame_from_dpb s = Ok false s) as E1 by (unfold remove_unused_frame_from_dpb; by rewrite Hg).
  assert (unmark_one_out_frame s = Ok false s) as E2 by (unfold unmark_one_out_frame; by rewrite Hg).
  assert (unmark_one_error_out_frame s = Ok false s) as E3 by (unfold unmark_one_error_out_frame; by rewrite Hg).
  assert (∀ {A B} (c : D A) a (k : A → D B), c s = Ok a s → (x ← c; k x) s = k a s) as Hb by (intros A B c x k Ec; unfold mbind, D_bind, M_bind; by rewrite Ec).
  unfold bufmgr_h264_remove_unused_frame, remove_unused_frames, TURNS. rewrite (Hb _ _ _ false); [|cbn [while_]; by rewrite (Hb _ _ _ _ _ E1)]. cbv iota.
  destruct (n =? 2); [by rewrite (Hb _ _ _ _ _ E2)|]. destruct (n =? 1); [by rewrite (Hb _ _ _ _ _ E3)|done].
Qed.

(** A frame that comes back after a reset marks a frame store that is empty. *)
Lemma fresh_shown m s index (R : unit → h264_dpb_stru → Prop) E : fresh m s → 0 ≤ index < DPB_SIZE_MAX → (∀ s', fresh m s' → without_display_mode s' = without_display_mode s → R tt s') →
  wp False (set_frame_output_flag index) R E s.
Proof.
  intros ([] & Hi & Hu) Hr HR. unfold set_frame_output_flag. rewrite (proj2 (Z.leb_le _ _)), (proj2 (Z.ltb_lt _ _)) by lia. cbn [andb].
  destruct (aget_Some (mFrameStore s) index) as [f Hf]; [lia|]. eapply upd_fs_wp; [done|]. apply HR; [|done]. split; [|done]. split; try done; [cbn; by rewrite zlen_insert| |lia].
  intros k g Hk Hg. destruct (decide (index = k)) as [->|Hne]; [rewrite (store_set_eq k _ f) in Hg by done; simplify_eq; by apply (op_empty k f)|].
  rewrite store_set_ne in Hg by (try done; lia). by eapply op_empty.
Qed.

(** A picture is at hand or not. *)
Lemma live_cases m dec s (c : D unit) (R : unit → h264_dpb_stru → Prop) E : live wdm m dec s → (dec_picture (mVideo s) = None → wp False c R E s) →
  (∀ p, live wdm m (Some p) s → wp False c R E s) → wp False c R E s.
Proof.
  intros Hs H1 H2. destruct dec as [p|]; [by eapply H2|]. apply H1. destruct Hs as [q [HI _]]. exact (f_equal x_dec (iv_fixed HI)).
Qed.

Lemma session_op_ok ph ph' o s (R : unit → h264_dpb_stru → Prop) E : in_phase wdm ph s → op_ok ph o → next ph o = Some ph' → (∀ s', in_phase wdm ph' s' → R tt s') →
  wp False (run_op o) R E s.
Proof.
  intros Hs Ho Hn HR. destruct o as [sz mr b|pa gap|flags| | |force|index|t]; cbn [op_ok next] in Ho, Hn.
  - injection Hn as <-. apply reset_op_ok; [by eapply phase_blank|destruct ph; apply Ho..|done].
  - destruct ph as [|m|m]; [done|..]; injection Hn as <-; (unfold run_op; wp_step; apply wp_modify; wp_step; apply (slice_header_ok wdm m);
      [|exact Ho|intros r s' dec H'; wp_step; apply HR; by exists dec]).
    + left. destruct Hs as [[[] Hi] Hw]. split; [|done]. by split.
    + right. destruct Hs as [dec [q Hs]]. exists dec, q. apply (ok_same _ m (held dec (Some q)) s); try done. exact (ok_refs _ _ _ _ Hs).
  - destruct ph as [|m|m]; [done|..]; injection Hn as <-.
    + unfold run_op, pic_done. wp_step. wp_step. rewrite (proj1 (empty_done m s (proj1 Hs))). wp_step. by apply HR.
    + destruct Hs as [dec Hs]. apply (live_cases m dec); [done| |].
      * intros Hd. unfold run_op, pic_done. wp_step. wp_step. rewrite Hd. wp_step. apply HR. by exists dec.
      * intros p Hp. eapply pic_done_ok; [done|]. intros s' H'. apply HR. by exists None.
  - destruct ph as [|m|m]; [done|..]; injection Hn as <-.
    + unfold run_op, release_cur_decoding_buf. wp_step. wp_step. rewrite (proj1 (empty_done m s (proj1 Hs))). wp_step. by apply HR.
    + destruct Hs as [dec Hs]. apply (live_cases m dec); [done| |].
      * intros Hd. unfold run_op, release_cur_decoding_buf. wp_step. wp_step. rewrite Hd. wp_step. apply HR. by exists dec.
      * intros p Hp. destruct (live_dec m p s Hp) as (_ & q & Hok). eapply release_cur_ok; [done|]. intros s' H'. apply HR. by exists None.
  - destruct ph as [|m|m]; [done|..]; injection Hn as <-.
    + unfold run_op, flush_dpb. wp_step. wp_step. rewrite (proj2 (empty_done m s (proj1 Hs))). wp_step; [done|by apply HR].
    + destruct Hs as [dec Hs]. eapply live_ok; [done| |done]. intros fx ex <- H'. by apply (flush_dpb_ok fx m ex (H264DriverOk0 := HOk)).
  - destruct ph as [|m|m]; [done|..]; injection Hn as <-.
    + unfold run_op. apply recover_none; [apply Hs|by apply HR].
    + destruct Hs as [dec Hs]. eapply live_ok; [done| |done]. intros fx ex <- H'. by apply (recover_ok fx m ex).
  - destruct ph as [|m|m]; [done|..]; injection Hn as <-.
    + destruct Hs as [Hf <-]. unfold run_op. eapply fresh_shown; [done|done|]. intros s' Hf' Hw. apply HR. by split.
    + destruct Hs as [dec Hs]. eapply live_ok; [done| |done]. intros fx ex <- H'.
      apply (set_output_flag_ok fx m ex (mDPB s)); [by split|done|]. by intros s' [? _].
  - assert (ph' = ph) as -> by (destruct ph; by injection Hn). apply wp_modify, HR. by apply settings_ok.
Qed.

Lemma session_ok l : ∀ ph ph' s (R : unit → h264_dpb_stru → Prop) E, in_phase wdm ph s → ops_ok ph l ph' → (∀ s', in_phase wdm ph' s' → R tt s') → wp False (run l) R E s.
Proof.
  induction l as [|o l IH]; intros ph ph' s R E Hs Hl HR; cbn [run ops_ok] in *; [subst; wp_step; by apply HR|]. destruct Hl as (Ho & ph1 & Hn & Hl).
  wp_step. eapply session_op_ok; [done|done|done|]. intros s1 H1. by eapply IH.
Qed.

Lemma live_consistent m dec s : live wdm m dec s → consistent s.
Proof.
  intros [q [HI _]]. pose proof (f_equal x_dec (iv_fixed HI)) as Hd. pose proof (f_equal x_noref (iv_fixed HI)) as Hq. cbn in Hd, Hq.
  assert (places s = owned (mFrameStore s) ++ held dec (Some q)) as Hpl by (unfold places; by rewrite Hd, Hq). destruct (iv_fs HI). split; rewrite ?Hpl.
  - lia.
  - intros k f Hk Hf. by apply (iv_used HI k f).
  - apply (iv_own HI).
  - apply (iv_own_used HI).
Qed.
End Life.

(** C5: nothing undefined happens in the decoded picture buffer: of any
    sequence of resets, slice headers (of a structure the stream can have, with
    exponents of an [int], and with any other contents), stored and dropped
    pictures, flushes, requests for room, frames that come back from the
    display and changed settings, in any order after a first reset, every
    operation returns -- no pointer is invalid, no array is left, no shift is
    too wide, no loop runs on, the pool has a picture whenever one is taken --
    and once a slice header has been processed, the frame stores in use are
    those in the used part of the buffer and every picture in use is in exactly
    one place.  What the buffer finds in the driver may be different at every
    look at it, under the assumption [H264DriverOk]: its table of buffers has
    64 entries, the frames that wait for a fence carry an index of that table,
    and when nothing is displayed ([wdm]) fences are off and the queue for
    display is empty. *)
Theorem dpb_session_safe (wdm : bool) `{!H264Driver} `{!H264DriverOk wdm} l ph s : blank wdm s → ops_ok Raw l ph →
  ∃ s', run l s = Ok tt s' ∧ match ph with Live _ => consistent s' | _ => True end.
Proof.
  intros Hs Hl. assert (wp False (run l) (fun _ s' => in_phase wdm ph s') (fun _ _ => False) s) as W by (eapply (session_ok wdm l Raw); [exact Hs|exact Hl|done]). unfold wp in W.
  destruct (run l s) as [[] s'| |]; [|done..]. exists s'. split; [done|]. destruct ph as [|m|m]; [done..|]. destruct W as [dec W]. by eapply live_consistent.
Qed.

(** *** A run *)

(** A driver whose buffers and queues are all there, whenever it is looked at. *)
Definition calm_hw : vdec_h264_hw_s :=
  mk_hw false 0 (repeat (mk_buffer_spec 1 0 0) 64) (repeat (mk_vframe (-1) None) 64) [] (repeat None 64) 0 8256 4095 15 0
    false false false false false false 0 false 1280 720 3840 31 None 0 0 300 50 5.

#[local] Instance calm_driver : H264Driver := {
  hw_state ev := calm_hw;
  get_free_buf_idx ev := zlen ev mod 32;
  post_picture_early ev n := false;
  is_save_buffer_mode := false;
  get_error_proc_policy := 2097152;
  bufspec_lock := true;
  mvfrm := None
}.

#[local] Instance calm_driver_ok : H264DriverOk false.
Proof.
  split; [done| |done]. intros ev i fe Hin. change (Some (i, fe) ∈ repeat None 64) in Hin. by apply list_elem_of_In, repeat_spec in Hin.
Qed.

Definition zeroed : h264_dpb_stru :=
  mk_h264 (mk_param [] [] [] [] [] 0 0 0 0 0 0 (0, 0) (0, 0) (0, 0)) 0 0 0 0 0 0 0 0 zero_dpb zero_slice zero_video zero_sps (repeat zero_pic 129) (repeat zero_fs 33)
    false false false FirstInsertFrm_IDLE 0 0 false false false [].

(** The header of a frame that is a reference: an IDR picture or one that is
    predicted. *)
Definition frame_header (idr : bool) (frame_num lsb : Z) : op :=
  let data := <[Z.to_nat LOG2_MAX_FRAME_NUM := 4]> (<[Z.to_nat LOG2_MAX_PIC_ORDER_CNT_LSB := 4]> (<[Z.to_nat MAX_REFERENCE_FRAME_NUM := 2]>
    (<[Z.to_nat SLICE_TYPE := if idr then 2 else 5]> (repeat 0 256)))) in
  Header (mk_param data (repeat 0 128) (3 :: repeat 0 65) (3 :: repeat 0 65) (repeat 0 44) (if idr then 0x65 else 0x61) 0 frame_num lsb 0 0 (0, 0) (0, 0) (0, 0))
    FrameNumGap_Null.

Definition short_stream : list op :=
  [Reset 4 2 true; Recover 0; Shown 3; Tune (mk_settings 1 4 6 0 0 FirstInsertFrm_IDLE false); frame_header true 0 0; Done 0; frame_header false 1 2; Done 0; frame_header false 2 4; Drop; Recover 2; Shown 0; Flush].

Lemma frame_header_ok idr n lsb ph : ph = Empty true ∨ ph = Live true → op_ok ph (frame_header idr n lsb).
Proof.
  intros Hph. assert (regs_ok true (mk_param (<[Z.to_nat LOG2_MAX_FRAME_NUM := 4]> (<[Z.to_nat LOG2_MAX_PIC_ORDER_CNT_LSB := 4]> (<[Z.to_nat MAX_REFERENCE_FRAME_NUM := 2]>
    (<[Z.to_nat SLICE_TYPE := if idr then 2 else 5]> (repeat 0 256))))) (repeat 0 128) (3 :: repeat 0 65) (3 :: repeat 0 65) (repeat 0 44) (if idr then 0x65 else 0x61) 0 n lsb 0 0 (0, 0) (0, 0) (0, 0))).
  { destruct idr; (split; [done|done|done|split; [by vm_compute|intros _; by left]|by vm_compute|by vm_compute|done]). }
  by destruct Hph as [->| ->].
Qed.

Lemma short_stream_ok : ops_ok Raw short_stream (Live true).
Proof.
  unfold short_stream. cbn [ops_ok]. do 13 (split; [first [by apply frame_header_ok; (left + right)|done]|eexists; split; [reflexivity|]]). done.
Qed.

Lemma dpb_session_safe_witness : blank false zeroed ∧ ops_ok Raw short_stream (Live true) ∧ ∃ s', run short_stream zeroed = Ok tt s' ∧ consistent s'.
Proof.
  split; [by vm_compute|]. split; [apply short_stream_ok|]. apply (dpb_session_safe false short_stream (Live true) zeroed); [by vm_compute|apply short_stream_ok].
Defined.
