(* ===== verification/H264Spec.v ===== *)
(** What the operations of the H.264 decoded picture buffer do
    (src/drivers/frame_provider/decoder/h264_multi/h264_dpb.c), between any
    two operations of the driver: the order of the reference lists of P and B
    slices, the effect of one modification command, the choice of the frame
    that is put out, the contents of the list of references, and that a flush
    leaves no frame behind. *)

From stdpp Require Import base list numbers sorting gmap.
From Stdlib Require Import ZArith Lia Bool.
From S2P Require Import Prelude H264Types H264Pool H264Display H264Slice H264Mark H264Store H264Lists H264Header H264Inv H264MarkOk H264PoolOk H264Fill H264DisplayOk H264Safe H264Keeps.
From S2P Require Import H264ListsOk H264ListsB H264Reorder H264HeaderOk H264Start H264NewPic H264Life.

#[local] Open Scope Z_scope.

(** ** States of a run *)

#[local] Existing Instance calm_driver.
#[local] Existing Instance calm_driver_ok.

Definition state_after (l : list op) : h264_dpb_stru := match run l zeroed with Ok _ s => s | _ => zeroed end.

Lemma run_live m l : ops_ok Raw l (Live m) → ∃ dec, live false m dec (state_after l).
Proof.
  intros Hl. assert (wp False (run l) (fun _ s' => in_phase false (Live m) s') (fun _ _ => False) zeroed) as W.
  { eapply (session_ok false l Raw); [by vm_compute|exact Hl|done]. }
  unfold wp in W. unfold state_after. by destruct (run l zeroed).
Qed.

(** Three frames, of which the third has not been decoded yet. *)
Definition two_frames : list op := take 8 short_stream.

Lemma two_frames_ok : ops_ok Raw two_frames (Live true).
Proof. unfold two_frames, short_stream. cbn [ops_ok take]. do 8 (split; [first [by apply frame_header_ok; (left + right)|done]|eexists; split; [reflexivity|]]). done. Qed.

Lemma two_frames_live : ∃ dec, live false true dec (state_after two_frames).
Proof. apply run_live, two_frames_ok. Qed.

Lemma two_frames_active : active_ok (mSlice (state_after two_frames)).
Proof. by vm_compute. Qed.

(** A run of a total operation. *)
Lemma wp_runs {A} (c : D A) (R : A → h264_dpb_stru → Prop) s : wp False c R (fun _ _ => False) s → ∃ a s', c s = Ok a s' ∧ R a s'.
Proof. unfold wp. destruct (c s) as [a s'| |]; [|done..]. intros H. by exists a, s'. Qed.

(** ** The lists of a slice *)

Section Spec.
Context (wdm m : bool) (dec : option Z) (s : h264_dpb_stru) (Hs : live wdm m dec s).

Lemma live_lists : lists_ok (lists_of s) ∧ view s (lists_of s) = s.
Proof. destruct Hs as [q [HI _]]. split; [apply lists_of_ok; [apply (iv_slice HI)|apply (iv_refs HI)]|apply view_lists_of, (iv_slice HI)]. Qed.
End Spec.

(** C16: the reference list of a P slice starts in the order of the standard
    (8.2.4.2.1 and 8.2.4.2.5).  For frames: the short-term references by
    falling picture number, then the long-term ones by rising number.  For
    fields: the frame stores with short-term references by falling frame
    number, then those with long-term ones by rising index, their fields in
    turn, those of the slice's parity first.  The list has at most as many
    entries as the slice header says, the places behind them hold the picture
    for missing references, and list 1 is empty. *)
Theorem init_lists_p_slice_spec wdm m dec s : live wdm m dec s → active_ok (mSlice s) →
  ∃ Lst c', init_lists_p_slice s = Ok tt (view s c') ∧ p_list s (sl_structure (mSlice s)) Lst ∧
    final_list s 0 Lst (num_ref_idx_active (mSlice s)).1 c' ∧ get_n 1 c' = 0.
Proof.
  intros Hs Ha. destruct (live_lists _ _ _ _ Hs) as [Hc Hv]. pose proof (live_noref _ _ _ _ Hs) as Hno. destruct Hs as [q Hs].
  assert (wp False init_lists_p_slice (fun _ s' => ∃ Lst c', s' = view s c' ∧ p_list s (sl_structure (mSlice s)) Lst ∧
    final_list s 0 Lst (num_ref_idx_active (mSlice s)).1 c' ∧ get_n 1 c' = 0) (fun _ _ => False) (view s (lists_of s))) as W.
  { eapply (init_p_slice_wp _ m _ s Hs); [done..|]. intros Lst c' Hp _ Hf H1. by exists Lst, c'. }
  rewrite Hv in W. apply wp_runs in W as ([] & s' & E & Lst & c' & -> & H). by exists Lst, c'.
Qed.

Lemma init_lists_p_slice_spec_witness : active_ok (mSlice (state_after two_frames)) ∧ ∃ Lst c', init_lists_p_slice (state_after two_frames) = Ok tt (view (state_after two_frames) c') ∧
  p_list (state_after two_frames) FRAME Lst ∧ get_n 1 c' = 0.
Proof.
  split; [apply two_frames_active|]. destruct two_frames_live as [dec Hl].
  destruct (init_lists_p_slice_spec false true dec (state_after two_frames) Hl two_frames_active) as (Lst & c' & E & Hp & _ & H1).
  exists Lst, c'. split; [exact E|]. split; [|exact H1]. exact Hp.
Defined.

(** C17: the reference lists of a B slice start in the order of the standard
    (8.2.4.2.3, 8.2.4.2.4 and 8.2.4.2.5).  For frames: list 0 has the
    short-term references that precede the picture, the nearest first, then
    those that follow it, the nearest first, then the long-term ones by rising
    number; list 1 has those that follow first.  For fields: frame stores in
    this order, their fields in turn.  When list 1 has several entries and is
    the same as list 0, its first two are exchanged.  The lists are cut to the
    sizes in the slice header and filled up. *)
Theorem init_lists_b_slice_spec wdm m dec s : live wdm m dec s → active_ok (mSlice s) →
  ∃ A B c', init_lists_b_slice s = Ok tt (view s c') ∧ b_lists s (mSlice s) A B ∧
    final_list s 0 A (num_ref_idx_active (mSlice s)).1 c' ∧ final_list s 1 B (num_ref_idx_active (mSlice s)).2 c'.
Proof.
  intros Hs Ha. destruct (live_lists _ _ _ _ Hs) as [Hc Hv]. pose proof (live_noref _ _ _ _ Hs) as Hno. destruct Hs as [q Hs].
  assert (wp False init_lists_b_slice (fun _ s' => ∃ A B c', s' = view s c' ∧ b_lists s (mSlice s) A B ∧
    final_list s 0 A (num_ref_idx_active (mSlice s)).1 c' ∧ final_list s 1 B (num_ref_idx_active (mSlice s)).2 c') (fun _ _ => False) (view s (lists_of s))) as W.
  { eapply (init_b_slice_wp _ m _ s Hs); [done..|]. intros A B c' Hp _ H0 H1. by exists A, B, c'. }
  rewrite Hv in W. apply wp_runs in W as ([] & s' & E & A & B & c' & -> & H). by exists A, B, c'.
Qed.

Lemma init_lists_b_slice_spec_witness : active_ok (mSlice (state_after two_frames)) ∧ ∃ A B c', init_lists_b_slice (state_after two_frames) = Ok tt (view (state_after two_frames) c') ∧
  b_lists (state_after two_frames) (mSlice (state_after two_frames)) A B.
Proof.
  split; [apply two_frames_active|]. destruct two_frames_live as [dec Hl].
  destruct (init_lists_b_slice_spec false true dec (state_after two_frames) Hl two_frames_active) as (A & B & c' & E & Hb & _). exists A, B, c'. split; [exact E|exact Hb].
Defined.

(** ** One modification command *)

Lemma moved_front s n r o same l : (r ≤ n)%nat → (n < length l)%nat → let rest := filter (fun o => keeps s same o = true) (take (n - r) (drop r l)) in
  take (S r + length rest) (moved s n r o same l) = take r l ++ o :: rest.
Proof.
  intros Hr Hn rest. unfold moved. fold rest. set (sub := take (n - r) (drop r l)) in *. assert (length sub = n - r)%nat as Hsub by (unfold sub; rewrite length_take, length_drop; lia).
  assert (length rest ≤ length sub)%nat as Hrest by apply length_filter. assert (length (splice r (o :: sub) l) = length l) as El by (apply length_splice; cbn; lia).
  apply list_eq. intros i. destruct (decide (i < S r + length rest)%nat) as [Hi|Hi].
  - rewrite lookup_take_lt by done. rewrite lookup_splice by lia. case_decide as H1.
    + rewrite lookup_splice by (cbn; lia). case_decide as H2; [rewrite lookup_app_l by (rewrite length_take; lia); by rewrite lookup_take_lt|].
      rewrite decide_True by (cbn; lia). rewrite lookup_app_r by (rewrite length_take; lia). rewrite length_take, Nat.min_l by lia. replace i with r by lia. by rewrite Nat.sub_diag.
    + rewrite decide_True by lia. rewrite lookup_app_r by (rewrite length_take; lia). rewrite length_take, Nat.min_l by lia.
      replace (i - r)%nat with (S (i - S r)) by lia. done.
  - rewrite lookup_take_ge by lia. symmetry. apply lookup_ge_None_2. rewrite length_app, length_take. cbn [length]. lia.
Qed.

(** one modification command (8.2.4.3.1 and 8.2.4.3.2): of a list of [n]
    entries, the picture is put at the current place [r]; the entries from
    there on follow it in their order, without those that are the same picture
    or none; what is before it stays, and the place moves on. *)
Theorem move_to_front_spec wdm m dec s x n r o same : live wdm m dec s → first_two x → (r ≤ n ≤ 32)%nat → ptr_ok o →
  let l := get_l x (lists_of s) in let rest := filter (fun o => keeps s same o = true) (take (n - r) (drop r l)) in
  ∃ l', move_to_front x (Z.of_nat n - 1) o same (Z.of_nat r) s = Ok (Z.of_nat (S r)) (view s (set_l x l' (lists_of s))) ∧
    take (S r + length rest) l' = take r l ++ o :: rest.
Proof.
  intros Hs Hx [Hr Hn] Ho l rest. destruct (live_lists _ _ _ _ Hs) as [Hc Hv]. destruct Hs as [q Hs]. exists (moved s n r o same l). split.
  - assert (wp False (move_to_front x (Z.of_nat n - 1) o same (Z.of_nat r)) (fun k s' => k = Z.of_nat (S r) ∧ s' = view s (set_l x (moved s n r o same l) (lists_of s))) (fun _ _ => False)
      (view s (lists_of s))) as W by (eapply (move_to_front_wp _ m _ s Hs); [done|done|lia|lia|done|done]).
    rewrite Hv in W. apply wp_runs in W as (k & s' & E & -> & ->). exact E.
  - apply moved_front; [done|]. pose proof (row_length _ x Hc Hx) as Hl. fold l in Hl. lia.
Qed.

Lemma move_to_front_spec_witness : let s := state_after two_frames in first_two 0 ∧ (0 ≤ 1 ≤ 32)%nat ∧ ptr_ok (Some 2) ∧
  ∃ l', move_to_front 0 0 (Some 2) (fun p => p_index p =? 2) 0 s = Ok 1 (view s (set_l 0 l' (lists_of s))).
Proof.
  intros s. assert (ptr_ok (Some 2)) as Hp by (intros p [= <-]; done). split; [by left|]. split; [lia|]. split; [exact Hp|]. destruct two_frames_live as [dec Hl].
  destruct (move_to_front_spec false true dec s 0 1 0 (Some 2) (fun p => p_index p =? 2) Hl ltac:(by left) ltac:(lia) Hp) as (l' & E & _). exists l'. exact E.
Defined.

(** ** References and output *)

(** after [update_ref_list] the list of references holds exactly the frame
    stores in use that have a short-term reference, in the order of the
    buffer, and its counter is their number; the places behind them, up to the
    size of the buffer, hold [dummy_fs]. *)
Theorem update_ref_list_spec wdm m dec s : live wdm m dec s →
  ∃ l, update_ref_list s = Ok tt (set_short (zlen (refs_with s short_term)) l s) ∧ holds l (refs_with s short_term) (size (mDPB s)).
Proof.
  intros [q Hs]. assert (wp False update_ref_list (fun _ s' => ∃ l, s' = set_short (zlen (refs_with s short_term)) l s ∧ holds l (refs_with s short_term) (size (mDPB s))) (fun _ _ => False) s) as W.
  { eapply (update_ref_list_wp _ m _ s (proj1 Hs)); [by eapply kept_start, Hs|]. intros l Hl. by exists l. }
  apply wp_runs in W as ([] & s' & E & l & -> & H). by exists l.
Qed.

Lemma update_ref_list_spec_witness : let s := state_after two_frames in refs_with s short_term = [Some 0; Some 1] ∧
  ∃ l, update_ref_list s = Ok tt (set_short 2 l s) ∧ aget l 1 = Some (Some 1) ∧ aget l 3 = Some (Some DUMMY_FS).
Proof.
  intros s. assert (refs_with s short_term = [Some 0; Some 1]) as Hr by by vm_compute. split; [exact Hr|]. destruct two_frames_live as [dec Hl].
  destruct (update_ref_list_spec false true dec s Hl) as (l & E & H). rewrite Hr in E, H. destruct H as (_ & H1 & H2). exists l. split; [exact E|].
  split; [rewrite (H1 1 ltac:(unfold zlen; cbn; lia)); reflexivity|]. apply H2. clear E Hr H1 H2. by vm_compute.
Defined.

(** [get_smallest_poc] finds the frame that is put out next: the first of
    the smallest order count among the frame stores in use that are neither
    put out nor handed over, its order count and its position; -1 when none of
    them has an order count below [INT_MAX], or when the driver does not say
    how its buffers are locked. *)
Theorem get_smallest_poc_spec `{H264Driver} wdm m dec s : live wdm m dec s →
  ∃ r, get_smallest_poc s = Ok r s ∧ if bufspec_lock then smallest s (used_size (mDPB s)) r else r = (INT_MAX, -1).
Proof.
  intros [q Hs]. assert (wp False get_smallest_poc (fun r s' => s' = s ∧ if bufspec_lock then smallest s (used_size (mDPB s)) r else r = (INT_MAX, -1)) (fun _ _ => False) s) as W.
  { eapply (get_smallest_poc_ok _ m); [done|]. intros r Hr. by split. }
  apply wp_runs in W as (r & s' & E & -> & Hr). by exists r.
Qed.

Lemma get_smallest_poc_spec_witness : let s := state_after two_frames in ∃ r, get_smallest_poc s = Ok r s ∧ smallest s 2 r.
Proof.
  intros s. destruct two_frames_live as [dec Hl]. destruct (get_smallest_poc_spec (H := calm_driver) false true dec s Hl) as (r & E & Hr). exists r. split; [exact E|].
  replace 2 with (used_size (mDPB s)) by by vm_compute. exact Hr.
Defined.

(** ** A flush *)

Lemma wp_both {A} (c : D A) (R1 R2 : A → h264_dpb_stru → Prop) E s : wp False c R1 E s → wp False c R2 E s → wp False c (fun a s' => R1 a s' ∧ R2 a s') E s.
Proof. unfold wp. by destruct (c s). Qed.

(** A loop that runs until its body says that it is done. *)
Lemma while_done (μ : h264_dpb_stru → Z) (I J : h264_dpb_stru → Prop) body (R : bool → h264_dpb_stru → Prop) E n : ∀ s, I s → μ s < Z.of_nat n →
  (∀ s, I s → 0 ≤ μ s ∧ wp False body (fun b s' => I s' ∧ (b = true → μ s' < μ s) ∧ (b = false → J s')) E s) →
  (∀ b s', I s' → J s' → R b s') → wp False (while_ n body) R E s.
Proof.
  revert R. induction n as [|n IH]; intros R s HI Hμ Hb HR; cbn [while_]; [destruct (Hb s HI); lia|].
  wp_step. eapply wp_mono; [apply Hb, HI| |done]. intros b s' (HI' & Hlt & Hj). destruct b; [|wp_step; apply HR; auto].
  wp_step. apply IH; [done|specialize (Hlt eq_refl); lia|done|]. intros b2 s2 H2 J2. wp_step. by apply HR.
Qed.

(** No frame store in use waits for output, unless its order count is the
    largest of all, which is never chosen. *)
Definition drained s : Prop := ∀ i k f, at_pos (mDPB s) i k → store s k = Some f → waiting f = true → INT_MAX ≤ f_poc f.

Section Flush.
Context (fx : fixed) (m : bool) (ex : list Z) `{!H264Driver} `{!H264DriverOk (x_display fx)}.
Hypothesis Hlock : bufspec_lock = true.
Hypothesis Haccept : ∀ ev, accepts (hw_state ev).
Implicit Types (s : h264_dpb_stru) (E : Z → h264_dpb_stru → Prop).

Lemma output_one_true s poc pos k f E : ok fx m ex s → at_pos (mDPB s) pos k → 0 ≤ k < DPB_SIZE_MAX → store s k = Some f → 0 ≤ f_buf_spec_num f < BUFSPEC_POOL_SIZE →
  wp False (output_one poc pos) (fun b _ => b = true) E s.
Proof.
  intros Hs Hpos Hk Hf Hb. eapply (prepare_handed fx m ex); [done|done|done|done|]. intros r s3 f3 H3 Hf3 Hr _. assert ((0 <=? r) = true) as -> by (apply Z.leb_le; auto).
  wp_step. wp_step. wp_step. apply (wp_mono _ (fun _ _ => True) _ E); [| |done].
  - wp_step; [|done]. by eapply upd_fs_wp.
  - intros [] s4 _. wp_step. apply wp_modify. by wp_step.
Qed.

Lemma output_frames_drain s E : ok fx m ex s → buffered_but None s →
  wp False (output_frames true) (fun b s' => (ok fx m ex s' ∧ buffered_but None s') ∧ (b = true → n_waiting s' < n_waiting s) ∧ (b = false → drained s')) E s.
Proof.
  intros Hs Hb. eapply wp_mono; [apply wp_retains, (wp_both _ (fun b s' => ok fx m ex s' ∧ (b = true → n_waiting s' < n_waiting s)) (fun b s' => b = false → drained s'))| |done].
  - apply retains_output_flush.
  - exact Hb.
  - by apply (output_frames_ok fx m ex).
  - unfold output_frames. do 2 (wp_step; cbv iota; wp_step; cbv iota). wp_step. apply (get_smallest_poc_ok fx m ex); [done|].
    intros [poc pos]. rewrite Hlock. intros [Hmin Hr]. cbn [fst snd] in Hmin, Hr. wp_step.
    + wp_step. intros _ i k f [Hi Hk] Hf Hw. destruct Hr as [[_ ->]|(Hr & _)]; [by apply (Hmin i k f)|]. bprop. lia.
    + destruct Hr as [[-> _]|(Hr & _ & k & f & Hpos & Hk & Hf & _)]; [done|]. apply (wp_mono _ (fun b _ => b = true) _ E); [|by intros b s' ->|done].
      eapply output_one_true; [done|split; [exact Hr|exact Hpos]|done|done|]. apply (Hb k f); [done|done|done|].
      apply (iv_used (proj1 Hs) k f); [done|done|done|]. exists pos. by split.
  - cbv beta. tauto.
Qed.

Lemma flush_dpb_drain s E : ok fx m ex s → buffered_but None s → init_done (mDPB s) = true →
  wp False flush_dpb (fun _ s' => ok fx m ex s' ∧ drained s') E s.
Proof.
  intros Hs Hb Hi. unfold flush_dpb. wp_step. wp_step. rewrite Hi. wp_step; [|done]. wp_step.
  apply (wp_mono _ (fun _ s1 => ok fx m ex s1 ∧ buffered_but None s1) _ E); [apply wp_retains; [apply retains_for; intros i; apply retains_bind; [apply retains_ptr_of|intros k; apply retains_unmark]|exact Hb|]| |done].
  { apply (in_use_loop fx m ex (mDPB s) s); [by split| |].
    - intros i s1 H1 Hr. wp_step. eapply (fs_ptr_okd fx m ex); [done|done|]. intros k f Hk Hf. by eapply (unmark_ok fx m ex).
    - by intros s1 [H1 _]. }
  intros [] s1 [H1 B1]. wp_step.
  apply (wp_mono _ (fun _ s2 => ok fx m ex s2 ∧ buffered_but None s2) _ E); [apply wp_retains; [apply retains_while, retains_remove_unused_frame|exact B1|]| |done].
  { by apply (remove_unused_frames_ok fx m ex). }
  intros b s2 [H2 B2]. wp_step. unfold output_all. wp_step.
  apply (while_done n_waiting (fun s => ok fx m ex s ∧ buffered_but None s) drained); [done| | |].
  - pose proof (n_waiting_range fx m ex _ H2). unfold TURNS, DPB_SIZE_MAX in *. lia.
  - intros s3 [H3 B3]. split; [apply (n_waiting_range fx m ex _ H3)|]. by apply output_frames_drain.
  - intros c s3 [H3 _] D3. wp_step. apply (upd_dpb_ok fx m ex); [done|done..|by intros d; apply refs_same; auto|]. intros H4. by split.
Qed.
End Flush.

(** C23: a flush leaves nothing behind: when every frame store in use has a
    buffer, and the driver says how its buffers are locked and can take a frame
    whenever it is offered one (it does not recycle frames unseen, and fences
    are on or three vframes are free), then after [flush_dpb] every frame store
    in use has been put out or handed over -- but for one with the order count
    [INT_MAX], which is never chosen.  The driver is as [H264DriverOk] says:
    its table of buffers and the indices into it are whole, and where nothing
    is displayed fences are off and its queue for display is empty. *)
Theorem flush_dpb_complete wdm m dec s `{!H264Driver} `{!H264DriverOk wdm} : live wdm m dec s → bufspec_lock = true → (∀ ev, accepts (hw_state ev)) →
  (∀ k f, 0 ≤ k < DPB_SIZE_MAX → store s k = Some f → has_buffer f) → ∃ s', flush_dpb s = Ok tt s' ∧ live wdm m dec s' ∧ drained s'.
Proof.
  intros [q Hs] Hlock Ha Hb. pose proof (f_equal x_init (iv_fixed (proj1 Hs))) as Hi. cbn in Hi.
  pose proof (flush_dpb_drain (mk_fixed wdm true dec (Some q)) m _ (H264DriverOk0 := H264DriverOk0) Hlock Ha s (fun _ _ => False) Hs (fun k f Hk _ => Hb k f Hk) Hi) as W.
  apply wp_runs in W as ([] & s' & E & H1 & H2). exists s'. split; [exact E|]. split; [by exists q|exact H2].
Qed.

Lemma buffers_checked l k f : forallb (fun f => (f_is_used f =? 0) || ((0 <=? f_buf_spec_num f) && (f_buf_spec_num f <? 64))) (take 32 l) = true →
  0 ≤ k < DPB_SIZE_MAX → aget l k = Some f → has_buffer f.
Proof.
  intros Hb Hk [_ Hf]%aget_inv. rewrite forallb_forall in Hb. specialize (Hb f). assert (f ∈ take 32 l) as Hin by (apply elem_of_take; exists (Z.to_nat k); unfold DPB_SIZE_MAX in *; split; [done|lia]).
  apply list_elem_of_In in Hin. specialize (Hb Hin). intros Hu. unfold BUFSPEC_POOL_SIZE. apply orb_true_iff in Hb as [?%Z.eqb_eq|[?%Z.leb_le ?%Z.ltb_lt]%andb_true_iff]; [done|lia].
Qed.

Lemma two_frames_buffered k f : 0 ≤ k < DPB_SIZE_MAX → store (state_after two_frames) k = Some f → has_buffer f.
Proof. apply buffers_checked. by vm_compute. Qed.

Lemma flush_dpb_complete_witness : let s := state_after two_frames in (bufspec_lock = true ∧ (∀ ev, accepts (hw_state ev)) ∧ ∀ k f, 0 ≤ k < DPB_SIZE_MAX → store s k = Some f → has_buffer f) ∧
  ∃ s', flush_dpb s = Ok tt s' ∧ drained s'.
Proof.
  intros s. assert (∀ ev, accepts (hw_state ev)) as Ha by (intros ev; split; [reflexivity|right; by vm_compute]).
  split; [split; [reflexivity|split; [exact Ha|exact two_frames_buffered]]|]. destruct two_frames_live as [dec Hl].
  destruct (@flush_dpb_complete false true dec s calm_driver calm_driver_ok Hl eq_refl Ha two_frames_buffered) as (s' & E & _ & H). exists s'. split; [exact E|exact H].
Defined.
